(* ===== verification/_CoqProject ===== *)
-Q . S2P
Prelude.v
GoStr.v
GoFmt.v
NetIP.v
F64.v
Ubus.v
GoJson.v
UbusTrace.v
ApplyEngine.v
ApplyEngineSpec.v
Alerts.v
AlertsSpec.v
AlertsAdmin.v
Webhook.v
AlertsRuns.v
Sha256.v
RenderPlan.v
RenderPlanSpec.v
Reconcile.v
AuditText.v
ReconcileSpec.v
DeviceGate.v
DeviceGateSpec.v
Telemetry.v
RatesSpec.v
RingsSpec.v
SiteModel.v
SitePolicy.v
SiteModelSpec.v
SiteValidSpec.v
SitePolicySpec.v
Capability.v
RenderNetwork.v
RenderZones.v
RenderPolicy.v
RenderWireless.v
Render.v
RenderSpec.v
RenderDocSpec.v
RenderNames.v
RenderProps.v
RenderMatrix.v
RenderRuns.v
NftPolicy.v
NftPolicySpec.v
Preview.v
DhcpHealth.v
WirelessHealth.v
RuntimeHealth.v
RuntimeHealthSpec.v
RuntimeHealthTime.v
JsonText.v
Topology.v
TopologyIntervals.v
TopologyView.v
TopologyRoots.v
TopologyIntervalsSpec.v
TopologyStore.v
TopologyGraph.v
TopologyInferSpec.v
TopologyInfer.v
TopologyViewSpec.v
TopologyParse.v
TopologyDecode.v
TopologyCollect.v
TopologyDb.v
TopologyDbSpec.v
TopologyContent.v
TopologyIngest.v
TopologyEvents.v
TopologyIngestSpec.v
TopologyRuns.v
RestoreMarker.v
RestoreDisk.v
RestoreSwap.v
RestoreReads.v
RestoreInv.v
RestoreSwapSpec.v
RestoreApplySpec.v
RestoreHistory.v
