(* ===== verification/Prelude.v ===== *)
(** * oonfeeWRT controller: verification development (root file)

    oonfeeWRT is a controller for OpenWrt devices, written in Go. An operator
    describes a site (networks, zones, policies, WLANs, meshes, per-device
    overrides); the controller validates it, renders one UCI document per
    device, compares the document with what the device has, stages the
    difference over ubus behind a rollback timer, checks health and confirms.
    Around that it keeps a record of what it owns, serialises operations per
    device, collects telemetry and raises alerts. This library models those
    parts and proves what each promises. It also infers how devices and clients
    are connected from what every poll reports, and keeps that graph with its
    history; and it replaces its own database and keyring from a backup in steps
    that a crash may interrupt anywhere.

    ** The parts, and how they interact

    <<
      SiteModel, SitePolicy      what the operator wants     internal/model
        | Validate (canonical site or errors)
      Capability                 what a device can do        internal/capability
        |                                                    (registry.go, defects.go)
      RenderNetwork, RenderZones, RenderPolicy,
      RenderWireless, Render     Site -> Doc + Report        internal/render
        | Doc
      RenderPlan                 Doc + device -> operations  internal/render/plan.go
        | Plan
      Reconcile, AuditText       read, plan, apply, record   internal/reconcile
      NftPolicy, Preview         the running firewall, read  firewall_policy.go
        |
      ApplyEngine                stage, arm, check, confirm  internal/applyengine
        |                          | while armed
        |                        RuntimeHealth (DhcpHealth, WirelessHealth)
        |                          the health check           internal/daemon
      Ubus                       sessions, calls, batches    internal/ubus
    >>

    <<
      TopologyCollect      a poll's answers -> sources, tables   internal/collector
        | Snapshot           (TopologyParse, TopologyDecode)     internal/topology
      TopologyIngest       aliases, what may be placed           internal/daemon
        | InferenceInput
      Topology             Infer: edges with evidence            internal/topology
        | observed edges, active intervals
      TopologyIntervals    reconcile: rows to open, update, close
        | changes
      TopologyDb           one atomic write; the queries         internal/store
        | current edges
      TopologyView         what is shown
    >>

    <<
      RestoreMarker        the durable documents of a restore    internal/restoreswap
        |
      RestoreDisk          files, and what may happen to a call
        |
      RestoreSwap          intent -> clean shutdown -> swap -> clean-up
        |                  (and what the daemon does at start)   internal/daemon
      RestoreHistory       any sequence of starts
    >>

    Beside these paths: DeviceGate (internal/daemon/device_operation.go)
    serialises whatever is done to one device; Telemetry (internal/telemetry)
    turns counters into rates, rings and rollups; Alerts, AlertsAdmin and
    Webhook (internal/alerts, internal/store/alerts.go) evaluate rules over
    readings and deliver notifications.

    ** Files

    Shared: Prelude (results, a state monad, machine integers, tactics, the
    hint database [oonfee], list lemmas), GoStr (strings, runes, strconv),
    GoFmt (fmt verbs; an error is its text), NetIP (net/netip and MAC
    addresses), F64 (binary64 over SpecFloat), Sha256, GoJson (encoding/json's
    parser and the decoding into structs and maps).

    Models, one operation of the code per definition and under its name:
    - Ubus: status.go, client.go, batch.go. The HTTP round trip and the login
      of a device are the parameters of its world.
    - ApplyEngine: engine.go and plan.go, every call in order, with the client's
      context, clock and sleeping in the world.
    - SiteModel, SitePolicy: the data and functions of internal/model. [Validate]
      returns the site as the canonicalization through its pointers leaves it.
    - Capability: the registry as the renderer reads it, and the defect table.
    - RenderNetwork .. Render: network.go, policy.go, mesh.go, uplink.go,
      mobility.go and render.go. The document and the report are passed along
      as the code passes its locals.
    - RenderPlan: the data of render.go, addOwned, addPatch, and plan.go.
    - Reconcile, AuditText: reconcile.go; the ledger is a parameter.
    - NftPolicy: firewall_policy.go: the ruleset the device prints, parsed, and
      the chains in reach of transit traffic, walked. Preview composes it and
      the renderer with the reconciler's planner.
    - DhcpHealth, WirelessHealth: what a plan claims about DHCP, interfaces and
      wireless, and how one observation is judged (dhcphealth.go,
      wirelesshealth.go). RuntimeHealth: the observations themselves, the settle
      loops and healthCheck of provision.go.
    - DeviceGate: the gate as a step relation over its shared records.
    - Telemetry: rate, ratio, rings, rollups and flushing.
    - Alerts, AlertsAdmin, Webhook: rules, the evaluation tick, delivery,
      administration, and the checks of a webhook URL.
    - Topology: identities, sources, candidates and inference of infer.go;
      TopologyIntervals: its reconciliation with stored intervals;
      TopologyView: its presentation.
    - JsonText, TopologyParse, TopologyDecode: the text and JSON that devices
      answer (parse.go, lldp.go). TopologyCollect: one poll's topology calls,
      counted and decoded (topology_collect.go, poll.go).
    - TopologyDb: the interval and source tables of store/observability.go, the
      SQL written out over rows; rows hold the values of their JSON columns.
    - RestoreMarker: marker.go, and the documents of receipt.go and
      suppression.go. RestoreDisk: the calls of files.go and reconcile.go, over a
      disk of files, directories and documents; a list of fates says which calls
      work, fail or are where the process dies. RestoreSwap: apply.go,
      restoreswap.go, receipt.go, suppression.go, and reconcileRestoreStartup of
      daemon/restore_lifecycle.go; the class [Vault] is what it asks of keyrings,
      backups and closed databases.
    - TopologyIngest: daemon/topology_ingest.go. TopologyEvents: whatever else
      writes those tables, and histories that interleave it all.

    A file named Spec (ApplyEngineSpec, AlertsSpec, RenderPlanSpec, RenderSpec,
    RenderDocSpec, ...) or UbusTrace, RenderNames, RenderProps,
    RenderMatrix, RuntimeHealthTime, TopologyStore, TopologyGraph, TopologyRoots,
    TopologyInfer, TopologyContent, RestoreReads, RestoreInv, RestoreHistory
    holds theorems (RestoreDisk also holds the program logic they are proved
    with); a file or a Module
    named Runs holds concrete inputs, on which the definitions are evaluated and each theorem with hypotheses is
    applied.

    ** What the theorems show

    - Applying (C1, C2, C5, ApplyEngineSpec; C3, C6, RuntimeHealthSpec): Applied
      means a rollback armed with its whole window in budget, a clean health
      check and a confirm accepted inside that window; Reverted was observed,
      and whatever is not applied is discarded; the run ends. With the daemon's
      own health check, only the plan's requests and the reads of the check are
      sent (C3), and an applied plan was healthy within its window (C6), where a
      radio that does not answer names no SSID.
    - Health (C25, RuntimeHealthTime): the health check returns whatever the
      device answers, within its deadlines, and satisfies the contract the apply
      engine asks for.
    - Transport (C10, Ubus): exactly-once batches, and the retry policy.
    - Site model (C8, C16, C18, C23): round trips of override paths (and of
      function sets); in an accepted site the
      addressing is sound, zones are distinct and well formed and the effective
      matrix is what was written, and no two policies contradict one another,
      a denial and a port forward included.
    - Rendering (C14, C21, C24, C33, C36, C37, C40): [RenderSpec] proves once that a
      render is a sequence of additions with known origins; from it follow role
      gating, validity of the document and respect for unmarked sections, the
      zone matrix, agreement of all access points of a WLAN, that nothing is
      deleted out of ignorance, and that no WLAN disappears without a word, on
      none of its bands. Unmarked sections survive the plan of any rendered
      document (C21, RenderProps), but for the station of a wireless uplink.
    - Planning (C20, RenderPlanSpec): over any device that satisfies the
      interface [UciDevice], one application converges, what a document does not
      name is left alone, and every owned section has exactly one fate. Its
      Module [PlanRuns] gives an instance.
    - Reconciling (C27): the record matches the device, the books are
      honest, audit text is bounded well-formed UTF-8.
    - Foreign firewall policy (C26, C29): the check reports exactly the foreign
      artifacts in reach of transit traffic, and a preview that raises no
      conflict for an explicit zone matrix has read the ruleset and found none.
    - Device gate (C31, C32): mutual exclusion, fencing, progress, over
      all interleavings.
    - Alerts (C11, C12, C19): durable states before notifications, incidents
      only after sustained breaches and closed only by new evidence, webhook
      safety, and a tick that fails when the clock has stepped back over the
      start of an incident that recovers.
    - Telemetry (C35): true rates, rings that keep the last samples (and
      rollups that account for every sample).
    - Topology. Inferring (C30, C34, TopologyInfer): edges are exactly what was
      reported, never a winner picked; confidence, marks and completeness say
      what the evidence says, both ways. Reconciling (C17,
      TopologyGraph; C22, TopologyRoots): competing placements are marked over
      the whole fleet, and the depths behind the managed hierarchy are
      distances. Storing (C4, C7, C15, TopologyIngestSpec): over every history
      of polls, failures, restarts, deletions and pruning the tables stay sound
      and every read succeeds; a recorded poll is in the database, for the store
      never refuses what inference produces; the past does not change. Showing (C39, TopologyViewSpec): only
      what may be transit is hidden.
    - Restoring (C9, C13, C28, C38, RestoreHistory). [recoverable] describes every
      disk a restore can be found in, and each step keeps it, whatever fails
      (RestoreSwapSpec, RestoreApplySpec): over any history of starts the
      controller's pair is never lost, a new pair in place is the prepared one,
      and the fence is up before it can be used; crashes alone only delay a restore; a pair that does not
      validate is given up and undone; retention never removes an artifact that
      may still be needed. [stuck_at_cleanup] is the one corner that is not
      recovered from, and needs an I/O error and a crash.

    ** Bounds and fuel

    Integers are Z with [i64] and [u64] where Go's int or uint64 can wrap.
    Fuel: the confirm poll runs at most one attempt per interval of the
    rollback window, and C5 proves it ends by itself; a batch has as many
    rounds as calls; quoting, trimming and rune counting use the length of
    their input, of which every step consumes at least one byte; an IPv6
    address has at most eight groups; the JSON parser gets twice the length of
    its input ([parse_fuel] proves it never runs out); the walk over nftables
    chains gets one step per start and per statement; a settle loop sleeps a
    second a round and gives up after 20, so 22 rounds are enough (C25); the depths of managed devices settle in a
    round per edge and one more (C22), the transit queue takes every spot once
    (C39), and the neighbour parser a step per token. Floats are binary64 without fused
    multiply-add. Go map iteration appears only where the code sorts, keeps a
    set, or the order cannot be seen; [sort.Slice] is a stable merge sort, and
    each use notes why equal keys do not matter.

    Strings are byte strings. [ToLowerRunes] folds the runes whose lower case
    is ASCII; [Quote] copies a well-formed non-ASCII rune, as Go does for
    printable ones. Texts of reports and errors are modelled verbatim.

    ** Not modelled

    The store (SQL) beyond the topology tables, the HTTP API, the collector
    beyond its topology calls and the capability probe
    (decoding of third-party JSON and text), discovery, adoption and
    provisioning (network and ssh I/O), the making of backups and their
    cryptography and the web interface: where modelled code uses them they are
    parameters with named assumptions, or they are inputs. The texts of
    encoding/json's own errors are a parameter of the decoders; numbers in the
    detail of a topology evidence are exact below 2^53. The runtime
    proofs of internal/reconcile (firewall_health.go, firewall_policy_health.go,
    policy_health.go) and the mesh proof of the daemon are not modelled.
    Of the restore swap: file systems that reorder metadata operations or lose
    data that was synced, processes other than the coordinator that change its
    files meanwhile, the temporary file of [writeJSONAtomic] (nobody reads it),
    the JSON and base64 text of the documents (a document that does not decode
    is [Malformed]), and the hooks of its tests.

    ** Plan

    What would come next: the firewall proofs that run while a rollback is armed,
    telemetry's [Observe], the apply barrier and admission of the API. "Not
    modelled" says what stays a parameter. *)

From Stdlib Require Import ZArith Lia Ascii String Sorted.
From stdpp Require Import base gmap strings list.

#[global] Open Scope Z_scope.

(** ** Results of fallible code

    A Go function returning [(T, error)] becomes a function returning
    [res E T]; the zero value that accompanies a non-nil error is dropped
    because no modelled caller reads it. *)
Inductive res (E A : Type) : Type :=
| Ok (a : A)
| Err (e : E).
Arguments Ok {E A} a.
Arguments Err {E A} e.

#[global] Instance res_eq_dec {E A} `{EqDecision E, EqDecision A} : EqDecision (res E A).
Proof. solve_decision. Defined.

Definition is_ok {E A} (r : res E A) : bool :=
  match r with Ok _ => true | Err _ => false end.

Declare Scope go_scope.
Delimit Scope go_scope with go.

Notation "'let?' x ':=' c1 'in' c2" :=
  (match c1 with Ok x => c2 | Err e => Err e end)
  (at level 10, x pattern, c1 at level 200, c2 at level 200) : go_scope.

(** ** State-passing code

    [M S A] is a step of a stateful component: the Go receiver and the world
    it talks to are the state [S]. *)
Definition M (S A : Type) : Type := S -> A * S.

Definition ret {S A} (a : A) : M S A := fun s => (a, s).
Definition bind {S A B} (m : M S A) (k : A -> M S B) : M S B :=
  fun s => let '(a, s') := m s in k a s'.

Notation "'do' x '<-' m ';' k" := (bind m (fun x => k))
  (at level 10, x pattern, m at level 200, k at level 200) : go_scope.
Notation "'do!' m ';' k" := (bind m (fun _ => k))
  (at level 10, m at level 200, k at level 200) : go_scope.

#[global] Open Scope go_scope.

Lemma bind_run {S A B} (m : M S A) (k : A -> M S B) s a s' :
  m s = (a, s') -> bind m k s = k a s'.
Proof. intros H. unfold bind. by rewrite H. Qed.

Lemma bind_inv {S A B} (m : M S A) (k : A -> M S B) s b s' :
  bind m k s = (b, s') -> exists a s1, m s = (a, s1) /\ k a s1 = (b, s').
Proof. unfold bind. destruct (m s) as [a s1]. eauto. Qed.

(** ** Fixed-width integers *)

Definition maxInt64 : Z := 2 ^ 63 - 1.
Definition minInt64 : Z := - 2 ^ 63.
Definition maxUint32 : Z := 2 ^ 32 - 1.

(** Go's int64 arithmetic wraps. *)
Definition i64 (z : Z) : Z := (z + 2 ^ 63) mod 2 ^ 64 - 2 ^ 63.
(** uint64 arithmetic wraps. *)
Definition u64 (z : Z) : Z := z mod 2 ^ 64.

Definition in_i64 (z : Z) : Prop := minInt64 <= z <= maxInt64.
Definition in_u64 (z : Z) : Prop := 0 <= z < 2 ^ 64.

Lemma i64_id z : in_i64 z -> i64 z = z.
Proof. unfold in_i64, minInt64, maxInt64, i64. intros. rewrite Z.mod_small; lia. Qed.

Lemma i64_range z : in_i64 (i64 z).
Proof.
  unfold in_i64, minInt64, maxInt64, i64.
  pose proof (Z.mod_pos_bound (z + 2 ^ 63) (2 ^ 64)). lia.
Qed.

Lemma u64_id z : in_u64 z -> u64 z = z.
Proof. unfold in_u64, u64. intros. by apply Z.mod_small. Qed.

Lemma u64_range z : in_u64 (u64 z).
Proof. unfold in_u64, u64. apply Z.mod_pos_bound. lia. Qed.

(** ** Tactics *)

(** Turn boolean comparisons in the context into propositions. *)
Ltac bool_prop :=
  repeat match goal with
  | H : (_ && _)%bool = true |- _ => apply andb_true_iff in H as [? ?]
  | H : (_ && _)%bool = false |- _ => apply andb_false_iff in H
  | H : (_ || _)%bool = false |- _ => apply orb_false_iff in H as [? ?]
  | H : (_ || _)%bool = true |- _ => apply orb_true_iff in H
  | H : negb _ = true |- _ => apply negb_true_iff in H
  | H : negb _ = false |- _ => apply negb_false_iff in H
  | H : (_ <? _) = true |- _ => apply Z.ltb_lt in H
  | H : (_ <? _) = false |- _ => apply Z.ltb_ge in H
  | H : (_ <=? _) = true |- _ => apply Z.leb_le in H
  | H : (_ <=? _) = false |- _ => apply Z.leb_gt in H
  | H : (_ =? _) = true |- _ => apply Z.eqb_eq in H
  | H : (_ =? _) = false |- _ => apply Z.eqb_neq in H
  | H : String.eqb _ _ = true |- _ => apply String.eqb_eq in H
  | H : String.eqb _ _ = false |- _ => apply String.eqb_neq in H
  | H : bool_decide _ = true |- _ => apply bool_decide_eq_true in H
  | H : bool_decide _ = false |- _ => apply bool_decide_eq_false in H
  end.

(** The same for a boolean goal. *)
Ltac bool_goal :=
  repeat match goal with
  | |- (_ && _)%bool = true => apply andb_true_iff; split
  | |- negb _ = true => apply negb_true_iff
  | |- (_ <? _) = true => apply Z.ltb_lt
  | |- (_ <=? _) = true => apply Z.leb_le
  | |- (_ =? _) = true => apply Z.eqb_eq
  | |- (_ =? _) = false => apply Z.eqb_neq
  | |- String.eqb _ _ = true => apply String.eqb_eq
  | |- bool_decide _ = true => apply bool_decide_eq_true
  end.

(** Case analysis on the innermost scrutinee of the goal or of a hypothesis,
    remembering its equation. *)
Ltac case_goal :=
  match goal with
  | |- context [match ?x with _ => _ end] =>
      lazymatch x with context [match _ with _ => _ end] => fail | _ => destruct x eqn:? end
  end.
Ltac case_hyp H :=
  match type of H with
  | context [match ?x with _ => _ end] =>
      lazymatch x with context [match _ with _ => _ end] => fail | _ => destruct x eqn:? end
  end.

(** Case analysis on the outermost condition of a hypothesis. *)
Ltac if_hyp H :=
  cbv zeta in H;
  match type of H with (if ?c then _ else _) = _ => destruct c eqn:? end.

(** Run case analysis on [H] until every branch is decided or closed. *)
Ltac branches H :=
  repeat (case_hyp H; simplify_eq/=; try done).

Create HintDb oonfee.
#[export] Hint Resolve i64_range u64_range : oonfee.

(** ** Lists and options *)

Lemma existsb_true_iff {A} (f : A -> bool) l :
  existsb f l = true <-> exists x, x ∈ l /\ f x = true.
Proof.
  rewrite List.existsb_exists.
  split; intros (x & Hx & Hf); exists x; split; auto; by apply list_elem_of_In.
Qed.

Lemma existsb_false_iff {A} (f : A -> bool) l :
  existsb f l = false <-> forall x, x ∈ l -> f x = false.
Proof.
  split.
  - intros H x Hx. destruct (f x) eqn:E; [|done].
    assert (existsb f l = true) by (apply existsb_true_iff; eauto). congruence.
  - intros H. destruct (existsb f l) eqn:E; [|done].
    apply existsb_true_iff in E as (x & Hx & Hf). rewrite (H x Hx) in Hf. congruence.
Qed.

Lemma forallb_true_iff {A} (f : A -> bool) l :
  forallb f l = true <-> forall x, x ∈ l -> f x = true.
Proof.
  rewrite List.forallb_forall.
  split; intros H x Hx; apply H; by apply list_elem_of_In.
Qed.

Lemma elem_of_flat_map {A B} (f : A -> list B) l y : y ∈ flat_map f l <-> exists x, x ∈ l /\ y ∈ f x.
Proof.
  rewrite list_elem_of_In, in_flat_map. split; intros (x & Hx & Hy); exists x; by rewrite ?list_elem_of_In in *.
Qed.

Lemma NoDup_flat_map {A B} (f : A -> list B) l : NoDup l -> (forall x, x ∈ l -> NoDup (f x)) ->
  (forall x x' y, x ∈ l -> x' ∈ l -> y ∈ f x -> y ∈ f x' -> x = x') -> NoDup (flat_map f l).
Proof.
  induction l as [|x l IH]; intros Hl Hf Hd; simpl; [constructor|]. apply NoDup_cons in Hl as [Hx Hl].
  apply NoDup_app. split_and!.
  - by apply Hf, list_elem_of_here.
  - intros y Hy Hy'. apply elem_of_flat_map in Hy' as (x' & Hx' & Hy'). apply Hx.
    rewrite (Hd x x' y); [done|by left|by right|done|done].
  - apply IH; [done| |]; intros; [by apply Hf; right|]. by eapply Hd; [right|right|..].
Qed.

Lemma NoDup_map_filter {A B} (g : A -> B) (P : A -> bool) l : NoDup (map g l) -> NoDup (map g (List.filter P l)).
Proof.
  induction l as [|x l IH]; cbn [map List.filter]; [done|]. intros [Hx Hl]%NoDup_cons. destruct (P x); [|auto].
  cbn [map]. apply NoDup_cons. split; [|auto]. intros Hin. apply Hx. apply list_elem_of_fmap in Hin as (y & -> & Hy).
  apply list_elem_of_fmap. exists y. split; [done|]. apply list_elem_of_In, List.filter_In in Hy as [Hy _]. by apply list_elem_of_In.
Qed.

Lemma elem_of_if_nil {A} (b : bool) (x : A) l : x ∈ (if b then [] else l) <-> b = false /\ x ∈ l.
Proof. destruct b; rewrite ?elem_of_nil; intuition done. Qed.

Lemma if_nil {A} (b : bool) (x : A) : (if b then [x] else []) = [] <-> b = false.
Proof. by destruct b. Qed.

Lemma flat_map_nil {A B} (f : A -> list B) l : flat_map f l = [] <-> forall x, x ∈ l -> f x = [].
Proof.
  induction l as [|x l IH]; cbn [flat_map]; [split; [intros _ x Hx; set_solver|done]|]. split.
  - intros H y Hy. apply app_eq_nil in H as [Hx Hl]. apply elem_of_cons in Hy as [->|Hy]; [done|].
    by apply IH.
  - intros H. rewrite (H x) by left. apply IH. intros y Hy. apply H. by right.
Qed.

(** The double loop [for i := range l { for j := i + 1; ... }]. *)
Fixpoint pairs {A B} (f : A -> A -> list B) (l : list A) : list B :=
  match l with
  | [] => []
  | a :: l' => (flat_map (f a) l' ++ pairs f l')%list
  end.

Lemma pairs_nil_cons {A B} (f : A -> A -> list B) a l :
  pairs f (a :: l) = [] <-> (forall b, b ∈ l -> f a b = []) /\ pairs f l = [].
Proof. cbn [pairs]. rewrite app_nil, flat_map_nil. done. Qed.

Lemma pairs_nil_app {A B} (f : A -> A -> list B) l1 l2 : pairs f (l1 ++ l2) = [] ->
  pairs f l2 = [] /\ forall a b, a ∈ l1 -> b ∈ l2 -> f a b = [].
Proof.
  induction l1 as [|x l1 IH]; cbn [app]; [intros ?; split; [done|]; set_solver|].
  rewrite pairs_nil_cons. intros [Hx Hl]. destruct (IH Hl) as [H2 Hc]. split; [done|].
  intros a b Ha Hb. apply elem_of_cons in Ha as [->|Ha]; [apply Hx; set_solver|by apply Hc].
Qed.

(** When the check is symmetric in its emptiness, the order does not matter. *)
Lemma pairs_nil_perm {A B} (f : A -> A -> list B) l l' :
  (forall a b, f a b = [] -> f b a = []) -> Permutation l l' -> pairs f l = [] -> pairs f l' = [].
Proof.
  intros Hsym HP. induction HP as [|x l l' HP IH|x y l|l1 l2 l3 HP1 IH1 HP2 IH2]; [done| | |auto].
  - rewrite !pairs_nil_cons. intros [Hx Hl]. split; [|auto]. intros b Hb. apply Hx. by rewrite HP.
  - rewrite !pairs_nil_cons. intros (Hy & Hx & Hl). split_and!; [|set_solver|done].
    intros b Hb. apply elem_of_cons in Hb as [->|Hb]; [apply Hsym, Hy; left|auto].
Qed.

Lemma pairs_nil_lookup {A B} (f : A -> A -> list B) l i j a b : pairs f l = [] ->
  l !! i = Some a -> l !! j = Some b -> (i < j)%nat -> f a b = [].
Proof.
  revert i j. induction l as [|x l IH]; intros i j H Hi Hj Hlt; [done|].
  apply pairs_nil_cons in H as [Hx Hl]. destruct i as [|i], j as [|j]; [lia| |lia|]; simpl in *.
  - simplify_eq. apply Hx. by eapply list_elem_of_lookup_2.
  - eapply IH; [done..|lia].
Qed.

(** The items that distinct positions of [l] contribute. *)
Lemma pairs_nil_flat_map {A C B} (f : A -> A -> list B) (g : C -> list A) l i j x y a b :
  pairs f (flat_map g l) = [] -> l !! i = Some x -> l !! j = Some y -> (i < j)%nat ->
  a ∈ g x -> b ∈ g y -> f a b = [].
Proof.
  revert i j. induction l as [|z l IH]; intros i j H Hi Hj Hlt Ha Hb; [done|].
  cbn [flat_map] in H. destruct (pairs_nil_app _ _ _ H) as [Hl Hc].
  destruct i as [|i], j as [|j]; [lia| |lia|]; simpl in *.
  - simplify_eq. apply Hc; [done|]. apply elem_of_flat_map. exists y. split; [|done].
    by eapply list_elem_of_lookup_2.
  - eapply IH; [done..|lia|done|done].
Qed.

Lemma Sorted_weaken {A} (R R' : relation A) l : (forall x y, R x y -> R' x y) -> Sorted R l -> Sorted R' l.
Proof.
  intros HR Hs. induction Hs as [|x l Hs IH Hd]; constructor; [done|].
  destruct Hd; constructor; by apply HR.
Qed.

Lemma filter_all {A} (P : A -> Prop) `{forall x, Decision (P x)} (l : list A) :
  (forall x, x ∈ l -> P x) -> filter P l = l.
Proof.
  induction l as [|x l IH]; intros Hl; [done|].
  rewrite filter_cons_True by (apply Hl, list_elem_of_here). f_equal. apply IH. intros y Hy.
  by apply Hl, list_elem_of_further.
Qed.

(** A Go map used as an association list: the first binding of a key. *)
Fixpoint assoc {V} (k : string) (l : list (string * V)) : option V :=
  match l with
  | [] => None
  | (k', v) :: l' => if String.eqb k k' then Some v else assoc k l'
  end.

(** [m[k] = v] on a Go map kept as an association list in insertion order. *)
Fixpoint assoc_set {V} (k : string) (v : V) (l : list (string * V)) : list (string * V) :=
  match l with
  | [] => [(k, v)]
  | (k', v') :: l' => if String.eqb k k' then (k, v) :: l' else (k', v') :: assoc_set k v l'
  end.

Lemma assoc_set_same {V} k (v : V) l : assoc k (assoc_set k v l) = Some v.
Proof.
  induction l as [|[k' v'] l IH]; simpl; [by rewrite String.eqb_refl|].
  destruct (String.eqb k k') eqn:E; simpl; [by rewrite String.eqb_refl|]. by rewrite E.
Qed.

Lemma assoc_set_other {V} k k' (v : V) l :
  k <> k' -> assoc k (assoc_set k' v l) = assoc k l.
Proof.
  intros Hne. induction l as [|[k2 v2] l IH]; simpl.
  - apply String.eqb_neq in Hne. by rewrite Hne.
  - destruct (String.eqb k' k2) eqn:E; simpl.
    + bool_prop. subst. apply String.eqb_neq in Hne. by rewrite Hne.
    + destruct (String.eqb k k2); [done|apply IH].
Qed.

(** Distinct elements in first-seen order: the [seen]-map idiom of the code. *)
Fixpoint first_seen_from {A} `{EqDecision A} (seen l : list A) : list A :=
  match l with
  | [] => []
  | x :: l' => if bool_decide (x ∈ seen) then first_seen_from seen l'
               else x :: first_seen_from (x :: seen) l'
  end.
Definition first_seen {A} `{EqDecision A} (l : list A) : list A := first_seen_from [] l.

Lemma elem_of_first_seen_from {A} `{EqDecision A} (l seen : list A) x :
  x ∈ first_seen_from seen l <-> x ∈ l /\ x ∉ seen.
Proof.
  revert seen. induction l as [|y l IH]; intros seen; simpl; [set_solver|].
  case_bool_decide as Hy.
  - rewrite IH. split; [set_solver|]. intros [Hx Hs]. split; [|done].
    apply elem_of_cons in Hx as [->|Hx]; [done|done].
  - rewrite elem_of_cons, IH. destruct (decide (x = y)) as [->|Hne]; set_solver.
Qed.

Lemma elem_of_first_seen {A} `{EqDecision A} (l : list A) x : x ∈ first_seen l <-> x ∈ l.
Proof. unfold first_seen. rewrite elem_of_first_seen_from. set_solver. Qed.

Lemma NoDup_first_seen_from {A} `{EqDecision A} (l seen : list A) :
  NoDup (first_seen_from seen l).
Proof.
  revert seen. induction l as [|y l IH]; intros seen; simpl; [constructor|].
  case_bool_decide as Hy; [apply IH|].
  constructor; [|apply IH]. rewrite elem_of_first_seen_from. set_solver.
Qed.

Lemma NoDup_first_seen {A} `{EqDecision A} (l : list A) : NoDup (first_seen l).
Proof. apply NoDup_first_seen_from. Qed.

#[export] Hint Rewrite @assoc_set_same : oonfee.
#[export] Hint Resolve @NoDup_first_seen : oonfee.
