(* ===== verification/GoStr.v ===== *)
(** * Go strings

    The part of Go's [strings], [strconv] and [sort] packages that the
    modelled code calls. A Go string is a byte sequence: Rocq's
    [String.string], whose characters are bytes. Functions that Go defines on
    runes ([TrimSpace]) are written on the UTF-8 encodings of the runes they
    distinguish, so they are exact on every byte string. *)

From Stdlib Require Import ZArith Lia Ascii String.
From stdpp Require Import base list strings sorting pretty.
From S2P Require Import Prelude.

Local Open Scope Z_scope.

(** ** Bytes *)

Definition byte_of (c : ascii) : Z := Z.of_N (N_of_ascii c).
Definition chr (z : Z) : ascii := ascii_of_N (Z.to_N z).

Definition is_upper (c : ascii) : bool := (65 <=? byte_of c) && (byte_of c <=? 90).
Definition is_lower (c : ascii) : bool := (97 <=? byte_of c) && (byte_of c <=? 122).
Definition is_digit (c : ascii) : bool := (48 <=? byte_of c) && (byte_of c <=? 57).

Definition lower_byte (c : ascii) : ascii :=
  if is_upper c then chr (byte_of c + 32) else c.
Definition upper_byte (c : ascii) : ascii :=
  if is_lower c then chr (byte_of c - 32) else c.

Fixpoint str_map (f : ascii -> ascii) (s : string) : string :=
  match s with
  | EmptyString => EmptyString
  | String c s' => String (f c) (str_map f s')
  end.

(** [strings.ToLower]/[ToUpper] on the ASCII letters; other bytes are kept.
    The code only lower-cases MAC addresses, hexadecimal digests, media types
    and names it then compares with ASCII text; where a non-ASCII rune could
    matter the caller uses [ToLowerRunes]. *)
Definition ToLower (s : string) : string := str_map lower_byte s.
Definition ToUpper (s : string) : string := str_map upper_byte s.

Definition chars (s : string) : list ascii := list_ascii_of_string s.
Definition of_chars (l : list ascii) : string := string_of_list_ascii l.

(** The runes whose simple folding is an ASCII letter: the letters themselves,
    U+017F (long s) and U+212A (Kelvin). *)
Fixpoint fold_runes (l : list ascii) : list ascii :=
  match l with
  | [] => []
  | c :: l1 =>
      match l1 with
      | d :: l2 =>
          if (byte_of c =? 197) && (byte_of d =? 191) then chr 115 :: fold_runes l2
          else match l2 with
               | e :: l3 =>
                   if (byte_of c =? 226) && (byte_of d =? 132) && (byte_of e =? 170)
                   then chr 107 :: fold_runes l3
                   else lower_byte c :: fold_runes l1
               | [] => lower_byte c :: fold_runes l1
               end
      | [] => [lower_byte c]
      end
  end.

(** [strings.EqualFold] against ASCII text. *)
Definition EqualFold (a b : string) : bool :=
  String.eqb (of_chars (fold_runes (chars a))) (of_chars (fold_runes (chars b))).

(** ** Trimming *)

Definition bytes (l : list Z) : list ascii := map chr l.

(** The UTF-8 encodings of the runes for which [unicode.IsSpace] holds. *)
Definition space_encodings : list (list ascii) :=
  map bytes
    [[9]; [10]; [11]; [12]; [13]; [32]; [194; 133]; [194; 160]; [225; 154; 128];
     [226; 128; 128]; [226; 128; 129]; [226; 128; 130]; [226; 128; 131];
     [226; 128; 132]; [226; 128; 133]; [226; 128; 134]; [226; 128; 135];
     [226; 128; 136]; [226; 128; 137]; [226; 128; 138]; [226; 128; 168];
     [226; 128; 169]; [226; 128; 175]; [226; 129; 159]; [227; 128; 128]].

Fixpoint strip_prefix (p l : list ascii) : option (list ascii) :=
  match p, l with
  | [], _ => Some l
  | a :: p', b :: l' => if Ascii.eqb a b then strip_prefix p' l' else None
  | _ :: _, [] => None
  end.

(** The first encoding of [encs] that starts [l], removed. *)
Fixpoint strip_any (encs : list (list ascii)) (l : list ascii) : option (list ascii) :=
  match encs with
  | [] => None
  | e :: encs' => match strip_prefix e l with
                  | Some r => Some r
                  | None => strip_any encs' l
                  end
  end.

Fixpoint trim_left_fuel (encs : list (list ascii)) (n : nat) (l : list ascii) : list ascii :=
  match n with
  | O => l
  | S n' => match strip_any encs l with
            | Some r => trim_left_fuel encs n' r
            | None => l
            end
  end.

Definition trim_left (encs : list (list ascii)) (l : list ascii) : list ascii :=
  trim_left_fuel encs (length l) l.

Definition trim_chars (l : list ascii) : list ascii :=
  let l1 := trim_left space_encodings l in
  rev (trim_left (map (@rev ascii) space_encodings) (rev l1)).

(** [strings.TrimSpace]. *)
Definition TrimSpace (s : string) : string := of_chars (trim_chars (chars s)).

(** [strings.Trim(s, cutset)] for a one-byte ASCII cutset. *)
Definition TrimByte (c : ascii) (s : string) : string :=
  of_chars (rev (trim_left [[c]] (rev (trim_left [[c]] (chars s))))).

(** [strings.ToLower] as far as a comparison with ASCII text can see it: the
    two non-ASCII runes whose lower case is ASCII, U+0130 and U+212A, become
    [i] and [k]; other non-ASCII bytes are kept. Both encodings start with a
    lead byte, so they are found wherever they occur. *)
Fixpoint lower_runes (l : list ascii) : list ascii :=
  match l with
  | [] => []
  | c :: l' =>
      match l' with
      | d :: l'' =>
          if (byte_of c =? 196) && (byte_of d =? 176) then chr 105 :: lower_runes l''
          else match l'' with
               | e :: l''' =>
                   if (byte_of c =? 226) && (byte_of d =? 132) && (byte_of e =? 170)
                   then chr 107 :: lower_runes l'''
                   else lower_byte c :: lower_runes l'
               | [] => lower_byte c :: lower_runes l'
               end
      | [] => [lower_byte c]
      end
  end.
Definition ToLowerRunes (s : string) : string := of_chars (lower_runes (chars s)).

(** [strings.Fields]: the maximal runs of non-space bytes; [word] is the
    current run, reversed. *)
Fixpoint fields_fuel (n : nat) (word l : list ascii) : list (list ascii) :=
  let flush := match word with [] => [] | _ => [rev word] end in
  match n, l with
  | O, _ | _, [] => flush
  | S n', c :: l' =>
      match strip_any space_encodings l with
      | Some r => (flush ++ fields_fuel n' [] r)%list
      | None => fields_fuel n' (c :: word) l'
      end
  end.
Definition Fields (s : string) : list string :=
  map of_chars (fields_fuel (String.length s) [] (chars s)).

(** ** Searching and splitting *)

Definition HasPrefix (s p : string) : bool := String.prefix p s.
Definition HasSuffix (s p : string) : bool :=
  bool_decide (is_Some (strip_prefix (rev (chars p)) (rev (chars s)))).

Fixpoint index_of (p s : string) : option nat :=
  if String.prefix p s then Some 0%nat
  else match s with
       | EmptyString => None
       | String _ s' => option_map S (index_of p s')
       end.
Definition Contains (s p : string) : bool := bool_decide (is_Some (index_of p s)).

(** [strings.Split(s, sep)] for a one-byte separator. *)
Fixpoint split_chars (sep : ascii) (l : list ascii) : list (list ascii) :=
  match l with
  | [] => [[]]
  | c :: l' =>
      if Ascii.eqb c sep then [] :: split_chars sep l'
      else match split_chars sep l' with
           | [] => [[c]]
           | w :: ws => (c :: w) :: ws
           end
  end.
Definition Split (s : string) (sep : ascii) : list string :=
  map of_chars (split_chars sep (chars s)).

(** [strings.Join]. *)
Fixpoint Join (l : list string) (sep : string) : string :=
  match l with
  | [] => EmptyString
  | [x] => x
  | x :: l' => (x ++ sep ++ Join l' sep)%string
  end.

(** ** Numbers *)

(** [strconv.Itoa] and the [%d] verb. *)
Definition Itoa (z : Z) : string := pretty z.

Fixpoint digits_value (l : list ascii) (acc : Z) : option Z :=
  match l with
  | [] => Some acc
  | c :: l' => if is_digit c then digits_value l' (acc * 10 + (byte_of c - 48)) else None
  end.

(** [strconv.Atoi] on a 64-bit platform: an optional sign, at least one
    decimal digit, and a value in the int64 range. *)
Definition Atoi (s : string) : option Z :=
  let parse l := match l with [] => None | _ => digits_value l 0 end in
  match chars s with
  | [] => None
  | c :: l =>
      let v := if Ascii.eqb c "-" then option_map Z.opp (parse l)
               else if Ascii.eqb c "+" then parse l
               else parse (c :: l) in
      match v with
      | Some z => if (minInt64 <=? z) && (z <=? maxInt64) then Some z else None
      | None => None
      end
  end.

(** ** Sorting *)

Definition str_le (a b : string) : Prop := String.leb a b = true.
#[export] Instance str_le_dec a b : Decision (str_le a b).
Proof. unfold str_le. apply _. Defined.

Lemma ascii_compare_N a b : Ascii.compare a b = N.compare (N_of_ascii a) (N_of_ascii b).
Proof. reflexivity. Qed.

Lemma str_compare_trans a : forall b c,
  String.compare a b <> Gt -> String.compare b c <> Gt -> String.compare a c <> Gt.
Proof.
  induction a as [|x a IH]; intros [|y b] [|z c]; simpl; try done.
  rewrite !ascii_compare_N.
  destruct (N.compare_spec (N_of_ascii x) (N_of_ascii y)) as [E1|E1|E1]; [| |done];
  destruct (N.compare_spec (N_of_ascii y) (N_of_ascii z)) as [E2|E2|E2]; try done;
  destruct (N.compare_spec (N_of_ascii x) (N_of_ascii z)) as [E3|E3|E3]; try lia; try done.
  apply IH.
Qed.

#[export] Instance str_le_trans : Transitive str_le.
Proof.
  intros a b c. unfold str_le, String.leb.
  pose proof (str_compare_trans a b c). repeat case_match; naive_solver.
Qed.

#[export] Instance str_le_total : Total str_le.
Proof. intros a b. unfold str_le. apply String.leb_total. Qed.
Lemma str_le_antisym a b : str_le a b -> str_le b a -> a = b.
Proof. apply String.leb_antisym. Qed.

(** [sort.Strings]: the byte-wise lexicographic order is total, so the sorted
    permutation of a list is unique. *)
Definition sort_strings (l : list string) : list string := merge_sort str_le l.
Lemma elem_of_sort_strings x l : x ∈ sort_strings l <-> x ∈ l.
Proof. unfold sort_strings. by rewrite merge_sort_Permutation. Qed.

(** ** UTF-8 *)

(** How many bytes [utf8.DecodeRuneInString] consumes at the head of a
    nonempty byte sequence: the length of a well-formed encoding, and 1 for
    anything else. *)
Definition in_range (lo hi : Z) (c : ascii) : bool := (lo <=? byte_of c) && (byte_of c <=? hi).
Definition is_cont (c : ascii) : bool := in_range 128 191 c.

Definition rune_size (l : list ascii) : nat :=
  match l with
  | c0 :: c1 :: rest =>
      if in_range 194 223 c0 && is_cont c1 then 2
      else match rest with
           | c2 :: rest' =>
               if ((in_range 224 224 c0 && in_range 160 191 c1) ||
                   (in_range 225 236 c0 && is_cont c1) ||
                   (in_range 237 237 c0 && in_range 128 159 c1) ||
                   (in_range 238 239 c0 && is_cont c1)) && is_cont c2 then 3
               else match rest' with
                    | c3 :: _ =>
                        if ((in_range 240 240 c0 && in_range 144 191 c1) ||
                            (in_range 241 243 c0 && is_cont c1) ||
                            (in_range 244 244 c0 && in_range 128 143 c1)) &&
                           is_cont c2 && is_cont c3 then 4
                        else 1
                    | [] => 1
                    end
           | [] => 1
           end
  | _ => 1
  end%nat.

(** [utf8.ValidString]: no byte is a rune error. *)
Fixpoint valid_runes (fuel : nat) (l : list ascii) : bool :=
  match fuel, l with
  | O, _ | _, [] => true
  | S f, c :: _ =>
      let n := rune_size l in
      (negb (Nat.eqb n 1) || (byte_of c <? 128)) && valid_runes f (drop n l)
  end.
Definition ValidString (s : string) : bool := valid_runes (String.length s) (chars s).

(** [unicode.IsControl] on UTF-8: the C0 controls, DEL, and the C1 controls
    U+0080 to U+009F. *)
Fixpoint has_control (l : list ascii) : bool :=
  match l with
  | [] => false
  | c :: l' =>
      (byte_of c <? 32) || (byte_of c =? 127) ||
      ((byte_of c =? 194) && match l' with d :: _ => in_range 128 159 d | [] => false end) ||
      has_control l'
  end.

Fixpoint rune_count_fuel (fuel : nat) (l : list ascii) : nat :=
  match fuel, l with
  | _, [] => 0
  | O, _ => 0
  | S f, _ => S (rune_count_fuel f (drop (rune_size l) l))
  end%nat.

(** [utf8.RuneCountInString]. *)
Definition RuneCountInString (s : string) : Z :=
  Z.of_nat (rune_count_fuel (length (chars s)) (chars s)).

Lemma rune_size_bounds l : (1 <= rune_size l <= 4)%nat.
Proof. unfold rune_size. repeat case_match; lia. Qed.

Lemma rune_count_fuel_bound fuel : forall l,
  (length l <= fuel)%nat -> (length l <= 4 * rune_count_fuel fuel l)%nat.
Proof.
  induction fuel as [|f IH]; intros l Hl; destruct l as [|c l]; try (simpl in *; lia).
  cbn [rune_count_fuel].
  pose proof (rune_size_bounds (c :: l)) as Hs. revert Hs. generalize (rune_size (c :: l)).
  intros r Hs. simpl in Hl. assert (Hd : (length (drop r (c :: l)) <= f)%nat) by (rewrite length_drop; simpl; lia).
  specialize (IH _ Hd). rewrite length_drop in IH. cbn [length] in *. lia.
Qed.

Lemma length_chars s : length (chars s) = String.length s.
Proof. unfold chars. induction s; simpl; congruence. Qed.

(** A string of [n] runes has at most [4n] bytes. *)
Lemma RuneCount_bytes s : Z.of_nat (String.length s) <= 4 * RuneCountInString s.
Proof.
  unfold RuneCountInString. rewrite <- length_chars.
  pose proof (rune_count_fuel_bound _ (chars s) (le_n _)). lia.
Qed.

(** [strings.ContainsAny] for ASCII characters. *)
Definition ContainsAny (s : string) (set : list ascii) : bool :=
  existsb (fun c => existsb (Ascii.eqb c) set) (chars s).

Definition len (s : string) : Z := Z.of_nat (String.length s).

(** ** Words *)

(** A printable word without spaces. *)
Definition clean_char (c : ascii) : bool := (33 <=? byte_of c) && (byte_of c <=? 126).
Definition clean (k : string) : bool := negb (String.eqb k EmptyString) && forallb clean_char (chars k).

Lemma chars_app a b : chars (a ++ b)%string = (chars a ++ chars b)%list.
Proof. unfold chars. induction a as [|c a IH]; simpl; [done|]. by rewrite IH. Qed.
Lemma of_chars_chars s : of_chars (chars s) = s.
Proof. apply string_of_list_ascii_of_string. Qed.

Lemma strip_clean c l : clean_char c = true -> strip_any space_encodings (c :: l) = None.
Proof.
  intros Hc. destruct c as [b0 b1 b2 b3 b4 b5 b6 b7].
  destruct b0, b1, b2, b3, b4, b5, b6, b7; (discriminate Hc || reflexivity).
Qed.

Lemma strip_blank l : strip_any space_encodings (" "%char :: l) = Some l.
Proof. reflexivity. Qed.

Lemma fields_word w : forall n word l, Forall (fun c => clean_char c = true) w ->
  fields_fuel (length w + n) word (w ++ l) = fields_fuel n (rev w ++ word) l.
Proof.
  induction w as [|c w IH]; intros n word l Hw; [done|]. apply Forall_cons in Hw as [Hc Hw].
  cbn [length app Nat.add fields_fuel]. rewrite strip_clean by done.
  rewrite IH by done. simpl. by rewrite <- app_assoc.
Qed.

(** Splitting undoes joining for clean words. *)
Lemma Fields_Join ws : Forall (fun w => clean w = true) ws -> Fields (Join ws " ") = ws.
Proof.
  assert (Hfields : forall ws, Forall (fun w => clean w = true) ws ->
    map of_chars (fields_fuel (length (chars (Join ws " "))) [] (chars (Join ws " "))) = ws).
  { clear. induction ws as [|w ws IH]; intros Hws; [done|]. apply Forall_cons in Hws as [Hw Hws].
    unfold clean in Hw. apply andb_true_iff in Hw as [Hne Hw]. rewrite forallb_true_iff in Hw.
    assert (Hflush : exists c r, rev (chars w) = c :: r).
    { destruct w as [|c w]; [done|]. simpl. destruct (rev (chars w)) as [|x r]; simpl; eauto. }
    destruct Hflush as (c & r & Hr).
    assert (Hback : of_chars (rev (c :: r)) = w) by (by rewrite <- Hr, rev_involutive, of_chars_chars).
    destruct ws as [|w2 ws].
    - simpl Join. pose proof (fields_word (chars w) 0 [] []) as Hf. rewrite Nat.add_0_r, app_nil_r in Hf.
      rewrite Hf by by apply Forall_forall. rewrite app_nil_r, Hr. cbn [fields_fuel map]. by rewrite Hback.
    - cbn [Join]. specialize (IH Hws). rewrite !chars_app, !length_app.
      rewrite fields_word by by apply Forall_forall. rewrite app_nil_r, Hr.
      change (chars " ") with [" "%char]. cbn [length app Nat.add fields_fuel]. rewrite strip_blank.
      cbn [app map]. rewrite Hback. f_equal. exact IH. }
  intros Hws. unfold Fields. rewrite <- length_chars. by apply Hfields.
Qed.

(** ** Printing and parsing numbers *)

Lemma pretty_char_digit n : (n < 10)%N ->
  is_digit (pretty_N_char n) = true /\ byte_of (pretty_N_char n) - 48 = Z.of_N n.
Proof.
  intros Hn. destruct n as [|p]; [done|].
  do 4 (destruct p as [p|p|]; try done); exfalso; lia.
Qed.

Lemma pretty_go_digits n : forall s,
  digits_value (chars (pretty_N_go n s)) 0 = digits_value (chars s) (Z.of_N n) /\
  forallb is_digit (chars (pretty_N_go n s)) = forallb is_digit (chars s).
Proof.
  induction n as [n IH] using (well_founded_induction N.lt_wf_0). intros s.
  destruct (decide (n = 0)%N) as [->|Hn]; [by rewrite pretty_N_go_0|].
  rewrite pretty_N_go_step by lia.
  destruct (IH (n / 10)%N ltac:(apply N.div_lt; lia) (String (pretty_N_char (n mod 10)) s)) as [Hv Hd].
  pose proof (pretty_char_digit (n mod 10) ltac:(apply N.mod_lt; lia)) as [Hc Hb].
  split; [rewrite Hv|rewrite Hd]; cbn [chars list_ascii_of_string digits_value forallb].
  - rewrite Hc, Hb. f_equal. pose proof (N.div_mod n 10). lia.
  - by rewrite Hc.
Qed.

(** The digits of a positive number: a nonempty digit string with its value. *)
Lemma Itoa_pos p : exists c l, chars (Itoa (Z.pos p)) = c :: l /\ is_digit c = true /\
  forallb is_digit l = true /\ digits_value (c :: l) 0 = Some (Z.pos p).
Proof.
  assert (H : chars (Itoa (Z.pos p)) = chars (pretty_N_go (Npos p) "")).
  { change (Itoa (Z.pos p)) with
      (if decide (N.pos p = 0)%N then "0"%string else pretty_N_go (N.pos p) "").
    by rewrite decide_False. }
  destruct (pretty_go_digits (Npos p) "") as [Hv Hd]. rewrite <- H in Hv, Hd. clear H.
  change (Some (Z.pos p)) with (digits_value (chars "") (Z.of_N (N.pos p))). revert Hv Hd.
  destruct (chars (Itoa (Z.pos p))) as [|c l]; intros Hv Hd; [by simplify_eq/=|]. exists c, l.
  apply andb_true_iff in Hd as [Hc Hl]. done.
Qed.

Lemma digit_not_sign c : is_digit c = true -> Ascii.eqb c "-" = false /\ Ascii.eqb c "+" = false.
Proof.
  intros Hc. split; apply Ascii.eqb_neq; intros ->; discriminate Hc.
Qed.

Lemma Atoi_Itoa z : 0 <= z <= maxInt64 -> Atoi (Itoa z) = Some z.
Proof.
  intros Hz. destruct z as [|p|p]; [reflexivity| |lia].
  destruct (Itoa_pos p) as (c & l & Hs & Hc & Hl & Hv). unfold Atoi. rewrite Hs.
  destruct (digit_not_sign c Hc) as [-> ->]. rewrite Hv. unfold minInt64, maxInt64 in *.
  rewrite (proj2 (Z.leb_le _ (Z.pos p))) by lia. by rewrite (proj2 (Z.leb_le (Z.pos p) _)) by lia.
Qed.

Lemma Itoa_digits z : 0 <= z -> chars (Itoa z) <> [] /\ forallb is_digit (chars (Itoa z)) = true.
Proof.
  intros Hz. destruct z as [|p|p]; [split; [discriminate|reflexivity]| |lia].
  destruct (Itoa_pos p) as (c & l & Hs & Hc & Hl & Hv). rewrite Hs. split; [done|].
  cbn [forallb]. by rewrite Hc, Hl.
Qed.

(** ** Splitting *)

Lemma split_app sep w l : sep ∉ w -> split_chars sep (w ++ sep :: l) = w :: split_chars sep l.
Proof.
  induction w as [|c w IH]; intros Hw; cbn [app split_chars].
  - by rewrite Ascii.eqb_refl.
  - apply not_elem_of_cons in Hw as [Hc Hw]. rewrite IH by done.
    by rewrite (proj2 (Ascii.eqb_neq c sep)).
Qed.

Lemma split_none sep w : sep ∉ w -> split_chars sep w = [w].
Proof.
  induction w as [|c w IH]; intros Hw; cbn [split_chars]; [done|].
  apply not_elem_of_cons in Hw as [Hc Hw]. rewrite IH by done.
  by rewrite (proj2 (Ascii.eqb_neq c sep)).
Qed.

Lemma chars_of_chars l : chars (of_chars l) = l.
Proof. apply list_ascii_of_string_of_list_ascii. Qed.

(** A byte that is no digit does not occur in a number. *)
Lemma not_in_digits c l : forallb is_digit l = true -> is_digit c = false -> c ∉ l.
Proof. intros Hl Hc Hin. rewrite forallb_true_iff in Hl. rewrite (Hl c Hin) in Hc. discriminate. Qed.

(** ** Trimming one byte *)

Lemma trim_left_suffix encs n l : exists p, l = (p ++ trim_left_fuel encs n l)%list.
Proof.
  revert l. induction n as [|n IH]; intros l; cbn [trim_left_fuel]; [by exists []|].
  assert (Hs : forall e l r, strip_prefix e l = Some r -> l = (e ++ r)%list).
  { induction e as [|a e IHe]; intros k r H; cbn [strip_prefix] in H; [by simplify_eq|].
    destruct k as [|b k]; [done|]. case_hyp H; [|done]. apply Ascii.eqb_eq in Heqb0 as ->.
    by rewrite (IHe _ _ H). }
  assert (Ha : forall es r, strip_any es l = Some r -> exists e, l = (e ++ r)%list).
  { induction es as [|e es IHe]; intros r H; cbn [strip_any] in H; [done|].
    case_hyp H; [simplify_eq; eauto|eauto]. }
  destruct (strip_any encs l) as [r|] eqn:E; [|by exists []].
  destruct (Ha _ _ E) as [e ->]. destruct (IH r) as [p Hp]. exists (e ++ p)%list.
  rewrite <- app_assoc. by rewrite <- Hp.
Qed.

Lemma trim_left_head c n : forall l, (length l <= n)%nat ->
  match trim_left_fuel [[c]] n l with x :: _ => x <> c | [] => True end.
Proof.
  induction n as [|n IH]; intros l Hl; destruct l as [|x l]; try done; [simpl in Hl; lia|].
  cbn [trim_left_fuel strip_any strip_prefix]. destruct (Ascii.eqb c x) eqn:E.
  - apply IH. simpl in Hl. lia.
  - apply Ascii.eqb_neq in E. congruence.
Qed.

(** What [TrimByte] leaves: bytes of the argument, the first not [c]. *)
Lemma TrimByte_spec c s :
  (forall x, x ∈ chars (TrimByte c s) -> x ∈ chars s) /\
  match chars (TrimByte c s) with x :: _ => x <> c | [] => True end.
Proof.
  unfold TrimByte, trim_left. rewrite chars_of_chars.
  set (l1 := trim_left_fuel [[c]] (length (chars s)) (chars s)).
  destruct (trim_left_suffix [[c]] (length (chars s)) (chars s)) as [p Hp]. fold l1 in Hp.
  destruct (trim_left_suffix [[c]] (length (rev l1)) (rev l1)) as [q Hq].
  set (r := trim_left_fuel [[c]] (length (rev l1)) (rev l1)) in *.
  assert (Hl1 : l1 = (rev r ++ rev q)%list) by (rewrite <- rev_app_distr, <- Hq, rev_involutive; done).
  pose proof (trim_left_head c (length (chars s)) (chars s) (le_n _)) as Hh. fold l1 in Hh. split.
  - intros x Hx. rewrite Hp, Hl1, !elem_of_app. auto.
  - rewrite Hl1 in Hh. destruct (rev r) as [|x l]; [done|]. exact Hh.
Qed.

(** ** Reading texts back *)

Lemma cut_inj {A} (c : A) a b x y : c ∉ a -> c ∉ b -> (a ++ c :: x)%list = (b ++ c :: y)%list -> a = b /\ x = y.
Proof.
  revert b. induction a as [|u a IH]; intros [|v b] Ha Hb H; cbn [app] in H.
  - by simplify_eq.
  - injection H as <- _. by destruct Hb; left.
  - injection H as -> _. by destruct Ha; left.
  - injection H as -> H. apply not_elem_of_cons in Ha as [_ Ha]. apply not_elem_of_cons in Hb as [_ Hb].
    destruct (IH b Ha Hb H) as [-> ->]. done.
Qed.

(** What a printed integer is made of. *)
Lemma Itoa_inj a b : Itoa a = Itoa b -> a = b.
Proof. unfold Itoa. by intros ?%(inj pretty). Qed.

Lemma not_in_Itoa c z : is_digit c = false -> c <> "-"%char -> c ∉ chars (Itoa z).
Proof.
  intros Hd Hm. assert (Hpos : forall n, 0 <= n -> c ∉ chars (Itoa n)).
  { intros n Hn. apply not_in_digits; [by apply Itoa_digits|done]. }
  destruct z as [|p|p]; [by apply Hpos| by apply Hpos|].
  change (chars (Itoa (Z.neg p))) with ("-"%char :: chars (Itoa (Z.pos p))).
  apply not_elem_of_cons. split; [done|]. by apply Hpos.
Qed.

Lemma byte_range c : 0 <= byte_of c < 256.
Proof.
  unfold byte_of. pose proof (N_ascii_bounded c). lia.
Qed.

(** The shape of a multi-byte rune. *)
Lemma rune_shape l : (1 < rune_size l)%nat ->
  (rune_size l <= length l)%nat /\
  (forall x, rune_size (take (rune_size l) l ++ x) = rune_size l) /\
  (forall i c, (0 < i < rune_size l)%nat -> l !! i = Some c -> is_cont c = true).
Proof.
  assert (Hcont : forall lo hi c, 128 <= lo -> hi <= 191 -> in_range lo hi c = true -> is_cont c = true).
  { intros lo hi c Hl Hh. unfold is_cont, in_range. rewrite !andb_true_iff, !Z.leb_le. lia. }
  destruct l as [|c0 [|c1 rest]]; simpl; try lia.
  destruct (in_range 194 223 c0 && is_cont c1) eqn:E2.
  { intros _. split; [lia|]. split; [intros x; simpl; by rewrite E2|].
    intros i c Hi Hc. destruct i as [|[|i]]; try lia. simpl in Hc. injection Hc as <-. by bool_prop. }
  destruct rest as [|c2 rest]; [lia|].
  destruct (_ && is_cont c2) eqn:E3.
  { intros _. split; [simpl; lia|]. split; [intros x; simpl; by rewrite E2, E3|].
    intros i c Hi Hc. apply andb_true_iff in E3 as [E3 Hc2].
    destruct i as [|[|[|i]]]; try lia; simpl in Hc; injection Hc as <-; [|done].
    rewrite !orb_true_iff, !andb_true_iff in E3.
    destruct E3 as [[[[_ ?]|[_ ?]]|[_ ?]]|[_ ?]]; try done; eapply Hcont; [| |eassumption| | |eassumption]; lia. }
  destruct rest as [|c3 rest]; [lia|].
  destruct (_ && is_cont c2 && is_cont c3) eqn:E4; [|lia].
  intros _. split; [simpl; lia|]. split; [intros x; simpl; by rewrite E2, E3, E4|].
  intros i c Hi Hc. apply andb_true_iff in E4 as [E4 Hc3]. apply andb_true_iff in E4 as [E4 Hc2].
  destruct i as [|[|[|[|i]]]]; try lia; simpl in Hc; injection Hc as <-; [|done|done].
  rewrite !orb_true_iff, !andb_true_iff in E4.
  destruct E4 as [[[_ ?]|[_ ?]]|[_ ?]]; try done; eapply Hcont; [| |eassumption| | |eassumption]; lia.
Qed.
