(* ===== verification/GoFmt.v ===== *)
(** * Go's fmt verbs

    [fmt.Sprintf] and [fmt.Errorf] for the verbs the code uses on strings,
    integers and errors: [%s], [%d], [%v], [%q] and [%04x]. An [error] is its
    text. [Quote] ([strconv.Quote], the verb [%q]) escapes exactly as Go does
    on ASCII; a well-formed non-ASCII rune is copied, which is what Go does
    for the printable ones, and an ill-formed byte is written [\xNN]. *)

From Stdlib Require Import ZArith Lia Ascii String.
From stdpp Require Import base list strings.
From S2P Require Import Prelude GoStr.

Local Open Scope Z_scope.

Definition error : Type := string.

(** ** Hexadecimal *)

Definition hex_char (z : Z) : ascii := if z <? 10 then chr (48 + z) else chr (87 + z).

(** The low [n] hexadecimal digits of [z], most significant first. *)
Fixpoint hex_digits (n : nat) (z : Z) : list ascii :=
  match n with
  | O => []
  | S n' => (hex_digits n' (z / 16) ++ [hex_char (z mod 16)])%list
  end.

(** [%04x] of a 16-bit value. *)
Definition Hex4 (z : Z) : string := of_chars (hex_digits 4 z).

(** ** Quoting *)

Definition backslash : ascii := chr 92.

Definition escape_ascii (c : ascii) : list ascii :=
  let b := byte_of c in
  if (b =? 34) || (b =? 92) then [backslash; c]
  else if b =? 7 then [backslash; chr 97]
  else if b =? 8 then [backslash; chr 98]
  else if b =? 12 then [backslash; chr 102]
  else if b =? 10 then [backslash; chr 110]
  else if b =? 13 then [backslash; chr 114]
  else if b =? 9 then [backslash; chr 116]
  else if b =? 11 then [backslash; chr 118]
  else if (b <? 32) || (127 <=? b) then ([backslash; chr 120] ++ hex_digits 2 b)%list
  else [c].

Fixpoint quote_fuel (fuel : nat) (l : list ascii) : list ascii :=
  match fuel, l with
  | _, [] => []
  | O, _ => []
  | S f, c :: _ =>
      let n := rune_size l in
      ((if (n =? 1)%nat then escape_ascii c else take n l) ++ quote_fuel f (drop n l))%list
  end.

Definition dquote : ascii := chr 34.

Definition Quote (s : string) : string :=
  of_chars (dquote :: quote_fuel (length (chars s)) (chars s) ++ [dquote])%list.

(** ** Formatting *)

Inductive arg : Type :=
| VS (s : string)
| VD (z : Z).

Definition arg_v (a : arg) : string :=
  match a with VS s => s | VD z => Itoa z end.

Definition arg_verb (verb : ascii) (a : arg) : string :=
  if Ascii.eqb verb "q" then match a with VS s => Quote s | VD z => Itoa z end
  else if Ascii.eqb verb "x" then match a with VS s => s | VD z => Hex4 z end
  else arg_v a.

(** The verbs of [f] take the arguments in order; [%04x] carries a width. *)
Fixpoint Sprintf (f : string) (args : list arg) : string :=
  match f with
  | EmptyString => EmptyString
  | String c f' =>
      if negb (Ascii.eqb c "%") then String c (Sprintf f' args)
      else match f', args with
           | String "0" (String "4" (String v f'')), a :: args' =>
               (arg_verb v a ++ Sprintf f'' args')%string
           | String v f'', a :: args' => (arg_verb v a ++ Sprintf f'' args')%string
           | _, _ => String c (Sprintf f' args)
           end
  end.

(** [errf] of the model package and [fmt.Errorf]. *)
Definition errf (f : string) (args : list arg) : error := Sprintf f args.

Example Sprintf_verbs :
  Sprintf "VLAN %d is used by both %q and %s" [VD 20; VS "iot"; VS "lan"]
  = ("VLAN 20 is used by both " ++ Quote "iot" ++ " and lan")%string.
Proof. reflexivity. Qed.

(** The text of a report: a reason shown to the operator. *)
Definition msg (f : string) (args : list arg) : string := Sprintf f args.

(** No proof looks inside the text of an error or a reason. *)
#[global] Opaque errf msg.
