(* ===== verification/NetIP.v ===== *)
(** * IP addresses and prefixes

    The part of Go's [net/netip] and [net] packages that the site model calls:
    parsing of addresses and prefixes, [Masked], [Contains], [Overlaps],
    [Compare], printing, and [net.ParseMAC]. An address is its numeric value
    (32 or 128 bits) and, for IPv6, its zone. The zero [netip.Addr] that
    accompanies an error is [None] of the parsers. *)

From Stdlib Require Import ZArith Lia Ascii String.
From stdpp Require Import base list strings.
From S2P Require Import Prelude GoStr GoFmt.

Local Open Scope string_scope.
Local Open Scope Z_scope.

Inductive Addr : Type :=
| A4 (v : Z)
| A6 (v : Z) (zone : string).

#[export] Instance Addr_eq_dec : EqDecision Addr.
Proof. solve_decision. Defined.

Record Prefix := MkPrefix { px_Addr : Addr; px_Bits : Z }.

#[export] Instance Prefix_eq_dec : EqDecision Prefix.
Proof. solve_decision. Defined.

Definition Is4 (a : Addr) : bool := match a with A4 _ => true | A6 _ _ => false end.
Definition addr_value (a : Addr) : Z := match a with A4 v => v | A6 v _ => v end.
Definition BitLen (a : Addr) : Z := match a with A4 _ => 32 | A6 _ _ => 128 end.

(** ** Parsing *)

(** One dotted field: 1 to 3 digits, no leading zero, at most 255. *)
Definition octet (l : list ascii) : option Z :=
  match l with
  | [] => None
  | c :: l' =>
      if Ascii.eqb c "0" && negb (bool_decide (l' = [])) then None
      else match digits_value l 0 with
           | Some z => if z <=? 255 then Some z else None
           | None => None
           end
  end.

Definition parse4_chars (l : list ascii) : option Z :=
  match split_chars "." l with
  | [a; b; c; d] =>
      match octet a, octet b, octet c, octet d with
      | Some a, Some b, Some c, Some d => Some (((a * 256 + b) * 256 + c) * 256 + d)
      | _, _, _, _ => None
      end
  | _ => None
  end.

Definition hex_value (c : ascii) : option Z :=
  if is_digit c then Some (byte_of c - 48)
  else if in_range 97 102 c then Some (byte_of c - 87)
  else if in_range 65 70 c then Some (byte_of c - 55)
  else None.

(** The leading hexadecimal digits of a group: how many, their value, and
    what follows. *)
Fixpoint hex_group (l : list ascii) (n : nat) (acc : Z) : nat * Z * list ascii :=
  match l with
  | c :: l' => match hex_value c with
               | Some d => hex_group l' (S n) (acc * 16 + d)
               | None => (n, acc, l)
               end
  | [] => (n, acc, l)
  end.

(** The groups of an IPv6 text: 16-bit values in order, and the index at
    which an ellipsis was seen. [n] groups have been read; a trailing dotted
    address supplies two. *)
Fixpoint groups6 (fuel : nat) (l : list ascii) (acc : list Z) (ell : option nat)
  : option (list Z * option nat) :=
  let n := length acc in
  match fuel with
  | O => match l with [] => Some (acc, ell) | _ => None end
  | S f =>
      let '(k, v, rest) := hex_group l 0 0 in
      if (k =? 0)%nat || (4 <? k)%nat then None
      else match rest with
           | [] => Some ((acc ++ [v])%list, ell)
           | "."%char :: _ =>
               if (negb (bool_decide (is_Some ell)) && negb (n =? 6)%nat) || (6 <? n)%nat then None
               else match parse4_chars l with
                    | Some v4 => Some ((acc ++ [v4 / 65536; v4 mod 65536])%list, ell)
                    | None => None
                    end
           | ":"%char :: [] => None
           | ":"%char :: ":"%char :: rest' =>
               if bool_decide (is_Some ell) then None
               else match rest' with
                    | [] => Some ((acc ++ [v])%list, Some (S n))
                    | _ => groups6 f rest' (acc ++ [v])%list (Some (S n))
                    end
           | ":"%char :: rest' => groups6 f rest' (acc ++ [v])%list ell
           | _ => None
           end
  end.

Definition join_groups (l : list Z) : Z := fold_left (fun acc g => acc * 65536 + g) l 0.

(** Zeros replace the ellipsis; without one there must be eight groups, and
    an ellipsis must stand for at least one. *)
Definition expand6 (gs : list Z) (ell : option nat) : option Z :=
  let n := length gs in
  match ell with
  | None => if (n =? 8)%nat then Some (join_groups gs) else None
  | Some e => if (n <? 8)%nat
              then Some (join_groups (take e gs ++ repeat 0 (8 - n) ++ drop e gs))
              else None
  end.

Definition parse6_chars (l : list ascii) : option Z :=
  match l with
  | ":"%char :: ":"%char :: [] => Some 0
  | ":"%char :: ":"%char :: rest =>
      match groups6 8 rest [] (Some O) with Some (gs, e) => expand6 gs e | None => None end
  | _ => match groups6 8 l [] None with Some (gs, e) => expand6 gs e | None => None end
  end.

(** The text before and after the first occurrence of [c]. *)
Fixpoint cut_chars (c : ascii) (l : list ascii) : option (list ascii * list ascii) :=
  match l with
  | [] => None
  | x :: l' => if Ascii.eqb x c then Some ([], l')
               else match cut_chars c l' with
                    | Some (a, b) => Some (x :: a, b)
                    | None => None
                    end
  end.

Definition parse6 (l : list ascii) : option Addr :=
  match cut_chars "%" l with
  | None => option_map (fun v => A6 v EmptyString) (parse6_chars l)
  | Some (_, []) => None
  | Some (a, z) => option_map (fun v => A6 v (of_chars z)) (parse6_chars a)
  end.

(** [netip.ParseAddr]: the first dot, colon or percent sign decides. *)
Fixpoint parse_addr_from (all l : list ascii) : option Addr :=
  match l with
  | [] => None
  | c :: l' =>
      if Ascii.eqb c "." then option_map A4 (parse4_chars all)
      else if Ascii.eqb c ":" then parse6 all
      else if Ascii.eqb c "%" then None
      else parse_addr_from all l'
  end.
Definition ParseAddr (s : string) : option Addr := parse_addr_from (chars s) (chars s).

(** [netip.ParsePrefix]: the text before the last slash, and the length after
    it, with no sign and no leading zero. *)
Definition ParsePrefix (s : string) : option Prefix :=
  match cut_chars "/" (rev (chars s)) with
  | None => None
  | Some (rbits, raddr) =>
      let bits := rev rbits in
      match ParseAddr (of_chars (rev raddr)) with
      | None => None
      | Some a =>
          let zoned := match a with A6 _ z => negb (String.eqb z EmptyString) | A4 _ => false end in
          let lead_bad := match bits with
                          | c :: _ :: _ => negb (in_range 49 57 c)
                          | _ => false
                          end in
          if zoned || lead_bad then None
          else match Atoi (of_chars bits) with
               | Some b => if (b <? 0) || (BitLen a <? b) then None else Some (MkPrefix a b)
               | None => None
               end
      end
  end.

(** ** Operations *)

(** Drop the host bits of an address of [len] bits. *)
Definition mask_value (len bits v : Z) : Z := Z.shiftl (Z.shiftr v (len - bits)) (len - bits).

Definition Masked (p : Prefix) : Prefix :=
  MkPrefix (match px_Addr p with
            | A4 v => A4 (mask_value 32 (px_Bits p) v)
            | A6 v _ => A6 (mask_value 128 (px_Bits p) v) EmptyString
            end) (px_Bits p).

(** [Prefix.Contains]: the same family, no zone, and no difference in the
    network bits. *)
Definition Contains_ (p : Prefix) (a : Addr) : bool :=
  match px_Addr p, a with
  | A4 v, A4 w => Z.shiftr (Z.lxor w v) (32 - px_Bits p) =? 0
  | A6 v _, A6 w z =>
      String.eqb z EmptyString && (Z.shiftr (Z.lxor w v) (128 - px_Bits p) =? 0)
  | _, _ => false
  end.

Definition Overlaps (p o : Prefix) : bool :=
  bool_decide (p = o) ||
  let b := Z.min (px_Bits p) (px_Bits o) in
  match px_Addr p, px_Addr o with
  | A4 v, A4 w => (b =? 0) || (mask_value 32 b v =? mask_value 32 b w)
  | A6 v _, A6 w _ => (b =? 0) || (mask_value 128 b v =? mask_value 128 b w)
  | _, _ => false
  end.

(** [Addr.Compare] as an order: by length, value, then zone. *)
Definition addr_ltb (a b : Addr) : bool :=
  match a, b with
  | A4 v, A4 w => v <? w
  | A4 _, A6 _ _ => true
  | A6 _ _, A4 _ => false
  | A6 v z, A6 w y => (v <? w) || ((v =? w) && negb (String.leb y z))
  end.

(** ** Printing *)

Definition octets4 (v : Z) : list Z := [v / 16777216 mod 256; v / 65536 mod 256; v / 256 mod 256; v mod 256].
Definition String4 (v : Z) : string := Join (map Itoa (octets4 v)) ".".

(** A group in hexadecimal without leading zeros. *)
Fixpoint strip0 (l : list ascii) : list ascii :=
  match l with
  | "0"%char :: ((_ :: _) as l') => strip0 l'
  | _ => l
  end.
Definition group_text (g : Z) : string := of_chars (strip0 (hex_digits 4 g)).

Definition groups_of (v : Z) : list Z :=
  map (fun i => Z.shiftr v (112 - 16 * i) mod 65536) [0; 1; 2; 3; 4; 5; 6; 7].

Fixpoint zero_run (l : list Z) : nat :=
  match l with 0 :: l' => S (zero_run l') | _ => O end.

(** The first longest run of at least two zero groups: start and length. *)
Fixpoint best_run (i : nat) (l : list Z) (best : nat * nat) : nat * nat :=
  match l with
  | [] => best
  | _ :: l' =>
      let r := zero_run l in
      best_run (S i) l' (if (2 <=? r)%nat && (snd best <? r)%nat then (i, r) else best)
  end.

Definition String6 (v : Z) : string :=
  let gs := groups_of v in
  let '(st, n) := best_run 0 gs (O, O) in
  let text l := Join (map group_text l) ":" in
  if (n =? 0)%nat then text gs
  else text (take st gs) ++ "::" ++ text (drop (st + n) gs).

(** [Addr.String]: an IPv4-mapped address keeps its dotted half. *)
Definition addr_String (a : Addr) : string :=
  match a with
  | A4 v => String4 v
  | A6 v z =>
      let base := if Z.shiftr v 32 =? 65535 then "::ffff:" ++ String4 (v mod 2 ^ 32) else String6 v in
      if String.eqb z EmptyString then base else base ++ "%" ++ z
  end.

Definition prefix_String (p : Prefix) : string := addr_String (px_Addr p) ++ "/" ++ Itoa (px_Bits p).

(** ** Hardware addresses *)

Definition byte2 (a b : ascii) : option Z :=
  match hex_value a, hex_value b with
  | Some x, Some y => Some (x * 16 + y)
  | _, _ => None
  end.

Fixpoint mac_bytes (sep : ascii) (l : list ascii) : option (list Z) :=
  match l with
  | [a; b] => option_map (fun x => [x]) (byte2 a b)
  | a :: b :: s :: l' =>
      if Ascii.eqb s sep then
        match byte2 a b, mac_bytes sep l' with
        | Some x, Some xs => Some (x :: xs)
        | _, _ => None
        end
      else None
  | _ => None
  end.

Fixpoint mac_words (l : list ascii) : option (list Z) :=
  match l with
  | [a; b; c; d] =>
      match byte2 a b, byte2 c d with Some x, Some y => Some [x; y] | _, _ => None end
  | a :: b :: c :: d :: s :: l' =>
      if Ascii.eqb s "." then
        match byte2 a b, byte2 c d, mac_words l' with
        | Some x, Some y, Some xs => Some (x :: y :: xs)
        | _, _, _ => None
        end
      else None
  | _ => None
  end.

(** [net.ParseMAC] for the six-byte addresses its callers keep: six pairs
    joined by colons or by hyphens, or three groups of four joined by dots. *)
Definition ParseMAC6 (s : string) : option (list Z) :=
  let l := chars s in
  match nth_error l 2 with
  | Some c =>
      if Ascii.eqb c ":" || Ascii.eqb c "-" then
        if (length l =? 17)%nat then mac_bytes c l else None
      else if bool_decide (nth_error l 4 = Some "."%char) && (length l =? 14)%nat then mac_words l
      else None
  | None => None
  end.

(** [HardwareAddr.String]. *)
Definition mac_String (bs : list Z) : string := Join (map (fun b => of_chars (hex_digits 2 b)) bs) ":".

Example ParsePrefix_ex : ParsePrefix "10.7.45.1/24" = Some (MkPrefix (A4 168242433) 24).
Proof. reflexivity. Qed.
Example ParsePrefix_lead : ParsePrefix "10.7.45.1/024" = None.
Proof. reflexivity. Qed.
Example ParseAddr_six : option_map addr_String (ParseAddr "FE80:0:0::1%eth0") = Some "fe80::1%eth0".
Proof. reflexivity. Qed.
Example ParseAddr_mapped : option_map addr_String (ParseAddr "::ffff:10.0.0.1") = Some "::ffff:10.0.0.1".
Proof. reflexivity. Qed.
Example ParseMAC_ex : option_map mac_String (ParseMAC6 "AABB.CCDD.EEFF") = Some "aa:bb:cc:dd:ee:ff".
Proof. reflexivity. Qed.

(** ** Facts about IPv4 *)

Definition in_32 (v : Z) : Prop := 0 <= v < 2 ^ 32.

Lemma digits_value_nonneg l : forall acc z, 0 <= acc -> digits_value l acc = Some z -> 0 <= z.
Proof.
  induction l as [|c l IH]; intros acc z Ha H; cbn [digits_value] in H; [by simplify_eq|].
  destruct (is_digit c) eqn:E; [|done]. eapply IH; [|exact H].
  unfold is_digit in E. bool_prop. lia.
Qed.

Lemma octet_range l z : octet l = Some z -> 0 <= z <= 255.
Proof.
  unfold octet. intros H. destruct l as [|c l]; [done|]. case_hyp H; [done|].
  destruct (digits_value (c :: l) 0) as [v|] eqn:E; [|done]. case_hyp H; simplify_eq. bool_prop.
  split; [|done]. by eapply digits_value_nonneg in E.
Qed.

Lemma parse4_range l v : parse4_chars l = Some v -> in_32 v.
Proof.
  unfold parse4_chars. intros H.
  destruct (split_chars "." l) as [|a [|b [|c [|d [|]]]]]; try done.
  destruct (octet a) eqn:Ea, (octet b) eqn:Eb, (octet c) eqn:Ec, (octet d) eqn:Ed; simplify_eq.
  apply octet_range in Ea, Eb, Ec, Ed. unfold in_32. lia.
Qed.

Lemma parse_addr_from_4 all l v : parse_addr_from all l = Some (A4 v) -> in_32 v.
Proof.
  induction l as [|c l IH]; intros H; cbn [parse_addr_from] in H; [done|].
  case_hyp H; [destruct (parse4_chars all) eqn:E; simplify_eq/=; by eapply parse4_range|].
  case_hyp H.
  - unfold parse6 in H. destruct (cut_chars "%" all) as [[a [|z zs]]|]; [done| |];
      destruct (parse6_chars _); by simplify_eq/=.
  - case_hyp H; [done|auto].
Qed.

Lemma ParsePrefix_4 s v bits : ParsePrefix s = Some (MkPrefix (A4 v) bits) -> in_32 v /\ 0 <= bits <= 32.
Proof.
  unfold ParsePrefix. intros H. destruct (cut_chars "/" _) as [[rb ra]|]; [|done].
  destruct (ParseAddr _) as [a|] eqn:E; [|done]. if_hyp H; [done|].
  destruct (Atoi _) as [b|]; [|done]. if_hyp H; simplify_eq. unfold ParseAddr in E.
  apply parse_addr_from_4 in E. split; [done|].
  cbn [BitLen] in *. bool_prop. lia.
Qed.

Lemma mask_value_div bits v : 0 <= bits <= 32 -> mask_value 32 bits v = v / 2 ^ (32 - bits) * 2 ^ (32 - bits).
Proof. intros Hb. unfold mask_value. rewrite Z.shiftl_mul_pow2, Z.shiftr_div_pow2 by lia. done. Qed.

Lemma Contains_div v w bits : 0 <= bits <= 32 ->
  Contains_ (MkPrefix (A4 v) bits) (A4 w) = true <-> w / 2 ^ (32 - bits) = v / 2 ^ (32 - bits).
Proof.
  intros Hb. cbn. rewrite Z.eqb_eq, Z.shiftr_lxor, Z.lxor_eq_0_iff, !Z.shiftr_div_pow2 by lia. done.
Qed.

(** The host offset of an address in its prefix. *)
Lemma mask_offset bits v : 0 <= bits <= 32 -> in_32 v ->
  0 <= v - mask_value 32 bits v < 2 ^ (32 - bits) /\ 0 <= mask_value 32 bits v /\
  mask_value 32 bits v + 2 ^ (32 - bits) <= 2 ^ 32.
Proof.
  intros Hb Hv. rewrite mask_value_div by done. unfold in_32 in *.
  assert (Hp : 0 < 2 ^ (32 - bits)) by (apply Z.pow_pos_nonneg; lia).
  assert (H32 : 2 ^ 32 = 2 ^ bits * 2 ^ (32 - bits)) by (rewrite <- Z.pow_add_r by lia; f_equal; lia).
  pose proof (Z.div_mod v (2 ^ (32 - bits)) ltac:(lia)).
  pose proof (Z.mod_pos_bound v (2 ^ (32 - bits)) Hp).
  assert (v / 2 ^ (32 - bits) < 2 ^ bits) by (apply Z.div_lt_upper_bound; nia).
  assert (0 <= v / 2 ^ (32 - bits)) by (apply Z.div_pos; lia). nia.
Qed.

(** Addresses [base + k] of a subnet belong to it. *)
Lemma subnet_member bits v k : 0 <= bits <= 32 -> 0 <= k < 2 ^ (32 - bits) ->
  Contains_ (MkPrefix (A4 v) bits) (A4 (mask_value 32 bits v + k)) = true.
Proof.
  intros Hb Hk. apply Contains_div; [done|]. rewrite mask_value_div by done.
  rewrite Z.add_comm, Z.div_add by lia. rewrite Z.div_small by done. lia.
Qed.

Lemma div_coarser x a b : 0 <= b <= a -> x / 2 ^ a = x / 2 ^ b / 2 ^ (a - b).
Proof.
  intros Hab. assert (0 < 2 ^ b /\ 0 < 2 ^ (a - b)) as [? ?] by (split; apply Z.pow_pos_nonneg; lia).
  rewrite Z.div_div by lia. rewrite <- Z.pow_add_r by lia. do 2 f_equal. lia.
Qed.

Lemma mask_div_coarser v b a : 0 <= a <= b -> b <= 32 ->
  mask_value 32 b v / 2 ^ (32 - a) = v / 2 ^ (32 - a).
Proof.
  intros Hab Hb. rewrite mask_value_div by lia.
  rewrite (div_coarser _ (32 - a) (32 - b)), (div_coarser v (32 - a) (32 - b)) by lia.
  f_equal. rewrite Z.div_mul; [done|]. apply Z.pow_nonzero; lia.
Qed.

(** Two subnets with a common address: one contains the other's base. *)
Lemma common_address v1 b1 v2 b2 x : 0 <= b1 <= 32 -> 0 <= b2 <= 32 ->
  Contains_ (MkPrefix (A4 v1) b1) (A4 x) = true -> Contains_ (MkPrefix (A4 v2) b2) (A4 x) = true ->
  Contains_ (MkPrefix (A4 (mask_value 32 b1 v1)) b1) (A4 (mask_value 32 b2 v2)) = true \/
  Contains_ (MkPrefix (A4 (mask_value 32 b2 v2)) b2) (A4 (mask_value 32 b1 v1)) = true.
Proof.
  assert (Hside : forall u b w c, 0 <= b <= 32 -> 0 <= c <= 32 -> b <= c ->
    Contains_ (MkPrefix (A4 u) b) (A4 x) = true -> Contains_ (MkPrefix (A4 w) c) (A4 x) = true ->
    Contains_ (MkPrefix (A4 (mask_value 32 b u)) b) (A4 (mask_value 32 c w)) = true).
  { intros u b w c Hb Hc Hle H1 H2. apply Contains_div in H1, H2; [|done..]. apply Contains_div; [done|].
    rewrite !mask_div_coarser by lia. rewrite <- H1, !(div_coarser _ (32 - b) (32 - c)) by lia.
    by rewrite H2. }
  intros Hb1 Hb2 H1 H2. destruct (Z.le_ge_cases b1 b2); [left|right]; by apply Hside.
Qed.
