(* ===== verification/F64.v ===== *)
(** * IEEE 754 binary64 arithmetic

    Go's [float64] on the executable specification of the Standard Library
    ([SpecFloat]): 53 bits of precision, emax 1024, round to nearest even.
    The operations are closed terms that evaluate in the kernel. *)

From Stdlib Require Import ZArith Lia Floats.SpecFloat.
From stdpp Require Import base list.
From S2P Require Import Prelude.

Local Open Scope Z_scope.

Definition f64 : Type := spec_float.

Definition f_of_Z (z : Z) : f64 := binary_normalize 53 1024 z 0 false.
Definition f_add (a b : f64) : f64 := SFadd 53 1024 a b.
Definition f_sub (a b : f64) : f64 := SFsub 53 1024 a b.
Definition f_mul (a b : f64) : f64 := SFmul 53 1024 a b.
Definition f_div (a b : f64) : f64 := SFdiv 53 1024 a b.
Definition f_ltb (a b : f64) : bool := SFltb a b.
Definition f_leb (a b : f64) : bool := SFleb a b.
Definition f_gtb (a b : f64) : bool := SFltb b a.
Definition f_zero : f64 := S754_zero false.

Definition is_nan (a : f64) : bool := match a with S754_nan => true | _ => false end.
Definition is_inf (a : f64) : bool := match a with S754_infinity _ => true | _ => false end.
Definition is_finite (a : f64) : bool := negb (is_nan a) && negb (is_inf a).

(** A decimal literal [m * 10^-d], correctly rounded. *)
Definition f_dec (m : Z) (d : nat) : f64 := f_div (f_of_Z m) (f_of_Z (10 ^ Z.of_nat d)).

(** Conversion to an integer truncates toward zero. *)
Definition f_trunc (a : f64) : Z :=
  match a with
  | S754_finite s m e =>
      let v := if 0 <=? e then Z.pos m * 2 ^ e else Z.pos m / 2 ^ (- e) in
      if s then - v else v
  | _ => 0
  end.

(** [time.Duration.Seconds] and its conversion to [int]. *)
Definition duration_Seconds (ns : Z) : f64 :=
  f_add (f_of_Z (Z.quot ns 1000000000))
        (f_div (f_of_Z (Z.rem ns 1000000000)) (f_of_Z 1000000000)).

(** A comparison that is neither [<] nor false on NaN: for non-NaN values the
    order is total. *)
Lemma f_ltb_leb a b : is_nan a = false -> is_nan b = false ->
  f_ltb a b = negb (f_leb b a).
Proof.
  unfold f_ltb, f_leb, SFltb, SFleb, SFcompare.
  destruct a as [sa|sa| |sa ma ea], b as [sb|sb| |sb mb eb]; simpl; intros Ha Hb;
    try done; try (by destruct sa); try (by destruct sb); try (by destruct sa, sb).
  destruct sa, sb; try done;
    rewrite (Z.compare_antisym ea eb); destruct (ea ?= eb) eqn:E; simpl; try done;
    change (PosDef.Pos.compare_cont Eq ma mb) with (Pos.compare ma mb);
    change (PosDef.Pos.compare_cont Eq mb ma) with (Pos.compare mb ma);
    rewrite (Pos.compare_antisym ma mb);
    by destruct (Pos.compare ma mb).
Qed.

(** [float64(float32(v))]: 24 bits of precision, held as a binary64. *)
Definition f_renormal (prec emax : Z) (a : f64) : f64 :=
  match a with
  | S754_finite s m e => binary_normalize prec emax (if s then - Z.pos m else Z.pos m) e s
  | _ => a
  end.
Definition f_to_f32 (a : f64) : f64 := f_renormal 53 1024 (f_renormal 24 128 a).
