(* ===== verification/Ubus.v ===== *)
(** * The ubus client (internal/ubus)

    The transport to one OpenWrt device: status codes and error values
    ([status.go]), response frames, sessions, the confirm window and the
    re-login policy ([client.go]) and batches ([batch.go]). The HTTP round
    trip is the parameter [http_do]; everything the client decides is a
    definition. *)

From Stdlib Require Import ZArith Lia Ascii String.
From stdpp Require Import base list strings.
From S2P Require Import Prelude GoStr.

Local Open Scope string_scope.
Local Open Scope Z_scope.

(** ** Error values

    Every error value of the modelled packages. [WrapError p e] is
    [fmt.Errorf("p: %w", e)]; [MsgError p l] formats errors with [%v] or
    carries no error, so [errors.As] does not look through it. Numbers and
    names that a message interpolates are kept as constructor arguments. *)
Inductive ctx_error := Canceled | DeadlineExceeded.

Inductive transport_fact :=
| NoRoute
| TimedOut
| RequestFailed
| BodyUnreadable.

Inductive protocol_message :=
| RPCErrorResponse (object method : string)
| MalformedFrame (object method : string)
| NonNumericStatus (object method : string)
| DecodePayload (object method : string)
| HTTPError (status : Z) (class : string) (body : string)
| BodyTooLarge
| DecodeJSON
| BatchLength (sent got : Z).

Inductive err :=
| StatusError (object method : string) (status : Z)
| DeniedError (object method : string) (retried : bool)
| ProtocolError (code : Z) (msg : protocol_message)
| TransportError (f : transport_fact)
| PinError (pinned got : string)
| CtxError (e : ctx_error)
| DirtyError (configs : list string)
| BudgetError (remaining required timeout grace : Z)
| MsgError (msg : string) (shown : list err)
| WrapError (msg : string) (e : err)
| JoinError (es : list err).

(** [errors.As] walks the [Unwrap] tree depth first. *)
Section ErrorsAs.
Context {T : Type} (here : err -> option T).

Fixpoint errors_as (e : err) : option T :=
  match here e with
  | Some t => Some t
  | None =>
      match e with
      | WrapError _ e' => errors_as e'
      | JoinError es =>
          (fix go l := match l with
                       | [] => None
                       | x :: l' => match errors_as x with Some t => Some t | None => go l' end
                       end) es
      | _ => None
      end
  end.
End ErrorsAs.

Definition as_status : err -> option Z :=
  errors_as (fun e => match e with StatusError _ _ s => Some s | _ => None end).
Definition as_denied : err -> option (string * string * bool) :=
  errors_as (fun e => match e with DeniedError o m r => Some (o, m, r) | _ => None end).
Definition as_protocol : err -> option Z :=
  errors_as (fun e => match e with ProtocolError c _ => Some c | _ => None end).

(** ** Status codes *)

Definition StatusOK : Z := 0.
Definition StatusInvalidCommand : Z := 1.
Definition StatusInvalidArgument : Z := 2.
Definition StatusMethodNotFound : Z := 3.
Definition StatusNotFound : Z := 4.
Definition StatusNoData : Z := 5.
Definition StatusPermissionDenied : Z := 6.
Definition StatusTimeout : Z := 7.
Definition StatusNotSupported : Z := 8.
Definition StatusUnknownError : Z := 9.
Definition StatusConnectionFailed : Z := 10.

Definition rpcErrAccessDenied : Z := -32002.

Definition Status_String (s : Z) : string :=
  if s =? StatusOK then "OK"
  else if s =? StatusInvalidCommand then "INVALID_COMMAND"
  else if s =? StatusInvalidArgument then "INVALID_ARGUMENT"
  else if s =? StatusMethodNotFound then "METHOD_NOT_FOUND"
  else if s =? StatusNotFound then "NOT_FOUND"
  else if s =? StatusNoData then "NO_DATA"
  else if s =? StatusPermissionDenied then "PERMISSION_DENIED"
  else if s =? StatusTimeout then "TIMEOUT"
  else if s =? StatusNotSupported then "NOT_SUPPORTED"
  else if s =? StatusUnknownError then "UNKNOWN_ERROR"
  else if s =? StatusConnectionFailed then "CONNECTION_FAILED"
  else "status(" ++ Itoa s ++ ")".

Definition StatusError_Permanent (s : Z) : bool :=
  negb ((s =? StatusTimeout) || (s =? StatusUnknownError) || (s =? StatusConnectionFailed)).

(** [IsPermanent]: the first error of the chain with a [Permanent] method
    decides, and otherwise whether a protocol error is in the chain. *)
Definition as_permanent : err -> option bool :=
  errors_as (fun e => match e with
                      | StatusError _ _ s => Some (StatusError_Permanent s)
                      | DeniedError _ _ r => Some r
                      | _ => None
                      end).

Definition IsPermanent (e : err) : bool :=
  match as_permanent e with
  | Some p => p
  | None => match as_protocol e with Some _ => true | None => false end
  end.

(** ** JSON values as the device sends them *)

Inductive json :=
| JNull
| JBool (b : bool)
| JInt (z : Z)
| JFrac (literal : string)
| JStr (s : string)
| JArr (l : list json)
| JObj (l : list (string * json)).

(** A struct field with tag [k]: the last key that matches case-insensitively. *)
Fixpoint jfield (k : string) (l : list (string * json)) : option json :=
  match l with
  | [] => None
  | (k', v) :: l' =>
      match jfield k l' with
      | Some w => Some w
      | None => if EqualFold k k' then Some v else None
      end
  end.

(** Decoding into a Go [string], [int] or [int64]: [null] and an absent key
    leave the zero value, another kind is an [UnmarshalTypeError]. *)
Definition dec_string (j : option json) : option string :=
  match j with
  | None | Some JNull => Some ""
  | Some (JStr s) => Some s
  | _ => None
  end.
Definition dec_int (j : option json) : option Z :=
  match j with
  | None | Some JNull => Some 0
  | Some (JInt z) => if (minInt64 <=? z) && (z <=? maxInt64) then Some z else None
  | _ => None
  end.

(** ** Frames *)

Record rpcRequest := MkRequest {
  q_id : Z;
  q_session : string;
  q_object : string;
  q_method : string;
  q_args : json;
}.

Record rpcResponse := MkResponse {
  r_result : option json;
  r_error : option (Z * string);
}.

Definition decodeFrame (object method : string) (r : rpcResponse)
    : res err (Z * option json) :=
  match r_error r with
  | Some (code, _message) =>
      if code =? rpcErrAccessDenied then Err (DeniedError object method false)
      else Err (ProtocolError code (RPCErrorResponse object method))
  | None =>
      match r_result r with
      | Some (JArr (st :: rest)) =>
          match dec_int (Some st) with
          | None => Err (ProtocolError 0 (NonNumericStatus object method))
          | Some status =>
              match rest with
              | d :: _ => Ok (status, Some d)
              | [] => Ok (status, None)
              end
          end
      | _ => Err (ProtocolError 0 (MalformedFrame object method))
      end
  end.

(** Decoding a whole response body into one [rpcResponse]. *)
Definition dec_error (j : option json) : option (option (Z * string)) :=
  match j with
  | None | Some JNull => Some None
  | Some (JObj l) =>
      match dec_int (jfield "code" l), dec_string (jfield "message" l) with
      | Some c, Some m => Some (Some (c, m))
      | _, _ => None
      end
  | _ => None
  end.

Definition dec_response (j : json) : option rpcResponse :=
  match j with
  | JNull => Some (MkResponse None None)
  | JObj l =>
      match dec_int (jfield "id" l), dec_error (jfield "error" l) with
      | Some _, Some e => Some (MkResponse (jfield "result" l) e)
      | _, _ => None
      end
  | _ => None
  end.

Fixpoint all_some {A} (l : list (option A)) : option (list A) :=
  match l with
  | [] => Some []
  | Some a :: l' => match all_some l' with Some r => Some (a :: r) | None => None end
  | None :: _ => None
  end.

Definition dec_responses (j : json) : option (list rpcResponse) :=
  match j with
  | JNull => Some []
  | JArr l => all_some (map dec_response l)
  | _ => None
  end.

(** ** The HTTP exchange *)

Definition maxErrorDiagnosticBytes : Z := Z.shiftl 64 10.
Definition maxSuccessResponseBytes : Z := Z.shiftl 16 20.
Definition maxBatchBytes : Z := Z.shiftl 48 10.

(** Why [http.Client.Do] failed, as far as [safeTransportError] looks. The
    text of the transport's own error, which can hold bytes the device chose,
    is the last component. *)
Record do_failure := MkFailure {
  f_ctx : option ctx_error;
  f_pin : option (string * string);
  f_unreachable : bool;
  f_timeout : bool;
  f_text : string;
}.

Inductive http_outcome :=
| HFailed (f : do_failure)
| HStatus (code : Z) (contentType : string) (bodyLen : Z) (readable : bool) (text : string)
| HUnreadable
| HBody (bodyLen : Z) (decoded : option json).

Definition safeTransportError (f : do_failure) : err :=
  match f_ctx f with
  | Some e => WrapError "ubus transport" (CtxError e)
  | None =>
      match f_pin f with
      | Some (pinned, got) => WrapError "ubus transport" (PinError pinned got)
      | None =>
          if f_unreachable f then TransportError NoRoute
          else if f_timeout f then TransportError TimedOut
          else TransportError RequestFailed
      end
  end.

Definition responseContentClass (raw : string) : string :=
  let media := ToLower (TrimSpace (hd "" (Split raw ";"%char))) in
  if String.eqb media "" then "content type unspecified"
  else if String.eqb media "application/json" || HasSuffix media "+json" then "JSON response"
  else if String.eqb media "text/html" then "HTML response"
  else if String.eqb media "text/plain" then "text response"
  else "other content type".

(** [postRaw] from the outcome of the exchange on. *)
Definition postRaw_result {A} (dec : json -> option A) (o : http_outcome) : res err A :=
  match o with
  | HFailed f => Err (safeTransportError f)
  | HUnreadable => Err (TransportError BodyUnreadable)
  | HStatus code ctype len readable _ =>
      let n := Z.min len (maxErrorDiagnosticBytes + 1) in
      let body := if negb readable then "unreadable body"
                  else if maxErrorDiagnosticBytes <? n
                  then "body larger than " ++ Itoa maxErrorDiagnosticBytes ++ " bytes"
                  else Itoa n ++ "-byte body" in
      Err (ProtocolError code (HTTPError code (responseContentClass ctype) body))
  | HBody len decoded =>
      if maxSuccessResponseBytes <? len then Err (ProtocolError 0 BodyTooLarge)
      else match decoded with
           | None => Err (ProtocolError 0 DecodeJSON)
           | Some j => match dec j with
                       | None => Err (ProtocolError 0 DecodeJSON)
                       | Some a => Ok a
                       end
           end
  end.

(** ** The client *)

Definition nullSession : string := "00000000000000000000000000000000".

Record client := MkClient {
  c_baseURL : string;
  c_pinnedCert : string;
  c_session : string;
  c_user : string;
  c_pass : string;
  c_confirmWindow : bool;
  c_shared : bool;
  c_nextID : Z;
}.

Record Options := MkOptions {
  o_Host : string;
  o_HTTPS : bool;
  o_PinnedCert : string;
}.

Definition New (opt : Options) : client :=
  MkClient ((if o_HTTPS opt then "https" else "http") ++ "://" ++ o_Host opt ++ "/ubus")
           (ToLower (o_PinnedCert opt)) nullSession "" "" false false 0.

(** Go's [s[:n]] and [s[n:]]. *)
Definition str_take (n : nat) (s : string) : string := of_chars (take n (chars s)).
Definition str_drop (n : nat) (s : string) : string := of_chars (drop n (chars s)).

(** [len(s) > len(p) && s[:len(p)] == p]. *)
Definition longer_prefix (s p : string) : bool :=
  (Nat.ltb (String.length p) (String.length s)) && HasPrefix s p.

Definition hostFromURL (u : string) : string :=
  let s := if longer_prefix u "https://" then str_drop 8 u
           else if longer_prefix u "http://" then str_drop 7 u
           else u in
  let i := (String.length s - 5)%nat in
  if Nat.ltb 5 (String.length s) && String.eqb (str_drop i s) "/ubus"
  then str_take i s else s.

(** [verifyPin] on the fingerprint of the leaf certificate, [None] when the
    device presented no certificate. *)
Definition verifyPin (c : client) (leaf : option string) : res err client :=
  match leaf with
  | None => Err (MsgError "ubus: device presented no certificate" [])
  | Some got =>
      if String.eqb (c_pinnedCert c) ""
      then Ok (MkClient (c_baseURL c) got (c_session c) (c_user c) (c_pass c)
                        (c_confirmWindow c) (c_shared c) (c_nextID c))
      else if String.eqb got (c_pinnedCert c) then Ok c
      else Err (PinError (c_pinnedCert c) got)
  end.

Record Invocation := MkInvocation {
  i_object : string;
  i_method : string;
  i_args : json;
}.

Record BatchResult := MkResult {
  b_status : Z;
  b_data : option json;
  b_err : option err;
}.

(** The body of one POST: a single request, or an array of them. *)
Inductive payload :=
| Single (q : rpcRequest)
| Many (qs : list rpcRequest).

(** The HTTP round trip and the encoded size of a request array (the length
    of [json.Marshal]'s output) belong to code outside the repository. *)
Class Transport (W : Type) := {
  http_do : W -> string -> payload -> http_outcome * W;
  marshal_len : list rpcRequest -> Z;
}.

(** One client over a world. [wire] logs what was posted and how the exchange
    ended, newest last; it is the only component the code does not have. *)
Definition exchange : Type := (payload * http_outcome)%type.

Record cstate (W : Type) := MkCState {
  cl : client;
  world : W;
  wire : list exchange;
}.
Arguments MkCState {W}.
Arguments cl {W}.
Arguments world {W}.
Arguments wire {W}.

Definition with_session (c : client) (session user pass : string) : client :=
  MkClient (c_baseURL c) (c_pinnedCert c) session user pass
           (c_confirmWindow c) false (c_nextID c).
Definition with_nextID (c : client) (id : Z) : client :=
  MkClient (c_baseURL c) (c_pinnedCert c) (c_session c) (c_user c) (c_pass c)
           (c_confirmWindow c) (c_shared c) id.
Definition with_window (c : client) (w : bool) : client :=
  MkClient (c_baseURL c) (c_pinnedCert c) (c_session c) (c_user c) (c_pass c)
           w (c_shared c) (c_nextID c).
Definition with_shared (c : client) (b : bool) : client :=
  MkClient (c_baseURL c) (c_pinnedCert c) (c_session c) (c_user c) (c_pass c)
           (c_confirmWindow c) b (c_nextID c).

Section Client.
Context {W : Type} `{Transport W}.

Definition get_cl : M (cstate W) client := fun s => (cl s, s).
Definition set_cl (c : client) : M (cstate W) unit :=
  fun s => (tt, MkCState c (world s) (wire s)).

Definition post {A} (dec : json -> option A) (p : payload) : M (cstate W) (res err A) :=
  fun s =>
    let '(o, w') := http_do (world s) (c_baseURL (cl s)) p in
    (postRaw_result dec o, MkCState (cl s) w' (wire s ++ [(p, o)])).

(** Decoding into [out]; a call with a nil [out] uses [dec_nil]. *)
Definition dec_nil (_ : json) : option unit := Some tt.

(** [callWithSession] after [post]: status, then payload. *)
Definition call_result {A} (dec : json -> option A) (zero : A) (object method : string)
    (r : res err rpcResponse) : res err A :=
  match r with
  | Err e => Err e
  | Ok resp =>
      match decodeFrame object method resp with
      | Err e => Err e
      | Ok (status, data) =>
          if negb (status =? StatusOK) then Err (StatusError object method status)
          else match data with
               | None => Ok zero
               | Some d => match dec d with
                           | Some a => Ok a
                           | None => Err (ProtocolError 0 (DecodePayload object method))
                           end
               end
      end
  end.

Definition callWithSession {A} (dec : json -> option A) (zero : A)
    (session object method : string) (args : json) : M (cstate W) (res err A) :=
  do c <- get_cl;
  let id := c_nextID c + 1 in
  do! set_cl (with_nextID c id);
  do r <- post dec_response (Single (MkRequest id session object method args));
  ret (call_result dec zero object method r).

Definition callOnce {A} (dec : json -> option A) (zero : A)
    (object method : string) (args : json) : M (cstate W) (res err A) :=
  do c <- get_cl;
  callWithSession dec zero (c_session c) object method args.

Definition dec_login (j : json) : option string :=
  match j with
  | JNull => Some ""
  | JObj l => match dec_string (jfield "ubus_rpc_session" l), dec_int (jfield "timeout" l) with
              | Some s, Some _ => Some s
              | _, _ => None
              end
  | _ => None
  end.

Definition Login (user pass : string) : M (cstate W) (res err unit) :=
  do r <- callWithSession dec_login "" nullSession "session" "login"
            (JObj [("username", JStr user); ("password", JStr pass)]);
  match r with
  | Err e => ret (Err e)
  | Ok session =>
      if String.eqb session "" then ret (Err (MsgError "ubus: login returned no session token" []))
      else do c <- get_cl;
           do! set_cl (with_session c session user pass);
           ret (Ok tt)
  end.

(** The unexported [call]: one re-login and one retry on a denial, outside a
    confirm window and when a user is known. *)
Definition call {A} (dec : json -> option A) (zero : A)
    (object method : string) (args : json) (mayRetry : bool) : M (cstate W) (res err A) :=
  do r <- callOnce dec zero object method args;
  match r with
  | Ok a => ret (Ok a)
  | Err e =>
      match as_denied e with
      | None => ret (Err e)
      | Some _ =>
          do c <- get_cl;
          if negb mayRetry || c_confirmWindow c || String.eqb (c_user c) "" then ret (Err e)
          else
            do l <- Login (c_user c) (c_pass c);
            match l with
            | Err _ => ret (Err e)
            | Ok _ =>
                do r2 <- callOnce dec zero object method args;
                match r2 with
                | Ok a => ret (Ok a)
                | Err e2 =>
                    match as_denied e2 with
                    | Some (o, m, _) => ret (Err (DeniedError o m true))
                    | None => ret (Err e2)
                    end
                end
            end
      end
  end.

Definition Call {A} (dec : json -> option A) (zero : A)
    (object method : string) (args : json) : M (cstate W) (res err A) :=
  call dec zero object method args true.

Definition BeginConfirmWindow : M (cstate W) unit :=
  do c <- get_cl; set_cl (with_window c true).
(** The function it returns; [sync.Once] makes a second run do nothing,
    and clearing a cleared flag does nothing either. *)
Definition EndConfirmWindow : M (cstate W) unit :=
  do c <- get_cl; set_cl (with_window c false).

(** [FreshSession]: a second client on the same world. *)
Definition FreshSession : M (cstate W) (res err client) :=
  fun s =>
    let c := cl s in
    let other := New (MkOptions (hostFromURL (c_baseURL c))
                                (longer_prefix (c_baseURL c) "https") (c_pinnedCert c)) in
    let '(l, s') := Login (c_user c) (c_pass c) (MkCState other (world s) (wire s)) in
    let s'' := MkCState c (world s') (wire s') in
    match l with
    | Err e => (Err (WrapError "fresh session" e), s'')
    | Ok _ =>
        let o := cl s' in
        (Ok (if String.eqb (c_session o) (c_session c) then with_shared o true else o), s'')
    end.

(** Run a computation on another client of the same world. *)
Definition on_client {A} (c : client) (m : M (cstate W) A) : M (cstate W) A :=
  fun s =>
    let '(a, s') := m (MkCState c (world s) (wire s)) in
    (a, MkCState (cl s) (world s') (wire s')).

Definition Destroy : M (cstate W) unit :=
  do c <- get_cl;
  if c_shared c then ret tt
  else do _ <- call dec_nil tt "session" "destroy" (JObj []) false; ret tt.
End Client.

(** ** Batches *)

Section Batch.
Context {W : Type} `{Transport W}.

(** The greedy packing loop of [buildChunk]: [reqs] is what fits so far and
    [id] the last request id handed out. *)
Fixpoint pack (session : string) (reqs : list rpcRequest) (id : Z) (calls : list Invocation)
    : list rpcRequest * Z :=
  match calls with
  | [] => (reqs, id)
  | i :: rest =>
      let id' := id + 1 in
      let candidate :=
        (reqs ++ [MkRequest id' session (i_object i) (i_method i) (i_args i)])%list in
      let big := maxBatchBytes <? marshal_len candidate in
      if big && negb (bool_decide (reqs = [])) then (reqs, id')
      else if big then (candidate, id')
      else pack session candidate id' rest
  end.

(** [buildChunk calls[start:]]; the chunk's length is [end - start]. *)
Definition buildChunk (calls : list Invocation) : M (cstate W) (list rpcRequest) :=
  do c <- get_cl;
  let '(reqs, id) := pack (c_session c) [] (c_nextID c) calls in
  do! set_cl (with_nextID c id);
  ret reqs.

Definition chunk_result (i : Invocation) (resp : rpcResponse) : BatchResult :=
  match decodeFrame (i_object i) (i_method i) resp with
  | Err e => MkResult 0 None (Some e)
  | Ok (status, data) =>
      if status =? StatusOK then MkResult status data None
      else MkResult status None (Some (StatusError (i_object i) (i_method i) status))
  end.

Definition is_denied (r : BatchResult) : bool :=
  match b_err r with
  | Some e => match as_denied e with Some _ => true | None => false end
  | None => false
  end.

Definition mark_retried (r : BatchResult) : BatchResult :=
  match b_err r with
  | Some (DeniedError o m _) => MkResult (b_status r) (b_data r) (Some (DeniedError o m true))
  | _ => r
  end.

Definition allDenied (rs : list BatchResult) : bool :=
  forallb is_denied rs && negb (bool_decide (rs = [])).

Definition resendChunk (calls : list Invocation) (reqs : list rpcRequest)
    : M (cstate W) (res err (list BatchResult)) :=
  do r <- post dec_responses (Many reqs);
  ret (match r with
       | Err e => Err e
       | Ok resps =>
           if negb (Nat.eqb (length resps) (length calls))
           then Err (ProtocolError 0 (BatchLength (Z.of_nat (length calls)) (Z.of_nat (length resps))))
           else Ok (map mark_retried (zip_with chunk_result calls resps))
       end).

Definition sendChunk (calls : list Invocation) (reqs : list rpcRequest)
    : M (cstate W) (res err (list BatchResult)) :=
  do r <- post dec_responses (Many reqs);
  match r with
  | Err e => ret (Err e)
  | Ok resps =>
      if negb (Nat.eqb (length resps) (length calls))
      then ret (Err (ProtocolError 0
                 (BatchLength (Z.of_nat (length calls)) (Z.of_nat (length resps)))))
      else
        let results := zip_with chunk_result calls resps in
        let needsRelogin := existsb is_denied results in
        let allWereDenied := needsRelogin && allDenied results in
        let results' := if needsRelogin && negb allWereDenied
                        then map mark_retried results else results in
        do c <- get_cl;
        if allWereDenied && negb (c_confirmWindow c) && negb (String.eqb (c_user c) "")
        then
          do l <- Login (c_user c) (c_pass c);
          match l with
          | Err _ => ret (Ok results')
          | Ok _ =>
              do fresh <- buildChunk calls;
              if negb (Nat.eqb (length fresh) (length calls)) then ret (Ok results')
              else
                do retry <- resendChunk calls fresh;
                ret (match retry with Ok rs => Ok rs | Err _ => Ok results' end)
          end
        else ret (Ok results')
  end.

(** The chunk loop of [Batch]. Every chunk holds at least one call, so a
    fuel of [length calls] covers every run ([Batch_total] below). *)
Fixpoint Batch_loop (fuel : nat) (calls : list Invocation) (out : list BatchResult)
    : M (cstate W) (option (res err (list BatchResult))) :=
  match calls with
  | [] => ret (Some (Ok out))
  | _ =>
      match fuel with
      | O => ret None
      | S fuel' =>
          do reqs <- buildChunk calls;
          do r <- sendChunk (take (length reqs) calls) reqs;
          match r with
          | Err e => ret (Some (Err e))
          | Ok rs => Batch_loop fuel' (drop (length reqs) calls) (out ++ rs)%list
          end
      end
  end.

Definition Batch (calls : list Invocation) : M (cstate W) (res err (list BatchResult)) :=
  do r <- Batch_loop (length calls) calls [];
  ret (match r with
       | Some x => x
       | None => Err (MsgError "unreachable: chunk loop" [])
       end).
End Batch.

(** [Result.Decode]. *)
Definition Decode {A} (dec : json -> option A) (zero : A) (r : BatchResult) : res err A :=
  match b_err r with
  | Some e => Err e
  | None => match b_data r with
            | None => Ok zero
            | Some d => match dec d with
                        | Some a => Ok a
                        | None => Err (ProtocolError 0 (DecodePayload "" ""))
                        end
            end
  end.

(** ** Theorems *)

Section ClientFacts.
Context {W : Type} `{Transport W}.
Implicit Types (s : cstate W).

(** The answer a logged exchange gave to a call. *)
Definition answer {A} (dec : json -> option A) (zero : A) (o m : string) (out : http_outcome)
    : res err A :=
  call_result dec zero o m (postRaw_result dec_response out).

(** What one exchange does to the client: only [nextID] moves, one request
    with the given session is on the wire, and its outcome is the result. *)
Lemma callWithSession_state {A} (dec : json -> option A) zero sess o m a s r s' :
  callWithSession dec zero sess o m a s = (r, s') ->
  cl s' = with_nextID (cl s) (c_nextID (cl s) + 1) /\
  exists out, r = answer dec zero o m out /\
    wire s' = (wire s ++ [(Single (MkRequest (c_nextID (cl s) + 1) sess o m a), out)])%list.
Proof.
  unfold callWithSession, post, bind, get_cl, set_cl, ret. simpl.
  destruct (http_do _ _ _) as [out w']. intros E. inv E. split; [done|]. by exists out.
Qed.

Lemma Login_state user pass s r s' :
  Login user pass s = (r, s') ->
  c_baseURL (cl s') = c_baseURL (cl s) /\
  c_pinnedCert (cl s') = c_pinnedCert (cl s) /\
  c_confirmWindow (cl s') = c_confirmWindow (cl s) /\
  match r with
  | Ok _ => c_session (cl s') <> "" /\ c_user (cl s') = user /\ c_pass (cl s') = pass /\
            c_shared (cl s') = false
  | Err _ => c_session (cl s') = c_session (cl s) /\ c_user (cl s') = c_user (cl s) /\
             c_pass (cl s') = c_pass (cl s) /\ c_shared (cl s') = c_shared (cl s)
  end.
Proof.
  unfold Login. intros E. unfold bind at 1 in E.
  destruct (callWithSession dec_login "" nullSession "session" "login" _ s) as [r1 s1] eqn:E1.
  apply callWithSession_state in E1 as [Hc _].
  unfold bind, ret, get_cl, set_cl in E.
  destruct r1 as [sess|e]; [destruct (String.eqb sess "") eqn:Es|]; simplify_eq/=;
    (rewrite ?Hc; simpl; bool_prop; done).
Qed.

(** Inside the confirm window: no re-login, one request, on the session the
    client already held. *)
Lemma call_in_window {A} (dec : json -> option A) zero o m a retry s r s' :
  c_confirmWindow (cl s) = true ->
  call dec zero o m a retry s = (r, s') ->
  cl s' = with_nextID (cl s) (c_nextID (cl s) + 1) /\
  exists out, r = answer dec zero o m out /\
    wire s' = (wire s ++ [(Single (MkRequest (c_nextID (cl s) + 1) (c_session (cl s)) o m a), out)])%list.
Proof.
  intros Hwin E. unfold call, callOnce in E. unfold bind at 1 2 in E. simpl in E.
  destruct (callWithSession dec zero (c_session (cl s)) o m a s) as [r1 s1] eqn:E1.
  pose proof (callWithSession_state _ _ _ _ _ _ _ _ _ E1) as [Hc Hw].
  enough (s' = s1 /\ r = r1) as [-> ->] by done.
  destruct r1 as [x|e]; [by inv E|].
  destruct (as_denied e); [|by inv E].
  unfold bind, get_cl in E. rewrite Hc in E. simpl in E.
  rewrite Hwin, orb_true_r in E. by inv E.
Qed.

(** A denial reported by one exchange is never marked as retried. *)
Lemma answer_denied {A} (dec : json -> option A) zero o m out e o' m' b :
  answer dec zero o m out = Err e ->
  as_denied e = Some (o', m', b) -> e = DeniedError o m false.
Proof.
  unfold answer, call_result, postRaw_result, safeTransportError, decodeFrame. intros E Hd.
  repeat (case_match; simplify_eq/=); done.
Qed.

Definition is_request (o m : string) (a : json) (x : exchange) : Prop :=
  exists q, x.1 = Single q /\ q_object q = o /\ q_method q = m /\ q_args q = a.
Definition is_login (x : exchange) : Prop :=
  exists q, x.1 = Single q /\ q_object q = "session" /\ q_method q = "login" /\
            q_session q = nullSession.

(** The device answered the exchange with a denial. *)
Definition was_denied (o m : string) (x : exchange) : Prop :=
  answer dec_nil tt o m x.2 = Err (DeniedError o m false).

(** A denial does not depend on what the payload decodes into. *)
Lemma answer_was_denied {A} (dec : json -> option A) zero o m out e d :
  answer dec zero o m out = Err e -> as_denied e = Some d -> answer dec_nil tt o m out = Err (DeniedError o m false).
Proof.
  destruct d as [[o' m'] b]. intros E Hd. rewrite (answer_denied _ _ _ _ _ _ _ _ _ E Hd) in E. revert E. clear.
  unfold answer, call_result. intros E. destruct (postRaw_result dec_response out) as [resp|e0]; [|by inv E].
  destruct (decodeFrame o m resp) as [[status data]|e0]; [|by inv E].
  destruct (negb (status =? StatusOK)); [by inv E|]. destruct data as [j|]; [|by inv E]. by destruct (dec j).
Qed.

(** The three shapes a [Call] can leave on the wire: only a denied request
    is followed by a login, and only after that by a retry. *)
Inductive call_shape (o m : string) (a : json) : list exchange -> Prop :=
| shape_once p : is_request o m a p -> call_shape o m a [p]
| shape_failed_login p l : is_request o m a p -> was_denied o m p -> is_login l -> call_shape o m a [p; l]
| shape_retried p l p' : is_request o m a p -> was_denied o m p -> is_login l -> is_request o m a p' ->
    call_shape o m a [p; l; p'].

Lemma Login_wire user pass s r s' :
  Login user pass s = (r, s') ->
  exists l, is_login l /\ wire s' = (wire s ++ [l])%list.
Proof.
  unfold Login. intros E. unfold bind at 1 in E.
  destruct (callWithSession dec_login "" nullSession "session" "login" _ s) as [r1 s1] eqn:E1.
  apply callWithSession_state in E1 as (_ & out & _ & Hw).
  unfold bind, ret, get_cl, set_cl in E.
  destruct r1 as [sess|e]; [destruct (String.eqb sess "")|]; simplify_eq/=;
    (eexists; split; [|exact Hw]; eexists; done).
Qed.

Lemma callOnce_wire {A} (dec : json -> option A) zero o m a s r s' :
  callOnce dec zero o m a s = (r, s') ->
  exists q out, q_object q = o /\ q_method q = m /\ q_args q = a /\
            q_session q = c_session (cl s) /\
            wire s' = (wire s ++ [(Single q, out)])%list /\
            r = answer dec zero o m out /\
            c_confirmWindow (cl s') = c_confirmWindow (cl s) /\
            c_session (cl s') = c_session (cl s) /\ c_user (cl s') = c_user (cl s).
Proof.
  unfold callOnce, bind, get_cl. intros E.
  apply callWithSession_state in E as (Hc & out & -> & Hw). rewrite Hw, Hc.
  eexists _, out. split_and!; [..|reflexivity|reflexivity|reflexivity|reflexivity|reflexivity];
    reflexivity.
Qed.

Lemma call_shapes {A} (dec : json -> option A) zero o m a retry s r s' :
  call dec zero o m a retry s = (r, s') ->
  c_confirmWindow (cl s') = c_confirmWindow (cl s) /\
  exists new, wire s' = (wire s ++ new)%list /\ call_shape o m a new /\
    ((retry = false \/ c_confirmWindow (cl s) = true \/ c_user (cl s) = "") ->
     length new = 1%nat) /\
    (forall e, r = Err e -> (exists o' m', as_denied e = Some (o', m', true)) ->
     length new = 3%nat).
Proof.
  unfold call. intros E. unfold bind at 1 in E.
  destruct (callOnce dec zero o m a s) as [r1 s1] eqn:E1.
  apply callOnce_wire in E1 as (q & out & Ho & Hm & Ha & _ & Hw & Hr & Hwin & _ & Hu).
  assert (Hp : is_request o m a (Single q, out)) by (exists q; done).
  set (p := (Single q, out)) in *.
  assert (Hone : forall e, r1 = Err e -> (exists o' m', as_denied e = Some (o', m', true)) -> False).
  { intros e -> (o' & m' & Hd). symmetry in Hr. by rewrite (answer_denied _ _ _ _ _ _ _ _ _ Hr Hd) in Hd. }
  destruct r1 as [x|e].
  { inv E. split; [done|]. exists [p]. split_and!; [done|by constructor|done|naive_solver]. }
  destruct (as_denied e) as [d|] eqn:Ed.
  2: { inv E. split; [done|]. exists [p]. split_and!; [done|by constructor|done|naive_solver]. }
  assert (Hden : was_denied o m p) by exact (answer_was_denied _ _ _ _ _ _ _ (eq_sym Hr) Ed).
  unfold bind at 1, get_cl in E. simpl in E. rewrite Hwin, Hu in E.
  destruct (negb retry || c_confirmWindow (cl s) || String.eqb (c_user (cl s)) "") eqn:Eg.
  { inv E. split; [done|]. exists [p]. split_and!; [done|by constructor|done|naive_solver]. }
  assert (Hno : retry = false \/ c_confirmWindow (cl s) = true \/ c_user (cl s) = "" -> False).
  { bool_prop. intros [?|[?|?]]; congruence. }
  unfold bind at 1 in E. destruct (Login _ _ s1) as [l s2] eqn:E2.
  pose proof (Login_wire _ _ _ _ _ E2) as (lp & Hl & Hw2).
  apply Login_state in E2 as (_ & _ & Hwin2 & _).
  destruct l as [u|le].
  2: { inv E. split; [congruence|]. exists [p; lp]. rewrite Hw2, Hw, <- app_assoc.
       split_and!; [done|by constructor|naive_solver|naive_solver]. }
  unfold bind in E. destruct (callOnce dec zero o m a s2) as [r2 s3] eqn:E3.
  apply callOnce_wire in E3 as (q2 & out2 & Ho2 & Hm2 & Ha2 & _ & Hw3 & _ & Hwin3 & _).
  assert (s' = s3) as -> by (repeat case_match; by inv E).
  split; [congruence|].
  exists [p; lp; (Single q2, out2)]. rewrite Hw3, Hw2, Hw, <- !app_assoc.
  split_and!; [done|constructor; [done|done|done|by exists q2]|naive_solver|done].
Qed.
(** A call that does not end in a denial returns the answer of one of its own
    exchanges. *)
Lemma call_answered {A} (dec : json -> option A) zero o m a retry s r s' :
  call dec zero o m a retry s = (r, s') ->
  exists new, wire s' = (wire s ++ new)%list /\
    ((exists q out, (Single q, out) ∈ new /\ q_object q = o /\ q_method q = m /\ q_args q = a /\
        r = answer dec zero o m out) \/
     exists o' m' b, r = Err (DeniedError o' m' b)).
Proof.
  unfold call. intros E. apply bind_inv in E as (r1 & s1 & E1 & E).
  apply callOnce_wire in E1 as (q & out & Ho & Hm & Ha & _ & Hw & Hr & _).
  assert (Hone : forall r', r' = r1 -> s' = s1 -> exists new, wire s' = (wire s ++ new)%list /\
    ((exists q out, (Single q, out) ∈ new /\ q_object q = o /\ q_method q = m /\ q_args q = a /\
        r' = answer dec zero o m out) \/ exists o' m' b, r' = Err (DeniedError o' m' b))).
  { intros r' -> ->. exists [(Single q, out)]. split; [done|]. left. exists q, out. split_and!; [left|done..]. }
  destruct r1 as [x|e]; [unfold ret in E; injection E as <- <-; by apply Hone|].
  destruct (as_denied e) as [d|] eqn:Ed; [|unfold ret in E; injection E as <- <-; by apply Hone].
  apply bind_inv in E as (c & s2 & E2 & E). unfold get_cl in E2. injection E2 as <- <-.
  destruct (_ || _); [unfold ret in E; injection E as <- <-; by apply Hone|].
  apply bind_inv in E as (l & s3 & E3 & E). apply Login_wire in E3 as (lp & _ & Hw3). destruct l as [u|le].
  2: { unfold ret in E. injection E as <- <-. exists [(Single q, out); lp]. rewrite Hw3, Hw, <- app_assoc.
       split; [done|]. left. exists q, out. split_and!; [left|done..]. }
  apply bind_inv in E as (r2 & s4 & E4 & E).
  apply callOnce_wire in E4 as (q2 & out2 & Ho2 & Hm2 & Ha2 & _ & Hw4 & Hr2 & _).
  assert (s' = s4) as -> by (unfold ret in E; repeat case_match; by inv E).
  exists ([(Single q, out); lp] ++ [(Single q2, out2)])%list. rewrite Hw4, Hw3, Hw, <- !app_assoc. split; [done|].
  destruct r2 as [x|e2]; [|destruct (as_denied e2) as [[[o' m'] b']|]]; unfold ret in E; injection E as <-;
    [left|right; by eexists _, _, _|left]; exists q2, out2; (split_and!; [|done..]); apply elem_of_app; right; left.
Qed.
End ClientFacts.

Section BatchFacts.
Context {W : Type} `{Transport W}.
Implicit Types (s : cstate W).

Definition inv_of (q : rpcRequest) : Invocation :=
  MkInvocation (q_object q) (q_method q) (q_args q).

(** The packing loop takes a prefix of the calls, all on one session. *)
Lemma pack_spec sess calls : forall reqs id reqs' id',
  pack sess reqs id calls = (reqs', id') ->
  exists k, (k <= length calls)%nat /\
    map inv_of reqs' = (map inv_of reqs ++ take k calls)%list /\
    length reqs' = (length reqs + k)%nat /\
    (Forall (fun q => q_session q = sess) reqs -> Forall (fun q => q_session q = sess) reqs') /\
    (reqs = [] -> calls <> [] -> (1 <= k)%nat) /\
    (reqs = [] \/ marshal_len reqs <= maxBatchBytes ->
     reqs' = [] \/ marshal_len reqs' <= maxBatchBytes \/ length reqs' = 1%nat).
Proof.
  induction calls as [|i calls IH]; intros reqs id reqs' id' E; simpl in E.
  - simplify_eq. exists 0%nat. rewrite app_nil_r, Nat.add_0_r.
    split_and!; [simpl; lia|done|done|done|done|naive_solver].
  - set (cand := (reqs ++ [MkRequest (id + 1) sess (i_object i) (i_method i) (i_args i)])%list) in *.
    assert (Hc1 : map inv_of cand = (map inv_of reqs ++ [i])%list).
    { unfold cand. rewrite map_app. by destruct i. }
    assert (Hc2 : length cand = (length reqs + 1)%nat) by (unfold cand; by rewrite length_app).
    assert (Hc3 : Forall (fun q => q_session q = sess) reqs ->
                  Forall (fun q => q_session q = sess) cand).
    { intros ?. unfold cand. apply Forall_app. split; [done|]. by constructor. }
    destruct (bool_decide (reqs = [])) eqn:Hnil, (maxBatchBytes <? marshal_len cand) eqn:Hbig; simpl in E.
    + simplify_eq. exists 1%nat. simpl. rewrite Hc1, Hc2.
      split_and!; [lia|done|done|by auto|intros; lia|].
      bool_prop. subst reqs. intros _. by right; right.
    + apply IH in E as (k & Hk & Hm & Hl & Hs & _ & Hz). exists (S k). simpl.
      rewrite Hm, Hc1, Hl, Hc2, <- app_assoc. bool_prop.
      split_and!; [lia|done|lia|intros HF; apply Hs, Hc3, HF|intros; lia|intros _; rewrite <- Hc2, <- Hl; apply Hz; by right].
    + simplify_eq. exists 0%nat. simpl. rewrite app_nil_r, Nat.add_0_r. bool_prop.
      split_and!; [lia|done|done|done|done|naive_solver].
    + apply IH in E as (k & Hk & Hm & Hl & Hs & _ & Hz). exists (S k). simpl.
      rewrite Hm, Hc1, Hl, Hc2, <- app_assoc. bool_prop.
      split_and!; [lia|done|lia|intros HF; apply Hs, Hc3, HF|intros; lia|intros _; rewrite <- Hc2, <- Hl; apply Hz; by right].
Qed.

(** A chunk: a nonempty prefix of the calls on the client's session, within
    the byte budget unless it is one call. *)
Lemma buildChunk_spec calls s reqs s' :
  calls <> [] -> buildChunk calls s = (reqs, s') ->
  wire s' = wire s /\
  map inv_of reqs = take (length reqs) calls /\
  (1 <= length reqs <= length calls)%nat /\
  Forall (fun q => q_session q = c_session (cl s)) reqs /\
  (marshal_len reqs <= maxBatchBytes \/ length reqs = 1%nat) /\
  (exists id, cl s' = with_nextID (cl s) id).
Proof.
  intros Hne E. unfold buildChunk, bind, get_cl in E.
  destruct (pack _ [] _ calls) as [r id] eqn:Ep.
  apply pack_spec in Ep as (k & Hk & Hm & Hl & Hs & H1 & Hz).
  unfold set_cl, ret in E. simpl in Hl, Hm. injection E as <- <-. simpl.
  specialize (H1 eq_refl Hne). rewrite Hl.
  split_and!; [done|done|lia|lia|by apply Hs| |by eexists].
  destruct Hz as [->|[?|?]]; [by left|simpl in Hl; lia|by left|right; lia].
Qed.

Lemma length_chunk_results calls resps :
  length resps = length calls -> length (zip_with chunk_result calls resps) = length calls.
Proof. intros Hl. rewrite length_zip_with. lia. Qed.

Lemma resendChunk_length calls reqs s rs s' :
  resendChunk calls reqs s = (Ok rs, s') -> length rs = length calls.
Proof.
  unfold resendChunk, bind, ret. intros E.
  destruct (post _ (Many reqs) s) as [[resps|e] s1]; [|done].
  destruct (Nat.eqb (length resps) (length calls)) eqn:El; simpl in E; inv E.
  apply Nat.eqb_eq in El. rewrite length_map. by apply length_chunk_results.
Qed.

Lemma sendChunk_length calls reqs s rs s' :
  sendChunk calls reqs s = (Ok rs, s') -> length rs = length calls.
Proof.
  unfold sendChunk. intros E. unfold bind at 1 in E.
  destruct (post dec_responses (Many reqs) s) as [[resps|e] s1]; [|done].
  destruct (Nat.eqb (length resps) (length calls)) eqn:El; simpl in E; [|done].
  apply Nat.eqb_eq in El. set (res0 := zip_with chunk_result calls resps) in *.
  assert (Hr : forall b : bool, length (if b then map mark_retried res0 else res0) = length calls).
  { intros []; rewrite ?length_map; by apply length_chunk_results. }
  unfold bind at 1, get_cl in E. simpl in E.
  case_match; [|by inv E].
  unfold bind at 1 in E. destruct (Login _ _ _) as [[u|e] s2]; [|by inv E].
  unfold bind at 1 in E. destruct (buildChunk calls s2) as [fresh s3].
  case_match; [by inv E|].
  unfold bind in E. destruct (resendChunk calls fresh s3) as [[rs2|e] s4] eqn:E2;
    unfold ret in E; inv E; [|done]. by eapply resendChunk_length.
Qed.

Lemma Batch_loop_total fuel : forall calls out s,
  (length calls <= fuel)%nat ->
  match fst (Batch_loop fuel calls out s) with
  | None => False
  | Some (Ok rs) => length rs = (length out + length calls)%nat
  | Some (Err _) => True
  end.
Proof.
  induction fuel as [|fuel IH]; intros calls out s Hf; destruct calls as [|i calls];
    simpl in Hf; try lia; simpl; [lia|lia|].
  unfold bind at 1. destruct (buildChunk (i :: calls) s) as [reqs s1] eqn:Eb.
  assert (Hne : i :: calls <> []) by done.
  pose proof (buildChunk_spec _ _ _ _ Hne Eb) as (_ & _ & Hl & _).
  unfold bind at 1. destruct (sendChunk _ reqs s1) as [[rs|e] s2] eqn:Es; [|done].
  apply sendChunk_length in Es. rewrite length_take_le in Es by lia.
  specialize (IH (drop (length reqs) (i :: calls)) (out ++ rs)%list s2).
  rewrite length_drop in IH. simpl in Hl, IH. specialize (IH ltac:(lia)).
  case_match; [|done]. case_match; [|done]. rewrite length_app in IH. simpl. lia.
Qed.

(** [Batch] terminates with one result per call, in request order. *)
Lemma Batch_length calls s rs s' :
  Batch calls s = (Ok rs, s') -> length rs = length calls.
Proof.
  unfold Batch, bind. intros E. pose proof (Batch_loop_total (length calls) calls [] s) as Ht.
  destruct (Batch_loop (length calls) calls [] s) as [r s1]. simpl in Ht.
  specialize (Ht ltac:(lia)). unfold ret in E. destruct r as [[rs'|e]|]; [|done|done].
  by inv E.
Qed.
Lemma sendChunk_in_window calls reqs s r s' :
  c_confirmWindow (cl s) = true -> sendChunk calls reqs s = (r, s') ->
  cl s' = cl s /\ exists out, wire s' = (wire s ++ [(Many reqs, out)])%list.
Proof.
  intros Hwin E. unfold sendChunk in E. unfold bind at 1, post at 1 in E.
  destruct (http_do (world s) (c_baseURL (cl s)) (Many reqs)) as [o w'].
  enough (s' = MkCState (cl s) w' (wire s ++ [(Many reqs, o)])) as -> by (split; [done|by exists o]).
  destruct (postRaw_result dec_responses o) as [resps|e]; [|by inv E].
  destruct (Nat.eqb (length resps) (length calls)); simpl in E; [|by inv E].
  unfold bind at 1, get_cl in E. simpl in E. rewrite Hwin in E.
  rewrite andb_false_r in E. simpl in E. by inv E.
Qed.

(** The chunks one batch posts. *)
Definition good_chunk (sess : string) (reqs : list rpcRequest) : Prop :=
  Forall (fun q => q_session q = sess) reqs /\
  (marshal_len reqs <= maxBatchBytes \/ length reqs = 1%nat).

(** The requests posted between two states are these arrays, in order. *)
Definition posts s s' (chunks : list (list rpcRequest)) : Prop :=
  exists new, wire s' = (wire s ++ new)%list /\ map fst new = map Many chunks.

Lemma Batch_loop_window fuel : forall calls out s r s',
  c_confirmWindow (cl s) = true ->
  Batch_loop fuel calls out s = (r, s') ->
  c_session (cl s') = c_session (cl s) /\
  exists chunks, posts s s' chunks /\
    Forall (good_chunk (c_session (cl s))) chunks /\
    (exists rest, calls = (concat (map (map inv_of) chunks) ++ rest)%list /\
      forall rs, r = Some (Ok rs) -> rest = []).
Proof.
  induction fuel as [|fuel IH]; intros calls out s r s' Hwin E;
    destruct calls as [|i calls]; simpl in E;
    try (inv E; split; [done|]; exists []; split_and!; [by exists []; rewrite app_nil_r|constructor|];
         eexists; split; [reflexivity|naive_solver]).
  assert (Hne : i :: calls <> []) by done.
  set (cs := i :: calls) in *.
  unfold bind at 1 in E. destruct (buildChunk cs s) as [reqs s1] eqn:Eb.
  destruct (buildChunk_spec _ _ _ _ Hne Eb) as (Hw & Hm & Hl & Hs & Hb & [id Hc]).
  unfold bind at 1 in E. destruct (sendChunk _ reqs s1) as [r1 s2] eqn:Es.
  apply sendChunk_in_window in Es as (Hc2 & out2 & Hw2); [|by rewrite Hc].
  assert (Hg : good_chunk (c_session (cl s)) reqs) by done.
  assert (Hcs : cs = (map inv_of reqs ++ drop (length reqs) cs)%list)
    by (by rewrite Hm, take_drop).
  rewrite Hc in Hc2. rewrite Hw in Hw2.
  destruct r1 as [rs|e].
  - apply IH in E as (Hse & chunks & (new & Hwc & Hnew) & Hgc & rest & Hrest & Hr); [|by rewrite Hc2].
    rewrite Hc2 in Hse, Hgc. simpl in Hse, Hgc. split; [done|]. exists (reqs :: chunks).
    split_and!; [|by constructor|].
    { exists ((Many reqs, out2) :: new). rewrite Hwc, Hw2, <- app_assoc. simpl. by rewrite Hnew. }
    exists rest. split; [|done]. simpl. by rewrite <- app_assoc, <- Hrest.
  - inv E. rewrite Hc2. split; [done|]. exists [reqs].
    split_and!; [by eexists [_]|constructor; [exact Hg|constructor]|].
    exists (drop (length reqs) (i :: calls)). split; [|done].
    simpl. rewrite app_nil_r. exact Hcs.
Qed.
End BatchFacts.

(** ** Properties *)

Section Properties.
Context {W : Type} `{Transport W}.

(** The re-login policy of [Call]. A call posts its own request once; only
    when the device denied it does it log in and, after that, repeat the
    request once, so nothing is ever sent twice that the device accepted.
    Inside a confirm window, or with no user known, there is no login and no
    repetition; and an error marked as retried is only ever reported after the
    request was sent again. *)
Theorem Call_policy {A} (dec : json -> option A) zero o m a (s : cstate W) r s' :
  Call dec zero o m a s = (r, s') ->
  exists new, wire s' = (wire s ++ new)%list /\ call_shape o m a new /\
    (c_confirmWindow (cl s) = true \/ c_user (cl s) = "" -> length new = 1%nat) /\
    (forall e, r = Err e -> (exists o' m', as_denied e = Some (o', m', true)) ->
       length new = 3%nat).
Proof.
  intros E. apply call_shapes in E as (_ & new & Hw & Hs & H1 & H3).
  exists new. split_and!; [done|done|tauto|done].
Qed.

(** C10: a batch inside a confirm window sends every call exactly once, in
    order, in arrays that carry the window's session and stay below the size
    limit unless a single call alone exceeds it; on success every call was
    sent and has its result, and on an error what was sent is a prefix. *)
Theorem Batch_delivery calls (s : cstate W) r s' :
  c_confirmWindow (cl s) = true -> Batch calls s = (r, s') ->
  exists chunks, posts s s' chunks /\
    Forall (good_chunk (c_session (cl s))) chunks /\
    concat (map (map inv_of) chunks) `prefix_of` calls /\
    match r with
    | Ok rs => concat (map (map inv_of) chunks) = calls /\ length rs = length calls
    | Err _ => True
    end.
Proof.
  intros Hwin E. pose proof (fun rs H => Batch_length calls s rs s' H) as Hlen.
  rewrite E in Hlen. unfold Batch, bind in E.
  pose proof (Batch_loop_total (length calls) calls [] s ltac:(lia)) as Ht.
  destruct (Batch_loop (length calls) calls [] s) as [r1 s1] eqn:El. unfold ret in E.
  apply Batch_loop_window in El as (_ & chunks & Hw & Hg & rest & Hr & Hok); [|done].
  assert (s' = s1) as -> by (by destruct r1; inv E).
  exists chunks. split_and!; [done|done|by exists rest|].
  destruct r as [rs|e]; [|done]. split; [|by apply Hlen].
  destruct r1 as [[rs'|e']|]; [|done|done].
  by rewrite (Hok rs' eq_refl), app_nil_r in Hr.
Qed.
End Properties.
