(* ===== verification/GoJson.v ===== *)
(** * Go's encoding/json

    The text of a JSON document as [json.Unmarshal] reads it: the scanner's
    grammar, the decoding of string literals ([unquoteBytes]) and the nesting
    limit, over the values [Ubus.json]; and the decoding of an object into the
    fields of a struct and into a map. [ParseJSON] runs with fuel twice the
    length of its input; [parse_fuel] proves that no further fuel changes the
    result, so [None] always means text the scanner refuses. *)

From Stdlib Require Import ZArith Lia Ascii String.
From stdpp Require Import base gmap list strings.
From S2P Require Import Prelude GoStr Ubus.

Local Open Scope string_scope.
Local Open Scope Z_scope.

(** ** Tokens *)

Definition is_ws (c : ascii) : bool :=
  let b := byte_of c in (b =? 32) || (b =? 9) || (b =? 10) || (b =? 13).

Fixpoint skip_ws (l : list ascii) : list ascii :=
  match l with
  | c :: l1 => if is_ws c then skip_ws l1 else l
  | [] => []
  end.

Definition hex_value (c : ascii) : option Z :=
  let b := byte_of c in
  if is_digit c then Some (b - 48)
  else if (97 <=? b) && (b <=? 102) then Some (b - 87)
  else if (65 <=? b) && (b <=? 70) then Some (b - 55)
  else None.

(** Four hexadecimal digits and what follows them. *)
Definition hex4 (l : list ascii) : option (Z * list ascii) :=
  match l with
  | a :: b :: c :: d :: r =>
      match hex_value a, hex_value b, hex_value c, hex_value d with
      | Some a, Some b, Some c, Some d => Some (((a * 16 + b) * 16 + c) * 16 + d, r)
      | _, _, _, _ => None
      end
  | _ => None
  end.

(** [utf8.EncodeRune]. *)
Definition encode_rune (z : Z) : list ascii :=
  if z <? 128 then [chr z]
  else if z <? 2048 then [chr (192 + z / 64); chr (128 + z mod 64)]
  else if z <? 65536 then
    [chr (224 + z / 4096); chr (128 + z / 64 mod 64); chr (128 + z mod 64)]
  else [chr (240 + z / 262144); chr (128 + z / 4096 mod 64);
        chr (128 + z / 64 mod 64); chr (128 + z mod 64)].

Definition rune_error : list ascii := encode_rune 65533.

Definition high_surrogate (z : Z) : bool := (55296 <=? z) && (z <? 56320).
Definition low_surrogate (z : Z) : bool := (56320 <=? z) && (z <? 57344).

(** What follows an escaped [u]: the rune's bytes and the rest. A surrogate
    pair is one rune, and half of one is U+FFFD. *)
Definition unicode_escape (l : list ascii) : option (list ascii * list ascii) :=
  match hex4 l with
  | None => None
  | Some (u, r) =>
      if high_surrogate u || low_surrogate u then
        match r with
        | b :: c :: r1 =>
            match hex4 r1 with
            | Some (v, r2) =>
                if Ascii.eqb b (chr 92) && Ascii.eqb c "u" && high_surrogate u && low_surrogate v
                then Some (encode_rune (65536 + (u - 55296) * 1024 + (v - 56320)), r2)
                else Some (rune_error, r)
            | None => Some (rune_error, r)
            end
        | _ => Some (rune_error, r)
        end
      else Some (encode_rune u, r)
  end.

(** The character after a backslash, when it stands for one byte. *)
Definition simple_escape (c : ascii) : option ascii :=
  let b := byte_of c in
  if (b =? 34) || (b =? 92) || (b =? 47) then Some c
  else if Ascii.eqb c "b" then Some (chr 8)
  else if Ascii.eqb c "f" then Some (chr 12)
  else if Ascii.eqb c "n" then Some (chr 10)
  else if Ascii.eqb c "r" then Some (chr 13)
  else if Ascii.eqb c "t" then Some (chr 9)
  else None.

(** The rest of a string literal: its bytes and what follows the closing
    quote. An ill-formed byte becomes U+FFFD. *)
Fixpoint parse_string (fuel : nat) (l : list ascii) : option (list ascii * list ascii) :=
  match fuel, l with
  | O, _ | _, [] => None
  | S f, c :: l1 =>
      let b := byte_of c in
      let continue_ (w : list ascii) (r : list ascii) :=
        match parse_string f r with Some (s, r1) => Some ((w ++ s)%list, r1) | None => None end in
      if b =? 34 then Some ([], l1)
      else if b <? 32 then None
      else if b =? 92 then
        match l1 with
        | [] => None
        | e :: l2 =>
            match simple_escape e with
            | Some x => continue_ [x] l2
            | None => if Ascii.eqb e "u" then
                        match unicode_escape l2 with
                        | Some (w, r) => continue_ w r
                        | None => None
                        end
                      else None
            end
        end
      else if b <? 128 then continue_ [c] l1
      else let n := rune_size l in
           continue_ (if Nat.eqb n 1 then rune_error else take n l) (drop n l)
  end.

Fixpoint span_digits (l : list ascii) : list ascii * list ascii :=
  match l with
  | c :: l1 => if is_digit c then let '(d, r) := span_digits l1 in (c :: d, r) else ([], l)
  | [] => ([], [])
  end.

(** An optional fraction: [None] when the dot has no digits after it. *)
Definition parse_fraction (l : list ascii) : option (list ascii * list ascii) :=
  match l with
  | c :: l1 => if Ascii.eqb c "." then
                 match span_digits l1 with
                 | ([], _) => None
                 | (d, r) => Some (c :: d, r)
                 end
               else Some ([], l)
  | [] => Some ([], l)
  end.

Definition parse_exponent (l : list ascii) : option (list ascii * list ascii) :=
  match l with
  | c :: l1 =>
      if Ascii.eqb c "e" || Ascii.eqb c "E" then
        let '(s, l2) := match l1 with
                        | x :: l2 => if Ascii.eqb x "+" || Ascii.eqb x "-" then ([x], l2) else ([], l1)
                        | [] => ([], l1)
                        end in
        match span_digits l2 with
        | ([], _) => None
        | (d, r) => Some ((c :: s ++ d)%list, r)
        end
      else Some ([], l)
  | [] => Some ([], l)
  end.

(** The integer part: a zero alone, or digits that do not start with one. *)
Definition parse_integer (l : list ascii) : option (list ascii * list ascii) :=
  match l with
  | c :: l1 => if Ascii.eqb c "0" then Some ([c], l1)
               else match span_digits l with
                    | ([], _) => None
                    | (d, r) => Some (d, r)
                    end
  | [] => None
  end.

(** A literal without fraction and exponent is an integer. *)
Definition parse_number (l : list ascii) : option (json * list ascii) :=
  let '(neg, l1) := match l with
                    | c :: l1 => if Ascii.eqb c "-" then (true, l1) else (false, l)
                    | [] => (false, l)
                    end in
  match parse_integer l1 with
  | None => None
  | Some (i, r1) =>
      match parse_fraction r1 with
      | None => None
      | Some (fr, r2) =>
          match parse_exponent r2 with
          | None => None
          | Some (ex, r3) =>
              match fr, ex with
              | [], [] => let z := default 0 (digits_value i 0) in
                          Some (JInt (if neg then - z else z), r3)
              | _, _ => Some (JFrac (of_chars ((if neg then [chr 45] else []) ++ i ++ fr ++ ex)%list), r3)
              end
          end
      end
  end.

(** ** Values *)

Definition maxNestingDepth : Z := 10000.

Definition starts (c : ascii) (l : list ascii) : option (list ascii) :=
  match l with
  | x :: r => if Ascii.eqb x c then Some r else None
  | [] => None
  end.

Definition literal (l : list ascii) : option (json * list ascii) :=
  match strip_prefix (chars "true") l with
  | Some r => Some (JBool true, r)
  | None =>
      match strip_prefix (chars "false") l with
      | Some r => Some (JBool false, r)
      | None =>
          match strip_prefix (chars "null") l with
          | Some r => Some (JNull, r)
          | None => parse_number l
          end
      end
  end.

Fixpoint parse_value (fuel : nat) (depth : Z) (l : list ascii) : option (json * list ascii) :=
  match fuel with
  | O => None
  | S f =>
      match skip_ws l with
      | [] => None
      | c :: l1 =>
          if Ascii.eqb c (chr 34) then
            match parse_string (length l1) l1 with
            | Some (s, r) => Some (JStr (of_chars s), r)
            | None => None
            end
          else if Ascii.eqb c "[" then
            if maxNestingDepth <=? depth then None
            else match starts "]" (skip_ws l1) with
                 | Some r => Some (JArr [], r)
                 | None => match parse_elems f (depth + 1) l1 with
                           | Some (es, r) => Some (JArr es, r)
                           | None => None
                           end
                 end
          else if Ascii.eqb c "{" then
            if maxNestingDepth <=? depth then None
            else match starts "}" (skip_ws l1) with
                 | Some r => Some (JObj [], r)
                 | None => match parse_members f (depth + 1) l1 with
                           | Some (ms, r) => Some (JObj ms, r)
                           | None => None
                           end
                 end
          else literal (c :: l1)
      end
  end
with parse_elems (fuel : nat) (depth : Z) (l : list ascii) : option (list json * list ascii) :=
  match fuel with
  | O => None
  | S f =>
      match parse_value f depth l with
      | None => None
      | Some (v, r) =>
          match starts "," (skip_ws r) with
          | Some r1 => match parse_elems f depth r1 with
                       | Some (vs, r2) => Some (v :: vs, r2)
                       | None => None
                       end
          | None => match starts "]" (skip_ws r) with
                    | Some r1 => Some ([v], r1)
                    | None => None
                    end
          end
      end
  end
with parse_members (fuel : nat) (depth : Z) (l : list ascii)
    : option (list (string * json) * list ascii) :=
  match fuel with
  | O => None
  | S f =>
      match starts (chr 34) (skip_ws l) with
      | None => None
      | Some l1 =>
          match parse_string (length l1) l1 with
          | None => None
          | Some (k, r) =>
              match starts ":" (skip_ws r) with
              | None => None
              | Some r1 =>
                  match parse_value f depth r1 with
                  | None => None
                  | Some (v, r2) =>
                      match starts "," (skip_ws r2) with
                      | Some r3 => match parse_members f depth r3 with
                                   | Some (ms, r4) => Some ((of_chars k, v) :: ms, r4)
                                   | None => None
                                   end
                      | None => match starts "}" (skip_ws r2) with
                                | Some r3 => Some ([(of_chars k, v)], r3)
                                | None => None
                                end
                      end
                  end
              end
          end
      end
  end.

(** A whole document: one value and nothing but white space after it. *)
Definition ParseJSON (s : string) : option json :=
  let l := chars s in
  match parse_value (2 * length l + 2) 0 l with
  | Some (v, r) => match skip_ws r with [] => Some v | _ => None end
  | None => None
  end.

(** ** Decoding *)

(** A struct field of type [string]: every key that folds to the tag is
    decoded in turn, and [null] leaves the field as it is. *)
Definition str_field (k : string) (l : list (string * json)) : option string :=
  fold_left (fun acc kv =>
    match acc with
    | None => None
    | Some s => if EqualFold k (fst kv) then
                  match snd kv with JStr v => Some v | JNull => Some s | _ => None end
                else Some s
    end) l (Some "").

(** A field of type [int] or [int64]. *)
Definition int_field (k : string) (l : list (string * json)) : option Z :=
  fold_left (fun acc kv =>
    match acc with
    | None => None
    | Some z => if EqualFold k (fst kv) then
                  match snd kv with JNull => Some z | v => dec_int (Some v) end
                else Some z
    end) l (Some 0).

(** A field of type [bool]. *)
Definition bool_field (k : string) (l : list (string * json)) : option bool :=
  fold_left (fun acc kv =>
    match acc with
    | None => None
    | Some b => if EqualFold k (fst kv) then
                  match snd kv with JBool v => Some v | JNull => Some b | _ => None end
                else Some b
    end) l (Some false).

(** A field of a slice type, given the decoding of its elements; [null] and an
    absent key leave nil. *)
Definition list_field {A} (dec : json -> option A) (k : string) (l : list (string * json)) : option (list A) :=
  fold_left (fun acc kv =>
    match acc with
    | None => None
    | Some a => if EqualFold k (fst kv) then
                  match snd kv with JArr v => all_some (map dec v) | JNull => Some [] | _ => None end
                else Some a
    end) l (Some []).

(** A field of a struct type, and a value of the type [map[string]A]. *)
Definition struct_field {A} (dec : json -> option A) (zero : A) (k : string) (l : list (string * json)) : option A :=
  fold_left (fun acc kv =>
    match acc with
    | None => None
    | Some a => if EqualFold k (fst kv) then match snd kv with JNull => Some a | v => dec v end else Some a
    end) l (Some zero).

Definition dec_map {A} (dec : json -> option A) (j : json) : option (gmap string A) :=
  match j with
  | JNull => Some ∅
  | JObj l => fold_left (fun acc kv => match acc, dec (snd kv) with
                                       | Some m, Some a => Some (<[fst kv := a]> m)
                                       | _, _ => None
                                       end) l (Some ∅)
  | _ => None
  end.

(** An element of type [string]; [null] is the zero value. *)
Definition dec_str (j : json) : option string :=
  match j with JStr s => Some s | JNull => Some "" | _ => None end.

(** A field of type [[]json.RawMessage]; [Some None] is the nil slice. *)
Definition arr_field (k : string) (l : list (string * json)) : option (option (list json)) :=
  fold_left (fun acc kv =>
    match acc with
    | None => None
    | Some a => if EqualFold k (fst kv) then
                  match snd kv with JArr v => Some (Some v) | JNull => Some None | _ => None end
                else Some a
    end) l (Some None).

(** A JSON object as a Go map: the last binding of a key. *)
Definition json_map (l : list (string * json)) : gmap string json :=
  fold_left (fun m kv => <[fst kv := snd kv]> m) l ∅.

(** [map[string]json.RawMessage]; [null] is the nil map. *)
Definition raw_map (j : json) : option (gmap string json) :=
  match j with
  | JObj l => Some (json_map l)
  | JNull => Some ∅
  | _ => None
  end.

(** The members a struct is decoded from; [null] leaves it zero. *)
Definition struct_fields (j : json) : option (list (string * json)) :=
  match j with
  | JObj l => Some l
  | JNull => Some []
  | _ => None
  end.

(** [[]json.RawMessage]. *)
Definition raw_list (j : json) : option (list json) :=
  match j with
  | JArr l => Some l
  | JNull => Some []
  | _ => None
  end.

(** ** The fuel is enough *)

Lemma skip_ws_length l : (length (skip_ws l) <= length l)%nat.
Proof. induction l as [|c l IH]; simpl; [lia|]. case_match; simpl; lia. Qed.

Lemma starts_length c l r : starts c l = Some r -> length l = S (length r).
Proof. destruct l; simpl; [done|]. case_match; by intros [= <-]. Qed.

Lemma starts_ws c l r : starts c (skip_ws l) = Some r -> (length r < length l)%nat.
Proof. intros H%starts_length. pose proof (skip_ws_length l). lia. Qed.

Lemma strip_prefix_length p : forall l r,
  strip_prefix p l = Some r -> (length l = length p + length r)%nat.
Proof.
  induction p as [|a p IH]; intros [|b l] r; simpl; try (by intros [= <-]); try done.
  case_match; [|done]. intros E%IH. lia.
Qed.

Lemma hex4_length l z r : hex4 l = Some (z, r) -> (length r < length l)%nat.
Proof.
  destruct l as [|a [|b [|c [|d l]]]]; try done. simpl.
  repeat case_match; try done. intros [= _ <-]. lia.
Qed.

Lemma unicode_escape_length l w r : unicode_escape l = Some (w, r) -> (length r < length l)%nat.
Proof.
  unfold unicode_escape. destruct (hex4 l) as [[u r0]|] eqn:E; [|done]. apply hex4_length in E.
  case_match; [|by intros [= _ <-]].
  destruct r0 as [|b [|c r1]]; try (by intros [= _ <-]).
  destruct (hex4 r1) as [[v r2]|] eqn:E2; [|by intros [= _ <-]]. apply hex4_length in E2. simpl in E.
  case_match; intros [= _ <-]; simpl; lia.
Qed.

Lemma parse_string_length fuel : forall l s r,
  parse_string fuel l = Some (s, r) -> (length r < length l)%nat.
Proof.
  induction fuel as [|f IH]; intros l s r; [done|].
  destruct l as [|c l1]; [done|]. cbn [parse_string].
  assert (K : forall (w : list ascii) rest, (length rest <= length l1)%nat ->
    match parse_string f rest with Some (s0, r1) => Some ((w ++ s0)%list, r1) | None => None end = Some (s, r) ->
    (length r < length (c :: l1))%nat).
  { intros w rest Hr. destruct (parse_string f rest) as [[s0 r1]|] eqn:E; [|done].
    intros [= _ <-]. apply IH in E. simpl. lia. }
  case_match; [intros [= _ <-]; simpl; lia|]. case_match; [done|]. case_match.
  - destruct l1 as [|e l2]; [done|]. destruct (simple_escape e).
    + apply K. simpl. lia.
    + case_match; [|done]. destruct (unicode_escape l2) as [[w r0]|] eqn:E; [|done].
      apply unicode_escape_length in E. apply K. simpl. lia.
  - case_match; [by apply K|]. pose proof (rune_size_bounds (c :: l1)).
    apply K. rewrite length_drop. cbn [length]. lia.
Qed.

Lemma span_digits_length l : forall d r,
  span_digits l = (d, r) -> length l = (length d + length r)%nat.
Proof.
  induction l as [|c l IH]; intros d r; simpl; [by intros [= <- <-]|].
  case_match; [|by intros [= <- <-]]. destruct (span_digits l) as [d0 r0].
  intros [= <- <-]. simpl. f_equal. by apply IH.
Qed.

Lemma parse_integer_length l d r : parse_integer l = Some (d, r) -> (length r < length l)%nat.
Proof.
  unfold parse_integer. destruct l as [|c l]; [done|]. case_match; [intros [= _ <-]; simpl; lia|].
  destruct (span_digits (c :: l)) as [[|x d0] r0] eqn:E; [done|]. apply span_digits_length in E.
  intros [= _ <-]. simpl in E. simpl. lia.
Qed.

Lemma parse_fraction_length l d r : parse_fraction l = Some (d, r) -> (length r <= length l)%nat.
Proof.
  unfold parse_fraction. destruct l as [|c l]; [by intros [= _ <-]|]. case_match; [|by intros [= _ <-]].
  destruct (span_digits l) as [[|x d0] r0] eqn:E; [done|]. apply span_digits_length in E.
  intros [= _ <-]. simpl in *. lia.
Qed.

Lemma parse_exponent_length l d r : parse_exponent l = Some (d, r) -> (length r <= length l)%nat.
Proof.
  unfold parse_exponent. destruct l as [|c l]; [by intros [= _ <-]|]. case_match; [|by intros [= _ <-]].
  destruct (match l with [] => _ | x :: l2 => _ end) as [s l2] eqn:E1.
  assert (H2 : (length l2 <= length l)%nat).
  { destruct l as [|x l0]; [by injection E1 as <- <-|]. case_match; injection E1 as <- <-; simpl; lia. }
  destruct (span_digits l2) as [[|x d0] r0] eqn:E; [done|]. apply span_digits_length in E.
  intros [= _ <-]. simpl in *. lia.
Qed.

Lemma parse_number_length l v r : parse_number l = Some (v, r) -> (length r < length l)%nat.
Proof.
  unfold parse_number.
  destruct (match l with [] => _ | c :: l1 => _ end) as [neg l1] eqn:E0.
  assert (H0 : (length l1 <= length l)%nat).
  { destruct l as [|x l0]; [by injection E0 as <- <-|]. case_match; injection E0 as <- <-; simpl; lia. }
  destruct (parse_integer l1) as [[i r1]|] eqn:E1; [|done]. apply parse_integer_length in E1.
  destruct (parse_fraction r1) as [[fr r2]|] eqn:E2; [|done]. apply parse_fraction_length in E2.
  destruct (parse_exponent r2) as [[ex r3]|] eqn:E3; [|done]. apply parse_exponent_length in E3.
  intros H. assert (r = r3) as -> by (repeat case_match; congruence). lia.
Qed.

Lemma literal_length l v r : literal l = Some (v, r) -> (length r < length l)%nat.
Proof.
  unfold literal.
  repeat (destruct (strip_prefix _ l) eqn:E;
    [apply strip_prefix_length in E; intros [= _ <-]; simpl in E; lia|clear E]).
  apply parse_number_length.
Qed.

(** Every parser consumes input. *)
Lemma parse_length fuel :
  (forall d l v r, parse_value fuel d l = Some (v, r) -> (length r < length l)%nat) /\
  (forall d l v r, parse_elems fuel d l = Some (v, r) -> (length r < length l)%nat) /\
  (forall d l v r, parse_members fuel d l = Some (v, r) -> (length r < length l)%nat).
Proof.
  induction fuel as [|f (IHv & IHe & IHm)]; [done|]. split_and!; intros d l v r; cbn [parse_value parse_elems parse_members].
  - pose proof (skip_ws_length l) as Hs. destruct (skip_ws l) as [|c l1]; [done|]. simpl in Hs.
    destruct (Ascii.eqb c (chr 34)).
    { destruct (parse_string _ _) as [[k r0]|] eqn:E; [|done]. apply parse_string_length in E.
      intros [= _ <-]. lia. }
    destruct (Ascii.eqb c "["); [|destruct (Ascii.eqb c "{")].
    + case_match; [done|]. destruct (starts _ _) eqn:E; [apply starts_ws in E; intros [= _ <-]; lia|].
      destruct (parse_elems _ _ _) as [[es r0]|] eqn:E1; [|done]. apply IHe in E1. intros [= _ <-]. lia.
    + case_match; [done|]. destruct (starts _ _) eqn:E; [apply starts_ws in E; intros [= _ <-]; lia|].
      destruct (parse_members _ _ _) as [[es r0]|] eqn:E1; [|done]. apply IHm in E1. intros [= _ <-]. lia.
    + intros H%literal_length. simpl in H. lia.
  - destruct (parse_value f d l) as [[x r0]|] eqn:E; [|done]. apply IHv in E.
    destruct (starts "," _) eqn:E1; [apply starts_ws in E1|].
    + destruct (parse_elems f d _) as [[vs r2]|] eqn:E2; [|done]. apply IHe in E2.
      intros [= _ <-]. lia.
    + destruct (starts "]" _) eqn:E2; [|done]. apply starts_ws in E2. intros [= _ <-]. lia.
  - destruct (starts _ _) eqn:E0; [|done]. apply starts_ws in E0.
    destruct (parse_string _ _) as [[k r0]|] eqn:E1; [|done]. apply parse_string_length in E1.
    destruct (starts ":" _) eqn:E2; [|done]. apply starts_ws in E2.
    destruct (parse_value f d _) as [[x r2]|] eqn:E3; [|done]. apply IHv in E3.
    destruct (starts "," _) eqn:E4; [apply starts_ws in E4|].
    + destruct (parse_members f d _) as [[vs r4]|] eqn:E5; [|done]. apply IHm in E5.
      intros [= _ <-]. lia.
    + destruct (starts "}" _) eqn:E5; [|done]. apply starts_ws in E5. intros [= _ <-]. lia.
Qed.

(** With fuel for the length of the input, more fuel changes nothing. *)
Lemma parse_fuel n :
  (forall d l f g, (length l <= n)%nat -> (2 * n + 1 <= f)%nat -> (2 * n + 1 <= g)%nat ->
     parse_value f d l = parse_value g d l) /\
  (forall d l f g, (length l <= n)%nat -> (2 * n + 2 <= f)%nat -> (2 * n + 2 <= g)%nat ->
     parse_elems f d l = parse_elems g d l) /\
  (forall d l f g, (length l <= n)%nat -> (2 * n + 2 <= f)%nat -> (2 * n + 2 <= g)%nat ->
     parse_members f d l = parse_members g d l).
Proof.
  induction n as [n IH] using (well_founded_induction Wf_nat.lt_wf).
  assert (V : forall d l f g, (length l <= n)%nat -> (2 * n + 1 <= f)%nat -> (2 * n + 1 <= g)%nat ->
     parse_value f d l = parse_value g d l).
  { intros d l [|f] [|g] Hl Hf Hg; [lia..|]. cbn [parse_value]. pose proof (skip_ws_length l).
    destruct (skip_ws l) as [|c l1]; [done|]. simpl in *. destruct (IH (n - 1)%nat) as (_ & He & Hm); [lia|].
    rewrite (He (d + 1) l1 f g), (Hm (d + 1) l1 f g) by lia. done. }
  split_and!; [done|..]; intros d l [|f] [|g] Hl Hf Hg; try lia;
    cbn [parse_value parse_elems parse_members].
  - rewrite (V d l f g) by lia. destruct (parse_value g d l) as [[v r]|] eqn:E; [|done].
    apply (proj1 (parse_length g)) in E. destruct (starts "," _) eqn:E1; [|done]. apply starts_ws in E1.
    destruct (IH (n - 1)%nat) as (_ & He & _); [lia|]. by rewrite (He d _ f g) by lia.
  - destruct (starts _ _) eqn:E0; [|done]. apply starts_ws in E0.
    destruct (parse_string _ _) as [[k r0]|] eqn:E1; [|done]. apply parse_string_length in E1.
    destruct (starts ":" _) eqn:E2; [|done]. apply starts_ws in E2.
    rewrite (V d _ f g) by lia. destruct (parse_value g d _) as [[v r]|] eqn:E; [|done].
    apply (proj1 (parse_length g)) in E. destruct (starts "," _) eqn:E3; [|done]. apply starts_ws in E3.
    destruct (IH (n - 1)%nat) as (_ & _ & Hm); [lia|]. by rewrite (Hm d _ f g) by lia.
Qed.

(** ** Examples *)

Definition q (s : string) : string := String (chr 34) s ++ String (chr 34) "".

Example parse_nested :
  ParseJSON (" {" ++ q "a" ++ " : [1, -2.5e3, true, null], " ++ q "b" ++ ":{}}")
  = Some (JObj [("a", JArr [JInt 1; JFrac "-2.5e3"; JBool true; JNull]); ("b", JObj [])]).
Proof. reflexivity. Qed.

Example parse_escapes :
  ParseJSON (q ("\u0041\n" ++ "\ud83d\ude00" ++ "\ud800"))
  = Some (JStr (of_chars (bytes [65; 10; 240; 159; 152; 128; 239; 191; 189]))).
Proof. reflexivity. Qed.

Example parse_refuses :
  map ParseJSON ["01"; "[1,]"; "{,}"; "1."; "tru"; "1 2"; ""; q (String (chr 10) "")]
  = repeat None 8.
Proof. reflexivity. Qed.
