(* ===== verification/UbusTrace.v ===== *)
(** * Traces of the ubus client

    A small program logic over the wire log of [Ubus]: [posts_only R m] says
    that every request the computation [m] posts satisfies [R], whatever the
    device answers; [keeps_session m] says that inside a confirm window [m]
    neither leaves the window nor changes the session. Both are closed under
    sequencing, so they are proved of a component by walking its code. *)

From Stdlib Require Import ZArith Lia Ascii String.
From stdpp Require Import base list strings.
From S2P Require Import Prelude GoStr Ubus.

Local Open Scope string_scope.
Local Open Scope Z_scope.

Definition requests_of (p : payload) : list rpcRequest :=
  match p with Single q => [q] | Many qs => qs end.

(** The requests of a stretch of the wire log. *)
Definition trace_requests (l : list exchange) : list rpcRequest :=
  flat_map (fun x => requests_of x.1) l.

Section Trace.
Context {W : Type} `{Transport W}.

Definition login_request (q : rpcRequest) : Prop :=
  q_session q = nullSession /\ q_object q = "session" /\ q_method q = "login".

Definition posts_only (R : rpcRequest -> Prop) {A} (m : M (cstate W) A) : Prop :=
  forall s a s', m s = (a, s') ->
  exists new, wire s' = (wire s ++ new)%list /\ Forall R (trace_requests new).

Definition keeps_session {A} (m : M (cstate W) A) : Prop :=
  forall s a s', c_confirmWindow (cl s) = true -> m s = (a, s') ->
  c_confirmWindow (cl s') = true /\ c_session (cl s') = c_session (cl s).

Lemma trace_requests_app l1 l2 :
  trace_requests (l1 ++ l2) = (trace_requests l1 ++ trace_requests l2)%list.
Proof. apply flat_map_app. Qed.

Lemma posts_only_quiet (R : rpcRequest -> Prop) {A} (m : M (cstate W) A) :
  (forall s, wire (m s).2 = wire s) -> posts_only R m.
Proof.
  intros Hm s a s' E. exists []. rewrite app_nil_r. specialize (Hm s). by rewrite E in Hm.
Qed.

Lemma posts_only_ret (R : rpcRequest -> Prop) {A} (a : A) : posts_only R (ret a).
Proof. by apply posts_only_quiet. Qed.

Lemma posts_only_bind (R : rpcRequest -> Prop) {A B} (m : M (cstate W) A)
    (k : A -> M (cstate W) B) :
  posts_only R m -> (forall a, posts_only R (k a)) -> posts_only R (bind m k).
Proof.
  intros Hm Hk s b s' E. unfold bind in E. destruct (m s) as [a s1] eqn:Em.
  apply Hm in Em as (n1 & Hw1 & H1). apply Hk in E as (n2 & Hw2 & H2).
  exists (n1 ++ n2)%list. rewrite Hw2, Hw1, <- app_assoc. split; [done|].
  rewrite trace_requests_app. by apply Forall_app.
Qed.

Lemma posts_only_weaken (R R' : rpcRequest -> Prop) {A} (m : M (cstate W) A) :
  posts_only R m -> (forall q, R q -> R' q) -> posts_only R' m.
Proof.
  intros Hm Hw s a s' E. apply Hm in E as (n & ? & Hf). exists n. split; [done|].
  by eapply Forall_impl.
Qed.

Lemma posts_only_get_cl R : posts_only R get_cl.
Proof. by apply posts_only_quiet. Qed.
Lemma posts_only_set_cl R c : posts_only R (set_cl c).
Proof. by apply posts_only_quiet. Qed.

Lemma posts_only_post (R : rpcRequest -> Prop) {A} (dec : json -> option A) p :
  Forall R (requests_of p) -> posts_only R (post dec p).
Proof.
  intros HR s a s' E. unfold post in E. destruct (http_do _ _ _) as [o w']. inv E.
  eexists. split; [reflexivity|]. unfold trace_requests. simpl. by rewrite app_nil_r.
Qed.

Lemma posts_only_callWithSession (R : rpcRequest -> Prop) {A} (dec : json -> option A) zero sess o m a :
  (forall id, R (MkRequest id sess o m a)) ->
  posts_only R (callWithSession dec zero sess o m a).
Proof.
  intros HR. unfold callWithSession. apply posts_only_bind; [apply posts_only_get_cl|]. intros c.
  apply posts_only_bind; [apply posts_only_set_cl|]. intros _.
  apply posts_only_bind; [|intros; apply posts_only_ret].
  apply posts_only_post. simpl. constructor; [apply HR|constructor].
Qed.

Lemma posts_only_Login (R : rpcRequest -> Prop) u p :
  (forall q, login_request q -> R q) -> posts_only R (Login u p).
Proof.
  intros HR. unfold Login. apply posts_only_bind.
  - apply posts_only_callWithSession. intros id. by apply HR.
  - intros [s|e]; [|apply posts_only_ret].
    case_match; [apply posts_only_ret|].
    apply posts_only_bind; [apply posts_only_get_cl|]. intros c.
    apply posts_only_bind; [apply posts_only_set_cl|]. intros _. apply posts_only_ret.
Qed.

(** A call posts its own request, on whatever session the client holds, and
    logins. *)
Lemma posts_only_call (R : rpcRequest -> Prop) {A} (dec : json -> option A) zero o m a retry :
  (forall id sess, R (MkRequest id sess o m a)) ->
  (forall q, login_request q -> R q) ->
  posts_only R (call dec zero o m a retry).
Proof.
  intros HR Hl.
  assert (Hone : posts_only R (callOnce dec zero o m a)).
  { unfold callOnce. apply posts_only_bind; [apply posts_only_get_cl|]. intros c.
    by apply posts_only_callWithSession. }
  unfold call. apply posts_only_bind; [done|]. intros [x|e]; [apply posts_only_ret|].
  case_match; [|apply posts_only_ret].
  apply posts_only_bind; [apply posts_only_get_cl|]. intros c.
  case_match; [apply posts_only_ret|].
  apply posts_only_bind; [by apply posts_only_Login|]. intros [u|le]; [|apply posts_only_ret].
  apply posts_only_bind; [done|]. intros r2. repeat case_match; apply posts_only_ret.
Qed.

Definition covers (R : rpcRequest -> Prop) (i : Invocation) : Prop :=
  forall id sess, R (MkRequest id sess (i_object i) (i_method i) (i_args i)).

Lemma pack_covers (R : rpcRequest -> Prop) sess calls : forall reqs id,
  Forall R reqs -> Forall (covers R) calls -> Forall R (pack sess reqs id calls).1.
Proof.
  induction calls as [|i calls IH]; intros reqs id Hr Hc; simpl; [done|].
  inv Hc. assert (Hcand : Forall R (reqs ++ [MkRequest (id + 1) sess (i_object i) (i_method i) (i_args i)])).
  { apply Forall_app. split; [done|]. constructor; [by auto|constructor]. }
  case_match; [done|]. case_match; [done|]. by apply IH.
Qed.

(** A chunk's requests all satisfy [R]. *)
Lemma buildChunk_covers (R : rpcRequest -> Prop) calls s reqs s' :
  Forall (covers R) calls -> buildChunk calls s = (reqs, s') ->
  Forall R reqs /\ wire s' = wire s.
Proof.
  intros Hc E. unfold buildChunk, bind, get_cl in E.
  pose proof (pack_covers R (c_session (cl s)) calls [] (c_nextID (cl s)) (Forall_nil_2 _) Hc) as Hp.
  destruct (pack _ _ _ _) as [r id]. unfold set_cl, ret in E. by inv E.
Qed.

Lemma posts_only_buildChunk_then (R : rpcRequest -> Prop) {B} calls
    (k : list rpcRequest -> M (cstate W) B) :
  Forall (covers R) calls ->
  (forall reqs, Forall R reqs -> posts_only R (k reqs)) ->
  posts_only R (bind (buildChunk calls) k).
Proof.
  intros Hc Hk s b s' E. unfold bind in E. destruct (buildChunk calls s) as [reqs s1] eqn:Eb.
  apply (buildChunk_covers R) in Eb as [Hr Hw]; [|done].
  apply (Hk _ Hr) in E as (n & Hn & HF). exists n. by rewrite Hn, Hw.
Qed.

Lemma posts_only_sendChunk (R : rpcRequest -> Prop) calls reqs :
  Forall (covers R) calls -> Forall R reqs -> (forall q, login_request q -> R q) ->
  posts_only R (sendChunk calls reqs).
Proof.
  intros Hc Hr Hl. unfold sendChunk.
  apply posts_only_bind; [by apply posts_only_post|]. intros [resps|e]; [|apply posts_only_ret].
  case_match; [apply posts_only_ret|].
  apply posts_only_bind; [apply posts_only_get_cl|]. intros c.
  case_match; [|apply posts_only_ret].
  apply posts_only_bind; [by apply posts_only_Login|]. intros [u|e]; [|apply posts_only_ret].
  apply posts_only_buildChunk_then; [done|]. intros fresh Hf.
  case_match; [apply posts_only_ret|]. unfold resendChunk.
  apply posts_only_bind; [|intros; apply posts_only_ret].
  apply posts_only_bind; [by apply posts_only_post|]. intros; apply posts_only_ret.
Qed.

Lemma posts_only_Batch (R : rpcRequest -> Prop) calls :
  Forall (covers R) calls -> (forall q, login_request q -> R q) -> posts_only R (Batch calls).
Proof.
  intros Hc Hl. unfold Batch. apply posts_only_bind; [|intros; apply posts_only_ret].
  generalize (length calls) (@nil BatchResult). intros fuel. revert calls Hc.
  induction fuel as [|fuel IH]; intros calls Hc out; destruct calls as [|i calls]; simpl;
    try apply posts_only_ret.
  apply posts_only_buildChunk_then; [done|]. intros reqs Hr.
  apply posts_only_bind.
  - apply posts_only_sendChunk; [|done|done]. by apply Forall_take.
  - intros [rs|e]; [|apply posts_only_ret]. apply IH. by apply Forall_drop.
Qed.

Lemma posts_only_on_client (R : rpcRequest -> Prop) {A} c (m : M (cstate W) A) :
  posts_only R m -> posts_only R (on_client c m).
Proof.
  intros Hm s a s' E. unfold on_client in E.
  destruct (m (MkCState c (world s) (wire s))) as [b s1] eqn:Em.
  apply Hm in Em as (n & Hw & Hf). inv E. by exists n.
Qed.

Lemma posts_only_FreshSession (R : rpcRequest -> Prop) :
  (forall q, login_request q -> R q) -> posts_only R FreshSession.
Proof.
  intros Hl s a s' E. unfold FreshSession in E. simpl in E.
  match type of E with context [Login ?u ?p ?st] => destruct (Login u p st) as [l s1] eqn:El end.
  apply (posts_only_Login R _ _ Hl) in El as (n & Hw & Hf).
  exists n. destruct l; inv E; done.
Qed.

(** ** Confirm window *)

Lemma keeps_session_ret {A} (a : A) : keeps_session (ret a).
Proof. intros s x s' Hw E. by inv E. Qed.

Lemma keeps_session_bind {A B} (m : M (cstate W) A) (k : A -> M (cstate W) B) :
  keeps_session m -> (forall a, keeps_session (k a)) -> keeps_session (bind m k).
Proof.
  intros Hm Hk s b s' Hw E. unfold bind in E. destruct (m s) as [a s1] eqn:Em.
  apply Hm in Em as [Hw1 Hs1]; [|done]. apply Hk in E as [Hw2 Hs2]; [|done].
  split; [done|congruence].
Qed.

Lemma keeps_session_call {A} (dec : json -> option A) zero o m a retry :
  keeps_session (call dec zero o m a retry).
Proof.
  intros s r s' Hw E. apply call_in_window in E as [-> _]; done.
Qed.

Lemma keeps_session_quiet {A} (m : M (cstate W) A) :
  (forall s, cl (m s).2 = cl s) -> keeps_session m.
Proof. intros Hm s a s' Hw E. specialize (Hm s). rewrite E in Hm. simpl in Hm. by rewrite Hm. Qed.
End Trace.

Create HintDb oonfee_trace.
#[export] Hint Resolve posts_only_ret posts_only_get_cl posts_only_set_cl
  posts_only_on_client posts_only_FreshSession keeps_session_ret keeps_session_call : oonfee_trace.

(** Walk a computation: binds, matches, and leaves from the hint database. *)
Ltac walk :=
  repeat first
    [ progress intros
    | progress cbv beta zeta
    | solve [auto with oonfee_trace]
    | match goal with
      | |- posts_only _ (bind _ _) => apply posts_only_bind
      | |- keeps_session (bind _ _) => apply keeps_session_bind
      end
    | match goal with
      | |- posts_only _ (match ?x with _ => _ end) => destruct x eqn:?
      | |- keeps_session (match ?x with _ => _ end) => destruct x eqn:?
      end ].

(** * The ubus client against scripted devices

    Concrete devices for the properties of [Ubus]: one that has expired the
    session, and one that answers every array it is sent. *)

From Stdlib Require Import ZArith Lia Ascii String.
From stdpp Require Import base list strings.
From S2P Require Import Prelude GoStr Ubus.

Local Open Scope string_scope.
Local Open Scope Z_scope.

Module UbusRuns.

(** The world is the list of answers still to come. *)
Definition closed_socket : do_failure := MkFailure None None false true "".

Definition next_answer (w : list http_outcome) (_ : string) (_ : payload) : http_outcome * list http_outcome :=
  match w with
  | [] => (HFailed closed_socket, [])
  | o :: rest => (o, rest)
  end.

#[export] Instance answers_transport : Transport (list http_outcome) := {
  http_do := next_answer;
  marshal_len := fun reqs => 20000 * Z.of_nat (length reqs);
}.

Definition frame (status : Z) (data : list json) : json :=
  JObj [("jsonrpc", JStr "2.0"); ("id", JInt 1); ("result", JArr (JInt status :: data))].
Definition denied_frame : json :=
  JObj [("id", JInt 1); ("error", JObj [("code", JInt (-32002)); ("message", JStr "Access denied")])].
Definition body (j : json) : http_outcome := HBody 100 (Some j).

Definition client1 (window : bool) : client :=
  MkClient "http://192.168.1.1/ubus" "" "0123" "oonfeewrt" "pw" window false 7.

(** The session has expired: a denial, a login, and the retry is denied too. *)
Local Notation expired := (MkCState (client1 false)
  [body denied_frame; body (frame 0 [JObj [("ubus_rpc_session", JStr "4567"); ("timeout", JInt 300)]]); body denied_frame] []).

Lemma Call_policy_witness :
  (Call dec_nil tt "uci" "get" (JObj []) expired).1 = Err (DeniedError "uci" "get" true) /\
  exists new, wire (Call dec_nil tt "uci" "get" (JObj []) expired).2 = new /\ length new = 3%nat.
Proof.
  split; [vm_compute; reflexivity|].
  destruct (Call_policy dec_nil tt "uci" "get" (JObj []) expired _ _ (surjective_pairing _)) as (new & Hw & _ & _ & H3).
  exists new. split; [exact Hw|].
  apply (H3 (DeniedError "uci" "get" true)); [vm_compute; reflexivity|by exists "uci", "get"].
Defined.

(** Three staged writes of 20 kB each do not fit one array of 48 kB. *)
Definition write_of (o : string) : Invocation := MkInvocation "uci" "set" (JObj [("section", JStr o)]).
Local Notation writes := [write_of "a"; write_of "b"; write_of "c"].
Local Notation window := (MkCState (client1 true)
  [body (JArr [frame 0 []; frame 0 []]); body (JArr [frame 0 []])] []).

Lemma Batch_delivery_witness :
  exists chunks, map length chunks = [2; 1]%nat /\ concat (map (map inv_of) chunks) = writes /\
    Forall (good_chunk "0123") chunks.
Proof.
  destruct (Batch_delivery writes window _ _ eq_refl (surjective_pairing _)) as (chunks & (new & Hw & Hm) & Hg & _ & Hr).
  exists chunks. split; [|split; [exact (proj1 Hr)|exact Hg]].
  vm_compute in Hw. subst new. rewrite <- (map_id (map length chunks)).
  assert (Hlen : forall l : list (list rpcRequest), map length l =
            map (fun p => match p with Single _ => 1%nat | Many qs => length qs end) (map Many l)).
  { intros l. rewrite map_map. done. }
  rewrite map_id, Hlen, <- Hm. reflexivity.
Defined.

End UbusRuns.
