(* ===== verification/ApplyEngine.v ===== *)
(** * The apply engine (internal/applyengine)

    One configuration change on one device: preflight, snapshot, stage,
    verify, arm the rollback timer, check health, confirm, or wait out the
    revert and look at what the device holds. [engine.go] and [plan.go],
    statement by statement, over the ubus client of [Ubus]. The world adds a
    clock, the caller's context and sleeping to the transport. *)

From Stdlib Require Import ZArith Lia Ascii String.
From stdpp Require Import base gmap list strings.
From S2P Require Import Prelude GoStr F64 Ubus.

Local Open Scope string_scope.
Local Open Scope Z_scope.

(** ** Plans (plan.go) *)

Definition second : Z := 1000000000.

Definition DefaultTimeout : Z := 90 * second.
Definition DefaultRevertGrace : Z := 15 * second.
Definition MinApplyBudget : Z := DefaultTimeout + DefaultRevertGrace.

(** [OpKind] is a Go string type: a value other than the three constants is
    representable and is rejected by [stage]. *)
Definition OpAdd : string := "add".
Definition OpSet : string := "set".
Definition OpDelete : string := "delete".

(** [Values] and [Lists] are Go maps: association lists with distinct keys, in
    the order in which one particular iteration visits them. *)
Record Op := MkOp {
  Kind : string;
  Config : string;
  Section_ : string;
  Type_ : string;
  Name : string;
  Values : list (string * string);
  Lists : list (string * list string);
  Option_ : string;
  Patch : bool;
}.

Definition OwnershipTag : string := "oonfeewrt".

Record Plan := MkPlan {
  Ops : list Op;
  Timeout : Z;
  AcknowledgeTraversal : bool;
}.

Definition plan_timeout (p : Plan) : Z :=
  if Timeout p <=? 0 then DefaultTimeout else Timeout p.

Definition Configs (p : Plan) : list string := first_seen (map Config (Ops p)).

Inductive Outcome := NoOutcome | Applied | Reverted | Unknown.
#[export] Instance Outcome_eq_dec : EqDecision Outcome.
Proof. solve_decision. Defined.

(** The reason: its text, and the errors formatted into it. *)
Record Reason := MkReason { r_text : string; r_shown : list err }.
Definition no_reason : Reason := MkReason "" [].
Definition add_reason (r : Reason) (t : string) (es : list err) : Reason :=
  MkReason (r_text r ++ t) (r_shown r ++ es)%list.

Record Result := MkRes {
  res_Outcome : Outcome;
  res_Reason : Reason;
  res_HealthErr : option err;
  res_Stranded : bool;
  res_Started : Z;
  res_Finished : Z;
}.

(** ** The engine's environment *)

(** What the engine uses besides the transport. [sleep d] is the select
    between [ctx.Done] and a timer: [Some e] when the context ended first.
    [detach]/[reattach] switch the exchanges between the caller's context and
    the bounded cleanup context derived with [context.WithoutCancel]. *)
Class World (W : Type) := {
  world_transport :: Transport W;
  now : W -> Z * W;
  sleep : Z -> W -> option ctx_error * W;
  ctx_err : W -> option ctx_error;
  ctx_deadline : W -> option Z;
  detach : Z -> W -> W;
  reattach : W -> W;
}.

Record Engine := MkEngine { ConfirmInterval : Z; RevertGrace : Z }.
Definition New_Engine : Engine := MkEngine (3 * second) DefaultRevertGrace.

Definition stagedCleanupTimeout : Z := 15 * second.

(** [time.Time.Sub] saturates. *)
Definition time_sub (t u : Z) : Z := Z.max minInt64 (Z.min maxInt64 (t - u)).

(** ** Pure parts *)

Definition UplinkSectionPrefix : string := "oowrt_up".

Definition IsUplinkSection (config section : string) : bool :=
  String.eqb config "wireless" && HasPrefix section UplinkSectionPrefix.

Definition TouchesManagementPath (p : Plan) : bool :=
  existsb (fun op => String.eqb (Config op) "network" || String.eqb (Config op) "firewall" ||
                     IsUplinkSection (Config op) (Section_ op)) (Ops p).

Definition withLists (values : list (string * string)) (lists : list (string * list string))
    : list (string * json) :=
  fold_left (fun acc kv => assoc_set (fst kv) (JArr (map JStr (snd kv))) acc) lists
            (map (fun kv => (fst kv, JStr (snd kv))) values).

Definition withOwnership (v : list (string * string)) : list (string * string) :=
  assoc_set OwnershipTag "1" v.

(** One iteration of the loop of [stage]: the invocation for an operation. *)
Definition stage_call (op : Op) : res err Invocation :=
  let inv fields := Ok (MkInvocation "uci" (Kind op) (JObj (("config", JStr (Config op)) :: fields))) in
  if String.eqb (Kind op) OpAdd then
    if Patch op then Err (MsgError "patch operation cannot add a section" [])
    else inv (("type", JStr (Type_ op)) ::
              (if String.eqb (Name op) "" then [] else [("name", JStr (Name op))]) ++
              [("values", JObj (withLists (withOwnership (Values op)) (Lists op)))])%list
  else if String.eqb (Kind op) OpSet then
    let patchOwns := bool_decide (is_Some (assoc OwnershipTag (Values op))) in
    if Patch op &&
       (String.eqb (Section_ op) "" || negb (String.eqb (Type_ op) "") ||
        negb (String.eqb (Name op) "") || Nat.eqb (length (Values op)) 0 ||
        negb (Nat.eqb (length (Lists op)) 0) || patchOwns)
    then Err (MsgError "patch operation must be an option-only set without an ownership marker" [])
    else
      let values := if Patch op then Values op else withOwnership (Values op) in
      inv [("section", JStr (Section_ op)); ("values", JObj (withLists values (Lists op)))]
  else if String.eqb (Kind op) OpDelete then
    if Patch op then Err (MsgError "patch marker is valid only on set operations" [])
    else inv (("section", JStr (Section_ op)) ::
              (if String.eqb (Option_ op) "" then [] else [("option", JStr (Option_ op))]))
  else Err (MsgError "unknown op kind" []).

Fixpoint stage_calls (ops : list Op) : res err (list Invocation) :=
  match ops with
  | [] => Ok []
  | op :: ops' =>
      let? i := stage_call op in
      let? invs := stage_calls ops' in
      Ok (i :: invs)
  end.

(** The section an operation's written options live in; [None] skips the
    operation in the snapshot and in the revert check. *)
Definition readable_section (op : Op) : option string :=
  if String.eqb (Kind op) OpDelete || Nat.eqb (length (Values op)) 0 then None
  else
    let section := if String.eqb (Section_ op) "" then Name op else Section_ op in
    if String.eqb section "" then None else Some section.

(** The options a plan writes: config, section, option and the written value,
    in the order of the two nested loops. *)
Definition Key : Type := (string * string * string)%type.

Definition op_options (op : Op) : list (Key * string) :=
  match readable_section op with
  | None => []
  | Some section => map (fun kv => ((Config op, section, fst kv), snd kv)) (Values op)
  end.
Definition plan_options (p : Plan) : list (Key * string) := flat_map op_options (Ops p).

(** Payload decoders. *)
Definition dec_value (j : json) : option string :=
  match j with
  | JNull => Some ""
  | JObj l => dec_string (jfield "value" l)
  | _ => None
  end.

Definition dec_entry (j : json) : option (string * Z) :=
  match j with
  | JNull => Some ("", 0)
  | JObj l => match dec_string (jfield "name" l), dec_int (jfield "size" l),
                    dec_string (jfield "type" l) with
              | Some n, Some s, Some _ => Some (n, s)
              | _, _, _ => None
              end
  | _ => None
  end.

Definition dec_entries (j : json) : option (list (string * Z)) :=
  match j with
  | JNull => Some []
  | JObj l => match jfield "entries" l with
              | None | Some JNull => Some []
              | Some (JArr es) => all_some (map dec_entry es)
              | _ => None
              end
  | _ => None
  end.

(** [map[string][]any]: each config with the number of its staged changes. *)
Definition dec_change (kv : string * json) : option (string * nat) :=
  match snd kv with
  | JNull => Some (fst kv, 0%nat)
  | JArr l => Some (fst kv, length l)
  | _ => None
  end.

Definition dec_changes (j : json) : option (list (string * nat)) :=
  match j with
  | JNull => Some []
  | JObj l => match jfield "changes" l with
              | None | Some JNull => Some []
              | Some (JObj cs) =>
                  option_map (fun kvs => fold_left (fun acc kv => assoc_set (fst kv) (snd kv) acc) kvs [])
                             (all_some (map dec_change cs))
              | _ => None
              end
  | _ => None
  end.

(** ** The engine *)

(** What each planned option held before staging: [preApply]. *)
Definition preApply : Type := gmap Key (string * bool).

(** Whether the option can tell an applied plan from a reverted one. *)
Definition distinguishes (before : preApply) (k : Key) (want : string) : bool :=
  match before !! k with
  | None => false
  | Some (value, found) => negb (found && String.eqb value want)
  end.

Definition absent_status (e : err) : bool :=
  match as_status e with
  | Some st => (st =? StatusNotFound) || (st =? StatusNoData)
  | None => false
  end.

Definition denied_status (e : err) : bool :=
  match as_status e with
  | Some st => st =? StatusPermissionDenied
  | None => false
  end.

(** [errors.Join]: nil when every error is nil. *)
Definition join_errors (es : list err) : res err unit :=
  match es with [] => Ok tt | _ => Err (JoinError es) end.

Section Engine.
Context {W : Type} `{World W}.
Variable eng : Engine.

Definition e_now : M (cstate W) Z :=
  fun s => let '(t, w') := now (world s) in (t, MkCState (cl s) w' (wire s)).
Definition e_sleep (d : Z) : M (cstate W) (option ctx_error) :=
  fun s => let '(r, w') := sleep d (world s) in (r, MkCState (cl s) w' (wire s)).
Definition on_world (f : W -> W) : M (cstate W) unit :=
  fun s => (tt, MkCState (cl s) (f (world s)) (wire s)).
Definition get_world : M (cstate W) W := fun s => (world s, s).

Definition uci_get (k : Key) : M (cstate W) (res err string) :=
  let '(config, section, option) := k in
  Call dec_value "" "uci" "get"
       (JObj [("config", JStr config); ("section", JStr section); ("option", JStr option)]).

Definition uci_revert (cfg : string) : M (cstate W) (res err unit) :=
  Call dec_nil tt "uci" "revert" (JObj [("config", JStr cfg)]).

Definition ForeignDirtyConfigs : M (cstate W) (res err (list string)) :=
  do r <- Call dec_entries [] "file" "list" (JObj [("path", JStr "/tmp/.uci")]);
  ret (match r with
       | Err e => match as_status e with
                  | Some st => if st =? StatusNotFound then Ok [] else Err e
                  | None => Err e
                  end
       | Ok entries => Ok (map fst (filter (fun e => 0 < snd e) entries))
       end).

Definition preflight (plan : Plan) : M (cstate W) (res err unit) :=
  do r <- ForeignDirtyConfigs;
  ret (match r with
       | Err e => Err (WrapError "preflight: cannot check for foreign edits (grant file.list on /tmp/.uci)" e)
       | Ok dirty =>
           if negb (bool_decide (dirty = [])) then Err (DirtyError dirty)
           else if TouchesManagementPath plan && negb (AcknowledgeTraversal plan)
           then Err (MsgError "preflight: this change touches the management path; set AcknowledgeTraversal to proceed" [])
           else Ok tt
       end).

(** [snapshotPlanned]: an option that cannot be read gets no entry. *)
Fixpoint snapshot_options (opts : list (Key * string)) (out : preApply) : M (cstate W) preApply :=
  match opts with
  | [] => ret out
  | (k, _) :: opts' =>
      do r <- uci_get k;
      snapshot_options opts'
        (match r with
         | Ok v => <[k := (v, true)]> out
         | Err e => if absent_status e then <[k := ("", false)]> out else out
         end)
  end.
Definition snapshotPlanned (plan : Plan) : M (cstate W) preApply :=
  snapshot_options (plan_options plan) ∅.

Fixpoint first_batch_error (i : Z) (ops : list Op) (rs : list BatchResult) : res err unit :=
  match ops, rs with
  | op :: ops', r :: rs' =>
      match b_err r with
      | Some e => Err (WrapError ("op " ++ Itoa i ++ " (" ++ Kind op ++ " " ++ Config op ++ ")") e)
      | None => first_batch_error (i + 1) ops' rs'
      end
  | _, _ => Ok tt
  end.

Definition stage (plan : Plan) : M (cstate W) (res err unit) :=
  match stage_calls (Ops plan) with
  | Err e => ret (Err e)
  | Ok calls =>
      do r <- Batch calls;
      ret (match r with
           | Err e => Err e
           | Ok results => first_batch_error 0 (Ops plan) results
           end)
  end.

Definition verifyStaged (plan : Plan) : M (cstate W) (res err unit) :=
  do r <- Call dec_changes [] "uci" "changes" (JObj []);
  ret (match r with
       | Err e => Err (WrapError "verify staged" e)
       | Ok changes =>
           let want := Configs plan in
           let staged c := match assoc c changes with Some n => n | None => O end in
           match filter (fun c => staged c = O) want with
           | _ :: _ => Err (MsgError "verify staged: nothing staged; refusing to apply" [])
           | [] => match filter (fun c => c ∉ want) (map fst changes) with
                   | _ :: _ => Err (MsgError "verify staged: unexpected staged changes; apply is all-or-nothing and would commit them too" [])
                   | [] => Ok tt
                   end
           end
       end).

Fixpoint revert_configs (cfgs : list string) (errs : list err) : M (cstate W) (list err) :=
  match cfgs with
  | [] => ret errs
  | c :: cfgs' =>
      do r <- uci_revert c;
      revert_configs cfgs'
        (match r with Ok _ => errs | Err e => (errs ++ [WrapError c e])%list end)
  end.
Definition revertStaged (plan : Plan) : M (cstate W) (res err unit) :=
  do errs <- revert_configs (Configs plan) [];
  ret (join_errors errs).

Fixpoint discard_configs (cfgs : list string) : M (cstate W) unit :=
  match cfgs with
  | [] => ret tt
  | c :: cfgs' => do _ <- uci_revert c; discard_configs cfgs'
  end.
Definition discardStaged (plan : Plan) : M (cstate W) unit := discard_configs (Configs plan).

(** Reads only the caller's context. *)
Definition requireRollbackBudget (w : W) (armed timeout : Z) : res err unit :=
  match ctx_err w with
  | Some e => Err (WrapError "applyengine: apply context ended after staging" (CtxError e))
  | None =>
      match ctx_deadline w with
      | None => Ok tt
      | Some deadline =>
          let required := i64 (timeout + RevertGrace eng) in
          let remaining := time_sub deadline armed in
          if required <=? remaining then Ok tt
          else Err (BudgetError (if remaining <? 0 then 0 else remaining)
                                required timeout (RevertGrace eng))
      end
  end.

Definition HealthCheck : Type := M (cstate W) (option err).

Definition runHealth (health : option HealthCheck) : M (cstate W) (option err) :=
  match health with None => ret None | Some h => h end.

(** [confirmPoll] with a bound on the number of iterations; [None] when the
    bound is reached. *)
Fixpoint confirmPoll (fuel : nat) (deadline : Z) (last : option err)
    : M (cstate W) (option (res err unit)) :=
  match fuel with
  | O => ret None
  | S fuel' =>
      do t <- e_now;
      if t <? deadline then
        do r <- Call dec_nil tt "uci" "confirm" (JObj []);
        match r with
        | Ok _ => ret (Some (Ok tt))
        | Err e =>
            if denied_status e
            then ret (Some (Err (WrapError "confirm refused: not the applying session" e)))
            else
              do d <- e_sleep (ConfirmInterval eng);
              match d with
              | Some c => ret (Some (Err (CtxError c)))
              | None => confirmPoll fuel' deadline (Some e)
              end
        end
      else
        ret (Some (Err (match last with Some e => e | None => MsgError "window expired" [] end)))
  end.

(** [planStillApplied]: (still, checked) or the read error. *)
Fixpoint still_applied (before : preApply) (opts : list (Key * string)) (checked : bool)
    : M (cstate W) (res err (bool * bool)) :=
  match opts with
  | [] => ret (Ok (false, checked))
  | (k, want) :: opts' =>
      if distinguishes before k want then
        do r <- uci_get k;
        match r with
        | Err e => if absent_status e then still_applied before opts' true else ret (Err e)
        | Ok v => if String.eqb v want then ret (Ok (true, true))
                  else still_applied before opts' true
        end
      else still_applied before opts' checked
  end.
Definition planStillApplied (plan : Plan) (before : preApply) : M (cstate W) (res err (bool * bool)) :=
  still_applied before (plan_options plan) false.

Definition awaitRevert (plan : Plan) (armed timeout : Z) (reason : Reason) (before : preApply)
    : M (cstate W) Result :=
  do started <- e_now;
  do t <- e_now;
  let wait := time_sub (armed + i64 (timeout + RevertGrace eng)) t in
  do cancelled <- (if 0 <? wait then e_sleep wait else ret None);
  match cancelled with
  | Some _ =>
      do fin <- e_now;
      ret (MkRes Unknown (add_reason reason " (and the wait was cancelled before verification)" [])
                 None true started fin)
  | None =>
      do v <- FreshSession;
      match v with
      | Err e =>
          do fin <- e_now;
          ret (MkRes Unknown (add_reason reason "; could not open a session to verify the revert: %v" [e])
                     None true started fin)
      | Ok verify =>
          do check <- on_client verify (planStillApplied plan before);
          do fin <- e_now;
          ret (match check with
               | Ok (_, false) =>
                   MkRes Unknown (add_reason reason "; the plan has nothing readable to verify (deletes only), so the revert could not be confirmed" [])
                         None true started fin
               | Err e =>
                   MkRes Unknown (add_reason reason "; could not verify: %v" [e]) None true started fin
               | Ok (true, true) =>
                   MkRes Unknown (add_reason reason "; the change is STILL PRESENT — the device did not revert (rpcd likely restarted inside the window). Reverse it by applying the previous model." [])
                         None true started fin
               | Ok (false, true) =>
                   MkRes Reverted (add_reason reason "; the device reverted itself" []) None false started fin
               end)
      end
  end.

Definition with_health_err (r : Result) (e : option err) : Result :=
  MkRes (res_Outcome r) (res_Reason r) e (res_Stranded r) (res_Started r) (res_Finished r).
Definition with_started (r : Result) (t : Z) : Result :=
  MkRes (res_Outcome r) (res_Reason r) (res_HealthErr r) (res_Stranded r) t (res_Finished r).
Definition with_finished (r : Result) (t : Z) : Result :=
  MkRes (res_Outcome r) (res_Reason r) (res_HealthErr r) (res_Stranded r) (res_Started r) t.

(** From the APPLY call on: the confirm window is open and [armed] is the
    conservative arm time. *)
Definition apply_armed (fuel : nat) (plan : Plan) (health : option HealthCheck)
    (before : preApply) (res0 : Result) (armed timeout : Z)
    : M (cstate W) (option (Result * option err)) :=
  do r <- Call dec_nil tt "uci" "apply"
            (JObj [("rollback", JBool true); ("timeout", JInt (f_trunc (duration_Seconds timeout)))]);
  match r with
  | Err e =>
      do _ <- revertStaged plan;
      do! EndConfirmWindow;
      ret (Some (res0, Some (if denied_status e
                             then WrapError "another apply is already armed on this device; retry after its window" e
                             else WrapError "apply" e)))
  | Ok _ =>
      do healthErr <- runHealth health;
      match healthErr with
      | Some he =>
          do! EndConfirmWindow;
          do out <- awaitRevert plan armed timeout (MkReason "health check failed: %v" [he]) before;
          do! discardStaged plan;
          ret (Some (with_started (with_health_err out (Some he)) (res_Started res0), None))
      | None =>
          do confirmErr <- confirmPoll fuel (armed + timeout) None;
          match confirmErr with
          | None => ret None
          | Some (Ok _) =>
              do! EndConfirmWindow;
              ret (Some (MkRes Applied (MkReason "health passed and confirm landed" [])
                               None false (res_Started res0) 0, None))
          | Some (Err ce) =>
              do! EndConfirmWindow;
              do out <- awaitRevert plan armed timeout (MkReason "confirm never landed: %v" [ce]) before;
              do! discardStaged plan;
              ret (Some (with_started out (res_Started res0), None))
          end
      end
  end.

(** From the confirm window on. *)
Definition apply_window (fuel : nat) (plan : Plan) (health : option HealthCheck)
    (before : preApply) (res0 : Result) : M (cstate W) (option (Result * option err)) :=
  do! BeginConfirmWindow;
  let timeout := plan_timeout plan in
  do armed <- e_now;
  do w <- get_world;
  match requireRollbackBudget w armed timeout with
  | Err be =>
      do! EndConfirmWindow;
      do! on_world (detach stagedCleanupTimeout);
      do cleanup <- revertStaged plan;
      do! on_world reattach;
      ret (Some (res0, Some (match cleanup with
           | Err _ => WrapError "%w; rollback was not armed and no live configuration was written, but staged cleanup failed: %v" be
           | Ok _ => WrapError "%w; staged changes were discarded, rollback was not armed, and no live configuration was written" be
           end)))
  | Ok _ => apply_armed fuel plan health before res0 armed timeout
  end.

(** The body of [Apply] without its deferred clock reading. *)
Definition apply_body (fuel : nat) (plan : Plan) (health : option HealthCheck)
    (res0 : Result) : M (cstate W) (option (Result * option err)) :=
  if bool_decide (Ops plan = []) then ret (Some (res0, Some (MsgError "applyengine: empty plan" [])))
  else
    do p <- preflight plan;
    match p with
    | Err e => ret (Some (res0, Some e))
    | Ok _ =>
        do before <- snapshotPlanned plan;
        do st <- stage plan;
        match st with
        | Err e =>
            do! discardStaged plan;
            ret (Some (res0, Some (WrapError "stage" e)))
        | Ok _ =>
            do vs <- verifyStaged plan;
            match vs with
            | Err e =>
                do _ <- revertStaged plan;
                ret (Some (res0, Some e))
            | Ok _ => apply_window fuel plan health before res0
            end
        end
    end.

Definition Apply (fuel : nat) (plan : Plan) (health : option HealthCheck)
    : M (cstate W) (option (Result * option err)) :=
  do started <- e_now;
  do r <- apply_body fuel plan health (MkRes NoOutcome no_reason None false started 0);
  do fin <- e_now;
  ret (option_map (fun p => (with_finished (fst p) fin, snd p)) r).
End Engine.
