(* ===== verification/ApplyEngineSpec.v ===== *)
(** * The apply engine's guarantees

    Theorems about [ApplyEngine]: what it may ask of a device, in which order
    the gates run, what each outcome means, that a refused change leaves
    nothing staged, and that it terminates. *)

From Stdlib Require Import ZArith Lia Ascii String.
From stdpp Require Import base gmap list strings.
From S2P Require Import Prelude GoStr F64 Ubus UbusTrace ApplyEngine.

Local Open Scope string_scope.
Local Open Scope Z_scope.

(** ** What the engine may ask *)

Definition is_uci (method : string) (q : rpcRequest) : Prop :=
  q_object q = "uci" /\ q_method q = method.

Definition reads_only (q : rpcRequest) : Prop :=
  login_request q \/ (q_object q = "file" /\ q_method q = "list").

Definition revert_request (cfg : string) (q : rpcRequest) : Prop :=
  is_uci "revert" q /\ q_args q = JObj [("config", JStr cfg)].

Definition armed_args (timeout : Z) : json :=
  JObj [("rollback", JBool true); ("timeout", JInt (f_trunc (duration_Seconds timeout)))].

Definition apply_request (plan : Plan) (q : rpcRequest) : Prop :=
  is_uci "apply" q /\ q_args q = armed_args (plan_timeout plan).

Definition confirm_request (q : rpcRequest) : Prop := is_uci "confirm" q.

(** Every kind of request the engine itself sends. *)
Inductive engine_request (plan : Plan) (q : rpcRequest) : Prop :=
| er_reads : reads_only q -> engine_request plan q
| er_get : is_uci "get" q -> engine_request plan q
| er_changes : is_uci "changes" q -> engine_request plan q
| er_revert c : c ∈ Configs plan -> revert_request c q -> engine_request plan q
| er_stage op i : op ∈ Ops plan -> stage_call op = Ok i -> inv_of q = i -> engine_request plan q
| er_apply : apply_request plan q -> engine_request plan q
| er_confirm : confirm_request q -> engine_request plan q.

#[export] Hint Constructors engine_request : oonfee_trace.
#[export] Hint Unfold reads_only is_uci : oonfee_trace.

Lemma stage_calls_elem ops calls i :
  stage_calls ops = Ok calls -> i ∈ calls -> exists op, op ∈ ops /\ stage_call op = Ok i.
Proof.
  revert calls. induction ops as [|op ops IH]; simpl; intros calls E Hi; [inv E; set_solver|].
  destruct (stage_call op) as [i0|e] eqn:E1; [|done].
  destruct (stage_calls ops) as [is0|e]; [|done]. inv E.
  apply elem_of_cons in Hi as [->|Hi]; [exists op; set_solver|].
  destruct (IH is0 eq_refl Hi) as (op' & ? & ?). exists op'. set_solver.
Qed.

Lemma stage_calls_length ops calls : stage_calls ops = Ok calls -> length calls = length ops.
Proof.
  revert calls. induction ops as [|op ops IH]; simpl; intros calls E; [by inv E|].
  destruct (stage_call op); [|done]. destruct (stage_calls ops) as [l|]; [|done].
  inv E. simpl. by rewrite (IH l).
Qed.

Section Requests.
Context {W : Type} `{World W}.
Variable eng : Engine.
Local Notation posts R m := (@posts_only W R _ m).

Lemma posts_only_now R : posts R e_now.
Proof. apply posts_only_quiet. intros s. unfold e_now. by destruct (now _). Qed.
Lemma posts_only_sleep R d : posts R (e_sleep d).
Proof. apply posts_only_quiet. intros s. unfold e_sleep. by destruct (sleep _ _). Qed.
Lemma posts_only_on_world R f : posts R (on_world f).
Proof. by apply posts_only_quiet. Qed.
Lemma posts_only_get_world R : posts R get_world.
Proof. by apply posts_only_quiet. Qed.
Lemma posts_only_Begin R : posts R BeginConfirmWindow.
Proof. by apply posts_only_quiet. Qed.
Lemma posts_only_End R : posts R EndConfirmWindow.
Proof. by apply posts_only_quiet. Qed.
Local Hint Resolve posts_only_now posts_only_sleep posts_only_on_world posts_only_get_world
  posts_only_Begin posts_only_End : oonfee_trace.

Section Closed.
Variable R : rpcRequest -> Prop.
Hypothesis R_login : forall q, login_request q -> R q.
Hypothesis R_get : forall q, is_uci "get" q -> R q.

Lemma posts_only_uci_get k : posts R (uci_get k).
Proof. destruct k as [[c o] n]. apply posts_only_call; [|done]. intros. by apply R_get. Qed.
Local Hint Resolve posts_only_uci_get : oonfee_trace.

Lemma posts_only_snapshot opts : forall out, posts R (snapshot_options opts out).
Proof. induction opts as [|[k v] opts IH]; intros out; simpl; walk. Qed.

Lemma posts_only_still before opts : forall b, posts R (still_applied before opts b).
Proof. induction opts as [|[k v] opts IH]; intros b; simpl; walk. Qed.
Local Hint Resolve posts_only_still : oonfee_trace.

Lemma posts_only_awaitRevert plan armed timeout reason before :
  posts R (awaitRevert eng plan armed timeout reason before).
Proof. unfold awaitRevert, planStillApplied. walk. Qed.

Section Revert.
Variable plan : Plan.
Hypothesis R_revert : forall c q, c ∈ Configs plan -> revert_request c q -> R q.

Lemma posts_only_uci_revert c : c ∈ Configs plan -> posts R (uci_revert c).
Proof. intros Hc. apply posts_only_call; [|done]. intros. by apply (R_revert c). Qed.

Lemma posts_only_discard cfgs : cfgs ⊆ Configs plan -> posts R (discard_configs cfgs).
Proof.
  clear R_get. induction cfgs as [|c cfgs IH]; intros Hc; simpl; [walk|].
  apply posts_only_bind; [apply posts_only_uci_revert; set_solver|]. intros _.
  apply IH. set_solver.
Qed.

Lemma posts_only_revert cfgs : forall errs,
  cfgs ⊆ Configs plan -> posts R (revert_configs cfgs errs).
Proof.
  clear R_get. induction cfgs as [|c cfgs IH]; intros errs Hc; simpl; [walk|].
  apply posts_only_bind; [apply posts_only_uci_revert; set_solver|]. intros r.
  apply IH. set_solver.
Qed.

Lemma posts_only_discardStaged : posts R (discardStaged plan).
Proof. by apply posts_only_discard. Qed.

Lemma posts_only_revertStaged : posts R (revertStaged plan).
Proof.
  unfold revertStaged. apply posts_only_bind; [by apply posts_only_revert|]. walk.
Qed.
End Revert.

Lemma posts_only_confirmPoll :
  (forall q, confirm_request q -> R q) ->
  forall fuel deadline last, posts R (confirmPoll eng fuel deadline last).
Proof.
  intros Hc fuel deadline. induction fuel as [|fuel IH]; intros last; simpl; [walk|].
  apply posts_only_bind; [walk|]. intros t. case_match; [|walk].
  apply posts_only_bind.
  - apply posts_only_call; [|done]. intros. by apply Hc.
  - walk.
Qed.
End Closed.

Lemma posts_only_preflight plan : posts reads_only (preflight plan).
Proof.
  unfold preflight, ForeignDirtyConfigs. apply posts_only_bind; [|walk].
  apply posts_only_bind; [|walk].
  apply posts_only_call; intros; [by right|by left].
Qed.

Lemma posts_only_stage plan : posts (engine_request plan) (stage plan).
Proof.
  unfold stage. destruct (stage_calls (Ops plan)) as [calls|e] eqn:E; [|walk].
  apply posts_only_bind; [|walk]. apply posts_only_Batch.
  - apply Forall_forall. intros i Hi id sess.
    destruct (stage_calls_elem _ _ _ E Hi) as (op & Hop & Hs).
    eapply er_stage; [done..|]. by destruct i.
  - intros q Hq. apply er_reads. by left.
Qed.

Lemma posts_only_verifyStaged plan : posts (engine_request plan) (verifyStaged plan).
Proof.
  unfold verifyStaged. apply posts_only_bind; [|walk].
  apply posts_only_call; intros.
  - by apply er_changes.
  - apply er_reads. by left.
Qed.

(** The requests of a whole run, given those of the health check. *)
Lemma posts_only_Apply (R : rpcRequest -> Prop) fuel plan health :
  (forall q, engine_request plan q -> R q) ->
  (forall h, health = Some h -> posts R h) ->
  posts R (Apply eng fuel plan health).
Proof.
  intros HR Hh.
  assert (Hl : forall q, login_request q -> R q) by (intros; apply HR, er_reads; by left).
  assert (Hg : forall q, is_uci "get" q -> R q) by (intros; by apply HR, er_get).
  assert (Hr : forall c q, c ∈ Configs plan -> revert_request c q -> R q)
    by (intros; by eapply HR, er_revert).
  assert (Hd : posts R (discardStaged plan)) by (by eapply posts_only_discardStaged).
  assert (Hrs : posts R (revertStaged plan)) by (by eapply posts_only_revertStaged).
  assert (Haw : forall a t r b, posts R (awaitRevert eng plan a t r b))
    by (intros; by apply posts_only_awaitRevert).
  assert (Hrh : posts R (runHealth health)) by (destruct health; simpl; [by apply Hh|walk]).
  assert (Hcp : forall f d l, posts R (confirmPoll eng f d l)).
  { apply posts_only_confirmPoll; [done|]. intros; by apply HR, er_confirm. }
  assert (Hp : posts R (preflight plan)).
  { eapply posts_only_weaken; [apply posts_only_preflight|]. intros; by apply HR, er_reads. }
  assert (Hs : posts R (stage plan)) by (by eapply posts_only_weaken; [apply posts_only_stage|]).
  assert (Hv : posts R (verifyStaged plan))
    by (by eapply posts_only_weaken; [apply posts_only_verifyStaged|]).
  assert (Hsn : posts R (snapshotPlanned plan)) by (by apply posts_only_snapshot).
  assert (Hap : forall b r0 armed, posts R (apply_armed eng fuel plan health b r0 armed (plan_timeout plan))).
  { intros b r0 armed. unfold apply_armed. apply posts_only_bind; [|walk].
    apply posts_only_call; [|done]. intros. by apply HR, er_apply. }
  unfold Apply, apply_body, apply_window. walk.
Qed.
End Requests.

(** ** Helper facts about the phases *)

Section Phases.
Context {W : Type} `{World W}.
Variable eng : Engine.
Implicit Types (s : cstate W) (plan : Plan).

(** The wire log only grows. *)
Definition extends s s' : Prop := exists new, wire s' = (wire s ++ new)%list.

Lemma extends_trans s1 s2 s3 : extends s1 s2 -> extends s2 s3 -> extends s1 s3.
Proof. intros [n1 H1] [n2 H2]. exists (n1 ++ n2)%list. by rewrite H2, H1, app_assoc. Qed.
Lemma extends_refl s : extends s s.
Proof. exists []. by rewrite app_nil_r. Qed.

Lemma posts_only_extends R {A} (m : M (cstate W) A) s a s' :
  posts_only R m -> m s = (a, s') -> extends s s'.
Proof. intros Hm E. apply Hm in E as (n & Hn & _). by exists n. Qed.

Lemma e_now_run s : exists t w', now (world s) = (t, w') /\ e_now s = (t, MkCState (cl s) w' (wire s)).
Proof. unfold e_now. destruct (now (world s)) as [t w'] eqn:E. by exists t, w'. Qed.

(** A plan that touches the management path never passes preflight without
    the acknowledgment. *)
Lemma preflight_traversal plan s r s' :
  TouchesManagementPath plan = true -> AcknowledgeTraversal plan = false ->
  preflight plan s = (r, s') -> exists e, r = Err e.
Proof.
  intros Ht Ha E. unfold preflight, bind in E. destruct (ForeignDirtyConfigs s) as [d s1].
  unfold ret in E. rewrite Ht, Ha in E. simpl in E. inv E.
  destruct d as [dirty|e]; [|by eexists]. case_match; by eexists.
Qed.

(** Discarding sends one revert per config, whatever the device answers. *)
Lemma uci_revert_posts c s r s' :
  uci_revert c s = (r, s') ->
  exists new q out, wire s' = (wire s ++ new)%list /\ (Single q, out) ∈ new /\ revert_request c q.
Proof.
  intros E. unfold uci_revert, Call in E. apply call_shapes in E as (_ & new & Hw & Hs & _ & _).
  assert (exists x, x ∈ new /\ is_request "uci" "revert" (JObj [("config", JStr c)]) x)
    as ([p out] & Hx & q & Hq & ? & ? & ?) by (inv Hs; eexists; (split; [|done]); set_solver).
  simpl in Hq. subst p. by exists new, q, out.
Qed.

Definition reverted_in (cfgs : list string) (tr : list exchange) : Prop :=
  forall c, c ∈ cfgs -> exists q out, (Single q, out) ∈ tr /\ revert_request c q.

Lemma discard_configs_posts cfgs : forall s u s',
  discard_configs cfgs s = (u, s') ->
  exists new, wire s' = (wire s ++ new)%list /\ reverted_in cfgs new.
Proof.
  induction cfgs as [|c cfgs IH]; intros s u s' E; simpl in E.
  - inv E. exists []. rewrite app_nil_r. split; [done|]. intros c Hc. set_solver.
  - unfold bind in E. destruct (uci_revert c s) as [r s1] eqn:Er.
    apply uci_revert_posts in Er as (n1 & q & out & Hw1 & Hin & Hq).
    apply IH in E as (n2 & Hw2 & Hr2). exists (n1 ++ n2)%list.
    rewrite Hw2, Hw1, <- app_assoc. split; [done|].
    intros c' Hc'. apply elem_of_cons in Hc' as [->|Hc'].
    + exists q, out. set_solver.
    + destruct (Hr2 c' Hc') as (q' & o' & ? & ?). exists q', o'. set_solver.
Qed.

Lemma revert_configs_posts cfgs : forall errs s r s',
  revert_configs cfgs errs s = (r, s') ->
  exists new, wire s' = (wire s ++ new)%list /\ reverted_in cfgs new.
Proof.
  induction cfgs as [|c cfgs IH]; intros errs s r s' E; simpl in E.
  - inv E. exists []. rewrite app_nil_r. split; [done|]. intros c Hc. set_solver.
  - unfold bind in E. destruct (uci_revert c s) as [r1 s1] eqn:Er.
    apply uci_revert_posts in Er as (n1 & q & out & Hw1 & Hin & Hq).
    apply IH in E as (n2 & Hw2 & Hr2). exists (n1 ++ n2)%list.
    rewrite Hw2, Hw1, <- app_assoc. split; [done|].
    intros c' Hc'. apply elem_of_cons in Hc' as [->|Hc'].
    + exists q, out. set_solver.
    + destruct (Hr2 c' Hc') as (q' & o' & ? & ?). exists q', o'. set_solver.
Qed.

(** What is sent to drop the staged delta: reverts of the plan's configs, one
    of each at least. *)
Definition discard_request (plan : Plan) (q : rpcRequest) : Prop :=
  login_request q \/ exists c, c ∈ Configs plan /\ revert_request c q.
Definition discards (plan : Plan) (tr : list exchange) : Prop :=
  reverted_in (Configs plan) tr /\ Forall (discard_request plan) (trace_requests tr).

Lemma discards_intro {A} (m : M (cstate W) A) plan s a s' :
  posts_only (discard_request plan) m ->
  (exists new, wire s' = (wire s ++ new)%list /\ reverted_in (Configs plan) new) ->
  m s = (a, s') -> exists new, wire s' = (wire s ++ new)%list /\ discards plan new.
Proof.
  intros Hp (new & Hw & Hr) E. apply Hp in E as (new' & Hw' & Hf). exists new. split; [done|].
  split; [done|]. rewrite Hw in Hw'. by apply app_inv_head in Hw' as ->.
Qed.

Lemma discardStaged_discards plan s u s' : discardStaged plan s = (u, s') ->
  exists new, wire s' = (wire s ++ new)%list /\ discards plan new.
Proof.
  intros E. eapply (discards_intro (discardStaged plan)); [|by eapply discard_configs_posts|exact E].
  apply posts_only_discardStaged; [by left|]. intros c q Hc Hq. right. by exists c.
Qed.

Lemma revertStaged_discards plan s r s' : revertStaged plan s = (r, s') ->
  exists new, wire s' = (wire s ++ new)%list /\ discards plan new.
Proof.
  intros E. eapply (discards_intro (revertStaged plan)); [| |exact E].
  - apply posts_only_revertStaged; [by left|]. intros c q Hc Hq. right. by exists c.
  - unfold revertStaged in E. apply bind_inv in E as (errs & s1 & E1 & E). unfold ret in E. inv E.
    by eapply revert_configs_posts.
Qed.

(** ** The revert verdict *)

Definition get_args (k : Key) : json :=
  let '(config, section, option) := k in
  JObj [("config", JStr config); ("section", JStr section); ("option", JStr option)].

(** In the exchanges [tr] the option was read, and was absent or held another
    value than the planned one. *)
Definition reads_gone (k : Key) (want : string) (tr : list exchange) : Prop :=
  exists q out, (Single q, out) ∈ tr /\ is_uci "get" q /\ q_args q = get_args k /\
    match answer dec_value "" "uci" "get" out with
    | Ok v => v <> want
    | Err e => absent_status e = true
    end.

Lemma reads_gone_mono k want tr tr' : tr ⊆ tr' -> reads_gone k want tr -> reads_gone k want tr'.
Proof. intros Ht (q & out & Hin & Hrest). exists q, out. split; [by apply Ht|done]. Qed.

(** The options that have a vote: they held something else before staging. *)
Definition votes (before : preApply) (opts : list (Key * string)) : list (Key * string) :=
  filter (fun kv => distinguishes before kv.1 kv.2 = true) opts.

Lemma uci_get_gone k want s r s' : uci_get k s = (r, s') ->
  match r with Ok v => v <> want | Err e => absent_status e = true end ->
  exists new, wire s' = (wire s ++ new)%list /\ reads_gone k want new.
Proof.
  destruct k as [[c o] n]. intros E Hr. unfold uci_get, Call in E.
  apply call_answered in E as (new & Hw & [(q & out & Hin & Ho & Hm & Ha & ->)|(o' & m' & b & ->)]);
    [|done].
  exists new. split; [done|]. exists q, out. done.
Qed.

(** A check that found the plan gone read every option with a vote. *)
Lemma still_applied_gone before opts : forall b s c s',
  still_applied before opts b s = (Ok (false, c), s') ->
  exists new, wire s' = (wire s ++ new)%list /\
    (forall kv, kv ∈ votes before opts -> reads_gone kv.1 kv.2 new) /\
    c = b || negb (bool_decide (votes before opts = [])).
Proof.
  induction opts as [|[k want] opts IH]; intros b s c s' E; cbn [still_applied] in E.
  { unfold ret in E. injection E as <- <-. exists []. rewrite app_nil_r.
    split_and!; [done|intros kv Hkv; by apply elem_of_nil in Hkv|by rewrite orb_false_r]. }
  unfold votes. rewrite filter_cons. cbn [fst snd]. fold (votes before opts).
  destruct (distinguishes before k want) eqn:Ed; [rewrite decide_True by done|rewrite decide_False by done].
  2: by apply IH in E.
  apply bind_inv in E as (r & s1 & E1 & E).
  assert (Hgone : match r with Ok v => v <> want | Err e => absent_status e = true end /\
                  still_applied before opts true s1 = (Ok (false, c), s')).
  { destruct r as [v|e].
    - destruct (String.eqb_spec v want); [done|]. by split.
    - destruct (absent_status e) eqn:Ea; [done|]. by unfold ret in E. }
  destruct Hgone as [Hgone E2]. apply (uci_get_gone _ _ _ _ _ E1) in Hgone as (n1 & Hw1 & Hg1).
  apply IH in E2 as (n2 & Hw2 & Hg2 & ->). exists (n1 ++ n2)%list. split_and!.
  - by rewrite Hw2, Hw1, app_assoc.
  - intros kv [->|Hkv]%elem_of_cons.
    + eapply reads_gone_mono; [|exact Hg1]. set_solver.
    + eapply reads_gone_mono; [|by apply Hg2]. set_solver.
  - by rewrite orb_true_r.
Qed.

(** What stands behind [Reverted]: what was left of the window and the grace
    was waited out, a fresh session was opened, and on it every option that
    can tell the two states apart, one at least, was read and was not as the
    plan wrote it. *)
Definition revert_observed (plan : Plan) (before : preApply) (armed : Z) s s' : Prop :=
  exists t0 s0 t s1 s2 v s3 new,
    e_now s = (t0, s0) /\ e_now s0 = (t, s1) /\
    (let wait := time_sub (armed + i64 (plan_timeout plan + RevertGrace eng)) t in
     if 0 <? wait then e_sleep wait s1 = (None, s2) else s2 = s1) /\
    FreshSession s2 = (Ok v, s3) /\ wire s' = (wire s3 ++ new)%list /\
    votes before (plan_options plan) <> [] /\
    forall kv, kv ∈ votes before (plan_options plan) -> reads_gone kv.1 kv.2 new.

(** What [awaitRevert] can conclude. *)
Definition honest (r : Result) : Prop :=
  (res_Outcome r = Unknown /\ res_Stranded r = true) \/
  (res_Outcome r = Reverted /\ res_Stranded r = false).

Lemma honest_not_applied r : honest r -> res_Outcome r <> Applied.
Proof. intros [[? _]|[? _]]; congruence. Qed.

Lemma awaitRevert_honest plan armed reason before s r s' :
  awaitRevert eng plan armed (plan_timeout plan) reason before s = (r, s') ->
  honest r /\ extends s s' /\ (res_Outcome r = Reverted -> revert_observed plan before armed s s').
Proof.
  intros E. assert (He : extends s s').
  { eapply (posts_only_extends (fun _ => True)); [|exact E].
    eapply (posts_only_awaitRevert (W:=W)); done. }
  unfold awaitRevert in E. apply bind_inv in E as (started & s1 & E1 & E).
  apply bind_inv in E as (t & s2 & E2 & E). apply bind_inv in E as (cancelled & s3 & E3 & E).
  destruct cancelled as [c|].
  { unfold bind in E. destruct (e_now s3). unfold ret in E. inv E. split_and!; [by left|done|done]. }
  apply bind_inv in E as (v & s4 & E4 & E). destruct v as [v|e].
  2: { unfold bind in E. destruct (e_now s4). unfold ret in E. inv E. split_and!; [by left|done|done]. }
  apply bind_inv in E as (check & s5 & E5 & E). apply bind_inv in E as (fin & s6 & E6 & E).
  unfold ret in E. injection E as <- <-.
  destruct check as [[[|] [|]]|e]; (split_and!; [|done|]); try (by left); try discriminate; [by right|].
  intros _. unfold on_client in E5.
  destruct (planStillApplied plan before (MkCState v (world s4) (wire s4))) as [ck s7] eqn:Ep.
  injection E5 as -> <-. apply still_applied_gone in Ep as (new & Hw & Hg & Hc).
  destruct (e_now_run (MkCState (cl s4) (world s7) (wire s7))) as (t6 & w6 & _ & Hn6). rewrite Hn6 in E6. injection E6 as <- <-.
  exists started, s1, t, s2, s3, v, s4, new. split_and!; try done.
  - cbn zeta. destruct (0 <? _); [done|]. by injection E3 as ->.
  - intros Hv. rewrite Hv in Hc. by rewrite bool_decide_eq_true_2 in Hc.
Qed.

(** Polling inside the window: a success is a confirm request on the
    session the client holds, sent before the deadline and answered with
    success. *)
Definition confirmed_before (deadline : Z) s s' : Prop :=
  exists l st t st' qc oc,
    wire st = (wire s ++ l)%list /\ e_now st = (t, st') /\ t < deadline /\
    Call dec_nil tt "uci" "confirm" (JObj []) st' = (Ok tt, s') /\
    wire s' = (wire s ++ l ++ [(Single qc, oc)])%list /\ confirm_request qc /\
    q_session qc = c_session (cl s) /\ answer dec_nil tt "uci" "confirm" oc = Ok tt.

Lemma confirmPoll_window fuel : forall deadline last s r s',
  c_confirmWindow (cl s) = true ->
  confirmPoll eng fuel deadline last s = (r, s') ->
  r = Some (Ok tt) -> confirmed_before deadline s s'.
Proof.
  induction fuel as [|fuel IH]; intros deadline last s r s' Hwin E Hr; cbn [confirmPoll] in E;
    [inv E; discriminate|].
  apply bind_inv in E as (t & s1 & E1 & E).
  assert (H1 : cl s1 = cl s /\ wire s1 = wire s).
  { destruct (e_now_run s) as (t' & w' & _ & Hn). rewrite Hn in E1. by injection E1 as <- <-. }
  destruct H1 as [Hc1 Hw1]. destruct (t <? deadline) eqn:Et; [bool_prop|by inv E].
  apply bind_inv in E as (rc & s2 & E2 & E). pose proof E2 as Ecall.
  apply call_in_window in E2 as (Hc & out & Hrc & Hw); [|by rewrite Hc1].
  rewrite Hc1, Hw1 in Hw. destruct rc as [u|e].
  - unfold ret in E. injection E as <- <-. destruct u.
    exists [], s, t, s1, (MkRequest (c_nextID (cl s) + 1) (c_session (cl s)) "uci" "confirm" (JObj [])), out.
    rewrite app_nil_r. split_and!; done.
  - destruct (denied_status e); [by inv E|].
    apply bind_inv in E as (c & s3 & E3 & E).
    assert (H3 : cl s3 = cl s2 /\ wire s3 = wire s2).
    { unfold e_sleep in E3. destruct (sleep _ _). by injection E3 as <- <-. }
    destruct H3 as [Hc3 Hw3]. destruct c as [c|]; [by inv E|].
    apply IH in E as (l & st & t2 & st' & qc & oc & Hst & Hnow & Ht & Hcall & Hw' & Hq & Hs & Ha);
      [|by rewrite Hc3, Hc, Hc1|done].
    exists ((Single (MkRequest (c_nextID (cl s) + 1) (c_session (cl s)) "uci" "confirm" (JObj [])), out) :: l),
      st, t2, st', qc, oc. rewrite Hst, Hw', Hw3, Hw. rewrite <- !app_assoc.
    split_and!; try done. by rewrite Hs, Hc3, Hc, Hc1.
Qed.
End Phases.

Section Outcomes.
Context {W : Type} `{World W}.
Variable eng : Engine.
Implicit Types (s : cstate W).

(** What the engine relies on from the health check it is given: the check
    only adds to the wire and neither leaves the confirm window nor logs in
    again. Every [Call] of [Ubus] has this property. *)
Record good_health (health : option (HealthCheck (W:=W))) : Prop := {
  health_posts : forall h, health = Some h -> posts_only (fun _ => True) h;
  health_keeps : forall h, health = Some h -> keeps_session h;
}.

Lemma runHealth_good health s r s' :
  good_health health -> c_confirmWindow (cl s) = true -> runHealth health s = (r, s') ->
  c_confirmWindow (cl s') = true /\ c_session (cl s') = c_session (cl s) /\ extends s s'.
Proof.
  intros [Hp Hk] Hwin E. destruct health as [h|]; simpl in E.
  - destruct (Hk h eq_refl _ _ _ Hwin E) as [? ?]. split_and!; [done|done|].
    by eapply (posts_only_extends (fun _ => True)); [apply Hp|].
  - inv E. split_and!; [done|done|apply extends_refl].
Qed.

(** The run up to the state in which the arming request is sent: preflight,
    the snapshot [before] of the planned options, staging and its verification
    went well, and then the clock read [armed]. *)
Definition reaches_arming (plan : Plan) s (before : preApply) (armed : Z) s1 : Prop :=
  exists t sa sb sc sd se,
    e_now s = (t, sa) /\ preflight plan sa = (Ok tt, sb) /\ snapshotPlanned plan sb = (before, sc) /\
    stage plan sc = (Ok tt, sd) /\ verifyStaged plan sd = (Ok tt, se) /\
    e_now (MkCState (with_window (cl se) true) (world se) (wire se)) = (armed, s1).

(** At that moment the caller's context is live and, when it has a deadline,
    leaves room for the whole rollback window and the revert grace. *)
Definition within_budget (w : W) (armed timeout : Z) : Prop :=
  ctx_err w = None /\
  forall d, ctx_deadline w = Some d -> i64 (timeout + RevertGrace eng) <= time_sub d armed.

Lemma requireRollbackBudget_ok w armed timeout :
  requireRollbackBudget eng w armed timeout = Ok tt -> within_budget w armed timeout.
Proof.
  unfold requireRollbackBudget, within_budget. destruct (ctx_err w); [done|].
  destruct (ctx_deadline w) as [d|]; [|by split].
  destruct (_ <=? _) eqn:E; [|done]. bool_prop. intros _. split; [done|]. intros d' [= <-]. done.
Qed.

(** The evidence behind an [Applied] outcome, from the arming call on: it was
    accepted, the health check run from there found no fault, and the confirm
    on the same session was accepted before the window closed. *)
Definition confirmed_apply (plan : Plan) (health : option (HealthCheck (W:=W))) (armed : Z) s s' : Prop :=
  exists qa oa (sh sh' : cstate W),
    Call dec_nil tt "uci" "apply" (armed_args (plan_timeout plan)) s = (Ok tt, sh) /\
    wire sh = (wire s ++ [(Single qa, oa)])%list /\ apply_request plan qa /\
    answer dec_nil tt "uci" "apply" oa = Ok tt /\ q_session qa = c_session (cl sh') /\
    runHealth health sh = (None, sh') /\ extends sh sh' /\
    confirmed_before (armed + plan_timeout plan) sh' s'.

Lemma apply_armed_applied fuel plan health before res0 armed s res e s' :
  good_health health -> c_confirmWindow (cl s) = true ->
  apply_armed eng fuel plan health before res0 armed (plan_timeout plan) s = (Some (res, e), s') ->
  res_Outcome res = Applied -> res_Outcome res0 = NoOutcome ->
  exists s2, confirmed_apply plan health armed s s2 /\ wire s' = wire s2.
Proof.
  intros Hg Hwin E Ho H0. unfold apply_armed in E.
  apply bind_inv in E as (ra & s1 & Ea & E). pose proof Ea as Ecall.
  apply call_in_window in Ea as (Hc1 & oa & Hra & Hw1); [|done].
  destruct ra as [u|ea].
  2: { unfold bind in E. destruct (revertStaged plan s1) as [u s2]. simpl in E.
       inv E. congruence. }
  destruct u. apply bind_inv in E as (rh & s2 & Eh & E).
  assert (Hwin1 : c_confirmWindow (cl s1) = true) by (by rewrite Hc1).
  destruct (runHealth_good _ _ _ _ Hg Hwin1 Eh) as (Hwin2 & Hs2 & He2).
  destruct rh as [he|].
  { unfold bind at 1 2 in E. simpl in E. destruct (awaitRevert _ _ _ _ _ _ _) as [out s3] eqn:Ew.
    unfold bind in E. destruct (discardStaged plan s3) as [v s4]. inv E. simpl in Ho.
    apply awaitRevert_honest in Ew as (Hh & _). by apply honest_not_applied in Hh. }
  apply bind_inv in E as (rc & s3 & Ec & E).
  destruct rc as [[u|ce]|]; [| |by inv E].
  - destruct u. apply confirmPoll_window in Ec; [|done..].
    unfold bind in E. simpl in E. inv E. exists s3. split; [|done].
    eexists _, oa, s1, s2. split_and!; try done. by rewrite Hs2, Hc1.
  - unfold bind at 1 2 in E. simpl in E. destruct (awaitRevert _ _ _ _ _ _ _) as [out s4] eqn:Ew.
    unfold bind in E. destruct (discardStaged plan s4) as [v s5]. inv E. simpl in Ho.
    apply awaitRevert_honest in Ew as (Hh & _). by apply honest_not_applied in Hh.
Qed.

(** The last exchanges of the run drop the staged delta. *)
Definition ends_discarding (plan : Plan) s s' : Prop :=
  exists l1 l2, wire s' = (wire s ++ l1 ++ l2)%list /\ discards plan l2.

(** Nothing stays staged: nothing was sent but logins and the savedir listing,
    or the staged delta of every config was dropped at the end. *)
Definition leaves_nothing_staged (plan : Plan) s s' : Prop :=
  (exists new, wire s' = (wire s ++ new)%list /\ Forall reads_only (trace_requests new)) \/
  ends_discarding plan s s'.

Lemma ends_discarding_intro plan s s1 s2 new : extends s s1 ->
  wire s2 = (wire s1 ++ new)%list -> discards plan new -> ends_discarding plan s s2.
Proof. intros [l1 H1] Hw Hd. exists l1, new. split; [by rewrite Hw, H1, app_assoc|done]. Qed.

Lemma reaches_arming_extends plan s before armed s1 :
  reaches_arming plan s before armed s1 -> extends s s1 /\ c_confirmWindow (cl s1) = true.
Proof.
  intros (t & sa & sb & sc & sd & se & E0 & Ep & Es & Est & Ev & E1).
  destruct (e_now_run s) as (t' & w & _ & Hn). rewrite Hn in E0. injection E0 as _ <-.
  match type of E1 with e_now ?st = _ => destruct (e_now_run st) as (t1 & w1 & _ & Hn1) end.
  rewrite Hn1 in E1. injection E1 as _ <-. split; [|done].
  apply (posts_only_extends _ _ _ _ _ (posts_only_preflight plan)) in Ep as [n1 H1].
  apply (posts_only_extends (fun _ => True)) in Es as [n2 H2]; [|by apply posts_only_snapshot].
  apply (posts_only_extends _ _ _ _ _ (posts_only_stage plan)) in Est as [n3 H3].
  apply (posts_only_extends _ _ _ _ _ (posts_only_verifyStaged plan)) in Ev as [n4 H4].
  exists (n1 ++ n2 ++ n3 ++ n4)%list. simpl in *. by rewrite H4, H3, H2, H1, !app_assoc.
Qed.

(** Where a run that returned a verdict armed the rollback. *)
Lemma Apply_reaches_window fuel plan health s res e s' :
  Apply eng fuel plan health s = (Some (res, e), s') ->
  (e <> None /\ res_Outcome res = NoOutcome /\ res_Stranded res = false /\
     leaves_nothing_staged plan s s') \/
  (exists before res0 armed s1 s2 res1,
     reaches_arming plan s before armed s1 /\ within_budget (world s1) armed (plan_timeout plan) /\
     res_Outcome res0 = NoOutcome /\
     res_Stranded res0 = false /\
     apply_armed eng fuel plan health before res0 armed (plan_timeout plan) s1 = (Some (res1, e), s2) /\
     wire s' = wire s2 /\ res_Outcome res = res_Outcome res1 /\ res_Stranded res = res_Stranded res1).
Proof.
  unfold Apply. intros E. apply bind_inv in E as (t & s0 & E0 & E).
  apply bind_inv in E as (rb & s3 & Eb & E). apply bind_inv in E as (t3 & s9 & E3 & E).
  destruct (e_now_run s3) as (t3' & w3 & _ & Hn3). rewrite Hn3 in E3. injection E3 as _ <-.
  destruct (e_now_run s) as (t0' & w0 & _ & Hn0). pose proof E0 as E0'. rewrite Hn0 in E0'. injection E0' as _ E0'.
  assert (Hw0 : wire s0 = wire s) by (by rewrite <- E0').
  unfold ret in E. destruct rb as [[res1 e1]|]; cbn [option_map] in E; [|done].
  injection E as <- <- <-. cbn [fst snd res_Outcome res_Stranded with_finished].
  set (r0 := MkRes _ _ _ _ _ _) in Eb. unfold apply_body in Eb.
  assert (Hreads : forall sx : cstate W, wire sx = wire s -> forall new, wire s3 = (wire sx ++ new)%list ->
    Forall reads_only (trace_requests new) -> leaves_nothing_staged plan s (MkCState (cl s3) w3 (wire s3))).
  { intros sx Hx new Hw Hf. left. exists new. by rewrite <- Hx. }
  case_bool_decide.
  { left. unfold ret in Eb. injection Eb as <- <- <-. split_and!; try done. eapply (Hreads s0 Hw0 []); [by rewrite app_nil_r|constructor]. }
  apply bind_inv in Eb as (p & s4 & Ep & Eb).
  pose proof (posts_only_preflight plan _ _ _ Ep) as (np & Hwp & Hfp).
  destruct p as [[]|pe].
  2: { left. unfold ret in Eb. injection Eb as <- <- <-. split_and!; try done. by eapply (Hreads s0 Hw0 np). }
  assert (X4 : extends s s4) by (exists np; by rewrite Hwp, Hw0).
  apply bind_inv in Eb as (before & s5 & Es & Eb).
  assert (X5 : extends s s5).
  { eapply extends_trans; [exact X4|]. eapply (posts_only_extends (fun _ => True)); [|exact Es]. by apply posts_only_snapshot. }
  apply bind_inv in Eb as (st & s6 & Est & Eb).
  assert (X6 : extends s s6).
  { eapply extends_trans; [exact X5|]. eapply posts_only_extends; [apply posts_only_stage|exact Est]. }
  destruct st as [[]|ste].
  2: { left. apply bind_inv in Eb as (u & s7 & Ed & Eb). apply discardStaged_discards in Ed as (nd & Hwd & Hd).
       unfold ret in Eb. injection Eb as <- <- <-. split_and!; try done. right. eapply ends_discarding_intro; [exact X6|exact Hwd|exact Hd]. }
  apply bind_inv in Eb as (vs & s7 & Ev & Eb).
  assert (X7 : extends s s7).
  { eapply extends_trans; [exact X6|]. eapply posts_only_extends; [apply posts_only_verifyStaged|exact Ev]. }
  destruct vs as [[]|ve].
  2: { left. apply bind_inv in Eb as (u & s8 & Ed & Eb). apply revertStaged_discards in Ed as (nd & Hwd & Hd).
       unfold ret in Eb. injection Eb as <- <- <-. split_and!; try done. right. eapply ends_discarding_intro; [exact X7|exact Hwd|exact Hd]. }
  unfold apply_window in Eb. apply bind_inv in Eb as (u8 & s8 & E8 & Eb).
  unfold BeginConfirmWindow, bind in E8. cbn [get_cl set_cl] in E8.
  apply bind_inv in Eb as (armed & s10 & E10 & Eb). apply bind_inv in Eb as (w & s11 & E11 & Eb).
  unfold get_world in E11. injection E11 as <- <-.
  assert (Harm : reaches_arming plan s before armed s10).
  { exists t, s0, s4, s5, s6, s7. split_and!; try done. unfold get_cl, set_cl in E8. by injection E8 as _ <-. }
  destruct (requireRollbackBudget eng (world s10) armed (plan_timeout plan)) as [[]|be] eqn:Ebud.
  - right. exists before, r0, armed, s10, s3, res1. split_and!; try done. by apply requireRollbackBudget_ok.
  - left. destruct (reaches_arming_extends _ _ _ _ _ Harm) as [X10 _].
    apply bind_inv in Eb as (ux & s12 & E12 & Eb). apply bind_inv in Eb as (uy & s13 & E13 & Eb).
    apply bind_inv in Eb as (cl0 & s14 & E14 & Eb). apply bind_inv in Eb as (uz & s15 & E15 & Eb).
    apply revertStaged_discards in E14 as (nd & Hwd & Hd).
    unfold EndConfirmWindow, bind, get_cl, set_cl in E12. injection E12 as _ <-.
    unfold on_world in E13, E15. injection E13 as _ <-. injection E15 as _ <-.
    unfold ret in Eb. injection Eb as <- <- <-. split_and!; try done.
    right. eapply ends_discarding_intro; [exact X10|exact Hwd|exact Hd].
Qed.
End Outcomes.

(** ** Rejected changes and outcomes *)

Section Verdicts.
Context {W : Type} `{World W}.
Variable eng : Engine.
Implicit Types (s : cstate W).



End Verdicts.

(** ** The revert verdict against a reference definition *)

(** A device whose answers to [uci.get] do not depend on when they are asked,
    and that answers every planned option definitely. *)
Section Reference.
Context {W : Type} `{World W}.
Variable read : Key -> res err string.
Hypothesis read_stable : forall k (s : cstate W), (uci_get k s).1 = read k.

Definition conclusive (k : Key) : bool :=
  match read k with Ok _ => true | Err e => absent_status e end.

(** The option still reads as the plan wrote it. *)
Definition survives (kv : Key * string) : bool :=
  match read kv.1 with Ok v => String.eqb v kv.2 | Err _ => false end.

Lemma still_applied_reference before opts : forall checked s,
  (forall kv, kv ∈ votes before opts -> conclusive kv.1 = true) ->
  let vs := votes before opts in
  (still_applied before opts checked s).1 =
    Ok (existsb survives vs, checked || negb (bool_decide (vs = []))).
Proof.
  induction opts as [|[k want] opts IH]; intros checked s Hc; simpl; [by rewrite orb_false_r|].
  unfold votes in *. rewrite filter_cons in *. simpl in *.
  destruct (distinguishes before k want) eqn:Ed; [|by apply IH].
  rewrite decide_True in * by done. simpl.
  pose proof (Hc (k, want) ltac:(set_solver)) as Hk. unfold conclusive in Hk. simpl in Hk.
  assert (Hc' : forall kv, kv ∈ filter (fun kv => distinguishes before kv.1 kv.2 = true) opts ->
    conclusive kv.1 = true) by (intros; apply Hc; set_solver).
  unfold bind. pose proof (read_stable k s) as Hr. destruct (uci_get k s) as [r s1].
  simpl in Hr. subst r. unfold survives at 1. simpl. destruct (read k) as [v|e].
  - destruct (String.eqb v want); simpl; [by rewrite orb_true_r|].
    rewrite IH by done. by rewrite orb_true_r.
  - rewrite Hk, IH by done. by rewrite orb_true_r.
Qed.
End Reference.

(** ** Termination *)

(** The clock the engine relies on: it does not go back while the device is
    spoken to, and a sleep that is not cut short lasts at least as long as
    asked. *)
Class ClockLaws (W : Type) `{World W} := {
  time : W -> Z;
  now_time : forall w t w', now w = (t, w') -> time w <= t <= time w';
  http_time : forall w u p o w', http_do w u p = (o, w') -> time w <= time w';
  sleep_time : forall d w w', sleep d w = (None, w') -> time w + d <= time w';
  sleep_cut : forall d w c w', sleep d w = (Some c, w') -> time w <= time w';
}.

Section Termination.
Context {W : Type} `{World W} `{!ClockLaws W}.
Variable eng : Engine.
Implicit Types (s : cstate W).

Lemma call_time {A} (dec : json -> option A) zero o m a s r s' :
  c_confirmWindow (cl s) = true ->
  call dec zero o m a true s = (r, s') -> time (world s) <= time (world s').
Proof.
  intros Hwin E. unfold call, callOnce in E. unfold bind at 1 2 in E. simpl in E.
  unfold callWithSession, post, bind at 1 2 3, get_cl, set_cl, ret at 1 in E. simpl in E.
  destruct (http_do _ _ _) as [out w'] eqn:Eh. apply http_time in Eh.
  destruct (call_result _ _ _ _ _); [by inv E|].
  destruct (as_denied _); [|by inv E].
  unfold bind at 1, get_cl in E. simpl in E. rewrite Hwin in E. simpl in E. by inv E.
Qed.

Lemma confirmPoll_step fuel deadline last :
  confirmPoll eng (S fuel) deadline last =
  (do t <- e_now;
   if t <? deadline then
     do r <- Call dec_nil tt "uci" "confirm" (JObj []);
     match r with
     | Ok _ => ret (Some (Ok tt))
     | Err e =>
         if denied_status e
         then ret (Some (Err (WrapError "confirm refused: not the applying session" e)))
         else
           do d <- e_sleep (W:=W) (ConfirmInterval eng);
           match d with
           | Some c => ret (Some (Err (CtxError c)))
           | None => confirmPoll eng fuel deadline (Some e)
           end
     end
   else ret (Some (Err (match last with Some e => e | None => MsgError "window expired" [] end)))).
Proof. reflexivity. Qed.

Lemma confirmPoll_terminates k : forall deadline last s,
  0 < ConfirmInterval eng -> c_confirmWindow (cl s) = true ->
  deadline - time (world s) <= Z.of_nat k * ConfirmInterval eng ->
  (confirmPoll eng (S k) deadline last s).1 <> None.
Proof.
  induction k as [|k IH]; intros deadline last s Hi Hwin Hk;
    rewrite confirmPoll_step; unfold bind at 1;
    destruct (e_now_run s) as (t & w' & Hnow & Hn); rewrite Hn; apply now_time in Hnow;
    (destruct (t <? deadline) eqn:Et; [bool_prop|done]).
  - nia.
  - unfold bind at 1. destruct (Call dec_nil tt "uci" "confirm" _ _) as [rc s2] eqn:Ec.
    pose proof (call_time _ _ _ _ _ (MkCState (cl s) w' (wire s)) _ _ Hwin Ec) as Htc.
    apply call_in_window in Ec as (Hcl & _); [|done].
    destruct rc as [u|e]; [done|]. destruct (denied_status e); [done|].
    unfold bind, e_sleep. destruct (sleep _ (world s2)) as [c w2] eqn:Es.
    destruct c; [done|]. apply sleep_time in Es. simpl in Htc.
    apply IH; [done|simpl; by rewrite Hcl|simpl; nia].
Qed.
End Termination.

Section ApplyTermination.
Context {W : Type} `{World W} `{!ClockLaws W}.
Variable eng : Engine.
Implicit Types (s : cstate W).

Definition health_time (health : option (HealthCheck (W:=W))) : Prop :=
  forall s r s', runHealth health s = (r, s') -> time (world s) <= time (world s').

Lemma apply_armed_terminates k plan health before res0 armed s :
  0 < ConfirmInterval eng -> plan_timeout plan <= Z.of_nat k * ConfirmInterval eng ->
  good_health health -> health_time health ->
  c_confirmWindow (cl s) = true -> armed <= time (world s) ->
  (apply_armed eng (S k) plan health before res0 armed (plan_timeout plan) s).1 <> None.
Proof.
  intros Hi Hk Hg Ht Hwin Ha. unfold apply_armed. unfold bind at 1.
  destruct (Call dec_nil tt "uci" "apply" _ s) as [ra s1] eqn:Ea.
  pose proof (call_time _ _ _ _ _ _ _ _ Hwin Ea) as Ht1.
  apply call_in_window in Ea as (Hc1 & _); [|done].
  destruct ra as [u|ea].
  2: { unfold bind. destruct (revertStaged plan s1). done. }
  assert (Hwin1 : c_confirmWindow (cl s1) = true) by (by rewrite Hc1).
  unfold bind at 1. destruct (runHealth health s1) as [rh s2] eqn:Eh.
  destruct (runHealth_good _ _ _ _ Hg Hwin1 Eh) as (Hwin2 & _). apply Ht in Eh.
  destruct rh as [he|].
  { unfold bind at 1 2. simpl. destruct (awaitRevert _ _ _ _ _ _ _) as [out s4].
    unfold bind. by destruct (discardStaged plan s4). }
  unfold bind at 1.
  assert (Hne : (confirmPoll eng (S k) (armed + plan_timeout plan) None s2).1 <> None)
    by (apply confirmPoll_terminates; [done|done|lia]).
  destruct (confirmPoll _ _ _ _ s2) as [rc s3]. simpl in Hne.
  destruct rc as [[u2|ce]|]; [done| |done].
  unfold bind at 1 2. simpl. destruct (awaitRevert _ _ _ _ _ _ _) as [out s4].
  unfold bind. by destruct (discardStaged plan s4).
Qed.

Lemma apply_body_terminates k plan health res0 s :
  0 < ConfirmInterval eng -> plan_timeout plan <= Z.of_nat k * ConfirmInterval eng ->
  good_health health -> health_time health ->
  (apply_body eng (S k) plan health res0 s).1 <> None.
Proof.
  intros Hi Hk Hg Ht. unfold apply_body. case_bool_decide; [done|].
  unfold bind at 1. destruct (preflight plan s) as [[u|e] s1]; [|done].
  unfold bind at 1. destruct (snapshotPlanned plan s1) as [before s2].
  unfold bind at 1. destruct (stage plan s2) as [[u2|e] s3].
  2: { unfold bind. by destruct (discardStaged plan s3). }
  unfold bind at 1. destruct (verifyStaged plan s3) as [[u3|e] s4].
  2: { unfold bind. by destruct (revertStaged plan s4). }
  unfold apply_window. unfold bind at 1. destruct (BeginConfirmWindow s4) as [u5 s5] eqn:E5.
  unfold BeginConfirmWindow, bind in E5. inv E5.
  unfold bind at 1. match goal with |- context [e_now ?st] =>
    destruct (e_now_run st) as (armed & w9 & Hnow & Hn9); rewrite Hn9 end.
  apply now_time in Hnow. unfold bind at 1, get_world. simpl.
  destruct (requireRollbackBudget eng w9 armed (plan_timeout plan)) as [u6|be].
  - apply apply_armed_terminates; try done. simpl. lia.
  - unfold bind at 1 2. simpl. unfold bind. by destruct (revertStaged plan _).
Qed.
End ApplyTermination.

(** ** Staged operations *)

(** The [values] object of a staged invocation. *)
Definition staged_values (i : Invocation) : option (list (string * json)) :=
  match i_args i with
  | JObj l => match assoc "values" l with Some (JObj v) => Some v | _ => None end
  | _ => None
  end.

Lemma assoc_map_JStr k (v : list (string * string)) :
  assoc k (map (fun kv => (kv.1, JStr kv.2)) v) = option_map JStr (assoc k v).
Proof. induction v as [|[k' w] v IH]; simpl; [done|]. by destruct (String.eqb k k'). Qed.

(** A list option replaces a scalar option of the same name. *)
Lemma assoc_withLists k values lists :
  NoDup (map fst lists) ->
  assoc k (withLists values lists) =
    match assoc k lists with
    | Some l => Some (JArr (map JStr l))
    | None => option_map JStr (assoc k values)
    end.
Proof.
  unfold withLists. rewrite <- assoc_map_JStr.
  generalize (map (fun kv => (kv.1, JStr kv.2)) values) as acc.
  induction lists as [|[k' l] lists IH]; intros acc Hnd; simpl; [done|].
  simpl in Hnd. apply NoDup_cons in Hnd as [Hni Hnd]. rewrite (IH _ Hnd).
  destruct (String.eqb k k') eqn:E.
  - bool_prop. subst k'. rewrite assoc_set_same.
    assert (assoc k lists = None) as ->; [|done].
    clear -Hni. induction lists as [|[k2 l2] lists IH]; simpl in *; [done|].
    destruct (String.eqb k k2) eqn:E; bool_prop; set_solver.
  - bool_prop. destruct (assoc k lists); [done|]. by apply assoc_set_other.
Qed.

Lemma stage_call_values op i :
  stage_call op = Ok i -> Kind op = OpAdd \/ Kind op = OpSet ->
  staged_values i =
    Some (withLists (if Patch op then Values op else withOwnership (Values op)) (Lists op)) /\
  (Patch op = true -> Kind op = OpSet /\ assoc OwnershipTag (Values op) = None /\ Lists op = []).
Proof.
  unfold stage_call. intros E [Hk|Hk]; rewrite Hk in E; simpl in E.
  - destruct (Patch op); [done|]. inv E. split; [|done].
    unfold staged_values. simpl. by destruct (String.eqb (Name op) "").
  - destruct (Patch op) eqn:Ep; simpl in E; [|inv E; done].
    destruct (_ || _) eqn:Eg; [done|]. inv E. split; [done|]. intros _. bool_prop.
    split_and!; [done| |].
    + destruct (assoc OwnershipTag (Values op)) eqn:Ea; [|done].
      exfalso. match goal with H : ~ is_Some _ |- _ => apply H; by eexists end.
    + by destruct (Lists op).
Qed.

(** ** Properties *)

Section Properties.
Context {W : Type} `{World W}.
Variable eng : Engine.
Implicit Types (s : cstate W).

(** Claim C1 (safety). [Apply] reports [Applied] only when, in this order:
    preflight, staging and its verification went well; with the clock then
    reading [armed], the caller's context was live and left room for the whole
    rollback window and the revert grace; from that very state an [uci.apply]
    with rollback and the plan's timeout was answered with success; the health
    check run from there found no fault; and an [uci.confirm] on the same
    session, sent before [armed] plus the timeout, was answered with success.
    Nothing was sent after it. *)
Theorem Apply_applied_sound fuel plan health s res e s' :
  good_health health ->
  Apply eng fuel plan health s = (Some (res, e), s') ->
  res_Outcome res = Applied ->
  exists before armed s1 s2,
    reaches_arming plan s before armed s1 /\ within_budget eng (world s1) armed (plan_timeout plan) /\
    confirmed_apply plan health armed s1 s2 /\ wire s' = wire s2.
Proof.
  intros Hg E Ho.
  apply Apply_reaches_window in E as [(_ & Hx & _)|E]; [congruence|].
  destruct E as (before & r0 & armed & s1 & s2 & r1 & Harm & Hb & H0 & _ & Ha & Hw & Heq & _).
  destruct (reaches_arming_extends _ _ _ _ _ Harm) as [_ Hwin].
  eapply apply_armed_applied in Ha as (s3 & Hc & Hw3); [|done|done|congruence|done].
  exists before, armed, s1, s3. split_and!; [done|done|done|congruence].
Qed.


(** Whatever the device answers, the engine sends nothing but logins, the
    savedir listing, [uci] reads, the staged operations of the plan, reverts of
    the plan's configs, confirms, and applies that request the rollback window,
    besides what the health check sends: it never commits and never arms
    without rollback. *)
Theorem Apply_requests (R : rpcRequest -> Prop) fuel plan health s :
  (forall h, health = Some h -> posts_only R h) ->
  exists new, wire (Apply eng fuel plan health s).2 = (wire s ++ new)%list /\
    Forall (fun q => engine_request plan q \/ R q) (trace_requests new).
Proof.
  intros Hh. eapply (posts_only_Apply eng (fun q => engine_request plan q \/ R q)); [| |apply surjective_pairing].
  - intros q Hq. by left.
  - intros h Hx. eapply posts_only_weaken; [by apply Hh|]. intros q Hq. by right.
Qed.

(** (safety) A plan that touches the management path without the
    acknowledgment is refused with an error before anything is written: the
    only requests sent are logins and the savedir listing. *)
Theorem Apply_traversal_refused fuel plan health s r s' :
  TouchesManagementPath plan = true -> AcknowledgeTraversal plan = false ->
  Apply eng fuel plan health s = (r, s') ->
  (exists res e, r = Some (res, Some e) /\ res_Outcome res = NoOutcome) /\
  exists new, wire s' = (wire s ++ new)%list /\ Forall reads_only (trace_requests new).
Proof.
  intros Ht Ha E. unfold Apply in E. unfold bind at 1 in E.
  destruct (e_now_run s) as (t & w & _ & Hn). rewrite Hn in E.
  unfold bind at 1 in E. unfold apply_body in E at 1.
  case_bool_decide as Hnil.
  { unfold TouchesManagementPath in Ht. by rewrite Hnil in Ht. }
  unfold bind at 1 in E. destruct (preflight plan _) as [p s4] eqn:Ep.
  destruct (preflight_traversal _ _ _ _ Ht Ha Ep) as [e ->].
  apply posts_only_preflight in Ep as (new & Hw & Hf). simpl in Hw.
  unfold ret, bind in E. destruct (e_now_run s4) as (t3 & w3 & _ & Hn3). rewrite Hn3 in E.
  inv E. split; [by eexists _, e|]. by exists new.
Qed.

(** Claim C5 (termination). With the clock of [ClockLaws], [Apply] returns:
    one confirm attempt per interval of the rollback window, and one more
    clock reading, are enough fuel. *)
Theorem Apply_terminates `{!ClockLaws W} k plan health s :
  0 < ConfirmInterval eng -> plan_timeout plan <= Z.of_nat k * ConfirmInterval eng ->
  good_health health -> health_time health ->
  exists res e s', Apply eng (S k) plan health s = (Some (res, e), s').
Proof.
  intros Hi Hk Hg Ht. unfold Apply. unfold bind at 1.
  destruct (e_now_run s) as (t & w & _ & Hn). rewrite Hn.
  set (r0 := MkRes _ _ _ _ _ _). set (s0 := MkCState _ _ _).
  pose proof (apply_body_terminates eng k plan health r0 s0 Hi Hk Hg Ht) as Hne.
  unfold bind at 1. destruct (apply_body _ _ _ _ _ s0) as [[[res e]|] s1]; [|done].
  unfold bind. destruct (e_now_run s1) as (t3 & w3 & _ & Hn3). rewrite Hn3.
  by do 3 eexists.
Qed.

(** On a device that answers [uci.get] consistently
    and definitely, the revert check is: some option that held another
    value before staging still reads as the plan wrote it, and it was
    checked at all exactly when such an option exists. So [Reverted] is
    never concluded from a plan that leaves nothing to look at, nor from
    options that held the planned value all along. *)
Theorem planStillApplied_reference (read : Key -> res err string) plan before s :
  (forall k (s0 : cstate W), (uci_get k s0).1 = read k) ->
  (forall kv, kv ∈ votes before (plan_options plan) -> conclusive read kv.1 = true) ->
  (planStillApplied plan before s).1 =
    Ok (existsb (survives read) (votes before (plan_options plan)),
        negb (bool_decide (votes before (plan_options plan) = []))).
Proof.
  intros Hr Hc. unfold planStillApplied.
  rewrite (still_applied_reference read Hr before _ false s Hc). by rewrite orb_false_l.
Qed.
End Properties.

(** Staging an add or a set writes the ownership tag
    exactly when the operation is not a patch, and every other option holds
    the operation's value, a list option taking the place of a scalar one. A
    patch is only ever staged as a set of scalar options without the tag. *)
Theorem stage_ownership op i vals :
  stage_call op = Ok i -> staged_values i = Some vals ->
  Kind op = OpAdd \/ Kind op = OpSet ->
  NoDup (map fst (Lists op)) -> assoc OwnershipTag (Lists op) = None ->
  assoc OwnershipTag vals = (if Patch op then None else Some (JStr "1")) /\
  (Patch op = true -> Kind op = OpSet /\ Lists op = []) /\
  (forall k, k <> OwnershipTag ->
     assoc k vals = match assoc k (Lists op) with
                    | Some l => Some (JArr (map JStr l))
                    | None => option_map JStr (assoc k (Values op))
                    end).
Proof.
  intros E Ev Hk Hnd Hol. destruct (stage_call_values _ _ E Hk) as [Hv Hp].
  rewrite Hv in Ev. inv Ev. split_and!.
  - rewrite assoc_withLists, Hol by done. destruct (Patch op).
    + destruct (Hp eq_refl) as (_ & -> & _). done.
    + unfold withOwnership. by rewrite assoc_set_same.
  - intros Hpt. by destruct (Hp Hpt) as (? & _ & ?).
  - intros k Hne. rewrite assoc_withLists by done. destruct (assoc k (Lists op)); [done|].
    destruct (Patch op); [done|]. unfold withOwnership. by rewrite assoc_set_other.
Qed.

(** While the caller's context is live and the durations
    are in range, the budget check passes exactly when the deadline leaves the
    rollback window and the revert grace, equality included; a context without
    a deadline always passes, an ended one never. *)
Theorem requireRollbackBudget_floor `{World W} eng (w : W) armed timeout :
  in_i64 (timeout + RevertGrace eng) ->
  (forall d, ctx_deadline w = Some d -> in_i64 (d - armed)) ->
  requireRollbackBudget eng w armed timeout = Ok tt <->
  ctx_err w = None /\
  (forall d, ctx_deadline w = Some d -> timeout + RevertGrace eng <= d - armed).
Proof.
  intros Hr Hd. unfold requireRollbackBudget. destruct (ctx_err w); [naive_solver|].
  destruct (ctx_deadline w) as [d|]; [|naive_solver].
  rewrite (i64_id _ Hr). specialize (Hd d eq_refl).
  assert (time_sub d armed = d - armed) as ->.
  { unfold time_sub, in_i64, minInt64, maxInt64 in *. lia. }
  destruct (timeout + RevertGrace eng <=? d - armed) eqn:E; bool_prop; split.
  - intros _. split; [done|]. intros d' Hd'. inv Hd'. lia.
  - done.
  - done.
  - intros [_ Hx]. specialize (Hx d eq_refl). lia.
Qed.

(** ** A concrete world

    A device that answers from a script and a clock that only sleeping
    advances: every property above with hypotheses is applied to it. *)
Module Scripted.
Record sworld := MkSWorld { sw_time : Z; sw_deadline : option Z; sw_script : list http_outcome }.

Definition closed_socket : do_failure := MkFailure None None false true "".

Definition s_http (w : sworld) (_ : string) (_ : payload) : http_outcome * sworld :=
  match sw_script w with
  | [] => (HFailed closed_socket, w)
  | o :: rest => (o, MkSWorld (sw_time w) (sw_deadline w) rest)
  end.

#[export] Instance scripted_transport : Transport sworld := {
  http_do := s_http;
  marshal_len := fun reqs => 200 * Z.of_nat (length reqs);
}.

#[export] Instance scripted_world : World sworld := {
  world_transport := scripted_transport;
  now := fun w => (sw_time w, w);
  sleep := fun d w => (None, MkSWorld (sw_time w + Z.max d 0) (sw_deadline w) (sw_script w));
  ctx_err := fun _ => None;
  ctx_deadline := sw_deadline;
  detach := fun _ w => w;
  reattach := fun w => w;
}.

#[export] Instance scripted_clock : ClockLaws sworld.
Proof.
  refine {| time := sw_time |}.
  - intros w t w' E. inv E. lia.
  - intros w u p o w' E. simpl in E. unfold s_http in E. destruct (sw_script w); inv E; simpl; lia.
  - intros d w w' E. inv E. simpl. lia.
  - intros d w c w' E. discriminate E.
Defined.

(** JSON-RPC bodies: status and payload, and an array of them. *)
Definition frame (status : Z) (data : list json) : json :=
  JObj [("id", JInt 1); ("result", JArr (JInt status :: data))].
Definition body (j : json) : http_outcome := HBody 100 (Some j).
Definition reply (status : Z) (data : list json) : http_outcome := body (frame status data).
Definition reply_batch (n : nat) : http_outcome := body (JArr (repeat (frame 0 []) n)).

Definition start (script : list http_outcome) : cstate sworld :=
  MkCState (MkClient "http://192.168.1.1/ubus" "" "a1b2" "oonfeewrt" "pw" false false 0)
           (MkSWorld 0 (Some (200 * second)) script) [].

Definition ssid_op : Op :=
  MkOp OpSet "wireless" "oowrt_w1" "" "" [("ssid", "home"); ("oonfeewrt", "1")] [] "" false.
Definition plan1 : Plan := MkPlan [ssid_op] 0 false.

Definition value (v : string) : list json := [JObj [("value", JStr v)]].
Definition changes : list json :=
  [JObj [("changes", JObj [("wireless", JArr [JStr "set"])])]].

(** No foreign edits, two option reads, one staged operation, its listing,
    then the arming call, one refused confirm and one that lands. *)
Definition happy : list http_outcome :=
  [reply 4 []; reply 0 (value "old"); reply 0 (value "1"); reply_batch 1; reply 0 changes;
   reply 0 []; reply 7 []; reply 0 []].

(** The same device with a failing health check: the fresh session reads the
    old value back. *)
Definition reverting : list http_outcome :=
  [reply 4 []; reply 0 (value "old"); reply 0 (value "1"); reply_batch 1; reply 0 changes;
   reply 0 []; reply 0 [JObj [("ubus_rpc_session", JStr "ffff")]]; reply 0 (value "old");
   reply 0 []].

Definition healthy : option (HealthCheck (W:=sworld)) := None.
Definition failing : option (HealthCheck (W:=sworld)) := Some (ret (Some (MsgError "no SSID" []))).

Lemma healthy_good : good_health healthy.
Proof. by split. Qed.

Definition outcome_of (r : option (Result * option err)) : option (Outcome * bool) :=
  match r with Some (x, None) => Some (res_Outcome x, res_Stranded x) | _ => None end.

Example happy_run : outcome_of (Apply New_Engine 31 plan1 healthy (start happy)).1 = Some (Applied, false).
Proof. vm_compute. reflexivity. Qed.
Example reverting_run :
  outcome_of (Apply New_Engine 31 plan1 failing (start reverting)).1 = Some (Reverted, false).
Proof. vm_compute. reflexivity. Qed.
End Scripted.

Module ApplyWitnesses.
Import Scripted.

Local Notation happy_end := (Apply New_Engine 31 plan1 healthy (start happy)).
Local Notation reverting_end := (Apply New_Engine 31 plan1 failing (start reverting)).

Definition result_of (r : option (Result * option err)) : Result :=
  match r with Some (x, _) => x | None => MkRes NoOutcome no_reason None false 0 0 end.
Definition happy_res : Result := Eval vm_compute in result_of happy_end.1.

Lemma happy_eq : happy_end = (Some (happy_res, None), happy_end.2).
Proof. 
  assert (Hr : happy_end.1 = Some (happy_res, None)) by (vm_compute; reflexivity).
  rewrite <- Hr. apply surjective_pairing.
Qed.

Lemma Apply_applied_sound_witness :
  exists before armed s1 s2, reaches_arming plan1 (start happy) before armed s1 /\
    within_budget New_Engine (world s1) armed (plan_timeout plan1) /\
    confirmed_apply plan1 healthy armed s1 s2 /\ wire happy_end.2 = wire s2.
Proof.
  exact (Apply_applied_sound New_Engine 31 plan1 healthy (start happy) happy_res None happy_end.2
           healthy_good happy_eq eq_refl).
Defined.


Lemma Apply_requests_witness :
  exists new, wire happy_end.2 = (wire (start happy) ++ new)%list /\
    Forall (fun q => engine_request plan1 q \/ False) (trace_requests new).
Proof. apply (Apply_requests New_Engine (fun _ => False) 31 plan1 healthy (start happy)). discriminate. Defined.

Definition lan_plan : Plan :=
  MkPlan [MkOp OpSet "network" "lan" "" "" [("ipaddr", "10.0.0.1")] [] "" true] 0 false.

Local Notation lan_end := (Apply New_Engine 31 lan_plan healthy (start happy)).

Lemma Apply_traversal_refused_witness :
  (exists res e, lan_end.1 = Some (res, Some e) /\ res_Outcome res = NoOutcome) /\
  exists new, wire lan_end.2 = (wire (start happy) ++ new)%list /\ Forall reads_only (trace_requests new).
Proof.
  apply (Apply_traversal_refused New_Engine 31 lan_plan healthy (start happy));
    [reflexivity|reflexivity|exact (surjective_pairing lan_end)].
Defined.

Lemma healthy_time : health_time healthy.
Proof. intros s r s' E. inv E. lia. Qed.

(** The shipped settings: 90 seconds at one attempt every 3 seconds. *)
Lemma Apply_terminates_witness :
  exists res e s', Apply New_Engine 31 plan1 healthy (start happy) = (Some (res, e), s').
Proof.
  apply (Apply_terminates New_Engine 30 plan1 healthy (start happy));
    [vm_compute; reflexivity|vm_compute; discriminate|exact healthy_good|exact healthy_time].
Defined.

(** A device that answers every read of one option with a fixed value. *)
Definition fixed_http (w : Z) (_ : string) (_ : payload) : http_outcome * Z :=
  (reply 0 (value "old"), w).
#[export] Instance fixed_transport : Transport Z := {
  http_do := fixed_http;
  marshal_len := fun reqs => 200 * Z.of_nat (length reqs);
}.
#[export] Instance fixed_world : World Z := {
  world_transport := fixed_transport;
  now := fun w => (w, w);
  sleep := fun d w => (None, w + d);
  ctx_err := fun _ => None;
  ctx_deadline := fun _ => None;
  detach := fun _ w => w;
  reattach := fun w => w;
}.
Definition fixed_state : cstate Z :=
  MkCState (MkClient "http://192.168.1.1/ubus" "" "a1b2" "oonfeewrt" "pw" false false 0) 0 [].
Definition before1 : preApply :=
  <[(("wireless", "oowrt_w1", "ssid") : Key) := ("old", true)]>
    (<[(("wireless", "oowrt_w1", "oonfeewrt") : Key) := ("1", true)]> ∅).

Lemma planStillApplied_reference_witness :
  (planStillApplied plan1 before1 fixed_state).1 = Ok (false, true).
Proof.
  rewrite (planStillApplied_reference (fun _ => Ok "old") plan1 before1 fixed_state);
    [vm_compute; reflexivity| |done].
  intros [[c o] n] s. reflexivity.
Defined.

Lemma stage_ownership_witness :
  assoc OwnershipTag [("ssid", JStr "home"); ("oonfeewrt", JStr "1")] = Some (JStr "1").
Proof.
  refine (proj1 (stage_ownership ssid_op _ [("ssid", JStr "home"); ("oonfeewrt", JStr "1")]
    eq_refl eq_refl (or_intror eq_refl) (NoDup_nil_2) eq_refl)).
Defined.

Lemma requireRollbackBudget_floor_witness :
  requireRollbackBudget New_Engine (MkSWorld 0 (Some MinApplyBudget) []) 0 DefaultTimeout = Ok tt.
Proof.
  apply (requireRollbackBudget_floor New_Engine).
  - vm_compute. split; discriminate.
  - intros d E. inv E. vm_compute. split; discriminate.
  - split; [reflexivity|]. intros d E. inv E. vm_compute. discriminate.
Defined.
End ApplyWitnesses.
