(* ===== verification/Alerts.v ===== *)
(** * Alerts (internal/alerts)

    Controller-local alert rules: configuration checks, the per-rule state
    machine [evaluate], incidents and their bounded history, the delivery
    outbox, the periodic [Tick], and [ValidatePersistentState], the check
    every load and save of the state goes through ([alerts.go],
    [validation.go], [internal/store/alerts.go]). A pointer field of the
    state is an option holding the value at the time it was set: [r.Since =
    &r.PendingSince] is never followed by another write to [PendingSince]
    before the state is saved. Times are Unix seconds. *)

From Stdlib Require Import ZArith Lia Ascii String Floats.SpecFloat.
From stdpp Require Import base gmap list strings.
From S2P Require Import Prelude GoStr F64.

Local Open Scope string_scope.
Local Open Scope Z_scope.

Definition MaxRules : Z := 50.

Definition f_eqb (a b : f64) : bool := SFeqb a b.

Record Config := MkConfig {
  c_Name : string;
  c_Condition : string;
  c_DeviceID : Z;
  c_Threshold : f64;
  c_HoldSeconds : Z;
  c_CooldownSeconds : Z;
  c_Enabled : bool;
}.

Definition line_breaks : list ascii := [chr 13; chr 10; chr 0].

(** [Config.Validate]: [None] is a nil error. *)
Definition Validate (c : Config) : option string :=
  if String.eqb (TrimSpace (c_Name c)) "" || (80 <? RuneCountInString (c_Name c)) ||
     ContainsAny (c_Name c) line_breaks
  then Some "name must contain 1–80 characters without line breaks"
  else if c_DeviceID c <=? 0 then Some "device_id must be positive"
  else if (c_HoldSeconds c <? 60) || (86400 <? c_HoldSeconds c)
  then Some "hold_seconds must be between 60 and 86400"
  else if (c_CooldownSeconds c <? 60) || (604800 <? c_CooldownSeconds c)
  then Some "cooldown_seconds must be between 60 and 604800"
  else if is_nan (c_Threshold c) || is_inf (c_Threshold c) then Some "threshold must be finite"
  else if String.eqb (c_Condition c) "device_offline" then
    if negb (f_eqb (c_Threshold c) f_zero) then Some "device_offline threshold must be zero" else None
  else if String.eqb (c_Condition c) "wan_latency" then
    if f_leb (c_Threshold c) f_zero || f_gtb (c_Threshold c) (f_of_Z 60000)
    then Some "WAN latency threshold must be greater than zero and at most 60000 ms" else None
  else if String.eqb (c_Condition c) "wan_loss" then
    if f_leb (c_Threshold c) f_zero || f_gtb (c_Threshold c) (f_of_Z 100)
    then Some "WAN loss threshold must be greater than zero and at most 100 percent" else None
  else Some "condition must be device_offline, wan_latency, or wan_loss".

(** [RuleRecord] with its embedded [Rule] and [Config]. *)
Record RuleRecord := MkRule {
  r_Config : Config;
  r_ID : Z;
  r_State : string;
  r_Since : option Z;
  r_Value : option f64;
  r_ObservedAt : option Z;
  r_Reason : string;
  r_TargetIdentity : string;
  r_PendingSince : Z;
  r_LastEvidence : Z;
  r_LastEvaluation : Z;
  r_LastNotification : Z;
  r_IncidentID : Z;
}.

Record Incident := MkIncident {
  i_ID : Z;
  i_RuleID : Z;
  i_RuleName : string;
  i_DeviceID : Z;
  i_DeviceName : string;
  i_Condition : string;
  i_State : string;
  i_StartedAt : Z;
  i_ResolvedAt : option Z;
  i_Value : option f64;
  i_DeliveryState : string;
  i_DeliveryError : string;
}.

Record Delivery := MkDelivery {
  d_Configured : bool;
  d_Host : string;
  d_Enabled : bool;
  d_LastAttemptAt : option Z;
  d_LastSuccessAt : option Z;
  d_LastError : string;
}.

Record Notification := MkNotification {
  n_EventID : string;
  n_Event : string;
  n_At : Z;
  n_Incident : Incident;
}.

Record QueuedDelivery := MkQueued {
  q_Notification : Notification;
  q_Attempts : Z;
  q_NextAttempt : Z;
  q_ExpiresAt : Z;
}.

Record PersistentState := MkState {
  s_Rules : list RuleRecord;
  s_Incidents : list Incident;
  s_Queue : list QueuedDelivery;
  s_Delivery : Delivery;
  s_Ciphertext : list ascii;
  s_EvaluatedAt : option Z;
  s_NextRuleID : Z;
  s_NextIncidentID : Z;
}.

Record Evidence := MkEvidence {
  e_Known : bool;
  e_Value : f64;
  e_ObservedAt : Z;
  e_MaxGap : Z;
  e_DeviceName : string;
  e_Reason : string;
}.

(** The zero [Evidence] a Go map lookup returns for a missing rule. *)
Definition no_evidence : Evidence := MkEvidence false f_zero 0 0 "" "".

(** ** Field updates *)

Definition set_rules (s : PersistentState) (v : list RuleRecord) : PersistentState :=
  MkState v (s_Incidents s) (s_Queue s) (s_Delivery s) (s_Ciphertext s) (s_EvaluatedAt s)
          (s_NextRuleID s) (s_NextIncidentID s).
Definition set_incidents (s : PersistentState) (v : list Incident) : PersistentState :=
  MkState (s_Rules s) v (s_Queue s) (s_Delivery s) (s_Ciphertext s) (s_EvaluatedAt s)
          (s_NextRuleID s) (s_NextIncidentID s).
Definition set_queue (s : PersistentState) (v : list QueuedDelivery) : PersistentState :=
  MkState (s_Rules s) (s_Incidents s) v (s_Delivery s) (s_Ciphertext s) (s_EvaluatedAt s)
          (s_NextRuleID s) (s_NextIncidentID s).
Definition set_delivery (s : PersistentState) (d : Delivery) (c : list ascii) : PersistentState :=
  MkState (s_Rules s) (s_Incidents s) (s_Queue s) d c (s_EvaluatedAt s)
          (s_NextRuleID s) (s_NextIncidentID s).
Definition set_evaluated (s : PersistentState) (t : option Z) : PersistentState :=
  MkState (s_Rules s) (s_Incidents s) (s_Queue s) (s_Delivery s) (s_Ciphertext s) t
          (s_NextRuleID s) (s_NextIncidentID s).
Definition set_next_incident (s : PersistentState) (n : Z) : PersistentState :=
  MkState (s_Rules s) (s_Incidents s) (s_Queue s) (s_Delivery s) (s_Ciphertext s) (s_EvaluatedAt s)
          (s_NextRuleID s) n.
Definition set_next_rule (s : PersistentState) (n : Z) : PersistentState :=
  MkState (s_Rules s) (s_Incidents s) (s_Queue s) (s_Delivery s) (s_Ciphertext s) (s_EvaluatedAt s)
          n (s_NextIncidentID s).

(** The fields of a rule [evaluate] writes. *)
Definition upd_rule (r : RuleRecord) (state reason : string) (since : option Z)
    (value : option f64) (observed : option Z)
    (pending evidence evaluation notification incident : Z) : RuleRecord :=
  MkRule (r_Config r) (r_ID r) state since value observed reason (r_TargetIdentity r)
         pending evidence evaluation notification incident.

Definition rule_state (r : RuleRecord) (state reason : string) : RuleRecord :=
  upd_rule r state reason (r_Since r) (r_Value r) (r_ObservedAt r) (r_PendingSince r)
           (r_LastEvidence r) (r_LastEvaluation r) (r_LastNotification r) (r_IncidentID r).

Definition rule_enabled (r : RuleRecord) (b : bool) : RuleRecord :=
  let c := r_Config r in
  MkRule (MkConfig (c_Name c) (c_Condition c) (c_DeviceID c) (c_Threshold c) (c_HoldSeconds c)
                   (c_CooldownSeconds c) b)
         (r_ID r) (r_State r) (r_Since r) (r_Value r) (r_ObservedAt r) (r_Reason r)
         (r_TargetIdentity r) (r_PendingSince r) (r_LastEvidence r) (r_LastEvaluation r)
         (r_LastNotification r) (r_IncidentID r).

Definition with_delivery_state (i : Incident) (state error : string) : Incident :=
  MkIncident (i_ID i) (i_RuleID i) (i_RuleName i) (i_DeviceID i) (i_DeviceName i) (i_Condition i)
             (i_State i) (i_StartedAt i) (i_ResolvedAt i) (i_Value i) state error.

Definition resolve_incident (i : Incident) (at_ : Z) (value : f64) : Incident :=
  MkIncident (i_ID i) (i_RuleID i) (i_RuleName i) (i_DeviceID i) (i_DeviceName i) (i_Condition i)
             "resolved" (i_StartedAt i) (Some at_) (Some value) (i_DeliveryState i) (i_DeliveryError i).

(** ** The outbox *)

Definition EventID (id : Z) (event : string) : string :=
  "oonfeewrt-alert-" ++ Itoa id ++ "-" ++ event.

(** [queue]: the incident it was handed, updated, and the state. *)
Definition queue (s : PersistentState) (incident : Incident) (event : string) (now : Z)
    : PersistentState * Incident :=
  if negb (d_Enabled (s_Delivery s)) || negb (d_Configured (s_Delivery s))
  then (s, with_delivery_state incident "not_configured" (i_DeliveryError incident))
  else if 100 <=? Z.of_nat (length (s_Queue s))
  then (s, with_delivery_state incident "failed" "Notification queue is full")
  else
    let incident' := with_delivery_state incident "pending" "" in
    (set_queue s (s_Queue s ++ [MkQueued (MkNotification (EventID (i_ID incident') event) event now incident')
                                         0 now (now + 1800)])%list, incident').

Definition finish_one (q : QueuedDelivery) (state detail : string) (i : Incident) : Incident :=
  if (i_ID i =? i_ID (n_Incident (q_Notification q))) &&
     String.eqb (i_State i) (n_Event (q_Notification q))
  then with_delivery_state i state detail else i.

Definition finishDelivery (s : PersistentState) (q : QueuedDelivery) (state detail : string)
    : PersistentState :=
  set_incidents s (map (finish_one q state detail) (s_Incidents s)).

Definition cancel_text : string :=
  "Pending delivery cancelled by a configuration change; no historical replay was sent".

(** [cancelQueuedDeliveries]: [keep] reuses the queue's array behind the read
    position, so the filter is the loop's result. *)
Definition kept_by (ruleID : Z) (q : QueuedDelivery) : bool :=
  negb (ruleID =? 0) && negb (i_RuleID (n_Incident (q_Notification q)) =? ruleID).

Definition cancelQueuedDeliveries (s : PersistentState) (ruleID : Z) : PersistentState :=
  let s' := fold_left (fun acc q => if kept_by ruleID q then acc
                                    else finishDelivery acc q "cancelled" cancel_text)
                      (s_Queue s) s in
  set_queue s' (filter (fun q => kept_by ruleID q = true) (s_Queue s)).

(** ** Evaluation *)

(** Whether the evidence lies outside the condition's valid range. *)
Definition out_of_range (r : RuleRecord) (e : Evidence) : bool :=
  (String.eqb (c_Condition (r_Config r)) "device_offline" &&
   negb (f_eqb (e_Value e) f_zero) && negb (f_eqb (e_Value e) (f_of_Z 1))) ||
  (String.eqb (c_Condition (r_Config r)) "wan_loss" &&
   (f_ltb (e_Value e) f_zero || f_gtb (e_Value e) (f_of_Z 100))).

Definition evidence_gap (e : Evidence) : Z := if e_MaxGap e <=? 0 then 120 else e_MaxGap e.

Definition fresh (known : bool) (e : Evidence) (now : Z) : bool :=
  negb (negb known || is_inf (e_Value e) || is_nan (e_Value e) || (e_ObservedAt e <=? 0) ||
        (now <? e_ObservedAt e) || (evidence_gap e <? now - e_ObservedAt e)).

Definition breached (r : RuleRecord) (e : Evidence) : bool :=
  if String.eqb (c_Condition (r_Config r)) "device_offline" then f_eqb (e_Value e) (f_of_Z 1)
  else f_gtb (e_Value e) (c_Threshold (r_Config r)).

(** The loop that resolves the rule's incident, one incident at a time; the
    state threads the outbox. *)
Fixpoint resolve_loop (s : PersistentState) (id : Z) (value : f64) (now : Z)
    (todo done : list Incident) : PersistentState * list Incident :=
  match todo with
  | [] => (s, done)
  | i :: todo' =>
      if negb (i_ID i =? id) then resolve_loop s id value now todo' (done ++ [i])%list
      else
        let '(s', i') := queue s (resolve_incident i now value) "resolved" now in
        resolve_loop s' id value now todo' (done ++ [i'])%list
  end.

Definition resolve_incidents (s : PersistentState) (id : Z) (value : f64) (now : Z) : PersistentState :=
  let '(s', incidents) := resolve_loop s id value now (s_Incidents s) [] in
  set_incidents s' incidents.

Definition stale_reason : string :=
  "Fresh observation is unavailable; existing incidents are not resolved".

(** The branch of [evaluate] that opens an incident. *)
Definition open_incident (s : PersistentState) (r : RuleRecord) (e : Evidence) (now : Z)
    : PersistentState * RuleRecord :=
  let id := s_NextIncidentID s + 1 in
  let s1 := set_next_incident s id in
  let incident := MkIncident id (r_ID r) (c_Name (r_Config r)) (c_DeviceID (r_Config r)) (e_DeviceName e)
                             (c_Condition (r_Config r)) "firing" now None (Some (e_Value e))
                             "not_configured" "" in
  let '(s2, incident', notified) :=
    if (r_LastNotification r =? 0) ||
       (c_CooldownSeconds (r_Config r) <=? now - r_LastNotification r)
    then
      let '(s2, i) := queue s1 incident "firing" now in
      (s2, i, if String.eqb (i_DeliveryState i) "pending" then now else r_LastNotification r)
    else (s1, with_delivery_state incident "cooldown" (i_DeliveryError incident), r_LastNotification r) in
  (set_incidents s2 (s_Incidents s2 ++ [incident'])%list,
   upd_rule r "firing" "Condition persisted for the configured duration" (r_Since r) (r_Value r)
            (r_ObservedAt r) (r_PendingSince r) (r_LastEvidence r) (r_LastEvaluation r) notified id).

Definition evaluate (s : PersistentState) (r : RuleRecord) (e : Evidence) (now : Z)
    : PersistentState * RuleRecord :=
  if negb (c_Enabled (r_Config r)) then (s, rule_state r "disabled" "Rule is disabled")
  else
    let known := if out_of_range r e then false else e_Known e in
    let reason := if out_of_range r e then "The observed value is outside the condition's valid range"
                  else e_Reason e in
    let gap := evidence_gap e in
    let continuous := (0 <? r_LastEvaluation r) && (now - r_LastEvaluation r <=? 120) &&
                      (r_LastEvaluation r <=? now) in
    if negb (fresh known e now) then
      (s, upd_rule r "unknown" (if String.eqb reason "" then stale_reason else reason)
                   (if r_IncidentID r =? 0 then None else r_Since r) None None 0
                   (if r_IncidentID r =? 0 then 0 else r_LastEvidence r) now
                   (r_LastNotification r) (r_IncidentID r))
    else
      let obs := e_ObservedAt e in
      if negb (breached r e) then
        if negb (r_IncidentID r =? 0) && (obs <=? r_LastEvidence r) then
          (s, upd_rule r "unknown" "A newer observation is required to confirm recovery" (r_Since r)
                       (Some (e_Value e)) (Some obs) (r_PendingSince r) (r_LastEvidence r) now
                       (r_LastNotification r) (r_IncidentID r))
        else
          (if r_IncidentID r =? 0 then s else resolve_incidents s (r_IncidentID r) (e_Value e) now,
           upd_rule r "clear" "Latest observation is within the rule threshold" None
                    (Some (e_Value e)) (Some obs) 0 obs now (r_LastNotification r) 0)
      else if negb (r_IncidentID r =? 0) then
        (s, upd_rule r "firing" "Condition remains above the threshold" (r_Since r)
                     (Some (e_Value e)) (Some obs) (r_PendingSince r) (Z.max (r_LastEvidence r) obs) now
                     (r_LastNotification r) (r_IncidentID r))
      else
        let newEvidence := r_LastEvidence r <? obs in
        let pending := if negb continuous || (r_PendingSince r =? 0) ||
                          (gap <? obs - r_LastEvidence r) || (obs <? r_LastEvidence r)
                       then obs else r_PendingSince r in
        let r' := upd_rule r "pending" "Waiting for sustained, fresh evidence" (Some pending)
                           (Some (e_Value e)) (Some obs) pending obs now
                           (r_LastNotification r) (r_IncidentID r) in
        if negb newEvidence || (obs - pending <? c_HoldSeconds (r_Config r)) then (s, r')
        else open_incident s r' e now.

(** ** History *)

Definition active_ids (s : PersistentState) : list Z :=
  (filter (fun id => id <> 0) (map r_IncidentID (s_Rules s)) ++
   map (fun q => i_ID (n_Incident (q_Notification q))) (s_Queue s))%list.

Fixpoint prune_loop (active : list Z) (remove : nat) (l : list Incident) : list Incident :=
  match l with
  | [] => []
  | i :: l' =>
      match remove with
      | O => i :: prune_loop active O l'
      | S n => if bool_decide (i_ID i ∈ active) then i :: prune_loop active remove l'
               else prune_loop active n l'
      end
  end.

Definition prune (s : PersistentState) : PersistentState :=
  if Z.of_nat (length (s_Incidents s)) <=? 500 then s
  else set_incidents s (prune_loop (active_ids s) (length (s_Incidents s) - 500) (s_Incidents s)).

(** ** The persistent-state check *)

Definition finite_opt (v : option f64) : bool :=
  match v with None => true | Some x => negb (is_nan x || is_inf x) end.

Definition state_names : list string := ["disabled"; "unknown"; "pending"; "firing"; "clear"].

Definition valid_rule (s : PersistentState) (r : RuleRecord) : bool :=
  bool_decide (Validate (r_Config r) = None) && (0 <? r_ID r) && (r_ID r <=? s_NextRuleID s) &&
  negb (String.eqb (r_TargetIdentity r) "") && (len (r_TargetIdentity r) <=? 128) &&
  (len (r_Reason r) <=? 512) && bool_decide (r_State r ∈ state_names) &&
  (0 <=? r_LastEvidence r) && (0 <=? r_LastEvaluation r) && (0 <=? r_PendingSince r) &&
  (0 <=? r_LastNotification r) && (0 <=? r_IncidentID r) && finite_opt (r_Value r).

Definition valid_incident (s : PersistentState) (i : Incident) : bool :=
  (0 <? i_ID i) && (i_ID i <=? s_NextIncidentID s) && (0 <? i_RuleID i) &&
  (i_RuleID i <=? s_NextRuleID s) && (0 <? i_DeviceID i) && (len (i_RuleName i) <=? 320) &&
  (len (i_DeviceName i) <=? 1024) && (len (i_DeliveryError i) <=? 512) && (0 <? i_StartedAt i) &&
  ((String.eqb (i_State i) "resolved" &&
    match i_ResolvedAt i with Some t => i_StartedAt i <=? t | None => false end) ||
   (String.eqb (i_State i) "firing" && match i_ResolvedAt i with None => true | Some _ => false end)) &&
  finite_opt (i_Value i).

Definition valid_queued (s : PersistentState) (q : QueuedDelivery) : bool :=
  let n := q_Notification q in
  bool_decide (i_ID (n_Incident n) ∈ map i_ID (s_Incidents s)) &&
  (String.eqb (n_Event n) "firing" || String.eqb (n_Event n) "resolved") &&
  String.eqb (n_EventID n) (EventID (i_ID (n_Incident n)) (n_Event n)) &&
  (0 <=? q_Attempts q) && (q_Attempts q <=? 3) && (0 <=? q_NextAttempt q) &&
  (n_At n <=? q_ExpiresAt q) && (0 <? n_At n).

Definition valid_delivery (s : PersistentState) : bool :=
  let d := s_Delivery s in
  (Z.of_nat (length (s_Ciphertext s)) <=? 16384) &&
  Bool.eqb (d_Configured d) (negb (bool_decide (s_Ciphertext s = []))) &&
  (negb (d_Enabled d) || d_Configured d) &&
  (len (d_Host d) <=? 253) && (len (d_LastError d) <=? 512).

(** [ValidatePersistentState]: true for a nil error. *)
Definition ValidatePersistentState (s : PersistentState) : bool :=
  (Z.of_nat (length (s_Rules s)) <=? MaxRules) &&
  (Z.of_nat (length (s_Incidents s)) <=? 500) &&
  (Z.of_nat (length (s_Queue s)) <=? 100) &&
  (0 <=? s_NextRuleID s) && (0 <=? s_NextIncidentID s) &&
  negb (s_NextRuleID s =? maxInt64) && negb (s_NextIncidentID s =? maxInt64) &&
  valid_delivery s &&
  forallb (valid_rule s) (s_Rules s) && bool_decide (NoDup (map r_ID (s_Rules s))) &&
  forallb (valid_incident s) (s_Incidents s) && bool_decide (NoDup (map i_ID (s_Incidents s))) &&
  forallb (fun r => (r_IncidentID r =? 0) ||
                    bool_decide (r_IncidentID r ∈ map i_ID (s_Incidents s))) (s_Rules s) &&
  forallb (valid_queued s) (s_Queue s).

(** ** The manager *)

Inductive alert_err :=
| ErrNotFound
| ErrConflict (detail : string)
| EText (msg : string)
| EExternal (msg : string).

Record destination := MkDestination { dest_URL : string; dest_Token : string }.

(** What [net/url] reports about a parsed URL. *)
Record URL := MkURL {
  u_Scheme : string;
  u_Hostname : string;
  u_Port : string;
  u_HasUser : bool;
  u_Fragment : string;
  u_Opaque : string;
}.

(** IP addresses as [net/netip] holds them. *)
Inductive Addr := V4 (bits : Z) | V6 (bits : Z) (zone : string).

(** What the manager uses from outside the package: the repository, the
    evidence source, the sender, the keyring, and the standard library's URL,
    address and JSON parsers. *)
Class AlertWorld (W : Type) := {
  load : W -> res alert_err PersistentState * W;
  save : PersistentState -> W -> res alert_err unit * W;
  source : list RuleRecord -> Z -> W -> res alert_err (Z -> option Evidence) * W;
  send : string -> string -> Notification -> W -> bool * W;
  clock : W -> Z * W;
  keys_available : W -> bool;
  unseal : list ascii -> W -> option (list ascii);
  seal : list ascii -> W -> option (list ascii);
  parse_destination : list ascii -> option destination;
  encode_destination : destination -> list ascii;
  url_parse : string -> option URL;
  addr_parse : string -> option Addr;
}.

(** What reached the outside: states made durable and notifications handed to
    the sender, in order. *)
Inductive effect := Saved (s : PersistentState) | Sent (url token : string) (n : Notification).

Record wstate (W : Type) := MkW { wd : W; effects : list effect }.
Arguments MkW {W}.
Arguments wd {W}.
Arguments effects {W}.

Definition within (net len_ width bits : Z) : bool :=
  Z.eqb (Z.shiftr bits (width - len_)) (Z.shiftr net (width - len_)).

Definition ip4 (a b c d : Z) : Z := ((a * 256 + b) * 256 + c) * 256 + d.

Definition blocked4 : list (Z * Z) :=
  [(ip4 168 63 129 16, 32); (ip4 0 0 0 0, 8); (ip4 100 64 0 0, 10); (ip4 192 0 0 0, 24);
   (ip4 192 0 2 0, 24); (ip4 198 18 0 0, 15); (ip4 198 51 100 0, 24); (ip4 203 0 113 0, 24);
   (ip4 240 0 0 0, 4)].

(** [hi] are the leading 64 bits of a prefix. *)
Definition ip6 (hi : Z) : Z := Z.shiftl hi 64.

Definition blocked6 : list (Z * Z) :=
  [(ip6 0x0064ff9b00000000, 96); (ip6 0x0064ff9b00010000, 48); (ip6 0x0100000000000000, 64);
   (ip6 0x2001000000000000, 23); (ip6 0x20010db800000000, 32); (ip6 0x2002000000000000, 16)].

Definition Unmap (a : Addr) : Addr :=
  match a with
  | V6 bits _ => if Z.eqb (Z.shiftr bits 32) 0xffff then V4 (Z.land bits 0xffffffff) else a
  | V4 _ => a
  end.

(** The [netip.Addr] predicates, by address family. *)
Definition IsLoopback (a : Addr) : bool :=
  match a with V4 b => within (ip4 127 0 0 0) 8 32 b | V6 b _ => b =? 1 end.
Definition IsMulticast (a : Addr) : bool :=
  match a with V4 b => within (ip4 224 0 0 0) 4 32 b | V6 b _ => within (ip6 0xff00000000000000) 8 128 b end.
Definition IsLinkLocalUnicast (a : Addr) : bool :=
  match a with V4 b => within (ip4 169 254 0 0) 16 32 b | V6 b _ => within (ip6 0xfe80000000000000) 10 128 b end.
Definition IsUnspecified (a : Addr) : bool :=
  match a with V4 b => b =? 0 | V6 b z => (b =? 0) && String.eqb z "" end.
Definition IsPrivate (a : Addr) : bool :=
  match a with
  | V4 b => within (ip4 10 0 0 0) 8 32 b || within (ip4 172 16 0 0) 12 32 b ||
            within (ip4 192 168 0 0) 16 32 b
  | V6 b _ => within (ip6 0xfc00000000000000) 7 128 b
  end.
Definition IsGlobalUnicast (a : Addr) : bool :=
  match a with
  | V4 b => negb (b =? 0) && negb (b =? ip4 255 255 255 255) && negb (IsLoopback a) &&
            negb (IsMulticast a) && negb (IsLinkLocalUnicast a)
  | V6 b z => negb (IsUnspecified a) && negb (IsLoopback a) && negb (IsMulticast a) &&
              negb (IsLinkLocalUnicast a)
  end.

(** [netip.Prefix.Contains]: false for an address with a zone, and across
    families. *)
Definition blocked (a : Addr) : bool :=
  match a with
  | V4 b => existsb (fun p => within (fst p) (snd p) 32 b) blocked4
  | V6 b z => String.eqb z "" && existsb (fun p => within (fst p) (snd p) 128 b) blocked6
  end.

Definition publicAddress (ip : Addr) : bool :=
  let ip := Unmap ip in
  if negb (IsGlobalUnicast ip) || IsPrivate ip || IsLoopback ip || IsLinkLocalUnicast ip then false
  else negb (blocked ip).

Definition host_break : list ascii := [chr 37; chr 92; chr 32; chr 9; chr 13; chr 10].

Definition trim_dot (s : string) : string :=
  if HasSuffix s "." then of_chars (take (String.length s - 1) (chars s)) else s.

Section Manager.
Context {W : Type} `{AlertWorld W}.

Definition ValidateWebhookURL (raw : string) : res string URL :=
  if 4096 <? len raw then Err "webhook URL is too long"
  else match url_parse raw with
  | None => Err "webhook URL must be an absolute HTTPS URL without user information or a fragment"
  | Some u =>
      if negb (String.eqb (u_Scheme u) "https") || String.eqb (u_Hostname u) "" || u_HasUser u ||
         negb (String.eqb (u_Fragment u) "") || negb (String.eqb (u_Opaque u) "")
      then Err "webhook URL must be an absolute HTTPS URL without user information or a fragment"
      else if negb (String.eqb (u_Port u) "") &&
              match Atoi (u_Port u) with Some n => (n <? 1) || (65535 <? n) | None => true end
      then Err "webhook port is invalid"
      else
        let host := trim_dot (ToLower (u_Hostname u)) in
        if ContainsAny host host_break || String.eqb host "localhost" ||
           HasSuffix host ".localhost" || HasSuffix host ".local"
        then Err "webhooks require a public HTTPS destination"
        else match addr_parse host with
             | Some ip => if publicAddress ip then Ok u
                          else Err "webhooks cannot target private, local, or reserved addresses"
             | None => Ok u
             end
  end.

(** [publicAddresses], with the resolver's answer as an argument. *)
Definition publicAddresses (host : string) (lookup : option (list Addr)) : res string (list Addr) :=
  match addr_parse host with
  | Some ip => if publicAddress ip then Ok [Unmap ip] else Err "destination address is not public"
  | None =>
      match lookup with
      | None => Err "webhook DNS resolution failed"
      | Some ips =>
          if (Nat.eqb (length ips) 0) || (64 <? Z.of_nat (length ips))
          then Err "webhook DNS resolution failed"
          else if forallb publicAddress ips then Ok ips
          else Err "webhook DNS includes a non-public address"
      end
  end.

Definition get_wd : M (wstate W) W := fun st => (wd st, st).

Definition LoadAlertState : M (wstate W) (res alert_err PersistentState) :=
  fun st => let '(r, w') := load (wd st) in (r, MkW w' (effects st)).

Definition SaveAlertState (s : PersistentState) : M (wstate W) (res alert_err unit) :=
  fun st => let '(r, w') := save s (wd st) in
            (r, MkW w' (match r with Ok _ => effects st ++ [Saved s] | Err _ => effects st end)%list).

Definition Source_ (rules : list RuleRecord) (now : Z)
    : M (wstate W) (res alert_err (Z -> option Evidence)) :=
  fun st => let '(r, w') := source rules now (wd st) in (r, MkW w' (effects st)).

Definition Send_ (d : destination) (n : Notification) : M (wstate W) bool :=
  fun st => let '(ok, w') := send (dest_URL d) (dest_Token d) n (wd st) in
            (ok, MkW w' (effects st ++ [Sent (dest_URL d) (dest_Token d) n])%list).

Definition Now_ : M (wstate W) Z :=
  fun st => let '(t, w') := clock (wd st) in (t, MkW w' (effects st)).

(** [Manager.destination]. *)
Definition destination_of (s : PersistentState) : M (wstate W) (res alert_err destination) :=
  do w <- get_wd;
  ret (if bool_decide (s_Ciphertext s = []) then Ok (MkDestination "" "")
       else if negb (keys_available w) then Err (EText "notification keyring is unavailable")
       else match unseal (s_Ciphertext s) w with
            | None => Err (EText "notification destination could not be decrypted")
            | Some plain => match parse_destination plain with
                            | None => Err (EText "notification destination is invalid")
                            | Some d => Ok d
                            end
            end).

(** [List]: open incidents, the rules, and the newest hundred incidents. *)
Definition List_ (s : PersistentState) : Z * list RuleRecord * list Incident :=
  (Z.of_nat (length (filter (fun i => i_State i = "firing") (s_Incidents s))), s_Rules s,
   take 100 (rev (s_Incidents s))).

Fixpoint update_rule (id : Z) (f : RuleRecord -> RuleRecord) (l : list RuleRecord) : list RuleRecord :=
  match l with
  | [] => []
  | r :: l' => if r_ID r =? id then f r :: l' else r :: update_rule id f l'
  end.

Definition find_rule (id : Z) (l : list RuleRecord) : option RuleRecord :=
  List.find (fun r => r_ID r =? id) l.

Definition same_config (a b : Config) : bool :=
  String.eqb (c_Name a) (c_Name b) && String.eqb (c_Condition a) (c_Condition b) &&
  (c_DeviceID a =? c_DeviceID b) && f_eqb (c_Threshold a) (c_Threshold b) &&
  (c_HoldSeconds a =? c_HoldSeconds b) && (c_CooldownSeconds a =? c_CooldownSeconds b) &&
  Bool.eqb (c_Enabled a) (c_Enabled b).

Definition fresh_rule (config : Config) (id : Z) (identity : string) (lastNotification : Z) : RuleRecord :=
  MkRule config id (if c_Enabled config then "unknown" else "disabled") None None None
         "Waiting for the next evaluation" identity 0 0 0 lastNotification 0.

(** The state [SaveRule] computes between its load and its save. *)
Definition save_rule_state (s : PersistentState) (id : Z) (config : Config) (identity : string)
    : res alert_err (PersistentState * Z) :=
  let finish s id :=
    Ok (if c_Enabled config then s else cancelQueuedDeliveries s id, id) in
  if id =? 0 then
    if MaxRules <=? Z.of_nat (length (s_Rules s))
    then Err (ErrConflict "a maximum of 50 alert rules is supported")
    else
      let id' := s_NextRuleID s + 1 in
      finish (set_rules (set_next_rule s id') (s_Rules s ++ [fresh_rule config id' identity 0])%list) id'
  else
    match find_rule id (s_Rules s) with
    | None => Err ErrNotFound
    | Some old =>
        if negb (r_IncidentID old =? 0) then
          let p := r_Config old in
          let previous := MkConfig (c_Name p) (c_Condition p) (c_DeviceID p) (c_Threshold p)
                                   (c_HoldSeconds p) (c_CooldownSeconds p) (c_Enabled config) in
          if negb (same_config previous config) || negb (String.eqb (r_TargetIdentity old) identity)
          then Err (ErrConflict "an active rule can be disabled, but its condition cannot be edited until recovery")
          else
            let upd r := rule_state (rule_enabled r (c_Enabled config))
                           (if c_Enabled config then "unknown" else "disabled")
                           (if c_Enabled config then "Waiting for fresh evidence"
                            else "Rule is disabled; the incident has not been marked recovered") in
            finish (set_rules s (update_rule id upd (s_Rules s))) id
        else
          finish (set_rules s (update_rule id (fun r => fresh_rule config id identity (r_LastNotification r))
                                           (s_Rules s))) id
    end.

Definition SaveRule (id : Z) (config : Config) (identity : string) : M (wstate W) (res alert_err Z) :=
  match Validate config with
  | Some e => ret (Err (EText e))
  | None =>
      if String.eqb identity "" then ret (Err (EText "device identity is unavailable"))
      else
        do l <- LoadAlertState;
        match l with
        | Err e => ret (Err e)
        | Ok s =>
            match save_rule_state s id config identity with
            | Err e => ret (Err e)
            | Ok (s', id') =>
                do r <- SaveAlertState s';
                ret (match r with Ok _ => Ok id' | Err e => Err e end)
            end
        end
  end.

Fixpoint remove_rule (id : Z) (l : list RuleRecord) : option (list RuleRecord) :=
  match l with
  | [] => None
  | r :: l' => if r_ID r =? id then Some l'
               else option_map (cons r) (remove_rule id l')
  end.

Definition DeleteRule (id : Z) : M (wstate W) (res alert_err unit) :=
  do l <- LoadAlertState;
  match l with
  | Err e => ret (Err e)
  | Ok s => match remove_rule id (s_Rules s) with
            | None => ret (Err ErrNotFound)
            | Some rules => SaveAlertState (cancelQueuedDeliveries (set_rules s rules) id)
            end
  end.

Record DeliveryRequest := MkDeliveryRequest {
  dr_Enabled : bool;
  dr_URL : option string;
  dr_BearerToken : option string;
}.

Definition zero_delivery : Delivery := MkDelivery false "" false None None "".
Definition disable (d : Delivery) : Delivery :=
  MkDelivery (d_Configured d) (d_Host d) false (d_LastAttemptAt d) (d_LastSuccessAt d) (d_LastError d).

Definition save_and_return (s : PersistentState) : M (wstate W) (res alert_err Delivery) :=
  do r <- SaveAlertState s;
  ret (match r with Ok _ => Ok (s_Delivery s) | Err e => Err e end).

Definition set_destination (s : PersistentState) (request : DeliveryRequest) (d : destination)
    : M (wstate W) (res alert_err Delivery) :=
  if (4096 <? len (dest_Token d)) || ContainsAny (dest_Token d) line_breaks
  then ret (Err (EText "bearer token must be at most 4096 characters without line breaks"))
  else if String.eqb (dest_URL d) "" && dr_Enabled request
  then ret (Err (EText "configure an HTTPS webhook URL before enabling delivery"))
  else if String.eqb (dest_URL d) ""
  then save_and_return (cancelQueuedDeliveries
         (set_delivery s (MkDelivery false "" (dr_Enabled request) None None "") []) 0)
  else match ValidateWebhookURL (dest_URL d) with
       | Err e => ret (Err (EText e))
       | Ok u =>
           do w <- get_wd;
           if negb (keys_available w) then ret (Err (EText "notification keyring is unavailable"))
           else match seal (encode_destination d) w with
                | None => ret (Err (EText "notification destination could not be encrypted"))
                | Some ct =>
                    save_and_return (cancelQueuedDeliveries
                      (set_delivery s (MkDelivery true (u_Hostname u) (dr_Enabled request) None None "") ct) 0)
                end
       end.

Definition SetDelivery (request : DeliveryRequest) : M (wstate W) (res alert_err Delivery) :=
  do l <- LoadAlertState;
  match l with
  | Err e => ret (Err e)
  | Ok s =>
      let clearURL := match dr_URL request with Some u => String.eqb (TrimSpace u) "" | None => false end in
      if negb (dr_Enabled request) &&
         (clearURL || (bool_decide (dr_URL request = None) && bool_decide (dr_BearerToken request = None)))
      then
        let s1 := if clearURL then set_delivery s zero_delivery []
                  else set_delivery s (disable (s_Delivery s)) (s_Ciphertext s) in
        save_and_return (cancelQueuedDeliveries s1 0)
      else
        do r <- destination_of s;
        match r with
        | Err e => ret (Err e)
        | Ok d0 =>
            let d := MkDestination
                       (match dr_URL request with Some u => TrimSpace u | None => dest_URL d0 end)
                       (match dr_BearerToken request with Some t => t | None => dest_Token d0 end) in
            set_destination s request d
        end
  end.

(** ** The periodic tick *)

(** The evaluation loop: [evaluate] gets a pointer to the rule, and touches
    the other fields of the state only. *)
Fixpoint evaluate_all (s : PersistentState) (evidence : Z -> option Evidence) (now : Z)
    (todo done : list RuleRecord) : PersistentState * list RuleRecord :=
  match todo with
  | [] => (s, done)
  | r :: todo' =>
      let e := match evidence (r_ID r) with Some e => e | None => no_evidence end in
      let '(s', r') := evaluate s r e now in
      evaluate_all s' evidence now todo' (done ++ [r'])%list
  end.

(** [Tick] up to its first save. *)
Definition tick_state (s : PersistentState) (evidence : Z -> option Evidence) (now : Z) : PersistentState :=
  let '(s', rules) := evaluate_all s evidence now (s_Rules s) [] in
  prune (set_evaluated (set_rules s' rules) (Some now)).

Definition delivery_failed_text : string :=
  "Webhook delivery failed. Check the public HTTPS endpoint, TLS certificate, authentication and response status.".
Definition delivery_expired_text : string :=
  "Delivery expired or was disabled; no historical replay was sent".

Definition with_attempt (d : Delivery) (t : Z) : Delivery :=
  MkDelivery (d_Configured d) (d_Host d) (d_Enabled d) (Some t) (d_LastSuccessAt d) (d_LastError d).
Definition with_success (d : Delivery) (t : Z) : Delivery :=
  MkDelivery (d_Configured d) (d_Host d) (d_Enabled d) (d_LastAttemptAt d) (Some t) "".
Definition with_error (d : Delivery) (e : string) : Delivery :=
  MkDelivery (d_Configured d) (d_Host d) (d_Enabled d) (d_LastAttemptAt d) (d_LastSuccessAt d) e.

Definition attempted (q : QueuedDelivery) (now : Z) : QueuedDelivery :=
  MkQueued (q_Notification q) (q_Attempts q + 1) (now + 300) (q_ExpiresAt q).

(** The state once the head of the queue has been attempted, is about to be
    sent, and after its sending succeeded or failed. *)
Definition before_send (s : PersistentState) (q : QueuedDelivery) (rest : list QueuedDelivery) (now : Z)
    : PersistentState :=
  set_delivery (set_queue s (attempted q now :: rest)) (with_attempt (s_Delivery s) now) (s_Ciphertext s).
Definition after_success (s : PersistentState) (q : QueuedDelivery) (rest : list QueuedDelivery) (now : Z)
    : PersistentState :=
  set_queue (finishDelivery (set_delivery s (with_success (s_Delivery s) now) (s_Ciphertext s)) q "sent" "") rest.
Definition after_failure (s : PersistentState) (q : QueuedDelivery) (rest : list QueuedDelivery)
    : PersistentState :=
  let s1 := finishDelivery (set_delivery s (with_error (s_Delivery s) delivery_failed_text) (s_Ciphertext s))
                           q "failed" delivery_failed_text in
  if 3 <=? q_Attempts q then set_queue s1 rest else s1.
Definition after_expiry (s : PersistentState) (q : QueuedDelivery) (rest : list QueuedDelivery)
    : PersistentState :=
  set_queue (finishDelivery s q "failed" delivery_expired_text) rest.

(** The delivery loop: at most [budget] queue heads. *)
Fixpoint deliver (budget : nat) (s : PersistentState) (now : Z) : M (wstate W) (res alert_err unit) :=
  match budget, s_Queue s with
  | O, _ | _, [] => ret (Ok tt)
  | S budget', q :: rest =>
      if now <? q_NextAttempt q then ret (Ok tt)
      else if negb (d_Enabled (s_Delivery s)) || (q_ExpiresAt q <? now) || (3 <=? q_Attempts q) then
        let s' := after_expiry s q rest in
        do r <- SaveAlertState s';
        match r with
        | Err e => ret (Err e)
        | Ok _ => deliver budget' s' now
        end
      else
        let q' := attempted q now in
        let s1 := before_send s q rest now in
        do r <- SaveAlertState s1;
        match r with
        | Err e => ret (Err e)
        | Ok _ =>
            do d <- destination_of s1;
            do ok <- match d with
                     | Err _ => ret false
                     | Ok dest => Send_ dest (q_Notification q')
                     end;
            let s2 := if ok : bool then after_success s1 q' rest now else after_failure s1 q' rest in
            do r2 <- SaveAlertState s2;
            match r2 with
            | Err e => ret (Err e)
            | Ok _ => deliver budget' s2 now
            end
        end
  end.

Definition Tick : M (wstate W) (res alert_err unit) :=
  do l <- LoadAlertState;
  match l with
  | Err e => ret (Err e)
  | Ok s =>
      do now <- Now_;
      do ev <- Source_ (s_Rules s) now;
      match ev with
      | Err e => ret (Err e)
      | Ok evidence =>
          let s1 := tick_state s evidence now in
          do r <- SaveAlertState s1;
          match r with
          | Err e => ret (Err e)
          | Ok _ => deliver 2 s1 now
          end
      end
  end.
End Manager.
