(* ===== verification/AlertsSpec.v ===== *)
(** * What the alert manager guarantees

    Theorems about [Alerts]: every operation keeps the persistent state within
    [ValidatePersistentState]; an incident opens only on sustained fresh
    evidence and closes only on a newer observation; the outbox is persisted
    before it is sent and never retried past its bounds; the webhook address
    filter; a tick after the clock stepped back fails. *)

From Stdlib Require Import ZArith Lia Ascii String Floats.SpecFloat.
From stdpp Require Import base gmap list strings.
From S2P Require Import Prelude GoStr F64 Alerts.

Local Open Scope string_scope.
Local Open Scope Z_scope.

(** ** The state check as a proposition *)

Definition ids (s : PersistentState) : list Z := map i_ID (s_Incidents s).

Definition incidents_ok (s : PersistentState) : Prop :=
  Forall (fun i => valid_incident s i = true) (s_Incidents s) /\ NoDup (ids s).

Definition queue_ok (s : PersistentState) : Prop :=
  Forall (fun q => valid_queued s q = true) (s_Queue s) /\ Z.of_nat (length (s_Queue s)) <= 100.

Definition rule_ok (s : PersistentState) (r : RuleRecord) : Prop :=
  valid_rule s r = true /\ (r_IncidentID r = 0 \/ r_IncidentID r ∈ ids s).

Definition rules_ok (s : PersistentState) (rules : list RuleRecord) : Prop :=
  Forall (rule_ok s) rules /\ NoDup (map r_ID rules) /\ Z.of_nat (length rules) <= MaxRules.

Lemma Validate_iff s :
  ValidatePersistentState s = true <->
  incidents_ok s /\ queue_ok s /\ rules_ok s (s_Rules s) /\
  Z.of_nat (length (s_Incidents s)) <= 500 /\
  (0 <= s_NextRuleID s /\ s_NextRuleID s <> maxInt64) /\
  (0 <= s_NextIncidentID s /\ s_NextIncidentID s <> maxInt64) /\ valid_delivery s = true.
Proof.
  unfold ValidatePersistentState, incidents_ok, queue_ok, rules_ok, rule_ok, ids.
  rewrite !andb_true_iff, !forallb_true_iff, !bool_decide_eq_true, !negb_true_iff,
    !Z.leb_le, !Z.eqb_neq, !Forall_forall.
  split.
  - intros H. destruct_and! H. split_and!; try done.
    intros r Hr. split; [by auto|].
    match goal with H : forall x, x ∈ s_Rules s -> (r_IncidentID x =? 0) || _ = true |- _ =>
      specialize (H r Hr) end.
    bool_prop. destruct_or?; bool_prop; auto.
  - intros H. destruct_and! H. split_and!; try done.
    + intros r Hr. by match goal with H : forall x, x ∈ s_Rules s -> _ |- _ => apply H end.
    + intros r Hr. match goal with H : forall x, x ∈ s_Rules s -> _ /\ _ |- _ =>
        destruct (H r Hr) as [_ [->|Hin]] end; [done|].
      rewrite (bool_decide_eq_true_2 _ Hin). apply orb_true_r.
Qed.

(** ** Frames *)

(** Incidents stay valid when the id counters grow. *)
Lemma valid_incident_mono s s' i :
  s_NextIncidentID s <= s_NextIncidentID s' -> s_NextRuleID s <= s_NextRuleID s' ->
  valid_incident s i = true -> valid_incident s' i = true.
Proof.
  intros H1 H2. unfold valid_incident. rewrite !andb_true_iff, !Z.leb_le, !Z.ltb_lt.
  intros H. destruct_and! H. split_and!; try done; lia.
Qed.

Lemma valid_queued_ids s s' q :
  ids s ⊆ ids s' -> valid_queued s q = true -> valid_queued s' q = true.
Proof.
  intros Hi. unfold valid_queued. rewrite !andb_true_iff, !bool_decide_eq_true.
  intros H. destruct_and! H. split_and!; try done. by apply Hi.
Qed.

Lemma valid_rule_frame s s' r :
  s_NextRuleID s <= s_NextRuleID s' -> valid_rule s r = true -> valid_rule s' r = true.
Proof.
  intros H1. unfold valid_rule. rewrite !andb_true_iff, !Z.leb_le.
  intros H. destruct_and! H. split_and!; try done. lia.
Qed.

(** The incident fields that neither delivery nor resolution changes. *)
Definition same_core (i i' : Incident) : Prop :=
  i_ID i' = i_ID i /\ i_RuleID i' = i_RuleID i /\ i_RuleName i' = i_RuleName i /\
  i_DeviceID i' = i_DeviceID i /\ i_DeviceName i' = i_DeviceName i /\
  i_StartedAt i' = i_StartedAt i.

Lemma with_delivery_state_valid s i st e :
  len e <= 512 -> valid_incident s i = true -> valid_incident s (with_delivery_state i st e) = true.
Proof.
  intros He. unfold valid_incident. simpl. rewrite !andb_true_iff, !Z.leb_le.
  intros H. destruct_and! H. by split_and!.
Qed.

Lemma valid_incident_error s i : valid_incident s i = true -> len (i_DeliveryError i) <= 512.
Proof. unfold valid_incident. rewrite !andb_true_iff, !Z.leb_le. intros H. by destruct_and! H. Qed.

(** ** The outbox *)

Lemma queue_frame s i ev now s' i' :
  queue s i ev now = (s', i') ->
  s_Rules s' = s_Rules s /\ s_Incidents s' = s_Incidents s /\ s_Delivery s' = s_Delivery s /\
  s_Ciphertext s' = s_Ciphertext s /\ s_NextRuleID s' = s_NextRuleID s /\
  s_NextIncidentID s' = s_NextIncidentID s /\ s_EvaluatedAt s' = s_EvaluatedAt s /\
  exists st e, i' = with_delivery_state i st e /\ (e = i_DeliveryError i \/ len e <= 512).
Proof.
  unfold queue. intros E. repeat case_match; inv E; split_and!; try done;
    eexists _, _; (split; [reflexivity|]); [by left|right; vm_compute; discriminate..].
Qed.


Definition queued_fields (q : QueuedDelivery) : bool :=
  let n := q_Notification q in
  (String.eqb (n_Event n) "firing" || String.eqb (n_Event n) "resolved") &&
  String.eqb (n_EventID n) (EventID (i_ID (n_Incident n)) (n_Event n)) &&
  (0 <=? q_Attempts q) && (q_Attempts q <=? 3) && (0 <=? q_NextAttempt q) &&
  (n_At n <=? q_ExpiresAt q) && (0 <? n_At n).

Definition queued_id (q : QueuedDelivery) : Z := i_ID (n_Incident (q_Notification q)).

Lemma valid_queued_iff s q :
  valid_queued s q = true <-> queued_id q ∈ ids s /\ queued_fields q = true.
Proof.
  unfold valid_queued, queued_fields. rewrite !andb_true_iff, !bool_decide_eq_true. tauto.
Qed.

Lemma queue_elems s i ev now s' i' q :
  queue s i ev now = (s', i') -> (ev = "firing" \/ ev = "resolved") -> 0 < now ->
  q ∈ s_Queue s' -> q ∈ s_Queue s \/ (queued_id q = i_ID i /\ queued_fields q = true).
Proof.
  unfold queue. intros E Hev Hn Hq. repeat case_match; inv E; simpl in Hq; try (by left).
  apply elem_of_app in Hq as [Hq|Hq]; [by left|]. apply list_elem_of_singleton in Hq as ->.
  right. split; [done|]. unfold queued_fields. simpl. bool_goal; try done; try lia.
  destruct Hev as [->| ->]; done.
Qed.

Lemma queue_length s i ev now s' i' :
  queue s i ev now = (s', i') ->
  Z.of_nat (length (s_Queue s)) <= 100 -> Z.of_nat (length (s_Queue s')) <= 100.
Proof.
  unfold queue. intros E Hl. repeat case_match; inv E; simpl; try done.
  bool_prop. rewrite length_app. simpl. lia.
Qed.

Lemma finish_one_same q st d i : same_core i (finish_one q st d i).
Proof. unfold finish_one, same_core. case_match; done. Qed.

Lemma finish_one_valid s q st d i :
  len d <= 512 -> valid_incident s i = true -> valid_incident s (finish_one q st d i) = true.
Proof. intros Hd Hi. unfold finish_one. case_match; [|done]. by apply with_delivery_state_valid. Qed.

Lemma map_finish_ids q st d l : map i_ID (map (finish_one q st d) l) = map i_ID l.
Proof.
  rewrite map_map. apply map_ext. intros i. by destruct (finish_one_same q st d i) as [-> _].
Qed.

(** ** Resolution *)

Lemma resolve_loop_frame todo : forall s id value now done_ s' out,
  resolve_loop s id value now todo done_ = (s', out) ->
  s_Rules s' = s_Rules s /\ s_Incidents s' = s_Incidents s /\ s_Delivery s' = s_Delivery s /\
  s_Ciphertext s' = s_Ciphertext s /\ s_NextRuleID s' = s_NextRuleID s /\
  s_NextIncidentID s' = s_NextIncidentID s /\ s_EvaluatedAt s' = s_EvaluatedAt s /\
  map i_ID out = (map i_ID done_ ++ map i_ID todo)%list.
Proof.
  induction todo as [|i todo IH]; intros s id value now done_ s' out E; simpl in E.
  - inv E. by rewrite app_nil_r.
  - destruct (negb (i_ID i =? id)).
    + apply IH in E as (?&?&?&?&?&?&?&Ho). split_and!; try done.
      rewrite Ho, map_app, <- app_assoc. done.
    + destruct (queue s _ "resolved" now) as [s1 i1] eqn:Eq.
      destruct (queue_frame _ _ _ _ _ _ Eq) as (?&?&?&?&?&?&?& st & e & -> & _).
      apply IH in E as (?&?&?&?&?&?&?&Ho). split_and!; try congruence.
      rewrite Ho, map_app, <- app_assoc. done.
Qed.

Lemma resolve_incident_valid s i now value :
  valid_incident s i = true -> i_StartedAt i <= now -> is_nan value || is_inf value = false ->
  valid_incident s (resolve_incident i now value) = true.
Proof.
  unfold valid_incident. simpl. rewrite !andb_true_iff, !Z.leb_le, !Z.ltb_lt.
  intros H Hs Hv. destruct_and! H. rewrite Hv. split_and!; try done.
  apply orb_true_iff. left. by apply Z.leb_le.
Qed.

Lemma resolve_loop_valid (P : PersistentState) todo : forall s id value now done_ s' out,
  resolve_loop s id value now todo done_ = (s', out) ->
  is_nan value || is_inf value = false -> 0 < now ->
  Forall (fun i => valid_incident P i = true /\ i_StartedAt i <= now) (done_ ++ todo) ->
  Z.of_nat (length (s_Queue s)) <= 100 ->
  Forall (fun i => valid_incident P i = true /\ i_StartedAt i <= now) out /\
  Z.of_nat (length (s_Queue s')) <= 100 /\
  (forall q, q ∈ s_Queue s' -> q ∈ s_Queue s \/ (queued_id q ∈ map i_ID todo /\ queued_fields q = true)).
Proof.
  induction todo as [|i todo IH]; intros s id value now done_ s' out E Hv Hn Hf Hl; simpl in E.
  - inv E. rewrite app_nil_r in Hf. split_and!; [done|done|]. intros; by left.
  - destruct (negb (i_ID i =? id)).
    + apply IH in E as (Ho & Hl' & Hq); [|done|done|by rewrite <- app_assoc|done].
      split_and!; [done|done|]. intros q Hin. destruct (Hq q Hin) as [?|[? ?]]; [by left|right].
      split; [|done]. simpl. set_solver.
    + destruct (queue s _ "resolved" now) as [s1 i1] eqn:Eq.
      destruct (queue_frame _ _ _ _ _ _ Eq) as (_&_&_&_&_&_&_& st & e & -> & He).
      rewrite Forall_app, Forall_cons in Hf. destruct Hf as (Hd & [Hi Hst] & Ht).
      apply IH in E as (Ho & Hl' & Hq); try done.
      * split_and!; [done|done|]. intros q Hin.
        destruct (Hq q Hin) as [Hq1|[? ?]]; [|right; split; [simpl; set_solver|done]].
        destruct (queue_elems _ _ _ _ _ _ _ Eq ltac:(by right) Hn Hq1) as [?|[Hid ?]]; [by left|].
        right. split; [|done]. rewrite Hid. simpl. set_solver.
      * rewrite <- app_assoc. apply Forall_app. split; [done|].
        constructor; [|done]. simpl. split; [|done].
        apply with_delivery_state_valid; [|by apply resolve_incident_valid].
        destruct He as [->|He]; [|done]. simpl. by eapply valid_incident_error.
      * by eapply queue_length.
Qed.

(** ** Evaluation keeps the state valid *)

Definition core (s : PersistentState) (now : Z) : Prop :=
  incidents_ok s /\ queue_ok s /\ Forall (fun i => i_StartedAt i <= now) (s_Incidents s) /\
  0 <= s_NextIncidentID s.

(** The part of the state evaluation leaves alone. *)
Definition eval_frame (s s' : PersistentState) : Prop :=
  s_Rules s' = s_Rules s /\ s_Delivery s' = s_Delivery s /\ s_Ciphertext s' = s_Ciphertext s /\
  s_NextRuleID s' = s_NextRuleID s /\ ids s ⊆ ids s' /\
  s_NextIncidentID s <= s_NextIncidentID s' <= s_NextIncidentID s + 1.

Lemma eval_frame_refl s : eval_frame s s.
Proof. unfold eval_frame. split_and!; try done; lia. Qed.

Lemma fresh_true known e now : fresh known e now = true ->
  known = true /\ is_nan (e_Value e) || is_inf (e_Value e) = false /\
  0 < e_ObservedAt e <= now /\ now - e_ObservedAt e <= evidence_gap e.
Proof.
  unfold fresh. intros Hf. bool_prop. subst known.
  split_and!; try lia; try done.
  match goal with H1 : is_inf _ = false, H2 : is_nan _ = false |- _ => by rewrite H1, H2 end.
Qed.

Lemma upd_rule_valid s r st re since v ob p le la ln i :
  valid_rule s r = true -> len re <= 512 -> st ∈ state_names -> finite_opt v = true ->
  0 <= p -> 0 <= le -> 0 <= la -> 0 <= ln -> 0 <= i ->
  valid_rule s (upd_rule r st re since v ob p le la ln i) = true.
Proof.
  intros H Hre Hst Hv Hp Hle Hla Hln Hi. unfold valid_rule in *.
  cbn [upd_rule r_Config r_ID r_State r_Value r_Reason r_TargetIdentity r_LastEvidence
       r_LastEvaluation r_PendingSince r_LastNotification r_IncidentID].
  rewrite Hv. bool_prop. bool_goal; (assumption || by apply String.eqb_neq || reflexivity).
Qed.

Lemma valid_rule_facts s r : valid_rule s r = true ->
  Validate (r_Config r) = None /\ 0 < r_ID r <= s_NextRuleID s /\
  0 <= r_LastEvidence r /\ 0 <= r_LastEvaluation r /\ 0 <= r_PendingSince r /\
  0 <= r_LastNotification r /\ 0 <= r_IncidentID r /\ len (r_Reason r) <= 512 /\
  r_State r ∈ state_names /\ finite_opt (r_Value r) = true.
Proof.
  unfold valid_rule. intros H. bool_prop. repeat apply conj; assumption.
Qed.

(** What a valid configuration says about the incident it would open. *)
Lemma Validate_name c : Validate c = None ->
  len (c_Name c) <= 320 /\ 0 < c_DeviceID c /\ 60 <= c_HoldSeconds c /\ 60 <= c_CooldownSeconds c.
Proof.
  unfold Validate. intros H.
  destruct (_ || ContainsAny _ _) eqn:E1; [done|].
  destruct (c_DeviceID c <=? 0) eqn:E2; [done|].
  destruct (_ || (86400 <? _)) eqn:E3; [done|]. destruct (_ || (604800 <? _)) eqn:E4; [done|].
  clear H. bool_prop. pose proof (RuneCount_bytes (c_Name c)). unfold len. lia.
Qed.

Lemma resolve_incidents_valid s id value now :
  core s now -> is_nan value || is_inf value = false -> 0 < now ->
  core (resolve_incidents s id value now) now /\ eval_frame s (resolve_incidents s id value now).
Proof.
  intros ([Hi Hnd] & [Hq Hl] & Hst & Hn) Hv Hnow. unfold resolve_incidents.
  destruct (resolve_loop s id value now (s_Incidents s) []) as [s' out] eqn:E.
  destruct (resolve_loop_frame _ _ _ _ _ _ _ _ E) as (Hr&Hin&Hd&Hc&Hnr&Hni&_&Hids).
  destruct (resolve_loop_valid s _ _ _ _ _ _ _ _ E Hv Hnow) as (Ho & Hl' & Hq'); [|done|].
  { simpl. apply Forall_and. done. }
  apply Forall_and in Ho as [Ho1 Ho2]. simpl in Hids.
  assert (Hsame : ids (set_incidents s' out) = ids s) by (unfold ids; simpl; done).
  split.
  - unfold core, incidents_ok, queue_ok. rewrite Hsame. simpl. rewrite Hni. split_and!; try done.
    + eapply Forall_impl; [exact Ho1|]. intros i. apply valid_incident_mono; simpl; lia.
    + apply Forall_forall. intros q Hqin. apply valid_queued_iff. rewrite Hsame.
      destruct (Hq' q Hqin) as [Hold|Hnew]; [|by unfold ids].
      rewrite Forall_forall in Hq. apply valid_queued_iff. by apply Hq.
  - unfold eval_frame. rewrite Hsame. simpl. split_and!; try done; lia.
Qed.

Lemma open_incident_valid s r e now s' r' :
  open_incident s r e now = (s', r') ->
  core s now -> valid_rule s r = true -> 0 < now -> len (e_DeviceName e) <= 1024 ->
  is_nan (e_Value e) || is_inf (e_Value e) = false ->
  core s' now /\ rule_ok s' r' /\ r_ID r' = r_ID r /\ eval_frame s s'.
Proof.
  intros E ([Hi Hnd] & [Hq Hl] & Hst & Hn) Hr Hnow Hname Hv. unfold open_incident in E.
  destruct (valid_rule_facts _ _ Hr) as (Hcfg&Hid&?&?&?&?&?&?&?&Hfv).
  destruct (Validate_name _ Hcfg) as (Hnm&Hdev&_).
  set (id := s_NextIncidentID s + 1) in *. set (s1 := set_next_incident s id) in *.
  set (inc := MkIncident id _ _ _ _ _ _ _ _ _ _ _) in *.
  assert (Hinc : valid_incident s1 inc = true).
  { unfold valid_incident, inc, s1. simpl. rewrite Hv. bool_goal; try done; lia. }
  assert (Hbound : Forall (fun i => i_ID i <= s_NextIncidentID s) (s_Incidents s)).
  { eapply Forall_impl; [exact Hi|]. intros i Hiv. unfold valid_incident in Hiv.
    rewrite !andb_true_iff, !Z.leb_le in Hiv. lia. }
  assert (Hfresh : id ∉ ids s).
  { intros Hin. apply list_elem_of_fmap in Hin as (i & Hid' & Hin).
    rewrite Forall_forall in Hbound. specialize (Hbound i Hin). lia. }
  assert (Hall : exists s2 i2 nt,
    set_incidents s2 (s_Incidents s2 ++ [i2]) = s' /\
    upd_rule r "firing" "Condition persisted for the configured duration" (r_Since r) (r_Value r)
      (r_ObservedAt r) (r_PendingSince r) (r_LastEvidence r) (r_LastEvaluation r) nt id = r' /\
    s_Rules s2 = s_Rules s /\ s_Incidents s2 = s_Incidents s /\ s_Delivery s2 = s_Delivery s /\
    s_Ciphertext s2 = s_Ciphertext s /\ s_NextRuleID s2 = s_NextRuleID s /\
    s_NextIncidentID s2 = id /\ i_ID i2 = id /\ i_StartedAt i2 = now /\
    valid_incident s1 i2 = true /\ 0 <= nt /\ Z.of_nat (length (s_Queue s2)) <= 100 /\
    (forall q, q ∈ s_Queue s2 -> q ∈ s_Queue s \/ (queued_id q = id /\ queued_fields q = true))).
  { destruct (_ || _).
    - destruct (queue s1 inc "firing" now) as [s2 i2] eqn:Eq.
      destruct (queue_frame _ _ _ _ _ _ Eq) as (?&?&?&?&?&?&_& st & er & -> & Her).
      eexists s2, _, _. injection E as <- <-. split_and!; try done.
      + apply with_delivery_state_valid; [|done]. destruct Her as [->|]; [|done]. vm_compute. done.
      + case_match; lia.
      + by eapply queue_length.
      + intros q Hqin. by eapply (queue_elems _ _ _ _ _ _ q Eq); [left| |].
    - eexists s1, _, _. injection E as <- <-. split_and!; try done.
      intros; by left. }
  clear E. destruct Hall as (s2&i2&nt&<-&<-&Hr2&Hi2&Hd2&Hc2&Hnr2&Hni2&Hid2&Hst2&Hv2&Hnt&Hl2&Hq2).
  assert (Hids' : ids (set_incidents s2 (s_Incidents s2 ++ [i2])) = (ids s ++ [id])%list).
  { unfold ids. simpl. by rewrite Hi2, map_app, <- Hid2. }
  assert (Hmono : forall i, valid_incident s i = true ->
    valid_incident (set_incidents s2 (s_Incidents s2 ++ [i2])) i = true).
  { intros i. apply valid_incident_mono; simpl; lia. }
  set (sf := set_incidents s2 (s_Incidents s2 ++ [i2])) in *.
  assert (Hinc' : incidents_ok sf).
  { split; [|rewrite Hids'; apply NoDup_app; split_and!; [done|set_solver|apply NoDup_singleton]].
    unfold sf. cbn [s_Incidents set_incidents]. rewrite Hi2.
    apply Forall_app. split; [exact (Forall_impl _ _ _ Hi Hmono)|].
    constructor; [|constructor]. revert Hv2. apply valid_incident_mono; simpl; lia. }
  assert (Hqueue' : queue_ok sf).
  { split; [|done]. apply Forall_forall. intros q Hqin. apply valid_queued_iff. rewrite Hids'.
    destruct (Hq2 q Hqin) as [Hold|[-> ?]]; [|split; [set_solver|done]].
    rewrite Forall_forall in Hq. apply Hq, valid_queued_iff in Hold as [? ?].
    split; [set_solver|done]. }
  assert (Hstart' : Forall (fun i => i_StartedAt i <= now) (s_Incidents sf)).
  { unfold sf. cbn [s_Incidents set_incidents]. rewrite Hi2. apply Forall_app.
    split; [done|]. constructor; [lia|constructor]. }
  split; [|split; [|split; [done|]]].
  - unfold core. split; [done|]. split; [done|]. split; [done|]. unfold sf. simpl. lia.
  - split.
    + apply upd_rule_valid; try done; try lia.
      * apply (valid_rule_frame s); [unfold sf; simpl; lia|done].
      * repeat constructor.
    + right. rewrite Hids'. simpl. set_solver.
  - unfold eval_frame. rewrite Hids'. unfold sf. simpl.
    repeat apply conj; try congruence; try lia. set_solver.
Qed.

(** The evidence the source hands out is bounded: names come from device
    records, reasons are the source's own sentences. *)
Definition evidence_bounded (e : Evidence) : Prop :=
  len (e_DeviceName e) <= 1024 /\ len (e_Reason e) <= 512.

Lemma upd_rule_ok s r st re since v ob p le la ln :
  rule_ok s r -> len re <= 512 -> st ∈ state_names -> finite_opt v = true ->
  0 <= p -> 0 <= le -> 0 <= la -> 0 <= ln ->
  rule_ok s (upd_rule r st re since v ob p le la ln (r_IncidentID r)).
Proof.
  intros [Hr Hin] **. destruct (valid_rule_facts _ _ Hr) as (_&_&_&_&_&_&?&_).
  split; [by apply upd_rule_valid|exact Hin].
Qed.

Ltac state_name := solve [repeat (apply elem_of_cons; first [left; reflexivity | right])].

Lemma evaluate_valid s r e now s' r' :
  evaluate s r e now = (s', r') ->
  core s now -> rule_ok s r -> 0 < now -> evidence_bounded e ->
  core s' now /\ rule_ok s' r' /\ r_ID r' = r_ID r /\ eval_frame s s'.
Proof.
  intros E Hc Hr Hnow [Hname Hreason].
  assert (Hr' := Hr). destruct Hr' as [Hv Hin].
  destruct (valid_rule_facts _ _ Hv) as (Hcfg&Hid&?&?&?&?&?&?&?&Hfv).
  unfold evaluate in E.
  destruct (negb (c_Enabled _)).
  { injection E as <- <-. split_and!; [done| |done|by apply eval_frame_refl].
    apply upd_rule_ok; try done; try lia. state_name. }
  set (known := if out_of_range r e then _ else _) in E.
  set (reason := if out_of_range r e then _ else e_Reason e) in E.
  assert (Hre : len reason <= 512).
  { unfold reason. destruct (out_of_range r e); [apply Z.leb_le; vm_compute; reflexivity|exact Hreason]. }
  clearbody reason.
  destruct (fresh known e now) eqn:Hf; simpl negb in E; cbv iota in E; cycle 1.
  { injection E as <- <-. split_and!; [done| |done|by apply eval_frame_refl].
    apply upd_rule_ok; try done; try lia; [|state_name|].
    - destruct (String.eqb reason EmptyString); [apply Z.leb_le; vm_compute; reflexivity|exact Hre].
    - destruct (r_IncidentID r =? 0); lia. }
  destruct (fresh_true _ _ _ Hf) as (_ & Hfin & Hobs & _).
  assert (Hfv' : finite_opt (Some (e_Value e)) = true) by (simpl; by rewrite Hfin).
  destruct (breached r e); simpl negb in E; cbv iota in E; cycle 1.
  { destruct (_ && _) eqn:Hnew in E.
    - injection E as <- <-. split_and!; [done| |done|by apply eval_frame_refl].
      apply upd_rule_ok; try done; try lia. state_name.
    - injection E as <- <-.
      assert (Hs : core (if r_IncidentID r =? 0 then s
                         else resolve_incidents s (r_IncidentID r) (e_Value e) now) now /\
                   eval_frame s (if r_IncidentID r =? 0 then s
                         else resolve_incidents s (r_IncidentID r) (e_Value e) now)).
      { case_match; [split; [done|by apply eval_frame_refl]|by apply resolve_incidents_valid]. }
      destruct Hs as [Hs Hfr]. split_and!; try done. split; [|by left].
      apply upd_rule_valid; try done; try lia; [|state_name].
      apply (valid_rule_frame s); [destruct Hfr as (?&?&?&->&_); lia|done]. }
  destruct (r_IncidentID r =? 0) eqn:Hz; simpl negb in E; cbv iota in E; cycle 1.
  { injection E as <- <-. split_and!; [done| |done|by apply eval_frame_refl].
    apply upd_rule_ok; try done; try lia. state_name. }
  set (pending := if _ || _ then e_ObservedAt e else r_PendingSince r) in E.
  assert (Hp : 0 <= pending) by (unfold pending; destruct (_ || _); lia).
  clearbody pending.
  set (r1 := upd_rule r "pending" _ _ _ _ _ _ _ _ _) in E.
  assert (Hr1 : rule_ok s r1) by (apply upd_rule_ok; try done; try lia; state_name).
  destruct (_ || _) in E.
  - injection E as <- <-. split_and!; [done|done|done|by apply eval_frame_refl].
  - destruct (open_incident_valid _ _ _ _ _ _ E Hc (proj1 Hr1) Hnow Hname Hfin) as (?&?&?&?).
    split_and!; assumption.
Qed.

(** ** The tick keeps the state valid *)

Lemma eval_frame_trans s1 s2 s3 n :
  eval_frame s1 s2 -> eval_frame s2 s3 -> s_NextIncidentID s2 <= s_NextIncidentID s1 + n ->
  s_NextIncidentID s3 <= s_NextIncidentID s1 + n + 1.
Proof. unfold eval_frame. intros. destruct_and!. lia. Qed.

Lemma rule_ok_frame s s' r : eval_frame s s' -> rule_ok s r -> rule_ok s' r.
Proof.
  intros (_&_&_&Hn&Hi&_) [Hv Hin]. split; [apply (valid_rule_frame s); [lia|done]|].
  destruct Hin; [by left|right; by apply Hi].
Qed.

(** What a whole evaluation pass leaves alone; the incident counter grows by at
    most one per rule. *)
Definition pass_frame (n : nat) (s s' : PersistentState) : Prop :=
  s_Rules s' = s_Rules s /\ s_Delivery s' = s_Delivery s /\ s_Ciphertext s' = s_Ciphertext s /\
  s_NextRuleID s' = s_NextRuleID s /\ ids s ⊆ ids s' /\
  s_NextIncidentID s <= s_NextIncidentID s' <= s_NextIncidentID s + Z.of_nat n.

Lemma evaluate_all_valid evidence now todo : forall s done_ s' out,
  evaluate_all s evidence now todo done_ = (s', out) ->
  core s now -> Forall (rule_ok s) (done_ ++ todo) -> 0 < now ->
  (forall id e, evidence id = Some e -> evidence_bounded e) ->
  core s' now /\ Forall (rule_ok s') out /\ pass_frame (length todo) s s' /\
  map r_ID out = (map r_ID done_ ++ map r_ID todo)%list.
Proof.
  induction todo as [|r todo IH]; intros s done_ s' out E Hc Hr Hnow Hev; simpl in E.
  - injection E as <- <-. rewrite app_nil_r in Hr. simpl. rewrite app_nil_r.
    split_and!; try done. unfold pass_frame. split_and!; try done; lia.
  - destruct (evaluate s r _ now) as [s1 r1] eqn:E1.
    apply Forall_app in Hr as [Hd Hr]. apply Forall_cons in Hr as [Hr Ht].
    destruct (evaluate_valid _ _ _ _ _ _ E1 Hc Hr Hnow) as (Hc1 & Hr1 & Hid & Hf).
    { destruct (evidence (r_ID r)) eqn:Ee; [by eapply Hev|split; vm_compute; discriminate]. }
    assert (Hmono : forall l, Forall (rule_ok s) l -> Forall (rule_ok s1) l).
    { intros l. intros Hl. apply (Forall_impl _ _ _ Hl). intros x. by apply rule_ok_frame. }
    apply IH in E as (Hc' & Ho & Hf' & Hids); try done.
    + split; [done|]. split; [done|]. split.
      * unfold pass_frame, eval_frame in *. destruct_and!. simpl length.
        split_and!; try congruence; try lia. by etrans.
      * rewrite Hids, map_app, <- app_assoc. simpl. by rewrite Hid.
    + apply Forall_app. split; [|by apply Hmono]. apply Forall_app. split; [by apply Hmono|].
      by constructor.
Qed.

(** ** History pruning *)

Lemma prune_loop_sublist active l : forall k, prune_loop active k l `sublist_of` l.
Proof.
  induction l as [|i l IH]; intros [|k]; simpl; [constructor..| |].
  - constructor. specialize (IH O). done.
  - case_bool_decide; [by constructor|]. by apply sublist_cons.
Qed.

Lemma prune_loop_active active l i : forall k,
  i ∈ l -> i_ID i ∈ active -> i ∈ prune_loop active k l.
Proof.
  induction l as [|j l IH]; intros [|k] Hi Ha; simpl; [by inv Hi..| |].
  - apply elem_of_cons in Hi as [->|Hi]; [by left|right; by apply IH].
  - apply elem_of_cons in Hi as [->|Hi]; case_bool_decide as Hd; try done; [by left|right|]; by apply IH.
Qed.

Definition inactive (active : list Z) (l : list Incident) : list Incident :=
  filter (fun i => i_ID i ∉ active) l.

Lemma prune_loop_length active l : forall k,
  (k <= length (inactive active l))%nat ->
  (length (prune_loop active k l) + k = length l)%nat.
Proof.
  unfold inactive. induction l as [|i l IH]; intros [|k] Hk; simpl in *; try lia.
  - specialize (IH O). rewrite Nat.add_0_r in *. rewrite IH; lia.
  - rewrite filter_cons in Hk. case_bool_decide as Hd; simpl.
    + rewrite decide_False in Hk by tauto. specialize (IH (S k) Hk). lia.
    + rewrite decide_True in Hk by done. simpl in Hk. specialize (IH k). lia.
Qed.

Lemma inactive_length active l : NoDup (map i_ID l) ->
  (length l <= length (inactive active l) + length active)%nat.
Proof.
  intros Hnd. unfold inactive.
  assert (Hsplit : (length l = length (filter (fun i => i_ID i ∈ active) l) +
                    length (filter (fun i => i_ID i ∉ active) l))%nat).
  { clear. induction l as [|i l IH]; [done|]. rewrite !filter_cons. simpl.
    destruct (decide (i_ID i ∈ active)); [rewrite decide_False by tauto|rewrite decide_True by done];
      simpl; lia. }
  enough (length (filter (fun i => i_ID i ∈ active) l) <= length active)%nat by lia.
  rewrite <- (length_map i_ID).
  apply submseteq_length, NoDup_submseteq.
  - eapply sublist_NoDup; [exact Hnd|]. apply (fmap_sublist i_ID), sublist_filter.
  - intros x Hx. apply list_elem_of_fmap in Hx as (i & -> & Hi).
    by apply list_elem_of_filter in Hi as [? _].
Qed.

Lemma active_ids_length s :
  (length (active_ids s) <= length (s_Rules s) + length (s_Queue s))%nat.
Proof.
  unfold active_ids. rewrite length_app, length_map.
  enough (length (filter (fun id : Z => id <> 0%Z) (map r_IncidentID (s_Rules s))) <= length (s_Rules s))%nat by lia.
  etrans; [apply length_filter|]. by rewrite length_map.
Qed.

Lemma prune_valid s :
  incidents_ok s -> queue_ok s -> rules_ok s (s_Rules s) ->
  incidents_ok (prune s) /\ queue_ok (prune s) /\ rules_ok (prune s) (s_Rules (prune s)) /\
  Z.of_nat (length (s_Incidents (prune s))) <= 500.
Proof.
  intros [Hi Hnd] [Hq Hl] (Hr & Hrn & Hrl). unfold prune.
  destruct (Z.of_nat (length (s_Incidents s)) <=? 500) eqn:E; bool_prop; [by split_and!|].
  set (l' := prune_loop _ _ _).
  assert (Hsub : l' `sublist_of` s_Incidents s) by apply prune_loop_sublist.
  assert (Hkeep : forall id, id ∈ ids s -> id ∈ active_ids s -> id ∈ ids (set_incidents s l')).
  { intros id Hid Ha. unfold ids in *. apply list_elem_of_fmap in Hid as (i & -> & Hin).
    apply list_elem_of_fmap. exists i. split; [done|]. by apply prune_loop_active. }
  unfold incidents_ok, queue_ok, rules_ok. split_and!.
  - simpl. apply Forall_forall. intros i Hin. eapply (valid_incident_mono s); simpl; [lia..|].
    rewrite Forall_forall in Hi. apply Hi. eapply elem_of_sublist; [exact Hin|exact Hsub].
  - unfold ids. simpl. eapply sublist_NoDup; [exact Hnd|]. by apply (fmap_sublist i_ID).
  - simpl. apply Forall_forall. intros q Hin. rewrite Forall_forall in Hq.
    destruct (proj1 (valid_queued_iff _ _) (Hq q Hin)) as [Hid Hf].
    apply valid_queued_iff. split; [|done]. apply Hkeep; [done|].
    unfold active_ids. apply elem_of_app. right. apply list_elem_of_fmap. by exists q.
  - done.
  - simpl. apply Forall_forall. intros r Hin. rewrite Forall_forall in Hr.
    destruct (Hr r Hin) as [Hv Hid]. split; [apply (valid_rule_frame s); simpl; [lia|done]|].
    destruct (decide (r_IncidentID r = 0)); [by left|]. destruct Hid as [|Hid]; [done|].
    right. apply Hkeep; [done|]. unfold active_ids. apply elem_of_app. left.
    apply list_elem_of_filter. split; [done|]. apply list_elem_of_fmap. by exists r.
  - done.
  - done.
  - simpl. pose proof (inactive_length (active_ids s) _ Hnd). pose proof (active_ids_length s).
    unfold MaxRules in Hrl.
    pose proof (prune_loop_length (active_ids s) (s_Incidents s) (length (s_Incidents s) - 500)).
    unfold l'. lia.
Qed.

(** What a tick needs of the state it loads and of the clock: no incident
    starts in the future, and the id counter does not reach its end. *)
Definition tick_ready (s : PersistentState) (now : Z) : Prop :=
  0 < now /\ Forall (fun i => i_StartedAt i <= now) (s_Incidents s) /\
  s_NextIncidentID s + Z.of_nat (length (s_Rules s)) < maxInt64.

Lemma tick_state_ok s evidence now :
  ValidatePersistentState s = true -> tick_ready s now ->
  (forall id e, evidence id = Some e -> evidence_bounded e) ->
  ValidatePersistentState (tick_state s evidence now) = true.
Proof.
  intros Hv (Hnow & Hst & Hmax) Hev.
  apply Validate_iff in Hv as (Hi & Hq & (Hr & Hrn & Hrl) & _ & Hnr & Hni & Hd).
  unfold tick_state. destruct (evaluate_all s evidence now (s_Rules s) []) as [s1 rules] eqn:E.
  destruct (evaluate_all_valid _ _ _ _ _ _ _ E) as (Hc & Hrs & Hf & Hids); try done.
  { unfold core. repeat apply conj; try apply Hi; try apply Hq; try done; lia. }
  destruct Hc as (Hi1 & Hq1 & _ & Hn1). destruct Hf as (Hfr & Hfd & Hfc & Hfn & _ & Hfi).
  simpl in Hids.
  assert (Hlen : length rules = length (s_Rules s)) by (by rewrite <- (length_map r_ID), Hids, length_map).
  set (s2 := set_evaluated (set_rules s1 rules) (Some now)).
  destruct (prune_valid s2) as (Hpi & Hpq & Hpr & Hpl); [exact Hi1|exact Hq1| |].
  { unfold rules_ok. simpl. rewrite Hids, Hlen. done. }
  assert (Hframe : s_NextRuleID (prune s2) = s_NextRuleID s2 /\
                   s_NextIncidentID (prune s2) = s_NextIncidentID s2 /\
                   s_Delivery (prune s2) = s_Delivery s2 /\ s_Ciphertext (prune s2) = s_Ciphertext s2).
  { unfold prune. by destruct (_ <=? _). }
  destruct Hframe as (Hp1 & Hp2 & Hp3 & Hp4).
  apply Validate_iff. split; [exact Hpi|]. split; [exact Hpq|]. split; [exact Hpr|].
  split; [exact Hpl|]. unfold valid_delivery. rewrite Hp1, Hp2, Hp3, Hp4.
  cbn [s2 set_evaluated set_rules s_Rules s_NextRuleID s_NextIncidentID s_Delivery s_Ciphertext].
  rewrite Hfd, Hfc. split; [lia|]. split; [lia|]. exact Hd.
Qed.

(** ** Delivery keeps the state valid *)

Lemma Validate_update s s' :
  ValidatePersistentState s = true ->
  Forall (fun i => valid_incident s' i = true) (s_Incidents s') -> ids s' = ids s ->
  queue_ok s' -> s_Rules s' = s_Rules s -> s_NextRuleID s' = s_NextRuleID s ->
  s_NextIncidentID s' = s_NextIncidentID s -> valid_delivery s' = true ->
  ValidatePersistentState s' = true.
Proof.
  intros Hv Hi Hids Hq Hr Hnr Hni Hd.
  apply Validate_iff in Hv as ([_ Hnd] & _ & (Hrs & Hrn & Hrl) & Hl & Hm1 & Hm2 & _).
  apply Validate_iff. unfold incidents_ok, rules_ok. rewrite Hids, Hr, Hnr, Hni.
  assert (Hlen : length (s_Incidents s') = length (s_Incidents s)).
  { transitivity (length (ids s')); [by unfold ids; rewrite length_map|].
    rewrite Hids. unfold ids. by rewrite length_map. }
  split_and!; try done; try lia; try apply Hq.
  apply Forall_forall. intros r Hin. rewrite Forall_forall in Hrs.
  destruct (Hrs r Hin) as [Hv Hid]. split; [apply (valid_rule_frame s); [lia|done]|]. by rewrite Hids.
Qed.

Lemma finishDelivery_ok s q st detail :
  ValidatePersistentState s = true -> len detail <= 512 ->
  ValidatePersistentState (finishDelivery s q st detail) = true.
Proof.
  intros Hv Hd. assert (Hv' := Hv). apply Validate_iff in Hv' as ([Hi Hnd] & [Hq Hl] & _ & _ & _ & _ & Hdel).
  assert (Hids : ids (finishDelivery s q st detail) = ids s) by apply map_finish_ids.
  apply (Validate_update s); try done.
  - simpl. apply Forall_map. apply (Forall_impl _ _ _ Hi). intros i Hiv. by apply finish_one_valid.
  - split; [|done]. apply (Forall_impl _ _ _ Hq). intros x Hx. apply valid_queued_iff.
    rewrite Hids. by apply valid_queued_iff.
Qed.

Lemma set_queue_ok s l :
  ValidatePersistentState s = true -> Forall (fun q => valid_queued s q = true) l ->
  Z.of_nat (length l) <= 100 -> ValidatePersistentState (set_queue s l) = true.
Proof.
  intros Hv Hf Hl. assert (Hv' := Hv). apply Validate_iff in Hv' as ([Hi _] & _ & _ & _ & _ & _ & Hd).
  by apply (Validate_update s).
Qed.

Lemma set_delivery_ok s d c :
  ValidatePersistentState s = true -> valid_delivery (set_delivery s d c) = true ->
  ValidatePersistentState (set_delivery s d c) = true.
Proof.
  intros Hv Hd. assert (Hv' := Hv). apply Validate_iff in Hv' as ([Hi _] & [Hq Hl] & _ & _ & _ & _ & _).
  by apply (Validate_update s).
Qed.

Lemma queue_facts s : ValidatePersistentState s = true ->
  Forall (fun q => valid_queued s q = true) (s_Queue s) /\ Z.of_nat (length (s_Queue s)) <= 100 /\
  valid_delivery s = true.
Proof. intros Hv. by apply Validate_iff in Hv as (_ & [? ?] & _ & _ & _ & _ & ?). Qed.

Lemma delivery_with_ok s d : valid_delivery s = true ->
  d_Configured d = d_Configured (s_Delivery s) -> d_Enabled d = d_Enabled (s_Delivery s) ->
  d_Host d = d_Host (s_Delivery s) -> len (d_LastError d) <= 512 ->
  valid_delivery (set_delivery s d (s_Ciphertext s)) = true.
Proof.
  unfold valid_delivery. simpl. intros Hv -> -> -> He.
  apply andb_true_iff in Hv as [Hv _]. apply andb_true_iff. split; [exact Hv|by apply Z.leb_le].
Qed.

Lemma delivery_error_len s : valid_delivery s = true -> len (d_LastError (s_Delivery s)) <= 512.
Proof. unfold valid_delivery. intros Hv. bool_prop. assumption. Qed.

Section Delivery.
Variables (s : PersistentState) (q : QueuedDelivery) (rest : list QueuedDelivery) (now : Z).
Hypothesis Hv : ValidatePersistentState s = true.
Hypothesis Hq : s_Queue s = q :: rest.

Lemma after_expiry_ok : ValidatePersistentState (after_expiry s q rest) = true.
Proof.
  destruct (queue_facts s Hv) as (Hf & Hl & _). rewrite Hq in Hf, Hl.
  apply Forall_cons in Hf as [_ Hf]. cbn [length] in Hl.
  unfold after_expiry. apply set_queue_ok; [|apply (Forall_impl _ _ _ Hf)|lia].
  - apply finishDelivery_ok; [done|by apply Z.leb_le].
  - intros x. apply valid_queued_ids. unfold ids. simpl. by rewrite map_finish_ids.
Qed.

Lemma before_send_ok : 0 < now -> q_Attempts q < 3 ->
  ValidatePersistentState (before_send s q rest now) = true.
Proof.
  intros Hn Ha. destruct (queue_facts s Hv) as (Hf & Hl & Hd). rewrite Hq in Hf, Hl.
  assert (Hf0 := Hf). apply Forall_cons in Hf as [Hh Hf]. unfold before_send.
  apply set_delivery_ok.
  - apply set_queue_ok; [done| |by simpl in *].
    constructor; [|done]. revert Hh. rewrite !valid_queued_iff. intros [Hid Hflds].
    split; [done|]. revert Hflds. unfold queued_fields, attempted. simpl. intros Hflds.
    rewrite !andb_true_iff, !Z.leb_le, !Z.ltb_lt in *. destruct_and! Hflds.
    repeat apply conj; (assumption || lia).
  - apply (delivery_with_ok (set_queue s (attempted q now :: rest))); try done.
    by apply delivery_error_len.
Qed.

Lemma after_success_ok : ValidatePersistentState (after_success s q rest now) = true.
Proof.
  destruct (queue_facts s Hv) as (Hf & Hl & Hd). rewrite Hq in Hf, Hl.
  apply Forall_cons in Hf as [_ Hf]. cbn [length] in Hl. unfold after_success.
  apply set_queue_ok; [|apply (Forall_impl _ _ _ Hf)|lia].
  - apply finishDelivery_ok; [|by apply Z.leb_le]. apply set_delivery_ok; [done|].
    apply delivery_with_ok; try done; by apply Z.leb_le.
  - intros x. apply valid_queued_ids. unfold ids. simpl. by rewrite map_finish_ids.
Qed.

Lemma after_failure_ok : ValidatePersistentState (after_failure s q rest) = true.
Proof.
  destruct (queue_facts s Hv) as (Hf & Hl & Hd). rewrite Hq in Hf, Hl.
  apply Forall_cons in Hf as [_ Hf]. cbn [length] in Hl. unfold after_failure.
  set (s1 := finishDelivery _ _ _ _).
  assert (Hs1 : ValidatePersistentState s1 = true).
  { apply finishDelivery_ok; [|by apply Z.leb_le]. apply set_delivery_ok; [done|].
    apply delivery_with_ok; try done; by apply Z.leb_le. }
  destruct (3 <=? q_Attempts q); [|done].
  apply set_queue_ok; [done|apply (Forall_impl _ _ _ Hf)|lia].
  intros x. apply valid_queued_ids. unfold ids, s1. simpl. by rewrite map_finish_ids.
Qed.
End Delivery.

(** ** What a tick does to the outside *)

Definition saved_valid (e : effect) : Prop :=
  match e with Saved s => ValidatePersistentState s = true | Sent _ _ _ => True end.

(** The state last made durable before a notification leaves names that
    notification at the head of its queue, counts this attempt, and is within
    the delivery's bounds. *)
Definition durable_head (now : Z) (last : option effect) (n : Notification) : Prop :=
  exists s q rest, last = Some (Saved s) /\ s_Queue s = q :: rest /\ q_Notification q = n /\
    1 <= q_Attempts q <= 3 /\ now <= q_ExpiresAt q /\ now < q_NextAttempt q /\
    d_Enabled (s_Delivery s) = true /\ d_LastAttemptAt (s_Delivery s) = Some now.

Fixpoint sends_durable (now : Z) (last_ : option effect) (tr : list effect) : Prop :=
  match tr with
  | [] => True
  | e :: tr' => match e with Saved _ => True | Sent _ _ n => durable_head now last_ n end /\
                sends_durable now (Some e) tr'
  end.

Definition is_sent (e : effect) : bool := match e with Sent _ _ _ => true | Saved _ => false end.
Definition sends (tr : list effect) : nat := length (List.filter is_sent tr).

Section TickEffects.
Context {W : Type} `{AlertWorld W}.

Lemma SaveAlertState_effects s st r st' : SaveAlertState s st = (r, st') ->
  effects st' = (effects st ++ match r with Ok _ => [Saved s] | Err _ => [] end)%list.
Proof.
  unfold SaveAlertState. destruct (save s (wd st)) as [[?|?] w]; intros [= <- <-]; simpl; [done|].
  by rewrite app_nil_r.
Qed.

Lemma destination_of_state s st : snd (destination_of s st) = st.
Proof. unfold destination_of. cbv beta delta [bind ret get_wd]. done. Qed.

Definition good_trace (now : Z) (budget : nat) (last_ : option effect) (tr : list effect) : Prop :=
  Forall saved_valid tr /\ sends_durable now last_ tr /\ (sends tr <= budget)%nat.

(** One round of the loop extends a good trace of the remaining rounds. *)
Lemma good_saved now budget last_ s tr :
  ValidatePersistentState s = true -> good_trace now budget (Some (Saved s)) tr ->
  good_trace now budget last_ (Saved s :: tr).
Proof. intros Hs (Hf & Hd & Hn). split; [by constructor|]. by split. Qed.

Lemma good_sent now budget s u t n tr :
  durable_head now (Some (Saved s)) n -> good_trace now budget (Some (Sent u t n)) tr ->
  good_trace now (S budget) (Some (Saved s)) (Sent u t n :: tr).
Proof.
  intros Hh (Hf & Hd & Hn). split; [by constructor|]. split; [done|].
  unfold sends in *. simpl. lia.
Qed.

Lemma good_weaken now b b' last_ tr : (b <= b')%nat ->
  good_trace now b last_ tr -> good_trace now b' last_ tr.
Proof. intros Hb (? & ? & ?). split; [done|]. split; [done|lia]. Qed.

Lemma good_nil now b last_ : good_trace now b last_ [].
Proof. split; [constructor|]. split; [done|unfold sends; simpl; lia]. Qed.

Lemma send_effects (d : res alert_err destination) n st ok st' :
  match d with Err _ => ret false | Ok dest => Send_ dest n end st = (ok, st') ->
  exists tr, effects st' = (effects st ++ tr)%list /\ (tr = [] \/ exists u t, tr = [Sent u t n]).
Proof.
  destruct d as [[u t]|?].
  - unfold Send_. destruct (send _ _ _ _) as [o w]. intros [= <- <-].
    exists [Sent u t n]. split; [done|right; by eauto].
  - intros [= <- <-]. exists []. rewrite app_nil_r. by auto.
Qed.

Lemma save_effects s st r st' : SaveAlertState s st = (r, st') ->
  match r with
  | Ok _ => effects st' = (effects st ++ [Saved s])%list
  | Err _ => effects st' = effects st
  end.
Proof.
  intros E. apply SaveAlertState_effects in E. destruct r; [done|by rewrite app_nil_r in E].
Qed.

Lemma no_effects now b l (st st' : wstate W) : effects st' = effects st ->
  exists tr, effects st' = (effects st ++ tr)%list /\ good_trace now b l tr.
Proof. intros E. exists []. rewrite app_nil_r. split; [done|apply good_nil]. Qed.

Lemma attempted_durable s q rest now :
  valid_queued s q = true -> q_Attempts q < 3 -> now <= q_ExpiresAt q ->
  d_Enabled (s_Delivery s) = true ->
  durable_head now (Some (Saved (before_send s q rest now))) (q_Notification q).
Proof.
  intros Hv Ha He Hd. apply valid_queued_iff in Hv as [_ Hf]. unfold queued_fields in Hf. bool_prop.
  exists (before_send s q rest now), (attempted q now), rest. simpl. split_and!; try done; lia.
Qed.

(** The loop from a valid state: every state it saves is valid, and every
    notification it sends is durable first. *)
Lemma deliver_trace budget : forall s now st r st' last_,
  deliver budget s now st = (r, st') -> ValidatePersistentState s = true -> 0 < now ->
  exists tr, effects st' = (effects st ++ tr)%list /\ good_trace now budget last_ tr.
Proof.
  induction budget as [|budget IH]; intros s now st r st' last_ E Hv Hn; simpl in E;
    [by injection E as <- <-; apply no_effects|].
  destruct (s_Queue s) as [|q rest] eqn:Hq; [by injection E as <- <-; apply no_effects|].
  destruct (now <? q_NextAttempt q); [by injection E as <- <-; apply no_effects|].
  destruct (_ || (3 <=? q_Attempts q)) eqn:Hb; bool_prop; apply bind_inv in E as (r1 & st1 & E1 & E);
    apply save_effects in E1; (destruct r1 as [[]|er]; [|injection E as <- <-; by apply no_effects]).
  - (* expired, disabled or exhausted *)
    destruct (IH _ _ _ _ _ (Some (Saved (after_expiry s q rest))) E) as (tr & Htr & Hg);
      [by apply after_expiry_ok|done|].
    exists (Saved (after_expiry s q rest) :: tr). rewrite Htr, E1, <- app_assoc.
    split; [done|]. apply good_saved; [by apply after_expiry_ok|]. by apply (good_weaken _ budget); [lia|].
  - (* attempted *)
    set (s1 := before_send s q rest now) in *.
    assert (Hv1 : ValidatePersistentState s1 = true) by (apply before_send_ok; (done || lia)).
    apply bind_inv in E as (d & st2 & Ed & E). pose proof (destination_of_state s1 st1) as Hd.
    rewrite Ed in Hd. simpl in Hd. subst st2.
    apply bind_inv in E as (ok & st3 & Es & E). apply send_effects in Es as (tr0 & Ht0 & Hshape).
    set (s2 := if ok then _ else _) in E.
    assert (Hv2 : ValidatePersistentState s2 = true).
    { unfold s2. destruct ok; [by apply after_success_ok|by apply after_failure_ok]. }
    apply bind_inv in E as (r2 & st4 & E2 & E). apply save_effects in E2.
    assert (Hrest : exists tr, effects st' = (effects st3 ++ tr)%list /\
                               forall l, good_trace now budget l tr).
    { destruct r2 as [[]|er].
      - destruct (IH _ _ _ _ _ (Some (Saved s2)) E Hv2 Hn) as (tr & Htr & Hg).
        exists (Saved s2 :: tr). rewrite Htr, E2, <- app_assoc. split; [done|].
        intros l. by apply good_saved.
      - injection E as <- <-. exists []. rewrite E2, app_nil_r. split; [done|].
        intros l; apply good_nil. }
    destruct Hrest as (tr & Htr & Hg). exists (Saved s1 :: tr0 ++ tr).
    split; [by rewrite Htr, Ht0, E1, <- !app_assoc|].
    destruct (queue_facts s Hv) as (Hqf & _ & _). rewrite Hq in Hqf. apply Forall_cons in Hqf as [Hqv _].
    apply good_saved; [done|]. destruct Hshape as [->|(u & t & ->)]; simpl.
    + apply (good_weaken _ budget); [lia|done].
    + apply good_sent; [|done]. apply attempted_durable; (done || lia).
Qed.
End TickEffects.

(** ** Evaluation over time *)

(** One evaluation's input: the evidence and the clock. *)
Definition observation : Type := Evidence * Z.

Definition breaching (r : RuleRecord) (o : observation) : bool :=
  fresh (if out_of_range r (fst o) then false else e_Known (fst o)) (fst o) (snd o) && breached r (fst o).

(** Two evaluations close enough for the second to continue the first. *)
Definition linked (a b : observation) : Prop :=
  0 <= snd b - snd a <= 120 /\
  0 <= e_ObservedAt (fst b) - e_ObservedAt (fst a) <= evidence_gap (fst b).

Fixpoint chained (l : list observation) : Prop :=
  match l with
  | a :: ((b :: _) as l') => linked a b /\ chained l'
  | _ => True
  end.

(** The observations span at least [hold] seconds. *)
Definition spans (hold : Z) (l : list observation) : Prop :=
  exists a b, head l = Some a /\ last l = Some b /\
              hold <= e_ObservedAt (fst b) - e_ObservedAt (fst a).

Fixpoint evaluate_seq (s : PersistentState) (r : RuleRecord) (l : list observation)
    : PersistentState * RuleRecord :=
  match l with
  | [] => (s, r)
  | (e, now) :: l' => let '(s', r') := evaluate s r e now in evaluate_seq s' r' l'
  end.

Lemma chained_snoc l a b : chained (l ++ [a]) -> linked a b -> chained ((l ++ [a]) ++ [b]).
Proof.
  induction l as [|x l IH]; intros Hc Hl; simpl; [done|].
  destruct l as [|y l]; simpl in *; [tauto|]. destruct Hc. split; [done|]. by apply IH.
Qed.

(** A pending rule has watched a chain of breaching observations since
    [PendingSince]. *)
Definition watched (r0 : RuleRecord) (hist : list observation) (r : RuleRecord) : Prop :=
  r_IncidentID r = 0 -> r_PendingSince r <> 0 ->
  exists pre mid a b, hist = (pre ++ (mid ++ [b]))%list /\
    head (mid ++ [b]) = Some a /\ e_ObservedAt (fst a) = r_PendingSince r /\
    e_ObservedAt (fst b) = r_LastEvidence r /\ snd b = r_LastEvaluation r /\
    Forall (fun o => breaching r0 o = true) (mid ++ [b]) /\ chained (mid ++ [b]).

Lemma evaluate_config s r e now : r_Config (snd (evaluate s r e now)) = r_Config r.
Proof.
  unfold evaluate, open_incident. repeat (case_match; simplify_eq; try done).
Qed.

Lemma breaching_config r r' o : r_Config r = r_Config r' -> breaching r o = breaching r' o.
Proof. unfold breaching, breached, out_of_range. by intros ->. Qed.

(** The [pending] branch extends the chain or starts a new one. *)
Definition pending_since (r : RuleRecord) (e : Evidence) (now : Z) : Z :=
  if negb ((0 <? r_LastEvaluation r) && (now - r_LastEvaluation r <=? 120) && (r_LastEvaluation r <=? now)) ||
     (r_PendingSince r =? 0) || (evidence_gap e <? e_ObservedAt e - r_LastEvidence r) ||
     (e_ObservedAt e <? r_LastEvidence r)
  then e_ObservedAt e else r_PendingSince r.

Lemma watched_extend r0 hist r e now :
  watched r0 hist r -> r_IncidentID r = 0 -> r_Config r = r_Config r0 ->
  breaching r (e, now) = true ->
  exists pre mid a, (hist ++ [(e, now)])%list = (pre ++ (mid ++ [(e, now)]))%list /\
    head (mid ++ [(e, now)]) = Some a /\ e_ObservedAt (fst a) = pending_since r e now /\
    Forall (fun o => breaching r0 o = true) (mid ++ [(e, now)]) /\ chained (mid ++ [(e, now)]).
Proof.
  intros Hw Hi Hc Hb. rewrite (breaching_config r r0) in Hb by done. unfold pending_since.
  destruct (_ || (e_ObservedAt e <? r_LastEvidence r)) eqn:Hnew.
  - exists hist, [], (e, now). split_and!; try done. by repeat constructor.
  - bool_prop. destruct (Hw Hi) as (pre & mid & a & b & -> & Hh & Ha & Hb1 & Hb2 & Hf & Hch); [done|].
    exists pre, (mid ++ [b])%list, a. split_and!.
    + by rewrite <- app_assoc.
    + destruct mid; simpl in *; done.
    + done.
    + apply Forall_app. split; [done|by constructor].
    + apply chained_snoc; [done|]. unfold linked. simpl. lia.
Qed.

(** What one evaluation does to a rule without an incident. *)
Lemma evaluate_pending s r e now :
  r_IncidentID r = 0 -> c_Enabled (r_Config r) = true -> 0 < c_HoldSeconds (r_Config r) ->
  let r' := snd (evaluate s r e now) in
  (r_IncidentID r' = 0 /\ r_PendingSince r' = 0) \/
  (breaching r (e, now) = true /\ r_PendingSince r' = pending_since r e now /\
   r_LastEvidence r' = e_ObservedAt e /\ r_LastEvaluation r' = now /\
   (r_IncidentID r' <> 0 -> c_HoldSeconds (r_Config r) <= e_ObservedAt e - pending_since r e now)).
Proof.
  intros Hi He Hh. unfold evaluate, breaching. simpl fst; simpl snd. rewrite He, Hi.
  simpl negb. cbv iota.
  destruct (fresh _ e now) eqn:Hf; simpl negb; cbv iota; [|left; by simpl].
  destruct (breached r e) eqn:Hb; simpl negb; cbv iota; [|left; by simpl].
  right. simpl andb. fold (pending_since r e now).
  destruct (_ || _) eqn:Hopen; simpl.
  - split_and!; try done.
  - bool_prop. unfold open_incident. split; [done|]. repeat case_match; simpl; split_and!; done.
Qed.

Lemma evaluate_active s r e now :
  r_IncidentID r <> 0 -> c_Enabled (r_Config r) = true ->
  let r' := snd (evaluate s r e now) in
  r_IncidentID r' = r_IncidentID r \/ (r_IncidentID r' = 0 /\ r_PendingSince r' = 0).
Proof.
  intros Hi He. unfold evaluate. rewrite He. apply Z.eqb_neq in Hi. rewrite Hi. simpl.
  destruct (fresh _ e now); simpl; [|by left].
  destruct (breached r e); simpl; [by left|]. destruct (_ <=? _); simpl; [by left|by right].
Qed.

Lemma watched_step r0 hist s r e now :
  watched r0 hist r -> r_Config r = r_Config r0 ->
  c_Enabled (r_Config r0) = true -> 0 < c_HoldSeconds (r_Config r0) ->
  watched r0 (hist ++ [(e, now)]) (snd (evaluate s r e now)).
Proof.
  intros Hw Hc He Hh. rewrite <- Hc in He, Hh. intros Hi Hp.
  destruct (decide (r_IncidentID r = 0)) as [Hz|Hz].
  - destruct (evaluate_pending s r e now Hz He Hh) as [[_ ?]|(Hb & Hps & Hle & Hla & _)]; [done|].
    destruct (watched_extend r0 hist r e now Hw Hz Hc Hb) as (pre & mid & a & -> & Hhd & Ha & Hf & Hch).
    exists pre, mid, a, (e, now). split_and!; try done; congruence.
  - destruct (evaluate_active s r e now Hz He) as [?|[? ?]]; congruence.
Qed.

Lemma watched_seq r0 l : forall s r hist,
  watched r0 hist r -> r_Config r = r_Config r0 ->
  c_Enabled (r_Config r0) = true -> 0 < c_HoldSeconds (r_Config r0) ->
  watched r0 (hist ++ l) (snd (evaluate_seq s r l)) /\
  r_Config (snd (evaluate_seq s r l)) = r_Config r0.
Proof.
  induction l as [|[e now] l IH]; intros s r hist Hw Hc He Hh; simpl; [by rewrite app_nil_r|].
  pose proof (watched_step r0 hist s r e now Hw Hc He Hh) as Hw'.
  pose proof (evaluate_config s r e now) as Hc'.
  destruct (evaluate s r e now) as [s' r']. simpl in *.
  destruct (IH s' r' (hist ++ [(e, now)])%list Hw' ltac:(congruence) He Hh) as [Hw2 Hc2].
  rewrite <- app_assoc in Hw2. by split.
Qed.

(** What resolving does to one incident. *)
Definition resolved_or_same (id now : Z) (value : f64) (i i' : Incident) : Prop :=
  if i_ID i =? id
  then same_core i i' /\ i_State i' = "resolved" /\ i_ResolvedAt i' = Some now /\ i_Value i' = Some value
  else i' = i.

Lemma resolve_loop_pointwise todo : forall s id value now done_ s' out,
  resolve_loop s id value now todo done_ = (s', out) ->
  exists out', out = (done_ ++ out')%list /\ Forall2 (resolved_or_same id now value) todo out'.
Proof.
  induction todo as [|i todo IH]; intros s id value now done_ s' out E; simpl in E.
  - injection E as <- <-. exists []. by rewrite app_nil_r.
  - destruct (negb (i_ID i =? id)) eqn:Hid.
    + apply IH in E as (out' & -> & Hf). exists (i :: out'). rewrite <- app_assoc.
      split; [done|]. constructor; [|done]. unfold resolved_or_same. bool_prop.
      by destruct (Z.eqb_spec (i_ID i) id).
    + destruct (queue s _ "resolved" now) as [s1 i1] eqn:Eq.
      destruct (queue_frame _ _ _ _ _ _ Eq) as (_&_&_&_&_&_&_& st & er & -> & _).
      apply IH in E as (out' & -> & Hf). eexists (_ :: out'). rewrite <- app_assoc.
      split; [done|]. constructor; [|done]. unfold resolved_or_same. bool_prop.
      destruct (Z.eqb_spec (i_ID i) id); [|done]. split_and!; try done.
Qed.

(** ** A clock that steps back *)

Lemma Forall2_member {A B} (R : A -> B -> Prop) l l' x : Forall2 R l l' -> x ∈ l -> exists y, y ∈ l' /\ R x y.
Proof.
  intros Hf (k & Hk)%list_elem_of_lookup. destruct (Forall2_lookup_l _ _ _ _ _ Hf Hk) as (y & Hy & Hr).
  exists y. split; [by eapply list_elem_of_lookup_2|done].
Qed.

(** The rule's evidence clears it while its incident is open. *)
Definition recovering (r : RuleRecord) (e : Evidence) (now : Z) : Prop :=
  c_Enabled (r_Config r) = true /\ r_IncidentID r <> 0 /\ out_of_range r e = false /\ fresh (e_Known e) e now = true /\
  breached r e = false /\ r_LastEvidence r < e_ObservedAt e.
(** An incident that starts after the clock, and one that is resolved before
    its start. *)
Definition starts_late (id now : Z) (i : Incident) : Prop := i_ID i = id /\ now < i_StartedAt i.
Definition resolved_early (now : Z) (i : Incident) : Prop :=
  now < i_StartedAt i /\ i_State i = "resolved" /\ i_ResolvedAt i = Some now.

Lemma evaluate_incidents s r e now s' r' : evaluate s r e now = (s', r') ->
  s_Incidents s' = s_Incidents s \/ (exists i, s_Incidents s' = (s_Incidents s ++ [i])%list) \/
  Forall2 (resolved_or_same (r_IncidentID r) now (e_Value e)) (s_Incidents s) (s_Incidents s').
Proof.
  intros E. unfold evaluate in E. destruct (negb (c_Enabled _)); [injection E as <- _; by left|].
  destruct (negb (fresh _ _ _)); [injection E as <- _; by left|].
  destruct (negb (breached r e)).
  - destruct (_ && _); injection E as <- _; [by left|]. destruct (r_IncidentID r =? 0); [by left|]. right. right.
    unfold resolve_incidents. destruct (resolve_loop _ _ _ _ _ []) as [s1 out] eqn:El.
    by destruct (resolve_loop_pointwise _ _ _ _ _ _ _ _ El) as (out' & -> & Hf).
  - destruct (negb _); [injection E as <- _; by left|]. destruct (_ || _); [injection E as <- _; by left|].
    right. left. unfold open_incident in E. destruct (_ || _).
    + destruct (queue _ _ _ _) as [s2 i] eqn:Eq. injection E as <- _. exists i.
      destruct (queue_frame _ _ _ _ _ _ Eq) as (_ & Hi & _). cbn [set_incidents s_Incidents]. by rewrite Hi.
    + injection E as <- _. eexists. reflexivity.
Qed.

(** Evaluation forgets no incident, and keeps its start; at most one is added. *)
Lemma evaluate_keeps (P : Incident -> Prop) s r e now s' r' :
  (forall id value i i', P i -> resolved_or_same id now value i i' -> P i') -> evaluate s r e now = (s', r') ->
  (exists i, i ∈ s_Incidents s /\ P i) -> exists i, i ∈ s_Incidents s' /\ P i.
Proof.
  intros HP E (i & Hi & Hp). destruct (evaluate_incidents _ _ _ _ _ _ E) as [Es|[(x & Es)|Hf]].
  - exists i. by rewrite Es.
  - exists i. rewrite Es, elem_of_app. auto.
  - destruct (Forall2_member _ _ _ _ Hf Hi) as (i' & Hi' & Hr). exists i'. split; [done|by eapply HP].
Qed.
Lemma evaluate_length s r e now s' r' : evaluate s r e now = (s', r') ->
  (length (s_Incidents s') <= length (s_Incidents s) + 1)%nat.
Proof.
  intros E. destruct (evaluate_incidents _ _ _ _ _ _ E) as [->|[(x & ->)|Hf]]; [lia|rewrite length_app; simpl; lia|].
  apply Forall2_length in Hf. lia.
Qed.

Lemma starts_late_kept id now value k i i' : starts_late id now i -> resolved_or_same k now value i i' -> starts_late id now i'.
Proof. unfold resolved_or_same. intros [Hi Hs]. destruct (_ =? _); [intros [(E1 & _ & _ & _ & _ & E2) _]; split; congruence|by intros ->]. Qed.
Lemma resolved_early_kept now value k i i' : resolved_early now i -> resolved_or_same k now value i i' -> resolved_early now i'.
Proof.
  unfold resolved_or_same. intros (Hs & Hst & Ht). destruct (_ =? _); [|by intros ->].
  intros ((_ & _ & _ & _ & _ & Hst') & H1 & H2 & _). split_and!; [lia|done|done].
Qed.
Lemma recovering_resolves s r e now s' r' : evaluate s r e now = (s', r') -> recovering r e now ->
  (exists i, i ∈ s_Incidents s /\ starts_late (r_IncidentID r) now i) -> exists i, i ∈ s_Incidents s' /\ resolved_early now i.
Proof.
  intros E (He & Hid & Ho & Hf & Hb & Hn) (i & Hi & Hk & Hs). unfold evaluate in E. apply Z.eqb_neq in Hid.
  rewrite He, Ho, Hf, Hb, Hid, (proj2 (Z.leb_gt _ _)) in E by lia. cbn in E. injection E as <- _.
  unfold resolve_incidents. destruct (resolve_loop _ _ _ _ _ []) as [s1 out] eqn:El.
  destruct (resolve_loop_pointwise _ _ _ _ _ _ _ _ El) as (out' & -> & Hf2). cbn [set_incidents s_Incidents app].
  destruct (Forall2_member _ _ _ _ Hf2 Hi) as (i' & Hi' & Hr). exists i'. split; [done|].
  unfold resolved_or_same in Hr. rewrite Hk, Z.eqb_refl in Hr. destruct Hr as ((_ & _ & _ & _ & _ & Hst) & H1 & H2 & _).
  split_and!; [lia|done|done].
Qed.

Lemma evaluate_all_keeps (P : Incident -> Prop) evidence now todo :
  (forall id value i i', P i -> resolved_or_same id now value i i' -> P i') -> forall s done_ s' out,
  evaluate_all s evidence now todo done_ = (s', out) ->
  (exists i, i ∈ s_Incidents s /\ P i) -> exists i, i ∈ s_Incidents s' /\ P i.
Proof.
  intros HP. induction todo as [|r todo IH]; intros s done_ s' out E Hi; cbn [evaluate_all] in E; [by injection E as <- _|].
  destruct (evaluate s r _ now) as [s1 r1] eqn:E1. eapply IH; [exact E|]. by eapply evaluate_keeps.
Qed.
Lemma evaluate_all_length evidence now todo : forall s done_ s' out, evaluate_all s evidence now todo done_ = (s', out) ->
  (length (s_Incidents s') <= length (s_Incidents s) + length todo)%nat.
Proof.
  induction todo as [|r todo IH]; intros s done_ s' out E; cbn [evaluate_all] in E; [injection E as <- _; lia|].
  destruct (evaluate s r _ now) as [s1 r1] eqn:E1. apply IH in E. apply evaluate_length in E1. cbn [length]. lia.
Qed.

(** A pass that resolves an incident that starts after the clock leaves a state
    the check refuses, unless the incident falls out of a full history. *)
Lemma early_recovery_invalid s evidence now r e i : r ∈ s_Rules s -> evidence (r_ID r) = Some e -> recovering r e now ->
  i ∈ s_Incidents s -> starts_late (r_IncidentID r) now i ->
  Z.of_nat (length (s_Incidents s) + length (s_Rules s)) <= 500 ->
  ValidatePersistentState (tick_state s evidence now) = false.
Proof.
  intros Hr He Hrec Hi Hlate Hroom. unfold tick_state. destruct (evaluate_all _ _ _ _ _) as [s' rules] eqn:E.
  pose proof (evaluate_all_length _ _ _ _ _ _ _ E) as Hlen.
  assert (Hbad : exists x, x ∈ s_Incidents s' /\ resolved_early now x).
  { apply list_elem_of_split in Hr as (l1 & l2 & Hrules). rewrite Hrules in E. clear Hrules Hroom Hlen.
    assert (Hex : exists x, x ∈ s_Incidents s /\ starts_late (r_IncidentID r) now x) by eauto. clear Hi Hlate.
    revert E Hex. generalize s, (@nil RuleRecord). induction l1 as [|r0 l1 IH]; intros s0 done_ E Hex; cbn [app evaluate_all] in E.
    - rewrite He in E. destruct (evaluate s0 r e now) as [s1 r1] eqn:E1.
      eapply evaluate_all_keeps; [|exact E|by eapply recovering_resolves]. intros id value x x'. apply resolved_early_kept.
    - destruct (evaluate s0 r0 _ now) as [s1 r1] eqn:E1. eapply IH; [exact E|].
      eapply evaluate_keeps; [|exact E1|exact Hex]. intros id value x x'. apply starts_late_kept. }
  unfold prune. cbn [set_evaluated set_rules s_Incidents]. rewrite (proj2 (Z.leb_le _ _)) by lia.
  destruct (ValidatePersistentState _) eqn:Hv; [|done]. exfalso.
  apply Validate_iff in Hv as ([Hok _] & _). cbn [set_evaluated set_rules s_Incidents] in Hok.
  destruct Hbad as (x & Hx & Hs & Hst & Ht). rewrite Forall_forall in Hok. specialize (Hok x Hx).
  unfold valid_incident in Hok. rewrite Hst, Ht in Hok. bool_prop. destruct_or?; bool_prop; [lia|done].
Qed.

Section AlertProperties.
Context {W : Type} `{AlertWorld W}.

(** C11 (alerts): a tick that loads a valid state, with no incident started
    in the future and bounded evidence, only ever makes valid states durable;
    it sends at most two notifications, each of which is at the head of the
    queue of the state made durable immediately before, with this attempt
    counted (at most three), unexpired, and delivery enabled: a crash never
    repeats an attempt unrecorded. Without an error, the first state saved is
    the evaluation's. *)
Theorem Tick_effects st r st' s w1 now w2 evidence w3 :
  Tick st = (r, st') ->
  load (wd st) = (Ok s, w1) -> clock w1 = (now, w2) -> source (s_Rules s) now w2 = (Ok evidence, w3) ->
  ValidatePersistentState s = true -> tick_ready s now ->
  (forall id e, evidence id = Some e -> evidence_bounded e) ->
  exists tr, effects st' = (effects st ++ tr)%list /\
    Forall saved_valid tr /\ sends_durable now None tr /\ (sends tr <= 2)%nat /\
    (r = Ok tt -> head tr = Some (Saved (tick_state s evidence now))).
Proof.
  intros E Hload Hclock Hsource Hv Hready Hev. pose proof (tick_state_ok s evidence now Hv Hready Hev) as Hv1.
  unfold Tick in E. apply bind_inv in E as (l1 & sa & Ea & E).
  unfold LoadAlertState in Ea. rewrite Hload in Ea. injection Ea as <- <-.
  apply bind_inv in E as (n1 & sb & Eb & E).
  unfold Now_ in Eb. cbn [wd effects] in Eb. rewrite Hclock in Eb. injection Eb as <- <-.
  apply bind_inv in E as (e1 & sc & Ec & E).
  unfold Source_ in Ec. cbn [wd effects] in Ec. rewrite Hsource in Ec. injection Ec as <- <-.
  apply bind_inv in E as (r1 & st1 & E1 & E). apply save_effects in E1.
  destruct r1 as [[]|er].
  - destruct (deliver_trace _ _ _ _ _ _ (Some (Saved (tick_state s evidence now))) E Hv1 (proj1 Hready))
      as (tr & Htr & Hf & Hd & Hn).
    exists (Saved (tick_state s evidence now) :: tr).
    split; [by rewrite Htr, E1, <- app_assoc|]. split_and!; try done. by constructor.
  - injection E as <- <-. exists []. simpl in *. rewrite E1, app_nil_r. split_and!; try done.
    unfold sends. simpl. lia.
Qed.

(** C12 (alerts): an incident opens only on sustained evidence. In any run of
    evaluations of an enabled rule that starts with neither an incident nor a
    pending condition, an evaluation that opens one closes a chain of
    evaluations, each within 120 s of the one before and all of them on
    fresh, known, in-range observations that breach the rule, with no gap
    longer than the evidence allows, which spans the rule's hold time. *)
Theorem incident_needs_sustained_breach s r l e now :
  r_IncidentID r = 0 -> r_PendingSince r = 0 ->
  c_Enabled (r_Config r) = true -> 0 < c_HoldSeconds (r_Config r) ->
  r_IncidentID (snd (evaluate_seq s r l)) = 0 ->
  r_IncidentID (snd (evaluate_seq s r (l ++ [(e, now)]))) <> 0 ->
  exists pre mid, (l ++ [(e, now)])%list = (pre ++ mid)%list /\
    Forall (fun o => breaching r o = true) mid /\ chained mid /\
    spans (c_HoldSeconds (r_Config r)) mid.
Proof.
  intros Hi Hp He Hh Hbefore Hafter.
  destruct (watched_seq r l s r [] ltac:(by intros ? ?) eq_refl He Hh) as [Hw Hc]. simpl in Hw.
  assert (Hlast : evaluate_seq s r (l ++ [(e, now)]) =
                  evaluate (fst (evaluate_seq s r l)) (snd (evaluate_seq s r l)) e now).
  { clear. revert s r. induction l as [|[e' n'] l IH]; intros s r; simpl; [by destruct (evaluate s r e now)|].
    destruct (evaluate s r e' n') as [s' r']. apply IH. }
  rewrite Hlast in Hafter. set (rb := snd (evaluate_seq s r l)) in *.
  rewrite <- Hc in He, Hh.
  destruct (evaluate_pending (fst (evaluate_seq s r l)) rb e now Hbefore He Hh)
    as [[? _]|(Hb & _ & _ & _ & Hspan)]; [done|].
  destruct (watched_extend r l rb e now Hw Hbefore Hc Hb) as (pre & mid & a & Heq & Hhd & Ha & Hf & Hch).
  exists pre, (mid ++ [(e, now)])%list. split_and!; try done.
  exists a, (e, now). split_and!; [done|by rewrite last_snoc|]. rewrite Ha, <- Hc. by apply Hspan.
Qed.

(** Recovery (alerts): evaluation never clears an incident on missing, stale,
    out-of-range or old evidence. For a rule with an open incident, either
    the incident list is untouched and the rule keeps its incident, or the
    evidence is fresh, within the threshold and newer than the last evidence,
    and exactly the rule's incident is marked resolved, now, with the
    observed value. *)
Theorem recovery_needs_new_observation s r e now s' r' :
  evaluate s r e now = (s', r') -> r_IncidentID r <> 0 ->
  (s' = s /\ r_IncidentID r' = r_IncidentID r) \/
  (c_Enabled (r_Config r) = true /\ out_of_range r e = false /\ e_Known e = true /\
   fresh true e now = true /\ breached r e = false /\ r_LastEvidence r < e_ObservedAt e /\
   r_IncidentID r' = 0 /\
   Forall2 (resolved_or_same (r_IncidentID r) now (e_Value e)) (s_Incidents s) (s_Incidents s')).
Proof.
  intros E Hi. unfold evaluate in E. destruct (c_Enabled (r_Config r)) eqn:He; simpl in E;
    [|injection E as <- <-; by left].
  apply Z.eqb_neq in Hi. rewrite Hi in E. simpl in E.
  destruct (fresh _ e now) eqn:Hf; simpl in E; [|injection E as <- <-; by left].
  destruct (breached r e) eqn:Hb; simpl in E; [injection E as <- <-; by left|].
  destruct (e_ObservedAt e <=? r_LastEvidence r) eqn:Ho; [injection E as <- <-; by left|].
  injection E as <- <-. right. bool_prop.
  assert (Hk : out_of_range r e = false /\ e_Known e = true).
  { destruct (out_of_range r e); [by apply fresh_true in Hf as [? _]|].
    by apply fresh_true in Hf as [? _]. }
  destruct Hk as [Hk1 Hk2]. rewrite Hk1, Hk2 in Hf. split_and!; try done.
  unfold resolve_incidents. destruct (resolve_loop _ _ _ _ _ []) as [s1 out] eqn:El. simpl.
  by destruct (resolve_loop_pointwise _ _ _ _ _ _ _ _ El) as (out' & -> & Hf2).
Qed.

(** C19 (alerts): a clock that steps back makes ticks fail. Take any store that
    refuses the states its check refuses, as the controller's does, and any tick
    in which, by the clock read, some rule recovers from an incident that starts
    later, with room in the history for the incidents of the tick. The tick
    fails, whatever the other rules say: no state is saved and no notification
    sent. *)
Theorem clock_step_back_fails_tick st s w1 now w2 evidence w3 r e i :
  (forall x w, ValidatePersistentState x = false -> exists er w', save x w = (Err er, w')) ->
  load (wd st) = (Ok s, w1) -> clock w1 = (now, w2) -> source (s_Rules s) now w2 = (Ok evidence, w3) ->
  r ∈ s_Rules s -> evidence (r_ID r) = Some e -> recovering r e now ->
  i ∈ s_Incidents s -> i_ID i = r_IncidentID r -> now < i_StartedAt i ->
  Z.of_nat (length (s_Incidents s) + length (s_Rules s)) <= 500 ->
  exists er, fst (Tick st) = Err er /\ effects (snd (Tick st)) = effects st.
Proof.
  intros Hstore Hload Hclock Hsource Hr He Hrec Hi Hid Hlate Hroom.
  pose proof (early_recovery_invalid s evidence now r e i Hr He Hrec Hi (conj Hid Hlate) Hroom) as Hv.
  destruct (Hstore _ w3 Hv) as (er & w4 & Hsave). exists er.
  unfold Tick, bind, LoadAlertState, Now_, Source_, SaveAlertState. rewrite Hload. cbn [wd effects].
  rewrite Hclock. cbn [wd effects]. rewrite Hsource. cbn [wd effects]. by rewrite Hsave.
Qed.
End AlertProperties.
