(* ===== verification/AlertsAdmin.v ===== *)
(** * Administering alerts: rules, history and webhook destinations

    Theorems about the operations of [Alerts] an administrator drives
    ([SaveRule], [DeleteRule], the cancellation they imply), the history bound
    of [prune], and the filter that keeps webhooks off private networks. *)

From Stdlib Require Import ZArith Lia Ascii String Floats.SpecFloat.
From stdpp Require Import base gmap list strings.
From S2P Require Import Prelude GoStr F64 Alerts AlertsSpec.

Local Open Scope string_scope.
Local Open Scope Z_scope.

(** ** Cancelling queued deliveries *)

Lemma cancel_fold id l : forall s,
  ValidatePersistentState s = true ->
  let s' := fold_left (fun acc q => if kept_by id q then acc
                                    else finishDelivery acc q "cancelled" cancel_text) l s in
  ValidatePersistentState s' = true /\ ids s' = ids s /\ s_Queue s' = s_Queue s /\
  s_Rules s' = s_Rules s.
Proof.
  induction l as [|q l IH]; intros s Hv; [done|]. simpl. destruct (kept_by id q); [by apply IH|].
  destruct (IH (finishDelivery s q "cancelled" cancel_text)) as (? & Hids & ? & ?).
  - apply finishDelivery_ok; [done|by apply Z.leb_le].
  - split_and!; try done. rewrite Hids. apply map_finish_ids.
Qed.

Lemma cancel_ok s id : ValidatePersistentState s = true ->
  ValidatePersistentState (cancelQueuedDeliveries s id) = true.
Proof.
  intros Hv. unfold cancelQueuedDeliveries.
  destruct (cancel_fold id (s_Queue s) s Hv) as (Hv' & Hids & Hq & _).
  destruct (queue_facts s Hv) as (Hf & Hl & _).
  apply set_queue_ok; [done| |].
  - apply Forall_forall. intros q Hin. apply list_elem_of_filter in Hin as [_ Hin].
    rewrite Forall_forall in Hf. apply (valid_queued_ids s); [by rewrite Hids|by apply Hf].
  - pose proof (length_filter (fun q => kept_by id q = true) (s_Queue s)). lia.
Qed.

(** ** Changing the rule list *)

Lemma set_rules_ok s next rules :
  ValidatePersistentState s = true -> s_NextRuleID s <= next -> next <> maxInt64 ->
  Forall (rule_ok (set_next_rule s next)) rules -> NoDup (map r_ID rules) ->
  Z.of_nat (length rules) <= MaxRules ->
  ValidatePersistentState (set_rules (set_next_rule s next) rules) = true.
Proof.
  intros Hv Hn Hmax Hf Hnd Hl.
  apply Validate_iff in Hv as ([Hi Hin] & [Hq Hql] & _ & Hil & [? _] & Hni & Hd).
  apply Validate_iff. unfold incidents_ok, queue_ok, rules_ok.
  cbn [set_rules set_next_rule s_Rules s_NextRuleID s_NextIncidentID s_Queue s_Incidents].
  split_and!; try done; try lia.
  apply (Forall_impl _ _ _ Hi). intros i. apply valid_incident_mono; simpl; lia.
Qed.

Lemma set_next_same s : set_next_rule s (s_NextRuleID s) = s.
Proof. by destruct s. Qed.

Lemma fresh_rule_valid s c id identity ln :
  Validate c = None -> 0 < id <= s_NextRuleID s -> identity <> EmptyString -> len identity <= 128 ->
  0 <= ln -> valid_rule s (fresh_rule c id identity ln) = true.
Proof.
  intros Hc Hid Hne Hl Hln. unfold valid_rule, fresh_rule.
  cbn [r_Config r_ID r_State r_Value r_Reason r_TargetIdentity r_LastEvidence
       r_LastEvaluation r_PendingSince r_LastNotification r_IncidentID].
  bool_goal; try done; try lia; [by apply String.eqb_neq|].
  destruct (c_Enabled c); state_name.
Qed.

Lemma update_rule_ids id f l : (forall r, r_ID (f r) = r_ID r \/ r_ID r <> id) ->
  map r_ID (update_rule id f l) = map r_ID l.
Proof.
  intros Hf. induction l as [|r l IH]; [done|]. simpl. destruct (Z.eqb_spec (r_ID r) id).
  - simpl. destruct (Hf r) as [-> |]; [done|congruence].
  - simpl. by rewrite IH.
Qed.

Lemma update_rule_length id f l : length (update_rule id f l) = length l.
Proof. induction l as [|r l IH]; [done|]. simpl. case_match; simpl; congruence. Qed.

Lemma update_rule_Forall (P : RuleRecord -> Prop) id f l :
  Forall P l -> (forall r, find_rule id l = Some r -> P (f r)) -> Forall P (update_rule id f l).
Proof.
  unfold find_rule. induction l as [|r l IH]; intros Hl Hf; [constructor|].
  apply Forall_cons in Hl as [Hr Hl]. simpl in *. destruct (r_ID r =? id) eqn:E.
  - constructor; [|done]. by apply Hf.
  - constructor; [done|]. by apply IH.
Qed.

Lemma find_rule_some id l r : find_rule id l = Some r -> r ∈ l /\ r_ID r = id.
Proof.
  unfold find_rule. intros Hf. apply List.find_some in Hf as [Hin Hid].
  apply Z.eqb_eq in Hid. split; [|done]. by apply list_elem_of_In.
Qed.

(** The enabled flag is the only part of the configuration a rule with an open
    incident may change. *)
Lemma Validate_enabled c b :
  Validate (MkConfig (c_Name c) (c_Condition c) (c_DeviceID c) (c_Threshold c) (c_HoldSeconds c)
                     (c_CooldownSeconds c) b) = Validate c.
Proof. done. Qed.

Lemma disable_rule_valid s r b st re :
  valid_rule s r = true -> st ∈ state_names -> len re <= 512 ->
  valid_rule s (rule_state (rule_enabled r b) st re) = true.
Proof.
  intros Hv Hst Hre.
  assert (Hr : valid_rule s (rule_enabled r b) = true).
  { revert Hv. unfold valid_rule, rule_enabled. cbn [r_Config]. rewrite Validate_enabled. done. }
  destruct (valid_rule_facts _ _ Hr) as (_&_&?&?&?&?&?&_&_&?).
  by apply upd_rule_valid.
Qed.

Lemma valid_state_rules s : ValidatePersistentState s = true ->
  Forall (rule_ok s) (s_Rules s) /\ NoDup (map r_ID (s_Rules s)) /\
  Z.of_nat (length (s_Rules s)) <= MaxRules /\ 0 <= s_NextRuleID s /\ s_NextRuleID s <> maxInt64.
Proof. intros Hv. apply Validate_iff in Hv. destruct Hv as (_ & _ & (?&?&?) & _ & [? ?] & _). done. Qed.

(** Replacing one rule by a valid one with the same id. *)
Lemma replace_rule_ok s id f old :
  ValidatePersistentState s = true -> find_rule id (s_Rules s) = Some old ->
  (forall r, r_ID r = id -> r_ID (f r) = id) -> rule_ok s (f old) ->
  ValidatePersistentState (set_rules s (update_rule id f (s_Rules s))) = true.
Proof.
  intros Hv Hfind Hid Hok. destruct (valid_state_rules s Hv) as (Hf & Hnd & Hl & ? & ?).
  rewrite <- (set_next_same s) at 1. apply set_rules_ok; try done; rewrite ?set_next_same.
  - apply update_rule_Forall; [done|]. intros r Hr. by simplify_eq.
  - rewrite update_rule_ids; [done|]. intros r. destruct (decide (r_ID r = id)) as [E|E]; [|by right].
    left. rewrite E. by apply Hid.
  - by rewrite update_rule_length.
Qed.

Lemma find_update id f l r : find_rule id l = Some r -> r_ID (f r) = id ->
  find_rule id (update_rule id f l) = Some (f r).
Proof.
  unfold find_rule. induction l as [|x l IH]; [done|]. simpl. destruct (r_ID x =? id) eqn:E; simpl.
  - intros [= ->] Hid. by rewrite Hid, Z.eqb_refl.
  - rewrite E. done.
Qed.

Lemma find_update_other id id2 f l : id2 <> id -> (forall r, r_ID r = id -> r_ID (f r) = id) ->
  find_rule id2 (update_rule id f l) = find_rule id2 l.
Proof.
  unfold find_rule. intros Hne Hf. induction l as [|x l IH]; [done|]. simpl.
  destruct (Z.eqb_spec (r_ID x) id) as [E|E]; simpl.
  - rewrite (Hf x E), E. destruct (Z.eqb_spec id id2); [congruence|done].
  - by rewrite IH.
Qed.

Lemma find_app id l r : find_rule id (l ++ [r]) =
  match find_rule id l with Some x => Some x | None => if r_ID r =? id then Some r else None end.
Proof.
  unfold find_rule. induction l as [|x l IH]; simpl; [by destruct (r_ID r =? id)|].
  by destruct (r_ID x =? id).
Qed.

Lemma cancel_rules s id : s_Rules (cancelQueuedDeliveries s id) = s_Rules s.
Proof.
  unfold cancelQueuedDeliveries. simpl. generalize (s_Queue s). intros l. revert s.
  induction l as [|q l IH]; intros s; [done|]. simpl. destruct (kept_by id q); by rewrite IH.
Qed.

Lemma cancel_queue s id q : q ∈ s_Queue (cancelQueuedDeliveries s id) <-> kept_by id q = true /\ q ∈ s_Queue s.
Proof. unfold cancelQueuedDeliveries. simpl. by rewrite list_elem_of_filter. Qed.

Lemma SFcompare_refl x : is_nan x = false -> f_eqb x x = true.
Proof.
  unfold f_eqb, SFeqb, SFcompare. destruct x as [| [] | | [] m e]; try done; intros _;
    rewrite Z.compare_refl; change (PosDef.Pos.compare_cont Eq m m) with (Pos.compare m m);
    by rewrite Pos.compare_refl.
Qed.

Lemma Validate_finite c : Validate c = None -> is_nan (c_Threshold c) = false.
Proof.
  unfold Validate. intros Hv. repeat (destruct (_ || _) eqn:? in Hv; [done|]; bool_prop).
  destruct (c_DeviceID c <=? 0); [done|].
  repeat (destruct (_ || _) eqn:? in Hv; [done|]; bool_prop). done.
Qed.

Lemma same_config_refl c : Validate c = None -> same_config c c = true.
Proof.
  intros Hv. apply Validate_finite in Hv. unfold same_config.
  rewrite !String.eqb_refl, !Z.eqb_refl, SFcompare_refl, Bool.eqb_reflx by done. done.
Qed.

(** Appending a new rule with the next id. *)
Lemma add_rule_ok s config identity :
  ValidatePersistentState s = true -> Validate config = None -> identity <> EmptyString ->
  len identity <= 128 -> s_NextRuleID s + 1 < maxInt64 -> Z.of_nat (length (s_Rules s)) < MaxRules ->
  let next := s_NextRuleID s + 1 in
  let r := fresh_rule config next identity 0 in
  let rules := (s_Rules s ++ [r])%list in
  ValidatePersistentState (set_rules (set_next_rule s next) rules) = true /\
  find_rule next rules = Some r /\ (forall id2, id2 <> next -> find_rule id2 rules = find_rule id2 (s_Rules s)).
Proof.
  intros Hv Hc Hne Hlen Hmax Hcount. destruct (valid_state_rules s Hv) as (Hf & Hnd & Hl & Hn & Hm).
  intros next r rules.
  assert (Hids : forall r, r ∈ s_Rules s -> r_ID r <= s_NextRuleID s).
  { intros x Hin. rewrite Forall_forall in Hf. destruct (Hf x Hin) as [Hvr _].
    by destruct (valid_rule_facts _ _ Hvr) as (_ & [_ ?] & _). }
  split; [apply set_rules_ok; [done|lia|lia| | |unfold rules; rewrite length_app; simpl; lia]|split].
  - apply Forall_app. split.
    + apply (Forall_impl _ _ _ Hf). intros x [Hvr Hin]. split; [|done].
      apply (valid_rule_frame s); [simpl; lia|done].
    + constructor; [|done]. split; [|by left]. apply fresh_rule_valid; try done. simpl. lia.
  - unfold rules. rewrite map_app. apply NoDup_app. split_and!; [done| |apply NoDup_singleton].
    intros x Hx. apply list_elem_of_fmap in Hx as (y & -> & Hin). apply Hids in Hin.
    simpl. rewrite list_elem_of_singleton. lia.
  - unfold rules. rewrite find_app. destruct (find_rule next (s_Rules s)) as [x|] eqn:Ex.
    + apply find_rule_some in Ex as [Hin Hx]. apply Hids in Hin. lia.
    + cbn [r fresh_rule r_ID]. by rewrite Z.eqb_refl.
  - intros id2 Hne2. unfold rules. rewrite find_app. cbn [r fresh_rule r_ID].
    destruct (find_rule id2 (s_Rules s)); [done|]. by destruct (Z.eqb_spec next id2).
Qed.

(** The rule [SaveRule] leaves under the id it returns. *)
Definition rule_saved (s s' : PersistentState) (id id' : Z) (config : Config) : Prop :=
  (exists r, find_rule id' (s_Rules s') = Some r /\ same_config (r_Config r) config = true /\
             (id <> 0 -> exists old, find_rule id (s_Rules s) = Some old /\ r_IncidentID r = r_IncidentID old)) /\
  (id <> 0 -> id' = id) /\ (id = 0 -> find_rule id' (s_Rules s) = None) /\
  (forall id2, id2 <> id' -> find_rule id2 (s_Rules s') = find_rule id2 (s_Rules s)) /\
  (c_Enabled config = false -> forall q, q ∈ s_Queue s' -> i_RuleID (n_Incident (q_Notification q)) <> id').

Lemma save_finish (s1 : PersistentState) id1 (config : Config) s' id' :
  Ok (A := PersistentState * Z) (E := alert_err)
     (if c_Enabled config then s1 else cancelQueuedDeliveries s1 id1, id1) = Ok (s', id') ->
  ValidatePersistentState s1 = true ->
  ValidatePersistentState s' = true /\ s_Rules s' = s_Rules s1 /\ id' = id1 /\
  (c_Enabled config = false -> forall q, q ∈ s_Queue s' -> i_RuleID (n_Incident (q_Notification q)) <> id').
Proof.
  intros [= <- <-] Hv. destruct (c_Enabled config); [done|]. rewrite cancel_rules, cancel_ok by done.
  split_and!; try done. intros _ q Hq. apply cancel_queue in Hq as [Hk _]. unfold kept_by in Hk.
  bool_prop. done.
Qed.

(** Editing the rule found under [id]. *)
Lemma edit_rule_saved s id f old config s' id' :
  ValidatePersistentState s = true -> id <> 0 -> find_rule id (s_Rules s) = Some old ->
  Ok (A := PersistentState * Z) (E := alert_err)
     (if c_Enabled config then set_rules s (update_rule id f (s_Rules s))
      else cancelQueuedDeliveries (set_rules s (update_rule id f (s_Rules s))) id, id) = Ok (s', id') ->
  (forall r, r_ID r = id -> r_ID (f r) = id) -> rule_ok s (f old) ->
  same_config (r_Config (f old)) config = true -> r_IncidentID (f old) = r_IncidentID old ->
  ValidatePersistentState s' = true /\ rule_saved s s' id id' config.
Proof.
  intros Hv Hid Hfind E Hf Hok Hsame Hinc. destruct (find_rule_some _ _ _ Hfind) as [_ Hoid].
  apply save_finish in E as (Hv' & Hr & -> & Hq); [|by apply replace_rule_ok with (old := old)].
  split; [done|]. unfold rule_saved. rewrite Hr. cbn [set_rules s_Rules]. split_and!; try done.
  - exists (f old). split; [apply find_update; auto|]. split; [done|]. eauto.
  - intros id2 Hne2. by apply find_update_other.
Qed.

Lemma save_rule_state_ok s id config identity s' id' :
  save_rule_state s id config identity = Ok (s', id') ->
  ValidatePersistentState s = true -> Validate config = None ->
  identity <> EmptyString -> len identity <= 128 -> s_NextRuleID s + 1 < maxInt64 ->
  ValidatePersistentState s' = true /\ rule_saved s s' id id' config.
Proof.
  intros E Hv Hc Hne Hlen Hmax. destruct (valid_state_rules s Hv) as (Hf & _).
  unfold save_rule_state in E. destruct (Z.eqb_spec id 0) as [->|Hid].
  - destruct (MaxRules <=? _) eqn:Hmaxr; [done|]. bool_prop.
    destruct (add_rule_ok s config identity) as (Hv1 & Hfind & Hother); try done.
    apply save_finish in E as (Hv' & Hr & -> & Hq); [|done].
    split; [done|]. unfold rule_saved. rewrite Hr. cbn [set_rules s_Rules set_next_rule].
    split_and!; try done.
    + eexists. split; [exact Hfind|]. split; [by apply same_config_refl|done].
    + intros _. destruct (find_rule _ (s_Rules s)) as [x|] eqn:Ex; [|done].
      rewrite find_app, Ex in Hfind. simplify_eq. apply find_rule_some in Ex as [Hin _].
      rewrite Forall_forall in Hf. destruct (Hf _ Hin) as [Hvr _].
      destruct (valid_rule_facts _ _ Hvr) as (_ & Hle & _). simpl in Hle. lia.
  - destruct (find_rule id (s_Rules s)) as [old|] eqn:Efind; [|done].
    destruct (find_rule_some _ _ _ Efind) as [Hold Hoid].
    assert (Hrok : rule_ok s old) by (rewrite Forall_forall in Hf; by apply Hf).
    destruct Hrok as [Hvr Hinc]. destruct (valid_rule_facts _ _ Hvr) as (_&Hidr&_&_&_&Hln&_&_&_&_).
    destruct (r_IncidentID old =? 0) eqn:Hz; simpl negb in E; cbv iota in E; bool_prop.
    + apply edit_rule_saved with (old := old) in E; try done.
      * split; [|by left]. apply fresh_rule_valid; try done. lia.
      * by apply same_config_refl.
    + destruct (negb (same_config _ _) || _) eqn:Hsame; [done|]. bool_prop.
      apply edit_rule_saved with (old := old) in E; try done. split; [|done].
      apply disable_rule_valid; [done| |]; destruct (c_Enabled config);
        solve [state_name | by apply Z.leb_le].
Qed.

(** Removing a rule. *)
Lemma remove_rule_spec id l l' : remove_rule id l = Some l' -> NoDup (map r_ID l) ->
  l' `sublist_of` l /\ find_rule id l' = None /\ (exists r, find_rule id l = Some r) /\
  (forall id2, id2 <> id -> find_rule id2 l' = find_rule id2 l).
Proof.
  unfold find_rule. revert l'. induction l as [|r l IH]; intros l' E Hnd; [done|].
  simpl in *. inv Hnd. destruct (Z.eqb_spec (r_ID r) id) as [Hid|Hid].
  - injection E as <-. split_and!.
    + by apply sublist_cons.
    + destruct (find_rule id l) as [x|] eqn:Ex; [|done]. apply find_rule_some in Ex as [Hin Hx].
      exfalso. apply H1. apply list_elem_of_fmap. exists x. split; [congruence|done].
    + by exists r.
    + intros id2 Hne. by destruct (Z.eqb_spec (r_ID r) id2); [congruence|].
  - destruct (remove_rule id l) as [l1|] eqn:El; [|done]. injection E as <-.
    destruct (IH l1 eq_refl) as (Hs & Hn & Hex & Ho); [done|]. split_and!; try done.
    + by constructor.
    + simpl. by destruct (Z.eqb_spec (r_ID r) id).
    + intros id2 Hne. simpl. destruct (r_ID r =? id2); [done|by apply Ho].
Qed.

Section AdminProperties.
Context {W : Type} `{AlertWorld W}.

(** [SaveRule] from a valid state makes at most one state
    durable, and that state is valid. When it succeeds, the stored rule has
    the requested configuration and keeps the incident it had, under the
    requested id or one no rule had; every other rule is as before; and a
    disabled rule has no delivery left in the queue. An invalid configuration
    or an empty identity changes nothing. *)
Theorem SaveRule_saves id config identity st r st' s w1 :
  SaveRule id config identity st = (r, st') ->
  load (wd st) = (Ok s, w1) -> ValidatePersistentState s = true ->
  len identity <= 128 -> s_NextRuleID s + 1 < maxInt64 ->
  match r with
  | Ok id' => Validate config = None /\ identity <> EmptyString /\
              exists s', effects st' = (effects st ++ [Saved s'])%list /\
                         ValidatePersistentState s' = true /\ rule_saved s s' id id' config
  | Err _ => effects st' = effects st
  end.
Proof.
  intros E Hload Hv Hlen Hmax. unfold SaveRule in E.
  destruct (Validate config) eqn:Hc; [by injection E as <- <-|].
  destruct (String.eqb identity "") eqn:Hne; [by injection E as <- <-|]. bool_prop.
  apply bind_inv in E as (l1 & sa & Ea & E).
  unfold LoadAlertState in Ea. rewrite Hload in Ea. injection Ea as <- <-.
  destruct (save_rule_state s id config identity) as [[s' id']|e] eqn:Es; [|by injection E as <- <-].
  destruct (save_rule_state_ok _ _ _ _ _ _ Es Hv Hc) as [Hv' Hsaved]; try done.
  apply bind_inv in E as (r1 & st1 & E1 & E). apply save_effects in E1. injection E as <- <-.
  destruct r1 as [[]|e]; [|done]. split; [done|]. split; [done|]. by exists s'.
Qed.

(** [DeleteRule] from a valid state makes at most one state
    durable, and that state is valid. When it succeeds the rule existed and
    is gone, the other rules are as before, every incident keeps its id, and
    no delivery of that rule is left in the queue. *)
Theorem DeleteRule_removes id st r st' s w1 :
  DeleteRule id st = (r, st') ->
  load (wd st) = (Ok s, w1) -> ValidatePersistentState s = true ->
  match r with
  | Ok _ => exists s', effects st' = (effects st ++ [Saved s'])%list /\
      ValidatePersistentState s' = true /\ ids s' = ids s /\
      (exists old, find_rule id (s_Rules s) = Some old) /\ find_rule id (s_Rules s') = None /\
      (forall id2, id2 <> id -> find_rule id2 (s_Rules s') = find_rule id2 (s_Rules s)) /\
      (forall q, q ∈ s_Queue s' -> i_RuleID (n_Incident (q_Notification q)) <> id)
  | Err _ => effects st' = effects st
  end.
Proof.
  intros E Hload Hv. unfold DeleteRule in E. apply bind_inv in E as (l1 & sa & Ea & E).
  unfold LoadAlertState in Ea. rewrite Hload in Ea. injection Ea as <- <-.
  destruct (remove_rule id (s_Rules s)) as [rules|] eqn:Er; [|by injection E as <- <-].
  destruct (valid_state_rules s Hv) as (Hf & Hnd & Hl & ? & ?).
  destruct (remove_rule_spec _ _ _ Er Hnd) as (Hsub & Hgone & Hex & Hother).
  apply save_effects in E. destruct r as [u|e]; [|done].
  assert (Hv1 : ValidatePersistentState (set_rules s rules) = true).
  { rewrite <- (set_next_same s) at 1. apply set_rules_ok; try done; rewrite ?set_next_same.
    - apply Forall_forall. intros x Hin. rewrite Forall_forall in Hf. apply Hf.
      by eapply elem_of_sublist.
    - eapply sublist_NoDup; [exact Hnd|]. by apply (fmap_sublist r_ID).
    - pose proof (sublist_length _ _ Hsub). lia. }
  exists (cancelQueuedDeliveries (set_rules s rules) id). rewrite cancel_rules.
  split_and!; try done; [by apply cancel_ok| |].
  - unfold cancelQueuedDeliveries, ids. cbn [set_queue s_Incidents].
    by destruct (cancel_fold id (s_Queue s) _ Hv1) as (_ & ? & _).
  - intros q Hq. apply cancel_queue in Hq as [Hk _]. unfold kept_by in Hk. by bool_prop.
Qed.
End AdminProperties.

(** ** The history bound *)

Lemma prune_loop_split active l : forall k, exists old recent,
  l = (old ++ recent)%list /\
  prune_loop active k l = (filter (fun i => i_ID i ∈ active) old ++ recent)%list.
Proof.
  induction l as [|i l IH]; intros [|k]; simpl; [by exists [], []..| |].
  - exists [], (i :: l). split; [done|]. simpl. f_equal. clear IH. induction l as [|j l IH]; [done|]. simpl. by f_equal.
  - case_bool_decide as Hi.
    + destruct (IH (S k)) as (old & recent & -> & ->). exists (i :: old), recent.
      split; [done|]. by rewrite filter_cons_True.
    + destruct (IH k) as (old & recent & -> & ->). exists (i :: old), recent.
      split; [done|]. by rewrite filter_cons_False.
Qed.

(** Pruning brings the history down to exactly 500 incidents when
    it is longer and leaves it alone otherwise; what it removes is the oldest
    incidents, and never one a rule still holds open or a queued notification
    refers to. *)
Theorem prune_history s :
  NoDup (ids s) -> Z.of_nat (length (s_Rules s)) <= MaxRules -> Z.of_nat (length (s_Queue s)) <= 100 ->
  length (s_Incidents (prune s)) = Nat.min 500 (length (s_Incidents s)) /\
  exists old recent, s_Incidents s = (old ++ recent)%list /\
    s_Incidents (prune s) = (filter (fun i => i_ID i ∈ active_ids s) old ++ recent)%list.
Proof.
  intros Hnd Hr Hq. unfold prune.
  destruct (Z.of_nat (length (s_Incidents s)) <=? 500) eqn:E; bool_prop.
  - split; [lia|]. by exists [], (s_Incidents s).
  - cbn [set_incidents s_Incidents]. split; [|apply prune_loop_split].
    pose proof (inactive_length (active_ids s) _ Hnd). pose proof (active_ids_length s).
    pose proof (prune_loop_length (active_ids s) (s_Incidents s) (length (s_Incidents s) - 500)).
    unfold MaxRules in Hr. lia.
Qed.
