(* ===== verification/Webhook.v ===== *)
(** * Webhook destinations (internal/alerts/webhook.go)

    The address filter of [Alerts] against the address blocks it is meant to
    keep webhooks away from, written as plain intervals; and what a URL that
    passes [ValidateWebhookURL] is known to be. *)

From Stdlib Require Import ZArith Lia ZifyBool Ascii String.
From stdpp Require Import base list strings.
From S2P Require Import Prelude GoStr Alerts.

Local Open Scope string_scope.
Local Open Scope Z_scope.

(** ** Prefixes as intervals *)

Lemma within_interval net len_ width b :
  let k := width - len_ in
  let lo := Z.shiftl (Z.shiftr net k) k in
  0 <= k -> within net len_ width b = (lo <=? b) && (b <=? lo + (2 ^ k - 1)).
Proof.
  intros k lo Hk. unfold within. fold k. unfold lo.
  rewrite Z.shiftl_mul_pow2, !Z.shiftr_div_pow2 by done.
  assert (Hp : 0 < 2 ^ k) by (apply Z.pow_pos_nonneg; lia).
  pose proof (Z.div_mod b (2 ^ k) ltac:(lia)). pose proof (Z.mod_pos_bound b (2 ^ k) Hp).
  set (q := b / 2 ^ k) in *. set (n := net / 2 ^ k) in *. set (p := 2 ^ k) in *.
  destruct (Z.eqb_spec q n) as [->|Hne]; symmetry.
  - apply andb_true_iff. rewrite !Z.leb_le. lia.
  - apply andb_false_iff. rewrite !Z.leb_gt. nia.
Qed.

(** An interval of addresses, both ends included. *)
Definition between (lo hi b : Z) : bool := (lo <=? b) && (b <=? hi).

(** The IPv4 blocks no webhook may reach: "this network", private, shared,
    loopback, link-local, protocol assignments, documentation, benchmarking,
    the Azure host agent, and everything from multicast up. *)
Definition reserved4 : list (Z * Z) :=
  [(ip4 0 0 0 0, ip4 0 255 255 255); (ip4 10 0 0 0, ip4 10 255 255 255);
   (ip4 100 64 0 0, ip4 100 127 255 255); (ip4 127 0 0 0, ip4 127 255 255 255);
   (ip4 168 63 129 16, ip4 168 63 129 16); (ip4 169 254 0 0, ip4 169 254 255 255);
   (ip4 172 16 0 0, ip4 172 31 255 255); (ip4 192 0 0 0, ip4 192 0 0 255);
   (ip4 192 0 2 0, ip4 192 0 2 255); (ip4 192 168 0 0, ip4 192 168 255 255);
   (ip4 198 18 0 0, ip4 198 19 255 255); (ip4 198 51 100 0, ip4 198 51 100 255);
   (ip4 203 0 113 0, ip4 203 0 113 255); (ip4 224 0 0 0, ip4 255 255 255 255)].

Definition hi6 (hi : Z) : Z := Z.lor (Z.shiftl hi 64) (2 ^ 64 - 1).

(** The IPv6 blocks: unspecified and loopback, NAT64, discard-only, protocol
    assignments, documentation, 6to4, unique local, link-local, multicast. *)
Definition reserved6 : list (Z * Z) :=
  [(0, 1); (ip6 0x0064ff9b00000000, Z.lor (ip6 0x0064ff9b00000000) (2 ^ 32 - 1));
   (ip6 0x0064ff9b00010000, hi6 0x0064ff9b0001ffff); (ip6 0x0100000000000000, hi6 0x0100000000000000);
   (ip6 0x2001000000000000, hi6 0x200101ffffffffff); (ip6 0x20010db800000000, hi6 0x20010db8ffffffff);
   (ip6 0x2002000000000000, hi6 0x2002ffffffffffff); (ip6 0xfc00000000000000, hi6 0xfdffffffffffffff);
   (ip6 0xfe80000000000000, hi6 0xfebfffffffffffff); (ip6 0xff00000000000000, hi6 0xffffffffffffffff)].

Definition reserved (a : Addr) : bool :=
  match Unmap a with
  | V4 b => existsb (fun r => between (fst r) (snd r) b) reserved4
  | V6 b _ => existsb (fun r => between (fst r) (snd r) b) reserved6
  end.

Definition well_formed (a : Addr) : Prop :=
  match a with V4 b => 0 <= b < 2 ^ 32 | V6 b z => 0 <= b < 2 ^ 128 /\ z = EmptyString end.

(** Turns every prefix test into an interval with its bounds evaluated. *)
Ltac eval_const t := let v := eval vm_compute in t in change t with v.
Ltac interval_form :=
  repeat match goal with
  | |- context [within ?net ?len ?w ?b] =>
      rewrite (within_interval net len w b) by (vm_compute; discriminate);
      eval_const (Z.shiftl (Z.shiftr net (w - len)) (w - len)); eval_const (2 ^ (w - len) - 1)
  end.

Lemma if_negb (c d : bool) : (if c then false else d) = negb c && d.
Proof. by destruct c. Qed.

Lemma public4 b : 0 <= b < 2 ^ 32 -> publicAddress (V4 b) = negb (reserved (V4 b)).
Proof.
  intros Hb.
  unfold publicAddress, reserved, Unmap, IsGlobalUnicast, IsPrivate, IsLoopback, IsLinkLocalUnicast,
    IsMulticast, blocked, between.
  cbn [existsb fst snd blocked4 reserved4]. interval_form.
  unfold ip4. cbn [Z.mul Z.add Pos.mul Pos.add Pos.succ Pos.add_carry].
  rewrite if_negb. cbn [orb andb negb]. lia.
Qed.

Lemma public6 b : 0 <= b < 2 ^ 128 -> Z.shiftr b 32 <> 0xffff ->
  publicAddress (V6 b EmptyString) = negb (reserved (V6 b EmptyString)).
Proof.
  intros Hb Hm. unfold publicAddress, reserved. unfold Unmap.
  destruct (Z.eqb_spec (Z.shiftr b 32) 0xffff) as [?|_]; [done|].
  unfold IsGlobalUnicast, IsPrivate, IsLoopback, IsLinkLocalUnicast, IsMulticast, IsUnspecified,
    blocked, between.
  cbv beta iota delta [existsb fst snd blocked6 reserved6 String.eqb]. interval_form.
  repeat match goal with
  | |- context [ip6 ?h] => eval_const (ip6 h)
  | |- context [hi6 ?h] => eval_const (hi6 h)
  | |- context [Z.lor ?x ?y] => eval_const (Z.lor x y)
  end.
  rewrite if_negb. cbn [orb andb negb]. lia.
Qed.

Lemma publicAddress_filter a : well_formed a -> publicAddress a = negb (reserved a).
Proof.
  destruct a as [b|b z]; unfold well_formed; [apply public4|]. intros [Hb ->].
  destruct (decide (Z.shiftr b 32 = 0xffff)) as [E|E]; [|by apply public6].
  assert (Hl : 0 <= Z.land b 0xffffffff < 2 ^ 32).
  { change 0xffffffff with (Z.ones 32). rewrite Z.land_ones by lia. apply Z.mod_pos_bound. lia. }
  pose proof (public4 _ Hl) as Hp. unfold publicAddress, reserved in *. unfold Unmap in *.
  rewrite E. exact Hp.
Qed.

(** The webhook address filter accepts an address exactly when it
    lies outside every reserved IPv4 or IPv6 block; an IPv4-mapped IPv6 address
    is judged as the IPv4 address it stands for. *)
Theorem publicAddress_blocks a : well_formed a -> publicAddress a = negb (reserved a).
Proof. apply publicAddress_filter. Qed.

Section Destination.
Context {W : Type} `{AlertWorld W}.

Definition webhook_host (u : URL) : string := trim_dot (ToLower (u_Hostname u)).

(** (safety) A webhook URL that passes [ValidateWebhookURL] is at most
    4096 bytes, HTTPS, names a host, carries no user information, fragment or
    opaque part, and any port it gives is 1–65535; its host is not
    [localhost], not under [.localhost] or [.local], and contains no zone or
    separator; and when the host is an address literal, that address is
    outside every reserved block. *)
Theorem ValidateWebhookURL_sound raw u :
  ValidateWebhookURL raw = Ok u ->
  len raw <= 4096 /\ url_parse raw = Some u /\ u_Scheme u = "https" /\
  u_Hostname u <> EmptyString /\ u_HasUser u = false /\ u_Fragment u = EmptyString /\
  u_Opaque u = EmptyString /\
  (u_Port u = EmptyString \/ exists n, Atoi (u_Port u) = Some n /\ 1 <= n <= 65535) /\
  webhook_host u <> "localhost" /\ HasSuffix (webhook_host u) ".localhost" = false /\
  HasSuffix (webhook_host u) ".local" = false /\ ContainsAny (webhook_host u) host_break = false /\
  (forall ip, addr_parse (webhook_host u) = Some ip -> well_formed ip -> reserved ip = false).
Proof.
  unfold ValidateWebhookURL. fold (webhook_host u).
  destruct (4096 <? len raw) eqn:Hlen; [done|].
  destruct (url_parse raw) as [v|] eqn:Hp; [|done].
  destruct (_ || negb (String.eqb (u_Opaque v) "")) eqn:Hshape; [done|].
  destruct (negb (String.eqb (u_Port v) "") && _) eqn:Hport; [done|].
  fold (webhook_host v). destruct (_ || HasSuffix _ ".local") eqn:Hhost; [done|].
  intros E. assert (v = u /\ (forall ip, addr_parse (webhook_host v) = Some ip -> publicAddress ip = true))
    as [-> Hpub].
  { destruct (addr_parse (webhook_host v)) as [ip|]; [|by simplify_eq].
    destruct (publicAddress ip) eqn:Hip; [|done]. simplify_eq. split; [done|]. by intros ? [= <-]. }
  clear E. bool_prop. split_and!; try done; try lia.
  - destruct (String.eqb_spec (u_Port u) EmptyString) as [->|Hne]; [by left|right].
    destruct Hport as [Hport|Hport]; [by bool_prop|].
    destruct (Atoi (u_Port u)) as [n|]; [|done]. bool_prop. exists n. split; [done|lia].
  - intros ip Hip Hwf. specialize (Hpub ip Hip). rewrite publicAddress_filter in Hpub by done.
    by bool_prop.
Qed.
End Destination.
