(* ===== verification/AlertsRuns.v ===== *)
(** * Concrete alert runs

    A world with one rule on a device's reachability, whose store always
    answers; runs of the operations on it, the applications of the alert
    theorems to those runs, and the run in which a clock that steps back while
    an incident is open makes the tick fail. *)

From Stdlib Require Import ZArith Lia Ascii String Floats.SpecFloat.
From stdpp Require Import base gmap list strings.
From S2P Require Import Prelude GoStr F64 Alerts AlertsSpec AlertsAdmin Webhook.

Local Open Scope string_scope.
Local Open Scope Z_scope.

Module Desk.
Record desk := MkDesk { disk : PersistentState; time : Z; reading : Evidence }.

Definition ready_url : URL := MkURL "https" "hooks.example.net" "8443" false "" "".

#[export] Instance desk_world : AlertWorld desk := {
  load := fun w => (Ok (disk w), w);
  save := fun s w => if ValidatePersistentState s then (Ok tt, MkDesk s (time w) (reading w))
                     else (Err (EExternal "alert state is invalid"), w);
  source := fun _ _ w => (Ok (fun id => if id =? 1 then Some (reading w) else None), w);
  send := fun _ _ _ w => (true, w);
  clock := fun w => (time w, w);
  keys_available := fun _ => true;
  unseal := fun c _ => Some c;
  seal := fun c _ => Some c;
  parse_destination := fun _ => Some (MkDestination "https://hooks.example.net:8443/" "t");
  encode_destination := fun _ => [chr 1];
  url_parse := fun s => if String.eqb s "https://hooks.example.net:8443/" then Some ready_url else None;
  addr_parse := fun _ => None;
}.

Definition offline_config : Config := MkConfig "Office AP" "device_offline" 7 f_zero 60 600 true.
Definition idle_rule : RuleRecord := fresh_rule offline_config 1 "serial-7" 0.
Definition hook : Delivery := MkDelivery true "hooks.example.net" true None None "".
Definition idle : PersistentState := MkState [idle_rule] [] [] hook [chr 1] None 1 0.

Definition down (at_ : Z) : Evidence := MkEvidence true (f_of_Z 1) at_ 120 "Office AP" "".
Definition up (at_ : Z) : Evidence := MkEvidence true f_zero at_ 120 "Office AP" "".

(** Two polls a minute apart with the device down. *)
Definition two_polls : list observation := [(down 1000, 1010); (down 1060, 1070)].
Definition firing_rule : RuleRecord := Eval vm_compute in snd (evaluate_seq idle idle_rule two_polls).
Definition firing_state : PersistentState :=
  Eval vm_compute in set_rules (fst (evaluate_seq idle idle_rule two_polls)) [firing_rule].

Definition world_at (s : PersistentState) (t : Z) (e : Evidence) : wstate desk := MkW (MkDesk s t e) [].
End Desk.

Module AlertsWitnesses.
Import Desk.

Definition dummy_incident : Incident := MkIncident 0 0 "" 0 "" "" "" 0 None None "" "".

Lemma readings_bounded e : evidence_bounded e ->
  forall id x, (if id =? 1 then Some e else None) = Some x -> evidence_bounded x.
Proof. intros He id x. destruct (id =? 1); [by intros [= <-]|done]. Qed.

Local Notation tick_run := (Tick (world_at firing_state 1130 (up 1120))).

Lemma Tick_effects_witness :
  exists tr, effects (snd tick_run) = ([] ++ tr)%list /\ Forall saved_valid tr /\
    sends_durable 1130 None tr /\ (sends tr <= 2)%nat /\
    (fst tick_run = Ok tt ->
     head tr = Some (Saved (tick_state firing_state
                              (fun id => if id =? 1 then Some (up 1120) else None) 1130))).
Proof.
  refine (Tick_effects (world_at firing_state 1130 (up 1120)) (fst tick_run) (snd tick_run)
    firing_state (MkDesk firing_state 1130 (up 1120)) 1130 (MkDesk firing_state 1130 (up 1120))
    (fun id => if id =? 1 then Some (up 1120) else None) (MkDesk firing_state 1130 (up 1120))
    (surjective_pairing tick_run) eq_refl eq_refl eq_refl _ _ _).
  - vm_compute; reflexivity.
  - split; [lia|]. split; [|vm_compute; reflexivity]. repeat constructor. vm_compute. discriminate.
  - apply readings_bounded. split; vm_compute; discriminate.
Defined.

(** The run sends both queued notifications. *)
Example tick_run_sends : length (effects (snd tick_run)) = 7%nat /\ fst tick_run = Ok tt.
Proof. vm_compute. split; reflexivity. Qed.

Lemma incident_needs_sustained_breach_witness :
  exists pre mid, ([(down 1000, 1010)] ++ [(down 1060, 1070)])%list = (pre ++ mid)%list /\
    Forall (fun o => breaching idle_rule o = true) mid /\ chained mid /\ spans 60 mid.
Proof.
  apply (incident_needs_sustained_breach idle idle_rule [(down 1000, 1010)] (down 1060) 1070);
    try (vm_compute; reflexivity).
  vm_compute. discriminate.
Defined.

Local Notation recovery := (evaluate firing_state firing_rule (up 1120) 1130).

Lemma recovery_needs_new_observation_witness :
  Forall2 (resolved_or_same 1 1130 f_zero) (s_Incidents firing_state) (s_Incidents (fst recovery)).
Proof.
  destruct (recovery_needs_new_observation firing_state firing_rule (up 1120) 1130
              (fst recovery) (snd recovery) (surjective_pairing recovery)) as [[_ Hb]|Hr].
  - vm_compute. discriminate.
  - vm_compute in Hb. discriminate.
  - exact (proj2 (proj2 (proj2 (proj2 (proj2 (proj2 (proj2 Hr))))))).
Defined.

Definition loss_config : Config := MkConfig "WAN loss" "wan_loss" 7 (f_of_Z 5) 120 600 false.
Local Notation save_run := (SaveRule 0 loss_config "serial-7" (world_at firing_state 1130 (up 1120))).

Lemma SaveRule_saves_witness :
  Validate loss_config = None /\ "serial-7" <> EmptyString /\
  exists s', effects (snd save_run) = ([] ++ [Saved s'])%list /\
    ValidatePersistentState s' = true /\ rule_saved firing_state s' 0 2 loss_config.
Proof.
  refine (SaveRule_saves 0 loss_config "serial-7" (world_at firing_state 1130 (up 1120)) (Ok 2)
    (snd save_run) firing_state (MkDesk firing_state 1130 (up 1120)) _ eq_refl _ _ _).
  - assert (Hr : fst save_run = Ok 2) by (vm_compute; reflexivity).
    rewrite <- Hr. apply surjective_pairing.
  - vm_compute; reflexivity.
  - vm_compute; discriminate.
  - vm_compute; reflexivity.
Defined.

Local Notation delete_run := (DeleteRule 1 (world_at firing_state 1130 (up 1120))).

Lemma DeleteRule_removes_witness :
  exists s', effects (snd delete_run) = ([] ++ [Saved s'])%list /\
    ValidatePersistentState s' = true /\ ids s' = ids firing_state /\
    (exists old, find_rule 1 (s_Rules firing_state) = Some old) /\ find_rule 1 (s_Rules s') = None /\
    (forall id2, id2 <> 1 -> find_rule id2 (s_Rules s') = find_rule id2 (s_Rules firing_state)) /\
    (forall q, q ∈ s_Queue s' -> i_RuleID (n_Incident (q_Notification q)) <> 1).
Proof.
  refine (DeleteRule_removes 1 (world_at firing_state 1130 (up 1120)) (Ok tt) (snd delete_run)
    firing_state (MkDesk firing_state 1130 (up 1120)) _ eq_refl _).
  - assert (Hr : fst delete_run = Ok tt) by (vm_compute; reflexivity).
    rewrite <- Hr. apply surjective_pairing.
  - vm_compute; reflexivity.
Defined.

(** The carrier-grade range is reserved, also when mapped into IPv6. *)
Lemma publicAddress_blocks_witness : publicAddress (V6 (0xffff * 2 ^ 32 + ip4 100 64 3 4) EmptyString) = false.
Proof.
  rewrite (publicAddress_blocks (V6 (0xffff * 2 ^ 32 + ip4 100 64 3 4) EmptyString)).
  - vm_compute. reflexivity.
  - split; [split; vm_compute; (discriminate || reflexivity)|reflexivity].
Defined.

Lemma ValidateWebhookURL_sound_witness :
  u_Scheme ready_url = "https" /\
  (u_Port ready_url = EmptyString \/ exists n, Atoi (u_Port ready_url) = Some n /\ 1 <= n <= 65535).
Proof.
  destruct (ValidateWebhookURL_sound (W := desk) "https://hooks.example.net:8443/" ready_url)
    as (_ & _ & Hs & _ & _ & _ & _ & Hp & _); [vm_compute; reflexivity|].
  split; [exact Hs|exact Hp].
Defined.

Lemma prune_history_witness :
  length (s_Incidents (prune firing_state)) = 1%nat.
Proof.
  destruct (prune_history firing_state) as [Hl _].
  - repeat constructor. vm_compute. set_solver.
  - vm_compute. discriminate.
  - vm_compute. discriminate.
  - rewrite Hl. reflexivity.
Defined.

(** The incident opened at 1070; the clock now reads 1065, and the device is
    back. *)
Local Notation stepped := (world_at firing_state 1065 (up 1062)).

Lemma clock_step_back_fails_tick_witness : ValidatePersistentState firing_state = true /\
  exists er, fst (Tick stepped) = Err er /\ effects (snd (Tick stepped)) = [].
Proof.
  split; [vm_compute; reflexivity|].
  refine (clock_step_back_fails_tick stepped firing_state (MkDesk firing_state 1065 (up 1062)) 1065
    (MkDesk firing_state 1065 (up 1062)) (fun id => if id =? 1 then Some (up 1062) else None)
    (MkDesk firing_state 1065 (up 1062)) firing_rule (up 1062) (default dummy_incident (s_Incidents firing_state !! 0%nat))
    _ eq_refl eq_refl eq_refl _ _ _ _ _ _ _).
  - intros x w Hx. cbn [save desk_world]. rewrite Hx. by eexists _, _.
  - apply (list_elem_of_lookup_2 _ 0%nat). vm_compute. reflexivity.
  - vm_compute. reflexivity.
  - split_and!; vm_compute; (reflexivity || discriminate).
  - apply (list_elem_of_lookup_2 _ 0%nat). vm_compute. reflexivity.
  - vm_compute. reflexivity.
  - vm_compute. reflexivity.
  - vm_compute. discriminate.
Defined.
End AlertsWitnesses.
