(* ===== verification/Sha256.v ===== *)
(** * SHA-256 (crypto/sha256)

    The standard library's hash as the section fingerprints of [RenderPlan]
    use it: the FIPS 180-4 algorithm on byte strings, with 32-bit words as
    integers reduced modulo 2^32, and the lower-case hexadecimal digest. *)

From Stdlib Require Import ZArith Lia Ascii String.
From stdpp Require Import base list strings.
From S2P Require Import Prelude GoStr.

Local Open Scope string_scope.
Local Open Scope Z_scope.

Definition w32 (z : Z) : Z := Z.land z 0xffffffff.
Definition rotr (n x : Z) : Z := w32 (Z.lor (Z.shiftr x n) (Z.shiftl x (32 - n))).

Definition ch (x y z : Z) : Z := Z.lxor (Z.land x y) (Z.land (Z.lxor x 0xffffffff) z).
Definition maj (x y z : Z) : Z := Z.lxor (Z.land x y) (Z.lxor (Z.land x z) (Z.land y z)).
Definition big0 (x : Z) : Z := Z.lxor (rotr 2 x) (Z.lxor (rotr 13 x) (rotr 22 x)).
Definition big1 (x : Z) : Z := Z.lxor (rotr 6 x) (Z.lxor (rotr 11 x) (rotr 25 x)).
Definition small0 (x : Z) : Z := Z.lxor (rotr 7 x) (Z.lxor (rotr 18 x) (Z.shiftr x 3)).
Definition small1 (x : Z) : Z := Z.lxor (rotr 17 x) (Z.lxor (rotr 19 x) (Z.shiftr x 10)).

(** The constants are the first 32 fractional bits of the cube roots of the
    first 64 primes, and of the square roots of the first eight. *)
Definition is_prime (n : nat) : bool :=
  forallb (fun d => negb (Nat.eqb (Nat.modulo n d) 0)) (seq 2 (n - 2)).
Definition primes (bound : nat) : list Z := map Z.of_nat (List.filter is_prime (seq 2 (bound - 2))).

(** The integer cube root below [2^bits], bit by bit from the top. *)
Fixpoint cbrt_bits (bits : nat) (root n : Z) : Z :=
  match bits with
  | O => root
  | S k => let r := root + 2 ^ Z.of_nat k in cbrt_bits k (if r * r * r <=? n then r else root) n
  end.

Definition round_constants : list Z :=
  Eval vm_compute in map (fun p => cbrt_bits 36 0 (p * 2 ^ 96) mod 2 ^ 32) (primes 312).

Definition initial_hash : list Z :=
  Eval vm_compute in map (fun p => Z.sqrt (p * 2 ^ 64) mod 2 ^ 32) (primes 20).

(** The message schedule, newest word first. *)
Fixpoint schedule (n : nat) (w : list Z) : list Z :=
  match n with
  | O => w
  | S n' =>
      let t i := nth i w 0 in
      schedule n' (w32 (small1 (t 1%nat) + t 6%nat + small0 (t 14%nat) + t 15%nat) :: w)
  end.

Definition round (s : list Z) (kw : Z * Z) : list Z :=
  match s with
  | [a; b; c; d; e; f; g; h] =>
      let t1 := h + big1 e + ch e f g + fst kw + snd kw in
      let t2 := big0 a + maj a b c in
      [w32 (t1 + t2); a; b; c; w32 (d + t1); e; f; g]
  | _ => s
  end.

Definition compress (s block : list Z) : list Z :=
  let w := rev (schedule 48 (rev block)) in
  let s' := fold_left round (combine round_constants w) s in
  map (fun p => w32 (fst p + snd p)) (combine s s').

Fixpoint words (l : list Z) : list Z :=
  match l with
  | a :: b :: c :: d :: l' => (((a * 256 + b) * 256 + c) * 256 + d) :: words l'
  | _ => []
  end.

(** [n] big-endian bytes of [z]. *)
Fixpoint be_bytes (n : nat) (z : Z) : list Z :=
  match n with
  | O => []
  | S n' => (be_bytes n' (z / 256) ++ [z mod 256])%list
  end.

Definition pad (m : list Z) : list Z :=
  let n := Z.of_nat (length m) in
  (m ++ 128 :: repeat 0 (Z.to_nat ((55 - n) mod 64)) ++ be_bytes 8 (8 * n))%list.

Fixpoint blocks (fuel : nat) (w : list Z) (s : list Z) : list Z :=
  match fuel, w with
  | O, _ | _, [] => s
  | S fuel', _ => blocks fuel' (drop 16 w) (compress s (take 16 w))
  end.

Definition Sum256 (m : list ascii) : list Z :=
  let w := words (pad (map byte_of m)) in
  flat_map (be_bytes 4) (blocks (length w) w initial_hash).

(** [hex.EncodeToString]. *)
Definition hex_digit (z : Z) : ascii := if z <? 10 then chr (48 + z) else chr (87 + z).
Definition EncodeToString (b : list Z) : string :=
  of_chars (flat_map (fun z => [hex_digit (z / 16); hex_digit (z mod 16)]) b).

Definition hex_sha256 (s : string) : string := EncodeToString (Sum256 (chars s)).

Example sha256_abc :
  hex_sha256 "abc" = "ba7816bf8f01cfea414140de5dae2223b00361a396177a9cb410ff61f20015ad".
Proof. vm_compute. reflexivity. Qed.

Example sha256_two_blocks :
  hex_sha256 "abcdbcdecdefdefgefghfghighijhijkijkljklmklmnlmnomnopnopq" =
  "248d6a61d20638b8e5c026930c3e6039a33ce45964ff2167f6ecedd419db06c1".
Proof. vm_compute. reflexivity. Qed.
