(* ===== verification/RenderPlan.v ===== *)
(** * From a rendered document to staged operations (internal/render)

    What a document is ([Section], [Patch], [Doc]), what is known of a device
    ([Existing]), the ownership rule every section passes on its way into a
    document ([addOwned]), the comparison of a section with the device
    ([matches]), and the operations that close the difference ([Plan],
    [Prune]): [plan.go] and the data of [render.go]. Go maps are [gmap]s; where
    the code ranges over one and the order shows in the result, it sorts first,
    and so does the model. The operations are those of [ApplyEngine]. *)

From Stdlib Require Import ZArith Lia Ascii String.
From stdpp Require Import base gmap list strings sorting.
From S2P Require Import Prelude GoStr Sha256 ApplyEngine.

Local Open Scope string_scope.
Local Open Scope Z_scope.

(** ** Data *)

Definition NamePrefix : string := "oowrt".
Definition ListsKey : string := ".oowrt_lists".

(** One section's options as [flatten] reads them. *)
Notation options := (gmap string string) (only parsing).

(** [current[k]]: a missing key reads as the empty string. *)
Definition get (m : options) (k : string) : string := default "" (m !! k).
Definition has {V} (m : gmap string V) (k : string) : bool := bool_decide (is_Some (m !! k)).

Record Section := MkSection {
  sec_Config : string;
  sec_Type : string;
  sec_Name : string;
  sec_Values : gmap string string;
  sec_Lists : gmap string (list string);
  sec_Manages : list string;
}.

Record Patch := MkPatch {
  p_Config : string;
  p_Section : string;
  p_Values : gmap string string;
  p_Deletes : list string;
}.

Definition SectionRef : Type := string * string.

Record Doc := MkDoc {
  DeviceID : Z;
  Sections : list Section;
  Patches : list Patch;
  Retain : list SectionRef;
  Blind : list string;
}.

Record Conflict := MkConflict { con_Config : string; con_Section : string; con_Reason : string }.

(** ** Reports *)

Definition KindUnclassified : string := "".
Definition KindCaution : string := "caution".
Definition KindUndetermined : string := "undetermined".

Record Omission := MkOmission { om_WLAN : string; om_Reason : string; om_Kind : string }.

Record Warning := MkWarning {
  wa_WLAN : string;
  wa_DefectID : string;
  wa_Summary : string;
  wa_Detail : string;
  wa_Confidence : string;
  wa_Severity : string;
  wa_Mitigation : string;
  wa_Source : string;
}.

Record Report := MkReport {
  Omissions : list Omission;
  Conflicts : list Conflict;
  Warnings : list Warning;
}.

Definition addWarning (r : Report) (w : Warning) : Report :=
  if existsb (fun x => String.eqb (wa_DefectID x) (wa_DefectID w) && String.eqb (wa_WLAN x) (wa_WLAN w)) (Warnings r)
  then r else MkReport (Omissions r) (Conflicts r) (Warnings r ++ [w])%list.

Definition HasConflicts (r : Report) : bool := negb (Nat.eqb (length (Conflicts r)) 0).

Definition add_conflict (r : Report) (c : Conflict) : Report :=
  MkReport (Omissions r) (Conflicts r ++ [c])%list (Warnings r).

(** [Existing]: config, then section, then its options. *)
Notation Existing := (gmap string (gmap string (gmap string string))) (only parsing).

Definition In_ (e : Existing) (config : string) : gmap string options := default ∅ (e !! config).

Definition OwnedIn (e : Existing) (config section : string) : bool :=
  match In_ e config !! section with
  | Some vals => String.eqb (get vals OwnershipTag) "1"
  | None => false
  end.

(** [StoredAsList]: how the device holds the option, and whether that is known. *)
Definition StoredAsList (current : options) (option : string) : bool * bool :=
  match current !! ListsKey with
  | None => (false, false)
  | Some raw => (bool_decide (option ∈ Fields raw), true)
  end.

(** ** The document *)

Definition sec_ref (s : Section) : SectionRef := (sec_Config s, sec_Name s).
Definition patch_ref (p : Patch) : SectionRef := (p_Config p, p_Section p).

(** [Doc.Validate]: the reference of the first repeated section. *)
Fixpoint first_duplicate (seen : list SectionRef) (l : list Section) : option SectionRef :=
  match l with
  | [] => None
  | s :: l' => if bool_decide (sec_ref s ∈ seen) then Some (sec_ref s)
               else first_duplicate (sec_ref s :: seen) l'
  end.

Definition Validate (d : Doc) : option string :=
  match first_duplicate [] (Sections d) with
  | Some (config, name) => Some ("duplicate desired section " ++ config ++ "." ++ name)
  | None => None
  end.

Definition retained (d : Doc) (config name : string) : bool :=
  existsb (fun r => String.eqb (fst r) config && String.eqb (snd r) name) (Retain d).

Definition blind (d : Doc) (config : string) : bool := existsb (fun c => String.eqb c config) (Blind d).

Definition Configs (d : Doc) : list string :=
  sort_strings (first_seen (map sec_Config (Sections d) ++ map p_Config (Patches d))%list).

(** ** The ownership rule *)

Definition duplicate_reason (s : Section) : string :=
  "the desired site state renders " ++ sec_Config s ++ "." ++ sec_Name s ++
  " more than once. Distinct site names can collapse to the same UCI " ++
  "section after normalization; applying either copy would silently let " ++
  "one claim overwrite the other. Rename the colliding site objects so " ++
  "they remain distinct after lowercasing, mapping hyphens and spaces to " ++
  "underscores, and removing other punctuation.".

Definition foreign_reason (s : Section) : string :=
  "a section named " ++ sec_Name s ++ " already exists in " ++ sec_Config s ++
  " without oonfeeWRT's ownership marker (option " ++ OwnershipTag ++
  " '1'), so it was written by hand or by an older " ++
  "install — and oonfeeWRT never overwrites config it did not " ++
  "write. To unblock this apply, rename or delete that section on " ++
  "the device, or add `option " ++ OwnershipTag ++ " '1'` to it if it " ++
  "really is ours from a previous install.".

Definition patch_reason (p : Patch) : string :=
  "more than one desired network targets the existing " ++ p_Config p ++ "." ++ p_Section p ++
  " section for IPv6 policy. " ++
  "oonfeeWRT will not choose which policy overwrites the other; give " ++
  "the management networks distinct interface targets".

Definition with_section (d : Doc) (s : Section) : Doc :=
  MkDoc (DeviceID d) (Sections d ++ [s])%list (Patches d) (Retain d) (Blind d).
Definition with_patch (d : Doc) (p : Patch) : Doc :=
  MkDoc (DeviceID d) (Sections d) (Patches d ++ [p])%list (Retain d) (Blind d).

(** [addOwned] and [addPatch]: the document and the report's conflicts. *)
Definition addOwned (d : Doc) (conflicts : list Conflict) (e : Existing) (s : Section)
    : Doc * list Conflict :=
  if existsb (fun w => bool_decide (sec_ref w = sec_ref s)) (Sections d)
  then (d, conflicts ++ [MkConflict (sec_Config s) (sec_Name s) (duplicate_reason s)])%list
  else if has (In_ e (sec_Config s)) (sec_Name s) && negb (OwnedIn e (sec_Config s) (sec_Name s))
  then (d, conflicts ++ [MkConflict (sec_Config s) (sec_Name s) (foreign_reason s)])%list
  else (with_section d s, conflicts).

Definition addPatch (d : Doc) (conflicts : list Conflict) (p : Patch) : Doc * list Conflict :=
  if existsb (fun w => bool_decide (patch_ref w = patch_ref p)) (Patches d)
  then (d, conflicts ++ [MkConflict (p_Config p) (p_Section p) (patch_reason p)])%list
  else (with_patch d p, conflicts).

(** ** Sorting *)

Definition ref_le (a b : SectionRef) : Prop :=
  if String.eqb (fst a) (fst b) then str_le (snd a) (snd b) else str_le (fst a) (fst b).
#[export] Instance ref_le_dec a b : Decision (ref_le a b).
Proof. unfold ref_le. destruct (String.eqb _ _); apply _. Defined.

Definition by_ref {A} (ref : A -> SectionRef) (a b : A) : Prop := ref_le (ref a) (ref b).
#[export] Instance by_ref_dec {A} (ref : A -> SectionRef) a b : Decision (by_ref ref a b).
Proof. unfold by_ref. apply _. Defined.

Definition sortedSections (l : list Section) : list Section := merge_sort (by_ref sec_ref) l.
Definition sortedPatches (l : list Patch) : list Patch := merge_sort (by_ref patch_ref) l.
Definition sorted_refs (l : list SectionRef) : list SectionRef := merge_sort ref_le l.

Definition keys {V} (m : gmap string V) : list string := map fst (map_to_list m).
Definition sortedKeys (m : gmap string (list string)) : list string := sort_strings (keys m).

(** ** Comparing a section with the device *)

Definition managedButUnwritten (s : Section) (current : options) : list string :=
  sort_strings (filter (fun k => negb (has (sec_Values s) k) && negb (has (sec_Lists s) k) &&
                                 has current k = true) (sec_Manages s)).

(** An option the device is known to hold in the wrong shape. *)
Definition wrong_shape (current : options) (option : string) : bool :=
  let '(isList, known) := StoredAsList current option in known && negb isList.

Definition matches (s : Section) (current : options) : bool :=
  forallb (fun kv => String.eqb (get current (fst kv)) (snd kv)) (map_to_list (sec_Values s)) &&
  Nat.eqb (length (managedButUnwritten s current)) 0 &&
  forallb (fun kv => String.eqb (get current (fst kv)) (Join (snd kv) " ") &&
                     negb (wrong_shape current (fst kv))) (map_to_list (sec_Lists s)).

(** ** Operations *)

Definition forbiddenPatchOption (option : string) : bool :=
  String.eqb option OwnershipTag || String.eqb option ".type" || String.eqb option ".name".

Definition add_op (s : Section) : Op :=
  MkOp OpAdd (sec_Config s) (sec_Name s) (sec_Type s) (sec_Name s)
       (map_to_list (sec_Values s)) (map_to_list (sec_Lists s)) "" false.
Definition set_op (s : Section) : Op :=
  MkOp OpSet (sec_Config s) (sec_Name s) (sec_Type s) (sec_Name s)
       (map_to_list (sec_Values s)) (map_to_list (sec_Lists s)) "" false.
Definition delete_option (config section option : string) : Op :=
  MkOp OpDelete config section "" "" [] [] option false.
Definition delete_section (config section : string) : Op :=
  MkOp OpDelete config section "" "" [] [] "" false.
Definition patch_op (p : Patch) (changed : gmap string string) : Op :=
  MkOp OpSet (p_Config p) (p_Section p) "" "" (map_to_list changed) [] "" true.

(** The body of [Plan]'s loop over sections. *)
Definition section_ops (e : Existing) (s : Section) : list Op :=
  match In_ e (sec_Config s) !! sec_Name s with
  | None => [add_op s]
  | Some current =>
      if matches s current then []
      else (map (delete_option (sec_Config s) (sec_Name s))
                (filter (fun k => has current k && wrong_shape current k = true) (sortedKeys (sec_Lists s))) ++
            map (delete_option (sec_Config s) (sec_Name s)) (managedButUnwritten s current) ++
            [set_op s])%list
  end.

(** The options of a patch that differ from the device. *)
Definition patch_changes (current : options) (p : Patch) : gmap string string :=
  filter (fun kv => forbiddenPatchOption (fst kv) || String.eqb (get current (fst kv)) (snd kv) = false)
         (p_Values p).

Definition patch_ops (e : Existing) (p : Patch) : list Op :=
  match In_ e (p_Config p) !! p_Section p with
  | None => []
  | Some current =>
      (map (delete_option (p_Config p) (p_Section p))
           (filter (fun k => negb (forbiddenPatchOption k) && has current k = true)
                   (sort_strings (p_Deletes p))) ++
       (let changed := patch_changes current p in
        if bool_decide (changed = ∅) then [] else [patch_op p changed]))%list
  end.

Definition Plan_ (d : Doc) (e : Existing) : Plan :=
  MkPlan (flat_map (section_ops e) (sortedSections (Sections d)) ++
          flat_map (patch_ops e) (sortedPatches (Patches d)))%list 0 false.

(** [Prune]: whole owned sections the render decided against. *)
Definition wanted (d : Doc) (r : SectionRef) : bool := bool_decide (r ∈ map sec_ref (Sections d)).

Definition all_refs (e : Existing) : list SectionRef :=
  flat_map (fun c => map (fun n => (fst c, n)) (keys (snd c))) (map_to_list e).

Definition is_stale (d : Doc) (e : Existing) (r : SectionRef) : bool :=
  negb (blind d (fst r)) && negb (wanted d r) && OwnedIn e (fst r) (snd r) &&
  negb (retained d (fst r) (snd r)).

Definition stale (d : Doc) (e : Existing) : list SectionRef :=
  sorted_refs (filter (fun r => is_stale d e r = true) (all_refs e)).

Definition Prune (d : Doc) (e : Existing) : list Op :=
  map (fun r => delete_section (fst r) (snd r)) (stale d e).

Definition Preserved (d : Doc) (e : Existing) (config name : string) : bool :=
  if existsb (fun s => bool_decide (sec_ref s = (config, name))) (Sections d) then false
  else if negb (OwnedIn e config name) then false
  else blind d config || retained d config name.

(** ** Fingerprints *)

Definition nul : string := String (chr 0) "".
Definition unit_sep : string := String (chr 31) "".

(** What [Hash] feeds to SHA-256. *)
Definition hash_input (s : Section) : string :=
  sec_Config s ++ nul ++ sec_Type s ++ nul ++ sec_Name s ++ nul ++
  String.concat "" (map (fun k => k ++ nul ++ get (sec_Values s) k ++ nul) (sort_strings (keys (sec_Values s)))) ++
  String.concat "" (map (fun k => k ++ nul ++ Join (default [] (sec_Lists s !! k)) unit_sep ++ nul)
                        (sortedKeys (sec_Lists s))).

Definition Hash (s : Section) : string := hex_sha256 (hash_input s).
