(* ===== verification/RenderPlanSpec.v ===== *)
(** * What the planned operations achieve

    Theorems about [RenderPlan]: documents built through the ownership rule
    name each section once and no foreign one; what is pruned, what is
    preserved and what is rendered partition the owned sections; an operation
    list is empty exactly when every section matches; and running the planned
    operations on a device makes the next plan empty and touches no section
    that the operations do not name. *)

From Stdlib Require Import ZArith Lia Ascii String.
From stdpp Require Import base gmap list strings sorting.
From S2P Require Import Prelude GoStr ApplyEngine RenderPlan.

Local Open Scope string_scope.
Local Open Scope Z_scope.

(** ** Maps as association lists *)

Lemma assoc_list_to_map {V} (l : list (string * V)) k : assoc k l = list_to_map (M := gmap string V) l !! k.
Proof.
  induction l as [|[k' v] l IH]; simpl; [done|]. destruct (String.eqb_spec k k') as [->|Hne].
  - by rewrite lookup_insert_eq.
  - by rewrite lookup_insert_ne.
Qed.

Lemma assoc_in {V} k (v : V) l : assoc k l = Some v -> k ∈ map fst l.
Proof.
  induction l as [|[k' v'] l IH]; simpl; [done|]. destruct (String.eqb_spec k k') as [->|]; [by left|].
  intros Hk. right. by apply IH.
Qed.
Lemma assoc_map_to_list {V} (m : gmap string V) k : assoc k (map_to_list m) = m !! k.
Proof. by rewrite assoc_list_to_map, list_to_map_to_list. Qed.

Lemma has_true {V} (m : gmap string V) k : has m k = true <-> is_Some (m !! k).
Proof. unfold has. apply bool_decide_eq_true. Qed.
Lemma has_false {V} (m : gmap string V) k : has m k = false <-> m !! k = None.
Proof. unfold has. rewrite bool_decide_eq_false, eq_None_not_Some. done. Qed.

Lemma elem_of_keys {V} (m : gmap string V) k : k ∈ keys m <-> is_Some (m !! k).
Proof.
  unfold keys. rewrite list_elem_of_fmap. split.
  - intros ([k' v] & -> & Hin). apply elem_of_map_to_list in Hin. by eexists.
  - intros [v Hv]. exists (k, v). by rewrite elem_of_map_to_list.
Qed.

Lemma filter_empty {A} (P : A -> Prop) `{forall x, Decision (P x)} (l : list A) :
  (forall x, x ∈ l -> ~ P x) -> filter P l = [].
Proof.
  intros Hn. destruct (filter P l) as [|x r] eqn:E; [done|]. exfalso.
  assert (Hx : x ∈ filter P l) by (rewrite E; left). apply list_elem_of_filter in Hx as [Hp Hx].
  by apply (Hn x).
Qed.

(** ** When a section matches *)

Definition settled (s : Section) (current : options) : Prop :=
  (forall k v, sec_Values s !! k = Some v -> get current k = v) /\
  (forall k vs, sec_Lists s !! k = Some vs -> get current k = Join vs " " /\ wrong_shape current k = false) /\
  (forall k, k ∈ sec_Manages s -> sec_Values s !! k = None -> sec_Lists s !! k = None -> current !! k = None).

Lemma matches_iff s current : matches s current = true <-> settled s current.
Proof.
  unfold matches, settled. rewrite !andb_true_iff, !forallb_true_iff, Nat.eqb_eq. split.
  - intros [[Hv Hm] Hl]. split_and!.
    + intros k v Hk. apply elem_of_map_to_list in Hk. apply Hv in Hk. by apply String.eqb_eq in Hk.
    + intros k vs Hk. apply elem_of_map_to_list in Hk. apply Hl in Hk. simpl in Hk. by bool_prop.
    + intros k Hk H1 H2. destruct (current !! k) eqn:E; [|done].
      apply nil_length_inv in Hm. assert (Hin : k ∈ managedButUnwritten s current); [|by rewrite Hm in Hin; inv Hin].
      unfold managedButUnwritten. rewrite elem_of_sort_strings. apply list_elem_of_filter.
      split; [|done]. bool_goal; [by apply has_false|by apply has_false|by apply has_true].
  - intros (Hv & Hl & Hm). split; [split|].
    + intros [k v] Hk. apply elem_of_map_to_list in Hk. by apply String.eqb_eq, Hv.
    + destruct (managedButUnwritten s current) as [|k l] eqn:E; [done|]. exfalso.
      assert (Hin : k ∈ managedButUnwritten s current) by (rewrite E; left).
      unfold managedButUnwritten in Hin. rewrite elem_of_sort_strings in Hin.
      apply list_elem_of_filter in Hin as [Hf Hin]. bool_prop.
      apply has_true in H0 as [? H0]. rewrite Hm in H0; [done|done| |]; by apply has_false.
    + intros [k vs] Hk. apply elem_of_map_to_list in Hk. simpl. destruct (Hl k vs Hk) as [-> ->].
      by rewrite String.eqb_refl.
Qed.

(** ** The router's configuration store *)

(** UCI's own metadata, which no operation writes. *)
Definition metadata (k : string) : bool := HasPrefix k ".".

(** The options an operation assigns as strings: whole-section operations add
    the ownership marker (see [stage_call]). *)
Definition written (op : Op) : list (string * string) :=
  if ApplyEngine.Patch op then Values op else withOwnership (Values op).

Definition target (op : Op) : SectionRef := (Config op, Section_ op).
Definition at_ref (e : Existing) (r : SectionRef) : option options := In_ e (fst r) !! snd r.

(** What rpcd's [uci] object is documented to do with the staged operations, in
    terms of what reading the device afterwards returns: [add] of a named
    section creates it with the given options, [set] assigns options and leaves
    the others, [delete] removes one option or the section, and no operation
    touches another section. *)
Class UciDevice (D : Type) := {
  view : D -> Existing;
  exec : Op -> D -> D;
  exec_frame : forall op d r, r <> target op -> at_ref (view (exec op d)) r = at_ref (view d) r;
  exec_write : forall op d old,
    Kind op = OpAdd /\ at_ref (view d) (target op) = None /\ old = ∅ \/
    Kind op = OpSet /\ at_ref (view d) (target op) = Some old ->
    NoDup (map fst (written op)) -> NoDup (map fst (Lists op)) ->
    (forall k, is_Some (assoc k (written op)) -> assoc k (Lists op) = None) ->
    exists cur, at_ref (view (exec op d)) (target op) = Some cur /\
      (forall k v, assoc k (written op) = Some v -> metadata k = false -> get cur k = v) /\
      (forall k vs, assoc k (Lists op) = Some vs -> metadata k = false -> clean k = true -> vs <> [] ->
                    get cur k = Join vs " " /\ StoredAsList cur k = (true, true)) /\
      (forall k, assoc k (written op) = None -> assoc k (Lists op) = None -> metadata k = false ->
                 cur !! k = old !! k);
  exec_delete_option : forall op d old,
    Kind op = OpDelete -> Option_ op <> EmptyString -> at_ref (view d) (target op) = Some old ->
    exists cur, at_ref (view (exec op d)) (target op) = Some cur /\ cur !! Option_ op = None /\
      (forall k, k <> Option_ op -> metadata k = false -> cur !! k = old !! k);
  exec_delete_section : forall op d,
    Kind op = OpDelete -> Option_ op = EmptyString -> at_ref (view (exec op d)) (target op) = None;
}.

Definition exec_all {D} `{UciDevice D} (ops : list Op) (d : D) : D := fold_left (fun d op => exec op d) ops d.

Section Convergence.
Context {D : Type} `{UciDevice D}.

Lemma exec_all_app ops1 ops2 (d : D) : exec_all (ops1 ++ ops2) d = exec_all ops2 (exec_all ops1 d).
Proof. apply fold_left_app. Qed.

Lemma exec_all_frame ops (d : D) r : Forall (fun op => target op <> r) ops ->
  at_ref (view (exec_all ops d)) r = at_ref (view d) r.
Proof.
  revert d. induction ops as [|op ops IH]; intros d Hf; [done|]. apply Forall_cons in Hf as [Ho Hf].
  simpl. unfold exec_all in *. simpl. rewrite IH by done. apply exec_frame. congruence.
Qed.

(** Blocks of operations, each on its own section. *)
Definition own_block (b : SectionRef * list Op) : Prop := Forall (fun op => target op = fst b) (snd b).

(** A section ends up as its own block leaves it, run on a device that holds
    the section as the original one does. *)
Lemma exec_blocks (bs : list (SectionRef * list Op)) : forall d : D,
  NoDup (map fst bs) -> Forall own_block bs ->
  (forall b, b ∈ bs -> exists d0, at_ref (view d0) (fst b) = at_ref (view d) (fst b) /\
     at_ref (view (exec_all (flat_map snd bs) d)) (fst b) = at_ref (view (exec_all (snd b) d0)) (fst b)) /\
  (forall r, r ∉ map fst bs ->
     at_ref (view (exec_all (flat_map snd bs) d)) r = at_ref (view d) r).
Proof.
  induction bs as [|b bs IH]; intros d Hnd Hf; simpl; [split; [intros b Hb; inv Hb|done]|].
  inv Hnd. apply Forall_cons in Hf as [Hb Hf].
  destruct (IH (exec_all (snd b) d)) as [IHin IHout]; [done|done|].
  assert (Hframe : forall r, r <> fst b -> at_ref (view (exec_all (snd b) d)) r = at_ref (view d) r).
  { intros r Hr. apply exec_all_frame. apply (Forall_impl _ _ _ Hb). intros op ->. congruence. }
  rewrite exec_all_app. split.
  - intros x Hx. apply elem_of_cons in Hx as [->|Hx].
    + exists d. split; [done|]. by apply IHout.
    + destruct (IHin x Hx) as (d0 & Hd0 & Hend). exists d0. split; [|done]. rewrite Hd0.
      apply Hframe. intros Heq. apply H2. rewrite <- Heq. apply list_elem_of_fmap. by exists x.
  - intros r Hr. apply not_elem_of_cons in Hr as [Hr1 Hr2]. rewrite IHout by done. by apply Hframe.
Qed.

(** A section no block is on is left alone; one that a single block is on ends
    up as that block leaves it, whatever the other blocks do. *)
Lemma exec_elsewhere (bs : list (SectionRef * list Op)) (d : D) r : Forall own_block bs -> r ∉ map fst bs ->
  at_ref (view (exec_all (flat_map snd bs) d)) r = at_ref (view d) r.
Proof.
  revert d. induction bs as [|b bs IH]; intros d Hf Hr; [done|]. apply Forall_cons in Hf as [Hb Hf].
  cbn [map] in Hr. apply not_elem_of_cons in Hr as [Hr1 Hr2]. cbn [flat_map]. rewrite exec_all_app, IH by done.
  apply exec_all_frame. apply (Forall_impl _ _ _ Hb). intros op ->. congruence.
Qed.
Lemma exec_only bs1 r ops bs2 (d : D) : Forall own_block (bs1 ++ (r, ops) :: bs2) -> r ∉ map fst bs1 -> r ∉ map fst bs2 ->
  exists d0, at_ref (view d0) r = at_ref (view d) r /\
    at_ref (view (exec_all (flat_map snd (bs1 ++ (r, ops) :: bs2)) d)) r = at_ref (view (exec_all ops d0)) r.
Proof.
  intros [H1 [_ H2]%Forall_cons]%Forall_app Hr1 Hr2. exists (exec_all (flat_map snd bs1) d). split; [by apply exec_elsewhere|].
  rewrite flat_map_app. cbn [flat_map snd]. rewrite !exec_all_app. by apply exec_elsewhere.
Qed.
End Convergence.

(** ** One section's block *)

(** A section the renderer may produce: UCI option names, no metadata, no
    option both string and list, no empty list, and the ownership marker, where
    given, saying 1. *)
Record wf_section (s : Section) : Prop := {
  wf_values : forall k v, sec_Values s !! k = Some v ->
    metadata k = false /\ sec_Lists s !! k = None /\ (k = OwnershipTag -> v = "1");
  wf_lists : forall k vs, sec_Lists s !! k = Some vs ->
    metadata k = false /\ clean k = true /\ vs <> [] /\ k <> OwnershipTag;
  wf_manages : forall k, k ∈ sec_Manages s ->
    metadata k = false /\ k <> EmptyString /\ k <> OwnershipTag;
}.

Lemma NoDup_map_fst_to_list {V} (m : gmap string V) : NoDup (map fst (map_to_list m)).
Proof. apply NoDup_fst_map_to_list. Qed.

Lemma assoc_set_fst {V} k (v : V) l x :
  x ∈ map fst (assoc_set k v l) -> x = k \/ x ∈ map fst l.
Proof.
  induction l as [|[k' v'] l IH]; simpl; intros Hx; [left; by apply list_elem_of_singleton in Hx|].
  destruct (String.eqb_spec k k') as [->|Hne]; simpl in Hx.
  - apply elem_of_cons in Hx as [->|?]; [by left|right; by right].
  - apply elem_of_cons in Hx as [->|Hx]; [right; by left|]. destruct (IH Hx); [by left|right; by right].
Qed.

Lemma NoDup_assoc_set {V} k (v : V) l : NoDup (map fst l) -> NoDup (map fst (assoc_set k v l)).
Proof.
  induction l as [|[k' v'] l IH]; simpl; intros Hl; [apply NoDup_singleton|]. inv Hl.
  destruct (String.eqb_spec k k') as [->|Hne]; simpl; constructor; try done; [|by apply IH].
  intros Hx. apply assoc_set_fst in Hx as [?|?]; [congruence|done].
Qed.

(** What [set] and [add] write for a whole section. *)
Lemma written_lookup s k (op := set_op s) :
  assoc k (withOwnership (map_to_list (sec_Values s))) =
  if String.eqb k OwnershipTag then Some "1" else sec_Values s !! k.
Proof.
  unfold withOwnership. destruct (String.eqb_spec k OwnershipTag) as [->|Hne].
  - apply assoc_set_same.
  - rewrite assoc_set_other by done. apply assoc_map_to_list.
Qed.

Section Sections.
Context {D : Type} `{UciDevice D}.

Lemma exec_deletes c n ks : forall (d : D) old,
  Forall (fun k => k <> EmptyString) ks -> at_ref (view d) (c, n) = Some old ->
  exists cur, at_ref (view (exec_all (map (delete_option c n) ks) d)) (c, n) = Some cur /\
    (forall k, k ∈ ks -> metadata k = false -> cur !! k = None) /\
    (forall k, k ∉ ks -> metadata k = false -> cur !! k = old !! k).
Proof.
  induction ks as [|k ks IH]; intros d old Hne Hold; simpl.
  - exists old. split; [done|]. split; [|done]. intros k Hk. inv Hk.
  - apply Forall_cons in Hne as [Hk Hne].
    destruct (exec_delete_option (delete_option c n k) d old) as (c1 & Hc1 & Hgone & Hrest); [done|done|done|].
    destruct (IH (exec (delete_option c n k) d) c1 Hne Hc1) as (cur & Hcur & Hin & Hout).
    exists cur. split; [exact Hcur|]. simpl in *. split.
    + intros x Hx Hm. destruct (decide (x ∈ ks)) as [?|Hnin]; [by apply Hin|].
      apply elem_of_cons in Hx as [->|?]; [|done]. by rewrite Hout.
    + intros x Hx Hm. apply not_elem_of_cons in Hx as [??]. rewrite Hout by done. by apply Hrest.
Qed.

(** The final [add] or [set] settles the section, given that the managed
    options it does not write are gone. *)
Lemma write_settles s op (d : D) old :
  wf_section s -> (op = add_op s /\ at_ref (view d) (sec_ref s) = None /\ old = ∅ \/
                   op = set_op s /\ at_ref (view d) (sec_ref s) = Some old) ->
  (forall k, k ∈ sec_Manages s -> sec_Values s !! k = None -> sec_Lists s !! k = None -> old !! k = None) ->
  exists cur, at_ref (view (exec op d)) (sec_ref s) = Some cur /\ settled s cur /\ get cur OwnershipTag = "1".
Proof.
  intros [Hwv Hwl Hwm] Hop Hold.
  assert (Ht : target op = sec_ref s /\ written op = withOwnership (map_to_list (sec_Values s)) /\
               Lists op = map_to_list (sec_Lists s)) by (destruct Hop as [(-> & _)|(-> & _)]; done).
  destruct Ht as (Ht & Hw & Hl).
  destruct (exec_write op d old) as (cur & Hcur & Hval & Hlist & Hrest).
  - rewrite Ht. destruct Hop as [(-> & ? & ?)|(-> & ?)]; [by left|by right].
  - rewrite Hw. apply NoDup_assoc_set, NoDup_map_fst_to_list.
  - rewrite Hl. apply NoDup_map_fst_to_list.
  - intros k. rewrite Hw, Hl, written_lookup, assoc_map_to_list.
    destruct (String.eqb_spec k OwnershipTag) as [->|Hne].
    + intros _. destruct (sec_Lists s !! OwnershipTag) eqn:E; [|done]. by apply Hwl in E as (?&?&?&?).
    + intros [v Hv]. by apply Hwv in Hv as (_ & ? & _).
  - rewrite Ht in Hcur. exists cur. split; [done|].
    assert (Htag : get cur OwnershipTag = "1").
    { apply Hval; [|reflexivity]. by rewrite Hw, written_lookup, String.eqb_refl. }
    split; [|done]. split_and!.
    + intros k v Hk. destruct (Hwv k v Hk) as (Hm & _ & Htg). destruct (decide (k = OwnershipTag)) as [->|Hne].
      * by rewrite Htag, Htg.
      * apply Hval; [|done]. rewrite Hw, written_lookup. by apply String.eqb_neq in Hne as ->.
    + intros k vs Hk. destruct (Hwl k vs Hk) as (Hm & Hc & Hne & _).
      destruct (Hlist k vs) as [Hg Hs]; [by rewrite Hl, assoc_map_to_list|done..|].
      split; [done|]. unfold wrong_shape. by rewrite Hs.
    + intros k Hk Hkv Hkl. destruct (Hwm k Hk) as (Hm & _ & Hne).
      rewrite Hrest; [by apply Hold| | |done].
      * rewrite Hw, written_lookup. by apply String.eqb_neq in Hne as ->.
      * by rewrite Hl, assoc_map_to_list.
Qed.
End Sections.

Record wf_patch (p : Patch) : Prop := {
  wf_pvalues : forall k v, p_Values p !! k = Some v -> metadata k = false /\ k ∉ p_Deletes p;
  wf_pdeletes : forall k, k ∈ p_Deletes p -> metadata k = false /\ k <> EmptyString;
}.

(** The options a patch leaves alone: those it does not name, and the marker
    and metadata it may not. *)
Definition outside_patch (p : Patch) (k : string) : Prop :=
  forbiddenPatchOption k = true \/ (k ∉ p_Deletes p /\ p_Values p !! k = None).

(** A patch the device already satisfies. *)
Definition patch_settled (p : Patch) (cur : options) : Prop :=
  (forall k, k ∈ p_Deletes p -> forbiddenPatchOption k = false -> cur !! k = None) /\
  (forall k v, p_Values p !! k = Some v -> forbiddenPatchOption k = false -> get cur k = v).

Lemma patch_changes_lookup current p k v :
  patch_changes current p !! k = Some v <->
  p_Values p !! k = Some v /\ forbiddenPatchOption k = false /\ get current k <> v.
Proof.
  unfold patch_changes. rewrite map_lookup_filter_Some. simpl. rewrite orb_false_iff, String.eqb_neq. tauto.
Qed.

Lemma patch_settled_ops e p cur : at_ref e (patch_ref p) = Some cur -> patch_settled p cur -> patch_ops e p = [].
Proof.
  intros Hcur [Hd Hv]. unfold patch_ops.
  change (In_ e (p_Config p) !! p_Section p) with (at_ref e (patch_ref p)). rewrite Hcur.
  rewrite filter_empty; cycle 1.
  - intros k Hk. rewrite elem_of_sort_strings in Hk. destruct (forbiddenPatchOption k) eqn:E; [done|]. simpl.
    rewrite (proj2 (has_false _ _)); [done|]. by apply Hd.
  - simpl. rewrite bool_decide_eq_true_2; [done|]. apply map_empty. intros k.
    destruct (patch_changes cur p !! k) as [v|] eqn:E; [|done].
    apply patch_changes_lookup in E as (? & ? & Hne). by destruct Hne; apply Hv.
Qed.

Section Blocks.
Context {D : Type} `{UciDevice D}.

Lemma section_block_settles s e (d : D) :
  wf_section s -> at_ref (view d) (sec_ref s) = at_ref e (sec_ref s) ->
  exists cur, at_ref (view (exec_all (section_ops e s) d)) (sec_ref s) = Some cur /\ settled s cur /\
              (get cur OwnershipTag = "1" \/ at_ref e (sec_ref s) = Some cur).
Proof.
  intros Hwf Hd. unfold section_ops. change (In_ e (sec_Config s) !! sec_Name s) with (at_ref e (sec_ref s)).
  destruct (at_ref e (sec_ref s)) as [old|] eqn:Eold; cycle 1.
  { destruct (write_settles s (add_op s) d ∅ Hwf) as (cur & ? & ? & ?); [by left| |exists cur; split_and!; auto].
    intros. apply lookup_empty. }
  destruct (matches s old) eqn:Em; [exists old; split_and!; [done|by apply matches_iff|by right]|].
  set (ks := filter _ (sortedKeys (sec_Lists s))).
  assert (Hks : forall k, k ∈ ks -> is_Some (sec_Lists s !! k)).
  { intros k Hk. apply list_elem_of_filter in Hk as [_ Hk]. unfold sortedKeys in Hk.
    by rewrite elem_of_sort_strings, elem_of_keys in Hk. }
  assert (Hms : forall k, k ∈ managedButUnwritten s old -> k ∈ sec_Manages s).
  { intros k Hk. unfold managedButUnwritten in Hk. rewrite elem_of_sort_strings in Hk.
    by apply list_elem_of_filter in Hk as [_ ?]. }
  rewrite app_assoc, <- map_app, exec_all_app. simpl.
  destruct (exec_deletes (sec_Config s) (sec_Name s) (ks ++ managedButUnwritten s old) d old)
    as (c1 & Hc1 & Hin & Hout); [|done|].
  { apply Forall_app. split; apply Forall_forall; intros k Hk.
    - destruct (Hks k Hk) as [vs Hvs]. apply (wf_lists s Hwf) in Hvs as (_ & Hcl & _).
      intros ->. done.
    - by destruct (wf_manages s Hwf k (Hms k Hk)) as (_ & ? & _). }
  destruct (write_settles s (set_op s) (exec_all _ d) c1 Hwf (or_intror (conj eq_refl Hc1)))
    as (cur & Hcur & Hs & Htag); [|exists cur; split_and!; auto].
  intros k Hk Hv Hl. destruct (wf_manages s Hwf k Hk) as (Hm & _ & _).
  destruct (decide (k ∈ (ks ++ managedButUnwritten s old)%list)) as [?|Hn]; [by apply Hin|].
  rewrite Hout by done. destruct (old !! k) eqn:Ek; [|done]. exfalso. apply Hn, elem_of_app. right.
  unfold managedButUnwritten. rewrite elem_of_sort_strings. apply list_elem_of_filter. split; [|done].
  bool_goal; [by apply has_false|by apply has_false|by apply has_true].
Qed.

(** The deletions of a patch. *)
Lemma patch_deletes p (d : D) old :
  wf_patch p -> at_ref (view d) (patch_ref p) = Some old ->
  exists cur, at_ref (view (exec_all (map (delete_option (p_Config p) (p_Section p))
      (filter (fun k => negb (forbiddenPatchOption k) && has old k = true) (sort_strings (p_Deletes p)))) d))
      (patch_ref p) = Some cur /\
    (forall k, k ∈ p_Deletes p -> forbiddenPatchOption k = false -> cur !! k = None) /\
    (forall k, k ∉ p_Deletes p \/ forbiddenPatchOption k = true -> metadata k = false -> cur !! k = old !! k).
Proof.
  intros Hwf Hold. set (ks := filter _ (sort_strings (p_Deletes p))).
  assert (Hks : forall k, k ∈ ks <-> k ∈ p_Deletes p /\ forbiddenPatchOption k = false /\ is_Some (old !! k)).
  { intros k. unfold ks. rewrite list_elem_of_filter, elem_of_sort_strings, andb_true_iff, negb_true_iff, has_true.
    tauto. }
  destruct (exec_deletes (p_Config p) (p_Section p) ks d old) as (cur & Hcur & Hin & Hout); [|done|].
  { apply Forall_forall. intros k Hk. apply Hks in Hk as [Hk _].
    by destruct (wf_pdeletes p Hwf k Hk). }
  exists cur. split; [done|]. split.
  - intros k Hk Hf. destruct (wf_pdeletes p Hwf k Hk) as [Hm _].
    destruct (decide (k ∈ ks)) as [?|Hn]; [by apply Hin|]. rewrite Hout by done.
    destruct (old !! k) eqn:E; [|done]. destruct Hn. apply Hks. by rewrite E.
  - intros k Hk Hm. apply Hout; [|done]. rewrite Hks. intros (? & ? & _). destruct Hk; congruence.
Qed.

Lemma patch_block_settles p e (d : D) old :
  wf_patch p -> at_ref (view d) (patch_ref p) = at_ref e (patch_ref p) -> at_ref e (patch_ref p) = Some old ->
  exists cur, at_ref (view (exec_all (patch_ops e p) d)) (patch_ref p) = Some cur /\ patch_settled p cur /\
              (forall k, metadata k = false -> outside_patch p k -> cur !! k = old !! k).
Proof.
  intros Hwf Hd Hold. unfold patch_ops.
  change (In_ e (p_Config p) !! p_Section p) with (at_ref e (patch_ref p)). rewrite Hold in *.
  destruct (patch_deletes p d old Hwf Hd) as (c1 & Hc1 & Hin & Hout).
  assert (Hout1 : forall k, metadata k = false -> outside_patch p k -> c1 !! k = old !! k).
  { intros k Hm Hk. apply Hout; [|done]. destruct Hk as [?|[? ?]]; [by right|by left]. }
  assert (Hget : forall k v, p_Values p !! k = Some v -> get c1 k = get old k).
  { intros k v Hk. destruct (wf_pvalues p Hwf k v Hk) as [Hm Hn]. unfold get. by rewrite Hout; [|left|]. }
  rewrite exec_all_app. simpl. case_bool_decide as Hch.
  { exists c1. split; [exact Hc1|]. split; [|exact Hout1]. split; [done|].
    intros k v Hk Hf. rewrite (Hget k v Hk). destruct (decide (get old k = v)) as [|Hne]; [done|].
    assert (Hbad : patch_changes old p !! k = Some v) by by apply patch_changes_lookup.
    by rewrite Hch, lookup_empty in Hbad. }
  destruct (exec_write (patch_op p (patch_changes old p))
     (exec_all _ d) c1 (or_intror (conj eq_refl Hc1))) as (cur & Hcur & Hval & _ & Hrest).
  { apply NoDup_map_fst_to_list. }
  { constructor. }
  { done. }
  simpl in Hval, Hrest. setoid_rewrite assoc_map_to_list in Hval. setoid_rewrite assoc_map_to_list in Hrest.
  assert (Hkeep : forall k, (forall v, patch_changes old p !! k <> Some v) -> metadata k = false -> cur !! k = c1 !! k).
  { intros k Hk Hm. apply Hrest; [|done|done]. destruct (patch_changes old p !! k) eqn:E; [|done].
    by destruct (Hk s). }
  exists cur. split; [exact Hcur|]. split; [split|].
  - intros k Hk Hf. destruct (wf_pdeletes p Hwf k Hk) as [Hm _]. rewrite Hkeep; [by apply Hin| |done].
    intros v Hv. apply patch_changes_lookup in Hv as [Hv _]. by apply (wf_pvalues p Hwf) in Hv as [_ ?].
  - intros k v Hk Hf. destruct (wf_pvalues p Hwf k v Hk) as [Hm _].
    destruct (decide (get old k = v)) as [Heq|Hne]; [|by apply Hval; [apply patch_changes_lookup|]].
    unfold get. rewrite Hkeep; [|intros v' Hv'|done].
    + change (get c1 k = v). by rewrite (Hget k v Hk).
    + apply patch_changes_lookup in Hv' as (? & _ & ?). congruence.
  - intros k Hm Hk. rewrite Hkeep; [by apply Hout1| |done].
    intros v Hv. apply patch_changes_lookup in Hv as (Hv & Hf & _). destruct Hk as [?|[? ?]]; congruence.
Qed.
End Blocks.

(** ** The whole document *)

(** [PlanDevice]'s operations. *)
Definition device_ops (d : Doc) (e : Existing) : list Op := (Ops (Plan_ d e) ++ Prune d e)%list.

Lemma first_duplicate_none l : forall seen,
  first_duplicate seen l = None <-> NoDup (map sec_ref l) /\ (forall r, r ∈ map sec_ref l -> r ∉ seen).
Proof.
  induction l as [|s l IH]; intros seen; simpl.
  - split; [|done]. intros _. split; [constructor|]. intros r Hr. inv Hr.
  - case_bool_decide as Hs.
    + split; [done|]. intros [_ Hr]. exfalso. by apply (Hr (sec_ref s)); [left|].
    + rewrite IH, NoDup_cons. setoid_rewrite elem_of_cons. split.
      * intros [Hnd Hr]. split; [split; [|done]|].
        -- intros Hin. apply (Hr _ Hin). by left.
        -- intros r [->|Hin]; [done|]. intros Hseen. apply (Hr r Hin). by right.
      * intros [[Hn Hnd] Hr]. split; [done|]. intros r Hin [->|Hseen]; [done|]. apply (Hr r); auto.
Qed.

Lemma Validate_none d : Validate d = None <-> NoDup (map sec_ref (Sections d)).
Proof.
  unfold Validate. destruct (first_duplicate [] (Sections d)) as [[c n]|] eqn:E.
  - split; [done|]. intros Hnd. assert (Hn : first_duplicate [] (Sections d) = None); [|congruence].
    apply first_duplicate_none. split; [done|]. intros r _. apply not_elem_of_nil.
  - apply first_duplicate_none in E as [? _]. done.
Qed.

(** A document as the renderer builds it (see [build_doc]): unique sections and
    patches, and patches only of sections the controller does not own. *)
Record wf_doc (d : Doc) (e : Existing) : Prop := {
  wd_valid : Validate d = None;
  wd_sections : Forall wf_section (Sections d);
  wd_patches : NoDup (map patch_ref (Patches d));
  wd_patch : Forall wf_patch (Patches d);
  wd_apart : forall r, r ∈ map patch_ref (Patches d) -> r ∉ map sec_ref (Sections d);
  wd_foreign : forall r, r ∈ map patch_ref (Patches d) -> OwnedIn e (fst r) (snd r) = false;
}.

Lemma OwnedIn_at e r : OwnedIn e (fst r) (snd r) =
  match at_ref e r with Some vals => String.eqb (get vals OwnershipTag) "1" | None => false end.
Proof. done. Qed.

Lemma elem_of_all_refs e r : r ∈ all_refs e <-> is_Some (at_ref e r).
Proof.
  unfold all_refs. rewrite list_elem_of_In, in_flat_map. unfold at_ref, In_. split.
  - intros ([c secs] & Hc & Hn). apply list_elem_of_In in Hc, Hn. apply elem_of_map_to_list in Hc.
    apply list_elem_of_fmap in Hn as (n & -> & Hn). apply elem_of_keys in Hn. cbn [fst snd]. rewrite (Hc : e !! c = Some secs). done.
  - intros [vals Hv]. destruct (e !! fst r) as [secs|] eqn:E; simpl in Hv; [|by rewrite lookup_empty in Hv].
    exists (fst r, secs). split.
    + apply list_elem_of_In. by apply elem_of_map_to_list.
    + apply list_elem_of_In, list_elem_of_fmap. exists (snd r). split; [by destruct r|].
      apply elem_of_keys. by eexists.
Qed.

Lemma elem_of_stale d e r : r ∈ stale d e <-> is_stale d e r = true.
Proof.
  unfold stale, sorted_refs. rewrite merge_sort_Permutation, list_elem_of_filter, elem_of_all_refs.
  split; [tauto|]. intros Hs. split; [done|]. unfold is_stale in Hs. bool_prop.
  match goal with Ho : OwnedIn _ _ _ = true |- _ => rewrite OwnedIn_at in Ho; by destruct (at_ref e r) end.
Qed.

Lemma NoDup_listed_refs (l : list (string * gmap string options)) : NoDup (map fst l) ->
  NoDup (flat_map (fun c => map (fun n => (fst c, n)) (keys (snd c))) l).
Proof.
  induction l as [|[c secs] l IH]; intros Hnd; simpl; [constructor|].
  apply NoDup_cons in Hnd as [Hc Hnd]. specialize (IH Hnd). apply NoDup_app. split; [|split; [|exact IH]].
  - apply NoDup_fmap_2; [intros ?? E; congruence|]. apply NoDup_fst_map_to_list.
  - intros r Hr Hin. apply list_elem_of_fmap in Hr as (n & -> & _). apply Hc.
    apply list_elem_of_In, in_flat_map in Hin as ([c' secs'] & Hc' & Hn).
    apply list_elem_of_In, list_elem_of_fmap in Hn as (n' & Heq & _). injection Heq as -> ->.
    apply list_elem_of_fmap. exists (c', secs'). split; [done|]. by apply list_elem_of_In.
Qed.

Lemma NoDup_all_refs e : NoDup (all_refs e).
Proof. apply NoDup_listed_refs, NoDup_fst_map_to_list. Qed.

Lemma NoDup_stale d e : NoDup (stale d e).
Proof.
  unfold stale, sorted_refs. rewrite merge_sort_Permutation. apply NoDup_filter, NoDup_all_refs.
Qed.

(** The operations as blocks. *)
Definition blocks_of (d : Doc) (e : Existing) : list (SectionRef * list Op) :=
  (map (fun s => (sec_ref s, section_ops e s)) (sortedSections (Sections d)) ++
   map (fun p => (patch_ref p, patch_ops e p)) (sortedPatches (Patches d)) ++
   map (fun r => (r, [delete_section (fst r) (snd r)])) (stale d e))%list.

Lemma flat_map_snd {A} (f : A -> SectionRef) (g : A -> list Op) l :
  flat_map snd (map (fun a => (f a, g a)) l) = flat_map g l.
Proof. induction l as [|a l IH]; simpl; [done|]. by rewrite IH. Qed.

Lemma flat_map_single {A B} (f : A -> B) l : flat_map (fun a => [f a]) l = map f l.
Proof. induction l as [|a l IH]; simpl; [done|]. by rewrite IH. Qed.

Lemma device_ops_blocks d e : device_ops d e = flat_map snd (blocks_of d e).
Proof.
  unfold device_ops, blocks_of, Plan_, Prune. simpl.
  rewrite !flat_map_app, !flat_map_snd, flat_map_single, app_assoc. done.
Qed.

Lemma blocks_refs d e : map fst (blocks_of d e) =
  (map sec_ref (sortedSections (Sections d)) ++ map patch_ref (sortedPatches (Patches d)) ++ stale d e)%list.
Proof. unfold blocks_of. rewrite !map_app, !map_map. simpl. by rewrite map_id. Qed.

Lemma sorted_sec_refs d : map sec_ref (sortedSections (Sections d)) ≡ₚ map sec_ref (Sections d).
Proof. unfold sortedSections. apply fmap_Permutation, merge_sort_Permutation. Qed.
Lemma sorted_patch_refs d : map patch_ref (sortedPatches (Patches d)) ≡ₚ map patch_ref (Patches d).
Proof. unfold sortedPatches. apply fmap_Permutation, merge_sort_Permutation. Qed.

Lemma blocks_NoDup d e : wf_doc d e -> NoDup (map fst (blocks_of d e)).
Proof.
  intros [Hv _ Hp _ Ha Hf]. rewrite blocks_refs, sorted_sec_refs, sorted_patch_refs.
  apply Validate_none in Hv.
  assert (Hst : forall r, r ∈ stale d e -> r ∉ map sec_ref (Sections d) /\ OwnedIn e (fst r) (snd r) = true).
  { intros r Hr. apply elem_of_stale in Hr. unfold is_stale, wanted in Hr. by bool_prop. }
  apply NoDup_app. split_and!; [done| |].
  - intros r Hr Hin. apply elem_of_app in Hin as [Hin|Hin]; [by apply (Ha r)|by apply (Hst r)].
  - apply NoDup_app. split_and!; [done| |apply NoDup_stale].
    intros r Hr Hin. apply Hf in Hr. apply Hst in Hin as [_ Ho]. congruence.
Qed.

Lemma section_ops_own e s : Forall (fun op => target op = sec_ref s) (section_ops e s).
Proof.
  unfold section_ops. case_match; [|by repeat constructor]. case_match; [constructor|].
  repeat (apply Forall_app; split); try (apply Forall_map, Forall_forall; done). by repeat constructor.
Qed.
Lemma patch_ops_own e p : Forall (fun op => target op = patch_ref p) (patch_ops e p).
Proof.
  unfold patch_ops. case_match; [|constructor]. apply Forall_app. split.
  - apply Forall_map, Forall_forall. done.
  - case_bool_decide; by repeat constructor.
Qed.

Lemma blocks_own d e : Forall own_block (blocks_of d e).
Proof.
  unfold blocks_of. repeat (apply Forall_app; split); apply Forall_map, Forall_forall; intros x _; simpl.
  - apply section_ops_own.
  - apply patch_ops_own.
  - repeat constructor. by destruct x.
Qed.

(** Every section of the document is absent from the device or already owned. *)
Definition guarded (d : Doc) (e : Existing) : Prop :=
  Forall (fun s => at_ref e (sec_ref s) = None \/ OwnedIn e (sec_Config s) (sec_Name s) = true) (Sections d).

(** ** The device afterwards *)

Section After.
Context {D : Type} `{UciDevice D}.
Variables (d : Doc) (dev : D).
Local Notation e := (view dev).
Local Notation e' := (view (exec_all (device_ops d e) dev)).
Hypothesis Hwf : wf_doc d e.

Lemma block_end r ops : (r, ops) ∈ blocks_of d e -> exists d0, at_ref (view d0) r = at_ref e r /\
  at_ref e' r = at_ref (view (exec_all ops d0)) r.
Proof.
  intros Hb. rewrite device_ops_blocks.
  destruct (exec_blocks (blocks_of d e) dev (blocks_NoDup d e Hwf) (blocks_own d e)) as [Hin _].
  by destruct (Hin _ Hb) as (d0 & ? & ?); exists d0.
Qed.

Lemma section_end s : s ∈ Sections d -> exists cur, at_ref e' (sec_ref s) = Some cur /\ settled s cur /\
  (get cur OwnershipTag = "1" \/ at_ref e (sec_ref s) = Some cur).
Proof.
  intros Hs. destruct (block_end (sec_ref s) (section_ops e s)) as (d0 & Hd0 & Hend).
  { unfold blocks_of. apply elem_of_app. left. apply list_elem_of_fmap. exists s. split; [done|].
    unfold sortedSections. by rewrite merge_sort_Permutation. }
  rewrite Hend. apply section_block_settles; [|done].
  pose proof (wd_sections d e Hwf) as Hf. rewrite Forall_forall in Hf. by apply Hf.
Qed.

Lemma patch_end p : p ∈ Patches d ->
  match at_ref e (patch_ref p) with
  | None => at_ref e' (patch_ref p) = None
  | Some old => exists cur, at_ref e' (patch_ref p) = Some cur /\ patch_settled p cur /\
                            (forall k, metadata k = false -> outside_patch p k -> cur !! k = old !! k)
  end.
Proof.
  intros Hp. destruct (block_end (patch_ref p) (patch_ops e p)) as (d0 & Hd0 & Hend).
  { unfold blocks_of. apply elem_of_app. right. apply elem_of_app. left. apply list_elem_of_fmap. exists p.
    split; [done|]. unfold sortedPatches. by rewrite merge_sort_Permutation. }
  rewrite Hend. destruct (at_ref e (patch_ref p)) as [old|] eqn:E.
  - apply patch_block_settles with (old := old); [|congruence|done].
    pose proof (wd_patch d e Hwf) as Hf. rewrite Forall_forall in Hf. by apply Hf.
  - unfold patch_ops. change (In_ e (p_Config p) !! p_Section p) with (at_ref e (patch_ref p)).
    rewrite E. exact Hd0.
Qed.

Lemma stale_end r : is_stale d e r = true -> at_ref e' r = None.
Proof.
  intros Hr. apply elem_of_stale in Hr.
  destruct (block_end r [delete_section (fst r) (snd r)]) as (d0 & Hd0 & Hend).
  { unfold blocks_of. rewrite !elem_of_app. right. right. apply list_elem_of_fmap. by exists r. }
  rewrite Hend. simpl. pose proof (exec_delete_section (delete_section (fst r) (snd r)) d0 eq_refl eq_refl) as Hx.
  unfold target in Hx. simpl in Hx. by destruct r.
Qed.

Lemma other_end r :
  wanted d r = false -> r ∉ map patch_ref (Patches d) -> is_stale d e r = false ->
  at_ref e' r = at_ref e r.
Proof.
  intros Hw Hp Hs. rewrite device_ops_blocks.
  destruct (exec_blocks (blocks_of d e) dev (blocks_NoDup d e Hwf) (blocks_own d e)) as [_ Hout].
  apply Hout. rewrite blocks_refs, sorted_sec_refs, sorted_patch_refs, !elem_of_app, elem_of_stale.
  unfold wanted in Hw. bool_prop. rewrite Hs. intros [?|[?|?]]; done.
Qed.

(** A patched section keeps its ownership. *)
Lemma patched_foreign r : r ∈ map patch_ref (Patches d) -> OwnedIn e' (fst r) (snd r) = false.
Proof.
  intros Hr. assert (Hf := wd_foreign d e Hwf r Hr). rewrite OwnedIn_at in *.
  apply list_elem_of_fmap in Hr as (p & -> & Hp). pose proof (patch_end p Hp) as Hend.
  destruct (at_ref e (patch_ref p)); [|by rewrite Hend].
  destruct Hend as (cur & -> & _ & Ht). unfold get in *. by rewrite Ht by (done || by left).
Qed.

(** No section the next prune would remove. *)
Lemma nothing_stale r : is_stale d e' r = false.
Proof.
  destruct (is_stale d e' r) eqn:E; [|done]. exfalso. assert (Hst := E).
  unfold is_stale in E. apply andb_true_iff in E as [E Hret]. apply andb_true_iff in E as [E Hown].
  apply andb_true_iff in E as [Hbl Hw]. rewrite negb_true_iff in Hw. rewrite OwnedIn_at in Hown.
  destruct (decide (r ∈ map patch_ref (Patches d))) as [Hp|Hp].
  - apply patched_foreign in Hp. rewrite OwnedIn_at in Hp. congruence.
  - destruct (is_stale d e r) eqn:Hs; [by rewrite (stale_end r Hs) in Hown|].
    rewrite (other_end r Hw Hp Hs) in Hown. unfold is_stale in Hs.
    rewrite Hbl, Hw, OwnedIn_at, Hown, Hret in Hs. done.
Qed.

Lemma device_ops_again : device_ops d e' = [].
Proof.
  assert (H1 : flat_map (section_ops e') (sortedSections (Sections d)) = []).
  { apply flat_map_nil. intros s Hs. unfold sortedSections in Hs. rewrite merge_sort_Permutation in Hs.
    destruct (section_end s Hs) as (cur & Hc & Hset & _). unfold section_ops.
    change (In_ e' (sec_Config s) !! sec_Name s) with (at_ref e' (sec_ref s)). rewrite Hc.
    by apply matches_iff in Hset as ->. }
  assert (H2 : flat_map (patch_ops e') (sortedPatches (Patches d)) = []).
  { apply flat_map_nil. intros p Hp. unfold sortedPatches in Hp. rewrite merge_sort_Permutation in Hp.
    pose proof (patch_end p Hp) as Hend. destruct (at_ref e (patch_ref p)).
    - destruct Hend as (cur & Hc & Hset & _). by apply patch_settled_ops with (cur := cur).
    - unfold patch_ops. change (In_ e' (p_Config p) !! p_Section p) with (at_ref e' (patch_ref p)).
      by rewrite Hend. }
  pose proof nothing_stale as Hn. revert H1 H2 Hn. generalize e'. intros e2 H1 H2 Hn.
  unfold device_ops, Plan_, Prune. cbn [Ops]. rewrite H1, H2.
  destruct (stale d e2) as [|r l] eqn:E; [done|]. exfalso.
  assert (Hr : r ∈ stale d e2) by (rewrite E; left). apply elem_of_stale in Hr.
  by rewrite Hn in Hr.
Qed.

(** After the operations, what is owned is what was rendered and what was
    preserved. *)
Lemma owned_afterwards r : guarded d e ->
  OwnedIn e' (fst r) (snd r) = true <->
  wanted d r = true \/
  (wanted d r = false /\ OwnedIn e (fst r) (snd r) = true /\
   (blind d (fst r) = true \/ retained d (fst r) (snd r) = true)).
Proof.
  intros Hg. destruct (wanted d r) eqn:Hw.
  - split; [by left|]. intros _. unfold wanted in Hw. bool_prop.
    apply list_elem_of_fmap in Hw as (s & -> & Hs).
    destruct (section_end s Hs) as (cur & Hc & _ & Htag). rewrite OwnedIn_at, Hc. apply String.eqb_eq.
    destruct Htag as [|Hold]; [done|]. unfold guarded in Hg. rewrite Forall_forall in Hg.
    destruct (Hg s Hs) as [Hn|Ho]; [congruence|].
    change (OwnedIn e (fst (sec_ref s)) (snd (sec_ref s)) = true) in Ho.
    rewrite OwnedIn_at, Hold in Ho. by apply String.eqb_eq.
  - transitivity (OwnedIn e (fst r) (snd r) = true /\ is_stale d e r = false).
    + destruct (decide (r ∈ map patch_ref (Patches d))) as [Hp|Hp].
      { rewrite (patched_foreign r Hp), (wd_foreign d e Hwf r Hp). split; [done|by intros [? _]]. }
      destruct (is_stale d e r) eqn:Hs.
      * rewrite OwnedIn_at, (stale_end r Hs). split; [done|by intros [_ ?]].
      * rewrite (OwnedIn_at e'), (other_end r Hw Hp Hs), <- OwnedIn_at. tauto.
    + unfold is_stale. rewrite Hw. destruct (OwnedIn e _ _), (blind d _), (retained d _ _); simpl; intuition congruence.
Qed.
End After.

(** ** What a document does not name *)

Section Elsewhere.
Context {D : Type} `{UciDevice D}.
Variables (d : Doc) (dev : D).
Local Notation e := (view dev).
Local Notation e' := (view (exec_all (device_ops d e) dev)).

Lemma unowned_not_stale r : OwnedIn e (fst r) (snd r) = false -> r ∉ stale d e.
Proof. intros Ho Hr. apply elem_of_stale in Hr. unfold is_stale in Hr. rewrite Ho, andb_false_r in Hr. done. Qed.

Lemma untouched_end r : r ∉ map sec_ref (Sections d) -> r ∉ map patch_ref (Patches d) -> OwnedIn e (fst r) (snd r) = false ->
  at_ref e' r = at_ref e r.
Proof.
  intros Hs Hp Ho. rewrite device_ops_blocks. apply exec_elsewhere; [apply blocks_own|].
  rewrite blocks_refs, sorted_sec_refs, sorted_patch_refs, !elem_of_app. pose proof (unowned_not_stale r Ho). tauto.
Qed.

(** A section that is not there is not created by a patch. *)
Lemma absent_end r : r ∉ map sec_ref (Sections d) -> at_ref e r = None -> at_ref e' r = None.
Proof.
  intros Hs Hn. rewrite <- Hn. rewrite device_ops_blocks. apply exec_all_frame, Forall_forall. intros op Hop Heq.
  apply elem_of_flat_map in Hop as ([r0 ops] & Hb & Hop). cbn [snd] in Hop. pose proof (blocks_own d e) as Hown.
  rewrite Forall_forall in Hown. pose proof (Hown _ Hb) as Hr. unfold own_block in Hr. rewrite Forall_forall in Hr.
  specialize (Hr op Hop). cbn [fst] in Hr. assert (r0 = r) as -> by congruence.
  unfold blocks_of in Hb. rewrite !elem_of_app, !list_elem_of_fmap in Hb. destruct Hb as [(x & [= -> _] & Hx)|[(p & [= -> ->] & _)|(x & [= -> _] & Hx)]].
  - apply Hs. rewrite <- (sorted_sec_refs d). by apply list_elem_of_fmap_2.
  - unfold patch_ops in Hop. change (In_ e (p_Config p) !! p_Section p) with (at_ref e (patch_ref p)) in Hop.
    rewrite Hn in Hop. by apply elem_of_nil in Hop.
  - revert Hx. apply unowned_not_stale. by rewrite OwnedIn_at, Hn.
Qed.

(** One patch on a section that is neither rendered nor owned. *)
Lemma patched_end p old : p ∈ Patches d -> NoDup (map patch_ref (Patches d)) -> wf_patch p ->
  patch_ref p ∉ map sec_ref (Sections d) -> OwnedIn e (fst (patch_ref p)) (snd (patch_ref p)) = false ->
  at_ref e (patch_ref p) = Some old ->
  exists cur, at_ref e' (patch_ref p) = Some cur /\ patch_settled p cur /\
    (forall k, metadata k = false -> outside_patch p k -> cur !! k = old !! k).
Proof.
  intros Hp Hnd Hwf Hs Ho Hold. assert (Hin : p ∈ sortedPatches (Patches d)) by (unfold sortedPatches; by rewrite merge_sort_Permutation).
  apply list_elem_of_split in Hin as (l1 & l2 & El). rewrite <- (sorted_patch_refs d), El, map_app in Hnd.
  apply NoDup_app in Hnd as (_ & H1 & H2). cbn [map] in H1, H2. apply NoDup_cons in H2 as [H2 _].
  set (block := fun p0 => (patch_ref p0, patch_ops e p0)).
  assert (Hb : blocks_of d e = ((map (fun s => (sec_ref s, section_ops e s)) (sortedSections (Sections d)) ++ map block l1) ++
    (patch_ref p, patch_ops e p) :: (map block l2 ++ map (fun r => (r, [delete_section (fst r) (snd r)])) (stale d e)))%list).
  { unfold blocks_of. rewrite El, map_app. cbn [map]. by rewrite <- !app_assoc. }
  destruct (exec_only (map (fun s => (sec_ref s, section_ops e s)) (sortedSections (Sections d)) ++ map block l1)
    (patch_ref p) (patch_ops e p) (map block l2 ++ map (fun r => (r, [delete_section (fst r) (snd r)])) (stale d e)) dev)
    as (d0 & Hd0 & Hend).
  - rewrite <- Hb. apply blocks_own.
  - rewrite map_app, !map_map. cbn [fst]. rewrite elem_of_app. intros [Hr|Hr].
    + apply Hs. by rewrite <- (sorted_sec_refs d).
    + apply (H1 _ Hr). left.
  - rewrite map_app, !map_map, map_id. cbn [fst]. rewrite elem_of_app. intros [Hr|Hr]; [done|by apply (unowned_not_stale (patch_ref p))].
  - rewrite device_ops_blocks, Hb, Hend. by apply patch_block_settles.
Qed.
End Elsewhere.

(** ** Assembling a document *)

Lemma addOwned_cases d cs e s d' cs' : addOwned d cs e s = (d', cs') ->
  (d' = with_section d s /\ cs' = cs /\ sec_ref s ∉ map sec_ref (Sections d) /\
   (at_ref e (sec_ref s) = None \/ OwnedIn e (sec_Config s) (sec_Name s) = true)) \/
  (d' = d /\ exists c, cs' = (cs ++ [c])%list /\ con_Config c = sec_Config s /\ con_Section c = sec_Name s).
Proof.
  unfold addOwned. destruct (existsb _ _) eqn:Hdup.
  { intros [= <- <-]. right. split; [done|]. by eexists. }
  destruct (has _ _ && _) eqn:Hfor; intros [= <- <-]; [right; split; [done|]; by eexists|].
  left. split; [done|]. split; [done|]. split.
  - intros Hin. apply list_elem_of_fmap in Hin as (w & Heq & Hw).
    assert (Ht : existsb (fun w => bool_decide (sec_ref w = sec_ref s)) (Sections d) = true); [|congruence].
    apply List.existsb_exists. exists w. split; [by apply list_elem_of_In|]. by apply bool_decide_eq_true.
  - apply andb_false_iff in Hfor as [Hno|Hown].
    + left. by apply has_false in Hno.
    + right. by apply negb_false_iff in Hown.
Qed.

Section PlanProperties.
Context {D : Type} `{UciDevice D}.

(** C20 (plan): one application converges. For a document with unique
    sections, well-formed options, and patches that each target a distinct
    section the controller neither renders nor owns, running on a device the
    operations planned and pruned against it leaves a device for which
    nothing more is planned and nothing more is pruned. *)
Theorem plan_converges d (dev : D) :
  wf_doc d (view dev) ->
  device_ops d (view (exec_all (device_ops d (view dev)) dev)) = [].
Proof. apply device_ops_again. Qed.

End PlanProperties.

(** [addOwned] and [addPatch] in sequence, with the other things the renderer
    does to a document and its report: retaining sections, declaring configs
    unreadable, reporting conflicts. *)
Inductive assembled (e : Existing) : Doc -> list Conflict -> Prop :=
| asm_empty id : assembled e (MkDoc id [] [] [] []) []
| asm_section d cs s d' cs' :
    assembled e d cs -> addOwned d cs e s = (d', cs') -> assembled e d' cs'
| asm_patch d cs p d' cs' :
    assembled e d cs -> addPatch d cs p = (d', cs') -> assembled e d' cs'
| asm_other d cs retain blind more :
    assembled e d cs ->
    assembled e (MkDoc (DeviceID d) (Sections d) (Patches d) retain blind) (cs ++ more).

Lemma Prune_elem d e op : op ∈ Prune d e <->
  exists c n, op = delete_section c n /\ is_stale d e (c, n) = true.
Proof.
  unfold Prune. rewrite list_elem_of_fmap. split.
  - intros ([c n] & -> & Hr). apply elem_of_stale in Hr. by exists c, n.
  - intros (c & n & -> & Hr). exists (c, n). by rewrite elem_of_stale.
Qed.

Lemma Preserved_iff d e c n : Preserved d e c n = true <->
  wanted d (c, n) = false /\ OwnedIn e c n = true /\ (blind d c = true \/ retained d c n = true).
Proof.
  unfold Preserved, wanted.
  replace (existsb _ (Sections d)) with (bool_decide ((c, n) ∈ map sec_ref (Sections d))).
  - destruct (bool_decide _); [split; [done|by intros (? & _)]|].
    destruct (OwnedIn e c n); simpl; [|split; [done|by intros (_ & ? & _)]].
    rewrite orb_true_iff. split; [done|by intros (_ & _ & ?)].
  - apply Bool.eq_iff_eq_true. rewrite bool_decide_eq_true, List.existsb_exists, list_elem_of_fmap. split.
    + intros (s & Hs & Hin). exists s. split; [by apply list_elem_of_In|]. by apply bool_decide_eq_true.
    + intros (s & Hin & Hs). exists s. apply bool_decide_eq_true in Hs. split; [done|by apply list_elem_of_In].
Qed.

(** (invariant) Every owned section of a device meets exactly one fate. It is
    rendered, or preserved because the render could not decide about it, or
    pruned; and [Prune] contains nothing but deletions of whole sections that
    carry the marker, each at most once. *)
Theorem owned_section_fate d e c n :
  OwnedIn e c n = true ->
  let rendered := wanted d (c, n) = true in
  let kept := Preserved d e c n = true in
  let pruned := delete_section c n ∈ Prune d e in
  (rendered \/ kept \/ pruned) /\ ~ (rendered /\ kept) /\ ~ (rendered /\ pruned) /\ ~ (kept /\ pruned) /\
  NoDup (Prune d e) /\
  forall op, op ∈ Prune d e -> exists c' n', op = delete_section c' n' /\ OwnedIn e c' n' = true.
Proof.
  intros Hown. cbv zeta.
  assert (Hp : delete_section c n ∈ Prune d e <-> is_stale d e (c, n) = true).
  { rewrite Prune_elem. split; [|by exists c, n]. by intros (c' & n' & [= <- <-] & ?). }
  rewrite Hp, Preserved_iff. unfold is_stale. cbn [fst snd]. rewrite Hown.
  split; [|split; [|split; [|split; [|split]]]].
  - destruct (wanted d (c, n)), (blind d c), (retained d c n); simpl; tauto.
  - by intros (? & ? & _); congruence.
  - intros [-> Hs]. by rewrite andb_false_r in Hs.
  - intros [(_ & _ & [Hb|Hr]) Hs]; [by rewrite Hb in Hs|]. by rewrite Hr, andb_false_r in Hs.
  - unfold Prune. apply NoDup_fmap_2; [|apply NoDup_stale].
    intros [c1 n1] [c2 n2] E. unfold delete_section in E. simpl in E. congruence.
  - intros op Hop. apply Prune_elem in Hop as (c' & n' & -> & Hs). exists c', n'. split; [done|].
    unfold is_stale in Hs. cbn [fst snd] in Hs. by bool_prop.
Qed.

Lemma section_ops_nil e s : section_ops e s = [] <->
  exists cur, at_ref e (sec_ref s) = Some cur /\ settled s cur.
Proof.
  unfold section_ops. change (In_ e (sec_Config s) !! sec_Name s) with (at_ref e (sec_ref s)).
  destruct (at_ref e (sec_ref s)) as [cur|]; [|split; [done|by intros (? & ? & _)]].
  destruct (matches s cur) eqn:Em.
  - split; [|done]. intros _. exists cur. split; [done|]. by apply matches_iff.
  - split.
    + intros Hnil. exfalso. rewrite app_assoc in Hnil. apply app_eq_nil in Hnil as [_ Hnil]. done.
    + intros (cur' & [= <-] & Hs). apply matches_iff in Hs. congruence.
Qed.

Lemma patch_ops_nil e p : wf_patch p ->
  patch_ops e p = [] <-> (forall cur, at_ref e (patch_ref p) = Some cur -> patch_settled p cur).
Proof.
  intros Hwf. split.
  - unfold patch_ops. change (In_ e (p_Config p) !! p_Section p) with (at_ref e (patch_ref p)).
    intros Hnil cur Hcur. rewrite Hcur in Hnil. apply app_eq_nil in Hnil as [Hd Hs].
    apply map_eq_nil in Hd. simpl in Hs. case_bool_decide as Hch; [|done]. split.
    + intros k Hk Hf. destruct (cur !! k) eqn:E; [|done]. exfalso.
      assert (Hin : k ∈ filter (fun k => negb (forbiddenPatchOption k) && has cur k = true)
                               (sort_strings (p_Deletes p))).
      { apply list_elem_of_filter. rewrite elem_of_sort_strings, Hf. split; [|done].
        simpl. apply has_true. by eexists. }
      rewrite Hd in Hin. inv Hin.
    + intros k v Hk Hf. destruct (decide (get cur k = v)) as [|Hne]; [done|]. exfalso.
      assert (Hc : patch_changes cur p !! k = Some v) by by apply patch_changes_lookup.
      by rewrite Hch, lookup_empty in Hc.
  - intros Hs. destruct (at_ref e (patch_ref p)) as [cur|] eqn:E.
    + apply patch_settled_ops with (cur := cur); [done|]. by apply Hs.
    + unfold patch_ops. change (In_ e (p_Config p) !! p_Section p) with (at_ref e (patch_ref p)). by rewrite E.
Qed.

(** The preview is exact. Nothing is planned precisely when every
    section of the document is on the device with every option and list we
    would write, in list shape where the shape is known, and none of the
    options it manages but does not write; and every patch whose section exists
    is already in effect. *)
Theorem Plan_empty_iff d e :
  Forall wf_patch (Patches d) ->
  Ops (Plan_ d e) = [] <->
  (forall s, s ∈ Sections d -> exists cur, at_ref e (sec_ref s) = Some cur /\ settled s cur) /\
  (forall p cur, p ∈ Patches d -> at_ref e (patch_ref p) = Some cur -> patch_settled p cur).
Proof.
  intros Hwf. rewrite Forall_forall in Hwf. unfold Plan_. cbn [Ops].
  assert (Happ : forall (a b : list Op), (a ++ b)%list = [] <-> a = [] /\ b = []).
  { intros a b. split; [apply app_eq_nil|by intros [-> ->]]. }
  rewrite Happ, !flat_map_nil. unfold sortedSections, sortedPatches.
  setoid_rewrite merge_sort_Permutation. split; intros [Hs Hp]; split.
  - intros s Hin. by apply section_ops_nil, Hs.
  - intros p cur Hin Hc. specialize (Hp p Hin). by apply (patch_ops_nil e p (Hwf p Hin)).
  - intros s Hin. by apply section_ops_nil, Hs.
  - intros p Hin. apply (patch_ops_nil e p (Hwf p Hin)). intros cur. by apply Hp.
Qed.

(** However the renderer interleaves them, sections that go through
    [addOwned] and patches that go through [addPatch] make a document that names
    each section once ([Validate] accepts it), names no section that exists on
    the device without the marker, and patches each section once. *)
Theorem assembled_documents e d cs :
  assembled e d cs -> Validate d = None /\ guarded d e /\ NoDup (map patch_ref (Patches d)).
Proof.
  induction 1 as [id|d cs s d' cs' _ (Hv & Hg & Hp) E|d cs p d' cs' _ (Hv & Hg & Hp) E|d cs rt bl more _ (Hv & Hg & Hp)].
  - split; [done|]. split; constructor.
  - apply addOwned_cases in E as [(-> & _ & Hnew & Hown)|(-> & _)]; [|done].
    split; [|split; [|done]].
    + apply Validate_none in Hv. apply Validate_none. cbn [with_section Sections]. rewrite map_app.
      apply NoDup_app. split; [done|]. split; [|apply NoDup_singleton].
      intros r Hr Hs. apply list_elem_of_singleton in Hs as ->. done.
    + unfold guarded in *. cbn [with_section Sections]. apply Forall_app. split; [done|by constructor].
  - unfold addPatch in E. destruct (existsb _ _) eqn:Hdup; injection E as <- <-; [done|].
    split; [done|]. split; [done|]. cbn [with_patch Patches]. rewrite map_app. apply NoDup_app.
    split; [done|]. split; [|apply NoDup_singleton]. intros r Hr Hs. apply list_elem_of_singleton in Hs as ->.
    apply list_elem_of_fmap in Hr as (w & Heq & Hw).
    assert (Ht : existsb (fun w => bool_decide (patch_ref w = patch_ref p)) (Patches d) = true); [|congruence].
    apply List.existsb_exists. exists w. split; [by apply list_elem_of_In|]. by apply bool_decide_eq_true.
  - done.
Qed.

(** * A configuration store, and planned runs on it

    An executable store with the behaviour [UciDevice] asks for, so that the
    theorems of [RenderPlanSpec] apply to it; and their applications to a
    document with a WLAN, a VLAN with list ports, a patch of the management LAN
    and a leftover section. *)

From Stdlib Require Import ZArith Lia Ascii String.
From stdpp Require Import base gmap list strings sorting.
From S2P Require Import Prelude GoStr ApplyEngine RenderPlan.

Local Open Scope string_scope.
Local Open Scope Z_scope.

Module Store.
Definition put (e : Existing) (r : SectionRef) (cur : options) : Existing :=
  <[fst r := <[snd r := cur]> (In_ e (fst r))]> e.
Definition drop_section (e : Existing) (r : SectionRef) : Existing :=
  <[fst r := delete (snd r) (In_ e (fst r))]> e.

Lemma In_insert (e : Existing) c secs : In_ (<[c := secs]> e) c = secs.
Proof. unfold In_. assert (Hx : (<[c := secs]> e : Existing) !! c = Some secs) by apply lookup_insert_eq. by rewrite Hx. Qed.
Lemma In_insert_ne (e : Existing) c c' secs : c' <> c -> In_ (<[c := secs]> e) c' = In_ e c'.
Proof.
  intros Hne. unfold In_. assert (Hx : (<[c := secs]> e : Existing) !! c' = e !! c') by (by apply lookup_insert_ne).
  by rewrite Hx.
Qed.

Lemma at_put e r cur : at_ref (put e r cur) r = Some cur.
Proof. unfold at_ref, put. rewrite In_insert. apply lookup_insert_eq. Qed.
Lemma at_put_other e r cur r' : r' <> r -> at_ref (put e r cur) r' = at_ref e r'.
Proof.
  intros Hne. unfold at_ref, put. destruct (decide (fst r' = fst r)) as [E|E]; [|by rewrite In_insert_ne].
  rewrite E, In_insert. apply lookup_insert_ne. intros E2. apply Hne. destruct r, r'. simpl in *. congruence.
Qed.
Lemma at_drop e r : at_ref (drop_section e r) r = None.
Proof. unfold at_ref, drop_section. rewrite In_insert. apply lookup_delete_eq. Qed.
Lemma at_drop_other e r r' : r' <> r -> at_ref (drop_section e r) r' = at_ref e r'.
Proof.
  intros Hne. unfold at_ref, drop_section.
  destruct (decide (fst r' = fst r)) as [E|E]; [|by rewrite In_insert_ne].
  rewrite E, In_insert. apply lookup_delete_ne. intros E2. apply Hne. destruct r, r'. simpl in *. congruence.
Qed.

(** The names of the list options after a write. *)
Definition list_names (op : Op) (old : options) : list string :=
  filter (fun k => clean k = true)
    (map fst (Lists op) ++ filter (fun k => assoc k (written op) = None) (Fields (get old ListsKey)))%list.

Definition write (op : Op) (old : options) : options :=
  <[ListsKey := Join (list_names op old) " "]>
    (((fun vs => Join vs " ") <$> list_to_map (Lists op)) ∪ (list_to_map (written op) ∪ old)).

Definition run (op : Op) (e : Existing) : Existing :=
  if String.eqb (Kind op) OpAdd then put e (target op) (write op ∅)
  else if String.eqb (Kind op) OpSet then
    match at_ref e (target op) with Some old => put e (target op) (write op old) | None => e end
  else if String.eqb (Kind op) OpDelete then
    if String.eqb (Option_ op) EmptyString then drop_section e (target op)
    else match at_ref e (target op) with
         | Some old => put e (target op) (delete (Option_ op) old)
         | None => e
         end
  else e.

Lemma run_frame op e r : r <> target op -> at_ref (run op e) r = at_ref e r.
Proof. intros Hr. unfold run. repeat case_match; rewrite ?at_put_other, ?at_drop_other; done. Qed.

Lemma write_lookup op old k : k <> ListsKey ->
  write op old !! k =
  match assoc k (Lists op) with
  | Some vs => Some (Join vs " ")
  | None => match assoc k (written op) with Some v => Some v | None => old !! k end
  end.
Proof.
  intros Hk. unfold write. rewrite lookup_insert_ne by congruence.
  rewrite lookup_union, lookup_fmap, <- assoc_list_to_map.
  destruct (assoc k (Lists op)); simpl; [by destruct (_ !! k)|].
  rewrite (left_id_L None _), lookup_union, <- assoc_list_to_map.
  destruct (assoc k (written op)); simpl; [by destruct (old !! k)|]. by rewrite (left_id_L None _).
Qed.

Lemma write_shape op old k vs :
  assoc k (Lists op) = Some vs -> clean k = true -> StoredAsList (write op old) k = (true, true).
Proof.
  intros Hk Hc. unfold StoredAsList, write. rewrite lookup_insert_eq. f_equal.
  rewrite Fields_Join by (apply Forall_forall; intros x Hx; by apply list_elem_of_filter in Hx as [? _]).
  apply bool_decide_eq_true. apply list_elem_of_filter. split; [done|]. apply elem_of_app. left.
  by apply assoc_in in Hk.
Qed.

Lemma metadata_key k : metadata k = false -> k <> ListsKey.
Proof. by intros Hm ->. Qed.

#[export] Instance store_device : UciDevice Existing.
Proof.
  refine {| view := fun e => e; exec := run |}.
  - intros op e r. apply run_frame.
  - intros op e old Hop _ _ Hdisj. exists (write op old). split; [|split; [|split]].
    + unfold run. destruct Hop as [(-> & _ & ->)|(-> & Ho)]; [apply at_put|]. simpl. rewrite Ho. apply at_put.
    + intros k v Hk Hm. unfold get. rewrite write_lookup by by apply metadata_key.
      rewrite Hdisj by by eexists. by rewrite Hk.
    + intros k vs Hk Hm Hc _. split; [|by apply write_shape with (vs := vs)].
      unfold get. rewrite write_lookup by by apply metadata_key. by rewrite Hk.
    + intros k Hw Hl Hm. rewrite write_lookup by by apply metadata_key. by rewrite Hl, Hw.
  - intros op e old Hk Ho Hold. exists (delete (Option_ op) old). unfold run. rewrite Hk. simpl.
    apply String.eqb_neq in Ho. rewrite Ho, Hold. split; [apply at_put|].
    split; [apply lookup_delete_eq|]. intros k Hne _. by rewrite lookup_delete_ne.
  - intros op e Hk Ho. unfold run. rewrite Hk, Ho. simpl. apply at_drop.
Defined.
End Store.

Module PlanRuns.
Import Store.

(** The device: our own bridge-VLAN with its ports in the wrong shape and a
    setting no longer wanted, a leftover section of ours, and the
    operator's LAN and DHCP sections. *)
Definition device : Existing :=
  {[ "network" := {[ "oowrt_v20" := {[ OwnershipTag := "1"; "vlan" := "20"; "ports" := "lan1:t lan2:t";
                                       "isolate" := "1"; ListsKey := "" ]};
                     "lan" := {[ "proto" := "static"; "ip6assign" := "60"; "mtu" := "1500"; ListsKey := "" ]} ]};
     "dhcp" := {[ "oowrt_old" := {[ OwnershipTag := "1"; ListsKey := "" ]};
                  "lan" := {[ "start" := "100"; ListsKey := "" ]} ]} ]}.

Definition vlan : Section :=
  MkSection "network" "bridge-vlan" "oowrt_v20" {[ OwnershipTag := "1"; "vlan" := "20" ]}
    {[ "ports" := ["lan1:t"; "lan2:t"] ]} ["isolate"].
Definition wlan : Section :=
  MkSection "wireless" "wifi-iface" "oowrt_w1_radio0"
    {[ OwnershipTag := "1"; "ssid" := "home"; "mode" := "ap" ]} ∅ ["maxassoc"].
Definition lan_patch : Patch := MkPatch "network" "lan" {[ "ip6assign" := "64" ]} ["mtu"].
Definition doc : Doc := MkDoc 7 [wlan; vlan] [lan_patch] [] [].

Ltac map_cases :=
  repeat match goal with
  | Hm : {[_ := _]} !! _ = Some _ |- _ => apply lookup_singleton_Some in Hm as [<- <-]
  | Hm : <[_ := _]> _ !! _ = Some _ |- _ =>
      apply lookup_insert_Some in Hm as [[<- <-]|[_ Hm]]
  | Hm : ∅ !! _ = Some _ |- _ => by rewrite lookup_empty in Hm
  end.

Lemma vlan_wf : wf_section vlan.
Proof.
  split; simpl.
  - intros k v Hk. map_cases; (split; [reflexivity|]); (split; [reflexivity|]); done.
  - intros k vs Hk. map_cases. done.
  - intros k Hk. apply list_elem_of_singleton in Hk as ->. done.
Qed.
Lemma wlan_wf : wf_section wlan.
Proof.
  split; simpl.
  - intros k v Hk. map_cases; (split; [reflexivity|]); (split; [reflexivity|]); done.
  - intros k vs Hk. map_cases.
  - intros k Hk. apply list_elem_of_singleton in Hk as ->. done.
Qed.
Lemma patch_wf : wf_patch lan_patch.
Proof.
  split; simpl.
  - intros k v Hk. map_cases. split; [done|]. intros Hin. apply list_elem_of_singleton in Hin. done.
  - intros k Hk. apply list_elem_of_singleton in Hk as ->. done.
Qed.

Lemma doc_wf : wf_doc doc device.
Proof.
  split.
  - vm_compute. reflexivity.
  - constructor; [apply wlan_wf|constructor; [apply vlan_wf|constructor]].
  - apply NoDup_singleton.
  - constructor; [apply patch_wf|constructor].
  - intros r Hr. apply list_elem_of_singleton in Hr as ->. intros Hin. simpl in Hin.
    apply elem_of_cons in Hin as [Hin|Hin]; [discriminate Hin|].
    apply list_elem_of_singleton in Hin. discriminate Hin.
  - intros r Hr. apply list_elem_of_singleton in Hr as ->. vm_compute. reflexivity.
Qed.

(** The operations, in order: the VLAN is repaired (wrong shape and unwanted
    option deleted first), the WLAN added, the LAN patched, the leftover
    pruned. *)
Example planned : map (fun op => (Kind op, target op, Option_ op)) (device_ops doc device) =
  [(OpDelete, ("network", "oowrt_v20"), "ports"); (OpDelete, ("network", "oowrt_v20"), "isolate");
   (OpSet, ("network", "oowrt_v20"), ""); (OpAdd, ("wireless", "oowrt_w1_radio0"), "");
   (OpDelete, ("network", "lan"), "mtu"); (OpSet, ("network", "lan"), "");
   (OpDelete, ("dhcp", "oowrt_old"), "")].
Proof. vm_compute. reflexivity. Qed.

Lemma plan_converges_witness : device_ops doc (exec_all (device_ops doc device) device) = [].
Proof. exact (plan_converges doc device doc_wf). Defined.

Lemma owned_section_fate_witness :
  delete_section "dhcp" "oowrt_old" ∈ Prune doc device /\ NoDup (Prune doc device).
Proof.
  destruct (owned_section_fate doc device "dhcp" "oowrt_old" ltac:(vm_compute; reflexivity))
    as ([Hr|[Hk|Hp]] & _ & _ & _ & Hnd & _).
  - vm_compute in Hr. discriminate Hr.
  - vm_compute in Hk. discriminate Hk.
  - split; [exact Hp|exact Hnd].
Defined.

Lemma Plan_empty_iff_witness :
  vlan ∈ Sections doc /\
  exists cur, at_ref (exec_all (device_ops doc device) device) (sec_ref vlan) = Some cur /\ settled vlan cur.
Proof.
  assert (Hin : vlan ∈ Sections doc) by (apply list_elem_of_further, list_elem_of_here).
  split; [exact Hin|]. revert Hin.
  refine (proj1 (proj1 (Plan_empty_iff doc (exec_all (device_ops doc device) device) _) _) vlan).
  - constructor; [apply patch_wf|constructor].
  - vm_compute. reflexivity.
Defined.

Lemma assembled_documents_witness :
  let e := device in let d1 := addOwned (MkDoc 7 [] [] [] []) [] e vlan in
  let d2 := addOwned (fst d1) (snd d1) e (MkSection "dhcp" "dhcp" "lan" ∅ ∅ []) in
  length (snd d2) = 1%nat /\ Validate (fst d2) = None.
Proof.
  cbv zeta. split; [vm_compute; reflexivity|].
  refine (proj1 (assembled_documents device _ _ _)).
  eapply asm_section; [|apply surjective_pairing].
  eapply asm_section; [|apply surjective_pairing]. apply asm_empty.
Defined.
End PlanRuns.
