(* ===== verification/Reconcile.v ===== *)
(** * The reconciler (internal/reconcile)

    Read a device, render the site for it, plan the difference, apply it and
    record what the controller owns: [reconcile.go] and [redact.go] over the
    ubus client ([Ubus]), the plan ([RenderPlan]) and the apply engine
    ([ApplyEngine]). What the renderer makes of the site model, the check for
    an explicit firewall-policy conflict and the runtime health proofs are
    arguments; the database is the class [Ledger]. *)

From Stdlib Require Import ZArith Lia Ascii String.
From stdpp Require Import base gmap list strings sorting.
From S2P Require Import Prelude GoStr Ubus GoJson ApplyEngine Sha256 RenderPlan.

Local Open Scope string_scope.
Local Open Scope Z_scope.

(** ** Redaction (redact.go) *)

Definition redactedUCIValue : string := "<redacted>".

Definition sensitive_names : list string :=
  ["key"; "key1"; "key2"; "key3"; "key4"; "psk"; "wpa_psk";
   "preshared_key"; "sae_password"; "r0kh"; "r1kh";
   "password"; "passphrase"; "secret"; "auth_secret"; "acct_secret";
   "dae_secret"; "radius_secret"; "encryption_key"; "private_key";
   "private_key_password"; "private_key_passwd"; "wps_pin"].

Definition IsSensitiveOption (option : string) : bool :=
  bool_decide (ToLowerRunes option ∈ sensitive_names).

Definition RedactOptionValue (option value : string) : string :=
  if IsSensitiveOption option then redactedUCIValue else value.

Record Drift := MkDrift {
  dr_Config : string;
  dr_Section : string;
  dr_Option : string;
  dr_Ours : string;
  dr_Theirs : string;
}.

Definition newDrift (config section option ours theirs : string) : Drift :=
  MkDrift config section option (RedactOptionValue option ours) (RedactOptionValue option theirs).

(** ** Reading a device *)

Section Flatten.
(** [strconv.FormatFloat] and [fmt.Sprint] on JSON numbers. *)
Variables (format_float sprint_float : json -> string).

(** [fmt.Sprint] of a decoded JSON value. *)
Fixpoint Sprint (j : json) : string :=
  match j with
  | JNull => "<nil>"
  | JBool b => if b then "true" else "false"
  | JInt _ | JFrac _ => sprint_float j
  | JStr s => s
  | JArr l => "[" ++ Join (map Sprint l) " " ++ "]"
  | JObj l =>
      let m := fold_left (fun m kv => <[fst kv := snd kv]> m)
                         (map (fun kv => match kv with (k, v) => (k, Sprint v) end) l) (∅ : gmap string string) in
      "map[" ++ Join (map (fun k => k ++ ":" ++ get m k) (sort_strings (keys m))) " " ++ "]"
  end.

(** One value of [flatten]. *)
Definition flatten_value (v : json) : string :=
  match v with
  | JStr s => s
  | JBool b => if b then "true" else "false"
  | JInt _ | JFrac _ => format_float v
  | JArr l => Join (map Sprint l) " "
  | JNull => ""
  | JObj _ => Sprint v
  end.

Definition is_list (v : json) : bool := match v with JArr _ => true | _ => false end.

Definition list_options (vals : gmap string json) : list string :=
  sort_strings (keys (filter (fun kv => is_list (snd kv) = true) vals)).

Definition flatten (vals : gmap string json) : options :=
  <[ListsKey := Join (list_options vals) " "]> (flatten_value <$> vals).

(** Decoding the reply of [uci get] into [Values map[string]map[string]any]. *)
Definition dec_section (j : json) : option (gmap string json) :=
  match j with
  | JNull => Some ∅
  | JObj l => Some (json_map l)
  | _ => None
  end.

Definition dec_values (j : json) : option (gmap string (gmap string json)) :=
  match j with
  | JNull => Some ∅
  | JObj l =>
      match jfield "values" l with
      | None | Some JNull => Some ∅
      | Some (JObj secs) =>
          fold_left (fun acc kv => match acc, dec_section (snd kv) with
                                   | Some m, Some s => Some (<[fst kv := s]> m)
                                   | _, _ => None
                                   end) secs (Some ∅)
      | _ => None
      end
  | _ => None
  end.

Definition ManagedConfigs : list string := ["wireless"; "network"; "dhcp"; "firewall"].

Definition isMissingConfig (e : err) : bool :=
  match as_status e with Some s => s =? StatusNotFound | None => false end.

Section Read.
Context {W : Type} `{World W}.

(** [uci get] of one config. *)
Definition get_config (config : string) : M (cstate W) (res err (gmap string (gmap string json))) :=
  Call dec_values ∅ "uci" "get" (JObj [("config", JStr config)]).

Fixpoint read_configs (configs : list string) (acc : Existing) : M (cstate W) (res err Existing) :=
  match configs with
  | [] => ret (Ok acc)
  | config :: rest =>
      do r <- get_config config;
      match r with
      | Err e => if isMissingConfig e then read_configs rest acc
                 else ret (Err (WrapError ("reconcile: read " ++ config ++ " config") e))
      | Ok values => read_configs rest (<[config := flatten <$> values]> acc)
      end
  end.

Definition ReadExisting : M (cstate W) (res err Existing) := read_configs ManagedConfigs ∅.
End Read.
End Flatten.

(** ** Drift *)

(** What we would write, options and lists together. *)
Definition ours (s : Section) : gmap string string :=
  ((fun vs => Join vs " ") <$> sec_Lists s) ∪ sec_Values s.

Definition drift_key (config section : string) : string := config ++ "." ++ section.

Definition option_drift (s : Section) (current : options) (hadHash : bool) (k : string) : list Drift :=
  match current !! k with
  | Some have => if String.eqb have (get (ours s) k) then []
                 else [newDrift (sec_Config s) (sec_Name s) k (get (ours s) k) have]
  | None => if hadHash then [newDrift (sec_Config s) (sec_Name s) k (get (ours s) k) ""] else []
  end.

Definition section_drift (e : Existing) (appliedHash : gmap string string) (s : Section) : list Drift :=
  match In_ e (sec_Config s) !! sec_Name s with
  | None => []
  | Some current =>
      if negb (String.eqb (get current OwnershipTag) "1") then []
      else match appliedHash !! drift_key (sec_Config s) (sec_Name s) with
           | Some h => if negb (String.eqb h (Hash s)) then []
                       else flat_map (option_drift s current true) (sort_strings (keys (ours s)))
           | None => flat_map (option_drift s current false) (sort_strings (keys (ours s)))
           end
  end.

Definition detectDrift (d : Doc) (e : Existing) (appliedHash : gmap string string) : list Drift :=
  flat_map (section_drift e appliedHash) (Sections d).

(** ** Bounded audit text *)

(** U+FFFD and the horizontal ellipsis in UTF-8. *)
Definition replacement : list ascii := bytes [239; 191; 189].
Definition ellipsis : list ascii := bytes [226; 128; 166].

(** [utf8.RuneStart]. *)
Definition RuneStart (c : ascii) : bool := negb (is_cont c).

(** [strings.ToValidUTF8]: each maximal run of invalid bytes becomes one
    replacement; [bad] says that the previous byte was invalid. *)
Fixpoint to_valid (fuel : nat) (bad : bool) (l : list ascii) : list ascii :=
  match fuel, l with
  | O, _ | _, [] => []
  | S f, c :: l' =>
      if byte_of c <? 128 then c :: to_valid f false l'
      else
        let n := rune_size l in
        if Nat.eqb n 1 then ((if bad then [] else replacement) ++ to_valid f true l')%list
        else (take n l ++ to_valid f false (drop n l))%list
  end.

Definition ToValidUTF8 (s : string) : string := of_chars (to_valid (String.length s) false (chars s)).

(** The loop that backs up to the start of a rune. *)
Fixpoint back_up (l : list ascii) (cut : nat) : nat :=
  match cut with
  | O => O
  | S c => match l !! cut with
           | Some b => if RuneStart b then cut else back_up l c
           | None => cut
           end
  end.

Definition boundedApplyAuditText (value : string) (limit : Z) : string * bool :=
  let valid := ToValidUTF8 value in
  let changed := negb (String.eqb valid value) in
  if len valid <=? limit then (valid, changed)
  else
    let cut := back_up (chars valid) (Z.to_nat (limit - 3)) in
    (of_chars (take cut (chars valid) ++ ellipsis), true).

Definition applyAuditMaxTextBytes : Z := 1024.
Definition applyAuditMaxOmissions : nat := 8.
Definition applyAuditMaxOmissionWLANBytes : Z := 128.
Definition applyAuditMaxOmissionReasonBytes : Z := 512.
Definition applyAuditMaxOmissionKindBytes : Z := 32.

Definition bound_omission (o : Omission) : Omission * bool :=
  let '(w, tw) := boundedApplyAuditText (om_WLAN o) applyAuditMaxOmissionWLANBytes in
  let '(r, tr) := boundedApplyAuditText (om_Reason o) applyAuditMaxOmissionReasonBytes in
  let '(k, tk) := boundedApplyAuditText (om_Kind o) applyAuditMaxOmissionKindBytes in
  (MkOmission w r k, tw || tr || tk).

Definition boundedApplyAuditOmissions (l : list Omission) : list Omission * bool :=
  let bounded := map bound_omission (take applyAuditMaxOmissions l) in
  (map fst bounded,
   (applyAuditMaxOmissions <? length l)%nat || existsb snd bounded).

(** ** Plans and outcomes *)

Record DevicePlan := MkDevicePlan {
  dp_Doc : Doc;
  dp_Report : Report;
  dp_Drift : list Drift;
  dp_Plan : Plan;
  dp_Existing : Existing;
}.

Definition Empty (p : DevicePlan) : bool := Nat.eqb (length (Ops (dp_Plan p))) 0.
Definition Blocked (p : DevicePlan) : bool := HasConflicts (dp_Report p).

Record OwnedSection := MkOwned {
  os_DeviceID : Z;
  os_Config : string;
  os_Section : string;
  os_RenderedHash : string;
  os_AppliedAt : Z;
}.

(** The audit event of one apply. *)
Record Audit := MkAudit {
  au_Device : Z;
  au_Severity : string;
  au_Outcome : Outcome;
  au_Reason : string * bool;
  au_Ops : nat;
  au_Sections : nat;
  au_Omissions : list Omission * bool;
  au_OmissionsTotal : nat;
  au_Stranded : bool;
  au_Error : option (string * bool);
  au_HealthError : option (string * bool);
}.

(** What the reconciler asks of the database, and its clock. *)
Class Ledger (L : Type) := {
  owned_sections : Z -> L -> res err (list OwnedSection) * L;
  replace_owned : Z -> list OwnedSection -> L -> res err unit * L;
  log_event : Audit -> L -> res err unit * L;
  wall_clock : L -> Z * L;
}.

(** The ledger's durable changes, in order. *)
Inductive entry := Replaced (device : Z) (rows : list OwnedSection) | Logged (a : Audit).

Record rstate (W L : Type) := MkR { r_dev : cstate W; r_ledger : L; r_entries : list entry }.
Arguments MkR {W L}.
Arguments r_dev {W L}.
Arguments r_ledger {W L}.
Arguments r_entries {W L}.

Section Reconciler.
Context {W L : Type} `{World W} `{Ledger L}.
Local Notation RM := (M (rstate W L)).

(** Arguments: number formatting, the renderer on one site and device, the
    explicit firewall-policy check, the runtime health composition, and the
    text of a reason and of an error. *)
Variables (format_float sprint_float : json -> string).
Variable render : Existing -> res err (Doc * Report).
Variable policy_conflict : Existing -> M (cstate W) (option Conflict).
Variable composeManagedRuntimeHealth :
  DevicePlan -> option (HealthCheck (W := W)) -> option (HealthCheck (W := W)).
Variable reason_text : Reason -> string.
Variable error_text : err -> string.

Definition on_device {A} (m : M (cstate W) A) : RM A :=
  fun s => let '(a, c) := m (r_dev s) in (a, MkR c (r_ledger s) (r_entries s)).

Definition OwnedSections (device : Z) : RM (res err (list OwnedSection)) :=
  fun s => let '(r, l) := owned_sections device (r_ledger s) in (r, MkR (r_dev s) l (r_entries s)).

Definition record {A} (entry_ : entry) (m : L -> res err A * L) : RM (res err A) :=
  fun s => let '(r, l) := m (r_ledger s) in
           (r, MkR (r_dev s) l (match r with Ok _ => r_entries s ++ [entry_] | Err _ => r_entries s end)%list).

Definition ReplaceOwned (device : Z) (rows : list OwnedSection) : RM (res err unit) :=
  record (Replaced device rows) (replace_owned device rows).
Definition LogEvent (a : Audit) : RM (res err unit) := record (Logged a) (log_event a).

Definition r_now : RM Z := fun s => let '(t, l) := wall_clock (r_ledger s) in (t, MkR (r_dev s) l (r_entries s)).

Definition applied_hashes (rows : list OwnedSection) : gmap string string :=
  fold_left (fun m o => <[drift_key (os_Config o) (os_Section o) := os_RenderedHash o]> m) rows ∅.

Definition no_plan : Plan := MkPlan [] 0 false.

Definition PlanDevice (deviceID : Z) : RM (res err DevicePlan) :=
  do re <- on_device (ReadExisting format_float sprint_float);
  match re with
  | Err e => ret (Err e)
  | Ok existing =>
      match render existing with
      | Err e => ret (Err e)
      | Ok (doc, report0) =>
          match Validate doc with
          | Some msg => ret (Err (MsgError ("reconcile: rejected invalid desired document: " ++ msg) []))
          | None =>
              do c <- on_device (policy_conflict existing);
              let report := match c with Some c => add_conflict report0 c | None => report0 end in
              do owned <- OwnedSections deviceID;
              let applied := match owned with Ok rows => applied_hashes rows | Err _ => ∅ end in
              let drift := detectDrift doc existing applied in
              ret (Ok (MkDevicePlan doc report drift
                         (if HasConflicts report then no_plan
                          else MkPlan (Ops (Plan_ doc existing) ++ Prune doc existing)%list 0 false)
                         existing))
          end
      end
  end.

(** [recordOwned]: the rows for the rendered sections that are ours or not
    yet there, then the claims carried forward. *)
Definition claimable (p : DevicePlan) (s : Section) : bool :=
  OwnedIn (dp_Existing p) (sec_Config s) (sec_Name s) ||
  negb (has (In_ (dp_Existing p) (sec_Config s)) (sec_Name s)).

Definition rendered_rows (deviceID now : Z) (p : DevicePlan) : list OwnedSection :=
  map (fun s => MkOwned deviceID (sec_Config s) (sec_Name s) (Hash s) now)
      (filter (fun s => claimable p s = true) (Sections (dp_Doc p))).

Definition carried_rows (p : DevicePlan) (prev : list OwnedSection) : list OwnedSection :=
  filter (fun o => Preserved (dp_Doc p) (dp_Existing p) (os_Config o) (os_Section o) = true) prev.

Definition recordOwned (deviceID : Z) (p : DevicePlan) : RM (option err) :=
  do now <- r_now;
  do prev <- OwnedSections deviceID;
  match prev with
  | Err e => ret (Some (WrapError ("reconcile: applied, but could not read the " ++
                                   "existing ownership claims to carry forward") e))
  | Ok prev =>
      do r <- ReplaceOwned deviceID (rendered_rows deviceID now p ++ carried_rows p prev)%list;
      ret (match r with
           | Err e => Some (WrapError "reconcile: applied but could not record ownership" e)
           | Ok _ => None
           end)
  end.

Definition severity (res : Result) (applyErr : option err) : string :=
  if bool_decide (is_Some applyErr) || bool_decide (res_Outcome res = Unknown) then "error"
  else if bool_decide (res_Outcome res = Reverted) then "warning" else "info".

Definition audit_of (deviceID : Z) (p : DevicePlan) (res : Result) (applyErr : option err) : Audit :=
  MkAudit deviceID (severity res applyErr) (res_Outcome res)
    (boundedApplyAuditText (reason_text (res_Reason res)) applyAuditMaxTextBytes)
    (length (Ops (dp_Plan p))) (length (Sections (dp_Doc p)))
    (boundedApplyAuditOmissions (Omissions (dp_Report p))) (length (Omissions (dp_Report p)))
    (res_Stranded res)
    (option_map (fun e => boundedApplyAuditText (error_text e) applyAuditMaxTextBytes) applyErr)
    (option_map (fun e => boundedApplyAuditText (error_text e) applyAuditMaxTextBytes) (res_HealthErr res)).

Definition outcome_name (o : Outcome) : string :=
  match o with NoOutcome => "" | Applied => "applied" | Reverted => "reverted" | Unknown => "unknown" end.

Definition with_reason (res : Result) (r : Reason) : Result :=
  MkRes (res_Outcome res) r (res_HealthErr res) (res_Stranded res) (res_Started res) (res_Finished res).

(** The reason once the audit could not be written. *)
Definition audit_failure_reason (res : Result) (auditErr : err) : Reason :=
  let failure := "controller apply-outcome audit recording failed: " in
  let r := res_Reason res in
  if negb (bool_decide (res_Outcome res = NoOutcome)) then
    let outcome := "device outcome was " ++ outcome_name (res_Outcome res) in
    if bool_decide (r_text r = "" /\ r_shown r = [])
    then MkReason (outcome ++ "; " ++ failure) [auditErr]
    else MkReason (outcome ++ ": " ++ r_text r ++ "; " ++ failure) (r_shown r ++ [auditErr])%list
  else if bool_decide (r_text r = "" /\ r_shown r = []) then MkReason failure [auditErr]
  else MkReason (r_text r ++ "; " ++ failure) (r_shown r ++ [auditErr])%list.

Definition join_errors (a : option err) (b : err) : err :=
  match a with Some e => JoinError [e; b] | None => JoinError [b] end.

Definition finishApplyOutcome (deviceID : Z) (p : DevicePlan) (res : Result) (applyErr : option err)
    : RM (Result * option err) :=
  do a <- LogEvent (audit_of deviceID p res applyErr);
  ret (match a with
       | Ok _ => (res, applyErr)
       | Err auditErr =>
           (with_reason res (audit_failure_reason res auditErr),
            Some (join_errors applyErr (WrapError "reconcile: record apply outcome audit" auditErr)))
       end).

Definition ownership_failed (e : err) : Reason :=
  MkReason "device outcome was applied, but controller ownership recording failed: " [e].

Definition run_health (h : option (HealthCheck (W := W))) : RM (option err) :=
  match h with None => ret None | Some h => on_device h end.

Definition zero_result : Result := MkRes NoOutcome no_reason None false 0 0.

(** The branch of [Apply] with nothing to write. *)
Definition apply_nothing (deviceID : Z) (p : DevicePlan) (health : option (HealthCheck (W := W)))
    : RM (Result * option err) :=
  do h <- run_health (composeManagedRuntimeHealth p health);
  match h with
  | Some e =>
      finishApplyOutcome deviceID p
        (MkRes NoOutcome (MkReason "no configuration was written; desired managed state is not loaded in runtime" [])
               (Some e) false 0 0)
        (Some (WrapError "reconcile: no configuration was written; managed runtime proof failed" e))
  | None =>
      do o <- recordOwned deviceID p;
      let ok := MkRes Applied (MkReason "already matches the site model; nothing to do" []) None false 0 0 in
      finishApplyOutcome deviceID p
        (match o with Some e => with_reason ok (ownership_failed e) | None => ok end) o
  end.

(** [Reconciler.Apply]; [None] when the engine's fuel ran out. *)
Definition Reconciler_Apply (fuel : nat) (engine : Engine) (deviceID : Z) (p : DevicePlan)
    (health : option (HealthCheck (W := W))) : RM (option (Result * option err)) :=
  match Validate (dp_Doc p) with
  | Some msg =>
      ret (Some (zero_result, Some (MsgError ("reconcile: rejected invalid desired document: " ++ msg) [])))
  | None =>
      if Blocked p then
        ret (Some (zero_result,
          Some (MsgError ("reconcile: device has " ++ Itoa (Z.of_nat (length (Conflicts (dp_Report p)))) ++
                          " unresolved conflict(s); refusing to apply: " ++
                          match Conflicts (dp_Report p) with c :: _ => con_Reason c | [] => "" end) [])))
      else if Empty p then
        do r <- apply_nothing deviceID p health; ret (Some r)
      else
        do r <- on_device (ApplyEngine.Apply engine fuel (dp_Plan p) (composeManagedRuntimeHealth p health));
        match r with
        | None => ret None
        | Some (res, e) =>
            if bool_decide (e = None /\ res_Outcome res = Applied) then
              do o <- recordOwned deviceID p;
              do f <- finishApplyOutcome deviceID p
                        (match o with Some oe => with_reason res (ownership_failed oe) | None => res end) o;
              ret (Some f)
            else
              do f <- finishApplyOutcome deviceID p res e; ret (Some f)
        end
  end.
End Reconciler.
