(* ===== verification/AuditText.v ===== *)
(** * Bounded audit text

    The clipping of untrusted text in the reconciler's audit events
    ([boundedApplyAuditText] of [Reconcile]): the result is well-formed UTF-8
    within the byte limit, and says whether anything was changed. *)

From Stdlib Require Import ZArith Lia Ascii String.
From stdpp Require Import base list strings.
From S2P Require Import Prelude GoStr RenderPlan Reconcile.

Local Open Scope string_scope.
Local Open Scope Z_scope.

(** Well-formed UTF-8: ASCII bytes and multi-byte runes. *)
Inductive utf8 : list ascii -> Prop :=
| utf8_nil : utf8 []
| utf8_ascii c l : byte_of c < 128 -> utf8 l -> utf8 (c :: l)
| utf8_rune l : (1 < rune_size l)%nat -> utf8 (drop (rune_size l) l) -> utf8 l.

Lemma utf8_piece p l : (1 < rune_size p)%nat -> length p = rune_size p -> utf8 l -> utf8 (p ++ l).
Proof.
  intros Hp Hlen Hl. destruct (rune_shape p Hp) as (_ & Hx & _).
  assert (Hs : rune_size (p ++ l) = rune_size p) by (specialize (Hx l); by rewrite take_ge in Hx by lia).
  apply utf8_rune; rewrite Hs; [done|]. rewrite <- Hlen, drop_app_length. done.
Qed.

Lemma utf8_app a b : utf8 a -> utf8 b -> utf8 (a ++ b).
Proof.
  induction 1 as [|c l Hc _ IH|l Hr _ IH]; intros Hb; [done|by apply utf8_ascii; [|apply IH]|].
  destruct (rune_shape l Hr) as (Hlen & Hx & _).
  rewrite <- (take_drop (rune_size l) l), <- app_assoc. specialize (Hx []) as Hx0. rewrite app_nil_r in Hx0.
  apply utf8_piece; [by rewrite Hx0|rewrite Hx0, length_take; lia|by apply IH].
Qed.

Lemma utf8_replacement : utf8 replacement.
Proof. apply utf8_rune; [vm_compute; lia|]. constructor. Qed.
Lemma utf8_ellipsis : utf8 ellipsis.
Proof. apply utf8_rune; [vm_compute; lia|]. constructor. Qed.

Lemma to_valid_utf8 fuel : forall bad l, utf8 (to_valid fuel bad l).
Proof.
  induction fuel as [|f IH]; intros bad l; [destruct l; constructor|].
  destruct l as [|c l]; [constructor|]. cbn [to_valid].
  destruct (byte_of c <? 128) eqn:Hc; [apply utf8_ascii; [by bool_prop|apply IH]|].
  destruct (Nat.eqb_spec (rune_size (c :: l)) 1) as [E|E].
  - apply utf8_app; [destruct bad; [constructor|apply utf8_replacement]|apply IH].
  - pose proof (rune_size_bounds (c :: l)). assert (Hr : (1 < rune_size (c :: l))%nat) by lia.
    destruct (rune_shape _ Hr) as (Hlen & Hx & _). specialize (Hx []) as Hx0. rewrite app_nil_r in Hx0.
    apply utf8_piece; [by rewrite Hx0|rewrite Hx0, length_take; lia|apply IH].
Qed.

(** Text that is well formed already is kept. *)
Lemma to_valid_same l : utf8 l -> forall fuel bad, (length l <= fuel)%nat -> to_valid fuel bad l = l.
Proof.
  induction 1 as [|c l Hc _ IH|l Hr _ IH]; intros fuel bad Hf; [by destruct fuel| |].
  - destruct fuel as [|f]; [simpl in Hf; lia|]. cbn [to_valid]. apply Z.ltb_lt in Hc. rewrite Hc.
    f_equal. apply IH. simpl in Hf. lia.
  - destruct l as [|c l]; [simpl in Hr; lia|]. destruct fuel as [|f]; [simpl in Hf; lia|]. cbn [to_valid].
    assert (Hc : byte_of c <? 128 = false).
    { apply Z.ltb_ge. revert Hr. unfold rune_size, in_range. repeat case_match; bool_prop; try lia;
        intros _; repeat (bool_prop; destruct_or?; destruct_and?; bool_prop); lia. }
    rewrite Hc. destruct (Nat.eqb_spec (rune_size (c :: l)) 1) as [E|_]; [lia|].
    rewrite IH; [apply take_drop|]. rewrite length_drop. cbn [length] in *. lia.
Qed.

(** Cutting well-formed text before a byte that starts a rune. *)
Lemma utf8_take l : utf8 l -> forall cut,
  (cut = 0%nat \/ exists c, l !! cut = Some c /\ RuneStart c = true) -> utf8 (take cut l).
Proof.
  induction 1 as [|c l Hc _ IH|l Hr _ IH]; intros cut Hcut.
  - destruct cut; constructor.
  - destruct cut as [|cut]; [constructor|]. simpl. apply utf8_ascii; [done|].
    apply IH. destruct Hcut as [|(b & Hb & Hs)]; [done|]. right. by exists b.
  - destruct (rune_shape l Hr) as (Hlen & Hx & Hcont).
    destruct Hcut as [->|(b & Hb & Hs)]; [constructor|].
    destruct (decide (cut = 0%nat)) as [->|Hz]; [constructor|].
    destruct (decide (cut < rune_size l)%nat) as [Hlt|Hge].
    { unfold RuneStart in Hs. rewrite (Hcont cut b) in Hs; [done|lia|done]. }
    replace cut with (rune_size l + (cut - rune_size l))%nat in Hb |- * by lia.
    rewrite <- take_take_drop. specialize (Hx []) as Hx0. rewrite app_nil_r in Hx0.
    apply utf8_piece; [by rewrite Hx0|rewrite Hx0, length_take; lia|].
    apply IH. right. exists b. split; [|done]. by rewrite lookup_drop.
Qed.

Lemma back_up_spec l cut : (cut < length l)%nat ->
  (back_up l cut <= cut)%nat /\
  (back_up l cut = 0%nat \/ exists c, l !! back_up l cut = Some c /\ RuneStart c = true).
Proof.
  induction cut as [|cut IH]; intros Hc; cbn [back_up]; [split; [lia|by left]|].
  destruct (lookup_lt_is_Some_2 l (S cut) Hc) as [b Hb]. rewrite Hb.
  destruct (RuneStart b) eqn:Hs; [split; [lia|right; by exists b]|].
  destruct IH as [? ?]; [lia|]. split; [lia|done].
Qed.

Lemma len_of_chars l : len (of_chars l) = Z.of_nat (length l).
Proof. unfold len. by rewrite <- length_chars, chars_of_chars. Qed.

(** (bounds) Text in an audit event is bounded and well formed. Within
    any limit of at least the ellipsis, the result is well-formed UTF-8 of at
    most that many bytes; the flag is false only for the text itself; and
    well-formed text within the limit is returned unchanged, unflagged. *)
Theorem boundedApplyAuditText_spec value limit :
  3 <= limit ->
  let '(text, truncated) := boundedApplyAuditText value limit in
  len text <= limit /\ utf8 (chars text) /\ (truncated = false -> text = value) /\
  (utf8 (chars value) -> len value <= limit -> text = value /\ truncated = false).
Proof.
  intros Hl. unfold boundedApplyAuditText. set (valid := ToValidUTF8 value).
  assert (Hv : utf8 (chars valid)) by (unfold valid, ToValidUTF8; rewrite chars_of_chars; apply to_valid_utf8).
  assert (Hsame : utf8 (chars value) -> valid = value).
  { intros Hu. unfold valid, ToValidUTF8. rewrite to_valid_same; [apply of_chars_chars|done|].
    by rewrite length_chars. }
  destruct (len valid <=? limit) eqn:E; bool_prop.
  - split_and!; try done.
    + intros Hc. apply negb_false_iff, String.eqb_eq in Hc. done.
    + intros Hu _. rewrite (Hsame Hu), String.eqb_refl. done.
  - assert (Hcut : (Z.to_nat (limit - 3) < length (chars valid))%nat).
    { rewrite length_chars. unfold len in E. lia. }
    destruct (back_up_spec _ _ Hcut) as [Hle Hst]. rewrite len_of_chars, chars_of_chars, length_app, length_take.
    split_and!; try done.
    + change (length ellipsis) with 3%nat. lia.
    + apply utf8_app; [by apply utf8_take|apply utf8_ellipsis].
    + intros Hu Hlen. rewrite (Hsame Hu) in E. lia.
Qed.
