(* ===== verification/ReconcileSpec.v ===== *)
(** * What the reconciler guarantees

    Theorems about [Reconcile]: reading a device keeps the shape of its
    options; planning only reads; drift names exactly the differences that are
    someone else's and leaks no secret; ownership is recorded only after a
    confirmed apply, and the record agrees with the device; audit text is
    bounded and well formed. *)

From Stdlib Require Import ZArith Lia Ascii String.
From stdpp Require Import base gmap list strings sorting.
From S2P Require Import Prelude GoStr Ubus UbusTrace ApplyEngine Sha256 RenderPlan RenderPlanSpec Reconcile.

Local Open Scope string_scope.
Local Open Scope Z_scope.

(** ** Reading *)

Lemma list_options_elem (vals : gmap string json) k :
  k ∈ list_options vals <-> exists v, vals !! k = Some v /\ is_list v = true.
Proof.
  unfold list_options. rewrite elem_of_sort_strings, elem_of_keys. unfold is_Some.
  setoid_rewrite map_lookup_filter_Some. done.
Qed.

(** Reading keeps the difference between a list and a string
    that looks like one. On a section whose option names are UCI names, every
    option reads as [flatten_value] of what the device sent, its shape is
    always known, and it reads as a list exactly when the device sent a JSON
    array. *)
Theorem flatten_keeps_shape (ff sf : json -> string) (vals : gmap string json) k :
  (forall k', is_Some (vals !! k') -> clean k' = true) -> k <> ListsKey ->
  flatten ff sf vals !! k = (flatten_value ff sf <$> vals !! k) /\
  StoredAsList (flatten ff sf vals) k =
    (match vals !! k with Some v => is_list v | None => false end, true).
Proof.
  intros Hc Hk. unfold flatten. split; [by rewrite lookup_insert_ne, lookup_fmap by congruence|].
  unfold StoredAsList. rewrite lookup_insert_eq. rewrite Fields_Join.
  - f_equal. apply Bool.eq_iff_eq_true. rewrite bool_decide_eq_true, list_options_elem.
    destruct (vals !! k) as [v|]; [|split; [by intros (? & ? & _)|done]].
    split; [by intros (? & [= <-] & ?)|by exists v].
  - apply Forall_forall. intros x Hx. apply list_options_elem in Hx as (v & Hv & _). apply Hc. by exists v.
Qed.

(** ** Drift *)

Lemma option_drift_elem s current hadHash k dr :
  dr ∈ option_drift s current hadHash k <->
  exists have, dr = newDrift (sec_Config s) (sec_Name s) k (get (ours s) k) have /\
    ((current !! k = Some have /\ have <> get (ours s) k) \/
     (current !! k = None /\ hadHash = true /\ have = EmptyString)).
Proof.
  unfold option_drift. destruct (current !! k) as [have|].
  - destruct (String.eqb_spec have (get (ours s) k)) as [E|E].
    + split; [intros Hx; inv Hx|]. intros (h & _ & [[[= <-] ?]|(? & _)]); done.
    + rewrite list_elem_of_singleton. split; [intros ->; eauto|].
      by intros (h & -> & [[[= <-] _]|(? & _)]).
  - destruct hadHash.
    + rewrite list_elem_of_singleton. split; [intros ->; eexists; split; [done|by right]|].
      by intros (h & -> & [[? _]|(_ & _ & ->)]).
    + split; [intros Hx; inv Hx|]. intros (h & _ & [[? _]|(_ & ? & _)]); done.
Qed.

(** The differences of the options [ks] of one section. *)
Definition differs (s : Section) (current : options) (hadHash : bool) (k have : string) : Prop :=
  (current !! k = Some have /\ have <> get (ours s) k) \/
  (current !! k = None /\ have = EmptyString /\ hadHash = true).

Lemma options_drift_elem s current b dr :
  dr ∈ flat_map (option_drift s current b) (sort_strings (keys (ours s))) <->
  exists k have, is_Some (ours s !! k) /\ differs s current b k have /\
    dr = newDrift (sec_Config s) (sec_Name s) k (get (ours s) k) have.
Proof.
  rewrite elem_of_flat_map. setoid_rewrite elem_of_sort_strings. setoid_rewrite elem_of_keys.
  setoid_rewrite option_drift_elem. unfold differs. split.
  - intros (k & Hk & have & -> & Hd). exists k, have. split_and!; [done|tauto|done].
  - intros (k & have & Hk & Hd & ->). exists k. split; [done|]. exists have. split; [done|tauto].
Qed.

(** The fingerprint recorded for a section. *)
Definition recorded (applied : gmap string string) (s : Section) : option string :=
  applied !! drift_key (sec_Config s) (sec_Name s).

Lemma section_drift_elem e applied s dr :
  dr ∈ section_drift e applied s <->
  exists current k have, at_ref e (sec_ref s) = Some current /\ get current OwnershipTag = "1" /\
    (recorded applied s = None \/ recorded applied s = Some (Hash s)) /\
    is_Some (ours s !! k) /\ differs s current (bool_decide (is_Some (recorded applied s))) k have /\
    dr = newDrift (sec_Config s) (sec_Name s) k (get (ours s) k) have.
Proof.
  unfold section_drift. change (In_ e (sec_Config s) !! sec_Name s) with (at_ref e (sec_ref s)).
  fold (recorded applied s).
  destruct (at_ref e (sec_ref s)) as [cur|]; [|split; [intros Hx; inv Hx|by intros (? & ? & ? & ? & _)]].
  destruct (String.eqb_spec (get cur OwnershipTag) "1") as [Ho|Ho]; simpl negb; cbv iota; cycle 1.
  { split; [intros Hx; inv Hx|by intros (? & ? & ? & [= <-] & ? & _)]. }
  destruct (recorded applied s) as [h|]; [destruct (String.eqb_spec h (Hash s)) as [->|Hh]|];
    simpl negb; cbv iota; rewrite ?options_drift_elem.
  - split; [intros (k & have & ? & ? & ->); exists cur, k, have; split_and!; try done; by right|].
    intros (c & k & have & [= <-] & _ & _ & ? & ? & ->). by exists k, have.
  - split; [intros Hx; inv Hx|]. intros (c & k & have & _ & _ & [?|[= ?]] & _); done.
  - split; [intros (k & have & ? & ? & ->); exists cur, k, have; split_and!; try done; by left|].
    intros (c & k & have & [= <-] & _ & _ & ? & ? & ->). by exists k, have.
Qed.

(** Drift is exactly what someone else changed. A difference
    is reported for an option of a rendered section that the device holds with
    the marker and whose fingerprint is the one last applied, or was never
    recorded: either the device's value differs from ours, or the option is
    gone and the fingerprint was recorded. Nothing is reported for a section of
    which we have a pending edit, and a sensitive option's values never
    appear. *)
Theorem drift_exact d e applied dr :
  dr ∈ detectDrift d e applied <->
  exists s current k have,
    s ∈ Sections d /\ at_ref e (sec_ref s) = Some current /\ get current OwnershipTag = "1" /\
    (recorded applied s = None \/ recorded applied s = Some (Hash s)) /\
    is_Some (ours s !! k) /\
    differs s current (bool_decide (is_Some (recorded applied s))) k have /\
    dr = MkDrift (sec_Config s) (sec_Name s) k
           (if IsSensitiveOption k then redactedUCIValue else get (ours s) k)
           (if IsSensitiveOption k then redactedUCIValue else have).
Proof.
  unfold detectDrift. rewrite elem_of_flat_map. setoid_rewrite section_drift_elem. split.
  - intros (s & Hs & cur & k & have & Hrest). by exists s, cur, k, have.
  - intros (s & cur & k & have & Hs & Hrest). exists s. split; [done|]. by exists cur, k, have.
Qed.

(** ** The ownership record *)

Definition os_ref (o : OwnedSection) : SectionRef := (os_Config o, os_Section o).
Definition owned_rows (deviceID now : Z) (p : DevicePlan) (prev : list OwnedSection) : list OwnedSection :=
  (rendered_rows deviceID now p ++ carried_rows p prev)%list.

Section Record_.
Context {D : Type} `{UciDevice D}.

(** C27 (reconcile): the ownership record agrees with the device. For a
    document that passed the ownership rule, and a previous record that names
    every section the render preserves, the rows [recordOwned] stores name
    exactly the sections that carry the marker once the planned operations
    have run. *)
Theorem record_matches_device (dev : D) p prev deviceID now r :
  dp_Existing p = view dev -> wf_doc (dp_Doc p) (view dev) -> guarded (dp_Doc p) (view dev) ->
  (forall c n, Preserved (dp_Doc p) (view dev) c n = true -> (c, n) ∈ map os_ref prev) ->
  r ∈ map os_ref (owned_rows deviceID now p prev) <->
  OwnedIn (view (exec_all (device_ops (dp_Doc p) (view dev)) dev)) (fst r) (snd r) = true.
Proof.
  intros He Hwf Hg Hprev. rewrite (owned_afterwards (dp_Doc p) dev Hwf r Hg). unfold owned_rows.
  rewrite map_app, elem_of_app. apply Morphisms_Prop.or_iff_morphism.
  - unfold rendered_rows, wanted. rewrite map_map, bool_decide_eq_true, !list_elem_of_fmap. simpl.
    split; intros (s & -> & Hs); exists s; (split; [done|]).
    + by apply list_elem_of_filter in Hs as [_ ?].
    + apply list_elem_of_filter. split; [|done]. unfold claimable. rewrite He.
      unfold guarded in Hg. rewrite Forall_forall in Hg. destruct (Hg s Hs) as [Hn|Ho]; [|by rewrite Ho].
      unfold has. apply orb_true_iff. right. apply negb_true_iff, bool_decide_eq_false.
      rewrite <- eq_None_not_Some. exact Hn.
  - destruct r as [c n]. cbn [fst snd]. rewrite <- Preserved_iff. unfold carried_rows. rewrite He. split.
    + intros Hin. apply list_elem_of_fmap in Hin as (o & Heq & Ho). injection Heq as -> ->.
      by apply list_elem_of_filter in Ho as [Ho _].
    + intros Hp. assert (Hin := Hprev _ _ Hp). apply list_elem_of_fmap in Hin as (o & Heq & Ho).
      apply list_elem_of_fmap. exists o. split; [done|]. apply list_elem_of_filter. split; [|done].
      unfold os_ref in Heq. injection Heq as Hc Hn. by rewrite <- Hc, <- Hn.
Qed.
End Record_.

(** ** Applying a plan *)

Section Apply_.
Context {W L : Type} `{World W} `{Ledger L}.
Variables (compose : DevicePlan -> option (HealthCheck (W := W)) -> option (HealthCheck (W := W))).
Variables (reason_text : Reason -> string) (error_text : err -> string).

Local Notation record_owned := (recordOwned (W := W) (L := L)).
Local Notation finish := (finishApplyOutcome (W := W) (L := L) reason_text error_text).

(** What one apply adds to the ledger. *)
Definition booked (deviceID : Z) (rows : list (list OwnedSection)) (audits : list Audit) : list entry :=
  (map (Replaced deviceID) rows ++ map Logged audits)%list.

Lemma recordOwned_entries deviceID p s o s' : record_owned deviceID p s = (o, s') ->
  exists rows, r_entries s' = (r_entries s ++ map (Replaced deviceID) rows)%list /\ r_dev s' = r_dev s /\
    (o = None -> exists now prev, rows = [owned_rows deviceID now p prev]) /\ (length rows <= 1)%nat.
Proof.
  intros E. unfold recordOwned in E. apply bind_inv in E as (now & s1 & E1 & E).
  unfold r_now in E1. destruct (wall_clock (r_ledger s)) as [t l1]. injection E1 as <- <-.
  apply bind_inv in E as (prev & s2 & E2 & E). unfold OwnedSections in E2. cbn [r_ledger r_dev r_entries] in E2.
  destruct (owned_sections deviceID l1) as [pr l2]. injection E2 as <- <-.
  destruct pr as [pr|e]; [|injection E as <- <-; exists []; rewrite app_nil_r; split_and!; try done; simpl; lia].
  apply bind_inv in E as (r & s3 & E3 & E). unfold ReplaceOwned, record in E3. cbn [r_ledger r_dev r_entries] in E3.
  destruct (replace_owned _ _ l2) as [rr l3]. injection E3 as <- <-. injection E as <- <-. cbn [r_entries r_dev].
  destruct rr as [u|e]; [eexists [_]|exists []; rewrite app_nil_r].
  - split; [reflexivity|]. split; [done|]. split; [|simpl; lia]. intros _. by eexists _, _.
  - split_and!; try done. simpl; lia.
Qed.

Lemma finish_entries deviceID p res e s out s' : finish deviceID p res e s = (out, s') ->
  exists audits, r_entries s' = (r_entries s ++ map Logged audits)%list /\ r_dev s' = r_dev s /\
    res_Outcome (fst out) = res_Outcome res /\ (snd out = None -> e = None /\ length audits = 1%nat) /\
    (length audits <= 1)%nat.
Proof.
  intros E. unfold finishApplyOutcome in E. apply bind_inv in E as (a & s1 & E1 & E).
  unfold LogEvent, record in E1. destruct (log_event _ (r_ledger s)) as [ra l1]. injection E1 as <- <-.
  injection E as <- <-. cbn [r_entries r_dev]. destruct ra as [u|ae].
  - eexists [_]. split; [reflexivity|]. split_and!; try done.
  - exists []. rewrite app_nil_r. split_and!; try done. simpl; lia.
Qed.

(** The bookkeeping that follows an outcome. *)
Definition books (deviceID : Z) (p : DevicePlan) (outcome : Outcome) (s s' : rstate W L)
    (out : Result * option err) : Prop :=
  exists rows audits, r_entries s' = (r_entries s ++ booked deviceID rows audits)%list /\
    res_Outcome (fst out) = outcome /\ (length rows <= 1)%nat /\ (length audits <= 1)%nat /\
    (rows <> [] -> outcome = Applied) /\
    (snd out = None -> length audits = 1%nat /\
       (outcome = Applied -> exists now prev, rows = [owned_rows deviceID now p prev])).

Lemma books_unrecorded deviceID p res e s out s' :
  finish deviceID p res e s = (out, s') -> (e = None -> res_Outcome res <> Applied) ->
  books deviceID p (res_Outcome res) s s' out.
Proof.
  intros E Hne. apply finish_entries in E as (audits & Hen & _ & Ho & Hok & Hl).
  exists [], audits. split_and!; try done; [simpl; lia|]. intros Hs. destruct (Hok Hs) as [He Ha].
  split; [done|]. intros Hap. by destruct (Hne He).
Qed.

Lemma books_recorded deviceID p res (f : err -> Result) s out s' :
  res_Outcome res = Applied -> (forall oe, res_Outcome (f oe) = Applied) ->
  (do o <- record_owned deviceID p;
   finish deviceID p (match o with Some oe => f oe | None => res end) o) s = (out, s') ->
  books deviceID p Applied s s' out.
Proof.
  intros Hres Hf E. apply bind_inv in E as (o & s1 & E1 & E).
  apply recordOwned_entries in E1 as (rows & Hr & _ & Hrow & Hlr).
  apply finish_entries in E as (audits & Ha & _ & Ho & Hok & Hla).
  exists rows, audits. unfold booked. rewrite Ha, Hr, <- app_assoc. split; [done|]. split.
  { rewrite Ho. destruct o; [apply Hf|done]. }
  split_and!; try done. intros Hs. destruct (Hok Hs) as [-> Hlen]. split; [done|]. intros _. by apply Hrow.
Qed.

(** Bookkeeping (reconcile): it follows the device. [Apply] books at most one
    ownership record and one audit event, in that order, and books ownership
    only when the outcome is [Applied]; when it reports no error, the audit is
    durable and, after [Applied], so is the ownership record; a failure of the
    bookkeeping never changes the outcome the engine reported. A document
    with a repeated section or an unresolved conflict reaches neither the
    device nor the ledger. *)
Theorem Apply_books fuel engine deviceID p health s out s' :
  Reconciler_Apply compose reason_text error_text fuel engine deviceID p health s = (Some out, s') ->
  (Validate (dp_Doc p) <> None \/ Blocked p = true -> s' = s /\ snd out <> None) /\
  (Validate (dp_Doc p) = None -> Blocked p = false -> exists outcome s1,
     books deviceID p outcome s1 s' out /\ r_entries s1 = r_entries s /\
     (Empty p = false -> exists res e c,
        ApplyEngine.Apply engine fuel (dp_Plan p) (compose p health) (r_dev s) = (Some (res, e), c) /\
        outcome = res_Outcome res /\ r_dev s1 = c)).
Proof.
  unfold Reconciler_Apply. intros E. destruct (Validate (dp_Doc p)) as [msg|] eqn:Hv.
  { injection E as <- <-. split; [done|by intros]. }
  destruct (Blocked p) eqn:Hb; [injection E as <- <-; split; [done|by intros]|].
  split; [by intros [?|?]|]. intros _ _. destruct (Empty p) eqn:Hem.
  - apply bind_inv in E as (r & s1 & E & Er). injection Er as <- <-. unfold apply_nothing in E.
    apply bind_inv in E as (h & s2 & Eh & E).
    assert (Hs2 : r_entries s2 = r_entries s).
    { unfold run_health, on_device in Eh. destruct (compose p health) as [hc|].
      - destruct (hc (r_dev s)) as [x c]. by injection Eh as _ <-.
      - by injection Eh as _ <-. }
    destruct h as [e|].
    + eexists NoOutcome, s2. split; [|by split].
      change NoOutcome with (res_Outcome (MkRes NoOutcome (MkReason "no configuration was written; desired managed state is not loaded in runtime" []) (Some e) false 0 0)).
      by apply (books_unrecorded _ _ _ _ _ _ _ E).
    + exists Applied, s2. split; [|by split]. by eapply books_recorded; [| |exact E].
  - apply bind_inv in E as (r & s1 & E1 & E). unfold on_device in E1.
    destruct (ApplyEngine.Apply _ _ _ _ (r_dev s)) as [a c] eqn:Ea. injection E1 as <- <-.
    destruct a as [[res e]|]; [|done].
    exists (res_Outcome res), (MkR c (r_ledger s) (r_entries s)).
    split; [|split; [done|intros _; by exists res, e, c]].
    case_bool_decide as Hok.
    + destruct Hok as [-> Hap]. rewrite Hap. apply bind_inv in E as (o & s2 & E2 & E).
      apply bind_inv in E as (f & s3 & E3 & E). injection E as <- <-.
      apply (books_recorded deviceID p res (fun oe => with_reason res (ownership_failed oe))); [done..|].
      unfold bind. rewrite E2. exact E3.
    + apply bind_inv in E as (f & s2 & E2 & E). injection E as <- <-.
      apply (books_unrecorded _ _ _ _ _ _ _ E2). intros -> Hap. by destruct Hok.
Qed.
End Apply_.

(** ** Planning *)

Section Planning.
Context {W L : Type} `{World W} `{Ledger L}.
Variables (ff sf : json -> string).
Variable render : Existing -> res err (Doc * Report).
Variable policy_conflict : Existing -> M (cstate W) (option Conflict).

(** A login or a read of one managed config. *)
Definition config_read (q : rpcRequest) : Prop :=
  login_request q \/
  (q_object q = "uci" /\ q_method q = "get" /\ exists c, c ∈ ManagedConfigs /\ q_args q = JObj [("config", JStr c)]).

Lemma posts_only_read_configs (R : rpcRequest -> Prop) configs acc :
  (forall q, config_read q -> R q) -> (forall c, c ∈ configs -> c ∈ ManagedConfigs) ->
  posts_only R (read_configs ff sf configs acc).
Proof.
  intros HR. revert acc. induction configs as [|c configs IH]; intros acc Hc; cbn [read_configs];
    [apply posts_only_ret|].
  apply posts_only_bind.
  - unfold get_config, Call. apply posts_only_call.
    + intros id sess. apply HR. right. split_and!; try done. exists c. split; [|done]. apply Hc. by left.
    + intros q Hq. apply HR. by left.
  - intros [v|e]; [|destruct (isMissingConfig e)]; try apply posts_only_ret; apply IH; intros x Hx; apply Hc; by right.
Qed.

(** A preview changes nothing. [PlanDevice] books nothing
    and sends the device only logins and reads of the four managed configs,
    besides what its firewall-policy check sends. A plan it returns is for a
    document without repeated sections; it holds no operation at all when the
    report has a conflict, and otherwise exactly the planned and pruned
    operations against the configuration it read. *)
Theorem PlanDevice_reads (R : rpcRequest -> Prop) deviceID s r s' :
  PlanDevice ff sf render policy_conflict deviceID s = (r, s') ->
  (forall q, config_read q -> R q) -> (forall e, posts_only R (policy_conflict e)) ->
  r_entries s' = r_entries s /\
  (exists new, wire (r_dev s') = (wire (r_dev s) ++ new)%list /\ Forall R (trace_requests new)) /\
  (forall p, r = Ok p ->
     Validate (dp_Doc p) = None /\
     Ops (dp_Plan p) = if Blocked p then [] else device_ops (dp_Doc p) (dp_Existing p)).
Proof.
  intros E HR Hpol. unfold PlanDevice in E. apply bind_inv in E as (re & s1 & E1 & E).
  assert (Hdev : forall A (m : M (cstate W) A) (st : rstate W L) a st', posts_only R m ->
    on_device m st = (a, st') -> r_entries st' = r_entries st /\
    exists new, wire (r_dev st') = (wire (r_dev st) ++ new)%list /\ Forall R (trace_requests new)).
  { intros A m st a st' Hm Eo. unfold on_device in Eo. destruct (m (r_dev st)) as [x c] eqn:Em.
    injection Eo as <- <-. split; [done|]. by apply Hm in Em. }
  apply Hdev in E1 as (He1 & n1 & Hw1 & Hf1); [|by apply posts_only_read_configs].
  destruct re as [existing|e]; [|injection E as <- <-; split_and!; [done|by exists n1|done]].
  destruct (render existing) as [[doc report0]|e]; [|injection E as <- <-; split_and!; [done|by exists n1|done]].
  destruct (Validate doc) eqn:Hv; [injection E as <- <-; split_and!; [done|by exists n1|done]|].
  apply bind_inv in E as (c & s2 & E2 & E). apply Hdev in E2 as (He2 & n2 & Hw2 & Hf2); [|apply Hpol].
  apply bind_inv in E as (owned & s3 & E3 & E). unfold OwnedSections in E3.
  destruct (owned_sections deviceID (r_ledger s2)) as [o l]. injection E3 as <- <-. injection E as <- <-.
  cbn [r_entries r_dev]. split; [congruence|]. split.
  - exists (n1 ++ n2)%list. rewrite Hw2, Hw1, <- app_assoc. split; [done|].
    rewrite trace_requests_app. by apply Forall_app.
  - intros p [= <-]. cbn [dp_Doc dp_Plan dp_Existing]. split; [done|]. unfold Blocked. cbn [dp_Report].
    by destruct (HasConflicts _).
Qed.

(** The steps of a preview that returns a plan. *)
Lemma PlanDevice_ok deviceID s p s' :
  PlanDevice ff sf render policy_conflict deviceID s = (Ok p, s') ->
  exists st report0 c,
    ReadExisting ff sf (r_dev s) = (Ok (dp_Existing p), st) /\
    render (dp_Existing p) = Ok (dp_Doc p, report0) /\
    policy_conflict (dp_Existing p) st = (c, r_dev s') /\
    dp_Report p = match c with Some c => add_conflict report0 c | None => report0 end.
Proof.
  intros E. unfold PlanDevice in E. apply bind_inv in E as (re & s1 & E1 & E). unfold on_device in E1.
  destruct (ReadExisting ff sf (r_dev s)) as [re0 st] eqn:Er. injection E1 as <- <-.
  destruct re0 as [existing|e]; [|done]. destruct (render existing) as [[doc report0]|e] eqn:Erd; [|done].
  destruct (Validate doc); [done|]. apply bind_inv in E as (c & s2 & E2 & E). unfold on_device in E2. cbn [r_dev] in E2.
  destruct (policy_conflict existing st) as [c0 st2] eqn:Ec. injection E2 as <- <-.
  apply bind_inv in E as (owned & s3 & E3 & E). unfold OwnedSections in E3. cbn [r_ledger r_dev] in E3.
  destruct (owned_sections deviceID (r_ledger s)) as [o l]. injection E3 as <- <-. injection E as <- <-.
  exists st, report0, c0. by split_and!.
Qed.
End Planning.

(** * Concrete reconciler runs

    A scripted device and an in-memory ledger; a preview of a device with one
    section to prune, the apply of its plan, and the applications of the
    theorems of [ReconcileSpec] and [AuditText] to them. *)

From Stdlib Require Import ZArith Lia Ascii String.
From stdpp Require Import base gmap list strings sorting.
From S2P Require Import Prelude GoStr Ubus UbusTrace ApplyEngine ApplyEngineSpec Sha256.
From S2P Require Import RenderPlan RenderPlanSpec Reconcile AuditText.

Local Open Scope string_scope.
Local Open Scope Z_scope.

Module ReconcileRuns.
Import Scripted Store.

(** A ledger that always answers: the recorded rows and the events. *)
Record book := MkBook { rows : list OwnedSection; audits : list Audit }.

#[export] Instance book_ledger : Ledger book := {
  owned_sections := fun _ l => (Ok (rows l), l);
  replace_owned := fun _ r l => (Ok tt, MkBook r (audits l));
  log_event := fun a l => (Ok tt, MkBook (rows l) (audits l ++ [a])%list);
  wall_clock := fun l => (1700000000, l);
}.

Definition no_number (_ : json) : string := "0".
Definition old_row : OwnedSection := MkOwned 7 "wireless" "oowrt_old" "" 0.
Definition book0 : book := MkBook [old_row] [].

Definition empty_doc : Doc := MkDoc 7 [] [] [] [].
Definition render (_ : Existing) : res err (Doc * Report) := Ok (empty_doc, MkReport [] [] []).
Definition no_conflict (_ : Existing) : M (cstate sworld) (option Conflict) := ret None.
Definition same_health (_ : DevicePlan) (h : option (HealthCheck (W := sworld))) := h.
Definition show_reason (r : Reason) : string := r_text r.
Definition show_error (_ : err) : string := "error".

(** The wireless config holds a leftover section of ours; the device has no
    dhcp and no firewall config. *)
Definition wireless_reply : list json :=
  [JObj [("values", JObj [("oowrt_old", JObj [(".type", JStr "wifi-iface"); (".anonymous", JBool false);
                                              (".index", JInt 4); (OwnershipTag, JStr "1");
                                              ("maclist", JArr [JStr "aa"; JStr "bb"])])])]].
Definition preview_script : list http_outcome :=
  [reply 0 wireless_reply; reply 0 [JObj [("values", JObj [])]]; reply 4 []; reply 4 []].

Definition start_state (script : list http_outcome) : rstate sworld book := MkR (start script) book0 [].

Local Notation preview := (PlanDevice no_number no_number render no_conflict 7 (start_state preview_script)).

Example preview_ops : match fst preview with
  | Ok p => map (fun op => (Kind op, target op)) (Ops (dp_Plan p)) = [(OpDelete, ("wireless", "oowrt_old"))]
  | Err _ => False
  end.
Proof. vm_compute. reflexivity. Qed.

Lemma PlanDevice_reads_witness :
  r_entries (snd preview) = [] /\
  exists new, wire (r_dev (snd preview)) = ([] ++ new)%list /\ Forall config_read (trace_requests new).
Proof.
  destruct (PlanDevice_reads no_number no_number render no_conflict config_read 7 (start_state preview_script)
              (fst preview) (snd preview) (surjective_pairing preview)) as (He & Hw & _).
  - intros q Hq. exact Hq.
  - intros e s a s' E. injection E as <- <-. exists []. rewrite app_nil_r. split; [reflexivity|constructor].
  - split; [exact He|exact Hw].
Defined.

Definition section_values : gmap string json :=
  {[ "ports" := JArr [JStr "lan1:t"; JStr "lan2:t"]; "note" := JStr "lan1:t lan2:t" ]}.

(** The two values flatten to the same text; only their shapes differ. *)
Lemma flatten_keeps_shape_witness :
  StoredAsList (flatten no_number no_number section_values) "ports" = (true, true) /\
  StoredAsList (flatten no_number no_number section_values) "note" = (false, true).
Proof.
  assert (Hc : forall k, is_Some (section_values !! k) -> clean k = true).
  { intros k [v Hv]. unfold section_values in Hv. apply lookup_insert_Some in Hv as [[<- _]|[_ Hv]]; [reflexivity|].
    apply lookup_singleton_Some in Hv as [<- _]. reflexivity. }
  split.
  - exact (proj2 (flatten_keeps_shape no_number no_number section_values "ports" Hc ltac:(discriminate))).
  - exact (proj2 (flatten_keeps_shape no_number no_number section_values "note" Hc ltac:(discriminate))).
Defined.

(** A document that keeps the leftover section of [PlanRuns.device]. *)
Definition keeping : Doc :=
  MkDoc 7 [PlanRuns.vlan] [] [("dhcp", "oowrt_old")] [].
Definition keeping_plan : DevicePlan :=
  MkDevicePlan keeping (MkReport [] [] []) [] (MkPlan (device_ops keeping PlanRuns.device) 0 false) PlanRuns.device.
Definition kept_row : OwnedSection := MkOwned 7 "dhcp" "oowrt_old" "h" 1.

Lemma keeping_wf : wf_doc keeping PlanRuns.device.
Proof.
  split.
  - vm_compute. reflexivity.
  - constructor; [apply PlanRuns.vlan_wf|constructor].
  - constructor.
  - constructor.
  - intros r Hr. inv Hr.
  - intros r Hr. inv Hr.
Qed.

Lemma record_matches_device_witness :
  ("dhcp", "oowrt_old") ∈ map os_ref (owned_rows 7 5 keeping_plan [kept_row]).
Proof.
  apply (record_matches_device (D := Existing) PlanRuns.device keeping_plan [kept_row] 7 5 ("dhcp", "oowrt_old")).
  - reflexivity.
  - exact keeping_wf.
  - constructor; [right; vm_compute; reflexivity|constructor].
  - intros c n Hp. apply Preserved_iff in Hp as (_ & _ & [Hb|Hr]); [discriminate Hb|].
    change ((String.eqb "dhcp" c && String.eqb "oowrt_old" n) || false = true) in Hr. rewrite orb_false_r in Hr.
    apply andb_true_iff in Hr as [Hr1 Hr2]. apply String.eqb_eq in Hr1 as <-. apply String.eqb_eq in Hr2 as <-. left.
  - vm_compute. reflexivity.
Defined.

Definition prune_plan : DevicePlan :=
  MkDevicePlan empty_doc (MkReport [] [] []) []
    (MkPlan [delete_section "wireless" "oowrt_old"] 0 false) ∅.

Local Notation apply_run :=
  (Reconciler_Apply (L := book) same_health show_reason show_error 31 New_Engine 7 prune_plan None (start_state [])).

Lemma Apply_books_witness :
  exists out outcome s1, fst apply_run = Some out /\
    books 7 prune_plan outcome s1 (snd apply_run) out.
Proof.
  assert (Hrun : exists out, fst apply_run = Some out).
  { destruct (fst apply_run) as [o|] eqn:E; [by exists o|]. exfalso. vm_compute in E. discriminate E. }
  destruct Hrun as [out Hout].
  destruct (Apply_books same_health show_reason show_error 31 New_Engine 7 prune_plan None (start_state []) out
              (snd apply_run)) as [_ Hbooks].
  - rewrite <- Hout. apply surjective_pairing.
  - destruct (Hbooks eq_refl eq_refl) as (outcome & s1 & Hb & _). exists out, outcome, s1.
    split; [exact Hout|exact Hb].
Defined.

Lemma boundedApplyAuditText_spec_witness :
  len (fst (boundedApplyAuditText "no answer from the device" 10)) <= 10.
Proof.
  pose proof (boundedApplyAuditText_spec "no answer from the device" 10 ltac:(lia)) as Hs.
  destruct (boundedApplyAuditText "no answer from the device" 10) as [t b]. exact (proj1 Hs).
Defined.
End ReconcileRuns.
