(* ===== verification/DeviceGate.v ===== *)
(** * The per-device operation gate (internal/daemon/device_operation.go)

    Goroutines that run destructive operations on devices, interleaved at the
    points where the Go code releases the gate's mutex or blocks: entering,
    the two-way select, the checks after admission, the two halves of [done].
    A channel of capacity one is the token; a generation number fences the
    goroutines that were already waiting when the device's identity changed. *)

From Stdlib Require Import ZArith Lia.
From stdpp Require Import base gmap list.
From S2P Require Import Prelude.

Local Open Scope Z_scope.

Definition device : Type := Z.
Definition opid : Type := positive.
Definition tid : Type := positive.

(** [deviceOperation]: whether the token channel is full, and the two
    counters. [generation] is the number of invalidations; the Go field is that
    number as a uint64. *)
Record deviceOperation := MkOp {
  token : bool;
  users : Z;
  generation : Z;
}.

(** Where a goroutine is in [acquire], its operation, or [done]. [Waiting op g]
    is the select, having read generation [g]; [Sent] has sent the token
    and is about to look at its context, [Checked] to compare generations;
    [Releasing] is in [done] with [held] true, before the receive; [Leaving] is
    before the locked half of [done]. *)
Inductive pc :=
| Start
| Waiting (op : opid) (g : Z)
| Sent (op : opid) (g : Z)
| Checked (op : opid) (g : Z)
| Held (op : opid)
| Releasing (op : opid)
| Leaving (op : opid)
| Done.

Record goroutine := MkG { g_device : device; g_cancelled : bool; g_pc : pc }.

(** The gate: [entries], and the heap of [deviceOperation]s ([entries] maps to
    pointers, which goroutines keep after the entry is gone). *)
Record gate := MkGate {
  entries : gmap device opid;
  heap : gmap opid deviceOperation;
  threads : gmap tid goroutine;
}.

Definition set_pc (g : goroutine) (p : pc) : goroutine := MkG (g_device g) (g_cancelled g) p.
Definition cancel (g : goroutine) : goroutine := MkG (g_device g) true (g_pc g).
Definition move (s : gate) (t : tid) (g : goroutine) (p : pc) : gate :=
  MkGate (entries s) (heap s) (<[t := set_pc g p]> (threads s)).
Definition set_op (s : gate) (o : opid) (r : deviceOperation) : gate :=
  MkGate (entries s) (<[o := r]> (heap s)) (threads s).

Definition with_token (r : deviceOperation) (b : bool) : deviceOperation := MkOp b (users r) (generation r).
Definition with_users (r : deviceOperation) (n : Z) : deviceOperation := MkOp (token r) n (generation r).
Definition bump (r : deviceOperation) : deviceOperation := MkOp (token r) (users r) (generation r + 1).

(** [op.generation != generation] on uint64 fields. *)
Definition stale (r : deviceOperation) (g : Z) : bool := negb (u64 (generation r) =? u64 g).

(** The locked half of [acquire]: the entry is found or made, and counted.
    [new] is the address a new entry gets. *)
Definition enter (s : gate) (t : tid) (g : goroutine) (new : opid) : gate :=
  match entries s !! g_device g with
  | Some o =>
      match heap s !! o with
      | Some r => move (set_op s o (with_users r (users r + 1))) t g (Waiting o (generation r))
      | None => s
      end
  | None =>
      move (MkGate (<[g_device g := new]> (entries s)) (<[new := MkOp false 1 0]> (heap s)) (threads s))
           t g (Waiting new 0)
  end.

(** The locked half of [done]. *)
Definition leave (s : gate) (t : tid) (g : goroutine) (o : opid) (r : deviceOperation) : gate :=
  let n := users r - 1 in
  let s1 := set_op s o (with_users r n) in
  let s2 := if (n =? 0) && bool_decide (entries s !! g_device g = Some o)
            then MkGate (delete (g_device g) (entries s1)) (heap s1) (threads s1) else s1 in
  move s2 t g Done.

Definition invalidate (s : gate) (d : device) : gate :=
  match entries s !! d with
  | Some o => match heap s !! o with Some r => set_op s o (bump r) | None => s end
  | None => s
  end.

Inductive step : gate -> gate -> Prop :=
| st_spawn s t d : threads s !! t = None ->
    step s (MkGate (entries s) (heap s) (<[t := MkG d false Start]> (threads s)))
| st_cancel s t g : threads s !! t = Some g ->
    step s (MkGate (entries s) (heap s) (<[t := cancel g]> (threads s)))
| st_refused s t g : threads s !! t = Some g -> g_pc g = Start -> g_cancelled g = true ->
    step s (move s t g Done)
| st_enter s t g new : threads s !! t = Some g -> g_pc g = Start -> g_cancelled g = false ->
    heap s !! new = None -> step s (enter s t g new)
| st_admit s t g o n r : threads s !! t = Some g -> g_pc g = Waiting o n -> heap s !! o = Some r ->
    token r = false -> step s (move (set_op s o (with_token r true)) t g (Sent o n))
| st_abandon s t g o n : threads s !! t = Some g -> g_pc g = Waiting o n -> g_cancelled g = true ->
    step s (move s t g (Leaving o))
| st_raced s t g o n : threads s !! t = Some g -> g_pc g = Sent o n -> g_cancelled g = true ->
    step s (move s t g (Releasing o))
| st_checked s t g o n : threads s !! t = Some g -> g_pc g = Sent o n -> g_cancelled g = false ->
    step s (move s t g (Checked o n))
| st_stale s t g o n r : threads s !! t = Some g -> g_pc g = Checked o n -> heap s !! o = Some r ->
    stale r n = true -> step s (move s t g (Releasing o))
| st_held s t g o n r : threads s !! t = Some g -> g_pc g = Checked o n -> heap s !! o = Some r ->
    stale r n = false -> step s (move s t g (Held o))
| st_release s t g o : threads s !! t = Some g -> g_pc g = Held o ->
    step s (move s t g (Releasing o))
| st_receive s t g o r : threads s !! t = Some g -> g_pc g = Releasing o -> heap s !! o = Some r ->
    token r = true -> step s (move (set_op s o (with_token r false)) t g (Leaving o))
| st_leave s t g o r : threads s !! t = Some g -> g_pc g = Leaving o -> heap s !! o = Some r ->
    step s (leave s t g o r)
| st_invalidate s d : step s (invalidate s d).

Definition initial : gate := MkGate ∅ ∅ ∅.
Definition steps : gate -> gate -> Prop := rtc step.
Definition reachable (s : gate) : Prop := steps initial s.

(** The operation a goroutine counts on, and whether it has the token. *)
Definition pc_op (p : pc) : option opid :=
  match p with
  | Waiting o _ | Sent o _ | Checked o _ | Held o | Releasing o | Leaving o => Some o
  | Start | Done => None
  end.
Definition pc_token (p : pc) : option opid :=
  match p with
  | Sent o _ | Checked o _ | Held o | Releasing o => Some o
  | _ => None
  end.

Definition counts (o : opid) (g : goroutine) : bool := bool_decide (pc_op (g_pc g) = Some o).
Definition holds (o : opid) (g : goroutine) : bool := bool_decide (pc_token (g_pc g) = Some o).

(** How many goroutines satisfy [f]. *)
Definition number (f : goroutine -> bool) (m : gmap tid goroutine) : Z :=
  Z.of_nat (size (filter (fun kv => f (snd kv) = true) m)).

Definition b2z (b : bool) : Z := if b then 1 else 0.

(** ** The invariant *)

Record inv_gate (s : gate) : Prop := {
  i_thread : forall t g o, threads s !! t = Some g -> pc_op (g_pc g) = Some o ->
    entries s !! g_device g = Some o /\ is_Some (heap s !! o);
  i_entry : forall d o, entries s !! d = Some o -> exists r, heap s !! o = Some r /\ 0 < users r;
  i_distinct : forall d d' o, entries s !! d = Some o -> entries s !! d' = Some o -> d = d';
  i_users : forall o r, heap s !! o = Some r -> users r = number (counts o) (threads s);
  i_token : forall o r, heap s !! o = Some r -> b2z (token r) = number (holds o) (threads s);
  i_fresh : forall t g o n, threads s !! t = Some g ->
    (g_pc g = Waiting o n \/ g_pc g = Sent o n \/ g_pc g = Checked o n) ->
    forall r, heap s !! o = Some r -> 0 <= n <= generation r;
  i_gen : forall o r, heap s !! o = Some r -> 0 <= generation r;
}.

Lemma number_delete f m t g : m !! t = Some g -> number f m = number f (delete t m) + b2z (f g).
Proof.
  intros Hm. unfold number. rewrite map_filter_delete.
  destruct (f g) eqn:E; simpl.
  - assert (Hin : filter (fun kv => f (snd kv) = true) m !! t = Some g) by by apply map_lookup_filter_Some.
    rewrite (map_size_delete_Some t) by by eexists.
    assert (Hpos : (size (filter (fun kv => f (snd kv) = true) m) <> 0)%nat).
    { apply map_size_non_empty_iff. intros Hempty. by rewrite Hempty, lookup_empty in Hin. }
    lia.
  - rewrite delete_id; [lia|]. apply map_lookup_filter_None. right. intros x Hx. simpl. congruence.
Qed.

Lemma number_fresh f m t g : m !! t = None -> number f (<[t := g]> m) = number f m + b2z (f g).
Proof.
  intros Hm. rewrite (number_delete f (<[t := g]> m) t g) by apply lookup_insert_eq.
  by rewrite delete_insert_id.
Qed.

Lemma number_insert f m t g g' : m !! t = Some g ->
  number f (<[t := g']> m) = number f m - b2z (f g) + b2z (f g').
Proof.
  intros Hm. rewrite <- (insert_delete_eq m t g'), number_fresh by apply lookup_delete_eq.
  rewrite (number_delete f m t g Hm). lia.
Qed.

Lemma number_nonneg f m : 0 <= number f m.
Proof. unfold number. lia. Qed.

Lemma number_pos f m t g : m !! t = Some g -> f g = true -> 0 < number f m.
Proof.
  intros Hm Hf. rewrite (number_delete f m t g Hm), Hf. pose proof (number_nonneg f (delete t m)). simpl. lia.
Qed.

Lemma number_two f m t t' g g' : m !! t = Some g -> m !! t' = Some g' -> f g = true -> f g' = true ->
  number f m <= 1 -> t = t'.
Proof.
  intros Hm Hm' Hf Hf' Hn. destruct (decide (t = t')) as [|Hne]; [done|].
  rewrite (number_delete f m t g Hm), Hf in Hn.
  pose proof (number_pos f (delete t m) t' g') as Hp. rewrite lookup_delete_ne in Hp by done.
  specialize (Hp Hm' Hf'). simpl in Hn. lia.
Qed.

Lemma number_zero f m : (forall t g, m !! t = Some g -> f g = false) -> number f m = 0.
Proof.
  intros Hf. unfold number. rewrite (proj2 (map_size_empty_iff _)); [done|]. apply map_empty. intros t.
  apply map_lookup_filter_None. right. intros x Hx. simpl. by rewrite (Hf t x Hx).
Qed.

(** ** Every step keeps the invariant *)

Lemma counts_pc o g p : counts o (set_pc g p) = bool_decide (pc_op p = Some o).
Proof. done. Qed.
Lemma holds_pc o g p : holds o (set_pc g p) = bool_decide (pc_token p = Some o).
Proof. done. Qed.

(** The generation a program counter remembers. *)
Definition pc_gen (p : pc) : option (opid * Z) :=
  match p with Waiting o n | Sent o n | Checked o n => Some (o, n) | _ => None end.

Lemma pc_gen_op p o n : pc_gen p = Some (o, n) -> pc_op p = Some o.
Proof. destruct p; simpl; congruence. Qed.
Lemma pc_token_op p o : pc_token p = Some o -> pc_op p = Some o.
Proof. destruct p; simpl; congruence. Qed.

Lemma i_remember s t g o n r : inv_gate s -> threads s !! t = Some g -> pc_gen (g_pc g) = Some (o, n) ->
  heap s !! o = Some r -> 0 <= n <= generation r.
Proof.
  intros Hi Ht Hg Hr. apply (i_fresh s Hi t g o n Ht); [|done].
  destruct (g_pc g); simpl in Hg; simplify_eq; auto.
Qed.

(** A goroutine moves within the operation it counts on. *)
Lemma inv_within s t g p o r b :
  inv_gate s -> threads s !! t = Some g -> heap s !! o = Some r ->
  pc_op (g_pc g) = Some o -> pc_op p = Some o ->
  b2z b = b2z (token r) - b2z (holds o g) + b2z (holds o (set_pc g p)) ->
  (forall o' n, pc_gen p = Some (o', n) -> pc_gen (g_pc g) = Some (o', n)) ->
  inv_gate (move (set_op s o (with_token r b)) t g p).
Proof.
  intros Hi Ht Hr Hg Hp Hb Hgen. split; simpl.
  - intros t' g' o' Ht' Ho'. apply lookup_insert_Some in Ht' as [[<- <-]|[Hne Ht']].
    + simpl in Ho'. assert (o' = o) by congruence. subst o'.
      destruct (i_thread s Hi t g o Ht Hg) as [He Hh]. split; [done|]. rewrite lookup_insert_eq. by eexists.
    + destruct (i_thread s Hi t' g' o' Ht' Ho') as [He Hh]. split; [done|].
      rewrite lookup_insert. case_decide; [by eexists|done].
  - intros d o' Hd. destruct (i_entry s Hi d o' Hd) as (r' & Hr' & Hu). rewrite lookup_insert.
    case_decide; [subst; simplify_eq; by eexists|by exists r'].
  - apply (i_distinct s Hi).
  - intros o' r' Hr'. rewrite (number_insert _ _ t g) by done.
    assert (Heq : counts o' (set_pc g p) = counts o' g) by (unfold counts; simpl; by rewrite Hg, Hp).
    rewrite Heq. apply lookup_insert_Some in Hr' as [[<- <-]|[Hne Hr']].
    + simpl. rewrite (i_users s Hi o r Hr). lia.
    + rewrite (i_users s Hi o' r' Hr'). lia.
  - intros o' r' Hr'. rewrite (number_insert _ _ t g) by done.
    apply lookup_insert_Some in Hr' as [[<- <-]|[Hne Hr']].
    + simpl. rewrite <- (i_token s Hi o r Hr). lia.
    + rewrite <- (i_token s Hi o' r' Hr').
      assert (Hn : forall q, pc_op q = Some o -> bool_decide (pc_token q = Some o') = false).
      { intros q Hq. apply bool_decide_eq_false. intros Hq'. apply pc_token_op in Hq'. congruence. }
      unfold holds. cbn [set_pc g_pc]. rewrite !Hn by done. lia.
  - intros t' g' o' n Ht' Hpc r' Hr'.
    assert (Hg' : pc_gen (g_pc g') = Some (o', n)) by (destruct Hpc as [->|[->| ->]]; done).
    assert (Hs : exists g0 r0, threads s !! t' = Some g0 /\ pc_gen (g_pc g0) = Some (o', n) /\
                   heap s !! o' = Some r0 /\ generation r0 = generation r').
    { apply lookup_insert_Some in Ht' as [[<- <-]|[_ Ht']]; apply lookup_insert_Some in Hr' as [[<- <-]|[_ Hr']].
      - exists g, r. split_and!; try done. by apply Hgen.
      - exists g, r'. split_and!; try done. by apply Hgen.
      - by exists g', r.
      - by exists g', r'. }
    destruct Hs as (g0 & r0 & Ht0 & Hg0 & Hr0 & <-). by apply (i_remember s t' g0 o' n r0).
  - intros o' r' Hr'. apply lookup_insert_Some in Hr' as [[<- <-]|[_ Hr']]; [exact (i_gen s Hi o r Hr)|].
    by apply (i_gen s Hi o').
Qed.

(** The same without touching the token. *)
Lemma inv_within_same s t g p o :
  inv_gate s -> threads s !! t = Some g -> pc_op (g_pc g) = Some o -> pc_op p = Some o ->
  holds o (set_pc g p) = holds o g ->
  (forall o' n, pc_gen p = Some (o', n) -> pc_gen (g_pc g) = Some (o', n)) ->
  inv_gate (move s t g p).
Proof.
  intros Hi Ht Hg Hp Hh Hgen. destruct (i_thread s Hi t g o Ht Hg) as [_ [r Hr]].
  replace (move s t g p) with (move (set_op s o (with_token r (token r))) t g p).
  - apply inv_within; try done. rewrite Hh. lia.
  - unfold move, set_op. simpl. replace (with_token r (token r)) with r by by destruct r.
    by rewrite insert_id.
Qed.

(** A goroutine that counts on nothing before and after. *)
Lemma inv_idle s t g' :
  inv_gate s -> (threads s !! t = None \/ exists g, threads s !! t = Some g /\ pc_op (g_pc g) = None) ->
  pc_op (g_pc g') = None ->
  inv_gate (MkGate (entries s) (heap s) (<[t := g']> (threads s))).
Proof.
  intros Hi Hold Hnew.
  assert (Hnum : forall f : goroutine -> bool, f g' = false ->
    (forall g, threads s !! t = Some g -> pc_op (g_pc g) = None -> f g = false) ->
    number f (<[t := g']> (threads s)) = number f (threads s)).
  { intros f Hf' Hf. destruct Hold as [Hn|(g & Hg & Hp)].
    - rewrite number_fresh, Hf' by done. simpl. lia.
    - rewrite (number_insert _ _ t g), Hf', (Hf g Hg Hp) by done. simpl. lia. }
  assert (Hc : forall o g, pc_op (g_pc g) = None -> counts o g = false).
  { intros o g Hg. unfold counts. by rewrite Hg. }
  assert (Hh : forall o g, pc_op (g_pc g) = None -> holds o g = false).
  { intros o g Hg. unfold holds. apply bool_decide_eq_false. intros Ht. apply pc_token_op in Ht. congruence. }
  split; simpl.
  - intros t' g0 o Ht Ho. apply lookup_insert_Some in Ht as [[_ <-]|[_ Ht]]; [congruence|].
    by apply (i_thread s Hi t').
  - apply (i_entry s Hi).
  - apply (i_distinct s Hi).
  - intros o r Hr. rewrite Hnum by auto. by apply (i_users s Hi).
  - intros o r Hr. rewrite Hnum by auto. by apply (i_token s Hi).
  - intros t' g0 o n Ht Hpc. apply lookup_insert_Some in Ht as [[_ <-]|[_ Ht]].
    + destruct Hpc as [Hpc|[Hpc|Hpc]]; rewrite Hpc in Hnew; done.
    + by apply (i_fresh s Hi t' g0).
  - apply (i_gen s Hi).
Qed.

Lemma inv_same_pc s t g g' : inv_gate s -> threads s !! t = Some g ->
  g_device g' = g_device g -> g_pc g' = g_pc g ->
  inv_gate (MkGate (entries s) (heap s) (<[t := g']> (threads s))).
Proof.
  intros Hi Ht Hd Hp.
  assert (Hnum : forall f : goroutine -> bool, f g' = f g -> number f (<[t := g']> (threads s)) = number f (threads s)).
  { intros f Hf. rewrite (number_insert _ _ t g), Hf by done. lia. }
  split; simpl.
  - intros t' g0 o Ht' Ho. apply lookup_insert_Some in Ht' as [[_ <-]|[_ Ht']]; [|by apply (i_thread s Hi t')].
    rewrite Hd, Hp in *. by apply (i_thread s Hi t).
  - apply (i_entry s Hi).
  - apply (i_distinct s Hi).
  - intros o r Hr. rewrite Hnum; [by apply (i_users s Hi)|]. unfold counts. by rewrite Hp.
  - intros o r Hr. rewrite Hnum; [by apply (i_token s Hi)|]. unfold holds. by rewrite Hp.
  - intros t' g0 o n Ht' Hpc. apply lookup_insert_Some in Ht' as [[_ <-]|[_ Ht']]; [|by apply (i_fresh s Hi t' g0)].
    rewrite Hp in Hpc. by apply (i_fresh s Hi t g).
  - apply (i_gen s Hi).
Qed.

(** The two counts when a goroutine that counted on nothing starts to wait. *)
Lemma number_enter m t g o n o' : m !! t = Some g -> g_pc g = Start ->
  number (counts o') (<[t := set_pc g (Waiting o n)]> m) =
    number (counts o') m + (if decide (o = o') then 1 else 0) /\
  number (holds o') (<[t := set_pc g (Waiting o n)]> m) = number (holds o') m.
Proof.
  intros Ht Hpc. rewrite !(number_insert _ m t g) by done. unfold counts at 2 3, holds at 2 3. rewrite Hpc.
  cbn [set_pc g_pc pc_op pc_token].
  rewrite !(bool_decide_eq_false_2 (None = Some o')) by done. cbn [b2z].
  split; [|lia].
  case_decide as E; [rewrite (bool_decide_eq_true_2 (Some o = Some o')) by congruence
                    |rewrite (bool_decide_eq_false_2 (Some o = Some o')) by congruence]; cbn [b2z]; lia.
Qed.

(** [enter] where the device has an entry. *)
Lemma inv_join s t g o r : inv_gate s -> threads s !! t = Some g -> g_pc g = Start ->
  entries s !! g_device g = Some o -> heap s !! o = Some r ->
  inv_gate (move (set_op s o (with_users r (users r + 1))) t g (Waiting o (generation r))).
Proof.
  intros Hi Ht Hpc He Hr. pose proof (fun x => number_enter _ t g o (generation r) x Ht Hpc) as Hn. split; simpl.
  - intros t' g' o' Ht' Ho'. apply lookup_insert_Some in Ht' as [[_ <-]|[_ Ht']].
    + simpl in Ho'. injection Ho' as <-. split; [done|]. rewrite lookup_insert_eq. by eexists.
    + destruct (i_thread s Hi t' g' o' Ht' Ho') as [? ?]. split; [done|].
      rewrite lookup_insert. case_decide; [by eexists|done].
  - intros d o' Hd. destruct (i_entry s Hi d o' Hd) as (r' & Hr' & Hu). rewrite lookup_insert.
    case_decide; [subst; simplify_eq; eexists; split; [done|simpl; lia]|by exists r'].
  - apply (i_distinct s Hi).
  - intros o' r' Hr'. rewrite (proj1 (Hn o')).
    apply lookup_insert_Some in Hr' as [[<- <-]|[Hne Hr']].
    + simpl. rewrite (i_users s Hi o r Hr), decide_True by done. lia.
    + rewrite (i_users s Hi o' r' Hr'), decide_False by done. lia.
  - intros o' r' Hr'. rewrite (proj2 (Hn o')).
    apply lookup_insert_Some in Hr' as [[<- <-]|[Hne Hr']];
      [exact (i_token s Hi o r Hr)|exact (i_token s Hi o' r' Hr')].
  - intros t' g' o' n Ht' Hp r' Hr'. apply lookup_insert_Some in Ht' as [[_ <-]|[_ Ht']].
    + simpl in Hp. destruct Hp as [[= <- <-]|[[=]|[=]]]. rewrite lookup_insert_eq in Hr'. injection Hr' as <-. simpl.
      pose proof (i_gen s Hi o r Hr). lia.
    + apply lookup_insert_Some in Hr' as [[<- <-]|[_ Hr']]; [exact (i_fresh s Hi t' g' o n Ht' Hp r Hr)|].
      exact (i_fresh s Hi t' g' o' n Ht' Hp r' Hr').
  - intros o' r' Hr'. apply lookup_insert_Some in Hr' as [[<- <-]|[_ Hr']]; [exact (i_gen s Hi o r Hr)|].
    exact (i_gen s Hi o' r' Hr').
Qed.

(** Nobody refers to an operation that is not on the heap. *)
Lemma number_unreferenced s o (f : goroutine -> bool) : inv_gate s -> heap s !! o = None ->
  (forall g, f g = true -> pc_op (g_pc g) = Some o) -> number f (threads s) = 0.
Proof.
  intros Hi Ho Hf. apply number_zero. intros t g Ht. destruct (f g) eqn:E; [|done].
  destruct (i_thread s Hi t g o Ht (Hf g E)) as [_ [? ?]]. congruence.
Qed.

(** [enter] where it makes the entry. *)
Lemma inv_make s t g o : inv_gate s -> threads s !! t = Some g -> g_pc g = Start ->
  entries s !! g_device g = None -> heap s !! o = None ->
  inv_gate (move (MkGate (<[g_device g := o]> (entries s)) (<[o := MkOp false 1 0]> (heap s)) (threads s))
              t g (Waiting o 0)).
Proof.
  intros Hi Ht Hpc He Ho. pose proof (fun x => number_enter _ t g o 0 x Ht Hpc) as Hn.
  assert (Hunent : forall d, entries s !! d <> Some o).
  { intros d Hd. destruct (i_entry s Hi d o Hd) as (? & Hs & _). congruence. }
  split; simpl.
  - intros t' g' o' Ht' Ho'. apply lookup_insert_Some in Ht' as [[_ <-]|[_ Ht']].
    + simpl in Ho'. injection Ho' as <-. simpl. rewrite !lookup_insert_eq. split; [done|by eexists].
    + destruct (i_thread s Hi t' g' o' Ht' Ho') as [He' [r' Hr']].
      rewrite !lookup_insert_ne by congruence. split; [done|by eexists].
  - intros d o' Hd. apply lookup_insert_Some in Hd as [[_ <-]|[_ Hd]].
    + rewrite lookup_insert_eq. eexists. split; [done|simpl; lia].
    + destruct (i_entry s Hi d o' Hd) as (r' & Hr' & Hu). exists r'. split; [|done].
      rewrite lookup_insert_ne; [done|congruence].
  - intros d d' o' Hd Hd'. apply lookup_insert_Some in Hd as [[<- <-]|[_ Hd]];
      apply lookup_insert_Some in Hd' as [[<- Ho']|[_ Hd']]; try done.
    + by destruct (Hunent d').
    + subst o'. by destruct (Hunent d).
    + by apply (i_distinct s Hi d d' o').
  - intros o' r' Hr'. rewrite (proj1 (Hn o')).
    apply lookup_insert_Some in Hr' as [[<- <-]|[Hne Hr']].
    + rewrite (number_unreferenced s o), decide_True; [done|done|done|done|].
      intros g' Hc. by apply bool_decide_eq_true in Hc.
    + rewrite (i_users s Hi o' r' Hr'), decide_False by done. lia.
  - intros o' r' Hr'. rewrite (proj2 (Hn o')).
    apply lookup_insert_Some in Hr' as [[<- <-]|[Hne Hr']]; [|exact (i_token s Hi o' r' Hr')].
    rewrite (number_unreferenced s o); [done|done|done|].
    intros g' Hc. apply bool_decide_eq_true in Hc. by apply pc_token_op.
  - intros t' g' o' n Ht' Hp r' Hr'. apply lookup_insert_Some in Ht' as [[_ <-]|[_ Ht']].
    + simpl in Hp. destruct Hp as [[= <- <-]|[[=]|[=]]]. rewrite lookup_insert_eq in Hr'. injection Hr' as <-. simpl. lia.
    + assert (Hop : pc_op (g_pc g') = Some o') by (destruct Hp as [->|[->| ->]]; done).
      destruct (i_thread s Hi t' g' o' Ht' Hop) as [_ [r0 Hr0]].
      rewrite lookup_insert_ne in Hr' by congruence. exact (i_fresh s Hi t' g' o' n Ht' Hp r' Hr').
  - intros o' r' Hr'. apply lookup_insert_Some in Hr' as [[<- <-]|[_ Hr']]; [simpl; lia|exact (i_gen s Hi o' r' Hr')].
Qed.

Lemma inv_enter s t g new : inv_gate s -> threads s !! t = Some g -> g_pc g = Start ->
  heap s !! new = None -> inv_gate (enter s t g new).
Proof.
  intros Hi Ht Hpc Hnew. unfold enter. destruct (entries s !! g_device g) as [o|] eqn:He; [|by apply inv_make].
  destruct (heap s !! o) as [r|] eqn:Hr; [|done]. by apply inv_join.
Qed.

Lemma inv_leave s t g o r : inv_gate s -> threads s !! t = Some g -> g_pc g = Leaving o -> heap s !! o = Some r ->
  inv_gate (leave s t g o r).
Proof.
  intros Hi Ht Hpc Hr. assert (Hop : pc_op (g_pc g) = Some o) by by rewrite Hpc.
  destruct (i_thread s Hi t g o Ht Hop) as [He _]. unfold leave.
  assert (Hrest : number (counts o) (<[t := set_pc g Done]> (threads s)) = users r - 1).
  { rewrite (number_insert _ _ t g), (i_users s Hi o r Hr) by done. rewrite counts_pc. unfold counts at 2.
    rewrite Hop, (bool_decide_eq_true_2 (Some o = Some o)), bool_decide_eq_false_2 by done. cbn [b2z]. lia. }
  assert (Hother : forall f : goroutine -> bool, f g = false -> f (set_pc g Done) = false ->
     number f (<[t := set_pc g Done]> (threads s)) = number f (threads s)).
  { intros f H1 H2. rewrite (number_insert _ _ t g), H1, H2 by done. simpl. lia. }
  rewrite (bool_decide_eq_true_2 _ He), andb_true_r.
  set (ents := if users r - 1 =? 0 then delete (g_device g) (entries s) else entries s).
  replace (move _ t g Done) with
    (MkGate ents (<[o := with_users r (users r - 1)]> (heap s)) (<[t := set_pc g Done]> (threads s)))
    by (unfold ents; by destruct (users r - 1 =? 0)).
  assert (Hents : forall d x, ents !! d = Some x -> entries s !! d = Some x /\ (x = o -> users r - 1 <> 0)).
  { intros d x. unfold ents. destruct (Z.eqb_spec (users r - 1) 0) as [Hz|Hz]; [|done].
    intros Hd. apply lookup_delete_Some in Hd as [Hne Hd]. split; [done|]. intros -> _. apply Hne.
    by apply (i_distinct s Hi _ _ o). }
  split; simpl.
  - intros t' g' o' Ht' Ho'. apply lookup_insert_Some in Ht' as [[_ <-]|[Hne Ht']]; [done|].
    destruct (i_thread s Hi t' g' o' Ht' Ho') as [He' Hh']. split.
    + unfold ents. destruct (Z.eqb_spec (users r - 1) 0) as [Hz|Hz]; [|done].
      rewrite lookup_delete_ne; [done|]. intros Hd. rewrite Hd, He' in He. injection He as ->.
      rewrite Hz in Hrest. pose proof (number_pos (counts o) (<[t := set_pc g Done]> (threads s)) t' g') as Hp.
      rewrite lookup_insert_ne in Hp by done. specialize (Hp Ht'). unfold counts in Hp at 1.
      rewrite bool_decide_eq_true_2 in Hp by done. specialize (Hp eq_refl). lia.
    + rewrite lookup_insert. case_decide; [by eexists|done].
  - intros d x Hd. apply Hents in Hd as [Hd Hu]. destruct (i_entry s Hi d x Hd) as (r' & Hr' & Hpos).
    rewrite lookup_insert. case_decide as E; [|by exists r']. subst x. simplify_eq. eexists. split; [done|].
    simpl. specialize (Hu eq_refl). lia.
  - intros d d' x Hd Hd'. apply Hents in Hd as [Hd _], Hd' as [Hd' _]. by apply (i_distinct s Hi d d' x).
  - intros o' r' Hr'. apply lookup_insert_Some in Hr' as [[<- <-]|[Hne Hr']]; [done|].
    rewrite Hother; [by apply (i_users s Hi)| |done]. unfold counts. rewrite Hop. apply bool_decide_eq_false. congruence.
  - intros o' r' Hr'. rewrite Hother; [|unfold holds; by rewrite Hpc|done].
    apply lookup_insert_Some in Hr' as [[<- <-]|[Hne Hr']]; [exact (i_token s Hi o r Hr)|exact (i_token s Hi o' r' Hr')].
  - intros t' g' o' n Ht' Hp r' Hr'. apply lookup_insert_Some in Ht' as [[_ <-]|[_ Ht']];
      [simpl in Hp; destruct Hp as [?|[?|?]]; done|].
    apply lookup_insert_Some in Hr' as [[<- <-]|[_ Hr']]; [exact (i_fresh s Hi t' g' o n Ht' Hp r Hr)|].
    exact (i_fresh s Hi t' g' o' n Ht' Hp r' Hr').
  - intros o' r' Hr'. apply lookup_insert_Some in Hr' as [[<- <-]|[_ Hr']]; [exact (i_gen s Hi o r Hr)|].
    exact (i_gen s Hi o' r' Hr').
Qed.

Lemma inv_invalidate s d : inv_gate s -> inv_gate (invalidate s d).
Proof.
  intros Hi. unfold invalidate. destruct (entries s !! d) as [o|]; [|done].
  destruct (heap s !! o) as [r|] eqn:Hr; [|done]. split; simpl.
  - intros t' g' o' Ht' Ho'. destruct (i_thread s Hi t' g' o' Ht' Ho') as [? ?]. split; [done|].
    rewrite lookup_insert. case_decide; [by eexists|done].
  - intros d' o' Hd. destruct (i_entry s Hi d' o' Hd) as (r' & Hr' & Hu). rewrite lookup_insert.
    case_decide; [subst; simplify_eq; by eexists|by exists r'].
  - apply (i_distinct s Hi).
  - intros o' r' Hr'. apply lookup_insert_Some in Hr' as [[<- <-]|[_ Hr']]; [exact (i_users s Hi o r Hr)|].
    exact (i_users s Hi o' r' Hr').
  - intros o' r' Hr'. apply lookup_insert_Some in Hr' as [[<- <-]|[_ Hr']]; [exact (i_token s Hi o r Hr)|].
    exact (i_token s Hi o' r' Hr').
  - intros t' g' o' n Ht' Hp r' Hr'. apply lookup_insert_Some in Hr' as [[<- <-]|[_ Hr']].
    + simpl. pose proof (i_fresh s Hi t' g' o n Ht' Hp r Hr). lia.
    + exact (i_fresh s Hi t' g' o' n Ht' Hp r' Hr').
  - intros o' r' Hr'. apply lookup_insert_Some in Hr' as [[<- <-]|[_ Hr']]; [|exact (i_gen s Hi o' r' Hr')].
    simpl. pose proof (i_gen s Hi o r Hr). lia.
Qed.

(** The goroutine keeps its operation and its share of the token. *)
Ltac stays Hp :=
  eapply inv_within_same; rewrite ?Hp; try done; rewrite holds_pc; unfold holds; by rewrite Hp.

Lemma inv_step s s' : inv_gate s -> step s s' -> inv_gate s'.
Proof.
  intros Hi Hst. destruct Hst as
    [s t d Ht|s t g Ht|s t g Ht Hp Hc|s t g new Ht Hp Hc Hn|s t g o n r Ht Hp Hr Htok|s t g o n Ht Hp Hc
    |s t g o n Ht Hp Hc|s t g o n Ht Hp Hc|s t g o n r Ht Hp Hr Hs|s t g o n r Ht Hp Hr Hs|s t g o Ht Hp
    |s t g o r Ht Hp Hr Htok|s t g o r Ht Hp Hr|s d].
  - apply inv_idle; auto.
  - by apply (inv_same_pc s t g).
  - apply inv_idle; [done| |done]. right. exists g. by rewrite Hp.
  - by apply inv_enter.
  - apply inv_within; rewrite ?Hp; try done. rewrite holds_pc. unfold holds. rewrite Hp, Htok. cbn [pc_token].
    by rewrite (bool_decide_eq_true_2 (Some o = Some o)), bool_decide_eq_false_2.
  - stays Hp.
  - stays Hp.
  - stays Hp.
  - stays Hp.
  - stays Hp.
  - stays Hp.
  - apply inv_within; rewrite ?Hp; try done. rewrite holds_pc. unfold holds. rewrite Hp, Htok. cbn [pc_token].
    by rewrite (bool_decide_eq_true_2 (Some o = Some o)), bool_decide_eq_false_2.
  - by apply inv_leave.
  - by apply inv_invalidate.
Qed.

Lemma inv_initial : inv_gate initial.
Proof. split; simpl; intros *; rewrite ?lookup_empty; try done. Qed.

Lemma inv_steps s s' : steps s s' -> inv_gate s -> inv_gate s'.
Proof. intros Hst. induction Hst; [done|]. intros Hi. apply IHHst. by eapply inv_step. Qed.

Lemma reachable_inv s : reachable s -> inv_gate s.
Proof. intros Hr. exact (inv_steps _ _ Hr inv_initial). Qed.

Lemma number_pos_inv f m : 0 < number f m -> exists t g, m !! t = Some g /\ f g = true.
Proof.
  intros Hn. destruct (decide (map_Forall (fun _ g => f g = false) m)) as [Hall|Hsome].
  - rewrite number_zero in Hn; [lia|exact Hall].
  - apply map_not_Forall in Hsome as (t & g & Hg & Hf); [|solve_decision].
    exists t, g. split; [done|by apply not_false_is_true].
Qed.
