(* ===== verification/DeviceGateSpec.v ===== *)
(** * What the device operation gate guarantees

    Mutual exclusion per device, fencing of the waiters an identity change
    left behind, the absence of leaked entries, and progress, for every
    interleaving of any number of goroutines; concrete runs close the file. *)

From Stdlib Require Import ZArith Lia.
From stdpp Require Import base gmap list.
From S2P Require Import Prelude DeviceGate.

Local Open Scope Z_scope.

(** A goroutine inside its destructive operation. *)
Definition running (s : gate) (t : tid) (d : device) : Prop :=
  exists g o, threads s !! t = Some g /\ g_pc g = Held o /\ g_device g = d.

Lemma token_exclusive s t t' g g' o : inv_gate s -> threads s !! t = Some g -> threads s !! t' = Some g' ->
  pc_token (g_pc g) = Some o -> pc_token (g_pc g') = Some o -> t = t'.
Proof.
  intros Hi Ht Ht' Ho Ho'.
  destruct (i_thread s Hi t g o Ht (pc_token_op _ _ Ho)) as [_ [r Hr]].
  apply (number_two (holds o) (threads s) t t' g g' Ht Ht'); [by apply bool_decide_eq_true_2..|].
  rewrite <- (i_token s Hi o r Hr). destruct (token r); simpl; lia.
Qed.

(** C31: at no point of any interleaving do two goroutines run an operation on
    the same device: while one does, no other is. *)
Theorem gate_mutual_exclusion s t t' d : reachable s -> running s t d -> t' <> t -> ~ running s t' d.
Proof.
  intros Hr (g & o & Ht & Hp & Hd) Hne (g' & o' & Ht' & Hp' & Hd'). apply Hne. symmetry.
  pose proof (reachable_inv s Hr) as Hi.
  assert (He : entries s !! d = Some o) by (rewrite <- Hd; apply (i_thread s Hi t g o Ht); by rewrite Hp).
  assert (He' : entries s !! d = Some o') by (rewrite <- Hd'; apply (i_thread s Hi t' g' o' Ht'); by rewrite Hp').
  assert (o' = o) by congruence. subst o'.
  apply (token_exclusive s t t' g g' o Hi Ht Ht'); [by rewrite Hp|by rewrite Hp'].
Qed.

(** ** Fencing *)

Lemma generation_step s s' o r : step s s' -> heap s !! o = Some r ->
  exists r', heap s' !! o = Some r' /\ generation r <= generation r'.
Proof.
  intros Hst Hr.
  assert (Hupd : forall x rx, heap s !! x = Some rx -> forall ry, generation rx <= generation ry ->
            exists r', <[x := ry]> (heap s) !! o = Some r' /\ generation r <= generation r').
  { intros x rx Hx ry Hle. rewrite lookup_insert. case_decide; [subst; simplify_eq; by exists ry|by exists r]. }
  destruct Hst as
    [s t d Ht|s t g Ht|s t g Ht Hp Hc|s t g new Ht Hp Hc Hn|s t g x n rx Ht Hp Hx Htok|s t g x n Ht Hp Hc
    |s t g x n Ht Hp Hc|s t g x n Ht Hp Hc|s t g x n rx Ht Hp Hx Hs|s t g x n rx Ht Hp Hx Hs|s t g x Ht Hp
    |s t g x rx Ht Hp Hx Htok|s t g x rx Ht Hp Hx|s d]; try by exists r.
  - unfold enter. destruct (entries s !! g_device g) as [x|]; [destruct (heap s !! x) eqn:Hx|];
      [by eapply Hupd|by exists r|]. simpl. rewrite lookup_insert_ne; [by exists r|congruence].
  - by eapply Hupd.
  - by eapply Hupd.
  - unfold leave. destruct (_ && _); by eapply Hupd.
  - unfold invalidate. destruct (entries s !! d) as [x|]; [|by exists r].
    destruct (heap s !! x) eqn:Hx; [|by exists r]. eapply Hupd; [done|]. simpl. lia.
Qed.

Lemma generation_steps s s' o r : steps s s' -> heap s !! o = Some r ->
  exists r', heap s' !! o = Some r' /\ generation r <= generation r'.
Proof.
  intros Hst. revert r. induction Hst as [s|s s1 s' H1 Hst IH]; intros r Hr; [by exists r|].
  destruct (generation_step s s1 o r H1 Hr) as (r1 & Hr1 & Hle). destruct (IH r1 Hr1) as (r' & Hr' & Hle').
  exists r'. split; [done|lia].
Qed.

(** The goroutine has been fenced: it remembers a generation the operation
    has moved past, or is on its way out. *)
Definition fenced (s : gate) (t : tid) (o : opid) (n : Z) : Prop :=
  exists g, threads s !! t = Some g /\
    match g_pc g with
    | Waiting o' n' | Sent o' n' | Checked o' n' =>
        o' = o /\ n' = n /\ exists r, heap s !! o = Some r /\ 0 <= n < generation r
    | Releasing _ | Leaving _ | Done => True
    | Start | Held _ => False
    end.

(** What another goroutine does leaves a fenced one fenced. *)
Lemma fenced_frame s s' t o n : step s s' -> threads s' !! t = threads s !! t -> fenced s t o n -> fenced s' t o n.
Proof.
  intros Hst Hsame (g & Ht & Hg). exists g. split; [by rewrite Hsame|].
  destruct (g_pc g); try done; destruct Hg as (-> & -> & r & Hr & Hlt);
    destruct (generation_step s s' o r Hst Hr) as (r' & Hr' & Hle);
    (split_and!; [done..|exists r'; split; [done|lia]]).
Qed.

Lemma fenced_stale r n : 0 <= n < generation r -> generation r < 2 ^ 64 -> stale r n = true.
Proof.
  intros Hn Hb. unfold stale, u64. rewrite !Z.mod_small by lia. apply negb_true_iff, Z.eqb_neq. lia.
Qed.

(** A fenced goroutine that moves on within [acquire] or on its way out. *)
Lemma fenced_move s s' t o n g p : step s s' -> fenced s t o n -> threads s !! t = Some g ->
  threads s' !! t = Some (set_pc g p) -> (pc_gen p = pc_gen (g_pc g) \/ pc_gen p = None) ->
  p <> Start -> (forall o', p <> Held o') -> fenced s' t o n.
Proof.
  intros Hst (g0 & Ht0 & Hg) Ht Ht' Hgen Hstart Hheld.
  assert (Hgg : g0 = g) by congruence. subst g0. exists (set_pc g p). split; [done|]. cbn [set_pc g_pc].
  assert (Hrem : forall o' n', pc_gen p = Some (o', n') ->
            o' = o /\ n' = n /\ exists r, heap s' !! o = Some r /\ 0 <= n < generation r).
  { intros o' n' Hp. destruct Hgen as [Hgen|Hgen]; [|congruence]. rewrite Hp in Hgen.
    destruct (g_pc g); simpl in Hgen; simplify_eq; destruct Hg as (-> & -> & r & Hr & Hlt);
      destruct (generation_step s s' o r Hst Hr) as (r' & Hr' & Hle);
      (split_and!; [done..|exists r'; split; [done|lia]]). }
  destruct p; try done; [by apply Hrem..|by destruct (Hheld op)].
Qed.

Lemma fenced_step s s' t o n : step s s' -> fenced s t o n ->
  (forall r, heap s !! o = Some r -> generation r < 2 ^ 64) -> fenced s' t o n.
Proof.
  intros Hst Hf Hb. pose proof Hf as (g0 & Ht0 & Hg0). pose proof Hst as Hst'.
  assert (Hactor : forall t0 g p, threads s !! t0 = Some g -> threads s' = <[t0 := set_pc g p]> (threads s) ->
            (t0 = t -> (pc_gen p = pc_gen (g_pc g) \/ pc_gen p = None) /\ p <> Start /\ (forall o', p <> Held o')) ->
            fenced s' t o n).
  { intros t0 g p Ht Hs Hp. destruct (decide (t0 = t)) as [->|Hne].
    - destruct (Hp eq_refl) as (H1 & H2 & H3). apply (fenced_move s s' t o n g p); try done.
      by rewrite Hs, lookup_insert_eq.
    - apply (fenced_frame s); [done| |done]. by rewrite Hs, lookup_insert_ne. }
  destruct Hst as
    [s t1 d Ht|s t1 g Ht|s t1 g Ht Hp Hc|s t1 g new Ht Hp Hc Hn|s t1 g x k rx Ht Hp Hx Htok|s t1 g x k Ht Hp Hc
    |s t1 g x k Ht Hp Hc|s t1 g x k Ht Hp Hc|s t1 g x k rx Ht Hp Hx Hs|s t1 g x k rx Ht Hp Hx Hs|s t1 g x Ht Hp
    |s t1 g x rx Ht Hp Hx Htok|s t1 g x rx Ht Hp Hx|s d].
  - apply (fenced_frame s); [done| |done]. simpl. rewrite lookup_insert_ne; [done|congruence].
  - destruct (decide (t1 = t)) as [->|Hne].
    + assert (Hgg : g0 = g) by congruence. subst g0. exists (cancel g). split; [apply lookup_insert_eq|exact Hg0].
    + apply (fenced_frame s); [done| |done]. simpl. by rewrite lookup_insert_ne.
  - eapply Hactor; [exact Ht|reflexivity|]. intros ->. split_and!; [by right|done|done].
  - destruct (decide (t1 = t)) as [->|Hne]; [simplify_eq; by rewrite Hp in Hg0|].
    apply (fenced_frame s); [done| |done]. unfold enter.
    destruct (entries s !! g_device g) as [x|]; [destruct (heap s !! x); [|done]|]; simpl; by rewrite lookup_insert_ne.
  - eapply Hactor; [exact Ht|reflexivity|]. intros ->. rewrite Hp. split_and!; [by left|done|done].
  - eapply Hactor; [exact Ht|reflexivity|]. intros ->. split_and!; [by right|done|done].
  - eapply Hactor; [exact Ht|reflexivity|]. intros ->. split_and!; [by right|done|done].
  - eapply Hactor; [exact Ht|reflexivity|]. intros ->. rewrite Hp. split_and!; [by left|done|done].
  - eapply Hactor; [exact Ht|reflexivity|]. intros ->. split_and!; [by right|done|done].
  - eapply Hactor; [exact Ht|reflexivity|]. intros ->. simplify_eq. rewrite Hp in Hg0.
    destruct Hg0 as (-> & -> & r & Hr & Hlt). simplify_eq. rewrite fenced_stale in Hs; [done|done|by apply Hb].
  - eapply Hactor; [exact Ht|reflexivity|]. intros ->. split_and!; [by right|done|done].
  - eapply Hactor; [exact Ht|reflexivity|]. intros ->. split_and!; [by right|done|done].
  - apply (Hactor t1 g Done Ht); [unfold leave; by destruct (_ && _)|]. intros ->. split_and!; [by right|done|done].
  - apply (fenced_frame s); [done| |done]. unfold invalidate. destruct (entries s !! d) as [x|]; [|done].
    by destruct (heap s !! x).
Qed.

Lemma fenced_steps s s' t o n : steps s s' -> fenced s t o n ->
  (forall r, heap s' !! o = Some r -> generation r < 2 ^ 64) -> fenced s' t o n.
Proof.
  intros Hst Hf Hb. induction Hst as [s|s s1 s' H1 Hst IH]; [done|]. apply IH; [|done].
  apply (fenced_step s); [done|done|]. intros r Hr.
  destruct (generation_steps s s' o r (rtc_l _ _ _ _ H1 Hst) Hr) as (r' & Hr' & Hle). specialize (Hb r' Hr'). lia.
Qed.

(** C32: a goroutine that was waiting for a device when the device's identity
    was invalidated never runs its operation, whatever happens afterwards and
    however the goroutines interleave: the operations of the device's next
    bearer are not run by a waiter of the previous one. The hypothesis is that
    the uint64 generation has not wrapped. *)
Theorem gate_fences_waiters s s' t g o n d : reachable s ->
  threads s !! t = Some g -> g_pc g = Waiting o n -> g_device g = d ->
  steps (invalidate s d) s' -> (forall r, heap s' !! o = Some r -> generation r < 2 ^ 64) ->
  ~ running s' t d.
Proof.
  intros Hr Ht Hp Hd Hst Hb (g' & o' & Ht' & Hp' & _). pose proof (reachable_inv s Hr) as Hi.
  destruct (i_thread s Hi t g o Ht) as [He [r Hro]]; [by rewrite Hp|].
  assert (Hf : fenced (invalidate s d) t o n).
  { unfold invalidate. rewrite <- Hd, He, Hro. exists g. split; [done|]. rewrite Hp. split_and!; [done..|].
    exists (bump r). split; [apply lookup_insert_eq|]. simpl.
    pose proof (i_fresh s Hi t g o n Ht (or_introl Hp) r Hro). lia. }
  destruct (fenced_steps _ _ _ _ _ Hst Hf Hb) as (g2 & Ht2 & Hg2). simplify_eq. by rewrite Hp' in Hg2.
Qed.

(** ** No leak, no deadlock *)

(** The gate has an entry for a device exactly while some goroutine is
    between entering and leaving for it; in particular the map is empty again
    when the goroutines are finished. *)
Theorem gate_entries_are_users s d : reachable s ->
  is_Some (entries s !! d) <->
  exists t g o, threads s !! t = Some g /\ g_device g = d /\ pc_op (g_pc g) = Some o.
Proof.
  intros Hr. pose proof (reachable_inv s Hr) as Hi. split.
  - intros [o Ho]. destruct (i_entry s Hi d o Ho) as (r & Hr' & Hu). rewrite (i_users s Hi o r Hr') in Hu.
    apply number_pos_inv in Hu as (t & g & Ht & Hc). apply bool_decide_eq_true in Hc.
    exists t, g, o. split_and!; try done. destruct (i_thread s Hi t g o Ht Hc) as [He _].
    by apply (i_distinct s Hi _ _ o).
  - intros (t & g & o & Ht & <- & Ho). destruct (i_thread s Hi t g o Ht Ho) as [He _]. by eexists.
Qed.

(** (liveness) The gate never deadlocks. A waiting goroutine is admitted in one step
    unless another has the token, and the one that has it either runs its
    operation or can take a step of its own, also where it receives in [done]. *)
Theorem gate_progress s t g o n : reachable s -> threads s !! t = Some g -> g_pc g = Waiting o n ->
  (exists s', step s s' /\ threads s' !! t = Some (set_pc g (Sent o n))) \/
  exists t' g', threads s !! t' = Some g' /\ g_device g' = g_device g /\
    (running s t' (g_device g) \/
     exists s' p, step s s' /\ threads s' !! t' = Some (set_pc g' p) /\ p <> g_pc g').
Proof.
  intros Hr Ht Hp. pose proof (reachable_inv s Hr) as Hi.
  destruct (i_thread s Hi t g o Ht) as [He [r Hro]]; [by rewrite Hp|].
  destruct (token r) eqn:Htok.
  2:{ left. eexists. split; [by eapply st_admit|]. apply lookup_insert_eq. }
  right. pose proof (i_token s Hi o r Hro) as Hn. rewrite Htok in Hn. simpl in Hn.
  destruct (number_pos_inv (holds o) (threads s)) as (t' & g' & Ht' & Hh); [lia|]. apply bool_decide_eq_true in Hh.
  destruct (i_thread s Hi t' g' o Ht' (pc_token_op _ _ Hh)) as [He' _].
  assert (Hdev : g_device g' = g_device g) by by apply (i_distinct s Hi _ _ o).
  exists t', g'. split_and!; [done..|].
  destruct (g_pc g') as [|?|o' k|o' k|o'|o'| |] eqn:Hpc; simpl in Hh; try done; injection Hh as ->.
  - right. destruct (g_cancelled g') eqn:Hc;
      [exists (move s t' g' (Releasing o)), (Releasing o)|exists (move s t' g' (Checked o k)), (Checked o k)];
      (split; [by econstructor|split; [apply lookup_insert_eq|done]]).
  - right. destruct (stale r k) eqn:Hs;
      [exists (move s t' g' (Releasing o)), (Releasing o)|exists (move s t' g' (Held o)), (Held o)];
      (split; [by econstructor|split; [apply lookup_insert_eq|done]]).
  - left. by exists g', o.
  - right. exists (move (set_op s o (with_token r false)) t' g' (Leaving o)), (Leaving o).
    split; [by econstructor|split; [apply lookup_insert_eq|done]].
Qed.

(** ** Concrete runs *)
Module GateRuns.

(** Device 7, operation at address 1; goroutine 1 runs, goroutine 2 waits. *)
Local Notation one := (1%positive).
Local Notation two := (2%positive).
Local Notation waiter := (MkG 7 false (Waiting one 0)).
Local Notation busy := (MkGate {[7 := one]} {[one := MkOp true 2 0]}
  (<[two := waiter]> {[one := MkG 7 false (Held one)]})).

Ltac take H := eapply rtc_l; [eapply H; reflexivity|].

Lemma busy_reachable : reachable busy.
Proof.
  take (fun s => st_spawn s one 7). take (fun s => st_enter s one (MkG 7 false Start) one).
  take (fun s => st_admit s one waiter one 0 (MkOp false 1 0)).
  take (fun s => st_checked s one (MkG 7 false (Sent one 0)) one 0).
  take (fun s => st_held s one (MkG 7 false (Checked one 0)) one 0 (MkOp true 1 0)).
  take (fun s => st_spawn s two 7). take (fun s => st_enter s two (MkG 7 false Start) two).
  match goal with |- rtc _ ?s _ => replace s with busy by (vm_compute; reflexivity) end. apply rtc_refl.
Qed.

Lemma gate_mutual_exclusion_witness : running busy one 7 /\ ~ running busy two 7.
Proof.
  assert (H : running busy one 7) by (exists (MkG 7 false (Held one)), one; split_and!; reflexivity).
  split; [exact H|]. by apply (gate_mutual_exclusion busy one two 7 busy_reachable H).
Defined.

(** The un-adopt of device 7 finishes; the waiter is admitted, finds the
    generation moved, and goes. *)
Local Notation after := (MkGate ∅ {[one := MkOp false 0 1]}
  (<[two := MkG 7 false Done]> {[one := MkG 7 false Done]})).

Lemma after_steps : steps (invalidate busy 7) after.
Proof.
  take (fun s => st_release s one (MkG 7 false (Held one)) one).
  take (fun s => st_receive s one (MkG 7 false (Releasing one)) one (MkOp true 2 1)).
  take (fun s => st_leave s one (MkG 7 false (Leaving one)) one (MkOp false 2 1)).
  take (fun s => st_admit s two waiter one 0 (MkOp false 1 1)).
  take (fun s => st_checked s two (MkG 7 false (Sent one 0)) one 0).
  take (fun s => st_stale s two (MkG 7 false (Checked one 0)) one 0 (MkOp true 1 1)).
  take (fun s => st_receive s two (MkG 7 false (Releasing one)) one (MkOp true 1 1)).
  take (fun s => st_leave s two (MkG 7 false (Leaving one)) one (MkOp false 1 1)).
  match goal with |- rtc _ ?s _ => replace s with after by (vm_compute; reflexivity) end. apply rtc_refl.
Qed.

Lemma gate_fences_waiters_witness : threads busy !! two = Some waiter /\ ~ running after two 7.
Proof.
  split; [reflexivity|].
  apply (gate_fences_waiters busy after two waiter one 0 7 busy_reachable);
    [reflexivity|reflexivity|reflexivity|exact after_steps|].
  intros r Hr. injection Hr as <-. reflexivity.
Defined.

Lemma gate_entries_are_users_witness :
  entries after !! 7 = None /\
  (is_Some (entries busy !! 7) <->
   exists t g o, threads busy !! t = Some g /\ g_device g = 7 /\ pc_op (g_pc g) = Some o).
Proof. split; [reflexivity|]. exact (gate_entries_are_users busy 7 busy_reachable). Defined.

Lemma gate_progress_witness :
  (exists s', step busy s' /\ threads s' !! two = Some (set_pc waiter (Sent one 0))) \/
  exists t' g', threads busy !! t' = Some g' /\ g_device g' = 7 /\
    (running busy t' 7 \/ exists s' p, step busy s' /\ threads s' !! t' = Some (set_pc g' p) /\ p <> g_pc g').
Proof. apply (gate_progress busy two waiter one 0 busy_reachable); reflexivity. Defined.

End GateRuns.
