(* ===== verification/Telemetry.v ===== *)
(** * Telemetry (internal/telemetry)

    Counters turned into rates and ratios ([counter.go]), station quality
    ([experience.go]) and the sample rings with their flush into rollups
    ([telemetry.go]). The store is a record of Go maps; an operation takes the
    store and returns it. *)

From Stdlib Require Import ZArith Lia String.
From stdpp Require Import base gmap list strings sorting.
From S2P Require Import Prelude GoStr F64.

Local Open Scope string_scope.
Local Open Scope Z_scope.

(** [SeriesKey]: device, kind and key. *)
Definition SeriesKey : Type := Z * string * string.
Definition sk_DeviceID (k : SeriesKey) : Z := fst (fst k).
Definition sk_Kind (k : SeriesKey) : string := snd (fst k).
Definition sk_Key (k : SeriesKey) : string := snd k.

(** ** State *)

Record counterState := MkCounter {
  cs_last : Z;
  cs_lastTS : Z;
  cs_valid : bool;
  cs_wide : bool;
  cs_seen : f64;
}.
Definition zero_counter : counterState := MkCounter 0 0 false false f_zero.

Record ratioState := MkRatio {
  rs_num : Z;
  rs_den : Z;
  rs_lastTS : Z;
  rs_valid : bool;
}.
Definition zero_ratio : ratioState := MkRatio 0 0 0 false.

Record rebootState := MkReboot {
  rb_uptime : Z;
  rb_ts : Z;
  rb_valid : bool;
}.
Definition zero_reboot : rebootState := MkReboot 0 0 false.

Record stationQualityCounters := MkQuality {
  sq_Iface : string;
  sq_ConnectedTime : Z;
  sq_Packets : Z;
  sq_Retries : Z;
  sq_Failed : Z;
}.

(** A raw sample; its value is a float32, kept as the binary64 that holds it. *)
Record Sample := MkSample {
  sm_TS : Z;
  sm_V : f64;
}.

Record ring := MkRing {
  rg_buf : list Sample;
  rg_head : nat;
  rg_n : nat;
  rg_idle : Z;
}.

Record Rollup := MkRollup {
  ru_Key : SeriesKey;
  ru_TS : Z;
  ru_Avg : f64;
  ru_Min : f64;
  ru_Max : f64;
  ru_Cnt : Z;
}.

(** [Options]; [Window] in nanoseconds. *)
Record TOptions := MkTOptions {
  to_Window : Z;
  to_Capacity : Z;
  to_IdleWindows : Z;
}.

Record TStore := MkTStore {
  ts_opts : TOptions;
  ts_series : gmap SeriesKey ring;
  ts_counters : gmap SeriesKey counterState;
  ts_ratios : gmap SeriesKey ratioState;
  ts_quality : gmap (Z * string) (stationQualityCounters * Z);
  ts_reboots : gmap Z rebootState;
}.

Definition set_series (s : TStore) m : TStore :=
  MkTStore (ts_opts s) m (ts_counters s) (ts_ratios s) (ts_quality s) (ts_reboots s).
Definition set_counters (s : TStore) m : TStore :=
  MkTStore (ts_opts s) (ts_series s) m (ts_ratios s) (ts_quality s) (ts_reboots s).
Definition set_ratios (s : TStore) m : TStore :=
  MkTStore (ts_opts s) (ts_series s) (ts_counters s) m (ts_quality s) (ts_reboots s).
Definition set_quality (s : TStore) m : TStore :=
  MkTStore (ts_opts s) (ts_series s) (ts_counters s) (ts_ratios s) m (ts_reboots s).
Definition set_reboots (s : TStore) m : TStore :=
  MkTStore (ts_opts s) (ts_series s) (ts_counters s) (ts_ratios s) (ts_quality s) m.

(** ** Counters *)

Definition maxPlausibleBps : f64 := f_of_Z 2500000000.
Definition maxWrapBps : f64 := f_of_Z 125000000.
Definition wrapRateJump : f64 := f_of_Z 100.

(** [observeUptime] on the device's entry: whether it restarted. *)
Definition restarted (st : rebootState) (uptime ts : Z) : bool :=
  if negb (rb_valid st) then false
  else
    let elapsed0 := i64 (ts - rb_ts st) in
    let elapsed := if elapsed0 <? 0 then 0 else elapsed0 in
    let tolerance := i64 (Z.quot elapsed 10 + 5) in
    uptime <? i64 (i64 (rb_uptime st + elapsed) - tolerance).

Definition observeUptime (s : TStore) (deviceID uptime ts : Z) : bool * TStore :=
  let st := default zero_reboot (ts_reboots s !! deviceID) in
  (restarted st uptime ts, set_reboots s (<[deviceID := MkReboot uptime ts true]> (ts_reboots s))).

(** [float64(delta) / float64(dt)]. *)
Definition per_second (delta dt : Z) : f64 := f_div (f_of_Z delta) (f_of_Z dt).

(** The wrap branch of [rate] is refused: more than a gigabit link carries, or
    a hundredfold of anything this interface has done. *)
Definition wrap_refused (st : counterState) (delta dt : Z) : bool :=
  f_gtb (per_second delta dt) maxWrapBps ||
  (f_gtb (cs_seen st) f_zero && f_gtb (per_second delta dt) (f_mul (cs_seen st) wrapRateJump)).

(** [rate] on the counter's entry. *)
Definition rate_step (st0 : counterState) (ts counter : Z) (rebooted recreated : bool)
    : option f64 * counterState :=
  let st := if maxUint32 <? counter
            then MkCounter (cs_last st0) (cs_lastTS st0) (cs_valid st0) true (cs_seen st0) else st0 in
  let rebase := (None, MkCounter counter ts true (cs_wide st) (cs_seen st)) in
  if rebooted || recreated || negb (cs_valid st) then rebase
  else
    let dt := i64 (ts - cs_lastTS st) in
    if dt <=? 0 then rebase
    else
      let emit delta :=
        let r := per_second delta dt in
        if f_gtb r maxPlausibleBps
        then (None, MkCounter counter ts (cs_valid st) (cs_wide st) (cs_seen st))
        else (Some r, MkCounter counter ts (cs_valid st) (cs_wide st)
                                (if f_gtb r (cs_seen st) then r else cs_seen st)) in
      if cs_last st <=? counter then emit (u64 (counter - cs_last st))
      else if cs_wide st then rebase
      else
        let delta := u64 (2 ^ 32 - cs_last st + counter) in
        if wrap_refused st delta dt then rebase else emit delta.

Definition rate (s : TStore) (k : SeriesKey) (ts counter : Z) (rebooted recreated : bool)
    : option f64 * TStore :=
  let '(r, st) := rate_step (default zero_counter (ts_counters s !! k)) ts counter rebooted recreated in
  (r, set_counters s (<[k := st]> (ts_counters s))).

(** [ratio] on the pair's entry. *)
Definition ratio_step (st : ratioState) (ts num den : Z) (rebooted : bool) : option f64 * ratioState :=
  (if rebooted || negb (rs_valid st) then None
   else if (num <? rs_num st) || (den <=? rs_den st) then None
   else
     let pct := f_div (f_mul (f_of_Z (num - rs_num st)) (f_of_Z 100)) (f_of_Z (den - rs_den st)) in
     if f_ltb pct f_zero then None
     else if f_leb pct (f_of_Z 100) then Some pct
     else if f_leb pct (f_of_Z 110) then Some (f_of_Z 100)
     else None,
   MkRatio num den ts true).

Definition ratio (s : TStore) (k : SeriesKey) (ts num den : Z) (rebooted : bool) : option f64 * TStore :=
  let '(r, st) := ratio_step (default zero_ratio (ts_ratios s !! k)) ts num den rebooted in
  (r, set_ratios s (<[k := st]> (ts_ratios s))).

(** [expireStale]; its first argument is not used. *)
Definition expireStale (s : TStore) (before : Z) : TStore :=
  MkTStore (ts_opts s) (ts_series s)
    (filter (fun kv => negb ((cs_lastTS kv.2 =? 0) || (cs_lastTS kv.2 <? before)) = true) (ts_counters s))
    (filter (fun kv => negb (rs_lastTS kv.2 <? before) = true) (ts_ratios s))
    (filter (fun kv => negb (snd kv.2 <? before) = true) (ts_quality s))
    (ts_reboots s).

Definition forgetCounters (s : TStore) (deviceID : Z) : TStore :=
  MkTStore (ts_opts s) (ts_series s)
    (filter (fun kv => sk_DeviceID kv.1 <> deviceID) (ts_counters s))
    (filter (fun kv => sk_DeviceID kv.1 <> deviceID) (ts_ratios s))
    (filter (fun kv => fst kv.1 <> deviceID) (ts_quality s))
    (ts_reboots s).

(** [ifaceCameBack]: the counter entry of the pseudo-series holds 1 for up. *)
Definition ifaceCameBack (s : TStore) (deviceID ts : Z) (name : string) (up : bool) : bool * TStore :=
  let k : SeriesKey := (deviceID, "iface_up", name) in
  let st := default zero_counter (ts_counters s !! k) in
  let was := cs_last st =? 1 in
  (cs_valid st && negb was && up,
   set_counters s (<[k := MkCounter (if up then 1 else 0) ts true (cs_wide st) (cs_seen st)]> (ts_counters s))).

(** ** Station quality *)

Definition finitePercent (v : f64) : bool := is_finite v.
Definition clamp (v lo hi : f64) : f64 :=
  if f_ltb v lo then lo else if f_gtb v hi then hi else v.

Definition WiFiExperienceV1 (rssiDBM : Z) (retryPct txFailPct : option f64) : option f64 :=
  match retryPct, txFailPct with
  | Some retryP, Some failP =>
      if negb (finitePercent retryP) || negb (finitePercent failP) then None
      else
        let rssi := clamp (f_mul (f_of_Z (i64 (rssiDBM + 90))) (f_dec 25 1)) f_zero (f_of_Z 100) in
        let retry := f_sub (f_of_Z 100) (clamp retryP f_zero (f_of_Z 100)) in
        let fail := f_sub (f_of_Z 100) (clamp failP f_zero (f_of_Z 100)) in
        Some (f_add (f_add (f_mul (f_dec 45 2) rssi) (f_mul (f_dec 35 2) retry)) (f_mul (f_dec 20 2) fail))
  | _, _ => None
  end.

(** Packets, retries and failures over the interval. *)
Definition stationQualityCounterDelta (prev cur : stationQualityCounters) : option (Z * Z * Z) :=
  if String.eqb (sq_Iface prev) "" || negb (String.eqb (sq_Iface cur) (sq_Iface prev)) ||
     (sq_Packets prev <? 0) || (sq_Retries prev <? 0) || (sq_Failed prev <? 0) ||
     (sq_Packets cur <? 0) || (sq_Retries cur <? 0) || (sq_Failed cur <? 0) ||
     (sq_ConnectedTime cur <? sq_ConnectedTime prev) ||
     (sq_Packets cur <? sq_Packets prev) || (sq_Retries cur <? sq_Retries prev) ||
     (sq_Failed cur <? sq_Failed prev)
  then None
  else
    let packets := i64 (sq_Packets cur - sq_Packets prev) in
    if packets =? 0 then None
    else Some (packets, i64 (sq_Retries cur - sq_Retries prev), i64 (sq_Failed cur - sq_Failed prev)).

Definition observeStationQualityCounters (s : TStore) (deviceID : Z) (mac : string)
    (cur : stationQualityCounters) (ts : Z) : option (Z * Z * Z) * TStore :=
  let k := (deviceID, mac) in
  (match ts_quality s !! k with
   | None => None
   | Some (prev, _) => stationQualityCounterDelta prev cur
   end,
   set_quality s (<[k := (cur, ts)]> (ts_quality s))).

(** [float64(part) * 100 / float64(packets + part)]. *)
Definition share_pct (packets part : Z) : f64 :=
  f_div (f_mul (f_of_Z part) (f_of_Z 100)) (f_of_Z (i64 (packets + part))).
Definition quality_percentages (d : option (Z * Z * Z)) : option (f64 * f64) :=
  match d with
  | None => None
  | Some (packets, retried, failed) => Some (share_pct packets retried, share_pct packets failed)
  end.
Definition stationQualityDelta (prev cur : stationQualityCounters) : option (f64 * f64) :=
  quality_percentages (stationQualityCounterDelta prev cur).
Definition observeStationQuality (s : TStore) (deviceID : Z) (mac : string)
    (cur : stationQualityCounters) (ts : Z) : option (f64 * f64) * TStore :=
  let '(d, s') := observeStationQualityCounters s deviceID mac cur ts in
  (quality_percentages d, s').

(** ** Rings *)

Definition newRing (capacity : Z) : ring :=
  MkRing (repeat (MkSample 0 f_zero) (Z.to_nat capacity)) 0 0 0.
Definition ring_empty (r : ring) : bool := Nat.eqb (rg_n r) 0.

Definition append (r : ring) (x : Sample) : ring :=
  let cap := length (rg_buf r) in
  MkRing (<[rg_head r := x]> (rg_buf r)) ((rg_head r + 1) `mod` cap)%nat
         (if Nat.ltb (rg_n r) cap then S (rg_n r) else rg_n r) (rg_idle r).

(** [samples]: oldest first. *)
Definition samples (r : ring) : list Sample :=
  let cap := length (rg_buf r) in
  let start := ((rg_head r + cap - rg_n r) `mod` cap)%nat in
  map (fun i => nth ((start + i) `mod` cap)%nat (rg_buf r) (MkSample 0 f_zero)) (seq 0 (rg_n r)).

(** The start of the window a sample belongs to. *)
Definition window_start (windowSec : Z) (x : Sample) : Z := i64 (sm_TS x - Z.rem (sm_TS x) windowSec).

(** The aggregation loop of [drain] over one window. *)
Definition rollup_step (acc : f64 * option (f64 * f64)) (x : Sample) : f64 * option (f64 * f64) :=
  let v := sm_V x in
  (f_add (fst acc) v,
   match snd acc with
   | None => Some (v, v)
   | Some (mn, mx) => Some (if f_ltb v mn then v else mn, if f_gtb v mx then v else mx)
   end).
Definition rollup (k : SeriesKey) (start : Z) (smps : list Sample) : Rollup :=
  let '(sum, bounds) := fold_left rollup_step smps (f_zero, None) in
  let '(mn, mx) := default (f_zero, f_zero) bounds in
  let cnt := Z.of_nat (length smps) in
  MkRollup k start (f_div sum (f_of_Z cnt)) mn mx cnt.

Definition add_to_window (windowSec : Z) (m : gmap Z (list Sample)) (x : Sample) : gmap Z (list Sample) :=
  let start := window_start windowSec x in
  <[start := (default [] (m !! start) ++ [x])%list]> m.

#[global] Instance Z_le_dec_rel (x y : Z) : Decision (x <= y) := Z_le_dec x y.

(** [drain]: the rollups of the windows that start before [cutoff], oldest
    first, and the ring with what is left. *)
Definition drain (k : SeriesKey) (r : ring) (cutoff windowSec : Z) : list Rollup * ring :=
  if Nat.eqb (rg_n r) 0 || (windowSec <=? 0) then ([], r)
  else
    let all := samples r in
    let kept := filter (fun x => cutoff <= window_start windowSec x) all in
    let old := filter (fun x => ~ cutoff <= window_start windowSec x) all in
    let byWindow := fold_left (add_to_window windowSec) old ∅ in
    if bool_decide (byWindow = ∅) then ([], r)
    else
      let starts := merge_sort Z.le (map fst (map_to_list byWindow)) in
      (map (fun start => rollup k start (default [] (byWindow !! start))) starts,
       fold_left append kept (MkRing (rg_buf r) 0 0 (rg_idle r))).

(** ** The store *)

Definition DefaultWindow : Z := 300 * 1000000000.
Definition DefaultCapacity : Z := 128.
Definition DefaultIdleWindows : Z := 3.

Definition withDefaults (o : TOptions) : TOptions :=
  MkTOptions (if to_Window o <=? 0 then DefaultWindow else to_Window o)
             (if to_Capacity o <=? 0 then DefaultCapacity else to_Capacity o)
             (if to_IdleWindows o <=? 0 then DefaultIdleWindows else to_IdleWindows o).

Definition New (o : TOptions) : TStore := MkTStore (withDefaults o) ∅ ∅ ∅ ∅ ∅.

Definition Gauge (s : TStore) (k : SeriesKey) (ts : Z) (v : f64) : TStore :=
  let r := match ts_series s !! k with Some r => r | None => newRing (to_Capacity (ts_opts s)) end in
  set_series s (<[k := append r (MkSample ts (f_to_f32 v))]> (ts_series s)).

Definition Len (s : TStore) : nat := size (ts_series s).

Definition ForgetDevice (s : TStore) (deviceID : Z) : TStore :=
  let s1 := forgetCounters (set_series s (filter (fun kv => sk_DeviceID kv.1 <> deviceID) (ts_series s))) deviceID in
  set_reboots s1 (delete deviceID (ts_reboots s1)).

(** [time.Time.Truncate] counts from the year 1; [Unix] from 1970, rounding
    down. Times are nanoseconds from 1970. *)
Definition zero_time : Z := -62135596800 * 1000000000.
Definition Truncate (t d : Z) : Z := if d <=? 0 then t else t - (t - zero_time) mod d.
Definition Unix (t : Z) : Z := t / 1000000000.

(** What [Flush] does with one ring; [None] retires the series. *)
Definition flush_ring (o : TOptions) (cutoff : Z) (k : SeriesKey) (r : ring) : list Rollup * option ring :=
  let '(rolled, r1) := drain k r cutoff (f_trunc (duration_Seconds (to_Window o))) in
  if negb (bool_decide (rolled = [])) then (rolled, Some (MkRing (rg_buf r1) (rg_head r1) (rg_n r1) 0))
  else if ring_empty r1 then
    let idle := rg_idle r1 + 1 in
    if to_IdleWindows o <=? idle then ([], None)
    else ([], Some (MkRing (rg_buf r1) (rg_head r1) (rg_n r1) idle))
  else ([], Some r1).

Definition rollup_le (a b : Rollup) : bool :=
  if negb (ru_TS a =? ru_TS b) then ru_TS a <? ru_TS b
  else if negb (sk_DeviceID (ru_Key a) =? sk_DeviceID (ru_Key b)) then sk_DeviceID (ru_Key a) <? sk_DeviceID (ru_Key b)
  else if negb (String.eqb (sk_Kind (ru_Key a)) (sk_Kind (ru_Key b))) then String.leb (sk_Kind (ru_Key a)) (sk_Kind (ru_Key b))
  else String.leb (sk_Key (ru_Key a)) (sk_Key (ru_Key b)).
Definition rollup_order (a b : Rollup) : Prop := rollup_le a b = true.
#[global] Instance rollup_order_dec a b : Decision (rollup_order a b) := bool_eq_dec _ _.

Definition Flush (s : TStore) (now : Z) : list Rollup * TStore :=
  let o := ts_opts s in
  let cutoff := Unix (Truncate now (to_Window o)) in
  let s1 := expireStale s (Unix (now - i64 (to_IdleWindows o * to_Window o))) in
  let out := flat_map (fun kv => fst (flush_ring o cutoff (fst kv) (snd kv))) (map_to_list (ts_series s1)) in
  let retired k := match ts_series s1 !! k with
                   | Some r => bool_decide (snd (flush_ring o cutoff k r) = None)
                   | None => false
                   end in
  (merge_sort rollup_order out,
   set_counters
     (set_series s1 (map_imap (fun k r => snd (flush_ring o cutoff k r)) (ts_series s1)))
     (filter (fun kv => retired kv.1 = false) (ts_counters s1))).
