(* ===== verification/RatesSpec.v ===== *)
(** * Telemetry: what a rate and a ratio mean

    Theorems about the counter half of [Telemetry]: rates are never
    fabricated when restarts are known, are bounded when they are not, and
    percentages do not depend on where a counter pair started. *)

From Stdlib Require Import ZArith Lia String.
From stdpp Require Import base gmap list strings.
From S2P Require Import Prelude GoStr F64 Telemetry.

Local Open Scope string_scope.
Local Open Scope Z_scope.

(** ** One reading *)

(** What the baseline of a counter remembers is a reading, below 2^32 unless
    the counter is known to be wide. *)
Definition counter_ok (st : counterState) : Prop :=
  in_u64 (cs_last st) /\ (cs_wide st = false -> cs_last st <= maxUint32).

Definition grows_wide (st : counterState) (counter : Z) : bool := cs_wide st || (maxUint32 <? counter).

(** Every reading becomes the next baseline, whatever [rate] answers. *)
Lemma rate_step_baseline st ts counter rebooted recreated r st' :
  rate_step st ts counter rebooted recreated = (r, st') ->
  cs_last st' = counter /\ cs_lastTS st' = ts /\ cs_valid st' = true /\ cs_wide st' = grows_wide st counter.
Proof.
  unfold rate_step, grows_wide. intros E.
  set (st1 := if maxUint32 <? counter then _ else st) in E.
  assert (Hw : cs_wide st1 = cs_wide st || (maxUint32 <? counter))
    by (unfold st1; destruct (maxUint32 <? counter); simpl; [by rewrite orb_true_r|by rewrite orb_false_r]).
  rewrite <- Hw. clearbody st1.
  destruct (rebooted || recreated || negb (cs_valid st1)) eqn:Eg; [by inv E|]. bool_prop.
  repeat (case_match; simplify_eq/=; try done).
Qed.

Lemma rate_step_ok st ts counter rebooted recreated r st' :
  in_u64 counter -> rate_step st ts counter rebooted recreated = (r, st') -> counter_ok st'.
Proof.
  intros Hc E. destruct (rate_step_baseline _ _ _ _ _ _ _ E) as (Hl & _ & _ & Hw).
  unfold counter_ok, grows_wide in *. rewrite Hl, Hw. split; [done|]. intros Hf. bool_prop. lia.
Qed.

(** The bytes a pair of readings stands for. *)
Definition advance (last counter : Z) : Z := if last <=? counter then counter - last else 2 ^ 32 - last + counter.

Definition fmax (a b : f64) : f64 := if f_gtb b a then b else a.

(** Everything an emitted rate implies. *)
Record emitted (st : counterState) (ts counter : Z) (rebooted recreated : bool) (r : f64) (st' : counterState) : Prop := {
  em_unflagged : rebooted = false /\ recreated = false;
  em_baseline : cs_valid st = true /\ cs_lastTS st < ts;
  em_value : r = per_second (advance (cs_last st) counter) (ts - cs_lastTS st);
  em_plausible : f_gtb r maxPlausibleBps = false;
  em_decrease : counter < cs_last st ->
    cs_last st <= maxUint32 /\ grows_wide st counter = false /\ f_gtb r maxWrapBps = false /\
    (f_gtb (cs_seen st) f_zero = true -> f_gtb r (f_mul (cs_seen st) wrapRateJump) = false);
  em_state : st' = MkCounter counter ts true (grows_wide st counter) (fmax (cs_seen st) r);
}.

Lemma rate_step_emits st ts counter rebooted recreated r st' :
  counter_ok st -> in_u64 counter -> in_i64 (ts - cs_lastTS st) ->
  rate_step st ts counter rebooted recreated = (Some r, st') ->
  emitted st ts counter rebooted recreated r st'.
Proof.
  intros [Hl Hn] Hc Hdt E. pose proof E as Eb. apply rate_step_baseline in Eb as (_ & _ & _ & Hw').
  unfold rate_step in E.
  set (st1 := if maxUint32 <? counter then _ else st) in E.
  assert (Hs : cs_last st1 = cs_last st /\ cs_lastTS st1 = cs_lastTS st /\ cs_valid st1 = cs_valid st /\
               cs_seen st1 = cs_seen st /\ cs_wide st1 = grows_wide st counter).
  { unfold st1, grows_wide. destruct (maxUint32 <? counter); simpl; [by rewrite orb_true_r|by rewrite orb_false_r]. }
  clearbody st1. destruct Hs as (H1 & H2 & H3 & H4 & H5). unfold wrap_refused in E. rewrite H1, H2, H3, H4, H5 in E.
  destruct (rebooted || recreated || negb (cs_valid st)) eqn:Eg; [done|]. bool_prop.
  rewrite (i64_id _ Hdt) in E. destruct (ts - cs_lastTS st <=? 0) eqn:Edt; [done|]. bool_prop.
  unfold advance. destruct (cs_last st <=? counter) eqn:El; bool_prop.
  - rewrite u64_id in E by (unfold in_u64 in *; lia).
    destruct (f_gtb _ maxPlausibleBps) eqn:Ep; [done|]. injection E as <- <-.
    assert (Hv : cs_valid st = true) by congruence. rewrite Hv.
    split; unfold advance; try done; try lia; try (split; [done|lia]).
    by rewrite (proj2 (Z.leb_le _ _) El).
  - destruct (grows_wide st counter) eqn:Ew; [done|].
    assert (Hle : cs_last st <= maxUint32) by (apply Hn; unfold grows_wide in Ew; by bool_prop).
    rewrite u64_id in E by (unfold in_u64, maxUint32 in *; lia).
    destruct (_ || _) eqn:Er in E; [done|]. apply orb_false_iff in Er as [Er1 Er2].
    destruct (f_gtb _ maxPlausibleBps) eqn:Ep; [done|]. injection E as <- <-.
    assert (Hv : cs_valid st = true) by congruence. rewrite Hv.
    split; unfold advance; rewrite ?(proj2 (Z.leb_gt _ _) El); try done; try (split; [done|lia]).
    + intros _. split_and!; try done. intros Hseen. by rewrite Hseen in Er2.
    + by rewrite Ew.
Qed.

(** ** Sequences of readings *)

Record reading := MkReading {
  rd_ts : Z;
  rd_counter : Z;
  rd_rebooted : bool;
  rd_recreated : bool;
}.

Fixpoint run_rates (st : counterState) (l : list reading) : list (option f64) :=
  match l with
  | [] => []
  | x :: l' =>
      let '(r, st') := rate_step st (rd_ts x) (rd_counter x) (rd_rebooted x) (rd_recreated x) in
      r :: run_rates st' l'
  end.

(** What the device did: [tr_total] is how many bytes the interface has ever
    carried, [tr_base] what that number was when the counter last started from
    zero, and the register has [w] bits. *)
Record traffic := MkTraffic {
  tr_ts : Z;
  tr_total : Z;
  tr_base : Z;
  tr_rebooted : bool;
  tr_recreated : bool;
}.

Definition register (w : Z) (x : traffic) : Z := (tr_total x - tr_base x) mod 2 ^ w.
Definition reading_of (w : Z) (x : traffic) : reading :=
  MkReading (tr_ts x) (register w x) (tr_rebooted x) (tr_recreated x).

(** Between two polls either a restart was noticed, or the counter ran on and
    went around at most once. *)
Definition runs_on (w : Z) (x y : traffic) : Prop :=
  in_i64 (tr_ts y - tr_ts x) /\
  (tr_rebooted y = false -> tr_recreated y = false ->
   tr_base y = tr_base x /\ tr_total x <= tr_total y < tr_total x + 2 ^ w).

Definition physical (w : Z) (x : traffic) : Prop :=
  tr_base x <= tr_total x /\ (w = 64 -> tr_total x - tr_base x < 2 ^ 64).

Fixpoint history (w : Z) (x : traffic) (l : list traffic) : Prop :=
  match l with
  | [] => True
  | y :: l' => runs_on w x y /\ physical w y /\ history w y l'
  end.

(** The true average between consecutive polls. *)
Definition average (x y : traffic) : f64 := per_second (tr_total y - tr_total x) (tr_ts y - tr_ts x).

Fixpoint averages (x : traffic) (l : list traffic) : list f64 :=
  match l with
  | [] => []
  | y :: l' => average x y :: averages y l'
  end.

(** What the state knows after reading [x]. *)
Definition tracks (w : Z) (st : counterState) (x : traffic) : Prop :=
  counter_ok st /\ cs_valid st = true /\ cs_last st = register w x /\ cs_lastTS st = tr_ts x /\
  (w = 32 -> cs_wide st = false).

Lemma register_u64 w x : w = 32 \/ w = 64 -> in_u64 (register w x) /\ (w = 32 -> register w x <= maxUint32).
Proof.
  unfold register, in_u64, maxUint32. intros [->| ->].
  - pose proof (Z.mod_pos_bound (tr_total x - tr_base x) (2 ^ 32)). lia.
  - pose proof (Z.mod_pos_bound (tr_total x - tr_base x) (2 ^ 64)). lia.
Qed.

Lemma tracks_step w st x r st' : w = 32 \/ w = 64 -> (w = 32 -> cs_wide st = false) ->
  rate_step st (tr_ts x) (register w x) (tr_rebooted x) (tr_recreated x) = (r, st') ->
  tracks w st' x.
Proof.
  intros Hw Hn E. pose proof (rate_step_ok _ _ _ _ _ _ _ (proj1 (register_u64 w x Hw)) E) as Hok.
  apply rate_step_baseline in E as (H1 & H2 & H3 & H4). unfold tracks, grows_wide in *.
  split_and!; try done. intros ->. rewrite H4, Hn by done. apply Z.ltb_ge. by apply register_u64.
Qed.

(** Two readings of an uninterrupted counter determine the traffic between. *)
Lemma advance_traffic w x y : w = 32 \/ w = 64 -> physical w x -> physical w y ->
  tr_base y = tr_base x -> tr_total x <= tr_total y < tr_total x + 2 ^ w ->
  (w = 64 -> register w x <= register w y) /\
  (w = 32 \/ register w x <= register w y ->
   advance (register w x) (register w y) = tr_total y - tr_total x).
Proof.
  intros Hw [Hx Hx64] [Hy Hy64] Hb Ht. unfold register, advance. rewrite Hb in *.
  set (a := tr_total x - tr_base x) in *. set (b := tr_total y - tr_base x) in *.
  assert (Hd : tr_total y - tr_total x = b - a) by lia. rewrite Hd.
  destruct Hw as [->| ->].
  - split; [done|]. intros _.
    pose proof (Z.div_mod a (2 ^ 32)). pose proof (Z.div_mod b (2 ^ 32)).
    pose proof (Z.mod_pos_bound a (2 ^ 32)). pose proof (Z.mod_pos_bound b (2 ^ 32)).
    destruct (Z.leb_spec (a mod 2 ^ 32) (b mod 2 ^ 32)); nia.
  - rewrite !Z.mod_small by lia. split; [lia|]. intros _. rewrite (proj2 (Z.leb_le _ _)) by lia. lia.
Qed.

Lemma rates_follow w l : forall x st, w = 32 \/ w = 64 -> physical w x -> tracks w st x -> history w x l ->
  Forall2 (fun r v => r = None \/ r = Some v) (run_rates st (map (reading_of w) l)) (averages x l).
Proof.
  induction l as [|y l IH]; intros x st Hw Hx Ht Hh; [constructor|].
  destruct Hh as ([Hdt Hrun] & Hy & Hh). destruct Ht as (Hok & Hv & Hl & Hts & Hwide).
  cbn [map run_rates averages reading_of rd_ts rd_counter rd_rebooted rd_recreated].
  destruct (rate_step st (tr_ts y) (register w y) (tr_rebooted y) (tr_recreated y)) as [r st'] eqn:E.
  constructor; [|apply IH; try done; by eapply tracks_step].
  destruct r as [v|]; [right|by left].
  apply rate_step_emits in E; [|done|by apply register_u64|by rewrite Hts].
  destruct (em_unflagged _ _ _ _ _ _ _ E) as [Hb Hc]. destruct (Hrun Hb Hc) as [Hbase Htot].
  destruct (advance_traffic w x y Hw Hx Hy Hbase Htot) as [Hmono Hadv].
  rewrite (em_value _ _ _ _ _ _ _ E), Hts, Hl, Hadv; [done|].
  destruct Hw as [->| ->]; [by left|right; by apply Hmono].
Qed.

(** C35: rates are never fabricated. Take any history of an interface whose
    32- or 64-bit byte counter goes around at most once between polls and
    whose restarts are noticed as reboots or recreated interfaces: whatever
    the wraps, resets, poll intervals and clock, every rate that comes out is
    the true average over its interval, and the first reading yields none. *)
Theorem rates_are_true w x l : w = 32 \/ w = 64 -> physical w x -> history w x l ->
  exists rest, run_rates zero_counter (map (reading_of w) (x :: l)) = None :: rest /\
    Forall2 (fun r v => r = None \/ r = Some v) rest (averages x l).
Proof.
  intros Hw Hx Hh. cbn [map run_rates reading_of rd_ts rd_counter rd_rebooted rd_recreated].
  destruct (rate_step zero_counter (tr_ts x) (register w x) (tr_rebooted x) (tr_recreated x)) as [r st'] eqn:E.
  pose proof (tracks_step w zero_counter x r st' Hw ltac:(done) E) as Ht.
  assert (r = None) as ->.
  { unfold rate_step in E. destruct (maxUint32 <? register w x);
      cbn [zero_counter cs_valid negb] in E; rewrite orb_true_r in E; by injection E as <- _. }
  eexists. split; [reflexivity|]. by apply rates_follow.
Qed.

(** What an unnoticed restart can do is bounded. A rate comes out of a
    reading only against an older baseline, and is never above 2.5 GB/s; if the
    counter went down, it was never seen above 2^32, and the rate is not above
    a gigabit link's nor, once the interface has a history, above a hundred
    times its fastest so far. No rate comes out of a flagged reading, and each
    one becomes history. *)
Theorem rate_emits st ts counter rebooted recreated r st' :
  counter_ok st -> in_u64 counter -> in_i64 (ts - cs_lastTS st) ->
  rate_step st ts counter rebooted recreated = (Some r, st') ->
  emitted st ts counter rebooted recreated r st' /\ counter_ok st'.
Proof.
  intros Hs Hc Hdt E. split; [by apply rate_step_emits|by eapply rate_step_ok].
Qed.

(** ** Restarts *)

(** [observeUptime] recognises a restart between two polls whenever the device
    had been up longer than the tolerance. *)
Lemma restarted_detects st uptime ts :
  rb_valid st = true -> 0 <= ts - rb_ts st <= 2 ^ 62 -> 0 <= rb_uptime st <= 2 ^ 61 ->
  uptime <= ts - rb_ts st -> (ts - rb_ts st) / 10 + 5 < rb_uptime st ->
  restarted st uptime ts = true.
Proof.
  intros Hv He Hu Hup Htol. unfold restarted. rewrite Hv. cbn [negb].
  set (elapsed := ts - rb_ts st) in *. rewrite (i64_id elapsed) by (unfold in_i64, minInt64, maxInt64; lia).
  assert (elapsed <? 0 = false) as -> by lia. rewrite Z.quot_div_nonneg by lia.
  pose proof (Z.div_pos elapsed 10). pose proof (Z.div_le_upper_bound elapsed 10 (2 ^ 62)).
  rewrite (i64_id (elapsed / 10 + 5)) by (unfold in_i64, minInt64, maxInt64; lia).
  rewrite (i64_id (rb_uptime st + elapsed)) by (unfold in_i64, minInt64, maxInt64; lia).
  rewrite i64_id by (unfold in_i64, minInt64, maxInt64; lia). lia.
Qed.

(** ** Ratios *)

Record pair_reading := MkPair {
  pr_ts : Z;
  pr_num : Z;
  pr_den : Z;
  pr_rebooted : bool;
}.

Fixpoint run_ratios (st : ratioState) (l : list pair_reading) : list (option f64) :=
  match l with
  | [] => []
  | x :: l' =>
      let '(r, st') := ratio_step st (pr_ts x) (pr_num x) (pr_den x) (pr_rebooted x) in
      r :: run_ratios st' l'
  end.

(** The same readings from counters that started elsewhere. *)
Definition shifted (a b : Z) (x : pair_reading) : pair_reading :=
  MkPair (pr_ts x) (pr_num x + a) (pr_den x + b) (pr_rebooted x).
Definition shifted_state (a b : Z) (st : ratioState) : ratioState :=
  MkRatio (rs_num st + a) (rs_den st + b) (rs_lastTS st) (rs_valid st).

Definition percentage (v : f64) : Prop := f_ltb v f_zero = false /\ f_leb v (f_of_Z 100) = true.

Lemma ratio_step_shift a b st x :
  ratio_step (shifted_state a b st) (pr_ts x) (pr_num x + a) (pr_den x + b) (pr_rebooted x) =
  (fst (ratio_step st (pr_ts x) (pr_num x) (pr_den x) (pr_rebooted x)),
   shifted_state a b (snd (ratio_step st (pr_ts x) (pr_num x) (pr_den x) (pr_rebooted x)))).
Proof.
  unfold ratio_step, shifted_state. cbn [rs_num rs_den rs_lastTS rs_valid fst snd].
  assert (pr_num x + a - (rs_num st + a) = pr_num x - rs_num st) as -> by lia.
  assert (pr_den x + b - (rs_den st + b) = pr_den x - rs_den st) as -> by lia.
  assert ((pr_num x + a <? rs_num st + a) = (pr_num x <? rs_num st)) as -> by lia.
  assert ((pr_den x + b <=? rs_den st + b) = (pr_den x <=? rs_den st)) as -> by lia. done.
Qed.

Lemma run_ratios_shift a b l : forall st,
  run_ratios (shifted_state a b st) (map (shifted a b) l) = run_ratios st l.
Proof.
  induction l as [|x l IH]; intros st; [done|]. cbn [map run_ratios shifted pr_ts pr_num pr_den pr_rebooted].
  rewrite ratio_step_shift. destruct (ratio_step st _ _ _ _) as [r st']. cbn [fst snd]. by rewrite IH.
Qed.

Lemma ratio_step_percentage st ts num den rebooted v st' :
  ratio_step st ts num den rebooted = (Some v, st') -> percentage v.
Proof.
  unfold ratio_step, percentage. intros E. apply (f_equal fst) in E. cbn [fst] in E.
  destruct (_ || _); [done|]. destruct (_ || _); [done|].
  destruct (f_ltb _ f_zero) eqn:E0; [done|].
  set (pct := f_div _ _) in *. clearbody pct. destruct (f_leb pct (f_of_Z 100)) eqn:E1.
  - by inv E.
  - destruct (f_leb pct (f_of_Z 110)); [|done]. inv E. split; vm_compute; reflexivity.
Qed.

Lemma run_ratios_percentage l : forall st v, Some v ∈ run_ratios st l -> percentage v.
Proof.
  induction l as [|x l IH]; intros st v Hv; [by apply not_elem_of_nil in Hv|]. cbn [run_ratios] in Hv.
  destruct (ratio_step st _ _ _ _) as [r st'] eqn:E. apply elem_of_cons in Hv as [<-|Hv].
  - by eapply ratio_step_percentage.
  - by eapply IH.
Qed.

(** A utilisation is a percentage of deltas. Over any sequence of readings
    of a counter pair every value is between 0 and 100, and the whole series
    of values is the same wherever either counter started: the two need not
    share an epoch. *)
Theorem ratio_epoch_free a b l :
  run_ratios zero_ratio (map (shifted a b) l) = run_ratios zero_ratio l /\
  forall v, Some v ∈ run_ratios zero_ratio l -> percentage v.
Proof.
  split; [|intros v; apply run_ratios_percentage].
  destruct l as [|x l]; [done|]. cbn [map run_ratios shifted pr_ts pr_num pr_den pr_rebooted].
  unfold ratio_step. cbn [zero_ratio rs_valid]. rewrite !orb_true_r. cbn [negb]. f_equal.
  apply (run_ratios_shift a b l (MkRatio (pr_num x) (pr_den x) (pr_ts x) true)).
Qed.
