(* ===== verification/RingsSpec.v ===== *)
(** * Telemetry: rings and rollups

    Theorems about the sample half of [Telemetry]: a ring holds the last
    samples in order, and a flush moves every sample of a finished window into
    exactly one rollup and leaves the others. *)

From Stdlib Require Import ZArith Lia String Sorted.
From stdpp Require Import base gmap list strings sorting.
From S2P Require Import Prelude GoStr F64 Telemetry.

Local Open Scope string_scope.
Local Open Scope Z_scope.

(** ** The ring *)

Record wf_ring (r : ring) : Prop := {
  wr_cap : (0 < length (rg_buf r))%nat;
  wr_head : (rg_head r < length (rg_buf r))%nat;
  wr_n : (rg_n r <= length (rg_buf r))%nat;
}.

Lemma mod_once a c : (a < 2 * c)%nat -> (a `mod` c = if (a <? c)%nat then a else a - c)%nat.
Proof.
  intros Ha. destruct (Nat.ltb_spec a c) as [Hl|Hl]; [by apply Nat.mod_small|].
  symmetry. apply (Nat.mod_unique a c 1); lia.
Qed.

Lemma length_samples r : length (samples r) = rg_n r.
Proof. unfold samples. by rewrite length_map, length_seq. Qed.

(** The slot that holds the [i]-th oldest sample. *)
Definition slot (r : ring) (i : nat) : nat :=
  let cap := length (rg_buf r) in
  let start := (if (rg_head r <? rg_n r)%nat then rg_head r + cap - rg_n r else rg_head r - rg_n r)%nat in
  (if (start + i <? cap)%nat then start + i else start + i - cap)%nat.

Lemma samples_lookup r i : wf_ring r -> (i < rg_n r)%nat -> samples r !! i = rg_buf r !! slot r i.
Proof.
  intros [Hc Hh Hn] Hi. unfold samples, slot. set (cap := length (rg_buf r)) in *.
  rewrite list_lookup_fmap, lookup_seq_lt by done. cbn [fmap option_fmap option_map].
  rewrite (mod_once (rg_head r + cap - rg_n r)) by lia.
  assert (Hs : (if (rg_head r + cap - rg_n r <? cap)%nat then rg_head r + cap - rg_n r
                else rg_head r + cap - rg_n r - cap)%nat =
               (if (rg_head r <? rg_n r)%nat then rg_head r + cap - rg_n r else rg_head r - rg_n r)%nat).
  { destruct (Nat.ltb_spec (rg_head r) (rg_n r)), (Nat.ltb_spec (rg_head r + cap - rg_n r) cap); lia. }
  rewrite Hs. set (start := if (rg_head r <? rg_n r)%nat then _ else _) in *.
  assert (Hst : (start < cap)%nat) by (unfold start; destruct (Nat.ltb_spec (rg_head r) (rg_n r)); lia).
  rewrite mod_once by lia.
  set (j := if (start + i <? cap)%nat then _ else _).
  destruct (nth_lookup_or_length (rg_buf r) j (MkSample 0 f_zero)) as [Hj|Hj]; [by rewrite Hj|].
  fold cap in Hj. unfold j in Hj. destruct (Nat.ltb_spec (start + i) cap); lia.
Qed.

Lemma wf_append r x : wf_ring r -> wf_ring (append r x).
Proof.
  intros [Hc Hh Hn]. unfold append. split; simpl; rewrite length_insert; [done|by apply Nat.mod_upper_bound; lia|].
  destruct (Nat.ltb_spec (rg_n r) (length (rg_buf r))); lia.
Qed.

(** The last [c] elements of a list. *)
Definition last_n {A} (c : nat) (l : list A) : list A := drop (length l - c) l.

Lemma last_n_id {A} c (l : list A) : (length l <= c)%nat -> last_n c l = l.
Proof. intros Hl. unfold last_n. by replace (length l - c)%nat with 0%nat by lia. Qed.

Lemma samples_append r x : wf_ring r ->
  samples (append r x) = last_n (length (rg_buf r)) (samples r ++ [x]).
Proof.
  intros Hw. pose proof (wf_append r x Hw) as Hw'. pose proof Hw as [Hc Hh Hn].
  set (cap := length (rg_buf r)) in *.
  assert (Hbuf : rg_buf (append r x) = <[rg_head r := x]> (rg_buf r)) by done.
  assert (Hhead : rg_head (append r x) = if (rg_head r + 1 <? cap)%nat then (rg_head r + 1)%nat else 0%nat).
  { unfold append. cbn [rg_head]. fold cap. rewrite mod_once by lia.
    destruct (Nat.ltb_spec (rg_head r + 1) cap); lia. }
  assert (Hcap' : length (rg_buf (append r x)) = cap) by (rewrite Hbuf; by rewrite length_insert).
  assert (Hn' : rg_n (append r x) = if (rg_n r <? cap)%nat then S (rg_n r) else rg_n r) by done.
  unfold last_n. rewrite length_app, length_samples. cbn [length].
  set (old := (rg_n r + 1 - cap)%nat).
  apply list_eq. intros i. rewrite lookup_drop.
  destruct (decide (i < rg_n (append r x))%nat) as [Hi|Hi].
  2:{ rewrite !lookup_ge_None_2; [done| |]; rewrite ?length_app, ?length_samples; cbn [length];
        rewrite Hn' in Hi; destruct (Nat.ltb_spec (rg_n r) cap); lia. }
  rewrite samples_lookup by done. rewrite Hbuf. rewrite Hn' in Hi.
  assert (Hsl : slot (append r x) i =
                if (old + i <? rg_n r)%nat then slot r (old + i) else rg_head r).
  { unfold slot, old. rewrite Hcap', Hhead, Hn'. fold cap.
    repeat (match goal with |- context [Nat.ltb ?a ?b] => destruct (Nat.ltb_spec a b) end; try lia). }
  rewrite Hsl. destruct (Nat.ltb_spec (old + i) (rg_n r)) as [Hlt|Hge].
  - rewrite lookup_app_l by (by rewrite length_samples). rewrite samples_lookup by done.
    apply list_lookup_insert_ne. unfold slot, old in *. fold cap.
    repeat (match goal with |- context [Nat.ltb ?a ?b] => destruct (Nat.ltb_spec a b) end; try lia).
  - rewrite lookup_app_r by (by rewrite length_samples). rewrite length_samples.
    assert ((old + i - rg_n r)%nat = 0%nat) as ->
      by (unfold old in *; destruct (Nat.ltb_spec (rg_n r) cap); lia).
    by rewrite list_lookup_insert_eq.
Qed.


Lemma last_n_app {A} c (l m : list A) : last_n c (last_n c l ++ m) = last_n c (l ++ m).
Proof.
  unfold last_n. rewrite !length_app, length_drop. set (a := (length l - c)%nat).
  assert (Hl : (l ++ m)%list = (take a l ++ (drop a l ++ m))%list) by (by rewrite app_assoc, take_drop).
  rewrite Hl, (drop_app_ge (take a l)) by (rewrite length_take; lia). f_equal. rewrite length_take. lia.
Qed.

Lemma append_all l : forall r, wf_ring r ->
  wf_ring (fold_left append l r) /\ length (rg_buf (fold_left append l r)) = length (rg_buf r) /\
  samples (fold_left append l r) = last_n (length (rg_buf r)) (samples r ++ l).
Proof.
  induction l as [|x l IH]; intros r Hw; cbn [fold_left].
  - split_and!; [done|done|]. rewrite app_nil_r, last_n_id; [done|]. rewrite length_samples. apply Hw.
  - assert (Hl : length (rg_buf (append r x)) = length (rg_buf r)) by (simpl; by rewrite length_insert).
    destruct (IH (append r x) (wf_append r x Hw)) as (H1 & H2 & H3). split_and!; [done|congruence|].
    rewrite H3, Hl, (samples_append r x Hw), last_n_app. by rewrite <- app_assoc.
Qed.

Lemma wf_newRing c : 0 < c -> wf_ring (newRing c) /\ length (rg_buf (newRing c)) = Z.to_nat c.
Proof. intros Hc. unfold newRing. simpl. split; [split; simpl|]; rewrite repeat_length; lia. Qed.

(** ** The store *)

Definition series_samples (s : TStore) (k : SeriesKey) : list Sample :=
  match ts_series s !! k with Some r => samples r | None => [] end.

Definition capacity (s : TStore) : nat := Z.to_nat (to_Capacity (ts_opts s)).

Definition wf_store (s : TStore) : Prop :=
  0 < to_Capacity (ts_opts s) /\
  forall k r, ts_series s !! k = Some r -> wf_ring r /\ length (rg_buf r) = capacity s.

Record point := MkPoint { pt_key : SeriesKey; pt_ts : Z; pt_v : f64 }.
Definition record_point (s : TStore) (p : point) : TStore := Gauge s (pt_key p) (pt_ts p) (pt_v p).
Definition stored (p : point) : Sample := MkSample (pt_ts p) (f_to_f32 (pt_v p)).

Lemma Gauge_one s p k : wf_store s ->
  wf_store (record_point s p) /\ ts_opts (record_point s p) = ts_opts s /\
  series_samples (record_point s p) k =
    last_n (capacity s) (series_samples s k ++ (if decide (pt_key p = k) then [stored p] else [])).
Proof.
  intros [Hc Hw]. unfold record_point, Gauge.
  set (r := match ts_series s !! pt_key p with Some r => r | None => newRing _ end).
  assert (Hr : wf_ring r /\ length (rg_buf r) = capacity s /\ samples r = series_samples s (pt_key p)).
  { unfold r, series_samples. destruct (ts_series s !! pt_key p) as [r0|] eqn:E.
    - destruct (Hw _ _ E). done.
    - destruct (wf_newRing (to_Capacity (ts_opts s)) Hc). done. }
  clearbody r. destruct Hr as (Hwr & Hlen & Hs).
  assert (Hlen' : length (rg_buf (append r (stored p))) = capacity s) by (simpl; by rewrite length_insert).
  split_and!; [|done|].
  - split; [done|]. intros k' r' Hk. unfold capacity in *. simpl in Hk |- *.
    apply lookup_insert_Some in Hk as [[_ <-]|[_ Hk]]; [split; [by apply wf_append|done]|by apply (Hw k')].
  - unfold series_samples at 1. cbn [ts_series set_series]. rewrite lookup_insert. fold (stored p). case_decide as E.
    + rewrite (samples_append r (stored p) Hwr), Hlen, Hs. by rewrite E.
    + rewrite app_nil_r, last_n_id; [done|]. unfold series_samples. destruct (ts_series s !! k) as [r'|] eqn:Ek.
      * rewrite length_samples. destruct (Hw _ _ Ek) as [Hwr' Hl']. rewrite <- Hl'. apply Hwr'.
      * simpl. lia.
Qed.

Definition points_of (k : SeriesKey) (l : list point) : list Sample :=
  map stored (filter (fun p => pt_key p = k) l).

(** A ring is a window onto the stream. After any sequence of readings, of
    any series and interleaved in any way, a series holds the most recent
    samples recorded for it, in order, as many as the capacity allows: nothing
    is lost before the ring is full, and no series disturbs another. *)
Theorem Gauge_keeps_last s l k : wf_store s ->
  series_samples (fold_left record_point l s) k = last_n (capacity s) (series_samples s k ++ points_of k l) /\
  (length (series_samples (fold_left record_point l s) k) <= capacity s)%nat.
Proof.
  intros Hw.
  assert (Hcap : forall s', wf_store s' -> (length (series_samples s' k) <= capacity s')%nat).
  { intros s' [_ Hw']. unfold series_samples. destruct (ts_series s' !! k) as [r|] eqn:E; [|simpl; lia].
    rewrite length_samples. destruct (Hw' _ _ E) as [Hr <-]. apply Hr. }
  revert s Hw. induction l as [|p l IH]; intros s Hw; cbn [fold_left].
  - unfold points_of. rewrite filter_nil. simpl. rewrite app_nil_r, last_n_id; [|by apply Hcap].
    split; [done|by apply Hcap].
  - destruct (Gauge_one s p k Hw) as (Hw' & Ho & Hs). destruct (IH _ Hw') as [H1 H2].
    assert (Hc : capacity (record_point s p) = capacity s) by (unfold capacity; by rewrite Ho).
    rewrite Hc in H1, H2. split; [|done]. rewrite H1, Hs, last_n_app, <- app_assoc. do 2 f_equal.
    unfold points_of. rewrite filter_cons. by destruct (decide (pt_key p = k)).
Qed.

(** ** Draining a ring *)

(** The samples whose window starts at [t]. *)
Definition in_window (w t : Z) (l : list Sample) : list Sample := filter (fun x => window_start w x = t) l.

Lemma add_to_window_lookup w l : forall m t,
  fold_left (add_to_window w) l m !! t =
  match in_window w t l with [] => m !! t | xs => Some (default [] (m !! t) ++ xs)%list end.
Proof.
  induction l as [|x l IH]; intros m t; cbn [fold_left]; [done|].
  rewrite IH. unfold in_window, add_to_window. rewrite filter_cons.
  destruct (decide (window_start w x = t)) as [E|E].
  - rewrite E, lookup_insert_eq. destruct (filter _ l) as [|y ys]; [done|]. simpl. by rewrite <- app_assoc.
  - by rewrite lookup_insert_ne.
Qed.

Lemma in_window_nil w t l : in_window w t l = [] <-> forall x, x ∈ l -> window_start w x <> t.
Proof.
  unfold in_window. split.
  - intros E x Hx Ht. assert (Hin : x ∈ filter (fun x => window_start w x = t) l) by by apply list_elem_of_filter.
    rewrite E in Hin. by apply not_elem_of_nil in Hin.
  - intros H. destruct (filter _ l) as [|y ys] eqn:E; [done|].
    assert (Hin : y ∈ filter (fun x => window_start w x = t) l) by (rewrite E; apply list_elem_of_here).
    apply list_elem_of_filter in Hin as [Ht Hy]. by destruct (H y Hy).
Qed.

(** The windows of [old], as [drain] groups them. *)
Lemma grouped w l t :
  fold_left (add_to_window w) l ∅ !! t = match in_window w t l with [] => None | xs => Some xs end.
Proof. rewrite add_to_window_lookup, lookup_empty. by destruct (in_window w t l). Qed.

Lemma in_window_old w c t l : t < c ->
  in_window w t (filter (fun x => ~ c <= window_start w x) l) = in_window w t l.
Proof.
  intros Ht. unfold in_window. induction l as [|x l IH]; [done|]. rewrite !filter_cons.
  destruct (decide (~ c <= window_start w x)) as [H1|H1]; [rewrite filter_cons|];
    destruct (decide (window_start w x = t)) as [H2|H2]; rewrite ?IH; try done. lia.
Qed.

Lemma in_window_none w c t l : c <= t -> in_window w t (filter (fun x => ~ c <= window_start w x) l) = [].
Proof. intros Ht. apply in_window_nil. intros x Hx Hs. apply list_elem_of_filter in Hx as [Hx _]. lia. Qed.

Lemma nothing_old w c l : fold_left (add_to_window w) (filter (fun x => ~ c <= window_start w x) l) ∅ = ∅ ->
  filter (fun x => c <= window_start w x) l = l /\ forall t, t < c -> in_window w t l = [].
Proof.
  intros E. assert (Hnone : forall t, t < c -> in_window w t l = []).
  { intros t Ht. pose proof (grouped w (filter (fun x => ~ c <= window_start w x) l) t) as Hg.
    rewrite E, lookup_empty, in_window_old in Hg by done. by destruct (in_window w t l). }
  split; [|exact Hnone]. apply filter_all. intros x Hx.
  destruct (Z.le_gt_cases c (window_start w x)) as [|Hlt]; [done|].
  specialize (Hnone _ Hlt). rewrite in_window_nil in Hnone. by destruct (Hnone x Hx).
Qed.

Lemma ru_TS_rollup k t xs : ru_TS (rollup k t xs) = t.
Proof. unfold rollup. destruct (fold_left _ _ _) as [sum bounds]. by destruct (default _ bounds). Qed.
Lemma ru_Key_rollup k t xs : ru_Key (rollup k t xs) = k.
Proof. unfold rollup. destruct (fold_left _ _ _) as [sum bounds]. by destruct (default _ bounds). Qed.
Lemma ru_Cnt_rollup k t xs : ru_Cnt (rollup k t xs) = Z.of_nat (length xs).
Proof. unfold rollup. destruct (fold_left _ _ _) as [sum bounds]. by destruct (default _ bounds). Qed.

(** The sorted keys of a map. *)
Lemma sorted_keys_elem {V} (m : gmap Z V) t : t ∈ merge_sort Z.le (map fst (map_to_list m)) <-> is_Some (m !! t).
Proof.
  rewrite merge_sort_Permutation, list_elem_of_fmap. split.
  - intros ([t' v] & -> & Hv). apply elem_of_map_to_list in Hv. by eexists.
  - intros [v Hv]. exists (t, v). split; [done|by apply elem_of_map_to_list].
Qed.

Lemma sorted_keys_NoDup {V} (m : gmap Z V) : NoDup (merge_sort Z.le (map fst (map_to_list m))).
Proof. rewrite merge_sort_Permutation. apply NoDup_fst_map_to_list. Qed.

(** What [drain] returns, and what it leaves. *)
Lemma drain_spec k r c w : wf_ring r -> 0 < w ->
  wf_ring (drain k r c w).2 /\ length (rg_buf (drain k r c w).2) = length (rg_buf r) /\
  samples (drain k r c w).2 = filter (fun x => c <= window_start w x) (samples r) /\
  (forall ru, ru ∈ (drain k r c w).1 <->
     exists t, t < c /\ in_window w t (samples r) <> [] /\ ru = rollup k t (in_window w t (samples r))) /\
  NoDup (drain k r c w).1.
Proof.
  intros Hr Hw. unfold drain. destruct (Nat.eqb_spec (rg_n r) 0) as [H0|H0].
  { assert (Hs : samples r = []) by (apply length_zero_iff_nil; by rewrite length_samples).
    cbn [orb fst snd]. rewrite Hs, filter_nil. split_and!; try done; [|constructor].
    intros ru. split; [by intros ?%not_elem_of_nil|]. by intros (t & _ & Hne & _). }
  rewrite (proj2 (Z.leb_gt w 0)) by done. cbn [orb].
  set (old := filter (fun x => ~ c <= window_start w x) (samples r)). case_bool_decide as Hold.
  { destruct (nothing_old w c (samples r) Hold) as [Hk Hn]. cbn [fst snd]. rewrite Hk. split_and!; try done; [|constructor].
    intros ru. split; [by intros ?%not_elem_of_nil|]. intros (t & Ht & Hne & _). by rewrite Hn in Hne. }
  cbn [fst snd]. set (r0 := MkRing (rg_buf r) 0 0 (rg_idle r)). set (kept := filter _ (samples r)).
  assert (Hr0 : wf_ring r0) by (split; simpl; try apply Hr; lia).
  destruct (append_all kept r0 Hr0) as (H1 & H2 & H3). split_and!; [done|done| | |].
  - rewrite H3. simpl. apply last_n_id. unfold kept. etrans; [apply length_filter|]. rewrite length_samples. apply Hr.
  - intros ru. rewrite list_elem_of_fmap. split.
    + intros (t & -> & Ht). apply sorted_keys_elem in Ht as [xs Hxs]. rewrite Hxs. rewrite grouped in Hxs.
      destruct (Z.le_gt_cases c t) as [Hc|Hc]; [unfold old in Hxs; by rewrite in_window_none in Hxs|].
      unfold old in Hxs. rewrite in_window_old in Hxs by done. exists t. split; [done|].
      destruct (in_window w t (samples r)); [done|]. by inv Hxs.
    + intros (t & Ht & Hne & ->). exists t. rewrite sorted_keys_elem, grouped. unfold old.
      rewrite in_window_old by done. destruct (in_window w t (samples r)); [done|]. split; [done|by eexists].
  - apply NoDup_fmap_2_strong; [|apply sorted_keys_NoDup]. intros t t' Ht Ht' E.
    apply (f_equal ru_TS) in E. by rewrite !ru_TS_rollup in E.
Qed.

(** ** Flushing the store *)

#[global] Instance rollup_order_total : Total rollup_order.
Proof.
  intros a b. unfold rollup_order, rollup_le.
  destruct (Z.eqb_spec (ru_TS a) (ru_TS b)) as [->|]; rewrite ?Z.eqb_refl; cbn [negb].
  2:{ rewrite (proj2 (Z.eqb_neq (ru_TS b) (ru_TS a))) by done. cbn [negb]. rewrite !Z.ltb_lt. lia. }
  destruct (Z.eqb_spec (sk_DeviceID (ru_Key a)) (sk_DeviceID (ru_Key b))) as [->|]; rewrite ?Z.eqb_refl; cbn [negb].
  2:{ rewrite (proj2 (Z.eqb_neq (sk_DeviceID (ru_Key b)) _)) by done. cbn [negb]. rewrite !Z.ltb_lt. lia. }
  rewrite (String.eqb_sym (sk_Kind (ru_Key b))).
  destruct (String.eqb (sk_Kind (ru_Key a)) (sk_Kind (ru_Key b))); cbn [negb]; apply String.leb_total.
Qed.

Lemma rollup_order_time a b : rollup_order a b -> ru_TS a <= ru_TS b.
Proof.
  unfold rollup_order, rollup_le. destruct (Z.eqb_spec (ru_TS a) (ru_TS b)); cbn [negb]; [lia|].
  rewrite Z.ltb_lt. lia.
Qed.

(** The rollups one series owes at a flush. *)
Definition owed (w cutoff : Z) (k : SeriesKey) (l : list Sample) (ru : Rollup) : Prop :=
  exists t, t < cutoff /\ in_window w t l <> [] /\ ru = rollup k t (in_window w t l).

Lemma flush_ring_spec o c k r : wf_ring r -> 0 < f_trunc (duration_Seconds (to_Window o)) ->
  let w := f_trunc (duration_Seconds (to_Window o)) in
  (forall ru, ru ∈ (flush_ring o c k r).1 <-> owed w c k (samples r) ru) /\
  NoDup (flush_ring o c k r).1 /\
  match (flush_ring o c k r).2 with
  | Some r' => wf_ring r' /\ length (rg_buf r') = length (rg_buf r) /\
               samples r' = filter (fun x => c <= window_start w x) (samples r)
  | None => filter (fun x => c <= window_start w x) (samples r) = []
  end.
Proof.
  intros Hr Hw. cbv zeta. unfold flush_ring. set (w := f_trunc _) in *.
  destruct (drain_spec k r c w Hr Hw) as (H1 & H2 & H3 & H4 & H5).
  destruct (drain k r c w) as [rolled r1]. cbn [fst snd] in *.
  assert (Hidle : forall i, wf_ring (MkRing (rg_buf r1) (rg_head r1) (rg_n r1) i)) by (intros i; split; apply H1).
  assert (Hnil : rolled = [] -> (forall ru, ru ∈ [] <-> owed w c k (samples r) ru) /\ NoDup (@nil Rollup)).
  { intros E. rewrite E in H4. split; [exact H4|constructor]. }
  case_bool_decide as E; cbn [negb].
  - destruct (Hnil E) as [Ha Hb]. unfold ring_empty. destruct (Nat.eqb_spec (rg_n r1) 0) as [H0|H0].
    + destruct (_ <=? _); cbn [fst snd]; [|by split_and!]. split_and!; [done|done|].
      rewrite <- H3. apply length_zero_iff_nil. by rewrite length_samples.
    + cbn [fst snd]. by split_and!.
  - cbn [fst snd]. split_and!; done.
Qed.

(** A window that divides the day aligns with the Unix epoch. *)
Lemma cutoff_aligned now w : 0 < w -> (w | 86400) ->
  Unix (Truncate now (w * 1000000000)) = w * (now / (w * 1000000000)).
Proof.
  intros Hw [q Hq]. unfold Truncate, Unix. rewrite (proj2 (Z.leb_gt _ _)) by lia.
  assert (Hz : (now - zero_time) mod (w * 1000000000) = now mod (w * 1000000000)).
  { unfold zero_time. replace (now - -62135596800 * 1000000000) with (now + (719162 * q) * (w * 1000000000)) by nia.
    apply Z_mod_plus_full. }
  rewrite Hz. pose proof (Z.div_mod now (w * 1000000000) ltac:(lia)) as Hd.
  replace (now - now mod (w * 1000000000)) with (w * (now / (w * 1000000000)) * 1000000000) by lia.
  by rewrite Z.div_mul.
Qed.

Lemma window_start_floor w x : 0 < w -> 0 <= sm_TS x <= maxInt64 ->
  window_start w x = w * (sm_TS x / w).
Proof.
  intros Hw Hx. unfold window_start. rewrite Z.rem_mod_nonneg by lia.
  pose proof (Z.div_mod (sm_TS x) w ltac:(lia)). pose proof (Z.mod_pos_bound (sm_TS x) w Hw).
  pose proof (Z.div_pos (sm_TS x) w ltac:(lia) Hw).
  rewrite i64_id; [lia|]. unfold in_i64, minInt64, maxInt64 in *. nia.
Qed.

(** A test on [n] consecutive integers. *)
Fixpoint all_from (test : Z -> bool) (n : nat) (z : Z) : bool :=
  match n with O => true | S n' => test z && all_from test n' (z + 1) end.

Lemma all_from_spec test n : forall z, all_from test n z = true ->
  forall x, z <= x < z + Z.of_nat n -> test x = true.
Proof.
  induction n as [|n IH]; intros z H x Hx; [lia|]. cbn [all_from] in H. bool_prop.
  destruct (decide (x = z)) as [->|Hne]; [done|]. apply (IH (z + 1)); [done|lia].
Qed.

(** [Window.Seconds()] is exact for every window that divides the day. *)
Lemma seconds_exact w : 1 <= w <= 86400 -> (w | 86400) -> f_trunc (duration_Seconds (w * 1000000000)) = w.
Proof.
  intros Hw Hd. set (exact x := f_trunc (duration_Seconds (x * 1000000000)) =? x).
  assert (H : (if 86400 mod w =? 0 then exact w else true) = true).
  { apply (all_from_spec (fun x => if 86400 mod x =? 0 then exact x else true) (Z.to_nat 86400) 1);
      [vm_compute; reflexivity|rewrite Z2Nat.id; lia]. }
  rewrite (proj2 (Z.mod_divide 86400 w ltac:(lia)) Hd) in H. by apply Z.eqb_eq in H.
Qed.

(** A window that starts before the cutoff is over. *)
Lemma window_over now w q : 0 < w -> w * q < w * (now / (w * 1000000000)) -> (w * q + w) * 1000000000 <= now.
Proof.
  intros Hw Hq. pose proof (Z.mul_div_le now (w * 1000000000) ltac:(lia)).
  assert (q + 1 <= now / (w * 1000000000)) by nia. nia.
Qed.

(** (functional) A flush accounts for every sample. Take windows of a whole number of
    seconds that divides a day, and samples with times since 1970. Every
    series is left with exactly its samples of the window [now] falls in and
    later ones; for every series and every earlier window with samples there
    is exactly one rollup, computed from exactly those samples; every rollup's
    window is over by [now]; and the rollups come in order of time. *)
Theorem Flush_accounts s now w : wf_store s -> 1 <= w -> (w | 86400) -> to_Window (ts_opts s) = w * 1000000000 ->
  (forall k x, x ∈ series_samples s k -> 0 <= sm_TS x <= maxInt64) ->
  let cutoff := w * (now / (w * 1000000000)) in
  let out := (Flush s now).1 in
  (forall k, series_samples (Flush s now).2 k = filter (fun x => cutoff <= window_start w x) (series_samples s k)) /\
  (forall ru, ru ∈ out <-> owed w cutoff (ru_Key ru) (series_samples s (ru_Key ru)) ru) /\
  NoDup out /\
  (forall ru, ru ∈ out -> 1 <= ru_Cnt ru /\ (ru_TS ru + w) * 1000000000 <= now) /\
  Sorted rollup_order out /\ StronglySorted (fun a b => ru_TS a <= ru_TS b) out.
Proof.
  intros [Hc Hwf] Hw Hdiv HW Hts cutoff out.
  assert (Hday : w <= 86400) by (by apply Z.divide_pos_le).
  assert (Hsec : f_trunc (duration_Seconds (to_Window (ts_opts s))) = w) by (rewrite HW; by apply seconds_exact; [lia|]).
  assert (Hcut : Unix (Truncate now (to_Window (ts_opts s))) = cutoff) by (rewrite HW; by apply cutoff_aligned; [lia|]).
  set (flushed := fun kv : SeriesKey * ring => (flush_ring (ts_opts s) cutoff kv.1 kv.2).1).
  assert (Hflush : forall k r, ts_series s !! k = Some r ->
            (forall ru, ru ∈ flushed (k, r) <-> owed w cutoff k (samples r) ru) /\ NoDup (flushed (k, r)) /\
            match (flush_ring (ts_opts s) cutoff k r).2 with
            | Some r' => wf_ring r' /\ length (rg_buf r') = length (rg_buf r) /\
                         samples r' = filter (fun x => cutoff <= window_start w x) (samples r)
            | None => filter (fun x => cutoff <= window_start w x) (samples r) = []
            end).
  { intros k r Hk. pose proof (flush_ring_spec (ts_opts s) cutoff k r (proj1 (Hwf k r Hk))) as Hf.
    rewrite Hsec in Hf. apply Hf. lia. }
  assert (Hout : out = merge_sort rollup_order (flat_map flushed (map_to_list (ts_series s)))).
  { unfold out, Flush. cbn [fst expireStale ts_series]. by rewrite Hcut. }
  assert (Helem : forall ru, ru ∈ out <-> owed w cutoff (ru_Key ru) (series_samples s (ru_Key ru)) ru).
  { intros ru. rewrite Hout, merge_sort_Permutation, elem_of_flat_map. unfold series_samples. split.
    - intros ([k r] & Hin & Hru). apply elem_of_map_to_list in Hin. destruct (Hflush k r Hin) as [Hf _].
      apply Hf in Hru as (t & Ht & Hne & ->). rewrite ru_Key_rollup, Hin. by exists t.
    - destruct (ts_series s !! ru_Key ru) as [r|] eqn:Hk.
      + intros Ho. exists (ru_Key ru, r). split; [by apply elem_of_map_to_list|]. by apply (Hflush _ _ Hk).
      + intros (t & _ & Hne & _). done. }
  split_and!; [|exact Helem| | | |].
  - intros k. unfold Flush, series_samples. cbn [snd ts_series set_counters set_series expireStale]. rewrite Hcut.
    rewrite map_lookup_imap. destruct (ts_series s !! k) as [r|] eqn:Hk; [|by rewrite filter_nil].
    destruct (Hflush k r Hk) as (_ & _ & Hm). cbn [mbind option_bind]. destruct (flush_ring _ _ _ _).2; [apply Hm|done].
  - rewrite Hout, merge_sort_Permutation. apply NoDup_flat_map; [apply NoDup_map_to_list| |].
    + intros [k r] Hin. apply elem_of_map_to_list in Hin. apply (Hflush _ _ Hin).
    + intros [k r] [k' r'] ru Hk Hk' Hru Hru'. apply elem_of_map_to_list in Hk, Hk'.
      apply (Hflush _ _ Hk) in Hru as (t & _ & _ & ->). apply (Hflush _ _ Hk') in Hru' as (t' & _ & _ & E).
      apply (f_equal ru_Key) in E. rewrite !ru_Key_rollup in E. subst k'. congruence.
  - intros ru Hru. apply Helem in Hru as (t & Ht & Hne & ->). rewrite ru_Cnt_rollup, ru_TS_rollup.
    set (l := series_samples _ _) in *. destruct (in_window w t l) as [|x xs] eqn:E; [done|]. split; [cbn [length]; lia|].
    assert (Hx : x ∈ in_window w t l) by (rewrite E; apply list_elem_of_here).
    apply list_elem_of_filter in Hx as [Hs Hx]. rewrite window_start_floor in Hs by (try done; try lia; by apply (Hts _ _ Hx)).
    subst t. unfold cutoff in Ht. apply window_over; lia.
  - rewrite Hout. apply Sorted_merge_sort, _.
  - apply Sorted_StronglySorted; [intros ? ? ?; lia|]. rewrite Hout.
    eapply Sorted_weaken; [apply rollup_order_time|apply Sorted_merge_sort, _].
Qed.

(** * Telemetry on concrete readings

    Instances of the theorems of [RatesSpec] and [RingsSpec]: an interface
    whose 32-bit counter goes around, a counter pair, and a small store. *)

From Stdlib Require Import ZArith Lia String Sorted.
From stdpp Require Import base gmap list strings sorting.
From S2P Require Import Prelude GoStr F64 Telemetry RatesSpec.

Local Open Scope string_scope.
Local Open Scope Z_scope.

Module TelemetryRuns.

(** 600 bytes in a minute across a wrap; then the device restarts. *)
Definition before_wrap : traffic := MkTraffic 1000 (2 ^ 32 - 100) 0 false false.
Definition after_wrap : traffic := MkTraffic 1060 (2 ^ 32 + 500) 0 false false.
Definition after_reboot : traffic := MkTraffic 1120 (2 ^ 32 + 900) (2 ^ 32 + 700) true false.

Example wrapped_rates :
  run_rates zero_counter (map (reading_of 32) [before_wrap; after_wrap; after_reboot]) =
  [None; Some (f_of_Z 10); None].
Proof. vm_compute. reflexivity. Qed.

Lemma rates_are_true_witness :
  exists rest, run_rates zero_counter (map (reading_of 32) [before_wrap; after_wrap; after_reboot]) = None :: rest /\
    Forall2 (fun r v => r = None \/ r = Some v) rest (averages before_wrap [after_wrap; after_reboot]).
Proof.
  apply rates_are_true; [by left|split; [vm_compute; discriminate|discriminate]|].
  split; [split; [split; vm_compute; discriminate|intros _ _; split; [reflexivity|vm_compute; split; [discriminate|reflexivity]]]|].
  split; [split; [vm_compute; discriminate|discriminate]|].
  split; [split; [split; vm_compute; discriminate|discriminate]|].
  split; [split; [vm_compute; discriminate|discriminate]|exact I].
Defined.

(** A counter that fell from near 2^32 on an interface that has done 20 B/s. *)
Definition known : counterState := MkCounter (2 ^ 32 - 100) 1000 true false (f_of_Z 20).

Lemma rate_emits_witness :
  emitted known 1060 500 false false (f_of_Z 10) (MkCounter 500 1060 true false (f_of_Z 20)) /\
  counter_ok (MkCounter 500 1060 true false (f_of_Z 20)).
Proof.
  apply (rate_emits known 1060 500 false false).
  - split; [vm_compute; split; [discriminate|reflexivity]|intros _; vm_compute; discriminate].
  - vm_compute. split; [discriminate|reflexivity].
  - split; vm_compute; discriminate.
  - vm_compute. reflexivity.
Defined.

(** A store of two-sample rings with one-minute windows. *)
Definition small : TStore := New (MkTOptions (60 * 1000000000) 2 3).
Definition load_key : SeriesKey := (7, "sys_load1", "").
Definition readings : list point :=
  [MkPoint load_key 120 (f_of_Z 1); MkPoint (7, "sys_mem_pct", "") 120 (f_of_Z 40);
   MkPoint load_key 150 (f_of_Z 3); MkPoint load_key 185 (f_of_Z 5)].
Definition filled : TStore := fold_left record_point readings small.

Lemma wf_small : wf_store small.
Proof. split; [reflexivity|]. intros k r Hk. change (ts_series small) with (∅ : gmap SeriesKey ring) in Hk. by rewrite lookup_empty in Hk. Qed.

Lemma Gauge_keeps_last_witness :
  map sm_TS (series_samples filled load_key) = [150; 185] /\
  series_samples filled load_key = last_n 2 (points_of load_key readings).
Proof.
  split; [vm_compute; reflexivity|]. exact (proj1 (Gauge_keeps_last small readings load_key wf_small)).
Defined.

Lemma wf_filled : wf_store filled.
Proof.
  unfold filled. generalize wf_small. generalize small. induction readings as [|p l IH]; intros s Hs; [done|].
  apply IH. by apply (Gauge_one s p load_key).
Qed.

(** At 190 s the minute from 120 s is over and the one from 180 s is not. *)
Local Notation later := (190 * 1000000000).

Lemma filled_times k x : x ∈ series_samples filled k -> 0 <= sm_TS x <= maxInt64.
Proof.
  assert (Hall : map_Forall (fun _ r => Forall (fun x => 0 <= sm_TS x <= maxInt64) (samples r)) (ts_series filled))
    by (apply (bool_decide_unpack _); vm_compute; exact I).
  unfold series_samples. destruct (ts_series filled !! k) as [r|] eqn:Hk; [|by intros ?%not_elem_of_nil].
  intros Hx. specialize (Hall k r Hk). rewrite Forall_forall in Hall. by apply Hall.
Qed.

Lemma Flush_accounts_witness :
  map ru_TS (Flush filled later).1 = [120; 120] /\
  series_samples (Flush filled later).2 load_key = [MkSample 185 (f_of_Z 5)] /\
  NoDup (Flush filled later).1.
Proof.
  destruct (Flush_accounts filled later 60 wf_filled) as (Hk & _ & Hnd & _);
    [discriminate|by exists 1440|reflexivity|exact filled_times|].
  split; [vm_compute; reflexivity|]. split; [rewrite Hk; vm_compute; reflexivity|exact Hnd].
Defined.

End TelemetryRuns.
