(* ===== verification/SiteModel.v ===== *)
(** * The site model (internal/model)

    The desired state of a site: networks, firewall zones, WLANs, mesh
    backhauls, wireless uplinks, AP groups and per-device overrides, with the
    closed vocabularies (roles, functions, management modes, override keys)
    and every operation of [role.go], [function.go], [management.go],
    [override.go], [zone.go], [mesh.go], [uplink.go] and [site.go]. The
    policies of [policy.go] and [Site.Validate], which calls them, are in
    [SitePolicy]. A Go named string type is a string; a nil slice or pointer
    that the code distinguishes from an empty one is [None]. *)

From Stdlib Require Import ZArith Lia Ascii String.
From stdpp Require Import base gmap list strings sorting.
From S2P Require Import Prelude GoStr GoFmt NetIP.

Local Open Scope string_scope.
Local Open Scope Z_scope.

(** ** Device roles (role.go) *)

Definition RoleGateway : string := "gateway".
Definition RoleAP : string := "ap".
Definition RoleSwitch : string := "switch".
Definition Roles : list string := [RoleGateway; RoleAP; RoleSwitch].

Definition Role_or (r : string) : string := if String.eqb r "" then RoleAP else r.

Definition Role_Wireless (r : string) : bool :=
  let v := Role_or r in String.eqb v RoleAP || String.eqb v RoleGateway.
Definition Role_Routes (r : string) : bool := String.eqb (Role_or r) RoleGateway.
Definition Role_String (r : string) : string := Role_or r.

Definition Role_Describe (r : string) : string :=
  let v := Role_or r in
  if String.eqb v RoleGateway then
    "routes between networks and to the internet; gets addressing, " ++
    "DHCP and firewall rules"
  else if String.eqb v RoleAP then
    "publishes WLANs and passes tagged traffic through; does not " ++
    "route or serve DHCP"
  else if String.eqb v RoleSwitch then
    "passes tagged traffic only; no WLANs are sent to it even if it " ++
    "has radios"
  else "".

Definition ParseRole (s : string) : res error string :=
  let v := ToLowerRunes (TrimSpace s) in
  if String.eqb v "" then Ok RoleAP
  else match List.find (String.eqb v) Roles with
       | Some r => Ok r
       | None => Err (errf "%q is not a device role; valid roles are %s"
                       [VS s; VS (Join (sort_strings Roles) ", ")])
       end.

Definition RoleOf (s : string) : string :=
  match ParseRole s with Ok r => r | Err _ => RoleAP end.

(** ** Device functions (function.go) *)

Definition FunctionGateway : string := "gateway".
Definition FunctionAP : string := "ap".
Definition FunctionSwitch : string := "switch".
Definition DeviceFunctionChoices : list string := [FunctionGateway; FunctionAP; FunctionSwitch].

Definition FunctionsForRole (role : string) : list string :=
  let v := Role_or role in
  if String.eqb v RoleGateway then [FunctionGateway; FunctionAP; FunctionSwitch]
  else if String.eqb v RoleSwitch then [FunctionSwitch]
  else [FunctionAP; FunctionSwitch].

(** The first element that is no function, or the normalized elements. *)
Fixpoint parse_functions (l : list string) : res error (list string) :=
  match l with
  | [] => Ok []
  | raw :: l' =>
      let fn := ToLowerRunes (TrimSpace raw) in
      if existsb (String.eqb fn) DeviceFunctionChoices
      then let? fns := parse_functions l' in Ok (fn :: fns)
      else Err (errf "%q is not a device function; valid functions are ap, gateway, switch" [VS raw])
  end.

Definition ParseDeviceFunctions (input : option (list string)) (role : string) : res error (list string) :=
  match input with
  | None => Ok (FunctionsForRole role)
  | Some [] => Err "at least one device function is required; valid functions are ap, gateway, switch"
  | Some l =>
      let? seen := parse_functions l in
      Ok (List.filter (fun fn => existsb (String.eqb fn) seen) DeviceFunctionChoices)
  end.

Definition DeviceFunctionsOf (input : option (list string)) (role : string) : list string :=
  match ParseDeviceFunctions input (RoleOf role) with Ok f => f | Err _ => [] end.

Definition Has (f : list string) (want : string) : bool := existsb (fun got => String.eqb got want) f.
Definition Routes (f : list string) : bool := Has f FunctionGateway.
Definition Wireless (f : list string) : bool := Has f FunctionAP.
Definition Switches (f : list string) : bool := Has f FunctionSwitch.

Definition PrimaryRole (f : list string) : string :=
  if Routes f then RoleGateway else if Wireless f then RoleAP else RoleSwitch.

Definition Functions_Strings (f : list string) : list string := map (fun fn => fn) f.
Definition Functions_Describe (f : list string) : string := Join (sort_strings (Functions_Strings f)) ", ".

(** ** Management mode (management.go) *)

Definition ManagementModeManaged : string := "managed".
Definition ManagementModeMonitorOnly : string := "monitor_only".

Definition ParseManagementMode (raw : string) : res error string :=
  let mode := ToLowerRunes (TrimSpace raw) in
  if String.eqb mode "" || String.eqb mode ManagementModeManaged then Ok ManagementModeManaged
  else if String.eqb mode ManagementModeMonitorOnly then Ok ManagementModeMonitorOnly
  else Err (errf "%q is not a management mode; valid modes are managed and monitor_only" [VS raw]).

Definition Configures (m : string) : bool := String.eqb m ManagementModeManaged.

(** ** Bands and security (site.go) *)

Definition Band2G : string := "2g".
Definition Band5G : string := "5g".
Definition Band6G : string := "6g".

Definition Band_Valid (b : string) : bool :=
  String.eqb b Band2G || String.eqb b Band5G || String.eqb b Band6G.

Definition BandForFrequency (mhz : Z) : option string :=
  if (2400 <=? mhz) && (mhz <? 2500) then Some Band2G
  else if (5000 <=? mhz) && (mhz <? 5900) then Some Band5G
  else if (5925 <=? mhz) && (mhz <=? 7125) then Some Band6G
  else None.

Definition SecSAE : string := "sae".
Definition SecSAEMixed : string := "sae-mixed".
Definition SecPSK2 : string := "psk2".
Definition SecOWE : string := "owe".
Definition SecNone : string := "none".

Definition NeedsKey (m : string) : bool :=
  String.eqb m SecSAE || String.eqb m SecSAEMixed || String.eqb m SecPSK2.

Definition PMFDisabled : string := "0".
Definition PMFOptional : string := "1".
Definition PMFRequired : string := "2".

Record Security := MkSecurity { s_Mode : string; s_Key : string; s_PMF : string }.

Record Roaming := MkRoaming { r_FT : bool; r_FTOverDS : bool; r_KV : bool; r_FTWithPSK2 : bool }.

Record WLANOptions := MkWLANOptions {
  o_Hidden : bool;
  o_Isolate : bool;
  o_MaxAssoc : Z;
  o_AllowUplink : bool;
}.

Record DHCPConfig := MkDHCP { d_Enabled : bool; d_Start : Z; d_Limit : Z; d_LeaseTime : string }.

Definition IPv6Preserve : string := "preserve".
Definition IPv6PrefixDelegation : string := "prefix_delegation".
Definition IPv6Disabled : string := "disabled".

Record IPv6Config := MkIPv6 { i_Mode : string; i_AssignmentLength : Z }.

Definition DefaultIPv6Config : IPv6Config := MkIPv6 IPv6Preserve 60.

(** An [error] result with no value: [None] is nil. *)
Definition IPv6_Validate (c : IPv6Config) : option error :=
  if negb (String.eqb (i_Mode c) IPv6Preserve || String.eqb (i_Mode c) IPv6PrefixDelegation ||
           String.eqb (i_Mode c) IPv6Disabled)
  then Some (errf "IPv6 mode %q is invalid; use preserve, prefix_delegation or disabled" [VS (i_Mode c)])
  else if (i_AssignmentLength c <? 48) || (64 <? i_AssignmentLength c)
  then Some "IPv6 assignment length must be between 48 and 64"
  else None.

Definition DefaultDHCPConfig : DHCPConfig := MkDHCP true 100 150 "12h".

(** The regular expression [^(?:[1-9][0-9]*[smhdw]|infinite)$]. *)
Definition dhcpLeaseTime (s : string) : bool :=
  String.eqb s "infinite" ||
  match chars s with
  | c :: l =>
      match rev l with
      | u :: mid => in_range 49 57 c && forallb is_digit mid &&
                    existsb (Ascii.eqb u) ["s"; "m"; "h"; "d"; "w"]%char
      | [] => false
      end
  | [] => false
  end.

(** The offset of the address in its prefix: [uint64] subtraction of two
    32-bit values, the second never larger. *)
Definition ipv4HostOffset (p : Prefix) : Z :=
  u64 (addr_value (px_Addr p) - addr_value (px_Addr (Masked p))).

Definition validateNetworkCIDR (cidr : string) : res error Prefix :=
  match ParsePrefix (TrimSpace cidr) with
  | None => Err (errf "network address %q must be an IPv4 address in CIDR form" [VS cidr])
  | Some p =>
      if negb (Is4 (px_Addr p)) then Err (errf "network address %q must be an IPv4 address in CIDR form" [VS cidr])
      else if px_Bits p <? 8 then
        Err (errf "network address %q uses a prefix shorter than /8, which is refused as a likely typo" [VS cidr])
      else if px_Bits p <=? 30 then
        let hosts := Z.shiftl 1 (32 - px_Bits p) in
        let offset := ipv4HostOffset p in
        if offset =? 0 then
          Err (errf "network address %q uses the subnet address as its gateway; choose a usable host address" [VS cidr])
        else if offset =? hosts - 1 then
          Err (errf "network address %q uses the broadcast address as its gateway; choose a usable host address" [VS cidr])
        else Ok p
      else Ok p
  end.

(** [Start] and [Limit] are [int]s converted to [uint64]. *)
Definition DHCP_Validate (d : DHCPConfig) (cidr : string) : option error :=
  if negb (d_Enabled d) then None
  else if d_Start d <? 1 then
    Some "DHCP pool start must be at least 1 (an offset from the network address)"
  else if d_Limit d <? 1 then Some "DHCP pool limit must be at least 1 lease"
  else if negb (dhcpLeaseTime (TrimSpace (d_LeaseTime d))) then
    Some (errf "DHCP lease time %q is invalid; use a number followed by s, m, h, d or w, or infinite"
           [VS (d_LeaseTime d)])
  else match validateNetworkCIDR cidr with
       | Err e => Some e
       | Ok p =>
           let bits := px_Bits p in
           if 30 <? bits then
             Some (errf "DHCP needs an IPv4 subnet with usable host addresses; /%d has none" [VD bits])
           else
             let hosts := Z.shiftl 1 (32 - bits) in
             let last := u64 (u64 (u64 (d_Start d) + u64 (d_Limit d)) - 1) in
             if hosts - 1 <=? last then
               Some (errf "DHCP pool offsets %d–%d do not fit this /%d subnet; the highest usable offset is %d"
                      [VD (d_Start d); VD last; VD bits; VD (hosts - 2)])
             else
               let gateway := ipv4HostOffset p in
               if (u64 (d_Start d) <=? gateway) && (gateway <=? last) then
                 Some (errf "DHCP pool offsets %d–%d include the gateway address at offset %d"
                        [VD (d_Start d); VD last; VD gateway])
               else None
       end.

(** ** The site (site.go, mesh.go, uplink.go) *)

Record Network := MkNetwork {
  n_ID : Z;
  n_Name : string;
  n_VLAN : Z;
  n_CIDR : string;
  n_Zone : string;
  n_DHCP : option DHCPConfig;
  n_IPv6 : option IPv6Config;
  n_LegacyDHCPDefaults : bool;
  n_Enabled : bool;
}.

Definition EffectiveDHCP (n : Network) : DHCPConfig := default DefaultDHCPConfig (n_DHCP n).
Definition EffectiveIPv6 (n : Network) : IPv6Config := default DefaultIPv6Config (n_IPv6 n).

Record WLAN := MkWLAN {
  w_ID : Z;
  w_SSID : string;
  w_NetworkID : Z;
  w_GroupID : Z;
  w_Bands : list string;
  w_Security : Security;
  w_Roaming : Roaming;
  w_Options : WLANOptions;
  w_Enabled : bool;
}.

Definition PublishesOn (w : WLAN) (b : string) : bool := existsb (fun want => String.eqb want b) (w_Bands w).

Record APGroup := MkGroup { g_ID : Z; g_Name : string; g_DeviceIDs : list Z }.

Definition Group_Contains (g : APGroup) (deviceID : Z) : bool := existsb (fun id => id =? deviceID) (g_DeviceIDs g).

Record Device := MkDevice {
  dev_ID : Z;
  dev_Name : string;
  dev_Role : string;
  dev_Functions : option (list string);
}.

Definition EffectiveFunctions (d : Device) : list string :=
  match dev_Functions d with None => FunctionsForRole (dev_Role d) | Some f => f end.

Record Mesh := MkMesh {
  m_ID : Z;
  m_MeshID : string;
  m_NetworkID : Z;
  m_GroupID : Z;
  m_Band : string;
  m_Key : string;
  m_Enabled : bool;
}.

Record Uplink := MkUplink {
  u_ID : Z;
  u_DeviceID : Z;
  u_WLANID : Z;
  u_Band : string;
  u_Enabled : bool;
}.

Record ZonePolicy := MkZonePolicy { zp_Name : string; zp_ForwardTo : list string; zp_Explicit : bool }.

(** ** Policy records (policy.go) *)

Definition PolicyFirewallRule : string := "firewall_rule".
Definition PolicyPortForward : string := "port_forward".
Definition PolicyStaticRoute : string := "static_route".
Definition PolicyOriginManual : string := "manual".
Definition PolicyOriginObjectManager : string := "object_manager".
Definition FirewallAccept : string := "accept".
Definition FirewallDrop : string := "drop".
Definition FirewallReject : string := "reject".

Record FirewallRule := MkFirewallRule {
  fr_Action : string;
  fr_SourceZone : string;
  fr_DestinationZone : string;
  fr_Protocols : list string;
  fr_SourceCIDR : string;
  fr_DestinationCIDR : string;
  fr_SourcePort : string;
  fr_DestinationPort : string;
  fr_SourceSetID : Z;
  fr_SourceMACs : list string;
}.

Record PortForward := MkPortForward {
  pf_SourceZone : string;
  pf_DestinationZone : string;
  pf_Protocols : list string;
  pf_ExternalPort : Z;
  pf_DestinationIP : string;
  pf_DestinationPort : Z;
  pf_SourceCIDR : string;
}.

Record StaticRoute := MkStaticRoute {
  sr_NetworkID : Z;
  sr_Target : string;
  sr_Gateway : string;
  sr_Metric : Z;
}.

Record Policy := MkPolicy {
  po_ID : Z;
  po_Order : Z;
  po_Name : string;
  po_Kind : string;
  po_Origin : string;
  po_Enabled : bool;
  po_Firewall : option FirewallRule;
  po_PortForward : option PortForward;
  po_StaticRoute : option StaticRoute;
}.

Record PolicyClient := MkPolicyClient {
  pc_MAC : string;
  pc_Group : string;
  pc_Blocked : bool;
  pc_FixedIP : string;
}.

Record PolicySet := MkPolicySet { ps_ID : Z; ps_Name : string; ps_Members : list string }.

(** ** Per-device overrides (override.go) *)

Definition OverrideDisabled : string := "disabled".
Definition OverrideHidden : string := "hidden".
Definition OverrideIsolate : string := "isolate".
Definition OverrideMaxAssoc : string := "max_assoc".

Record Override := MkOverride {
  ov_DeviceID : Z;
  ov_WLANID : Z;
  ov_Key : string;
  ov_Value : string;
}.

Definition OverrideKey_Valid (k : string) : bool :=
  existsb (String.eqb k) [OverrideDisabled; OverrideHidden; OverrideIsolate; OverrideMaxAssoc].

Definition Override_Path (o : Override) : string :=
  Sprintf "wlan.%d.%s" [VD (ov_WLANID o); VS (ov_Key o)].

Definition ParseOverridePath (path : string) : res error (Z * string) :=
  match Split path "." with
  | [p0; p1; p2] =>
      if negb (String.eqb p0 "wlan") then Err (errf "model: %q is not a WLAN override path" [VS path])
      else match Atoi p1 with
           | None => Err (errf "model: %q has no valid WLAN id" [VS path])
           | Some id =>
               if id <=? 0 then Err (errf "model: %q has no valid WLAN id" [VS path])
               else if negb (OverrideKey_Valid p2) then
                 Err (errf ("model: %q is not an overridable setting. " ++
                            "Security, SSID and roaming are deliberately not overridable — they " ++
                            "are what a controller exists to keep identical across every AP") [VS p2])
               else Ok (id, p2)
           end
  | _ => Err (errf "model: %q is not a WLAN override path" [VS path])
  end.

Definition Override_Bool (o : Override) : bool :=
  String.eqb (ov_Value o) "1" || EqualFold (ov_Value o) "true".

Definition Override_Int (o : Override) : option Z :=
  match Atoi (TrimSpace (ov_Value o)) with
  | Some n => if n <? 0 then None else Some n
  | None => None
  end.

Definition Override_Describe (o : Override) (ssid : string) : string :=
  let ssid := if String.eqb ssid "" then Sprintf "WLAN %d" [VD (ov_WLANID o)] else ssid in
  let k := ov_Key o in
  if String.eqb k OverrideDisabled then
    if Override_Bool o then Sprintf "%s is not published on this device" [VS ssid]
    else Sprintf ("%s is published on this device even though the site " ++ "model disables it") [VS ssid]
  else if String.eqb k OverrideHidden then
    if Override_Bool o then Sprintf "%s does not beacon its name here" [VS ssid]
    else Sprintf "%s beacons its name here" [VS ssid]
  else if String.eqb k OverrideIsolate then
    if Override_Bool o then Sprintf "%s requests client isolation on this access point" [VS ssid]
    else Sprintf "%s does not request client isolation on this access point" [VS ssid]
  else if String.eqb k OverrideMaxAssoc then
    match Override_Int o with
    | Some n => if 0 <? n then Sprintf "%s allows at most %d clients here" [VS ssid; VD n]
                else Sprintf "%s has no client limit here" [VS ssid]
    | None => Sprintf "%s has no client limit here" [VS ssid]
    end
  else Sprintf "%s: %s = %s" [VS ssid; VS k; VS (ov_Value o)].

(** [Overrides]: a Go map from device to its rows. *)
Notation Overrides := (gmap Z (list Override)) (only parsing).

Definition ov_key_le (a b : Override) : Prop := str_le (ov_Key a) (ov_Key b).
#[export] Instance ov_key_le_dec a b : Decision (ov_key_le a b).
Proof. unfold ov_key_le. apply _. Defined.

(** [Overrides.For]. [sort.Slice] leaves the order of equal keys open; the
    path, which names device, WLAN and key, is unique in the store. *)
Definition Overrides_For (o : Overrides) (deviceID wlanID : Z) : list Override :=
  merge_sort ov_key_le
    (List.filter (fun ov => ov_WLANID ov =? wlanID) (default [] (o !! deviceID))).

Definition Deviates (o : Overrides) (deviceID : Z) : bool :=
  match default [] (o !! deviceID) with [] => false | _ => true end.

Definition set_Options (w : WLAN) (opt : WLANOptions) : WLAN :=
  MkWLAN (w_ID w) (w_SSID w) (w_NetworkID w) (w_GroupID w) (w_Bands w) (w_Security w) (w_Roaming w)
    opt (w_Enabled w).

(** One iteration of the loop of [Overrides.Apply]. *)
Definition override_step (acc : WLAN * bool) (ov : Override) : WLAN * bool :=
  let '(w, published) := acc in
  let o := w_Options w in
  let k := ov_Key ov in
  if String.eqb k OverrideDisabled then (w, negb (Override_Bool ov))
  else if String.eqb k OverrideHidden then
    (set_Options w (MkWLANOptions (Override_Bool ov) (o_Isolate o) (o_MaxAssoc o) (o_AllowUplink o)), published)
  else if String.eqb k OverrideIsolate then
    (set_Options w (MkWLANOptions (o_Hidden o) (Override_Bool ov) (o_MaxAssoc o) (o_AllowUplink o)), published)
  else if String.eqb k OverrideMaxAssoc then
    match Override_Int ov with
    | Some n => (set_Options w (MkWLANOptions (o_Hidden o) (o_Isolate o) n (o_AllowUplink o)), published)
    | None => (w, published)
    end
  else (w, published).

Definition Overrides_Apply (o : Overrides) (deviceID : Z) (w : WLAN) : WLAN * bool :=
  fold_left override_step (Overrides_For o deviceID (w_ID w)) (w, w_Enabled w).

(** ** The whole desired state *)

Record Site := MkSite {
  UUID : string;
  Site_Name : string;
  Networks : list Network;
  Zones : list ZonePolicy;
  Policies : list Policy;
  PolicySets : list PolicySet;
  PolicyClients : list PolicyClient;
  WLANs : list WLAN;
  Meshes : list Mesh;
  Uplinks : list Uplink;
  Groups : list APGroup;
  Site_Overrides : Overrides;
}.

Definition NetworkByID (s : Site) (id : Z) : option Network :=
  List.find (fun n => n_ID n =? id) (Networks s).
Definition GroupByID (s : Site) (id : Z) : option APGroup :=
  List.find (fun g => g_ID g =? id) (Groups s).
Definition WLANByID (s : Site) (id : Z) : option WLAN :=
  List.find (fun w => w_ID w =? id) (WLANs s).

(** The device belongs to the group [gid] names. *)
Definition in_group (s : Site) (gid deviceID : Z) : bool :=
  match GroupByID s gid with Some g => Group_Contains g deviceID | None => false end.

Definition WLANsFor (s : Site) (deviceID : Z) : list WLAN :=
  List.filter (fun w => w_Enabled w && in_group s (w_GroupID w) deviceID) (WLANs s).
Definition MeshesFor (s : Site) (deviceID : Z) : list Mesh :=
  List.filter (fun m => m_Enabled m && in_group s (m_GroupID m) deviceID) (Meshes s).
Definition UplinkFor (s : Site) (deviceID : Z) : option Uplink :=
  List.find (fun u => (u_DeviceID u =? deviceID) && u_Enabled u) (Uplinks s).

(** ** Firewall zones (zone.go) *)

Definition FirewallZoneMaxLen : Z := 11.

(** The rune loop: letters and digits stay, three separators become an
    underscore, every other rune (so every non-ASCII byte) is dropped. *)
Definition zone_char (c : ascii) : list ascii :=
  if is_lower c || is_digit c then [c]
  else if Ascii.eqb c "_" || Ascii.eqb c "-" || Ascii.eqb c " " then ["_"%char]
  else [].

Definition firewallZoneBase (name : string) : string :=
  TrimByte "_" (of_chars (flat_map zone_char (chars (ToLowerRunes (TrimSpace name))))).

Definition FirewallZoneName (name : string) : string :=
  let base := firewallZoneBase name in
  if String.eqb base "" then "net"
  else if FirewallZoneMaxLen <? len base then String.substring 0 11 base
  else base.

(** The routed networks the controller manages. *)
Definition managed (n : Network) : bool := n_Enabled n && (1 <? n_VLAN n).
Definition zone_label (n : Network) : string := if String.eqb (n_Zone n) "" then n_Name n else n_Zone n.

Definition first_byte_in (lo hi : Z) (s : string) : bool :=
  match s with String c _ => in_range lo hi c | EmptyString => false end.

(** The label a network claims, when [ActiveZoneNames] counts it. *)
Definition zone_claim (n : Network) : list string :=
  if negb (managed n) then []
  else
    let raw := zone_label n in
    let name := TrimSpace raw in
    if String.eqb name "" || negb (String.eqb name raw) then []
    else
      let base := firewallZoneBase name in
      if String.eqb base "" || negb (first_byte_in 97 122 base) then []
      else
        let id := FirewallZoneName name in
        if String.eqb id "lan" || String.eqb id "wan" then [] else [name].

(** [byID]: the distinct labels that render as [id]. *)
Definition labels_of (claims : list string) (id : string) : list string :=
  first_seen (List.filter (fun l => String.eqb (FirewallZoneName l) id) claims).

(** The range over [byID] is in map order; the result is sorted. *)
Definition ActiveZoneNames (s : Site) : list string :=
  let claims := flat_map zone_claim (Networks s) in
  sort_strings
    (flat_map (fun id => match labels_of claims id with [name] => [name] | _ => [] end)
       (first_seen (map FirewallZoneName claims))).

(** The loop of [ValidateZoneNames]; [seen] maps an identifier to the last
    label accepted for it. *)
Fixpoint zone_name_errors (seen : list (string * string)) (l : list Network) : list error :=
  match l with
  | [] => []
  | n :: l' =>
      if negb (managed n) then zone_name_errors seen l'
      else
        let raw := zone_label n in
        let name := TrimSpace raw in
        if String.eqb name "" || negb (String.eqb name raw) then
          errf ("network %q firewall zone %q must be a nonblank exact name " ++
                "without leading or trailing whitespace") [VS (n_Name n); VS raw]
          :: zone_name_errors seen l'
        else
          let base := firewallZoneBase name in
          if String.eqb base "" then
            errf "network %q has firewall zone %q, which contains no usable letters or digits"
              [VS (n_Name n); VS name] :: zone_name_errors seen l'
          else if first_byte_in 48 57 base then
            errf ("network %q has firewall zone %q, whose rendered identifier %q starts with a digit; " ++
                  "OpenWrt firewall zone identifiers must start with a letter")
              [VS (n_Name n); VS name; VS (FirewallZoneName name)] :: zone_name_errors seen l'
          else
            let id := FirewallZoneName name in
            if String.eqb id "lan" || String.eqb id "wan" then
              let detail := if String.eqb id "wan" then "device-owned, destination-only uplink zone"
                            else "device-owned zone" in
              errf ("network %q cannot use firewall zone %q: it renders as %s, the %s; " ++
                    "choose a distinct managed zone name") [VS (n_Name n); VS name; VS id; VS detail]
              :: zone_name_errors seen l'
            else
              match assoc id seen with
              | Some previous =>
                  if negb (String.eqb previous name) then
                    errf ("firewall zones %q and %q both render as %q, so OpenWrt cannot keep their " ++
                          "policies separate; choose names that differ within the first %d usable characters")
                      [VS previous; VS name; VS id; VD FirewallZoneMaxLen] :: zone_name_errors seen l'
                  else zone_name_errors (assoc_set id name seen) l'
              | None => zone_name_errors (assoc_set id name seen) l'
              end
  end.
Definition ValidateZoneNames (s : Site) : list error := zone_name_errors [] (Networks s).

Definition CanonicalZoneDestinations (l : list string) : list string := sort_strings (first_seen l).

(** [byName]: a later row for one name replaces an earlier one. *)
Definition explicit_policy (zones : list ZonePolicy) (name : string) : option ZonePolicy :=
  fold_left (fun acc p => if String.eqb (zp_Name p) name
                          then Some (MkZonePolicy (zp_Name p) (CanonicalZoneDestinations (zp_ForwardTo p)) true)
                          else acc) zones None.

Definition EffectiveZonePolicies (s : Site) : list ZonePolicy :=
  map (fun name => match explicit_policy (Zones s) name with
                   | Some p => p
                   | None => MkZonePolicy name ["wan"] false
                   end) (ActiveZoneNames s).

Definition destination_errors (active : list string) (p : ZonePolicy) (dest : string) : list error :=
  if String.eqb dest "" || negb (String.eqb dest (TrimSpace dest)) then
    [errf "zone policy %q has invalid destination %q; use an exact zone name" [VS (zp_Name p); VS dest]]
  else if String.eqb dest (zp_Name p) then [errf "zone policy %q cannot forward to itself" [VS (zp_Name p)]]
  else if String.eqb (FirewallZoneName dest) "wan" && negb (String.eqb dest "wan") then
    [errf ("zone policy %q destination %q renders as the reserved wan zone; " ++
           "use the exact destination name wan") [VS (zp_Name p); VS dest]]
  else if negb (String.eqb dest "wan") && negb (existsb (String.eqb dest) active) then
    [errf "zone policy %q forwards to %q, which is not an active managed zone or wan"
       [VS (zp_Name p); VS dest]]
  else [].

Fixpoint zone_policy_errors (active seen : list string) (l : list ZonePolicy) : list error :=
  match l with
  | [] => []
  | p :: l' =>
      let name := zp_Name p in
      if String.eqb name "" || negb (String.eqb name (TrimSpace name)) then
        errf "zone policy source %q must be a nonblank exact zone name" [VS name]
        :: zone_policy_errors active seen l'
      else if existsb (String.eqb name) seen then
        errf "zone policy source %q is defined more than once" [VS name]
        :: zone_policy_errors active seen l'
      else
        let sourceID := FirewallZoneName name in
        ((if String.eqb sourceID "lan" || String.eqb sourceID "wan" then
            [errf ("zone policy source %q renders as reserved device-owned zone %q; " ++
                   "wan is destination-only and lan is not controller-managed") [VS name; VS sourceID]]
          else if negb (existsb (String.eqb name) active) then
            [errf "zone policy source %q is not an active managed zone" [VS name]]
          else [])
         ++ flat_map (destination_errors active p) (zp_ForwardTo p)
         ++ zone_policy_errors active (name :: seen) l')%list
  end.
Definition ValidateZonePolicies (s : Site) : list error :=
  zone_policy_errors (ActiveZoneNames s) [] (Zones s).

(** ** Meshes and uplinks *)

Definition meshIDMax : Z := 32.
Definition saeKeyMin : Z := 8.

Definition Mesh_Open (m : Mesh) : bool := String.eqb (m_Key m) "".

Definition Mesh_Validate (m : Mesh) : list error :=
  let id := TrimSpace (m_MeshID m) in
  ((if String.eqb id "" then
      [errf ("mesh %d needs a mesh ID — it is what nodes " ++
             "match on to peer, and an empty one peers with nothing") [VD (m_ID m)]]
    else if meshIDMax <? len id then
      [errf ("mesh %q has an ID longer than 32 bytes; the " ++
             "driver truncates it, so two nodes differing only past the cap " ++
             "would peer when you meant two separate meshes") [VS id]]
    else []) ++
   (if negb (String.eqb (m_Key m) "") && (len (m_Key m) <? saeKeyMin) then
      [errf ("mesh %q has a passphrase shorter than 8 " ++
             "characters; hostapd refuses the interface and the radio simply " ++
             "does not come up") [VS id]]
    else []) ++
   (if negb (Band_Valid (m_Band m)) then
      [errf ("mesh %q needs a band — nodes peer only with " ++ "nodes on the same one") [VS id]]
    else []))%list.

Definition Uplink_Validate (u : Uplink) (site : Site) : list error :=
  let e0 := if u_DeviceID u =? 0 then ["a wireless uplink needs a device"] else [] in
  match WLANByID site (u_WLANID u) with
  | None => (e0 ++ [errf "wireless uplink: no such network (%d)" [VD (u_WLANID u)]])%list
  | Some w =>
      (e0 ++
       (if negb (w_Enabled w) then
          [errf "wireless uplink: %q is disabled, so there would be nothing to join" [VS (w_SSID w)]]
        else []) ++
       (if negb (o_AllowUplink (w_Options w)) then
          [errf ("wireless uplink: %q does not accept wireless bridges. Turn that on " ++
                 "for the network, or the access points will not carry the " ++
                 "4-address frames this needs and the link will never form") [VS (w_SSID w)]]
        else []) ++
       flat_map (fun g =>
         if (g_ID g =? w_GroupID w) && Group_Contains g (u_DeviceID u) then
           [errf ("wireless uplink: this device publishes %q itself, so it cannot " ++
                  "also join it — a station and an access point for one network " ++
                  "on one device is not a bridge to anywhere. Remove the device " ++
                  "from that network's AP group, or bridge it to a different " ++
                  "network") [VS (w_SSID w)]]
         else []) (Groups site) ++
       (if negb (PublishesOn w (u_Band u)) then
          [errf ("wireless uplink: %q is not published on %s, so there is nothing to " ++
                 "join on that band") [VS (w_SSID w); VS (u_Band u)]]
        else []))%list
  end.
