(* ===== verification/SitePolicy.v ===== *)
(** * Policies and the validation of a whole site (internal/model/policy.go, site.go)

    [ValidatePolicies] checks policy sets, firewall rules, port forwards,
    static routes and client policies, and rewrites the rules it checks into
    canonical form through the pointers of the site, so here it returns the
    rewritten site with its errors. [Validate] is [Site.Validate]. *)

From Stdlib Require Import ZArith Lia Ascii String.
From stdpp Require Import base gmap list strings sorting.
From S2P Require Import Prelude GoStr GoFmt NetIP SiteModel.

Local Open Scope string_scope.
Local Open Scope Z_scope.

Definition MaxPolicySetMembers : Z := 1024.
Definition MaxPolicySetMembersTotal : Z := 65536.
Definition MaxExpandedPolicySourceMACs : Z := 65536.

Definition llen {A} (l : list A) : Z := Z.of_nat (length l).

(** ** Lookups *)

Definition PolicySetByID (s : Site) (id : Z) : option PolicySet :=
  List.find (fun set => ps_ID set =? id) (PolicySets s).

(** [nil, false] is [None]. *)
Definition FirewallSourceMACs (s : Site) (rule : option FirewallRule) : option (list string) :=
  match rule with
  | None => None
  | Some r =>
      if fr_SourceSetID r =? 0 then Some (fr_SourceMACs r)
      else option_map ps_Members (PolicySetByID s (fr_SourceSetID r))
  end.

(** A map filled from the sets in order: the last set with an id wins. *)
Definition set_map (s : Site) (id : Z) : option (list string) :=
  fold_left (fun acc set => if ps_ID set =? id then Some (ps_Members set) else acc) (PolicySets s) None.

Fixpoint mac_expansion (s : Site) (total : Z) (l : list Policy) : Z * bool :=
  match l with
  | [] => (total, true)
  | p :: l' =>
      match po_Firewall p with
      | None => mac_expansion s total l'
      | Some fw =>
          let count := if 0 <? fr_SourceSetID fw
                       then llen (default [] (set_map s (fr_SourceSetID fw)))
                       else llen (fr_SourceMACs fw) in
          if MaxExpandedPolicySourceMACs - total <? count then (total, false)
          else mac_expansion s (total + count) l'
      end
  end.
Definition PolicySourceMACExpansion (s : Site) : Z * bool := mac_expansion s 0 (Policies s).

Definition HasExplicitFirewallIntent (s : Site) : bool :=
  existsb zp_Explicit (EffectiveZonePolicies s) ||
  existsb (fun p => po_Enabled p && (String.eqb (po_Kind p) PolicyFirewallRule ||
                                     String.eqb (po_Kind p) PolicyPortForward)) (Policies s) ||
  existsb pc_Blocked (PolicyClients s).

(** ** Canonical forms *)

Definition CanonicalProtocols (l : list string) : list string :=
  let seen := first_seen (List.filter (fun v => negb (String.eqb v ""))
                            (map (fun v => ToLowerRunes (TrimSpace v)) l)) in
  if existsb (String.eqb "all") seen then ["all"] else sort_strings seen.

Fixpoint parse_macs (l : list string) : res error (list string) :=
  match l with
  | [] => Ok []
  | raw :: l' =>
      match ParseMAC6 (TrimSpace raw) with
      | None => Err (errf "MAC address %q is invalid" [VS raw])
      | Some bs => let? macs := parse_macs l' in Ok (mac_String bs :: macs)
      end
  end.

Definition CanonicalMACs (l : list string) : res error (list string) :=
  let? macs := parse_macs l in Ok (sort_strings (first_seen macs)).

Definition canonicalPortRange (raw : string) : res error string :=
  let descending := errf "%q is not an ascending range inside 1-65535" [VS raw] in
  let outside := errf "%q is outside 1-65535" [VS raw] in
  match Split (TrimSpace raw) "-" with
  | p0 :: rest =>
      if (1 <? length rest)%nat then Err (errf "%q must be one port or one inclusive range" [VS raw])
      else match Atoi p0 with
           | None => Err outside
           | Some lo =>
               if (lo <? 1) || (65535 <? lo) then Err outside
               else match rest with
                    | p1 :: _ =>
                        match Atoi p1 with
                        | None => Err descending
                        | Some hi =>
                            if (hi <? lo) || (65535 <? hi) then Err descending
                            else if hi =? lo then Ok (Itoa lo)
                            else Ok (Itoa lo ++ "-" ++ Itoa hi)
                        end
                    | [] => Ok (Itoa lo)
                    end
           end
  | [] => Err (errf "%q must be one port or one inclusive range" [VS raw])
  end.

Definition parseIPv4Prefix (raw : string) : res error Prefix :=
  match ParsePrefix (TrimSpace raw) with
  | Some p => if Is4 (px_Addr p) then Ok p else Err (errf "%q is not an IPv4 CIDR" [VS raw])
  | None => Err (errf "%q is not an IPv4 CIDR" [VS raw])
  end.

(** uint32 arithmetic on the two addresses. *)
Definition u32 (z : Z) : Z := z mod 2 ^ 32.

Definition usableHost (prefix : Prefix) (addr : Addr) : bool :=
  if negb (Contains_ prefix addr) || negb (Is4 addr) || (30 <? px_Bits prefix) then false
  else
    let offset := u32 (addr_value addr - addr_value (px_Addr (Masked prefix))) in
    let last := u32 (u32 (Z.shiftl 1 (32 - px_Bits prefix)) - 1) in
    (0 <? offset) && (offset <? last).

Definition networksContaining (s : Site) (addr : Addr) : list Network :=
  List.filter (fun n => managed n &&
    match ParsePrefix (n_CIDR n) with Some p => Contains_ p addr | None => false end) (Networks s).

Definition stringIn (values : list string) (want : string) : bool := existsb (fun v => String.eqb v want) values.
Definition containsProtocol (l : list string) (want : string) : bool := existsb (fun v => String.eqb v want) l.

Definition protocolListsOverlap (a b : list string) : bool :=
  existsb (fun av => existsb (fun bv => String.eqb av "all" || String.eqb bv "all" || String.eqb av bv) b) a.

Definition canonicalPortContains (raw : string) (port : Z) : bool :=
  let parts := Split raw "-" in
  match Atoi (nth 0 parts "") with
  | None => true
  | Some lo =>
      match parts with
      | [_; p1] => match Atoi p1 with
                   | None => true
                   | Some hi => (lo <=? port) && (port <=? hi)
                   end
      | _ => (lo <=? port) && (port <=? lo)
      end
  end.

(** ** Two policies together *)

Definition policyDenialOverlapsForward (deny forward : Policy) : bool :=
  match po_Firewall deny, po_PortForward forward with
  | Some rule, Some redirect =>
      if negb (String.eqb (po_Kind deny) PolicyFirewallRule) ||
         negb (String.eqb (po_Kind forward) PolicyPortForward) then false
      else if String.eqb (fr_Action rule) FirewallAccept ||
              negb (String.eqb (fr_SourceZone rule) "wan") ||
              negb (String.eqb (fr_DestinationZone rule) (pf_DestinationZone redirect)) ||
              negb (protocolListsOverlap (fr_Protocols rule) (pf_Protocols redirect)) then false
      else if negb (String.eqb (fr_SourceCIDR rule) "") && negb (String.eqb (pf_SourceCIDR redirect) "") &&
              match ParsePrefix (fr_SourceCIDR rule), ParsePrefix (pf_SourceCIDR redirect) with
              | Some a, Some b => negb (Overlaps a b)
              | _, _ => false
              end then false
      else if negb (String.eqb (fr_DestinationCIDR rule) "") &&
              match ParsePrefix (fr_DestinationCIDR rule), ParseAddr (pf_DestinationIP redirect) with
              | Some p, Some a => negb (Contains_ p a)
              | _, _ => false
              end then false
      else String.eqb (fr_DestinationPort rule) "" ||
           canonicalPortContains (fr_DestinationPort rule) (pf_DestinationPort redirect)
  | _, _ => false
  end.

Definition validatePolicyPair (a b : Policy) : list error :=
  if negb (po_Enabled a) || negb (po_Enabled b) then []
  else if
    String.eqb (po_Kind a) PolicyFirewallRule && String.eqb (po_Kind b) PolicyFirewallRule &&
    match po_Firewall a, po_Firewall b with
    | Some fa, Some fb => String.eqb (fr_SourceZone fa) (fr_SourceZone fb) &&
                          String.eqb (fr_DestinationZone fa) (fr_DestinationZone fb) &&
                          negb (String.eqb (fr_Action fa) (fr_Action fb))
    | _, _ => false
    end
  then [errf ("policies %q and %q have opposing actions in the same zone scope; " ++
              "managed rule order is deliberately not inferred from UCI section names")
          [VS (po_Name a); VS (po_Name b)]]
  else
    let forwards :=
      match po_PortForward a, po_PortForward b with
      | Some fa, Some fb =>
          if String.eqb (po_Kind a) PolicyPortForward && String.eqb (po_Kind b) PolicyPortForward &&
             (pf_ExternalPort fa =? pf_ExternalPort fb) &&
             protocolListsOverlap (pf_Protocols fa) (pf_Protocols fb)
          then Some (pf_ExternalPort fa) else None
      | _, _ => None
      end in
    match forwards with
    | Some port => [errf "port forwards %q and %q both claim overlapping protocols on WAN port %d"
                      [VS (po_Name a); VS (po_Name b); VD port]]
    | None =>
        if policyDenialOverlapsForward a b || policyDenialOverlapsForward b a then
          [errf ("policies %q and %q overlap after DNAT; a managed WAN denial would run before " ++
                 "firewall4's port-forward acceptance, so display order cannot make both intents true")
             [VS (po_Name a); VS (po_Name b)]]
        else []
    end.

(** The double loop over [i < j]. *)
Definition policy_pairs (l : list Policy) : list error := pairs validatePolicyPair l.

(** ** One rule: its canonical form and its errors *)

Definition set_fr (r : FirewallRule) (protocols : list string) (scidr dcidr sport dport : string)
  (macs : list string) : FirewallRule :=
  MkFirewallRule (fr_Action r) (fr_SourceZone r) (fr_DestinationZone r) protocols scidr dcidr sport dport
    (fr_SourceSetID r) macs.

(** The body of the range over the two CIDR texts (and below, over the two
    port texts): the field's canonical form, and its error. The code ranges
    over a two-entry map literal, whose order is unspecified: the two bodies
    touch different fields and each adds at most one error, so the order can
    only exchange two messages; here the source comes first. *)
Definition canon_cidr (name label raw : string) : string * list error :=
  if String.eqb raw "" then (raw, [])
  else match parseIPv4Prefix raw with
       | Err e => (raw, [errf "policy %q %s CIDR: %v" [VS name; VS label; VS e]])
       | Ok p => (prefix_String (Masked p), [])
       end.

Definition canon_port (name label raw : string) : string * list error :=
  if String.eqb raw "" then (raw, [])
  else match canonicalPortRange raw with
       | Err e => (raw, [errf "policy %q %s port: %v" [VS name; VS label; VS e]])
       | Ok c => (c, [])
       end.

(** [zones] is the domain of the [activeZones] map. *)
Definition validateFirewallRule (name : string) (rule : FirewallRule) (zones : list string)
  : FirewallRule * list error :=
  let active z := existsb (String.eqb z) zones in
  let protocols := match CanonicalProtocols (fr_Protocols rule) with [] => ["all"] | ps => ps end in
  let '(scidr, e_scidr) := canon_cidr name "source" (fr_SourceCIDR rule) in
  let '(dcidr, e_dcidr) := canon_cidr name "destination" (fr_DestinationCIDR rule) in
  let '(sport, e_sport) := canon_port name "source" (fr_SourcePort rule) in
  let '(dport, e_dport) := canon_port name "destination" (fr_DestinationPort rule) in
  let '(macs, e_macs) := match CanonicalMACs (fr_SourceMACs rule) with
                         | Err e => (fr_SourceMACs rule, [errf "policy %q: %v" [VS name; VS e]])
                         | Ok macs => (macs, [])
                         end in
  (set_fr rule protocols scidr dcidr sport dport macs,
   (if negb (active (fr_SourceZone rule)) then
      [errf "policy %q source zone %q is not active or wan" [VS name; VS (fr_SourceZone rule)]] else []) ++
   (if negb (String.eqb (fr_DestinationZone rule) "") && negb (active (fr_DestinationZone rule)) then
      [errf "policy %q destination zone %q is not active or wan" [VS name; VS (fr_DestinationZone rule)]]
    else []) ++
   (if negb (String.eqb (fr_DestinationZone rule) "") &&
       String.eqb (fr_SourceZone rule) (fr_DestinationZone rule) then
      [errf "policy %q cannot use the same source and destination zone" [VS name]] else []) ++
   (if negb (String.eqb (fr_Action rule) FirewallAccept) && negb (String.eqb (fr_Action rule) FirewallDrop) &&
       negb (String.eqb (fr_Action rule) FirewallReject) then
      [errf "policy %q firewall action %q must be accept, drop or reject" [VS name; VS (fr_Action rule)]]
    else []) ++
   flat_map (fun protocol =>
     if negb (existsb (String.eqb protocol) ["all"; "tcp"; "udp"; "icmp"]) then
       [errf "policy %q protocol %q is unsupported" [VS name; VS protocol]] else []) protocols ++
   e_scidr ++ e_dcidr ++ e_sport ++ e_dport ++
   (if (negb (String.eqb sport "") || negb (String.eqb dport "")) &&
       negb (containsProtocol protocols "tcp") && negb (containsProtocol protocols "udp") then
      [errf "policy %q uses ports without tcp or udp" [VS name]] else []) ++
   e_macs)%list.

(** A network of the destination zone that can hold the address. *)
Definition forward_target (s : Site) (zone : string) (addr : Addr) : bool :=
  existsb (fun n =>
    match ParsePrefix (n_CIDR n) with
    | Some p => managed n && String.eqb (zone_label n) zone && Contains_ p addr &&
                negb (bool_decide (addr = px_Addr p)) && usableHost p addr
    | None => false
    end) (Networks s).

Definition validatePortForward (s : Site) (name : string) (rule : PortForward) (zones : list string)
  : PortForward * list error :=
  let active z := existsb (String.eqb z) zones in
  let protocols := CanonicalProtocols (pf_Protocols rule) in
  let addr := ParseAddr (TrimSpace (pf_DestinationIP rule)) in
  let '(scidr, e_scidr) := canon_cidr name "source" (pf_SourceCIDR rule) in
  let ip := match addr with Some a => addr_String a | None => pf_DestinationIP rule end in
  (MkPortForward (pf_SourceZone rule) (pf_DestinationZone rule) protocols (pf_ExternalPort rule) ip
     (pf_DestinationPort rule) scidr,
   (if negb (String.eqb (pf_SourceZone rule) "wan") then
      [errf "policy %q port forward source must be wan" [VS name]] else []) ++
   (if String.eqb (pf_DestinationZone rule) "wan" || negb (active (pf_DestinationZone rule)) then
      [errf "policy %q port forward destination zone %q is not an active managed zone"
         [VS name; VS (pf_DestinationZone rule)]] else []) ++
   (match protocols with [] => [errf "policy %q port forward needs tcp and/or udp" [VS name]] | _ => [] end) ++
   flat_map (fun protocol =>
     if negb (String.eqb protocol "tcp") && negb (String.eqb protocol "udp") then
       [errf "policy %q port forward protocol %q must be tcp or udp" [VS name; VS protocol]] else []) protocols ++
   (if (pf_ExternalPort rule <? 1) || (65535 <? pf_ExternalPort rule) ||
       (pf_DestinationPort rule <? 1) || (65535 <? pf_DestinationPort rule) then
      [errf "policy %q port-forward ports must be between 1 and 65535" [VS name]] else []) ++
   (match addr with
    | Some (A4 v) =>
        if negb (forward_target s (pf_DestinationZone rule) (A4 v)) then
          [errf "policy %q destination IP %s is not in destination zone %q"
             [VS name; VS (addr_String (A4 v)); VS (pf_DestinationZone rule)]] else []
    | _ => [errf "policy %q destination IP %q is not IPv4" [VS name; VS (pf_DestinationIP rule)]]
    end) ++
   e_scidr)%list.

(** The networks a route's target collides with. *)
Definition route_overlaps (s : Site) (name : string) (target : Prefix) : list error :=
  flat_map (fun n =>
    match ParsePrefix (n_CIDR n) with
    | Some p =>
        if managed n && Overlaps (Masked p) target then
          [errf "policy %q route target %s overlaps connected managed network %q (%s)"
             [VS name; VS (prefix_String target); VS (n_Name n); VS (prefix_String (Masked p))]]
        else []
    | None => []
    end) (Networks s).

Definition validateStaticRoute (s : Site) (name : string) (route : StaticRoute) : StaticRoute * list error :=
  let target := match parseIPv4Prefix (sr_Target route) with Ok p => Some p | Err _ => None end in
  let gateway := ParseAddr (TrimSpace (sr_Gateway route)) in
  (MkStaticRoute (sr_NetworkID route)
     (match target with Some t => prefix_String (Masked t) | None => sr_Target route end)
     (match gateway with Some g => addr_String g | None => sr_Gateway route end)
     (sr_Metric route),
   (if match target with
       | Some t => (px_Bits t <? 8) || negb (bool_decide (t = Masked t))
       | None => true
       end then
      [errf "policy %q route target %q must be a canonical IPv4 network of /8 or longer"
         [VS name; VS (sr_Target route)]] else []) ++
   (if match gateway with Some g => negb (Is4 g) | None => true end then
      [errf "policy %q route gateway %q is not IPv4" [VS name; VS (sr_Gateway route)]] else []) ++
   (if (sr_Metric route <? 0) || (65535 <? sr_Metric route) then
      [errf "policy %q route metric must be between 0 and 65535" [VS name]] else []) ++
   (if sr_NetworkID route <? 0 then [errf "policy %q route network_id cannot be negative" [VS name]]
    else if 0 <? sr_NetworkID route then
      match NetworkByID s (sr_NetworkID route) with
      | None => [errf "policy %q route network %d is not an active managed network"
                   [VS name; VD (sr_NetworkID route)]]
      | Some n =>
          if negb (managed n) then
            [errf "policy %q route network %d is not an active managed network"
               [VS name; VD (sr_NetworkID route)]]
          else match gateway with
               | None => []
               | Some g =>
                   if match ParsePrefix (n_CIDR n) with
                      | Some p => negb (Contains_ p g) || negb (usableHost p g)
                      | None => true
                      end then
                     [errf "policy %q route gateway %s is not a usable host in network %q"
                        [VS name; VS (addr_String g); VS (n_Name n)]] else []
               end
      end
    else []) ++
   (match target with Some t => route_overlaps s name t | None => [] end))%list.

(** ** Policy sets *)

Definition bad_name (s : string) : bool :=
  String.eqb (TrimSpace s) "" || negb (String.eqb s (TrimSpace s)) || (128 <? len s).

Record set_scan := MkScan {
  sc_ids : list Z;
  sc_names : list (string * string);
  sc_total : Z;
  sc_over : bool;
}.

(** One iteration of the loop of [validatePolicySets]: the set with its
    members in canonical form, its errors, and the loop's variables. *)
Definition validate_set (sc : set_scan) (set : PolicySet) : PolicySet * list error * set_scan :=
  let folded := ToLowerRunes (ps_Name set) in
  let previous := default "" (assoc folded (sc_names sc)) in
  let errs :=
    ((if ps_ID set <=? 0 then [errf "policy set %q has an invalid id" [VS (ps_Name set)]] else []) ++
     (if existsb (Z.eqb (ps_ID set)) (sc_ids sc) then
        [errf "policy set id %d is defined more than once" [VD (ps_ID set)]] else []) ++
     (if bad_name (ps_Name set) || has_control (chars (ps_Name set)) then
        [errf "policy set %d needs an exact nonblank name of at most 128 bytes without control characters"
           [VD (ps_ID set)]] else []) ++
     (if negb (String.eqb previous "") then
        [errf "policy sets %q and %q have the same case-insensitive name" [VS previous; VS (ps_Name set)]]
      else []))%list in
  let ids := ps_ID set :: sc_ids sc in
  let names := assoc_set folded (ps_Name set) (sc_names sc) in
  match CanonicalMACs (ps_Members set) with
  | Err e => (set, (errs ++ [errf "policy set %q: %v" [VS (ps_Name set); VS e]])%list,
              MkScan ids names (sc_total sc) (sc_over sc))
  | Ok members =>
      let n := llen members in
      let over := MaxPolicySetMembersTotal - sc_total sc <? n in
      (MkPolicySet (ps_ID set) (ps_Name set) members,
       (errs ++
        (if n =? 0 then [errf "policy set %q needs at least one member" [VS (ps_Name set)]]
         else if MaxPolicySetMembers <? n then
           [errf "policy set %q has %d members; maximum is %d"
              [VS (ps_Name set); VD n; VD MaxPolicySetMembers]]
         else []))%list,
       MkScan ids names (if over then sc_total sc else sc_total sc + n) (sc_over sc || over))
  end.

Fixpoint validate_sets (sc : set_scan) (l : list PolicySet) : list PolicySet * list error * bool :=
  match l with
  | [] => ([], [], sc_over sc)
  | set :: l' =>
      let '(set', errs, sc') := validate_set sc set in
      let '(l'', errs', over) := validate_sets sc' l' in
      (set' :: l'', (errs ++ errs')%list, over)
  end.

Definition validatePolicySets (sets : list PolicySet) : list PolicySet * list error :=
  let '(sets', errs, over) := validate_sets (MkScan [] [] 0 false) sets in
  (sets',
   (errs ++ (if over then
               [errf "policy sets contain more than the site maximum of %d stored members"
                  [VD MaxPolicySetMembersTotal]] else []))%list).

(** ** Client policies *)

Definition canon_mac (raw : string) : res error string :=
  let? macs := CanonicalMACs [raw] in Ok (nth 0 macs "").

Definition fixed_ip_errors (s : Site) (seenIP : list (string * string)) (mac : string) (c : PolicyClient)
  : list error * list (string * string) :=
  if String.eqb (pc_FixedIP c) "" then ([], seenIP)
  else match ParseAddr (TrimSpace (pc_FixedIP c)) with
       | Some (A4 v) =>
           let a := A4 v in
           match networksContaining s a with
           | [n] =>
               let previous := default "" (assoc (addr_String a) seenIP) in
               let usable := match ParsePrefix (n_CIDR n) with
                             | Some p => negb (bool_decide (a = px_Addr p)) && usableHost p a
                             | None => false
                             end in
               (((if negb (d_Enabled (EffectiveDHCP n)) then
                    [errf "client %s fixed IP %s belongs to network %q, whose DHCP server is disabled"
                       [VS mac; VS (addr_String a); VS (n_Name n)]] else []) ++
                 (if negb usable then
                    [errf "client %s fixed IP %s is not a usable host in network %q"
                       [VS mac; VS (addr_String a); VS (n_Name n)]] else []) ++
                 (if negb (String.eqb previous "") && negb (String.eqb previous mac) then
                    [errf "fixed IP %s is assigned to both %s and %s"
                       [VS (addr_String a); VS previous; VS mac]] else []))%list,
                assoc_set (addr_String a) mac seenIP)
           | _ => ([errf "client %s fixed IP %s must belong to exactly one active managed network"
                      [VS mac; VS (addr_String a)]], seenIP)
           end
       | _ => ([errf "client %s fixed IP %q is not IPv4" [VS mac; VS (pc_FixedIP c)]], seenIP)
       end.

Fixpoint client_errors (s : Site) (seenMAC : list string) (seenIP : list (string * string))
  (l : list PolicyClient) : list error :=
  match l with
  | [] => []
  | c :: l' =>
      match canon_mac (pc_MAC c) with
      | Err e => errf "client policy: %v" [VS e] :: client_errors s seenMAC seenIP l'
      | Ok mac =>
          let '(ip_errs, seenIP') := fixed_ip_errors s seenIP mac c in
          ((if existsb (String.eqb mac) seenMAC then
              [errf "client policy for %s is defined more than once" [VS mac]] else []) ++
           (if negb (String.eqb (pc_Group c) "") &&
               (negb (String.eqb (pc_Group c) (TrimSpace (pc_Group c))) || (128 <? len (pc_Group c)) ||
                has_control (chars (pc_Group c))) then
              [errf ("client %s group must be a trimmed value of at most 128 bytes " ++
                     "without control characters") [VS mac]] else []) ++
           ip_errs ++ client_errors s (mac :: seenMAC) seenIP' l')%list
      end
  end.

Definition blocked_macs (l : list PolicyClient) : list string :=
  flat_map (fun c => if pc_Blocked c then match canon_mac (pc_MAC c) with Ok m => [m] | Err _ => [] end
                     else []) l.

(** [firstBlocked]: the least blocked address. *)
Definition first_blocked (blocked : list string) : string := nth 0 (sort_strings blocked) "".

(** An accept rule that can carry a blocked client's traffic. *)
Definition blocked_errors (setMembers : Z -> option (list string)) (zones blocked : list string)
  (p : Policy) : list error :=
  match po_Firewall p with
  | None => []
  | Some fw =>
      if bool_decide (blocked = []) || negb (po_Enabled p) ||
         negb (String.eqb (po_Kind p) PolicyFirewallRule) ||
         negb (String.eqb (fr_Action fw) FirewallAccept) || String.eqb (fr_DestinationZone fw) "" ||
         String.eqb (fr_SourceZone fw) "wan" || negb (existsb (String.eqb (fr_SourceZone fw)) zones)
      then []
      else
        let sourceMACs := if 0 <? fr_SourceSetID fw then setMembers (fr_SourceSetID fw)
                          else Some (fr_SourceMACs fw) in
        let overlap := match sourceMACs with
                       | Some (m :: ms) =>
                           default "" (List.find (fun mac => existsb (String.eqb mac) blocked) (m :: ms))
                       | _ => first_blocked blocked
                       end in
        if negb (bool_decide (is_Some sourceMACs)) || negb (String.eqb overlap "") then
          [errf ("policy %q can accept forwarded traffic for blocked client %s; " ++
                 "managed rule order is deliberately not inferred from UCI section names")
             [VS (po_Name p); VS overlap]]
        else []
  end.

(** ** All policies *)

Definition set_payload (p : Policy) (fw : option FirewallRule) (pf : option PortForward)
  (sr : option StaticRoute) : Policy :=
  MkPolicy (po_ID p) (po_Order p) (po_Name p) (po_Kind p) (po_Origin p) (po_Enabled p) fw pf sr.

Definition present {A} (o : option A) : Z := match o with Some _ => 1 | None => 0 end.

Definition set_ref_errors (s : Site) (name : string) (fw : FirewallRule) : list error :=
  if fr_SourceSetID fw <? 0 then [errf "policy %q source_set_id cannot be negative" [VS name]]
  else if 0 <? fr_SourceSetID fw then
    ((if 0 <? llen (fr_SourceMACs fw) then
        [errf "policy %q cannot combine source_set_id with source_macs" [VS name]] else []) ++
     (match PolicySetByID s (fr_SourceSetID fw) with
      | Some _ => []
      | None => [errf "policy %q references unknown policy set %d" [VS name; VD (fr_SourceSetID fw)]]
      end))%list
  else [].

(** The payload of a policy, by kind. *)
Definition validate_payload (s : Site) (zones : list string) (p : Policy) : Policy * list error :=
  let name := po_Name p in
  if negb (present (po_Firewall p) + present (po_PortForward p) + present (po_StaticRoute p) =? 1) then
    (p, [errf "policy %q must contain exactly one rule payload" [VS name]])
  else if String.eqb (po_Kind p) PolicyFirewallRule then
    match po_Firewall p with
    | None => (p, [errf "policy %q kind firewall_rule requires firewall" [VS name]])
    | Some fw =>
        let '(fw', errs) := validateFirewallRule name fw zones in
        (set_payload p (Some fw') (po_PortForward p) (po_StaticRoute p),
         (errs ++ set_ref_errors s name fw')%list)
    end
  else if String.eqb (po_Kind p) PolicyPortForward then
    match po_PortForward p with
    | None => (p, [errf "policy %q kind port_forward requires port_forward" [VS name]])
    | Some pf =>
        let '(pf', errs) := validatePortForward s name pf zones in
        (set_payload p (po_Firewall p) (Some pf') (po_StaticRoute p), errs)
    end
  else if String.eqb (po_Kind p) PolicyStaticRoute then
    match po_StaticRoute p with
    | None => (p, [errf "policy %q kind static_route requires static_route" [VS name]])
    | Some sr =>
        let '(sr', errs) := validateStaticRoute s name sr in
        (set_payload p (po_Firewall p) (po_PortForward p) (Some sr'), errs)
    end
  else (p, [errf "policy %q has unknown kind %q" [VS name; VS (po_Kind p)]]).

(** One iteration over the policies. *)
Definition validate_policy (s : Site) (zones : list string) (seenIDs : list Z) (p : Policy)
  : Policy * list error * list Z :=
  let '(p', errs) := validate_payload s zones p in
  (p',
   ((if (po_ID p <? 0) || (po_Order p <? 0) then
       [errf "policy %q has an invalid id or order" [VS (po_Name p)]] else []) ++
    (if (0 <? po_ID p) && existsb (Z.eqb (po_ID p)) seenIDs then
       [errf "policy id %d is defined more than once" [VD (po_ID p)]] else []) ++
    (if bad_name (po_Name p) then
       [errf "policy %d needs an exact nonblank name of at most 128 bytes" [VD (po_ID p)]] else []) ++
    (if negb (String.eqb (po_Origin p) PolicyOriginManual) &&
        negb (String.eqb (po_Origin p) PolicyOriginObjectManager) then
       [errf "policy %q has unknown origin %q" [VS (po_Name p); VS (po_Origin p)]] else []) ++
    errs)%list,
   if 0 <? po_ID p then po_ID p :: seenIDs else seenIDs).

Fixpoint validate_policies (s : Site) (zones : list string) (seenIDs : list Z) (l : list Policy)
  : list Policy * list error :=
  match l with
  | [] => ([], [])
  | p :: l' =>
      let '(p', errs, seenIDs') := validate_policy s zones seenIDs p in
      let '(l'', errs') := validate_policies s zones seenIDs' l' in
      (p' :: l'', (errs ++ errs')%list)
  end.

Definition set_Policies (s : Site) (policies : list Policy) (sets : list PolicySet) : Site :=
  MkSite (UUID s) (Site_Name s) (Networks s) (Zones s) policies sets (PolicyClients s) (WLANs s)
    (Meshes s) (Uplinks s) (Groups s) (Site_Overrides s).

Definition expansion_error : error :=
  errf "policy source MAC expansion exceeds the site maximum of %d entries" [VD MaxExpandedPolicySourceMACs].

(** [ValidatePolicies]: the site as its pointers leave it, and the errors. *)
Definition ValidatePolicies (s : Site) : Site * list error :=
  let '(sets, set_errs) := validatePolicySets (PolicySets s) in
  let s1 := set_Policies s (Policies s) sets in
  let zones := "wan" :: ActiveZoneNames s in
  let '(policies, policy_errs) := validate_policies s1 zones [] (Policies s1) in
  let s2 := set_Policies s policies sets in
  let blocked := blocked_macs (PolicyClients s) in
  (s2,
   (set_errs ++
    (if snd (PolicySourceMACExpansion s1) then [] else [expansion_error]) ++
    policy_errs ++
    policy_pairs policies ++
    client_errors s2 [] [] (PolicyClients s) ++
    flat_map (blocked_errors (set_map s1) zones blocked) policies)%list).

(** ** The site as a whole *)

Record routedSubnet := MkRouted { rs_name : string; rs_prefix : Prefix }.

(** The [sort.Slice] comparison: address, length, then name. *)
Definition routed_ltb (a b : routedSubnet) : bool :=
  let aa := px_Addr (rs_prefix a) in
  let ba := px_Addr (rs_prefix b) in
  if negb (bool_decide (aa = ba)) then addr_ltb aa ba
  else if negb (px_Bits (rs_prefix a) =? px_Bits (rs_prefix b)) then
    px_Bits (rs_prefix a) <? px_Bits (rs_prefix b)
  else negb (String.leb (rs_name b) (rs_name a)).

Definition routed_le (a b : routedSubnet) : Prop := routed_ltb b a = false.
#[export] Instance routed_le_dec a b : Decision (routed_le a b).
Proof. unfold routed_le. apply _. Defined.

Definition subnet_overlap (a b : routedSubnet) : list error :=
  if negb (Contains_ (rs_prefix a) (px_Addr (rs_prefix b))) &&
     negb (Contains_ (rs_prefix b) (px_Addr (rs_prefix a))) then []
  else [errf "networks %q (%s) and %q (%s) overlap; give each active routed VLAN a distinct IPv4 subnet"
          [VS (rs_name a); VS (prefix_String (rs_prefix a));
           VS (rs_name b); VS (prefix_String (rs_prefix b))]].

Definition subnet_pairs (l : list routedSubnet) : list error := pairs subnet_overlap l.

Definition dhcp_error (n : Network) (e : error) : error :=
  if n_LegacyDHCPDefaults n then
    errf ("network %q still inherits the legacy DHCP defaults " ++
          "(pool offsets 100–249, lease 12h), which are unsafe for %s: %v. " ++
          "Open Networks → %s and either customize Pool start and Pool limit, " ++
          "or turn DHCP server off, then Save. Applying is blocked until one is " ++
          "chosen; no device was changed")
      [VS (n_Name n); VS (n_CIDR n); VS e; VS (n_Name n)]
  else errf "network %q: %v" [VS (n_Name n); VS e].

(** The subnet a network routes, and what is wrong with its addressing. *)
Definition network_addressing (n : Network) : list error * list routedSubnet :=
  if negb (managed n) then ([], [])
  else match validateNetworkCIDR (n_CIDR n) with
       | Err e => ([errf "network %q: %v" [VS (n_Name n); VS e]], [])
       | Ok prefix =>
           (match DHCP_Validate (EffectiveDHCP n) (n_CIDR n) with
            | Some e => [dhcp_error n e]
            | None => []
            end, [MkRouted (n_Name n) (Masked prefix)])
       end.

Fixpoint network_errors (seenVLAN : list (Z * string)) (l : list Network) : list error :=
  match l with
  | [] => []
  | n :: l' =>
      ((match List.find (fun e => fst e =? n_VLAN n) seenVLAN with
        | Some (_, prev) => [errf "VLAN %d is used by both %q and %q" [VD (n_VLAN n); VS prev; VS (n_Name n)]]
        | None => []
        end) ++
       (match IPv6_Validate (EffectiveIPv6 n) with
        | Some e => [errf "network %q: %v" [VS (n_Name n); VS e]]
        | None => []
        end) ++
       fst (network_addressing n) ++
       network_errors ((n_VLAN n, n_Name n) :: seenVLAN) l')%list
  end.

Definition routed_subnets (s : Site) : list routedSubnet :=
  flat_map (fun n => snd (network_addressing n)) (Networks s).

Definition wlan_errors (s : Site) (w : WLAN) : list error :=
  ((if String.eqb (TrimSpace (w_SSID w)) "" then [errf "WLAN %d has no SSID" [VD (w_ID w)]] else []) ++
   (match NetworkByID s (w_NetworkID w) with
    | Some _ => []
    | None => [errf "WLAN %q references unknown network %d" [VS (w_SSID w); VD (w_NetworkID w)]]
    end) ++
   (match GroupByID s (w_GroupID w) with
    | Some _ => []
    | None => [errf "WLAN %q references unknown AP group %d" [VS (w_SSID w); VD (w_GroupID w)]]
    end) ++
   (match w_Bands w with [] => [errf "WLAN %q selects no bands" [VS (w_SSID w)]] | _ => [] end) ++
   (if NeedsKey (s_Mode (w_Security w)) && String.eqb (s_Key (w_Security w)) "" then
      [errf "WLAN %q uses %s but has no key" [VS (w_SSID w); VS (s_Mode (w_Security w))]] else []))%list.

Definition mesh_errors (s : Site) (m : Mesh) : list error :=
  (Mesh_Validate m ++
   (match NetworkByID s (m_NetworkID m) with
    | Some _ => []
    | None => [errf "mesh %q references unknown network %d" [VS (m_MeshID m); VD (m_NetworkID m)]]
    end) ++
   (match GroupByID s (m_GroupID m) with
    | Some _ => []
    | None => [errf "mesh %q references unknown AP group %d" [VS (m_MeshID m); VD (m_GroupID m)]]
    end))%list.

Definition mesh_key (m : Mesh) : string := ToLowerRunes (TrimSpace (m_MeshID m)) ++ "/" ++ m_Band m.

Fixpoint mesh_duplicates (seen : list string) (l : list Mesh) : list error :=
  match l with
  | [] => []
  | m :: l' =>
      ((if existsb (String.eqb (mesh_key m)) seen then
          [errf ("mesh %q is defined twice on %s; nodes peer " ++
                 "on the mesh ID, so these are one mesh with two conflicting " ++
                 "configurations") [VS (m_MeshID m); VS (m_Band m)]]
        else []) ++ mesh_duplicates (mesh_key m :: seen) l')%list
  end.

(** [Site.Validate]: the site left by the canonicalization, and the errors. *)
Definition Validate (s : Site) : Site * list error :=
  let '(s', policy_errs) := ValidatePolicies s in
  (s',
   ((if String.eqb (TrimSpace (UUID s)) "" then
       [("site UUID is required: it seeds the " ++
         "mobility-domain derivation that keeps roaming consistent across APs")%string] else []) ++
    ValidateZoneNames s ++
    network_errors [] (Networks s) ++
    subnet_pairs (merge_sort routed_le (routed_subnets s)) ++
    ValidateZonePolicies s ++
    policy_errs ++
    flat_map (wlan_errors s) (WLANs s) ++
    flat_map (mesh_errors s) (Meshes s) ++
    flat_map (fun u => if u_Enabled u then Uplink_Validate u s' else []) (Uplinks s) ++
    mesh_duplicates [] (Meshes s))%list).
