(* ===== verification/SiteModelSpec.v ===== *)
(** * What the site model guarantees, part 1: vocabularies and overrides

    The closed vocabularies are canonical and survive a round trip through
    their stored form, malformed input fails closed, and an override can move
    presentation and capacity of a WLAN on one device but never its identity,
    security or roaming. *)

From Stdlib Require Import ZArith Lia Ascii String Sorted.
From stdpp Require Import base gmap list strings sorting.
From S2P Require Import Prelude GoStr GoFmt NetIP SiteModel.

Local Open Scope string_scope.
Local Open Scope Z_scope.

(** ** Device functions *)

(** A function set as the code stores it: the members of [f] among the three
    choices, in their order. *)
Definition canonical_functions (f : list string) : Prop :=
  f = List.filter (fun fn => existsb (String.eqb fn) f) DeviceFunctionChoices.

Lemma existsb_eqb_In x l : existsb (String.eqb x) l = true <-> x ∈ l.
Proof.
  rewrite existsb_true_iff. split.
  - intros (y & Hy & E). bool_prop. by subst.
  - intros Hx. exists x. by rewrite String.eqb_refl.
Qed.

Lemma existsb_eqb_spec x l : existsb (String.eqb x) l = bool_decide (x ∈ l).
Proof.
  destruct (existsb (String.eqb x) l) eqn:E; symmetry.
  - by apply bool_decide_eq_true, existsb_eqb_In.
  - apply bool_decide_eq_false. rewrite <- existsb_eqb_In. congruence.
Qed.

(** The eight subsets of the choices are the only canonical sets. *)
Lemma canonical_cases f : canonical_functions f -> f ∈
  [[]; [FunctionGateway]; [FunctionAP]; [FunctionSwitch]; [FunctionGateway; FunctionAP];
   [FunctionGateway; FunctionSwitch]; [FunctionAP; FunctionSwitch]; DeviceFunctionChoices].
Proof.
  unfold canonical_functions, DeviceFunctionChoices. intros Hf. rewrite Hf. cbn [List.filter].
  destruct (existsb (String.eqb FunctionGateway) f), (existsb (String.eqb FunctionAP) f),
    (existsb (String.eqb FunctionSwitch) f); rewrite ?elem_of_cons; naive_solver.
Qed.

Lemma parse_functions_ok l out : parse_functions l = Ok out ->
  out = map (fun raw => ToLowerRunes (TrimSpace raw)) l /\
  Forall (fun fn => fn ∈ DeviceFunctionChoices) out.
Proof.
  revert out. induction l as [|raw l IH]; intros out H; cbn [parse_functions] in H; simplify_eq; [done|].
  case_hyp H; [|done]. case_hyp H; simplify_eq. destruct (IH _ eq_refl) as [-> Hall].
  split; [done|]. constructor; [|done]. by apply existsb_eqb_In.
Qed.

Lemma filter_choices_canonical (P : string -> bool) :
  canonical_functions (List.filter P DeviceFunctionChoices).
Proof.
  unfold canonical_functions, DeviceFunctionChoices. cbn [List.filter].
  destruct (P FunctionGateway), (P FunctionAP), (P FunctionSwitch); reflexivity.
Qed.

Lemma ParseDeviceFunctions_some l role out : ParseDeviceFunctions (Some l) role = Ok out ->
  canonical_functions out /\ out <> [] /\
  forall fn, fn ∈ out <-> exists raw, raw ∈ l /\ fn = ToLowerRunes (TrimSpace raw).
Proof.
  unfold ParseDeviceFunctions. intros H. destruct l as [|r0 l]; [done|].
  destruct (parse_functions (r0 :: l)) as [seen|e] eqn:E; [|done].
  assert (out = List.filter (fun fn => existsb (String.eqb fn) seen) DeviceFunctionChoices) as ->
    by congruence.
  destruct (parse_functions_ok _ _ E) as [Hmap Hall].
  assert (Hmem : forall fn, fn ∈ List.filter (fun fn => existsb (String.eqb fn) seen) DeviceFunctionChoices
                   <-> exists raw, raw ∈ r0 :: l /\ fn = ToLowerRunes (TrimSpace raw)).
  { intros fn. rewrite list_elem_of_In, filter_In, <- list_elem_of_In, existsb_eqb_In. split.
    - intros [_ Hin]. rewrite Hmap in Hin. apply list_elem_of_fmap in Hin as (raw & -> & Hr). eauto.
    - intros (raw & Hr & ->).
      assert (Hin : ToLowerRunes (TrimSpace raw) ∈ seen).
      { rewrite Hmap. apply list_elem_of_fmap. eauto. }
      split; [|done]. rewrite Forall_forall in Hall. by apply Hall. }
  split; [apply filter_choices_canonical|]. split; [|exact Hmem].
  intros Hnil. specialize (Hmem (ToLowerRunes (TrimSpace r0))). rewrite Hnil in Hmem.
  assert (ToLowerRunes (TrimSpace r0) ∈ @nil string) by (apply Hmem; exists r0; split; [left|done]).
  set_solver.
Qed.

Lemma roles_canonical role : canonical_functions (FunctionsForRole role) /\ FunctionsForRole role <> [].
Proof. unfold FunctionsForRole. repeat case_match; (split; [reflexivity|discriminate]). Qed.

(** (round trip) Function sets are canonical and survive storage: whatever
    [ParseDeviceFunctions] accepts is a nonempty duplicate-free subset of the
    three functions in canonical order, made of exactly the normalized
    elements it was given; writing a canonical set out with [Strings] and
    parsing it again gives the same set; and a stored set that does not parse
    reads as the empty set, never as the functions of the legacy role. *)
Theorem functions_roundtrip (role : string) :
  (forall input out, ParseDeviceFunctions input role = Ok out ->
     canonical_functions out /\ out <> [] /\
     (forall l, input = Some l ->
        forall fn, fn ∈ out <-> exists raw, raw ∈ l /\ fn = ToLowerRunes (TrimSpace raw))) /\
  (forall f, canonical_functions f -> f <> [] ->
     ParseDeviceFunctions (Some (Functions_Strings f)) role = Ok f) /\
  (forall l e, ParseDeviceFunctions (Some l) (RoleOf role) = Err e -> DeviceFunctionsOf (Some l) role = []).
Proof.
  split_and!.
  - intros [l|] out H.
    + destruct (ParseDeviceFunctions_some _ _ _ H) as (Hc & Hne & Hmem). split_and!; [done..|].
      intros l' [= <-]. exact Hmem.
    + cbn in H. simplify_eq. destruct (roles_canonical role). split_and!; [done..|]. intros l Hl. done.
  - intros f Hc Hne. apply canonical_cases in Hc. rewrite !elem_of_cons, elem_of_nil in Hc.
    destruct_or?; subst; try done; reflexivity.
  - intros l e H. unfold DeviceFunctionsOf. by rewrite H.
Qed.

(** ** Override paths *)

Lemma valid_key_cases k : OverrideKey_Valid k = true ->
  k = OverrideDisabled \/ k = OverrideHidden \/ k = OverrideIsolate \/ k = OverrideMaxAssoc.
Proof.
  unfold OverrideKey_Valid. cbn [existsb]. rewrite !orb_true_iff, !String.eqb_eq. intuition done.
Qed.

Lemma Path_text o : chars (Override_Path o) =
  (chars "wlan" ++ "."%char :: chars (Itoa (ov_WLANID o)) ++ "."%char :: chars (ov_Key o))%list.
Proof.
  assert (H : Override_Path o = ("wlan." ++ Itoa (ov_WLANID o) ++ "." ++ ov_Key o ++ "")%string) by reflexivity.
  rewrite H, !chars_app. cbn [chars list_ascii_of_string app]. by rewrite app_nil_r.
Qed.

(** C8. A stored override path reads back as the override it names: the path
    of a positive WLAN id and an overridable key parses to that id and key.
    Whatever parses has a positive id and a key the code allows to be
    overridden, so no path can name the SSID, the security or the roaming
    settings. *)
Theorem override_path_roundtrip :
  (forall o, 0 < ov_WLANID o <= maxInt64 -> OverrideKey_Valid (ov_Key o) = true ->
     ParseOverridePath (Override_Path o) = Ok (ov_WLANID o, ov_Key o)) /\
  (forall path id k, ParseOverridePath path = Ok (id, k) ->
     0 < id <= maxInt64 /\ OverrideKey_Valid k = true).
Proof.
  split.
  - intros o Hid Hk. unfold ParseOverridePath, Split. rewrite Path_text.
    destruct (Itoa_digits (ov_WLANID o) ltac:(lia)) as [Hne Hd].
    rewrite split_app by by apply (bool_decide_unpack (_ ∉ _)); vm_compute.
    rewrite split_app by by eapply not_in_digits.
    rewrite split_none by
      (apply valid_key_cases in Hk; destruct_or!; rewrite Hk;
       apply (bool_decide_unpack (_ ∉ _)); by vm_compute).
    cbn [map]. rewrite !of_chars_chars. change (String.eqb "wlan" "wlan") with true.
    cbn [negb]. rewrite Atoi_Itoa by lia.
    rewrite (proj2 (Z.leb_gt _ _)) by lia. by rewrite Hk.
  - intros path id k H. unfold ParseOverridePath in H.
    destruct (Split path ".") as [|p0 [|p1 [|p2 [|p3 l]]]]; try done.
    branches H. bool_prop. split; [|done]. split; [done|].
    match goal with HA : Atoi _ = Some _ |- _ => unfold Atoi in HA; branches HA; bool_prop; lia end.
Qed.

(** ** Applying overrides *)

(** The row for key [k], and what the WLAN becomes when each key has at most
    one row. *)
Definition row (l : list Override) (k : string) : option Override :=
  List.find (fun ov => String.eqb (ov_Key ov) k) l.

Definition bool_of (l : list Override) (k : string) (b : bool) : bool :=
  match row l k with Some ov => Override_Bool ov | None => b end.

Definition assoc_limit (l : list Override) (n : Z) : Z :=
  match row l OverrideMaxAssoc with Some ov => default n (Override_Int ov) | None => n end.

Definition overridden (l : list Override) (w : WLAN) : WLAN :=
  let o := w_Options w in
  set_Options w (MkWLANOptions (bool_of l OverrideHidden (o_Hidden o)) (bool_of l OverrideIsolate (o_Isolate o))
                   (assoc_limit l (o_MaxAssoc o)) (o_AllowUplink o)).

Definition publishes (l : list Override) (b : bool) : bool :=
  match row l OverrideDisabled with Some ov => negb (Override_Bool ov) | None => b end.

Lemma row_none l k : k ∉ map ov_Key l -> row l k = None.
Proof.
  intros Hk. unfold row. destruct (List.find _ l) as [ov|] eqn:E; [|done].
  apply find_some in E as [Hin E]. bool_prop. destruct Hk. apply list_elem_of_fmap.
  exists ov. by rewrite list_elem_of_In.
Qed.

Lemma row_cons ov l k : row (ov :: l) k = if String.eqb (ov_Key ov) k then Some ov else row l k.
Proof. done. Qed.

Lemma set_Options_id w : set_Options w (w_Options w) = w.
Proof. by destruct w. Qed.

Lemma override_fold l : forall w p, NoDup (map ov_Key l) ->
  fold_left override_step l (w, p) = (overridden l w, publishes l p).
Proof.
  induction l as [|ov l IH]; intros w p Hnd.
  - destruct w as [i s n g b sec r o e]; by destruct o.
  - cbn [map] in Hnd. apply NoDup_cons in Hnd as [Hk Hnd]. cbn [fold_left].
    assert (Hstep : exists w1 p1, override_step (w, p) ov = (w1, p1)).
    { destruct (override_step (w, p) ov); eauto. }
    destruct Hstep as (w1 & p1 & E). rewrite E, IH by done.
    unfold override_step in E. pose proof (row_none l (ov_Key ov) Hk) as Hnone.
    unfold overridden, publishes, bool_of, assoc_limit. rewrite !row_cons.
    destruct (String.eqb (ov_Key ov) OverrideDisabled) eqn:E1; bool_prop;
      [rewrite E1 in *; simplify_eq; by rewrite Hnone|].
    destruct (String.eqb (ov_Key ov) OverrideHidden) eqn:E2; bool_prop;
      [rewrite E2 in *; simplify_eq; by rewrite Hnone|].
    destruct (String.eqb (ov_Key ov) OverrideIsolate) eqn:E3; bool_prop;
      [rewrite E3 in *; simplify_eq; by rewrite Hnone|].
    destruct (String.eqb (ov_Key ov) OverrideMaxAssoc) eqn:E4; bool_prop;
      [|by simplify_eq].
    rewrite E4 in *. rewrite Hnone. destruct (Override_Int ov); by simplify_eq.
Qed.

Lemma step_scope w p ov w' p' : override_step (w, p) ov = (w', p') ->
  set_Options w' (w_Options w) = w /\ o_AllowUplink (w_Options w') = o_AllowUplink (w_Options w).
Proof.
  unfold override_step. intros H. destruct w as [i s n g b sec r o e], o.
  repeat case_hyp H; by simplify_eq.
Qed.

Lemma fold_scope l : forall w p w' p', fold_left override_step l (w, p) = (w', p') ->
  set_Options w' (w_Options w) = w /\ o_AllowUplink (w_Options w') = o_AllowUplink (w_Options w).
Proof.
  induction l as [|ov l IH]; intros w p w' p' H; cbn [fold_left] in H.
  - simplify_eq. split; [apply set_Options_id|done].
  - destruct (override_step (w, p) ov) as [w1 p1] eqn:E.
    destruct (step_scope _ _ _ _ _ E) as [H1 H2]. destruct (IH _ _ _ _ H) as [H3 H4].
    split; [|congruence]. etrans; [|exact H1]. by rewrite <- H3.
Qed.

Lemma row_perm l l' k : Permutation l l' -> NoDup (map ov_Key l) -> row l k = row l' k.
Proof.
  intros HP. induction HP as [|ov l l' HP IH|a b l|l l2 l3 HP1 IH1 HP2 IH2]; intros Hnd; [done| | |].
  - cbn [map] in Hnd. apply NoDup_cons in Hnd as [_ Hnd]. rewrite !row_cons. by rewrite IH.
  - cbn [map] in Hnd. apply NoDup_cons in Hnd as [Hb _]. rewrite !row_cons.
    destruct (String.eqb (ov_Key b) k) eqn:E1, (String.eqb (ov_Key a) k) eqn:E2; try done.
    bool_prop. subst. set_solver.
  - rewrite IH1 by done. apply IH2. by rewrite <- HP1.
Qed.

Lemma overridden_perm l l' w b : Permutation l l' -> NoDup (map ov_Key l) ->
  overridden l w = overridden l' w /\ publishes l b = publishes l' b.
Proof.
  intros HP Hnd. unfold overridden, publishes, bool_of, assoc_limit.
  by rewrite !(row_perm l l' _ HP Hnd).
Qed.

(** The rows of a device for one WLAN. *)
Definition rows (o : gmap Z (list Override)) (deviceID wlanID : Z) : list Override :=
  List.filter (fun ov => ov_WLANID ov =? wlanID) (default [] (o !! deviceID)).

(** (invariant) An override never touches what a controller exists to keep identical
    across access points: apart from the options [hidden], [isolate] and
    [max_assoc], the effective WLAN is the WLAN of the site model (same SSID,
    bands, network, security, roaming, and acceptance of wireless bridges).
    With at most one row per key, which the path as a storage key ensures,
    the effective settings are those of the rows, key by key, so they do not
    depend on the order in which the rows are stored. *)
Theorem override_scope o deviceID w w' published :
  Overrides_Apply o deviceID w = (w', published) ->
  set_Options w' (w_Options w) = w /\
  o_AllowUplink (w_Options w') = o_AllowUplink (w_Options w) /\
  (NoDup (map ov_Key (rows o deviceID (w_ID w))) ->
     w' = overridden (rows o deviceID (w_ID w)) w /\
     published = publishes (rows o deviceID (w_ID w)) (w_Enabled w)).
Proof.
  unfold Overrides_Apply. intros H. destruct (fold_scope _ _ _ _ _ H) as [Hs Ha].
  split; [done|]. split; [done|]. intros Hnd. unfold Overrides_For in H. fold (rows o deviceID (w_ID w)) in H.
  pose proof (merge_sort_Permutation ov_key_le (rows o deviceID (w_ID w))) as HP.
  rewrite override_fold in H by by rewrite HP.
  destruct (overridden_perm _ _ w (w_Enabled w) (symmetry HP) Hnd) as [-> ->]. by simplify_eq.
Qed.
