(* ===== verification/SiteValidSpec.v ===== *)
(** * What the site model guarantees, part 2: accepted sites

    Consequences of an empty error list from [Validate]: addressing that a
    router can use, zones that exist under distinct identifiers, and rules
    that cannot contradict one another. *)

From Stdlib Require Import ZArith Lia Ascii String Sorted.
From stdpp Require Import base gmap list strings sorting.
From S2P Require Import Prelude GoStr GoFmt NetIP SiteModel SitePolicy SiteModelSpec.

Local Open Scope string_scope.
Local Open Scope Z_scope.

(** ** Splitting [Validate] *)

(** Reduce [l1 ++ ... ++ ln = []] to its parts. *)
Ltac app_nil_parts H :=
  repeat match type of H with
  | (_ ++ _)%list = [] => let H' := fresh "Hnil" in apply app_eq_nil in H as [H' H]
  end.

Lemma Validate_parts s s' : Validate s = (s', []) ->
  fst (ValidatePolicies s) = s' /\
  TrimSpace (UUID s) <> "" /\
  ValidateZoneNames s = [] /\
  network_errors [] (Networks s) = [] /\
  subnet_pairs (merge_sort routed_le (routed_subnets s)) = [] /\
  ValidateZonePolicies s = [] /\
  snd (ValidatePolicies s) = [] /\
  (forall w, w ∈ WLANs s -> wlan_errors s w = []) /\
  (forall m, m ∈ Meshes s -> mesh_errors s m = []) /\
  (forall u, u ∈ Uplinks s -> u_Enabled u = true -> Uplink_Validate u s' = []) /\
  mesh_duplicates [] (Meshes s) = [].
Proof.
  unfold Validate. destruct (ValidatePolicies s) as [s1 errs]. intros H.
  assert (s1 = s') as -> by congruence. apply (f_equal snd) in H. cbn [snd] in H. app_nil_parts H.
  repeat match goal with HF : flat_map _ _ = [] |- _ => rewrite flat_map_nil in HF end.
  split_and!; try done.
  - intros E. by rewrite E in Hnil.
  - intros u Hu He. match goal with HU : context [Uplinks s] |- _ => specialize (HU u Hu) end.
    by rewrite He in *.
Qed.

(** ** Addressing *)

Lemma validateNetworkCIDR_spec cidr p : validateNetworkCIDR cidr = Ok p ->
  exists v bits, p = MkPrefix (A4 v) bits /\ in_32 v /\ 8 <= bits <= 32 /\
    (bits <= 30 -> ipv4HostOffset p <> 0 /\ ipv4HostOffset p <> 2 ^ (32 - bits) - 1).
Proof.
  unfold validateNetworkCIDR. intros H. destruct (ParsePrefix _) as [[a bits]|] eqn:E; [|done].
  destruct a as [v|v z]; [|done]. cbn [px_Addr px_Bits Is4 negb] in H.
  destruct (ParsePrefix_4 _ _ _ E) as [Hv Hb].
  destruct (bits <? 8) eqn:E8; [done|]. bool_prop.
  destruct (bits <=? 30) eqn:E30; bool_prop.
  - cbv zeta in H. if_hyp H; [done|]. if_hyp H; [done|]. simplify_eq. bool_prop.
    exists v, bits. rewrite Z.shiftl_1_l in *. split_and!; auto; lia.
  - simplify_eq. exists v, bits. split_and!; auto; lia.
Qed.

Lemma ipv4HostOffset_eq v bits : in_32 v -> 0 <= bits <= 32 ->
  ipv4HostOffset (MkPrefix (A4 v) bits) = v - mask_value 32 bits v.
Proof.
  intros Hv Hb. unfold ipv4HostOffset. cbn [px_Addr Masked addr_value px_Bits]. apply u64_id.
  pose proof (mask_offset bits v Hb Hv) as [? ?]. unfold in_u64, in_32 in *.
  assert (2 ^ (32 - bits) <= 2 ^ 32) by (apply Z.pow_le_mono_r; lia). lia.
Qed.

(** An accepted pool: its leases are usable hosts other than the gateway. *)
Lemma DHCP_Validate_spec d cidr p : d_Enabled d = true -> in_i64 (d_Start d) -> in_i64 (d_Limit d) ->
  validateNetworkCIDR cidr = Ok p -> DHCP_Validate d cidr = None ->
  1 <= d_Start d /\ 1 <= d_Limit d /\ px_Bits p <= 30 /\
  d_Start d + d_Limit d - 1 < 2 ^ (32 - px_Bits p) - 1 /\
  ~ (d_Start d <= ipv4HostOffset p <= d_Start d + d_Limit d - 1).
Proof.
  unfold DHCP_Validate. intros He Hs Hl Hp H. rewrite He in H. cbn [negb] in H.
  if_hyp H; [done|]. if_hyp H; [done|]. if_hyp H; [done|]. rewrite Hp in H.
  if_hyp H; [done|]. bool_prop.
  destruct (validateNetworkCIDR_spec _ _ Hp) as (v & bits & -> & Hv & Hb & _).
  cbn [px_Bits] in *. rewrite Z.shiftl_1_l in H.
  assert (Hsum : u64 (u64 (u64 (d_Start d) + u64 (d_Limit d)) - 1) = d_Start d + d_Limit d - 1).
  { unfold in_i64, minInt64, maxInt64 in *.
    rewrite (u64_id (d_Start d)), (u64_id (d_Limit d)), (u64_id (d_Start d + d_Limit d)), u64_id;
      unfold in_u64; lia. }
  rewrite Hsum in H. if_hyp H; [done|]. if_hyp H; [done|]. bool_prop.
  rewrite (u64_id (d_Start d)) in * by (unfold in_i64, in_u64, minInt64, maxInt64 in *; lia).
  split_and!; lia.
Qed.

Lemma network_errors_nil l : forall seen, network_errors seen l = [] ->
  (forall n, n ∈ l -> fst (network_addressing n) = [] /\ IPv6_Validate (EffectiveIPv6 n) = None /\
     forall e, e ∈ seen -> fst e <> n_VLAN n) /\
  (forall i j n m, l !! i = Some n -> l !! j = Some m -> (i < j)%nat -> n_VLAN n <> n_VLAN m).
Proof.
  induction l as [|n l IH]; intros seen H; [split; [set_solver|done]|].
  cbn [network_errors] in H. app_nil_parts H. destruct (IH _ H) as [Hall Hpairs]. split.
  - intros m Hm. apply elem_of_cons in Hm as [->|Hm].
    + split_and!; [done|by case_hyp Hnil0|]. intros [v nm] He Hv. cbn [fst] in Hv.
      destruct (List.find (fun e => fst e =? n_VLAN n) seen) as [[v' prev]|] eqn:E; [done|].
      pose proof (find_none _ _ E (v, nm) ltac:(by apply list_elem_of_In)) as Hx. cbn in Hx. bool_prop. done.
    + destruct (Hall m Hm) as (H1 & H2 & H3). split_and!; [done..|]. intros e He. apply H3. by right.
  - intros i j a b Hi Hj Hlt. destruct i as [|i], j as [|j]; [lia| |lia|]; simpl in *.
    + simplify_eq. destruct (Hall b) as (_ & _ & H3); [by eapply list_elem_of_lookup_2|].
      apply (H3 (n_VLAN a, n_Name a)). left.
    + eapply Hpairs; [done..|lia].
Qed.

Lemma subnet_overlap_sym a b : subnet_overlap a b = [] -> subnet_overlap b a = [].
Proof.
  unfold subnet_overlap. intros H. if_hyp H; [|discriminate H]. rewrite andb_comm. by rewrite Heqb0.
Qed.

Lemma accepted_network n : managed n = true -> fst (network_addressing n) = [] ->
  exists p, validateNetworkCIDR (n_CIDR n) = Ok p /\ DHCP_Validate (EffectiveDHCP n) (n_CIDR n) = None /\
    snd (network_addressing n) = [MkRouted (n_Name n) (Masked p)].
Proof.
  unfold network_addressing. intros -> H. cbn [negb] in *.
  destruct (validateNetworkCIDR _) as [p|] eqn:E; [|done]. exists p. split_and!; [done| |done].
  by destruct (DHCP_Validate _ _).
Qed.

(** The pool fields are Go [int]s. *)
Definition int_pools (s : Site) : Prop :=
  forall n, n ∈ Networks s -> in_i64 (d_Start (EffectiveDHCP n)) /\ in_i64 (d_Limit (EffectiveDHCP n)).

(** C16. The addressing of an accepted site is usable. Every managed network
    has an IPv4 gateway address in a subnet of 8 to 32 network bits; when its
    DHCP server is on, every lease the pool can hand out lies in the subnet,
    is neither the subnet address nor the broadcast address, and is not the
    gateway; no two networks share a VLAN; and no IPv4 address belongs to the
    subnets of two managed networks. *)
Theorem valid_site_addressing s s' : int_pools s -> Validate s = (s', []) ->
  (forall n, n ∈ Networks s -> managed n = true ->
     exists v bits, validateNetworkCIDR (n_CIDR n) = Ok (MkPrefix (A4 v) bits) /\ 8 <= bits <= 32 /\
       let base := mask_value 32 bits v in
       let dhcp := EffectiveDHCP n in
       d_Enabled dhcp = true -> forall k, d_Start dhcp <= k < d_Start dhcp + d_Limit dhcp ->
         Contains_ (MkPrefix (A4 v) bits) (A4 (base + k)) = true /\
         base + k <> base /\ base + k <> base + 2 ^ (32 - bits) - 1 /\ base + k <> v) /\
  (forall i j n m, Networks s !! i = Some n -> Networks s !! j = Some m -> i <> j ->
     n_VLAN n <> n_VLAN m /\
     (managed n = true -> managed m = true ->
      forall p q x, validateNetworkCIDR (n_CIDR n) = Ok p -> validateNetworkCIDR (n_CIDR m) = Ok q ->
        Contains_ p (A4 x) = true -> Contains_ q (A4 x) = true -> False)).
Proof.
  intros Hint H. destruct (Validate_parts _ _ H) as (_ & _ & _ & Hnet & Hsub & _).
  destruct (network_errors_nil _ _ Hnet) as [Hall Hvlan]. split.
  - intros n Hn Hm. destruct (Hall n Hn) as (Ha & _ & _).
    destruct (accepted_network n Hm Ha) as (p & Hp & Hd & _).
    destruct (validateNetworkCIDR_spec _ _ Hp) as (v & bits & -> & Hv & Hb & _).
    exists v, bits. split_and!; [done|lia..|]. intros base dhcp He k Hk.
    destruct (Hint n Hn) as [Hs Hl].
    destruct (DHCP_Validate_spec _ _ _ He Hs Hl Hp Hd) as (? & ? & ? & ? & Hgw). cbn [px_Bits] in *.
    rewrite ipv4HostOffset_eq in Hgw by (done || lia). subst base dhcp.
    split_and!; [apply subnet_member; lia|lia|lia|lia].
  - assert (Hpairs : pairs subnet_overlap (routed_subnets s) = []).
    { eapply pairs_nil_perm; [apply subnet_overlap_sym|apply (merge_sort_Permutation routed_le)|exact Hsub]. }
    assert (Hov : forall i j n m p q x, Networks s !! i = Some n -> Networks s !! j = Some m -> (i < j)%nat ->
      managed n = true -> managed m = true ->
      validateNetworkCIDR (n_CIDR n) = Ok p -> validateNetworkCIDR (n_CIDR m) = Ok q ->
      Contains_ p (A4 x) = true -> Contains_ q (A4 x) = true -> False).
    { intros i j n m p q x Hi Hj Hlt Hmn Hmm Hp Hq Hcp Hcq.
      destruct (Hall n) as (Han & _); [by eapply list_elem_of_lookup_2|].
      destruct (Hall m) as (Ham & _); [by eapply list_elem_of_lookup_2|].
      destruct (accepted_network n Hmn Han) as (p' & Hp' & _ & Hrn).
      destruct (accepted_network m Hmm Ham) as (q' & Hq' & _ & Hrm).
      assert (Hno : subnet_overlap (MkRouted (n_Name n) (Masked p')) (MkRouted (n_Name m) (Masked q')) = []).
      { eapply (pairs_nil_flat_map subnet_overlap (fun n => snd (network_addressing n)));
          [exact Hpairs|exact Hi|exact Hj|done| |]; [rewrite Hrn|rewrite Hrm]; left. }
      assert (p' = p) as -> by congruence. assert (q' = q) as -> by congruence.
      destruct (validateNetworkCIDR_spec _ _ Hp) as (v & b & -> & Hv & Hb & _).
      destruct (validateNetworkCIDR_spec _ _ Hq) as (w & c & -> & Hw & Hc & _).
      unfold subnet_overlap, Masked in Hno. cbn [rs_prefix px_Addr px_Bits] in Hno.
      if_hyp Hno; [|done]. bool_prop.
      destruct (common_address v b w c x) as [Hc1|Hc1]; [lia|lia|done|done|congruence|congruence]. }
    intros i j n m Hi Hj Hne.
    destruct (decide (i < j)%nat) as [Hlt|Hge].
    + split; [by eapply Hvlan|]. intros. by eapply (Hov i j).
    + assert (j < i)%nat by lia. split; [apply not_eq_sym; by eapply Hvlan|].
      intros. by eapply (Hov j i).
Qed.

(** ** Firewall zones *)

(** The first byte of a zone identifier is a letter or a digit. *)
Lemma zone_base_head name c base : firewallZoneBase name = String c base ->
  is_lower c = true \/ is_digit c = true.
Proof.
  intros H. unfold firewallZoneBase in H.
  destruct (TrimByte_spec "_" (of_chars (flat_map zone_char (chars (ToLowerRunes (TrimSpace name))))))
    as [Hin Hne]. rewrite H in Hin, Hne. cbn in Hne. specialize (Hin c (list_elem_of_here _ _)).
  rewrite chars_of_chars in Hin. apply elem_of_flat_map in Hin as (x & _ & Hx). unfold zone_char in Hx.
  destruct (is_lower x || is_digit x)%bool eqn:E.
  - apply list_elem_of_singleton in Hx as ->. by apply orb_true_iff.
  - case_hyp Hx; set_solver.
Qed.

Lemma FirewallZoneName_len name : 1 <= len (FirewallZoneName name) <= 11.
Proof.
  unfold FirewallZoneName. destruct (String.eqb _ "") eqn:E; [unfold len; simpl; lia|].
  destruct (FirewallZoneMaxLen <? len (firewallZoneBase name)) eqn:El; bool_prop; unfold FirewallZoneMaxLen in *.
  - assert (H11 : forall n s, (n <= String.length s)%nat -> String.length (String.substring 0 n s) = n).
    { induction n as [|n IH]; intros s Hs; destruct s as [|c s]; simpl in *; try lia. rewrite IH; lia. }
    unfold len in *. rewrite H11; lia.
  - split; [|done]. destruct (firewallZoneBase name); [done|]. unfold len. simpl. lia.
Qed.

Lemma zone_claim_spec n z : z ∈ zone_claim n <-> zone_claim n = [z] /\
  managed n = true /\ z = zone_label n /\ first_byte_in 97 122 (firewallZoneBase z) = true /\
  FirewallZoneName z <> "lan" /\ FirewallZoneName z <> "wan".
Proof.
  split; [|intros (-> & _); left]. intros H. assert (Hc := H). unfold zone_claim in Hc. cbv zeta in Hc.
  rewrite !elem_of_if_nil, list_elem_of_singleton in Hc. destruct Hc as (Hm & Hn & Hb & Hi & Hz).
  apply orb_false_iff in Hn as [Hn0 Hn]. apply negb_false_iff, String.eqb_eq in Hn.
  rewrite Hn in *. subst z. split.
  - unfold zone_claim. cbv zeta. by rewrite Hn, Hm, Hn0, String.eqb_refl, Hb, Hi.
  - bool_prop. split_and!; done.
Qed.

Definition claims (s : Site) : list string := flat_map zone_claim (Networks s).

Lemma labels_of_spec cl id z : z ∈ labels_of cl id <-> z ∈ cl /\ FirewallZoneName z = id.
Proof.
  unfold labels_of. rewrite elem_of_first_seen, list_elem_of_In, filter_In, <- list_elem_of_In.
  by rewrite String.eqb_eq.
Qed.

Lemma active_spec s z : z ∈ ActiveZoneNames s <-> z ∈ claims s /\ labels_of (claims s) (FirewallZoneName z) = [z].
Proof.
  unfold ActiveZoneNames, sort_strings. rewrite merge_sort_Permutation, elem_of_flat_map. fold (claims s). split.
  - intros (id & Hid & Hz). destruct (labels_of (claims s) id) as [|z0 [|z1 l]] eqn:E;
      [by apply not_elem_of_nil in Hz| |by apply not_elem_of_nil in Hz].
    apply list_elem_of_singleton in Hz as ->.
    assert (Hm : z0 ∈ labels_of (claims s) id) by (rewrite E; left).
    apply labels_of_spec in Hm as [Hc <-]. done.
  - intros [Hc Hl]. exists (FirewallZoneName z). rewrite Hl. split; [|left].
    apply elem_of_first_seen, list_elem_of_fmap. eauto.
Qed.

Lemma active_distinct s z z' : z ∈ ActiveZoneNames s -> z' ∈ ActiveZoneNames s ->
  FirewallZoneName z = FirewallZoneName z' -> z = z'.
Proof.
  rewrite !active_spec. intros [Hc Hl] [Hc' Hl'] Hid.
  assert (Hm : z ∈ labels_of (claims s) (FirewallZoneName z')) by (apply labels_of_spec; done).
  rewrite Hl' in Hm. by apply list_elem_of_singleton in Hm.
Qed.

Lemma NoDup_active s : NoDup (ActiveZoneNames s).
Proof.
  unfold ActiveZoneNames, sort_strings. rewrite merge_sort_Permutation. apply NoDup_flat_map.
  - apply NoDup_first_seen.
  - intros id _. destruct (labels_of _ id) as [|z [|]]; [constructor|apply NoDup_singleton|constructor].
  - intros i j y _ _ Hi Hj. assert (H : forall k, y ∈ match labels_of (flat_map zone_claim (Networks s)) k with
        [name] => [name] | _ => [] end -> FirewallZoneName y = k).
    { intros k Hk. destruct (labels_of _ k) as [|z [|]] eqn:E; [by apply not_elem_of_nil in Hk| |by apply not_elem_of_nil in Hk].
      apply list_elem_of_singleton in Hk as ->.
      assert (Hm : z ∈ labels_of (flat_map zone_claim (Networks s)) k) by (rewrite E; left).
      by apply labels_of_spec in Hm as [_ ->]. }
    rewrite <- (H i Hi). by apply H.
Qed.

(** What the loop of [ValidateZoneNames] establishes when it reports nothing. *)
Lemma zone_names_nil l : forall seen, zone_name_errors seen l = [] ->
  (forall n, n ∈ l -> managed n = true ->
     zone_claim n = [zone_label n] /\
     forall prev, assoc (FirewallZoneName (zone_label n)) seen = Some prev -> prev = zone_label n) /\
  (forall n m, n ∈ l -> m ∈ l -> managed n = true -> managed m = true ->
     FirewallZoneName (zone_label n) = FirewallZoneName (zone_label m) -> zone_label n = zone_label m).
Proof.
  induction l as [|a l IH]; intros seen H.
  { split; [intros n Hn|intros n m Hn]; by apply not_elem_of_nil in Hn. }
  cbn [zone_name_errors] in H. destruct (managed a) eqn:Ha; cbn [negb] in H; cycle 1.
  { destruct (IH _ H) as [H1 H2]. split.
    - intros n Hn Hm. apply elem_of_cons in Hn as [->|Hn]; [congruence|auto].
    - intros n m Hn Hm Hmn Hmm. apply elem_of_cons in Hn as [->|Hn]; [congruence|].
      apply elem_of_cons in Hm as [->|Hm]; [congruence|auto]. }
  if_hyp H; [discriminate H|]. if_hyp H; [discriminate H|]. if_hyp H; [discriminate H|].
  if_hyp H; [discriminate H|]. apply orb_false_iff in Heqb as [Hb1 Hb2]. bool_prop.
  rewrite Hb2 in *. set (id := FirewallZoneName (zone_label a)) in *.
  assert (Hstep : zone_name_errors (assoc_set id (zone_label a) seen) l = [] /\
    forall prev, assoc id seen = Some prev -> prev = zone_label a).
  { destruct (assoc id seen) as [prev|]; [|done]. if_hyp H; [discriminate H|]. bool_prop.
    split; [done|]. by intros ? [= <-]. }
  destruct Hstep as [Hrest Hprev]. destruct (IH _ Hrest) as [HA HB].
  assert (Hself : zone_claim a = [zone_label a]).
  { unfold zone_claim. rewrite Ha. cbn [negb]. cbv zeta. rewrite Hb2, String.eqb_refl.
    rewrite (proj2 (String.eqb_neq _ _) Hb1). cbn [orb negb]. fold id.
    destruct (firewallZoneBase (zone_label a)) as [|c base] eqn:Eb; [done|]. cbn [String.eqb orb].
    assert (Hlow : first_byte_in 97 122 (String c base) = true).
    { destruct (zone_base_head _ _ _ Eb) as [Hl|Hd]; [exact Hl|].
      match goal with Hf : first_byte_in 48 57 _ = false |- _ => change (is_digit c = false) in Hf end.
      congruence. }
    rewrite Hlow. cbn [negb]. by rewrite !(proj2 (String.eqb_neq _ _)). }
  assert (Hlabel : forall m, m ∈ l -> managed m = true -> id = FirewallZoneName (zone_label m) ->
    zone_label a = zone_label m).
  { intros m Hm Hmm Hid. destruct (HA m Hm Hmm) as [_ Hp]. apply Hp. rewrite <- Hid. apply assoc_set_same. }
  split.
  - intros n Hn Hm. apply elem_of_cons in Hn as [->|Hn]; [done|].
    destruct (HA n Hn Hm) as [Hc Hp]. split; [done|]. intros prev Ep.
    destruct (decide (FirewallZoneName (zone_label n) = id)) as [E|E].
    + rewrite E in Ep. rewrite (Hprev _ Ep). by apply Hlabel.
    + apply Hp. by rewrite assoc_set_other.
  - intros n m Hn Hm Hmn Hmm Hid. apply elem_of_cons in Hn, Hm.
    destruct Hn as [->|Hn], Hm as [->|Hm]; [done|by apply Hlabel| |by apply HB].
    symmetry. by apply Hlabel.
Qed.

(** Every managed network of a site with valid zone names has its zone. *)
Lemma managed_zone_active s n : ValidateZoneNames s = [] -> n ∈ Networks s -> managed n = true ->
  zone_label n ∈ ActiveZoneNames s.
Proof.
  intros H Hn Hm. destruct (zone_names_nil _ _ H) as [H1 H2]. destruct (H1 n Hn Hm) as [Hc _].
  assert (Hin : zone_label n ∈ claims s) by (apply elem_of_flat_map; exists n; rewrite Hc; split; [done|left]).
  apply active_spec. split; [done|].
  assert (Hall : forall z, z ∈ labels_of (claims s) (FirewallZoneName (zone_label n)) -> z = zone_label n).
  { intros z Hz. apply labels_of_spec in Hz as [Hz Hid]. apply elem_of_flat_map in Hz as (m & Hmin & Hzm).
    apply zone_claim_spec in Hzm as (_ & Hmm & -> & _). by apply H2. }
  assert (Hmem : zone_label n ∈ labels_of (claims s) (FirewallZoneName (zone_label n))) by by apply labels_of_spec.
  assert (Hnd : NoDup (labels_of (claims s) (FirewallZoneName (zone_label n)))) by apply NoDup_first_seen.
  destruct (labels_of _ _) as [|z [|z2 l]]; [by apply not_elem_of_nil in Hmem| |].
  - f_equal. apply Hall. left.
  - exfalso. apply NoDup_cons in Hnd as [Hz _]. apply Hz.
    rewrite (Hall z), (Hall z2); [left|right; left|left].
Qed.

Lemma active_facts s z : z ∈ ActiveZoneNames s ->
  FirewallZoneName z <> "lan" /\ FirewallZoneName z <> "wan" /\
  first_byte_in 97 122 (firewallZoneBase z) = true.
Proof.
  rewrite active_spec. intros [Hc _]. apply elem_of_flat_map in Hc as (n & _ & Hz).
  apply zone_claim_spec in Hz as (_ & _ & _ & Hb & Hl & Hw). done.
Qed.

Lemma FirewallZoneName_head z : first_byte_in 97 122 (firewallZoneBase z) = true ->
  first_byte_in 97 122 (FirewallZoneName z) = true.
Proof.
  unfold FirewallZoneName. destruct (firewallZoneBase z) as [|c b] eqn:E; [done|]. intros H.
  cbn [String.eqb]. case_match; [|done]. exact H.
Qed.

(** What the loop of [ValidateZonePolicies] establishes. *)
Lemma zone_policies_nil active l : forall seen, zone_policy_errors active seen l = [] ->
  (forall p, p ∈ l -> zp_Name p ∉ seen /\ zp_Name p ∈ active /\
     forall d, d ∈ zp_ForwardTo p -> d <> zp_Name p /\ (FirewallZoneName d = "wan" -> d = "wan") /\
       (d = "wan" \/ d ∈ active)) /\
  NoDup (map zp_Name l).
Proof.
  induction l as [|a l IH]; intros seen H.
  { split; [intros p Hp; by apply not_elem_of_nil in Hp|constructor]. }
  cbn [zone_policy_errors] in H. if_hyp H; [discriminate H|]. if_hyp H; [discriminate H|].
  app_nil_parts H. destruct (IH _ H) as [H1 H2]. split.
  - intros p Hp. apply elem_of_cons in Hp as [->|Hp].
    + split_and!; [by rewrite <- existsb_eqb_In, Heqb0| |].
      * if_hyp Hnil; [discriminate Hnil|]. if_hyp Hnil; [discriminate Hnil|]. bool_prop. by apply existsb_eqb_In.
      * intros d Hd. rewrite flat_map_nil in Hnil0. specialize (Hnil0 d Hd). unfold destination_errors in Hnil0.
        if_hyp Hnil0; [discriminate Hnil0|]. if_hyp Hnil0; [discriminate Hnil0|].
        if_hyp Hnil0; [discriminate Hnil0|]. if_hyp Hnil0; [discriminate Hnil0|]. bool_prop.
        split_and!; [done| |].
        -- intros Hw. rewrite Hw in *. destruct Heqb3 as [Hx|Hx]; [done|]. by apply negb_false_iff, String.eqb_eq in Hx.
        -- destruct Heqb4 as [Hx|Hx]; apply negb_false_iff in Hx; [left; by apply String.eqb_eq|right].
           by apply existsb_eqb_In.
    + destruct (H1 p Hp) as (Hs & Ha & Hd). split_and!; [|done..]. intros Hin. apply Hs. by right.
  - cbn [map]. constructor; [|done]. intros Hin. apply list_elem_of_fmap in Hin as (p & Hn & Hp).
    destruct (H1 p Hp) as (Hs & _). apply Hs. rewrite <- Hn. left.
Qed.

(** With one row per name, the row the map keeps is that row. *)
Lemma explicit_policy_spec zones name :
  (forall p, explicit_policy zones name = Some p ->
     exists p0, p0 ∈ zones /\ zp_Name p0 = name /\
       p = MkZonePolicy name (CanonicalZoneDestinations (zp_ForwardTo p0)) true) /\
  (explicit_policy zones name = None -> forall p0, p0 ∈ zones -> zp_Name p0 <> name).
Proof.
  unfold explicit_policy. induction zones as [|z zones IH] using rev_ind.
  - split; [done|]. intros _ p0 Hp. by apply not_elem_of_nil in Hp.
  - rewrite fold_left_app. cbn [fold_left]. destruct (String.eqb (zp_Name z) name) eqn:E; bool_prop.
    + split; [|done]. intros p [= <-]. exists z. rewrite <- E. split_and!; [set_solver|done..].
    + destruct IH as [IH1 IH2]. split.
      * intros p Hp. destruct (IH1 p Hp) as (p0 & Hin & Hn & ->). exists p0. split_and!; [set_solver|done..].
      * intros Hp p0 Hin. apply elem_of_app in Hin as [Hin|Hin]; [by apply IH2|].
        by apply list_elem_of_singleton in Hin as ->.
Qed.

Lemma canonical_destinations l d : d ∈ CanonicalZoneDestinations l <-> d ∈ l.
Proof. unfold CanonicalZoneDestinations, sort_strings. by rewrite merge_sort_Permutation, elem_of_first_seen. Qed.

(** C18. The zone matrix of an accepted site is what its operator wrote, and
    fw4 can tell its zones apart. Every managed network is in an active zone;
    an active zone renders as an identifier of 1 to 11 bytes that starts with
    a letter and is neither [lan] nor [wan], different for different zones.
    There is exactly one effective policy per active zone. An explicit one
    forwards to exactly the destinations of the operator's row, a zone without
    a row forwards to [wan] only; no zone forwards to itself, every
    destination is [wan] or an active zone, and only the name [wan] renders as
    the device's [wan] zone. *)
Theorem valid_site_zones s s' : Validate s = (s', []) ->
  (forall n, n ∈ Networks s -> managed n = true -> zone_label n ∈ ActiveZoneNames s) /\
  (forall z, z ∈ ActiveZoneNames s ->
     let id := FirewallZoneName z in
     1 <= len id <= 11 /\ first_byte_in 97 122 id = true /\ id <> "lan" /\ id <> "wan") /\
  (forall z z', z ∈ ActiveZoneNames s -> z' ∈ ActiveZoneNames s ->
     FirewallZoneName z = FirewallZoneName z' -> z = z') /\
  map zp_Name (EffectiveZonePolicies s) = ActiveZoneNames s /\ NoDup (ActiveZoneNames s) /\
  (forall p, p ∈ EffectiveZonePolicies s ->
     (zp_Explicit p = true -> exists row, row ∈ Zones s /\ zp_Name row = zp_Name p /\
        forall d, d ∈ zp_ForwardTo p <-> d ∈ zp_ForwardTo row) /\
     (zp_Explicit p = false -> zp_ForwardTo p = ["wan"] /\
        forall row, row ∈ Zones s -> zp_Name row <> zp_Name p) /\
     (forall d, d ∈ zp_ForwardTo p -> d <> zp_Name p /\ (d = "wan" \/ d ∈ ActiveZoneNames s) /\
        (FirewallZoneName d = "wan" <-> d = "wan"))).
Proof.
  intros H. destruct (Validate_parts _ _ H) as (_ & _ & Hnames & _ & _ & Hpol & _).
  destruct (zone_policies_nil _ _ _ Hpol) as [Hrows _].
  assert (Hname : forall z, zp_Name (match explicit_policy (Zones s) z with
      Some p => p | None => MkZonePolicy z ["wan"] false end) = z).
  { intros z. destruct (explicit_policy (Zones s) z) as [p|] eqn:E; [|done].
    destruct (explicit_policy_spec (Zones s) z) as [H1 _]. by destruct (H1 p E) as (p0 & _ & _ & ->). }
  split_and!.
  - intros n Hn Hm. by apply managed_zone_active.
  - intros z Hz id. destruct (active_facts s z Hz) as (Hl & Hw & Hb).
    split_and!; [apply FirewallZoneName_len|apply FirewallZoneName_len|by apply FirewallZoneName_head|done..].
  - apply active_distinct.
  - unfold EffectiveZonePolicies. rewrite map_map. etrans; [|apply map_id]. apply map_ext. exact Hname.
  - apply NoDup_active.
  - intros p Hp. unfold EffectiveZonePolicies in Hp. apply list_elem_of_fmap in Hp as (z & Hpz & Hz).
    destruct (active_facts s z Hz) as (Hl & Hw & _). destruct (explicit_policy_spec (Zones s) z) as [H1 H2].
    destruct (explicit_policy (Zones s) z) as [q|] eqn:E.
    + destruct (H1 q eq_refl) as (row & Hrow & Hn & Hq). subst q. subst p. cbn [zp_Explicit zp_Name zp_ForwardTo].
      destruct (Hrows row Hrow) as (_ & _ & Hd). rewrite Hn in Hd. split_and!; [|done|].
      * intros _. exists row. split_and!; [done..|]. intros d. apply canonical_destinations.
      * intros d Hin. rewrite canonical_destinations in Hin. destruct (Hd d Hin) as (Hne & Hwan & Ha).
        split_and!; [exact Hne|exact Ha|]. split; [exact Hwan|]. intros ->. reflexivity.
    + subst p. cbn [zp_Explicit zp_Name zp_ForwardTo]. split_and!; [done| |].
      * intros _. split; [done|]. by apply H2.
      * intros d Hd. apply list_elem_of_singleton in Hd as ->. split_and!; [|by left|done].
        intros <-. by apply Hw.
Qed.
