(* ===== verification/SitePolicySpec.v ===== *)
(** * What the site model guarantees, part 3: policies that agree

    Accepted policies do not contradict one another, whatever order the
    device evaluates them in, nor does a denial stop what a port forward
    redirects; the canonical forms are stable. *)

From Stdlib Require Import ZArith Lia Ascii String Sorted.
From stdpp Require Import base gmap list strings sorting.
From S2P Require Import Prelude GoStr GoFmt NetIP SiteModel SitePolicy SiteModelSpec SiteValidSpec.

Local Open Scope string_scope.
Local Open Scope Z_scope.

(** ** Canonical hardware addresses *)

Lemma hex_digits_length n : forall z, length (hex_digits n z) = n.
Proof. induction n as [|n IH]; intros z; cbn [hex_digits]; [done|]. rewrite length_app, IH. simpl. lia. Qed.

Lemma mac_String_cons b bs : mac_String (b :: bs) <> "".
Proof.
  unfold mac_String. intros H. apply (f_equal String.length) in H. revert H. cbn [map Join].
  destruct (map _ bs); rewrite <- ?length_chars, ?chars_app, ?length_app, ?chars_of_chars, ?hex_digits_length; cbn; lia.
Qed.

Lemma ParseMAC6_cons s bs : ParseMAC6 s = Some bs -> exists b l, bs = b :: l.
Proof.
  unfold ParseMAC6. intros H. destruct (nth_error _ 2) as [c|]; [|done].
  assert (Hb : forall sep l bs, mac_bytes sep l = Some bs -> exists b k, bs = b :: k).
  { intros sep l ys Hm. destruct l as [|x [|y l]]; [done|done|]. cbn [mac_bytes] in Hm.
    destruct l as [|z l]; [destruct (byte2 x y); simplify_eq/=; eauto|].
    repeat case_hyp Hm; simplify_eq; eauto. }
  assert (Hw : forall l bs, mac_words l = Some bs -> exists b k, bs = b :: k).
  { intros l ys Hm. destruct l as [|x [|y [|z [|w l]]]]; try done. cbn [mac_words] in Hm.
    destruct l as [|u l]; repeat case_hyp Hm; simplify_eq; eauto. }
  repeat if_hyp H; try done; eauto.
Qed.

Lemma canon_mac_spec raw m : canon_mac raw = Ok m ->
  exists bs, ParseMAC6 (TrimSpace raw) = Some bs /\ m = mac_String bs /\ m <> "".
Proof.
  unfold canon_mac, CanonicalMACs. cbn [parse_macs]. intros H.
  destruct (ParseMAC6 (TrimSpace raw)) as [bs|] eqn:E; [|discriminate H].
  exists bs. change (@Ok error string (mac_String bs) = Ok m) in H. assert (m = mac_String bs) as -> by congruence.
  split_and!; [done..|]. destruct (ParseMAC6_cons _ _ E) as (b & l & ->). apply mac_String_cons.
Qed.

Lemma blocked_macs_spec l m : m ∈ blocked_macs l <->
  exists c, c ∈ l /\ pc_Blocked c = true /\ canon_mac (pc_MAC c) = Ok m.
Proof.
  unfold blocked_macs. rewrite elem_of_flat_map. split; intros (c & Hc & H); exists c; split; try done.
  - destruct (pc_Blocked c); [|by apply not_elem_of_nil in H].
    destruct (canon_mac (pc_MAC c)); [|by apply not_elem_of_nil in H].
    by apply list_elem_of_singleton in H as ->.
  - destruct H as [-> ->]. left.
Qed.

Lemma first_blocked_nonempty l : l <> [] -> (forall m, m ∈ l -> m <> "") -> first_blocked l <> "".
Proof.
  intros Hne Hall. unfold first_blocked, sort_strings.
  pose proof (merge_sort_Permutation str_le l) as HP.
  destruct (merge_sort str_le l) as [|m k] eqn:E; [by apply Permutation_nil in HP|].
  cbn. apply Hall. rewrite <- HP. left.
Qed.

(** ** Policy sets *)

Lemma validate_set_id sc set set' errs sc' : validate_set sc set = (set', errs, sc') ->
  ps_ID set' = ps_ID set /\ sc_ids sc' = ps_ID set :: sc_ids sc /\
  (errs = [] -> 0 < ps_ID set /\ ps_ID set ∉ sc_ids sc).
Proof.
  assert (Hid : forall (l : list Z) z, existsb (Z.eqb z) l = false -> z ∉ l).
  { intros l z Hf Hin. rewrite existsb_false_iff in Hf. specialize (Hf z Hin). by rewrite Z.eqb_refl in Hf. }
  unfold validate_set. intros H. cbv zeta in H.
  destruct (CanonicalMACs (ps_Members set)) as [members|e]; simplify_eq; cbn [ps_ID sc_ids];
    (split_and!; [done..|]); rewrite !app_nil, !if_nil; intros ((H1 & H2 & _) & _); bool_prop; split; auto.
Qed.

Lemma validate_sets_ids l : forall sc l' errs over, validate_sets sc l = (l', errs, over) ->
  map ps_ID l' = map ps_ID l /\
  (errs = [] -> NoDup (map ps_ID l) /\ forall set, set ∈ l -> 0 < ps_ID set /\ ps_ID set ∉ sc_ids sc).
Proof.
  induction l as [|set l IH]; intros sc l' errs over H; cbn [validate_sets] in H.
  { simplify_eq. split; [done|]. intros _. split; [constructor|]. intros x Hx. by apply not_elem_of_nil in Hx. }
  destruct (validate_set sc set) as [[set' e1] sc'] eqn:E1.
  destruct (validate_sets sc' l) as [[l2 e2] over2] eqn:E2. simplify_eq.
  destruct (validate_set_id _ _ _ _ _ E1) as (Hid & Hids & Hok). destruct (IH _ _ _ _ E2) as [Hm Hall].
  split; [cbn [map]; congruence|]. rewrite app_nil. intros [-> ->].
  destruct (Hok eq_refl) as [Hpos Hnew]. destruct (Hall eq_refl) as [Hnd Hin]. rewrite Hids in Hin.
  cbn [map]. split.
  - constructor; [|done]. intros Hx. apply list_elem_of_fmap in Hx as (x & Hx & Hxl).
    destruct (Hin x Hxl) as [_ Hno]. apply Hno. rewrite <- Hx. left.
  - intros x Hx. apply elem_of_cons in Hx as [->|Hx]; [done|]. destruct (Hin x Hx) as [? Hno].
    split; [done|]. intros Hc. apply Hno. by right.
Qed.

(** With distinct ids the last set with an id is the first one. *)
Lemma set_map_find l id : NoDup (map ps_ID l) ->
  fold_left (fun acc set => if ps_ID set =? id then Some (ps_Members set) else acc) l None =
  option_map ps_Members (List.find (fun set => ps_ID set =? id) l).
Proof.
  assert (Hout : forall l (acc : option (list string)), (forall set, set ∈ l -> ps_ID set <> id) ->
    fold_left (fun acc set => if ps_ID set =? id then Some (ps_Members set) else acc) l acc = acc).
  { clear. induction l as [|x l IH]; intros acc Hl; [done|]. cbn [fold_left].
    rewrite (proj2 (Z.eqb_neq _ _)) by (apply Hl; left). apply IH. intros s Hs. apply Hl. by right. }
  induction l as [|x l IH]; intros Hnd; [done|]. cbn [map] in Hnd. apply NoDup_cons in Hnd as [Hx Hnd].
  cbn [fold_left List.find]. destruct (ps_ID x =? id) eqn:E; [|by apply IH].
  bool_prop. subst id. apply Hout. intros s Hs Heq. apply Hx. apply list_elem_of_fmap. eauto.
Qed.

(** ** One policy *)

(** What an accepted policy of the rewritten site satisfies. *)
Definition accepted_policy (s : Site) (zones : list string) (p : Policy) : Prop :=
  exists p0, validate_payload s zones p0 = (p, []) /\ po_Kind p = po_Kind p0 /\ po_Enabled p = po_Enabled p0.

Lemma validate_payload_kept s zones p p' errs : validate_payload s zones p = (p', errs) ->
  po_Kind p' = po_Kind p /\ po_Enabled p' = po_Enabled p.
Proof.
  unfold validate_payload. intros H. cbv zeta in H.
  repeat first
    [ match type of H with (if ?c then _ else _) = _ => destruct c end
    | match type of H with (match ?o with Some _ => _ | None => _ end) = _ => destruct o end
    | match type of H with (let '(_, _) := ?o in _) = _ => destruct o end ];
    apply pair_equal_spec in H as [<- _]; done.
Qed.

Lemma validate_policies_nil s zones l : forall seen l' errs, validate_policies s zones seen l = (l', errs) ->
  errs = [] -> forall p, p ∈ l' -> accepted_policy s zones p.
Proof.
  induction l as [|p l IH]; intros seen l' errs H He q Hq; cbn [validate_policies] in H.
  { simplify_eq. by apply not_elem_of_nil in Hq. }
  unfold validate_policy in H. destruct (validate_payload s zones p) as [p1 e1] eqn:Ep.
  destruct (validate_policies s zones _ l) as [l2 e2] eqn:El. apply pair_equal_spec in H as [<- H]. cbn [fst snd] in *. subst errs. rewrite !app_nil in He.
  destruct He as ((_ & _ & _ & _ & ->) & ->). apply elem_of_cons in Hq as [->|Hq]; [|by eapply IH].
  exists p. split; [done|]. by apply validate_payload_kept in Ep.
Qed.

Lemma ValidatePolicies_parts s s' : ValidatePolicies s = (s', []) ->
  NoDup (map ps_ID (PolicySets s')) /\
  Networks s' = Networks s /\ PolicyClients s' = PolicyClients s /\
  (forall p, p ∈ Policies s' ->
     accepted_policy (set_Policies s (Policies s) (PolicySets s')) ("wan" :: ActiveZoneNames s) p) /\
  policy_pairs (Policies s') = [] /\
  client_errors s' [] [] (PolicyClients s') = [] /\
  (forall p, p ∈ Policies s' ->
     blocked_errors (set_map s') ("wan" :: ActiveZoneNames s) (blocked_macs (PolicyClients s')) p = []).
Proof.
  unfold ValidatePolicies, validatePolicySets.
  destruct (validate_sets _ (PolicySets s)) as [[sets e1] over] eqn:E1. cbv zeta.
  destruct (validate_policies _ _ _ _) as [policies e2] eqn:E2. intros H.
  apply pair_equal_spec in H as [<- H]. cbn [fst snd] in H.
  rewrite !app_nil in H. destruct H as ((-> & _) & _ & -> & Hpairs & Hclients & Hblocked).
  cbn [set_Policies PolicySets Policies Networks PolicyClients].
  destruct (validate_sets_ids _ _ _ _ _ E1) as [Hids Hok]. split_and!; try done.
  - rewrite Hids. by apply Hok.
  - intros p Hp. by eapply validate_policies_nil.
  - intros p Hp. rewrite flat_map_nil in Hblocked. by apply Hblocked.
Qed.

Lemma accepted_firewall s zones p fw : accepted_policy s zones p -> po_Kind p = PolicyFirewallRule ->
  po_Firewall p = Some fw -> fr_SourceZone fw ∈ zones /\ 0 <= fr_SourceSetID fw.
Proof.
  intros (p0 & H & Hk & _) Hkind Hfw. rewrite Hk in Hkind. unfold validate_payload in H. cbv zeta in H.
  rewrite Hkind in H. destruct (negb _); [discriminate (f_equal snd H)|].
  change (String.eqb PolicyFirewallRule PolicyFirewallRule) with true in H. cbv iota in H.
  destruct (po_Firewall p0) as [fw0|]; [|discriminate (f_equal snd H)].
  destruct (validateFirewallRule _ fw0 zones) as [fw1 e1] eqn:Ev.
  apply pair_equal_spec in H as [<- H]. cbn [fst snd set_payload po_Firewall] in *.
  rewrite app_nil in H. destruct H as [-> Hset]. assert (fw1 = fw) as -> by congruence. split.
  - unfold validateFirewallRule in Ev. cbv zeta in Ev.
    destruct (canon_cidr _ "source" _) as [? ?], (canon_cidr _ "destination" _) as [? ?],
      (canon_port _ "source" _) as [? ?], (canon_port _ "destination" _) as [? ?].
    destruct (match CanonicalMACs (fr_SourceMACs fw0) with Ok _ => _ | Err _ => _ end) as [? ?].
    apply pair_equal_spec in Ev as [<- Ev]. cbn [snd fst] in Ev |- *.
    rewrite !app_nil, !if_nil in Ev. destruct Ev as (Hz & _). by apply negb_false_iff, existsb_eqb_In in Hz.
  - unfold set_ref_errors in Hset. if_hyp Hset; [discriminate Hset|]. bool_prop. lia.
Qed.

(** ** Two policies *)

Lemma overlap_false a b : protocolListsOverlap a b = false ->
  forall pa pb, pa ∈ a -> pb ∈ b -> pa <> "all" /\ pb <> "all" /\ pa <> pb.
Proof.
  unfold protocolListsOverlap. intros H pa pb Ha Hb. rewrite existsb_false_iff in H.
  specialize (H pa Ha). rewrite existsb_false_iff in H. specialize (H pb Hb). bool_prop. done.
Qed.

Definition opposing (a b : Policy) : Prop :=
  match po_Firewall a, po_Firewall b with
  | Some fa, Some fb => fr_SourceZone fa = fr_SourceZone fb /\ fr_DestinationZone fa = fr_DestinationZone fb /\
                        fr_Action fa <> fr_Action fb
  | _, _ => False
  end.

(** The WAN traffic two port forwards both claim. *)
Definition both_claim (a b : Policy) (proto : string) (port : Z) : Prop :=
  match po_PortForward a, po_PortForward b with
  | Some fa, Some fb => pf_ExternalPort fa = port /\ pf_ExternalPort fb = port /\
                        proto ∈ pf_Protocols fa /\ proto ∈ pf_Protocols fb
  | _, _ => False
  end.

(** ** Traffic

    A connection from the WAN: its protocol and source address. What the
    criteria of a rule say of it is read off the canonical texts. *)

Definition in_cidr (cidr : string) (x : Addr) : Prop :=
  cidr = "" \/ exists p, ParsePrefix cidr = Some p /\ Contains_ p x = true.
Definition speaks (protocols : list string) (proto : string) : Prop := proto ∈ protocols \/ "all" ∈ protocols.
Definition names_port (raw : string) (port : Z) : Prop :=
  raw = "" \/ raw = Itoa port \/ exists lo hi, raw = Itoa lo ++ "-" ++ Itoa hi /\ 0 <= lo <= port /\ port <= hi <= maxInt64.

(** A port forward redirects it to an address of its zone. *)
Definition redirects (f : PortForward) (proto : string) (src dst : Addr) : Prop :=
  proto ∈ pf_Protocols f /\ in_cidr (pf_SourceCIDR f) src /\ ParseAddr (pf_DestinationIP f) = Some dst.
(** A rule that does not accept WAN traffic into that zone stops it there. *)
Definition stops (r : FirewallRule) (zone proto : string) (src dst : Addr) (port : Z) : Prop :=
  fr_Action r <> FirewallAccept /\ fr_SourceZone r = "wan" /\ fr_DestinationZone r = zone /\
  speaks (fr_Protocols r) proto /\ in_cidr (fr_SourceCIDR r) src /\ in_cidr (fr_DestinationCIDR r) dst /\
  names_port (fr_DestinationPort r) port.
(** A denial stops a connection the port forward redirects. *)
Definition denies_forward (a b : Policy) (proto : string) (src dst : Addr) : Prop :=
  match po_Firewall a, po_PortForward b with
  | Some r, Some f => redirects f proto src dst /\ 0 <= pf_DestinationPort f <= maxInt64 /\
                      stops r (pf_DestinationZone f) proto src dst (pf_DestinationPort f)
  | _, _ => False
  end.

Lemma shared_bits len v w x b c : Z.shiftr (Z.lxor x v) (len - b) = 0 -> Z.shiftr (Z.lxor x w) (len - c) = 0 ->
  mask_value len (Z.min b c) v = mask_value len (Z.min b c) w.
Proof.
  rewrite !Z.shiftr_lxor, !Z.lxor_eq_0_iff. intros Hv Hw. unfold mask_value. f_equal.
  replace (len - Z.min b c) with ((len - b) + (b - Z.min b c)) at 1 by lia.
  replace (len - Z.min b c) with ((len - c) + (c - Z.min b c)) by lia.
  rewrite <- !Z.shiftr_shiftr by lia. by rewrite <- Hv, <- Hw, !Z.shiftr_shiftr, <- !Z.add_sub_swap by lia; f_equal; lia.
Qed.
(** Two prefixes that share an address overlap. *)
Lemma shared_overlaps p q x : Contains_ p x = true -> Contains_ q x = true -> Overlaps p q = true.
Proof.
  unfold Contains_, Overlaps. intros Hp Hq. apply orb_true_iff. right.
  destruct (px_Addr p) as [v|v y], (px_Addr q) as [w|w z], x as [u|u k]; try done; bool_prop; apply orb_true_iff; right; apply Z.eqb_eq.
  - by apply (shared_bits 32 v w u).
  - by apply (shared_bits 128 v w u).
Qed.

Lemma speaks_overlap a b proto : speaks a proto -> proto ∈ b -> protocolListsOverlap a b = true.
Proof.
  intros Ha Hb. destruct (protocolListsOverlap a b) eqn:E; [done|]. exfalso.
  destruct Ha as [Ha|Ha]; [destruct (overlap_false _ _ E _ _ Ha Hb) as (_ & _ & ?)|destruct (overlap_false _ _ E _ _ Ha Hb) as (? & _)]; done.
Qed.
Lemma split_one s : "-"%char ∉ chars s -> Split s "-" = [s].
Proof. intros H. unfold Split. rewrite split_none by done. cbn. by rewrite of_chars_chars. Qed.
Lemma split_two s u : "-"%char ∉ chars s -> "-"%char ∉ chars u -> Split (s ++ "-" ++ u) "-" = [s; u].
Proof.
  intros Hs Hu. unfold Split. rewrite !chars_app. change (chars "-" ++ chars u)%list with ("-"%char :: chars u).
  rewrite split_app by done. rewrite split_none by done. cbn. by rewrite !of_chars_chars.
Qed.
Lemma named_port raw port : 0 <= port <= maxInt64 -> names_port raw port ->
  String.eqb raw "" || canonicalPortContains raw port = true.
Proof.
  assert (Hno : forall n, 0 <= n -> "-"%char ∉ chars (Itoa n)).
  { intros n Hn. apply not_in_digits; [by apply Itoa_digits|done]. }
  intros Hp [->|[->|(lo & hi & -> & Hlo & Hhi)]]; [done|..]; apply orb_true_iff; right; unfold canonicalPortContains; cbv zeta.
  - rewrite split_one by (apply Hno; lia). cbn [nth]. rewrite Atoi_Itoa by lia. apply andb_true_iff. split; apply Z.leb_le; lia.
  - rewrite split_two by (apply Hno; lia). cbn [nth]. rewrite !Atoi_Itoa by lia. apply andb_true_iff. split; apply Z.leb_le; lia.
Qed.

Lemma overlap_seen a b proto src dst : po_Kind a = PolicyFirewallRule -> po_Kind b = PolicyPortForward ->
  denies_forward a b proto src dst -> policyDenialOverlapsForward a b = true.
Proof.
  unfold denies_forward, policyDenialOverlapsForward. intros -> ->.
  destruct (po_Firewall a) as [r|], (po_PortForward b) as [f|]; try done.
  intros ((Hpr & Hsrc & Hip) & Hport & (Hact & Hz & Hd & Hsp & Hrs & Hrd & Hn)).
  rewrite Hz, Hd, (proj2 (String.eqb_neq _ _) Hact), (speaks_overlap _ _ _ Hsp Hpr), !String.eqb_refl. cbn [negb orb].
  assert (Hs : negb (String.eqb (fr_SourceCIDR r) "") && negb (String.eqb (pf_SourceCIDR f) "") &&
    match ParsePrefix (fr_SourceCIDR r), ParsePrefix (pf_SourceCIDR f) with Some p, Some q => negb (Overlaps p q) | _, _ => false end = false).
  { destruct Hrs as [->|(p & -> & Hp)]; [done|]. destruct Hsrc as [->|(q & -> & Hq)]; [by rewrite andb_false_r|].
    by rewrite (shared_overlaps p q src), andb_false_r. }
  rewrite Hs. rewrite Hip.
  assert (Hdst : negb (String.eqb (fr_DestinationCIDR r) "") &&
    match ParsePrefix (fr_DestinationCIDR r) with Some p => negb (Contains_ p dst) | None => false end = false).
  { destruct Hrd as [->|(p & -> & Hp)]; [done|]. by rewrite Hp, andb_false_r. }
  destruct (ParsePrefix (fr_DestinationCIDR r)); rewrite Hdst; by apply named_port.
Qed.

Lemma pair_overlaps_nil a b : validatePolicyPair a b = [] -> po_Enabled a = true -> po_Enabled b = true ->
  policyDenialOverlapsForward a b = false /\ policyDenialOverlapsForward b a = false.
Proof.
  intros H Ha Hb. unfold validatePolicyPair in H. rewrite Ha, Hb in H. cbn [negb orb] in H.
  if_hyp H; [discriminate H|]. cbv zeta in H.
  match type of H with match ?x with Some _ => _ | None => _ end = _ => destruct x; [discriminate H|] end.
  if_hyp H; [discriminate H|]. by apply orb_false_iff.
Qed.
Lemma validatePolicyPair_nil a b : validatePolicyPair a b = [] ->
  po_Enabled a = true -> po_Enabled b = true ->
  (po_Kind a = PolicyFirewallRule -> po_Kind b = PolicyFirewallRule -> ~ opposing a b) /\
  (po_Kind a = PolicyPortForward -> po_Kind b = PolicyPortForward ->
     forall proto port, ~ both_claim a b proto port) /\
  policyDenialOverlapsForward a b = false /\ policyDenialOverlapsForward b a = false.
Proof.
  intros H Ha Hb. pose proof (pair_overlaps_nil a b H Ha Hb) as Hover.
  unfold validatePolicyPair in H. rewrite Ha, Hb in H. cbn [negb orb] in H. split_and!.
  - intros Hka Hkb Hop. rewrite Hka, Hkb in H. unfold opposing in Hop.
    destruct (po_Firewall a) as [fa|], (po_Firewall b) as [fb|]; try done. destruct Hop as (Hs & Hd & Hact).
    rewrite Hs, Hd, !String.eqb_refl in H. rewrite (proj2 (String.eqb_neq _ _) Hact) in H. discriminate H.
  - intros Hka Hkb proto port Hcl. unfold both_claim in Hcl.
    destruct (po_PortForward a) as [fa|], (po_PortForward b) as [fb|]; try done.
    destruct Hcl as (Hpa & Hpb & Hia & Hib). rewrite Hka, Hkb in H.
    change (String.eqb PolicyPortForward PolicyFirewallRule) with false in H.
    change (String.eqb PolicyPortForward PolicyPortForward) with true in H. cbn [andb] in H. cbv zeta in H.
    rewrite Hpa, Hpb, Z.eqb_refl in H. cbn [andb] in H.
    destruct (protocolListsOverlap (pf_Protocols fa) (pf_Protocols fb)) eqn:E; [discriminate H|].
    by destruct (overlap_false _ _ E proto proto Hia Hib) as (_ & _ & ?).
  - apply Hover.
  - apply Hover.
Qed.

(** Two enabled policies of an accepted list, in either order. *)
Definition agree (a b : Policy) : Prop :=
  (po_Kind a = PolicyFirewallRule -> po_Kind b = PolicyFirewallRule -> ~ opposing a b) /\
  (po_Kind a = PolicyPortForward -> po_Kind b = PolicyPortForward -> forall proto port, ~ both_claim a b proto port) /\
  (po_Kind a = PolicyFirewallRule -> po_Kind b = PolicyPortForward -> forall proto src dst, ~ denies_forward a b proto src dst).
Lemma pair_agrees a b : validatePolicyPair a b = [] -> po_Enabled a = true -> po_Enabled b = true -> agree a b /\ agree b a.
Proof.
  intros H Ha Hb. destruct (validatePolicyPair_nil a b H Ha Hb) as (H1 & H2 & H3 & H4).
  split; (split_and!; [| |intros Hka Hkb proto src dst Hd; pose proof (overlap_seen _ _ _ _ _ Hka Hkb Hd); congruence]); [done|done|..].
  - unfold opposing in *. intros Hka Hkb Hop. apply (H1 Hkb Hka). destruct (po_Firewall a), (po_Firewall b); naive_solver.
  - unfold both_claim in *. intros Hka Hkb proto port Hop. apply (H2 Hkb Hka proto port).
    destruct (po_PortForward a), (po_PortForward b); naive_solver.
Qed.

(** ** The theorem *)

(** Firewall rules and clients of an accepted site. *)
Lemma blocked_never_accepted s s' p fw c m : ValidatePolicies s = (s', []) ->
  p ∈ Policies s' -> po_Enabled p = true -> po_Kind p = PolicyFirewallRule -> po_Firewall p = Some fw ->
  fr_Action fw = FirewallAccept -> fr_DestinationZone fw <> "" -> fr_SourceZone fw <> "wan" ->
  c ∈ PolicyClients s' -> pc_Blocked c = true -> canon_mac (pc_MAC c) = Ok m ->
  exists macs, FirewallSourceMACs s' (Some fw) = Some macs /\ macs <> [] /\ m ∉ macs.
Proof.
  intros H Hp He Hk Hfw Hact Hdest Hsrc Hc Hbl Hm.
  destruct (ValidatePolicies_parts _ _ H) as (Hnd & _ & _ & Hacc & _ & _ & Hblk).
  destruct (accepted_firewall _ _ _ _ (Hacc p Hp) Hk Hfw) as [Hzone Hset].
  assert (Hmb : m ∈ blocked_macs (PolicyClients s')) by (apply blocked_macs_spec; eauto).
  specialize (Hblk p Hp). unfold blocked_errors in Hblk. rewrite Hfw, He, Hk, Hact in Hblk.
  rewrite bool_decide_false in Hblk by (intros Hn; rewrite Hn in Hmb; by apply not_elem_of_nil in Hmb).
  rewrite (proj2 (String.eqb_neq _ _) Hdest), (proj2 (String.eqb_neq _ _) Hsrc) in Hblk.
  rewrite (proj2 (existsb_eqb_In _ _) Hzone) in Hblk.
  change (String.eqb PolicyFirewallRule PolicyFirewallRule) with true in Hblk.
  change (String.eqb FirewallAccept FirewallAccept) with true in Hblk. cbn [negb orb] in Hblk. cbv zeta in Hblk.
  assert (Hne : forall x, x ∈ blocked_macs (PolicyClients s') -> x <> "").
  { intros x Hx. apply blocked_macs_spec in Hx as (c' & _ & _ & Hx). by destruct (canon_mac_spec _ _ Hx) as (? & _ & _ & ?). }
  assert (Hsrcs : (if 0 <? fr_SourceSetID fw then set_map s' (fr_SourceSetID fw) else Some (fr_SourceMACs fw))
    = FirewallSourceMACs s' (Some fw)).
  { unfold FirewallSourceMACs, set_map, PolicySetByID. destruct (0 <? fr_SourceSetID fw) eqn:E; bool_prop.
    - rewrite set_map_find by done. by rewrite (proj2 (Z.eqb_neq _ _)) by lia.
    - by rewrite (proj2 (Z.eqb_eq _ _)) by lia. }
  rewrite Hsrcs in Hblk.
  assert (Hfirst : first_blocked (blocked_macs (PolicyClients s')) <> "").
  { apply first_blocked_nonempty; [|done]. intros Hn. rewrite Hn in Hmb. by apply not_elem_of_nil in Hmb. }
  destruct (FirewallSourceMACs s' (Some fw)) as [[|x macs]|]; cbv beta iota in Hblk.
  - rewrite (proj2 (String.eqb_neq _ _) Hfirst), orb_true_r in Hblk. discriminate Hblk.
  - exists (x :: macs). split_and!; [done..|]. intros Hin.
    destruct (List.find (fun mac => existsb (String.eqb mac) (blocked_macs (PolicyClients s'))) (x :: macs))
      as [y|] eqn:Ef.
    + apply find_some in Ef as [_ Ey]. apply existsb_eqb_In in Ey. change (default "" (Some y)) with y in Hblk.
      rewrite (proj2 (String.eqb_neq _ _) (Hne y Ey)), orb_true_r in Hblk. discriminate Hblk.
    + pose proof (find_none _ _ Ef m ltac:(by apply list_elem_of_In)) as Hx. cbn beta in Hx.
      rewrite (proj2 (existsb_eqb_In _ _) Hmb) in Hx. discriminate Hx.
  - discriminate Hblk.
Qed.

(** C23. The policies of an accepted site do not contradict one another, so
    no evaluation order of the rules is presumed. Between the same two zones
    no two enabled firewall rules have different actions; no two enabled port
    forwards claim the same protocol on the same WAN port; and no enabled rule
    that denies WAN traffic matches a connection that an enabled port forward
    redirects, by its protocol, its source and the address and port it is
    redirected to. An enabled rule that accepts forwarded traffic from a
    managed zone names the clients it applies to and does not name a blocked
    one, as soon as any client is blocked. *)
Theorem accepted_policies_consistent s s' : Validate s = (s', []) ->
  (forall i j a b, Policies s' !! i = Some a -> Policies s' !! j = Some b -> i <> j ->
     po_Enabled a = true -> po_Enabled b = true ->
     (po_Kind a = PolicyFirewallRule -> po_Kind b = PolicyFirewallRule -> ~ opposing a b) /\
     (po_Kind a = PolicyPortForward -> po_Kind b = PolicyPortForward ->
        forall proto port, ~ both_claim a b proto port) /\
     (po_Kind a = PolicyFirewallRule -> po_Kind b = PolicyPortForward ->
        forall proto src dst, ~ denies_forward a b proto src dst)) /\
  (forall p fw c m, p ∈ Policies s' -> po_Enabled p = true -> po_Kind p = PolicyFirewallRule ->
     po_Firewall p = Some fw -> fr_Action fw = FirewallAccept -> fr_DestinationZone fw <> "" ->
     fr_SourceZone fw <> "wan" ->
     c ∈ PolicyClients s' -> pc_Blocked c = true -> canon_mac (pc_MAC c) = Ok m ->
     exists macs, FirewallSourceMACs s' (Some fw) = Some macs /\ macs <> [] /\ m ∉ macs).
Proof.
  intros H. destruct (Validate_parts _ _ H) as (Hs & _ & _ & _ & _ & _ & Hnil & _).
  assert (HV : ValidatePolicies s = (s', [])) by (destruct (ValidatePolicies s); simpl in *; congruence).
  destruct (ValidatePolicies_parts _ _ HV) as (_ & _ & _ & _ & Hpairs & _). split.
  - intros i j a b Hi Hj Hne Ha Hb. destruct (decide (i < j)%nat) as [Hlt|Hge].
    + apply (pair_agrees a b); [|done..]. exact (pairs_nil_lookup _ _ _ _ _ _ Hpairs Hi Hj Hlt).
    + apply (pair_agrees b a); [|done..]. apply (pairs_nil_lookup _ _ _ _ _ _ Hpairs Hj Hi). lia.
  - intros p fw c m. apply (blocked_never_accepted s). exact HV.
Qed.

(** * A concrete site

    One site with two managed networks, an explicit zone edge, a firewall
    rule, a port forward, a static route and a blocked client, accepted by
    [Validate]; the theorems about accepted sites are applied to it. *)

From Stdlib Require Import ZArith Lia Ascii String Sorted.
From stdpp Require Import base gmap list strings sorting.
From S2P Require Import Prelude GoStr GoFmt NetIP SiteModel SitePolicy SiteModelSpec SiteValidSpec.

Local Open Scope string_scope.
Local Open Scope Z_scope.

Module SiteRuns.

Definition lan : Network := MkNetwork 1 "lan" 1 "" "" None None false true.
Definition iot : Network :=
  MkNetwork 2 "iot" 20 "10.7.45.1/24" "" (Some (MkDHCP true 100 50 " 6h ")) None false true.
Definition guest : Network := MkNetwork 3 "Guest WiFi" 30 "10.7.46.1/24" "guests" None None true true.

Definition home_wifi : WLAN :=
  MkWLAN 5 "home" 2 1 [Band2G; Band5G] (MkSecurity SecSAE "correct horse" "") (MkRoaming true false true false)
    (MkWLANOptions false false 0 true) true.

Definition printer_rule : FirewallRule :=
  MkFirewallRule FirewallAccept "iot" "guests" [" TCP "; "udp"; "tcp"] "10.7.45.9/24" "" "" "631" 0
    ["AA-BB-CC-DD-EE-01"; "aa:bb:cc:dd:ee:02"].
Definition camera_forward : PortForward :=
  MkPortForward "wan" "iot" ["tcp"] 8443 "10.7.45.20" 443 "".
Definition vpn_route : StaticRoute := MkStaticRoute 2 "10.99.0.0/16" "10.7.45.2" 10.

Definition home : Site :=
  MkSite "5b0c" "home" [lan; iot; guest]
    [MkZonePolicy "iot" ["wan"; "guests"; "wan"] false]
    [MkPolicy 1 0 "printer" PolicyFirewallRule PolicyOriginManual true (Some printer_rule) None None;
     MkPolicy 2 1 "camera" PolicyPortForward PolicyOriginManual true None (Some camera_forward) None;
     MkPolicy 3 2 "vpn" PolicyStaticRoute PolicyOriginManual true None None (Some vpn_route)]
    [MkPolicySet 1 "printers" ["aabb.ccdd.ee03"]]
    [MkPolicyClient "AA:BB:CC:DD:EE:07" "" true ""; MkPolicyClient "aa:bb:cc:dd:ee:02" "" false "10.7.45.9"]
    [home_wifi]
    [MkMesh 9 "backhaul" 1 2 Band5G "longenough" true]
    [MkUplink 1 77 5 Band2G true]
    [MkGroup 1 "all" [11; 12]; MkGroup 2 "mesh" [11]] ∅.

Definition home' : Site := fst (Validate home).

Lemma home_valid : Validate home = (home', []).
Proof. vm_compute. reflexivity. Qed.

(** The rewritten firewall rule: canonical protocols, network and addresses. *)
Definition printer_rule' : FirewallRule :=
  MkFirewallRule FirewallAccept "iot" "guests" ["tcp"; "udp"] "10.7.45.0/24" "" "" "631" 0
    ["aa:bb:cc:dd:ee:01"; "aa:bb:cc:dd:ee:02"].
Definition printer_policy' : Policy :=
  MkPolicy 1 0 "printer" PolicyFirewallRule PolicyOriginManual true (Some printer_rule') None None.

Example home_canonical : Policies home' !! 0%nat = Some printer_policy'.
Proof. vm_compute. reflexivity. Qed.

Lemma home_pools : int_pools home.
Proof.
  intros n Hn. unfold in_i64, minInt64, maxInt64. cbn [home Networks] in Hn.
  rewrite !elem_of_cons, elem_of_nil in Hn. destruct Hn as [->|[->|[->|[]]]]; cbn; lia.
Qed.

Lemma valid_site_addressing_witness :
  Validate home = (home', []) /\
  exists p q, validateNetworkCIDR (n_CIDR iot) = Ok p /\ validateNetworkCIDR (n_CIDR guest) = Ok q /\
    forall x, Contains_ p (A4 x) = true -> Contains_ q (A4 x) = true -> False.
Proof.
  split; [exact home_valid|].
  destruct (valid_site_addressing home home' home_pools home_valid) as [_ H].
  exists (MkPrefix (A4 168242433) 24), (MkPrefix (A4 168242689) 24). split; [reflexivity|]. split; [reflexivity|].
  intros x. destruct (H 1%nat 2%nat iot guest eq_refl eq_refl ltac:(lia)) as [_ Hd].
  apply (Hd eq_refl eq_refl); reflexivity.
Defined.

Lemma valid_site_zones_witness :
  Validate home = (home', []) /\ ActiveZoneNames home = ["guests"; "iot"] /\
  map zp_Name (EffectiveZonePolicies home) = ActiveZoneNames home /\
  FirewallZoneName "guests" <> "wan".
Proof.
  split; [exact home_valid|]. split; [vm_compute; reflexivity|].
  destruct (valid_site_zones home home' home_valid) as (_ & Hids & _ & Hnames & _).
  split; [exact Hnames|]. apply (Hids "guests"). by apply (bool_decide_unpack _); vm_compute.
Defined.

Lemma accepted_policies_consistent_witness :
  Validate home = (home', []) /\
  exists macs, FirewallSourceMACs home' (Some printer_rule') = Some macs /\
    macs <> [] /\ "aa:bb:cc:dd:ee:07" ∉ macs.
Proof.
  split; [exact home_valid|].
  destruct (accepted_policies_consistent home home' home_valid) as [_ H].
  apply (H printer_policy' printer_rule' (MkPolicyClient "AA:BB:CC:DD:EE:07" "" true "") "aa:bb:cc:dd:ee:07");
    try reflexivity; try discriminate.
  - exact (list_elem_of_lookup_2 _ _ _ home_canonical).
  - apply (list_elem_of_lookup_2 _ 0%nat). vm_compute. reflexivity.
Defined.

(** A WAN denial of the port the camera is reached on contradicts its forward;
    one of another port does not. *)
Definition wan_denial (ports : string) : Policy :=
  MkPolicy 9 9 "no-cameras" PolicyFirewallRule PolicyOriginManual true
    (Some (MkFirewallRule FirewallDrop "wan" "iot" ["tcp"] "" "10.7.45.0/24" "" ports 0 [])) None None.
Definition camera_policy : Policy := MkPolicy 2 1 "camera" PolicyPortForward PolicyOriginManual true None (Some camera_forward) None.
Example denied_camera : denies_forward (wan_denial "440-450") camera_policy "tcp" (A4 16909060) (A4 168242452) /\
  validatePolicyPair (wan_denial "440-450") camera_policy <> [] /\ validatePolicyPair (wan_denial "80") camera_policy = [].
Proof.
  split; [|vm_compute; split; [discriminate|reflexivity]]. unfold denies_forward, redirects, stops, speaks, in_cidr, names_port. cbn.
  split_and!; try reflexivity; try discriminate; try lia; try (by left); [left; by apply list_elem_of_here..| |].
  - right. eexists. split; [reflexivity|]. vm_compute. reflexivity.
  - right. right. exists 440, 450. unfold maxInt64. split_and!; [reflexivity|lia..].
Qed.

Definition lobby : gmap Z (list Override) :=
  {[11 := [MkOverride 11 5 OverrideMaxAssoc " 20 "; MkOverride 11 5 OverrideHidden "TRUE";
           MkOverride 11 6 OverrideDisabled "1"]]}.

Lemma override_scope_witness :
  let '(w', published) := Overrides_Apply lobby 11 home_wifi in
  w_Options w' = MkWLANOptions true false 20 true /\ published = true /\
  set_Options w' (w_Options home_wifi) = home_wifi.
Proof.
  destruct (Overrides_Apply lobby 11 home_wifi) as [w' published] eqn:E.
  destruct (override_scope _ _ _ _ _ E) as (Hs & _ & Hr).
  destruct Hr as [-> ->]; [by apply (bool_decide_unpack _); vm_compute|].
  split; [vm_compute; reflexivity|]. split; [vm_compute; reflexivity|]. reflexivity.
Defined.

Lemma functions_roundtrip_witness :
  ParseDeviceFunctions (Some ["switch"; " AP "; "ap"]) RoleGateway = Ok ["ap"; "switch"] /\
  ParseDeviceFunctions (Some (Functions_Strings ["ap"; "switch"])) RoleGateway = Ok ["ap"; "switch"] /\
  DeviceFunctionsOf (Some ["router"]) RoleGateway = [].
Proof.
  split; [reflexivity|]. destruct (functions_roundtrip RoleGateway) as (H1 & H2 & H3). split.
  - apply H2; [apply (H1 (Some ["switch"; " AP "; "ap"])); reflexivity|discriminate].
  - eapply (H3 ["router"]). reflexivity.
Defined.

Lemma override_path_roundtrip_witness :
  let o := MkOverride 11 5 OverrideMaxAssoc "20" in
  ParseOverridePath (Override_Path o) = Ok (5, OverrideMaxAssoc).
Proof.
  intros o. destruct override_path_roundtrip as [H _]. apply (H o); [|reflexivity].
  cbn. unfold maxInt64. lia.
Defined.

End SiteRuns.
