(* ===== verification/Capability.v ===== *)
(** * What a device can do (internal/capability)

    The capability registry a device's probe leaves behind, with its
    three-valued answers, and the table of known driver defects: the parts of
    [registry.go] the renderer consults and all of [defects.go]. Probing
    itself ([probe.go]) reads device-specific text and is not modelled. *)

From Stdlib Require Import ZArith Lia Ascii String.
From stdpp Require Import base gmap list strings sorting.
From S2P Require Import Prelude GoStr GoFmt.

Local Open Scope string_scope.
Local Open Scope Z_scope.

(** A double quote inside a text. *)
Definition dq : string := String dquote "".

(** ** Registry (registry.go) *)

Inductive CapState : Type := Unknown | Present | Absent | NotObservable.

#[export] Instance CapState_eq_dec : EqDecision CapState.
Proof. solve_decision. Defined.

Definition State_String (s : CapState) : string :=
  match s with
  | Present => "present"
  | Absent => "absent"
  | NotObservable => "not-observable"
  | Unknown => "unknown"
  end.

Definition Buildable (s : CapState) : bool := bool_decide (s = Present).
Definition Decided (s : CapState) : bool := bool_decide (s = Present) || bool_decide (s = Absent).

Definition FeatDSA : string := "dsa".
Definition FeatSwitchPorts : string := "switch-port-stats".
Definition FeatFirewall4 : string := "firewall4".
Definition FeatSurvey : string := "iwinfo-survey".
Definition FeatMesh : string := "mesh-80211s".
Definition FeatWirelessUplink : string := "wireless-uplink".

Record Quirk := MkQuirk { qk_Source : string; qk_Field : string; qk_Reason : string }.

Record Board := MkBoard { bd_Model : string; bd_BoardName : string }.

Record Ports := MkPorts { pt_Bridge : string; pt_LAN : list string }.

Record Radio := MkRadio {
  ra_Section : string;
  ra_Device : string;
  ra_Phy : string;
  ra_Channel : Z;
  ra_Frequency : Z;
  ra_Hardware : string;
  ra_Band : string;
}.

(** The fields the renderer reads. *)
Record Registry := MkRegistry {
  rg_Board : Board;
  rg_Features : gmap string CapState;
  rg_Quirks : list Quirk;
  rg_Radios : list Radio;
  rg_Ports : Ports;
}.

(** A missing key of a Go map reads as the zero state. *)
Definition State (r : Registry) (f : string) : CapState := default Unknown (rg_Features r !! f).

Definition Can (r : Registry) (f : string) : bool := Buildable (State r f).

Definition HasQuirk (r : Registry) (source field : string) : bool :=
  existsb (fun q => String.eqb (qk_Source q) source && String.eqb (qk_Field q) field) (rg_Quirks r).

Definition AddQuirk (r : Registry) (q : Quirk) : Registry :=
  if existsb (fun e => String.eqb (qk_Source e) (qk_Source q) && String.eqb (qk_Field e) (qk_Field q)) (rg_Quirks r)
  then r
  else MkRegistry (rg_Board r) (rg_Features r) (rg_Quirks r ++ [q])%list (rg_Radios r) (rg_Ports r).

(** The range over the map is in any order; the result is sorted. *)
Definition Unobservable (r : Registry) : list string :=
  sort_strings (flat_map (fun fs => if bool_decide (snd fs = NotObservable) then [fst fs] else [])
                  (map_to_list (rg_Features r))).

(** ** Known defects (defects.go) *)

Definition ConfDeviceDoc : string := "documented".
Definition ConfMeasuredHere : string := "measured".
Definition ConfBugTracker : string := "reported".
Definition ConfAnecdote : string := "anecdotal".
Definition SevRadioDeath : string := "radio-death".
Definition SevSilentlyIgnored : string := "silently-ignored".
Definition SevDegraded : string := "degraded".

Record Defect := MkDefect {
  df_ID : string;
  df_Hardware : string;
  df_Summary : string;
  df_Detail : string;
  df_Source : string;
  df_Confidence : string;
  df_Severity : string;
  df_Mitigation : string;
  df_Triggers : option (gmap string string -> bool);
  df_TriggersRadio : option (Radio -> bool);
}.

Definition Configured (d : Defect) : bool :=
  bool_decide (is_Some (df_Triggers d)) || bool_decide (is_Some (df_TriggersRadio d)).

Definition isDFSChannel (ch : Z) : bool :=
  ((52 <=? ch) && (ch <=? 64)) || ((100 <=? ch) && (ch <=? 144)).

Definition val (v : gmap string string) (k : string) : string := default "" (v !! k).

Definition pmf_on (v : gmap string string) : bool :=
  negb (String.eqb (val v "ieee80211w") "") && negb (String.eqb (val v "ieee80211w") "0").
Definition sae_on (v : gmap string string) : bool := Contains (ToLowerRunes (val v "encryption")) "sae".

Definition pmf_defect : Defect :=
  MkDefect
    ("mwlwifi-80211w-unsupported")
    ("marvell")
    ("802.11w (protected management frames) is not properly supported by this radio's driver")
    ("The mwlwifi driver accepts ieee80211w and does not implement it " ++
     "correctly. OpenWrt's own page for this hardware says not to enable it, " ++
     "and it is off by default there for that reason. Measured here rather " ++
     "than merely repeated: with PMF on, the FIRST 802.11r fast-transition " ++
     "roam onto the 5 GHz radio logged " ++ dq ++ "kernel reports: key addition " ++
     "failed" ++ dq ++ ", and 85 seconds later the radio's firmware stopped answering " ++
     "— " ++ dq ++ "cmd 0x801d=MEMAddrAccess timed out" ++ dq ++ ", every 20 seconds thereafter, " ++
     "then hostapd blocked and every other radio on the device went with it. " ++
     "Recovery needed a power cycle. The same device, same boot, had run " ++
     "14h50m carrying clients on that radio with PMF off. Turning PMF back " ++
     "on and forcing one roam was enough.")
    ("measured on a WRT3200ACM (88W8964), 2026-08-17; " ++
     "https://openwrt.org/toh/linksys/wrt3200acm")
    ConfMeasuredHere SevRadioDeath
    ("Either set PMF to disabled on this WLAN, or stop publishing " ++
     "it on this device (the per-device " ++ dq ++ "disabled" ++ dq ++ " override). PMF cannot " ++
     "be varied per device: APs in one mobility domain must agree on their " ++
     "RSN capabilities or 802.11r fast transition fails intermittently " ++
     "rather than cleanly, which is why security settings are deliberately " ++
     "not overridable. So turning it off here turns it off for every AP " ++
     "carrying this WLAN — if the others are healthy, not publishing it on " ++
     "this one keeps them protected. Note also that WPA3/SAE requires PMF, " ++
     "so this hardware cannot run WPA3 at all. " ++
     "KEEP 802.11r: fast roaming is what exposes this, but it is not what " ++
     "breaks it. The same device ran 14h50m with 802.11r on and PMF off, " ++
     "through fast-transition roams that logged the identical " ++ dq ++ "key " ++
     "addition failed" ++ dq ++ " line, and stayed up — the firmware only died once " ++
     "PMF was added. Turning off fast roaming instead would cost you " ++
     "seamless handover and would not be the fix. Whether PMF also kills " ++
     "this radio with fast roaming disabled is untested and not worth " ++
     "testing: the hardware's own documentation says not to enable " ++
     "802.11w at all, and the failure it produces needs somebody to " ++
     "physically power-cycle the device. Leave PMF off here.")
    (Some pmf_on) None.

Definition wpa3_defect : Defect :=
  MkDefect
    ("mwlwifi-wpa3-unsupported")
    ("marvell")
    ("WPA3/SAE does not work reliably on this radio and can crash the router")
    ("OpenWrt's page for this hardware states WPA3 will not reliably work " ++
     "because of mwlwifi driver issues, that it can crash the router outright, " ++
     "and that the driver is unlikely ever to support it.")
    ("https://openwrt.org/toh/linksys/wrt3200acm")
    ConfDeviceDoc SevRadioDeath
    ("Use WPA2-PSK (psk2) on WLANs carried by this radio.")
    (Some sae_on) None.

Definition dfs_defect : Defect :=
  MkDefect
    ("mwlwifi-dfs-channels")
    ("marvell")
    ("the 5 GHz radio can fail to start on DFS channels")
    ("OpenWrt's page for this hardware strongly recommends channel 36 or " ++
     "auto on the 5 GHz radio to avoid crashing the wifi chipset.")
    ("https://openwrt.org/toh/linksys/wrt3200acm")
    ConfDeviceDoc SevRadioDeath
    ("Use channel 36, or auto, on the 5 GHz radio. The controller " ++
     "does not manage channels, so this one has to be changed on the device.")
    None (Some (fun r => isDFSChannel (ra_Channel r))).

Definition hang_defect : Defect :=
  MkDefect
    ("mwlwifi-firmware-hang")
    ("marvell")
    ("this radio's firmware can stop responding, taking every radio on the device with it")
    ("The driver has no firmware recovery path at all. In " ++
     "hif/pcie/pcie.c (kaloz/mwlwifi db97edf2, the commit OpenWrt pins), a " ++
     "host command that times out logs, sets cmd_timeout and returns -EIO; " ++
     "nothing resets or re-initialises the chip, and the firmware is " ++
     "re-downloaded only on PCI probe. So neither a `wifi` restart nor " ++
     "re-applying config can recover it. That much is driver-wide, shared " ++
     "across the 88W8864/8997/8964; the hang itself is what the 88W8964 " ++
     "does in the field. Measured on the reference WRT3200ACM: the 5 GHz " ++
     "firmware stops " ++
     "answering (the repeating " ++ dq ++ "cmd 0x801d=MEMAddrAccess timed out" ++ dq ++ " is the " ++
     "driver's own heartbeat probe failing, so it confirms the firmware is " ++
     "already dead rather than causing it), hostapd blocks in " ++
     "uninterruptible sleep, and because nl80211 operations serialise, every " ++
     "other radio on the device stops answering too — including a healthy one. " ++
     "Recovery needs a power cycle. Seen at 17, 28 and 50 minutes after boot on " ++
     "one device; it is not known how widely it affects this model.")
    ("docs/project/status.md §5aa; hif/pcie/pcie.c in kaloz/mwlwifi db97edf2")
    ConfMeasuredHere SevRadioDeath
    ("Power cycle. Do NOT try `rmmod mwlwifi; modprobe mwlwifi` — it " ++
     "is the most commonly repeated remedy and it was measured here to make " ++
     "things worse, leaving modprobe hung with no radios at all and still " ++
     "needing the reboot. Nothing preventive is proven. Both observed wedges " ++
     "were preceded by a key-install failure on a client during an 802.11r " ++
     "association, so disabling PMF and fast transition on this hardware is " ++
     "worth trying, but it is untested and the correlation is two samples.")
    None None.

Definition knownDefects : list Defect := [pmf_defect; wpa3_defect; dfs_defect; hang_defect].

Definition HardwareIdentified (r : option Registry) : bool :=
  match r with
  | None => false
  | Some r => existsb (fun ra => negb (String.eqb (TrimSpace (ra_Hardware ra)) "")) (rg_Radios r)
  end.

Definition df_id_le (a b : Defect) : Prop := str_le (df_ID a) (df_ID b).
#[export] Instance df_id_le_dec a b : Decision (df_id_le a b).
Proof. unfold df_id_le. apply _. Defined.

(** One hardware name against the table; [seen] are the defects taken. *)
Definition match_hardware (acc : list Defect) (name : string) : list Defect :=
  let hw := ToLowerRunes name in
  if String.eqb hw "" then acc
  else fold_left (fun acc d =>
         if existsb (fun e => String.eqb (df_ID e) (df_ID d)) acc ||
            negb (Contains hw (ToLowerRunes (df_Hardware d))) then acc
         else (acc ++ [d])%list) knownDefects acc.

Definition DefectsFor (r : option Registry) : list Defect :=
  match r with
  | None => []
  | Some r =>
      let board := ToLowerRunes (bd_Model (rg_Board r) ++ " " ++ bd_BoardName (rg_Board r)) in
      let hardware := (map ra_Hardware (rg_Radios r) ++
                       (if Contains board "wrt3200acm" then ["Marvell 88W8964"] else []))%list in
      merge_sort df_id_le (fold_left match_hardware hardware [])
  end.

Definition MayAffect (d : Defect) (r : Radio) : bool :=
  let hw := ToLowerRunes (TrimSpace (ra_Hardware r)) in
  if String.eqb hw "" || HasPrefix hw "generic" || String.eqb hw "unknown" then true
  else Contains hw (ToLowerRunes (df_Hardware d)).

Definition TriggeredByOn (r : option Registry) (vals : gmap string string) (radio : option Radio) : list Defect :=
  List.filter (fun d =>
    match df_Triggers d with
    | None => false
    | Some t => t vals && match radio with Some ra => MayAffect d ra | None => true end
    end) (DefectsFor r).

Definition TriggeredBy (r : option Registry) (vals : gmap string string) : list Defect := TriggeredByOn r vals None.

Definition TriggeredByRadios (r : option Registry) : list Defect :=
  match r with
  | None => []
  | Some reg =>
      List.filter (fun d =>
        match df_TriggersRadio d with
        | None => false
        | Some t => existsb (fun ra => MayAffect d ra && t ra) (rg_Radios reg)
        end) (DefectsFor r)
  end.
