(* ===== verification/RenderNetwork.v ===== *)
(** * Rendering networks (internal/render/network.go)

    A network becomes a tagged bridge VLAN, an interface, a DHCP section and
    a share in a firewall zone, according to the device's functions; the IPv6
    policy of the management network becomes option-level patches; a zone
    becomes its firewall sections; and configuration the controller does not
    own that would defeat any of these is reported as a conflict. A Go map of
    values is a [gmap]; where the code ranges over one it sorts the names
    first, and so does the model. *)

From Stdlib Require Import ZArith Lia Ascii String.
From stdpp Require Import base gmap list strings sorting.
From S2P Require Import Prelude GoStr GoFmt NetIP ApplyEngine SiteModel Capability RenderPlan.

Local Open Scope string_scope.
Local Open Scope Z_scope.

(** A map literal. *)
Definition vals (l : list (string * string)) : gmap string string := list_to_map l.

(** The names of a config's sections, sorted, and one section's options. *)
Definition section_names (e : gmap string (gmap string (gmap string string))) (config : string) : list string :=
  sort_strings (keys (In_ e config)).
Definition section_of (e : gmap string (gmap string (gmap string string))) (config name : string)
  : gmap string string := default ∅ (In_ e config !! name).

(** ** Names *)

Definition maxZoneName : Z := FirewallZoneMaxLen.

Definition itoa (n : Z) : string := Itoa n.

Definition safe (s : string) : string :=
  let out := TrimByte "_" (of_chars (flat_map zone_char (chars (ToLowerRunes (TrimSpace s))))) in
  if String.eqb out "" then "net" else out.

Definition fwZoneName (s : string) : string := FirewallZoneName s.

Definition netIfaceName (name : string) : string := NamePrefix ++ "_net_" ++ safe name.

Definition networkAttachmentName (n : Network) : string :=
  if n_VLAN n <=? 1 then n_Name n else netIfaceName (n_Name n).

Definition dhcp_name (n : Network) : string := NamePrefix ++ "_dhcp_" ++ safe (n_Name n).

Definition hasString (hay : list string) (needle : string) : bool := existsb (fun s => String.eqb s needle) hay.
Definition quoteAll (l : list string) : list string := map Quote l.

Definition exampleCIDR (vlan : Z) : string :=
  if (vlan <? 1) || (254 <? vlan) then "192.168.20.1/24" else "192.168." ++ Itoa vlan ++ ".1/24".

Definition readoptFix : string :=
  ("Re-adopt this device from the Devices screen — adoption " ++
   "rewrites its access-control file, and the one the controller ships grants " ++
   "this — then re-probe from the device's screen.").

(** ** Addresses *)

Definition digit_value (l : list ascii) : option Z :=
  if forallb is_digit l then digits_value l 0 else None.

Definition validIPv4 (s : string) : bool :=
  match split_chars "." (chars s) with
  | [a; b; c; d] =>
      forallb (fun p => negb (bool_decide (p = [])) && (length p <=? 3)%nat &&
                 match digit_value p with Some n => n <=? 255 | None => false end) [a; b; c; d]
  | _ => false
  end.

(** The prefix length is accumulated digit by digit and refused beyond 32. *)
Fixpoint prefix_bits (l : list ascii) (bits : Z) : option Z :=
  match l with
  | [] => Some bits
  | c :: l' =>
      if negb (is_digit c) then None
      else let bits' := bits * 10 + (byte_of c - 48) in
           if 32 <? bits' then None else prefix_bits l' bits'
  end.

Definition splitCIDR (cidr : string) : option (string * string) :=
  match cut_chars "/" (chars (TrimSpace cidr)) with
  | None => None
  | Some (addr, prefix) =>
      if negb (validIPv4 (of_chars addr)) then None
      else match prefix_bits prefix 0 with
           | None => None
           | Some bits =>
               if bool_decide (prefix = []) || (bits <? 8) then None
               else Some (of_chars addr,
                          String4 (Z.shiftl maxUint32 (32 - bits) mod 2 ^ 32))
           end
  end.

(** ** Options as fw4 reads them *)

Definition option_word (value : string) : string := ToLowerRunes (TrimSpace value).

Definition pppProtocol (protocol : string) : bool :=
  existsb (String.eqb (option_word protocol)) ["ppp"; "pppoe"; "pppoa"; "pptp"; "l2tp"].
Definition uciOptionFalse (value : string) : bool :=
  existsb (String.eqb (option_word value)) ["0"; "off"; "false"; "no"].
Definition uciOptionTrue (value : string) : bool :=
  existsb (String.eqb (option_word value)) ["1"; "on"; "true"; "yes"].

Definition family_any (value : string) : bool :=
  existsb (String.eqb value) [""; "any"; "all"; "*"; "inet"].

Definition familyCouldMatchIPv4 (value : string) : bool :=
  let value := option_word value in
  if family_any value then true
  else if Contains value "4" then true
  else negb (Contains value "6").
Definition familyCouldMatchIPv6 (value : string) : bool :=
  let value := option_word value in
  if family_any value then true
  else if Contains value "6" then true
  else negb (Contains value "4").

(** A leading exclamation mark, and what follows it. *)
Definition inverted (field : string) : bool * string :=
  match field with
  | String c rest => if Ascii.eqb c "!" then (true, rest) else (false, field)
  | EmptyString => (false, field)
  end.

(** [None]: syntax the code does not know. *)
Definition protocol_field (field want : string) : option bool :=
  if existsb (String.eqb field) ["all"; "any"; "*"] then Some true
  else if String.eqb field "tcpudp" then Some (String.eqb want "tcp" || String.eqb want "udp")
  else if String.eqb field "6" then Some (String.eqb want "tcp")
  else if String.eqb field "17" then Some (String.eqb want "udp")
  else if existsb (String.eqb field) ["tcp"; "udp"; "icmp"; "icmpv6"; "esp"; "ah"; "gre"]
  then Some (String.eqb field want)
  else None.

(** The loops of [protocolCouldMatch] and [portCouldMatch]: an unknown field
    ends them with true. *)
Fixpoint could_match (field_match : string -> option bool) (fields : list string)
  (positive matched excluded : bool) : bool :=
  match fields with
  | [] => negb excluded && (negb positive || matched)
  | f :: fields' =>
      let '(invert, f) := inverted f in
      match field_match f with
      | None => true
      | Some m => if invert then could_match field_match fields' positive matched (excluded || m)
                  else could_match field_match fields' true (matched || m) excluded
      end
  end.

Definition protocolCouldMatch (value want : string) : bool :=
  let fields := match Fields (option_word value) with [] => ["tcpudp"] | fs => fs end in
  could_match (fun f => protocol_field f want) fields false false false.

(** [strings.FieldsFunc] on hyphens and colons. *)
Definition port_parts (field : string) : list string :=
  List.filter (fun p => negb (String.eqb p ""))
    (Split (str_map (fun c => if Ascii.eqb c ":" then "-"%char else c) field) "-").

Definition port_field (field : string) (want : Z) : option bool :=
  let bound lo p := match Atoi p with
                    | Some n => if (n <? lo) || (65535 <? n) then None else Some n
                    | None => None
                    end in
  match port_parts field with
  | [p0] => match bound 0 p0 with Some lo => Some (want =? lo) | None => None end
  | [p0; p1] =>
      match bound 0 p0 with
      | Some lo => match bound lo p1 with
                   | Some hi => Some ((lo <=? want) && (want <=? hi))
                   | None => None
                   end
      | None => None
      end
  | _ => None
  end.

Definition portCouldMatch (value : string) (want : Z) : bool :=
  match Fields (TrimSpace value) with
  | [] => true
  | fields => could_match (fun f => port_field f want) fields false false false
  end.

Definition syntax_chars : list ascii := ["!"; "{"; "}"; ","; ";"; dquote; "'"]%char.

Definition foreignSourceCouldMatch (value want : string) : bool :=
  let value := TrimSpace value in
  if String.eqb value "" then false
  else if String.eqb value "*" || String.eqb value want then true
  else ContainsAny value syntax_chars || negb (length (Fields value) =? 1)%nat.

(** ** One network *)

Definition bridgeIsVLANAware (caps : option Registry) (e : gmap string (gmap string (gmap string string))) : bool :=
  match caps with
  | None => false
  | Some r =>
      let bridge := pt_Bridge (rg_Ports r) in
      if String.eqb bridge "" then false
      else existsb (fun kv => String.eqb (get (snd kv) ".type") "bridge-vlan" &&
                              String.eqb (get (snd kv) "device") bridge) (map_to_list (In_ e "network"))
  end.

Definition vlanPrerequisite (bridge : string) : string :=
  msg ("this device's %s is not VLAN-aware yet, and oonfeeWRT " ++
       "will not make it so: enabling VLAN filtering requires moving the " ++
       "existing 'lan' interface from %s to %s.1, which is configuration " ++
       "oonfeeWRT does not own — and getting it wrong takes the LAN down " ++
       "(measured). Make that one change in LuCI or over SSH (set the LAN " ++
       "interface's device to %s.1 and give VLAN 1 the untagged ports), after " ++
       "which additional VLANs can be managed from here")
    [VS bridge; VS bridge; VS bridge; VS bridge].

Definition singleInterfaceVLANLimitation (caps : Registry) (device : string) : string :=
  if bool_decide (State caps FeatDSA = Absent) && bool_decide (State caps FeatSwitchPorts = Present) then
    msg ("this board presents its LAN as a single interface (%s) " ++
         "rather than switch ports that can be tagged individually, so oonfeeWRT " ++
         "cannot add a tagged VLAN to it. This measured legacy layout uses " ++
         "swconfig, which oonfeeWRT observes but does not manage") [VS device]
  else
    msg ("this board presents its LAN as a single interface (%s) " ++
         "rather than switch ports that can be tagged individually. oonfeeWRT " ++
         "does not yet create tagged VLAN attachments on single-interface LANs, " ++
         "so it leaves this board's existing LAN and VLAN configuration untouched. " ++
         "The layout was read successfully; this is a management limit, not missing " ++
         "hardware") [VS device].

Record zoneMember := MkZoneMember {
  zm_zone : string;
  zm_iface : string;
  zm_dhcp4 : bool;
  zm_ipv6 : bool;
  zm_dhcpSection : bool;
}.
Definition no_member : zoneMember := MkZoneMember "" "" false false false.

(** [managedIPv6State]: configured, server. *)
Definition managedIPv6State (n : Network) (e : gmap string (gmap string (gmap string string))) : bool * bool :=
  match In_ e "dhcp" !! dhcp_name n with
  | None => (false, false)
  | Some values =>
      if negb (String.eqb (get values OwnershipTag) "1") then (false, false)
      else (existsb (has values) ["dynamicdhcpv6"; "dhcpv6"; "ra"; "ra_management"; "ndp"; "ra_default"],
            String.eqb (get values "ra") "server" && String.eqb (get values "dhcpv6") "server")
  end.

Definition bridge_vlan (bridge : string) (lan : list string) (n : Network) : Section :=
  MkSection "network" "bridge-vlan" (NamePrefix ++ "_bv" ++ Itoa (n_VLAN n))
    (vals [("device", bridge); ("vlan", itoa (n_VLAN n)); ("local", "1"); (OwnershipTag, "1")])
    {[ "ports" := map (fun p => p ++ ":t") lan ]} [].

Definition vlan_device (bridge : string) (n : Network) : string := bridge ++ "." ++ Itoa (n_VLAN n).

(** The unmanaged interface of an access point that does not route. *)
Definition attachment_iface (bridge : string) (n : Network) : Section :=
  MkSection "network" "interface" (netIfaceName (n_Name n))
    (vals [("proto", "none"); ("device", vlan_device bridge n); (OwnershipTag, "1")])
    ∅ ["ipaddr"; "netmask"].

(** The addressed interface of a gateway. *)
Definition addressed_iface (bridge ipaddr netmask : string) (n : Network) : Section :=
  let ipv6 := EffectiveIPv6 n in
  let base := vals [("proto", "static"); ("device", vlan_device bridge n); ("ipaddr", ipaddr);
                    ("netmask", netmask); (OwnershipTag, "1")] in
  let pd := String.eqb (i_Mode ipv6) IPv6PrefixDelegation in
  MkSection "network" "interface" (netIfaceName (n_Name n))
    (if pd then <["ip6assign" := itoa (i_AssignmentLength ipv6)]> base else base) ∅
    (["ipaddr"; "netmask"] ++
     (if pd then ["ip6assign"]
      else if String.eqb (i_Mode ipv6) IPv6Disabled then ["ip6assign"; "ip6hint"; "ip6class"] else []))%list.

Definition dhcp_section (n : Network) : Section :=
  let dhcp := EffectiveDHCP n in
  let ipv6 := EffectiveIPv6 n in
  let iface := netIfaceName (n_Name n) in
  let base := [("interface", iface); ("networkid", iface); (OwnershipTag, "1")] in
  let v4 := if d_Enabled dhcp
            then [("start", itoa (d_Start dhcp)); ("limit", itoa (d_Limit dhcp));
                  ("leasetime", TrimSpace (d_LeaseTime dhcp)); ("dhcpv4", "server")]
            else [("ignore", "1"); ("dhcpv4", "disabled")] in
  let v6 := if String.eqb (i_Mode ipv6) IPv6PrefixDelegation
            then [("dhcpv6", "server"); ("ra", "server"); ("ndp", "disabled")]
            else if String.eqb (i_Mode ipv6) IPv6Disabled
            then [("dhcpv6", "disabled"); ("ra", "disabled"); ("ndp", "disabled")] else [] in
  MkSection "dhcp" "dhcp" (dhcp_name n) (vals (base ++ v4 ++ v6)%list) ∅
    (["instance"; "ignore"; "networkid"; "netmask"; "force"; "options"; "dhcp_option"; "dhcp_option_force";
      "dynamicdhcp"; "dynamicdhcpv4"; "dhcpv4"; "tag"] ++
     (if String.eqb (i_Mode ipv6) IPv6PrefixDelegation || String.eqb (i_Mode ipv6) IPv6Disabled
      then ["dynamicdhcpv6"; "dhcpv6"; "ra"; "ra_management"; "ndp"; "ra_default"] else []))%list.

Definition omit (what reason kind : string) : Omission := MkOmission what reason kind.

Definition renderNetwork (n : Network) (dev : Device) (caps : option Registry)
  (e : gmap string (gmap string (gmap string string))) : list Section * list Omission * zoneMember :=
  if negb (n_Enabled n) then ([], [], no_member)
  else if n_VLAN n <=? 1 then
    ([], [omit (n_Name n)
       ("VLAN 1 and untagged traffic are the device's existing LAN, " ++
        "which oonfeeWRT does not own and will not rewrite. Wireless can " ++
        "attach to it; the wired VLAN is left as the device has it") KindUnclassified], no_member)
  else match caps with
  | None =>
    ([], [omit (n_Name n)
       ("nothing is known about this device's hardware, so no wired " ++
        "configuration is rendered for it. This is not a statement that " ++
        "the device cannot carry a VLAN — it means there is no " ++
        "capability record to decide from") KindUndetermined], no_member)
  | Some r =>
    let bridge := pt_Bridge (rg_Ports r) in
    let lan := pt_LAN (rg_Ports r) in
    if String.eqb bridge "" then
      ([], [omit (n_Name n)
         (("this device did not report its wired port layout, so a VLAN " ++
           "cannot be tagged onto physical ports here. The check reads the " ++
           "board description and got nothing back — that is a gap in what " ++
           "the controller can see, not a statement about the hardware. ") ++ readoptFix)
         KindUndetermined], no_member)
    else if bool_decide (lan = []) then
      ([], [omit (n_Name n) (singleInterfaceVLANLimitation r bridge) KindUnclassified], no_member)
    else if negb (bridgeIsVLANAware caps e) then
      ([], [omit (n_Name n) (vlanPrerequisite bridge) KindUnclassified], no_member)
    else
      let bv := bridge_vlan bridge lan n in
      let functions := EffectiveFunctions dev in
      if negb (Routes functions) then
        (bv :: (if Wireless functions then [attachment_iface bridge n] else []), [], no_member)
      else match splitCIDR (n_CIDR n) with
      | None =>
          ([bv], [omit (n_Name n)
             (msg ("no usable address: %q is not an IPv4 network in " ++
                   "CIDR form, so this network gets its VLAN and no gateway address " ++
                   "and no DHCP — clients on it will associate and get no lease. To " ++
                   "fix it: open this network and write the address with a prefix " ++
                   "length, for example %q. A prefix shorter than /8 is refused as a " ++
                   "typo rather than accepted as an enormous subnet.")
                [VS (n_CIDR n); VS (exampleCIDR (n_VLAN n))]) KindUnclassified], no_member)
      | Some (ipaddr, netmask) =>
          let ipv6 := EffectiveIPv6 n in
          let dhcp := EffectiveDHCP n in
          let preserve := String.eqb (i_Mode ipv6) IPv6Preserve in
          let '(state, server) := managedIPv6State n e in
          let wants := d_Enabled dhcp || negb preserve || (preserve && state) in
          ((bv :: addressed_iface bridge ipaddr netmask n :: (if wants then [dhcp_section n] else [])), [],
           MkZoneMember (zone_label n) (netIfaceName (n_Name n)) (d_Enabled dhcp)
             (String.eqb (i_Mode ipv6) IPv6PrefixDelegation || (preserve && server)) wants)
      end
  end.

(** ** The management network *)

Definition staticIPv6Options (values : gmap string string) : list string :=
  List.filter (fun o => negb (String.eqb (TrimSpace (get values o)) "")) ["ip6addr"; "ip6prefix"; "ip6gw"].

Definition static_conflict (section : string) (static : list string) (text : string) : list Conflict :=
  match static with
  | [] => []
  | _ => [MkConflict "network" section (msg text [VS (Join static ", ")])]
  end.

Definition management_lan (n : Network) (e : gmap string (gmap string (gmap string string)))
  : list Patch * list Conflict :=
  let policy := EffectiveIPv6 n in
  let disabled := String.eqb (i_Mode policy) IPv6Disabled in
  match In_ e "network" !! n_Name n with
  | None => ([], [MkConflict "network" (n_Name n)
      (msg ("IPv6 policy targets the existing management interface network.%s, " ++
            "but that exact interface section was not found. oonfeeWRT will not guess, " ++
            "create a replacement, or claim a foreign section") [VS (n_Name n)])])
  | Some lan =>
      if negb (String.eqb (get lan ".type") "interface") then
        ([], [MkConflict "network" (n_Name n)
          (msg ("IPv6 policy targets network.%s, but it is a %q section rather " ++
                "than an interface. oonfeeWRT will not rewrite or replace it")
             [VS (n_Name n); VS (get lan ".type")])])
      else
        ([MkPatch "network" (n_Name n)
            (if String.eqb (i_Mode policy) IPv6PrefixDelegation
             then vals [("ip6assign", itoa (i_AssignmentLength policy))] else ∅)
            (if disabled then ["ip6assign"; "ip6hint"; "ip6class"] else [])],
         if disabled then
           match staticIPv6Options lan with
           | [] => []
           | static => [MkConflict "network" (n_Name n)
               (msg ("network.%s contains explicit static IPv6 option(s) %s. " ++
                     "Automatic disable only turns off delegated prefix assignment and " ++
                     "RA/DHCPv6/NDP; oonfeeWRT will not silently delete operator-assigned " ++
                     "IPv6 addresses, prefixes, or gateways. Remove those values deliberately " ++
                     "in OpenWrt, then preview again") [VS (n_Name n); VS (Join static ", ")])]
           end
         else [])
  end.

Definition management_dhcp (n : Network) (e : gmap string (gmap string (gmap string string)))
  : list Patch * list Conflict :=
  let sections := List.filter (fun name =>
      let v := section_of e "dhcp" name in
      String.eqb (get v ".type") "dhcp" && String.eqb (get v "interface") (n_Name n)) (section_names e "dhcp") in
  match sections with
  | [name] =>
      let mode := i_Mode (EffectiveIPv6 n) in
      let v := if String.eqb mode IPv6PrefixDelegation then [("ra", "server"); ("dhcpv6", "server")]
               else if String.eqb mode IPv6Disabled then [("ra", "disabled"); ("dhcpv6", "disabled")] else [] in
      ([MkPatch "dhcp" name (vals (("ndp", "disabled") :: v)) ["ra_default"]], [])
  | _ => ([], [MkConflict "dhcp" (n_Name n)
      (msg ("IPv6 policy needs exactly one existing DHCP section for management " ++
            "interface %s, but found %d. oonfeeWRT will not guess, create, claim, or " ++
            "rewrite a whole foreign section") [VS (n_Name n); VD (Z.of_nat (length sections))])])
  end.

Definition wan_static_text (section : string) : string :=
  "network." ++ section ++ (" contains explicit static IPv6 option(s) %s. " ++
                            "Automatic disable will not silently delete operator-assigned IPv6 " ++
                            "addresses, prefixes, or gateways. Remove those values deliberately " ++
                            "in OpenWrt, then preview again").

Definition not_interface (section type : string) : Conflict :=
  MkConflict "network" section
    (msg ("the conventional network." ++ section ++ (" IPv6 control exists as a %q " ++
                                                     "section rather than an interface, so oonfeeWRT will not modify it")) [VS type]).

(** [wan6]: its patches and conflicts, and whether it is an interface. *)
Definition management_wan6 (n : Network) (e : gmap string (gmap string (gmap string string)))
  : list Patch * list Conflict * bool :=
  let disabled := String.eqb (i_Mode (EffectiveIPv6 n)) IPv6Disabled in
  match In_ e "network" !! "wan6" with
  | None => ([], [], false)
  | Some wan6 =>
      if negb (String.eqb (get wan6 ".type") "interface") then
        ([], [not_interface "wan6" (get wan6 ".type")], false)
      else if EqualFold (TrimSpace (get wan6 "proto")) "dhcpv6" then
        ([MkPatch "network" "wan6" (vals [("auto", if disabled then "0" else "1")]) []],
         if disabled then static_conflict "wan6" (staticIPv6Options wan6) (wan_static_text "wan6") else [], true)
      else ([], [], true)
  end.

Definition management_wan (n : Network) (hasWAN6 : bool) (e : gmap string (gmap string (gmap string string)))
  : list Patch * list Conflict :=
  match In_ e "network" !! "wan" with
  | None => ([], [])
  | Some wan =>
      if negb (String.eqb (get wan ".type") "interface") then ([], [not_interface "wan" (get wan ".type")])
      else if String.eqb (i_Mode (EffectiveIPv6 n)) IPv6Disabled then
        ([MkPatch "network" "wan" (vals [("ipv6", "0")]) []],
         static_conflict "wan" (staticIPv6Options wan) (wan_static_text "wan"))
      else if pppProtocol (get wan "proto") then
        ([MkPatch "network" "wan" (vals [("ipv6", if hasWAN6 then "1" else "auto")]) []], [])
      else ([], [])
  end.

Definition renderManagementIPv6 (n : Network) (e : gmap string (gmap string (gmap string string)))
  : list Patch * list Conflict :=
  if String.eqb (i_Mode (EffectiveIPv6 n)) IPv6Preserve then ([], [])
  else
    let '(p1, c1) := management_lan n e in
    let '(p2, c2) := management_dhcp n e in
    let '(p3, c3, hasWAN6) := management_wan6 n e in
    let '(p4, c4) := management_wan n hasWAN6 e in
    ((p1 ++ p2 ++ p3 ++ p4)%list, (c1 ++ c2 ++ c3 ++ c4)%list).

(** ** Collisions with configuration the controller does not own *)

Definition owned_values (v : gmap string string) : bool := String.eqb (get v OwnershipTag) "1".

Definition foreignBridgeVLANConflicts (want : Section) (e : gmap string (gmap string (gmap string string)))
  : list Conflict :=
  match Atoi (TrimSpace (get (sec_Values want) "vlan")) with
  | None => []
  | Some wantVID =>
      flat_map (fun name =>
        let v := section_of e "network" name in
        if String.eqb name (sec_Name want) || owned_values v ||
           negb (String.eqb (get v ".type") "bridge-vlan") ||
           negb (String.eqb (get v "device") (get (sec_Values want) "device")) ||
           negb (bool_decide (Atoi (TrimSpace (get v "vlan")) = Some wantVID)) then []
        else [MkConflict "network" name
          (msg ("bridge VLAN section %s already claims %s VLAN %d without " ++
                "oonfeeWRT's ownership marker. OpenWrt identifies this object by bridge and " ++
                "VLAN, not by UCI section name, so adding %s would create two competing port " ++
                "and local-membership definitions. Remove the duplicate, choose another VLAN, " ++
                "or add `option %s '1'` only if that section really belongs to this controller")
             [VS name; VS (get (sec_Values want) "device"); VD wantVID; VS (sec_Name want); VS OwnershipTag])])
        (section_names e "network")
  end.

Definition foreignDHCPConflicts (n : Network) (iface : string) (wantsOwnedPool : bool)
  (e : gmap string (gmap string (gmap string string))) : list Conflict :=
  flat_map (fun name =>
    let v := section_of e "dhcp" name in
    if negb (String.eqb (get v ".type") "dhcp") || negb (String.eqb (get v "interface") iface) ||
       owned_values v || (wantsOwnedPool && String.eqb name (dhcp_name n)) then []
    else [MkConflict "dhcp" name
      (msg ("DHCP section %s already targets managed interface %s without " ++
            "oonfeeWRT's ownership marker, so the requested DHCP state cannot be guaranteed " ++
            "without overwriting human-owned config. Remove or retarget that section, or add " ++
            "`option %s '1'` if it really belongs to this controller")
         [VS name; VS iface; VS OwnershipTag])])
    (section_names e "dhcp").
