(* ===== verification/RenderZones.v ===== *)
(** * Rendering firewall zones (internal/render/network.go)

    The zone sections of all networks together, with their router-service
    rules and forwardings, and the firewall configuration the controller does
    not own that would defeat them. *)

From Stdlib Require Import ZArith Lia Ascii String.
From stdpp Require Import base gmap list strings sorting.
From S2P Require Import Prelude GoStr GoFmt NetIP ApplyEngine SiteModel Capability RenderPlan RenderNetwork.

Local Open Scope string_scope.
Local Open Scope Z_scope.

(** ** Foreign rules *)

(** An enabled input rule of someone else that rejects traffic of [src]. *)
Definition foreign_denial (v : gmap string string) (src : string) (family : string -> bool) : bool :=
  String.eqb (get v ".type") "rule" && negb (owned_values v) && negb (uciOptionFalse (get v "enabled")) &&
  String.eqb (get v "dest") "" && foreignSourceCouldMatch (get v "src") src && family (get v "family") &&
  existsb (String.eqb (ToUpper (TrimSpace (get v "target")))) ["DROP"; "REJECT"].

Definition service_conflict (text src name : string) (v : gmap string string) (services : list string)
  : list Conflict :=
  match services with
  | [] => []
  | _ => [MkConflict "firewall" name
      (msg text [VS name; VS (ToLower (ToUpper (TrimSpace (get v "target")))); VS (Join services " and "); VS src])]
  end.

Definition dns_could_match (v : gmap string string) : bool :=
  (protocolCouldMatch (get v "proto") "tcp" || protocolCouldMatch (get v "proto") "udp") &&
  portCouldMatch (get v "dest_port") 53.

Definition foreignRouterServiceConflicts (e : gmap string (gmap string (gmap string string))) (source : string)
  : list Conflict :=
  let src := fwZoneName source in
  flat_map (fun name =>
    let v := section_of e "firewall" name in
    if negb (foreign_denial v src familyCouldMatchIPv4) then []
    else service_conflict
      ("foreign firewall rule %s can %s %s client traffic from " ++
       "zone %q before oonfeeWRT's router-service allow rules, so DHCP/DNS client " ++
       "access cannot be guaranteed. oonfeeWRT will not reorder or delete a " ++
       "human-owned rule; disable, remove, or narrow it before applying") src name v
      ((if protocolCouldMatch (get v "proto") "udp" && portCouldMatch (get v "src_port") 68 &&
           portCouldMatch (get v "dest_port") 67 then ["DHCP"] else []) ++
       (if dns_could_match v then ["DNS"] else []))%list)
    (section_names e "firewall").

Definition foreignIPv6RouterServiceConflicts (e : gmap string (gmap string (gmap string string))) (source : string)
  : list Conflict :=
  let src := fwZoneName source in
  flat_map (fun name =>
    let v := section_of e "firewall" name in
    if negb (foreign_denial v src familyCouldMatchIPv6) then []
    else service_conflict
      ("foreign firewall rule %s can %s %s client traffic from " ++
       "zone %q before oonfeeWRT's IPv6 router-service allow rules, so delegated " ++
       "IPv6 cannot be guaranteed. oonfeeWRT will not reorder or delete a " ++
       "human-owned rule; disable, remove, or narrow it before applying") src name v
      ((if protocolCouldMatch (get v "proto") "udp" && portCouldMatch (get v "src_port") 546 &&
           portCouldMatch (get v "dest_port") 547 then ["DHCPv6"] else []) ++
       (if dns_could_match v then ["DNS"] else []) ++
       (if protocolCouldMatch (get v "proto") "icmpv6" || protocolCouldMatch (get v "proto") "icmp"
        then ["ICMPv6"] else []))%list)
    (section_names e "firewall").

(** What a foreign section claims against the matrix: [allowed] are the
    destinations the zone may reach. *)
Definition matrix_claim (kind target dest : string) (allowed : list string) : option string :=
  let destAllowed := existsb (String.eqb dest) allowed || (String.eqb dest "*" && negb (bool_decide (allowed = []))) in
  let destOmitted := negb (existsb (String.eqb dest) allowed) || String.eqb dest "*" in
  if String.eqb kind "forwarding" && destOmitted then Some "allows an omitted destination"
  else if String.eqb kind "rule" && String.eqb target "ACCEPT" && destOmitted
  then Some "has target ACCEPT for an omitted destination"
  else if String.eqb kind "rule" && (String.eqb target "REJECT" || String.eqb target "DROP") && destAllowed
  then Some "can reject traffic to an allowed destination"
  else None.

Definition foreignFirewallPolicyConflicts (e : gmap string (gmap string (gmap string string)))
  (source : string) (forwardTo : list string) : list Conflict :=
  let allowed := map fwZoneName forwardTo in
  let src := fwZoneName source in
  flat_map (fun name =>
    let v := section_of e "firewall" name in
    if owned_values v || uciOptionFalse (get v "enabled") ||
       negb (foreignSourceCouldMatch (get v "src") src) then []
    else
      let kind := get v ".type" in
      let dest := get v "dest" in
      let target := ToUpper (TrimSpace (get v "target")) in
      if String.eqb kind "redirect" && (String.eqb target "" || String.eqb target "DNAT") &&
         negb (String.eqb (TrimSpace (get v "dest_ip")) "") then
        [MkConflict "firewall" name
          (msg ("foreign firewall redirect %s DNAT-accepts forwarded traffic from source %q before the zone verdict; OpenWrt ignores its `dest` option for DNAT, so the zone-matrix claim cannot be guaranteed. oonfeeWRT will not edit human-owned firewall policy; remove or narrow that section, or mark it with `option %s '1'` only if it belongs to this controller")
             [VS name; VS (get v "src"); VS OwnershipTag])]
      else if String.eqb dest "" then []
      else match matrix_claim kind target dest allowed with
           | None => []
           | Some claim =>
               [MkConflict "firewall" name
                 (msg ("foreign firewall %s %s for source %q and destination %q, so the zone-matrix claim cannot be guaranteed. oonfeeWRT will not edit human-owned firewall policy; remove or narrow that section, change the matrix edge to match it, or mark the section with `option %s '1'` only if it belongs to this controller")
                    [VS name; VS claim; VS (get v "src"); VS dest; VS OwnershipTag])]
           end)
    (section_names e "firewall").

Definition foreignZone (e : gmap string (gmap string (gmap string string))) (name : string) : option string :=
  List.find (fun n =>
    let v := section_of e "firewall" n in
    negb (owned_values v) && String.eqb (get v ".type") "zone" && String.eqb (get v "name") name)
    (section_names e "firewall").

(** ** The sections of one zone *)

Definition zone_section (fw section : string) (ifaces : list string) : Section :=
  MkSection "firewall" "zone" (NamePrefix ++ "_zone_" ++ section)
    (vals [("name", fw); ("input", "REJECT"); ("output", "ACCEPT"); ("forward", "REJECT"); (OwnershipTag, "1")])
    {[ "network" := ifaces ]} ["enabled"; "family"].

Definition input_rule (section suffix : string) (values : list (string * string))
  (lists : gmap string (list string)) : Section :=
  MkSection "firewall" "rule" (NamePrefix ++ "_in_" ++ section ++ "_" ++ suffix)
    (vals (values ++ [("target", "ACCEPT"); (OwnershipTag, "1")])%list) lists ["enabled"].

Definition dhcp_rules (fw source section : string) : list Section :=
  [input_rule section "dhcp"
     [("name", "oonfeeWRT " ++ source ++ " DHCP"); ("src", fw); ("proto", "udp"); ("src_port", "68");
      ("dest_port", "67"); ("family", "ipv4")] ∅;
   input_rule section "dns"
     [("name", "oonfeeWRT " ++ source ++ " DNS"); ("src", fw); ("dest_port", "53"); ("family", "ipv4")]
     {[ "proto" := ["tcp"; "udp"] ]}].

Definition icmpv6_types : list string :=
  ["echo-request"; "echo-reply"; "destination-unreachable"; "packet-too-big"; "time-exceeded"; "bad-header";
   "unknown-header-type"; "router-solicitation"; "neighbour-solicitation"; "router-advertisement";
   "neighbour-advertisement"].

Definition ipv6_rules (fw source section : string) : list Section :=
  [input_rule section "dhcpv6"
     [("name", "oonfeeWRT " ++ source ++ " DHCPv6"); ("src", fw); ("proto", "udp"); ("src_port", "546");
      ("dest_port", "547"); ("family", "ipv6")] ∅;
   input_rule section "dnsv6"
     [("name", "oonfeeWRT " ++ source ++ " IPv6 DNS"); ("src", fw); ("dest_port", "53"); ("family", "ipv6")]
     {[ "proto" := ["tcp"; "udp"] ]};
   input_rule section "icmpv6"
     [("name", "oonfeeWRT " ++ source ++ " ICMPv6"); ("src", fw); ("proto", "icmp"); ("family", "ipv6");
      ("limit", "1000/sec")] {[ "icmp_type" := icmpv6_types ]}].

Definition forwarding_section (fw section dest : string) : Section :=
  MkSection "firewall" "forwarding" (NamePrefix ++ "_fwd_" ++ section ++ "_" ++ safe dest)
    (vals [("src", fw); ("dest", fwZoneName dest); (OwnershipTag, "1")]) ∅ ["enabled"; "family"].

(** [policyBySource]: the last policy of a name. *)
Definition policyBySource (policies : list ZonePolicy) (source : string) : option (list string) :=
  fold_left (fun acc p => if String.eqb (zp_Name p) source
                          then Some (CanonicalZoneDestinations (zp_ForwardTo p)) else acc) policies None.

Definition collapse_conflict (fw : string) (distinct : list string) : Conflict :=
  MkConflict "firewall" fw
    (msg ("the firewall zones %s are different names " ++
          "that both become %q once fw4's %d-character limit is " ++
          "applied, so the device cannot tell them apart and one " ++
          "network's rules would silently become the other's. Give " ++
          "them names that differ within the first %d characters")
       [VS (Join (quoteAll (sort_strings distinct)) " and "); VS fw; VD maxZoneName; VD maxZoneName]).

Definition foreign_zone_conflict (other fw : string) : Conflict :=
  MkConflict "firewall" other
    (msg ("this device already has a firewall zone " ++
          "named %q that oonfeeWRT did not write. Adding a network to " ++
          "it means editing that zone, which is the operator's " ++
          "configuration and not ours to change — and writing a " ++
          "second zone with the same name gives the device two, which " ++
          "is not what anyone means. Give this network a zone name of " ++
          "its own") [VS fw]).

(** One iteration over the zones: the members that claim [fw]. *)
Definition render_zone (policies : list ZonePolicy) (e : gmap string (gmap string (gmap string string)))
  (fw : string) (group : list zoneMember) : list Section * list Conflict :=
  match first_seen (map zm_zone group) with
  | [source] =>
      let needsDHCP := existsb zm_dhcp4 group in
      let needsIPv6 := existsb zm_ipv6 group in
      let forwardTo := default ["wan"] (policyBySource policies source) in
      let conflicts :=
        (foreignFirewallPolicyConflicts e source forwardTo ++
         (if needsDHCP then foreignRouterServiceConflicts e source else []) ++
         (if needsIPv6 then foreignIPv6RouterServiceConflicts e source else []))%list in
      match foreignZone e fw with
      | Some other => ([], (conflicts ++ [foreign_zone_conflict other fw])%list)
      | None =>
          let section := safe source in
          ((zone_section fw section (sort_strings (map zm_iface group)) ::
            (if needsDHCP then dhcp_rules fw source section else []) ++
            (if needsIPv6 then ipv6_rules fw source section else []) ++
            map (forwarding_section fw section) forwardTo)%list, conflicts)
      end
  | distinct => ([], [collapse_conflict fw distinct])
  end.

Definition members_of (members : list zoneMember) (fw : string) : list zoneMember :=
  List.filter (fun m => String.eqb (fwZoneName (zm_zone m)) fw) members.

Definition renderZones (members : list zoneMember) (policies : list ZonePolicy)
  (e : gmap string (gmap string (gmap string string))) : list Section * list Conflict :=
  let order := first_seen (map (fun m => fwZoneName (zm_zone m)) members) in
  let rendered := map (fun fw => render_zone policies e fw (members_of members fw)) order in
  (flat_map fst rendered, flat_map snd rendered).
