(* ===== verification/RenderPolicy.v ===== *)
(** * Rendering policies (internal/render/policy.go)

    Firewall rules, port forwards, static routes, client blocks and fixed
    leases of an accepted site as UCI sections, and the foreign configuration
    that would contradict them. The code ranges over Go maps when it looks for
    foreign sections and sorts what it found in a total order, so the order of
    the range does not show. A policy that [Validate] accepts has the payload
    of its kind; where the code would dereference a missing one, the model
    renders nothing. *)

From Stdlib Require Import ZArith Lia Ascii String.
From stdpp Require Import base gmap list strings sorting.
From S2P Require Import Prelude GoStr GoFmt NetIP ApplyEngine SiteModel SitePolicy Capability RenderPlan.
From S2P Require Import RenderNetwork RenderZones.

Local Open Scope string_scope.
Local Open Scope Z_scope.

Definition policyRuleManagedOptions : list string :=
  ["_name"; "enabled"; "family"; "proto"; "src"; "src_ip"; "src_port"; "src_mac";
   "dest"; "dest_ip"; "dest_port"; "dest_mac"; "device"; "direction"; "target";
   "icmp_type"; "weekdays"; "monthdays"; "start_date"; "stop_date"; "start_time"; "stop_time"; "utc_time";
   "limit"; "limit_burst"; "log"; "log_limit"; "ipset"; "mark"; "set_mark"; "set_xmark";
   "dscp"; "set_dscp"; "helper"; "set_helper"; "extra"; "counter"].

Definition policyRedirectManagedOptions : list string :=
  ["_name"; "enabled"; "family"; "proto"; "src"; "src_ip"; "src_dip"; "src_port"; "src_dport"; "src_mac";
   "dest"; "dest_ip"; "dest_port"; "dest_mac"; "device"; "direction"; "target";
   "reflection"; "reflection_src"; "reflection_zone"; "limit"; "limit_burst"; "log"; "log_limit";
   "utc_time"; "start_date"; "stop_date"; "start_time"; "stop_time"; "weekdays"; "monthdays";
   "ipset"; "mark"; "helper"; "set_helper"; "extra"; "counter"; "snat_ip"; "snat_port"].

(** ** Foreign sections *)

Definition conflict_le (a b : Conflict) : Prop :=
  if negb (String.eqb (con_Config a) (con_Config b)) then str_le (con_Config a) (con_Config b)
  else if negb (String.eqb (con_Section a) (con_Section b)) then str_le (con_Section a) (con_Section b)
  else str_le (con_Reason a) (con_Reason b).
#[export] Instance conflict_le_dec a b : Decision (conflict_le a b).
Proof. unfold conflict_le. destruct (negb _); [apply _|]. destruct (negb _); apply _. Defined.

#[export] Instance Conflict_eq_dec : EqDecision Conflict.
Proof. solve_decision. Defined.

Fixpoint drop_repeats {A} `{EqDecision A} (l : list A) : list A :=
  match l with
  | a :: ((b :: _) as l') => if bool_decide (a = b) then drop_repeats l' else a :: drop_repeats l'
  | _ => l
  end.

Definition dedupeConflicts (l : list Conflict) : list Conflict := drop_repeats (merge_sort conflict_le l).

(** The sections of a config, in any order. *)
Definition foreign_scan (e : gmap string (gmap string (gmap string string))) (config : string)
  (f : string -> gmap string string -> list Conflict) : list Conflict :=
  flat_map (fun kv => f (fst kv) (snd kv)) (map_to_list (In_ e config)).

Definition displayDestination (dest : string) : string := if String.eqb dest "" then "the router" else dest.

Definition foreignMACCouldMatch (raw want : string) : bool :=
  let raw := TrimSpace raw in
  if String.eqb raw "" then true
  else
    let fields := Fields (str_map (fun c => if Ascii.eqb c "," || Ascii.eqb c ";" then " "%char else c) raw) in
    bool_decide (fields = []) ||
    existsb (fun field => HasPrefix field "!" ||
                match canon_mac field with Err _ => true | Ok m => String.eqb m want end) fields.

Definition target_of (v : gmap string string) : string := ToUpper (TrimSpace (get v "target")).
Definition denies (v : gmap string string) : bool :=
  String.eqb (target_of v) "DROP" || String.eqb (target_of v) "REJECT".
Definition nonblank (s : string) : bool := negb (String.eqb (TrimSpace s) "").

Definition foreignClientBlockConflicts (client : PolicyClient) (zone : string)
  (e : gmap string (gmap string (gmap string string))) : list Conflict :=
  match canon_mac (pc_MAC client) with
  | Err _ => []
  | Ok wantMAC =>
      let src := fwZoneName zone in
      foreign_scan e "firewall" (fun name v =>
        if owned_values v || uciOptionFalse (get v "enabled") ||
           negb (foreignSourceCouldMatch (get v "src") src) ||
           negb (foreignMACCouldMatch (get v "src_mac") wantMAC) then []
        else
          let kind := get v ".type" in
          let contradicts :=
            if String.eqb kind "forwarding" then nonblank (get v "dest")
            else if String.eqb kind "rule" then
              nonblank (get v "dest") && EqualFold (TrimSpace (get v "target")) "ACCEPT"
            else if String.eqb kind "redirect" then
              nonblank (get v "dest_ip") && EqualFold (TrimSpace (get v "target")) "DNAT"
            else false in
          if contradicts then [MkConflict "firewall" name
            (msg ("foreign firewall section %s can allow forwarded traffic for blocked client %s from managed zone %s. The controller will not reorder, edit or delete human-owned policy")
               [VS name; VS wantMAC; VS src])] else [])
  end.

Definition foreignRuleConflicts (policy : Policy) (e : gmap string (gmap string (gmap string string)))
  : list Conflict :=
  match po_Firewall policy with
  | None => []
  | Some rule =>
      let src := fwZoneName (fr_SourceZone rule) in
      let dest := fwZoneName (fr_DestinationZone rule) in
      let wantAccept := String.eqb (fr_Action rule) FirewallAccept in
      foreign_scan e "firewall" (fun name v =>
        let foreignDest := get v "dest" in
        if owned_values v || uciOptionFalse (get v "enabled") ||
           negb (foreignSourceCouldMatch (get v "src") src) then []
        else if (if String.eqb dest "" then negb (String.eqb foreignDest "") && negb (String.eqb foreignDest "*")
                 else negb (String.eqb foreignDest dest) && negb (String.eqb foreignDest "*")) then []
        else
          let kind := get v ".type" in
          let contradicts :=
            if String.eqb kind "forwarding" then negb wantAccept && negb (String.eqb dest "")
            else if String.eqb kind "rule" then
              (String.eqb (target_of v) "ACCEPT" && negb wantAccept) || (denies v && wantAccept)
            else if String.eqb kind "redirect" then nonblank (get v "dest_ip") && negb wantAccept
            else false in
          if contradicts then [MkConflict "firewall" name
            (msg ("foreign firewall section %s can contradict managed policy %q for %s to %s. oonfeeWRT will not reorder, edit or delete human-owned policy")
               [VS name; VS (po_Name policy); VS src; VS (displayDestination dest)])] else [])
  end.

Definition foreignProtocolsOverlap (raw : string) (protocols : list string) : bool :=
  existsb (protocolCouldMatch raw) protocols.

Definition foreignDestinationCouldMatch (raw want : string) : bool :=
  let raw := TrimSpace raw in
  if String.eqb raw "" then false
  else if String.eqb raw "*" || String.eqb raw want then true
  else ContainsAny raw syntax_chars || negb (length (Fields raw) =? 1)%nat.

Definition foreignCIDRsCouldOverlap (raw want : string) : bool :=
  let raw := TrimSpace raw in
  if String.eqb raw "" || String.eqb want "" then true
  else match ParsePrefix raw, ParsePrefix want with
       | Some a, Some b => Overlaps a b
       | _, _ => true
       end.

Definition foreignCIDRContains (raw wantIP : string) : bool :=
  let raw := TrimSpace raw in
  if String.eqb raw "" then true
  else match ParseAddr wantIP with
       | None => true
       | Some want =>
           match ParsePrefix raw with
           | Some p => Contains_ p want
           | None => match ParseAddr raw with
                     | Some a => bool_decide (a = want)
                     | None => true
                     end
           end
       end.

Definition foreignRedirectConflicts (policy : Policy) (e : gmap string (gmap string (gmap string string)))
  : list Conflict :=
  match po_PortForward policy with
  | None => []
  | Some rule =>
      foreign_scan e "firewall" (fun name v =>
        if owned_values v || uciOptionFalse (get v "enabled") ||
           negb (foreignSourceCouldMatch (get v "src") "wan") then []
        else
          let overlaps := foreignProtocolsOverlap (get v "proto") (pf_Protocols rule) in
          let kind := get v ".type" in
          if String.eqb kind "redirect" then
            if negb overlaps || negb (portCouldMatch (get v "src_dport") (pf_ExternalPort rule)) then []
            else [MkConflict "firewall" name
              (msg ("foreign redirect %s can claim WAN port %d used by managed port forward %q; ownership and evaluation order make the result unverifiable")
                 [VS name; VD (pf_ExternalPort rule); VS (po_Name policy)])]
          else if String.eqb kind "rule" then
            if negb (denies v) || negb (familyCouldMatchIPv4 (get v "family")) ||
               negb (foreignDestinationCouldMatch (get v "dest") (fwZoneName (pf_DestinationZone rule))) ||
               negb overlaps ||
               negb (foreignCIDRsCouldOverlap (get v "src_ip") (pf_SourceCIDR rule)) ||
               negb (foreignCIDRContains (get v "dest_ip") (pf_DestinationIP rule)) ||
               negb (portCouldMatch (get v "dest_port") (pf_DestinationPort rule)) then []
            else [MkConflict "firewall" name
              (msg ("foreign WAN denial %s can match the post-DNAT destination of managed port forward %q before firewall4 accepts the translated flow; oonfeeWRT will not reorder or edit human-owned policy")
                 [VS name; VS (po_Name policy)])]
          else [])
  end.

(** [net.ParseIP(raw).To4()]. *)
Definition ip_to4 (raw : string) : option Z :=
  match ParseAddr raw with
  | Some (A4 v) => Some v
  | Some (A6 v z) => if String.eqb z "" && (Z.shiftr v 32 =? 65535) then Some (v mod 2 ^ 32) else None
  | None => None
  end.

(** [net.IPMask.Size]: the ones of a canonical mask, zero for any other. *)
Definition mask_size (mask : Z) : Z :=
  default 0 (List.find (fun b => mask =? 2 ^ 32 - 2 ^ (32 - b)) (map Z.of_nat (seq 0 33))).

Definition routePrefix (v : gmap string string) : option Prefix :=
  let target := TrimSpace (get v "target") in
  let host :=
    match ParseAddr target with
    | Some (A4 a) =>
        let raw := TrimSpace (get v "netmask") in
        if String.eqb raw "" then Some (Masked (MkPrefix (A4 a) 32))
        else match ip_to4 raw with
             | Some mask => Some (Masked (MkPrefix (A4 a) (mask_size mask)))
             | None => None
             end
    | _ => None
    end in
  match ParsePrefix target with
  | Some p => if Is4 (px_Addr p) then Some (Masked p) else host
  | None => host
  end.

Definition foreignRouteConflicts (policy : Policy) (e : gmap string (gmap string (gmap string string)))
  : list Conflict :=
  match po_StaticRoute policy with
  | None => []
  | Some route =>
      match ParsePrefix (sr_Target route) with
      | None => []
      | Some want =>
          foreign_scan e "network" (fun name v =>
            if owned_values v || uciOptionTrue (get v "disabled") then []
            else
              let kind := get v ".type" in
              if String.eqb kind "rule" then [MkConflict "network" name
                (msg ("foreign policy-routing rule %s can bypass managed route %q; oonfeeWRT will not infer or reorder a human-owned routing table")
                   [VS name; VS (po_Name policy)])]
              else if String.eqb kind "route" &&
                      match routePrefix v with Some got => Overlaps got want | None => true end then
                [MkConflict "network" name
                  (msg ("foreign route %s overlaps or cannot be proven disjoint from managed route %q (%s)")
                     [VS name; VS (po_Name policy); VS (prefix_String want)])]
              else [])
      end
  end.

Definition foreignHostConflicts (client : PolicyClient) (e : gmap string (gmap string (gmap string string)))
  : list Conflict :=
  match canon_mac (pc_MAC client) with
  | Err _ => []
  | Ok wantMAC =>
      foreign_scan e "dhcp" (fun name v =>
        if owned_values v || negb (String.eqb (get v ".type") "host") || uciOptionFalse (get v "enable") then []
        else
          let rawMAC := TrimSpace (get v "mac") in
          let macConflict := if String.eqb rawMAC ""
                             then existsb (fun o => nonblank (get v o)) ["duid"; "hostid"; "id"; "name"]
                             else foreignMACCouldMatch rawMAC wantMAC in
          if macConflict || String.eqb (TrimSpace (get v "ip")) (pc_FixedIP client) then
            [MkConflict "dhcp" name
              (msg ("foreign static lease %s already claims client %s or address %s; oonfeeWRT will not overwrite it")
                 [VS name; VS wantMAC; VS (pc_FixedIP client)])]
          else [])
  end.

Definition foreignExpandedPolicyConflicts (s : Site) (e : gmap string (gmap string (gmap string string)))
  : list Conflict :=
  dedupeConflicts
    (flat_map (fun p =>
       if negb (po_Enabled p) then []
       else if String.eqb (po_Kind p) PolicyFirewallRule then foreignRuleConflicts p e
       else if String.eqb (po_Kind p) PolicyPortForward then foreignRedirectConflicts p e
       else if String.eqb (po_Kind p) PolicyStaticRoute then foreignRouteConflicts p e
       else []) (Policies s) ++
     flat_map (fun c =>
       ((if pc_Blocked c then flat_map (fun zone => foreignClientBlockConflicts c zone e) (ActiveZoneNames s)
         else []) ++
        (if negb (String.eqb (pc_FixedIP c) "") then foreignHostConflicts c e else []))%list) (PolicyClients s))%list.

(** ** Sections *)

(** [%010d]. *)
Definition pad10 (z : Z) : string :=
  let digits := Itoa (Z.abs z) in
  let sign := if z <? 0 then "-" else "" in
  sign ++ of_chars (repeat "0"%char (10 - String.length sign - String.length digits)) ++ digits.

Definition policySectionKind (kind : string) : string :=
  if String.eqb kind PolicyFirewallRule then "rule"
  else if String.eqb kind PolicyPortForward then "dnat"
  else if String.eqb kind PolicyStaticRoute then "route"
  else "unknown".

Definition policy_section_name (p : Policy) : string :=
  NamePrefix ++ "_policy_" ++ policySectionKind (po_Kind p) ++ "_" ++ pad10 (po_Order p) ++ "_" ++ Itoa (po_ID p).

Definition copyNonempty (key value : string) (v : gmap string string) : gmap string string :=
  if negb (String.eqb value "") then <[key := value]> v else v.

(** [setProtocols]: one protocol is an option, several are a list. *)
Definition setProtocols (protocols : list string) (v : gmap string string) (lists : gmap string (list string))
  : gmap string string * gmap string (list string) :=
  match CanonicalProtocols protocols with
  | [p] => (<["proto" := p]> v, lists)
  | ps => (v, <["proto" := ps]> lists)
  end.

Definition policyZonesRendered (source destination : string) (rendered : list string) : bool :=
  existsb (String.eqb (fwZoneName source)) rendered &&
  (String.eqb destination "" || existsb (String.eqb (fwZoneName destination)) rendered).

Definition missingPolicyZoneConflict (name : string) : Conflict :=
  MkConflict "firewall" ("policy-" ++ safe name)
    (msg ("policy %q references a managed zone that was not renderable on this Gateway. Applying the rule without its source/destination zone would change its scope, so the whole device is blocked")
       [VS name]).

Definition desiredSection (d : Doc) (config name : string) : bool :=
  existsb (fun s => String.eqb (sec_Config s) config && String.eqb (sec_Name s) name) (Sections d).

Definition fixedIPNetwork (s : Site) (raw : string) : option Network :=
  match ParseAddr raw with
  | None => None
  | Some addr => match networksContaining s addr with [n] => Some n | _ => None end
  end.

Definition policy_title (p : Policy) : string := "oonfeeWRT policy " ++ Itoa (po_ID p) ++ " " ++ po_Name p.

(** What rendering one object adds: sections, omissions and conflicts. *)
Definition rendered : Type := list Section * list Omission * list Conflict.
Definition r_section (s : Section) : rendered := ([s], [], []).
Definition r_omission (o : Omission) : rendered := ([], [o], []).
Definition r_conflict (c : Conflict) : rendered := ([], [], [c]).
Definition r_none : rendered := ([], [], []).
Definition r_app (a b : rendered) : rendered :=
  (fst (fst a) ++ fst (fst b), snd (fst a) ++ snd (fst b), snd a ++ snd b)%list.
Definition r_concat (l : list rendered) : rendered := fold_right r_app r_none l.

Definition rule_section (p : Policy) (rule : FirewallRule) (macs : list string) : Section :=
  let v := vals [("name", policy_title p); ("src", fwZoneName (fr_SourceZone rule));
                 ("target", ToUpper (fr_Action rule)); ("family", "ipv4"); (OwnershipTag, "1")] in
  let v := if negb (String.eqb (fr_DestinationZone rule) "")
           then <["dest" := fwZoneName (fr_DestinationZone rule)]> v else v in
  let v := copyNonempty "dest_port" (fr_DestinationPort rule)
             (copyNonempty "src_port" (fr_SourcePort rule)
               (copyNonempty "dest_ip" (fr_DestinationCIDR rule)
                 (copyNonempty "src_ip" (fr_SourceCIDR rule) v))) in
  let '(v, lists) := setProtocols (fr_Protocols rule) v ∅ in
  MkSection "firewall" "rule" (policy_section_name p) v
    (if bool_decide (macs = []) then lists else <["src_mac" := macs]> lists) policyRuleManagedOptions.

Definition render_rule (s : Site) (zones : list string) (p : Policy) (rule : FirewallRule) : rendered :=
  match FirewallSourceMACs s (Some rule) with
  | Some macs =>
      if bool_decide (macs = []) && (0 <? fr_SourceSetID rule) then
        r_conflict (MkConflict "firewall" ("policy-" ++ safe (po_Name p))
          (msg ("policy %q references a missing or empty reusable source set; applying without its members would broaden the rule, so the whole device is blocked") [VS (po_Name p)]))
      else if negb (policyZonesRendered (fr_SourceZone rule) (fr_DestinationZone rule) zones) then
        r_conflict (missingPolicyZoneConflict (po_Name p))
      else r_section (rule_section p rule macs)
  | None =>
      r_conflict (MkConflict "firewall" ("policy-" ++ safe (po_Name p))
        (msg ("policy %q references a missing or empty reusable source set; applying without its members would broaden the rule, so the whole device is blocked") [VS (po_Name p)]))
  end.

Definition redirect_section (p : Policy) (rule : PortForward) : Section :=
  let v := copyNonempty "src_ip" (pf_SourceCIDR rule)
             (vals [("name", policy_title p); ("src", "wan"); ("dest", fwZoneName (pf_DestinationZone rule));
                    ("src_dport", Itoa (pf_ExternalPort rule)); ("dest_ip", pf_DestinationIP rule);
                    ("dest_port", Itoa (pf_DestinationPort rule)); ("target", "DNAT"); ("family", "ipv4");
                    (OwnershipTag, "1")]) in
  let '(v, lists) := setProtocols (pf_Protocols rule) v ∅ in
  MkSection "firewall" "redirect" (policy_section_name p) v lists policyRedirectManagedOptions.

Definition route_section (p : Policy) (rule : StaticRoute) (iface : string) : Section :=
  let v := vals [("interface", iface); ("target", sr_Target rule); ("gateway", sr_Gateway rule);
                 ("table", "main"); (OwnershipTag, "1")] in
  MkSection "network" "route" (policy_section_name p)
    (if 0 <? sr_Metric rule then <["metric" := Itoa (sr_Metric rule)]> v else v) ∅
    ["disabled"; "enabled"; "metric"; "netmask"; "mtu"; "table"; "valid"; "source"; "onlink"; "type"; "proto"].

Definition render_policy (s : Site) (zones : list string) (desired : Doc) (p : Policy) : rendered :=
  if negb (po_Enabled p) then r_none
  else if String.eqb (po_Kind p) PolicyFirewallRule then
    match po_Firewall p with Some rule => render_rule s zones p rule | None => r_none end
  else if String.eqb (po_Kind p) PolicyPortForward then
    match po_PortForward p with
    | Some rule =>
        if negb (existsb (String.eqb (fwZoneName (pf_DestinationZone rule))) zones)
        then r_conflict (missingPolicyZoneConflict (po_Name p))
        else r_section (redirect_section p rule)
    | None => r_none
    end
  else if String.eqb (po_Kind p) PolicyStaticRoute then
    match po_StaticRoute p with
    | Some rule =>
        if 0 <? sr_NetworkID rule then
          let iface := netIfaceName (match NetworkByID s (sr_NetworkID rule) with Some n => n_Name n | None => "" end) in
          if negb (desiredSection desired "network" iface) then
            r_omission (omit (po_Name p)
              ("the selected managed network was not renderable on this Gateway, so its route was left out rather than attached to an invented interface") KindUndetermined)
          else r_section (route_section p rule iface)
        else r_section (route_section p rule "wan")
    | None => r_none
    end
  else r_none.

Definition block_section (mac zone : string) : Section :=
  MkSection "firewall" "rule" (NamePrefix ++ "_client_block_" ++ safe mac ++ "_" ++ safe zone)
    (vals [("name", "oonfeeWRT client-block " ++ mac ++ " " ++ zone); ("src", fwZoneName zone); ("dest", "*");
           ("proto", "all"); ("target", "REJECT"); (OwnershipTag, "1")])
    {[ "src_mac" := [mac] ]} policyRuleManagedOptions.

Definition fixed_section (mac ip : string) : Section :=
  MkSection "dhcp" "host" (NamePrefix ++ "_fixed_" ++ safe mac)
    (vals [("mac", mac); ("ip", ip); (OwnershipTag, "1")]) ∅
    ["enable"; "enabled"; "instance"; "force"; "networkid"; "dhcp_option"; "name"; "hostid";
     "dns"; "duid"; "tag"; "match_tag"; "broadcast"; "leasetime"].

Definition render_block (activeZones zones : list string) (mac : string) : rendered :=
  match activeZones with
  | [] => r_conflict (MkConflict "firewall" ("client-" ++ safe mac)
      (msg ("client %s is marked blocked, but the site has no active managed source zone. The device's foreign lan zone is never edited or guessed; create/assign a managed network first") [VS mac]))
  | _ => r_concat (map (fun zone =>
      if negb (existsb (String.eqb (fwZoneName zone)) zones)
      then r_conflict (missingPolicyZoneConflict ("block " ++ mac))
      else r_section (block_section mac zone)) activeZones)
  end.

Definition render_fixed (s : Site) (dhcpNetworks : list string) (mac ip : string) : rendered :=
  let lost := r_omission (omit mac
    ("the fixed IP's managed DHCP network was not renderable on this Gateway, so no partial static lease was written") KindUndetermined) in
  match fixedIPNetwork s ip with
  | Some n => if existsb (String.eqb (netIfaceName (n_Name n))) dhcpNetworks
              then r_section (fixed_section mac ip) else lost
  | None => lost
  end.

Definition render_client (s : Site) (activeZones zones dhcpNetworks : list string) (c : PolicyClient) : rendered :=
  match canon_mac (pc_MAC c) with
  | Err _ => r_none
  | Ok mac =>
      r_app (if pc_Blocked c then render_block activeZones zones mac else r_none)
            (if negb (String.eqb (pc_FixedIP c) "") then render_fixed s dhcpNetworks mac (pc_FixedIP c) else r_none)
  end.

Definition policy_le (a b : Policy) : Prop :=
  po_Order a < po_Order b \/ (po_Order a = po_Order b /\ po_ID a <= po_ID b).
#[export] Instance policy_le_dec a b : Decision (policy_le a b).
Proof. unfold policy_le. apply _. Defined.

(** The sections of a type in the document, by one of their options. *)
Definition rendered_option (d : Doc) (config type option : string) : list string :=
  flat_map (fun s => if String.eqb (sec_Config s) config && String.eqb (sec_Type s) type
                     then [get (sec_Values s) option] else []) (Sections d).

Definition needsFW4 (s : Site) : bool :=
  existsb (fun p => po_Enabled p && (String.eqb (po_Kind p) PolicyFirewallRule ||
                                     String.eqb (po_Kind p) PolicyPortForward)) (Policies s) ||
  existsb pc_Blocked (PolicyClients s).

Definition fw4_state (caps : option Registry) : CapState :=
  match caps with Some r => State r FeatFirewall4 | None => Unknown end.

Definition renderPolicies (s : Site) (dev : Device) (caps : option Registry)
  (e : gmap string (gmap string (gmap string string))) (desired : Doc) : rendered :=
  if negb (Routes (EffectiveFunctions dev)) then r_none
  else if negb (snd (PolicySourceMACExpansion s)) then
    r_conflict (MkConflict "firewall" "policy-source-macs"
      (msg ("policy source MAC expansion exceeds the site maximum of %d entries; rendering is blocked before allocating the expanded rules")
         [VD MaxExpandedPolicySourceMACs]))
  else
    let zones := "wan" :: rendered_option desired "firewall" "zone" "name" in
    let dhcpNetworks := rendered_option desired "dhcp" "dhcp" "interface" in
    let gate := if needsFW4 s && negb (bool_decide (fw4_state caps = Present)) then
                  r_conflict (MkConflict "firewall" "policy-capability"
                    (msg ("enabled firewall/NAT/client-block policy requires observable firewall4, but this device reports %s. Re-probe after restoring the exact nft read grant; policy is blocked rather than silently omitted")
                       [VS (State_String (fw4_state caps))]))
                else r_none in
    r_app gate
      (r_app (r_concat (map (render_policy s zones desired) (merge_sort policy_le (Policies s))))
        (r_app (r_concat (map (render_client s (ActiveZoneNames s) zones dhcpNetworks) (PolicyClients s)))
               ([], [], foreignExpandedPolicyConflicts s e))).
