(* ===== verification/RenderWireless.v ===== *)
(** * Wireless sections (internal/render/render.go, mesh.go, uplink.go, mobility.go)

    What one wifi-iface contains - access point, mesh point or the station of
    a wireless uplink -, how a band of the site becomes a radio of the device,
    the gates that decide whether a feature may be rendered, and the 802.11r
    mobility domain every access point derives on its own. *)

From Stdlib Require Import ZArith Lia Ascii String.
From stdpp Require Import base gmap list strings sorting.
From S2P Require Import Prelude GoStr GoFmt ApplyEngine SiteModel Capability RenderPlan RenderNetwork.

Local Open Scope string_scope.
Local Open Scope Z_scope.

(** ** Mobility domain (mobility.go) *)

(** One shift of the inner loop, on a [uint16]. *)
Definition crc_shift (crc : Z) : Z :=
  if Z.testbit crc 15 then Z.lxor (Z.shiftl crc 1 mod 2 ^ 16) 4129
  else Z.shiftl crc 1 mod 2 ^ 16.

Definition crc_byte (crc : Z) (b : ascii) : Z :=
  Nat.iter 8 crc_shift (Z.lxor crc (Z.shiftl (byte_of b) 8)).

Definition crc16CCITT (data : list ascii) : Z := fold_left crc_byte data 65535.

Definition MobilityDomain (siteUUID : string) (wlanID : Z) : string :=
  Sprintf "%04x" [VD (crc16CCITT (chars (Sprintf "%s:%d" [VS siteUUID; VD wlanID])))].

(** ** Names and options *)

Definition boolOpt (on : bool) : string := if on then "1" else "0".

Definition ifaceName (wlanID : Z) (radio : string) : string :=
  Sprintf "%s_wlan%d_%s" [VS NamePrefix; VD wlanID; VS radio].
Definition meshIfaceName (meshID : Z) (radio : string) : string :=
  Sprintf "%s_mesh%d_%s" [VS NamePrefix; VD meshID; VS radio].
Definition uplinkIfaceName (uplinkID : Z) (radio : string) : string :=
  Sprintf "%s_up%d_%s" [VS NamePrefix; VD uplinkID; VS radio].

Definition wifiIfaceOptions : list string :=
  ["device"; "mode"; "ssid"; "network"; "encryption"; "key"; "ieee80211w";
   "ieee80211r"; "ft_over_ds"; "mobility_domain"; "reassociation_deadline";
   "ieee80211k"; "rrm_neighbor_report"; "rrm_beacon_report"; "bss_transition";
   "wnm_sleep_mode"; "hidden"; "isolate"; "bridge_isolate"; "maxassoc"; "wds"].

(** ** Radios *)

Definition radioSection (r : Radio) : string :=
  if negb (String.eqb (ra_Section r) "") then ra_Section r
  else if String.eqb (ra_Phy r) "" then ra_Device r
  else if (3 <? len (ra_Phy r)) && HasPrefix (ra_Phy r) "phy"
       then "radio" ++ of_chars (drop 3 (chars (ra_Phy r)))
       else ra_Phy r.

Definition radio_le (a b : Radio) : Prop := str_le (ra_Device a) (ra_Device b).
#[export] Instance radio_le_dec a b : Decision (radio_le a b).
Proof. unfold radio_le. apply _. Defined.

(** The band a radio serves: what it is tuned to, else what it is configured for. *)
Definition radio_band (r : Radio) : option string :=
  match BandForFrequency (ra_Frequency r) with
  | Some b => Some b
  | None => if String.eqb (ra_Band r) "" then None else Some (ra_Band r)
  end.

Definition take_band (out : gmap string string) (r : Radio) : gmap string string :=
  match radio_band r with
  | None => out
  | Some band => match out !! band with
                 | Some _ => out
                 | None => <[band := radioSection r]> out
                 end
  end.

(** [sort.Slice] leaves the order of radios with one device name open; the
    probe reports each device once. *)
Definition radiosByBand (caps : option Registry) : gmap string string :=
  match caps with
  | None => ∅
  | Some r => fold_left take_band (merge_sort radio_le (rg_Radios r)) ∅
  end.

Definition uci_char (c : ascii) : bool :=
  let b := byte_of c in
  ((65 <=? b) && (b <=? 90)) || ((97 <=? b) && (b <=? 122)) || ((48 <=? b) && (b <=? 57)) || (b =? 95).

Definition validUCIIdentifier (name : string) : bool :=
  negb ((len name <? 1) || (64 <? len name)) && forallb uci_char (chars name).

(** [seen]: the targets so far with their indices; [i] is the next index. *)
Fixpoint radio_target_errors (seen : list (string * Z)) (i : Z) (l : list Radio) : option error :=
  match l with
  | [] => None
  | r :: l' =>
      let target := radioSection r in
      if negb (validUCIIdentifier target) then
        Some (errf ("render: capability radio %d resolves to invalid UCI wifi-device section %q; Re-probe capabilities before Preview or Apply")
                [VD (i + 1); VS target])
      else match List.find (fun e => String.eqb (fst e) target) seen with
           | Some (_, previous) =>
               Some (errf ("render: capability radios %d and %d both resolve to UCI wifi-device section %q; radio targets are ambiguous. Re-probe capabilities before Preview or Apply")
                       [VD (previous + 1); VD (i + 1); VS target])
           | None => radio_target_errors ((target, i) :: seen) (i + 1) l'
           end
  end.

Definition validateRadioTargets (caps : option Registry) : option error :=
  match caps with
  | None => None
  | Some r => radio_target_errors [] 0 (rg_Radios r)
  end.

Definition band_order (b : string) : Z :=
  if String.eqb b Band5G then 1 else if String.eqb b Band6G then 2 else 0.
Definition band_le (a b : string) : Prop := band_order a <= band_order b.
#[export] Instance band_le_dec a b : Decision (band_le a b).
Proof. unfold band_le. apply _. Defined.

Definition orderedBands (bands : list string) : list string := merge_sort band_le bands.

Definition radioIsDisabled (e : Existing) (radio : string) : bool :=
  match In_ e "wireless" !! radio with
  | None => false
  | Some sec => String.eqb (get sec "disabled") "1"
  end.

Definition radioBySection (caps : option Registry) (section : string) : option Radio :=
  match caps with
  | None => None
  | Some r => List.find (fun ra => String.eqb (radioSection ra) section) (rg_Radios r)
  end.

Definition live_channel (wireless : gmap string (gmap string string)) (r : Radio) : Radio :=
  match wireless !! radioSection r with
  | None => r
  | Some sec =>
      match Atoi (TrimSpace (get sec "channel")) with
      | Some n => if 0 <? n then MkRadio (ra_Section r) (ra_Device r) (ra_Phy r) n (ra_Frequency r)
                                   (ra_Hardware r) (ra_Band r)
                  else r
      | None => r
      end
  end.

Definition withLiveChannels (caps : option Registry) (e : Existing) : option Registry :=
  match caps with
  | None => None
  | Some r => Some (MkRegistry (rg_Board r) (rg_Features r) (rg_Quirks r)
                      (map (live_channel (In_ e "wireless")) (rg_Radios r)) (rg_Ports r))
  end.

(** A section of someone else publishing the SSID on the radio. *)
Definition foreignSSIDOnRadio (e : Existing) (radio ssid ours : string) : option string :=
  List.find (fun name =>
    let v := section_of e "wireless" name in
    negb (String.eqb name ours) && negb (owned_values v) &&
    String.eqb (get v "ssid") ssid && String.eqb (get v "device") radio)
    (section_names e "wireless").

(** ** Gates *)

Definition undetermined (caps : option Registry) (f : string) : bool :=
  match caps with
  | None => false
  | Some r => negb (Decided (State r f))
  end.

Definition gateKind (caps : option Registry) (f : string) : string :=
  if undetermined caps f then KindUndetermined else KindUnclassified.
Definition radioKind (radiosUnknown : bool) : string :=
  if radiosUnknown then KindUndetermined else KindUnclassified.

Definition unreadableFix (caps : option Registry) : string :=
  if match caps with Some r => bool_decide (rg_Radios r = []) | None => false end then
    ("This device's radio list could not be read at all, so no WLAN " ++
     "can be rendered here and applying one will not change that — there " ++
     "is nothing to apply. The list comes from luci-rpc.getWirelessDevices " ++
     "and iwinfo.devices, both of which the device's access-control file " ++
     "must grant. Re-adopt the device from the Devices screen: adoption " ++
     "rewrites that file, and the current one grants both. Then re-probe.")
  else
    ("Apply a WLAN and re-probe; once a radio is broadcasting it reports " ++
     "what it is.").

(** The gates dereference the registry. [Render] reaches them only with a radio
    it found in one, so never with a nil registry; here a nil one reads as
    unknown. *)
Definition feature_state (caps : option Registry) (f : string) : CapState :=
  match caps with None => Unknown | Some r => State r f end.
Definition has_quirk (caps : option Registry) (source field : string) : bool :=
  match caps with None => false | Some r => HasQuirk r source field end.

(** [None]: the mesh may be rendered; otherwise why not. *)
Definition MeshGate (caps : option Registry) : option string :=
  match feature_state caps FeatMesh with
  | Present => None
  | NotObservable =>
      Some (("802.11s support could not be established on this device, " ++
             "so no mesh interface is rendered. The check reads which wpad build " ++
             "is installed and could not; that is a gap in what the controller " ++
             "can see, not a statement that the device lacks mesh. ") ++ readoptFix)
  | Unknown =>
      Some ("this device's capability record has no answer about " ++
            "802.11s: the check never ran here, most often because the record " ++
            "predates it. Re-probe the device from its screen, and re-adopt it " ++
            "if that does not fill the answer in. Nothing about this says the " ++
            "device lacks mesh")
  | Absent =>
      if has_quirk caps "mac80211" "mesh-point" then
        Some ("this device's wireless driver will not run an 802.11s " ++
              "mesh point. It advertises the mode and accepts the config, and " ++
              "then refuses to bring the interface up — so a mesh here would " ++
              "apply cleanly and never carry traffic. The 802.11s daemon is " ++
              "installed and is not the problem; this needs a different radio")
      else
        Some ("this device's wpad build does not carry 802.11s. Installing " ++
              "a wpad-mesh-* package would provide it — which the controller does " ++
              "not do, because it installs nothing on your devices")
  end.

Definition UplinkGate (caps : option Registry) : option string :=
  match feature_state caps FeatWirelessUplink with
  | Present => None
  | NotObservable =>
      Some (("whether this device can join a network over the air could " ++
             "not be established — the installed-package list, which is the only " ++
             "source that says whether a supplicant is present, could not be " ++
             "read. That is a gap in what the controller can see, not a " ++
             "statement about the device. ") ++ readoptFix)
  | Unknown =>
      Some ("this device's capability record has no answer about " ++
            "joining a network over the air: the check never ran here, most " ++
            "often because the record predates it. Re-probe the device from its " ++
            "screen, and re-adopt it if that does not fill the answer in")
  | Absent =>
      Some ("this device has no wireless supplicant installed, so it can " ++
            "serve a network and cannot join one. Installing a wpad-* package would " ++
            "provide it — which the controller does not do, because it installs " ++
            "nothing on your devices")
  end.

(** ** Access point sections *)

(** [ieee80211w]: protected management frames, as the security mode allows. *)
Definition pmf_value (sec : Security) : string :=
  let mode := s_Mode sec in
  let pmf := s_PMF sec in
  if String.eqb mode SecNone then "0"
  else if String.eqb mode SecSAE || String.eqb mode SecOWE then PMFRequired
  else if String.eqb mode SecSAEMixed then
    if String.eqb pmf PMFDisabled || String.eqb pmf "" then PMFOptional else pmf
  else if negb (String.eqb pmf "") then pmf else "0".

(** 802.11r wanted on WPA2-PSK without the compatibility warning accepted. *)
Definition ft_refused (w : WLAN) : bool :=
  r_FT (w_Roaming w) && String.eqb (s_Mode (w_Security w)) SecPSK2 && negb (r_FTWithPSK2 (w_Roaming w)).

Definition ft_refusal (w : WLAN) : Omission :=
  omit (w_SSID w) ("802.11r not rendered: it breaks some older clients on " ++
                   "WPA2-PSK and the compatibility warning was not accepted") KindUnclassified.

Definition wifi_values (s : Site) (w : WLAN) (net : Network) (radio : string) : list (string * string) :=
  let sec := w_Security w in
  let kv := boolOpt (r_KV (w_Roaming w)) in
  let o := w_Options w in
  ([("device", radio); ("mode", "ap"); ("ssid", w_SSID w); ("network", networkAttachmentName net);
    ("encryption", s_Mode sec)] ++
   (if NeedsKey (s_Mode sec) then [("key", s_Key sec)] else []) ++
   [("ieee80211w", pmf_value sec);
    ("ieee80211r", boolOpt (r_FT (w_Roaming w) && negb (ft_refused w)));
    ("ft_over_ds", boolOpt (r_FTOverDS (w_Roaming w)));
    ("mobility_domain", MobilityDomain (UUID s) (w_ID w));
    ("reassociation_deadline", "20000");
    ("ieee80211k", kv); ("rrm_neighbor_report", kv); ("rrm_beacon_report", kv);
    ("bss_transition", kv); ("wnm_sleep_mode", kv);
    ("hidden", boolOpt (o_Hidden o)); ("isolate", boolOpt (o_Isolate o))] ++
   (if o_Isolate o then [("bridge_isolate", "1")] else []) ++
   (if 0 <? o_MaxAssoc o then [("maxassoc", Itoa (o_MaxAssoc o))] else []) ++
   [("wds", if o_AllowUplink o then "1" else "0"); (OwnershipTag, "1")])%list.

Definition renderWifiIface (s : Site) (w : WLAN) (net : Network) (radio : string) : Section * list Omission :=
  (MkSection "wireless" "wifi-iface" (ifaceName (w_ID w) radio) (vals (wifi_values s w net radio)) ∅ wifiIfaceOptions,
   if ft_refused w then [ft_refusal w] else []).

(** ** Mesh points and uplink stations *)

Definition mesh_values (m : Mesh) (net : Network) (radio : string) : list (string * string) :=
  ([("device", radio); ("mode", "mesh"); ("mesh_id", m_MeshID m); ("network", networkAttachmentName net);
    ("mesh_fwding", "1"); (OwnershipTag, "1")] ++
   (if Mesh_Open m then [("encryption", "none")]
    else [("encryption", "sae"); ("key", m_Key m); ("ieee80211w", PMFRequired)]))%list.

Definition mesh_caution (m : Mesh) : Omission :=
  omit (m_MeshID m)
    ("this mesh is unencrypted: any device in radio range can peer " ++
     "with it and reach the network behind it. Set a passphrase unless " ++
     "that is deliberate") KindCaution.

(** [None]: the empty section of a closed gate. *)
Definition renderMesh (m : Mesh) (net : Network) (radio : string) (caps : option Registry)
  : option Section * list Omission :=
  match MeshGate caps with
  | Some reason => (None, [omit (m_MeshID m) reason (gateKind caps FeatMesh)])
  | None =>
      (Some (MkSection "wireless" "wifi-iface" (meshIfaceName (m_ID m) radio) (vals (mesh_values m net radio)) ∅ []),
       if Mesh_Open m then [mesh_caution m] else [])
  end.

Definition uplink_values (w : WLAN) (net : Network) (radio : string) : list (string * string) :=
  let sec := w_Security w in
  ([("device", radio); ("mode", "sta"); ("ssid", w_SSID w); ("network", networkAttachmentName net);
    ("wds", "1"); (OwnershipTag, "1"); ("encryption", s_Mode sec); ("disassoc_low_ack", "0")] ++
   (if NeedsKey (s_Mode sec) then [("key", s_Key sec)] else []) ++
   (if negb (String.eqb (s_PMF sec) "") then [("ieee80211w", s_PMF sec)] else []))%list.

Definition uplink_caution (w : WLAN) : Omission :=
  omit (w_SSID w)
    (("this device will join " ++ w_SSID w) ++
     (" as a wireless bridge. If it " ++
      "is ALSO connected by ethernet to the same network, that is a " ++
      "layer-2 loop — OpenWrt bridges ship with STP off, so nothing will " ++
      "break it and the symptom is a network that stops working rather " ++
      "than an error. Unplug the cable, or enable STP, before applying")) KindCaution.

Definition renderUplink (u : Uplink) (w : WLAN) (net : Network) (radio : string) (caps : option Registry)
  : option Section * list Omission :=
  match UplinkGate caps with
  | Some reason => (None, [omit (w_SSID w) reason (gateKind caps FeatWirelessUplink)])
  | None =>
      (Some (MkSection "wireless" "wifi-iface" (uplinkIfaceName (u_ID u) radio) (vals (uplink_values w net radio)) ∅ []),
       [uplink_caution w])
  end.

(** The check value of the CCITT-FALSE variant. *)
Example crc16_check_value : crc16CCITT (chars "123456789") = 10673.
Proof. reflexivity. Qed.
