(* ===== verification/Render.v ===== *)
(** * Rendering a device (internal/render/render.go)

    [Render] turns the site into the UCI document of one device: networks
    first, then firewall zones and policies, then access points, the wireless
    uplink and meshes, then what is known to be wrong with the hardware. The
    document and the report it appends to are passed from step to step as the
    code passes its locals; the site is the one [Site.Validate] leaves behind,
    because validation rewrites policies through shared pointers. *)

From Stdlib Require Import ZArith Lia Ascii String.
From stdpp Require Import base gmap list strings sorting.
From S2P Require Import Prelude GoStr GoFmt ApplyEngine SiteModel SitePolicy Capability RenderPlan RenderNetwork.
From S2P Require Import RenderZones RenderPolicy RenderWireless.

Local Open Scope string_scope.
Local Open Scope Z_scope.

(** ** The document and the report being built *)

Definition out : Type := Doc * Report.

Definition add_omissions (o : out) (oms : list Omission) : out :=
  let '(d, r) := o in (d, MkReport (Omissions r ++ oms)%list (Conflicts r) (Warnings r)).
Definition add_conflicts (o : out) (cs : list Conflict) : out :=
  let '(d, r) := o in (d, MkReport (Omissions r) (Conflicts r ++ cs)%list (Warnings r)).
Definition add_warning (o : out) (w : Warning) : out := let '(d, r) := o in (d, addWarning r w).
Definition add_warnings (o : out) (ws : list Warning) : out := fold_left add_warning ws o.
Definition add_section (o : out) (s : Section) : out := let '(d, r) := o in (with_section d s, r).

Definition own_section (e : Existing) (o : out) (s : Section) : out :=
  let '(d, r) := o in
  let '(d', cs) := addOwned d (Conflicts r) e s in
  (d', MkReport (Omissions r) cs (Warnings r)).
Definition own_sections (e : Existing) (o : out) (ss : list Section) : out := fold_left (own_section e) ss o.

Definition own_patch (o : out) (p : Patch) : out :=
  let '(d, r) := o in
  let '(d', cs) := addPatch d (Conflicts r) p in
  (d', MkReport (Omissions r) cs (Warnings r)).

Definition add_blind (o : out) (configs : list string) : out :=
  let '(d, r) := o in
  (MkDoc (DeviceID d) (Sections d) (Patches d) (Retain d) (Blind d ++ configs)%list, r).

(** [Doc.retain]. *)
Definition retain (e : Existing) (o : out) (name reason : string) : out :=
  let '(d, r) := o in
  let o' := (MkDoc (DeviceID d) (Sections d) (Patches d) (Retain d ++ [("wireless", name)])%list (Blind d), r) in
  if OwnedIn e "wireless" name then add_omissions o' [omit name reason KindUndetermined] else o'.

(** The zero value [NetworkByID] returns with false. *)
Definition zero_Network : Network := MkNetwork 0 "" 0 "" "" None None false false.
Definition network_of (s : Site) (id : Z) : Network := default zero_Network (NetworkByID s id).

(** ** Wired half *)

Definition wantsVLAN (s : Site) : bool := existsb (fun n => n_Enabled n && (1 <? n_VLAN n)) (Networks s).

Definition wired_blind (s : Site) (caps : option Registry) : bool :=
  wantsVLAN s && match caps with None => true | Some r => String.eqb (pt_Bridge (rg_Ports r)) "" end.

Definition is_section (config type : string) (s : Section) : bool :=
  String.eqb (sec_Config s) config && String.eqb (sec_Type s) type.

(** The loop over one network's sections. *)
Definition network_section (n : Network) (m : zoneMember) (e : Existing) (o : out) (s : Section) : out :=
  let o := if is_section "network" "bridge-vlan" s then add_conflicts o (foreignBridgeVLANConflicts s e) else o in
  let o := own_section e o s in
  if is_section "network" "interface" s
  then add_conflicts o (foreignDHCPConflicts n (sec_Name s)
         (negb (String.eqb (zm_iface m) "") && zm_dhcpSection m) e)
  else o.

Definition render_network (dev : Device) (caps : option Registry) (e : Existing)
  (acc : out * list zoneMember) (n : Network) : out * list zoneMember :=
  let '(o, members) := acc in
  let o := if n_Enabled n && (n_VLAN n <=? 1) && Routes (EffectiveFunctions dev) then
             let '(patches, conflicts) := renderManagementIPv6 n e in
             fold_left own_patch patches (add_conflicts o conflicts)
           else o in
  let '(secs, oms, m) := renderNetwork n dev caps e in
  (add_omissions (fold_left (network_section n m e) secs o) oms,
   if String.eqb (zm_iface m) "" then members else (members ++ [m])%list).

Definition render_wired (s : Site) (dev : Device) (caps : option Registry) (e : Existing) (o : out) : out :=
  let '(o, members) := fold_left (render_network dev caps e) (Networks s) (o, []) in
  let '(zoneSecs, zoneConflicts) := renderZones members (EffectiveZonePolicies s) e in
  let o := own_sections e (add_conflicts o zoneConflicts) zoneSecs in
  let '(policySecs, policyOmissions, policyConflicts) := renderPolicies s dev caps e (fst o) in
  own_sections e (add_conflicts (add_omissions o policyOmissions) policyConflicts) policySecs.

(** ** Wireless half *)

Definition networkAttachmentAvailable (d : Doc) (n : Network) : bool :=
  if negb (n_Enabled n) then false
  else if n_VLAN n <=? 1 then true
  else existsb (fun s => is_section "network" "interface" s && String.eqb (sec_Name s) (networkAttachmentName n))
         (Sections d).

Definition networkAttachmentOmission (n : Network) (action : string) : string :=
  if negb (n_Enabled n) then msg "network %q is disabled, so this device cannot %s" [VS (n_Name n); VS action]
  else msg ("network %q uses VLAN %d, but this device has no usable " ++
            "interface for that VLAN, so it will not %s. See the wired-network " ++
            "omission for the missing bridge or port prerequisite. Rendering the " ++
            "wireless section anyway would create a BSS that can appear on air while " ++
            "being isolated from the intended network")
         [VS (n_Name n); VD (n_VLAN n); VS action].

Definition radios_unknown (caps : option Registry) : bool :=
  match caps with
  | None => true
  | Some r => bool_decide (rg_Radios r = []) && negb (Decided (State r FeatSurvey))
  end.

Definition noRadio (unknown : bool) (band : string) : string :=
  if unknown then
    msg ("this device's radio list could not be read, so " ++
         "whether it has a %s radio is unknown and nothing is rendered " ++
         "for that band. This is not a statement that the radio is " ++
         "absent — it means the check did not run") [VS band]
  else msg "device has no %s radio" [VS band].

Definition warn (ssid : string) (d : Defect) : Warning :=
  MkWarning ssid (df_ID d) (df_Summary d) (df_Detail d) (df_Confidence d) (df_Severity d)
    (df_Mitigation d) (df_Source d).

Definition wlan_foreign_reason (name : string) : string :=
  ("a section named " ++ name) ++
  (" already exists in " ++
   "wireless without oonfeeWRT's ownership marker (option ") ++ OwnershipTag ++
  (" '1'), so it was written by hand or by an " ++
   "older install — and oonfeeWRT never overwrites config it " ++
   "did not write. To unblock this apply, either rename or " ++
   "delete that section on the device, or, if it really is " ++
   "ours from a previous install, add `option ") ++ OwnershipTag ++
  " '1'` to it so the controller adopts it.".

Definition ssid_reason (ssid radio other : string) : string :=
  msg ("SSID %q is already published on %s by " ++
       "wireless.%s, which oonfeeWRT did not write — and it never " ++
       "edits config it did not write, so nothing is applied to " ++
       "this device until that is settled. Two APs answering for " ++
       "one SSID with different keys fails in a way nobody enjoys " ++
       "debugging. To unblock it: delete or rename that section on " ++
       "the device, or change this WLAN's SSID here.") [VS ssid; VS radio; VS other].

Definition disabled_warning (ssid radio : string) : Warning :=
  MkWarning ssid "radio-disabled"
    (msg ("radio %s is switched off on this device, " ++
          "so this network will not go on the air there") [VS radio])
    ("The wireless section will be written correctly and the " ++
     "apply will report success. Nothing will broadcast, and the " ++
     "health check will then fail looking for an SSID that was " ++
     "never going to appear. oonfeeWRT does not switch radios on: " ++
     "it only changes config it wrote, and this radio is not that.")
    ConfMeasuredHere SevSilentlyIgnored
    (msg ("Enable it on the device: " ++
          "`uci set wireless.%s.disabled='0'; uci commit wireless; " ++
          "wifi reload`") [VS radio]) "".

(** A wireless section of that name which is not ours. *)
Definition foreign_wireless (e : Existing) (name : string) : bool :=
  has (In_ e "wireless") name && negb (OwnedIn e "wireless" name).

(** One band of one WLAN; the boolean is whether a section was rendered. *)
Definition render_band (s : Site) (w : WLAN) (net : Network) (caps : option Registry) (e : Existing)
  (acc : out * Z) (band : string) : out * Z :=
  let '(o, rendered) := acc in
  match radiosByBand caps !! band with
  | None => (add_omissions o [omit (w_SSID w) (noRadio (radios_unknown caps) band) (radioKind (radios_unknown caps))],
             rendered)
  | Some radio =>
      let name := ifaceName (w_ID w) radio in
      if foreign_wireless e name then
        (add_conflicts o [MkConflict "wireless" name (wlan_foreign_reason name)], rendered)
      else match foreignSSIDOnRadio e radio (w_SSID w) name with
      | Some other =>
          (add_conflicts o [MkConflict "wireless" other (ssid_reason (w_SSID w) radio other)], rendered)
      | None =>
          let '(sec, omissions) := renderWifiIface s w net radio in
          let o := add_warnings o (map (warn (w_SSID w))
                     (TriggeredByOn caps (sec_Values sec) (radioBySection caps radio))) in
          let o := if radioIsDisabled e radio then add_warning o (disabled_warning (w_SSID w) radio) else o in
          (add_omissions (add_section o sec) omissions, rendered + 1)
      end
  end.

(** An attachment that could not be decided keeps the section it has. *)
Definition retain_on (caps : option Registry) (e : Existing) (name_on : string -> string) (reason : string)
  (o : out) (band : string) : out :=
  match radiosByBand caps !! band with
  | Some radio => retain e o (name_on radio) reason
  | None => o
  end.

Definition render_wlan (s : Site) (dev : Device) (caps : option Registry) (e : Existing) (o : out) (base : WLAN)
  : out :=
  let '(w, published) := Overrides_Apply (Site_Overrides s) (dev_ID dev) base in
  if negb published then
    add_omissions o [omit (w_SSID base) "not published on this device (per-device override)" KindUnclassified]
  else
    let net := network_of s (w_NetworkID w) in
    if negb (networkAttachmentAvailable (fst o) net) then
      let o := add_omissions o [omit (w_SSID w) (networkAttachmentOmission net "broadcast this WLAN") KindUnclassified] in
      if blind (fst o) "network" then
        fold_left (retain_on caps e (ifaceName (w_ID w))
          ("the existing WLAN was left in place because the controller " ++
           "could not observe the wired network well enough to decide " ++
           "whether its VLAN attachment is usable")) (orderedBands (w_Bands w)) o
      else o
    else
      let '(o, rendered) := fold_left (render_band s w net caps e) (orderedBands (w_Bands w)) (o, 0) in
      if (rendered =? 0) && negb (HasConflicts (snd o)) && negb (radios_unknown caps) then
        add_omissions o [omit (w_SSID w) "no radio on this device matches the selected bands" KindUnclassified]
      else o.

Definition render_uplink (s : Site) (dev : Device) (caps : option Registry) (e : Existing) (o : out) : out :=
  match UplinkFor s (dev_ID dev) with
  | None => o
  | Some u =>
      match WLANByID s (u_WLANID u) with
      | None => o
      | Some w =>
          let net := network_of s (w_NetworkID w) in
          if negb (networkAttachmentAvailable (fst o) net) then
            let o := add_omissions o [omit (w_SSID w) (networkAttachmentOmission net "join this wireless uplink")
                                        KindUnclassified] in
            if blind (fst o) "network" then
              retain_on caps e (uplinkIfaceName (u_ID u))
                ("the existing wireless uplink was left in place because the " ++
                 "controller could not observe its wired VLAN attachment") o (u_Band u)
            else o
          else match radiosByBand caps !! u_Band u with
          | None =>
              add_omissions o [omit (w_SSID w)
                (msg ("this device has no %s radio, so it cannot " ++
                      "join %s over the air on that band") [VS (u_Band u); VS (w_SSID w)]) KindUnclassified]
          | Some radio =>
              let '(sec, oms) := renderUplink u w net radio caps in
              let o := add_omissions o oms in
              match sec with
              | Some sec => add_section o sec
              | None =>
                  if undetermined caps FeatWirelessUplink then
                    retain e o (uplinkIfaceName (u_ID u) radio)
                      (msg ("the existing wireless uplink section for %s " ++
                            "is left exactly as it is: this render could not " ++
                            "establish whether the device supports one, and " ++
                            "removing the link the controller reaches it through " ++
                            "on the strength of a check that did not run is not " ++
                            "something oonfeeWRT will do") [VS (w_SSID w)])
                  else o
              end
          end
      end
  end.

Definition mesh_foreign_reason (name : string) : string :=
  ("a section named " ++ name) ++
  (" already exists in wireless " ++
   "without oonfeeWRT's ownership marker (option ") ++ OwnershipTag ++
  (" '1'), so it was written by hand or by an older install — and " ++
   "oonfeeWRT never overwrites config it did not write. To unblock " ++
   "this apply, rename or delete that section on the device, or add " ++
   "`option ") ++ OwnershipTag ++
  (" '1'` to it if it really is ours " ++
   "from a previous install.").

Definition render_mesh (s : Site) (caps : option Registry) (e : Existing) (o : out) (m : Mesh) : out :=
  let net := network_of s (m_NetworkID m) in
  if negb (networkAttachmentAvailable (fst o) net) then
    let o := add_omissions o [omit (m_MeshID m) (networkAttachmentOmission net "carry this mesh") KindUnclassified] in
    if blind (fst o) "network" then
      retain_on caps e (meshIfaceName (m_ID m))
        ("the existing mesh was left in place because the controller " ++
         "could not observe its wired VLAN attachment") o (m_Band m)
    else o
  else match radiosByBand caps !! m_Band m with
  | None =>
      add_omissions o [omit (m_MeshID m)
        (msg ("device has no %s radio, and mesh nodes peer " ++
              "only with nodes on the same band — so this one cannot join " ++
              "that mesh") [VS (m_Band m)]) KindUnclassified]
  | Some radio =>
      let name := meshIfaceName (m_ID m) radio in
      if foreign_wireless e name then
        add_conflicts o [MkConflict "wireless" name (mesh_foreign_reason name)]
      else
        let '(sec, omissions) := renderMesh m net radio caps in
        let o := add_omissions o omissions in
        match sec with
        | Some sec => add_section o sec
        | None =>
            if undetermined caps FeatMesh then
              retain e o name
                (msg ("the existing mesh section for %s is left exactly as " ++
                      "it is: this render could not establish whether the device " ++
                      "supports 802.11s, and a backhaul that is carrying traffic " ++
                      "must not be deleted because a check did not run") [VS (m_MeshID m)])
            else o
        end
  end.

(** ** Hardware warnings and blindness *)

Definition hardware_warnings (caps : option Registry) (e : Existing) : list Warning :=
  (map (warn "") (List.filter (fun d => negb (Configured d)) (DefectsFor caps)) ++
   map (warn "") (TriggeredByRadios (withLiveChannels caps e)))%list.

Definition hardware_unreadable (caps : option Registry) : bool :=
  match caps with
  | None => false
  | Some r =>
      if bool_decide (rg_Radios r = []) then negb (Decided (State r FeatSurvey))
      else negb (HardwareIdentified caps)
  end.

Definition unidentified_warning (caps : option Registry) : Warning :=
  MkWarning "" "hardware-unidentified"
    ("this device's radios could not be checked against the " ++
     "known-defect list")
    ("Either no radio reported a hardware name, or the radio list " ++
     "itself could not be read. The name comes from iwinfo, which only " ++
     "answers for a radio that has an interface, and the list itself is " ++
     "refused outright by some access-control files. This is not a clean " ++
     "bill of health — it means the check did not run.")
    ConfMeasuredHere SevSilentlyIgnored (unreadableFix caps) "".

(** The owned sections of a config the render neither wants nor may remove. *)
Definition blind_kept (d : Doc) (e : Existing) (config : string) : list string :=
  sort_strings (List.filter (fun name => negb (wanted d (config, name)) && OwnedIn e config name)
                  (keys (In_ e config))).

Definition blind_omission (config : string) (kept : list string) : Omission :=
  omit config
    (msg ("%s configuration on this device could not be " ++
          "determined, so these sections we own are left exactly as they " ++
          "are rather than removed: %s. Nothing here is a statement that " ++
          "they are unwanted — it means the check that would have decided " ++
          "never ran") [VS config; VS (Join kept ", ")]) KindUndetermined.

Definition reportBlind (e : Existing) (o : out) : out :=
  add_omissions o
    (flat_map (fun config =>
       match blind_kept (fst o) e config with
       | [] => []
       | kept => [blind_omission config kept]
       end) (Blind (fst o))).

(** ** The whole render *)

Definition no_functions (dev : Device) : bool :=
  match dev_Functions dev with Some [] => true | _ => false end.

Definition function_omission (functions : list string) (w : WLAN) : Omission :=
  omit (w_SSID w)
    (msg ("this device's selected functions (%s) do not " ++
          "include access point, so it does not publish WLANs. Add the AP " ++
          "function, or take it out of the AP group, depending on which " ++
          "one is wrong") [VS (Functions_Describe functions)]) KindUnclassified.

Definition untargeted_omission : Omission :=
  omit "(none)"
    ("no WLAN targets this device, so it will broadcast nothing. " ++
     "It is not a member of any AP group that a WLAN is published to " ++
     "— check its membership under AP groups. A device that was " ++
     "un-adopted and adopted again is a new entry and keeps none of " ++
     "its old group memberships") KindUnclassified.

Definition no_report : Report := MkReport [] [] [].
Definition new_doc (dev : Device) : Doc := MkDoc (dev_ID dev) [] [] [] [].

Definition render_start (s : Site) (dev : Device) (caps : option Registry) : out :=
  add_blind (new_doc dev, no_report) (if wired_blind s caps then ["network"; "dhcp"; "firewall"] else []).

(** Before the first WLAN: is the device targeted, are its radios known. *)
Definition wireless_start (s : Site) (dev : Device) (caps : option Registry) (o : out) : out :=
  let o := if negb (bool_decide (WLANs s = [])) && bool_decide (WLANsFor s (dev_ID dev) = [])
           then add_omissions o [untargeted_omission] else o in
  if radios_unknown caps then add_blind o ["wireless"] else o.

(** After the last mesh: defects of the hardware, and what was not seen. *)
Definition wireless_end (caps : option Registry) (e : Existing) (o : out) : out :=
  let o := reportBlind e (add_warnings o (hardware_warnings caps e)) in
  if hardware_unreadable caps then add_warning o (unidentified_warning caps) else o.

Definition render_wireless (s : Site) (dev : Device) (caps : option Registry) (e : Existing) (o : out) : out :=
  let o := fold_left (render_wlan s dev caps e) (WLANsFor s (dev_ID dev)) (wireless_start s dev caps o) in
  let o := render_uplink s dev caps e o in
  let o := fold_left (render_mesh s caps e) (MeshesFor s (dev_ID dev)) o in
  wireless_end caps e o.

(** The render of a valid site. *)
Definition render_valid (s : Site) (dev : Device) (caps : option Registry) (e : Existing) : res error out :=
  let o := render_wired s dev caps e (render_start s dev caps) in
  let functions := EffectiveFunctions dev in
  if negb (Wireless functions) then
    Ok (add_omissions o (map (function_omission functions) (WLANsFor s (dev_ID dev))))
  else match validateRadioTargets caps with
       | Some err => Err err
       | None => Ok (render_wireless s dev caps e o)
       end.

Definition Render (site : Site) (dev : Device) (caps : option Registry) (e : Existing) : res error out :=
  if no_functions dev then
    Err "render: device function selection is invalid; refusing to infer responsibilities from its legacy role"
  else
    let '(s, errs) := SitePolicy.Validate site in
    match errs with
    | err :: _ => Err (errf "render: site model is invalid: %v" [VS err])
    | [] => render_valid s dev caps e
    end.
