(* ===== verification/RenderSpec.v ===== *)
(** * How a render builds its document

    [Render] only ever adds: sections, patches, retained sections, unreadable
    configs, omissions, conflicts and warnings. [change] is one addition to the
    document with the place it comes from and the conditions under which the
    code makes it; [reaches] is any number of them, the report growing along.
    The properties of rendered documents follow by induction on it. *)

From Stdlib Require Import ZArith Lia Ascii String.
From stdpp Require Import base relations gmap list strings sorting.
From S2P Require Import Prelude GoStr GoFmt ApplyEngine SiteModel SitePolicy Capability RenderPlan RenderPlanSpec.
From S2P Require Import RenderNetwork RenderZones RenderPolicy RenderWireless Render.

Local Open Scope string_scope.
Local Open Scope Z_scope.

Section Rendering.
Variables (s : Site) (dev : Device) (caps : option Registry)
  (e : gmap string (gmap string (gmap string string))).
Local Notation routes := (Routes (EffectiveFunctions dev)).
(** Whether wireless additions are allowed: the wired half needs none. *)
Variable air : bool.

(** ** Where a section comes from *)

Definition vacant (sec : Section) : Prop :=
  at_ref e (sec_ref sec) = None \/ OwnedIn e (sec_Config sec) (sec_Name sec) = true.

Inductive wired_origin (sec : Section) : Prop :=
| from_network n : n ∈ Networks s -> sec ∈ fst (fst (renderNetwork n dev caps e)) -> wired_origin sec
| from_zone members : routes = true -> sec ∈ fst (renderZones members (EffectiveZonePolicies s) e) -> wired_origin sec
| from_policy d : routes = true -> sec ∈ fst (fst (renderPolicies s dev caps e d)) -> wired_origin sec.

Inductive air_origin (sec : Section) : Prop :=
| from_wlan w w' band radio :
    w ∈ WLANsFor s (dev_ID dev) -> Overrides_Apply (Site_Overrides s) (dev_ID dev) w = (w', true) ->
    band ∈ w_Bands w' -> radiosByBand caps !! band = Some radio ->
    foreign_wireless e (ifaceName (w_ID w') radio) = false ->
    sec = fst (renderWifiIface s w' (network_of s (w_NetworkID w')) radio) -> air_origin sec
| from_uplink u w radio :
    UplinkFor s (dev_ID dev) = Some u -> WLANByID s (u_WLANID u) = Some w ->
    radiosByBand caps !! u_Band u = Some radio ->
    fst (renderUplink u w (network_of s (w_NetworkID w)) radio caps) = Some sec -> air_origin sec
| from_mesh m radio :
    m ∈ MeshesFor s (dev_ID dev) -> radiosByBand caps !! m_Band m = Some radio ->
    foreign_wireless e (meshIfaceName (m_ID m) radio) = false ->
    fst (renderMesh m (network_of s (m_NetworkID m)) radio caps) = Some sec -> air_origin sec.

(** ** One addition *)

Inductive change : Doc -> Doc -> Prop :=
| ch_wired d sec :
    wired_origin sec -> sec_ref sec ∉ map sec_ref (Sections d) -> vacant sec -> change d (with_section d sec)
| ch_patch d p n : routes = true -> p ∈ fst (renderManagementIPv6 n e) -> patch_ref p ∉ map patch_ref (Patches d) -> change d (with_patch d p)
| ch_air d sec : air = true -> air_origin sec -> change d (with_section d sec)
| ch_retain d name : air = true ->
    change d (MkDoc (DeviceID d) (Sections d) (Patches d) (Retain d ++ [("wireless", name)])%list (Blind d))
| ch_blind d configs :
    change d (MkDoc (DeviceID d) (Sections d) (Patches d) (Retain d) (Blind d ++ configs)%list).

(** Any number of additions to the document, the report only growing. *)
Record reaches (o o' : out) : Prop := {
  re_doc : rtc change (fst o) (fst o');
  re_omissions : Omissions (snd o) `prefix_of` Omissions (snd o');
  re_conflicts : Conflicts (snd o) `prefix_of` Conflicts (snd o');
}.

#[export] Instance reaches_preorder : PreOrder reaches.
Proof.
  split; [by intros [d r]; split|]. intros o1 o2 o3 [H1 H2 H3] [H1' H2' H3']. split; by etrans.
Qed.

Lemma reaches_change d d' r : change d d' -> reaches (d, r) (d', r).
Proof. intros H. split; [by apply rtc_once|done|done]. Qed.

Lemma reaches_omissions o oms : reaches o (add_omissions o oms).
Proof. destruct o as [d r]. split; cbn; [done|by apply prefix_app_r|done]. Qed.

Lemma reaches_conflicts o cs : reaches o (add_conflicts o cs).
Proof. destruct o as [d r]. split; cbn; [done|done|by apply prefix_app_r]. Qed.

Lemma reaches_warning o w : reaches o (add_warning o w).
Proof. destruct o as [d r]. unfold add_warning, addWarning. by destruct (existsb _ _). Qed.

Lemma reaches_fold {A} (f : out -> A -> out) (l : list A) o :
  (forall o x, x ∈ l -> reaches o (f o x)) -> reaches o (fold_left f l o).
Proof.
  revert o. induction l as [|x l IH]; intros o Hf; cbn [fold_left]; [done|].
  etrans; [by apply Hf; left|]. apply IH. intros o' y Hy. apply Hf. by right.
Qed.

Lemma reaches_warnings o ws : reaches o (add_warnings o ws).
Proof. apply reaches_fold. intros o' w _. apply reaches_warning. Qed.

Lemma reaches_air o sec : air = true -> air_origin sec -> reaches o (add_section o sec).
Proof. destruct o as [d r]. intros. by apply reaches_change, ch_air. Qed.

Lemma reaches_retain o name reason : air = true -> reaches o (retain e o name reason).
Proof.
  destruct o as [d r]. intros Hw. unfold retain. destruct (OwnedIn _ _ _); [|by apply reaches_change, ch_retain].
  etrans; [|apply reaches_omissions]. by apply reaches_change, ch_retain.
Qed.

Lemma reaches_blind o configs : reaches o (add_blind o configs).
Proof. destruct o as [d r]. by apply reaches_change, ch_blind. Qed.

Lemma reaches_report o : reaches o (reportBlind e o).
Proof. apply reaches_omissions. Qed.

Lemma reaches_own o sec : wired_origin sec -> reaches o (own_section e o sec).
Proof.
  destruct o as [d r]. intros Ho. unfold own_section. destruct (addOwned _ _ _ _) as [d' cs] eqn:E.
  apply addOwned_cases in E as [(-> & -> & Hnew & Hv)|(-> & c & -> & _)].
  - destruct r. apply (reaches_change d (with_section d sec)). by apply ch_wired.
  - split; cbn; [done|done|by apply prefix_app_r].
Qed.

Lemma reaches_owns o secs : (forall sec, sec ∈ secs -> wired_origin sec) -> reaches o (own_sections e o secs).
Proof. intros H. apply reaches_fold. intros o' sec Hin. by apply reaches_own, H. Qed.

Lemma reaches_patch o p n : routes = true -> p ∈ fst (renderManagementIPv6 n e) -> reaches o (own_patch o p).
Proof.
  destruct o as [d r]. intros Hr Hfrom. unfold own_patch, addPatch. destruct (existsb _ _) eqn:Hdup.
  - split; cbn; [done|done|by apply prefix_app_r].
  - destruct r. apply (reaches_change d (with_patch d p)). apply (ch_patch d p n); [done..|].
    intros Hin. apply list_elem_of_fmap in Hin as (q & Hq & Hin).
    rewrite existsb_false_iff in Hdup. specialize (Hdup q Hin). by bool_prop.
Qed.

Lemma reaches_refl o : reaches o o.
Proof. reflexivity. Qed.

Hint Resolve reaches_refl reaches_omissions reaches_conflicts reaches_warning reaches_warnings reaches_blind
  reaches_own reaches_owns reaches_patch reaches_air reaches_retain : reaches.

(** Additions keep what the document has. *)
Lemma reaches_keeps o o' : reaches o o' ->
  Sections (fst o) ⊆ Sections (fst o') /\ Retain (fst o) ⊆ Retain (fst o') /\ Blind (fst o) ⊆ Blind (fst o').
Proof.
  intros [H _ _]. induction H as [|d d' d'' Hc _ (IH1 & IH2 & IH3)]; [done|].
  destruct Hc; cbn [with_section with_patch Sections Retain Blind] in *; set_solver.
Qed.

Lemma reaches_reports o o' : reaches o o' ->
  (forall om, om ∈ Omissions (snd o) -> om ∈ Omissions (snd o')) /\
  (forall c, c ∈ Conflicts (snd o) -> c ∈ Conflicts (snd o')).
Proof.
  intros [_ [l1 H1] [l2 H2]]. rewrite H1, H2. split; intros x Hx; apply elem_of_app; by left.
Qed.

Lemma reached_sections (P : Section -> Prop) o : reaches (new_doc dev, no_report) o ->
  (forall sec, wired_origin sec -> vacant sec -> P sec) -> (forall sec, air = true -> air_origin sec -> P sec) ->
  forall sec, sec ∈ Sections (fst o) -> P sec.
Proof.
  intros [H _ _] Hw Ha. cbn [fst] in H. revert H. generalize (fst o). clear o.
  apply (rtc_ind_r (fun d => forall sec, sec ∈ Sections d -> P sec)).
  - intros sec Hsec. by apply elem_of_nil in Hsec.
  - intros d d' _ Hc IH; revert IH; destruct Hc; intros IH sec' Hs; cbn [with_section with_patch Sections] in Hs;
      try (by apply IH);
      (apply elem_of_app in Hs as [Hs|Hs]; [by apply IH|]; apply list_elem_of_singleton in Hs as ->; auto).
Qed.

(** The step a fold takes for one of its elements. *)
Lemma fold_at {A} (f : out -> A -> out) l x o : x ∈ l -> (forall o y, y ∈ l -> reaches o (f o y)) ->
  exists o1, reaches o o1 /\ reaches (f o1 x) (fold_left f l o).
Proof.
  revert o. induction l as [|y l IH]; intros o Hx Hf; [by apply elem_of_nil in Hx|]. cbn [fold_left].
  assert (Hl : forall o z, z ∈ l -> reaches o (f o z)) by (intros; apply Hf; by right).
  apply elem_of_cons in Hx as [->|Hx].
  - exists o. split; [done|]. by apply reaches_fold.
  - destruct (IH (f o y) Hx Hl) as (o1 & H1 & H2). exists o1. split; [|done]. etrans; [|exact H1]. apply Hf. by left.
Qed.

(** ** The wired half *)

Lemma reaches_network_section n m o sec : wired_origin sec -> reaches o (network_section n m e o sec).
Proof.
  intros Ho. unfold network_section.
  set (o1 := if is_section "network" "bridge-vlan" sec then _ else o).
  assert (H1 : reaches o o1) by (unfold o1; destruct (is_section _ _ _); auto with reaches).
  etrans; [exact H1|]. destruct (is_section "network" "interface" sec); [|auto with reaches].
  etrans; [by apply reaches_own|]. auto with reaches.
Qed.

(** Only a gateway gives a zone a member. *)
Lemma member_routes n : zm_iface (snd (renderNetwork n dev caps e)) <> "" -> routes = true.
Proof.
  unfold renderNetwork. intros H. repeat (case_match; cbn in H; try done).
  all: by bool_prop.
Qed.

Lemma reaches_render_network acc n : n ∈ Networks s -> (snd acc <> [] -> routes = true) ->
  reaches (fst acc) (fst (render_network dev caps e acc n)) /\
  (snd (render_network dev caps e acc n) <> [] -> routes = true).
Proof.
  destruct acc as [o members]. intros Hn Hm. unfold render_network.
  set (o1 := if n_Enabled n && _ && _ then _ else o).
  assert (H1 : reaches o o1).
  { unfold o1. destruct (_ && _) eqn:Hc; [|done]. bool_prop. destruct (renderManagementIPv6 n e) as [ps cs] eqn:Ep.
    etrans; [apply reaches_conflicts|]. apply reaches_fold. intros o' p Hp. apply (reaches_patch o' p n); [done|]. by rewrite Ep. }
  destruct (renderNetwork n dev caps e) as [[secs oms] m] eqn:E. cbn [fst snd] in *. split.
  - etrans; [exact H1|]. etrans; [|apply reaches_omissions]. apply reaches_fold. intros o' sec Hsec.
    apply reaches_network_section. apply (from_network sec n); [done|]. by rewrite E.
  - intros Hne. destruct (String.eqb (zm_iface m) "") eqn:Hi; [by apply Hm|]. bool_prop.
    apply (member_routes n). by rewrite E.
Qed.

Lemma reaches_networks l acc : (forall n, n ∈ l -> n ∈ Networks s) -> (snd acc <> [] -> routes = true) ->
  reaches (fst acc) (fst (fold_left (render_network dev caps e) l acc)) /\
  (snd (fold_left (render_network dev caps e) l acc) <> [] -> routes = true).
Proof.
  revert acc. induction l as [|n l IH]; intros acc Hl Hm; cbn [fold_left]; [done|].
  destruct (reaches_render_network acc n) as [H1 H2]; [by apply Hl; left|done|].
  destruct (IH (render_network dev caps e acc n)) as [H3 H4]; [by intros n' ?; apply Hl; right|done|].
  split; [by etrans|done].
Qed.

Lemma reaches_wired o : reaches o (render_wired s dev caps e o).
Proof.
  unfold render_wired. destruct (reaches_networks (Networks s) (o, [])) as [H1 H2]; [done|done|].
  destruct (fold_left _ _ _) as [o1 members]. cbn [fst snd] in *.
  destruct (renderZones members _ e) as [zsecs zcs] eqn:Ez.
  destruct (renderPolicies _ _ _ _ _) as [[psecs poms] pcs] eqn:Ep.
  etrans; [exact H1|]. etrans; [apply reaches_conflicts|]. etrans.
  { apply (reaches_owns _ zsecs). intros sec Hsec. apply (from_zone sec members); [|by rewrite Ez].
    apply H2. intros ->. change (([], []) = (zsecs, zcs)) in Ez. simplify_eq. by apply elem_of_nil in Hsec. }
  etrans; [apply reaches_omissions|]. etrans; [apply reaches_conflicts|].
  apply reaches_owns. intros sec Hsec. eapply from_policy; [|by rewrite Ep].
  unfold renderPolicies in Ep. destruct (Routes _); [done|]. cbn [negb] in Ep. unfold r_none in Ep. simplify_eq. by apply elem_of_nil in Hsec.
Qed.

(** ** The wireless half *)

Section Air.
Hypothesis Hair : air = true.

Lemma elem_of_orderedBands band l : band ∈ orderedBands l <-> band ∈ l.
Proof. unfold orderedBands. by rewrite merge_sort_Permutation. Qed.

Lemma reaches_band w w' : w ∈ WLANsFor s (dev_ID dev) ->
  Overrides_Apply (Site_Overrides s) (dev_ID dev) w = (w', true) ->
  forall acc band, band ∈ w_Bands w' ->
  reaches (fst acc) (fst (render_band s w' (network_of s (w_NetworkID w')) caps e acc band)).
Proof.
  intros Hw Hov [o k] band Hb. unfold render_band.
  destruct (radiosByBand caps !! band) as [radio|] eqn:Hr; [|apply reaches_omissions].
  destruct (foreign_wireless e _) eqn:Hf; [apply reaches_conflicts|].
  destruct (foreignSSIDOnRadio _ _ _ _); [apply reaches_conflicts|].
  destruct (renderWifiIface _ _ _ _) as [sec oms] eqn:E. cbn [fst].
  etrans; [apply reaches_warnings|]. etrans; [|apply reaches_omissions].
  etrans; [|apply reaches_air; [done|]; eapply from_wlan; by rewrite ?E].
  destruct (radioIsDisabled e radio); auto with reaches.
Qed.

Lemma reaches_retain_on name_on reason o band : reaches o (retain_on caps e name_on reason o band).
Proof. unfold retain_on. destruct (_ !! band); auto with reaches. Qed.

Lemma fold_fst {A} (f : out * Z -> A -> out * Z) l acc :
  (forall acc x, x ∈ l -> reaches (fst acc) (fst (f acc x))) -> reaches (fst acc) (fst (fold_left f l acc)).
Proof.
  revert acc. induction l as [|x l IH]; intros acc Hf; cbn [fold_left]; [done|].
  etrans; [by apply Hf; left|]. apply IH. intros acc' y Hy. apply Hf. by right.
Qed.

Lemma reaches_wlan o w : w ∈ WLANsFor s (dev_ID dev) -> reaches o (render_wlan s dev caps e o w).
Proof.
  intros Hw. unfold render_wlan. destruct (Overrides_Apply _ _ w) as [w' published] eqn:Hov.
  destruct published; cbn [negb]; [|apply reaches_omissions].
  destruct (networkAttachmentAvailable _ _); cbn [negb].
  - pose proof (fold_fst (render_band s w' (network_of s (w_NetworkID w')) caps e)
                  (orderedBands (w_Bands w')) (o, 0)) as Hfold.
    destruct (fold_left _ _ _) as [o' k]. cbn [fst] in Hfold. etrans; [apply Hfold|].
    + intros acc band Hb. apply (reaches_band w w'); [done..|]. by apply elem_of_orderedBands.
    + destruct (_ && _); auto with reaches.
  - etrans; [apply reaches_omissions|]. destruct (blind _ _); [|done].
    apply reaches_fold. intros o' band _. apply reaches_retain_on.
Qed.

Lemma reaches_uplink o : reaches o (render_uplink s dev caps e o).
Proof.
  unfold render_uplink. destruct (UplinkFor _ _) as [u|] eqn:Hu; [|done].
  destruct (WLANByID _ _) as [w|] eqn:Hw; [|done].
  destruct (networkAttachmentAvailable _ _); cbn [negb].
  - destruct (_ !! u_Band u) as [radio|] eqn:Hr; [|apply reaches_omissions].
    destruct (renderUplink _ _ _ _ _) as [[sec|] oms] eqn:E; (etrans; [apply reaches_omissions|]).
    + apply reaches_air; [done|]. eapply from_uplink; by rewrite ?E.
    + destruct (undetermined _ _); auto with reaches.
  - etrans; [apply reaches_omissions|]. destruct (blind _ _); [|done]. apply reaches_retain_on.
Qed.

Lemma reaches_mesh o m : m ∈ MeshesFor s (dev_ID dev) -> reaches o (render_mesh s caps e o m).
Proof.
  intros Hm. unfold render_mesh. destruct (networkAttachmentAvailable _ _); cbn [negb].
  - destruct (_ !! m_Band m) as [radio|] eqn:Hr; [|apply reaches_omissions].
    destruct (foreign_wireless _ _) eqn:Hf; [apply reaches_conflicts|].
    destruct (renderMesh _ _ _ _) as [[sec|] oms] eqn:E; (etrans; [apply reaches_omissions|]).
    + apply reaches_air; [done|]. eapply from_mesh; by rewrite ?E.
    + destruct (undetermined _ _); auto with reaches.
  - etrans; [apply reaches_omissions|]. destruct (blind _ _); [|done]. apply reaches_retain_on.
Qed.

Lemma reaches_wireless_start o : reaches o (wireless_start s dev caps o).
Proof.
  unfold wireless_start. set (o1 := if negb _ && _ then add_omissions o _ else o).
  assert (H1 : reaches o o1) by (unfold o1; destruct (_ && _); auto with reaches).
  destruct (radios_unknown caps); [|done]. etrans; [exact H1|]. auto with reaches.
Qed.

Lemma reaches_wireless_end o : reaches o (wireless_end caps e o).
Proof.
  unfold wireless_end. etrans; [apply (reaches_warnings _ (hardware_warnings caps e))|].
  etrans; [apply reaches_report|]. destruct (hardware_unreadable caps); auto with reaches.
Qed.

Local Notation wlans o := (fold_left (render_wlan s dev caps e) (WLANsFor s (dev_ID dev)) o).
Local Notation meshes o := (fold_left (render_mesh s caps e) (MeshesFor s (dev_ID dev)) o).

Lemma reaches_wlans o : reaches o (wlans o).
Proof. apply reaches_fold. intros. by apply reaches_wlan. Qed.
Lemma reaches_meshes o : reaches o (meshes o).
Proof. apply reaches_fold. intros. by apply reaches_mesh. Qed.

(** Each object's step, and the end, within the whole. *)
Lemma mesh_at o m : m ∈ MeshesFor s (dev_ID dev) ->
  exists o1, reaches (wireless_start s dev caps o) o1 /\
    reaches (render_mesh s caps e o1 m) (render_wireless s dev caps e o).
Proof.
  intros Hm. destruct (fold_at (render_mesh s caps e) (MeshesFor s (dev_ID dev)) m
    (render_uplink s dev caps e (wlans (wireless_start s dev caps o))) Hm) as (o1 & H1 & H2).
  { intros. by apply reaches_mesh. }
  exists o1. split; [|etrans; [exact H2|apply reaches_wireless_end]].
  etrans; [apply reaches_wlans|]. etrans; [apply reaches_uplink|exact H1].
Qed.

Lemma uplink_at o : exists o1, reaches (wireless_start s dev caps o) o1 /\
  reaches (render_uplink s dev caps e o1) (render_wireless s dev caps e o).
Proof.
  exists (wlans (wireless_start s dev caps o)). split; [apply reaches_wlans|].
  etrans; [apply reaches_meshes|apply reaches_wireless_end].
Qed.

Lemma wlan_at o w : w ∈ WLANsFor s (dev_ID dev) ->
  exists o1, reaches (wireless_start s dev caps o) o1 /\
    reaches (render_wlan s dev caps e o1 w) (render_wireless s dev caps e o).
Proof.
  intros Hw. destruct (fold_at (render_wlan s dev caps e) (WLANsFor s (dev_ID dev)) w
    (wireless_start s dev caps o) Hw) as (o1 & H1 & H2); [intros; by apply reaches_wlan|].
  exists o1. split; [done|]. etrans; [exact H2|]. etrans; [apply reaches_uplink|].
  etrans; [apply reaches_meshes|apply reaches_wireless_end].
Qed.

Lemma reaches_wireless o : reaches o (render_wireless s dev caps e o).
Proof.
  destruct (uplink_at o) as (o1 & H1 & H2). etrans; [apply reaches_wireless_start|]. etrans; [exact H1|].
  etrans; [apply reaches_uplink|exact H2].
Qed.
End Air.

Lemma reaches_start : reaches (new_doc dev, no_report) (render_start s dev caps).
Proof. apply reaches_blind. Qed.

End Rendering.

(** ** The whole render *)

Section Whole.
Variables (s : Site) (dev : Device) (caps : option Registry)
  (e : gmap string (gmap string (gmap string string))).
Local Notation wireless := (Wireless (EffectiveFunctions dev)).

Lemma render_valid_reaches o : render_valid s dev caps e = Ok o ->
  reaches s dev caps e wireless (new_doc dev, no_report) o.
Proof.
  unfold render_valid. intros H.
  apply (transitivity (y := render_start s dev caps)); [apply reaches_start|].
  apply (transitivity (y := render_wired s dev caps e (render_start s dev caps))); [apply reaches_wired|].
  destruct wireless eqn:Hw; cbn [negb] in H.
  - destruct (validateRadioTargets caps); [done|]. simplify_eq. by apply reaches_wireless.
  - simplify_eq. apply reaches_omissions.
Qed.

(** Induction on the additions. *)
Lemma document_ind (P : Doc -> Prop) o : render_valid s dev caps e = Ok o -> P (new_doc dev) ->
  (forall d d', P d -> change s dev caps e wireless d d' -> P d') -> P (fst o).
Proof.
  intros H H0 Hstep. apply render_valid_reaches in H as [H _ _].
  change (new_doc dev) with (fst (new_doc dev, no_report)) in H0.
  induction H as [d|d d' d'' Hd _ IH]; [done|]. apply IH. by eapply Hstep.
Qed.

Lemma sections_ind (P : Section -> Prop) o : render_valid s dev caps e = Ok o ->
  (forall sec, wired_origin s dev caps e sec -> vacant e sec -> P sec) ->
  (forall sec, wireless = true -> air_origin s dev caps e sec -> P sec) ->
  forall sec, sec ∈ Sections (fst o) -> P sec.
Proof. intros H. apply (reached_sections s dev caps e wireless). by apply render_valid_reaches. Qed.
End Whole.

(** A site that validates is left unchanged but for its policies. *)
Lemma Validate_frame site s errs : SitePolicy.Validate site = (s, errs) ->
  UUID s = UUID site /\ Networks s = Networks site /\ WLANs s = WLANs site /\ Meshes s = Meshes site /\
  Uplinks s = Uplinks site /\ Groups s = Groups site /\ Site_Overrides s = Site_Overrides site /\
  Zones s = Zones site /\ PolicyClients s = PolicyClients site.
Proof.
  unfold SitePolicy.Validate. destruct (ValidatePolicies site) as [s' ?] eqn:E. intros [= <- <-].
  unfold ValidatePolicies in E. destruct (validatePolicySets _), (validate_policies _ _ _ _).
  by simplify_eq.
Qed.

Lemma Render_valid site dev caps e o : Render site dev caps e = Ok o ->
  exists s, SitePolicy.Validate site = (s, []) /\ render_valid s dev caps e = Ok o.
Proof.
  unfold Render. intros H. destruct (no_functions dev); [done|].
  destruct (SitePolicy.Validate site) as [s [|err errs]]; [by exists s|done].
Qed.
