(* ===== verification/RenderDocSpec.v ===== *)
(** * What a rendered document may contain

    The kinds of section each part of the renderer writes, role gating, the
    names of wireless sections, and the validity of the whole document. *)

From Stdlib Require Import ZArith Lia Ascii String.
From stdpp Require Import base relations gmap list strings sorting.
From S2P Require Import Prelude GoStr GoFmt ApplyEngine SiteModel SitePolicy Capability RenderPlan RenderPlanSpec.
From S2P Require Import RenderNetwork RenderZones RenderPolicy RenderWireless Render RenderSpec.

Local Open Scope string_scope.
Local Open Scope Z_scope.

(** ** Kinds of section *)

(** The option [k] of a map literal, the first binding winning. *)
Lemma vals_lookup l k : vals l !! k = assoc k l.
Proof. unfold vals. by rewrite assoc_list_to_map. Qed.

Definition marked (sec : Section) : Prop := sec_Values sec !! OwnershipTag = Some "1".

Lemma mark_insert k v m : k <> OwnershipTag -> m !! OwnershipTag = Some "1" ->
  (<[k := v]> m : gmap string string) !! OwnershipTag = Some "1".
Proof. intros. by rewrite lookup_insert_ne. Qed.

Lemma mark_nonempty k v m : k <> OwnershipTag -> m !! OwnershipTag = Some "1" ->
  copyNonempty k v m !! OwnershipTag = Some "1".
Proof. intros. unfold copyNonempty. destruct (negb _); [by apply mark_insert|done]. Qed.

Lemma mark_protocols l v lists : v !! OwnershipTag = Some "1" ->
  fst (setProtocols l v lists) !! OwnershipTag = Some "1".
Proof. intros. unfold setProtocols. destruct (CanonicalProtocols l) as [|? []]; [done|by apply mark_insert|done]. Qed.

#[local] Hint Resolve mark_insert mark_nonempty mark_protocols : marks.
#[local] Hint Extern 1 (_ <> OwnershipTag) => discriminate : marks.
#[local] Hint Extern 3 (vals _ !! OwnershipTag = Some "1") => rewrite vals_lookup; reflexivity : marks.

(** What a wired section may be on a device with the given functions. *)
Definition wired_kind (dev : Device) (sec : Section) : Prop :=
  (sec_Config sec = "network" /\ sec_Type sec = "bridge-vlan") \/
  (sec_Config sec = "network" /\ sec_Type sec = "interface" /\ Wireless (EffectiveFunctions dev) = true /\
   sec_Values sec !! "proto" = Some "none") \/
  (Routes (EffectiveFunctions dev) = true /\ sec_Config sec ∈ ["network"; "dhcp"; "firewall"]).

Lemma routed_kind dev sec : Routes (EffectiveFunctions dev) = true -> sec_Config sec ∈ ["network"; "dhcp"; "firewall"] ->
  wired_kind dev sec.
Proof. right. by right. Qed.

Lemma bridge_kind dev bridge lan n : marked (bridge_vlan bridge lan n) /\ wired_kind dev (bridge_vlan bridge lan n).
Proof. split; [unfold marked; cbn [bridge_vlan sec_Values]; auto with marks|by left]. Qed.

Lemma attachment_kind dev bridge n : Wireless (EffectiveFunctions dev) = true ->
  marked (attachment_iface bridge n) /\ wired_kind dev (attachment_iface bridge n).
Proof. split; [unfold marked; cbn [attachment_iface sec_Values]; auto with marks|]. right. by left. Qed.

Lemma addressed_kind dev bridge ipaddr netmask n : Routes (EffectiveFunctions dev) = true ->
  marked (addressed_iface bridge ipaddr netmask n) /\ wired_kind dev (addressed_iface bridge ipaddr netmask n).
Proof.
  intros Hr. split; [|apply routed_kind; [done|by left]]. unfold marked, addressed_iface. cbn [sec_Values].
  destruct (String.eqb _ _); auto with marks.
Qed.

Lemma dhcp_kind dev n : Routes (EffectiveFunctions dev) = true ->
  marked (dhcp_section n) /\ wired_kind dev (dhcp_section n).
Proof.
  intros Hr. split; [|apply routed_kind; [done|by right; left]].
  unfold marked, dhcp_section. cbn [sec_Values]. auto with marks.
Qed.

Lemma network_kind n dev caps e sec : sec ∈ fst (fst (renderNetwork n dev caps e)) ->
  marked sec /\ wired_kind dev sec.
Proof.
  unfold renderNetwork. intros H.
  repeat (case_match; cbn [fst snd negb] in H; rewrite ?elem_of_nil in H; try done);
    rewrite ?elem_of_cons, ?elem_of_nil in H; bool_prop;
    repeat match goal with H : _ \/ _ |- _ => destruct H as [->|H] end; subst; try done;
    auto using bridge_kind, attachment_kind, addressed_kind, dhcp_kind.
Qed.

Lemma input_rule_marked section suffix values lists : assoc OwnershipTag values = None ->
  marked (input_rule section suffix values lists).
Proof.
  intros Hn. unfold marked. cbn [input_rule sec_Values]. rewrite vals_lookup. induction values as [|[k v] l IH]; [done|].
  cbn [assoc app] in *. destruct (String.eqb OwnershipTag k); [done|by apply IH].
Qed.

Lemma zone_kind policies e fw group sec : sec ∈ fst (render_zone policies e fw group) ->
  marked sec /\ sec_Config sec = "firewall".
Proof.
  unfold render_zone. intros H. repeat case_match; cbn [fst] in H; rewrite ?elem_of_nil in H; try done.
  all: rewrite ?elem_of_cons, ?elem_of_app, ?elem_of_nil, ?list_elem_of_fmap in H.
  all: unfold dhcp_rules, ipv6_rules in H; rewrite ?elem_of_cons, ?elem_of_nil in H.
  all: repeat match goal with H : _ \/ _ |- _ => destruct H as [H|H] end; try done.
  all: try (destruct H as (dest & -> & _)); subst; (split; [|done]).
  all: try (by apply input_rule_marked); unfold marked; cbn [zone_section forwarding_section sec_Values]; auto with marks.
Qed.

Lemma zones_kind members policies e sec : sec ∈ fst (renderZones members policies e) ->
  marked sec /\ sec_Config sec = "firewall".
Proof.
  unfold renderZones. cbn [fst]. intros H. apply elem_of_flat_map in H as (r & Hr & H).
  apply list_elem_of_fmap in Hr as (fw & -> & _). by eapply zone_kind.
Qed.

(** ** Policy sections *)

Lemma elem_of_r_app sec a b : sec ∈ fst (fst (r_app a b)) <-> sec ∈ fst (fst a) \/ sec ∈ fst (fst b).
Proof. destruct a as [[a1 a2] a3], b as [[b1 b2] b3]. cbn. apply elem_of_app. Qed.

Lemma elem_of_r_concat sec l : sec ∈ fst (fst (r_concat l)) <-> exists r, r ∈ l /\ sec ∈ fst (fst r).
Proof.
  induction l as [|r l IH]; cbn [r_concat fold_right].
  - rewrite elem_of_nil. split; [done|]. by intros (r & Hr & _); apply elem_of_nil in Hr.
  - rewrite elem_of_r_app. fold (r_concat l). rewrite IH. setoid_rewrite elem_of_cons. naive_solver.
Qed.

(** A policy section is marked, and belongs to the wired configs. *)
Definition policy_kind (sec : Section) : Prop :=
  marked sec /\ sec_Config sec ∈ ["network"; "dhcp"; "firewall"] /\ sec_Type sec ∈ ["rule"; "redirect"; "route"; "host"].

#[local] Hint Extern 1 (_ ∈ _) => set_solver : marks.

Lemma rule_kind p rule macs : policy_kind (rule_section p rule macs).
Proof.
  unfold rule_section. cbv zeta.
  match goal with |- context [setProtocols ?l ?v ?lists] =>
    pose proof (mark_protocols l v lists) as Hm; destruct (setProtocols l v lists) as [v' lists'] end.
  split; [|split; cbn; auto with marks]. unfold marked. cbn [sec_Values fst] in *. apply Hm. destruct (negb _); auto 10 with marks.
Qed.

Lemma redirect_kind p rule : policy_kind (redirect_section p rule).
Proof.
  unfold redirect_section. cbv zeta.
  match goal with |- context [setProtocols ?l ?v ?lists] =>
    pose proof (mark_protocols l v lists) as Hm; destruct (setProtocols l v lists) as [v' lists'] end.
  split; [|split; cbn; auto with marks]. unfold marked. cbn [sec_Values fst] in *. apply Hm. auto with marks.
Qed.

Lemma route_kind p rule iface : policy_kind (route_section p rule iface).
Proof.
  split; [|split; cbn; auto with marks]. unfold marked, route_section. cbn [sec_Values].
  destruct (0 <? _); auto with marks.
Qed.

Lemma block_kind mac zone : policy_kind (block_section mac zone).
Proof. split; [|split; cbn; auto with marks]. unfold marked. cbn [block_section sec_Values]. auto with marks. Qed.

Lemma fixed_kind mac ip : policy_kind (fixed_section mac ip).
Proof. split; [|split; cbn; auto with marks]. unfold marked. cbn [fixed_section sec_Values]. auto with marks. Qed.

(** What one object renders is a policy section. *)
Definition policy_rendered (r : rendered) : Prop := forall sec, sec ∈ fst (fst r) -> policy_kind sec.

Lemma rendered_none : policy_rendered r_none.
Proof. intros sec H. by apply elem_of_nil in H. Qed.
Lemma rendered_conflict c : policy_rendered (r_conflict c).
Proof. intros sec H. by apply elem_of_nil in H. Qed.
Lemma rendered_omission o : policy_rendered (r_omission o).
Proof. intros sec H. by apply elem_of_nil in H. Qed.
Lemma rendered_section sec : policy_kind sec -> policy_rendered (r_section sec).
Proof. intros Hk sec' H. by apply list_elem_of_singleton in H as ->. Qed.
Lemma rendered_app a b : policy_rendered a -> policy_rendered b -> policy_rendered (r_app a b).
Proof. intros Ha Hb sec H. apply elem_of_r_app in H as [?|?]; auto. Qed.
Lemma rendered_map {A} (f : A -> rendered) l : (forall x, policy_rendered (f x)) -> policy_rendered (r_concat (map f l)).
Proof. intros Hf sec H. apply elem_of_r_concat in H as (r & Hr & H). apply list_elem_of_fmap in Hr as (x & -> & _). by eapply Hf. Qed.

#[local] Hint Resolve rendered_none rendered_conflict rendered_omission rendered_section rendered_app rendered_map
  rule_kind redirect_kind route_kind block_kind fixed_kind : policies.

Lemma policy_rendering s zones d p : policy_rendered (render_policy s zones d p).
Proof. unfold render_policy, render_rule. repeat case_match; auto with policies. Qed.

Lemma block_rendering active zones mac : policy_rendered (render_block active zones mac).
Proof.
  unfold render_block. destruct active; [auto with policies|]. apply rendered_map. intros zone.
  destruct (negb _); auto with policies.
Qed.

Lemma fixed_rendering s dhcp mac ip : policy_rendered (render_fixed s dhcp mac ip).
Proof. unfold render_fixed. repeat case_match; auto with policies. Qed.

#[local] Hint Resolve block_rendering fixed_rendering : policies.

Lemma client_rendering s active zones dhcp c : policy_rendered (render_client s active zones dhcp c).
Proof.
  unfold render_client. destruct (canon_mac _); [|auto with policies].
  apply rendered_app; [destruct (pc_Blocked c)|destruct (negb _)]; auto with policies.
Qed.

Lemma policies_kind s dev caps e d sec : sec ∈ fst (fst (renderPolicies s dev caps e d)) -> policy_kind sec.
Proof.
  revert sec. fold (policy_rendered (renderPolicies s dev caps e d)). unfold renderPolicies.
  destruct (negb _); [auto with policies|]. destruct (negb _); [auto with policies|]. cbv zeta.
  apply rendered_app; [destruct (_ && _); auto with policies|]. apply rendered_app; [apply rendered_map; intros; apply policy_rendering|].
  apply rendered_app; [apply rendered_map; intros; apply client_rendering|]. intros sec H. by apply elem_of_nil in H.
Qed.

Lemma origin_kind s dev caps e sec : wired_origin s dev caps e sec -> marked sec /\ wired_kind dev sec.
Proof.
  intros [n _ H|members Hr H|d Hr H].
  - by eapply network_kind.
  - apply zones_kind in H as [Hm Hc]. split; [done|]. apply routed_kind; [done|]. rewrite Hc. auto with marks.
  - apply policies_kind in H as (Hm & Hc & _). split; [done|]. by apply routed_kind.
Qed.

(** ** Wireless sections *)

Lemma wifi_lookup s w net radio k : sec_Values (fst (renderWifiIface s w net radio)) !! k = assoc k (wifi_values s w net radio).
Proof. apply vals_lookup. Qed.

Lemma renderUplink_section u w net radio caps sec : fst (renderUplink u w net radio caps) = Some sec ->
  sec = MkSection "wireless" "wifi-iface" (uplinkIfaceName (u_ID u) radio) (vals (uplink_values w net radio)) ∅ [].
Proof. unfold renderUplink. destruct (UplinkGate caps); intros [=]; done. Qed.

Lemma renderMesh_section m net radio caps sec : fst (renderMesh m net radio caps) = Some sec ->
  sec = MkSection "wireless" "wifi-iface" (meshIfaceName (m_ID m) radio) (vals (mesh_values m net radio)) ∅ [].
Proof. unfold renderMesh. destruct (MeshGate caps); intros [=]; done. Qed.

(** The three modes a wireless section is written in. *)
Lemma wifi_mode s w net radio : assoc "mode" (wifi_values s w net radio) = Some "ap".
Proof. reflexivity. Qed.
Lemma uplink_mode w net radio : assoc "mode" (uplink_values w net radio) = Some "sta".
Proof. reflexivity. Qed.
Lemma mesh_mode m net radio : assoc "mode" (mesh_values m net radio) = Some "mesh".
Proof. reflexivity. Qed.

Lemma origin_wired s dev caps e sec : wired_origin s dev caps e sec -> sec_Config sec <> "wireless".
Proof.
  intros Ho E. apply origin_kind in Ho as [_ [[? _]|[[? _]|[_ Hc]]]]; [congruence|congruence|]. rewrite E in Hc.
  rewrite !elem_of_cons, elem_of_nil in Hc. by destruct Hc as [?|[?|[?|?]]].
Qed.

Lemma air_kind s dev caps e sec : air_origin s dev caps e sec ->
  marked sec /\ sec_Config sec = "wireless" /\
  (vacant e sec \/ sec_Values sec !! "mode" = Some "sta").
Proof.
  assert (Hv : forall sec, sec_Config sec = "wireless" -> foreign_wireless e (sec_Name sec) = false -> vacant e sec).
  { intros sec' Hc Hf. unfold foreign_wireless in Hf. unfold vacant, at_ref. cbn [sec_ref fst snd]. rewrite Hc.
    apply andb_false_iff in Hf as [Hf|Hf]; [left; by apply has_false|right; by bool_prop]. }
  unfold marked. intros [w w' band radio _ _ _ _ Hf ->|u w radio _ _ _ H|m radio _ _ Hf H].
  - rewrite wifi_lookup. split; [|split; [done|left; by apply Hv]].
    unfold wifi_values. destruct (NeedsKey _), (o_Isolate _), (0 <? _); reflexivity.
  - apply renderUplink_section in H as ->. cbn [sec_Values]. rewrite !vals_lookup. split; [reflexivity|].
    split; [done|by right].
  - apply renderMesh_section in H as ->. cbn [sec_Values]. rewrite vals_lookup. split; [reflexivity|].
    split; [done|]. left. by apply Hv.
Qed.
