(* ===== verification/RenderNames.v ===== *)
(** * Names of wireless sections

    A wireless section is named after what it belongs to and the radio it is
    on. Distinct objects, or one object on distinct bands, get distinct names;
    so a render names each wireless section once although, unlike wired
    sections, they are appended without looking for an earlier one. *)

From Stdlib Require Import ZArith Lia Ascii String.
From stdpp Require Import base relations gmap list strings sorting pretty.
From S2P Require Import Prelude GoStr GoFmt ApplyEngine SiteModel SitePolicy SiteModelSpec Capability RenderPlan.
From S2P Require Import RenderPlanSpec RenderNetwork RenderZones RenderPolicy RenderWireless Render RenderSpec RenderDocSpec.

Local Open Scope string_scope.
Local Open Scope Z_scope.

(** ** Reading a name back *)

Lemma Itoa_no_underscore z : "_"%char ∉ chars (Itoa z).
Proof. by apply not_in_Itoa. Qed.

Definition named (kind : string) (id : Z) (radio : string) : string := "oowrt_" ++ kind ++ Itoa id ++ "_" ++ radio.

Lemma named_inj kind id radio id' radio' : named kind id radio = named kind id' radio' -> id = id' /\ radio = radio'.
Proof.
  intros H. apply (f_equal chars) in H. unfold named in H. rewrite !chars_app in H.
  apply app_inv_head, app_inv_head in H.
  apply cut_inj in H as [Hi Hr]; [|apply Itoa_no_underscore..]. split.
  - apply (inj (pretty (A := Z))). apply (f_equal of_chars) in Hi. by rewrite !of_chars_chars in Hi.
  - apply (f_equal of_chars) in Hr. by rewrite !of_chars_chars in Hr.
Qed.

Lemma string_app_nil (a : string) : a ++ "" = a.
Proof. induction a as [|c a IH]; [done|]. change (String c (a ++ "") = String c a). by rewrite IH. Qed.

Lemma ifaceName_named id radio : ifaceName id radio = named "wlan" id radio.
Proof. change (named "wlan" id (radio ++ "") = named "wlan" id radio). by rewrite string_app_nil. Qed.
Lemma meshIfaceName_named id radio : meshIfaceName id radio = named "mesh" id radio.
Proof. change (named "mesh" id (radio ++ "") = named "mesh" id radio). by rewrite string_app_nil. Qed.
Lemma uplinkIfaceName_named id radio : uplinkIfaceName id radio = named "up" id radio.
Proof. change (named "up" id (radio ++ "") = named "up" id radio). by rewrite string_app_nil. Qed.

(** ** Bands to radios *)

Lemma take_bands_from l m b t : fold_left take_band l m !! b = Some t ->
  m !! b = Some t \/ exists r, r ∈ l /\ radio_band r = Some b /\ radioSection r = t.
Proof.
  revert m. induction l as [|r l IH]; intros m H; cbn [fold_left] in H; [by left|].
  destruct (IH _ H) as [Hm|(r' & Hr & Hb)]; [|right; exists r'; split; [by right|done]].
  unfold take_band in Hm. destruct (radio_band r) as [band|] eqn:Hband; [|by left].
  destruct (m !! band) eqn:Htaken; [by left|]. destruct (decide (band = b)) as [->|Hne].
  - rewrite lookup_insert_eq in Hm. simplify_eq. right. exists r. split; [by left|done].
  - rewrite lookup_insert_ne in Hm by done. by left.
Qed.

Lemma radiosByBand_from r b t : radiosByBand (Some r) !! b = Some t ->
  exists ra, ra ∈ rg_Radios r /\ radio_band ra = Some b /\ radioSection ra = t.
Proof.
  intros H. apply take_bands_from in H as [H|(ra & Hin & H)]; [by rewrite lookup_empty in H|].
  exists ra. by rewrite merge_sort_Permutation in Hin.
Qed.

Lemma radio_targets_ok l : forall seen i, radio_target_errors seen i l = None ->
  NoDup (map radioSection l) /\ (forall r, r ∈ l -> validUCIIdentifier (radioSection r) = true /\
                                              radioSection r ∉ map fst seen).
Proof.
  induction l as [|r l IH]; intros seen i H; cbn [radio_target_errors] in H.
  { split; [constructor|]. intros r Hr. by apply elem_of_nil in Hr. }
  destruct (validUCIIdentifier (radioSection r)) eqn:Hv; [|done]. cbn [negb] in H.
  destruct (List.find _ seen) as [[t p]|] eqn:Hf; [done|].
  destruct (IH _ _ H) as [Hnd Hl]. cbn [map]. split.
  - apply NoDup_cons. split; [|done]. intros Hin. apply list_elem_of_fmap in Hin as (r' & Heq & Hin).
    destruct (Hl r' Hin) as [_ Hn]. apply Hn. cbn [map fst]. rewrite <- Heq. by left.
  - intros r' [->|Hin]%elem_of_cons.
    + split; [done|]. intros Hin. apply list_elem_of_fmap in Hin as (x & Heq & Hin).
      eapply List.find_none in Hf; [|by apply list_elem_of_In]. cbn in Hf. rewrite Heq in Hf. by rewrite String.eqb_refl in Hf.
    + destruct (Hl r' Hin) as [Hv' Hn]. split; [done|]. intros Hs. apply Hn. by right.
Qed.

(** Two bands never share a radio. *)
Lemma radios_distinct caps b b' t : validateRadioTargets caps = None ->
  radiosByBand caps !! b = Some t -> radiosByBand caps !! b' = Some t -> b = b'.
Proof.
  destruct caps as [r|]; [|done]. intros Hv H1 H2. apply radio_targets_ok in Hv as [Hnd _].
  apply radiosByBand_from in H1 as (r1 & Hr1 & Hb1 & Ht1). apply radiosByBand_from in H2 as (r2 & Hr2 & Hb2 & Ht2).
  assert (r1 = r2); [|congruence]. subst t. apply list_elem_of_lookup in Hr1 as [i Hi]. apply list_elem_of_lookup in Hr2 as [j Hj].
  assert (i = j); [|congruence]. eapply NoDup_lookup; [exact Hnd|by rewrite list_lookup_fmap, Hi|].
  rewrite list_lookup_fmap, Hj. cbn. by rewrite Ht2.
Qed.

(** ** The names a render may use, each once *)

Definition names_on (caps : option Registry) (kind : string) (id : Z) (bands : list string) : list string :=
  flat_map (fun b => match radiosByBand caps !! b with Some t => [named kind id t] | None => [] end) bands.

Lemma elem_of_names_on caps kind id bands x : x ∈ names_on caps kind id bands <->
  exists b t, b ∈ bands /\ radiosByBand caps !! b = Some t /\ x = named kind id t.
Proof.
  unfold names_on. rewrite elem_of_flat_map. split.
  - intros (b & Hb & Hx). destruct (_ !! b) as [t|] eqn:Ht; [|by apply elem_of_nil in Hx].
    apply list_elem_of_singleton in Hx as ->. by exists b, t.
  - intros (b & t & Hb & Ht & ->). exists b. split; [done|]. rewrite Ht. by left.
Qed.

Lemma names_on_NoDup caps kind id bands : validateRadioTargets caps = None -> NoDup bands ->
  NoDup (names_on caps kind id bands).
Proof.
  intros Hv Hb. apply NoDup_flat_map; [done| |].
  - intros b _. destruct (_ !! b); [apply NoDup_singleton|constructor].
  - intros b b' x _ _ Hx Hx'. destruct (_ !! b) as [t|] eqn:Ht; [|by apply elem_of_nil in Hx].
    destruct (_ !! b') as [t'|] eqn:Ht'; [|by apply elem_of_nil in Hx'].
    apply list_elem_of_singleton in Hx as ->. apply list_elem_of_singleton in Hx' as Hn.
    apply named_inj in Hn as [_ ->]. by eapply radios_distinct.
Qed.

Lemma names_of_NoDup {A} caps kind (id : A -> Z) (bands : A -> list string) l :
  validateRadioTargets caps = None -> NoDup (map id l) -> (forall x, x ∈ l -> NoDup (bands x)) ->
  NoDup (flat_map (fun x => names_on caps kind (id x) (bands x)) l).
Proof.
  intros Hv Hid Hb. apply NoDup_flat_map.
  - by eapply NoDup_fmap_1.
  - intros x Hx. by apply names_on_NoDup, Hb.
  - intros x x' n Hx Hx' Hn Hn'. apply elem_of_names_on in Hn as (b & t & _ & _ & ->).
    apply elem_of_names_on in Hn' as (b' & t' & _ & _ & Heq). apply named_inj in Heq as [Heq _].
    apply list_elem_of_lookup in Hx as [i Hi]. apply list_elem_of_lookup in Hx' as [j Hj].
    assert (i = j); [|congruence]. eapply NoDup_lookup; [exact Hid|by rewrite list_lookup_fmap, Hi|].
    rewrite list_lookup_fmap, Hj. cbn. by rewrite Heq.
Qed.

(** ** What the wireless half appends *)

(** The sections appended from [o] to [o'] are wireless and named after a
    sublist of [names], in order. *)
Definition appends (o o' : out) (names : list string) : Prop :=
  exists l, Sections (fst o') = (Sections (fst o) ++ l)%list /\
    sublist (map sec_ref l) (map (pair "wireless") names).

Lemma appends_same o o' names : Sections (fst o') = Sections (fst o) -> appends o o' names.
Proof. intros H. exists []. rewrite app_nil_r. split; [done|apply sublist_nil_l]. Qed.

Lemma appends_trans o o1 o2 n1 n2 : appends o o1 n1 -> appends o1 o2 n2 -> appends o o2 (n1 ++ n2).
Proof.
  intros (l1 & H1 & Hs1) (l2 & H2 & Hs2). exists (l1 ++ l2)%list. rewrite H2, H1, <- app_assoc. split; [done|].
  rewrite !map_app. by apply sublist_app.
Qed.

(** A step that adds no section leaves the names to the rest. *)
Lemma appends_after o o1 o2 names : Sections (fst o1) = Sections (fst o) -> appends o1 o2 names -> appends o o2 names.
Proof. intros H (l & Hl & Hs). exists l. by rewrite <- H. Qed.

Lemma appends_before o o1 o2 names : appends o o1 names -> Sections (fst o2) = Sections (fst o1) -> appends o o2 names.
Proof. intros (l & Hl & Hs) H. exists l. by rewrite H. Qed.

Lemma appends_section o sec : sec_Config sec = "wireless" -> appends o (add_section o sec) [sec_Name sec].
Proof.
  destruct o as [d r]. intros Hc. exists [sec]. split; [done|]. cbn [map]. unfold sec_ref. by rewrite Hc.
Qed.

Lemma appends_fold {A} (f : out -> A -> out) g l : (forall o x, x ∈ l -> appends o (f o x) (g x)) ->
  forall o, appends o (fold_left f l o) (flat_map g l).
Proof.
  induction l as [|x l IH]; intros Hf o; cbn [fold_left flat_map]; [by apply appends_same|].
  eapply appends_trans; [by apply Hf; left|]. apply IH. intros o' y Hy. apply Hf. by right.
Qed.

Lemma appends_fold_fst {A} (f : out * Z -> A -> out * Z) g l :
  (forall acc x, x ∈ l -> appends (fst acc) (fst (f acc x)) (g x)) ->
  forall acc, appends (fst acc) (fst (fold_left f l acc)) (flat_map g l).
Proof.
  induction l as [|x l IH]; intros Hf acc; cbn [fold_left flat_map]; [by apply appends_same|].
  eapply appends_trans; [by apply Hf; left|]. apply IH. intros acc' y Hy. apply Hf. by right.
Qed.

(** ** Steps that add no section *)

Lemma sections_omissions o oms : Sections (fst (add_omissions o oms)) = Sections (fst o).
Proof. by destruct o. Qed.
Lemma sections_conflicts o cs : Sections (fst (add_conflicts o cs)) = Sections (fst o).
Proof. by destruct o. Qed.
Lemma sections_warning o w : Sections (fst (add_warning o w)) = Sections (fst o).
Proof. by destruct o. Qed.
Lemma sections_warnings ws o : Sections (fst (add_warnings o ws)) = Sections (fst o).
Proof. revert o. induction ws as [|w ws IH]; intros o; [done|]. cbn. unfold add_warnings in IH. rewrite IH. apply sections_warning. Qed.
Lemma sections_blind o cs : Sections (fst (add_blind o cs)) = Sections (fst o).
Proof. by destruct o. Qed.
Lemma sections_retain e o name reason : Sections (fst (retain e o name reason)) = Sections (fst o).
Proof. destruct o as [d r]. unfold retain. by destruct (OwnedIn _ _ _). Qed.
Lemma sections_retain_on caps e name reason o b : Sections (fst (retain_on caps e name reason o b)) = Sections (fst o).
Proof. unfold retain_on. destruct (_ !! b); [apply sections_retain|done]. Qed.
Lemma sections_retains caps e name reason l : forall o,
  Sections (fst (fold_left (retain_on caps e name reason) l o)) = Sections (fst o).
Proof. induction l as [|b l IH]; intros o; [done|]. cbn. rewrite IH. apply sections_retain_on. Qed.
Lemma sections_report e o : Sections (fst (reportBlind e o)) = Sections (fst o).
Proof. apply sections_omissions. Qed.

#[local] Hint Rewrite sections_omissions sections_conflicts sections_warning sections_warnings sections_blind
  sections_retain sections_retain_on sections_retains sections_report : sections.

(** ** The wireless half, object by object *)

Lemma appends_band s w net caps e acc band :
  appends (fst acc) (fst (render_band s w net caps e acc band)) (names_on caps "wlan" (w_ID w) [band]).
Proof.
  destruct acc as [o k]. unfold render_band, names_on. cbn [flat_map].
  destruct (radiosByBand caps !! band) as [radio|]; [|apply appends_same; cbn [fst]; by autorewrite with sections].
  destruct (foreign_wireless _ _); [apply appends_same; cbn [fst]; by autorewrite with sections|].
  destruct (foreignSSIDOnRadio _ _ _ _); [apply appends_same; cbn [fst]; by autorewrite with sections|].
  cbn [fst renderWifiIface app]. rewrite <- ifaceName_named.
  eapply appends_before; [|apply sections_omissions]. eapply appends_after; [|by apply appends_section].
  destruct (radioIsDisabled e radio); by autorewrite with sections.
Qed.

Lemma appends_wlan s dev caps e o w :
  appends o (render_wlan s dev caps e o w) (names_on caps "wlan" (w_ID w) (orderedBands (w_Bands w))).
Proof.
  unfold render_wlan. destruct (Overrides_Apply _ _ w) as [w' published] eqn:Hov.
  assert (Hw : w_ID w' = w_ID w /\ w_Bands w' = w_Bands w).
  { apply fold_scope in Hov as [<- _]. done. }
  destruct Hw as [<- <-]. destruct published; cbn [negb]; [|apply appends_same; by autorewrite with sections].
  destruct (networkAttachmentAvailable _ _); cbn [negb].
  - pose proof (appends_fold_fst (render_band s w' (network_of s (w_NetworkID w')) caps e)
      (fun b => names_on caps "wlan" (w_ID w') [b]) (orderedBands (w_Bands w'))) as Hf.
    specialize (Hf (fun acc b _ => appends_band _ _ _ _ _ acc b) (o, 0)).
    destruct (fold_left _ _ _) as [o' k]. cbn [fst] in Hf.
    replace (names_on _ _ _ _) with (flat_map (fun b => names_on caps "wlan" (w_ID w') [b]) (orderedBands (w_Bands w'))).
    + destruct (_ && _); [|done]. eapply appends_before; [exact Hf|apply sections_omissions].
    + unfold names_on. cbn [flat_map]. apply flat_map_ext. intros b. by rewrite app_nil_r.
  - apply appends_same. destruct (blind _ _); by autorewrite with sections.
Qed.

Definition uplink_names (s : Site) (dev : Device) (caps : option Registry) : list string :=
  match UplinkFor s (dev_ID dev) with
  | Some u => names_on caps "up" (u_ID u) [u_Band u]
  | None => []
  end.

Lemma appends_uplink s dev caps e o : appends o (render_uplink s dev caps e o) (uplink_names s dev caps).
Proof.
  unfold render_uplink, uplink_names, names_on. cbn [flat_map].
  destruct (UplinkFor _ _) as [u|]; [|by apply appends_same]. destruct (WLANByID _ _) as [w|]; [|by apply appends_same].
  destruct (networkAttachmentAvailable _ _); cbn [negb].
  - destruct (_ !! u_Band u) as [radio|]; [|apply appends_same; by autorewrite with sections].
    destruct (renderUplink _ _ _ _ _) as [[sec|] oms] eqn:E.
    + pose proof (f_equal fst E) as Hs. apply renderUplink_section in Hs as ->. cbn [app]. rewrite <- uplinkIfaceName_named.
      eapply appends_after; [apply sections_omissions|]. by apply appends_section.
    + apply appends_same. destruct (undetermined _ _); by autorewrite with sections.
  - apply appends_same. destruct (blind _ _); by autorewrite with sections.
Qed.

Lemma appends_mesh s caps e o m : appends o (render_mesh s caps e o m) (names_on caps "mesh" (m_ID m) [m_Band m]).
Proof.
  unfold render_mesh, names_on. cbn [flat_map]. destruct (networkAttachmentAvailable _ _); cbn [negb].
  - destruct (_ !! m_Band m) as [radio|]; [|apply appends_same; by autorewrite with sections].
    destruct (foreign_wireless _ _); [apply appends_same; by autorewrite with sections|].
    destruct (renderMesh _ _ _ _) as [[sec|] oms] eqn:E.
    + pose proof (f_equal fst E) as Hs. apply renderMesh_section in Hs as ->. cbn [app]. rewrite <- meshIfaceName_named.
      eapply appends_after; [apply sections_omissions|]. by apply appends_section.
    + apply appends_same. destruct (undetermined _ _); by autorewrite with sections.
  - apply appends_same. destruct (blind _ _); by autorewrite with sections.
Qed.

Definition wireless_names (s : Site) (dev : Device) (caps : option Registry) : list string :=
  (flat_map (fun w => names_on caps "wlan" (w_ID w) (orderedBands (w_Bands w))) (WLANsFor s (dev_ID dev)) ++
   uplink_names s dev caps ++
   flat_map (fun m => names_on caps "mesh" (m_ID m) [m_Band m]) (MeshesFor s (dev_ID dev)))%list.

Lemma appends_wireless s dev caps e o : appends o (render_wireless s dev caps e o) (wireless_names s dev caps).
Proof.
  unfold render_wireless, wireless_names.
  apply (appends_after _ (wireless_start s dev caps o)).
  { unfold wireless_start. destruct (radios_unknown _), (_ && _); by autorewrite with sections. }
  eapply (appends_before _ (fold_left (render_mesh s caps e) (MeshesFor s (dev_ID dev)) _)).
  - eapply appends_trans; [apply appends_fold; intros; apply appends_wlan|].
    eapply appends_trans; [apply appends_uplink|]. apply appends_fold. intros. apply appends_mesh.
  - unfold wireless_end. destruct (hardware_unreadable caps); by autorewrite with sections.
Qed.

(** ** Every name once *)

(** What the store's keys and the editor guarantee of a site. *)
Record keyed (s : Site) : Prop := {
  k_wlans : NoDup (map w_ID (WLANs s));
  k_meshes : NoDup (map m_ID (Meshes s));
  k_bands : forall w, w ∈ WLANs s -> NoDup (w_Bands w);
}.

Lemma wireless_names_NoDup s dev caps : keyed s -> validateRadioTargets caps = None -> NoDup (wireless_names s dev caps).
Proof.
  intros [Hw Hm Hb] Hv. unfold wireless_names. apply NoDup_app. split; [|split].
  - apply names_of_NoDup; [done|by apply NoDup_map_filter|]. intros w Hin. unfold orderedBands.
    rewrite merge_sort_Permutation. apply Hb. apply list_elem_of_In, List.filter_In in Hin as [Hin _]. by apply list_elem_of_In.
  - intros x Hx Hx'. apply elem_of_flat_map in Hx as (w & _ & Hx). apply elem_of_names_on in Hx as (b & t & _ & _ & ->).
    apply elem_of_app in Hx' as [Hx|Hx].
    + unfold uplink_names in Hx. destruct (UplinkFor _ _); [|by apply elem_of_nil in Hx].
      by apply elem_of_names_on in Hx as (? & ? & _ & _ & Heq).
    + apply elem_of_flat_map in Hx as (m & _ & Hx). by apply elem_of_names_on in Hx as (? & ? & _ & _ & Heq).
  - apply NoDup_app. split; [|split].
    + unfold uplink_names. destruct (UplinkFor _ _); [|constructor]. apply names_on_NoDup; [done|apply NoDup_singleton].
    + intros x Hx Hx'. unfold uplink_names in Hx. destruct (UplinkFor _ _); [|by apply elem_of_nil in Hx].
      apply elem_of_names_on in Hx as (? & ? & _ & _ & ->). apply elem_of_flat_map in Hx' as (m & _ & Hx').
      by apply elem_of_names_on in Hx' as (? & ? & _ & _ & Heq).
    + apply names_of_NoDup; [done|by apply NoDup_map_filter|]. intros m _. apply NoDup_singleton.
Qed.

(** The wired half: distinct sections, none of them wireless. *)
Lemma wired_sections s dev caps e :
  let d := fst (render_wired s dev caps e (render_start s dev caps)) in
  NoDup (map sec_ref (Sections d)) /\ (forall sec, sec ∈ Sections d -> sec_Config sec <> "wireless").
Proof.
  intros d. pose proof (reaches_start s dev caps e false) as H1.
  assert (H2 : reaches s dev caps e false (new_doc dev, no_report) (render_wired s dev caps e (render_start s dev caps))).
  { etrans; [exact H1|]. apply reaches_wired. }
  destruct H2 as [H _ _]. fold d in H. clear H1. cbn [fst] in H. revert H. generalize d. clear d.
  apply (rtc_ind_r (fun d => NoDup (map sec_ref (Sections d)) /\ forall sec, sec ∈ Sections d -> sec_Config sec <> "wireless")).
  - split; [constructor|]. intros sec Hsec. by apply elem_of_nil in Hsec.
  - intros d d' _ Hc IH. revert IH. destruct Hc as [d sec Ho Hn _|d p n _ _ _|d sec Hf _|d name Hf|d cs]; [|done..].
    intros [Hnd Hk]. cbn [with_section Sections]. split.
    + rewrite map_app. apply NoDup_app. split; [done|]. split; [|apply NoDup_singleton].
      intros r Hr Hs. by apply list_elem_of_singleton in Hs as ->.
    + intros sec' [Hs|Hs]%elem_of_app; [by apply Hk|]. apply list_elem_of_singleton in Hs as ->.
      by eapply origin_wired.
Qed.
