(* ===== verification/RenderProps.v ===== *)
(** * What a render guarantees

    The document of one device: which sections its functions admit, that it is
    valid and respects the ownership marker, that what cannot be observed is
    never deleted, that the plan of a rendered document leaves unmarked sections alone,
    and that every WLAN the site publishes on the device is, on each of its
    bands, either rendered or explained. *)

From Stdlib Require Import ZArith Lia Ascii String.
From stdpp Require Import base relations gmap list strings sorting.
From S2P Require Import Prelude GoStr GoFmt ApplyEngine SiteModel SitePolicy SiteModelSpec Capability RenderPlan.
From S2P Require Import RenderPlanSpec RenderNetwork RenderZones RenderPolicy RenderWireless Render RenderSpec.
From S2P Require Import RenderDocSpec RenderNames.

Local Open Scope string_scope.
Local Open Scope Z_scope.

(** ** From the site as written to the site as validated *)

Lemma keyed_frame site s : SitePolicy.Validate site = (s, []) -> keyed site -> keyed s.
Proof. intros Hv [H1 H2 H3]. apply Validate_frame in Hv as (_ & _ & Hw & Hm & _). by split; rewrite ?Hw, ?Hm. Qed.

Lemma WLANsFor_frame site s errs id : SitePolicy.Validate site = (s, errs) -> WLANsFor s id = WLANsFor site id.
Proof.
  intros Hv. apply Validate_frame in Hv as (_ & _ & Hw & _ & _ & Hg & _).
  unfold WLANsFor, in_group, GroupByID. by rewrite Hw, Hg.
Qed.

Lemma MeshesFor_frame site s errs id : SitePolicy.Validate site = (s, errs) -> MeshesFor s id = MeshesFor site id.
Proof.
  intros Hv. apply Validate_frame in Hv as (_ & _ & _ & Hm & _ & Hg & _).
  unfold MeshesFor, in_group, GroupByID. by rewrite Hm, Hg.
Qed.

Lemma network_of_frame site s errs id : SitePolicy.Validate site = (s, errs) -> network_of s id = network_of site id.
Proof. intros Hv. apply Validate_frame in Hv as (_ & Hn & _). unfold network_of, NetworkByID. by rewrite Hn. Qed.

(** ** Functions *)

Lemma render_patches s dev caps e o : render_valid s dev caps e = Ok o ->
  NoDup (map patch_ref (Patches (fst o))) /\
  (Routes (EffectiveFunctions dev) = false -> Patches (fst o) = []).
Proof.
  intros H. apply (document_ind s dev caps e (fun d => NoDup (map patch_ref (Patches d)) /\
    (Routes (EffectiveFunctions dev) = false -> Patches d = []))) in H; [done|split; [constructor|done]|].
  intros d d' IH Hc. revert IH. destruct Hc as [| d p n Hr _ Hn | | |]; try done.
  intros [Hnd He]. cbn [with_patch Patches]. split; [|congruence].
  rewrite map_app. apply NoDup_app. split; [done|]. split; [|apply NoDup_singleton].
  intros r Hin Hs. by apply list_elem_of_singleton in Hs as ->.
Qed.

(** C14. A device gets only what its functions are for, whatever the site and
    the hardware would allow. Without the access point function no wireless
    section is rendered, and every WLAN the site targets at the device is
    reported as omitted. Without the gateway function nothing is patched, no
    DHCP or firewall section is rendered, and no interface has an address.
    A selection that was stored malformed renders nothing at all. *)
Theorem render_role_gating site dev caps e d r :
  Render site dev caps e = Ok (d, r) ->
  no_functions dev = false /\
  (Wireless (EffectiveFunctions dev) = false ->
     (forall sec, sec ∈ Sections d -> sec_Config sec <> "wireless") /\
     forall w, w ∈ WLANsFor site (dev_ID dev) -> exists om, om ∈ Omissions r /\ om_WLAN om = w_SSID w) /\
  (Routes (EffectiveFunctions dev) = false ->
     Patches d = [] /\
     forall sec, sec ∈ Sections d -> sec_Config sec <> "wireless" ->
       sec_Config sec = "network" /\
       (sec_Type sec = "bridge-vlan" \/ (sec_Type sec = "interface" /\ sec_Values sec !! "proto" = Some "none"))).
Proof.
  intros H. assert (Hf : no_functions dev = false).
  { unfold Render in H. by destruct (no_functions dev). }
  apply Render_valid in H as (s & Hv & H). split; [done|]. split.
  - intros Hw. split.
    + apply (sections_ind s dev caps e (fun sec => sec_Config sec <> "wireless") (d, r) H); [|congruence].
      intros sec Ho _. by eapply origin_wired.
    + unfold render_valid in H. rewrite Hw in H. cbn [negb] in H. destruct (render_wired _ _ _ _ _) as [d0 r0].
      injection H as <- <-. intros w Hin. rewrite <- (WLANsFor_frame site s [] _ Hv) in Hin.
      exists (function_omission (EffectiveFunctions dev) w). split; [|done]. cbn [Omissions]. apply elem_of_app. right.
      by apply list_elem_of_fmap_2.
  - intros Hr. split; [by eapply (render_patches s dev caps e (d, r))|].
    apply (sections_ind s dev caps e (fun sec => sec_Config sec <> "wireless" -> sec_Config sec = "network" /\
       (sec_Type sec = "bridge-vlan" \/ (sec_Type sec = "interface" /\ sec_Values sec !! "proto" = Some "none"))) (d, r) H).
    + intros sec Ho _ _. apply origin_kind in Ho as [_ [[-> ?]|[(-> & ? & _ & ?)|[? _]]]]; [auto|auto|congruence].
    + intros sec _ Ha Hc. by apply air_kind in Ha as (_ & Hc' & _).
Qed.

(** ** Validity *)

(** C24. The document a render produces can be applied as it stands. Given a
    site whose WLANs and meshes have distinct identifiers and whose WLANs list
    each band once, it names every section once, patches every section once,
    marks every section as its own, and overwrites no section of the device
    that is not marked - except possibly by the station of a wireless uplink,
    the one section written without the check. *)
Theorem rendered_document_valid site dev caps e d r :
  keyed site -> Render site dev caps e = Ok (d, r) ->
  RenderPlan.Validate d = None /\ NoDup (map patch_ref (Patches d)) /\
  forall sec, sec ∈ Sections d ->
    sec_Values sec !! OwnershipTag = Some "1" /\
    (vacant e sec \/ (sec_Config sec = "wireless" /\ sec_Values sec !! "mode" = Some "sta")).
Proof.
  intros Hk H. apply Render_valid in H as (s & Hv & H). apply (keyed_frame site s Hv) in Hk. split; [|split].
  - apply Validate_none. destruct (wired_sections s dev caps e) as [Hnd Hw]. unfold render_valid in H.
    destruct (Wireless _); cbn [negb] in H.
    + destruct (validateRadioTargets caps) eqn:Hr; [done|]. injection H as H.
      pose proof (appends_wireless s dev caps e (render_wired s dev caps e (render_start s dev caps))) as (l & Hl & Hs).
      rewrite H in Hl. cbn [fst] in Hl. rewrite Hl, map_app. apply NoDup_app. split; [done|]. split.
      * intros ref Hin Hin'. apply list_elem_of_fmap in Hin as (sec & -> & Hsec). apply (Hw sec Hsec).
        eapply elem_of_sublist in Hin'; [|exact Hs]. by apply list_elem_of_fmap in Hin' as (n & [= -> _] & _).
      * eapply sublist_NoDup; [|exact Hs]. apply NoDup_fmap_2; [by intros ? ? [=]|]. by apply wireless_names_NoDup.
    + apply (f_equal (fun x => match x with Ok o => Sections (fst o) | Err _ => [] end)) in H.
      cbn beta iota in H. rewrite sections_omissions in H. cbn [fst] in H. by rewrite <- H.
  - by eapply (render_patches s dev caps e (d, r)).
  - apply (sections_ind s dev caps e (fun sec => sec_Values sec !! OwnershipTag = Some "1" /\
      (vacant e sec \/ (sec_Config sec = "wireless" /\ sec_Values sec !! "mode" = Some "sta"))) (d, r) H).
    + intros sec Ho Hva. apply origin_kind in Ho as [Hm _]. split; [done|by left].
    + intros sec _ Ha. apply air_kind in Ha as (Hm & Hc & [Hva|Hmode]); split; [done|by left|done|by right].
Qed.

(** ** What is not the controller's *)

Lemma UplinkFor_frame site s errs id : SitePolicy.Validate site = (s, errs) -> UplinkFor s id = UplinkFor site id.
Proof. intros Hv. apply Validate_frame in Hv as (_ & _ & _ & _ & Hu & _). unfold UplinkFor. by rewrite Hu. Qed.

(** The options of a patch, checked. *)
Definition patch_fine (values : list (string * string)) (deletes : list string) : bool :=
  forallb (fun kv => negb (metadata (fst kv)) && negb (existsb (String.eqb (fst kv)) deletes)) values &&
  forallb (fun k => negb (metadata k) && negb (String.eqb k "")) deletes.

Lemma patch_fine_wf c name values deletes : patch_fine values deletes = true -> wf_patch (MkPatch c name (vals values) deletes).
Proof.
  intros [Hv Hd]%andb_true_iff. rewrite forallb_forall in Hv, Hd. split; cbn [p_Values p_Deletes].
  - intros k v Hk. rewrite vals_lookup in Hk. apply assoc_in, list_elem_of_fmap in Hk as (kv & -> & Hk).
    specialize (Hv _ (proj1 (list_elem_of_In _ _) Hk)). bool_prop. split; [done|]. intros Hin%existsb_eqb_In. congruence.
  - intros k Hk. specialize (Hd _ (proj1 (list_elem_of_In _ _) Hk)). by bool_prop.
Qed.

Lemma management_patch n e p : p ∈ fst (renderManagementIPv6 n e) -> wf_patch p.
Proof.
  assert (Hone : forall c name values deletes, patch_fine values deletes = true ->
    p ∈ [MkPatch c name (vals values) deletes] -> wf_patch p).
  { intros c name values deletes Hf ->%list_elem_of_singleton. by apply patch_fine_wf. }
  unfold renderManagementIPv6. destruct (String.eqb _ _); [intros H; by apply elem_of_nil in H|].
  destruct (management_lan n e) as [p1 c1] eqn:E1, (management_dhcp n e) as [p2 c2] eqn:E2,
    (management_wan6 n e) as [[p3 c3] w] eqn:E3, (management_wan n w e) as [p4 c4] eqn:E4. cbn [fst].
  rewrite !elem_of_app. intros [H|[H|[H|H]]].
  - unfold management_lan in E1. change (∅ : gmap string string) with (vals []) in E1.
    destruct (String.eqb (i_Mode (EffectiveIPv6 n)) IPv6PrefixDelegation) eqn:Ed, (String.eqb (i_Mode (EffectiveIPv6 n)) IPv6Disabled) eqn:Ex;
      [apply String.eqb_eq in Ed; rewrite Ed in Ex; discriminate Ex|..]; repeat case_match; simplify_eq; try (by apply elem_of_nil in H);
      by eapply Hone; [..|exact H].
  - unfold management_dhcp in E2. repeat case_match; simplify_eq; try (by apply elem_of_nil in H); by eapply Hone; [..|exact H].
  - unfold management_wan6 in E3. repeat case_match; simplify_eq; try (by apply elem_of_nil in H); by eapply Hone; [..|exact H].
  - unfold management_wan in E4. repeat case_match; simplify_eq; try (by apply elem_of_nil in H); by eapply Hone; [..|exact H].
Qed.

Lemma rendered_patches s dev caps e o p : render_valid s dev caps e = Ok o -> p ∈ Patches (fst o) ->
  wf_patch p.
Proof.
  intros H. revert p. refine (document_ind s dev caps e (fun d => forall p, p ∈ Patches d -> wf_patch p) o H _ _).
  - intros q Hq. by apply elem_of_nil in Hq.
  - intros d d' IH Hc. revert IH. destruct Hc as [| d q n _ Hfrom _ | | |]; try done. intros IH x Hx.
    cbn [with_patch Patches] in Hx. apply elem_of_app in Hx as [Hx|Hx%list_elem_of_singleton]; [by apply IH|]. subst x.
    by eapply management_patch.
Qed.

(** The station of the device's wireless uplink: the one section that is
    rendered without asking whose the section of its name is. *)
Definition station (site : Site) (dv : Device) (caps : option Registry) (r : SectionRef) : Prop :=
  exists u radio, UplinkFor site (dev_ID dv) = Some u /\ radiosByBand caps !! u_Band u = Some radio /\
    r = ("wireless", uplinkIfaceName (u_ID u) radio).

(** A section of the device that is not marked is not rendered. *)
Lemma foreign_not_rendered site dv caps e d rep r old : Render site dv caps e = Ok (d, rep) ->
  at_ref e r = Some old -> OwnedIn e (fst r) (snd r) = false -> ~ station site dv caps r -> r ∉ map sec_ref (Sections d).
Proof.
  intros H Hold Hown Hst Hin. apply Render_valid in H as (s & Hv & H). apply list_elem_of_fmap in Hin as (sec & -> & Hsec).
  assert (Hvac : vacant e sec \/ station site dv caps (sec_ref sec)).
  { revert Hsec. apply (sections_ind s dv caps e (fun sec => vacant e sec \/ station site dv caps (sec_ref sec)) (d, rep) H); [by left|].
    intros x _ Ha. pose proof (air_kind _ _ _ _ _ Ha) as (_ & _ & [Hva|Hmode]); [by left|]. revert Hmode.
    destruct Ha as [w w' band radio _ _ _ _ Hf ->|u w radio Hu _ Hr Hsec|m radio _ _ Hf Hsec].
    - by rewrite wifi_lookup, wifi_mode.
    - intros _. right. apply renderUplink_section in Hsec as ->. exists u, radio. split; [by rewrite <- (UplinkFor_frame _ _ _ _ Hv)|done].
    - apply renderMesh_section in Hsec as ->. cbn [sec_Values]. by rewrite vals_lookup, mesh_mode. }
  destruct Hvac as [[Hn|Ho]|Hs]; [congruence| |done].
  change (OwnedIn e (fst (sec_ref sec)) (snd (sec_ref sec)) = true) in Ho. congruence.
Qed.

(** C21. Configuration the controller does not own survives. Take any site,
    any device and the document a render makes of it against the device's
    configuration, and run what is planned and pruned. A section of the device
    without the marker is afterwards exactly as it was, unless the render
    patches it; a patched section keeps every option the patch does not name,
    and gains no marker; and a section that was not there is only created by
    being rendered. The one exception is the station of a wireless uplink, which
    is rendered over whatever has its name. *)
Theorem foreign_sections_survive {D} `{UciDevice D} site dv caps (dev : D) d rep r :
  Render site dv caps (view dev) = Ok (d, rep) -> OwnedIn (view dev) (fst r) (snd r) = false -> ~ station site dv caps r ->
  let after := view (exec_all (device_ops d (view dev)) dev) in
  match at_ref (view dev) r with
  | Some old =>
      (r ∉ map patch_ref (Patches d) -> at_ref after r = Some old) /\
      (forall p, p ∈ Patches d -> patch_ref p = r ->
         exists cur, at_ref after r = Some cur /\ get cur OwnershipTag <> "1" /\
           forall k, metadata k = false -> outside_patch p k -> cur !! k = old !! k)
  | None => r ∉ map sec_ref (Sections d) -> at_ref after r = None
  end.
Proof.
  intros Hr Hown Hst after. destruct (at_ref (view dev) r) as [old|] eqn:Hold.
  - pose proof (foreign_not_rendered _ _ _ _ _ _ _ _ Hr Hold Hown Hst) as Hs. split.
    + intros Hp. unfold after. by rewrite untouched_end.
    + intros p Hp <-. apply Render_valid in Hr as (s & _ & Hr). pose proof (rendered_patches s dv caps (view dev) (d, rep) p Hr Hp) as Hwf.
      destruct (render_patches s dv caps (view dev) (d, rep) Hr) as [Hnd _].
      destruct (patched_end d dev p old Hp Hnd Hwf Hs Hown Hold) as (cur & Hc & _ & Hk). exists cur. split; [done|]. split; [|done].
      rewrite OwnedIn_at, Hold in Hown. unfold get in *. rewrite Hk by (done || by left). by apply String.eqb_neq in Hown.
  - intros Hs. by apply absent_end.
Qed.

(** ** Ignorance *)

Section Ignorance.
Variables (s : Site) (dev : Device) (caps : option Registry)
  (e : gmap string (gmap string (gmap string string))).
Local Notation wired := (render_wired s dev caps e (render_start s dev caps)).

Lemma wired_reached : reaches s dev caps e true (new_doc dev, no_report) wired.
Proof. etrans; [apply reaches_start|apply reaches_wired]. Qed.

Lemma blind_elem d config : blind d config = true <-> config ∈ Blind d.
Proof.
  unfold blind. rewrite existsb_true_iff. split.
  - intros (c & Hc & He). by bool_prop; subst.
  - intros H. exists config. split; [done|]. apply String.eqb_refl.
Qed.

Lemma retained_elem d config name : retained d config name = true <-> (config, name) ∈ Retain d.
Proof.
  unfold retained. rewrite existsb_true_iff. split.
  - intros ([c n] & Hc & He). cbn in He. by bool_prop; subst.
  - intros H. exists (config, name). split; [done|]. cbn. by rewrite !String.eqb_refl.
Qed.

(** What is blind, retained or not ours is not stale. *)
Lemma not_stale d config name :
  config ∈ Blind d \/ (config, name) ∈ Retain d \/ OwnedIn e config name = false \/ (config, name) ∈ map sec_ref (Sections d) ->
  (config, name) ∉ stale d e.
Proof.
  intros H Hs. apply elem_of_stale in Hs. unfold is_stale, wanted in Hs. cbn [fst snd] in Hs. bool_prop.
  destruct H as [H|[H|[H|H]]]; [apply blind_elem in H|apply retained_elem in H| |]; first [done|congruence].
Qed.

Lemma start_blind config air o : wired_blind s caps = true -> config ∈ ["network"; "dhcp"; "firewall"] ->
  reaches s dev caps e air (render_start s dev caps) o -> config ∈ Blind (fst o).
Proof.
  intros Hb Hc H. apply reaches_keeps in H as (_ & _ & H). apply H. unfold render_start. by rewrite Hb.
Qed.

(** A device whose ports are unknown gets no interface, so nothing attaches to
    a tagged VLAN. *)
Lemma blind_unattached air o net : wired_blind s caps = true -> reaches s dev caps e air (new_doc dev, no_report) o ->
  networkAttachmentAvailable (fst o) net = n_Enabled net && (n_VLAN net <=? 1).
Proof.
  intros Hb H. unfold networkAttachmentAvailable. destruct (n_Enabled net); [|done]. cbn [negb andb].
  destruct (n_VLAN net <=? 1); [done|]. apply existsb_false_iff. intros sec Hsec.
  assert (Hno : is_section "network" "interface" sec = false); [|by rewrite Hno].
  revert sec Hsec. apply (reached_sections s dev caps e air _ o H); intros sec.
  - intros [n _ Hn|members _ Hz|d _ Hp] _; unfold is_section.
    + unfold renderNetwork in Hn. unfold wired_blind in Hb. apply andb_true_iff in Hb as [_ Hb].
      destruct (n_Enabled n); cbn [negb fst] in Hn; [|by apply elem_of_nil in Hn].
      destruct (n_VLAN n <=? 1); [by apply elem_of_nil in Hn|].
      destruct caps as [reg|]; [|by apply elem_of_nil in Hn]. rewrite Hb in Hn. by apply elem_of_nil in Hn.
    + apply zones_kind in Hz as [_ ->]. done.
    + apply policies_kind in Hp as (_ & _ & Ht). destruct (String.eqb (sec_Type sec) "interface") eqn:E; [|by rewrite andb_false_r].
      bool_prop. rewrite E in Ht. rewrite !elem_of_cons, elem_of_nil in Ht. by destruct Ht as [?|[?|[?|[?|?]]]].
  - intros _ Ha. apply air_kind in Ha as (_ & Hc & _). unfold is_section. by rewrite Hc.
Qed.

(** Whether a network's attachment can be decided at all: it needs none, or
    the device's ports are unknown. *)
Definition undecided (net : Network) : bool := wired_blind s caps || (n_Enabled net && (n_VLAN net <=? 1)).

Lemma retain_keeps o name reason : ("wireless", name) ∈ Retain (fst (retain e o name reason)).
Proof. destruct o as [d r]. unfold retain. destruct (OwnedIn _ _ _); cbn; apply elem_of_app; right; by left. Qed.

Lemma retained_attachment air o net : undecided net = true -> reaches s dev caps e air (render_start s dev caps) o ->
  networkAttachmentAvailable (fst o) net = true \/ blind (fst o) "network" = true.
Proof.
  unfold undecided. intros H Ho. apply orb_true_iff in H as [H|H].
  - right. apply blind_elem. eapply start_blind; [done|by left|done].
  - left. apply andb_true_iff in H as [He Hl]. unfold networkAttachmentAvailable. by rewrite He, Hl.
Qed.

Lemma undetermined_gate : undetermined caps FeatMesh = true -> exists reason, MeshGate caps = Some reason.
Proof.
  unfold undetermined, MeshGate, feature_state. destruct caps as [r|]; [|done].
  destruct (State r FeatMesh); cbn; try done; intros _; by eexists.
Qed.

Lemma undetermined_uplink : undetermined caps FeatWirelessUplink = true -> exists reason, UplinkGate caps = Some reason.
Proof.
  unfold undetermined, UplinkGate, feature_state. destruct caps as [r|]; [|done].
  destruct (State r FeatWirelessUplink); cbn; try done; intros _; by eexists.
Qed.

Lemma mesh_kept air o m radio : reaches s dev caps e air (render_start s dev caps) o ->
  radiosByBand caps !! m_Band m = Some radio -> undetermined caps FeatMesh = true ->
  undecided (network_of s (m_NetworkID m)) = true ->
  foreign_wireless e (meshIfaceName (m_ID m) radio) = true \/
  ("wireless", meshIfaceName (m_ID m) radio) ∈ Retain (fst (render_mesh s caps e o m)).
Proof.
  intros Ho Hr Hu Hn. unfold render_mesh. destruct (retained_attachment air o _ Hn Ho) as [Ha|Hb].
  - rewrite Ha, Hr. cbn [negb]. destruct (foreign_wireless _ _); [by left|right].
    destruct (undetermined_gate Hu) as [reason Hg]. unfold renderMesh. rewrite Hg, Hu. apply retain_keeps.
  - destruct (networkAttachmentAvailable _ _); cbn [negb].
    + rewrite Hr. destruct (foreign_wireless _ _); [by left|right].
      destruct (undetermined_gate Hu) as [reason Hg]. unfold renderMesh. rewrite Hg, Hu. apply retain_keeps.
    + right. replace (blind _ "network") with (blind (fst o) "network") by (by destruct o). rewrite Hb.
      unfold retain_on. rewrite Hr. apply retain_keeps.
Qed.

Lemma uplink_kept air o u w radio : reaches s dev caps e air (render_start s dev caps) o ->
  UplinkFor s (dev_ID dev) = Some u -> WLANByID s (u_WLANID u) = Some w ->
  radiosByBand caps !! u_Band u = Some radio -> undetermined caps FeatWirelessUplink = true ->
  undecided (network_of s (w_NetworkID w)) = true ->
  ("wireless", uplinkIfaceName (u_ID u) radio) ∈ Retain (fst (render_uplink s dev caps e o)).
Proof.
  intros Ho Hu Hw Hr Hun Hn. unfold render_uplink. rewrite Hu, Hw.
  destruct (networkAttachmentAvailable _ _) eqn:Ha; cbn [negb].
  - rewrite Hr. destruct (undetermined_uplink Hun) as [reason Hg]. unfold renderUplink. rewrite Hg, Hun. apply retain_keeps.
  - destruct (retained_attachment air o _ Hn Ho) as [?|Hb]; [congruence|].
    replace (blind _ "network") with (blind (fst o) "network") by (by destruct o). rewrite Hb.
    unfold retain_on. rewrite Hr. apply retain_keeps.
Qed.

Lemma retain_on_fold name_on reason l o band radio : band ∈ l -> radiosByBand caps !! band = Some radio ->
  ("wireless", name_on radio) ∈ Retain (fst (fold_left (retain_on caps e name_on reason) l o)).
Proof.
  intros Hb Hr. destruct (fold_at s dev caps e true (retain_on caps e name_on reason) l band o Hb) as (o1 & _ & H2).
  - intros o' b _. by apply reaches_retain_on.
  - apply reaches_keeps in H2 as (_ & H2 & _). apply H2. unfold retain_on. rewrite Hr. apply retain_keeps.
Qed.

Lemma wlan_kept air o w w' band radio : reaches s dev caps e air (new_doc dev, no_report) o ->
  reaches s dev caps e air (render_start s dev caps) o -> wired_blind s caps = true ->
  Overrides_Apply (Site_Overrides s) (dev_ID dev) w = (w', true) ->
  n_Enabled (network_of s (w_NetworkID w)) && (n_VLAN (network_of s (w_NetworkID w)) <=? 1) = false ->
  band ∈ w_Bands w -> radiosByBand caps !! band = Some radio ->
  ("wireless", ifaceName (w_ID w) radio) ∈ Retain (fst (render_wlan s dev caps e o w)).
Proof.
  intros Hn Ho Hb Hov Hnet Hband Hr. unfold render_wlan. rewrite Hov. cbn [negb].
  apply fold_scope in Hov as [Hsame _].
  assert (Hw : w_ID w' = w_ID w /\ w_Bands w' = w_Bands w /\ w_NetworkID w' = w_NetworkID w) by (by rewrite <- Hsame).
  destruct Hw as (Hid & Hbands & Hnid). rewrite Hid, Hbands, Hnid, (blind_unattached air o _ Hb Hn), Hnet. cbn [negb].
  replace (blind _ "network") with (blind (fst o) "network") by (by destruct o).
  assert (Hbn : blind (fst o) "network" = true) by (apply blind_elem; eapply start_blind; [done|by left|done]).
  rewrite Hbn. apply (retain_on_fold _ _ _ _ band); [by apply elem_of_orderedBands|done].
Qed.
End Ignorance.

(** C37. A render deletes nothing on the strength of a check that did not run.
    Where the site asks for VLANs and the device's ports are unknown, nothing
    is stale in network, dhcp or firewall, nor is the section of any WLAN the
    device publishes on a tagged or disabled network; where the radio list is
    unknown, nothing is stale in wireless; and a mesh point or uplink station
    whose capability was not established is not stale, as long as its network
    asks for no VLAN or the ports are unknown too. *)
Theorem ignorance_never_deletes site dev caps e d r :
  Render site dev caps e = Ok (d, r) ->
  (wired_blind site caps = true -> forall config name, config ∈ ["network"; "dhcp"; "firewall"] ->
     (config, name) ∉ stale d e) /\
  (Wireless (EffectiveFunctions dev) = true ->
     (radios_unknown caps = true -> forall name, ("wireless", name) ∉ stale d e) /\
     (forall w w' band radio, w ∈ WLANsFor site (dev_ID dev) -> band ∈ w_Bands w ->
        Overrides_Apply (Site_Overrides site) (dev_ID dev) w = (w', true) ->
        radiosByBand caps !! band = Some radio -> wired_blind site caps = true ->
        let net := network_of site (w_NetworkID w) in n_Enabled net && (n_VLAN net <=? 1) = false ->
        ("wireless", ifaceName (w_ID w) radio) ∉ stale d e) /\
     (forall m radio, m ∈ MeshesFor site (dev_ID dev) -> radiosByBand caps !! m_Band m = Some radio ->
        undetermined caps FeatMesh = true -> undecided site caps (network_of site (m_NetworkID m)) = true ->
        ("wireless", meshIfaceName (m_ID m) radio) ∉ stale d e) /\
     (forall u w radio, UplinkFor site (dev_ID dev) = Some u -> WLANByID site (u_WLANID u) = Some w ->
        radiosByBand caps !! u_Band u = Some radio ->
        undetermined caps FeatWirelessUplink = true -> undecided site caps (network_of site (w_NetworkID w)) = true ->
        ("wireless", uplinkIfaceName (u_ID u) radio) ∉ stale d e)).
Proof.
  intros H. apply Render_valid in H as (s & Hv & H).
  pose proof (WLANsFor_frame site s [] (dev_ID dev) Hv) as Ewl. pose proof (MeshesFor_frame site s [] (dev_ID dev) Hv) as Eme.
  pose proof (fun id => network_of_frame site s [] id Hv) as Enet.
  pose proof (Validate_frame site s [] Hv) as (_ & En & Ew & _ & Eu & _ & Eov & _).
  assert (Eb : wired_blind s caps = wired_blind site caps) by (unfold wired_blind, wantsVLAN; by rewrite En).
  unfold undecided. unfold UplinkFor, WLANByID. rewrite <- Eb, <- Ewl, <- Eme, <- Eu, <- Ew, <- Eov.
  setoid_rewrite <- Enet. fold (UplinkFor s (dev_ID dev)). split.
  - intros Hb config name Hc. apply not_stale. left.
    apply (start_blind s dev caps e config true (d, r) Hb Hc). unfold render_valid in H.
    destruct (Wireless _); cbn [negb] in H.
    + destruct (validateRadioTargets caps); [done|]. injection H as <-. etrans; [apply reaches_wired|].
      by apply reaches_wireless.
    + injection H as H. rewrite <- H. etrans; [apply reaches_wired|apply reaches_omissions].
  - intros Hwl. unfold render_valid in H. rewrite Hwl in H. cbn [negb] in H.
    destruct (validateRadioTargets caps); [done|]. injection H as H.
    set (wo := render_wired s dev caps e (render_start s dev caps)) in H.
    assert (Hfin : forall o1 ref, reaches s dev caps e true o1 (render_wireless s dev caps e wo) ->
              ref ∈ Retain (fst o1) -> ref ∈ Retain d).
    { intros o1 ref Hre Hin. apply reaches_keeps in Hre as (_ & Hre & _). rewrite H in Hre. by apply Hre. }
    assert (Hs0 : reaches s dev caps e true (render_start s dev caps) (wireless_start s dev caps wo)).
    { etrans; [apply reaches_wired|apply reaches_wireless_start]. }
    split; [|split; [|split]].
    + intros Hru name. apply not_stale. left.
      destruct (uplink_at s dev caps e true eq_refl wo) as (o1 & H1 & H2).
      assert (Hre : reaches s dev caps e true (wireless_start s dev caps wo) (d, r)).
      { rewrite <- H. etrans; [exact H1|]. etrans; [by apply reaches_uplink|exact H2]. }
      apply reaches_keeps in Hre as (_ & _ & Hre). apply Hre. unfold wireless_start. rewrite Hru.
      destruct (if _ : bool then _ else wo) as [d0 r0]. cbn. apply elem_of_app. right. by left.
    + intros w w' band radio Hw Hband Hov Hr Hwb Hnet. apply not_stale. right. left.
      destruct (wlan_at s dev caps e true eq_refl wo w Hw) as (o1 & H1 & H2). eapply Hfin; [exact H2|].
      apply (wlan_kept s dev caps e true o1 w w' band radio); try done; [|by etrans].
      etrans; [apply reaches_start|]. by etrans.
    + intros m radio Hm Hr Hu Hun. apply not_stale.
      destruct (mesh_at s dev caps e true eq_refl wo m Hm) as (o1 & H1 & H2).
      destruct (mesh_kept s dev caps e true o1 m radio) as [Hf|Hret]; [by etrans|done|done|done| |].
      * right. right. left. unfold foreign_wireless in Hf. by bool_prop.
      * right. left. by eapply Hfin.
    + intros u w radio Hu Hw Hr Hun Hnet. apply not_stale. right. left.
      destruct (uplink_at s dev caps e true eq_refl wo) as (o1 & H1 & H2). eapply Hfin; [exact H2|].
      apply (uplink_kept s dev caps e true o1 u w radio); try done. by etrans.
Qed.

(** ** Accounting for WLANs *)

(** What became of one WLAN on one band of a device whose wired half carries its
    network: without a radio for the band, an omission that names the WLAN and
    the band; where a section of that name, or another section with that SSID on
    the radio, is not the controller's, a conflict that names it; else the
    section of its settings. *)
Definition band_accounted (site : Site) (caps : option Registry) (e : Existing) (w : WLAN) (band : string) (o : out) : Prop :=
  match radiosByBand caps !! band with
  | None => omit (w_SSID w) (noRadio (radios_unknown caps) band) (radioKind (radios_unknown caps)) ∈ Omissions (snd o)
  | Some radio =>
      let name := ifaceName (w_ID w) radio in
      if foreign_wireless e name then MkConflict "wireless" name (wlan_foreign_reason name) ∈ Conflicts (snd o)
      else match foreignSSIDOnRadio e radio (w_SSID w) name with
           | Some other => MkConflict "wireless" other (ssid_reason (w_SSID w) radio other) ∈ Conflicts (snd o)
           | None => fst (renderWifiIface site w (network_of site (w_NetworkID w)) radio) ∈ Sections (fst o)
           end
  end.
(** A WLAN without its network is left out as a whole, with the reason. *)
Definition unattached (site : Site) (w : WLAN) (o : out) : Prop :=
  omit (w_SSID w) (networkAttachmentOmission (network_of site (w_NetworkID w)) "broadcast this WLAN") KindUnclassified
    ∈ Omissions (snd o).
Definition accounted (site : Site) (caps : option Registry) (e : Existing) (w : WLAN) (band : string) (o : out) : Prop :=
  if networkAttachmentAvailable (fst o) (network_of site (w_NetworkID w))
  then band_accounted site caps e w band o else unattached site w o.

Section Accounting.
Variables (s : Site) (dev : Device) (caps : option Registry) (e : Existing).
Local Notation reach := (reaches s dev caps e true).

Lemma band_accounted_mono w band o o' : reach o o' -> band_accounted s caps e w band o -> band_accounted s caps e w band o'.
Proof.
  intros Hre. pose proof (reaches_keeps _ _ _ _ _ _ _ Hre) as (Hs & _ & _).
  pose proof (reaches_reports _ _ _ _ _ _ _ Hre) as [Hom Hc]. unfold band_accounted.
  destruct (radiosByBand caps !! band); [|auto]. cbv zeta. destruct (foreign_wireless _ _); [auto|].
  destruct (foreignSSIDOnRadio _ _ _ _); auto.
Qed.

Lemma attachment_mono o o' n : reach o o' -> networkAttachmentAvailable (fst o) n = true -> networkAttachmentAvailable (fst o') n = true.
Proof.
  intros Hre. pose proof (reaches_keeps _ _ _ _ _ _ _ Hre) as (Hs & _ & _). unfold networkAttachmentAvailable.
  destruct (negb _); [done|]. destruct (_ <=? 1); [done|]. rewrite !existsb_exists. intros (x & Hx & Hp). exists x.
  split; [|done]. apply list_elem_of_In, Hs. by apply list_elem_of_In.
Qed.

(** The wireless half of a render changes no network's attachment. *)
Lemma wireless_attachment o n : networkAttachmentAvailable (fst (render_wireless s dev caps e o)) n = networkAttachmentAvailable (fst o) n.
Proof.
  destruct (appends_wireless s dev caps e o) as (l & Hl & Hnames). unfold networkAttachmentAvailable. rewrite Hl, existsb_app.
  assert (Hno : existsb (fun x => is_section "network" "interface" x && String.eqb (sec_Name x) (networkAttachmentName n)) l = false);
    [|by rewrite Hno, orb_false_r].
  apply existsb_false_iff. intros x Hx. assert (Hr : sec_ref x ∈ map (pair "wireless") (wireless_names s dev caps)).
  { eapply elem_of_sublist; [|exact Hnames]. by apply list_elem_of_fmap_2. }
  apply list_elem_of_fmap in Hr as (name & Hr & _). injection Hr as Hc _. unfold is_section. by rewrite Hc.
Qed.
End Accounting.

Lemma omission_added o om : om ∈ Omissions (snd (add_omissions o [om])).
Proof. destruct o as [d r]. cbn. apply elem_of_app. right. by left. Qed.

Lemma conflict_added o c : c ∈ Conflicts (snd (add_conflicts o [c])).
Proof. destruct o as [d r]. cbn. apply elem_of_app. right. by left. Qed.

Lemma section_added o sec : sec ∈ Sections (fst (add_section o sec)).
Proof. destruct o as [d r]. cbn. apply elem_of_app. right. by left. Qed.

Lemma render_band_accounted s w caps e acc band :
  band_accounted s caps e w band (fst (render_band s w (network_of s (w_NetworkID w)) caps e acc band)).
Proof.
  destruct acc as [o k]. unfold render_band, band_accounted.
  destruct (radiosByBand caps !! band) as [radio|] eqn:Hr; [|cbn [fst]; apply omission_added].
  cbv zeta. destruct (foreign_wireless _ _); [cbn [fst]; apply conflict_added|].
  destruct (foreignSSIDOnRadio _ _ _ _); [cbn [fst]; apply conflict_added|].
  destruct (renderWifiIface _ _ _ _) as [sec oms]. cbn [fst]. rewrite sections_omissions. apply section_added.
Qed.

(** Each band's step within the loop over them. *)
Lemma bands_at (R : out -> out -> Prop) `{!PreOrder R} {A} (f : out * Z -> A -> out * Z) l x acc : x ∈ l ->
  (forall acc y, y ∈ l -> R (fst acc) (fst (f acc y))) ->
  exists acc1, R (fst (f acc1 x)) (fst (fold_left f l acc)).
Proof.
  revert acc. induction l as [|y l IH]; intros acc Hx Hf; [by apply elem_of_nil in Hx|]. cbn [fold_left].
  assert (Hl : forall acc z, z ∈ l -> R (fst acc) (fst (f acc z))) by (intros; apply Hf; by right).
  apply elem_of_cons in Hx as [->|Hx]; [|by apply IH]. exists acc.
  generalize (f acc y). clear -Hl PreOrder0. induction l as [|z l IH]; intros acc; cbn [fold_left]; [reflexivity|].
  etrans; [by apply Hl; left|]. apply IH. intros; apply Hl; by right.
Qed.

Lemma wlan_accounted s dev caps e o w w' band : w ∈ WLANsFor s (dev_ID dev) ->
  Overrides_Apply (Site_Overrides s) (dev_ID dev) w = (w', true) -> band ∈ w_Bands w' ->
  if networkAttachmentAvailable (fst o) (network_of s (w_NetworkID w'))
  then band_accounted s caps e w' band (render_wlan s dev caps e o w)
  else unattached s w' (render_wlan s dev caps e o w).
Proof.
  intros Hw Hov Hb. unfold render_wlan. rewrite Hov. cbn [negb].
  destruct (networkAttachmentAvailable _ _); cbn [negb].
  - destruct (bands_at (reaches s dev caps e true) (render_band s w' (network_of s (w_NetworkID w')) caps e)
      (orderedBands (w_Bands w')) band (o, 0)) as [acc1 Hre].
    + by apply elem_of_orderedBands.
    + intros acc b Hin. apply (reaches_band s dev caps e true eq_refl w w' Hw Hov). by apply elem_of_orderedBands.
    + pose proof (band_accounted_mono s dev caps e w' band _ _ Hre (render_band_accounted s w' caps e acc1 band)) as Ha.
      destruct (fold_left _ _ _) as [o' k]. cbn [fst] in Ha. destruct (_ && _); [|done].
      eapply (band_accounted_mono s dev); [|exact Ha]. apply reaches_omissions.
  - unfold unattached.
    match goal with |- context [if blind (fst ?y) _ then ?x else _] => assert (Hre : reaches s dev caps e true y (if blind (fst y) "network" then x else y)) end.
    { destruct (blind _ _); [|done]. apply reaches_fold. intros. by apply reaches_retain_on. }
    apply reaches_reports in Hre as [Hre _]. apply Hre, omission_added.
Qed.

Lemma accounted_frame site s caps e w band o : SitePolicy.Validate site = (s, []) ->
  accounted s caps e w band o -> accounted site caps e w band o.
Proof.
  intros Hv. pose proof (network_of_frame site s [] (w_NetworkID w) Hv) as En.
  apply Validate_frame in Hv as (Hu & _). unfold accounted, band_accounted, unattached, renderWifiIface, wifi_values.
  by rewrite En, Hu.
Qed.

(** C40. No WLAN disappears silently. On an access point, every WLAN the site
    targets at it is reported as omitted when an override withdraws it. When the
    network it is for does not reach the device's radios, it is reported as
    omitted with that reason. Otherwise each of its bands is accounted for by
    itself: the section of its settings is in the document, on the radio of that
    band, or the report has the omission that names the WLAN and the band, when
    no radio is known for it, or the conflict that names the section in the way,
    when that is not the controller's. *)
Theorem wlans_accounted_for site dev caps e d r w w' published :
  Render site dev caps e = Ok (d, r) -> Wireless (EffectiveFunctions dev) = true ->
  w ∈ WLANsFor site (dev_ID dev) -> Overrides_Apply (Site_Overrides site) (dev_ID dev) w = (w', published) ->
  (published = false ->
     omit (w_SSID w) "not published on this device (per-device override)" KindUnclassified ∈ Omissions r) /\
  (published = true -> forall band, band ∈ w_Bands w -> accounted site caps e w' band (d, r)).
Proof.
  intros H Hwl Hw Hov. apply Render_valid in H as (s & Hv & H).
  rewrite <- (WLANsFor_frame site s [] _ Hv) in Hw.
  pose proof (Validate_frame site s [] Hv) as (_ & _ & _ & _ & _ & _ & Eov & _). rewrite <- Eov in Hov.
  unfold render_valid in H. rewrite Hwl in H. cbn [negb] in H.
  destruct (validateRadioTargets caps); [done|]. injection H as H. set (wo := render_wired s dev caps e (render_start s dev caps)) in H.
  destruct (wlan_at s dev caps e true eq_refl wo w Hw) as (o1 & H1 & H2).
  assert (H3 : reaches s dev caps e true o1 (render_wlan s dev caps e o1 w)) by by apply reaches_wlan.
  assert (H0 : reaches s dev caps e true wo o1) by (etrans; [apply reaches_wireless_start|done]).
  assert (Hatt : forall n, networkAttachmentAvailable (fst o1) n = networkAttachmentAvailable d n).
  { intros n. pose proof (wireless_attachment s dev caps e wo n) as Ew. rewrite H in Ew. cbn [fst] in Ew.
    assert (Hfin : reaches s dev caps e true o1 (d, r)) by (rewrite <- H; by etrans).
    destruct (networkAttachmentAvailable d n) eqn:E.
    - apply (attachment_mono s dev caps e wo); done.
    - destruct (networkAttachmentAvailable (fst o1) n) eqn:E1; [|done].
      pose proof (attachment_mono s dev caps e _ _ n Hfin E1) as E2. cbn [fst] in E2. congruence. }
  rewrite H in H2. split; intros ->.
  - apply reaches_reports in H2 as [H2 _]. apply H2. unfold render_wlan. rewrite Hov. apply omission_added.
  - intros band Hb. apply (accounted_frame site s); [done|]. unfold accounted. cbn [fst]. rewrite <- Hatt.
    assert (Hb' : band ∈ w_Bands w') by (apply fold_scope in Hov as [Hs _]; by rewrite <- Hs in Hb).
    pose proof (wlan_accounted s dev caps e o1 w w' band Hw Hov Hb') as Ha.
    destruct (networkAttachmentAvailable _ _); [by eapply (band_accounted_mono s dev)|].
    apply reaches_reports in H2 as [H2 _]. by apply H2.
Qed.
