(* ===== verification/RenderMatrix.v ===== *)
(** * The rendered zone matrix

    What the firewall sections of a gateway allow between zones: exactly the
    edges of the site's effective matrix, from zones that reject by default. *)

From Stdlib Require Import ZArith Lia Ascii String.
From stdpp Require Import base relations gmap list strings sorting.
From S2P Require Import Prelude GoStr GoFmt ApplyEngine SiteModel SitePolicy Capability RenderPlan RenderPlanSpec.
From S2P Require Import RenderNetwork RenderZones RenderPolicy RenderWireless Render RenderSpec RenderDocSpec RenderNames RenderProps.

Local Open Scope string_scope.
Local Open Scope Z_scope.

(** Where the effective matrix lets a zone forward to; a zone without a row
    reaches the WAN. *)
Definition forward_to (s : Site) (zone : string) : list string :=
  default ["wan"] (policyBySource (EffectiveZonePolicies s) zone).

(** A forwarding from the firewall zone [a] to [b]. *)
Definition forwards (sec : Section) (a b : string) : Prop :=
  sec_Config sec = "firewall" /\ sec_Type sec = "forwarding" /\
  sec_Values sec !! "src" = Some a /\ sec_Values sec !! "dest" = Some b.

(** ** The zones of one document *)

Lemma zone_edges policies e fw group secs :
  render_zone policies e fw group = (secs, []) ->
  exists source, first_seen (map zm_zone group) = [source] /\
    forall a b, (exists sec, sec ∈ secs /\ forwards sec a b) <->
                a = fw /\ exists dest, dest ∈ default ["wan"] (policyBySource policies source) /\ b = fwZoneName dest.
Proof.
  unfold render_zone. intros H. destruct (first_seen (map zm_zone group)) as [|source [|? ?]]; try done.
  exists source. split; [done|].
  destruct (foreignZone e fw).
  { apply (f_equal snd) in H. cbn [snd] in H. by apply app_eq_nil in H as [_ H]. }
  apply (f_equal fst) in H. cbn [fst] in H. subst secs. intros a b. split.
  - intros (sec & Hsec & Hc & Ht & Ha & Hb). revert Hsec.
    rewrite elem_of_cons, !elem_of_app, list_elem_of_fmap. intros [->|[Hsec|[Hsec|(dest & -> & Hd)]]].
    + done.
    + destruct (existsb zm_dhcp4 group); [|by apply elem_of_nil in Hsec].
      unfold dhcp_rules in Hsec. rewrite !elem_of_cons, elem_of_nil in Hsec. by destruct Hsec as [->|[->|?]].
    + destruct (existsb zm_ipv6 group); [|by apply elem_of_nil in Hsec].
      unfold ipv6_rules in Hsec. rewrite !elem_of_cons, elem_of_nil in Hsec. by destruct Hsec as [->|[->|[->|?]]].
    + cbn [forwarding_section sec_Values] in Ha, Hb. rewrite vals_lookup in Ha, Hb. cbn in Ha, Hb. simplify_eq.
      split; [done|]. by exists dest.
  - intros (-> & dest & Hd & ->). exists (forwarding_section fw (safe source) dest). split.
    + rewrite elem_of_cons, !elem_of_app, list_elem_of_fmap. right. right. right. by exists dest.
    + unfold forwards. cbn [forwarding_section sec_Config sec_Type sec_Values]. by rewrite !vals_lookup.
Qed.

Lemma zones_edges members policies e secs : renderZones members policies e = (secs, []) ->
  forall a b, (exists sec, sec ∈ secs /\ forwards sec a b) <->
    exists m dest, m ∈ members /\ a = fwZoneName (zm_zone m) /\
      dest ∈ default ["wan"] (policyBySource policies (zm_zone m)) /\ b = fwZoneName dest.
Proof.
  unfold renderZones. intros H. injection H as <- Hcs. intros a b.
  assert (Hzone : forall m, m ∈ members -> exists secs',
    render_zone policies e (fwZoneName (zm_zone m)) (members_of members (fwZoneName (zm_zone m))) = (secs', [])).
  { intros m Hm. destruct (render_zone policies e (fwZoneName (zm_zone m)) _) as [secs' cs'] eqn:E.
    exists secs'. f_equal. rewrite flat_map_nil in Hcs. change cs' with (snd (secs', cs')). rewrite <- E.
    apply Hcs, list_elem_of_fmap. exists (fwZoneName (zm_zone m)). split; [done|].
    apply elem_of_first_seen, list_elem_of_fmap. by exists m. }
  assert (Hsrc : forall m source, m ∈ members ->
    first_seen (map zm_zone (members_of members (fwZoneName (zm_zone m)))) = [source] -> source = zm_zone m).
  { intros m source Hm Hf. assert (Hin : zm_zone m ∈ [source]); [|by apply list_elem_of_singleton in Hin].
    rewrite <- Hf. apply elem_of_first_seen, list_elem_of_fmap_2. unfold members_of.
    apply list_elem_of_In, List.filter_In. split; [by apply list_elem_of_In|apply String.eqb_refl]. }
  split.
  - intros (sec & Hsec & Hf). apply elem_of_flat_map in Hsec as (r & Hr & Hsec).
    apply list_elem_of_fmap in Hr as (fw & -> & Hfw). apply elem_of_first_seen, list_elem_of_fmap in Hfw as (m & -> & Hm).
    destruct (Hzone m Hm) as [secs' E]. rewrite E in Hsec. apply zone_edges in E as (source & Hs & Hedges).
    apply Hsrc in Hs as ->; [|done]. destruct (Hedges a b) as [He _].
    destruct He as (-> & dest & Hd & ->); [by exists sec|]. by exists m, dest.
  - intros (m & dest & Hm & -> & Hd & ->). destruct (Hzone m Hm) as [secs' E].
    pose proof E as E'. apply zone_edges in E' as (source & Hs & Hedges). apply Hsrc in Hs as ->; [|done].
    destruct (Hedges (fwZoneName (zm_zone m)) (fwZoneName dest)) as [_ (sec & Hsec & Hf)]; [by eauto|].
    exists sec. split; [|done]. apply elem_of_flat_map. exists (secs', []). split; [|done]. rewrite <- E.
    apply list_elem_of_fmap. exists (fwZoneName (zm_zone m)). split; [done|].
    apply elem_of_first_seen, list_elem_of_fmap. by exists m.
Qed.

(** ** The wired half without conflicts *)

Lemma own_conflicts e o sec : Conflicts (snd o) `prefix_of` Conflicts (snd (own_section e o sec)).
Proof.
  destruct o as [d r]. unfold own_section, addOwned. destruct (existsb _ _); [by apply prefix_app_r|].
  destruct (_ && _); [by apply prefix_app_r|]. done.
Qed.

Lemma owns_conflicts e secs o : Conflicts (snd o) `prefix_of` Conflicts (snd (own_sections e o secs)).
Proof. revert o. induction secs as [|sec secs IH]; intros o; [done|]. etrans; [apply own_conflicts|apply IH]. Qed.

Lemma owns_all e secs o : Conflicts (snd (own_sections e o secs)) = [] ->
  Sections (fst (own_sections e o secs)) = (Sections (fst o) ++ secs)%list.
Proof.
  revert o. induction secs as [|sec secs IH]; intros o H; cbn; [by rewrite app_nil_r|].
  unfold own_sections in *. cbn [fold_left] in H. rewrite IH by done.
  pose proof (owns_conflicts e secs (own_section e o sec)) as Hp. unfold own_sections in Hp. rewrite H in Hp.
  apply prefix_nil_inv in Hp. clear IH H. destruct o as [d r]. unfold own_section, addOwned in *.
  destruct (existsb _ _); [cbn in Hp; by apply app_eq_nil in Hp as [_ Hp]|].
  destruct (_ && _); [cbn in Hp; by apply app_eq_nil in Hp as [_ Hp]|]. cbn. by rewrite <- app_assoc.
Qed.

(** The zone members a document's networks contribute. *)
Definition members_for (dev : Device) (caps : option Registry) (e : gmap string (gmap string (gmap string string)))
  (l : list Network) : list zoneMember :=
  flat_map (fun n => let m := snd (renderNetwork n dev caps e) in if String.eqb (zm_iface m) "" then [] else [m]) l.

Lemma networks_members dev caps e l : forall acc,
  snd (fold_left (render_network dev caps e) l acc) = (snd acc ++ members_for dev caps e l)%list.
Proof.
  induction l as [|n l IH]; intros [o ms]; cbn [fold_left members_for flat_map]; [by rewrite app_nil_r|].
  rewrite IH. unfold render_network. destruct (renderNetwork n dev caps e) as [[secs oms] m]. cbn [snd].
  destruct (String.eqb (zm_iface m) ""); [done|]. by rewrite <- app_assoc.
Qed.

(** Networks put nothing into the firewall. *)
Definition no_firewall (o : out) : Prop := forall sec, sec ∈ Sections (fst o) -> sec_Config sec <> "firewall".

Lemma own_no_firewall e o sec : sec_Config sec <> "firewall" -> no_firewall o -> no_firewall (own_section e o sec).
Proof.
  intros Hc Ho. destruct o as [d r]. unfold own_section, addOwned. destruct (existsb _ _); [done|].
  destruct (_ && _); [done|]. intros sec' Hs. cbn in Hs. apply elem_of_app in Hs as [Hs|Hs]; [by apply Ho|].
  by apply list_elem_of_singleton in Hs as ->.
Qed.

Lemma network_no_firewall n dev caps e sec : sec ∈ fst (fst (renderNetwork n dev caps e)) -> sec_Config sec <> "firewall".
Proof.
  unfold renderNetwork. intros H.
  repeat (case_match; cbn [fst snd negb] in H; rewrite ?elem_of_nil in H; try done);
    rewrite ?elem_of_cons, ?elem_of_nil in H;
    repeat match goal with H : _ \/ _ |- _ => destruct H as [->|H] end; subst; done.
Qed.

Lemma sections_no_firewall n m e secs : (forall sec, sec ∈ secs -> sec_Config sec <> "firewall") ->
  forall o, no_firewall o -> no_firewall (fold_left (network_section n m e) secs o).
Proof.
  induction secs as [|sec secs IH]; intros Hs o Ho; [done|]. cbn [fold_left].
  apply IH; [intros; apply Hs; by right|]. unfold network_section.
  assert (Hadd : forall o cs, no_firewall o -> no_firewall (add_conflicts o cs)) by (by intros []).
  destruct (is_section "network" "bridge-vlan" sec), (is_section "network" "interface" sec);
    repeat (apply Hadd || apply own_no_firewall); try done; apply Hs; by left.
Qed.

Lemma patches_no_firewall ps : forall o, no_firewall o -> no_firewall (fold_left own_patch ps o).
Proof.
  induction ps as [|p ps IH]; intros o Ho; [done|]. apply IH. destruct o as [d r].
  unfold own_patch, addPatch. by destruct (existsb _ _).
Qed.

Lemma networks_no_firewall dev caps e l : forall acc, no_firewall (fst acc) ->
  no_firewall (fst (fold_left (render_network dev caps e) l acc)).
Proof.
  induction l as [|n l IH]; intros [o ms] Ho; cbn [fold_left]; [done|]. apply IH. unfold render_network.
  set (o1 := if n_Enabled n && _ && _ then _ else o).
  assert (H1 : no_firewall o1).
  { unfold o1. destruct (_ && _); [|done]. destruct (renderManagementIPv6 n e) as [ps cs].
    apply patches_no_firewall. by destruct o. }
  destruct (renderNetwork n dev caps e) as [[secs oms] m] eqn:E. cbn [fst].
  assert (Hs : forall sec, sec ∈ secs -> sec_Config sec <> "firewall").
  { intros sec Hsec. eapply network_no_firewall. by rewrite E. }
  pose proof (sections_no_firewall n m e secs Hs o1 H1) as Hf.
  by destruct (fold_left _ _ _).
Qed.

Lemma wired_forwardings s dev caps e o : no_firewall o ->
  Conflicts (snd (render_wired s dev caps e o)) = [] ->
  forall a b, (exists sec, sec ∈ Sections (fst (render_wired s dev caps e o)) /\ forwards sec a b) <->
    exists m dest, m ∈ members_for dev caps e (Networks s) /\ a = fwZoneName (zm_zone m) /\
      dest ∈ forward_to s (zm_zone m) /\ b = fwZoneName dest.
Proof.
  intros Ho. unfold render_wired.
  pose proof (networks_members dev caps e (Networks s) (o, [])) as Hm.
  pose proof (networks_no_firewall dev caps e (Networks s) (o, []) Ho) as Hf.
  destruct (fold_left _ _ _) as [o1 members]. cbn [fst snd app] in *. subst members.
  destruct (renderZones _ _ e) as [zsecs zcs] eqn:Ez.
  destruct (renderPolicies _ _ _ _ _) as [[psecs poms] pcs] eqn:Ep. intros Hc.
  rewrite (owns_all e _ _ Hc). pose proof (owns_conflicts e psecs (add_conflicts (add_omissions (own_sections e (add_conflicts o1 zcs) zsecs) poms) pcs)) as H1.
  rewrite Hc in H1. apply prefix_nil_inv in H1.
  assert (H2 : Conflicts (snd (own_sections e (add_conflicts o1 zcs) zsecs)) = []).
  { destruct (own_sections e _ zsecs). cbn in H1. by apply app_eq_nil in H1 as [H1 _]. }
  pose proof (owns_conflicts e zsecs (add_conflicts o1 zcs)) as H3. rewrite H2 in H3. apply prefix_nil_inv in H3.
  assert (zcs = []) as ->. { destruct o1. cbn in H3. by apply app_eq_nil in H3 as [_ H3]. }
  rewrite sections_conflicts, sections_omissions, (owns_all e _ _ H2), sections_conflicts.
  intros a b. rewrite <- (zones_edges _ _ e zsecs Ez a b). split.
  - intros (sec & Hsec & Hfw). exists sec. split; [|done]. destruct Hfw as (Hcfg & Ht & _).
    apply elem_of_app in Hsec as [Hsec|Hsec]; [apply elem_of_app in Hsec as [Hsec|Hsec]; [|done]|].
    + by apply Hf in Hsec.
    + assert (Hk : policy_kind sec) by (eapply policies_kind; by rewrite Ep). destruct Hk as (_ & _ & Hk). rewrite Ht in Hk.
      rewrite !elem_of_cons, elem_of_nil in Hk. by destruct Hk as [?|[?|[?|[?|?]]]].
  - intros (sec & Hsec & Hfw). exists sec. split; [|done]. apply elem_of_app. left. apply elem_of_app. by right.
Qed.

(** ** The whole document *)

(** The gateway serves the network: it gives it an address. *)
Definition served (dev : Device) (caps : option Registry) (e : gmap string (gmap string (gmap string string)))
  (n : Network) : Prop := zm_iface (snd (renderNetwork n dev caps e)) <> "".

Lemma member_zone n dev caps e : served dev caps e n -> zm_zone (snd (renderNetwork n dev caps e)) = zone_label n.
Proof. unfold served, renderNetwork. intros H. repeat (case_match; cbn [snd] in *; try done). Qed.

Lemma elem_of_members_for dev caps e l m : m ∈ members_for dev caps e l <->
  exists n, n ∈ l /\ served dev caps e n /\ m = snd (renderNetwork n dev caps e).
Proof.
  unfold members_for, served. rewrite elem_of_flat_map. split.
  - intros (n & Hn & Hm). exists n. destruct (String.eqb _ "") eqn:E; [by apply elem_of_nil in Hm|]. bool_prop.
    by apply list_elem_of_singleton in Hm as ->.
  - intros (n & Hn & Hs & ->). exists n. split; [done|]. apply String.eqb_neq in Hs as ->. by left.
Qed.

(** The wired sections of a render, and the wireless ones after them. *)
Lemma render_valid_wired s dev caps e d r : render_valid s dev caps e = Ok (d, r) ->
  let wired := render_wired s dev caps e (render_start s dev caps) in
  (Conflicts r = [] -> Conflicts (snd wired) = []) /\
  exists l, Sections d = (Sections (fst wired) ++ l)%list /\ forall sec, sec ∈ l -> sec_Config sec = "wireless".
Proof.
  intros H. cbv zeta. unfold render_valid in H. set (wired := render_wired _ _ _ _ _) in *.
  destruct (Wireless _); cbn [negb] in H.
  - destruct (validateRadioTargets caps); [done|]. injection H as H. split.
    + intros Hc. pose proof (reaches_wireless s dev caps e true eq_refl wired) as [_ _ Hp]. rewrite H in Hp. cbn in Hp.
      rewrite Hc in Hp. by apply prefix_nil_inv in Hp.
    + destruct (appends_wireless s dev caps e wired) as (l & Hl & Hs). rewrite H in Hl. exists l. split; [done|].
      intros sec Hsec. assert (Hin : sec_ref sec ∈ map sec_ref l) by (by apply list_elem_of_fmap_2).
      eapply elem_of_sublist in Hin; [|exact Hs]. by apply list_elem_of_fmap in Hin as (n & [= -> _] & _).
  - destruct wired as [d0 r0]. injection H as <- <-. split; [done|]. exists []. rewrite app_nil_r. split; [done|].
    intros sec Hsec. by apply elem_of_nil in Hsec.
Qed.

Lemma zone_verdicts policies e fw group sec : sec ∈ fst (render_zone policies e fw group) -> sec_Type sec = "zone" ->
  sec_Values sec !! "input" = Some "REJECT" /\ sec_Values sec !! "forward" = Some "REJECT".
Proof.
  unfold render_zone. intros H Ht. repeat case_match; cbn [fst] in H; rewrite ?elem_of_nil in H; try done.
  all: rewrite ?elem_of_cons, ?elem_of_app, ?elem_of_nil, ?list_elem_of_fmap in H.
  all: unfold dhcp_rules, ipv6_rules in H; rewrite ?elem_of_cons, ?elem_of_nil in H.
  all: repeat match goal with H : _ \/ _ |- _ => destruct H as [H|H] end; try (by subst); try done.
  all: try (by destruct H as (dest & -> & _)).
  all: rewrite H; cbn [zone_section sec_Values]; by rewrite !vals_lookup.
Qed.

(** C33. A gateway's firewall is the zone matrix. Without conflicts, the
    forwardings of the document run from the zone of every network the device
    serves to exactly the destinations the effective matrix gives that zone,
    and no other forwarding is rendered; every rendered zone rejects what
    enters the router or crosses zones unless a section says otherwise. *)
Theorem rendered_matrix site dev caps e d r :
  Render site dev caps e = Ok (d, r) ->
  (Conflicts r = [] -> forall a b,
     (exists sec, sec ∈ Sections d /\ forwards sec a b) <->
     exists n dest, n ∈ Networks site /\ served dev caps e n /\ dest ∈ forward_to site (zone_label n) /\
       a = fwZoneName (zone_label n) /\ b = fwZoneName dest) /\
  (forall sec, sec ∈ Sections d -> sec_Config sec = "firewall" -> sec_Type sec = "zone" ->
     sec_Values sec !! "input" = Some "REJECT" /\ sec_Values sec !! "forward" = Some "REJECT").
Proof.
  intros H. apply Render_valid in H as (s & Hv & H). split.
  - intros Hc a b. destruct (render_valid_wired _ _ _ _ _ _ H) as [Hcs (l & Hl & Hw)].
    pose proof (wired_forwardings s dev caps e (render_start s dev caps)
      (fun sec Hs => match proj1 (elem_of_nil sec) Hs with end) (Hcs Hc) a b) as Hf.
    pose proof (Validate_frame site s [] Hv) as (_ & En & _ & _ & _ & _ & _ & Ez & _).
    assert (Ef : forall z, forward_to s z = forward_to site z).
    { intros z. unfold forward_to, EffectiveZonePolicies, ActiveZoneNames. by rewrite En, Ez. }
    rewrite En in Hf. setoid_rewrite elem_of_members_for in Hf. setoid_rewrite Ef in Hf. split.
    + intros (sec & Hsec & Hfw). rewrite Hl in Hsec. apply elem_of_app in Hsec as [Hsec|Hsec].
      * destruct Hf as [Hf _]. destruct Hf as (m & dest & (n & Hn & Hserved & ->) & -> & Hd & ->); [by exists sec|].
        rewrite member_zone in * by done. by exists n, dest.
      * apply Hw in Hsec. destruct Hfw as (Hcfg & _). congruence.
    + intros (n & dest & Hn & Hserved & Hd & -> & ->). destruct Hf as [_ (sec & Hsec & Hfw)].
      * exists (snd (renderNetwork n dev caps e)), dest. rewrite member_zone by done. split_and!; try done. by exists n.
      * exists sec. split; [|done]. rewrite Hl. apply elem_of_app. by left.
  - apply (sections_ind s dev caps e (fun sec => sec_Config sec = "firewall" -> sec_Type sec = "zone" ->
      sec_Values sec !! "input" = Some "REJECT" /\ sec_Values sec !! "forward" = Some "REJECT") (d, r) H).
    + intros sec [n _ Hn|members _ Hz|d' _ Hp] _ Hcfg Ht.
      * by apply network_no_firewall in Hn.
      * unfold renderZones in Hz. cbn [fst] in Hz. apply elem_of_flat_map in Hz as (x & Hx & Hz).
        apply list_elem_of_fmap in Hx as (fw & -> & _). by eapply zone_verdicts.
      * apply policies_kind in Hp as (_ & _ & Hk). rewrite Ht in Hk.
        rewrite !elem_of_cons, elem_of_nil in Hk. by destruct Hk as [?|[?|[?|[?|?]]]].
    + intros sec _ Ha Hcfg. apply air_kind in Ha as (_ & Hc & _). congruence.
Qed.

(** * Access points agree

    The sections of one WLAN on different devices: everything a client roams
    by is the same, whatever the devices, their radios, their configuration
    and their overrides. *)

From Stdlib Require Import ZArith Lia Ascii String.
From stdpp Require Import base relations gmap list strings sorting.
From S2P Require Import Prelude GoStr GoFmt ApplyEngine SiteModel SitePolicy SiteModelSpec Capability RenderPlan.
From S2P Require Import RenderPlanSpec RenderNetwork RenderWireless Render RenderSpec RenderDocSpec RenderNames RenderProps.

Local Open Scope string_scope.
Local Open Scope Z_scope.

(** The options in which two access points of one WLAN may differ: the radio,
    and what an override may change. *)
Definition local_options : list string := ["device"; "hidden"; "isolate"; "bridge_isolate"; "maxassoc"].

(** The rest, as the site model alone determines it. *)
Definition shared_values (s : Site) (w : WLAN) (net : Network) : list (string * string) :=
  let sec := w_Security w in
  let kv := boolOpt (r_KV (w_Roaming w)) in
  ([("mode", "ap"); ("ssid", w_SSID w); ("network", networkAttachmentName net); ("encryption", s_Mode sec)] ++
   (if NeedsKey (s_Mode sec) then [("key", s_Key sec)] else []) ++
   [("ieee80211w", pmf_value sec);
    ("ieee80211r", boolOpt (r_FT (w_Roaming w) && negb (ft_refused w)));
    ("ft_over_ds", boolOpt (r_FTOverDS (w_Roaming w)));
    ("mobility_domain", MobilityDomain (UUID s) (w_ID w));
    ("reassociation_deadline", "20000");
    ("ieee80211k", kv); ("rrm_neighbor_report", kv); ("rrm_beacon_report", kv);
    ("bss_transition", kv); ("wnm_sleep_mode", kv)] ++
   [("wds", if o_AllowUplink (w_Options w) then "1" else "0"); (OwnershipTag, "1")])%list.

Lemma assoc_skip k k' (v : string) l : k <> k' -> assoc k ((k', v) :: l) = assoc k l.
Proof. intros H. cbn. by apply String.eqb_neq in H as ->. Qed.

Lemma assoc_cons_eq k k' (v : string) l l' : assoc k l = assoc k l' -> assoc k ((k', v) :: l) = assoc k ((k', v) :: l').
Proof. intros H. cbn. by rewrite H. Qed.

Lemma wifi_values_shared s w net radio k : k ∉ local_options ->
  assoc k (wifi_values s w net radio) = assoc k (shared_values s w net).
Proof.
  unfold local_options. rewrite !not_elem_of_cons. intros (H1 & H2 & H3 & H4 & H5 & _).
  unfold wifi_values, shared_values.
  destruct (NeedsKey _), (o_Isolate _), (0 <? _); cbn [app];
    repeat first [reflexivity | apply assoc_cons_eq | rewrite assoc_skip by done].
Qed.

(** Overrides keep what [shared_values] reads. *)
Lemma shared_values_overridden s ov id w w' net published : Overrides_Apply ov id w = (w', published) ->
  shared_values s w' net = shared_values s w net.
Proof.
  intros H. apply fold_scope in H as [Hs Ha]. unfold shared_values, ft_refused. rewrite Ha.
  pose proof (f_equal w_ID Hs) as H1. pose proof (f_equal w_SSID Hs) as H2.
  pose proof (f_equal w_Security Hs) as H3. pose proof (f_equal w_Roaming Hs) as H4.
  cbn in H1, H2, H3, H4. by rewrite H1, H2, H3, H4.
Qed.

(** A section with the name of an access point is one of that WLAN. *)
Lemma ap_origin s dev caps e o sec id radio : render_valid s dev caps e = Ok o -> sec ∈ Sections (fst o) ->
  sec_ref sec = ("wireless", ifaceName id radio) ->
  exists w w', w ∈ WLANsFor s (dev_ID dev) /\ w_ID w = id /\ Overrides_Apply (Site_Overrides s) (dev_ID dev) w = (w', true) /\
    sec = fst (renderWifiIface s w' (network_of s (w_NetworkID w)) radio).
Proof.
  intros H Hin Href. revert sec Hin Href.
  apply (sections_ind s dev caps e (fun sec => sec_ref sec = ("wireless", ifaceName id radio) -> exists w w', w ∈ WLANsFor s (dev_ID dev) /\
    w_ID w = id /\ Overrides_Apply (Site_Overrides s) (dev_ID dev) w = (w', true) /\
    sec = fst (renderWifiIface s w' (network_of s (w_NetworkID w)) radio)) o H); intros sec.
  - intros Ho _ [= Hc _]. by apply origin_wired in Ho.
  - intros _ [w w' band radio' Hw Hov _ _ _ Hsec|u w radio' _ _ _ Hsec|m radio' _ _ _ Hsec] [= _ Hname].
    + rewrite Hsec in Hname. cbn [fst renderWifiIface sec_Name] in Hname. rewrite !ifaceName_named in Hname. apply named_inj in Hname as [Hid ->].
      exists w, w'. pose proof (fold_scope _ _ _ _ _ Hov) as [Hs _].
      assert (Hw' : w_ID w' = w_ID w /\ w_NetworkID w' = w_NetworkID w) by (by rewrite <- Hs).
      destruct Hw' as [Hid' Hnet]. rewrite Hnet in Hsec. split_and!; congruence.
    + apply renderUplink_section in Hsec as ->. cbn [sec_Name] in Hname. by rewrite uplinkIfaceName_named, ifaceName_named in Hname.
    + apply renderMesh_section in Hsec as ->. cbn [sec_Name] in Hname. by rewrite meshIfaceName_named, ifaceName_named in Hname.
Qed.

(** Every option of an access point but the local ones is the site's. *)
Lemma ap_values site dev caps e d r sec id radio : Render site dev caps e = Ok (d, r) -> sec ∈ Sections d ->
  sec_ref sec = ("wireless", ifaceName id radio) ->
  exists w, w ∈ WLANs site /\ w_ID w = id /\
    sec_Values sec !! "device" = Some radio /\
    forall k, k ∉ local_options -> sec_Values sec !! k = assoc k (shared_values site w (network_of site (w_NetworkID w))).
Proof.
  intros H Hin Href. apply Render_valid in H as (s & Hv & H).
  destruct (ap_origin s dev caps e (d, r) sec id radio H Hin Href) as (w & w' & Hw & Hid & Hov & ->).
  rewrite (WLANsFor_frame site s [] _ Hv) in Hw. exists w. split; [|split; [done|]].
  - apply list_elem_of_In, List.filter_In in Hw as [Hw _]. by apply list_elem_of_In.
  - rewrite (network_of_frame site s [] _ Hv). split; [by rewrite wifi_lookup|]. intros k Hk. rewrite wifi_lookup, wifi_values_shared by done.
    rewrite (shared_values_overridden s _ _ w w' _ _ Hov). apply Validate_frame in Hv as (Hu & _).
    unfold shared_values. by rewrite Hu.
Qed.

(** C36. Roaming works because nobody configures it by hand: two access points
    that publish one WLAN - on any two devices, with any capabilities, existing
    configuration and overrides - carry the same value in every option except
    the radio and the four a device may override (hidden, isolate and its
    bridge_isolate, maxassoc). That covers SSID, network, security mode, key,
    protected management frames, fast transition with the mobility domain, and
    the acceptance of wireless bridges. *)
Theorem access_points_agree site dev1 dev2 caps1 caps2 e1 e2 d1 d2 r1 r2 sec1 sec2 id radio1 radio2 :
  NoDup (map w_ID (WLANs site)) ->
  Render site dev1 caps1 e1 = Ok (d1, r1) -> Render site dev2 caps2 e2 = Ok (d2, r2) ->
  sec1 ∈ Sections d1 -> sec_ref sec1 = ("wireless", ifaceName id radio1) ->
  sec2 ∈ Sections d2 -> sec_ref sec2 = ("wireless", ifaceName id radio2) ->
  sec_Values sec1 !! "mobility_domain" = Some (MobilityDomain (UUID site) id) /\
  forall k, k ∉ local_options -> sec_Values sec1 !! k = sec_Values sec2 !! k.
Proof.
  intros Hnd H1 H2 Hs1 Hr1 Hs2 Hr2.
  destruct (ap_values _ _ _ _ _ _ _ _ _ H1 Hs1 Hr1) as (w1 & Hw1 & Hid1 & _ & Hv1).
  destruct (ap_values _ _ _ _ _ _ _ _ _ H2 Hs2 Hr2) as (w2 & Hw2 & Hid2 & _ & Hv2).
  assert (w1 = w2).
  { apply list_elem_of_lookup in Hw1 as [i Hi]. apply list_elem_of_lookup in Hw2 as [j Hj].
    assert (i = j); [|congruence]. eapply NoDup_lookup; [exact Hnd|by rewrite list_lookup_fmap, Hi|].
    rewrite list_lookup_fmap, Hj. cbn. congruence. }
  subst w2. split; [|intros k Hk; by rewrite Hv1, Hv2].
  rewrite Hv1 by (unfold local_options; by apply (bool_decide_unpack _); vm_compute). unfold shared_values.
  destruct (NeedsKey _); by rewrite <- Hid1.
Qed.
