(* ===== verification/RenderRuns.v ===== *)
(** * Renders of a concrete site

    The site [home] rendered for a gateway that is also an access point, for a
    plain access point, for a switch and for a device nothing is known of; the
    theorems about renders applied to them, and what the renderer does not
    report. *)

From Stdlib Require Import ZArith Lia Ascii String.
From stdpp Require Import base gmap list strings sorting.
From S2P Require Import Prelude GoStr GoFmt ApplyEngine SiteModel SitePolicy SiteModelSpec SitePolicySpec Capability RenderPlan.
From S2P Require Import RenderPlanSpec RenderNetwork RenderZones RenderPolicy RenderWireless Render RenderSpec.
From S2P Require Import RenderDocSpec RenderNames RenderProps RenderMatrix.

Local Open Scope string_scope.
Local Open Scope Z_scope.

(** ** What is not reported *)

(** A rule without destination zone guards the router itself, but its zone
    name is never empty ([fwZoneName ""] is "net"), so no foreign section of
    the router's input chain is ever held against it. *)
Lemma router_rules_unchecked policy rule e c :
  po_Firewall policy = Some rule -> fr_DestinationZone rule = "" -> c ∈ foreignRuleConflicts policy e ->
  get (section_of e "firewall" (con_Section c)) "dest" ∈ ["net"; "*"].
Proof.
  intros Hp Hd. unfold foreignRuleConflicts. rewrite Hp, Hd. unfold foreign_scan. intros H.
  apply elem_of_flat_map in H as ([name v] & Hin & H). apply elem_of_map_to_list in Hin. cbn [fst snd] in H.
  replace (section_of e "firewall" (con_Section c)) with v.
  - destruct (_ || _); [by apply elem_of_nil in H|]. change (fwZoneName "") with "net" in H.
    change (String.eqb "net" "") with false in H. cbn iota in H.
    destruct (String.eqb (get v "dest") "net") eqn:E1; bool_prop; [rewrite E1; by left|]. cbn [negb andb] in H.
    destruct (String.eqb (get v "dest") "*") eqn:E2; bool_prop; [rewrite E2; right; by left|].
    by apply elem_of_nil in H.
  - unfold section_of. replace (con_Section c) with name; [by rewrite Hin|].
    destruct (_ || _); [by apply elem_of_nil in H|]. cbv zeta in H.
    destruct (if String.eqb (fwZoneName "") "" then _ else _); [by apply elem_of_nil in H|].
    destruct (if String.eqb (get v ".type") "forwarding" then _ else _); [|by apply elem_of_nil in H].
    by apply list_elem_of_singleton in H as ->.
Qed.

Module RenderRuns.
Import Store.
Import SiteRuns.

(** ** Devices *)

Definition gateway : Device := MkDevice 11 "gw" "gateway" (Some ["gateway"; "ap"]).
Definition attic : Device := MkDevice 12 "attic" "ap" None.
Definition closet : Device := MkDevice 12 "closet" "switch" (Some ["switch"]).

Definition dual_band (hw5 hw2 : string) (bridge : string) (mesh : CapState) : Registry :=
  MkRegistry (MkBoard "" "")
    (list_to_map [(FeatMesh, mesh); (FeatFirewall4, Present); (FeatSurvey, Present); (FeatDSA, Present)]) []
    [MkRadio "radio0" "phy0" "phy0" 36 5180 hw5 "5g"; MkRadio "" "phy1" "phy1" 0 0 hw2 "2g"]
    (MkPorts bridge ["lan1"; "lan2"]).

Definition vlan_aware : gmap string (gmap string (gmap string string)) :=
  {["network" := {["lan" := vals [(".type", "interface"); ("proto", "static")];
                   "sw" := vals [(".type", "bridge-vlan"); ("device", "br-lan"); ("vlan", "1")]]};
    "wireless" := {["radio0" := vals [(".type", "wifi-device"); ("channel", "36")];
                    "radio1" := vals [(".type", "wifi-device"); ("disabled", "1")]]}]}.

Definition gw_caps : option Registry := Some (dual_band "MediaTek MT7915E" "MediaTek MT7915E" "br-lan" Present).
Definition attic_caps : option Registry := Some (dual_band "Qualcomm QCA9984" "" "br-lan" NotObservable).

Definition doc_of (r : res error out) : Doc := match r with Ok o => fst o | Err _ => new_doc gateway end.
Definition report_of (r : res error out) : Report := match r with Ok o => snd o | Err _ => no_report end.

Definition gw_render : res error out := Render home gateway gw_caps vlan_aware.
Definition attic_render : res error out := Render home attic attic_caps vlan_aware.
Definition closet_render : res error out := Render home closet gw_caps vlan_aware.

Lemma rendered_ok r : is_ok r = true -> r = Ok (doc_of r, report_of r).
Proof. by destruct r as [[d rep]|]. Qed.

Lemma gw_ok : Render home gateway gw_caps vlan_aware = Ok (doc_of gw_render, report_of gw_render).
Proof. apply rendered_ok. vm_compute. reflexivity. Qed.
Lemma attic_ok : Render home attic attic_caps vlan_aware = Ok (doc_of attic_render, report_of attic_render).
Proof. apply rendered_ok. vm_compute. reflexivity. Qed.
Lemma closet_ok : Render home closet gw_caps vlan_aware = Ok (doc_of closet_render, report_of closet_render).
Proof. apply rendered_ok. vm_compute. reflexivity. Qed.

(** What each of them gets. *)
Example gw_sections : map sec_ref (Sections (doc_of gw_render)) =
  [("network", "oowrt_bv20"); ("network", "oowrt_net_iot"); ("dhcp", "oowrt_dhcp_iot");
   ("network", "oowrt_bv30"); ("network", "oowrt_net_guest_wifi"); ("dhcp", "oowrt_dhcp_guest_wifi");
   ("firewall", "oowrt_zone_iot"); ("firewall", "oowrt_in_iot_dhcp"); ("firewall", "oowrt_in_iot_dns");
   ("firewall", "oowrt_fwd_iot_guests"); ("firewall", "oowrt_fwd_iot_wan");
   ("firewall", "oowrt_zone_guests"); ("firewall", "oowrt_in_guests_dhcp"); ("firewall", "oowrt_in_guests_dns");
   ("firewall", "oowrt_fwd_guests_wan");
   ("firewall", "oowrt_policy_rule_0000000000_1"); ("firewall", "oowrt_policy_dnat_0000000001_2");
   ("network", "oowrt_policy_route_0000000002_3");
   ("firewall", "oowrt_client_block_aabbccddee07_guests"); ("firewall", "oowrt_client_block_aabbccddee07_iot");
   ("dhcp", "oowrt_fixed_aabbccddee02");
   ("wireless", "oowrt_wlan5_radio1"); ("wireless", "oowrt_wlan5_radio0"); ("wireless", "oowrt_mesh9_radio0")].
Proof. vm_compute. reflexivity. Qed.

Example attic_sections : map sec_ref (Sections (doc_of attic_render)) =
  [("network", "oowrt_bv20"); ("network", "oowrt_net_iot"); ("network", "oowrt_bv30"); ("network", "oowrt_net_guest_wifi");
   ("wireless", "oowrt_wlan5_radio1"); ("wireless", "oowrt_wlan5_radio0")].
Proof. vm_compute. reflexivity. Qed.

Lemma home_keyed : keyed home.
Proof.
  split; [by apply (bool_decide_unpack _); vm_compute..|]. intros w Hw.
  apply list_elem_of_singleton in Hw as ->. by apply (bool_decide_unpack _); vm_compute.
Qed.

Definition no_section : Section := MkSection "" "" "" ∅ ∅ [].

(** ** The theorems at these renders *)

Lemma render_role_gating_witness :
  (forall sec, sec ∈ Sections (doc_of closet_render) -> sec_Config sec <> "wireless") /\
  Patches (doc_of closet_render) = [] /\
  exists om, om ∈ Omissions (report_of closet_render) /\ om_WLAN om = "home".
Proof.
  destruct (render_role_gating _ _ _ _ _ _ closet_ok) as (_ & Hw & Hr).
  destruct (Hw eq_refl) as [Hs Hom]. destruct (Hr eq_refl) as [Hp _]. split; [exact Hs|]. split; [exact Hp|].
  apply (Hom home_wifi). apply (list_elem_of_lookup_2 _ 0%nat). vm_compute. reflexivity.
Defined.

Lemma rendered_document_valid_witness :
  RenderPlan.Validate (doc_of gw_render) = None /\
  exists sec, sec ∈ Sections (doc_of gw_render) /\ sec_Values sec !! OwnershipTag = Some "1".
Proof.
  destruct (rendered_document_valid _ _ _ _ _ _ home_keyed gw_ok) as (Hv & _ & Hs). split; [exact Hv|].
  exists (fst (renderWifiIface home home_wifi iot "radio0")).
  assert (Hin : fst (renderWifiIface home home_wifi iot "radio0") ∈ Sections (doc_of gw_render)).
  { apply (list_elem_of_lookup_2 _ 22%nat). vm_compute. reflexivity. }
  split; [exact Hin|]. apply (Hs _ Hin).
Defined.

(** What is planned and pruned for the gateway leaves the operator's bridge
    VLAN alone. *)
Lemma foreign_sections_survive_witness : let dev : Existing := vlan_aware in
  at_ref (view (exec_all (device_ops (doc_of gw_render) (view dev)) dev)) ("network", "sw") = at_ref (view dev) ("network", "sw") /\
  is_Some (at_ref (view dev) ("network", "sw")).
Proof.
  intros dev. assert (Hst : ~ station home gateway gw_caps ("network", "sw")) by (intros (u & radio & _ & _ & [=])).
  assert (Hview : view dev = vlan_aware) by reflexivity.
  assert (Hok : Render home gateway gw_caps (view dev) = Ok (doc_of gw_render, report_of gw_render)) by (rewrite Hview; exact gw_ok).
  assert (Hown : OwnedIn (view dev) "network" "sw" = false) by (vm_compute; reflexivity).
  assert (Hp : ("network", "sw") ∉ map patch_ref (Patches (doc_of gw_render))).
  { assert (E : Patches (doc_of gw_render) = []) by (vm_compute; reflexivity). rewrite E. apply not_elem_of_nil. }
  pose proof (foreign_sections_survive home gateway gw_caps dev (doc_of gw_render) (report_of gw_render) ("network", "sw") Hok Hown Hst) as Hs.
  cbv zeta in Hs. assert (Hsome : is_Some (at_ref (view dev) ("network", "sw"))) by (vm_compute; eexists; reflexivity).
  destruct (at_ref (view dev) ("network", "sw")) as [old|]; [|by destruct Hsome]. split; [exact (proj1 Hs Hp)|exact Hsome].
Defined.

Lemma access_points_agree_witness :
  exists sec1 sec2, sec1 ∈ Sections (doc_of gw_render) /\ sec2 ∈ Sections (doc_of attic_render) /\
    sec_Values sec1 !! "key" = Some "correct horse" /\ sec_Values sec2 !! "key" = sec_Values sec1 !! "key" /\
    sec_Values sec1 !! "mobility_domain" = Some (MobilityDomain "5b0c" 5).
Proof.
  pose (sec1 := default no_section (Sections (doc_of gw_render) !! 22%nat)).
  pose (sec2 := default no_section (Sections (doc_of attic_render) !! 4%nat)).
  assert (H1 : sec1 ∈ Sections (doc_of gw_render)) by (apply (list_elem_of_lookup_2 _ 22%nat); vm_compute; reflexivity).
  assert (H2 : sec2 ∈ Sections (doc_of attic_render)) by (apply (list_elem_of_lookup_2 _ 4%nat); vm_compute; reflexivity).
  exists sec1, sec2. split; [exact H1|]. split; [exact H2|]. split; [vm_compute; reflexivity|].
  destruct (access_points_agree home gateway attic gw_caps attic_caps vlan_aware vlan_aware
    (doc_of gw_render) (doc_of attic_render) (report_of gw_render) (report_of attic_render) sec1 sec2 5 "radio0" "radio1"
    (k_wlans home home_keyed) gw_ok attic_ok H1 ltac:(vm_compute; reflexivity) H2 ltac:(vm_compute; reflexivity)) as [Hm Hk].
  split; [|exact Hm]. symmetry. apply Hk. by apply (bool_decide_unpack _); vm_compute.
Defined.

(** A forwarding from one zone to another and its network. *)
Lemma rendered_matrix_witness :
  Conflicts (report_of gw_render) = [] /\
  (exists sec, sec ∈ Sections (doc_of gw_render) /\ forwards sec "iot" "guests") /\
  ~ (exists sec, sec ∈ Sections (doc_of gw_render) /\ forwards sec "guests" "iot").
Proof.
  assert (Hc : Conflicts (report_of gw_render) = []) by (vm_compute; reflexivity).
  split; [exact Hc|]. destruct (rendered_matrix _ _ _ _ _ _ gw_ok) as [Hm _]. split.
  - destruct (Hm Hc "iot" "guests") as [_ Hb]. apply Hb. exists iot, "guests". split; [apply (list_elem_of_lookup_2 _ 1%nat); reflexivity|].
    split; [vm_compute; discriminate|]. split; [apply (list_elem_of_lookup_2 _ 0%nat); vm_compute; reflexivity|].
    split; vm_compute; reflexivity.
  - intros Hx. destruct (Hm Hc "guests" "iot") as [Hf _]. destruct (Hf Hx) as (n & dest & Hn & _ & Hd & Ha & Hb).
    apply elem_of_cons in Hn as [->|Hn]; [vm_compute in Ha; discriminate Ha|].
    apply elem_of_cons in Hn as [->|Hn]; [vm_compute in Ha; discriminate Ha|].
    apply list_elem_of_singleton in Hn as ->. assert (Hw : forward_to home (zone_label guest) = ["wan"]) by (vm_compute; reflexivity).
    rewrite Hw in Hd. apply list_elem_of_singleton in Hd as ->. vm_compute in Hb. discriminate Hb.
Defined.

(** ** A device nothing is known of *)

Definition owned_config : gmap string (gmap string (gmap string string)) :=
  {["firewall" := {["oowrt_zone_iot" := vals [(".type", "zone"); (OwnershipTag, "1")]]};
    "wireless" := {["oowrt_wlan5_radio0" := vals [(".type", "wifi-iface"); (OwnershipTag, "1")]]}]}.

Lemma ignorance_never_deletes_witness :
  OwnedIn owned_config "firewall" "oowrt_zone_iot" = true /\ OwnedIn owned_config "wireless" "oowrt_wlan5_radio0" = true /\
  let d := doc_of (Render home gateway None owned_config) in
  Sections d = [] /\ ("firewall", "oowrt_zone_iot") ∉ stale d owned_config /\
  ("wireless", "oowrt_wlan5_radio0") ∉ stale d owned_config.
Proof.
  split; [vm_compute; reflexivity|]. split; [vm_compute; reflexivity|]. intros d.
  assert (H : Render home gateway None owned_config = Ok (d, report_of (Render home gateway None owned_config)))
    by (apply rendered_ok; vm_compute; reflexivity).
  destruct (ignorance_never_deletes _ _ _ _ _ _ H) as [Hw Ha]. destruct (Ha eq_refl) as [Hr _].
  split; [vm_compute; reflexivity|]. split; [|by apply Hr].
  apply Hw; [vm_compute; reflexivity|]. by apply (bool_decide_unpack _); vm_compute.
Defined.

(** A gateway that is no access point keeps the same firewall section, and its
    report says so nowhere: the render ends before [reportBlind]. *)
Definition bare_gateway : Device := MkDevice 13 "bare" "gateway" (Some ["gateway"]).

Lemma blind_unreported_without_ap :
  let o := Render home bare_gateway None owned_config in
  Preserved (doc_of o) owned_config "firewall" "oowrt_zone_iot" = true /\
  blind_kept (doc_of o) owned_config "firewall" = ["oowrt_zone_iot"] /\
  existsb (fun om => String.eqb (om_WLAN om) "firewall") (Omissions (report_of o)) = false /\
  existsb (fun om => String.eqb (om_WLAN om) "firewall")
    (Omissions (report_of (Render home gateway None owned_config))) = true.
Proof. vm_compute. split_and!; reflexivity. Qed.

(** A mesh opened up again: the passphrase and the management frame protection
    of the old section stay on the device, and the device then matches. *)
Definition open_mesh : Mesh := MkMesh 9 "backhaul" 1 2 Band5G "" true.
Definition closed_mesh : Mesh := MkMesh 9 "backhaul" 1 2 Band5G "longenough" true.
Definition mesh_after : gmap string string :=
  vals (mesh_values open_mesh lan "radio0") ∪ vals (mesh_values closed_mesh lan "radio0").

Lemma open_mesh_keeps_key :
  exists sec, fst (renderMesh open_mesh lan "radio0" gw_caps) = Some sec /\ matches sec mesh_after = true /\
    mesh_after !! "key" = Some "longenough" /\ mesh_after !! "ieee80211w" = Some "2" /\
    mesh_after !! "encryption" = Some "none".
Proof. eexists. split; [reflexivity|]. vm_compute. split_and!; reflexivity. Qed.

Lemma wlans_accounted_for_witness :
  accounted home gw_caps vlan_aware home_wifi Band5G (doc_of gw_render, report_of gw_render).
Proof.
  assert (Hw : home_wifi ∈ WLANsFor home (dev_ID gateway)) by (apply (list_elem_of_lookup_2 _ 0%nat); vm_compute; reflexivity).
  destruct (wlans_accounted_for home gateway gw_caps vlan_aware _ _ home_wifi home_wifi true gw_ok
    ltac:(vm_compute; reflexivity) Hw ltac:(vm_compute; reflexivity)) as [_ H].
  apply (H eq_refl). by apply (bool_decide_unpack _); vm_compute.
Defined.
End RenderRuns.
