(* ===== verification/NftPolicy.v ===== *)
(** * Foreign nftables policy (internal/reconcile/firewall_policy.go)

    A site with explicit firewall intent promises that its zone matrix is the
    whole policy of the router. Before planning, the reconciler reads the live
    ruleset and refuses when any policy outside the UCI model is reachable by
    transit traffic: chains and rules are parsed from the JSON that [nft]
    prints, the chains reachable from the transit hooks are walked, and a rule
    counts as foreign unless fw4 generated it, it has no effect, or it is one
    of fw4's uncommented rules. Go ranges over [chains] in map order; what is
    collected is sorted, and the walk's result does not depend on the order. *)

From Stdlib Require Import ZArith Lia Ascii String.
From stdpp Require Import base gmap list strings sorting countable.
From S2P Require Import Prelude GoStr GoFmt Ubus GoJson ApplyEngine RenderPlan SiteModel SitePolicy.

Local Open Scope string_scope.
Local Open Scope Z_scope.

Definition nftRulesetLimit : Z := Z.shiftl 8 20.

Inductive nft_error := errNFTRulesetMalformed | errNFTRulesetTooLarge.

(** ** The ruleset *)

Record nftChainKey := MkKey { nk_Family : string; nk_Table : string; nk_Name : string }.

#[export] Instance nftChainKey_eq_dec : EqDecision nftChainKey.
Proof. solve_decision. Defined.
#[export] Instance nftChainKey_countable : Countable nftChainKey.
Proof.
  refine (inj_countable' (fun k => (nk_Family k, nk_Table k, nk_Name k))
                         (fun x => MkKey x.1.1 x.1.2 x.2) _).
  by intros [].
Defined.

Definition Key_String (k : nftChainKey) : string :=
  nk_Family k ++ "/" ++ nk_Table k ++ "/" ++ nk_Name k.

Record nftChain := MkChain {
  nc_Family : string;
  nc_Table : string;
  nc_Name : string;
  nc_Hook : string;
  nc_Policy : string;
}.

Record nftRule := MkRule {
  nr_Family : string;
  nr_Table : string;
  nr_Chain : string;
  nr_Expr : list json;
  nr_Comment : string;
}.

Record nftPolicyFinding := MkNftFinding { nf_artifact : string; nf_kind : string }.

Record nftRuntime := MkRuntime {
  rt_chains : gmap nftChainKey nftChain;
  rt_rules : gmap nftChainKey (list nftRule);
}.

Definition blank (s : string) : bool := String.eqb s "".

(** Decoding into [nftChain], and the checks on it. *)
Definition dec_chain (j : json) : option nftChain :=
  match struct_fields j with
  | None => None
  | Some l =>
      match str_field "family" l, str_field "table" l, str_field "name" l,
            str_field "hook" l, str_field "policy" l with
      | Some f, Some t, Some n, Some h, Some p =>
          if blank f || blank t || blank n then None else Some (MkChain f t n h p)
      | _, _, _, _, _ => None
      end
  end.

(** [rule.Expr == nil] is refused, an empty list is not. *)
Definition dec_rule (j : json) : option nftRule :=
  match struct_fields j with
  | None => None
  | Some l =>
      match str_field "family" l, str_field "table" l, str_field "chain" l,
            arr_field "expr" l, str_field "comment" l with
      | Some f, Some t, Some c, Some (Some e), Some m =>
          if blank f || blank t || blank c then None else Some (MkRule f t c e m)
      | _, _, _, _, _ => None
      end
  end.

Definition chain_key (c : nftChain) : nftChainKey := MkKey (nc_Family c) (nc_Table c) (nc_Name c).
Definition rule_key (r : nftRule) : nftChainKey := MkKey (nr_Family r) (nr_Table r) (nr_Chain r).

Definition rules_of (rt : nftRuntime) (k : nftChainKey) : list nftRule := default [] (rt_rules rt !! k).

Definition add_chain (rt : nftRuntime) (raw : option json) : option nftRuntime :=
  match raw with
  | None => Some rt
  | Some j =>
      match dec_chain j with
      | None => None
      | Some c => match rt_chains rt !! chain_key c with
                  | Some _ => None
                  | None => Some (MkRuntime (<[chain_key c := c]> (rt_chains rt)) (rt_rules rt))
                  end
      end
  end.

Definition add_rule (rt : nftRuntime) (raw : option json) : option nftRuntime :=
  match raw with
  | None => Some rt
  | Some j =>
      match dec_rule j with
      | None => None
      | Some r => Some (MkRuntime (rt_chains rt)
                          (<[rule_key r := (rules_of rt (rule_key r) ++ [r])%list]> (rt_rules rt)))
      end
  end.

Definition parse_record (rt : nftRuntime) (record : json) : option nftRuntime :=
  match raw_map record with
  | None => None
  | Some o => if Nat.eqb (size o) 0 then None
              else match add_chain rt (o !! "chain") with
                   | None => None
                   | Some rt1 => add_rule rt1 (o !! "rule")
                   end
  end.

Fixpoint parse_records (rt : nftRuntime) (l : list json) : option nftRuntime :=
  match l with
  | [] => Some rt
  | record :: l' => match parse_record rt record with
                    | None => None
                    | Some rt' => parse_records rt' l'
                    end
  end.

(** The list of records in the envelope. A [RawMessage] field that holds
    [null] is not empty and decodes to the nil slice. *)
Definition nft_records (stdout : string) : option (list json) :=
  match ParseJSON stdout with
  | None => None
  | Some j => match struct_fields j with
              | None => None
              | Some l => match jfield "nftables" l with
                          | None => None
                          | Some raw => raw_list raw
                          end
              end
  end.

Definition orphan_rules (rt : nftRuntime) : bool :=
  existsb (fun kv => negb (bool_decide (is_Some (rt_chains rt !! fst kv)))) (map_to_list (rt_rules rt)).

Definition parseNFTRuntime (stdout : string) : res nft_error nftRuntime :=
  if (len stdout =? 0) || (nftRulesetLimit <? len stdout) then
    if nftRulesetLimit <? len stdout then Err errNFTRulesetTooLarge else Err errNFTRulesetMalformed
  else
    match nft_records stdout with
    | None => Err errNFTRulesetMalformed
    | Some records =>
        match parse_records (MkRuntime ∅ ∅) records with
        | None => Err errNFTRulesetMalformed
        | Some rt => if orphan_rules rt then Err errNFTRulesetMalformed else Ok rt
        end
    end.

(** ** Rules *)

(** A statement is an object with one key. *)
Definition statement (e : json) : option (string * json) :=
  match raw_map e with
  | Some o => match map_to_list o with [kv] => Some kv | _ => None end
  | None => None
  end.

Definition observing (kind : string) : bool :=
  existsb (String.eqb kind) ["match"; "counter"; "limit"; "log"; "quota"].

Fixpoint statement_effects (exprs : list json) : option (list string) :=
  match exprs with
  | [] => Some []
  | e :: l =>
      match statement e with
      | None => None
      | Some (kind, _) =>
          match statement_effects l with
          | None => None
          | Some effects => Some (if observing kind then effects else kind :: effects)
          end
      end
  end.

Definition nftRuleEffects (exprs : list json) : option (list string) :=
  option_map sort_strings (statement_effects exprs).

(** The target of a jump: a string, or an object that names it. *)
Definition jump_target (raw : json) : option string :=
  let target := match raw with
                | JStr s => Some s
                | JNull => Some ""
                | JObj l => str_field "target" l
                | _ => None
                end in
  match target with
  | Some t => if blank (TrimSpace t) then None else Some t
  | None => None
  end.

Fixpoint nftRuleTargets (exprs : list json) : option (list string) :=
  match exprs with
  | [] => Some []
  | e :: l =>
      match statement e with
      | None => None
      | Some (kind, raw) =>
          if String.eqb kind "jump" || String.eqb kind "goto" then
            match jump_target raw with
            | None => None
            | Some t => option_map (cons t) (nftRuleTargets l)
            end
          else nftRuleTargets l
      end
  end.

Definition transitHook (hook : string) : bool :=
  existsb (String.eqb (ToLowerRunes (TrimSpace hook)))
    ["ingress"; "prerouting"; "forward"; "postrouting"; "egress"].

Definition in_fw4 (k : nftChainKey) : bool :=
  String.eqb (nk_Family k) "inet" && String.eqb (nk_Table k) "fw4".

Definition stock_chains : list (string * string) :=
  [("input", "input"); ("mangle_input", "input"); ("forward", "forward");
   ("prerouting", "prerouting"); ("dstnat", "prerouting"); ("raw_prerouting", "prerouting");
   ("mangle_prerouting", "prerouting"); ("mangle_forward", "forward");
   ("srcnat", "postrouting"); ("mangle_postrouting", "postrouting")].

Definition stockFW4BaseChain (k : nftChainKey) (hook : string) : bool :=
  in_fw4 k &&
  String.eqb (default "" (list_to_map (M := gmap string string) stock_chains !! nk_Name k)) (ToLowerRunes hook).

Definition generatedFW4Rule (k : nftChainKey) (comment : string) : bool :=
  in_fw4 k && HasPrefix (TrimSpace comment) "!fw4:".

(** [strings.TrimPrefix]. *)
Definition TrimPrefix (p s : string) : string :=
  match strip_prefix (chars p) (chars s) with Some r => of_chars r | None => s end.

Definition zone_verdict (target suffix : string) : bool :=
  existsb (fun verdict => String.eqb target (verdict ++ suffix)) ["accept"; "reject"; "drop"].

Definition stockUncommentedFW4Rule (k : nftChainKey) (exprs : list json) (effects : list string) : bool :=
  match effects with
  | [effect] =>
      if negb (in_fw4 k) then false
      else if String.eqb (nk_Name k) "forward" && String.eqb effect "flow" then true
      else if negb (String.eqb effect "jump") then false
      else match nftRuleTargets exprs with
           | Some [target] =>
               if (String.eqb (nk_Name k) "forward" || String.eqb (nk_Name k) "input") &&
                  String.eqb target "handle_reject" then true
               else if HasPrefix (nk_Name k) "input_" then
                 zone_verdict target ("_from_" ++ TrimPrefix "input_" (nk_Name k))
               else if HasPrefix (nk_Name k) "forward_" then
                 zone_verdict target ("_to_" ++ TrimPrefix "forward_" (nk_Name k))
               else false
           | _ => false
           end
  | _ => false
  end.

(** ** The walk *)

Definition start_chain (includeInput : bool) (c : nftChain) : bool :=
  transitHook (nc_Hook c) || (includeInput && EqualFold (TrimSpace (nc_Hook c)) "input").

Definition key_le (a b : nftChainKey) : Prop := str_le (Key_String a) (Key_String b).
#[export] Instance key_le_dec a b : Decision (key_le a b).
Proof. unfold key_le. apply _. Defined.

Definition starts_of (rt : nftRuntime) (includeInput : bool) : list nftChainKey :=
  merge_sort key_le
    (map fst (List.filter (fun kv => start_chain includeInput (snd kv)) (map_to_list (rt_chains rt)))).

(** A base chain whose own policy is not to accept. *)
Definition policy_findings (rt : nftRuntime) (includeInput : bool) : list nftPolicyFinding :=
  flat_map (fun kv =>
    let '(k, c) := kv in
    if start_chain includeInput c && negb (blank (nc_Policy c)) &&
       negb (String.eqb (ToLowerRunes (nc_Policy c)) "accept") && negb (stockFW4BaseChain k (nc_Hook c))
    then [MkNftFinding (Key_String k) "base-chain policy"] else [])
    (map_to_list (rt_chains rt)).

(** The chains one rule adds to the queue, and the chains of all of them. *)
Fixpoint enqueue_targets (rt : nftRuntime) (reachable : gset nftChainKey) (k : nftChainKey)
    (targets : list string) : option (list nftChainKey) :=
  match targets with
  | [] => Some []
  | t :: l =>
      let next := MkKey (nk_Family k) (nk_Table k) t in
      match rt_chains rt !! next with
      | None => None
      | Some _ => match enqueue_targets rt reachable k l with
                  | None => None
                  | Some more => Some (if bool_decide (next ∈ reachable) then more else next :: more)
                  end
      end
  end.

Fixpoint enqueue_rules (rt : nftRuntime) (reachable : gset nftChainKey) (k : nftChainKey)
    (rules : list nftRule) : option (list nftChainKey) :=
  match rules with
  | [] => Some []
  | r :: l =>
      match nftRuleTargets (nr_Expr r) with
      | None => None
      | Some targets =>
          match enqueue_targets rt reachable k targets, enqueue_rules rt reachable k l with
          | Some a, Some b => Some (a ++ b)%list
          | _, _ => None
          end
      end
  end.

(** The loop over the queue; [None] is running out of fuel. *)
Fixpoint walk (fuel : nat) (rt : nftRuntime) (queue : list nftChainKey) (reachable : gset nftChainKey)
    : option (res nft_error (gset nftChainKey)) :=
  match queue with
  | [] => Some (Ok reachable)
  | k :: queue' =>
      match fuel with
      | O => None
      | S f =>
          if bool_decide (k ∈ reachable) then walk f rt queue' reachable
          else
            let reachable' := {[k]} ∪ reachable in
            match enqueue_rules rt reachable' k (rules_of rt k) with
            | None => Some (Err errNFTRulesetMalformed)
            | Some more => walk f rt (queue' ++ more)%list reachable'
            end
      end
  end.

(** One step for every start and for every statement of the ruleset. *)
Definition statements (rules : list nftRule) : nat := sum_list (map (fun r => length (nr_Expr r)) rules).
Definition walk_fuel (rt : nftRuntime) (queue : list nftChainKey) : nat :=
  (length queue + sum_list (map (fun kv => statements (snd kv)) (map_to_list (rt_rules rt))))%nat.

Fixpoint chain_findings (k : nftChainKey) (rules : list nftRule) : option (list nftPolicyFinding) :=
  match rules with
  | [] => Some []
  | r :: l =>
      if generatedFW4Rule k (nr_Comment r) then chain_findings k l
      else match nftRuleEffects (nr_Expr r) with
           | None => None
           | Some effects =>
               let rest := chain_findings k l in
               if Nat.eqb (length effects) 0 || stockUncommentedFW4Rule k (nr_Expr r) effects then rest
               else option_map (cons (MkNftFinding (Key_String k) "rule")) rest
           end
  end.

Fixpoint rule_findings (rt : nftRuntime) (keys : list nftChainKey) : option (list nftPolicyFinding) :=
  match keys with
  | [] => Some []
  | k :: l => match chain_findings k (rules_of rt k), rule_findings rt l with
              | Some a, Some b => Some (a ++ b)%list
              | _, _ => None
              end
  end.

Definition finding_le (a b : nftPolicyFinding) : Prop :=
  if String.eqb (nf_artifact a) (nf_artifact b) then str_le (nf_kind a) (nf_kind b)
  else str_le (nf_artifact a) (nf_artifact b).
#[export] Instance finding_le_dec a b : Decision (finding_le a b).
Proof. unfold finding_le. case_match; apply _. Defined.

Definition first_artifact (l : list nftPolicyFinding) : string :=
  match merge_sort finding_le l with
  | [] => ""
  | f :: _ => nf_artifact f
  end.

Definition foreignPolicy (rt : nftRuntime) (includeInput : bool) : option (res nft_error string) :=
  let starts := starts_of rt includeInput in
  match walk (walk_fuel rt starts) rt starts ∅ with
  | None => None
  | Some (Err e) => Some (Err e)
  | Some (Ok reachable) =>
      match rule_findings rt (merge_sort key_le (elements reachable)) with
      | None => Some (Err errNFTRulesetMalformed)
      | Some found => Some (Ok (first_artifact (policy_findings rt includeInput ++ found)%list))
      end
  end.

Definition foreignNFTRuntimePolicyScope (stdout : string) (includeInput : bool)
    : option (res nft_error string) :=
  match parseNFTRuntime stdout with
  | Err e => Some (Err e)
  | Ok rt => foreignPolicy rt includeInput
  end.

(** ** The check before a plan *)

Definition uciFalse (value : string) : bool :=
  existsb (String.eqb (ToLowerRunes (TrimSpace value))) ["0"; "false"; "no"; "off"].

(** An include section that fw4 runs, as far as UCI can tell. *)
Definition active_include (values : options) : bool :=
  if negb (String.eqb (get values ".type") "include") || uciFalse (get values "enabled") ||
     blank (TrimSpace (get values "path"))
  then false
  else
    let t := ToLowerRunes (TrimSpace (get values "type")) in
    let includeType := if blank t then "script" else t in
    if String.eqb includeType "script" then
      let present := bool_decide (is_Some (values !! "fw4_compatible")) in
      negb (uciFalse (get values "fw4_compatible") ||
            (negb present && String.eqb (get values "path") "/etc/firewall.user"))
    else true.

Definition activeFirewallInclude (existing : Existing) : option string :=
  let sections := In_ existing "firewall" in
  List.find (fun name => active_include (default ∅ (sections !! name))) (sort_strings (keys sections)).

Definition enforcesExplicitZonePolicy (site : Site) (dev : Device) : bool :=
  Routes (EffectiveFunctions dev) && HasExplicitFirewallIntent site.

Definition hasRouterInputPolicy (site : Site) : bool :=
  existsb (fun p => po_Enabled p && String.eqb (po_Kind p) PolicyFirewallRule &&
                    match po_Firewall p with Some f => blank (fr_DestinationZone f) | None => false end)
          (Policies site).

Definition unobservableNFTConflict (detail : string) : Conflict :=
  MkConflict "firewall" "runtime-nftables"
    (msg ("%s, so active nftables policy cannot be verified with the controller's exact read-only nft grant. " ++
          "Explicit directional zone policy is blocked; restore device reachability or the ACL grant for " ++
          "`/usr/sbin/nft --terse --json list ruleset`, then preview again") [VS detail]).

Definition include_conflict (name : string) : Conflict :=
  MkConflict "firewall" name
    (msg ("active foreign firewall include %s can install policy outside the UCI sections oonfeeWRT can prove. " ++
          "Explicit directional zone policy is blocked because the matrix cannot be guaranteed; disable or " ++
          "remove the include, convert its policy to visible UCI sections, or reset the zone matrix to " ++
          "inherited defaults, then preview again") [VS name]).

Definition artifact_conflict (artifact : string) : Conflict :=
  MkConflict "firewall" "runtime-nftables"
    (msg ("active nftables policy was found at %s outside the UCI policy model. Explicit directional zone " ++
          "policy is blocked because the matrix cannot be guaranteed; remove or narrow the custom nft hook or " ++
          "rule (including /etc/nftables.d snippets), or reset the zone matrix to inherited defaults, then " ++
          "preview again") [VS artifact]).

Record nftExecResult := MkExec { ne_Code : Z; ne_Stdout : string }.

Definition dec_exec (j : json) : option nftExecResult :=
  match struct_fields j with
  | None => None
  | Some l => match int_field "code" l, str_field "stdout" l with
              | Some c, Some s => Some (MkExec c s)
              | _, _ => None
              end
  end.

Definition nft_args : json :=
  JObj [("command", JStr "/usr/sbin/nft");
        ("params", JArr [JStr "--terse"; JStr "--json"; JStr "list"; JStr "ruleset"])].

Section Check.
Context {W : Type} `{World W}.

(** The caller is the reconciler's client, never nil. *)
Definition readNFTRuleset : M (cstate W) (res err string) :=
  do r <- Call dec_exec (MkExec 0 "") "file" "exec" nft_args;
  ret (match r with
       | Err e => Err e
       | Ok out => if negb (ne_Code out =? 0)
                   then Err (MsgError (errf "nft exited with status %d" [VD (ne_Code out)]) [])
                   else Ok (ne_Stdout out)
       end).

(** [None] inside is running out of fuel, which [foreignPolicy_returns] rules
    out; it is reported like an unreadable ruleset. *)
Definition explicitFirewallPolicyConflict (site : Site) (dev : Device) (existing : Existing)
    : M (cstate W) (option Conflict) :=
  if negb (enforcesExplicitZonePolicy site dev) then ret None
  else
    match activeFirewallInclude existing with
    | Some name => ret (Some (include_conflict name))
    | None =>
        do r <- readNFTRuleset;
        ret (match r with
             | Err _ => Some (unobservableNFTConflict "the device did not return the ruleset")
             | Ok stdout =>
                 match foreignNFTRuntimePolicyScope stdout
                         (hasRouterInputPolicy site || negb (Nat.eqb (length (ActiveZoneNames site)) 0)) with
                 | Some (Ok artifact) => if blank artifact then None else Some (artifact_conflict artifact)
                 | Some (Err errNFTRulesetTooLarge) =>
                     Some (unobservableNFTConflict
                             (errf "the returned ruleset exceeded the %d MiB inspection limit"
                                [VD (Z.shiftr nftRulesetLimit 20)]))
                 | Some (Err errNFTRulesetMalformed) | None =>
                     Some (unobservableNFTConflict "the returned ruleset was unreadable")
                 end
             end)
    end.
End Check.
