(* ===== verification/NftPolicySpec.v ===== *)
(** * What the foreign-policy check proves

    The walk over the chains returns, and visits exactly the chains reachable
    from the transit hooks; the check answers with no artifact exactly when
    nothing foreign is reachable, and otherwise with the least offending chain.
    A preview of an explicit matrix on a router goes through only on that
    proof, made on the ruleset the device returned. *)

From Stdlib Require Import ZArith Lia Ascii String.
From stdpp Require Import base gmap list strings sorting relations.
From S2P Require Import Prelude GoStr GoFmt Ubus UbusTrace GoJson ApplyEngine RenderPlan SiteModel SitePolicy.
From S2P Require Import NftPolicy.

Local Open Scope string_scope.
Local Open Scope Z_scope.

(** ** The specification *)

Section Spec.
Variables (rt : nftRuntime) (includeInput : bool).

(** A rule of [k] jumps or goes to [k']. *)
Definition leads_to (k k' : nftChainKey) : Prop :=
  exists r ts t, r ∈ rules_of rt k /\ nftRuleTargets (nr_Expr r) = Some ts /\ t ∈ ts /\
                 k' = MkKey (nk_Family k) (nk_Table k) t.

Definition is_start (k : nftChainKey) : Prop :=
  exists c, rt_chains rt !! k = Some c /\ start_chain includeInput c = true.

(** Transit traffic can get to the chain [k]. *)
Definition reachable (k : nftChainKey) : Prop := exists s, is_start s /\ rtc leads_to s k.

(** The rule only selects, counts or logs packets. *)
Definition observes (r : nftRule) : Prop :=
  Forall (fun e => exists kind raw, statement e = Some (kind, raw) /\ observing kind = true) (nr_Expr r).

Definition stock (k : nftChainKey) (r : nftRule) : Prop :=
  exists effects, nftRuleEffects (nr_Expr r) = Some effects /\
                  stockUncommentedFW4Rule k (nr_Expr r) effects = true.

Definition harmless (k : nftChainKey) (r : nftRule) : Prop :=
  generatedFW4Rule k (nr_Comment r) = true \/ observes r \/ stock k r.

(** Every jump of the rule can be read and leads to a chain that exists. *)
Definition readable (k : nftChainKey) (r : nftRule) : Prop :=
  exists ts, nftRuleTargets (nr_Expr r) = Some ts /\
    Forall (fun t => is_Some (rt_chains rt !! MkKey (nk_Family k) (nk_Table k) t)) ts.

Definition default_ok (k : nftChainKey) (c : nftChain) : Prop :=
  nc_Policy c = "" \/ ToLowerRunes (nc_Policy c) = "accept" \/ stockFW4BaseChain k (nc_Hook c) = true.

(** The chain holds policy of its own. *)
Definition offends (k : nftChainKey) : Prop :=
  (reachable k /\ exists r, r ∈ rules_of rt k /\ ~ harmless k r) \/
  (exists c, rt_chains rt !! k = Some c /\ start_chain includeInput c = true /\ ~ default_ok k c).

(** Every rule in reach can be read. *)
Definition all_readable : Prop := forall k r, reachable k -> r ∈ rules_of rt k -> readable k r.

(** Nothing in reach of transit traffic makes policy of its own. *)
Definition no_foreign_policy : Prop :=
  all_readable /\
  (forall k r, reachable k -> r ∈ rules_of rt k -> harmless k r) /\
  (forall k c, rt_chains rt !! k = Some c -> start_chain includeInput c = true -> default_ok k c).
End Spec.

(** ** Rules *)

Lemma targets_length e : forall ts, nftRuleTargets e = Some ts -> (length ts <= length e)%nat.
Proof.
  induction e as [|x e IH]; intros ts; simpl; [by intros [= <-]|].
  destruct (statement x) as [[kind raw]|]; [|done]. case_match.
  - destruct (jump_target raw); [|done]. destruct (nftRuleTargets e) as [l|]; [|done].
    intros [= <-]. simpl. specialize (IH l eq_refl). lia.
  - intros H1%IH. lia.
Qed.

(** Targets can only be read when every statement can. *)
Lemma targets_statements e : forall ts, nftRuleTargets e = Some ts -> exists l, statement_effects e = Some l.
Proof.
  induction e as [|x e IH]; intros ts; simpl; [by eexists|].
  destruct (statement x) as [[kind raw]|]; [|done]. intros H.
  assert (exists l, statement_effects e = Some l) as [l ->].
  { case_match; [|by eapply IH]. destruct (jump_target raw); [|done].
    destruct (nftRuleTargets e); [|done]. by eapply IH. }
  by eexists.
Qed.

Lemma effect_free e : statement_effects e = Some [] <->
  Forall (fun x => exists kind raw, statement x = Some (kind, raw) /\ observing kind = true) e.
Proof.
  induction e as [|x e IH]; simpl; [split; [constructor|done]|].
  rewrite Forall_cons, <- IH. destruct (statement x) as [[kind raw]|].
  - destruct (statement_effects e) as [l|].
    + destruct (observing kind) eqn:Eo; split.
      * intros [= ->]. split; [by eauto|done].
      * by intros [_ ->].
      * done.
      * intros [(k0 & r0 & [= <- <-] & Ho) _]. congruence.
    + split; [done|by intros [_ ?]].
  - split; [done|by intros [(? & ? & ? & _) _]].
Qed.

Lemma sort_strings_nil l : sort_strings l = [] <-> l = [].
Proof.
  split; [|by intros ->]. intros H. apply Permutation_nil. rewrite <- H.
  apply merge_sort_Permutation.
Qed.

Lemma effects_spec r : forall effects, nftRuleEffects (nr_Expr r) = Some effects ->
  Nat.eqb (length effects) 0 = true <-> observes r.
Proof.
  intros effects. unfold nftRuleEffects, observes. rewrite <- effect_free.
  destruct (statement_effects (nr_Expr r)) as [l|]; [|done]. intros [= <-].
  rewrite Nat.eqb_eq, length_zero_iff_nil, sort_strings_nil. split; [by intros ->|by intros [= ->]].
Qed.

Lemma harmless_iff k r effects : nftRuleEffects (nr_Expr r) = Some effects ->
  harmless k r <->
  generatedFW4Rule k (nr_Comment r) = true \/
  Nat.eqb (length effects) 0 || stockUncommentedFW4Rule k (nr_Expr r) effects = true.
Proof.
  intros He. unfold harmless, stock. rewrite orb_true_iff, (effects_spec r effects He).
  split; [intros [?|[?|(e & E & ?)]]|intros [?|[?|?]]]; eauto 6.
  rewrite He in E. injection E as <-. eauto.
Qed.

(** One chain's findings: one for every rule that is not harmless. *)
Lemma chain_findings_total k rules :
  Forall (fun r => is_Some (nftRuleEffects (nr_Expr r))) rules -> is_Some (chain_findings k rules).
Proof.
  induction 1 as [|r rules [effects He] _ [l IH]]; simpl; [by eexists|]. rewrite He, IH.
  repeat case_match; by eexists.
Qed.

Lemma chain_findings_spec k rules l : chain_findings k rules = Some l ->
  Forall (fun f => f = MkNftFinding (Key_String k) "rule" /\ exists r, r ∈ rules /\ ~ harmless k r) l /\
  (l = [] -> Forall (harmless k) rules).
Proof.
  revert l. induction rules as [|r rules IH]; simpl; intros l; [intros [= <-]; split; [constructor|constructor]|].
  assert (K : forall l0, chain_findings k rules = Some l0 -> (l0 = [] -> harmless k r) ->
    Forall (fun f => f = MkNftFinding (Key_String k) "rule" /\
                     exists r0, r0 ∈ r :: rules /\ ~ harmless k r0) l0 /\
    (l0 = [] -> Forall (harmless k) (r :: rules))).
  { intros l0 Hl Hr. destruct (IH l0 Hl) as [H1 H2]. split; [|intros; constructor; auto].
    eapply Forall_impl; [exact H1|]. intros f [-> (r0 & Hr0 & Hh)]. split; [done|]. exists r0. split; [by right|done]. }
  destruct (generatedFW4Rule k (nr_Comment r)) eqn:Eg; [intros Hl; apply K; [done|]; by left|].
  destruct (nftRuleEffects (nr_Expr r)) as [effects|] eqn:Ee; [|done].
  pose proof (harmless_iff k r effects Ee) as Hh.
  destruct (Nat.eqb (length effects) 0 || stockUncommentedFW4Rule k (nr_Expr r) effects).
  - intros Hl. apply K; [done|]. intros _. apply Hh. by right.
  - destruct (chain_findings k rules) as [l0|] eqn:El; [|done]. intros [= <-]. split; [|done].
    destruct (IH l0 eq_refl) as [H1 _]. constructor.
    + split; [done|]. exists r. split; [left|]. rewrite Hh, Eg. by intros [?|?].
    + eapply Forall_impl; [exact H1|]. intros f [-> (r0 & Hr0 & Hn)]. split; [done|].
      exists r0. split; [by right|done].
Qed.

(** ** The queue *)

Section Walk.
Variable rt : nftRuntime.

Definition names_chain (k : nftChainKey) (t : string) : nftChainKey := MkKey (nk_Family k) (nk_Table k) t.

Lemma enqueue_targets_spec seen k ts :
  (forall more, enqueue_targets rt seen k ts = Some more ->
     Forall (fun t => is_Some (rt_chains rt !! names_chain k t)) ts /\
     (length more <= length ts)%nat /\
     forall k', k' ∈ more <-> k' ∉ seen /\ exists t, t ∈ ts /\ k' = names_chain k t) /\
  (enqueue_targets rt seen k ts = None ->
     exists t, t ∈ ts /\ rt_chains rt !! names_chain k t = None).
Proof.
  induction ts as [|t ts [IH1 IH2]]; simpl.
  { split; [|done]. intros more [= <-]. split_and!; [constructor|simpl; lia|set_solver]. }
  fold (names_chain k t). destruct (rt_chains rt !! names_chain k t) eqn:Ec;
    [|split; [done|exists t; split; [left|done]]].
  destruct (enqueue_targets rt seen k ts) as [l|]; split; [|done|done|].
  - intros more [= <-]. destruct (IH1 l eq_refl) as (Hf & Hn & Hl).
    assert (Hs : is_Some (rt_chains rt !! names_chain k t)) by by eexists. split_and!.
    + by constructor.
    + case_bool_decide; simpl; lia.
    + intros k'. case_bool_decide as Hin; rewrite ?elem_of_cons, Hl; split.
      * intros [Hk (t0 & Ht & ->)]. split; [done|]. exists t0. split; [by right|done].
      * intros [Hk (t0 & [->|Ht]%elem_of_cons & ->)]; [done|]. split; [done|by exists t0].
      * intros [->|[Hk (t0 & Ht & ->)]]; split; try done; [exists t|exists t0]; split; try done; [left|by right].
      * intros [Hk (t0 & [->|Ht]%elem_of_cons & ->)]; [by left|]. right. split; [done|by exists t0].
  - intros _. destruct IH2 as (t0 & Ht & Hn); [done|]. exists t0. split; [by right|done].
Qed.

Lemma enqueue_rules_spec seen k rules :
  (forall more, enqueue_rules rt seen k rules = Some more ->
     Forall (readable rt k) rules /\
     (length more <= statements rules)%nat /\
     forall k', k' ∈ more <-> k' ∉ seen /\ exists r ts t,
       r ∈ rules /\ nftRuleTargets (nr_Expr r) = Some ts /\ t ∈ ts /\ k' = names_chain k t) /\
  (enqueue_rules rt seen k rules = None -> exists r, r ∈ rules /\ ~ readable rt k r).
Proof.
  induction rules as [|r rules [IH1 IH2]]; simpl.
  { split; [|done]. intros more [= <-]. split_and!; [constructor|simpl; lia|set_solver]. }
  destruct (nftRuleTargets (nr_Expr r)) as [ts|] eqn:Et;
    [|split; [done|]; intros _; exists r; split; [left|intros (ts & ? & _); congruence]].
  pose proof (targets_length _ _ Et) as Hlen. destruct (enqueue_targets_spec seen k ts) as [T1 T2].
  destruct (enqueue_targets rt seen k ts) as [a|]; cycle 1.
  { split; [done|]. intros _. destruct T2 as (t & Ht & Hn); [done|]. exists r. split; [left|].
    intros (ts0 & E0 & Hf). rewrite Et in E0. injection E0 as <-. rewrite Forall_forall in Hf.
    specialize (Hf t Ht) as [? ?]. unfold names_chain in Hn. congruence. }
  destruct (T1 a eq_refl) as (F1 & L1 & M1).
  destruct (enqueue_rules rt seen k rules) as [b|]; split; [|done|done|].
  - intros more [= <-]. destruct (IH1 b eq_refl) as (F2 & L2 & M2). split_and!.
    + constructor; [by exists ts|done].
    + rewrite length_app. unfold statements in *. simpl. lia.
    + intros k'. rewrite elem_of_app, M1, M2. split.
      * intros [(Hk & t & Ht & ->)|(Hk & r0 & ts0 & t & Hr & E0 & Ht & ->)]; (split; [done|]).
        -- exists r, ts, t. split_and!; [left|done..].
        -- exists r0, ts0, t. split_and!; [by right|done..].
      * intros (Hk & r0 & ts0 & t & [->|Hr]%elem_of_cons & E0 & Ht & ->).
        -- left. split; [done|]. exists t. split; [congruence|done].
        -- right. split; [done|]. by exists r0, ts0, t.
  - intros _. destruct IH2 as (r0 & Hr & Hn); [done|]. exists r0. split; [by right|done].
Qed.

Lemma leads_to_more seen k more : enqueue_rules rt seen k (rules_of rt k) = Some more ->
  forall k', k' ∈ more <-> k' ∉ seen /\ leads_to rt k k'.
Proof.
  intros H k'. destruct (enqueue_rules_spec seen k (rules_of rt k)) as [E _].
  destruct (E more H) as (_ & _ & ->). done.
Qed.

(** What is still to be queued from chains not seen yet. *)
Definition weight (l : list (nftChainKey * list nftRule)) (seen : gset nftChainKey) : nat :=
  sum_list (map (fun kv => if bool_decide (kv.1 ∈ seen) then 0%nat else statements kv.2) l).

Lemma weight_see l k seen : k ∉ seen ->
  (weight l ({[k]} ∪ seen) <= weight l seen)%nat /\
  (forall rs, (k, rs) ∈ l -> (weight l ({[k]} ∪ seen) + statements rs <= weight l seen)%nat).
Proof.
  intros Hk. unfold weight. induction l as [|[k0 rs0] l [IH1 IH2]]; simpl.
  { split; [lia|]. intros rs H. set_solver. }
  assert (H0 : ((if bool_decide (k0 ∈ {[k]} ∪ seen) then 0 else statements rs0) <=
                (if bool_decide (k0 ∈ seen) then 0 else statements rs0))%nat).
  { repeat case_bool_decide; first [lia|set_solver]. }
  split; [lia|]. intros rs [[= -> ->]|H]%elem_of_cons.
  - rewrite bool_decide_true by set_solver. rewrite bool_decide_false by done. lia.
  - specialize (IH2 rs H). lia.
Qed.

Lemma weight_rules k seen : k ∉ seen ->
  (weight (map_to_list (rt_rules rt)) ({[k]} ∪ seen) + statements (rules_of rt k)
   <= weight (map_to_list (rt_rules rt)) seen)%nat.
Proof.
  intros Hk. destruct (weight_see (map_to_list (rt_rules rt)) k seen Hk) as [H1 H2].
  unfold rules_of. destruct (rt_rules rt !! k) as [rs|] eqn:E; simpl.
  - apply H2. by apply elem_of_map_to_list.
  - unfold statements. simpl. lia.
Qed.

(** The queue runs empty within the fuel. *)
Lemma walk_returns fuel : forall queue seen,
  (length queue + weight (map_to_list (rt_rules rt)) seen <= fuel)%nat ->
  exists r, walk fuel rt queue seen = Some r.
Proof.
  induction fuel as [|f IH]; intros [|k queue] seen H; simpl in *; try by eexists.
  - lia.
  - case_bool_decide as Hk; [apply IH; lia|].
    destruct (enqueue_rules rt _ k _) as [more|] eqn:E; [|by eexists].
    apply enqueue_rules_spec in E as (_ & Hlen & _). pose proof (weight_rules k seen Hk).
    apply IH. rewrite length_app. lia.
Qed.

(** The walk keeps to what is reachable from its queue. *)
Lemma walk_sound fuel : forall queue seen out,
  walk fuel rt queue seen = Some (Ok out) ->
  forall k, k ∈ out -> k ∈ seen \/ exists s, s ∈ queue /\ rtc (leads_to rt) s k.
Proof.
  induction fuel as [|f IH]; intros [|k0 queue] seen out; simpl; try done;
    try (intros [= <-]; by left).
  case_bool_decide as Hk.
  - intros H k Hin. destruct (IH _ _ _ H k Hin) as [?|(s & Hs & Hr)]; [by left|].
    right. exists s. split; [by right|done].
  - destruct (enqueue_rules rt _ k0 _) as [more|] eqn:E; [|done]. intros H k Hin.
    destruct (IH _ _ _ H k Hin) as [[->%elem_of_singleton|?]%elem_of_union|(s & [Hs|Hs]%elem_of_app & Hr)].
    + right. exists k0. split; [left|done].
    + by left.
    + right. exists s. split; [by right|done].
    + right. exists k0. split; [left|]. apply (leads_to_more _ _ _ E) in Hs as [_ Hs].
      by eapply rtc_l.
Qed.

(** It covers its queue, and what it covers is closed and readable. *)
Lemma walk_closed fuel : forall queue seen out,
  walk fuel rt queue seen = Some (Ok out) ->
  (forall k, k ∈ seen -> Forall (readable rt k) (rules_of rt k) /\
             forall k', leads_to rt k k' -> k' ∈ seen \/ k' ∈ queue) ->
  seen ⊆ out /\ (forall k, k ∈ queue -> k ∈ out) /\
  (forall k, k ∈ out -> Forall (readable rt k) (rules_of rt k) /\
             forall k', leads_to rt k k' -> k' ∈ out).
Proof.
  induction fuel as [|f IH]; intros [|k0 queue] seen out; simpl; try done;
    try (intros [= <-] Hi; split_and!; [done|set_solver|];
         intros k Hk; destruct (Hi k Hk) as [? Hl]; split; [done|]; intros k' Hk'; destruct (Hl k' Hk'); set_solver).
  case_bool_decide as Hk; intros H Hi.
  - destruct (IH _ _ _ H) as (H1 & H2 & H3).
    { intros k Hin. destruct (Hi k Hin) as [Hr Hl]. split; [done|]. intros k' Hk'.
      destruct (Hl k' Hk') as [?|[->|?]%elem_of_cons]; [by left|by left|by right]. }
    split_and!; [done| |done]. intros k [->|?]%elem_of_cons; [by apply H1|by apply H2].
  - destruct (enqueue_rules rt _ k0 _) as [more|] eqn:E; [|done].
    destruct (IH _ _ _ H) as (H1 & H2 & H3).
    { pose proof (leads_to_more _ _ _ E) as Hm. apply enqueue_rules_spec in E as (Hread & _).
      intros k [->%elem_of_singleton|Hin]%elem_of_union.
      - split; [done|]. intros k' Hk'. destruct (decide (k' ∈ ({[k0]} ∪ seen : gset _))); [by left|].
        right. apply elem_of_app. right. by apply Hm.
      - destruct (Hi k Hin) as [Hr Hl]. split; [done|]. intros k' Hk'.
        destruct (Hl k' Hk') as [?|[->|?]%elem_of_cons]; [left; set_solver|left; set_solver|].
        right. apply elem_of_app. by left. }
    split_and!; [set_solver| |done].
    intros k [->|?]%elem_of_cons; [apply H1; set_solver|apply H2, elem_of_app; by left].
Qed.

(** It only gives up on a rule in reach that cannot be read. *)
Lemma walk_refuses fuel : forall queue seen e,
  walk fuel rt queue seen = Some (Err e) -> e = errNFTRulesetMalformed /\
  exists s k r, s ∈ queue /\ rtc (leads_to rt) s k /\ r ∈ rules_of rt k /\ ~ readable rt k r.
Proof.
  induction fuel as [|f IH]; intros [|k0 queue] seen e; simpl; try done.
  case_bool_decide as Hk.
  - intros H. destruct (IH _ _ _ H) as (-> & s & k & r & Hs & Hrest). split; [done|].
    exists s, k, r. split; [by right|done].
  - destruct (enqueue_rules rt _ k0 _) as [more|] eqn:E.
    + intros H. destruct (IH _ _ _ H) as (-> & s & k & r & [Hs|Hs]%elem_of_app & Hr & Hrest); split; try done.
      * exists s, k, r. split; [by right|done].
      * exists k0, k, r. split; [left|]. apply (leads_to_more _ _ _ E) in Hs as [_ Hs].
        split; [by eapply rtc_l|done].
    + intros [= <-]. split; [done|]. apply enqueue_rules_spec in E as (r & Hr & Hn).
      exists k0, k0, r. split; [left|done].
Qed.
End Walk.

(** ** The first finding *)

#[local] Instance finding_le_total : Total finding_le.
Proof.
  intros a b. unfold finding_le. rewrite (String.eqb_sym (nf_artifact b)).
  case_match; apply str_le_total.
Qed.

#[local] Instance finding_le_trans : Transitive finding_le.
Proof.
  intros a b c. unfold finding_le.
  destruct (String.eqb_spec (nf_artifact a) (nf_artifact b)) as [->|N1].
  - case_match; [apply str_le_trans|by intros _].
  - destruct (String.eqb_spec (nf_artifact b) (nf_artifact c)) as [<-|N2].
    + by rewrite (proj2 (String.eqb_neq _ _) N1).
    + intros H1 H2. destruct (String.eqb_spec (nf_artifact a) (nf_artifact c)) as [E|N3]; [|by eapply str_le_trans].
      destruct N1. rewrite E in H1 |- *. by apply str_le_antisym.
Qed.

Lemma finding_le_artifact a b : finding_le a b -> str_le (nf_artifact a) (nf_artifact b).
Proof.
  unfold finding_le. destruct (String.eqb_spec (nf_artifact a) (nf_artifact b)) as [->|_]; [|done].
  intros _. unfold str_le. by destruct (String.leb_total (nf_artifact b) (nf_artifact b)).
Qed.

Lemma first_artifact_spec l :
  (l = [] /\ first_artifact l = "") \/
  exists f, f ∈ l /\ first_artifact l = nf_artifact f /\
            forall g, g ∈ l -> str_le (nf_artifact f) (nf_artifact g).
Proof.
  unfold first_artifact. pose proof (merge_sort_Permutation finding_le l) as Hp.
  pose proof (StronglySorted_merge_sort finding_le l) as Hs.
  destruct (merge_sort finding_le l) as [|f fs]; [left; split; [by apply Permutation_nil|done]|].
  right. exists f. apply StronglySorted_inv in Hs as [_ Hf]. rewrite Forall_forall in Hf. split_and!; [|done|].
  - rewrite <- Hp. left.
  - intros g. rewrite <- Hp. intros [->|Hg]%elem_of_cons; [|by apply finding_le_artifact, Hf].
    unfold str_le. by destruct (String.leb_total (nf_artifact f) (nf_artifact f)).
Qed.

Lemma Key_String_named k : Key_String k <> "".
Proof. unfold Key_String. by destruct (nk_Family k). Qed.

(** ** The whole check *)

Section Check.
Variables (rt : nftRuntime) (includeInput : bool).
Local Notation start := (is_start rt includeInput).
Local Notation reach := (reachable rt includeInput).

Lemma starts_of_spec k : k ∈ starts_of rt includeInput <-> start k.
Proof.
  unfold starts_of, is_start. rewrite merge_sort_Permutation, list_elem_of_fmap. split.
  - intros ([k0 c] & -> & [Hf Hin]%list_elem_of_In%filter_In). exists c. split; [|done].
    by apply elem_of_map_to_list, list_elem_of_In.
  - intros (c & Hc & Hs). exists (k, c). split; [done|]. apply list_elem_of_In, filter_In.
    split; [|done]. by apply list_elem_of_In, elem_of_map_to_list.
Qed.

Lemma start_policy_spec f : f ∈ policy_findings rt includeInput <->
  exists k c, rt_chains rt !! k = Some c /\ start_chain includeInput c = true /\ ~ default_ok k c /\
              f = MkNftFinding (Key_String k) "base-chain policy".
Proof.
  unfold policy_findings. rewrite list_elem_of_In, in_flat_map. split.
  - intros ([k c] & Hin & Hf). apply list_elem_of_In, elem_of_map_to_list in Hin.
    destruct (start_chain includeInput c && _ && _ && _) eqn:E; [|done]. destruct Hf as [<-|[]].
    rewrite !andb_true_iff, !negb_true_iff in E. destruct E as [[[E1 E2] E3] E4].
    apply String.eqb_neq in E2, E3. exists k, c. split_and!; try done.
    intros [?|[?|?]]; congruence.
  - intros (k & c & Hc & Hs & Hd & ->). exists (k, c).
    split; [by apply list_elem_of_In, elem_of_map_to_list|]. rewrite Hs. unfold default_ok in Hd.
    destruct (String.eqb_spec (nc_Policy c) "") as [?|N1]; [tauto|].
    destruct (String.eqb_spec (ToLowerRunes (nc_Policy c)) "accept") as [?|N2]; [tauto|].
    destruct (stockFW4BaseChain k (nc_Hook c)); [tauto|].
    unfold blank. rewrite (proj2 (String.eqb_neq _ _) N1). by left.
Qed.

Lemma rule_findings_total keys :
  Forall (fun k => Forall (readable rt k) (rules_of rt k)) keys -> is_Some (rule_findings rt keys).
Proof.
  induction 1 as [|k keys Hk _ [b IH]]; simpl; [by eexists|]. rewrite IH.
  destruct (chain_findings_total k (rules_of rt k)) as [a ->]; [|by eexists].
  eapply Forall_impl; [exact Hk|]. intros r (ts & Ht & _). apply targets_statements in Ht as [l Hl].
  unfold nftRuleEffects. rewrite Hl. by eexists.
Qed.

Lemma rule_findings_spec keys : forall l, rule_findings rt keys = Some l ->
  Forall (fun f => exists k r, k ∈ keys /\ r ∈ rules_of rt k /\ ~ harmless k r /\
                               f = MkNftFinding (Key_String k) "rule") l /\
  (forall k, k ∈ keys -> Forall (harmless k) (rules_of rt k) \/ MkNftFinding (Key_String k) "rule" ∈ l).
Proof.
  induction keys as [|k keys IH]; simpl; intros l; [intros [= <-]; split; [constructor|set_solver]|].
  destruct (chain_findings k (rules_of rt k)) as [a|] eqn:Ea; [|done].
  destruct (rule_findings rt keys) as [b|]; [|done]. intros [= <-].
  destruct (IH b eq_refl) as [H1 H2]. apply chain_findings_spec in Ea as [A1 A2]. split.
  - apply Forall_app. split; (eapply Forall_impl; [eassumption|]).
    + intros f [-> (r & Hr & Hn)]. exists k, r. split_and!; [left|done..].
    + intros f (k0 & r & Hk & Hr). exists k0, r. split; [by right|done].
  - intros k0 [->|Hk]%elem_of_cons.
    + destruct a as [|f a]; [left; by apply A2|]. right. apply Forall_cons in A1 as [[-> _] _]. left.
    + destruct (H2 k0 Hk); [by left|]. right. apply elem_of_app. by right.
Qed.

Lemma walk_starts : exists r, walk (walk_fuel rt (starts_of rt includeInput)) rt (starts_of rt includeInput) ∅ = Some r.
Proof.
  apply walk_returns. unfold walk_fuel, weight. apply Nat.add_le_mono_l, Nat.eq_le_incl. f_equal.
Qed.

(** What the walk returns is what transit traffic can reach. *)
Lemma walk_reaches fuel out : walk fuel rt (starts_of rt includeInput) ∅ = Some (Ok out) ->
  all_readable rt includeInput /\ forall k, k ∈ out <-> reach k.
Proof.
  intros H. pose proof (walk_sound rt _ _ _ _ H) as Hsound.
  destruct (walk_closed rt _ _ _ _ H) as (_ & Hstart & Hclosed); [set_solver|].
  assert (Hin : forall k, reach k -> k ∈ out).
  { intros k (s0 & Hs & Hr). apply starts_of_spec, Hstart in Hs. clear -Hs Hr Hclosed.
    induction Hr as [|x y z Hxy _ IH]; [done|]. apply IH. by apply (Hclosed x). }
  split.
  - intros k r Hk Hr. destruct (Hclosed k (Hin k Hk)) as [Hf _]. rewrite Forall_forall in Hf. by apply Hf.
  - intros k. split; [|apply Hin]. intros Hk. destruct (Hsound k Hk) as [?|(s0 & Hs & Hr)]; [set_solver|].
    exists s0. split; [by apply starts_of_spec|done].
Qed.

Lemma foreignPolicy_findings r : foreignPolicy rt includeInput = Some r ->
  (r = Err errNFTRulesetMalformed /\ ~ all_readable rt includeInput) \/
  (exists found, r = Ok (first_artifact (policy_findings rt includeInput ++ found)%list) /\
     all_readable rt includeInput /\
     Forall (fun f => exists k r, reach k /\ r ∈ rules_of rt k /\ ~ harmless k r /\
                                  f = MkNftFinding (Key_String k) "rule") found /\
     (forall k, reach k -> Forall (harmless k) (rules_of rt k) \/ MkNftFinding (Key_String k) "rule" ∈ found)).
Proof.
  unfold foreignPolicy. destruct walk_starts as [w Hw]. rewrite Hw. destruct w as [out|e].
  - apply walk_reaches in Hw as [Hread Hout]. set (ks := merge_sort key_le (elements out)).
    assert (Hks : forall k, k ∈ ks <-> reach k).
    { intros k. unfold ks. by rewrite merge_sort_Permutation, elem_of_elements. }
    destruct (rule_findings_total ks) as [found Hf].
    { apply Forall_forall. intros k Hk. apply Forall_forall. intros r0 Hr. by apply Hread; [apply Hks|]. }
    rewrite Hf. intros [= <-]. right. exists found. split_and!; [done|done| |].
    + apply rule_findings_spec in Hf as [Hf _]. eapply Forall_impl; [exact Hf|].
      intros f (k & r0 & Hk & Hrest). exists k, r0. split; [by apply Hks|done].
    + intros k Hk. apply rule_findings_spec in Hf as [_ Hf]. by apply Hf, Hks.
  - intros [= <-]. apply walk_refuses in Hw as (-> & s0 & k & r0 & Hs & Hr & Hin & Hn).
    left. split; [done|]. intros Hread. apply Hn, Hread; [|done]. exists s0. split; [by apply starts_of_spec|done].
Qed.

Lemma default_ok_dec k c : default_ok k c \/ ~ default_ok k c.
Proof.
  unfold default_ok. destruct (String.eqb_spec (nc_Policy c) ""); [by left; left|].
  destruct (String.eqb_spec (ToLowerRunes (nc_Policy c)) "accept"); [by left; right; left|].
  destruct (stockFW4BaseChain k (nc_Hook c)) eqn:E; [by left; right; right|right].
  intros [?|[?|?]]; congruence.
Qed.

Lemma findings_of_offender found k' :
  (forall k, reach k -> Forall (harmless k) (rules_of rt k) \/ MkNftFinding (Key_String k) "rule" ∈ found) ->
  offends rt includeInput k' ->
  exists f, f ∈ (policy_findings rt includeInput ++ found)%list /\ nf_artifact f = Key_String k'.
Proof.
  intros Hc [[Hk (r & Hin & Hn)]|(c & H1 & H2 & H3)].
  - destruct (Hc k' Hk) as [Hall|Hfound]; [rewrite Forall_forall in Hall; by destruct Hn; apply Hall|].
    exists (MkNftFinding (Key_String k') "rule"). split; [apply elem_of_app; by right|done].
  - exists (MkNftFinding (Key_String k') "base-chain policy"). split; [|done].
    apply elem_of_app. left. apply start_policy_spec. by exists k', c.
Qed.

Lemma foreignPolicy_clean : foreignPolicy rt includeInput = Some (Ok "") -> no_foreign_policy rt includeInput.
Proof.
  intros Hr. destruct (foreignPolicy_findings _ Hr) as [[? _]|(found & E & Hread & Hf & Hc)]; [done|].
  injection E as E. destruct (first_artifact_spec (policy_findings rt includeInput ++ found)%list)
    as [[[E1 ->]%app_nil _]|(f & Hin & Ef & _)].
  - split_and!; [done| |].
    + intros k r Hk Hin. destruct (Hc k Hk) as [Hall|Hx%not_elem_of_nil]; [|done].
      rewrite Forall_forall in Hall. by apply Hall.
    + intros k c Hk Hs. destruct (default_ok_dec k c) as [?|Hd]; [done|].
      assert (Hx : MkNftFinding (Key_String k) "base-chain policy" ∈ policy_findings rt includeInput)
        by (apply start_policy_spec; by exists k, c). rewrite E1 in Hx. by apply not_elem_of_nil in Hx.
  - exfalso. rewrite <- E in Ef. rewrite Forall_forall in Hf.
    apply elem_of_app in Hin as [(k & c & _ & _ & _ & ->)%start_policy_spec|(k & r & _ & _ & _ & ->)%Hf];
      by apply (Key_String_named k).
Qed.

(** C26: The foreign-policy check terminates with a definite answer. It
    refuses only when a rule in reach of transit traffic cannot be read; it
    answers with no artifact exactly when every such rule is generated by fw4,
    has no effect or is one of fw4's own, every jump lands on a chain that
    exists, and no base chain has a policy of its own; and any artifact it
    names is the first, in order of names, of the chains that offend. *)
Theorem foreignPolicy_exact :
  exists r, foreignPolicy rt includeInput = Some r /\
  (forall e, r = Err e -> e = errNFTRulesetMalformed /\ ~ all_readable rt includeInput) /\
  (r = Ok "" <-> no_foreign_policy rt includeInput) /\
  (forall a, r = Ok a -> a <> "" ->
     exists k, a = Key_String k /\ offends rt includeInput k /\
               forall k', offends rt includeInput k' -> str_le a (Key_String k')).
Proof.
  assert (exists r, foreignPolicy rt includeInput = Some r) as [r Hr].
  { unfold foreignPolicy. destruct walk_starts as [w ->]. repeat case_match; by eexists. }
  exists r. split; [done|].
  destruct (foreignPolicy_findings r Hr) as [[-> Hn]|(found & -> & Hread & Hf & Hc)].
  { split; [by intros e [= <-]|]. split; [|done]. split; [done|]. by intros [? _]. }
  rewrite Forall_forall in Hf.
  pose proof (fun k' => findings_of_offender found k' Hc) as Hoff.
  split; [done|]. destruct (first_artifact_spec (policy_findings rt includeInput ++ found)%list)
    as [[Hnil ->]|(f & Hin & -> & Hleast)].
  - split; [split; [|done]|by intros a [= <-]]. intros _. apply foreignPolicy_clean. rewrite Hr.
    rewrite Hnil. done.
  - assert (Hk : exists k, nf_artifact f = Key_String k /\ offends rt includeInput k).
    { apply elem_of_app in Hin as [(k & c & H1 & H2 & H3 & ->)%start_policy_spec|(k & r & H1 & H2 & H3 & ->)%Hf].
      - exists k. split; [done|]. right. by exists c.
      - exists k. split; [done|]. left. split; [done|by exists r]. }
    destruct Hk as (k & Ek & Ho). rewrite Ek in *. split; [split|].
    + intros [= E]. by apply Key_String_named in E.
    + intros (_ & Hh & Hd). destruct Ho as [[Hk (r & Hin2 & Hn)]|(c & H1 & H2 & H3)].
      * by destruct Hn; apply Hh.
      * by destruct H3; apply Hd.
    + intros a [= <-] _. exists k. split_and!; [done..|]. intros k' (g & Hg & <-)%Hoff. by apply Hleast.
Qed.
End Check.

(** ** The ruleset as the device printed it *)

Definition record_chain (j : json) : option nftChain :=
  match raw_map j with
  | Some o => match o !! "chain" with Some raw => dec_chain raw | None => None end
  | None => None
  end.

Definition record_rule (j : json) : option nftRule :=
  match raw_map j with
  | Some o => match o !! "rule" with Some raw => dec_rule raw | None => None end
  | None => None
  end.

(** The rules of one chain, in the order of the listing. *)
Definition listed_rules (records : list json) (k : nftChainKey) : list nftRule :=
  filter (fun r => rule_key r = k) (omap record_rule records).

Definition listed_chain (records : list json) (k : nftChainKey) (c : nftChain) : Prop :=
  exists j, j ∈ records /\ record_chain j = Some c /\ chain_key c = k.

Lemma parse_record_spec rt j rt' : parse_record rt j = Some rt' ->
  (forall k, rules_of rt' k =
     (rules_of rt k ++ filter (fun r => rule_key r = k) (option_list (record_rule j)))%list) /\
  (forall k c, rt_chains rt' !! k = Some c <->
     rt_chains rt !! k = Some c \/ (record_chain j = Some c /\ chain_key c = k)).
Proof.
  unfold parse_record, record_rule, record_chain. destruct (raw_map j) as [o|]; [|done].
  destruct (Nat.eqb (size o) 0); [done|]. destruct (add_chain rt (o !! "chain")) as [rt1|] eqn:E1; [|done].
  intros E2.
  assert (H1 : rt_rules rt1 = rt_rules rt /\ forall k c, rt_chains rt1 !! k = Some c <->
    rt_chains rt !! k = Some c \/
    (match o !! "chain" with Some raw => dec_chain raw | None => None end = Some c /\ chain_key c = k)).
  { unfold add_chain in E1. destruct (o !! "chain") as [raw|]; [|injection E1 as <-; naive_solver].
    destruct (dec_chain raw) as [c0|]; [|done]. destruct (rt_chains rt !! chain_key c0) eqn:En; [done|].
    injection E1 as <-. split; [done|]. intros k c. cbn [rt_chains]. rewrite lookup_insert_Some. split.
    - intros [[<- <-]|[_ ?]]; [by right|by left].
    - intros [Hk|[[= ->] <-]]; [right|by left]. split; [congruence|done]. }
  destruct H1 as [Hr Hc].
  assert (H2 : rt_chains rt' = rt_chains rt1 /\ forall k, rules_of rt' k = (rules_of rt1 k ++
    filter (fun r => rule_key r = k)
      (option_list (match o !! "rule" with Some raw => dec_rule raw | None => None end)))%list).
  { unfold add_rule in E2. destruct (o !! "rule") as [raw|];
      [|injection E2 as <-; split; [done|]; intros k; by rewrite app_nil_r].
    destruct (dec_rule raw) as [r0|]; [|done]. injection E2 as <-. split; [done|]. intros k.
    unfold rules_of at 1. cbn [rt_rules]. change (option_list (Some r0)) with [r0]. destruct (decide (rule_key r0 = k)) as [<-|Hne].
    - rewrite lookup_insert_eq, filter_cons_True, filter_nil by done. done.
    - rewrite lookup_insert_ne, filter_cons_False, filter_nil, app_nil_r by done. done. }
  destruct H2 as [Hc2 Hr2]. rewrite Hc2. split; [|done]. intros k. rewrite Hr2. unfold rules_of. by rewrite Hr.
Qed.

Lemma parse_records_spec records : forall rt rt', parse_records rt records = Some rt' ->
  (forall k, rules_of rt' k = (rules_of rt k ++ listed_rules records k)%list) /\
  (forall k c, rt_chains rt' !! k = Some c <-> rt_chains rt !! k = Some c \/ listed_chain records k c).
Proof.
  induction records as [|j records IH]; intros rt rt'; simpl.
  { intros [= <-]. split; [intros k; by rewrite app_nil_r|]. intros k c. unfold listed_chain. set_solver. }
  destruct (parse_record rt j) as [rt1|] eqn:E; [|done]. apply parse_record_spec in E as [E1 E2].
  intros H. apply IH in H as [H1 H2]. split.
  - intros k. rewrite H1, E1, <- app_assoc. f_equal. unfold listed_rules. simpl.
    destruct (record_rule j) as [r|]; [|done]. simpl. by rewrite !filter_cons; case_decide.
  - intros k c. rewrite H2, E2. unfold listed_chain. set_solver.
Qed.

(** What a successful parse says of the text: it holds a list of records, and
    the model holds exactly their chains and rules. *)
Lemma parse_lists stdout rt : parseNFTRuntime stdout = Ok rt ->
  0 < len stdout <= nftRulesetLimit /\
  exists records, nft_records stdout = Some records /\
    (forall k, rules_of rt k = listed_rules records k) /\
    (forall k c, rt_chains rt !! k = Some c <-> listed_chain records k c).
Proof.
  unfold parseNFTRuntime. destruct (len stdout =? 0) eqn:E0; cbn [orb]; [by case_match|].
  destruct (nftRulesetLimit <? len stdout) eqn:E1; [done|].
  destruct (nft_records stdout) as [records|]; [|done].
  destruct (parse_records _ records) as [rt0|] eqn:E; [|done]. case_match; [done|]. intros [= <-].
  apply parse_records_spec in E as [H1 H2]. unfold len in *. split; [lia|]. exists records.
  split_and!; [done|exact H1|]. intros k c. rewrite H2. cbn [rt_chains]. rewrite lookup_empty. naive_solver.
Qed.

(** ** The check before a plan *)

(** No section of the firewall config includes policy that fw4 would run. *)
Definition no_active_include (existing : Existing) : Prop :=
  forall name values, In_ existing "firewall" !! name = Some values -> active_include values = false.

Lemma activeFirewallInclude_None existing :
  activeFirewallInclude existing = None -> no_active_include existing.
Proof.
  unfold activeFirewallInclude. intros H name values Hn. apply List.find_none with (x := name) in H.
  - rewrite Hn in H. done.
  - apply list_elem_of_In. unfold sort_strings. rewrite merge_sort_Permutation. apply list_elem_of_fmap.
    exists (name, values). split; [done|]. by apply elem_of_map_to_list.
Qed.

Definition input_scope (site : Site) : bool :=
  hasRouterInputPolicy site || negb (Nat.eqb (length (ActiveZoneNames site)) 0).

(** The text is a listing of at most [nftRulesetLimit] bytes in whose chains
    and rules there is no foreign policy. *)
Definition clean_listing (stdout : string) (includeInput : bool) : Prop :=
  0 < len stdout <= nftRulesetLimit /\
  exists records rt, nft_records stdout = Some records /\
    (forall k, rules_of rt k = listed_rules records k) /\
    (forall k c, rt_chains rt !! k = Some c <-> listed_chain records k c) /\
    no_foreign_policy rt includeInput.

Lemma clean_scope stdout includeInput :
  foreignNFTRuntimePolicyScope stdout includeInput = Some (Ok "") -> clean_listing stdout includeInput.
Proof.
  unfold foreignNFTRuntimePolicyScope. destruct (parseNFTRuntime stdout) as [rt|] eqn:E; [|done]. intros H.
  apply parse_lists in E as (Hlen & records & Hrec & Hr & Hc). split; [done|]. exists records, rt.
  split_and!; try done; by apply foreignPolicy_clean.
Qed.

Section Conflict.
Context {W : Type} `{World W}.

(** The check passes only on proof. *)
Lemma no_conflict_proven site dev existing s s' :
  explicitFirewallPolicyConflict (W := W) site dev existing s = (None, s') ->
  enforcesExplicitZonePolicy site dev = true ->
  no_active_include existing /\
  exists stdout, Call dec_exec (MkExec 0 "") "file" "exec" nft_args s = (Ok (MkExec 0 stdout), s') /\
    clean_listing stdout (input_scope site).
Proof.
  unfold explicitFirewallPolicyConflict. intros E Henf. rewrite Henf in E. cbn [negb] in E.
  destruct (activeFirewallInclude existing) eqn:Ei; [done|]. split; [by apply activeFirewallInclude_None|].
  apply bind_inv in E as (r & s1 & E1 & E). apply bind_inv in E1 as (o & s2 & Eo & E1).
  injection E1 as <- <-. injection E as E <-. destruct o as [[code stdout]|]; [|done]. cbn [ne_Code ne_Stdout] in E.
  destruct (code =? 0) eqn:Ec; [|done]. apply Z.eqb_eq in Ec as ->. cbn [negb] in E.
  exists stdout. split; [done|]. apply clean_scope. fold (input_scope site) in E.
  destruct (foreignNFTRuntimePolicyScope _ _) as [[artifact|[]]|]; try done.
  unfold blank in E. destruct (String.eqb artifact "") eqn:Ea; [|done].
  apply String.eqb_eq in Ea. by rewrite Ea.
Qed.

(** It sends one command, and only where an explicit matrix is enforced. *)
Definition nft_read (q : rpcRequest) : Prop :=
  login_request q \/ (q_object q = "file" /\ q_method q = "exec" /\ q_args q = nft_args).

Lemma conflict_posts site dev existing :
  posts_only nft_read (explicitFirewallPolicyConflict (W := W) site dev existing).
Proof.
  unfold explicitFirewallPolicyConflict. case_match; [apply posts_only_ret|]. case_match; [apply posts_only_ret|].
  apply posts_only_bind; [|intros; apply posts_only_ret].
  apply posts_only_bind; [|intros; apply posts_only_ret].
  apply posts_only_call; [by right|by left].
Qed.
End Conflict.
