(* ===== verification/Preview.v ===== *)
(** * The preview of one device, put together

    [Reconciler.PlanDevice] (internal/reconcile/reconcile.go) with the renderer
    ([Render]) and the firewall-policy check ([NftPolicy]) it calls: what a
    preview of a site's device sends, plans and, for an explicit zone matrix on
    a router, has proved before it lets a plan through. *)

From Stdlib Require Import ZArith Lia Ascii String.
From stdpp Require Import base gmap list strings.
From S2P Require Import Prelude GoStr GoFmt Ubus UbusTrace GoJson ApplyEngine RenderPlan RenderPlanSpec.
From S2P Require Import Reconcile ReconcileSpec SiteModel SitePolicy Capability Render NftPolicy NftPolicySpec.

Local Open Scope string_scope.
Local Open Scope Z_scope.

Section Preview.
Context {W L : Type} `{World W} `{Ledger L}.
Variables (ff sf : json -> string).
Variables (site : Site) (dev : Device) (caps : option Registry).

Definition render_device (e : Existing) : res err (Doc * Report) :=
  match Render site dev caps e with
  | Ok o => Ok o
  | Err m => Err (MsgError m [])
  end.

(** The renderer has validated the site before the policy check reads it, and
    [Validate] canonicalizes through the pointers of the site. *)
Definition checked_site : Site := fst (SitePolicy.Validate site).

(** [Reconciler.PlanDevice]. *)
Definition PreviewDevice : M (rstate W L) (res err DevicePlan) :=
  PlanDevice ff sf render_device (explicitFirewallPolicyConflict checked_site dev) (dev_ID dev).

(** A login, a read of one managed config, or the listing of the ruleset. *)
Definition preview_request (q : rpcRequest) : Prop := config_read q \/ nft_read q.

(** C29: A preview changes nothing and lets an explicit zone matrix through
    only on proof. [PlanDevice] books nothing and sends the device nothing but
    logins, reads of the four managed configs and the one command that lists
    the nftables ruleset. The plan it returns is for the document rendered
    from the configuration it read: no operation at all when the report has a
    conflict, and otherwise exactly the planned and pruned operations. And
    when the device routes and the site states firewall intent, a plan without
    conflict means that no firewall section includes a script fw4 would run,
    and that the ruleset the device listed holds no foreign policy in reach of
    the traffic the site makes claims about. *)
Theorem PreviewDevice_proven s r s' :
  PreviewDevice s = (r, s') ->
  r_entries s' = r_entries s /\
  (exists new, wire (r_dev s') = (wire (r_dev s) ++ new)%list /\ Forall preview_request (trace_requests new)) /\
  (forall p, r = Ok p -> exists st report,
     ReadExisting ff sf (r_dev s) = (Ok (dp_Existing p), st) /\
     Render site dev caps (dp_Existing p) = Ok (dp_Doc p, report) /\
     RenderPlan.Validate (dp_Doc p) = None /\
     Ops (dp_Plan p) = (if Blocked p then [] else device_ops (dp_Doc p) (dp_Existing p)) /\
     (Blocked p = false -> enforcesExplicitZonePolicy checked_site dev = true ->
        no_active_include (dp_Existing p) /\
        exists stdout, Call dec_exec (MkExec 0 "") "file" "exec" nft_args st
                         = (Ok (MkExec 0 stdout), r_dev s') /\
          clean_listing stdout (input_scope checked_site))).
Proof.
  intros E.
  destruct (PlanDevice_reads ff sf render_device (explicitFirewallPolicyConflict checked_site dev)
              preview_request (dev_ID dev) s r s' E) as (He & Hw & Hp).
  - by left.
  - intros e st a st' Hc. apply conflict_posts in Hc as (new & Hn & Hf).
    exists new. split; [done|]. eapply Forall_impl; [exact Hf|]. by right.
  - split; [done|]. split; [done|]. intros p ->. destruct (Hp p eq_refl) as [Hv Hops].
    apply PlanDevice_ok in E as (st & report0 & c & Hread & Hrender & Hcheck & Hreport).
    unfold render_device in Hrender.
    destruct (Render site dev caps (dp_Existing p)) as [o|m] eqn:Eo; [|done]. injection Hrender as ->.
    exists st, report0. split_and!; try done.
    intros Hb Henf. destruct c as [c|].
    + exfalso. unfold Blocked, HasConflicts in Hb. rewrite Hreport in Hb. cbn [add_conflict Conflicts] in Hb.
      rewrite length_app in Hb. cbn [length] in Hb. rewrite Nat.add_comm in Hb. done.
    + by apply (no_conflict_proven checked_site dev (dp_Existing p) st (r_dev s')).
Qed.
End Preview.

(** * Rulesets and previews evaluated

    Listings of nftables rulesets as a device prints them, what the check says
    of them, and the preview of the gateway of [SitePolicySpec.home] over a scripted
    device whose ruleset is fw4's own. *)

From Stdlib Require Import ZArith Lia Ascii String.
From stdpp Require Import base gmap list strings.
From S2P Require Import Prelude GoStr GoFmt Ubus UbusTrace GoJson ApplyEngine ApplyEngineSpec RenderPlan RenderPlanSpec.
From S2P Require Import Reconcile ReconcileSpec SiteModel SitePolicy SitePolicySpec Capability Render.
From S2P Require Import RenderRuns NftPolicy NftPolicySpec.

Local Open Scope string_scope.
Local Open Scope Z_scope.

Module PreviewRuns.
Import Scripted SiteRuns RenderRuns ReconcileRuns.

(** JSON written with single quotes. *)
Definition dq (s : string) : string := str_map (fun c => if Ascii.eqb c "'" then chr 34 else c) s.

Definition chain_ (table name hook policy : string) : string :=
  ",{'chain':{'family':'inet','table':'" ++ table ++ "','name':'" ++ name ++ "','handle':1" ++
  (if String.eqb hook "" then "" else ",'type':'filter','hook':'" ++ hook ++ "','prio':0,'policy':'" ++ policy ++ "'") ++ "}}".
Definition rule_ (table chain comment exprs : string) : string :=
  ",{'rule':{'family':'inet','table':'" ++ table ++ "','chain':'" ++ chain ++ "','handle':7" ++
  (if String.eqb comment "" then "" else ",'comment':'" ++ comment ++ "'") ++ ",'expr':[" ++ exprs ++ "]}}".
Definition listing (records : list string) : string :=
  dq ("{'nftables': [{'metainfo':{'version':'1.0.9','json_schema_version':1}}" ++ Join records "" ++ "]}").

Definition fw4 : list string :=
  [chain_ "fw4" "input" "input" "drop"; chain_ "fw4" "forward" "forward" "drop";
   chain_ "fw4" "forward_iot" "" ""; chain_ "fw4" "accept_to_wan" "" ""; chain_ "fw4" "handle_reject" "" "";
   rule_ "fw4" "forward" "!fw4: Handle iot IPv4/IPv6 forward traffic"
     "{'match':{'op':'==','left':{'meta':{'key':'iifname'}},'right':'br-lan.20'}},{'jump':{'target':'forward_iot'}}";
   rule_ "fw4" "forward" "" "{'jump':{'target':'handle_reject'}}";
   rule_ "fw4" "forward_iot" "!fw4: Accept iot to wan forwarding" "{'jump':{'target':'accept_to_wan'}}";
   rule_ "fw4" "forward_iot" "" "{'counter':{'packets':0,'bytes':0}},{'log':{'prefix':'iot '}}";
   rule_ "fw4" "accept_to_wan" "!fw4: accept wan traffic" "{'accept':null}";
   rule_ "fw4" "handle_reject" "!fw4: Reject any other" "{'reject':{'type':'icmpx','expr':'port-unreachable'}}"].

Definition scope (records : list string) := foreignNFTRuntimePolicyScope (listing records) true.

(** fw4's own ruleset is clean; a chain nothing jumps to does not matter; a
    hook of its own, a rule in a chain that traffic reaches, and a jump to a
    chain that is not listed do. *)
Example fw4_clean : scope fw4 = Some (Ok "").
Proof. vm_compute. reflexivity. Qed.
Example unreached_ignored :
  scope (fw4 ++ [chain_ "fw4" "spare" "" ""; rule_ "fw4" "spare" "" "{'accept':null}"])%list = Some (Ok "").
Proof. vm_compute. reflexivity. Qed.
Example hook_found :
  scope (fw4 ++ [chain_ "custom" "pre" "prerouting" "accept"; chain_ "custom" "deny" "" "";
                 rule_ "custom" "pre" "" "{'goto':{'target':'deny'}}"; rule_ "custom" "deny" "" "{'drop':null}"])%list
  = Some (Ok "inet/custom/deny").
Proof. vm_compute. reflexivity. Qed.
Example rule_found :
  scope (fw4 ++ [rule_ "fw4" "forward_iot" "mine" "{'accept':null}"])%list = Some (Ok "inet/fw4/forward_iot").
Proof. vm_compute. reflexivity. Qed.
Example policy_found : scope (fw4 ++ [chain_ "custom" "fwd" "forward" "drop"])%list = Some (Ok "inet/custom/fwd").
Proof. vm_compute. reflexivity. Qed.
Example dangling_refused :
  scope (fw4 ++ [rule_ "fw4" "forward_iot" "" "{'jump':{'target':'nowhere'}}"])%list = Some (Err errNFTRulesetMalformed).
Proof. vm_compute. reflexivity. Qed.

(** A cycle of chains is walked once. *)
Example cycle_walked :
  scope (fw4 ++ [rule_ "fw4" "accept_to_wan" "!fw4: back" "{'jump':{'target':'forward_iot'}}"])%list = Some (Ok "").
Proof. vm_compute. reflexivity. Qed.

(** ** A preview *)

Definition obj (l : list (string * string)) : json := JObj (map (fun kv => (fst kv, JStr (snd kv))) l).
Definition values_ (l : list (string * json)) : http_outcome := reply 0 [JObj [("values", JObj l)]].

Definition gateway_script : list http_outcome :=
  [values_ [("radio0", obj [(".type", "wifi-device"); ("channel", "36")]);
            ("radio1", obj [(".type", "wifi-device"); ("disabled", "1")])];
   values_ [("lan", obj [(".type", "interface"); ("proto", "static")]);
            ("sw", obj [(".type", "bridge-vlan"); ("device", "br-lan"); ("vlan", "1")])];
   reply 4 [];
   values_ [("old", obj [(".type", "include"); ("path", "/etc/firewall.user")])];
   reply 0 [JObj [("code", JInt 0); ("stdout", JStr (listing fw4))]]].

Local Notation preview := (PreviewDevice no_number no_number home gateway gw_caps (start_state gateway_script)).

Definition unplanned : DevicePlan := MkDevicePlan (new_doc gateway) no_report [] no_plan ∅.
Definition gateway_plan : DevicePlan := match fst preview with Ok p => p | Err _ => unplanned end.

Lemma PreviewDevice_proven_witness :
  Blocked gateway_plan = false /\ Ops (dp_Plan gateway_plan) <> [] /\
  no_active_include (dp_Existing gateway_plan) /\ exists stdout, clean_listing stdout true.
Proof.
  assert (Hp : fst preview = Ok gateway_plan).
  { unfold gateway_plan. destruct (fst preview) as [p|e] eqn:E; [reflexivity|].
    exfalso. assert (Hok : is_ok (fst preview) = true) by (vm_compute; reflexivity). rewrite E in Hok. discriminate Hok. }
  assert (Hb : Blocked gateway_plan = false) by (vm_compute; reflexivity).
  destruct (PreviewDevice_proven no_number no_number home gateway gw_caps (start_state gateway_script)
              (fst preview) (snd preview) (surjective_pairing preview)) as (_ & _ & H).
  destruct (H gateway_plan Hp) as (st & report & _ & _ & _ & _ & Hproof).
  destruct (Hproof Hb) as (Hi & stdout & _ & Hc); [vm_compute; reflexivity|].
  split; [exact Hb|]. split; [vm_compute; discriminate|]. split; [exact Hi|]. exists stdout.
  replace true with (input_scope (checked_site home)) by (vm_compute; reflexivity). exact Hc.
Defined.
End PreviewRuns.
