(* ===== verification/DhcpHealth.v ===== *)
(** * The DHCP and interface claims of an apply (internal/daemon/dhcphealth.go)

    What a plan claims about the interfaces and DHCP pools of a device, read
    off its document and operations, and how the answers of the device are held
    against it. The calls and the settle loops are in [RuntimeHealth]. *)

From Stdlib Require Import ZArith Lia Ascii String.
From stdpp Require Import base gmap list strings sorting.
From S2P Require Import Prelude GoStr GoFmt NetIP Ubus GoJson ApplyEngine RenderPlan Reconcile.

Local Open Scope string_scope.
Local Open Scope Z_scope.

(** Why a check failed: its text (a [%v] left in it stands for the error in
    [fl_shown]) and whether waiting cannot help. *)
Record fault := MkFault { fl_text : string; fl_shown : list err; fl_final : bool }.

Definition fault_error (f : fault) : err := MsgError (fl_text f) (fl_shown f).
Definition fail (text : string) : option fault := Some (MkFault text [] false).

(** [path.Clean]. *)
Definition clean_step (rooted : bool) (acc : list string) (part : string) : list string :=
  if String.eqb part "" || String.eqb part "." then acc
  else if String.eqb part ".." then
    match rev acc with
    | last :: before => if String.eqb last ".." then (acc ++ [part])%list else rev before
    | [] => if rooted then [] else [part]
    end
  else (acc ++ [part])%list.
Definition path_Clean (p : string) : string :=
  let rooted := HasPrefix p "/" in
  let body := Join (fold_left (clean_step rooted) (Split p "/"%char) []) "/" in
  let out := if rooted then "/" ++ body else body in
  if String.eqb out "" then "." else out.

(** [path.Join]. *)
Definition path_Join (parts : list string) : string :=
  match List.filter (fun p => negb (String.eqb p "")) parts with
  | [] => ""
  | l => path_Clean (Join l "/")
  end.

Definition owned_section (s : Section) : bool := String.eqb (get (sec_Values s) OwnershipTag) "1".

Definition insert_all (l : list string) (m : gset string) : gset string := list_to_set l ∪ m.

(** The keys of a set of names, sorted. *)
Definition sorted_set (m : gset string) : list string := sort_strings (elements m).

(** ** Interfaces (dhcphealth.go) *)

Record iface := MkIface { if_Name : string; if_Up : bool; if_Addresses : list (string * Z) }.

Definition dec_address (j : json) : option (string * Z) :=
  match struct_fields j with
  | None => None
  | Some l => match str_field "address" l, int_field "mask" l with
              | Some a, Some m => Some (a, m)
              | _, _ => None
              end
  end.

Definition dec_iface (j : json) : option iface :=
  match struct_fields j with
  | None => None
  | Some l => match str_field "interface" l, bool_field "up" l, list_field dec_address "ipv4-address" l with
              | Some n, Some u, Some a => Some (MkIface n u a)
              | _, _, _ => None
              end
  end.

(** [dhcpInterfaceDump]. *)
Definition dec_dump (j : json) : option (list iface) :=
  match struct_fields j with
  | None => None
  | Some l => list_field dec_iface "interface" l
  end.

(** The dump of [healthCheck], without addresses. *)
Definition dec_state (j : json) : option (string * bool) :=
  match struct_fields j with
  | None => None
  | Some l => match str_field "interface" l, bool_field "up" l with
              | Some n, Some u => Some (n, u)
              | _, _ => None
              end
  end.
Definition dec_states (j : json) : option (list (string * bool)) :=
  match struct_fields j with
  | None => None
  | Some l => list_field dec_state "interface" l
  end.

Definition touched (plan : DevicePlan) (config section : string) : bool :=
  existsb (fun op => String.eqb (Config op) config && String.eqb (Section_ op) section) (Ops (dp_Plan plan)).

Definition required_by (plan : DevicePlan) (s : Section) : list string :=
  ((if String.eqb (sec_Config s) "network" && String.eqb (sec_Type s) "interface" && owned_section s &&
       touched plan "network" (sec_Name s)
    then [sec_Name s] else []) ++
   (if negb (String.eqb (sec_Config s) "wireless") || negb (owned_section s) then []
    else List.filter (fun i => HasPrefix i (NamePrefix ++ "_net_")) (Fields (get (sec_Values s) "network"))))%list.

Definition ownedInterfacesForPlan (plan : DevicePlan) : list string :=
  sorted_set (list_to_set (flat_map (required_by plan) (Sections (dp_Doc plan)))).

(** [state]: the last report of an interface counts. *)
Definition iface_state (dump : list iface) : gmap string bool :=
  fold_left (fun m i => <[if_Name i := if_Up i]> m) dump ∅.

Definition unavailable (dump : list iface) (required : list string) : list string :=
  flat_map (fun name => match iface_state dump !! name with
                        | None => [name ++ " (absent)"]
                        | Some false => [name ++ " (down)"]
                        | Some true => []
                        end) required.

(** ** DHCP (dhcphealth.go) *)

Record dhcpRuntimePool := MkPool {
  pl_section : string;
  pl_iface : string;
  pl_address : string;
  pl_prefix : Z;
  pl_rangeLine : string;
}.

Record dhcpRuntimePlan := MkDhcpPlan {
  dh_enabled : list dhcpRuntimePool;
  dh_absent : list string;
  dh_err : option err;
}.

(** [net.ParseIP(s).To4()]: a zone is refused, a mapped address is unmapped. *)
Definition ParseIP4 (s : string) : option Z :=
  match ParseAddr s with
  | Some (A4 v) => Some v
  | Some (A6 v z) => if String.eqb z "" && (v / 2 ^ 32 =? 65535) then Some (v mod 2 ^ 32) else None
  | None => None
  end.

(** [IPMask.Size] of a 32-bit mask, when its ones are contiguous. *)
Definition mask_ones (m : Z) : option Z :=
  List.find (fun n => m =? (2 ^ 32 - 2 ^ (32 - n)) ) (map Z.of_nat (seq 0 33)).

(** [strconv.ParseUint(s, 10, 32)]. *)
Definition ParseUint32 (s : string) : option Z :=
  match chars s with
  | [] => None
  | l => match digits_value l 0 with
         | Some z => if z <=? maxUint32 then Some z else None
         | None => None
         end
  end.

Definition dhcp_fault (text section : string) : err := MsgError (errf text [VS section]) [].

Definition buildDHCPRuntimePool (dhcp network : Section) : res err dhcpRuntimePool :=
  let address := get (sec_Values network) "ipaddr" in
  match ParseAddr address with
  | Some (A4 addr) =>
      match ParseIP4 (get (sec_Values network) "netmask") with
      | None => Err (dhcp_fault "health: DHCP section %s has an invalid rendered netmask" (sec_Name dhcp))
      | Some maskIP =>
          match mask_ones maskIP with
          | None => Err (dhcp_fault "health: DHCP section %s has a non-contiguous rendered netmask" (sec_Name dhcp))
          | Some ones =>
              match ParseUint32 (get (sec_Values dhcp) "start") with
              | None => Err (dhcp_fault "health: DHCP section %s has an invalid rendered pool start" (sec_Name dhcp))
              | Some start =>
                  match ParseUint32 (get (sec_Values dhcp) "limit") with
                  | None | Some 0 =>
                      Err (dhcp_fault "health: DHCP section %s has an invalid rendered pool limit" (sec_Name dhcp))
                  | Some limit =>
                      let base := Z.land addr maskIP in
                      let last := u64 (u64 (start + limit) - 1) in
                      if (maxUint32 - base <? start) || (maxUint32 - base <? last)
                      then Err (dhcp_fault "health: DHCP section %s has a rendered pool outside IPv4" (sec_Name dhcp))
                      else
                        let name := get (sec_Values dhcp) "interface" in
                        Ok (MkPool (sec_Name dhcp) name address ones
                              ("dhcp-range=set:" ++ name ++ "," ++ String4 (base + start) ++ "," ++
                               String4 (base + last) ++ "," ++ get (sec_Values network) "netmask" ++ "," ++
                               TrimSpace (get (sec_Values dhcp) "leasetime")))
                  end
              end
          end
      end
  | _ => Err (dhcp_fault "health: DHCP section %s has an invalid rendered IPv4 address" (sec_Name dhcp))
  end.

(** [networks]: the owned interfaces of the document, the last of a name. *)
Definition owned_networks (plan : DevicePlan) : gmap string Section :=
  fold_left (fun m s => if String.eqb (sec_Config s) "network" && String.eqb (sec_Type s) "interface" &&
                           owned_section s then <[sec_Name s := s]> m else m)
    (Sections (dp_Doc plan)) ∅.

Definition wlan_networks (plan : DevicePlan) : list string :=
  flat_map (fun s => if String.eqb (sec_Config s) "wireless" && owned_section s && touched plan "wireless" (sec_Name s)
                     then Fields (get (sec_Values s) "network") else [])
    (Sections (dp_Doc plan)).

Definition previous_iface (plan : DevicePlan) (section : string) : option string :=
  let previous := default ∅ (In_ (dp_Existing plan) "dhcp" !! section) in
  if String.eqb (get previous OwnershipTag) "1" && negb (String.eqb (get previous "interface") "")
  then Some (get previous "interface") else None.

(** A DHCP section this apply makes a claim about. *)
Definition claims_pool (plan : DevicePlan) (s : Section) : bool :=
  String.eqb (sec_Config s) "dhcp" && String.eqb (sec_Type s) "dhcp" && owned_section s &&
  (touched plan "dhcp" (sec_Name s) || touched plan "network" (get (sec_Values s) "interface") ||
   existsb (String.eqb (get (sec_Values s) "interface")) (wlan_networks plan)).

(** The loop over the sections: pools, their interfaces and the interfaces
    they moved away from. *)
Fixpoint collect_pools (plan : DevicePlan) (l : list Section)
    : list dhcpRuntimePool * list string * list string * option err :=
  match l with
  | [] => ([], [], [], None)
  | s :: l' =>
      if negb (claims_pool plan s) then collect_pools plan l'
      else
        let name := get (sec_Values s) "interface" in
        match owned_networks plan !! name with
        | None => ([], [], [], Some (MsgError (errf "health: rendered DHCP section %s has no owned runtime interface %s"
                                                 [VS (sec_Name s); VS name]) []))
        | Some network =>
            match buildDHCPRuntimePool s network with
            | Err e => ([], [], [], Some e)
            | Ok pool =>
                let '(pools, enabled, absent, e) := collect_pools plan l' in
                (pool :: pools, name :: enabled,
                 (match previous_iface plan (sec_Name s) with
                  | Some p => if String.eqb p name then absent else p :: absent
                  | None => absent
                  end), e)
            end
        end
  end.

Definition deleted_pools (plan : DevicePlan) : list string :=
  flat_map (fun op => if negb (String.eqb (Config op) "dhcp") || negb (String.eqb (Kind op) OpDelete) ||
                         negb (String.eqb (Option_ op) "") then []
                      else match previous_iface plan (Section_ op) with Some p => [p] | None => [] end)
    (Ops (dp_Plan plan)).

(** [None] when the apply makes no DHCP claim. *)
Definition dhcpRuntimePlanFor (plan : DevicePlan) : option dhcpRuntimePlan :=
  let '(pools, enabled, absent, e) := collect_pools plan (Sections (dp_Doc plan)) in
  match e with
  | Some e => Some (MkDhcpPlan pools [] (Some e))
  | None =>
      let gone := sorted_set (list_to_set (absent ++ deleted_pools plan)%list ∖ list_to_set enabled) in
      if Nat.eqb (length pools) 0 && Nat.eqb (length gone) 0 then None else Some (MkDhcpPlan pools gone None)
  end.

(** What the observation error says besides the target. *)
Definition acl_repair : string :=
  ". The current UI repair is to un-adopt this device (which first removes controller-owned device " ++
  "configuration and its controller login/ACL), then adopt it again so the current access-control file is " ++
  "installed; preview before restoring site configuration. The new ACL grants only service.list plus read-only " ++
  "access to the service path /var/etc/dnsmasq.conf.* and its canonical /tmp/etc/dnsmasq.conf.* target for this proof".

Definition dhcpObservationPermanent (e : err) : bool :=
  match as_denied e with
  | Some _ => true
  | None =>
      match as_status e with
      | Some st => (st =? StatusPermissionDenied) || (st =? StatusMethodNotFound) ||
                   (st =? StatusNotSupported) || (st =? StatusInvalidCommand) ||
                   bool_decide (is_Some (as_protocol e))
      | None => bool_decide (is_Some (as_protocol e))
      end
  end.

Definition dhcpObservationError (target : string) (e : err) : option fault :=
  Some (MkFault (errf "health: controller cannot observe %s: " [VS target] ++ "%v" ++ acl_repair) [e]
          (dhcpObservationPermanent e)).

Definition proveDHCPInterface (pool : dhcpRuntimePool) (dump : list iface) : option fault :=
  match List.find (fun i => String.eqb (if_Name i) (pl_iface pool)) dump with
  | None => fail (errf "health: managed DHCP interface %s is absent" [VS (pl_iface pool)])
  | Some i =>
      if negb (if_Up i) then fail (errf "health: managed DHCP interface %s is down" [VS (pl_iface pool)])
      else if existsb (fun a => String.eqb (fst a) (pl_address pool) && (snd a =? pl_prefix pool)) (if_Addresses i)
      then None
      else fail (errf "health: managed DHCP interface %s is up without expected address %s/%d"
                   [VS (pl_iface pool); VS (pl_address pool); VD (pl_prefix pool)])
  end.

Fixpoint first_fault {A} (check : A -> option fault) (l : list A) : option fault :=
  match l with
  | [] => None
  | a :: l' => match check a with Some f => Some f | None => first_fault check l' end
  end.

(** The configuration file of a dnsmasq command line: the first argument that
    names one. *)
Fixpoint config_argument (command : list string) : string :=
  match command with
  | [] => ""
  | arg :: rest =>
      let candidate :=
        match rest with
        | next :: _ => if String.eqb arg "-C" then Some next else None
        | [] => None
        end in
      let c := match candidate with
               | Some c => c
               | None => if HasPrefix arg "-C" && (2 <? len arg) then of_chars (drop 2 (chars arg))
                         else if HasPrefix arg "--conf-file=" then of_chars (drop 12 (chars arg))
                         else ""
               end in
      if String.eqb c "" then config_argument rest else c
  end.

Definition conf_prefix : string := "/var/etc/dnsmasq.conf.".

Definition conf_char (c : ascii) : bool :=
  is_lower c || is_upper c || is_digit c || Ascii.eqb c "_" || Ascii.eqb c "-" || Ascii.eqb c ".".

Definition dnsmasqConfigPath (command : list string) : option string :=
  let candidate := config_argument command in
  if negb (String.eqb (path_Clean candidate) candidate) then None
  else match strip_prefix (chars conf_prefix) (chars candidate) with
       | None => None
       | Some suffix =>
           if Nat.eqb (length suffix) 0 || existsb (Ascii.eqb "/") suffix then None
           else if forallb conf_char suffix then Some candidate else None
       end.

Record dnsmasqInstance := MkInstance { in_Running : bool; in_PID : Z; in_Command : list string }.

Definition dec_instance (j : json) : option dnsmasqInstance :=
  match struct_fields j with
  | None => None
  | Some l => match bool_field "running" l, int_field "pid" l, list_field dec_str "command" l with
              | Some r, Some p, Some c => Some (MkInstance r p c)
              | _, _, _ => None
              end
  end.

Definition dec_service (j : json) : option (gmap string dnsmasqInstance) :=
  match struct_fields j with
  | None => None
  | Some l => struct_field (dec_map dec_instance) ∅ "instances" l
  end.

Definition dec_services : json -> option (gmap string (gmap string dnsmasqInstance)) := dec_map dec_service.

Definition dec_data (j : json) : option string :=
  match struct_fields j with
  | None => None
  | Some l => str_field "data" l
  end.

(** The configuration files of the running instances. Go ranges over them in
    map order, which decides only which of two faults is reported. *)
Fixpoint running_paths (l : list dnsmasqInstance) : fault + list string :=
  match l with
  | [] => inr []
  | i :: l' =>
      if negb (in_Running i) then running_paths l'
      else if in_PID i <=? 0
      then inl (MkFault "health: dnsmasq reports a running instance without a positive pid" [] false)
      else match dnsmasqConfigPath (in_Command i) with
           | None => inl (MkFault ("health: a running dnsmasq instance does not expose a safe -C " ++
                                   "runtime config path") [] false)
           | Some p => match running_paths l' with
                       | inl f => inl f
                       | inr ps => inr (p :: ps)
                       end
           end
  end.

(** The [dhcp-range] lines of a file and the interfaces they are tagged for. *)
Definition range_lines (data : string) : list string :=
  List.filter (fun line => HasPrefix line "dhcp-range=") (map TrimSpace (Split data (chr 10))).

Definition range_ifaces (line : string) : list string :=
  flat_map (fun field => if HasPrefix field "set:" then [of_chars (drop 4 (chars field))] else [])
    (Split (of_chars (drop 11 (chars line))) ","%char).

Definition prove_ranges (check : dhcpRuntimePlan) (lines : list string) : option fault :=
  match first_fault (fun pool =>
          if existsb (String.eqb (pl_rangeLine pool)) lines then None
          else fail (errf ("health: running dnsmasq does not contain the exact controller-owned range " ++
                           "for %s (%s)") [VS (pl_iface pool); VS (pl_section pool)])) (dh_enabled check) with
  | Some f => Some f
  | None =>
      first_fault (fun i =>
        if existsb (String.eqb i) (flat_map range_ifaces lines)
        then fail (errf ("health: a dnsmasq range still targets %s, so the removed controller-owned pool cannot " ++
                         "be proved inactive; this does not assert whether other DHCP servers are present") [VS i])
        else None) (dh_absent check)
  end.
