(* ===== verification/WirelessHealth.v ===== *)
(** * The wireless claims of an apply (internal/daemon/wirelesshealth.go)

    Which BSS a plan wants and which sections it removes, and how the answers
    of the device are held against that, section by section. *)

From Stdlib Require Import ZArith Lia Ascii String.
From stdpp Require Import base gmap list strings sorting.
From S2P Require Import Prelude GoStr GoFmt Ubus GoJson ApplyEngine RenderPlan Reconcile DhcpHealth.

Local Open Scope string_scope.
Local Open Scope Z_scope.

Record wirelessRuntimeBSS := MkBSS { bs_section : string; bs_ssid : string; bs_isolated : bool }.
Record wirelessRuntimePlan := MkWirelessPlan { wr_desired : list wirelessRuntimeBSS; wr_absent : list string }.

(** A section that asks for a BSS. *)
Definition wants_bss (s : Section) : bool :=
  String.eqb (sec_Config s) "wireless" && negb (String.eqb (get (sec_Values s) "ssid") "") &&
  negb (String.eqb (get (sec_Values s) "disabled") "1").

Definition bss_of (s : Section) : wirelessRuntimeBSS :=
  MkBSS (sec_Name s) (get (sec_Values s) "ssid") (String.eqb (get (sec_Values s) "isolate") "1").

Definition add_bss (m : gmap string wirelessRuntimeBSS) (s : Section) : gmap string wirelessRuntimeBSS :=
  if wants_bss s then <[sec_Name s := bss_of s]> m else m.
Definition wanted_bss (plan : DevicePlan) : gmap string wirelessRuntimeBSS :=
  fold_left add_bss (Sections (dp_Doc plan)) ∅.

Definition wirelessRuntimePlanFor (plan : DevicePlan) : wirelessRuntimePlan :=
  let want := wanted_bss plan in
  MkWirelessPlan
    (omap (fun name => want !! name) (sort_strings (keys want)))
    (sort_strings (flat_map (fun op =>
       if negb (String.eqb (Config op) "wireless") || negb (String.eqb (Option_ op) "") ||
          negb (String.eqb (Kind op) OpDelete) then []
       else if has want (Section_ op) then [] else [Section_ op]) (Ops (dp_Plan plan)))).

Definition wireless_empty (p : wirelessRuntimePlan) : bool :=
  Nat.eqb (length (wr_desired p)) 0 && Nat.eqb (length (wr_absent p)) 0.

(** An interface of [getWirelessDevices]: its name, UCI section and SSID. *)
Record wlan_iface := MkWlanIface { wi_ifname : string; wi_section : string; wi_ssid : string }.

Definition dec_ssid (j : json) : option string :=
  match struct_fields j with
  | None => None
  | Some l => str_field "ssid" l
  end.

Definition dec_wlan_iface (j : json) : option wlan_iface :=
  match struct_fields j with
  | None => None
  | Some l => match str_field "ifname" l, str_field "section" l, struct_field dec_ssid "" "config" l with
              | Some n, Some s, Some c => Some (MkWlanIface n s c)
              | _, _, _ => None
              end
  end.

Definition dec_radio (j : json) : option (list wlan_iface) :=
  match struct_fields j with
  | None => None
  | Some l => list_field dec_wlan_iface "interfaces" l
  end.

Definition dec_wireless : json -> option (gmap string (list wlan_iface)) := dec_map dec_radio.

(** [bySection]: the interfaces a section maps to. Go ranges over the radios in
    map order; only their number and a single one are looked at. *)
Definition by_section (dump : gmap string (list wlan_iface)) (section : string) : list wlan_iface :=
  List.filter (fun i => negb (String.eqb (wi_section i) "") && String.eqb (wi_section i) section)
    (flat_map snd (map_to_list dump)).

Definition safeWirelessIfname (ifname : string) : bool :=
  negb (String.eqb ifname "") && negb (String.eqb ifname ".") && negb (String.eqb ifname "..") &&
  (len ifname <=? 15) && negb (ContainsAny ifname ["/"%char; chr 0]).

Definition fault_over (text : string) (e : err) (final : bool) : option fault :=
  Some (MkFault (text ++ "%v") [e] final).

Definition wirelessInventoryFailure (e : err) : option fault :=
  match as_denied e with
  | Some _ => fault_over ("health: luci-rpc.getWirelessDevices was denied; re-adopt the device with the current " ++
                          "controller ACL before applying wireless changes: ") e true
  | None =>
      match as_status e with
      | Some st =>
          if (st =? StatusNotFound) || (st =? StatusNotSupported) || (st =? StatusMethodNotFound)
          then fault_over ("health: luci-rpc.getWirelessDevices is unavailable on this LuCI/OpenWrt version, " ++
                           "so per-section wireless state cannot be proven: ") e true
          else fault_over "health: could not read per-section wireless runtime state: " e false
      | None => fault_over "health: could not read per-section wireless runtime state: " e false
      end
  end.

Definition wirelessStatusFailure (section ifname : string) (e : err) : option fault :=
  match as_denied e with
  | Some _ => fault_over (errf ("health: hostapd.%s.get_status for wireless.%s was denied; re-adopt the device " ++
                                "with the current controller ACL: ") [VS ifname; VS section]) e true
  | None => fault_over (errf "health: hostapd runtime for wireless.%s (%s) is unavailable: "
                          [VS section; VS ifname]) e false
  end.

Definition bridgeIsolationFailure (section ifname path : string) (e : err) : option fault :=
  let unavailable := fault_over (errf ("health: bridge-port isolation state %s for wireless.%s is unavailable; " ++
                                       "this OpenWrt/netifd version may not implement bridge_isolate for the BSS: ")
                                   [VS path; VS section]) e false in
  match as_denied e with
  | Some _ => fault_over (errf ("health: file.read of %s for wireless.%s was denied; re-adopt the device with " ++
                                "the current controller ACL, which grants both /sys/class/net/*/brport/isolated " ++
                                "and its canonical /sys/devices/*/brport/isolated target: ")
                             [VS path; VS section]) e true
  | None =>
      match as_status e with
      | Some st =>
          if (st =? StatusPermissionDenied) || (st =? StatusNotSupported)
          then fault_over (errf ("health: bridge-port isolation for wireless.%s (%s) cannot be read on this " ++
                                 "OpenWrt/rpcd version: ") [VS section; VS ifname]) e true
          else unavailable
      | None => unavailable
      end
  end.

(** What the inventory says of one desired BSS: the interface to ask, or why
    there is none. *)
Definition mapped_iface (dump : gmap string (list wlan_iface)) (want : wirelessRuntimeBSS) : fault + wlan_iface :=
  let name := VS (bs_section want) in
  match by_section dump (bs_section want) with
  | [] => inl (MkFault (errf ("health: wireless.%s was not mapped to a runtime interface by " ++
                              "luci-rpc.getWirelessDevices; this LuCI/OpenWrt version may not expose " ++
                              "managed section identities, so its SSID and bridge isolation cannot be proven")
                          [name]) [] false)
  | [got] =>
      if String.eqb (wi_ifname got) ""
      then inl (MkFault (errf "health: wireless.%s is present but has no runtime interface name yet" [name]) [] false)
      else if negb (safeWirelessIfname (wi_ifname got))
      then inl (MkFault (errf "health: wireless.%s has unsafe runtime interface name %q" [name; VS (wi_ifname got)])
                  [] true)
      else if negb (String.eqb (wi_ssid got) (bs_ssid want))
      then inl (MkFault (errf "health: wireless.%s maps to %s with configured SSID %q, want %q"
                           [name; VS (wi_ifname got); VS (wi_ssid got); VS (bs_ssid want)]) [] false)
      else inr got
  | l => inl (MkFault (errf "health: wireless.%s maps to %d runtime interfaces; refusing to guess which BSS to verify"
                         [name; VD (Z.of_nat (length l))]) [] true)
  end.

Definition dec_status (j : json) : option (string * string) :=
  match struct_fields j with
  | None => None
  | Some l => match str_field "ssid" l, str_field "status" l with
              | Some a, Some b => Some (a, b)
              | _, _ => None
              end
  end.

Definition prove_status (want : wirelessRuntimeBSS) (ifname : string) (status : string * string) : option fault :=
  if negb (String.eqb (fst status) (bs_ssid want))
  then fail (errf "health: wireless.%s maps to %s, but hostapd is carrying SSID %q, want %q"
               [VS (bs_section want); VS ifname; VS (fst status); VS (bs_ssid want)])
  else if negb (String.eqb (snd status) "") && negb (EqualFold (snd status) "ENABLED")
  then fail (errf "health: wireless.%s maps to %s, but hostapd status is %q"
               [VS (bs_section want); VS ifname; VS (snd status)])
  else None.

Definition isolated_path (ifname : string) : string := path_Join ["/sys/class/net"; ifname; "brport/isolated"].

Definition prove_isolated (want : wirelessRuntimeBSS) (ifname data : string) : option fault :=
  if String.eqb (TrimSpace data) "1" then None
  else fail (errf ("health: wireless.%s (%s) reports brport isolated=%q after bridge_isolate=1; " ++
                   "this OpenWrt/netifd version may be ignoring bridge_isolate")
               [VS (bs_section want); VS ifname; VS (TrimSpace data)]).
