(* ===== verification/RuntimeHealth.v ===== *)
(** * The runtime health proof of an apply (internal/daemon)

    What the daemon checks on the device while the rollback timer is armed:
    the health check of provision.go, with the calls of dhcphealth.go and
    wirelesshealth.go. Each proof is a claim read off the plan ([DhcpHealth],
    [WirelessHealth]) and a check of what the device reports now; the settle
    loops repeat it until it holds, fails for good, or time is up. *)

From Stdlib Require Import ZArith Lia Ascii String.
From stdpp Require Import base gmap list strings sorting.
From S2P Require Import Prelude GoStr GoFmt Ubus GoJson ApplyEngine RenderPlan Reconcile DhcpHealth WirelessHealth.

Local Open Scope string_scope.
Local Open Scope Z_scope.

(** ** The SSIDs an apply removes (provision.go) *)

Definition wantSSIDs (plan : DevicePlan) : list string :=
  map (fun s => get (sec_Values s) "ssid") (List.filter wants_bss (Sections (dp_Doc plan))).

Definition gone_ssid (plan : DevicePlan) (op : Op) : list string :=
  if negb (String.eqb (Config op) "wireless") || negb (String.eqb (Option_ op) "") then []
  else if String.eqb (Kind op) OpDelete ||
          ((String.eqb (Kind op) OpSet || String.eqb (Kind op) OpAdd) &&
           bool_decide (is_Some (assoc "ssid" (Values op))))
  then match In_ (dp_Existing plan) "wireless" !! Section_ op with
       | None => []
       | Some prev => let ssid := get prev "ssid" in
                      if negb (String.eqb ssid "") && negb (existsb (String.eqb ssid) (wantSSIDs plan))
                      then [ssid] else []
       end
  else [].

Definition goneSSIDs (plan : DevicePlan) : gset string :=
  list_to_set (flat_map (gone_ssid plan) (Ops (dp_Plan plan))).

Definition stillOn (found gone : gset string) : list string := sorted_set (gone ∩ found).

(** ** The checks on the device *)

Definition dhcpSettleTimeout : Z := 20 * second.
Definition ssidSettleTimeout : Z := 20 * second.

Definition dec_devices (j : json) : option (list string) :=
  match struct_fields j with
  | None => None
  | Some l => list_field dec_str "devices" l
  end.

Section OnDevice.
Context {W : Type} `{World W}.
Local Notation CM := (M (cstate W)).

Definition checkOwnedInterfacesOnce (required : list string) : CM (option fault) :=
  do r <- Call dec_dump [] "network.interface" "dump" (JObj []);
  ret (match r with
       | Err e => Some (MkFault "health: could not read managed interface runtime: %v" [e] false)
       | Ok dump =>
           match unavailable dump required with
           | [] => None
           | l => fail ("health: managed interface required by this plan is not up: [" ++ Join l " " ++ "]")
           end
       end).

Fixpoint read_ranges (paths : list string) (acc : list string) : CM (fault + list string) :=
  match paths with
  | [] => ret (inr acc)
  | p :: paths' =>
      do r <- Call dec_data "" "file" "read" (JObj [("path", JStr p)]);
      match r with
      | Err e => ret (match dhcpObservationError "dnsmasq runtime config" e with
                      | Some f => inl f
                      | None => inr acc
                      end)
      | Ok data => read_ranges paths' (acc ++ range_lines data)%list
      end
  end.

(** The part of [checkDHCPRuntimeOnce] about dnsmasq. *)
Definition check_dnsmasq (check : dhcpRuntimePlan) : CM (option fault) :=
  do r <- Call dec_services ∅ "service" "list" (JObj [("name", JStr "dnsmasq"); ("verbose", JBool true)]);
  match r with
  | Err e => ret (dhcpObservationError "service.list for dnsmasq" e)
  | Ok services =>
      match running_paths (map snd (map_to_list (default ∅ (services !! "dnsmasq")))) with
      | inl f => ret (Some f)
      | inr [] =>
          ret (if Nat.eqb (length (dh_enabled check)) 0 then None
               else fail "health: dnsmasq has no running instance for the enabled controller-owned DHCP pool")
      | inr paths =>
          do lines <- read_ranges (sorted_set (list_to_set paths)) [];
          ret (match lines with inl f => Some f | inr l => prove_ranges check l end)
      end
  end.

Definition checkDHCPRuntimeOnce (check : dhcpRuntimePlan) : CM (option fault) :=
  if Nat.eqb (length (dh_enabled check)) 0 then check_dnsmasq check
  else
    do r <- Call dec_dump [] "network.interface" "dump" (JObj []);
    match r with
    | Err e => ret (dhcpObservationError "managed interface runtime" e)
    | Ok dump =>
        match first_fault (fun pool => proveDHCPInterface pool dump) (dh_enabled check) with
        | Some f => ret (Some f)
        | None => check_dnsmasq check
        end
    end.

(** One desired BSS. *)
Definition check_bss (dump : gmap string (list wlan_iface)) (want : wirelessRuntimeBSS) : CM (option fault) :=
  match mapped_iface dump want with
  | inl f => ret (Some f)
  | inr got =>
      let ifname := wi_ifname got in
      do r <- Call dec_status ("", "") ("hostapd." ++ ifname) "get_status" (JObj []);
      match r with
      | Err e => ret (wirelessStatusFailure (bs_section want) ifname e)
      | Ok status =>
          match prove_status want ifname status with
          | Some f => ret (Some f)
          | None =>
              if negb (bs_isolated want) then ret None
              else
                do d <- Call dec_data "" "file" "read" (JObj [("path", JStr (isolated_path ifname))]);
                ret (match d with
                     | Err e => bridgeIsolationFailure (bs_section want) ifname (isolated_path ifname) e
                     | Ok data => prove_isolated want ifname data
                     end)
          end
      end
  end.

Fixpoint check_all_bss (dump : gmap string (list wlan_iface)) (l : list wirelessRuntimeBSS) : CM (option fault) :=
  match l with
  | [] => ret None
  | want :: l' =>
      do f <- check_bss dump want;
      match f with
      | Some f => ret (Some f)
      | None => check_all_bss dump l'
      end
  end.

Definition lingering_section (dump : gmap string (list wlan_iface)) (section : string) : option fault :=
  match by_section dump section with
  | [] => None
  | _ => fail (errf "health: wireless.%s still maps to a runtime BSS after this change removed it" [VS section])
  end.

Definition checkWirelessRuntimeOnce (plan : wirelessRuntimePlan) : CM (option fault) :=
  if wireless_empty plan then ret None
  else
    do r <- Call dec_wireless ∅ "luci-rpc" "getWirelessDevices" (JObj []);
    match r with
    | Err e => ret (wirelessInventoryFailure e)
    | Ok dump =>
        match first_fault (lingering_section dump) (wr_absent plan) with
        | Some f => ret (Some f)
        | None => check_all_bss dump (wr_desired plan)
        end
    end.

(** [readSSIDs]: what cannot be read is not found. *)
Fixpoint read_ssids (ifaces : list string) (found : gset string) : CM (gset string) :=
  match ifaces with
  | [] => ret found
  | i :: l =>
      do r <- Call dec_ssid "" ("hostapd." ++ i) "get_status" (JObj []);
      read_ssids l (match r with
                    | Ok ssid => if String.eqb ssid "" then found else {[ssid]} ∪ found
                    | Err _ => found
                    end)
  end.
Definition readSSIDs : CM (gset string) :=
  do r <- Call dec_devices [] "iwinfo" "devices" (JObj []);
  match r with
  | Err _ => ret ∅
  | Ok devices => read_ssids devices ∅
  end.

(** ** Settling *)

(** The loop of [waitForOwnedInterfaces] and [waitForDHCPRuntime]; the outer
    [None] is running out of fuel. *)
Fixpoint settle (fuel : nat) (deadline : Z) (once : CM (option fault)) (late : fault -> err)
    : CM (option (option err)) :=
  match fuel with
  | O => ret None
  | S f =>
      do r <- once;
      match r with
      | None => ret (Some None)
      | Some fl =>
          if fl_final fl then ret (Some (Some (fault_error fl)))
          else
            do t <- e_now;
            if negb (t <? deadline) then ret (Some (Some (late fl)))
            else
              do c <- e_sleep second;
              match c with
              | Some c => ret (Some (Some (CtxError c)))
              | None => settle f deadline once late
              end
      end
  end.

Definition late_fault (tail : string) (f : fault) : err := MsgError (fl_text f ++ tail) (fl_shown f).

Definition waitForOwnedInterfaces (fuel : nat) (required : list string) : CM (option (option err)) :=
  if Nat.eqb (length required) 0 then ret (Some None)
  else
    do t <- e_now;
    settle fuel (t + dhcpSettleTimeout) (checkOwnedInterfacesOnce required)
      (late_fault "; managed interfaces did not settle within 20s, so the device will revert").

Definition waitForDHCPRuntime (fuel : nat) (check : option dhcpRuntimePlan) : CM (option (option err)) :=
  match check with
  | None => ret (Some None)
  | Some check =>
      match dh_err check with
      | Some e => ret (Some (Some e))
      | None =>
          do t <- e_now;
          settle fuel (t + dhcpSettleTimeout) (checkDHCPRuntimeOnce check)
            (late_fault "; DHCP runtime did not settle within 20s, so the device will revert")
      end
  end.

(** The loop of [healthCheck] over the wireless claim and the removed SSIDs;
    [found] is what the last round found. *)
Fixpoint settle_wireless (fuel : nat) (deadline : Z) (check : wirelessRuntimePlan) (gone found : gset string)
    : CM (option (option err)) :=
  match fuel with
  | O => ret None
  | S f =>
      do fl <- checkWirelessRuntimeOnce check;
      do found <- (if bool_decide (gone = ∅) then ret found else readSSIDs);
      let lingering := stillOn found gone in
      match fl, lingering with
      | None, [] => ret (Some None)
      | _, _ =>
          if match fl with Some fl => fl_final fl | None => false end
          then ret (Some (option_map (late_fault "; the device will revert") fl))
          else
            do t <- e_now;
            if deadline <? t then
              ret (Some (match lingering with
                         | _ :: _ =>
                             Some (MsgError (errf ("health: after %s, hostapd is still carrying %d SSID(s) this " ++
                               "change removed: [%s] — the config no longer has them, so letting the device revert " ++
                               "rather than recording them as gone (note this reads hostapd, not the air: a radio " ++
                               "can keep transmitting an SSID hostapd has dropped, which the on-air check finds " ++
                               "and this cannot)")
                               [VS "20s"; VD (Z.of_nat (length lingering)); VS (Join lingering " ")]) [])
                         | [] => option_map (late_fault ("; wireless runtime did not settle within 20s, so the " ++
                                                         "device will revert")) fl
                         end))
            else
              do c <- e_sleep second;
              match c with
              | Some c => ret (Some (Some (CtxError c)))
              | None => settle_wireless f deadline check gone found
              end
      end
  end.

(** [healthCheck] with a bound on the rounds of each loop. *)
Definition health_run (fuel : nat) (plan : DevicePlan) : CM (option (option err)) :=
  do r <- Call dec_states [] "network.interface" "dump" (JObj []);
  match r with
  | Err e => ret (Some (Some (WrapError "health: could not read interface state" e)))
  | Ok dump =>
      if existsb (fun i => String.eqb (fst i) "lan" && negb (snd i)) dump
      then ret (Some (Some (MsgError "health: the lan interface is down after this change" [])))
      else
        do a <- waitForOwnedInterfaces fuel (ownedInterfacesForPlan plan);
        match a with
        | None => ret None
        | Some (Some e) => ret (Some (Some e))
        | Some None =>
            do b <- waitForDHCPRuntime fuel (dhcpRuntimePlanFor plan);
            match b with
            | None => ret None
            | Some (Some e) => ret (Some (Some e))
            | Some None =>
                let check := wirelessRuntimePlanFor plan in
                let gone := goneSSIDs plan in
                if wireless_empty check && bool_decide (gone = ∅) then ret (Some None)
                else
                  do t <- e_now;
                  settle_wireless fuel (t + ssidSettleTimeout) check gone ∅
            end
        end
  end.

(** A settle loop sleeps a second between its rounds and gives up 20 seconds
    after it started, so it runs at most 22 rounds ([health_returns]). *)
Definition health_fuel : nat := 22.

Definition healthCheck (plan : DevicePlan) : HealthCheck (W := W) :=
  do r <- health_run health_fuel plan;
  ret (match r with Some r => r | None => Some (MsgError "health: not settled" []) end).
End OnDevice.
