(* ===== verification/RuntimeHealthSpec.v ===== *)
(** * What a clean health check proves

    A run of [healthCheck] that finds no fault has asked the device for, and
    been told, everything the plan claims: [healthy]. The check only reads and
    stays in its session ([healthCheck_good], what the apply engine asks of a
    health check); put together with the engine, an applied plan was healthy
    while its rollback was armed, and a run sends nothing but the plan's requests
    and the reads of the check. *)

From Stdlib Require Import ZArith Lia Ascii String.
From stdpp Require Import base gmap list strings sorting.
From S2P Require Import Prelude GoStr GoFmt NetIP Ubus UbusTrace GoJson ApplyEngine ApplyEngineSpec.
From S2P Require Import RenderPlan RenderPlanSpec Reconcile DhcpHealth WirelessHealth RuntimeHealth.

Local Open Scope string_scope.
Local Open Scope Z_scope.

(** ** The check only reads *)

Definition services_args : json := JObj [("name", JStr "dnsmasq"); ("verbose", JBool true)].

(** The files the check may read: a runtime configuration of dnsmasq, or the
    isolation state of a bridge port. *)
Definition health_path (path : string) : Prop :=
  (exists command, dnsmasqConfigPath command = Some path) \/
  (exists ifname, safeWirelessIfname ifname = true /\ path = isolated_path ifname).

(** Every kind of request the check sends. *)
Inductive health_request (q : rpcRequest) : Prop :=
| hr_login : login_request q -> health_request q
| hr_interfaces : inv_of q = MkInvocation "network.interface" "dump" (JObj []) -> health_request q
| hr_services : inv_of q = MkInvocation "service" "list" services_args -> health_request q
| hr_file path : health_path path -> inv_of q = MkInvocation "file" "read" (JObj [("path", JStr path)]) ->
    health_request q
| hr_inventory : inv_of q = MkInvocation "luci-rpc" "getWirelessDevices" (JObj []) -> health_request q
| hr_status ifname : inv_of q = MkInvocation ("hostapd." ++ ifname) "get_status" (JObj []) -> health_request q
| hr_devices : inv_of q = MkInvocation "iwinfo" "devices" (JObj []) -> health_request q.

(** The files read are those that running instances and safe names give. *)
Lemma running_paths_spec l : forall ps, running_paths l = inr ps ->
  (forall p, p ∈ ps -> exists i, i ∈ l /\ in_Running i = true /\ 0 < in_PID i /\ dnsmasqConfigPath (in_Command i) = Some p) /\
  (forall i, i ∈ l -> in_Running i = true -> exists p, p ∈ ps /\ dnsmasqConfigPath (in_Command i) = Some p).
Proof.
  induction l as [|i l IH]; intros ps E; cbn [running_paths] in E.
  { injection E as <-. split; [intros p Hp; by apply elem_of_nil in Hp|intros i Hi; by apply elem_of_nil in Hi]. }
  destruct (in_Running i) eqn:Er; cbn [negb] in E.
  - destruct (in_PID i <=? 0) eqn:Ep; [done|]. destruct (dnsmasqConfigPath (in_Command i)) as [p|] eqn:Ec; [|done].
    destruct (running_paths l) as [|ps0]; [done|]. injection E as <-. destruct (IH ps0 eq_refl) as [H1 H2]. split.
    + intros q [->|Hq]%elem_of_cons; [exists i; split_and!; [left|done|lia|done]|].
      destruct (H1 q Hq) as (j & Hj & Hrest). exists j. split; [by right|done].
    + intros j [->|Hj]%elem_of_cons Hr; [exists p; split; [left|done]|].
      destruct (H2 j Hj Hr) as (q & Hq & Hc). exists q. split; [by right|done].
  - destruct (IH ps E) as [H1 H2]. split.
    + intros q Hq. destruct (H1 q Hq) as (j & Hj & Hrest). exists j. split; [by right|done].
    + intros j [->|Hj]%elem_of_cons Hr; [congruence|by apply H2].
Qed.

Lemma mapped_iface_inr dump want got : mapped_iface dump want = inr got ->
  by_section dump (bs_section want) = [got] /\ safeWirelessIfname (wi_ifname got) = true /\ wi_ssid got = bs_ssid want.
Proof.
  unfold mapped_iface. destruct (by_section dump (bs_section want)) as [|x [|y l]]; try done.
  destruct (String.eqb (wi_ifname x) ""); [done|]. destruct (safeWirelessIfname (wi_ifname x)) eqn:Es; [|done].
  cbn [negb]. destruct (String.eqb_spec (wi_ssid x) (bs_ssid want)) as [Hs|]; [|done]. intros [= <-]. done.
Qed.

Create HintDb oonfee_health.

Section Reads.
Context {W : Type} `{World W}.
Local Notation CM := (M (cstate W)).

(** A computation that only reads and stays in its session. *)
Definition reading {A} (m : CM A) : Prop := posts_only health_request m /\ keeps_session m.

Lemma reading_ret {A} (a : A) : reading (ret a).
Proof. split; [apply posts_only_ret|apply keeps_session_ret]. Qed.

Lemma reading_bind {A B} (m : CM A) (k : A -> CM B) :
  reading m -> (forall a, reading (k a)) -> reading (bind m k).
Proof.
  intros [H1 H2] Hk. split; [apply posts_only_bind|apply keeps_session_bind]; try done; intros a; apply (Hk a).
Qed.

Lemma reading_call {A} (dec : json -> option A) zero o m args :
  (forall id sess, health_request (MkRequest id sess o m args)) -> reading (Call dec zero o m args).
Proof.
  intros Hm. split; [apply posts_only_call; [done|by constructor]|apply keeps_session_call].
Qed.

Lemma reading_now : reading e_now.
Proof.
  split; [apply posts_only_quiet|apply keeps_session_quiet]; intros s; unfold e_now; by destruct (now _).
Qed.
Lemma reading_sleep d : reading (e_sleep d).
Proof.
  split; [apply posts_only_quiet|apply keeps_session_quiet]; intros s; unfold e_sleep; by destruct (sleep _ _).
Qed.

#[local] Hint Resolve reading_ret reading_now reading_sleep : oonfee_health.
#[local] Hint Extern 1 (health_request _) => by eauto using health_request : oonfee_health.

Ltac reads :=
  repeat first
    [ progress intros
    | progress cbv beta zeta
    | solve [auto with oonfee_health]
    | match goal with
      | |- reading (bind _ _) => apply reading_bind
      | |- reading (Call _ _ _ _ _) => apply reading_call
      | |- reading (match ?x with _ => _ end) => destruct x
      end ].

Lemma reading_interfaces required : reading (checkOwnedInterfacesOnce required).
Proof. unfold checkOwnedInterfacesOnce. reads. Qed.
#[local] Hint Resolve reading_interfaces : oonfee_health.

Lemma reading_ranges paths : forall acc,
  (forall p, p ∈ paths -> health_path p) -> reading (read_ranges paths acc).
Proof.
  induction paths as [|p paths IH]; intros acc Hp; cbn [read_ranges]; [reads|]. apply reading_bind.
  - apply reading_call. intros id sess. eapply hr_file; [apply Hp; left|done].
  - intros [data|e]; [apply IH; intros q Hq; apply Hp; by right|reads].
Qed.

Lemma sorted_set_elem (m : gset string) x : x ∈ sorted_set m <-> x ∈ m.
Proof. unfold sorted_set, sort_strings. by rewrite merge_sort_Permutation, elem_of_elements. Qed.

Lemma sorted_list_elem (l : list string) x : x ∈ sorted_set (list_to_set l) <-> x ∈ l.
Proof. by rewrite sorted_set_elem, elem_of_list_to_set. Qed.

Lemma running_health_paths l ps p :
  running_paths l = inr ps -> p ∈ sorted_set (list_to_set ps) -> health_path p.
Proof.
  intros Hps Hp. apply (sorted_list_elem ps) in Hp. destruct (running_paths_spec l ps Hps) as [H1 _].
  destruct (H1 p Hp) as (i & _ & _ & _ & Hc). left. by exists (in_Command i).
Qed.

Lemma reading_dnsmasq check : reading (check_dnsmasq check).
Proof.
  unfold check_dnsmasq. apply reading_bind; [reads|]. intros [services|e]; [|reads].
  destruct (running_paths _) as [f|[|p0 ps]] eqn:Ep; [reads..|]. apply reading_bind; [|reads].
  apply reading_ranges. intros p Hp. by eapply running_health_paths.
Qed.
#[local] Hint Resolve reading_dnsmasq : oonfee_health.

Lemma reading_dhcp check : reading (checkDHCPRuntimeOnce check).
Proof. unfold checkDHCPRuntimeOnce. reads. Qed.
#[local] Hint Resolve reading_dhcp : oonfee_health.

Lemma reading_bss dump want : reading (check_bss dump want).
Proof.
  unfold check_bss. destruct (mapped_iface dump want) as [f|got] eqn:Em; [reads|].
  apply mapped_iface_inr in Em as (_ & Hsafe & _).
  assert (Hpath : health_path (isolated_path (wi_ifname got))) by (right; by exists (wi_ifname got)).
  apply reading_bind; [reads|]. intros [status|e]; [|reads].
  destruct (prove_status _ _ _); [reads|]. destruct (negb _); [reads|]. apply reading_bind; [|reads].
  apply reading_call. intros id sess. by eapply hr_file.
Qed.
#[local] Hint Resolve reading_bss : oonfee_health.

Lemma reading_all_bss dump l : reading (check_all_bss dump l).
Proof. induction l as [|want l IH]; cbn [check_all_bss]; reads. Qed.
#[local] Hint Resolve reading_all_bss : oonfee_health.

Lemma reading_wireless plan : reading (checkWirelessRuntimeOnce plan).
Proof. unfold checkWirelessRuntimeOnce. reads. Qed.
#[local] Hint Resolve reading_wireless : oonfee_health.

Lemma reading_ssids ifaces : forall found, reading (read_ssids ifaces found).
Proof. induction ifaces as [|i l IH]; intros found; cbn [read_ssids]; reads. Qed.
#[local] Hint Resolve reading_ssids : oonfee_health.

Lemma reading_readSSIDs : reading readSSIDs.
Proof. unfold readSSIDs. reads. Qed.
#[local] Hint Resolve reading_readSSIDs : oonfee_health.

Lemma reading_settle fuel deadline once late : reading once -> reading (settle fuel deadline once late).
Proof. intros Ho. induction fuel as [|f IH]; cbn [settle]; reads. Qed.
#[local] Hint Resolve reading_settle : oonfee_health.

Lemma reading_settle_wireless fuel deadline check gone : forall found,
  reading (settle_wireless fuel deadline check gone found).
Proof. induction fuel as [|f IH]; intros found; cbn [settle_wireless]; reads. Qed.
#[local] Hint Resolve reading_settle_wireless : oonfee_health.

Lemma reading_wait_interfaces fuel required : reading (waitForOwnedInterfaces fuel required).
Proof. unfold waitForOwnedInterfaces. reads. Qed.
Lemma reading_wait_dhcp fuel check : reading (waitForDHCPRuntime fuel check).
Proof. unfold waitForDHCPRuntime. reads. Qed.
#[local] Hint Resolve reading_wait_interfaces reading_wait_dhcp : oonfee_health.

Lemma reading_health fuel plan : reading (health_run fuel plan).
Proof. unfold health_run. reads. Qed.

Lemma reading_healthCheck plan : reading (healthCheck plan).
Proof. unfold healthCheck. apply reading_bind; [apply reading_health|reads]. Qed.

(** What the apply engine relies on. *)
Lemma healthCheck_good plan : good_health (Some (healthCheck plan)).
Proof.
  destruct (reading_healthCheck plan) as [Hp Hk]. split; intros h [= <-]; [|done].
  by eapply posts_only_weaken.
Qed.

Lemma reading_extends {A} (m : CM A) s a s' : reading m -> m s = (a, s') -> extends s s'.
Proof. intros [Hp _] E. by eapply posts_only_extends. Qed.
End Reads.

(** ** What the device was asked and answered *)

Lemma call_extends {W : Type} `{World W} {A} (dec : json -> option A) zero o m args (s s' : cstate W) r :
  Call dec zero o m args s = (r, s') -> extends s s'.
Proof.
  apply (posts_only_extends (fun _ => True)). by apply posts_only_call.
Qed.

Section Answers.
Context {W : Type} `{World W}.
Local Notation CM := (M (cstate W)).
Implicit Types (s : cstate W).

(** In the run from [s] to [s'] the device was asked and answered [a]. *)
Definition answered s s' {A} (dec : json -> option A) zero (object method : string) (args : json) (a : A) : Prop :=
  exists s1 s2, extends s s1 /\ Call dec zero object method args s1 = (Ok a, s2) /\ extends s2 s'.

Lemma answered_widen s0 s s' s1 {A} (dec : json -> option A) zero o m args a :
  extends s0 s -> extends s' s1 -> answered s s' dec zero o m args a -> answered s0 s1 dec zero o m args a.
Proof.
  intros H0 H1 (u & v & Hu & Hc & Hv). exists u, v.
  split_and!; [by eapply extends_trans|done|by eapply extends_trans].
Qed.

Lemma answered_now {A} (dec : json -> option A) zero o m args a s s' :
  Call dec zero o m args s = (Ok a, s') -> answered s s' dec zero o m args a.
Proof. intros E. exists s, s'. split_and!; [apply extends_refl|done|apply extends_refl]. Qed.

(** A settle loop that finds no fault ends in a round that found none. *)
Lemma settle_ok fuel deadline (once : CM (option fault)) late : reading once -> forall s s',
  settle fuel deadline once late s = (Some None, s') ->
  exists s1, extends s s1 /\ once s1 = (None, s').
Proof.
  intros Ho. induction fuel as [|f IH]; intros s s' E; cbn [settle] in E; [done|].
  apply bind_inv in E as (r & s1 & E1 & E). destruct r as [fl|].
  2: { injection E as <-. exists s. split; [apply extends_refl|done]. }
  apply (reading_extends once) in E1; [|done]. destruct (fl_final fl); [done|].
  apply bind_inv in E as (t & s2 & E2 & E). apply (reading_extends e_now) in E2; [|apply reading_now].
  destruct (negb (t <? deadline)); [done|].
  apply bind_inv in E as (c & s3 & E3 & E). apply (reading_extends (e_sleep _)) in E3; [|apply reading_sleep].
  destruct c; [done|]. apply IH in E as (s4 & Hs4 & E). exists s4. split; [|done].
  by do 3 (eapply extends_trans; [eassumption|]).
Qed.

(** ** Interfaces *)

Definition interface_up s s' (name : string) : Prop :=
  exists dump, answered s s' dec_dump [] "network.interface" "dump" (JObj []) dump /\
               iface_state dump !! name = Some true.

Lemma unavailable_nil dump required : unavailable dump required = [] ->
  forall name, name ∈ required -> iface_state dump !! name = Some true.
Proof.
  unfold unavailable. induction required as [|x l IH]; intros Hu name Hn; [by apply elem_of_nil in Hn|].
  simpl in Hu. apply app_eq_nil in Hu as [Hx Hl]. apply elem_of_cons in Hn as [->|Hn]; [|by apply IH].
  destruct (iface_state dump !! x) as [[]|]; done.
Qed.

Lemma interfaces_proven required s s' : checkOwnedInterfacesOnce required s = (None, s') ->
  forall name, name ∈ required -> interface_up s s' name.
Proof.
  unfold checkOwnedInterfacesOnce. intros E name Hn. apply bind_inv in E as (r & s1 & E1 & E).
  injection E as E <-. destruct r as [dump|]; [|done]. destruct (unavailable dump required) eqn:Eu; [|done].
  exists dump. split; [by apply answered_now|]. by eapply unavailable_nil.
Qed.

(** ** DHCP *)

Definition read_file s s' (path data : string) : Prop :=
  answered s s' dec_data "" "file" "read" (JObj [("path", JStr path)]) data.

Lemma ranges_extends paths : forall acc s r s', read_ranges paths acc s = (r, s') -> extends s s'.
Proof.
  induction paths as [|p paths IH]; intros acc s r s' E; cbn [read_ranges] in E.
  { unfold ret in E. injection E as _ <-. apply extends_refl. }
  apply bind_inv in E as (d & s1 & E1 & E). apply call_extends in E1. eapply extends_trans; [exact E1|].
  destruct d as [data|e]; [by eapply IH|]. unfold ret in E. injection E as _ <-. apply extends_refl.
Qed.

Lemma ranges_read paths : forall acc s out s', read_ranges paths acc s = (inr out, s') ->
  (forall line, line ∈ acc -> line ∈ out) /\
  (forall p, p ∈ paths -> exists data, read_file s s' p data /\ forall line, line ∈ range_lines data -> line ∈ out) /\
  (forall line, line ∈ out -> line ∈ acc \/ exists p data, p ∈ paths /\ read_file s s' p data /\ line ∈ range_lines data).
Proof.
  induction paths as [|p paths IH]; intros acc s out s' E; cbn [read_ranges] in E.
  { injection E as <- <-. split_and!; [done|intros p Hp; by apply elem_of_nil in Hp|by left]. }
  apply bind_inv in E as (r & s1 & E1 & E). destruct r as [data|]; [|done].
  pose proof (ranges_extends _ _ _ _ _ E) as He2.
  pose proof (call_extends _ _ _ _ _ _ _ _ E1) as He1.
  apply IH in E as (H1 & H2 & H3). apply answered_now in E1. split_and!.
  - intros line Hl. apply H1, elem_of_app. by left.
  - intros q [->|Hq]%elem_of_cons.
    + exists data. split; [eapply answered_widen; [apply extends_refl|exact He2|exact E1]|].
      intros line Hl. apply H1, elem_of_app. by right.
    + destruct (H2 q Hq) as (d & Hd & Hl). exists d. split; [|done].
      eapply answered_widen; [exact He1|apply extends_refl|exact Hd].
  - intros line Hl. apply H3 in Hl as [[Ha|Hd]%elem_of_app|(q & d & Hq & Hd & Hl)].
    + by left.
    + right. exists p, data. split_and!; [left|eapply answered_widen; [apply extends_refl|exact He2|exact E1]|done].
    + right. exists q, d. split_and!; [by right| |done]. eapply answered_widen; [exact He1|apply extends_refl|exact Hd].
Qed.

Lemma first_fault_None {A} (check : A -> option fault) l :
  first_fault check l = None -> forall a, a ∈ l -> check a = None.
Proof.
  induction l as [|x l IH]; intros E a Ha; [by apply elem_of_nil in Ha|]. cbn [first_fault] in E.
  destruct (check x) eqn:Ex; [done|]. apply elem_of_cons in Ha as [->|Ha]; [done|by apply IH].
Qed.

(** The instances of dnsmasq the device runs. *)
Definition instances (services : gmap string (gmap string dnsmasqInstance)) : list dnsmasqInstance :=
  map snd (map_to_list (default ∅ (services !! "dnsmasq"))).

(** The interface of the pool is up with its address, and the configuration of
    a running dnsmasq has exactly the pool's range. *)
Definition pool_served s s' (pool : dhcpRuntimePool) : Prop :=
  (exists dump i, answered s s' dec_dump [] "network.interface" "dump" (JObj []) dump /\
     List.find (fun i => String.eqb (if_Name i) (pl_iface pool)) dump = Some i /\
     if_Up i = true /\ (pl_address pool, pl_prefix pool) ∈ if_Addresses i) /\
  (exists services inst path data,
     answered s s' dec_services ∅ "service" "list" services_args services /\
     inst ∈ instances services /\ in_Running inst = true /\ 0 < in_PID inst /\
     dnsmasqConfigPath (in_Command inst) = Some path /\ read_file s s' path data /\
     pl_rangeLine pool ∈ range_lines data).

(** No running dnsmasq has a range for the interface. *)
Definition pool_gone s s' (name : string) : Prop :=
  exists services, answered s s' dec_services ∅ "service" "list" services_args services /\
    forall inst, inst ∈ instances services -> in_Running inst = true ->
      exists path data, dnsmasqConfigPath (in_Command inst) = Some path /\ read_file s s' path data /\
                        forall line, line ∈ range_lines data -> name ∉ range_ifaces line.

Lemma prove_ranges_None check lines : prove_ranges check lines = None ->
  (forall pool, pool ∈ dh_enabled check -> pl_rangeLine pool ∈ lines) /\
  (forall i, i ∈ dh_absent check -> forall line, line ∈ lines -> i ∉ range_ifaces line).
Proof.
  unfold prove_ranges. destruct (first_fault _ (dh_enabled check)) eqn:E1; [done|]. intros E2. split.
  - intros pool Hp. pose proof (first_fault_None _ _ E1 pool Hp) as Hx. cbn beta in Hx.
    destruct (existsb _ lines) eqn:Ex; [|done]. apply existsb_exists in Ex as (line & Hl & He).
    apply String.eqb_eq in He as <-. by apply list_elem_of_In.
  - intros i Hi line Hl Hin. pose proof (first_fault_None _ _ E2 i Hi) as Hx. cbn beta in Hx.
    destruct (existsb _ _) eqn:Ex; [done|]. apply not_true_iff_false in Ex. apply Ex.
    apply existsb_exists. exists i. split; [|apply String.eqb_refl].
    apply in_flat_map. exists line. split; by apply list_elem_of_In.
Qed.

Lemma dnsmasq_proven check s s' : check_dnsmasq check s = (None, s') ->
  (forall pool, pool ∈ dh_enabled check -> exists services inst path data,
     answered s s' dec_services ∅ "service" "list" services_args services /\
     inst ∈ instances services /\ in_Running inst = true /\ 0 < in_PID inst /\
     dnsmasqConfigPath (in_Command inst) = Some path /\ read_file s s' path data /\
     pl_rangeLine pool ∈ range_lines data) /\
  (forall i, i ∈ dh_absent check -> pool_gone s s' i).
Proof.
  unfold check_dnsmasq. intros E. apply bind_inv in E as (r & s1 & E1 & E). destruct r as [services|]; [|done].
  pose proof (call_extends _ _ _ _ _ _ _ _ E1) as He1.
  fold (instances services) in E. destruct (running_paths (instances services)) as [|ps] eqn:Ep; [done|].
  apply running_paths_spec in Ep as [P1 P2]. apply answered_now in E1. destruct ps as [|p0 ps].
  { injection E as E <-. split.
    - intros pool Hp. destruct (dh_enabled check); [by apply elem_of_nil in Hp|done].
    - intros i Hi. exists services. split; [exact E1|]. intros inst Hin Hr.
      destruct (P2 inst Hin Hr) as (q & Hq & _). by apply elem_of_nil in Hq. }
  apply bind_inv in E as (lines & s2 & E2 & E). injection E as E <-. destruct lines as [|out]; [done|].
  pose proof (ranges_extends _ _ _ _ _ E2) as He2.
  apply ranges_read in E2 as (_ & R1 & R2). apply prove_ranges_None in E as [F1 F2].
  pose proof (sorted_list_elem (p0 :: ps)) as Hset.
  assert (Hans : answered s s2 dec_services ∅ "service" "list" services_args services)
    by (eapply answered_widen; [apply extends_refl|exact He2|exact E1]).
  split.
  - intros pool Hp. destruct (R2 _ (F1 pool Hp)) as [Hn|(p & data & Hpp & Hd & Hl)]; [by apply elem_of_nil in Hn|].
    destruct (P1 p (proj1 (Hset p) Hpp)) as (inst & Hin & Hr & Hpid & Hc). exists services, inst, p, data.
    split_and!; try done. eapply answered_widen; [exact He1|apply extends_refl|exact Hd].
  - intros i Hi. exists services. split; [done|]. intros inst Hin Hr. destruct (P2 inst Hin Hr) as (p & Hpp & Hc).
    destruct (R1 p (proj2 (Hset p) Hpp)) as (data & Hd & Hl). exists p, data. split_and!; [done| |].
    + eapply answered_widen; [exact He1|apply extends_refl|exact Hd].
    + intros line Hline. by apply (F2 i Hi), Hl.
Qed.

Lemma proveDHCPInterface_None pool dump : proveDHCPInterface pool dump = None ->
  exists i, List.find (fun i => String.eqb (if_Name i) (pl_iface pool)) dump = Some i /\
    if_Up i = true /\ (pl_address pool, pl_prefix pool) ∈ if_Addresses i.
Proof.
  unfold proveDHCPInterface. destruct (List.find _ dump) as [i|] eqn:E; [|done].
  destruct (if_Up i) eqn:Eu; [|done]. cbn [negb]. destruct (existsb _ _) eqn:Ex; [|done]. intros _.
  exists i. split_and!; [done|done|]. apply existsb_exists in Ex as ([a m] & Hin & Hx).
  apply andb_true_iff in Hx as [Ha Hm]. apply String.eqb_eq in Ha. apply Z.eqb_eq in Hm.
  cbn [fst snd] in *. subst. by apply list_elem_of_In.
Qed.

Lemma dhcp_proven check s s' : checkDHCPRuntimeOnce check s = (None, s') ->
  (forall pool, pool ∈ dh_enabled check -> pool_served s s' pool) /\
  (forall i, i ∈ dh_absent check -> pool_gone s s' i).
Proof.
  unfold checkDHCPRuntimeOnce. destruct (Nat.eqb (length (dh_enabled check)) 0) eqn:En; intros E.
  { apply dnsmasq_proven in E as [_ E2]. split; [|done]. intros pool Hp.
    destruct (dh_enabled check); [by apply elem_of_nil in Hp|done]. }
  apply bind_inv in E as (r & s1 & E1 & E). destruct r as [dump|]; [|by injection E as E <-].
  destruct (first_fault _ (dh_enabled check)) eqn:Ef; [done|].
  pose proof (call_extends _ _ _ _ _ _ _ _ E1) as He1.
  pose proof (reading_extends _ _ _ _ (reading_dnsmasq check) E) as He2.
  apply dnsmasq_proven in E as [D1 D2]. split.
  - intros pool Hp. split.
    + destruct (proveDHCPInterface_None pool dump (first_fault_None _ _ Ef pool Hp)) as (i & Hi & Hrest).
      exists dump, i. split; [|done].
      eapply answered_widen; [apply extends_refl|exact He2|by apply answered_now].
    + destruct (D1 pool Hp) as (services & inst & path & data & Ha & H1 & H2 & H3 & H4 & Hr & H5).
      exists services, inst, path, data. split_and!; try done;
        (eapply answered_widen; [exact He1|apply extends_refl|done]).
  - intros i Hi. destruct (D2 i Hi) as (services & Ha & Hall). exists services.
    split; [eapply answered_widen; [exact He1|apply extends_refl|exact Ha]|]. intros inst Hin Hr.
    destruct (Hall inst Hin Hr) as (path & data & Hc & Hd & Hl). exists path, data.
    split_and!; [done| |done]. eapply answered_widen; [exact He1|apply extends_refl|exact Hd].
Qed.

(** ** Wireless *)

(** The BSS is mapped to exactly one interface, hostapd carries its SSID there,
    and its bridge port is isolated where the plan asks for it. *)
Definition bss_up s s' (dump : gmap string (list wlan_iface)) (want : wirelessRuntimeBSS) : Prop :=
  exists got status, by_section dump (bs_section want) = [got] /\ wi_ssid got = bs_ssid want /\
    safeWirelessIfname (wi_ifname got) = true /\
    answered s s' dec_status ("", "") ("hostapd." ++ wi_ifname got) "get_status" (JObj []) status /\
    fst status = bs_ssid want /\ (snd status = "" \/ EqualFold (snd status) "ENABLED" = true) /\
    (bs_isolated want = true -> exists data,
       read_file s s' (isolated_path (wi_ifname got)) data /\ TrimSpace data = "1").

Lemma bss_proven dump want s s' : check_bss dump want s = (None, s') -> bss_up s s' dump want.
Proof.
  unfold check_bss. destruct (mapped_iface dump want) as [|got] eqn:Em; [done|].
  apply mapped_iface_inr in Em as (Hm & Hsafe & Hssid). intros E.
  apply bind_inv in E as (r & s1 & E1 & E). destruct r as [status|e].
  2: { injection E as E <-. exfalso. revert E. unfold wirelessStatusFailure, fault_over. by case_match. }
  pose proof (call_extends _ _ _ _ _ _ _ _ E1) as He1.
  destruct (prove_status want (wi_ifname got) status) eqn:Ep; [done|].
  assert (Hst : fst status = bs_ssid want /\ (snd status = "" \/ EqualFold (snd status) "ENABLED" = true)).
  { unfold prove_status in Ep. destruct (String.eqb_spec (fst status) (bs_ssid want)) as [H1|]; [|done]. cbn [negb] in Ep.
    split; [done|]. destruct (String.eqb_spec (snd status) "") as [H2|]; [by left|].
    destruct (EqualFold (snd status) "ENABLED"); [by right|done]. }
  destruct Hst as [Hs1 Hs2]. destruct (bs_isolated want) eqn:Ei; cbn [negb] in E.
  - apply bind_inv in E as (d & s2 & E2 & E). injection E as E <-. destruct d as [data|e].
    2: { exfalso. revert E. unfold bridgeIsolationFailure, fault_over. repeat case_match; done. }
    pose proof (call_extends _ _ _ _ _ _ _ _ E2) as He2.
    exists got, status. split_and!; try done.
    + eapply answered_widen; [apply extends_refl|exact He2|by apply answered_now].
    + intros _. exists data. split; [eapply answered_widen; [exact He1|apply extends_refl|by apply answered_now]|].
      unfold prove_isolated in E. by destruct (String.eqb_spec (TrimSpace data) "1").
  - injection E as <-. exists got, status. split_and!; try done; [by apply answered_now|by rewrite Ei].
Qed.

Lemma bss_up_widen s0 s s' s1 dump want :
  extends s0 s -> extends s' s1 -> bss_up s s' dump want -> bss_up s0 s1 dump want.
Proof.
  intros H0 H1 (got & status & Hm & Hs & Hsafe & Ha & Hf & Hst & Hiso). exists got, status.
  split_and!; try done; [by eapply answered_widen|]. intros Hi. destruct (Hiso Hi) as (data & Hd & Ht).
  exists data. split; [by eapply answered_widen|done].
Qed.

Lemma all_bss_proven dump l : forall s s', check_all_bss dump l s = (None, s') ->
  forall want, want ∈ l -> bss_up s s' dump want.
Proof.
  induction l as [|x l IH]; intros s s' E want Hw; [by apply elem_of_nil in Hw|]. cbn [check_all_bss] in E.
  apply bind_inv in E as (f & s1 & E1 & E). destruct f; [done|].
  pose proof (reading_extends _ _ _ _ (reading_bss dump x) E1) as He1.
  pose proof (reading_extends _ _ _ _ (reading_all_bss dump l) E) as He2.
  apply elem_of_cons in Hw as [->|Hw].
  - eapply bss_up_widen; [apply extends_refl|exact He2|by apply bss_proven].
  - eapply bss_up_widen; [exact He1|apply extends_refl|by eapply IH].
Qed.

Lemma wireless_proven plan s s' : checkWirelessRuntimeOnce plan s = (None, s') -> wireless_empty plan = false ->
  exists dump, answered s s' dec_wireless ∅ "luci-rpc" "getWirelessDevices" (JObj []) dump /\
    (forall want, want ∈ wr_desired plan -> bss_up s s' dump want) /\
    (forall section, section ∈ wr_absent plan -> by_section dump section = []).
Proof.
  unfold checkWirelessRuntimeOnce. intros E Hne. rewrite Hne in E.
  apply bind_inv in E as (r & s1 & E1 & E). destruct r as [dump|e].
  2: { injection E as E <-. exfalso. revert E. unfold wirelessInventoryFailure, fault_over. repeat case_match; done. }
  pose proof (call_extends _ _ _ _ _ _ _ _ E1) as He1.
  destruct (first_fault _ (wr_absent plan)) eqn:Ef; [done|].
  pose proof (reading_extends _ _ _ _ (reading_all_bss dump _) E) as He2.
  exists dump. split_and!.
  - eapply answered_widen; [apply extends_refl|exact He2|by apply answered_now].
  - intros want Hw. eapply bss_up_widen; [exact He1|apply extends_refl|by eapply all_bss_proven].
  - intros section Hs. pose proof (first_fault_None _ _ Ef section Hs) as Hx. unfold lingering_section in Hx.
    by destruct (by_section dump section).
Qed.

(** ** The loop over both *)

(** The device was asked which wireless interfaces it has and then for the
    state of each, and no answer named the SSID. What the device refuses to
    answer, the list or the state of an interface, the code takes for silence. *)
Definition not_heard s s' (ssid : string) : Prop :=
  exists s1 r s2, extends s s1 /\ Call dec_devices [] "iwinfo" "devices" (JObj []) s1 = (r, s2) /\ extends s2 s' /\
    match r with
    | Err _ => True
    | Ok devices => forall i, i ∈ devices -> exists u a v,
        extends s2 u /\ Call dec_ssid "" ("hostapd." ++ i) "get_status" (JObj []) u = (a, v) /\ extends v s' /\
        match a with Ok x => x <> ssid | Err _ => True end
    end.

Lemma not_heard_widen s0 s s' s1 ssid :
  extends s0 s -> extends s' s1 -> not_heard s s' ssid -> not_heard s0 s1 ssid.
Proof.
  intros H0 H1 (u & r & v & Hu & Hc & Hv & Hr). exists u, r, v.
  split_and!; [by eapply extends_trans|done|by eapply extends_trans|]. destruct r as [devices|e]; [|done].
  intros i Hi. destruct (Hr i Hi) as (x & a & y & Hx & Ha & Hy & Hm). exists x, a, y.
  split_and!; [done|done|by eapply extends_trans|done].
Qed.

Lemma read_ssids_heard ssid ifaces : ssid <> "" -> forall found s out s',
  read_ssids ifaces found s = (out, s') -> ssid ∉ out ->
  ssid ∉ found /\ forall i, i ∈ ifaces -> exists u a v,
    extends s u /\ Call dec_ssid "" ("hostapd." ++ i) "get_status" (JObj []) u = (a, v) /\ extends v s' /\
    match a with Ok x => x <> ssid | Err _ => True end.
Proof.
  intros Hne. induction ifaces as [|i l IH]; intros found s out s' E Hn; cbn [read_ssids] in E.
  { unfold ret in E. injection E as <- <-. split; [done|]. intros i Hi. by apply elem_of_nil in Hi. }
  apply bind_inv in E as (r & s1 & E1 & E). pose proof (call_extends _ _ _ _ _ _ _ _ E1) as X1.
  pose proof (reading_extends _ _ _ _ (reading_ssids l _) E) as X2. apply (IH _ _ _ _ E) in Hn as [Hf Hl].
  assert (Hr : ssid ∉ found /\ match r with Ok x => x <> ssid | Err _ => True end).
  { destruct r as [x|e]; [|done]. destruct (String.eqb_spec x "") as [->|]; [by split; [|congruence]|set_solver]. }
  destruct Hr as [Hf' Hr]. split; [done|]. intros j [->|Hj]%elem_of_cons.
  - exists s, r, s1. split_and!; [apply extends_refl|done..].
  - destruct (Hl j Hj) as (u & a & v & Hu & Hc & Hv & Ha). exists u, a, v.
    split_and!; [by eapply extends_trans|done..].
Qed.

Lemma readSSIDs_heard ssid s found s' : ssid <> "" ->
  readSSIDs s = (found, s') -> ssid ∉ found -> not_heard s s' ssid.
Proof.
  intros Hne E Hn. unfold readSSIDs in E. apply bind_inv in E as (r & s1 & E1 & E).
  exists s, r, s1. split; [apply extends_refl|]. split; [done|]. destruct r as [devices|e].
  - split; [by eapply reading_extends; [apply reading_ssids|]|]. by eapply read_ssids_heard.
  - unfold ret in E. injection E as _ <-. split; [apply extends_refl|done].
Qed.

Lemma stillOn_nil found gone : stillOn found gone = [] -> forall ssid, ssid ∈ gone -> ssid ∉ found.
Proof.
  unfold stillOn, sorted_set. intros E ssid Hg Hf.
  assert (Hin : ssid ∈ sort_strings (elements (gone ∩ found)))
    by (unfold sort_strings; rewrite merge_sort_Permutation, elem_of_elements; by apply elem_of_intersection).
  rewrite E in Hin. by apply elem_of_nil in Hin.
Qed.

Lemma settle_wireless_ok fuel deadline check gone : forall found s s',
  settle_wireless fuel deadline check gone found s = (Some None, s') ->
  exists s1 s2, extends s s1 /\ checkWirelessRuntimeOnce check s1 = (None, s2) /\ extends s2 s' /\
    forall ssid, ssid ∈ gone -> ssid <> "" -> not_heard s s' ssid.
Proof.
  induction fuel as [|f IH]; intros found s s' E; cbn [settle_wireless] in E; [done|].
  apply bind_inv in E as (fl & s1 & E1 & E). apply bind_inv in E as (found1 & s2 & E2 & E).
  pose proof (reading_extends _ _ _ _ (reading_wireless check) E1) as He1.
  assert (He2 : extends s1 s2).
  { eapply reading_extends; [|exact E2]. case_bool_decide; [apply reading_ret|apply reading_readSSIDs]. }
  assert (Erest : (fl = None /\ stillOn found1 gone = [] /\ s2 = s') \/
    exists s4, extends s2 s4 /\ settle_wireless f deadline check gone found1 s4 = (Some None, s')).
  { destruct fl as [fl|]; [destruct (fl_final fl); [by destruct (stillOn found1 gone)|]|];
      destruct (stillOn found1 gone) as [|x l]; [right|right|left|right].
    3: { by injection E as <-. }
    all: apply bind_inv in E as (t & s3 & E3 & E); apply (reading_extends e_now) in E3; [|apply reading_now];
      destruct (deadline <? t); [done|]; apply bind_inv in E as (c & s4 & E4 & E);
      apply (reading_extends (e_sleep _)) in E4; [|apply reading_sleep]; destruct c; [done|];
      exists s4; split; [by eapply extends_trans|done]. }
  destruct Erest as [(-> & Es & <-)|(s4 & He4 & E4)].
  - exists s, s1. split_and!; [apply extends_refl|done|done|]. intros ssid Hs Hne.
    case_bool_decide as Hgone; [subst; by apply not_elem_of_empty in Hs|].
    eapply not_heard_widen; [exact He1|apply extends_refl|]. eapply readSSIDs_heard; [done|exact E2|by eapply stillOn_nil].
  - apply IH in E4 as (u & v & Hu & Hc & Hv & Hg).
    assert (He : extends s s4) by (do 2 (eapply extends_trans; [eassumption|]); done).
    exists u, v. split_and!; [by eapply extends_trans|done|done|]. intros ssid Hs Hne.
    eapply not_heard_widen; [exact He|apply extends_refl|by apply Hg].
Qed.
End Answers.

(** ** The claims of a plan *)

Section Claims.
Variable plan : DevicePlan.
Local Notation secs := (Sections (dp_Doc plan)).

Lemma required_elem sec name : sec ∈ secs -> name ∈ required_by plan sec -> name ∈ ownedInterfacesForPlan plan.
Proof.
  intros Hs Hn. unfold ownedInterfacesForPlan. apply sorted_set_elem, elem_of_list_to_set, list_elem_of_In, in_flat_map.
  exists sec. split; by apply list_elem_of_In.
Qed.

Lemma collect_pools_spec l : forall pools enabled absent,
  collect_pools plan l = (pools, enabled, absent, None) ->
  (forall sec, sec ∈ l -> claims_pool plan sec = true -> exists network pool,
     owned_networks plan !! get (sec_Values sec) "interface" = Some network /\
     buildDHCPRuntimePool sec network = Ok pool /\ pool ∈ pools) /\
  (forall name, name ∈ enabled -> exists sec, sec ∈ l /\ claims_pool plan sec = true /\
     get (sec_Values sec) "interface" = name).
Proof.
  induction l as [|x l IH]; intros pools enabled absent E; cbn [collect_pools] in E.
  { injection E as <- <- <-. split; [intros sec Hs|intros name Hn]; by apply elem_of_nil in Hs || apply elem_of_nil in Hn. }
  destruct (claims_pool plan x) eqn:Ec; cbn [negb] in E.
  - destruct (owned_networks plan !! _) as [network|] eqn:En; [|done].
    destruct (buildDHCPRuntimePool x network) as [pool|] eqn:Eb; [|done].
    destruct (collect_pools plan l) as [[[pools0 enabled0] absent0] e0]. injection E as <- <- _ ->.
    destruct (IH _ _ _ eq_refl) as [H1 H2]. split.
    + intros sec [->|Hs]%elem_of_cons Hc; [exists network, pool; split_and!; [done|done|left]|].
      destruct (H1 sec Hs Hc) as (n & q & Hn & Hq & Hin). exists n, q. split_and!; [done|done|by right].
    + intros name [->|Hn]%elem_of_cons; [exists x; split_and!; [left|done|done]|].
      destruct (H2 name Hn) as (sec & Hs & Hrest). exists sec. split; [by right|done].
  - destruct (IH _ _ _ E) as [H1 H2]. split.
    + intros sec [->|Hs]%elem_of_cons Hc; [congruence|by apply H1].
    + intros name Hn. destruct (H2 name Hn) as (sec & Hs & Hrest). exists sec. split; [by right|done].
Qed.

(** What the DHCP claim holds when it has no error. *)
Lemma dhcp_claim :
  (dhcpRuntimePlanFor plan = None ->
     (forall sec, sec ∈ secs -> claims_pool plan sec = false) /\ deleted_pools plan = []) /\
  (forall check, dhcpRuntimePlanFor plan = Some check -> dh_err check = None ->
     (forall sec, sec ∈ secs -> claims_pool plan sec = true -> exists network pool,
        owned_networks plan !! get (sec_Values sec) "interface" = Some network /\
        buildDHCPRuntimePool sec network = Ok pool /\ pool ∈ dh_enabled check) /\
     (forall name, name ∈ deleted_pools plan ->
        (exists sec, sec ∈ secs /\ claims_pool plan sec = true /\ get (sec_Values sec) "interface" = name) \/
        name ∈ dh_absent check)).
Proof.
  unfold dhcpRuntimePlanFor. destruct (collect_pools plan secs) as [[[pools enabled] absent] e] eqn:E.
  destruct e as [e|]; [split; [done|by intros check [= <-]]|]. apply collect_pools_spec in E as [H1 H2].
  set (gone := sorted_set _).
  assert (Hdel : forall name, name ∈ deleted_pools plan -> name ∈ enabled \/ name ∈ gone).
  { intros name Hn. destruct (decide (name ∈ enabled)) as [|Hne]; [by left|right]. unfold gone.
    apply sorted_set_elem, elem_of_difference. rewrite !elem_of_list_to_set. split; [|done].
    apply elem_of_app. by right. }
  split.
  - destruct (Nat.eqb (length pools) 0 && Nat.eqb (length gone) 0) eqn:Ez; [|done]. intros _.
    apply andb_true_iff in Ez as [Ep Eg]. apply Nat.eqb_eq, length_zero_iff_nil in Ep, Eg.
    assert (Hc : forall sec, sec ∈ secs -> claims_pool plan sec = false).
    { intros sec Hs. destruct (claims_pool plan sec) eqn:Ec; [|done].
      destruct (H1 sec Hs Ec) as (n & q & _ & _ & Hin). rewrite Ep in Hin. by apply elem_of_nil in Hin. }
    split; [exact Hc|]. destruct (deleted_pools plan) as [|name l]; [done|]. exfalso.
    destruct (Hdel name) as [He|Hg]; [left| |].
    + destruct (H2 name He) as (sec & Hs & Hcl & _). rewrite Hc in Hcl by done. done.
    + rewrite Eg in Hg. by apply elem_of_nil in Hg.
  - intros check. destruct (_ && _); [done|]. intros [= <-] _. cbn [dh_enabled dh_absent].
    split; [exact H1|]. intros name Hn. destruct (Hdel name Hn) as [He|Hg]; [left; by apply H2|by right].
Qed.

Lemma wanted_bss_spec l : NoDup (map sec_ref l) -> forall m sec, sec ∈ l -> wants_bss sec = true ->
  fold_left add_bss l m !! sec_Name sec = Some (bss_of sec).
Proof.
  induction l as [|x l IH]; intros Hnd m sec Hs Hw; [by apply elem_of_nil in Hs|].
  apply NoDup_cons in Hnd as [Hx Hnd]. cbn [fold_left]. apply elem_of_cons in Hs as [->|Hs]; [|by apply IH].
  unfold add_bss at 2. rewrite Hw.
  assert (Hkeep : forall l m v, (forall y, y ∈ l -> wants_bss y = true -> sec_Name y <> sec_Name x) ->
    m !! sec_Name x = Some v ->
    fold_left add_bss l m !! sec_Name x = Some v).
  { clear. induction l as [|y l IH]; intros m v Hy Hm; [done|]. cbn [fold_left]. apply IH.
    - intros z Hz. apply Hy. by right.
    - unfold add_bss. destruct (wants_bss y) eqn:Ey; [|done]. rewrite lookup_insert_ne; [done|]. apply Hy; [left|done]. }
  apply Hkeep; [|apply lookup_insert_eq]. intros y Hy Hwy Hn. apply Hx. apply list_elem_of_fmap. exists y.
  split; [|done]. unfold wants_bss in Hw, Hwy. rewrite !andb_true_iff in Hw, Hwy.
  destruct Hw as [[Hc _] _], Hwy as [[Hcy _] _]. apply String.eqb_eq in Hc, Hcy. unfold sec_ref. congruence.
Qed.

Lemma desired_elem sec : RenderPlan.Validate (dp_Doc plan) = None -> sec ∈ secs -> wants_bss sec = true ->
  bss_of sec ∈ wr_desired (wirelessRuntimePlanFor plan).
Proof.
  intros Hv Hs Hw. apply Validate_none in Hv. pose proof (wanted_bss_spec secs Hv ∅ sec Hs Hw) as Hl.
  fold (wanted_bss plan) in Hl. cbn [wirelessRuntimePlanFor wr_desired].
  apply list_elem_of_omap. exists (sec_Name sec). split; [|done]. unfold sort_strings.
  rewrite merge_sort_Permutation. apply list_elem_of_fmap. exists (sec_Name sec, bss_of sec).
  split; [done|]. by apply elem_of_map_to_list.
Qed.

Lemma wanted_bss_only name : is_Some (wanted_bss plan !! name) ->
  exists sec, sec ∈ secs /\ wants_bss sec = true /\ sec_Name sec = name.
Proof.
  unfold wanted_bss.
  assert (H : forall l m, is_Some (fold_left add_bss l m !! name) ->
    is_Some (m !! name) \/ exists sec, sec ∈ l /\ wants_bss sec = true /\ sec_Name sec = name).
  { induction l as [|x l IH]; intros m Hm; [by left|]. cbn [fold_left] in Hm.
    apply IH in Hm as [Hm|(sec & Hs & Hrest)]; [|right; exists sec; split; [by right|done]].
    unfold add_bss in Hm. destruct (wants_bss x) eqn:Ew; [|by left]. destruct (decide (sec_Name x = name)) as [<-|Hne].
    - right. exists x. split_and!; [left|done|done].
    - rewrite lookup_insert_ne in Hm by done. by left. }
  intros Hm. apply H in Hm as [[? Hm]|Hm]; [by rewrite lookup_empty in Hm|done].
Qed.

Lemma absent_elem op : op ∈ Ops (dp_Plan plan) ->
  Config op = "wireless" -> Option_ op = "" -> Kind op = OpDelete ->
  (exists sec, sec ∈ secs /\ wants_bss sec = true /\ sec_Name sec = Section_ op) \/
  Section_ op ∈ wr_absent (wirelessRuntimePlanFor plan).
Proof.
  intros Hop Hc Ho Hk. destruct (has (wanted_bss plan) (Section_ op)) eqn:Eh.
  - left. apply wanted_bss_only. unfold has in Eh. by apply bool_decide_eq_true in Eh.
  - right. cbn [wirelessRuntimePlanFor wr_absent]. unfold sort_strings. rewrite merge_sort_Permutation.
    apply list_elem_of_In, in_flat_map. exists op. split; [by apply list_elem_of_In|].
    rewrite Hc, Ho, Hk, Eh. by left.
Qed.
End Claims.

Lemma gone_nonempty plan ssid : ssid ∈ goneSSIDs plan -> ssid <> "".
Proof.
  unfold goneSSIDs. rewrite elem_of_list_to_set, elem_of_flat_map. intros (op & _ & Hin). revert Hin. unfold gone_ssid.
  cbv zeta. repeat case_match; try (intros Hx; by apply elem_of_nil in Hx).
  intros ->%list_elem_of_singleton. by bool_prop.
Qed.

(** ** A clean check *)

Section Healthy.
Context {W : Type} `{World W}.
Implicit Types (s : cstate W).

(** Between [s] and [s'] the device confirmed every claim of the plan: *)
Record healthy (plan : DevicePlan) s s' : Prop := MkHealthy {
  (** its lan interface is not down; *)
  h_lan : exists dump, answered s s' dec_states [] "network.interface" "dump" (JObj []) dump /\
                       ("lan", false) ∉ dump;
  (** every owned interface the plan touches or a BSS is attached to is up; *)
  h_interfaces : forall sec name, sec ∈ Sections (dp_Doc plan) -> name ∈ required_by plan sec -> interface_up s s' name;
  (** every DHCP pool concerned is served exactly as rendered; *)
  h_pools : forall sec, sec ∈ Sections (dp_Doc plan) -> claims_pool plan sec = true -> exists network pool,
    owned_networks plan !! get (sec_Values sec) "interface" = Some network /\
    buildDHCPRuntimePool sec network = Ok pool /\ pool_served s s' pool;
  (** every DHCP pool the plan removes is served no more; *)
  h_deleted : forall name, name ∈ deleted_pools plan ->
    (exists sec, sec ∈ Sections (dp_Doc plan) /\ claims_pool plan sec = true /\
                 get (sec_Values sec) "interface" = name) \/ pool_gone s s' name;
  (** every BSS of the document is up; *)
  h_bss : forall sec, sec ∈ Sections (dp_Doc plan) -> wants_bss sec = true -> exists dump,
    answered s s' dec_wireless ∅ "luci-rpc" "getWirelessDevices" (JObj []) dump /\ bss_up s s' dump (bss_of sec);
  (** every wireless section the plan deletes is mapped to none; *)
  h_removed : forall op, op ∈ Ops (dp_Plan plan) -> Config op = "wireless" -> Option_ op = "" -> Kind op = OpDelete ->
    (exists sec, sec ∈ Sections (dp_Doc plan) /\ wants_bss sec = true /\ sec_Name sec = Section_ op) \/
    exists dump, answered s s' dec_wireless ∅ "luci-rpc" "getWirelessDevices" (JObj []) dump /\
                 by_section dump (Section_ op) = [];
  (** and asked once every wireless interface is up, no interface that answers
      carries an SSID it removes. *)
  h_gone : forall ssid, ssid ∈ goneSSIDs plan -> not_heard s s' ssid;
}.

Lemma interface_up_widen s0 s s' s1 name :
  extends s0 s -> extends s' s1 -> interface_up s s' name -> interface_up s0 s1 name.
Proof. intros H0 H1 (dump & Ha & Hu). exists dump. split; [by eapply answered_widen|done]. Qed.

Lemma pool_served_widen s0 s s' s1 pool :
  extends s0 s -> extends s' s1 -> pool_served s s' pool -> pool_served s0 s1 pool.
Proof.
  intros H0 H1 [(dump & i & Ha & Hi) (services & inst & path & data & Hs & H2 & H3 & H4 & H5 & Hr & Hl)]. split.
  - exists dump, i. split; [by eapply answered_widen|done].
  - exists services, inst, path, data. split_and!; try done; by eapply answered_widen.
Qed.

Lemma pool_gone_widen s0 s s' s1 name :
  extends s0 s -> extends s' s1 -> pool_gone s s' name -> pool_gone s0 s1 name.
Proof.
  intros H0 H1 (services & Ha & Hall). exists services. split; [by eapply answered_widen|]. intros inst Hi Hr.
  destruct (Hall inst Hi Hr) as (path & data & Hp & Hd & Hl). exists path, data.
  split_and!; [done|by eapply answered_widen|done].
Qed.

(** The wireless part of the check. *)
Lemma wireless_claims plan fuel t s s' :
  RenderPlan.Validate (dp_Doc plan) = None ->
  (if wireless_empty (wirelessRuntimePlanFor plan) && bool_decide (goneSSIDs plan = ∅) then ret (Some None)
   else settle_wireless fuel t (wirelessRuntimePlanFor plan) (goneSSIDs plan) ∅) s = (Some None, s') ->
  (forall sec, sec ∈ Sections (dp_Doc plan) -> wants_bss sec = true -> exists dump,
    answered s s' dec_wireless ∅ "luci-rpc" "getWirelessDevices" (JObj []) dump /\ bss_up s s' dump (bss_of sec)) /\
  (forall op, op ∈ Ops (dp_Plan plan) -> Config op = "wireless" -> Option_ op = "" -> Kind op = OpDelete ->
    (exists sec, sec ∈ Sections (dp_Doc plan) /\ wants_bss sec = true /\ sec_Name sec = Section_ op) \/
    exists dump, answered s s' dec_wireless ∅ "luci-rpc" "getWirelessDevices" (JObj []) dump /\
                 by_section dump (Section_ op) = []) /\
  (forall ssid, ssid ∈ goneSSIDs plan -> not_heard s s' ssid).
Proof.
  intros Hv E. set (wp := wirelessRuntimePlanFor plan) in *.
  assert (Hempty : wireless_empty wp = true -> wr_desired wp = [] /\ wr_absent wp = []).
  { unfold wireless_empty. intros [H1 H2]%andb_true_iff. by apply Nat.eqb_eq, length_zero_iff_nil in H1, H2. }
  assert (Hgone : forall ssid, ssid ∈ goneSSIDs plan -> not_heard s s' ssid).
  { intros ssid Hs. destruct (wireless_empty wp && bool_decide (goneSSIDs plan = ∅)) eqn:Eb.
    - apply andb_true_iff in Eb as [_ Eb]. apply bool_decide_eq_true in Eb. rewrite Eb in Hs.
      by apply not_elem_of_empty in Hs.
    - apply settle_wireless_ok in E as (s1 & s2 & _ & _ & _ & Hg). by apply Hg, (gone_nonempty plan). }
  destruct (wireless_empty wp) eqn:Ee.
  - destruct (Hempty eq_refl) as [Hd Ha]. split_and!; [| |done].
    + intros sec Hs Hw. pose proof (desired_elem plan sec Hv Hs Hw) as Hin. fold wp in Hin. rewrite Hd in Hin.
      by apply elem_of_nil in Hin.
    + intros op Hop Hc Ho Hk. destruct (absent_elem plan op Hop Hc Ho Hk) as [?|Hin]; [by left|].
      fold wp in Hin. rewrite Ha in Hin. by apply elem_of_nil in Hin.
  - cbn [andb] in E. apply settle_wireless_ok in E as (s1 & s2 & H1 & Hcheck & H2 & _).
    destruct (wireless_proven wp s1 s2 Hcheck Ee) as (dump & Hdump & Hbss & Habs).
    assert (Ha : answered s s' dec_wireless ∅ "luci-rpc" "getWirelessDevices" (JObj []) dump)
      by (by eapply answered_widen). split_and!; [| |done].
    + intros sec Hs Hw. exists dump. split; [done|]. eapply bss_up_widen; [exact H1|exact H2|].
      by apply Hbss, desired_elem.
    + intros op Hop Hc Ho Hk. destruct (absent_elem plan op Hop Hc Ho Hk) as [?|Hin]; [by left|].
      right. exists dump. split; [done|]. by apply Habs.
Qed.

Lemma dhcp_claims plan fuel s s' :
  waitForDHCPRuntime fuel (dhcpRuntimePlanFor plan) s = (Some None, s') ->
  (forall sec, sec ∈ Sections (dp_Doc plan) -> claims_pool plan sec = true -> exists network pool,
    owned_networks plan !! get (sec_Values sec) "interface" = Some network /\
    buildDHCPRuntimePool sec network = Ok pool /\ pool_served s s' pool) /\
  (forall name, name ∈ deleted_pools plan ->
    (exists sec, sec ∈ Sections (dp_Doc plan) /\ claims_pool plan sec = true /\
                 get (sec_Values sec) "interface" = name) \/ pool_gone s s' name).
Proof.
  intros E. destruct (dhcp_claim plan) as [Hnone Hsome]. destruct (dhcpRuntimePlanFor plan) as [check|].
  - unfold waitForDHCPRuntime in E. destruct (dh_err check) eqn:Ed; [done|].
    apply bind_inv in E as (t & s1 & E1 & E). apply (reading_extends e_now) in E1; [|apply reading_now].
    apply settle_ok in E as (s2 & He & E); [|apply reading_dhcp].
    assert (He2 : extends s s2) by (by eapply extends_trans).
    apply dhcp_proven in E as [P1 P2]. destruct (Hsome check eq_refl Ed) as [C1 C2]. split.
    + intros sec Hs Hc. destruct (C1 sec Hs Hc) as (network & pool & Hn & Hb & Hin). exists network, pool.
      split_and!; [done|done|]. eapply pool_served_widen; [exact He2|apply extends_refl|by apply P1].
    + intros name Hn. destruct (C2 name Hn) as [?|Hin]; [by left|]. right.
      eapply pool_gone_widen; [exact He2|apply extends_refl|by apply P2].
  - destruct (Hnone eq_refl) as [C1 C2]. split.
    + intros sec Hs Hc. by rewrite C1 in Hc.
    + intros name Hn. rewrite C2 in Hn. by apply elem_of_nil in Hn.
Qed.

Lemma interface_claims plan fuel s s' :
  waitForOwnedInterfaces fuel (ownedInterfacesForPlan plan) s = (Some None, s') ->
  forall sec name, sec ∈ Sections (dp_Doc plan) -> name ∈ required_by plan sec -> interface_up s s' name.
Proof.
  intros E sec name Hs Hn. pose proof (required_elem plan sec name Hs Hn) as Hr.
  unfold waitForOwnedInterfaces in E. destruct (Nat.eqb _ 0) eqn:En.
  { apply Nat.eqb_eq, length_zero_iff_nil in En. rewrite En in Hr. by apply elem_of_nil in Hr. }
  apply bind_inv in E as (t & s1 & E1 & E). apply (reading_extends e_now) in E1; [|apply reading_now].
  apply settle_ok in E as (s2 & He & E); [|apply reading_interfaces].
  eapply interface_up_widen; [by eapply extends_trans|apply extends_refl|]. by eapply interfaces_proven.
Qed.

(** The phases of a clean check. *)
Lemma health_phases plan s s0 : healthCheck plan s = (None, s0) ->
  exists dump s1 s2 s3 s4 t,
    Call dec_states [] "network.interface" "dump" (JObj []) s = (Ok dump, s1) /\ ("lan", false) ∉ dump /\
    waitForOwnedInterfaces health_fuel (ownedInterfacesForPlan plan) s1 = (Some None, s2) /\
    waitForDHCPRuntime health_fuel (dhcpRuntimePlanFor plan) s2 = (Some None, s3) /\ extends s3 s4 /\
    (if wireless_empty (wirelessRuntimePlanFor plan) && bool_decide (goneSSIDs plan = ∅) then ret (Some None)
     else settle_wireless health_fuel t (wirelessRuntimePlanFor plan) (goneSSIDs plan) ∅) s4 = (Some None, s0).
Proof.
  unfold healthCheck. intros E. apply bind_inv in E as (r & s5 & E & E0). injection E0 as E0 <-.
  destruct r as [r|]; [|done]. subst r. unfold health_run in E.
  apply bind_inv in E as (d & s1 & E1 & E). destruct d as [dump|]; [|done].
  destruct (existsb _ dump) eqn:Elan; [done|].
  apply bind_inv in E as (a & s2 & E2 & E). destruct a as [[|]|]; [done| |done].
  apply bind_inv in E as (b & s3 & E3 & E). destruct b as [[|]|]; [done| |done].
  assert (Hlan : ("lan", false) ∉ dump).
  { intros Hin. apply not_true_iff_false in Elan. apply Elan, existsb_exists. exists ("lan", false).
    split; [by apply list_elem_of_In|done]. }
  cbv zeta in E. destruct (_ && _).
  - exists dump, s1, s2, s3, s3, 0. split_and!; [exact E1|exact Hlan|exact E2|exact E3|apply extends_refl|exact E].
  - apply bind_inv in E as (t & s4 & E4 & E). exists dump, s1, s2, s3, s4, (t + ssidSettleTimeout).
    split_and!; [exact E1|exact Hlan|exact E2|exact E3| |exact E]. eapply reading_extends; [apply reading_now|exact E4].
Qed.

Lemma healthCheck_proves plan s s' :
  RenderPlan.Validate (dp_Doc plan) = None -> healthCheck plan s = (None, s') -> healthy plan s s'.
Proof.
  intros Hv E. apply health_phases in E as (dump & s1 & s2 & s3 & s4 & t & E1 & Hlan & E2 & E3 & X4 & E4).
  pose proof (call_extends _ _ _ _ _ _ _ _ E1) as X1.
  pose proof (reading_extends _ _ _ _ (reading_wait_interfaces _ _) E2) as X2.
  pose proof (reading_extends _ _ _ _ (reading_wait_dhcp _ _) E3) as X3.
  assert (X5 : extends s4 s').
  { eapply reading_extends; [|exact E4]. destruct (_ && _); [apply reading_ret|apply reading_settle_wireless]. }
  pose proof (extends_trans _ _ _ X4 X5) as T3. pose proof (extends_trans _ _ _ X3 T3) as T2.
  pose proof (extends_trans _ _ _ X2 T2) as T1. pose proof (extends_trans _ _ _ X1 X2) as T02.
  pose proof (extends_trans _ _ _ (extends_trans _ _ _ T02 X3) X4) as T04.
  apply (wireless_claims _ _ _ _ _ Hv) in E4 as (W1 & W2 & W3).
  pose proof (dhcp_claims _ _ _ _ E3) as [D1 D2]. pose proof (interface_claims _ _ _ _ E2) as I1.
  split.
  - exists dump. split; [|done]. eapply answered_widen; [apply extends_refl|exact T1|by apply answered_now].
  - intros sec name Hs Hn. eapply interface_up_widen; [exact X1|exact T2|by eapply I1].
  - intros sec Hs Hc. destruct (D1 sec Hs Hc) as (network & pool & Hn & Hb & Hp). exists network, pool.
    split_and!; [done|done|]. eapply pool_served_widen; [exact T02|exact T3|exact Hp].
  - intros name Hn. destruct (D2 name Hn) as [?|Hp]; [by left|right].
    eapply pool_gone_widen; [exact T02|exact T3|exact Hp].
  - intros sec Hs Hb. destruct (W1 sec Hs Hb) as (wd & Ha & Hup). exists wd.
    split; [eapply answered_widen; [exact T04|apply extends_refl|exact Ha]|].
    eapply bss_up_widen; [exact T04|apply extends_refl|exact Hup].
  - intros op Hop Hc Ho Hk. destruct (W2 op Hop Hc Ho Hk) as [?|(wd & Ha & Hb)]; [by left|right]. exists wd.
    split; [eapply answered_widen; [exact T04|apply extends_refl|exact Ha]|done].
  - intros ssid Hs. eapply not_heard_widen; [exact T04|apply extends_refl|by apply W3].
Qed.

(** C3 (daemon): whatever the device answers, an apply under the daemon's
    health check sends nothing but logins, the savedir listing, [uci] reads,
    the staged operations of the plan, reverts of the plan's configs, confirms,
    applies that request the rollback window with the plan's timeout, and the
    reads of the health check, none of which is a [uci] call: it never commits,
    never arms without rollback and writes nothing that is not in the plan. *)
Theorem daemon_apply_requests eng fuel plan s :
  exists new, wire (Apply eng fuel (dp_Plan plan) (Some (healthCheck plan)) s).2 = (wire s ++ new)%list /\
    Forall (fun q => engine_request (dp_Plan plan) q \/ health_request q) (trace_requests new).
Proof. apply (Apply_requests eng health_request). intros h [= <-]. apply reading_healthCheck. Qed.

(** C6 (daemon): an applied plan was healthy while its rollback was armed.
    When [Apply] under the daemon's health check reports [Applied], then from
    the state in which the arming call was accepted, and before the confirm
    that was accepted within the window, the device itself reported what
    [healthy] lists: its lan interface is not down; every owned interface that
    the plan touches or a BSS is attached to is up; every enabled pool
    concerned is served exactly and every removed one is not; every BSS of the
    document is carried, and isolated where asked; every deleted wireless
    section is mapped to none; and of the removed SSIDs none was named by a
    wireless interface that answered (one that does not answer counts as
    silent). *)
Theorem applied_plan_was_healthy eng fuel plan s res e s' :
  RenderPlan.Validate (dp_Doc plan) = None ->
  Apply eng fuel (dp_Plan plan) (Some (healthCheck plan)) s = (Some (res, e), s') ->
  res_Outcome res = Applied ->
  exists before armed s1 sh sh' s2,
    reaches_arming (dp_Plan plan) s before armed s1 /\
    Call dec_nil tt "uci" "apply" (armed_args (plan_timeout (dp_Plan plan))) s1 = (Ok tt, sh) /\
    healthy plan sh sh' /\
    confirmed_before (armed + plan_timeout (dp_Plan plan)) sh' s2 /\ wire s' = wire s2.
Proof.
  intros Hv E Ho. apply Apply_reaches_window in E as [(_ & Hx & _)|E]; [congruence|].
  destruct E as (before & r0 & armed & s1 & s2 & r1 & Harm & _ & H0 & _ & Ha & Hw & Heq & _).
  destruct (reaches_arming_extends _ _ _ _ _ Harm) as [_ Hwin].
  eapply apply_armed_applied in Ha as (s3 & (qa & oa & sh & sh' & Hcall & _ & _ & _ & _ & Hhealth & _ & Hconf) & Hw3);
    [|apply healthCheck_good|done|congruence|done].
  exists before, armed, s1, sh, sh', s3. split_and!; [done|done| |done|congruence].
  by apply healthCheck_proves.
Qed.
End Healthy.
