(* ===== verification/RuntimeHealthTime.v ===== *)
(** * The health check returns

    Time over the health check: no computation of it takes the clock back, and
    every settle loop gives up when its 20 seconds are over, so the fuel of
    [healthCheck] is never spent. *)

From Stdlib Require Import ZArith Lia Ascii String.
From stdpp Require Import base gmap list strings sorting.
From S2P Require Import Prelude GoStr Ubus UbusTrace GoJson ApplyEngine ApplyEngineSpec RenderPlan Reconcile.
From S2P Require Import DhcpHealth WirelessHealth RuntimeHealth RuntimeHealthSpec.

Local Open Scope string_scope.
Local Open Scope Z_scope.

Section Returns.
Context {W : Type} `{World W} `{!ClockLaws W}.
Local Notation CM := (M (cstate W)).
Implicit Types (s : cstate W).

(** Time does not go back. *)
Definition forward {A} (m : CM A) : Prop :=
  forall s a s', m s = (a, s') -> time (world s) <= time (world s').

Lemma forward_ret {A} (a : A) : forward (ret a).
Proof. intros s x s' E. by injection E as _ <-. Qed.

Lemma forward_bind {A B} (m : CM A) (k : A -> CM B) :
  forward m -> (forall a, forward (k a)) -> forward (bind m k).
Proof.
  intros Hm Hk s b s' E. apply bind_inv in E as (a & s1 & E1 & E). apply Hm in E1. apply Hk in E. lia.
Qed.

Lemma forward_quiet {A} (m : CM A) : (forall s, world (m s).2 = world s) -> forward m.
Proof. intros Hm s a s' E. specialize (Hm s). rewrite E in Hm. cbn [snd] in Hm. by rewrite Hm. Qed.

Lemma forward_post {A} (dec : json -> option A) p : forward (post dec p).
Proof.
  intros s a s' E. unfold post in E. destruct (http_do _ _ _) as [o w'] eqn:Eh. apply http_time in Eh.
  by injection E as _ <-.
Qed.

Lemma forward_session {A} (dec : json -> option A) zero sess o m args : forward (callWithSession dec zero sess o m args).
Proof.
  unfold callWithSession. apply forward_bind; [by apply forward_quiet|]. intros c.
  apply forward_bind; [by apply forward_quiet|]. intros _. apply forward_bind; [apply forward_post|].
  intros r. apply forward_ret.
Qed.

Lemma forward_login u p : forward (Login u p).
Proof.
  unfold Login. apply forward_bind; [apply forward_session|]. intros [x|e]; [|apply forward_ret].
  case_match; [apply forward_ret|]. apply forward_bind; [by apply forward_quiet|]. intros c.
  apply forward_bind; [by apply forward_quiet|]. intros _. apply forward_ret.
Qed.

Lemma forward_call {A} (dec : json -> option A) zero o m args : forward (Call dec zero o m args).
Proof.
  assert (Hone : forward (callOnce dec zero o m args)).
  { unfold callOnce. apply forward_bind; [by apply forward_quiet|]. intros c. apply forward_session. }
  unfold Call, call. apply forward_bind; [done|]. intros [x|e]; [apply forward_ret|].
  case_match; [|apply forward_ret]. apply forward_bind; [by apply forward_quiet|]. intros c.
  case_match; [apply forward_ret|]. apply forward_bind; [apply forward_login|].
  intros [u|le]; [|apply forward_ret]. apply forward_bind; [done|]. intros r2. repeat case_match; apply forward_ret.
Qed.

Lemma forward_now : forward e_now.
Proof.
  intros s t s' E. destruct (e_now_run s) as (t0 & w & Hn & Hr). rewrite Hr in E. injection E as <- <-.
  apply now_time in Hn. cbn [world]. lia.
Qed.

#[local] Hint Resolve forward_ret forward_call forward_now : oonfee_health.
Ltac onward :=
  repeat first
    [ progress intros
    | progress cbv beta zeta
    | solve [auto with oonfee_health]
    | match goal with
      | |- forward (bind _ _) => apply forward_bind
      | |- forward (match ?x with _ => _ end) => destruct x
      end ].

Lemma forward_interfaces required : forward (checkOwnedInterfacesOnce required).
Proof. unfold checkOwnedInterfacesOnce. onward. Qed.

Lemma forward_dhcp check : forward (checkDHCPRuntimeOnce check).
Proof.
  assert (Hr : forall paths acc, forward (read_ranges paths acc)).
  { induction paths as [|p paths IH]; intros acc; cbn [read_ranges]; onward. }
  unfold checkDHCPRuntimeOnce, check_dnsmasq. onward.
Qed.

Lemma forward_wireless plan : forward (checkWirelessRuntimeOnce plan).
Proof.
  assert (Hb : forall dump l, forward (check_all_bss dump l)).
  { induction l as [|want l IH]; cbn [check_all_bss]; unfold check_bss; onward. }
  unfold checkWirelessRuntimeOnce. onward.
Qed.

Lemma forward_readSSIDs : forward readSSIDs.
Proof.
  assert (Hr : forall ifaces found, forward (read_ssids ifaces found)).
  { induction ifaces as [|i l IH]; intros found; cbn [read_ssids]; onward. }
  unfold readSSIDs. onward.
Qed.

Lemma forward_sleep : forward (e_sleep second).
Proof.
  intros s c s' E. unfold e_sleep in E. destruct (sleep second (world s)) as [c0 w] eqn:Es. injection E as -> <-.
  cbn [world]. destruct c; [by apply sleep_cut in Es|]. apply sleep_time in Es. unfold second in *. lia.
Qed.
#[local] Hint Resolve forward_interfaces forward_dhcp forward_wireless forward_readSSIDs forward_sleep : oonfee_health.

Lemma forward_settle fuel deadline once late : forward once -> forward (settle fuel deadline once late).
Proof. intros Ho. induction fuel as [|f IH]; cbn [settle]; onward. Qed.

Lemma forward_settle_wireless fuel deadline check gone : forall found,
  forward (settle_wireless fuel deadline check gone found).
Proof. induction fuel as [|f IH]; intros found; cbn [settle_wireless]; onward. Qed.
#[local] Hint Resolve forward_settle forward_settle_wireless : oonfee_health.

Lemma forward_healthCheck plan : forward (healthCheck plan).
Proof. unfold healthCheck, health_run, waitForOwnedInterfaces, waitForDHCPRuntime. onward. Qed.

(** The clock and a second of sleep. *)
Lemma now_after s t s' : e_now s = (t, s') -> time (world s) <= t <= time (world s').
Proof.
  intros E. destruct (e_now_run s) as (t0 & w & Hn & Hr). rewrite Hr in E. injection E as <- <-.
  by apply now_time in Hn.
Qed.
Lemma slept d s s' : e_sleep d s = (None, s') -> time (world s) + d <= time (world s').
Proof.
  unfold e_sleep. destruct (sleep d (world s)) as [c w] eqn:Es. intros E. injection E as -> <-. by apply sleep_time in Es.
Qed.

(** One round that does not end the loop leaves a second less. *)
Lemma settle_round f (once : CM (option fault)) late deadline s s' : forward once ->
  settle (S f) deadline once late s = (None, s') ->
  exists s1, time (world s) + second <= time (world s1) /\ time (world s) < deadline /\
             settle f deadline once late s1 = (None, s').
Proof.
  intros Ho E. change (settle (S f) deadline once late) with
    (do r <- once;
     match r with
     | None => ret (Some None)
     | Some fl =>
         if fl_final fl then ret (Some (Some (fault_error fl)))
         else do t <- e_now;
              if negb (t <? deadline) then ret (Some (Some (late fl)))
              else do c <- e_sleep second;
                   match c with
                   | Some c => ret (Some (Some (CtxError c)))
                   | None => settle f deadline once late
                   end
     end) in E.
  apply bind_inv in E as (r & s1 & E1 & E). apply Ho in E1. destruct r as [fl|]; [|done].
  destruct (fl_final fl); [done|]. apply bind_inv in E as (t & s2 & E2 & E). apply now_after in E2.
  destruct (t <? deadline) eqn:Et; [|done]. cbn [negb] in E. apply Z.ltb_lt in Et.
  apply bind_inv in E as (c & s3 & E3 & E). destruct c; [done|]. apply slept in E3.
  exists s3. split_and!; [lia|lia|done].
Qed.

Lemma settle_returns k (once : CM (option fault)) late : forward once -> forall deadline s,
  deadline - time (world s) <= Z.of_nat k * second -> (settle (S k) deadline once late s).1 <> None.
Proof.
  intros Ho. induction k as [|k IH]; intros deadline s Hk Hn;
    destruct (settle (S _) deadline once late s) as [r s'] eqn:E; cbn [fst] in Hn; subst r;
    apply settle_round in E as (s1 & Ht & Hd & E); try done.
  - lia.
  - apply (IH deadline s1); [unfold second in *; lia|]. by rewrite E.
Qed.

Lemma wireless_round f check gone found deadline s s' :
  settle_wireless (S f) deadline check gone found s = (None, s') ->
  exists s1 found', time (world s) + second <= time (world s1) /\ time (world s) <= deadline /\
                    settle_wireless f deadline check gone found' s1 = (None, s').
Proof.
  intros E. cbn [settle_wireless] in E.
  apply bind_inv in E as (fl & s1 & E1 & E). apply forward_wireless in E1.
  apply bind_inv in E as (found1 & s2 & E2 & E).
  assert (H2 : time (world s1) <= time (world s2)).
  { revert E2. case_bool_decide; [apply forward_ret|apply forward_readSSIDs]. }
  assert (K : forall x, (do t <- e_now;
       if deadline <? t then ret (Some x)
       else do c <- e_sleep second;
            match c with
            | Some c => ret (Some (Some (CtxError c)))
            | None => settle_wireless f deadline check gone found1
            end) s2 = (None, s') ->
    exists s3 found', time (world s) + second <= time (world s3) /\ time (world s) <= deadline /\
                      settle_wireless f deadline check gone found' s3 = (None, s')).
  { intros x K. apply bind_inv in K as (t & s3 & E3 & K). apply now_after in E3.
    destruct (deadline <? t) eqn:Et; [done|]. apply Z.ltb_ge in Et.
    apply bind_inv in K as (c & s4 & E4 & K). destruct c; [done|]. apply slept in E4.
    exists s4, found1. split_and!; [lia|lia|done]. }
  destruct fl as [fl|]; [destruct (fl_final fl)|]; destruct (stillOn found1 gone); try done; by eapply K.
Qed.

Lemma wireless_returns k check gone : forall found deadline s,
  deadline - time (world s) <= Z.of_nat k * second ->
  (settle_wireless (S (S k)) deadline check gone found s).1 <> None.
Proof.
  induction k as [|k IH]; intros found deadline s Hk Hn;
    destruct (settle_wireless (S (S _)) deadline check gone found s) as [r s'] eqn:E; cbn [fst] in Hn; subst r;
    apply wireless_round in E as (s1 & found1 & Ht & Hd & E).
  - apply wireless_round in E as (s2 & found2 & Ht2 & Hd2 & E). unfold second in *. lia.
  - apply (IH found1 deadline s1); [unfold second in *; lia|]. by rewrite E.
Qed.

(** Every loop of the check ends within its fuel. *)
Lemma health_returns plan s : (health_run health_fuel plan s).1 <> None.
Proof.
  intros Hn. destruct (health_run health_fuel plan s) as [r s'] eqn:E. cbn [fst] in Hn. subst r.
  unfold health_run, health_fuel in E. apply bind_inv in E as (d & s1 & E1 & E). destruct d as [dump|]; [|done].
  destruct (existsb _ dump); [done|]. apply bind_inv in E as (a & s2 & E2 & E).
  assert (Hfuel : forall once late t u v w, forward once -> e_now u = (t, v) ->
    settle 22 (t + dhcpSettleTimeout) once late v <> (None, w)).
  { intros once late t u v w Ho Et Es. apply now_after in Et. eapply (settle_returns 21 once late Ho).
    2: { by rewrite Es. } unfold dhcpSettleTimeout, second. lia. }
  destruct a as [[|]|]; [done| |].
  2: { unfold waitForOwnedInterfaces in E2. destruct (Nat.eqb _ 0); [done|].
       apply bind_inv in E2 as (t & u & Et & E2). by eapply Hfuel; [apply forward_interfaces|exact Et|exact E2]. }
  apply bind_inv in E as (b & s3 & E3 & E). destruct b as [[|]|]; [done| |].
  2: { unfold waitForDHCPRuntime in E3. destruct (dhcpRuntimePlanFor plan) as [check|]; [|done].
       destruct (dh_err check); [done|]. apply bind_inv in E3 as (t & u & Et & E3).
       by eapply Hfuel; [apply forward_dhcp|exact Et|exact E3]. }
  cbv zeta in E. destruct (_ && _); [done|]. apply bind_inv in E as (t & s4 & E4 & E). apply now_after in E4.
  eapply (wireless_returns 20). 2: { by rewrite E. } unfold ssidSettleTimeout, second. lia.
Qed.

(** C25 (daemon): the health check is one the apply engine may run while a
    rollback is armed. Whatever the device answers, it sends only logins and the
    reads of [health_request], never a write; inside a confirm window it
    neither leaves the window nor changes the session, as [good_health] asks;
    time moves forward over it; and with a clock that advances it returns: no
    settle loop outlives its 20 seconds, so the fuel is never spent. *)
Theorem healthCheck_contract plan :
  posts_only health_request (healthCheck plan) /\
  good_health (Some (healthCheck plan)) /\
  forward (healthCheck plan) /\
  (forall s, (health_run health_fuel plan s).1 <> None).
Proof.
  split_and!; [apply reading_healthCheck| |apply forward_healthCheck|apply health_returns].
  apply healthCheck_good.
Qed.
End Returns.

(** * A health check over a scripted device

    The apply of one BSS on a routed guest network, with its DHCP pool and the
    SSID it replaces: the engine arms, the health check asks, the second round
    of its wireless loop finds everything up, and the engine confirms. And
    what the check does not see: SSIDs it could not read. *)

From Stdlib Require Import ZArith Lia Ascii String.
From stdpp Require Import base gmap list strings.
From S2P Require Import Prelude GoStr GoFmt Ubus UbusTrace GoJson ApplyEngine ApplyEngineSpec.
From S2P Require Import RenderPlan RenderPlanSpec Reconcile DhcpHealth WirelessHealth RuntimeHealth.
From S2P Require Import RuntimeHealthSpec.

Local Open Scope string_scope.
Local Open Scope Z_scope.

(** An SSID the device could not be asked about counts as gone: when the list
    of radios is refused, nothing is found, whatever is on the air. *)
Lemma unreadable_ssids_count_as_gone {W} `{World W} (s s' : cstate W) e gone :
  Call dec_devices [] "iwinfo" "devices" (JObj []) s = (Err e, s') ->
  readSSIDs s = (∅, s') /\ stillOn ∅ gone = [].
Proof.
  intros E. split; [unfold readSSIDs, bind; by rewrite E|].
  unfold stillOn, sorted_set. replace (gone ∩ ∅) with (∅ : gset string) by set_solver. reflexivity.
Qed.

(** The configuration argument is found wherever dnsmasq accepts it, and only
    a file of the service's own directory is read. *)
Example config_paths :
  map dnsmasqConfigPath
    [["/usr/sbin/dnsmasq"; "-C"; "/var/etc/dnsmasq.conf.cfg01411c"; "-k"]; ["dnsmasq"; "-C/var/etc/dnsmasq.conf.a_b"];
     ["dnsmasq"; "--conf-file=/var/etc/dnsmasq.conf.x"]; ["dnsmasq"; "-C"; "/etc/shadow"];
     ["dnsmasq"; "-C"; "/var/etc/dnsmasq.conf./../x"]; ["dnsmasq"; "-C"]]
  = [Some "/var/etc/dnsmasq.conf.cfg01411c"; Some "/var/etc/dnsmasq.conf.a_b";
     Some "/var/etc/dnsmasq.conf.x"; None; None; None].
Proof. vm_compute. reflexivity. Qed.

Module HealthRuns.
Import Scripted.

Definition m (l : list (string * string)) : gmap string string := list_to_map l.

Definition guest_net : Section :=
  MkSection "network" "interface" "oowrt_net_guest"
    (m [("proto", "static"); ("ipaddr", "10.7.46.1"); ("netmask", "255.255.255.0"); (OwnershipTag, "1")]) ∅ [].
Definition guest_pool : Section :=
  MkSection "dhcp" "dhcp" "oowrt_dhcp_guest"
    (m [("interface", "oowrt_net_guest"); ("start", "100"); ("limit", "50"); ("leasetime", "6h"); (OwnershipTag, "1")]) ∅ [].
Definition guest_wifi : Section :=
  MkSection "wireless" "wifi-iface" "oowrt_w1"
    (m [("ssid", "guest"); ("network", "oowrt_net_guest"); ("isolate", "1"); (OwnershipTag, "1")]) ∅ [].

Definition rename : Op :=
  MkOp OpSet "wireless" "oowrt_w1" "" "" [("ssid", "guest")] [] "" false.

Definition guest_plan : DevicePlan :=
  MkDevicePlan (MkDoc 7 [guest_net; guest_pool; guest_wifi] [] [] []) (MkReport [] [] []) []
    (MkPlan [rename] 0 false)
    {["wireless" := {["oowrt_w1" := m [("ssid", "visitors"); (OwnershipTag, "1")]]}]}.

Example guest_claims :
  ownedInterfacesForPlan guest_plan = ["oowrt_net_guest"] /\
  option_map (fun c => map pl_rangeLine (dh_enabled c)) (dhcpRuntimePlanFor guest_plan)
  = Some ["dhcp-range=set:oowrt_net_guest,10.7.46.100,10.7.46.149,255.255.255.0,6h"] /\
  wr_desired (wirelessRuntimePlanFor guest_plan) = [MkBSS "oowrt_w1" "guest" true] /\
  elements (goneSSIDs guest_plan) = ["visitors"].
Proof. vm_compute. split_and!; reflexivity. Qed.

Definition o (l : list (string * json)) : json := JObj l.
Definition iface_up (name addr : string) : json :=
  o [("interface", JStr name); ("up", JBool true);
     ("ipv4-address", JArr [o [("address", JStr addr); ("mask", JInt 24)]])].
Definition dump : http_outcome :=
  reply 0 [o [("interface", JArr [iface_up "lan" "192.168.1.1"; iface_up "oowrt_net_guest" "10.7.46.1"])]].
Definition services : http_outcome :=
  reply 0 [o [("dnsmasq", o [("instances", o [("cfg01411c",
    o [("running", JBool true); ("pid", JInt 4711);
       ("command", JArr (map JStr ["/usr/sbin/dnsmasq"; "-C"; "/var/etc/dnsmasq.conf.cfg01411c"]))])])])]].
Definition file (data : string) : http_outcome := reply 0 [o [("data", JStr data)]].
Definition inventory (ifaces : list json) : http_outcome :=
  reply 0 [o [("radio0", o [("up", JBool true); ("interfaces", JArr ifaces)])]].
Definition guest_iface : json :=
  o [("section", JStr "oowrt_w1"); ("ifname", JStr "phy0-ap0"); ("config", o [("ssid", JStr "guest")])].
Definition status (ssid : string) : http_outcome := reply 0 [o [("ssid", JStr ssid); ("status", JStr "ENABLED")]].
Definition radios (l : list string) : http_outcome := reply 0 [o [("devices", JArr (map JStr l))]].

(** The old SSID is still carried in the first round. *)
Definition health_script : list http_outcome :=
  [dump; dump; dump; services;
   file ("# generated" ++ String (chr 10) "dhcp-range=set:oowrt_net_guest,10.7.46.100,10.7.46.149,255.255.255.0,6h");
   inventory []; radios ["phy0-ap0"]; status "visitors";
   inventory [guest_iface]; status "guest"; file "1"; radios ["phy0-ap0"]; status "guest"].

Definition script : list http_outcome :=
  ([reply 4 []; reply 0 (value "visitors"); reply_batch 1; reply 0 changes; reply 0 []] ++
   health_script ++ [reply 0 []])%list.

Example health_clean : fst (healthCheck guest_plan (start health_script)) = None.
Proof. vm_compute. reflexivity. Qed.

Local Notation run := (Apply New_Engine 31 (dp_Plan guest_plan) (Some (healthCheck guest_plan)) (start script)).

Definition verdict : Result * option err := default (MkRes NoOutcome no_reason None false 0 0, None) (fst run).

Lemma run_applied : res_Outcome (fst verdict) = Applied.
Proof. vm_compute. reflexivity. Qed.

Lemma run_verdict : run = (Some (fst verdict, snd verdict), snd run).
Proof.
  assert (Hs : bool_decide (is_Some (fst run)) = true) by (vm_compute; reflexivity).
  apply bool_decide_eq_true in Hs as [[res e] Hv].
  assert (Hd : verdict = (res, e)) by (unfold verdict; rewrite Hv; reflexivity).
  rewrite Hd. cbn [fst snd]. rewrite <- Hv. apply surjective_pairing.
Qed.

Lemma guest_valid : RenderPlan.Validate (dp_Doc guest_plan) = None.
Proof. vm_compute. reflexivity. Qed.

Lemma guest_wanted : wants_bss guest_wifi = true.
Proof. vm_compute. reflexivity. Qed.

Lemma visitors_gone : "visitors" ∈ goneSSIDs guest_plan.
Proof. apply elem_of_elements. destruct guest_claims as (_ & _ & _ & ->). left. Qed.

Lemma applied_plan_was_healthy_witness :
  res_Outcome (fst verdict) = Applied /\
  exists before armed s1 sh sh' s2, reaches_arming (dp_Plan guest_plan) (start script) before armed s1 /\
    RuntimeHealthSpec.healthy guest_plan sh sh' /\
    confirmed_before (armed + plan_timeout (dp_Plan guest_plan)) sh' s2 /\
    not_heard sh sh' "visitors" /\
    exists wd, bss_up sh sh' wd (bss_of guest_wifi).
Proof.
  split; [exact run_applied|].
  destruct (applied_plan_was_healthy New_Engine 31 guest_plan (start script) (fst verdict) (snd verdict) (snd run)
              guest_valid run_verdict run_applied) as (before & armed & s1 & sh & sh' & s2 & Harm & _ & Hh & Hc & _).
  exists before, armed, s1, sh, sh', s2. split; [exact Harm|]. split; [exact Hh|]. split; [exact Hc|].
  split; [apply (h_gone _ _ _ Hh); exact visitors_gone|].
  assert (Hin : guest_wifi ∈ Sections (dp_Doc guest_plan)) by (right; right; left).
  destruct (h_bss _ _ _ Hh guest_wifi Hin guest_wanted) as (wd & _ & Hup). exists wd. exact Hup.
Defined.
End HealthRuns.
