(* ===== verification/JsonText.v ===== *)
(** * Writing JSON

    The text [json.Marshal] writes for strings, integers, booleans, slices,
    structs and maps (whose keys it sorts), with the HTML-safe escaping of its
    default encoder. An ill-formed byte of a string is written as the escape of
    the replacement rune. *)

From Stdlib Require Import ZArith Lia Ascii String.
From stdpp Require Import base gmap list strings sorting.
From S2P Require Import Prelude GoStr GoFmt.

Local Open Scope string_scope.
Local Open Scope Z_scope.

(** [\u00xx] *)
Definition escape_unicode (b : Z) : list ascii :=
  (backslash :: chars "u00" ++ hex_digits 2 b)%list.

Definition json_ascii (c : ascii) : list ascii :=
  let b := byte_of c in
  if (b =? 34) || (b =? 92) then [backslash; c]
  else if b =? 8 then [backslash; "b"%char]
  else if b =? 12 then [backslash; "f"%char]
  else if b =? 10 then [backslash; "n"%char]
  else if b =? 13 then [backslash; "r"%char]
  else if b =? 9 then [backslash; "t"%char]
  else if (b <? 32) || (b =? 60) || (b =? 62) || (b =? 38) then escape_unicode b
  else [c].

(** The rune at the head of [l], whose encoding takes [n] bytes. *)
Definition json_rune (n : nat) (l : list ascii) : list ascii :=
  match l with
  | [] => []
  | c :: _ =>
      if byte_of c <? 128 then json_ascii c
      else if Nat.eqb n 1 then (backslash :: chars "ufffd")%list
      else if bool_decide (take n l = bytes [226; 128; 168]) then (backslash :: chars "u2028")%list
      else if bool_decide (take n l = bytes [226; 128; 169]) then (backslash :: chars "u2029")%list
      else take n l
  end.

Fixpoint json_runes (fuel : nat) (l : list ascii) : list ascii :=
  match fuel, l with
  | _, [] | O, _ => []
  | S f, _ => (json_rune (rune_size l) l ++ json_runes f (drop (rune_size l) l))%list
  end.

(** Every rune takes at least a byte, so the length is fuel enough. *)
Definition json_string (s : string) : string :=
  of_chars (dquote :: json_runes (length (chars s)) (chars s) ++ [dquote])%list.

Definition json_bool (b : bool) : string := if b then "true" else "false".
Definition json_array (l : list string) : string := "[" ++ Join l "," ++ "]".
Definition json_object (l : list (string * string)) : string :=
  "{" ++ Join (map (fun kv => json_string (fst kv) ++ ":" ++ snd kv) l) "," ++ "}".

(** A map: the keys in byte order. *)
Definition json_of_map {V} (text : V -> string) (m : gmap string V) : string :=
  json_object (map (fun kv => (fst kv, text (snd kv)))
                   (merge_sort (fun a b : string * V => str_le (fst a) (fst b)) (map_to_list m))).

(** A pointer: [null] or what it points to. *)
Definition json_option {A} (text : A -> string) (o : option A) : string :=
  match o with None => "null" | Some a => text a end.

(** A field tagged [omitempty]. *)
Definition field_if (present : bool) (key text : string) : list (string * string) :=
  if present then [(key, text)] else [].

Example json_string_ex :
  json_string ("a<b" ++ of_chars [backslash; chr 34; chr 10; chr 1]) =
  of_chars (dquote :: chars "a" ++ [backslash] ++ chars "u003cb" ++ [backslash; backslash; backslash; chr 34]
            ++ [backslash] ++ chars "n" ++ [backslash] ++ chars "u0001" ++ [dquote])%list.
Proof. reflexivity. Qed.

(** * Reading written JSON back

    What [JsonText] writes can be taken apart again: a scanner that only counts
    brackets and follows strings finds the end of every value, so equal texts
    have equal parts, and a plain string is the only one with its text. *)

From Stdlib Require Import ZArith Lia Ascii String.
From stdpp Require Import base gmap list strings sorting.
From S2P Require Import Prelude GoStr GoFmt.

Local Open Scope string_scope.
Local Open Scope Z_scope.

(** ** A scanner *)

Definition opens (c : ascii) : bool := (byte_of c =? 91) || (byte_of c =? 123).
Definition closes_ (c : ascii) : bool := (byte_of c =? 93) || (byte_of c =? 125).

(** What follows the value at the head of the text: [d] brackets are open, [q]
    says whether the scanner is inside a string and [e] whether the next byte is
    escaped. *)
Fixpoint skip (d : nat) (q e : bool) (l : list ascii) : list ascii :=
  match l with
  | [] => []
  | c :: l' =>
      if q then
        if e then skip d true false l'
        else if byte_of c =? 92 then skip d true true l'
        else if byte_of c =? 34 then match d with O => l' | S _ => skip d false false l' end
        else skip d true false l'
      else if byte_of c =? 34 then skip d true false l'
      else if opens c then skip (S d) false false l'
      else if closes_ c then match d with O | 1%nat => l' | S d' => skip d' false false l' end
      else skip d false false l'
  end.

(** Text inside a string, text inside brackets, and whole values. *)
Definition inside (p : list ascii) : Prop := forall d x, skip d true false (p ++ x) = skip d true false x.
Definition frag (p : list ascii) : Prop := forall d x, skip (S d) false false (p ++ x) = skip (S d) false false x.
Definition value (p : list ascii) : Prop := forall x, skip 0 false false (p ++ x) = x.

Lemma inside_app p q : inside p -> inside q -> inside (p ++ q).
Proof. intros Hp Hq d x. rewrite <- app_assoc. by rewrite Hp, Hq. Qed.
Lemma frag_app p q : frag p -> frag q -> frag (p ++ q).
Proof. intros Hp Hq d x. rewrite <- app_assoc. by rewrite Hp, Hq. Qed.

(** A byte that neither ends a string nor starts an escape. *)
Definition quiet (c : ascii) : bool := negb (byte_of c =? 34) && negb (byte_of c =? 92).

Lemma inside_quiet l : forallb quiet l = true -> inside l.
Proof.
  intros H d x. induction l as [|c l IH]; [done|]. cbn [forallb] in H. apply andb_true_iff in H as [Hc Hl].
  unfold quiet in Hc. bool_prop. cbn [app skip].
  rewrite (proj2 (Z.eqb_neq _ 92)), (proj2 (Z.eqb_neq _ 34)) by done. by apply IH.
Qed.

Lemma inside_escape c l : forallb quiet l = true -> inside (backslash :: c :: l).
Proof. intros Hl d x. cbn [app skip]. change (byte_of backslash) with 92. simpl. by apply inside_quiet. Qed.

(** ** Strings *)

Lemma hex_quiet n z : forallb quiet (hex_digits n z) = true.
Proof.
  revert z. induction n as [|n IH]; intros z; cbn [hex_digits]; [done|]. rewrite forallb_app, IH. cbn [forallb].
  rewrite andb_true_r, andb_true_l. pose proof (Z.mod_pos_bound z 16 ltac:(lia)).
  assert (Hz : z mod 16 ∈ seqZ 0 16) by (apply elem_of_seqZ; lia). revert Hz. generalize (z mod 16). intros m Hm.
  repeat (apply elem_of_cons in Hm as [->|Hm]; [reflexivity|]). by apply elem_of_nil in Hm.
Qed.

Lemma inside_ascii c : inside (json_ascii c).
Proof.
  unfold json_ascii. destruct ((byte_of c =? 34) || _) eqn:E1; [by apply inside_escape|].
  do 5 (case_match; [by apply inside_escape|]). case_match.
  { change (inside (backslash :: "u"%char :: "0"%char :: "0"%char :: hex_digits 2 (byte_of c))).
    apply inside_escape. cbn [forallb]. by rewrite hex_quiet. }
  apply inside_quiet. cbn [forallb]. unfold quiet. bool_prop.
  by rewrite (proj2 (Z.eqb_neq _ 92)), (proj2 (Z.eqb_neq _ 34)) by done.
Qed.

(** The bytes of a multi-byte rune are above ASCII. *)
Lemma rune_above l c : (1 < rune_size l)%nat -> 128 <= byte_of (default zero (l !! 0%nat)) ->
  c ∈ take (rune_size l) l -> 128 <= byte_of c.
Proof.
  intros Hr H0 Hc. apply list_elem_of_lookup in Hc as [i Hi]. apply lookup_take_Some in Hi as [Hi Hlt].
  destruct i as [|i]; [by rewrite Hi in H0|].
  destruct (rune_shape l Hr) as (_ & _ & Hcont). pose proof (Hcont (S i) c ltac:(lia) Hi) as Hk.
  unfold is_cont, in_range in Hk. bool_prop. lia.
Qed.

Lemma inside_rune l : inside (json_rune (rune_size l) l).
Proof.
  unfold json_rune. destruct l as [|c l0] eqn:El; [by apply inside_quiet|]. rewrite <- El.
  destruct (byte_of c <? 128) eqn:Ec; [apply inside_ascii|]. bool_prop.
  destruct (Nat.eqb _ 1) eqn:E1; [by apply inside_escape|]. repeat (case_match; [by apply inside_escape|]).
  apply Nat.eqb_neq in E1. pose proof (rune_size_bounds l). apply inside_quiet, forallb_true_iff.
  intros b Hb. assert (128 <= byte_of b) by (apply (rune_above l); [lia|by subst l|done]).
  unfold quiet. rewrite (proj2 (Z.eqb_neq _ 92)), (proj2 (Z.eqb_neq _ 34)) by lia. done.
Qed.

Lemma inside_runes f l : inside (json_runes f l).
Proof.
  revert l. induction f as [|f IH]; intros l; [destruct l; by apply inside_quiet|].
  destruct l as [|c l]; [by apply inside_quiet|]. cbn [json_runes]. apply inside_app; [apply inside_rune|apply IH].
Qed.

Lemma json_string_chars s : chars (json_string s) =
  (dquote :: json_runes (length (chars s)) (chars s) ++ [dquote])%list.
Proof. unfold json_string. by rewrite chars_of_chars. Qed.

Lemma value_string s : value (chars (json_string s)).
Proof.
  intros x. rewrite json_string_chars. cbn [app skip]. change (byte_of dquote) with 34. simpl.
  rewrite <- app_assoc. by rewrite inside_runes.
Qed.
Lemma frag_string s : frag (chars (json_string s)).
Proof.
  intros d x. rewrite json_string_chars. cbn [app skip]. change (byte_of dquote) with 34. simpl.
  rewrite <- app_assoc. by rewrite inside_runes.
Qed.

(** ** Numbers, booleans, arrays and objects *)

Definition dull (c : ascii) : bool := negb (byte_of c =? 34) && negb (opens c) && negb (closes_ c).

Lemma frag_dull l : forallb dull l = true -> frag l.
Proof.
  intros H d x. induction l as [|c l IH]; [done|]. cbn [forallb] in H. apply andb_true_iff in H as [Hc Hl].
  unfold dull in Hc. bool_prop. cbn [app skip].
  rewrite (proj2 (Z.eqb_neq _ 34)) by done. match goal with H : opens c = _ |- _ => rewrite H end.
  match goal with H : closes_ c = _ |- _ => rewrite H end. by apply IH.
Qed.

Lemma frag_int z : frag (chars (Itoa z)).
Proof.
  apply frag_dull, forallb_true_iff. intros c Hc. destruct (dull c) eqn:E; [done|]. exfalso.
  revert Hc. apply not_in_Itoa.
  - destruct (is_digit c) eqn:Ed; [|done]. unfold is_digit in Ed. bool_prop. unfold dull, opens, closes_ in E.
    bool_prop. destruct E as [E|E]; bool_prop; [destruct E as [E|E]; bool_prop|];
      repeat match goal with H : _ \/ _ |- _ => destruct H | H : (_ =? _) = true |- _ => apply Z.eqb_eq in H end; lia.
  - intros ->. done.
Qed.
Lemma frag_bool b : frag (chars (json_bool b)).
Proof. by apply frag_dull; destruct b. Qed.

Lemma frag_join l : Forall (fun t => frag (chars t)) l -> frag (chars (Join l ",")).
Proof.
  intros H. induction H as [|t l Ht Hl IH]; [by apply frag_dull|]. destruct l as [|t' l]; [done|].
  change (Join (t :: t' :: l) ",") with (t ++ "," ++ Join (t' :: l) ",").
  rewrite !chars_app. apply frag_app; [done|]. apply frag_app; [by apply frag_dull|done].
Qed.

(** Bracketed text is a value and a fragment. *)
Lemma bracketed o p c : opens o = true -> closes_ c = true -> frag p ->
  value (o :: p ++ [c]) /\ frag (o :: p ++ [c]).
Proof.
  intros Ho Hc Hp.
  assert (Hq : forall b, opens b = true \/ closes_ b = true -> (byte_of b =? 34) = false).
  { intros b Hb. apply Z.eqb_neq. unfold opens, closes_ in Hb. intros E. rewrite E in Hb. by destruct Hb. }
  assert (Hoc : opens c = false).
  { unfold opens, closes_ in *. bool_prop. apply orb_false_iff. rewrite !Z.eqb_neq.
    destruct Hc as [E|E]; bool_prop; lia. }
  split; [intros x|intros d x]; cbn [app skip]; rewrite Hq, Ho by auto;
    rewrite <- app_assoc, Hp; cbn [app skip]; rewrite Hq, Hoc, Hc by auto; done.
Qed.

Lemma array_text l : chars (json_array l) = ("["%char :: chars (Join l ",") ++ ["]"%char])%list.
Proof. unfold json_array. by rewrite !chars_app. Qed.
Lemma value_array l : Forall (fun t => frag (chars t)) l -> value (chars (json_array l)) /\ frag (chars (json_array l)).
Proof. intros H. rewrite array_text. by apply bracketed; [..|apply frag_join]. Qed.

Lemma frag_object l : Forall (fun kv : string * string => frag (chars (snd kv))) l -> frag (chars (json_object l)).
Proof.
  intros H. unfold json_object. rewrite !chars_app. apply (bracketed "{"%char _ "}"%char); [done..|].
  apply frag_join, Forall_fmap. eapply Forall_impl; [exact H|]. intros [k t] Ht. cbn [compose fst snd] in *.
  rewrite !chars_app. apply frag_app; [apply frag_string|]. apply frag_app; [by apply frag_dull|done].
Qed.

Lemma frag_map {V} (text : V -> string) (m : gmap string V) : (forall v, frag (chars (text v))) ->
  frag (chars (json_of_map text m)).
Proof. intros H. apply frag_object, Forall_fmap, Forall_forall. intros [k v] _. apply H. Qed.

(** ** Taking texts apart *)

Lemma value_inj p q x y : value p -> value q -> (p ++ x)%list = (q ++ y)%list -> p = q /\ x = y.
Proof.
  intros Hp Hq H. assert (x = y) as -> by (rewrite <- (Hp x), <- (Hq y); by rewrite H).
  split; [|done]. by apply app_inv_tail in H.
Qed.

(** A nonempty list of strings: the first and what follows it. *)
Definition after (l : list string) (z : list ascii) : list ascii :=
  match l with
  | [] => z
  | _ :: _ => ("," :: chars (Join (map json_string l) ",") ++ z)%list%char
  end.

Lemma join_head s l z : (chars (Join (map json_string (s :: l)) ",") ++ z)%list =
  (chars (json_string s) ++ after l z)%list.
Proof.
  destruct l as [|t l]; [done|].
  change (Join (map json_string (s :: t :: l)) ",") with (json_string s ++ "," ++ Join (map json_string (t :: l)) ",").
  by rewrite !chars_app, <- !app_assoc.
Qed.

Lemma join_inj (l l' : list string) x y :
  (chars (Join (map json_string l) ",") ++ "]"%char :: x)%list =
  (chars (Join (map json_string l') ",") ++ "]"%char :: y)%list ->
  map json_string l = map json_string l'.
Proof.
  revert l'. induction l as [|s l IH]; intros l' H.
  - destruct l' as [|s' l']; [done|]. rewrite join_head, json_string_chars in H. discriminate.
  - rewrite join_head in H. destruct l' as [|s' l']; [rewrite json_string_chars in H; discriminate|].
    rewrite join_head in H. apply value_inj in H as [Hs Hr]; [|apply value_string..].
    apply (f_equal of_chars) in Hs. rewrite !of_chars_chars in Hs. cbn [map]. rewrite Hs. f_equal.
    destruct l as [|t l], l' as [|t' l']; [done|discriminate..|]. cbn [after] in Hr. injection Hr as Hr.
    by apply IH.
Qed.

Lemma array_inj l l' x y : (chars (json_array (map json_string l)) ++ x)%list =
  (chars (json_array (map json_string l')) ++ y)%list -> map json_string l = map json_string l'.
Proof.
  rewrite !array_text. cbn [app]. intros [= H]. rewrite <- !app_assoc in H. by apply join_inj in H.
Qed.

(** ** Plain strings *)

(** A byte that is written as itself. *)
Definition plain_byte (c : ascii) : bool :=
  (32 <=? byte_of c) && (byte_of c <? 128) && negb (byte_of c =? 34) && negb (byte_of c =? 92) &&
  negb (byte_of c =? 60) && negb (byte_of c =? 62) && negb (byte_of c =? 38).

Lemma plain_ascii c : plain_byte c = true -> json_ascii c = [c].
Proof.
  unfold plain_byte, json_ascii. intros H. bool_prop.
  repeat match goal with |- context [byte_of c =? ?n] => rewrite (proj2 (Z.eqb_neq (byte_of c) n)) by lia end.
  by rewrite (proj2 (Z.ltb_ge (byte_of c) 32)) by lia.
Qed.

Lemma plain_size c l : byte_of c < 128 -> rune_size (c :: l) = 1%nat.
Proof.
  intros Hc. unfold rune_size. assert (Hn : forall lo hi, 128 <= lo -> in_range lo hi c = false).
  { intros lo hi Hlo. unfold in_range. apply andb_false_iff. left. apply Z.leb_gt. lia. }
  rewrite !Hn by lia. simpl. by repeat case_match.
Qed.

Lemma plain_runes f l : forallb plain_byte l = true -> (length l <= f)%nat -> json_runes f l = l.
Proof.
  revert l. induction f as [|f IH]; intros [|c l] Hl Hf; try first [done | simpl in *; lia]. cbn [forallb] in Hl.
  apply andb_true_iff in Hl as [Hc Hl]. assert (byte_of c < 128) as Hb by (unfold plain_byte in Hc; bool_prop; lia).
  cbn [json_runes]. rewrite plain_size by done. cbn [json_rune drop]. rewrite drop_0.
  rewrite (proj2 (Z.ltb_lt (byte_of c) 128)) by done. rewrite plain_ascii by done.
  rewrite IH; [done..|]. simpl in Hf. lia.
Qed.

Lemma json_rune_verbatim n l : l <> [] -> (rune_size l = n) -> backslash ∉ json_rune n l -> json_rune n l = take n l.
Proof.
  intros Hl Hn Hb. destruct l as [|c l]; [done|]. unfold json_rune in *. destruct (byte_of c <? 128) eqn:Ec.
  - bool_prop. rewrite plain_size in Hn by done. subst n. unfold json_ascii, escape_unicode in *. cbn [take].
    repeat (case_match; [by destruct Hb; left|]). by rewrite firstn_O.
  - repeat (case_match; [by destruct Hb; left|]). done.
Qed.

(** What is written without a backslash is written as it is. *)
Lemma runes_verbatim f l : (length l <= f)%nat -> backslash ∉ json_runes f l -> json_runes f l = l.
Proof.
  revert l. induction f as [|f IH]; intros l Hf Hb; [destruct l; [done|simpl in Hf; lia]|].
  destruct (decide (l = [])) as [->|Hne]; [done|].
  assert (E : json_runes (S f) l = (json_rune (rune_size l) l ++ json_runes f (drop (rune_size l) l))%list)
    by (by destruct l).
  rewrite E in *. rewrite not_elem_of_app in Hb. destruct Hb as [H1 H2].
  rewrite json_rune_verbatim by done. rewrite IH; [by rewrite take_drop| |done].
  pose proof (rune_size_bounds l). rewrite length_drop. destruct l; [done|]. simpl in *. lia.
Qed.

Definition plain (s : string) : bool := forallb plain_byte (chars s).

Lemma plain_inj s p : plain p = true -> json_string s = json_string p -> s = p.
Proof.
  intros Hp H. apply (f_equal chars) in H. rewrite !json_string_chars in H. injection H as H.
  apply app_inv_tail in H. rewrite (plain_runes _ (chars p)) in H by done.
  rewrite runes_verbatim in H; [|done|].
  - apply (f_equal of_chars) in H. by rewrite !of_chars_chars in H.
  - rewrite H. intros Hin. unfold plain in Hp. rewrite forallb_true_iff in Hp. by specialize (Hp _ Hin).
Qed.

Lemma plain_in l p : plain p = true -> json_string p ∈ map json_string l <-> p ∈ l.
Proof.
  intros Hp. split.
  - intros (s & E & Hs)%list_elem_of_fmap. symmetry in E. by rewrite <- (plain_inj s p).
  - intros H. apply list_elem_of_fmap. eauto.
Qed.
