(* ===== verification/Topology.v ===== *)
(** * Topology inference

    internal/topology/infer.go, [Infer]: one poll's observations (bridge tables,
    neighbour tables, wireless associations, LLDP, default routes) become the
    edges of a parent-child graph. Observations of the same child, parent, port
    and medium are merged into a candidate with all their evidence; candidates
    that a stronger observation contradicts are dropped; several placements of
    one child stay, marked as ambiguous.

    The maps of an input that Go iterates to find an invalid entry ([Neighbors],
    [PortMedia], [PortAttachment]) are visited in a fixed order: which of
    several invalid entries the error names is not fixed by the code. *)

From Stdlib Require Import ZArith Lia Ascii String.
From stdpp Require Import base gmap list strings sorting countable.
From S2P Require Import Prelude GoStr GoFmt NetIP F64 JsonText.

Local Open Scope string_scope.
Local Open Scope Z_scope.

Definition InternetNode : string := "synthetic:internet".
Definition competingParentsAmbiguity : string := "concurrent evidence yields multiple candidate parents or ports".
Definition managedLinkTransitAmbiguity : string :=
  "bridge FDB may be transit evidence through a managed-device link".
Definition managedLinkTransitDetail : string := "managed_link_transit_possible".
Definition managedLinkPeerDetail : string := "managed_link_peer".
Definition stpStateDetail : string := "stp_state".

Definition PortAttachmentPhysical : string := "physical".
Definition PortAttachmentAggregate : string := "aggregate".

Definition SourceBridgeFDB : string := "brctl.showmacs".
Definition SourceBridgeSTP : string := "brctl.showstp".
Definition SourceAssociations : string := "hostapd.get_clients".
Definition SourceLLDP : string := "lldp".
Definition SourceDefaultRoute : string := "network.interface.dump".
Definition SourceNeighbors (family : Z) : string := "ip-" ++ Itoa family ++ "-neigh".

(** ** Observations *)

Record InventoryDevice := MkInventoryDevice {
  iv_ID : Z;
  iv_Name : string;
  iv_PrimaryMAC : string;
  iv_Aliases : list string
}.

Record InventoryClient := MkInventoryClient { ic_MAC : string; ic_Name : string }.

Record Neighbor := MkNeighbor {
  nb_Family : Z;
  nb_Address : string;
  nb_Interface : string;
  nb_MAC : string;
  nb_State : string;
  nb_Flags : list string;
  nb_UsedSeconds : option Z;
  nb_ConfirmedSeconds : option Z;
  nb_UpdatedSeconds : option Z
}.

Record FDBEntry := MkFDBEntry { fe_Port : Z; fe_MAC : string; fe_Local : bool; fe_AgeSeconds : f64 }.

Record STPPort := MkSTPPort { sp_Name : string; sp_Port : Z; sp_State : string }.
Record STPState := MkSTPState { st_Bridge : string; st_Ports : list STPPort }.

Record BridgeObservation := MkBridge {
  br_DeviceID : Z;
  br_Bridge : string;
  br_Entries : list FDBEntry;
  br_STP : option STPState;
  br_PortMedia : gmap Z string;
  br_PortAttachment : gmap Z string
}.

Record Association := MkAssociation { as_DeviceID : Z; as_Interface : string; as_MAC : string }.
Record LLDPLink := MkLLDPLink { ll_DeviceID : Z; ll_Port : string; ll_RemoteMAC : string }.
Record Uplink := MkUplink {
  up_DeviceID : Z;
  up_Interface : string;
  up_LogicalInterface : string;
  up_Active : bool
}.

(** model/observability.go; the four states are its constants. *)
Definition TopologySourceUnknown : string := "unknown".
Definition TopologySourceEmpty : string := "empty".
Definition TopologySourceObserved : string := "observed".
Definition TopologySourceError : string := "error".

Record TopologySourceObservation := MkSource {
  so_DeviceID : Z;
  so_Source : string;
  so_State : string;
  so_Reason : string;
  so_ObservedAt : Z
}.

Record InferenceInput := MkInput {
  in_At : Z;
  in_Devices : list InventoryDevice;
  in_Clients : list InventoryClient;
  in_Bridges : list BridgeObservation;
  in_Neighbors : gmap Z (list Neighbor);
  in_Associations : list Association;
  in_LLDP : list LLDPLink;
  in_Uplinks : list Uplink;
  in_Sources : list TopologySourceObservation
}.

(** ** Edges *)

(** The values the code puts into the detail object of an evidence. *)
Inductive dval :=
| DStr (s : string)
| DInt (z : Z)
| DBool (b : bool).

Notation detail := (gmap string dval) (only parsing).

#[export] Instance dval_eq_dec : EqDecision dval.
Proof. solve_decision. Defined.

Definition detail_str (d : detail) (k : string) : string :=
  match d !! k with Some (DStr s) => s | _ => "" end.
Definition detail_bool (d : detail) (k : string) : bool :=
  match d !! k with Some (DBool b) => b | _ => false end.

Record EdgeEvidence := MkEvidence {
  ee_Kind : string;
  ee_Source : string;
  ee_DeviceID : Z;
  ee_Detail : detail
}.

Record TopologyEvidence := MkTopologyEvidence {
  ev_Kind : string;
  ev_Source : string;
  ev_DeviceID : option Z;
  ev_Detail : detail
}.

Record TopologyEdge := MkEdge {
  te_ID : Z;
  te_ChildNode : string;
  te_ChildMAC : string;
  te_ParentNode : string;
  te_ParentDeviceID : option Z;
  te_ParentPort : string;
  te_Medium : string;
  te_Confidence : string;
  te_ValidFrom : Z;
  te_ValidTo : option Z;
  te_LastSeen : Z;
  te_Evidence : list TopologyEvidence;
  te_Ambiguities : list string
}.

#[export] Instance TopologyEvidence_eq_dec : EqDecision TopologyEvidence.
Proof. solve_decision. Defined.
#[export] Instance TopologyEdge_eq_dec : EqDecision TopologyEdge.
Proof. solve_decision. Defined.

(** Updates of one part of an edge: what an observation says about it, and its
    interval. *)
Definition with_semantics (e : TopologyEdge) (mac : string) (device : option Z) (confidence : string)
    (evidence : list TopologyEvidence) (ambiguities : list string) : TopologyEdge :=
  MkEdge (te_ID e) (te_ChildNode e) mac (te_ParentNode e) device (te_ParentPort e) (te_Medium e)
    confidence (te_ValidFrom e) (te_ValidTo e) (te_LastSeen e) evidence ambiguities.
Definition with_interval (e : TopologyEdge) (id from : Z) (to : option Z) (seen : Z) : TopologyEdge :=
  MkEdge id (te_ChildNode e) (te_ChildMAC e) (te_ParentNode e) (te_ParentDeviceID e) (te_ParentPort e)
    (te_Medium e) (te_Confidence e) from to seen (te_Evidence e) (te_Ambiguities e).
Definition with_ChildMAC (e : TopologyEdge) (mac : string) : TopologyEdge :=
  with_semantics e mac (te_ParentDeviceID e) (te_Confidence e) (te_Evidence e) (te_Ambiguities e).
Definition with_Confidence (e : TopologyEdge) (c : string) : TopologyEdge :=
  with_semantics e (te_ChildMAC e) (te_ParentDeviceID e) c (te_Evidence e) (te_Ambiguities e).
Definition with_Evidence (e : TopologyEdge) (l : list TopologyEvidence) : TopologyEdge :=
  with_semantics e (te_ChildMAC e) (te_ParentDeviceID e) (te_Confidence e) l (te_Ambiguities e).
Definition with_Ambiguities (e : TopologyEdge) (l : list string) : TopologyEdge :=
  with_semantics e (te_ChildMAC e) (te_ParentDeviceID e) (te_Confidence e) (te_Evidence e) l.

Definition nul : string := String (chr 0) "".

Definition edgeSortKey (e : TopologyEdge) : string :=
  te_ChildNode e ++ nul ++ te_ParentNode e ++ nul ++ te_ParentPort e ++ nul ++ te_Medium e.

Definition edge_le (a b : TopologyEdge) : Prop := str_le (edgeSortKey a) (edgeSortKey b).
#[export] Instance edge_le_dec a b : Decision (edge_le a b).
Proof. unfold edge_le. apply _. Defined.

(** [sort.Slice] by key; where it is called the keys are distinct. *)
Definition sort_edges (l : list TopologyEdge) : list TopologyEdge := merge_sort edge_le l.

(** ** Addresses and names *)

(** [canonicalMAC] of parse.go. *)
Definition canonicalMAC (raw : string) : res error string :=
  match ParseMAC6 raw with
  | Some bs => Ok (ToLower (mac_String bs))
  | None => Err (errf "invalid MAC address %q" [VS raw])
  end.

(** [validIdentifier] compares runes; a byte below 128 is a rune by itself and
    no other rune is refused, so it may as well compare bytes. *)
Definition identifier_byte (c : ascii) : bool :=
  let b := byte_of c in
  negb ((b <? 33) || (b =? 127) || (b =? 47) || (b =? 92)).
Definition validIdentifier (value : string) : bool :=
  String.eqb (TrimSpace value) value && negb (String.eqb value "") && forallb identifier_byte (chars value).
Definition validInterfaceName (name : string) : bool :=
  (0 <? len name) && (len name <=? 15) && validIdentifier name.

Definition deviceNode (mac : string) : string := "device:" ++ mac.

(** ** Folds that may fail *)

Fixpoint try_fold {E S A} (f : S -> A -> res E S) (l : list A) (s : S) : res E S :=
  match l with
  | [] => Ok s
  | a :: l' => let? s' := f s a in try_fold f l' s'
  end.

(** ** Identities *)

Record identityResolver := MkResolver {
  rs_devices : gmap string (gset string);
  rs_clients : gset string
}.

Definition add_alias (node : string) (r : gmap string (gset string)) (raw : string)
    : res error (gmap string (gset string)) :=
  if String.eqb raw "" then Ok r
  else
    let? mac := canonicalMAC raw in
    Ok (<[mac := {[node]} ∪ default ∅ (r !! mac)]> r).

(** One device: the addresses seen so far, the nodes and the owners of primary
    addresses. *)
Definition add_device (s : gmap string (gset string) * gmap Z string * gmap string Z) (d : InventoryDevice)
    : res error (gmap string (gset string) * gmap Z string * gmap string Z) :=
  let '(r, nodes, owners) := s in
  if (iv_ID d <=? 0) || negb (String.eqb (default "" (nodes !! iv_ID d)) "") then
    Err (errf "topology: invalid or duplicate device id %d" [VD (iv_ID d)])
  else
    match canonicalMAC (iv_PrimaryMAC d) with
    | Err e => Err (errf "topology: device %d inventory MAC: %w" [VD (iv_ID d); VS e])
    | Ok primary =>
        let prior := default 0 (owners !! primary) in
        if negb (prior =? 0) then
          Err (errf "topology: devices %d and %d share inventory MAC %s" [VD prior; VD (iv_ID d); VS primary])
        else
          let node := deviceNode primary in
          let? r := try_fold (add_alias node) (primary :: iv_Aliases d) r in
          Ok (r, <[iv_ID d := node]> nodes, <[primary := iv_ID d]> owners)
    end.

Definition add_client (s : gset string) (c : InventoryClient) : res error (gset string) :=
  let? mac := canonicalMAC (ic_MAC c) in Ok ({[mac]} ∪ s).

Definition newIdentityResolver (devices : list InventoryDevice) (clients : list InventoryClient)
    : res error (identityResolver * gmap Z string) :=
  let? (r, nodes, _) := try_fold add_device devices (∅, ∅, ∅) in
  let? known := try_fold add_client clients ∅ in
  Ok (MkResolver r known, nodes).

(** The node of an address, and why it is ambiguous. *)
Definition resolve (r : identityResolver) (mac : string) : string * string :=
  match elements (default ∅ (rs_devices r !! mac)) with
  | [node] => (node, "")
  | [] => if bool_decide (mac ∈ rs_clients r) then ("client:" ++ mac, "") else ("mac:" ++ mac, "")
  | refs => ("mac:" ++ mac,
             "MAC alias belongs to multiple managed devices: " ++ Join (sort_strings refs) ", ")
  end.

(** ** Source states *)

Definition sourceStateKey (deviceID : Z) (source : string) : string := Itoa deviceID ++ nul ++ source.

Definition known_state (s : string) : bool :=
  String.eqb s TopologySourceUnknown || String.eqb s TopologySourceEmpty ||
  String.eqb s TopologySourceObserved || String.eqb s TopologySourceError.

Definition answered_state (s : string) : bool :=
  String.eqb s TopologySourceObserved || String.eqb s TopologySourceEmpty.

Definition validate_state (nodes : gmap Z string) (seen : gset string) (s : TopologySourceObservation)
    : res error (gset string) :=
  if String.eqb (default "" (nodes !! so_DeviceID s)) "" then
    Err (errf "topology: source %q references unknown device %d" [VS (so_Source s); VD (so_DeviceID s)])
  else if negb (String.eqb (TrimSpace (so_Source s)) (so_Source s)) || String.eqb (so_Source s) "" ||
          (so_ObservedAt s <=? 0) then
    Err "topology: source requires a name and observation time"
  else if negb (known_state (so_State s)) then
    Err (errf "topology: source %q has invalid state %q" [VS (so_Source s); VS (so_State s)])
  else
    let key := sourceStateKey (so_DeviceID s) (so_Source s) in
    if bool_decide (key ∈ seen) then
      Err (errf "topology: duplicate source state for device %d/%s" [VD (so_DeviceID s); VS (so_Source s)])
    else Ok ({[key]} ∪ seen).

Definition validateSourceStates (states : list TopologySourceObservation) (nodes : gmap Z string)
    : res error (gset string) := try_fold (validate_state nodes) states ∅.

(** The first [n] runes, as [string([]rune(s)[:n])] writes them: an ill-formed
    byte becomes the replacement rune. *)
Fixpoint take_runes (n : nat) (l : list ascii) : list ascii :=
  match n, l with
  | O, _ | _, [] => []
  | S n', c :: _ =>
      ((if Nat.eqb (rune_size l) 1 && negb (byte_of c <? 128) then bytes [239; 191; 189]
        else take (rune_size l) l) ++ take_runes n' (drop (rune_size l) l))%list
  end.

Definition safeReason (reason : string) : string :=
  let reason := Join (Fields reason) " " in
  if 240 <? RuneCountInString reason then of_chars (take_runes 240 (chars reason)) else reason.

(** The (device, source) pairs are distinct where this is called. *)
Definition source_le (a b : TopologySourceObservation) : Prop :=
  if so_DeviceID a =? so_DeviceID b then str_le (so_Source a) (so_Source b) else so_DeviceID a < so_DeviceID b.
#[export] Instance source_le_dec a b : Decision (source_le a b).
Proof. unfold source_le. destruct (_ =? _); apply _. Defined.

Definition normalizedSourceStates (states : list TopologySourceObservation) : list TopologySourceObservation :=
  merge_sort source_le
    (map (fun s => MkSource (so_DeviceID s) (so_Source s) (so_State s) (safeReason (so_Reason s)) (so_ObservedAt s))
         states).

Definition sourceGaps (states : list TopologySourceObservation) : list string :=
  flat_map (fun s =>
    if answered_state (so_State s) then []
    else [msg "device:%d/%s: %s" [VD (so_DeviceID s); VS (so_Source s);
                                  VS (if String.eqb (so_Reason s) "" then so_State s else so_Reason s)]])
    states.

Definition sourceFreshlyObserved (states : list TopologySourceObservation) (deviceID : Z) (source : string)
    (at_ : Z) : bool :=
  match List.find (fun s => (so_DeviceID s =? deviceID) && String.eqb (so_Source s) source) states with
  | Some s => String.eqb (so_State s) TopologySourceObserved && (so_ObservedAt s =? at_)
  | None => false
  end.

(** ** Evidence *)

Definition dval_text (v : dval) : string :=
  match v with DStr s => json_string s | DInt z => Itoa z | DBool b => json_bool b end.
Definition detail_text (d : detail) : string := json_of_map dval_text d.

Definition evidence_key (e : EdgeEvidence) : string :=
  ee_Source e ++ nul ++ ee_Kind e ++ nul ++ Itoa (ee_DeviceID e) ++ nul ++ detail_text (ee_Detail e).

Definition evidence_le (a b : EdgeEvidence) : Prop := str_le (evidence_key a) (evidence_key b).
#[export] Instance evidence_le_dec a b : Decision (evidence_le a b).
Proof. unfold evidence_le. apply _. Defined.

(** Evidences with equal keys say the same. *)
Definition sortEvidence (l : list EdgeEvidence) : list EdgeEvidence := merge_sort evidence_le l.

Definition durable_evidence (e : EdgeEvidence) : TopologyEvidence :=
  MkTopologyEvidence (ee_Kind e) (ee_Source e)
    (if 0 <? ee_DeviceID e then Some (ee_DeviceID e) else None) (ee_Detail e).

(** ** Candidates *)

Record edgeKey := MkEdgeKey { ek_child : string; ek_parent : string; ek_port : string; ek_medium : string }.

#[export] Instance edgeKey_eq_dec : EqDecision edgeKey.
Proof. solve_decision. Defined.
#[export] Instance edgeKey_countable : Countable edgeKey.
Proof.
  refine (inj_countable' (fun k => (ek_child k, ek_parent k, ek_port k, ek_medium k))
                         (fun x => MkEdgeKey x.1.1.1 x.1.1.2 x.1.2 x.2) _).
  by intros [].
Defined.

Definition key_of (e : TopologyEdge) : edgeKey :=
  MkEdgeKey (te_ChildNode e) (te_ParentNode e) (te_ParentPort e) (te_Medium e).

Record edgeCandidate := MkCandidate {
  ca_edge : TopologyEdge;
  ca_evidence : list EdgeEvidence;
  ca_ambiguities : gset string
}.

(** What [Infer] accumulates. *)
Record inference := MkInference { if_candidates : gmap edgeKey edgeCandidate; if_gaps : list string }.

Definition nonblank (s : string) : bool := negb (String.eqb s "").

(** The closure [add] of [Infer]. *)
Definition merge_candidate (old : option edgeCandidate) (edge : TopologyEdge) (evidence : EdgeEvidence)
    (ambiguities : list string) : edgeCandidate :=
  let '(base, evs, ambs) :=
    match old with
    | None => (edge, [], ∅)
    | Some c =>
        let e := ca_edge c in
        (if nonblank (te_ChildMAC edge) &&
            (String.eqb (te_ChildMAC e) "" || String.ltb (te_ChildMAC edge) (te_ChildMAC e))
         then with_ChildMAC e (te_ChildMAC edge) else e, ca_evidence c, ca_ambiguities c)
    end in
  MkCandidate
    (if String.eqb (te_Confidence edge) "measured" then with_Confidence base "measured" else base)
    (evs ++ [evidence]) (list_to_set (List.filter nonblank ambiguities) ∪ ambs).

Definition add (edge : TopologyEdge) (evidence : EdgeEvidence) (ambiguities : list string) (s : inference)
    : inference :=
  let k := key_of edge in
  MkInference (<[k := merge_candidate (if_candidates s !! k) edge evidence ambiguities]> (if_candidates s))
              (if_gaps s).

Definition add_gaps (l : list string) (s : inference) : inference :=
  MkInference (if_candidates s) (if_gaps s ++ l).

Definition placed (child mac parent : string) (device : option Z) (port medium confidence : string) (at_ : Z)
    : TopologyEdge :=
  MkEdge 0 child mac parent device port medium confidence at_ None at_ [] [].

(** ** Neighbours *)

Notation neighbor_table := (gmap Z (gmap string (list Neighbor))) (only parsing).

Definition add_neighbor (rows : gmap string (list Neighbor)) (n : Neighbor)
    : res error (gmap string (list Neighbor)) :=
  if String.eqb (nb_MAC n) "" then Ok rows
  else
    let? mac := canonicalMAC (nb_MAC n) in
    Ok (<[mac := (default [] (rows !! mac) ++ [n])%list]> rows).

Definition neighbors_of_device (nodes : gmap Z string) (t : neighbor_table) (kv : Z * list Neighbor)
    : res error neighbor_table :=
  let '(deviceID, rows) := kv in
  match nodes !! deviceID with
  | None => Err (errf "topology: neighbors reference unknown device %d" [VD deviceID])
  | Some _ =>
      let? m := try_fold add_neighbor rows ∅ in
      Ok (<[deviceID := m]> t)
  end.

Definition neighbor_index (nodes : gmap Z string) (ns : gmap Z (list Neighbor)) : res error neighbor_table :=
  try_fold (neighbors_of_device nodes) (map_to_list ns) ∅.

(** ** LLDP *)

Record observedLLDP := MkObservedLLDP {
  ol_link : LLDPLink;
  ol_parent : string;
  ol_child : string;
  ol_mac : string;
  ol_identityAmbiguity : string
}.

(** The managed peers seen on a local port. *)
Notation lldp_peers := (gmap (Z * string) (gset string)) (only parsing).

Definition observe_lldp (input : InferenceInput) (r : identityResolver) (nodes : gmap Z string)
    (s : lldp_peers * list observedLLDP) (link : LLDPLink) : res error (lldp_peers * list observedLLDP) :=
  match nodes !! ll_DeviceID link with
  | None => Err (errf "topology: LLDP references unknown device %d" [VD (ll_DeviceID link)])
  | Some parent =>
      if negb (validInterfaceName (ll_Port link)) then Err "topology: valid LLDP local port is required"
      else
        let? mac := canonicalMAC (ll_RemoteMAC link) in
        if negb (sourceFreshlyObserved (in_Sources input) (ll_DeviceID link) SourceLLDP (in_At input)) then Ok s
        else
          let '(peer, ambiguity) := resolve r mac in
          let fresh := (snd s ++ [MkObservedLLDP link parent peer mac ambiguity])%list in
          if nonblank ambiguity || String.eqb peer parent || negb (HasPrefix peer "device:") then Ok (fst s, fresh)
          else
            let key := (ll_DeviceID link, ll_Port link) in
            Ok (<[key := {[peer]} ∪ default ∅ (fst s !! key)]> (fst s), fresh)
  end.

(** ** Bridges *)

Definition valid_medium (m : string) : bool :=
  String.eqb m "wired" || String.eqb m "wireless" || String.eqb m "mesh" || String.eqb m "unknown".
Definition valid_attachment (a : string) : bool :=
  String.eqb a PortAttachmentPhysical || String.eqb a PortAttachmentAggregate.

Definition first_invalid (valid : string -> bool) (m : gmap Z string) : option (Z * string) :=
  List.find (fun kv => (fst kv <? 0) || negb (valid (snd kv))) (map_to_list m).

(** The interface names and states of the numbered ports. *)
Definition add_port (bridge : string) (s : gmap Z string * gmap Z string) (p : STPPort)
    : res error (gmap Z string * gmap Z string) :=
  let old := default "" (fst s !! sp_Port p) in
  if nonblank old && negb (String.eqb old (sp_Name p)) then
    Err (errf "topology: bridge %q port %d maps to both %q and %q"
           [VS bridge; VD (sp_Port p); VS old; VS (sp_Name p)])
  else Ok (<[sp_Port p := sp_Name p]> (fst s), <[sp_Port p := sp_State p]> (snd s)).

Definition bridge_ports (o : BridgeObservation) : res error (gmap Z string * gmap Z string) :=
  match first_invalid valid_medium (br_PortMedia o) with
  | Some (port, medium) =>
      Err (errf "topology: bridge %q port %d has invalid medium %q" [VS (br_Bridge o); VD port; VS medium])
  | None =>
      match first_invalid valid_attachment (br_PortAttachment o) with
      | Some (port, attachment) =>
          Err (errf "topology: bridge %q port %d has invalid attachment %q"
                 [VS (br_Bridge o); VD port; VS attachment])
      | None =>
          match br_STP o with
          | None => Ok (∅, ∅)
          | Some stp =>
              if negb (String.eqb (st_Bridge stp) (br_Bridge o)) then
                Err (errf "topology: STP bridge %q does not match FDB bridge %q"
                       [VS (st_Bridge stp); VS (br_Bridge o)])
              else try_fold (add_port (br_Bridge o)) (st_Ports stp) (∅, ∅)
          end
      end
  end.

(** What the entries of one bridge are read against. *)
Record bridge_view := MkBridgeView {
  bv_input : InferenceInput;
  bv_resolver : identityResolver;
  bv_peers : lldp_peers;
  bv_neighbors : gmap string (list Neighbor);
  bv_bridge : BridgeObservation;
  bv_parent : string;
  bv_names : gmap Z string;
  bv_states : gmap Z string
}.

(** How one entry is placed. *)
Record placement := MkPlacement {
  pl_port : string;
  pl_medium : string;
  pl_attachment : string;
  pl_state : string;
  pl_peers : gset string;
  pl_managedPeer : string;
  pl_transit : bool
}.

Definition place_entry (v : bridge_view) (child : string) (e : FDBEntry) : placement :=
  let o := bv_bridge v in
  let port := default "" (bv_names v !! fe_Port e) in
  let known := default "" (br_PortMedia o !! fe_Port e) in
  let medium := if nonblank port && nonblank known then known else "unknown" in
  let attachment := if nonblank port then default "" (br_PortAttachment o !! fe_Port e) else "" in
  let state := default "" (bv_states v !! fe_Port e) in
  let peers := default ∅ (bv_peers v !! (br_DeviceID o, port)) in
  let managedPeer := match elements peers with [peer] => peer | _ => "" end in
  let fresh source := sourceFreshlyObserved (in_Sources (bv_input v)) (br_DeviceID o) source (in_At (bv_input v)) in
  MkPlacement port medium attachment state peers managedPeer
    (fresh SourceBridgeFDB && fresh SourceBridgeSTP && String.eqb attachment PortAttachmentPhysical &&
     String.eqb state "forwarding" && nonblank managedPeer && negb (String.eqb child managedPeer)).

Definition unmapped_port : string := "bridge port number could not be mapped to an interface".
Definition unknown_medium : string := "bridge evidence does not identify link medium".
Definition several_peers : string := "bridge port has multiple managed LLDP peers".

Definition entry_ambiguities (identity : string) (p : placement) : list string :=
  ([identity]
   ++ (if pl_transit p then [managedLinkTransitAmbiguity] else [])
   ++ (if bool_decide (1 < size (pl_peers p))%nat then [several_peers] else [])
   ++ (if String.eqb (pl_port p) "" then [unmapped_port] else [])
   ++ (if String.eqb (pl_medium p) "unknown" then [unknown_medium] else []))%list.

Definition entry_gaps (o : BridgeObservation) (e : FDBEntry) (p : placement) : list string :=
  ((if String.eqb (pl_port p) ""
    then [msg "device:%d/port-mapping: bridge %s port %d is unknown"
              [VD (br_DeviceID o); VS (br_Bridge o); VD (fe_Port e)]] else [])
   ++ (if String.eqb (pl_medium p) "unknown"
       then [msg "device:%d/medium: bridge %s port %d is unclassified"
                 [VD (br_DeviceID o); VS (br_Bridge o); VD (fe_Port e)]] else []))%list.

Definition when (b : bool) (k : string) (v : dval) (d : detail) : detail := if b then <[k := v]> d else d.

Definition entry_detail (o : BridgeObservation) (e : FDBEntry) (mac : string) (p : placement) : detail :=
  when (pl_transit p) managedLinkPeerDetail (DStr (pl_managedPeer p))
  (when (pl_transit p) managedLinkTransitDetail (DBool true)
  (when (nonblank (pl_state p)) stpStateDetail (DStr (pl_state p))
  (when (nonblank (pl_attachment p)) "attachment" (DStr (pl_attachment p))
  (when (nonblank (pl_port p)) "interface" (DStr (pl_port p))
     {[ "bridge" := DStr (br_Bridge o); "port_number" := DInt (fe_Port e);
        "observed_mac" := DStr mac; "vlan_available" := DBool false ]})))).

Definition entry_confidence (identity : string) (p : placement) : string :=
  if pl_transit p || nonblank identity || bool_decide (1 < size (pl_peers p))%nat ||
     String.eqb (pl_port p) "" || String.eqb (pl_medium p) "unknown"
  then "ambiguous" else "inferred".

Definition neighbor_evidence (deviceID : Z) (mac : string) (n : Neighbor) : EdgeEvidence :=
  MkEvidence "neighbor" (SourceNeighbors (nb_Family n)) deviceID
    {[ "address" := DStr (nb_Address n); "interface" := DStr (nb_Interface n);
       "state" := DStr (nb_State n); "observed_mac" := DStr mac ]}.

Definition bridge_entry (v : bridge_view) (s : inference) (e : FDBEntry) : res error inference :=
  if fe_Local e then Ok s
  else
    let? mac := canonicalMAC (fe_MAC e) in
    let '(child, identity) := resolve (bv_resolver v) mac in
    if String.eqb child (bv_parent v) then Ok s
    else
      let o := bv_bridge v in
      let p := place_entry v child e in
      let ambiguities := entry_ambiguities identity p in
      let edge := placed child mac (bv_parent v) (Some (br_DeviceID o)) (pl_port p) (pl_medium p)
                    (entry_confidence identity p) (in_At (bv_input v)) in
      let s := add_gaps (entry_gaps o e p) s in
      let s := add edge (MkEvidence "bridge_fdb" SourceBridgeFDB (br_DeviceID o) (entry_detail o e mac p))
                 ambiguities s in
      Ok (fold_left (fun s n => add edge (neighbor_evidence (br_DeviceID o) mac n) ambiguities s)
            (default [] (bv_neighbors v !! mac)) s).

Definition observe_bridge (input : InferenceInput) (r : identityResolver) (nodes : gmap Z string)
    (nbrs : neighbor_table) (peers : lldp_peers) (s : inference) (o : BridgeObservation)
    : res error inference :=
  match nodes !! br_DeviceID o with
  | None => Err (errf "topology: bridge references unknown device %d" [VD (br_DeviceID o)])
  | Some parent =>
      if negb (validInterfaceName (br_Bridge o)) then Err (errf "topology: invalid bridge %q" [VS (br_Bridge o)])
      else
        let? (names, states) := bridge_ports o in
        try_fold (bridge_entry (MkBridgeView input r peers (default ∅ (nbrs !! br_DeviceID o)) o parent names states))
          (br_Entries o) s
  end.

(** ** Associations, LLDP links and uplinks *)

Definition measured_unless (identity : string) : string := if nonblank identity then "ambiguous" else "measured".

Definition observe_association (input : InferenceInput) (r : identityResolver) (nodes : gmap Z string)
    (s : inference) (a : Association) : res error inference :=
  match nodes !! as_DeviceID a with
  | None => Err (errf "topology: association references unknown device %d" [VD (as_DeviceID a)])
  | Some parent =>
      if negb (validInterfaceName (as_Interface a)) then Err "topology: valid association interface is required"
      else
        let? mac := canonicalMAC (as_MAC a) in
        let '(child, identity) := resolve r mac in
        if String.eqb child parent then Ok s
        else
          Ok (add (placed child mac parent (Some (as_DeviceID a)) (as_Interface a) "wireless"
                     (measured_unless identity) (in_At input))
                (MkEvidence "association" SourceAssociations (as_DeviceID a)
                   {[ "interface" := DStr (as_Interface a); "observed_mac" := DStr mac ]})
                [identity] s)
  end.

Definition place_lldp (input : InferenceInput) (s : inference) (o : observedLLDP) : inference :=
  if String.eqb (ol_child o) (ol_parent o) then s
  else
    let link := ol_link o in
    add (placed (ol_child o) (ol_mac o) (ol_parent o) (Some (ll_DeviceID link)) (ll_Port link) "wired"
           (measured_unless (ol_identityAmbiguity o)) (in_At input))
      (MkEvidence "lldp_neighbor" SourceLLDP (ll_DeviceID link)
         {[ "local_port" := DStr (ll_Port link); "remote_mac" := DStr (ol_mac o) ]})
      [ol_identityAmbiguity o] s.

Definition observe_uplink (input : InferenceInput) (nodes : gmap Z string) (s : inference) (u : Uplink)
    : res error inference :=
  match nodes !! up_DeviceID u with
  | None => Err (errf "topology: uplink references unknown device %d" [VD (up_DeviceID u)])
  | Some child =>
      if negb (up_Active u) then Ok s
      else if negb (validInterfaceName (up_Interface u)) then
        Err "topology: valid active uplink interface is required"
      else
        Ok (add (placed child "" InternetNode None (up_Interface u) "uplink" "measured" (in_At input))
              (MkEvidence "default_route" SourceDefaultRoute (up_DeviceID u)
                 (when (nonblank (up_LogicalInterface u) && negb (String.eqb (up_LogicalInterface u) (up_Interface u)))
                    "logical_interface" (DStr (up_LogicalInterface u))
                    {[ "interface" := DStr (up_Interface u); "active" := DBool true ]}))
              [] s)
  end.

(** ** Evidence of an edge *)

Definition edgeHasAssociation (e : TopologyEdge) : bool :=
  existsb (fun v => String.eqb (ev_Kind v) "association" && String.eqb (ev_Source v) SourceAssociations)
    (te_Evidence e).
Definition edgeHasLLDP (e : TopologyEdge) : bool :=
  existsb (fun v => String.eqb (ev_Kind v) "lldp_neighbor" && String.eqb (ev_Source v) SourceLLDP)
    (te_Evidence e).

Definition attachment_of (v : TopologyEvidence) : string := detail_str (ev_Detail v) "attachment".

(** Physical as soon as one evidence says so. *)
Fixpoint port_attachment (found : string) (l : list TopologyEvidence) : string :=
  match l with
  | [] => found
  | v :: l' =>
      let value := attachment_of v in
      if String.eqb value PortAttachmentPhysical then value
      else port_attachment (if String.eqb value PortAttachmentAggregate then value else found) l'
  end.
Definition edgePortAttachment (e : TopologyEdge) : string := port_attachment "" (te_Evidence e).

Definition measured_kind (k : string) : bool :=
  String.eqb k "association" || String.eqb k "lldp_neighbor" || String.eqb k "default_route".

Definition edgeEvidenceConfidence (e : TopologyEdge) : string :=
  match te_Ambiguities e with
  | _ :: _ => "ambiguous"
  | [] =>
      if existsb (fun v => measured_kind (ev_Kind v)) (te_Evidence e) then "measured"
      else if existsb (fun v => String.eqb (ev_Kind v) "bridge_fdb") (te_Evidence e) then "inferred"
      else if String.eqb (te_Confidence e) "measured" || String.eqb (te_Confidence e) "inferred"
      then te_Confidence e else "ambiguous"
  end.

(** ** Contradicted aggregates *)

Definition is_physical (e : TopologyEdge) : bool := String.eqb (edgePortAttachment e) PortAttachmentPhysical.
Definition is_aggregate (e : TopologyEdge) : bool := String.eqb (edgePortAttachment e) PortAttachmentAggregate.

(** The maps [physical] and [associationParents] at a node. *)
Definition physical (edges : list TopologyEdge) (node : string) : list TopologyEdge :=
  List.filter (fun e => is_physical e && String.eqb (te_ChildNode e) node) edges.
Definition associationParents (edges : list TopologyEdge) (node : string) : gset string :=
  list_to_set (map te_ParentNode
    (List.filter (fun e => edgeHasAssociation e && String.eqb (te_ChildNode e) node) edges)).

Definition contradicted_by_reverse (edges : list TopologyEdge) (e : TopologyEdge) : bool :=
  existsb (fun reverse => String.eqb (te_ParentNode reverse) (te_ChildNode e)) (physical edges (te_ParentNode e)).

Definition contradicted_by_association (edges : list TopologyEdge) (e : TopologyEdge) : bool :=
  let placements := physical edges (te_ParentNode e) in
  existsb (fun above => negb (Nat.eqb (length placements) 0) &&
                        forallb (fun p => String.eqb (te_ParentNode p) above) placements)
    (elements (associationParents edges (te_ChildNode e))).

Definition contradicted_by_ports (edges : list TopologyEdge) (e : TopologyEdge) : bool :=
  match physical edges (te_ChildNode e), physical edges (te_ParentNode e) with
  | [child], [aggregateParent] =>
      String.eqb (te_ParentNode child) (te_ParentNode aggregateParent) &&
      nonblank (te_ParentPort child) && nonblank (te_ParentPort aggregateParent) &&
      negb (String.eqb (te_ParentPort child) (te_ParentPort aggregateParent))
  | _, _ => false
  end.

Definition contradicted_aggregate (edges : list TopologyEdge) (e : TopologyEdge) : bool :=
  is_aggregate e &&
  (contradicted_by_reverse edges e ||
   (bool_decide (size (associationParents edges (te_ChildNode e)) <= 1)%nat &&
    (contradicted_by_association edges e || contradicted_by_ports edges e))).

Definition contradictedAggregateEdgeKeys (edges : list TopologyEdge) : gset string :=
  list_to_set (map edgeSortKey (List.filter (contradicted_aggregate edges) edges)).

(** ** Finishing *)

Notation candidates_t := (gmap edgeKey edgeCandidate) (only parsing).

Definition attach_evidence (c : edgeCandidate) : edgeCandidate :=
  let sorted := sortEvidence (ca_evidence c) in
  MkCandidate (with_Evidence (ca_edge c) (te_Evidence (ca_edge c) ++ map durable_evidence sorted)%list)
    sorted (ca_ambiguities c).

Definition candidate_edges (cs : candidates_t) : list TopologyEdge :=
  map (fun kv => ca_edge (snd kv)) (map_to_list cs).

Definition pruneContradictedAggregateCandidates (cs : candidates_t) : candidates_t :=
  let contradicted := contradictedAggregateEdgeKeys (candidate_edges cs) in
  filter (fun kv => edgeSortKey (ca_edge (snd kv)) ∉ contradicted) cs.

Definition parent_port (parent port : string) : string := parent ++ nul ++ port.

(** The placements of a child, those on the Internet apart. *)
Definition candidate_parents (cs : candidates_t) (child : string) : gset string :=
  list_to_set (map (fun kv => parent_port (ek_parent (fst kv)) (ek_port (fst kv)))
    (List.filter (fun kv => negb (String.eqb (ek_parent (fst kv)) InternetNode) &&
                            String.eqb (ek_child (fst kv)) child) (map_to_list cs))).

Definition mark_competing (cs : candidates_t) (k : edgeKey) (c : edgeCandidate) : edgeCandidate :=
  if bool_decide (1 < size (candidate_parents cs (ek_child k)))%nat
  then MkCandidate (with_Confidence (ca_edge c) "ambiguous") (ca_evidence c)
         ({[competingParentsAmbiguity]} ∪ ca_ambiguities c)
  else c.

Definition markCompetingParents (cs : candidates_t) : candidates_t := map_imap (fun k c => Some (mark_competing cs k c)) cs.

Definition sortedSet (s : gset string) : list string := sort_strings (elements s).
Definition uniqueSorted (l : list string) : list string := sortedSet (list_to_set (List.filter nonblank l)).

Definition final_edge (c : edgeCandidate) : TopologyEdge :=
  let ambiguities := sortedSet (ca_ambiguities c) in
  let e := with_Ambiguities (ca_edge c) ambiguities in
  if Nat.eqb (length ambiguities) 0 then e else with_Confidence e "ambiguous".

Record InferenceResult := MkInferenceResult {
  ir_Edges : list TopologyEdge;
  ir_Sources : list TopologySourceObservation;
  ir_Complete : bool;
  ir_Gaps : list string
}.

Definition finish_edges (cs : candidates_t) : list TopologyEdge :=
  let cs := markCompetingParents (pruneContradictedAggregateCandidates (attach_evidence <$> cs)) in
  sort_edges (map (fun kv => final_edge (snd kv)) (map_to_list cs)).

(** Everything that is read from the devices, merged. *)
Definition gather (input : InferenceInput) (r : identityResolver) (nodes : gmap Z string) (gaps : list string)
    : res error inference :=
  let? nbrs := neighbor_index nodes (in_Neighbors input) in
  let? (peers, fresh) := try_fold (observe_lldp input r nodes) (in_LLDP input) (∅, []) in
  let? s := try_fold (observe_bridge input r nodes nbrs peers) (in_Bridges input) (MkInference ∅ gaps) in
  let? s := try_fold (observe_association input r nodes) (in_Associations input) s in
  try_fold (observe_uplink input nodes) (in_Uplinks input) (fold_left (place_lldp input) fresh s).

(** [Infer] up to the loop that attaches the evidence: the resolver, the nodes,
    the sources and the candidates with the gaps. *)
Definition observe (input : InferenceInput)
    : res error (identityResolver * gmap Z string * list TopologySourceObservation * inference) :=
  if in_At input <=? 0 then Err "topology: observation time must be Unix milliseconds"
  else
    let? (r, nodes) := newIdentityResolver (in_Devices input) (in_Clients input) in
    let? _ := validateSourceStates (in_Sources input) nodes in
    let sources := normalizedSourceStates (in_Sources input) in
    let gaps := (sourceGaps sources ++
                 (if Nat.eqb (length sources) 0 then ["topology sources have not been observed"] else []))%list in
    let? s := gather input r nodes gaps in
    Ok (r, nodes, sources, s).

Definition Infer (input : InferenceInput) : res error InferenceResult :=
  let? (_, _, sources, s) := observe input in
  let gaps := uniqueSorted (if_gaps s) in
  Ok (MkInferenceResult (finish_edges (if_candidates s)) sources (Nat.eqb (length gaps) 0) gaps).
