(* ===== verification/TopologyIntervals.v ===== *)
(** * Topology intervals

    internal/topology/infer.go, [ReconcileIntervals], [ReconcileIntervalsBySource]
    and what they call: which durable intervals an observation opens, updates and
    closes. An interval keeps its meaning: when what is known about an edge
    changes, its row is closed and a new one opened. Silence closes an edge only
    when every source that established it has answered since. The graph the
    changes lead to is then checked as a whole: contradicted aggregates,
    aggregates and LLDP links without a path to the Internet, and the wrong
    direction of links that both ends report are dropped. *)

From Stdlib Require Import ZArith Lia Ascii String.
From stdpp Require Import base gmap list strings sorting countable.
From S2P Require Import Prelude GoStr GoFmt JsonText Topology.

Local Open Scope string_scope.
Local Open Scope Z_scope.

Record IntervalChanges := MkChanges { ic_Upsert : list TopologyEdge; ic_Close : list TopologyEdge }.

(** ** Meaning of an edge *)

Definition evidence_text (v : TopologyEvidence) : string :=
  json_object ([("kind", json_string (ev_Kind v)); ("source", json_string (ev_Source v))]
    ++ match ev_DeviceID v with Some d => [("device_id", Itoa d)] | None => [] end
    ++ [("detail", detail_text (ev_Detail v))])%list.

(** The JSON of [semanticEdge]. Marshalling strings, integers and booleans does
    not fail. *)
Definition semantics_text (e : TopologyEdge) : string :=
  json_object [("ChildMAC", json_string (te_ChildMAC e));
               ("ParentDevice", json_option Itoa (te_ParentDeviceID e));
               ("Confidence", json_string (te_Confidence e));
               ("Evidence", json_array (map evidence_text (te_Evidence e)));
               ("Ambiguities", json_array (map json_string (te_Ambiguities e)))].

Definition sameTopologySemantics (left_ right_ : TopologyEdge) : bool :=
  String.eqb (semantics_text left_) (semantics_text right_).

Definition withTopologySemantics (edge prior : TopologyEdge) : TopologyEdge :=
  with_semantics edge (te_ChildMAC prior) (te_ParentDeviceID prior) (te_Confidence prior)
    (te_Evidence prior) (te_Ambiguities prior).

(** The row of an edge closed at [at_]. *)
Definition closed_at (at_ : Z) (e : TopologyEdge) : TopologyEdge :=
  with_interval e (te_ID e) (te_ValidFrom e) (Some at_) (te_LastSeen e).

(** ** One observation against the active intervals *)

Definition index_active (at_ : Z) (m : gmap string TopologyEdge) (e : TopologyEdge)
    : res error (gmap string TopologyEdge) :=
  match te_ValidTo e with
  | Some _ => Err (errf "topology: edge %d is not active" [VD (te_ID e)])
  | None =>
      if (te_ValidFrom e <=? 0) || (te_LastSeen e <? te_ValidFrom e) || (at_ <? te_LastSeen e) then
        Err (errf "topology: edge %d has an invalid or future interval" [VD (te_ID e)])
      else
        match m !! edgeSortKey e with
        | Some _ => Err (errf "topology: duplicate active edge %q" [VS (edgeSortKey e)])
        | None => Ok (<[edgeSortKey e := e]> m)
        end
  end.

(** An observed edge: the row to write, and the row it ends. *)
Definition reconcile_edge (at_ : Z) (byKey : gmap string TopologyEdge) (edge : TopologyEdge)
    : TopologyEdge * list TopologyEdge :=
  let '(id, from, ended) :=
    match byKey !! edgeSortKey edge with
    | Some prior =>
        if sameTopologySemantics prior edge then (te_ID prior, te_ValidFrom prior, [])
        else (0, at_, [closed_at at_ prior])
    | None => (te_ID edge, te_ValidFrom edge, [])
    end in
  (with_interval edge id (if from =? 0 then at_ else from) None at_, ended).

Definition add_observed (at_ : Z) (byKey : gmap string TopologyEdge) (s : gset string * IntervalChanges)
    (edge : TopologyEdge) : res error (gset string * IntervalChanges) :=
  let key := edgeSortKey edge in
  if bool_decide (key ∈ fst s) then Err (errf "topology: duplicate observed edge %q" [VS key])
  else
    let '(row, ended) := reconcile_edge at_ byKey edge in
    Ok ({[key]} ∪ fst s, MkChanges (ic_Upsert (snd s) ++ [row]) (ic_Close (snd s) ++ ended)).

Definition ReconcileIntervals (active observed : list TopologyEdge) (at_ : Z) (complete : bool)
    : res error IntervalChanges :=
  if at_ <=? 0 then Err "topology: reconciliation time must be positive"
  else
    let? byKey := try_fold (index_active at_) active ∅ in
    let? (seen, changes) := try_fold (add_observed at_ byKey) observed (∅, MkChanges [] []) in
    let missing :=
      if complete
      then map (fun kv => closed_at at_ (snd kv))
             (List.filter (fun kv => negb (bool_decide (fst kv ∈ seen))) (map_to_list byKey))
      else [] in
    Ok (MkChanges (sort_edges (ic_Upsert changes)) (sort_edges (ic_Close changes ++ missing))).

(** ** Which sources have answered *)

Notation source_table := (gmap string TopologySourceObservation) (only parsing).

(** The sources that establish an edge; [None] when one names no device. *)
Definition durable_source (s : string) : bool :=
  String.eqb s SourceBridgeFDB || String.eqb s SourceAssociations ||
  String.eqb s SourceLLDP || String.eqb s SourceDefaultRoute.

Fixpoint required_sources (counts : TopologyEvidence -> bool) (l : list TopologyEvidence) : option (list string) :=
  match l with
  | [] => Some []
  | v :: l' =>
      if counts v then
        match ev_DeviceID v with
        | None => None
        | Some d => option_map (cons (sourceStateKey d (ev_Source v))) (required_sources counts l')
        end
      else required_sources counts l'
  end.

Definition source_answered (states : source_table) (since : Z) (key : string) : bool :=
  match states !! key with
  | Some s => (since <? so_ObservedAt s) && answered_state (so_State s)
  | None => false
  end.

Definition sources_answered (required : option (list string)) (e : TopologyEdge) (states : source_table) : bool :=
  match required with
  | None | Some [] => false
  | Some keys => forallb (source_answered states (te_LastSeen e)) keys
  end.

Definition edgeSourcesAnswered (e : TopologyEdge) (states : source_table) : bool :=
  sources_answered (required_sources (fun v => durable_source (ev_Source v)) (te_Evidence e)) e states.

Definition edgeSemanticSourcesAnswered (e : TopologyEdge) (states : source_table) : bool :=
  negb (existsb (fun v => String.eqb (ev_Source v) "") (te_Evidence e)) &&
  sources_answered (required_sources (fun _ => true) (te_Evidence e)) e states.

(** ** The managed hierarchy *)

Definition managed (node : string) : bool := HasPrefix node "device:".

(** An edge between two managed devices. *)
Definition managed_link (e : TopologyEdge) : bool := managed (te_ChildNode e) && managed (te_ParentNode e).

Notation depths := (gmap string Z) (only parsing).

(** The first loop: the devices attached to the Internet. *)
Definition root_depths (edges : list TopologyEdge) : depths :=
  fold_left (fun d e => if managed (te_ChildNode e) && String.eqb (te_ParentNode e) InternetNode
                        then <[te_ChildNode e := 0]> d else d) edges ∅.

(** One edge of the second loop; the flag says whether a depth changed. *)
Definition relax (s : depths * bool) (e : TopologyEdge) : depths * bool :=
  if negb (managed_link e) then s
  else
    match fst s !! te_ParentNode e with
    | None => s
    | Some parentDepth =>
        match fst s !! te_ChildNode e with
        | Some childDepth =>
            if childDepth <=? parentDepth + 1 then s
            else (<[te_ChildNode e := parentDepth + 1]> (fst s), true)
        | None => (<[te_ChildNode e := parentDepth + 1]> (fst s), true)
        end
    end.

(** [for changed := true; changed; ]; [None] is running out of fuel. *)
Fixpoint settle_depths (fuel : nat) (edges : list TopologyEdge) (d : depths) : option depths :=
  match fuel with
  | O => None
  | S f =>
      let '(d', changed) := fold_left relax edges (d, false) in
      if changed then settle_depths f edges d' else Some d'
  end.

(** After [n] rounds every path of at most [n] edges has been followed, so a
    round per edge and one that finds nothing are enough. *)
Definition depth_fuel (edges : list TopologyEdge) : nat := S (S (length edges)).

Definition managedDeviceRootDepths (edges : list TopologyEdge) : depths :=
  default ∅ (settle_depths (depth_fuel edges) edges (root_depths edges)).

Definition unrootedManagedDeviceLLDPEdgeKeys (edges : list TopologyEdge) : gset string :=
  let depth := managedDeviceRootDepths edges in
  list_to_set (map edgeSortKey (List.filter (fun e =>
    (te_ID e =? 0) && managed_link e && edgeHasLLDP e &&
    negb (bool_decide (is_Some (depth !! te_ParentNode e)))) edges)).

(** The links both ends report, in the direction child-parent: every direction
    whose parent is not strictly nearer to the Internet is dropped, and both
    when one end has no path to it. The code visits each unordered pair once,
    in any order, and treats its two directions alike. *)
Definition lldp_direction (edges : list TopologyEdge) (child parent : string) : list TopologyEdge :=
  List.filter (fun e => managed_link e && edgeHasLLDP e &&
                        String.eqb (te_ChildNode e) child && String.eqb (te_ParentNode e) parent) edges.

Definition suppressed (depth : depths) (child parent : string) : bool :=
  match depth !! child, depth !! parent with
  | Some c, Some p => c <=? p
  | _, _ => true
  end.

Definition directions (edges : list TopologyEdge) : gset (string * string) :=
  list_to_set (map (fun e => (te_ChildNode e, te_ParentNode e))
                   (List.filter (fun e => managed_link e && edgeHasLLDP e) edges)).

Definition reciprocal_step (edges : list TopologyEdge) (depth : depths)
    (s : gset string * gset (string * string)) (key : string * string) : gset string * gset (string * string) :=
  let '(contradicted, seen) := s in
  let '(child, parent) := key in
  let forward := lldp_direction edges child parent in
  let reverse := lldp_direction edges parent child in
  if Nat.eqb (length reverse) 0 || bool_decide (key ∈ seen) || bool_decide ((parent, child) ∈ seen) then s
  else
    ((if suppressed depth child parent then list_to_set (map edgeSortKey forward) else ∅) ∪
     (if suppressed depth parent child then list_to_set (map edgeSortKey reverse) else ∅) ∪ contradicted,
     {[key]} ∪ ({[(parent, child)]} ∪ seen)).

Definition reciprocalManagedDeviceEdgeKeys (edges : list TopologyEdge) : gset string :=
  fst (fold_left (reciprocal_step edges (managedDeviceRootDepths edges)) (elements (directions edges)) (∅, ∅)).

Definition roots_device (e : TopologyEdge) : bool :=
  managed (te_ChildNode e) &&
  (String.eqb (te_ParentNode e) InternetNode || is_physical e ||
   String.eqb (te_Medium e) "wireless" || String.eqb (te_Medium e) "mesh").

Definition unrootedAggregateEdgeKeys (edges : list TopologyEdge) : gset string :=
  list_to_set (map edgeSortKey (List.filter (fun e =>
    is_aggregate e && negb (existsb (fun r => roots_device r && String.eqb (te_ChildNode r) (te_ParentNode e)) edges))
    edges)).

Definition fleet_contradicted (edges : list TopologyEdge) : gset string :=
  contradictedAggregateEdgeKeys edges ∪ unrootedAggregateEdgeKeys edges ∪
  unrootedManagedDeviceLLDPEdgeKeys edges ∪ reciprocalManagedDeviceEdgeKeys edges.

(** ** The graph the changes lead to *)

Definition by_key (l : list TopologyEdge) (m : gmap string TopologyEdge) : gmap string TopologyEdge :=
  fold_left (fun m e => <[edgeSortKey e := e]> m) l m.

Definition ids (l : list TopologyEdge) : gset Z := list_to_set (map te_ID l).

(** The active rows that stay, and the rows to write over them. *)
Definition future_edges (active : list TopologyEdge) (changes : IntervalChanges) : gmap string TopologyEdge :=
  by_key (ic_Upsert changes)
    (by_key (List.filter (fun e => negb (bool_decide (te_ID e ∈ ids (ic_Close changes)))) active) ∅).

(** The durable rows among the contradicted edges, closed. *)
Definition close_contradicted (at_ : Z) (contradicted : gset string) (closed : gset Z)
    (future : gmap string TopologyEdge) : list TopologyEdge :=
  flat_map (fun kv =>
    let '(k, e) := kv in
    if bool_decide (k ∈ contradicted) && negb (te_ID e =? 0) && negb (bool_decide (te_ID e ∈ closed))
    then [closed_at at_ e] else []) (map_to_list future).

Definition future_parents (future : gmap string TopologyEdge) (child : string) : gset string :=
  list_to_set (map (fun kv => parent_port (te_ParentNode (snd kv)) (te_ParentPort (snd kv)))
    (List.filter (fun kv => negb (String.eqb (te_ParentNode (snd kv)) InternetNode) &&
                            String.eqb (te_ChildNode (snd kv)) child) (map_to_list future))).

Definition not_competing (l : list string) : list string :=
  List.filter (fun a => negb (String.eqb a competingParentsAmbiguity)) l.

(** The competition ambiguity, recomputed over the fleet. *)
Definition recompete (future : gmap string TopologyEdge) (e : TopologyEdge) : TopologyEdge :=
  let other := not_competing (te_Ambiguities e) in
  let had := existsb (String.eqb competingParentsAmbiguity) (te_Ambiguities e) in
  let e' := with_Ambiguities e other in
  let e' :=
    if bool_decide (1 < size (future_parents future (te_ChildNode e)))%nat
    then with_Confidence (with_Ambiguities e' (other ++ [competingParentsAmbiguity])) "ambiguous"
    else if had then with_Confidence e' (edgeEvidenceConfidence e') else e' in
  with_Ambiguities e' (sort_strings (te_Ambiguities e')).

(** One edge of the future graph: the row to write, if any, and the row it
    ends, if its meaning changed. *)
Definition settle_edge (at_ : Z) (prior : gmap string TopologyEdge) (observed : gset string) (closed : gset Z)
    (kv : string * TopologyEdge) : list TopologyEdge * list TopologyEdge :=
  let '(key, edge) := kv in
  let keep := bool_decide (key ∈ observed) in
  match prior !! key with
  | None => ([edge], [])
  | Some old =>
      if negb (bool_decide (te_ID old ∈ closed)) && negb (sameTopologySemantics old edge)
      then ([with_interval edge 0 at_ None at_], [closed_at at_ old])
      else (if keep then [edge] else [], [])
  end.

Definition reconcileFleetCompetingParents (active : list TopologyEdge) (changes : IntervalChanges) (at_ : Z)
    : IntervalChanges :=
  let closed := ids (ic_Close changes) in
  let future := future_edges active changes in
  let prior := by_key active ∅ in
  let observed := list_to_set (map edgeSortKey (ic_Upsert changes)) in
  let contradicted := fleet_contradicted (map snd (map_to_list future)) in
  let dropped := close_contradicted at_ contradicted closed future in
  let closed := ids dropped ∪ closed in
  let future := filter (fun kv => kv.1 ∉ contradicted) future in
  let future := recompete future <$> future in
  let rows := map (settle_edge at_ prior observed closed) (map_to_list future) in
  MkChanges (sort_edges (concat (map fst rows)))
            (sort_edges (ic_Close changes ++ dropped ++ concat (map snd rows))).

(** ** The whole reconciliation *)

Definition index_source (at_ : Z) (m : source_table) (s : TopologySourceObservation) : res error source_table :=
  if (so_DeviceID s <=? 0) || negb (String.eqb (TrimSpace (so_Source s)) (so_Source s)) ||
     String.eqb (so_Source s) "" || (so_ObservedAt s <=? 0) || (at_ <? so_ObservedAt s) then
    Err "topology: source-aware reconciliation requires device and source"
  else if negb (known_state (so_State s)) then
    Err (errf "topology: source %q has invalid state %q" [VS (so_Source s); VS (so_State s)])
  else
    let key := sourceStateKey (so_DeviceID s) (so_Source s) in
    match m !! key with
    | Some _ =>
        Err (errf "topology: duplicate source state for device %d/%s" [VD (so_DeviceID s); VS (so_Source s)])
    | None => Ok (<[key := s]> m)
    end.

(** What is observed of an edge, unless a source of its current meaning has not
    answered: then the meaning stays. *)
Definition retain_semantics (activeByKey : gmap string TopologyEdge) (states : source_table) (edge : TopologyEdge)
    : TopologyEdge :=
  match activeByKey !! edgeSortKey edge with
  | Some prior => if edgeSemanticSourcesAnswered prior states then edge else withTopologySemantics edge prior
  | None => edge
  end.

(** Up to the call of [reconcileFleetCompetingParents]. *)
Definition changes_by_source (active observed : list TopologyEdge) (at_ : Z)
    (sources : list TopologySourceObservation) : res error IntervalChanges :=
  let? states := try_fold (index_source at_) sources ∅ in
  let activeByKey := by_key active ∅ in
  let observed := map (retain_semantics activeByKey states) observed in
  let? changes := ReconcileIntervals active observed at_ false in
  let seen : gset string := list_to_set (map edgeSortKey observed) in
  let gone := List.filter (fun e => negb (bool_decide (edgeSortKey e ∈ seen)) && edgeSourcesAnswered e states) active in
  Ok (MkChanges (ic_Upsert changes) (sort_edges (ic_Close changes ++ map (closed_at at_) gone))).

Definition ReconcileIntervalsBySource (active observed : list TopologyEdge) (at_ : Z)
    (sources : list TopologySourceObservation) : res error IntervalChanges :=
  let? changes := changes_by_source active observed at_ sources in
  Ok (reconcileFleetCompetingParents active changes at_).
