(* ===== verification/TopologyView.v ===== *)
(** * The topology that is shown

    internal/topology/infer.go, [CurrentPresentationEdges]: among the active
    edges, a placement that may only be traffic passing through a managed link
    is hidden while that link's peer is resolved, through recent successful
    evidence, to a direct observation of the same child. *)

From Stdlib Require Import ZArith Lia Ascii String.
From stdpp Require Import base gmap list strings sorting countable.
From S2P Require Import Prelude GoStr GoFmt Topology TopologyIntervals.

Local Open Scope string_scope.
Local Open Scope Z_scope.

(** The latest state of every source. *)
Definition latest_state (m : source_table) (s : TopologySourceObservation) : source_table :=
  let key := sourceStateKey (so_DeviceID s) (so_Source s) in
  match m !! key with
  | Some prior => if so_ObservedAt prior <? so_ObservedAt s then <[key := s]> m else m
  | None => <[key := s]> m
  end.
Definition latest_states (sources : list TopologySourceObservation) : source_table :=
  fold_left latest_state sources ∅.

Definition sourceRecentlyObserved (states : source_table) (deviceID : Z) (source : string) (at_ maxAge : Z) : bool :=
  match states !! sourceStateKey deviceID source with
  | Some s => String.eqb (so_State s) TopologySourceObserved && (so_ObservedAt s <=? at_) &&
              (0 <=? maxAge) && (i64 (at_ - maxAge) <=? so_ObservedAt s)
  | None => false
  end.

(** ** Transit placements *)

Definition is_fdb (v : TopologyEvidence) : bool := String.eqb (ev_Kind v) "bridge_fdb".
Definition transit_flag (v : TopologyEvidence) : bool := detail_bool (ev_Detail v) managedLinkTransitDetail.
Definition forwarding_port (v : TopologyEvidence) : bool :=
  String.eqb (attachment_of v) PortAttachmentPhysical &&
  String.eqb (detail_str (ev_Detail v) stpStateDetail) "forwarding".

(** The peer named by every bridge evidence. *)
Fixpoint transit_peer (peer : string) (l : list TopologyEvidence) : option string :=
  match l with
  | [] => Some peer
  | v :: l' =>
      if negb (is_fdb v) then transit_peer peer l'
      else
        let candidate := detail_str (ev_Detail v) managedLinkPeerDetail in
        if bool_decide (ev_DeviceID v = None) || negb (transit_flag v) || negb (forwarding_port v) ||
           negb (managed candidate) || (nonblank peer && negb (String.eqb peer candidate))
        then None
        else transit_peer candidate l'
  end.

Definition managedLinkTransitPeer (e : TopologyEdge) : option string :=
  if edgeHasAssociation e || edgeHasLLDP e then None
  else match transit_peer "" (te_Evidence e) with
       | Some peer => if nonblank peer then Some peer else None
       | None => None
       end.

Definition fdb_recent (states : source_table) (at_ maxAge : Z) (v : TopologyEvidence) : bool :=
  match ev_DeviceID v with
  | None => false
  | Some d => sourceRecentlyObserved states d SourceBridgeFDB at_ maxAge &&
              sourceRecentlyObserved states d SourceBridgeSTP at_ maxAge
  end.

Definition managedLinkTransitRecentlyObserved (e : TopologyEdge) (states : source_table) (at_ maxAge : Z) : bool :=
  let fdb := List.filter is_fdb (te_Evidence e) in
  forallb (fun v => fdb_recent states at_ maxAge v &&
                    match ev_DeviceID v with
                    | Some d => sourceRecentlyObserved states d SourceLLDP at_ maxAge
                    | None => false
                    end) fdb &&
  negb (Nat.eqb (length fdb) 0).

(** ** Direct placements *)

Definition direct_evidence (states : source_table) (at_ maxAge : Z) (v : TopologyEvidence) : bool :=
  match ev_DeviceID v with
  | None => false
  | Some d =>
      if String.eqb (ev_Kind v) "association" || String.eqb (ev_Kind v) "lldp_neighbor"
      then sourceRecentlyObserved states d (ev_Source v) at_ maxAge
      else is_fdb v && negb (transit_flag v) && forwarding_port v && fdb_recent states at_ maxAge v
  end.

Definition edgeHasFreshDirectEvidence (e : TopologyEdge) (states : source_table) (at_ maxAge : Z) : bool :=
  forallb (String.eqb competingParentsAmbiguity) (te_Ambiguities e) &&
  existsb (direct_evidence states at_ maxAge) (te_Evidence e).

(** A child at a parent. *)
Definition spot : Type := string * string.

Definition direct_spots (states : source_table) (at_ maxAge : Z) (edges : list TopologyEdge) : gset spot :=
  list_to_set (map (fun e => (te_ChildNode e, te_ParentNode e))
                   (List.filter (fun e => edgeHasFreshDirectEvidence e states at_ maxAge) edges)).

(** An edge that may be transit: where it is, and what it needs resolved. *)
Record transit := MkTransit { tr_index : nat; tr_peer : spot; tr_parent : string; tr_fresh : bool }.

Definition transits (states : source_table) (at_ maxAge : Z) (edges : list TopologyEdge) : list transit :=
  flat_map (fun ie =>
    let '(i, e) := ie in
    match managedLinkTransitPeer e with
    | Some peer => [MkTransit i (te_ChildNode e, peer) (te_ParentNode e)
                      (managedLinkTransitRecentlyObserved e states at_ maxAge)]
    | None => []
    end) (imap pair edges).

(** ** Resolution *)

Record resolution := MkResolution { rv_resolved : gset spot; rv_queue : list spot; rv_hidden : gset nat }.

(** One candidate that needs the spot at the head of the queue. *)
Definition resolve_transit (child : string) (s : resolution) (t : transit) : resolution :=
  let hidden := {[tr_index t]} ∪ rv_hidden s in
  let upstream := (child, tr_parent t) in
  if negb (tr_fresh t) || bool_decide (upstream ∈ rv_resolved s)
  then MkResolution (rv_resolved s) (rv_queue s) hidden
  else MkResolution ({[upstream]} ∪ rv_resolved s) (rv_queue s ++ [upstream]) hidden.

(** The loop over the queue; [None] is running out of fuel. *)
Fixpoint resolve_spots (fuel : nat) (ts : list transit) (s : resolution) : option resolution :=
  match rv_queue s with
  | [] => Some s
  | at_spot :: queue =>
      match fuel with
      | O => None
      | S f =>
          resolve_spots f ts
            (fold_left (resolve_transit (fst at_spot)) (List.filter (fun t => bool_decide (tr_peer t = at_spot)) ts)
               (MkResolution (rv_resolved s) queue (rv_hidden s)))
      end
  end.

(** Every spot is queued once: the direct ones, and at most one per candidate. *)
Definition hidden_edges (states : source_table) (at_ maxAge : Z) (edges : list TopologyEdge) : option (gset nat) :=
  let direct := direct_spots states at_ maxAge edges in
  let ts := transits states at_ maxAge edges in
  option_map rv_hidden
    (resolve_spots (size direct + length ts) ts (MkResolution direct (elements direct) ∅)).

(** ** What is shown *)

Definition visible_edges (hidden : gset nat) (edges : list TopologyEdge) : list TopologyEdge :=
  map snd (List.filter (fun ie => negb (bool_decide (fst ie ∈ hidden))) (imap pair edges)).

Definition visible_parents (edges : list TopologyEdge) (child : string) : gset string :=
  list_to_set (map (fun e => parent_port (te_ParentNode e) (te_ParentPort e))
    (List.filter (fun e => negb (String.eqb (te_ParentNode e) InternetNode) && String.eqb (te_ChildNode e) child) edges)).

Definition present (edges : list TopologyEdge) (e : TopologyEdge) : TopologyEdge :=
  let other := not_competing (te_Ambiguities e) in
  let e := with_Ambiguities e other in
  let e :=
    if bool_decide (1 < size (visible_parents edges (te_ChildNode e)))%nat
    then with_Confidence (with_Ambiguities e (other ++ [competingParentsAmbiguity])) "ambiguous"
    else with_Confidence e (edgeEvidenceConfidence e) in
  with_Ambiguities e (sort_strings (te_Ambiguities e)).

Definition CurrentPresentationEdges (edges : list TopologyEdge) (sources : list TopologySourceObservation)
    (at_ maxSourceAge : Z) : list TopologyEdge :=
  let hidden := default ∅ (hidden_edges (latest_states sources) at_ maxSourceAge edges) in
  let visible := visible_edges hidden edges in
  map (present visible) visible.
