(* ===== verification/TopologyRoots.v ===== *)
(** * The managed hierarchy: distances to the Internet

    [managedDeviceRootDepths] relaxes every edge until nothing changes. Here:
    the loop ends within the fuel, and a device has the depth [k] exactly when
    its nearest path of managed links to a device with a default route has [k]
    links. The result therefore does not depend on the order of the edges,
    which the code takes from a map. *)

From Stdlib Require Import ZArith Lia Ascii String.
From stdpp Require Import base gmap list strings sorting.
From S2P Require Import Prelude GoStr Topology TopologyIntervals.

Local Open Scope string_scope.
Local Open Scope Z_scope.

Section Depths.
Context (edges : list TopologyEdge).

(** A path of [k] managed links from a device to one with a default route. *)
Inductive hops : string -> nat -> Prop :=
| hops_root e : e ∈ edges -> managed (te_ChildNode e) = true -> te_ParentNode e = InternetNode ->
    hops (te_ChildNode e) 0
| hops_link e k : e ∈ edges -> managed_link e = true -> hops (te_ParentNode e) k ->
    hops (te_ChildNode e) (S k).

(** ** Simple paths are short *)

(** The nodes of a path. *)
Inductive path : list string -> Prop :=
| path_root e : e ∈ edges -> managed (te_ChildNode e) = true -> te_ParentNode e = InternetNode ->
    path [te_ChildNode e]
| path_link e l : e ∈ edges -> managed_link e = true -> path (te_ParentNode e :: l) ->
    path (te_ChildNode e :: te_ParentNode e :: l).

Lemma path_hops n l : path (n :: l) -> hops n (length l).
Proof.
  remember (n :: l) as p eqn:E. intros Hp. revert n l E.
  induction Hp as [e He Hm Hi|e l Hin Hl Hp IH]; intros n k [= <- <-]; [by apply hops_root|].
  apply hops_link; [done..|]. by apply IH.
Qed.

Lemma path_suffix a n l : path (a ++ n :: l) -> path (n :: l).
Proof.
  revert n l. induction a as [|x a IH]; intros n l Hp; [done|]. apply IH.
  simpl in Hp. remember (x :: a ++ n :: l) as p eqn:E. destruct Hp; [destruct a; discriminate|].
  by injection E as _ <-.
Qed.

(** A path without repetitions, no longer than the given one. *)
Lemma simple_path n k : hops n k -> exists l, path (n :: l) /\ NoDup (n :: l) /\ (length l <= k)%nat.
Proof.
  induction 1 as [e He Hm Hi|e k He Hl Hp IH].
  - exists []. split; [by apply path_root|]. split; [apply NoDup_singleton|done].
  - destruct IH as (l & Hpath & Hnd & Hlen).
    destruct (decide (te_ChildNode e ∈ te_ParentNode e :: l)) as [Hin|Hin].
    + apply list_elem_of_split in Hin as (a & b & Hab). rewrite Hab in Hpath, Hnd.
      exists b. split; [by eapply path_suffix|]. split; [by apply NoDup_app in Hnd as (_ & _ & ?)|].
      apply (f_equal length) in Hab. rewrite length_app in Hab. simpl in Hab. lia.
    + exists (te_ParentNode e :: l). split; [by apply path_link|].
      split; [by apply NoDup_cons|simpl; lia].
Qed.

Lemma path_children l n : path l -> n ∈ l -> n ∈ map te_ChildNode edges.
Proof.
  intros Hp. revert n. induction Hp as [e He|e l He Hl Hp IH]; intros n Hn.
  - apply list_elem_of_singleton in Hn as ->. apply list_elem_of_fmap. eauto.
  - apply elem_of_cons in Hn as [->|Hn]; [apply list_elem_of_fmap; eauto|by apply IH].
Qed.

Lemma short_hops n k : hops n k -> exists k', hops n k' /\ (k' <= k)%nat /\ (k' <= length edges)%nat.
Proof.
  intros Hk. destruct (simple_path n k Hk) as (l & Hp & Hnd & Hlen). exists (length l).
  split; [by apply path_hops|]. split; [done|].
  assert (Hsub : n :: l ⊆+ map te_ChildNode edges).
  { apply NoDup_submseteq; [done|]. intros x Hx. by eapply path_children. }
  apply submseteq_length in Hsub. rewrite length_map in Hsub. simpl in Hsub. lia.
Qed.

(** ** Invariants of the relaxation *)

Definition realized (d : depths) : Prop := forall n v, d !! n = Some v -> exists k, v = Z.of_nat k /\ hops n k.
Definition covers (r : nat) (d : depths) : Prop :=
  forall n k, hops n k -> (k <= r)%nat -> exists v, d !! n = Some v /\ v <= Z.of_nat k.
Definition below (d d' : depths) : Prop := forall n v, d !! n = Some v -> exists v', d' !! n = Some v' /\ v' <= v.

#[local] Instance below_preorder : PreOrder below.
Proof.
  split; [intros d n v H; by exists v|]. intros d1 d2 d3 H12 H23 n v H.
  destruct (H12 _ _ H) as (v' & H' & ?). destruct (H23 _ _ H') as (v'' & ? & ?). exists v''. split; [done|lia].
Qed.

Lemma below_insert d n v : (forall w, d !! n = Some w -> v <= w) -> below d (<[n := v]> d).
Proof.
  intros Hv m w Hm. destruct (decide (n = m)) as [->|Hne].
  - exists v. rewrite lookup_insert, decide_True by done. split; [done|]. by apply Hv.
  - exists w. by rewrite lookup_insert_ne.
Qed.

Lemma relax_below s e : below (fst s) (fst (relax s e)).
Proof.
  unfold relax. destruct (negb _); [reflexivity|]. destruct (_ !! te_ParentNode e); [|reflexivity].
  destruct (_ !! te_ChildNode e) as [c|] eqn:Ec.
  - destruct (_ <=? _) eqn:El; [reflexivity|]. apply below_insert. intros w Hw. bool_prop. simplify_eq. lia.
  - apply below_insert. intros w Hw. simplify_eq.
Qed.

Lemma relax_realized s e : e ∈ edges -> realized (fst s) -> realized (fst (relax s e)).
Proof.
  intros He Hr. unfold relax. destruct (negb (managed_link e)) eqn:Em; [done|]. bool_prop.
  destruct (_ !! te_ParentNode e) as [p|] eqn:Ep; [|done]. destruct (Hr _ _ Ep) as (k & -> & Hk).
  assert (Hn : realized (<[te_ChildNode e := Z.of_nat k + 1]> (fst s))).
  { intros n v. destruct (decide (te_ChildNode e = n)) as [<-|Hne]; [|rewrite lookup_insert_ne by done; apply Hr].
    rewrite lookup_insert, decide_True by done. intros [= <-]. exists (S k). split; [lia|by apply hops_link]. }
  destruct (_ !! te_ChildNode e); [destruct (_ <=? _)|]; done.
Qed.

(** What a relaxed edge guarantees. *)
Lemma relax_edge s e p : managed_link e = true -> fst s !! te_ParentNode e = Some p ->
  exists c, fst (relax s e) !! te_ChildNode e = Some c /\ c <= p + 1.
Proof.
  intros Hm Hp. unfold relax. rewrite Hm, Hp. simpl.
  destruct (fst s !! te_ChildNode e) as [c|] eqn:Ec.
  - destruct (_ <=? _) eqn:El; [exists c; bool_prop; by split|]. simpl. eexists.
    rewrite lookup_insert, decide_True by done. split; [done|lia].
  - simpl. eexists. rewrite lookup_insert, decide_True by done. split; [done|lia].
Qed.

Lemma round_below l s : below (fst s) (fst (fold_left relax l s)).
Proof.
  revert s. induction l as [|e l IH]; intros s; [reflexivity|]. cbn [fold_left].
  etransitivity; [apply relax_below|apply IH].
Qed.

Lemma round_realized l s : (forall e, e ∈ l -> e ∈ edges) -> realized (fst s) ->
  realized (fst (fold_left relax l s)).
Proof.
  revert s. induction l as [|e l IH]; intros s Hl Hr; [done|]. cbn [fold_left]. apply IH.
  - intros x Hx. apply Hl. by right.
  - apply relax_realized; [apply Hl; left|done].
Qed.

Lemma round_edge s e p : e ∈ edges -> managed_link e = true -> fst s !! te_ParentNode e = Some p ->
  exists c, fst (fold_left relax edges s) !! te_ChildNode e = Some c /\ c <= p + 1.
Proof.
  intros (a & b & E)%list_elem_of_split Hm Hp. rewrite E, fold_left_app. cbn [fold_left].
  destruct (round_below a s _ _ Hp) as (p' & Hp' & Hle).
  destruct (relax_edge _ e p' Hm Hp') as (c & Hc & Hcp).
  destruct (round_below b _ _ _ Hc) as (c' & Hc' & ?). exists c'. split; [done|lia].
Qed.

Lemma round_covers r s : covers r (fst s) -> covers (S r) (fst (fold_left relax edges s)).
Proof.
  intros Hc n k Hk Hle. destruct Hk as [e He Hm Hi|e k He Hl Hp].
  - destruct (Hc (te_ChildNode e) 0%nat) as (v & Hv & Hv0); [by apply hops_root|lia|].
    destruct (round_below edges s _ _ Hv) as (v' & ? & ?). exists v'. split; [done|lia].
  - destruct (Hc (te_ParentNode e) k Hp) as (v & Hv & Hvk); [lia|].
    destruct (round_edge s e v He Hl Hv) as (c & ? & ?). exists c. split; [done|lia].
Qed.

Definition complete (d : depths) : Prop := forall n k, hops n k -> exists v, d !! n = Some v /\ v <= Z.of_nat k.

Lemma covers_complete d : covers (length edges) d -> complete d.
Proof.
  intros Hc n k Hk. destruct (short_hops n k Hk) as (k' & Hk' & ? & ?).
  destruct (Hc n k' Hk') as (v & ? & ?); [done|]. exists v. split; [done|lia].
Qed.

(** A complete map is a fixed point, and the loop notices. *)
Lemma complete_fixed d l : (forall e, e ∈ l -> e ∈ edges) -> realized d -> complete d ->
  fold_left relax l (d, false) = (d, false).
Proof.
  intros Hl Hr Hc. induction l as [|e l IH]; [done|]. cbn [fold_left].
  assert (relax (d, false) e = (d, false)) as ->; [|apply IH; intros x Hx; apply Hl; by right].
  unfold relax. destruct (negb (managed_link e)) eqn:Em; [done|]. bool_prop. simpl.
  destruct (d !! te_ParentNode e) as [p|] eqn:Ep; [|done]. destruct (Hr _ _ Ep) as (k & -> & Hk).
  destruct (Hc (te_ChildNode e) (S k)) as (v & Hv & Hle); [apply hops_link; [apply Hl; left|done..]|].
  rewrite Hv. assert (v <=? Z.of_nat k + 1 = true) as -> by (apply Z.leb_le; lia). done.
Qed.

Lemma relax_flag s e : snd (relax s e) = false -> relax s e = s.
Proof.
  unfold relax. destruct (negb _); [done|]. destruct (_ !! te_ParentNode e); [|done].
  destruct (_ !! te_ChildNode e); [destruct (_ <=? _)|]; done.
Qed.

Lemma round_flag l s : snd (fold_left relax l s) = false -> fold_left relax l s = s /\ snd s = false.
Proof.
  revert s. induction l as [|e l IH]; intros s H; [done|]. cbn [fold_left] in *.
  destruct (IH _ H) as [E Hs]. pose proof (relax_flag s e Hs) as Ee. rewrite Ee in *. done.
Qed.

Lemma fixed_complete d d' : covers 0 d -> fold_left relax edges (d, false) = (d', false) -> d' = d /\ complete d.
Proof.
  intros H0 E. destruct (round_flag edges (d, false)) as [Ed _]; [by rewrite E|].
  assert (d' = d) by congruence. split; [done|]. subst d'. intros n k Hk.
  induction Hk as [e He Hm Hi|e k He Hl Hp IH].
  - apply (H0 _ 0%nat); [by apply hops_root|lia].
  - destruct IH as (v & Hv & ?). destruct (round_edge (d, false) e v He Hl Hv) as (c & Hc & ?).
    rewrite Ed in Hc. exists c. split; [done|lia].
Qed.

(** ** The loop *)

Lemma covers_weaken r r' d : (r' <= r)%nat -> covers r d -> covers r' d.
Proof. intros Hle Hc n k Hk Hr. apply Hc; [done|lia]. Qed.

Lemma settle_depths_complete f r d : realized d -> covers r d -> (r <= length edges < r + f)%nat ->
  exists d', settle_depths f edges d = Some d' /\ realized d' /\ complete d'.
Proof.
  revert r d. induction f as [|f IH]; intros r d Hr Hc Hlen.
  - exfalso. lia.
  - cbn [settle_depths]. destruct (decide (length edges <= r)%nat) as [Hle|Hle].
    + assert (Hcomp : complete d) by (apply covers_complete; by eapply covers_weaken).
      rewrite (complete_fixed d edges) by done. exists d. done.
    + destruct (fold_left relax edges (d, false)) as [d' c] eqn:E.
      pose proof (round_realized edges (d, false) ltac:(done) Hr) as Hr'.
      pose proof (round_covers r (d, false) Hc) as Hc'. rewrite E in Hr', Hc'. simpl in *.
      destruct c; [apply (IH (S r)); [done|done|lia]|].
      destruct (fixed_complete d d') as [-> Hcomp]; [by eapply covers_weaken, Hc; lia|done|]. exists d. done.
Qed.

Lemma root_step_spec l d : (forall e, e ∈ l -> e ∈ edges) -> realized d ->
  let d' := fold_left (fun d e => if managed (te_ChildNode e) && String.eqb (te_ParentNode e) InternetNode
                                  then <[te_ChildNode e := 0]> d else d) l d in
  realized d' /\ (forall n, d !! n = Some 0 -> d' !! n = Some 0) /\
  (forall e, e ∈ l -> managed (te_ChildNode e) = true -> te_ParentNode e = InternetNode -> d' !! te_ChildNode e = Some 0).
Proof.
  revert d. induction l as [|e l IH]; intros d Hl Hr; [split_and!; [done|done|set_solver]|]. cbn [fold_left].
  destruct (managed (te_ChildNode e) && _) eqn:E.
  - bool_prop. destruct (IH (<[te_ChildNode e := 0]> d)) as (H1 & H2 & H3).
    + intros x Hx. apply Hl. by right.
    + intros n v. destruct (decide (te_ChildNode e = n)) as [<-|Hne]; [|rewrite lookup_insert_ne by done; apply Hr].
      rewrite lookup_insert, decide_True by done. intros [= <-]. exists 0%nat. split; [done|].
      apply hops_root; [apply Hl; left|done..].
    + split_and!; [done| |].
      * intros n Hn. apply H2. destruct (decide (te_ChildNode e = n)) as [<-|Hne];
          [by rewrite lookup_insert, decide_True|by rewrite lookup_insert_ne].
      * intros x Hx Hm Hi. apply elem_of_cons in Hx as [->|Hx]; [|by apply H3].
        apply H2. by rewrite lookup_insert, decide_True.
  - destruct (IH d) as (H1 & H2 & H3); [intros x Hx; apply Hl; by right|done|]. split_and!; [done|done|].
    intros x Hx Hm Hi. apply elem_of_cons in Hx as [->|Hx]; [|by apply H3].
    rewrite Hm, Hi, String.eqb_refl in E. done.
Qed.

Lemma root_depths_spec : realized (root_depths edges) /\ covers 0 (root_depths edges).
Proof.
  destruct (root_step_spec edges ∅) as (H1 & _ & H3); [done| |].
  - intros n v Hv. by rewrite lookup_empty in Hv.
  - split; [exact H1|]. intros n k Hk Hle. destruct Hk as [e He Hm Hi|]; [|lia].
    exists 0. split; [by apply H3|lia].
Qed.

Lemma managedDeviceRootDepths_complete :
  settle_depths (depth_fuel edges) edges (root_depths edges) = Some (managedDeviceRootDepths edges) /\
  realized (managedDeviceRootDepths edges) /\ complete (managedDeviceRootDepths edges).
Proof.
  destruct root_depths_spec as [Hr Hc].
  destruct (settle_depths_complete (depth_fuel edges) 0 _ Hr Hc) as (d & Hd & Hr' & Hcomp); [unfold depth_fuel; lia|].
  unfold managedDeviceRootDepths. rewrite Hd. done.
Qed.
End Depths.

(** C22 (termination, equivalence): the loop over the links of managed devices
    ends, whatever the links are (cycles included), and gives a device the
    depth [k] exactly when the nearest way from it to a device with a default
    route takes [k] links; a device without such a way has no depth. *)
Theorem root_depths_are_distances (edges : list TopologyEdge) (node : string) :
  settle_depths (depth_fuel edges) edges (root_depths edges) = Some (managedDeviceRootDepths edges) /\
  (forall v, managedDeviceRootDepths edges !! node = Some v <->
     exists k, v = Z.of_nat k /\ hops edges node k /\ forall k', hops edges node k' -> (k <= k')%nat) /\
  (managedDeviceRootDepths edges !! node = None <-> forall k, ~ hops edges node k).
Proof.
  destruct (managedDeviceRootDepths_complete edges) as (Hs & Hr & Hc). split; [done|]. split.
  - intros v. split.
    + intros Hv. destruct (Hr _ _ Hv) as (k & -> & Hk). exists k. split_and!; [done..|].
      intros k' Hk'. destruct (Hc _ _ Hk') as (w & Hw & ?). simplify_eq. lia.
    + intros (k & -> & Hk & Hmin). destruct (Hc _ _ Hk) as (w & Hw & Hle).
      destruct (Hr _ _ Hw) as (j & -> & Hj). specialize (Hmin _ Hj). rewrite Hw. f_equal. lia.
  - split.
    + intros Hn k Hk. destruct (Hc _ _ Hk) as (v & ? & _). congruence.
    + intros Hno. destruct (_ !! node) as [v|] eqn:E; [|done]. destruct (Hr _ _ E) as (k & _ & Hk).
      by destruct (Hno k).
Qed.
