(* ===== verification/TopologyIntervalsSpec.v ===== *)
(** * Topology intervals: what a reconciliation does to the store

    The store holds the active rows. [store_apply] is what writing the changes
    does to it: closed rows leave, updated rows are replaced, opened rows get
    fresh ids. The theorems say that the result is again a set of active
    intervals, one per edge; that no row changes its meaning; that silence
    closes nothing; and that the graph the rows form is consistent: competing
    placements are marked, and no two managed devices are below one another. *)

From Stdlib Require Import ZArith Lia Ascii String.
From stdpp Require Import base gmap list strings sorting.
From S2P Require Import Prelude GoStr GoFmt JsonText Topology TopologyIntervals.

Local Open Scope string_scope.
Local Open Scope Z_scope.

(** ** What equal meanings share

    [sameTopologySemantics] compares JSON texts. Equal texts have the same
    confidence and the same ambiguities, as far as they are plain. *)

Lemma frag_dval v : frag (chars (dval_text v)).
Proof. destruct v; [apply frag_string|apply frag_int|apply frag_bool]. Qed.

Lemma frag_evidence v : frag (chars (evidence_text v)).
Proof.
  apply frag_object. rewrite !Forall_app. split_and!.
  - repeat constructor; apply frag_string.
  - destruct (ev_DeviceID v); repeat constructor. apply frag_int.
  - repeat constructor. apply frag_map, frag_dval.
Qed.

Definition head_text (e : TopologyEdge) : list ascii :=
  (chars (json_string (te_ChildMAC e)) ++ chars ("," ++ json_string "ParentDevice" ++ ":") ++
   chars (json_option Itoa (te_ParentDeviceID e)))%list.
Definition tail_text (e : TopologyEdge) : list ascii :=
  (chars (json_string "Confidence" ++ ":") ++ chars (json_string (te_Confidence e)) ++
   chars ("," ++ json_string "Evidence" ++ ":") ++ chars (json_array (map evidence_text (te_Evidence e))) ++
   chars ("," ++ json_string "Ambiguities" ++ ":") ++
   chars (json_array (map json_string (te_Ambiguities e))) ++ chars "}")%list.

Lemma semantics_split e : chars (semantics_text e) =
  (chars ("{" ++ json_string "ChildMAC" ++ ":") ++ head_text e ++ ","%char :: tail_text e)%list.
Proof.
  unfold semantics_text, json_object, head_text, tail_text. cbn [map Join fst snd].
  rewrite !chars_app, <- !app_assoc. reflexivity.
Qed.

Lemma comma_not_in_device o : ","%char ∉ chars (json_option Itoa o).
Proof. destruct o; [by apply not_in_Itoa|]. apply (bool_decide_unpack _). reflexivity. Qed.

(** The parts of equal texts. *)
Lemma same_parts a b : sameTopologySemantics a b = true ->
  json_string (te_Confidence a) = json_string (te_Confidence b) /\
  map json_string (te_Ambiguities a) = map json_string (te_Ambiguities b).
Proof.
  unfold sameTopologySemantics. intros H. bool_prop. apply (f_equal chars) in H.
  rewrite !semantics_split in H. apply app_inv_head in H. unfold head_text in H. rewrite <- !app_assoc in H.
  apply value_inj in H as [_ H]; [|apply value_string..].
  apply app_inv_head in H. apply cut_inj in H as [_ H]; [|apply comma_not_in_device..].
  unfold tail_text in H. apply app_inv_head in H.
  apply value_inj in H as [Hc H]; [|apply value_string..].
  apply (f_equal of_chars) in Hc. rewrite !of_chars_chars in Hc. split; [done|].
  apply app_inv_head in H.
  assert (Hv : forall e, value (chars (json_array (map evidence_text (te_Evidence e))))).
  { intros e. apply value_array, Forall_fmap, Forall_forall. intros v _. apply frag_evidence. }
  apply value_inj in H as [_ H]; [|apply Hv..]. apply app_inv_head in H. by apply array_inj in H.
Qed.

(** The marks the reconciliation sets are plain. *)
Lemma same_competing a b : sameTopologySemantics a b = true ->
  competingParentsAmbiguity ∈ te_Ambiguities a <-> competingParentsAmbiguity ∈ te_Ambiguities b.
Proof.
  intros [_ H]%same_parts. rewrite <- !(plain_in _ competingParentsAmbiguity) by reflexivity. by rewrite H.
Qed.
Lemma same_ambiguous a b : sameTopologySemantics a b = true ->
  te_Confidence a = "ambiguous" <-> te_Confidence b = "ambiguous".
Proof.
  intros [H _]%same_parts. split; intros E.
  - apply (plain_inj _ "ambiguous"); [done|]. by rewrite <- H, E.
  - apply (plain_inj _ "ambiguous"); [done|]. by rewrite H, E.
Qed.

#[export] Instance same_equiv : Equivalence (fun a b => sameTopologySemantics a b = true).
Proof.
  unfold sameTopologySemantics. split.
  - intros a. apply String.eqb_refl.
  - intros a b H. bool_prop. by apply String.eqb_eq.
  - intros a b c H1 H2. bool_prop. apply String.eqb_eq. congruence.
Qed.

(** * Intervals *)

From Stdlib Require Import ZArith Lia Ascii String.
From stdpp Require Import base gmap list strings sorting.
From S2P Require Import Prelude GoStr GoFmt Topology TopologyIntervals TopologyRoots.

Local Open Scope string_scope.
Local Open Scope Z_scope.

Notation K := edgeSortKey (only parsing).

(** ** The store *)

(** An open interval that is not in the future of [at_]. *)
Definition live (at_ : Z) (e : TopologyEdge) : Prop :=
  te_ValidTo e = None /\ 0 < te_ValidFrom e <= te_LastSeen e /\ te_LastSeen e <= at_.

Record active_set (at_ next : Z) (active : list TopologyEdge) : Prop := MkActiveSet {
  as_live : forall e, e ∈ active -> live at_ e;
  as_keys : NoDup (map K active);
  as_ids : NoDup (map te_ID active);
  as_numbered : forall e, e ∈ active -> 0 < te_ID e < next
}.

Definition stays (changes : IntervalChanges) (e : TopologyEdge) : bool :=
  negb (bool_decide (te_ID e ∈ ids (ic_Close changes))).
Definition updated (changes : IntervalChanges) (e : TopologyEdge) : TopologyEdge :=
  default e (List.find (fun u => te_ID u =? te_ID e) (ic_Upsert changes)).
Definition opened (changes : IntervalChanges) : list TopologyEdge :=
  List.filter (fun u => te_ID u =? 0) (ic_Upsert changes).
Definition numbered (next : Z) (i : nat) (e : TopologyEdge) : TopologyEdge :=
  with_interval e (next + Z.of_nat i) (te_ValidFrom e) (te_ValidTo e) (te_LastSeen e).

Definition store_apply (next : Z) (active : list TopologyEdge) (changes : IntervalChanges) : list TopologyEdge :=
  (map (updated changes) (List.filter (stays changes) active) ++ imap (numbered next) (opened changes))%list.

(** ** Shared facts *)

Lemma elem_of_list_filter {A} (f : A -> bool) l x : x ∈ List.filter f l <-> f x = true /\ x ∈ l.
Proof. rewrite !list_elem_of_In, List.filter_In. tauto. Qed.

Lemma sort_edges_perm l : Permutation (sort_edges l) l.
Proof. apply merge_sort_Permutation. Qed.
Lemma elem_of_sort_edges l e : e ∈ sort_edges l <-> e ∈ l.
Proof. by rewrite sort_edges_perm. Qed.

Lemma elem_of_ids l i : i ∈ ids l <-> exists e, e ∈ l /\ te_ID e = i.
Proof.
  unfold ids. rewrite elem_of_list_to_set, list_elem_of_fmap. split; intros (e & ? & ?); eauto.
Qed.

Lemma NoDup_map_inj {A B} (f : A -> B) l x y : NoDup (map f l) -> x ∈ l -> y ∈ l -> f x = f y -> x = y.
Proof.
  induction l as [|z l IH]; intros Hn Hx Hy E; [by apply elem_of_nil in Hx|]. cbn [map] in Hn.
  apply NoDup_cons in Hn as [Hz Hn]. apply elem_of_cons in Hx as [->|Hx], Hy as [->|Hy]; auto.
  - destruct Hz. rewrite E. by apply list_elem_of_fmap_2.
  - destruct Hz. rewrite <- E. by apply list_elem_of_fmap_2.
Qed.

Lemma by_key_lookup l m k e : NoDup (map K l) ->
  by_key l m !! k = Some e <-> (e ∈ l /\ K e = k) \/ (k ∉ map K l /\ m !! k = Some e).
Proof.
  revert m. induction l as [|x l IH]; intros m Hn.
  - split; [intros ?; right; split; [apply not_elem_of_nil|done]|].
    intros [[Hx _]|[_ ?]]; [by apply elem_of_nil in Hx|done].
  - cbn [map] in Hn. apply NoDup_cons in Hn as [Hx Hn]. change (by_key (x :: l) m) with (by_key l (<[K x := x]> m)).
    rewrite IH by done. cbn [map]. rewrite elem_of_cons, not_elem_of_cons. split.
    + intros [[He Hk]|[Hk Hm]]; [left; auto|]. destruct (decide (K x = k)) as [Ex|Ex].
      * subst k. rewrite lookup_insert_eq in Hm. left. split; [left|]; congruence.
      * rewrite lookup_insert_ne in Hm by done. right. auto.
    + intros [[[->|He] Hk]|[[Hk1 Hk2] Hm]].
      * right. subst k. split; [done|]. by rewrite lookup_insert_eq.
      * left. auto.
      * right. split; [done|]. by rewrite lookup_insert_ne.
Qed.

Lemma NoDup_filter_list {A} (f : A -> bool) l : NoDup l -> NoDup (List.filter f l).
Proof.
  induction 1 as [|x l Hx Hn IH]; cbn [List.filter]; [constructor|]. destruct (f x); [|done].
  apply NoDup_cons. split; [|done]. rewrite elem_of_list_filter. tauto.
Qed.

Lemma NoDup_map_sub {A B} (f : A -> B) l l' : NoDup (map f l') -> NoDup l -> (forall x, x ∈ l -> x ∈ l') ->
  NoDup (map f l).
Proof.
  intros Hl'. induction 1 as [|x l Hx Hn IH]; intros Hs; [constructor|]. cbn [map]. apply NoDup_cons. split.
  - intros (y & E & Hy)%list_elem_of_fmap. apply Hx. assert (x = y) as ->; [|done].
    apply (NoDup_map_inj f l'); [done| | |done]; apply Hs; [left|by right].
  - apply IH. intros y Hy. apply Hs. by right.
Qed.

Lemma try_fold_app {E S A} (f : S -> A -> res E S) l l' s :
  try_fold f (l ++ l') s = match try_fold f l s with Ok s' => try_fold f l' s' | Err e => Err e end.
Proof. revert s. induction l as [|a l IH]; intros s; [done|]. cbn [app try_fold]. destruct (f s a); [apply IH|done]. Qed.

(** ** One observation against the active intervals *)

Lemma index_active_ok at_ l m m' : try_fold (index_active at_) l m = Ok m' ->
  m' = by_key l m /\ (forall e, e ∈ l -> live at_ e) /\ NoDup (map K l) /\ (forall e, e ∈ l -> m !! K e = None).
Proof.
  revert m. induction l as [|x l IH]; intros m H; cbn [try_fold] in H.
  - simplify_eq. split_and!; [done|set_solver|constructor|set_solver].
  - unfold index_active in H at 1. destruct (te_ValidTo x) eqn:Ev; [done|].
    destruct (_ || _) eqn:El; [done|]. destruct (m !! K x) eqn:Em; [done|].
    destruct (IH _ H) as (-> & H1 & H2 & H3). bool_prop. split_and!; [done| | |].
    + intros e He. apply elem_of_cons in He as [->|He]; [|auto]. unfold live. split_and!; [done|lia..].
    + cbn [map]. apply NoDup_cons. split; [|done]. intros (e & Ek & He)%list_elem_of_fmap.
      specialize (H3 e He). rewrite <- Ek, lookup_insert_eq in H3. done.
    + intros e He. apply elem_of_cons in He as [->|He]; [done|]. specialize (H3 e He).
      destruct (decide (K x = K e)) as [E|E]; [by rewrite E, lookup_insert_eq in H3|by rewrite lookup_insert_ne in H3].
Qed.

Lemma add_observed_ok at_ byKey l seen c r : try_fold (add_observed at_ byKey) l (seen, c) = Ok r ->
  NoDup (map K l) /\ (forall e, e ∈ l -> K e ∉ seen) /\
  ic_Upsert (snd r) = (ic_Upsert c ++ map (fun o => fst (reconcile_edge at_ byKey o)) l)%list /\
  ic_Close (snd r) = (ic_Close c ++ concat (map (fun o => snd (reconcile_edge at_ byKey o)) l))%list.
Proof.
  revert seen c. induction l as [|x l IH]; intros seen c H; cbn [try_fold] in H.
  - simplify_eq. cbn [map concat]. rewrite !app_nil_r. split_and!; [constructor|set_solver|done|done].
  - unfold add_observed in H at 1. cbn [fst snd] in H. destruct (bool_decide _) eqn:Es; [done|].
    destruct (reconcile_edge at_ byKey x) as [row ended] eqn:Er.
    destruct (IH _ _ H) as (H1 & H2 & H3 & H4). bool_prop. cbn [map concat ic_Upsert ic_Close] in *.
    rewrite H3, H4, Er, <- !app_assoc. split_and!; [|..|done|done].
    + apply NoDup_cons. split; [|done]. intros (e & Ek & He)%list_elem_of_fmap. specialize (H2 e He). set_solver.
    + intros e He. apply elem_of_cons in He as [->|He]; [done|]. specialize (H2 e He). set_solver.
Qed.

Lemma reconcile_edge_key at_ byKey o : K (fst (reconcile_edge at_ byKey o)) = K o.
Proof.
  unfold reconcile_edge. destruct (byKey !! _) as [p|]; [|done]. by destruct (sameTopologySemantics _ _).
Qed.

Lemma ReconcileIntervals_ok active observed at_ c : ReconcileIntervals active observed at_ false = Ok c ->
  let byKey := by_key active ∅ in
  0 < at_ /\ (forall e, e ∈ active -> live at_ e) /\ NoDup (map K active) /\ NoDup (map K observed) /\
  Permutation (ic_Upsert c) (map (fun o => fst (reconcile_edge at_ byKey o)) observed) /\
  Permutation (ic_Close c) (concat (map (fun o => snd (reconcile_edge at_ byKey o)) observed)).
Proof.
  unfold ReconcileIntervals. intros H. destruct (_ <=? 0) eqn:E0; [done|].
  destruct (try_fold (index_active at_) active ∅) as [m|] eqn:Ea; [|done].
  apply index_active_ok in Ea as (-> & Hl & Hk & _).
  destruct (try_fold (add_observed _ _) observed _) as [[seen c']|] eqn:Eo; [|done].
  apply add_observed_ok in Eo as (Hn & _ & Hu & Hc). cbn [snd ic_Upsert ic_Close app] in *. simplify_eq.
  bool_prop. split_and!; [done..| |]; cbn [ic_Upsert ic_Close]; rewrite sort_edges_perm.
  - by rewrite Hu.
  - by rewrite app_nil_r, Hc.
Qed.

(** ** Drafts

    The changes before the graph is checked as a whole. *)

(** The row [u] continues the active row [a]. *)
Definition continues (a u : TopologyEdge) : Prop :=
  te_ID u = te_ID a /\ K u = K a /\ te_ValidFrom u = te_ValidFrom a /\ sameTopologySemantics a u = true.

Record draft (at_ : Z) (active : list TopologyEdge) (c : IntervalChanges) : Prop := MkDraft {
  dr_keys : NoDup (map K (ic_Upsert c));
  dr_seen : forall u, u ∈ ic_Upsert c -> live at_ u /\ te_LastSeen u = at_;
  dr_rows : forall u, u ∈ ic_Upsert c ->
    (te_ID u = 0 /\ forall a, a ∈ active -> K a = K u -> te_ID a ∈ ids (ic_Close c)) \/
    (exists a, a ∈ active /\ continues a u /\ te_ID a ∉ ids (ic_Close c));
  dr_close : forall e, e ∈ ic_Close c -> exists a, a ∈ active /\ e = closed_at at_ a;
  dr_close_ids : NoDup (map te_ID (ic_Close c))
}.

(** The observed edges: fresh, and seen now or before. *)
Definition observation (at_ : Z) (o : TopologyEdge) : Prop := te_ID o = 0 /\ 0 <= te_ValidFrom o <= at_.

Lemma retain_key m states o : K (retain_semantics m states o) = K o.
Proof. unfold retain_semantics. destruct (m !! _); [|done]. by destruct (edgeSemanticSourcesAnswered _ _). Qed.

Lemma retain_observation at_ m states o : observation at_ o -> observation at_ (retain_semantics m states o).
Proof. unfold retain_semantics. destruct (m !! _); [|done]. by destruct (edgeSemanticSourcesAnswered _ _). Qed.

Section Draft.
Context (at_ : Z) (active observed : list TopologyEdge) (states : source_table).
Context (Hat : 0 < at_) (Hlive : forall e, e ∈ active -> live at_ e) (Hkeys : NoDup (map K active)).
Context (Hids : NoDup (map te_ID active)) (Hpos : forall e, e ∈ active -> 0 < te_ID e).
Context (Hobs : forall o, o ∈ observed -> observation at_ o) (Hok : NoDup (map K observed)).

Let byKey := by_key active ∅.
Let row (o : TopologyEdge) := fst (reconcile_edge at_ byKey o).
Let ended (o : TopologyEdge) := snd (reconcile_edge at_ byKey o).

Lemma byKey_spec k e : byKey !! k = Some e <-> e ∈ active /\ K e = k.
Proof.
  unfold byKey. rewrite by_key_lookup by done. rewrite lookup_empty. naive_solver.
Qed.

(** How an observed edge meets the active rows. *)
Lemma row_cases o : o ∈ observed ->
  (exists a, a ∈ active /\ continues a (row o) /\ ended o = [] /\ K a = K o) \/
  (exists a, a ∈ active /\ te_ID (row o) = 0 /\ ended o = [closed_at at_ a] /\ K a = K o) \/
  ((forall a, a ∈ active -> K a <> K o) /\ te_ID (row o) = 0 /\ ended o = []).
Proof.
  intros Ho. destruct (Hobs o Ho) as [Hid _]. unfold row, ended, reconcile_edge.
  destruct (byKey !! K o) as [a|] eqn:E.
  - apply byKey_spec in E as [Ha Hk]. destruct (sameTopologySemantics a o) eqn:Es.
    + left. exists a. split_and!; [done| |done|done]. unfold continues. split_and!; [done|by rewrite Hk| |done].
      cbn [fst te_ValidFrom with_interval]. destruct (Hlive a Ha) as (_ & ? & _).
      by rewrite (proj2 (Z.eqb_neq _ 0)) by lia.
    + right. left. exists a. repeat split; assumption.
  - right. right. split_and!; [|done..]. intros a Ha Hk.
    assert (byKey !! K o = Some a) by (by apply byKey_spec). congruence.
Qed.

Lemma row_seen o : o ∈ observed -> live at_ (row o) /\ te_LastSeen (row o) = at_.
Proof.
  intros Ho. split; [|unfold row, reconcile_edge; destruct (byKey !! _); [|done];
    by destruct (sameTopologySemantics _ _)].
  unfold row, reconcile_edge, live. destruct (Hobs o Ho) as [_ Hf].
  destruct (byKey !! K o) as [a|] eqn:E.
  - apply byKey_spec in E as [Ha _]. destruct (Hlive a Ha) as (_ & ? & ?).
    destruct (sameTopologySemantics a o); cbn [fst te_ValidTo te_ValidFrom te_LastSeen with_interval].
    + rewrite (proj2 (Z.eqb_neq _ 0)) by lia. split; [done|lia].
    + rewrite (proj2 (Z.eqb_neq _ 0)) by lia. split; [done|lia].
  - cbn [fst te_ValidTo te_ValidFrom te_LastSeen with_interval]. split; [done|].
    destruct (te_ValidFrom o =? 0) eqn:E0; bool_prop; lia.
Qed.

(** The rows of edges that were not observed and whose sources answered. *)
Let gone := List.filter (fun e => negb (bool_decide (K e ∈ (list_to_set (map K observed) : gset string))) &&
                                  edgeSourcesAnswered e states) active.

Lemma gone_spec a : a ∈ gone <-> a ∈ active /\ K a ∉ map K observed /\ edgeSourcesAnswered a states = true.
Proof.
  unfold gone. rewrite elem_of_list_filter, andb_true_iff, negb_true_iff, bool_decide_eq_false, elem_of_list_to_set.
  tauto.
Qed.

(** The active rows the draft closes. *)
Let replaced (o : TopologyEdge) : list TopologyEdge :=
  match byKey !! K o with
  | Some a => if sameTopologySemantics a o then [] else [a]
  | None => []
  end.
Let closing := (flat_map replaced observed ++ gone)%list.

Lemma ended_replaced o : ended o = map (closed_at at_) (replaced o).
Proof.
  unfold ended, replaced, reconcile_edge. destruct (byKey !! _); [|done]. by destruct (sameTopologySemantics _ _).
Qed.

Lemma replaced_spec o a : a ∈ replaced o <-> a ∈ active /\ K a = K o /\ sameTopologySemantics a o = false.
Proof.
  unfold replaced. destruct (byKey !! K o) as [b|] eqn:E.
  - apply byKey_spec in E as [Hb Hk]. destruct (sameTopologySemantics b o) eqn:Es.
    + rewrite elem_of_nil. split; [intros []|]. intros (Ha & Hka & Hs).
      assert (a = b) by (apply (NoDup_map_inj K active); [done..|congruence]). congruence.
    + rewrite list_elem_of_singleton. split; [intros ->; repeat split; assumption|]. intros (Ha & Hka & _).
      apply (NoDup_map_inj K active); [done..|congruence].
  - rewrite elem_of_nil. split; [intros []|]. intros (Ha & Hk & _).
    assert (byKey !! K o = Some a) by (by apply byKey_spec). congruence.
Qed.

Lemma closing_spec a : a ∈ closing <-> a ∈ active /\
  ((exists o, o ∈ observed /\ K a = K o /\ sameTopologySemantics a o = false) \/
   (K a ∉ map K observed /\ edgeSourcesAnswered a states = true)).
Proof.
  unfold closing. rewrite elem_of_app, elem_of_flat_map, gone_spec. split.
  - intros [(o & Ho & (Ha & ? & ?)%replaced_spec)|(? & ? & ?)]; split; eauto 6.
  - intros [Ha [(o & Ho & ? & ?)|[? ?]]]; [left|right; auto]. exists o. split; [exact Ho|]. apply replaced_spec. repeat split; assumption.
Qed.

Lemma closing_nodup : NoDup closing.
Proof.
  unfold closing. apply NoDup_app. split_and!.
  - apply NoDup_flat_map; [by eapply NoDup_fmap_1| |].
    + intros o _. unfold replaced. destruct (byKey !! _); [|constructor].
      destruct (sameTopologySemantics _ _); [constructor|apply NoDup_singleton].
    + intros o o' a Ho Ho' (_ & E & _)%replaced_spec (_ & E' & _)%replaced_spec.
      apply (NoDup_map_inj K observed); [done..|congruence].
  - intros a (o & Ho & (Ha & Hk & _)%replaced_spec)%elem_of_flat_map (_ & Hn & _)%gone_spec.
    apply Hn. rewrite Hk. by apply list_elem_of_fmap_2.
  - apply NoDup_filter_list. by eapply NoDup_fmap_1.
Qed.
(** The active rows the draft closes, by their ids. *)
Lemma draft_closed_ids c a : Permutation (ic_Close c) (map (closed_at at_) closing) -> a ∈ active ->
  te_ID a ∈ ids (ic_Close c) <-> a ∈ closing.
Proof.
  intros Hc Ha. rewrite elem_of_ids. setoid_rewrite Hc. split.
  - intros (e & (b & -> & Hb)%list_elem_of_fmap & E). assert (a = b) as ->; [|exact Hb].
    apply (NoDup_map_inj te_ID active); [exact Hids|exact Ha| |symmetry; exact E]. by apply closing_spec in Hb as [? _].
  - intros Hcl. exists (closed_at at_ a). split; [by apply list_elem_of_fmap_2|reflexivity].
Qed.

Lemma draft_changes c : Permutation (ic_Upsert c) (map row observed) ->
  Permutation (ic_Close c) (map (closed_at at_) closing) -> draft at_ active c.
Proof.
  intros Hu Hc. pose proof (fun a => draft_closed_ids c a Hc) as Hids'.
  constructor.
  - rewrite Hu, map_map. erewrite map_ext; [exact Hok|]. intros o. apply reconcile_edge_key.
  - intros u Hin. rewrite Hu in Hin. apply list_elem_of_fmap in Hin as (o & -> & Ho). by apply row_seen.
  - intros u Hin. rewrite Hu in Hin. apply list_elem_of_fmap in Hin as (o & -> & Ho).
    pose proof (reconcile_edge_key at_ byKey o : K (row o) = K o) as Hk.
    destruct (row_cases o Ho) as [(a & Ha & Hc' & E & Ek)|[(a & Ha & Hid & E & Ek)|(Hno & Hid & E)]].
    + right. exists a. split_and!; [exact Ha|exact Hc'|]. rewrite Hids' by exact Ha. intros [_ Hcl]%closing_spec.
      destruct Hcl as [(o' & Ho' & Ek' & Hs)|[Hn _]].
      * assert (o' = o) as -> by (apply (NoDup_map_inj K observed); [done..|congruence]).
        assert (Hr : a ∈ replaced o) by (apply replaced_spec; repeat split; assumption).
        rewrite ended_replaced in E. destruct (replaced o); [by apply elem_of_nil in Hr|discriminate].
      * apply Hn. rewrite Ek. by apply list_elem_of_fmap_2.
    + left. split; [exact Hid|]. intros b Hb Ekb.
      assert (b = a) as -> by (apply (NoDup_map_inj K active); [done..|congruence]).
      rewrite Hids' by exact Ha. apply closing_spec. split; [exact Ha|]. left. exists o.
      split_and!; [exact Ho|exact Ek|]. rewrite ended_replaced in E.
      destruct (sameTopologySemantics a o) eqn:Es; [|reflexivity]. exfalso.
      destruct (replaced o) as [|x l] eqn:Er; [discriminate|].
      assert (Hx : x ∈ replaced o) by (rewrite Er; left). apply replaced_spec in Hx as (Hx & Ekx & Hsx).
      assert (x = a) as -> by (apply (NoDup_map_inj K active); [done..|congruence]). congruence.
    + left. split; [exact Hid|]. intros b Hb Ekb. exfalso. apply (Hno b Hb). congruence.
  - intros e Hin. rewrite Hc in Hin. apply list_elem_of_fmap in Hin as (a & -> & Ha). exists a.
    split; [by apply closing_spec in Ha as [? _]|reflexivity].
  - rewrite Hc, map_map. apply (NoDup_map_sub _ _ active); [exact Hids|apply closing_nodup|].
    intros a Ha. by apply closing_spec in Ha as [? _].
Qed.

Lemma draft_of_reconciled c : ReconcileIntervals active observed at_ false = Ok c ->
  let c' := MkChanges (ic_Upsert c) (sort_edges (ic_Close c ++ map (closed_at at_) gone)) in
  draft at_ active c' /\
  forall a, a ∈ active -> te_ID a ∈ ids (ic_Close c') <->
    (exists o, o ∈ observed /\ K a = K o /\ sameTopologySemantics a o = false) \/
    (K a ∉ map K observed /\ edgeSourcesAnswered a states = true).
Proof.
  intros (_ & _ & _ & _ & Hu & Hc)%ReconcileIntervals_ok c'.
  assert (Hperm : Permutation (ic_Close c') (map (closed_at at_) closing)).
  { cbn [ic_Close c']. rewrite sort_edges_perm, Hc. unfold closing. rewrite map_app. apply Permutation_app; [|reflexivity].
    rewrite flat_map_concat_map, concat_map, map_map. erewrite (map_ext _ ended) by (intros o; reflexivity).
    erewrite map_ext; [reflexivity|]. intros o. apply ended_replaced. }
  split; [by apply draft_changes|]. intros a Ha. rewrite (draft_closed_ids c' a) by done.
  rewrite closing_spec. tauto.
Qed.
End Draft.

(** ** The graph the changes lead to *)

Lemma recompete_key G e : K (recompete G e) = K e.
Proof. unfold recompete. destruct (bool_decide _); [done|]. by destruct (existsb _ _). Qed.
Lemma recompete_same G e : let r := recompete G e in
  te_ID r = te_ID e /\ te_ChildNode r = te_ChildNode e /\ te_ParentNode r = te_ParentNode e /\
  te_ParentPort r = te_ParentPort e /\ te_Evidence r = te_Evidence e /\
  te_ValidFrom r = te_ValidFrom e /\ te_ValidTo r = te_ValidTo e /\ te_LastSeen r = te_LastSeen e.
Proof. unfold recompete. destruct (bool_decide _); [done|]. by destruct (existsb _ _). Qed.

Section Fleet.
Context (at_ : Z) (active : list TopologyEdge) (c : IntervalChanges).
Context (Hlive : forall e, e ∈ active -> live at_ e) (Hkeys : NoDup (map K active)).
Context (Hids : NoDup (map te_ID active)) (Hpos : forall e, e ∈ active -> 0 < te_ID e).
Context (Hd : draft at_ active c).

Definition fleet_future : gmap string TopologyEdge := future_edges active c.
Definition fleet_dropped : gset string := fleet_contradicted (map snd (map_to_list fleet_future)).
Definition fleet_kept : gmap string TopologyEdge := filter (fun kv => kv.1 ∉ fleet_dropped) fleet_future.
Definition fleet_graph : gmap string TopologyEdge := recompete fleet_kept <$> fleet_kept.
Definition fleet_closes : list TopologyEdge :=
  close_contradicted at_ fleet_dropped (ids (ic_Close c)) fleet_future.
Definition fleet_closed : gset Z := ids fleet_closes ∪ ids (ic_Close c).
Definition fleet_prior : gmap string TopologyEdge := by_key active ∅.
Definition fleet_row (kv : string * TopologyEdge) : list TopologyEdge * list TopologyEdge :=
  settle_edge at_ fleet_prior (list_to_set (map K (ic_Upsert c))) fleet_closed kv.
Definition fleet_changes : IntervalChanges := reconcileFleetCompetingParents active c at_.

Lemma fleet_upsert_spec u : u ∈ ic_Upsert fleet_changes <->
  exists k f, fleet_graph !! k = Some f /\ u ∈ fst (fleet_row (k, f)).
Proof.
  unfold fleet_changes, reconcileFleetCompetingParents. cbn [ic_Upsert]. rewrite elem_of_sort_edges, list_elem_of_In, in_concat.
  split.
  - intros (l & Hl & Hu). rewrite map_map, in_map_iff in Hl. destruct Hl as ([k f] & <- & Hkf).
    exists k, f. split; [apply elem_of_map_to_list; by apply list_elem_of_In|by apply list_elem_of_In].
  - intros (k & f & Hkf & Hu). exists (fst (fleet_row (k, f))). split; [|by apply list_elem_of_In].
    rewrite map_map. apply in_map_iff. exists (k, f). split; [reflexivity|]. apply list_elem_of_In.
    by apply elem_of_map_to_list.
Qed.

Lemma fleet_close_spec e : e ∈ ic_Close fleet_changes <->
  e ∈ ic_Close c \/ e ∈ fleet_closes \/ exists k f, fleet_graph !! k = Some f /\ e ∈ snd (fleet_row (k, f)).
Proof.
  unfold fleet_changes, reconcileFleetCompetingParents. cbn [ic_Close].
  rewrite elem_of_sort_edges, !elem_of_app. do 2 apply or_iff_compat_l. rewrite list_elem_of_In, in_concat. split.
  - intros (l & Hl & Hu). rewrite map_map, in_map_iff in Hl. destruct Hl as ([k f] & <- & Hkf).
    exists k, f. split; [apply elem_of_map_to_list; by apply list_elem_of_In|by apply list_elem_of_In].
  - intros (k & f & Hkf & Hu). exists (snd (fleet_row (k, f))). split; [|by apply list_elem_of_In].
    rewrite map_map. apply in_map_iff. exists (k, f). split; [reflexivity|]. apply list_elem_of_In.
    by apply elem_of_map_to_list.
Qed.

Lemma prior_spec k e : fleet_prior !! k = Some e <-> e ∈ active /\ K e = k.
Proof.
  unfold fleet_prior. rewrite by_key_lookup by exact Hkeys. rewrite lookup_empty. naive_solver.
Qed.

(** The future graph: the rows of the draft over the active rows it leaves. *)
Lemma future_spec k e : fleet_future !! k = Some e <->
  K e = k /\ (e ∈ ic_Upsert c \/
    (k ∉ map K (ic_Upsert c) /\ e ∈ active /\ te_ID e ∉ ids (ic_Close c))).
Proof.
  unfold fleet_future, future_edges. destruct Hd as [Hu _ _ _ _]. rewrite by_key_lookup by exact Hu.
  rewrite by_key_lookup.
  - rewrite elem_of_list_filter, negb_true_iff, bool_decide_eq_false, lookup_empty. naive_solver.
  - apply (NoDup_map_sub _ _ active); [exact Hkeys|apply NoDup_filter_list; by eapply NoDup_fmap_1|].
    intros x Hx. by apply elem_of_list_filter in Hx as [_ ?].
Qed.

Lemma kept_spec k e : fleet_kept !! k = Some e <-> fleet_future !! k = Some e /\ k ∉ fleet_dropped.
Proof. unfold fleet_kept. rewrite map_lookup_filter_Some. done. Qed.

Lemma graph_spec k f : fleet_graph !! k = Some f <-> exists e, fleet_kept !! k = Some e /\ f = recompete fleet_kept e.
Proof. unfold fleet_graph. rewrite lookup_fmap_Some. split; intros (e & ? & ?); eauto. Qed.

Lemma graph_key k f : fleet_graph !! k = Some f -> K f = k.
Proof.
  intros (e & [[He _]%future_spec _]%kept_spec & ->)%graph_spec. by rewrite recompete_key.
Qed.

(** What the future edge at a key is to the active row there. *)
Lemma future_cases k e : fleet_future !! k = Some e ->
  (te_ID e = 0 /\ e ∈ ic_Upsert c /\ forall a, a ∈ active -> K a = k -> te_ID a ∈ ids (ic_Close c)) \/
  (exists a, a ∈ active /\ K a = k /\ te_ID a ∉ ids (ic_Close c) /\ continues a e /\
     (e ∈ ic_Upsert c \/ (e = a /\ k ∉ map K (ic_Upsert c)))).
Proof.
  intros [Hk [Hu|(Hn & Ha & Hc)]]%future_spec.
  - destruct (dr_rows _ _ _ Hd e Hu) as [[Hid Hall]|(a & Ha & Hcont & Hnc)]; [left|right].
    + split_and!; [exact Hid|exact Hu|]. intros a Ha Hka. apply Hall; [exact Ha|congruence].
    + exists a. split_and!; [exact Ha| |exact Hnc|exact Hcont|left; exact Hu].
      destruct Hcont as (_ & E & _). congruence.
  - right. exists e. split_and!; [exact Ha|exact Hk|exact Hc| |right; split; [reflexivity|exact Hn]].
    split_and!; [reflexivity..|apply String.eqb_refl].
Qed.

Lemma closes_spec e : e ∈ fleet_closes <-> exists k a, fleet_future !! k = Some a /\ k ∈ fleet_dropped /\
  te_ID a <> 0 /\ te_ID a ∉ ids (ic_Close c) /\ e = closed_at at_ a.
Proof.
  unfold fleet_closes, close_contradicted. rewrite elem_of_flat_map. split.
  - intros ([k a] & Hka & He). destruct (_ && _) eqn:E; [|by apply elem_of_nil in He].
    apply list_elem_of_singleton in He as ->. bool_prop. exists k, a.
    split_and!; [by apply elem_of_map_to_list|done..].
  - intros (k & a & Hka & Hk & Hid & Hn & ->). exists (k, a). split; [by apply elem_of_map_to_list|].
    rewrite (bool_decide_eq_true_2 _ Hk), (bool_decide_eq_false_2 _ Hn), (proj2 (Z.eqb_neq _ 0)) by exact Hid.
    left.
Qed.

(** An active row is determined by its key and by its id. *)
Lemma same_key a b : a ∈ active -> b ∈ active -> K a = K b -> a = b.
Proof. intros Ha Hb. by apply (NoDup_map_inj K active). Qed.
Lemma same_id a b : a ∈ active -> b ∈ active -> te_ID a = te_ID b -> a = b.
Proof. intros Ha Hb. by apply (NoDup_map_inj te_ID active). Qed.

Lemma closed_spec a : a ∈ active -> te_ID a ∈ fleet_closed <->
  te_ID a ∈ ids (ic_Close c) \/ (K a ∈ fleet_dropped /\ is_Some (fleet_future !! K a) /\ te_ID a ∉ ids (ic_Close c)).
Proof.
  intros Ha. unfold fleet_closed. rewrite elem_of_union, (elem_of_ids fleet_closes). split.
  - intros [(e & (k & b & Hkb & Hk & Hid & Hn & ->)%closes_spec & Ei)|H]; [|by left]. right.
    cbn [closed_at with_interval te_ID] in Ei.
    destruct (future_cases k b Hkb) as [(E & _)|(a' & Ha' & Hka & Hn' & (Ei' & _) & _)]; [congruence|].
    assert (a' = a) as -> by (apply same_id; [done..|congruence]). rewrite Hka. split_and!; [done|by exists b|done].
  - intros [H|(Hk & [b Hb] & Hn)]; [by right|]. left.
    destruct (future_cases _ b Hb) as [(_ & _ & Hall)|(a' & Ha' & Hka & Hn' & (Ei & _) & _)].
    { destruct Hn. by apply Hall. }
    assert (a' = a) as -> by (by apply same_key). exists (closed_at at_ b). split; [|exact Ei].
    apply closes_spec. exists (K a), b. pose proof (Hpos a Ha). split_and!; [done|done|lia|congruence|done].
Qed.

(** What becomes of the edge at a key of the graph. *)
Inductive fate (k : string) (f : TopologyEdge) : Prop :=
| fate_opened : te_ID f = 0 -> f ∈ fst (fleet_row (k, f)) -> (forall u, u ∈ fst (fleet_row (k, f)) -> u = f) ->
    snd (fleet_row (k, f)) = [] -> live at_ f ->
    (forall a, a ∈ active -> K a = k -> te_ID a ∈ ids (ic_Close fleet_changes)) -> fate k f
| fate_split a : a ∈ active -> K a = k -> te_ID a ∉ fleet_closed -> sameTopologySemantics a f = false ->
    fleet_row (k, f) = ([with_interval f 0 at_ None at_], [closed_at at_ a]) -> fate k f
| fate_continued a : a ∈ active -> K a = k -> te_ID a ∉ fleet_closed -> continues a f -> f ∈ fst (fleet_row (k, f)) ->
    (forall u, u ∈ fst (fleet_row (k, f)) -> u = f) -> snd (fleet_row (k, f)) = [] -> live at_ f -> fate k f
| fate_untouched a : a ∈ active -> K a = k -> te_ID a ∉ fleet_closed -> f = recompete fleet_kept a ->
    sameTopologySemantics a f = true -> fleet_row (k, f) = ([], []) -> fate k f.

Lemma graph_fate k f : fleet_graph !! k = Some f -> fate k f.
Proof.
  intros (e & [He Hk]%kept_spec & ->)%graph_spec. destruct (recompete_same fleet_kept e) as (Hid & _ & _ & _ & _ & Hfrom & Hto & Hseen).
  assert (Hlv : e ∈ ic_Upsert c -> live at_ (recompete fleet_kept e)).
  { intros Hu. destruct (dr_seen _ _ _ Hd e Hu) as [Hl _]. unfold live in *. by rewrite Hfrom, Hto, Hseen. }
  destruct (future_cases k e He) as [(E & Hu & Hall)|(a & Ha & Hka & Hn & Hcont & Hor)].
  - assert (Hrow : fleet_row (k, recompete fleet_kept e) = ([recompete fleet_kept e], [])).
    { unfold fleet_row, settle_edge. destruct (fleet_prior !! k) as [old|] eqn:Ep; [|done].
      apply prior_spec in Ep as [Ho Hko]. rewrite (bool_decide_eq_true_2 (te_ID old ∈ fleet_closed)).
      - simpl. rewrite bool_decide_eq_true_2; [done|]. apply elem_of_list_to_set.
        apply future_spec in He as [<- _]. by apply list_elem_of_fmap_2.
      - unfold fleet_closed. apply elem_of_union_r. by apply Hall. }
    apply fate_opened; rewrite ?Hrow; [congruence|left| |done|by apply Hlv|].
    + intros u Hu'. by apply list_elem_of_singleton in Hu'.
    + intros a Ha Hka. specialize (Hall a Ha Hka). apply elem_of_ids in Hall as (x & Hx & Ex). apply elem_of_ids.
      exists x. split; [|done]. apply fleet_close_spec. by left.
  - assert (Hnc : te_ID a ∉ fleet_closed).
    { rewrite closed_spec by exact Ha. intros [?|(Hd' & _)]; [done|]. by rewrite Hka in Hd'. }
    assert (Hp : fleet_prior !! k = Some a) by (by apply prior_spec).
    destruct (sameTopologySemantics a (recompete fleet_kept e)) eqn:Es.
    + assert (Hrow : fleet_row (k, recompete fleet_kept e) =
                (if bool_decide (k ∈ (list_to_set (map K (ic_Upsert c)) : gset string))
                 then [recompete fleet_kept e] else [], [])).
      { unfold fleet_row, settle_edge. rewrite Hp, (bool_decide_eq_false_2 _ Hnc), Es. done. }
      destruct Hor as [Hu|[-> Hnk]].
      * rewrite bool_decide_eq_true_2 in Hrow.
        2: { apply elem_of_list_to_set. apply future_spec in He as [<- _]. by apply list_elem_of_fmap_2. }
        apply (fate_continued k _ a); rewrite ?Hrow; [done|done|done| |left| |done|by apply Hlv].
        -- destruct Hcont as (H1 & H2 & H3 & _). split_and!; [congruence|by rewrite recompete_key|congruence|done].
        -- intros u Hu'. by apply list_elem_of_singleton in Hu'.
      * rewrite bool_decide_eq_false_2 in Hrow by (by rewrite elem_of_list_to_set).
        by apply (fate_untouched k _ a).
    + apply (fate_split k _ a); [done..|]. unfold fleet_row, settle_edge.
      by rewrite Hp, (bool_decide_eq_false_2 _ Hnc), Es.
Qed.

(** ** Closed rows *)

(** The closed row [e] of [a]: the same interval with an end. *)
Definition ends (a e : TopologyEdge) : Prop := continues a e /\ te_ValidTo e = Some at_.

Lemma continues_refl a : continues a a.
Proof. split_and!; [reflexivity..|apply String.eqb_refl]. Qed.
Lemma ends_closed a b : continues a b -> ends a (closed_at at_ b).
Proof. intros (H1 & H2 & H3 & H4). split; [|reflexivity]. split_and!; [exact H1|exact H2|exact H3|exact H4]. Qed.

(** Whose row is closed, and that it is. *)
Lemma changes_closed a : a ∈ active -> te_ID a ∈ ids (ic_Close fleet_changes) <->
  te_ID a ∈ fleet_closed \/
  (te_ID a ∉ fleet_closed /\ exists f, fleet_graph !! K a = Some f /\ sameTopologySemantics a f = false).
Proof.
  intros Ha. rewrite elem_of_ids. split.
  - intros (e & He & Ei). apply fleet_close_spec in He as [He|[He|(k & f & Hkf & He)]].
    + left. unfold fleet_closed. apply elem_of_union_r, elem_of_ids. eauto.
    + left. unfold fleet_closed. apply elem_of_union_l, elem_of_ids. eauto.
    + destruct (graph_fate k f Hkf) as [_ _ _ E|b Hb Hkb Hn Hs E|b Hb Hkb Hn _ _ _ E|b Hb Hkb Hn _ _ E];
        rewrite E in He; try by apply elem_of_nil in He.
      apply list_elem_of_singleton in He as ->. assert (a = b) as -> by (by apply same_id).
      right. split; [exact Hn|]. exists f. rewrite Hkb. by split.
  - intros [H|(Hn & f & Hf & Hs)].
    + unfold fleet_closed in H. apply elem_of_union in H as [H|H]; apply elem_of_ids in H as (e & He & Ei);
        exists e; (split; [|exact Ei]); apply fleet_close_spec; tauto.
    + destruct (graph_fate (K a) f Hf) as [E _ _ _ _ Hall|b Hb Hkb _ _ E|b Hb Hkb _ (_ & _ & _ & Hs') _ _ _|b Hb Hkb _ _ Hs' _].
      * specialize (Hall a Ha eq_refl). apply elem_of_ids in Hall as (e & He & Ei). exists e. by split.
      * assert (b = a) as -> by (by apply same_key). exists (closed_at at_ a). split; [|reflexivity].
        apply fleet_close_spec. right. right. exists (K a), f. split; [exact Hf|]. rewrite E. left.
      * assert (b = a) as -> by (by apply same_key). congruence.
      * assert (b = a) as -> by (by apply same_key). congruence.
Qed.

Lemma changes_close_origin e : e ∈ ic_Close fleet_changes -> exists a, a ∈ active /\ ends a e.
Proof.
  intros He. apply fleet_close_spec in He as [He|[He|(k & f & Hkf & He)]].
  - destruct (dr_close _ _ _ Hd e He) as (a & Ha & ->). exists a. split; [exact Ha|]. apply ends_closed, continues_refl.
  - apply closes_spec in He as (k & b & Hkb & _ & Hid & _ & ->).
    destruct (future_cases k b Hkb) as [(E & _)|(a & Ha & _ & _ & Hc & _)]; [done|]. exists a. split; [exact Ha|].
    by apply ends_closed.
  - destruct (graph_fate k f Hkf) as [_ _ _ E|b Hb Hkb Hn Hs E|b Hb Hkb Hn _ _ _ E|b Hb Hkb Hn _ _ E];
      rewrite E in He; try by apply elem_of_nil in He.
    apply list_elem_of_singleton in He as ->. exists b. split; [exact Hb|]. apply ends_closed, continues_refl.
Qed.

(** ** Written rows *)

Lemma upsert_fate u : u ∈ ic_Upsert fleet_changes -> exists f, fleet_graph !! K u = Some f /\
  ((te_ID u = 0 /\ u = f /\ live at_ u /\ forall a, a ∈ active -> K a = K u -> te_ID a ∈ ids (ic_Close fleet_changes)) \/
   (exists a, a ∈ active /\ K a = K u /\ te_ID u = 0 /\ u = with_interval f 0 at_ None at_ /\
      te_ID a ∈ ids (ic_Close fleet_changes)) \/
   (exists a, a ∈ active /\ u = f /\ continues a u /\ live at_ u /\ te_ID a ∉ ids (ic_Close fleet_changes))).
Proof.
  intros (k & f & Hkf & Hu)%fleet_upsert_spec. pose proof (graph_key k f Hkf) as Hk.
  destruct (graph_fate k f Hkf) as [E Hin Heq _ Hl Hall|a Ha Hka Hn Hs E|a Ha Hka Hn Hc Hin Heq _ Hl|a Ha Hka Hn _ Hs E].
  - specialize (Heq u Hu) as ->. exists f. rewrite Hk. split; [exact Hkf|]. left.
    split; [exact E|]. split; [reflexivity|]. split; [exact Hl|exact Hall].
  - rewrite E in Hu. apply list_elem_of_singleton in Hu as ->. exists f.
    change (K (with_interval f 0 at_ None at_)) with (K f). rewrite Hk. split; [exact Hkf|]. right. left.
    exists a. split_and!; [exact Ha|exact Hka|reflexivity..|]. apply changes_closed; [exact Ha|]. right.
    split; [exact Hn|]. exists f. by rewrite Hka.
  - specialize (Heq u Hu) as ->. exists f. rewrite Hk. split; [exact Hkf|]. right. right. exists a.
    split_and!; [exact Ha|reflexivity|exact Hc|exact Hl|]. rewrite changes_closed by exact Ha.
    intros [?|(_ & f' & Hf' & Hs')]; [done|]. rewrite Hka, Hkf in Hf'. injection Hf' as <-.
    destruct Hc as (_ & _ & _ & Hs). congruence.
  - rewrite E in Hu. by apply elem_of_nil in Hu.
Qed.

(** What is written is open and not in the future, or closed at this time. *)
Lemma upsert_live u : u ∈ ic_Upsert fleet_changes -> live at_ u.
Proof.
  intros Hu. destruct (upsert_fate u Hu) as (f & _ & [(_ & _ & Hl & _)|[(a & Ha & _ & _ & -> & _)|(a & _ & _ & _ & Hl & _)]]);
    [done| |done]. destruct (Hlive a Ha) as (_ & ? & ?). unfold live. cbn [with_interval te_ValidTo te_ValidFrom te_LastSeen].
  split; [reflexivity|lia].
Qed.
Lemma close_live e : e ∈ ic_Close fleet_changes -> exists b, live at_ b /\ e = closed_at at_ b.
Proof.
  intros [He|[(k & b & Hkb & _ & _ & _ & ->)%closes_spec|(k & f & Hkf & He)]]%fleet_close_spec.
  - destruct (dr_close _ _ _ Hd e He) as (a & Ha & ->). exists a. split; [by apply Hlive|done].
  - exists b. split; [|done]. apply future_spec in Hkb as [_ [Hu|(_ & Hb & _)]]; [by apply (dr_seen _ _ _ Hd)|by apply Hlive].
  - destruct (graph_fate k f Hkf) as [_ _ _ E|b Hb Hkb Hn Hs E|b Hb Hkb Hn _ _ _ E|b Hb Hkb Hn _ _ E];
      rewrite E in He; try by apply elem_of_nil in He.
    apply list_elem_of_singleton in He as ->. exists b. split; [by apply Hlive|done].
Qed.

(** An edge of the graph, and a row that shows it. *)
Definition shows (f r : TopologyEdge) : Prop :=
  te_ChildNode r = te_ChildNode f /\ te_ParentNode r = te_ParentNode f /\ te_ParentPort r = te_ParentPort f /\
  te_Medium r = te_Medium f /\ te_Evidence r = te_Evidence f /\ sameTopologySemantics r f = true.

Lemma shows_interval f id from to seen : shows f (with_interval f id from to seen).
Proof. split_and!; [reflexivity..|apply String.eqb_refl]. Qed.
Lemma shows_refl f : shows f f.
Proof. split_and!; [reflexivity..|apply String.eqb_refl]. Qed.

Lemma opened_spec i u next : opened fleet_changes !! i = Some u ->
  exists f, fleet_graph !! K u = Some f /\ shows f (numbered next i u) /\ live at_ (numbered next i u) /\
    (forall a, a ∈ active -> K a = K u -> te_ID a ∈ ids (ic_Close fleet_changes)).
Proof.
  intros Hu. apply list_elem_of_lookup_2, elem_of_list_filter in Hu as [E Hu]. bool_prop.
  destruct (upsert_fate u Hu) as (f & Hf & [(_ & -> & Hl & Hall)|[(a & Ha & Hka & _ & -> & Hc)|(a & Ha & _ & (Ei & _) & _)]]).
  - exists f. split_and!; [exact Hf|apply shows_interval|exact Hl|exact Hall].
  - exists f. split_and!; [exact Hf|split_and!; [reflexivity..|apply String.eqb_refl]| |].
    + unfold live. cbn [numbered with_interval te_ValidTo te_ValidFrom te_LastSeen]. 
      destruct (Hlive a Ha) as (_ & ? & ?). split; [reflexivity|lia].
    + intros b Hb Hkb. assert (b = a) as -> by (apply same_key; congruence). exact Hc.
  - specialize (Hpos a Ha). lia.
Qed.

Lemma updated_spec a : a ∈ active -> stays fleet_changes a = true ->
  exists f, fleet_graph !! K a = Some f /\ shows f (updated fleet_changes a) /\
    live at_ (updated fleet_changes a) /\ K (updated fleet_changes a) = K a /\ te_ID (updated fleet_changes a) = te_ID a /\
    continues a (updated fleet_changes a).
Proof.
  intros Ha Hst. unfold stays in Hst. bool_prop.
  assert (Hnc : te_ID a ∉ fleet_closed) by (intros H; destruct Hst; apply changes_closed; tauto).
  assert (Hf : exists f, fleet_graph !! K a = Some f).
  { assert (Hfut : is_Some (fleet_future !! K a)).
    { destruct (decide (K a ∈ map K (ic_Upsert c))) as [Hin|Hnin].
      - apply list_elem_of_fmap in Hin as (u & Hk & Hu). exists u. apply future_spec. by split; [|left].
      - exists a. apply future_spec. split; [reflexivity|]. right. split_and!; [exact Hnin|exact Ha|].
        intros H. apply Hnc. unfold fleet_closed. by apply elem_of_union_r. }
    destruct Hfut as [e He]. exists (recompete fleet_kept e). apply graph_spec. exists e. split; [|reflexivity].
    apply kept_spec. split; [exact He|]. intros Hdr. apply Hnc, closed_spec; [exact Ha|].
    destruct (decide (te_ID a ∈ ids (ic_Close c))); [by left|right]. split_and!; [exact Hdr|by exists e|done]. }
  destruct Hf as [f Hf]. exists f. split; [exact Hf|].
  unfold updated. destruct (List.find _ _) as [u|] eqn:Eu.
  - apply List.find_some in Eu as [Hu Ei]. apply list_elem_of_In in Hu. bool_prop. cbn [default].
    destruct (upsert_fate u Hu) as (f' & Hf' & [(E & _)|[(b & Hb & _ & E & _)|(b & Hb & -> & Hcont & Hl & _)]]);
      [specialize (Hpos a Ha); lia..|]. destruct Hcont as (Hi & Hk & Hfr & Hs).
    assert (b = a) as -> by (apply same_id; [done..|lia]).
    assert (f' = f) as -> by (rewrite Hk in Hf'; congruence).
    split_and!; [apply shows_refl|exact Hl|exact Hk|exact Hi|]. by split_and!.
  - cbn [default]. destruct (graph_fate (K a) f Hf) as [E _ _ _ _ Hall|b Hb Hkb _ Hs _|b Hb Hkb _ Hc Hin _ _ _|b Hb Hkb _ -> Hs _].
    + destruct Hst. by apply Hall.
    + assert (b = a) as -> by (by apply same_key). destruct Hst. apply changes_closed; [exact Ha|]. right.
      split; [exact Hnc|]. by exists f.
    + assert (b = a) as -> by (by apply same_key). exfalso. destruct Hc as (Hi & _).
      assert (Hu : f ∈ ic_Upsert fleet_changes) by (apply fleet_upsert_spec; eauto).
      apply list_elem_of_In in Hu. pose proof (List.find_none _ _ Eu f Hu) as Hf0. cbn beta in Hf0. bool_prop. done.
    + assert (b = a) as -> by (by apply same_key). destruct (recompete_same fleet_kept a) as (_ & H1 & H2 & H3 & H4 & _).
      split_and!; [|by apply Hlive|reflexivity..|apply continues_refl].
      unfold shows. split_and!; [congruence..| |congruence|exact Hs]. unfold recompete.
      destruct (bool_decide _); [done|]. by destruct (existsb _ _).
Qed.
End Fleet.
