(* ===== verification/TopologyStore.v ===== *)
(** * Topology intervals: the theorems

    Over the store of [TopologyIntervalsSpec]: one interval per edge, histories
    that are never rewritten, silence that closes nothing, and a consistent
    graph. *)

From Stdlib Require Import ZArith Lia Ascii String.
From stdpp Require Import base gmap list strings sorting.
From S2P Require Import Prelude GoStr GoFmt Topology TopologyIntervals TopologyRoots TopologyIntervalsSpec.

Local Open Scope string_scope.
Local Open Scope Z_scope.

(** ** The parts of a reconciliation *)

(** A reconciliation is a draft, checked as a whole. *)
Lemma reconcile_parts active observed at_ sources changes :
  (forall o, o ∈ observed -> observation at_ o) -> NoDup (map te_ID active) ->
  (forall e, e ∈ active -> 0 < te_ID e) ->
  ReconcileIntervalsBySource active observed at_ sources = Ok changes ->
  exists states c, try_fold (index_source at_) sources ∅ = Ok states /\
    changes_by_source active observed at_ sources = Ok c /\
    changes = fleet_changes at_ active c /\ draft at_ active c /\
    (forall e, e ∈ active -> live at_ e) /\ NoDup (map edgeSortKey active) /\
    (forall o, o ∈ observed -> edgeSortKey o ∈ map edgeSortKey (ic_Upsert c)) /\
    forall a, a ∈ active -> te_ID a ∈ ids (ic_Close c) ->
      edgeSortKey a ∈ map edgeSortKey observed \/ edgeSourcesAnswered a states = true.
Proof.
  unfold ReconcileIntervalsBySource, changes_by_source. intros Hobs Hids Hpos H.
  destruct (try_fold (index_source at_) sources ∅) as [states|] eqn:Es; [|done].
  set (obs := map (retain_semantics (by_key active ∅) states) observed) in *.
  destruct (ReconcileIntervals active obs at_ false) as [c|] eqn:Er; [|done]. simplify_eq.
  pose proof (ReconcileIntervals_ok _ _ _ _ Er) as (Hat & Hlive & Hk & Hok & Hu & _).
  assert (Hobs' : forall o, o ∈ obs -> observation at_ o).
  { intros o (o' & -> & Ho')%list_elem_of_fmap. by apply retain_observation, Hobs. }
  destruct (draft_of_reconciled at_ active obs states Hat Hlive Hk Hids Hobs' Hok c Er) as [Hd Hcl].
  exists states. eexists. split_and!; [done|reflexivity|reflexivity|exact Hd|exact Hlive|exact Hk| |].
  { intros o Ho. cbn [ic_Upsert]. rewrite Hu, map_map. apply list_elem_of_fmap.
    exists (retain_semantics (by_key active ∅) states o). rewrite reconcile_edge_key, retain_key.
    split; [done|by apply list_elem_of_fmap_2]. }
  intros a Ha Hc. apply Hcl in Hc as [(o & Ho & E & _)|[_ Hs]]; [left|by right|done].
  rewrite E. apply list_elem_of_fmap in Ho as (o' & -> & Ho'). rewrite retain_key. by apply list_elem_of_fmap_2.
Qed.

Section Store.
Context (at_ next : Z) (active : list TopologyEdge) (c : IntervalChanges).
Context (Hlive : forall e, e ∈ active -> live at_ e) (Hkeys : NoDup (map edgeSortKey active)).
Context (Hids : NoDup (map te_ID active)) (Hpos : forall e, e ∈ active -> 0 < te_ID e < next).
Context (Hd : draft at_ active c) (Hnext : 0 < next).

Notation changes := (fleet_changes at_ active c).
Notation graph := (fleet_graph active c).

Lemma Hpos' e : e ∈ active -> 0 < te_ID e.
Proof. intros He. by apply Hpos. Qed.

(** The lemmas of [TopologyIntervalsSpec] at these changes. *)
Lemma key_of_graph k f : graph !! k = Some f -> edgeSortKey f = k.
Proof. intros H. eapply graph_key; eauto using Hpos'. Qed.
Lemma fate_of k f : graph !! k = Some f -> fate at_ active c k f.
Proof. intros H. eapply graph_fate; eauto using Hpos'. Qed.
Lemma closed_rows a : a ∈ active -> te_ID a ∈ ids (ic_Close changes) <->
  te_ID a ∈ fleet_closed at_ active c \/
  (te_ID a ∉ fleet_closed at_ active c /\
   exists f, graph !! edgeSortKey a = Some f /\ sameTopologySemantics a f = false).
Proof. intros H. eapply changes_closed; eauto using Hpos'. Qed.
Lemma kept_rows a : a ∈ active -> stays changes a = true ->
  exists f, graph !! edgeSortKey a = Some f /\ shows f (updated changes a) /\ live at_ (updated changes a) /\
    edgeSortKey (updated changes a) = edgeSortKey a /\ te_ID (updated changes a) = te_ID a /\
    continues a (updated changes a).
Proof. intros Ha Hs. eapply updated_spec; eauto using Hpos'. Qed.
Lemma opened_rows i u : opened changes !! i = Some u ->
  exists f, graph !! edgeSortKey u = Some f /\ shows f (numbered next i u) /\ live at_ (numbered next i u) /\
    (forall a, a ∈ active -> edgeSortKey a = edgeSortKey u -> te_ID a ∈ ids (ic_Close changes)).
Proof. intros H. eapply opened_spec; eauto using Hpos'. Qed.
Lemma dropped_rows e : e ∈ fleet_closes at_ active c <-> exists k a, fleet_future active c !! k = Some a /\
  k ∈ fleet_dropped active c /\ te_ID a <> 0 /\ te_ID a ∉ ids (ic_Close c) /\ e = closed_at at_ a.
Proof. eapply closes_spec; eauto using Hpos'. Qed.

Lemma elem_of_store r : r ∈ store_apply next active changes <->
  (exists a, a ∈ active /\ stays changes a = true /\ r = updated changes a) \/
  (exists i u, opened changes !! i = Some u /\ r = numbered next i u).
Proof.
  unfold store_apply. rewrite elem_of_app, list_elem_of_fmap, elem_of_lookup_imap.
  setoid_rewrite elem_of_list_filter. split; (intros [H|H]; [left|right]; naive_solver).
Qed.

(** Every row shows an edge of the graph. *)
Lemma row_shows r : r ∈ store_apply next active changes ->
  exists f, graph !! edgeSortKey r = Some f /\ shows f r /\ live at_ r.
Proof.
  intros [(a & Ha & Hst & ->)|(i & u & Hu & ->)]%elem_of_store.
  - destruct (kept_rows a Ha Hst) as (f & Hf & Hs & Hl & Hk & _).
    exists f. by rewrite Hk.
  - destruct (opened_rows i u Hu) as (f & Hf & Hs & Hl & _).
    exists f. by split_and!.
Qed.

(** Every edge of the graph has a row. *)
Lemma graph_row k f : graph !! k = Some f -> exists r, r ∈ store_apply next active changes /\ edgeSortKey r = k.
Proof.
  intros Hf. pose proof (key_of_graph k f Hf) as Hk.
  assert (Hnew : forall u, u ∈ ic_Upsert changes -> te_ID u = 0 -> edgeSortKey u = k ->
            exists r, r ∈ store_apply next active changes /\ edgeSortKey r = k).
  { intros u Hu E Hku. assert (Ho : u ∈ opened changes) by (apply elem_of_list_filter; by rewrite E).
    apply list_elem_of_lookup in Ho as [i Hi]. exists (numbered next i u). split; [|exact Hku].
    apply elem_of_store. right. eauto. }
  assert (Hold : forall a, a ∈ active -> edgeSortKey a = k -> te_ID a ∉ ids (ic_Close changes) ->
            exists r, r ∈ store_apply next active changes /\ edgeSortKey r = k).
  { intros a Ha Hka Hn. assert (Hst : stays changes a = true) by (unfold stays; by rewrite bool_decide_eq_false_2).
    exists (updated changes a). split; [apply elem_of_store; left; eauto|].
    destruct (kept_rows a Ha Hst) as (_ & _ & _ & _ & E & _). congruence. }
  assert (Hcl : forall a, a ∈ active -> edgeSortKey a = k -> te_ID a ∉ fleet_closed at_ active c ->
            sameTopologySemantics a f = true -> te_ID a ∉ ids (ic_Close changes)).
  { intros a Ha Hka Hn Hs. rewrite closed_rows by exact Ha.
    intros [?|(_ & f' & Hf' & Hs')]; [done|]. rewrite Hka, Hf in Hf'. simplify_eq. congruence. }
  destruct (fate_of k f Hf) as [E Hin _ _ _ _|a Ha Hka Hn Hs E|a Ha Hka Hn (_ & _ & _ & Hs) _ _ _ _|a Ha Hka Hn _ Hs E].
  - apply (Hnew f); [|done|done]. apply fleet_upsert_spec. eauto.
  - apply (Hnew (with_interval f 0 at_ None at_)); [|done|done]. apply fleet_upsert_spec. exists k, f. rewrite E.
    split; [done|left].
  - apply (Hold a); [done|done|]. by apply Hcl.
  - apply (Hold a); [done|done|]. by apply Hcl.
Qed.

(** ** Keys and ids *)

Lemma settle_short prior seen closed kv :
  (length (fst (settle_edge at_ prior seen closed kv)) <= 1)%nat /\
  (length (snd (settle_edge at_ prior seen closed kv)) <= 1)%nat.
Proof.
  destruct kv as [k e]. unfold settle_edge. destruct (prior !! k); [|simpl; lia].
  destruct (_ && _); [simpl; lia|]. destruct (bool_decide _); simpl; lia.
Qed.

Lemma NoDup_short {A} (l : list A) : (length l <= 1)%nat -> NoDup l.
Proof. destruct l as [|x [|y l]]; simpl; [constructor|intros _; apply NoDup_singleton|lia]. Qed.

Lemma short_eq {A} (l : list A) x y : (length l <= 1)%nat -> x ∈ l -> y ∈ l -> x = y.
Proof.
  destruct l as [|z [|w l]]; simpl; [intros _ []%elem_of_nil| |lia].
  intros _ ->%list_elem_of_singleton ->%list_elem_of_singleton. done.
Qed.

(** Rows at distinct keys of the graph have distinct keys, and end distinct
    intervals. *)
Lemma row_key k f u : graph !! k = Some f -> u ∈ fst (fleet_row at_ active c (k, f)) -> edgeSortKey u = k.
Proof.
  intros Hf Hu. pose proof (key_of_graph k f Hf) as Hk.
  destruct (fate_of k f Hf) as [_ _ Heq _ _ _|a Ha Hka Hn Hs E|a _ _ _ _ _ Heq _ _|a _ _ _ _ _ E].
  - by rewrite (Heq u Hu).
  - rewrite E in Hu. by apply list_elem_of_singleton in Hu as ->.
  - by rewrite (Heq u Hu).
  - rewrite E in Hu. by apply elem_of_nil in Hu.
Qed.

Lemma row_ends k f e : graph !! k = Some f -> e ∈ snd (fleet_row at_ active c (k, f)) ->
  exists a, a ∈ active /\ edgeSortKey a = k /\ te_ID a ∉ fleet_closed at_ active c /\ e = closed_at at_ a.
Proof.
  intros Hf He.
  destruct (fate_of k f Hf) as [_ _ _ E _ _|a Ha Hka Hn Hs E|a _ _ _ _ _ _ E _|a _ _ _ _ _ E];
    rewrite E in He; try by apply elem_of_nil in He.
  apply list_elem_of_singleton in He as ->. exists a. by split_and!.
Qed.

Lemma NoDup_graph : NoDup (map_to_list graph).
Proof. apply NoDup_map_to_list. Qed.

Lemma graph_unique x y k : x ∈ map_to_list graph -> y ∈ map_to_list graph -> fst x = k -> fst y = k -> x = y.
Proof.
  destruct x as [kx fx], y as [ky fy]. intros Hx Hy Ex Ey. simpl in Ex, Ey. subst kx ky.
  apply elem_of_map_to_list in Hx, Hy. congruence.
Qed.

Lemma upsert_keys : NoDup (map edgeSortKey (ic_Upsert changes)).
Proof.
  unfold fleet_changes, reconcileFleetCompetingParents. cbn [ic_Upsert]. rewrite sort_edges_perm, map_map.
  change (NoDup (map edgeSortKey (concat (map (fun kv => fst (fleet_row at_ active c kv)) (map_to_list graph))))).
  rewrite concat_map, map_map, <- flat_map_concat_map. apply NoDup_flat_map; [apply NoDup_graph| |].
  - intros kv _. apply NoDup_short. rewrite length_map. apply settle_short.
  - intros [k f] [k' f'] y Hx Hx' (u & -> & Hu)%list_elem_of_fmap (u' & E & Hu')%list_elem_of_fmap.
    pose proof Hx as Hg. pose proof Hx' as Hg'. apply elem_of_map_to_list in Hg, Hg'.
    apply (graph_unique _ _ k); [exact Hx|exact Hx'|reflexivity|]. cbn [fst].
    rewrite <- (row_key k f u Hg Hu), <- (row_key k' f' u' Hg' Hu'). symmetry. exact E.
Qed.

Lemma map_flat {A B D} (f : B -> D) (g : A -> list B) l : map f (flat_map g l) = flat_map (fun x => map f (g x)) l.
Proof. by rewrite !flat_map_concat_map, concat_map, map_map. Qed.

(** The row of the future graph that is dropped with the id of an active row. *)
Lemma dropped_origin k b : fleet_future active c !! k = Some b -> te_ID b <> 0 ->
  exists a, a ∈ active /\ edgeSortKey a = k /\ te_ID b = te_ID a.
Proof.
  intros Hb Hid. assert (Hf : _) by (eapply future_cases; eauto using Hpos').
  destruct Hf as [(E & _)|(a & Ha & Hka & _ & (Ei & _) & _)]; [done|]. by exists a.
Qed.

Lemma dropped_ids : NoDup (map te_ID (fleet_closes at_ active c)).
Proof.
  unfold fleet_closes, close_contradicted. rewrite map_flat. apply NoDup_flat_map; [apply NoDup_map_to_list| |].
  - intros [k e] _. apply NoDup_short. rewrite length_map. destruct (_ && _); simpl; lia.
  - intros [k e] [k' e'] i Hx Hx' Hi Hi'. cbn beta iota in Hi, Hi'.
    destruct (_ && _) eqn:E in Hi; [|by apply elem_of_nil in Hi].
    destruct (_ && _) eqn:E' in Hi'; [|by apply elem_of_nil in Hi'].
    apply list_elem_of_singleton in Hi, Hi'. bool_prop. apply elem_of_map_to_list in Hx, Hx'.
    destruct (dropped_origin k e Hx) as (a & Ha & Hka & Ei); [done|].
    destruct (dropped_origin k' e' Hx') as (a' & Ha' & Hka' & Ei'); [done|].
    cbn [closed_at with_interval te_ID] in Hi, Hi'.
    assert (a = a') as -> by (apply (same_id active Hids); [done..|congruence]). congruence.
Qed.

Lemma close_ids : NoDup (map te_ID (ic_Close changes)).
Proof.
  unfold fleet_changes, reconcileFleetCompetingParents. cbn [ic_Close]. rewrite sort_edges_perm, map_map.
  change (NoDup (map te_ID (ic_Close c ++ fleet_closes at_ active c ++
    concat (map (fun kv => snd (fleet_row at_ active c kv)) (map_to_list graph))))%list).
  rewrite <- flat_map_concat_map, !map_app. apply NoDup_app. split_and!.
  - apply (dr_close_ids _ _ _ Hd).
  - intros i (e & -> & He)%list_elem_of_fmap Hi. rewrite elem_of_app in Hi. destruct Hi as [Hi|Hi].
    + apply list_elem_of_fmap in Hi as (e' & E & He').
      apply dropped_rows in He' as (k & b & _ & _ & _ & Hn & ->). apply Hn.
      apply elem_of_ids. exists e. by split.
    + apply list_elem_of_fmap in Hi as (e' & E & He'). apply elem_of_flat_map in He' as ([k f] & Hkf & He').
      apply elem_of_map_to_list in Hkf. destruct (row_ends k f e' Hkf He') as (a & Ha & _ & Hn & ->). apply Hn.
      unfold fleet_closed. apply elem_of_union_r, elem_of_ids. exists e. by split.
  - apply NoDup_app. split_and!.
    + apply dropped_ids.
    + intros i (e & -> & He)%list_elem_of_fmap Hi. apply list_elem_of_fmap in Hi as (e' & E & He').
      apply elem_of_flat_map in He' as ([k f] & Hkf & He').
      apply elem_of_map_to_list in Hkf. destruct (row_ends k f e' Hkf He') as (a & Ha & _ & Hn & ->). apply Hn.
      unfold fleet_closed. apply elem_of_union_l, elem_of_ids. exists e. by split.
    + rewrite map_flat. apply NoDup_flat_map; [apply NoDup_graph| |].
      * intros kv _. apply NoDup_short. rewrite length_map. apply settle_short.
      * intros [k f] [k' f'] i Hx Hx' (u & -> & Hu)%list_elem_of_fmap (u' & E & Hu')%list_elem_of_fmap.
        pose proof Hx as Hg. pose proof Hx' as Hg'. apply elem_of_map_to_list in Hg, Hg'.
        apply (graph_unique _ _ k); [exact Hx|exact Hx'|reflexivity|]. cbn [fst].
        destruct (row_ends k f u Hg Hu) as (a & Ha & <- & _ & ->), (row_ends k' f' u' Hg' Hu') as (a' & Ha' & <- & _ & ->).
        f_equal. symmetry. by apply (same_id active Hids).
Qed.

Lemma opened_keys : NoDup (map edgeSortKey (opened changes)).
Proof.
  apply (NoDup_map_sub _ _ (ic_Upsert changes)).
  - apply upsert_keys.
  - apply NoDup_filter_list. eapply NoDup_fmap_1, upsert_keys.
  - intros x Hx. by apply elem_of_list_filter in Hx as [_ ?].
Qed.

Lemma opened_fresh u a : u ∈ opened changes -> a ∈ active -> stays changes a = true -> edgeSortKey u <> edgeSortKey a.
Proof.
  intros Hu Ha Hst E. apply list_elem_of_lookup in Hu as [i Hu].
  destruct (opened_rows i u Hu) as (_ & _ & _ & _ & Hall). specialize (Hall a Ha (eq_sym E)).
  unfold stays in Hst. bool_prop. done.
Qed.

Lemma imap_keys n l : map edgeSortKey (imap (numbered n) l) = map edgeSortKey l.
Proof.
  revert n. induction l as [|x l IH]; intros n; [done|]. cbn [imap map]. f_equal.
  rewrite <- (IH (n + 1)). f_equal. apply imap_ext. intros i y _. unfold numbered, compose. f_equal. lia.
Qed.
Lemma imap_ids n l : map te_ID (imap (numbered n) l) = seqZ n (Z.of_nat (length l)).
Proof.
  revert n. induction l as [|x l IH]; intros n; [done|]. cbn [imap map length]. rewrite seqZ_cons by lia.
  f_equal; [cbn; lia|]. replace (Z.pred (Z.of_nat (S (length l)))) with (Z.of_nat (length l)) by lia.
  rewrite <- IH. f_equal. apply imap_ext. intros i y _. unfold numbered, compose. f_equal. lia.
Qed.

Lemma kept_map {A} (f : TopologyEdge -> A) :
  (forall a, a ∈ active -> stays changes a = true -> f (updated changes a) = f a) ->
  map f (map (updated changes) (List.filter (stays changes) active)) = map f (List.filter (stays changes) active).
Proof.
  intros H. rewrite map_map. apply map_ext_in. intros a Ha.
  apply list_elem_of_In, elem_of_list_filter in Ha as [Hs Ha]. by apply H.
Qed.

Lemma store_keys : NoDup (map edgeSortKey (store_apply next active changes)).
Proof.
  unfold store_apply. rewrite map_app, imap_keys, kept_map.
  2: { intros a Ha Hs. by destruct (kept_rows a Ha Hs) as (_ & _ & _ & _ & E & _). }
  apply NoDup_app. split_and!.
  - apply (NoDup_map_sub _ _ active); [done|apply NoDup_filter_list; by eapply NoDup_fmap_1|].
    intros x Hx. by apply elem_of_list_filter in Hx as [_ ?].
  - intros k (a & -> & [Hs Ha]%elem_of_list_filter)%list_elem_of_fmap (u & E & Hu)%list_elem_of_fmap.
    by apply (opened_fresh u a Hu Ha Hs).
  - apply opened_keys.
Qed.

Lemma store_active : active_set at_ (next + Z.of_nat (length (opened changes))) (store_apply next active changes).
Proof.
  constructor.
  - intros e He. by destruct (row_shows e He) as (_ & _ & _ & ?).
  - apply store_keys.
  - unfold store_apply. rewrite map_app, imap_ids, kept_map.
    2: { intros a Ha Hs. by destruct (kept_rows a Ha Hs) as (_ & _ & _ & _ & _ & E & _). }
    apply NoDup_app. split_and!.
    + apply (NoDup_map_sub _ _ active); [done|apply NoDup_filter_list; by eapply NoDup_fmap_1|].
      intros x Hx. by apply elem_of_list_filter in Hx as [_ ?].
    + intros i (a & -> & [_ Ha]%elem_of_list_filter)%list_elem_of_fmap Hi%elem_of_seqZ.
      specialize (Hpos a Ha). lia.
    + apply NoDup_seqZ.
  - intros e [(a & Ha & Hs & ->)|(i & u & Hu & ->)]%elem_of_store.
    + destruct (kept_rows a Ha Hs) as (_ & _ & _ & _ & _ & -> & _). specialize (Hpos a Ha). lia.
    + apply lookup_lt_Some in Hu. cbn [numbered with_interval te_ID].
      pose proof Hnext. lia.
Qed.
End Store.

(** An active row at whose key the graph has nothing, though it is not
    contradicted: it was closed by the draft, and not seen. *)
Lemma absent_at at_ active c observed states a : NoDup (map edgeSortKey active) ->
  NoDup (map te_ID active) -> draft at_ active c ->
  (forall o, o ∈ observed -> edgeSortKey o ∈ map edgeSortKey (ic_Upsert c)) ->
  (forall a, a ∈ active -> te_ID a ∈ ids (ic_Close c) -> edgeSortKey a ∈ map edgeSortKey observed \/
    edgeSourcesAnswered a states = true) ->
  a ∈ active -> edgeSortKey a ∉ fleet_dropped active c -> fleet_graph active c !! edgeSortKey a = None ->
  edgeSortKey a ∉ map edgeSortKey observed /\ edgeSourcesAnswered a states = true.
Proof.
  intros Hk Hi Hd Hrow Hcl Ha Hdr Hnone.
  assert (Hfut : fleet_future active c !! edgeSortKey a = None).
  { destruct (fleet_future active c !! edgeSortKey a) as [e|] eqn:E; [exfalso|reflexivity].
    assert (fleet_graph active c !! edgeSortKey a = Some (recompete (fleet_kept active c) e)); [|congruence].
    apply graph_spec. exists e. split; [|done]. by apply kept_spec. }
  assert (Hnk : edgeSortKey a ∉ map edgeSortKey (ic_Upsert c)).
  { intros (u & E & Hu)%list_elem_of_fmap.
    assert (fleet_future active c !! edgeSortKey a = Some u); [|congruence].
    rewrite E. apply (future_spec at_ active c Hk Hi Hd). split; [done|by left]. }
  assert (Hno : edgeSortKey a ∉ map edgeSortKey observed).
  { intros (o & E & Ho)%list_elem_of_fmap. apply Hnk. rewrite E. by apply Hrow. }
  split; [done|]. destruct (decide (te_ID a ∈ ids (ic_Close c))) as [Hc|Hc].
  - by destruct (Hcl a Ha Hc).
  - assert (fleet_future active c !! edgeSortKey a = Some a); [|congruence].
    apply (future_spec at_ active c Hk Hi Hd). split; [done|]. right. by split_and!.
Qed.

(** The durable rows before an observation is reconciled: active intervals with
    ids below [next]. *)
Record durable (before next : Z) (active : list TopologyEdge) : Prop := MkDurable {
  du_set : active_set before next active;
  du_next : 0 < next
}.

(** (invariant) The store stays a set of active intervals. Whatever an
    observation says, if it is accepted then writing its changes leaves open,
    well-formed intervals that are not in the future of the observation, one
    per edge (child, parent, port and medium), with distinct ids. *)
Theorem reconcile_keeps_store (before at_ next : Z) (active observed : list TopologyEdge)
    (sources : list TopologySourceObservation) (changes : IntervalChanges)
    (Hstore : durable before next active) (Hobs : forall o, o ∈ observed -> observation at_ o)
    (Hrun : ReconcileIntervalsBySource active observed at_ sources = Ok changes) :
  durable at_ (next + Z.of_nat (length (opened changes))) (store_apply next active changes).
Proof.
  destruct Hstore as [[_ _ Hids Hnum] Hnext].
  destruct (reconcile_parts active observed at_ sources changes) as (states & c & _ & _ & -> & Hd & Hl & Hk & _);
    [done|done|intros e He; by apply Hnum|done|].
  constructor; [by apply store_active|lia].
Qed.

(** (safety) History is not rewritten. Every closed row is the row of an active
    interval, unchanged in meaning and beginning, ended at the time of the
    observation, and no interval is closed twice. Every row written over an
    active one continues it: same edge, same beginning, same meaning. And an
    edge disappears only when it was not observed while every source that
    established it has answered since, or when the resulting graph contradicts
    it: silence closes nothing. *)
Theorem history_is_kept (before at_ next : Z) (active observed : list TopologyEdge)
    (sources : list TopologySourceObservation) (changes : IntervalChanges)
    (Hstore : durable before next active) (Hobs : forall o, o ∈ observed -> observation at_ o)
    (Hrun : ReconcileIntervalsBySource active observed at_ sources = Ok changes) :
  NoDup (map te_ID (ic_Close changes)) /\
  (forall e, e ∈ ic_Close changes -> exists a, a ∈ active /\ ends at_ a e) /\
  (forall u, u ∈ ic_Upsert changes -> te_ID u <> 0 ->
     exists a, a ∈ active /\ continues a u /\ te_ID a ∉ ids (ic_Close changes)) /\
  exists states draft, try_fold (index_source at_) sources ∅ = Ok states /\
    changes_by_source active observed at_ sources = Ok draft /\
    forall a, a ∈ active -> edgeSortKey a ∉ map edgeSortKey (store_apply next active changes) ->
      (edgeSortKey a ∉ map edgeSortKey observed /\ edgeSourcesAnswered a states = true) \/
      edgeSortKey a ∈ fleet_contradicted (map snd (map_to_list (future_edges active draft))).
Proof.
  destruct Hstore as [[_ _ Hids Hnum] Hnext].
  destruct (reconcile_parts active observed at_ sources changes) as (states & c & Hs & Hdraft & -> & Hd & Hl & Hk & Hrow & Hcl);
    [done|done|intros e He; by apply Hnum|done|].
  assert (Hpos : forall e, e ∈ active -> 0 < te_ID e) by (intros e He; by apply Hnum).
  split_and!.
  - by eapply close_ids.
  - intros e He. by eapply changes_close_origin.
  - intros u Hu Hid. assert (Hf : _) by (by eapply upsert_fate).
    destruct Hf as (f & _ & [(E & _)|[(a & _ & _ & E & _)|(a & Ha & -> & Hc & _ & Hn)]]); [done|done|]. by exists a.
  - exists states, c. split; [done|]. split; [done|]. intros a Ha Hgone.
    destruct (decide (edgeSortKey a ∈ fleet_dropped active c)) as [Hdr|Hdr]; [by right|left].
    assert (Hnone : fleet_graph active c !! edgeSortKey a = None).
    { destruct (fleet_graph active c !! edgeSortKey a) as [f|] eqn:Ef; [|done]. destruct Hgone.
      destruct (graph_row at_ next active c Hl Hk Hids Hnum Hd _ f Ef) as (r & Hr & <-).
      by apply list_elem_of_fmap_2. }
    apply (absent_at at_ active c observed states); done.
Qed.
