(* ===== verification/TopologyGraph.v ===== *)
(** * The graph the durable intervals form

    After every reconciliation: competing placements of a child are marked on
    all its edges and only there, no managed devices are below one another by
    LLDP, and a link is only opened below a device with a way to the
    Internet. *)

From Stdlib Require Import ZArith Lia Ascii String.
From stdpp Require Import base gmap list strings sorting.
From S2P Require Import Prelude GoStr GoFmt Topology TopologyIntervals TopologyRoots TopologyIntervalsSpec TopologyStore.

Local Open Scope string_scope.
Local Open Scope Z_scope.

(** ** Competing placements *)

Lemma size_two {A} `{Countable A} (X : gset A) : (1 < size X)%nat <-> exists x y, x ∈ X /\ y ∈ X /\ x <> y.
Proof.
  split.
  - intros Hs. unfold size, set_size in Hs. simpl in Hs. pose proof (NoDup_elements X) as Hn.
    destruct (elements X) as [|x [|y l]] eqn:E; [simpl in Hs; lia..|].
    exists x, y. rewrite <- !elem_of_elements, E. apply NoDup_cons in Hn as [Hx _]. set_solver.
  - intros (x & y & Hx & Hy & Hne). assert (Hsub : {[x; y]} ⊆ X) by set_solver.
    apply subseteq_size in Hsub. rewrite size_union, !size_singleton in Hsub by set_solver. lia.
Qed.

Definition no_internet (e : TopologyEdge) : Prop := te_ParentNode e <> InternetNode.
Definition place (e : TopologyEdge) : string := parent_port (te_ParentNode e) (te_ParentPort e).

(** Two edges of [l] place the child differently. *)
Definition competing (l : list TopologyEdge) (child : string) : Prop :=
  exists e e', e ∈ l /\ e' ∈ l /\ te_ChildNode e = child /\ te_ChildNode e' = child /\
    no_internet e /\ no_internet e' /\ place e <> place e'.

Lemma future_parents_spec G child p : p ∈ future_parents G child <->
  exists k e, G !! k = Some e /\ no_internet e /\ te_ChildNode e = child /\ p = place e.
Proof.
  unfold future_parents, no_internet. rewrite elem_of_list_to_set, list_elem_of_fmap. split.
  - intros ([k e] & -> & [Hf Hin]%elem_of_list_filter). cbn [fst snd] in *. bool_prop.
    exists k, e. apply elem_of_map_to_list in Hin. done.
  - intros (k & e & Hin & Hi & Hc & ->). exists (k, e). split; [done|]. apply elem_of_list_filter. cbn [snd].
    split; [bool_goal; [by apply String.eqb_neq|done]|by apply elem_of_map_to_list].
Qed.

Lemma not_competing_spec l a : a ∈ not_competing l <-> a ∈ l /\ a <> competingParentsAmbiguity.
Proof. unfold not_competing. rewrite elem_of_list_filter, negb_true_iff, String.eqb_neq. tauto. Qed.

(** What [recompete] says about competition. *)
Lemma recompete_marks G e : let r := recompete G e in
  (competingParentsAmbiguity ∈ te_Ambiguities r <-> (1 < size (future_parents G (te_ChildNode e)))%nat) /\
  (competingParentsAmbiguity ∈ te_Ambiguities r -> te_Confidence r = "ambiguous").
Proof.
  unfold recompete. cbv zeta. destruct (decide (1 < size (future_parents G (te_ChildNode e)))%nat) as [Hs|Hs].
  - rewrite bool_decide_eq_true_2 by done.
    cbn [with_Ambiguities with_Confidence with_semantics te_Ambiguities te_Confidence].
    rewrite elem_of_sort_strings, elem_of_app. split; [|done]. split; [done|]. intros _. right. left.
  - rewrite bool_decide_eq_false_2 by done.
    assert (Hno : competingParentsAmbiguity ∉ sort_strings (not_competing (te_Ambiguities e))).
    { rewrite elem_of_sort_strings, not_competing_spec. tauto. }
    destruct (existsb _ _); cbn [with_Ambiguities with_Confidence with_semantics te_Ambiguities te_Confidence]; tauto.
Qed.

Section Graph.
Context (at_ next : Z) (active : list TopologyEdge) (c : IntervalChanges).
Context (Hlive : forall e, e ∈ active -> live at_ e) (Hkeys : NoDup (map edgeSortKey active)).
Context (Hids : NoDup (map te_ID active)) (Hpos : forall e, e ∈ active -> 0 < te_ID e < next).
Context (Hd : draft at_ active c).

Notation changes := (fleet_changes at_ active c).
Notation rows := (store_apply next active changes).

(** The rows and the graph have the same edges. *)
Lemma rows_of_kept k e : fleet_kept active c !! k = Some e -> exists r, r ∈ rows /\
  te_ChildNode r = te_ChildNode e /\ te_ParentNode r = te_ParentNode e /\ te_ParentPort r = te_ParentPort e /\
  te_Medium r = te_Medium e /\ te_Evidence r = te_Evidence e.
Proof.
  intros He. assert (Hf : fleet_graph active c !! k = Some (recompete (fleet_kept active c) e)).
  { apply graph_spec. by exists e. }
  assert (Hr : exists r, r ∈ rows /\ edgeSortKey r = k) by (eapply graph_row; eauto).
  destruct Hr as (r & Hr & Hk). exists r. split; [done|].
  assert (Hs : exists f, fleet_graph active c !! edgeSortKey r = Some f /\ shows f r /\ live at_ r)
    by (eapply row_shows; eauto).
  destruct Hs as (f & Hf' & (H1 & H2 & H3 & H4 & H5 & _) & _). rewrite Hk, Hf in Hf'. simplify_eq.
  destruct (recompete_same (fleet_kept active c) e) as (_ & E1 & E2 & E3 & E4 & _).
  assert (te_Medium (recompete (fleet_kept active c) e) = te_Medium e).
  { unfold recompete. destruct (bool_decide _); [done|]. by destruct (existsb _ _). }
  split_and!; congruence.
Qed.

Lemma kept_of_rows r : r ∈ rows -> exists k e, fleet_kept active c !! k = Some e /\
  te_ChildNode r = te_ChildNode e /\ te_ParentNode r = te_ParentNode e /\ te_ParentPort r = te_ParentPort e /\
  te_Evidence r = te_Evidence e /\ sameTopologySemantics r (recompete (fleet_kept active c) e) = true.
Proof.
  intros Hr.
  assert (Hs : exists f, fleet_graph active c !! edgeSortKey r = Some f /\ shows f r /\ live at_ r)
    by (eapply row_shows; eauto).
  destruct Hs as (f & (e & He & ->)%graph_spec & (H1 & H2 & H3 & _ & H5 & H6) & _).
  destruct (recompete_same (fleet_kept active c) e) as (_ & E1 & E2 & E3 & E4 & _).
  exists (edgeSortKey r), e. split_and!; [done|congruence..|done].
Qed.

Lemma competing_rows child : competing rows child <-> (1 < size (future_parents (fleet_kept active c) child))%nat.
Proof.
  rewrite size_two. setoid_rewrite future_parents_spec. unfold competing, no_internet, place. split.
  - intros (r & r' & Hr & Hr' & Hc & Hc' & Hi & Hi' & Hne).
    destruct (kept_of_rows r Hr) as (k & e & He & H1 & H2 & H3 & _).
    destruct (kept_of_rows r' Hr') as (k' & e' & He' & H1' & H2' & H3' & _).
    exists (parent_port (te_ParentNode r) (te_ParentPort r)), (parent_port (te_ParentNode r') (te_ParentPort r')).
    split_and!; [exists k, e|exists k', e'|done]; split_and!; congruence.
  - intros (p & p' & (k & e & He & Hi & Hc & ->) & (k' & e' & He' & Hi' & Hc' & ->) & Hne).
    destruct (rows_of_kept k e He) as (r & Hr & H1 & H2 & H3 & _).
    destruct (rows_of_kept k' e' He') as (r' & Hr' & H1' & H2' & H3' & _).
    exists r, r'. split_and!; congruence.
Qed.

Lemma rows_marked r : r ∈ rows ->
  (competingParentsAmbiguity ∈ te_Ambiguities r <-> competing rows (te_ChildNode r)) /\
  (competing rows (te_ChildNode r) -> te_Confidence r = "ambiguous").
Proof.
  intros Hr. destruct (kept_of_rows r Hr) as (k & e & He & Hc & _ & _ & _ & Hs).
  destruct (recompete_marks (fleet_kept active c) e) as [Hm Hconf]. rewrite competing_rows, Hc.
  rewrite (same_competing _ _ Hs), (same_ambiguous _ _ Hs), <- Hm. tauto.
Qed.
End Graph.

(** ** Links both ends report *)

Section Reciprocal.
Context (edges : list TopologyEdge) (depth : depths).

Lemma lldp_direction_spec child parent e : e ∈ lldp_direction edges child parent <->
  e ∈ edges /\ managed_link e = true /\ edgeHasLLDP e = true /\ te_ChildNode e = child /\ te_ParentNode e = parent.
Proof. unfold lldp_direction. rewrite elem_of_list_filter, !andb_true_iff, !String.eqb_eq. tauto. Qed.

(** A direction that was visited, with its reverse, is settled. *)
Definition settled (s : gset string * gset (string * string)) : Prop :=
  forall child parent, (child, parent) ∈ snd s -> (parent, child) ∈ snd s /\
    (suppressed depth child parent = true ->
       forall e, e ∈ lldp_direction edges child parent -> edgeSortKey e ∈ fst s).

Lemma reciprocal_step_settled s key : settled s -> settled (reciprocal_step edges depth s key).
Proof.
  intros Hs. destruct s as [con seen], key as [ch pa]. unfold reciprocal_step.
  destruct (_ || _); [done|]. intros child parent Hin. cbn [fst snd] in *.
  apply elem_of_union in Hin as [Hin|Hin]; [|apply elem_of_union in Hin as [Hin|Hin]].
  - apply elem_of_singleton in Hin. simplify_eq. split; [set_solver|]. intros Hsup e He. rewrite Hsup.
    apply elem_of_union_l, elem_of_union_l, elem_of_list_to_set. by apply list_elem_of_fmap_2.
  - apply elem_of_singleton in Hin. simplify_eq. split; [set_solver|]. intros Hsup e He. rewrite Hsup.
    apply elem_of_union_l, elem_of_union_r, elem_of_list_to_set. by apply list_elem_of_fmap_2.
  - destruct (Hs child parent Hin) as [Hrev Hk]. split; [set_solver|]. intros Hsup e He.
    apply elem_of_union_r. by apply Hk.
Qed.

Lemma reciprocal_step_seen s key : snd s ⊆ snd (reciprocal_step edges depth s key) /\
  (settled s -> lldp_direction edges (snd key) (fst key) <> [] -> key ∈ snd (reciprocal_step edges depth s key)).
Proof.
  destruct s as [con seen], key as [ch pa]. unfold reciprocal_step. cbn [fst snd].
  destruct (_ || _) eqn:E; cbn [snd]; [|split; set_solver].
  split; [done|]. intros Hs Hne. apply orb_true_iff in E as [E|E]; bool_prop.
  - destruct E as [E|E]; bool_prop; [|done]. apply Nat.eqb_eq, length_zero_iff_nil in E. done.
  - by destruct (Hs pa ch E) as [? _].
Qed.

Lemma reciprocal_fold l s : settled s ->
  let s' := fold_left (reciprocal_step edges depth) l s in
  settled s' /\ snd s ⊆ snd s' /\
  forall key, key ∈ l -> lldp_direction edges (snd key) (fst key) <> [] -> key ∈ snd s'.
Proof.
  revert s. induction l as [|x l IH]; intros s Hs; cbn [fold_left].
  - split_and!; [done..|]. intros key Hk. by apply elem_of_nil in Hk.
  - destruct (IH _ (reciprocal_step_settled s x Hs)) as (H1 & H2 & H3).
    destruct (reciprocal_step_seen s x) as [Hsub Hin]. split_and!; [done|by etransitivity|].
    intros key Hk Hne. apply elem_of_cons in Hk as [->|Hk]; [|by apply H3]. by apply H2, Hin.
Qed.
End Reciprocal.

Lemma suppressed_one depth child parent : suppressed depth child parent = true \/ suppressed depth parent child = true.
Proof.
  unfold suppressed. destruct (depth !! child), (depth !! parent); auto.
  destruct (Z.le_ge_cases z z0); [left|right]; by apply Z.leb_le.
Qed.

Lemma reciprocal_dropped edges e e' : e ∈ edges -> e' ∈ edges ->
  managed_link e = true -> edgeHasLLDP e = true -> managed_link e' = true -> edgeHasLLDP e' = true ->
  te_ChildNode e = te_ParentNode e' -> te_ParentNode e = te_ChildNode e' ->
  edgeSortKey e ∈ reciprocalManagedDeviceEdgeKeys edges \/ edgeSortKey e' ∈ reciprocalManagedDeviceEdgeKeys edges.
Proof.
  intros He He' Hm Hl Hm' Hl' Hcp Hpc. unfold reciprocalManagedDeviceEdgeKeys.
  set (depth := managedDeviceRootDepths edges).
  destruct (reciprocal_fold edges depth (elements (directions edges)) (∅, ∅)) as (Hs & _ & Hseen).
  { intros ch pa Hin. by apply elem_of_empty in Hin. }
  set (s := fold_left _ _ _) in *.
  assert (Hdir : e ∈ lldp_direction edges (te_ChildNode e) (te_ParentNode e)) by (by apply lldp_direction_spec).
  assert (Hdir' : e' ∈ lldp_direction edges (te_ParentNode e) (te_ChildNode e)) by (by apply lldp_direction_spec).
  assert (Hin : (te_ChildNode e, te_ParentNode e) ∈ snd s).
  { apply Hseen; [|intros E; cbn [fst snd] in E; rewrite E in Hdir'; by apply elem_of_nil in Hdir'].
    apply elem_of_elements, elem_of_list_to_set, list_elem_of_fmap. exists e. split; [done|].
    apply elem_of_list_filter. by rewrite Hm, Hl. }
  destruct (Hs _ _ Hin) as [Hrev Hk]. destruct (Hs _ _ Hrev) as [_ Hk'].
  destruct (suppressed_one depth (te_ChildNode e) (te_ParentNode e)) as [H|H]; [left; by apply Hk|right; by apply Hk'].
Qed.

(** No two managed devices are each below the other by LLDP. *)
Definition one_way (rows : list TopologyEdge) : Prop := forall r r', r ∈ rows -> r' ∈ rows ->
  managed_link r = true -> edgeHasLLDP r = true -> managed_link r' = true -> edgeHasLLDP r' = true ->
  te_ChildNode r = te_ParentNode r' -> te_ParentNode r = te_ChildNode r' -> False.

(** ** What is kept *)

Section Kept.
Context (at_ next : Z) (active : list TopologyEdge) (c : IntervalChanges).
Context (Hlive : forall e, e ∈ active -> live at_ e) (Hkeys : NoDup (map edgeSortKey active)).
Context (Hids : NoDup (map te_ID active)) (Hpos : forall e, e ∈ active -> 0 < te_ID e < next).
Context (Hd : draft at_ active c).

Notation edges := (map snd (map_to_list (future_edges active c))).

Lemma kept_edge k e : fleet_kept active c !! k = Some e ->
  e ∈ edges /\ edgeSortKey e = k /\ k ∉ fleet_contradicted edges.
Proof.
  intros [He Hk]%kept_spec. split_and!; [|by apply (future_spec at_ active c Hkeys Hids Hd) in He as [? _]|done].
  apply list_elem_of_fmap. exists (k, e). split; [done|]. by apply elem_of_map_to_list.
Qed.

Lemma kept_not_reciprocal k k' e e' : fleet_kept active c !! k = Some e -> fleet_kept active c !! k' = Some e' ->
  managed_link e = true -> edgeHasLLDP e = true -> managed_link e' = true -> edgeHasLLDP e' = true ->
  te_ChildNode e = te_ParentNode e' -> te_ParentNode e = te_ChildNode e' -> False.
Proof.
  intros (He & Hk & Hn)%kept_edge (He' & Hk' & Hn')%kept_edge Hm Hl Hm' Hl' Hcp Hpc.
  destruct (reciprocal_dropped edges e e') as [H|H]; [done..| |].
  - apply Hn. unfold fleet_contradicted. rewrite <- Hk. by apply elem_of_union_r.
  - apply Hn'. unfold fleet_contradicted. rewrite <- Hk'. by apply elem_of_union_r.
Qed.

Lemma opened_rooted u : u ∈ opened (fleet_changes at_ active c) -> edgeSortKey u ∉ map edgeSortKey active ->
  managed_link u = true -> edgeHasLLDP u = true -> exists k, hops edges (te_ParentNode u) k.
Proof.
  intros [Hid Hu]%elem_of_list_filter Hnew Hm Hl. bool_prop.
  assert (Hf : _) by (eapply upsert_fate; [exact Hkeys|exact Hids|intros x Hx; by apply Hpos|exact Hd|exact Hu]).
  destruct Hf as (f & Hf & [(_ & -> & _)|[(a & Ha & E & _)|(a & Ha & _ & (E & _) & _)]]).
  - apply graph_spec in Hf as (e & He & Ef). destruct (recompete_same (fleet_kept active c) e) as (E0 & E1 & E2 & _ & E4 & _).
    rewrite <- Ef in *. apply kept_edge in He as (He & Hk & Hn).
    destruct (managedDeviceRootDepths_complete edges) as (_ & Hreal & _).
    destruct (managedDeviceRootDepths edges !! te_ParentNode e) as [v|] eqn:Ev.
    + destruct (Hreal _ _ Ev) as (k & _ & Hh). exists k. by rewrite E2.
    + exfalso. apply Hn. unfold fleet_contradicted. apply elem_of_union_l, elem_of_union_r.
      unfold unrootedManagedDeviceLLDPEdgeKeys. rewrite <- Hk. apply elem_of_list_to_set, list_elem_of_fmap_2.
      apply elem_of_list_filter. split; [|done].
      assert (Hme : managed_link e = true) by (unfold managed_link in *; congruence).
      assert (Hle : edgeHasLLDP e = true) by (unfold edgeHasLLDP in *; congruence).
      rewrite Hme, Hle, Ev, (bool_decide_eq_false_2 _ is_Some_None), (proj2 (Z.eqb_eq _ 0)) by congruence. done.
  - destruct Hnew. rewrite <- E. by apply list_elem_of_fmap_2.
  - specialize (Hpos a Ha). lia.
Qed.

(** No two of the rows that are written are each below the other. *)
Lemma rows_one_way : one_way (store_apply next active (fleet_changes at_ active c)).
Proof.
  intros r r' Hr Hr' Hm Hl Hm' Hl' Hcp Hpc.
  destruct (kept_of_rows at_ next active c Hlive Hkeys Hids Hpos Hd r Hr) as (k & e & He & H1 & H2 & _ & H4 & _).
  destruct (kept_of_rows at_ next active c Hlive Hkeys Hids Hpos Hd r' Hr') as (k' & e' & He' & H1' & H2' & _ & H4' & _).
  apply (kept_not_reciprocal k k' e e'); try done; unfold managed_link, edgeHasLLDP in *; congruence.
Qed.
End Kept.

(** ** The theorems *)

Lemma graph_of_reconciled before next at_ active observed sources changes : durable before next active ->
  (forall o, o ∈ observed -> observation at_ o) ->
  ReconcileIntervalsBySource active observed at_ sources = Ok changes ->
  exists c, changes_by_source active observed at_ sources = Ok c /\ changes = fleet_changes at_ active c /\
    draft at_ active c /\ (forall e, e ∈ active -> live at_ e) /\ NoDup (map edgeSortKey active) /\
    NoDup (map te_ID active) /\ (forall e, e ∈ active -> 0 < te_ID e < next).
Proof.
  intros [[_ _ Hids Hnum] Hnext] Hobs Hrun.
  destruct (reconcile_parts active observed at_ sources changes) as (states & c & _ & Hc & -> & Hd & Hl & Hk & _);
    [done|done|intros e He; by apply Hnum|done|]. by exists c.
Qed.

(** C17 (invariant): no placement is picked over another. After a reconciliation, an
    active edge is marked as competing exactly when two active edges place its
    child at different parents or ports (the Internet apart), and an edge so
    marked is never more than ambiguous. The marks follow the whole fleet, not
    only the device that was polled. *)
Theorem competing_placements_are_marked (before at_ next : Z) (active observed : list TopologyEdge)
    (sources : list TopologySourceObservation) (changes : IntervalChanges)
    (Hstore : durable before next active) (Hobs : forall o, o ∈ observed -> observation at_ o)
    (Hrun : ReconcileIntervalsBySource active observed at_ sources = Ok changes) :
  let rows := store_apply next active changes in
  forall r, r ∈ rows ->
    (competingParentsAmbiguity ∈ te_Ambiguities r <-> competing rows (te_ChildNode r)) /\
    (competing rows (te_ChildNode r) -> te_Confidence r = "ambiguous").
Proof.
  destruct (graph_of_reconciled _ _ _ _ _ _ _ Hstore Hobs Hrun) as (c & _ & -> & Hd & Hl & Hk & Hi & Hn).
  intros rows r Hr. by eapply rows_marked.
Qed.

(** (safety) The managed hierarchy has one direction. After a reconciliation no
    two managed devices are each below the other by LLDP; and a link between
    managed devices that was first seen in this observation is opened only when
    its parent has a path of managed links to a device with a default route. *)
Theorem managed_links_have_one_direction (before at_ next : Z) (active observed : list TopologyEdge)
    (sources : list TopologySourceObservation) (changes : IntervalChanges)
    (Hstore : durable before next active) (Hobs : forall o, o ∈ observed -> observation at_ o)
    (Hrun : ReconcileIntervalsBySource active observed at_ sources = Ok changes) :
  one_way (store_apply next active changes) /\
  exists draft, changes_by_source active observed at_ sources = Ok draft /\
    forall u, u ∈ opened changes -> edgeSortKey u ∉ map edgeSortKey active ->
      managed_link u = true -> edgeHasLLDP u = true ->
      exists k, hops (map snd (map_to_list (future_edges active draft))) (te_ParentNode u) k.
Proof.
  destruct (graph_of_reconciled _ _ _ _ _ _ _ Hstore Hobs Hrun) as (c & Hc & -> & Hd & Hl & Hk & Hi & Hn).
  split.
  - by apply rows_one_way.
  - exists c. split; [done|]. intros u Hu Hnew Hm Hlldp. by eapply opened_rooted.
Qed.
