(* ===== verification/TopologyInferSpec.v ===== *)
(** * Topology inference: what the edges rest on

    [reports] says which observations place which child where, with the code's
    own conditions. The edges of [Infer] are exactly what is reported: every
    evidence of an edge is one of the reports on it, and every report is an
    evidence of an edge unless its placement is a contradicted aggregate. *)

From Stdlib Require Import ZArith Lia Ascii String.
From stdpp Require Import base gmap list strings sorting.
From S2P Require Import Prelude GoStr GoFmt NetIP F64 Topology TopologyIntervals TopologyIntervalsSpec.

Local Open Scope string_scope.
Local Open Scope Z_scope.

(** ** Folds *)

Lemma try_fold_inv {E S A} (f : S -> A -> res E S) (P : S -> Prop) l s s' :
  (forall s a s', a ∈ l -> P s -> f s a = Ok s' -> P s') -> P s -> try_fold f l s = Ok s' -> P s'.
Proof.
  revert s. induction l as [|a l IH]; intros s Hf Hs H; cbn [try_fold] in H; [by simplify_eq|].
  destruct (f s a) as [s1|] eqn:E1; [|done]. apply (IH s1); [|by apply (Hf s a); [left|..]|done].
  intros s2 b s3 Hb. apply Hf. by right.
Qed.

(** Something an element establishes and later steps keep. *)
Lemma try_fold_has {E S A} (f : S -> A -> res E S) (P Q : S -> Prop) l a s s' :
  (forall s b s', b ∈ l -> P s -> f s b = Ok s' -> P s') -> (forall s b s', b ∈ l -> Q s -> f s b = Ok s' -> Q s') ->
  (forall s s', P s -> f s a = Ok s' -> Q s') -> P s -> a ∈ l -> try_fold f l s = Ok s' -> Q s'.
Proof.
  revert s. induction l as [|b l IH]; intros s HP HQ Ha Hs Hin H; [by apply elem_of_nil in Hin|].
  cbn [try_fold] in H. destruct (f s b) as [s1|] eqn:E1; [|done].
  apply elem_of_cons in Hin as [->|Hin].
  - eapply (try_fold_inv f Q l s1); [|by eapply Ha|done]. intros s2 x s3 Hx. apply HQ. by right.
  - apply (IH s1); [| |done|by eapply (HP s); [left|..]|done|done]; intros s2 x s3 Hx; [apply HP|apply HQ]; by right.
Qed.

(** ** Reports *)

Section Reports.
Context (input : InferenceInput) (r : identityResolver) (nodes : gmap Z string).

(** The port and medium a bridge entry is placed with. *)
Definition entry_port (names : gmap Z string) (e : FDBEntry) : string := default "" (names !! fe_Port e).
Definition entry_medium (o : BridgeObservation) (names : gmap Z string) (e : FDBEntry) : string :=
  let known := default "" (br_PortMedia o !! fe_Port e) in
  if nonblank (entry_port names e) && nonblank known then known else "unknown".

(** Device [d] sees an address at a place, as an observation of a kind. *)
Inductive reports : edgeKey -> string -> Z -> Prop :=
| rep_fdb o e parent mac child ambiguity names states : o ∈ in_Bridges input -> e ∈ br_Entries o ->
    fe_Local e = false -> nodes !! br_DeviceID o = Some parent -> bridge_ports o = Ok (names, states) ->
    canonicalMAC (fe_MAC e) = Ok mac -> resolve r mac = (child, ambiguity) -> child <> parent ->
    reports (MkEdgeKey child parent (entry_port names e) (entry_medium o names e)) "bridge_fdb" (br_DeviceID o)
| rep_neighbor o e parent mac child ambiguity names states rows n : o ∈ in_Bridges input -> e ∈ br_Entries o ->
    fe_Local e = false -> nodes !! br_DeviceID o = Some parent -> bridge_ports o = Ok (names, states) ->
    canonicalMAC (fe_MAC e) = Ok mac -> resolve r mac = (child, ambiguity) -> child <> parent ->
    in_Neighbors input !! br_DeviceID o = Some rows -> n ∈ rows -> nb_MAC n <> "" ->
    canonicalMAC (nb_MAC n) = Ok mac ->
    reports (MkEdgeKey child parent (entry_port names e) (entry_medium o names e)) "neighbor" (br_DeviceID o)
| rep_association a parent mac child ambiguity : a ∈ in_Associations input ->
    nodes !! as_DeviceID a = Some parent -> canonicalMAC (as_MAC a) = Ok mac ->
    resolve r mac = (child, ambiguity) -> child <> parent ->
    reports (MkEdgeKey child parent (as_Interface a) "wireless") "association" (as_DeviceID a)
| rep_lldp link parent mac child ambiguity : link ∈ in_LLDP input ->
    nodes !! ll_DeviceID link = Some parent -> canonicalMAC (ll_RemoteMAC link) = Ok mac ->
    sourceFreshlyObserved (in_Sources input) (ll_DeviceID link) SourceLLDP (in_At input) = true ->
    resolve r mac = (child, ambiguity) -> child <> parent ->
    reports (MkEdgeKey child parent (ll_Port link) "wired") "lldp_neighbor" (ll_DeviceID link)
| rep_route u child : u ∈ in_Uplinks input -> nodes !! up_DeviceID u = Some child -> up_Active u = true ->
    reports (MkEdgeKey child InternetNode (up_Interface u) "uplink") "default_route" (up_DeviceID u).

(** ** Candidates *)

(** What a candidate holds: an edge of its key as this observation sees it,
    the reports on it, and a confidence that its evidence and ambiguities
    justify. *)
Record candidate_ok (k : edgeKey) (c : edgeCandidate) : Prop := MkCandidateOk {
  co_key : key_of (ca_edge c) = k;
  co_fresh : te_ID (ca_edge c) = 0 /\ te_ValidFrom (ca_edge c) = in_At input /\ te_LastSeen (ca_edge c) = in_At input /\
             te_ValidTo (ca_edge c) = None /\ te_Evidence (ca_edge c) = [];
  co_some : ca_evidence c <> [];
  co_reports : forall ev, ev ∈ ca_evidence c -> reports k (ee_Kind ev) (ee_DeviceID ev);
  co_confidence :
    (te_Confidence (ca_edge c) = "measured" /\ exists ev, ev ∈ ca_evidence c /\ measured_kind (ee_Kind ev) = true) \/
    te_Confidence (ca_edge c) = "inferred" \/
    (te_Confidence (ca_edge c) = "ambiguous" /\ ca_ambiguities c <> ∅);
  co_measured : (exists ev, ev ∈ ca_evidence c /\ measured_kind (ee_Kind ev) = true) ->
    te_Confidence (ca_edge c) = "measured" \/ ca_ambiguities c <> ∅;
  co_unmarked : competingParentsAmbiguity ∉ ca_ambiguities c
}.

Definition state_ok (s : inference) : Prop := forall k c, if_candidates s !! k = Some c -> candidate_ok k c.

(** A candidate for the key has evidence of the kind from the device. *)
Definition has (k : edgeKey) (kind : string) (d : Z) (s : inference) : Prop :=
  exists c ev, if_candidates s !! k = Some c /\ ev ∈ ca_evidence c /\ ee_Kind ev = kind /\ ee_DeviceID ev = d.

(** One observation of an edge. *)
Definition contribution (edge : TopologyEdge) (ev : EdgeEvidence) (ambs : list string) : Prop :=
  te_ID edge = 0 /\ te_ValidFrom edge = in_At input /\ te_LastSeen edge = in_At input /\ te_ValidTo edge = None /\
  te_Evidence edge = [] /\ reports (key_of edge) (ee_Kind ev) (ee_DeviceID ev) /\
  ((te_Confidence edge = "measured" /\ measured_kind (ee_Kind ev) = true) \/ te_Confidence edge = "inferred" \/
   (te_Confidence edge = "ambiguous" /\ exists a, a ∈ ambs /\ nonblank a = true)) /\
  (measured_kind (ee_Kind ev) = true -> te_Confidence edge = "measured" \/ exists a, a ∈ ambs /\ nonblank a = true) /\
  competingParentsAmbiguity ∉ ambs.

Lemma add_same edge ev ambs s : if_candidates (add edge ev ambs s) !! key_of edge =
  Some (merge_candidate (if_candidates s !! key_of edge) edge ev ambs).
Proof. cbn [add if_candidates]. by rewrite lookup_insert_eq. Qed.
Lemma add_other edge ev ambs s k : k <> key_of edge -> if_candidates (add edge ev ambs s) !! k = if_candidates s !! k.
Proof. intros Hk. cbn [add if_candidates]. by rewrite lookup_insert_ne. Qed.

Lemma merge_evidence old edge ev ambs : ca_evidence (merge_candidate old edge ev ambs) =
  (match old with Some c => ca_evidence c | None => [] end ++ [ev])%list.
Proof. by destruct old. Qed.

Lemma merge_ambiguities old edge ev ambs : ca_ambiguities (merge_candidate old edge ev ambs) =
  list_to_set (List.filter nonblank ambs) ∪ match old with Some c => ca_ambiguities c | None => ∅ end.
Proof. by destruct old. Qed.

Lemma merge_fields old edge ev ambs :
  let e := ca_edge (merge_candidate old edge ev ambs) in
  let b := match old with Some c => ca_edge c | None => edge end in
  key_of e = key_of b /\ te_ID e = te_ID b /\ te_ValidFrom e = te_ValidFrom b /\ te_LastSeen e = te_LastSeen b /\
  te_ValidTo e = te_ValidTo b /\ te_Evidence e = te_Evidence b /\
  te_Confidence e = (if String.eqb (te_Confidence edge) "measured" then "measured" else te_Confidence b).
Proof.
  destruct old as [c|]; unfold merge_candidate; cbn [ca_edge].
  - destruct (nonblank (te_ChildMAC edge) && _), (String.eqb (te_Confidence edge) "measured"); done.
  - destruct (String.eqb (te_Confidence edge) "measured"); done.
Qed.

Lemma merge_ok old edge ev ambs : contribution edge ev ambs ->
  (forall c, old = Some c -> candidate_ok (key_of edge) c) ->
  candidate_ok (key_of edge) (merge_candidate old edge ev ambs).
Proof.
  intros (H1 & H2 & H3 & H4 & H5 & Hrep & Hconf & Hmeas & Hmark) Hold.
  destruct (merge_fields old edge ev ambs) as (Ek & E1 & E2 & E3 & E4 & E5 & E6).
  assert (Hin : ev ∈ ca_evidence (merge_candidate old edge ev ambs)) by (rewrite merge_evidence; set_solver).
  assert (Hne : forall X : gset string, X ⊆ ca_ambiguities (merge_candidate old edge ev ambs) -> X <> ∅ ->
            ca_ambiguities (merge_candidate old edge ev ambs) <> ∅) by (clear; set_solver).
  assert (Hamb : forall a, a ∈ ambs -> nonblank a = true -> ca_ambiguities (merge_candidate old edge ev ambs) <> ∅).
  { intros a Ha Hb. apply (Hne {[a]}); [|set_solver]. rewrite merge_ambiguities.
    apply singleton_subseteq_l, elem_of_union_l, elem_of_list_to_set, elem_of_list_filter. done. }
  assert (Hkept : forall c, old = Some c -> ca_ambiguities c <> ∅ -> ca_ambiguities (merge_candidate old edge ev ambs) <> ∅).
  { intros c -> Hc. apply (Hne (ca_ambiguities c)); [|done]. rewrite merge_ambiguities. set_solver. }
  constructor.
  - rewrite Ek. destruct old as [c|]; [|done]. by destruct (Hold c eq_refl).
  - rewrite E1, E2, E3, E4, E5. destruct old as [c|]; [|done]. by destruct (Hold c eq_refl).
  - intros E. rewrite E in Hin. by apply elem_of_nil in Hin.
  - intros x Hx. rewrite merge_evidence in Hx. apply elem_of_app in Hx as [Hx|Hx%list_elem_of_singleton].
    + destruct old as [c|]; [|by apply elem_of_nil in Hx]. destruct (Hold c eq_refl). auto.
    + by subst x.
  - rewrite E6. destruct (String.eqb (te_Confidence edge) "measured") eqn:Em.
    + bool_prop. left. split; [done|]. exists ev. split; [done|].
      destruct Hconf as [[_ ?]|[E|[E _]]]; [done|congruence..].
    + destruct old as [c|].
      * destruct (Hold c eq_refl) as [_ _ _ _ [(E & ev' & Hev & Hm)|[E|[E Ha]]] _ _].
        -- left. split; [done|]. exists ev'. split; [|done]. rewrite merge_evidence. by apply elem_of_app; left.
        -- by right; left.
        -- right. right. split; [done|]. by apply (Hkept c).
      * destruct Hconf as [[E _]|[E|[E (a & Ha & Hb)]]]; [by rewrite E in Em|by right; left|].
        right. right. split; [done|]. by apply (Hamb a).
  - intros (x & Hx & Hm). rewrite E6. destruct (String.eqb (te_Confidence edge) "measured") eqn:Em; [by left|].
    rewrite merge_evidence in Hx. apply elem_of_app in Hx as [Hx|Hx%list_elem_of_singleton].
    + destruct old as [c|]; [|by apply elem_of_nil in Hx]. destruct (co_measured _ _ (Hold c eq_refl)) as [E|E]; [eauto|by left|].
      right. by apply (Hkept c).
    + subst x. destruct (Hmeas Hm) as [E|(a & Ha & Hb)]; [by rewrite E in Em|]. right. by apply (Hamb a).
  - rewrite merge_ambiguities, not_elem_of_union, elem_of_list_to_set, elem_of_list_filter. split; [tauto|].
    destruct old as [c|]; [apply (Hold c eq_refl)|apply not_elem_of_empty].
Qed.

Lemma add_ok edge ev ambs s : contribution edge ev ambs -> state_ok s -> state_ok (add edge ev ambs s).
Proof.
  intros Hc Hs k c Hk. destruct (decide (k = key_of edge)) as [->|Hne].
  - rewrite add_same in Hk. injection Hk as <-. apply merge_ok; [done|]. intros c' Hc'. by apply Hs.
  - rewrite add_other in Hk by done. by apply Hs.
Qed.

Lemma add_has edge ev ambs s k kind d : has k kind d s -> has k kind d (add edge ev ambs s).
Proof.
  intros (c & x & Hc & Hx & Hk & Hd). destruct (decide (k = key_of edge)) as [->|Hne].
  - exists (merge_candidate (if_candidates s !! key_of edge) edge ev ambs), x. rewrite add_same, Hc, merge_evidence.
    split_and!; [done|by apply elem_of_app; left|done..].
  - exists c, x. by rewrite add_other.
Qed.

Lemma add_new edge ev ambs s : has (key_of edge) (ee_Kind ev) (ee_DeviceID ev) (add edge ev ambs s).
Proof.
  exists (merge_candidate (if_candidates s !! key_of edge) edge ev ambs), ev. rewrite add_same, merge_evidence.
  split_and!; [done|apply elem_of_app; right; left|done..].
Qed.

(** ** What the gaps say *)

(** Something is known to be missing. *)
Definition incomplete (s : inference) : Prop := exists g, g ∈ if_gaps s /\ nonblank g = true.
(** A bridge reports an address at a port it does not name or of no known medium. *)
Definition unclear : Prop := exists k d, reports k "bridge_fdb" d /\ (ek_port k = "" \/ ek_medium k = "unknown").

(** ** The sources of contributions *)

(** Both halves of an observation's step: what it keeps, and that it keeps what
    is there. *)
Definition sound_step (s s' : inference) : Prop :=
  (state_ok s -> state_ok s') /\ (forall k kind d, has k kind d s -> has k kind d s') /\
  (incomplete s -> incomplete s') /\ (incomplete s' -> incomplete s \/ unclear).

Lemma sound_refl s : sound_step s s.
Proof. split_and!; auto. Qed.
Lemma sound_trans s1 s2 s3 : sound_step s1 s2 -> sound_step s2 s3 -> sound_step s1 s3.
Proof. intros (H1 & H2 & H3 & H4) (K1 & K2 & K3 & K4). split_and!; auto. intros H. destruct (K4 H); auto. Qed.
Lemma sound_add edge ev ambs s : contribution edge ev ambs -> sound_step s (add edge ev ambs s).
Proof. intros Hc. split_and!; [by apply add_ok|intros k kind d; apply add_has|done|by left]. Qed.
Lemma sound_gaps l s : (l <> [] -> unclear) -> sound_step s (add_gaps l s).
Proof.
  intros Hl. split_and!; [done..| |].
  - intros (g & Hg & Hb). exists g. split; [apply elem_of_app; by left|done].
  - intros (g & [Hg|Hg]%elem_of_app & Hb); [left; by exists g|]. right. apply Hl. intros ->. by apply elem_of_nil in Hg.
Qed.

Lemma sound_fold_left {A} (f : inference -> A -> inference) l s :
  (forall s a, a ∈ l -> sound_step s (f s a)) -> sound_step s (fold_left f l s).
Proof.
  revert s. induction l as [|a l IH]; intros s Hf; [apply sound_refl|]. cbn [fold_left].
  eapply sound_trans; [apply (Hf s a); left|]. apply IH. intros s' b Hb. apply Hf. by right.
Qed.

Lemma sound_try_fold {A} (f : inference -> A -> res error inference) l s s' :
  (forall s a s', a ∈ l -> f s a = Ok s' -> sound_step s s') -> try_fold f l s = Ok s' -> sound_step s s'.
Proof.
  revert s. induction l as [|a l IH]; intros s Hf H; cbn [try_fold] in H; [simplify_eq; apply sound_refl|].
  destruct (f s a) as [s1|] eqn:E; [|done]. eapply sound_trans; [apply (Hf s a); [left|done]|].
  apply IH; [|done]. intros s2 b s3 Hb. apply Hf. by right.
Qed.

(** ** Neighbours *)

Lemma add_neighbors_spec rows m m' : try_fold add_neighbor rows m = Ok m' -> forall mac n,
  n ∈ default [] (m' !! mac) <->
  n ∈ default [] (m !! mac) \/ (n ∈ rows /\ nb_MAC n <> "" /\ canonicalMAC (nb_MAC n) = Ok mac).
Proof.
  revert m. induction rows as [|x rows IH]; intros m H mac n; cbn [try_fold] in H.
  - simplify_eq. rewrite elem_of_nil. tauto.
  - unfold add_neighbor in H at 1. destruct (String.eqb (nb_MAC x) "") eqn:E.
    + rewrite (IH _ H). bool_prop. rewrite elem_of_cons. split; [tauto|]. intros [?|([->|?] & ? & ?)]; tauto.
    + destruct (canonicalMAC (nb_MAC x)) as [mx|] eqn:Em; [|done]. rewrite (IH _ H). bool_prop.
      rewrite elem_of_cons. destruct (decide (mx = mac)) as [->|Hne].
      * rewrite lookup_insert_eq. cbn [from_option id]. rewrite elem_of_app, list_elem_of_singleton.
        split; [intros [[?| ->]|?]; tauto|]. intros [?|([->|?] & ? & ?)]; tauto.
      * rewrite lookup_insert_ne by done. split; [tauto|]. intros [?|([->|?] & ? & ?)]; [tauto|congruence|tauto].
Qed.

Definition neighbor_rows (t : neighbor_table) (d : Z) (mac : string) : list Neighbor :=
  default [] (default ∅ (t !! d) !! mac).

Lemma neighbor_fold_spec l t t' : NoDup (map fst l) -> try_fold (neighbors_of_device nodes) l t = Ok t' ->
  forall d mac n, n ∈ neighbor_rows t' d mac <->
    (n ∈ neighbor_rows t d mac /\ d ∉ map fst l) \/
    (exists rows, (d, rows) ∈ l /\ n ∈ rows /\ nb_MAC n <> "" /\ canonicalMAC (nb_MAC n) = Ok mac).
Proof.
  revert t. induction l as [|[d0 rows0] l IH]; intros t Hn H d mac n; cbn [try_fold] in H.
  - simplify_eq. split; [intros ?; left; split; [done|apply not_elem_of_nil]|].
    intros [[? _]|(? & []%elem_of_nil & _)]. done.
  - unfold neighbors_of_device in H at 1. destruct (nodes !! d0); [|done].
    destruct (try_fold add_neighbor rows0 ∅) as [m|] eqn:Em; [|done]. cbn [map fst] in Hn.
    apply NoDup_cons in Hn as [Hd0 Hn]. rewrite (IH _ Hn H). cbn [map fst]. rewrite not_elem_of_cons.
    setoid_rewrite elem_of_cons. unfold neighbor_rows at 1. destruct (decide (d = d0)) as [->|Hne].
    + rewrite lookup_insert_eq. cbn [from_option id]. rewrite (add_neighbors_spec _ _ _ Em), lookup_empty.
      cbn [from_option id]. rewrite elem_of_nil. split.
      * intros [[[[]|?] _]|(rows & Hin & Hr)]; right; [by exists rows0; split; [left|]|].
        destruct Hd0. by apply (list_elem_of_fmap_2 fst _ (d0, rows)).
      * intros [[_ [? _]]|(rows & [E|Hin] & Hr)]; [done| |].
        -- simplify_eq. left. tauto.
        -- right. eauto.
    + rewrite lookup_insert_ne by done. change (default [] (default ∅ (t !! d) !! mac)) with (neighbor_rows t d mac).
      split.
      * intros [[? ?]|(rows & ? & ?)]; [left; tauto|right; eauto].
      * intros [[? [_ ?]]|(rows & [E|Hin] & Hr)]; [left; tauto|simplify_eq|right; eauto].
Qed.

Lemma neighbor_index_spec t : neighbor_index nodes (in_Neighbors input) = Ok t -> forall d mac n,
  n ∈ neighbor_rows t d mac <->
  exists rows, in_Neighbors input !! d = Some rows /\ n ∈ rows /\ nb_MAC n <> "" /\ canonicalMAC (nb_MAC n) = Ok mac.
Proof.
  intros H d mac n. rewrite (neighbor_fold_spec _ _ _ (NoDup_fst_map_to_list _) H).
  setoid_rewrite elem_of_map_to_list. unfold neighbor_rows at 1. rewrite lookup_empty. cbn [from_option id].
  rewrite lookup_empty. cbn [from_option id]. rewrite elem_of_nil. tauto.
Qed.

(** ** Bridges *)

Lemma resolved_unmarked mac child ambiguity : resolve r mac = (child, ambiguity) -> ambiguity <> competingParentsAmbiguity.
Proof.
  unfold resolve. destruct (elements _) as [|x [|y l]]; [destruct (bool_decide _)|..]; intros [= _ <-]; discriminate.
Qed.

Lemma entry_unmarked ambiguity p : ambiguity <> competingParentsAmbiguity -> competingParentsAmbiguity ∉ entry_ambiguities ambiguity p.
Proof.
  intros Ha. unfold entry_ambiguities. rewrite !not_elem_of_app. split_and!; [rewrite list_elem_of_singleton; congruence|..];
    match goal with |- _ ∉ (if ?b then _ else _) => destruct b end; first [apply not_elem_of_nil|rewrite list_elem_of_singleton; discriminate].
Qed.

Lemma entry_gaps_clear o e p : entry_gaps o e p = [] <-> pl_port p <> "" /\ pl_medium p <> "unknown".
Proof.
  unfold entry_gaps. destruct (String.eqb (pl_port p) "") eqn:E1, (String.eqb (pl_medium p) "unknown") eqn:E2; bool_prop;
    split; intros H; try done; destruct H; congruence.
Qed.
Lemma entry_gaps_blank o e p g : g ∈ entry_gaps o e p -> nonblank g = true.
Proof.
  unfold entry_gaps. destruct (String.eqb (pl_port p) ""), (String.eqb (pl_medium p) "unknown"); cbn [app];
    rewrite ?elem_of_cons, ?elem_of_nil; intros H; repeat (destruct H as [->|H]; [reflexivity|]); done.
Qed.

Lemma entry_contribution o e parent mac child ambiguity names states peers rows kind source d detail :
  let v := MkBridgeView input r peers rows o parent names states in
  let p := place_entry v child e in
  reports (MkEdgeKey child parent (entry_port names e) (entry_medium o names e)) kind (br_DeviceID o) ->
  d = br_DeviceID o -> measured_kind kind = false -> ambiguity <> competingParentsAmbiguity ->
  contribution (placed child mac parent (Some (br_DeviceID o)) (pl_port p) (pl_medium p)
                  (entry_confidence ambiguity p) (in_At input))
    (MkEvidence kind source d detail) (entry_ambiguities ambiguity p).
Proof.
  intros v p Hrep -> Hkind Hamb. unfold contribution, placed. cbn [te_ID te_ValidFrom te_LastSeen te_ValidTo te_Evidence ee_Kind].
  split_and!; [done..|exact Hrep| |congruence|by apply entry_unmarked]. right. cbn [te_Confidence]. unfold entry_confidence, entry_ambiguities.
  destruct (pl_transit p) eqn:E1; [right; split; [done|]; exists managedLinkTransitAmbiguity; split; [set_solver|done]|].
  destruct (nonblank ambiguity) eqn:E2; [right; split; [done|]; exists ambiguity; split; [set_solver|done]|].
  destruct (bool_decide (1 < size (pl_peers p))%nat) eqn:E3;
    [right; split; [done|]; exists several_peers; split; [set_solver|done]|].
  destruct (String.eqb (pl_port p) "") eqn:E4; [right; split; [done|]; exists unmapped_port; split; [set_solver|done]|].
  destruct (String.eqb (pl_medium p) "unknown") eqn:E5; [right; split; [done|]; exists unknown_medium; split; [set_solver|done]|].
  by left.
Qed.

Lemma bridge_entry_spec o e parent names states peers rows s s' :
  o ∈ in_Bridges input -> e ∈ br_Entries o -> nodes !! br_DeviceID o = Some parent -> bridge_ports o = Ok (names, states) ->
  (forall mac n, n ∈ default [] (rows !! mac) <-> exists l, in_Neighbors input !! br_DeviceID o = Some l /\ n ∈ l /\
     nb_MAC n <> "" /\ canonicalMAC (nb_MAC n) = Ok mac) ->
  bridge_entry (MkBridgeView input r peers rows o parent names states) s e = Ok s' ->
  sound_step s s' /\
  forall mac child ambiguity, fe_Local e = false -> canonicalMAC (fe_MAC e) = Ok mac -> resolve r mac = (child, ambiguity) ->
    child <> parent ->
    has (MkEdgeKey child parent (entry_port names e) (entry_medium o names e)) "bridge_fdb" (br_DeviceID o) s' /\
    (entry_port names e = "" \/ entry_medium o names e = "unknown" -> incomplete s') /\
    forall n, n ∈ default [] (rows !! mac) ->
      has (MkEdgeKey child parent (entry_port names e) (entry_medium o names e)) "neighbor" (br_DeviceID o) s'.
Proof.
  intros Ho He Hp Hports Hrows H. unfold bridge_entry in H.
  destruct (fe_Local e) eqn:El; [simplify_eq; split; [apply sound_refl|done]|].
  destruct (canonicalMAC (fe_MAC e)) as [mac|] eqn:Em; [|done]. cbn [bv_resolver bv_parent bv_bridge bv_input bv_neighbors] in H.
  destruct (resolve r mac) as [child amb] eqn:Er. destruct (String.eqb child parent) eqn:Ec.
  { simplify_eq. bool_prop. split; [apply sound_refl|]. intros m2 c2 a2 _ E2 E3 Hne. congruence. }
  bool_prop. set (p := place_entry _ child e) in H.
  set (edge := placed _ _ _ _ _ _ _ _) in H. set (s1 := add edge _ _ _) in H.
  assert (Hkey : key_of edge = MkEdgeKey child parent (entry_port names e) (entry_medium o names e)) by reflexivity.
  assert (Hunmarked : amb <> competingParentsAmbiguity) by by eapply resolved_unmarked.
  assert (Hgap : entry_port names e = "" \/ entry_medium o names e = "unknown" <-> entry_gaps o e p <> []).
  { pose proof (entry_gaps_clear o e p) as Hclear.
    change (pl_port p) with (entry_port names e) in Hclear. change (pl_medium p) with (entry_medium o names e) in Hclear.
    rewrite Hclear. destruct (decide (entry_port names e = "")), (decide (entry_medium o names e = "unknown")); tauto. }
  assert (Hs1 : sound_step s s1 /\ (entry_gaps o e p <> [] -> incomplete s1)).
  { split.
    - eapply sound_trans; [apply sound_gaps|].
      + intros Hne. exists (key_of edge), (br_DeviceID o). rewrite Hkey. split; [by eapply rep_fdb|by apply Hgap].
      + apply sound_add. eapply entry_contribution; [|done..]. by eapply rep_fdb.
    - intros Hne. destruct (entry_gaps o e p) as [|g l] eqn:Eg; [done|]. exists g. split; [apply elem_of_app; right; left|].
      apply (entry_gaps_blank o e p). rewrite Eg. left. }
  destruct Hs1 as [Hs1 Hinc].
  injection H as <-.
  assert (H2 : sound_step s1 (fold_left (fun s n => add edge (neighbor_evidence (br_DeviceID o) mac n)
                                           (entry_ambiguities amb p) s) (default [] (rows !! mac)) s1)).
  { apply sound_fold_left. intros s2 n Hn. apply sound_add.
    apply Hrows in Hn as (l & Hl & Hn & Hb & Hc). eapply entry_contribution; [|done..].
    by eapply rep_neighbor. }
  split; [by eapply sound_trans|]. intros m2 c2 a2 _ [= <-] E3 _. rewrite Er in E3. injection E3 as <- <-. rewrite <- Hkey. split_and!.
  - apply H2, (add_new edge (MkEvidence _ _ _ _)).
  - intros Hbad. by apply H2, Hinc, Hgap.
  - intros n Hn. assert (Hgen : forall l s2, n ∈ l -> (forall x, x ∈ l -> x ∈ default [] (rows !! mac)) ->
      has (key_of edge) "neighbor" (br_DeviceID o)
        (fold_left (fun s n => add edge (neighbor_evidence (br_DeviceID o) mac n) (entry_ambiguities amb p) s) l s2)).
    2: { by apply Hgen. }
    clear Hn. induction l as [|x l IH]; intros s2 Hn Hl; [by apply elem_of_nil in Hn|]. cbn [fold_left].
    apply elem_of_cons in Hn as [->|Hn]; [|apply IH; [done|]; intros y Hy; apply Hl; by right].
    assert (Hkeep : sound_step (add edge (neighbor_evidence (br_DeviceID o) mac x) (entry_ambiguities amb p) s2)
      (fold_left (fun s n => add edge (neighbor_evidence (br_DeviceID o) mac n) (entry_ambiguities amb p) s) l
         (add edge (neighbor_evidence (br_DeviceID o) mac x) (entry_ambiguities amb p) s2))).
    { apply sound_fold_left. intros s3 y Hy. apply sound_add.
      assert (Hy' : y ∈ default [] (rows !! mac)) by (apply Hl; by right).
      apply Hrows in Hy' as (l' & Hl' & Hn' & Hb & Hc). eapply entry_contribution; [|done..]. by eapply rep_neighbor. }
    apply Hkeep. apply (add_new edge (neighbor_evidence (br_DeviceID o) mac x)).
Qed.

Context (nbrs : neighbor_table) (Hnbrs : neighbor_index nodes (in_Neighbors input) = Ok nbrs).

Lemma bridge_rows o mac n : n ∈ default [] (default ∅ (nbrs !! br_DeviceID o) !! mac) <->
  exists l, in_Neighbors input !! br_DeviceID o = Some l /\ n ∈ l /\ nb_MAC n <> "" /\ canonicalMAC (nb_MAC n) = Ok mac.
Proof. apply (neighbor_index_spec nbrs Hnbrs). Qed.

Lemma observe_bridge_sound peers s o s' : o ∈ in_Bridges input ->
  observe_bridge input r nodes nbrs peers s o = Ok s' -> sound_step s s'.
Proof.
  intros Ho H. unfold observe_bridge in H. destruct (nodes !! br_DeviceID o) as [parent|] eqn:Ep; [|done].
  destruct (negb _); [done|]. destruct (bridge_ports o) as [[names states]|] eqn:Eb; [|done].
  eapply sound_try_fold; [|exact H]. intros s1 e s2 He H1.
  by eapply bridge_entry_spec in H1 as [? _]; [..|apply bridge_rows].
Qed.

Lemma observe_bridge_has peers s o s' e parent mac child ambiguity names states : o ∈ in_Bridges input ->
  observe_bridge input r nodes nbrs peers s o = Ok s' -> e ∈ br_Entries o -> fe_Local e = false ->
  nodes !! br_DeviceID o = Some parent -> bridge_ports o = Ok (names, states) ->
  canonicalMAC (fe_MAC e) = Ok mac -> resolve r mac = (child, ambiguity) -> child <> parent ->
  has (MkEdgeKey child parent (entry_port names e) (entry_medium o names e)) "bridge_fdb" (br_DeviceID o) s' /\
  (entry_port names e = "" \/ entry_medium o names e = "unknown" -> incomplete s') /\
  forall n, n ∈ default [] (default ∅ (nbrs !! br_DeviceID o) !! mac) ->
    has (MkEdgeKey child parent (entry_port names e) (entry_medium o names e)) "neighbor" (br_DeviceID o) s'.
Proof.
  intros Ho H He Hl Hp Hb Hm Hr Hne. unfold observe_bridge in H. rewrite Hp, Hb in H.
  destruct (negb _); [done|].
  assert (Hstep : forall s1 x s2, x ∈ br_Entries o ->
    bridge_entry (MkBridgeView input r peers (default ∅ (nbrs !! br_DeviceID o)) o parent names states) s1 x = Ok s2 ->
    sound_step s1 s2).
  { intros s1 x s2 Hx H1. by eapply bridge_entry_spec in H1 as [? _]; [..|apply bridge_rows]. }
  assert (Hgo : forall Q : inference -> Prop, (forall s1 s2, sound_step s1 s2 -> Q s1 -> Q s2) ->
    (forall s1 s2, bridge_entry (MkBridgeView input r peers (default ∅ (nbrs !! br_DeviceID o)) o parent names states) s1 e = Ok s2 -> Q s2) ->
    Q s').
  { intros Q Hk Ha. eapply (try_fold_has _ (fun _ => True) Q _ e); [done| | |done|exact He|exact H].
    - intros s1 x s2 Hx Hq H1. by eapply Hk; [eapply Hstep|].
    - intros s1 s2 _ H1. by eapply Ha. }
  assert (Hkeeps : forall k kind, forall s1 s2, sound_step s1 s2 -> has k kind (br_DeviceID o) s1 -> has k kind (br_DeviceID o) s2)
    by (intros k kind s1 s2 (_ & ? & _); auto).
  split_and!; [|intros Hbad|intros n Hn]; (apply Hgo; [try apply Hkeeps|intros s1 s2 H1;
    (eapply bridge_entry_spec in H1 as [_ H1]; [|done..|apply bridge_rows]);
    destruct (H1 mac child ambiguity Hl Hm Hr Hne) as (Hfdb & Hunc & Hnbr)]); [exact Hfdb| |exact (Hunc Hbad)|exact (Hnbr n Hn)].
  intros s1 s2 (_ & _ & ? & _). auto.
Qed.

(** ** Associations, uplinks and LLDP *)

Lemma measured_contribution edge ev identity : identity <> competingParentsAmbiguity -> reports (key_of edge) (ee_Kind ev) (ee_DeviceID ev) ->
  measured_kind (ee_Kind ev) = true -> te_Confidence edge = measured_unless identity ->
  te_ID edge = 0 /\ te_ValidFrom edge = in_At input /\ te_LastSeen edge = in_At input /\ te_ValidTo edge = None /\
  te_Evidence edge = [] -> contribution edge ev [identity].
Proof.
  intros Hi Hr Hk Hc (H1 & H2 & H3 & H4 & H5). split_and!; [done..| | |rewrite list_elem_of_singleton; congruence];
    rewrite Hc; unfold measured_unless; destruct (nonblank identity) eqn:E; try (by left).
  - right. right. split; [done|]. exists identity. split; [left|done].
  - right. exists identity. split; [left|done].
Qed.

Lemma observe_association_spec s a s' : a ∈ in_Associations input -> observe_association input r nodes s a = Ok s' ->
  sound_step s s' /\ forall parent mac child ambiguity, nodes !! as_DeviceID a = Some parent ->
    canonicalMAC (as_MAC a) = Ok mac -> resolve r mac = (child, ambiguity) -> child <> parent ->
    has (MkEdgeKey child parent (as_Interface a) "wireless") "association" (as_DeviceID a) s'.
Proof.
  intros Ha H. unfold observe_association in H. destruct (nodes !! as_DeviceID a) as [parent|] eqn:Ep; [|done].
  destruct (negb _); [done|]. destruct (canonicalMAC (as_MAC a)) as [mac|] eqn:Em; [|done].
  destruct (resolve r mac) as [child amb] eqn:Er. destruct (String.eqb child parent) eqn:Ec; injection H as <-.
  { bool_prop. split; [apply sound_refl|]. intros p2 m2 c2 a2 [= <-] [= <-] E3 Hne. congruence. }
  bool_prop. split.
  - apply sound_add, measured_contribution; [by eapply resolved_unmarked|by eapply rep_association|done..].
  - intros p2 m2 c2 a2 [= <-] [= <-] E3 _. rewrite Er in E3. injection E3 as <- <-.
    apply (add_new (placed child mac parent (Some (as_DeviceID a)) (as_Interface a) "wireless" _ _) (MkEvidence _ _ _ _)).
Qed.

Lemma observe_uplink_spec s u s' : u ∈ in_Uplinks input -> observe_uplink input nodes s u = Ok s' ->
  sound_step s s' /\ forall child, nodes !! up_DeviceID u = Some child -> up_Active u = true ->
    has (MkEdgeKey child InternetNode (up_Interface u) "uplink") "default_route" (up_DeviceID u) s'.
Proof.
  intros Hu H. unfold observe_uplink in H. destruct (nodes !! up_DeviceID u) as [child|] eqn:Ep; [|done].
  destruct (negb (up_Active u)) eqn:Ea; [injection H as <-; bool_prop; split; [apply sound_refl|congruence]|].
  destruct (negb (validInterfaceName _)); [done|]. injection H as <-. bool_prop. split.
  - apply sound_add. split_and!; [done..|by eapply rep_route| | |by apply not_elem_of_nil]; by left.
  - intros c2 [= <-] _. apply (add_new (placed child "" InternetNode None (up_Interface u) "uplink" _ _) (MkEvidence _ _ _ _)).
Qed.

(** What the LLDP pass collects. *)
Definition lldp_seen (o : observedLLDP) : Prop :=
  ol_link o ∈ in_LLDP input /\ nodes !! ll_DeviceID (ol_link o) = Some (ol_parent o) /\
  canonicalMAC (ll_RemoteMAC (ol_link o)) = Ok (ol_mac o) /\
  sourceFreshlyObserved (in_Sources input) (ll_DeviceID (ol_link o)) SourceLLDP (in_At input) = true /\
  resolve r (ol_mac o) = (ol_child o, ol_identityAmbiguity o).

Lemma observe_lldp_spec s link s' : link ∈ in_LLDP input -> observe_lldp input r nodes s link = Ok s' ->
  (forall o, o ∈ snd s' -> o ∈ snd s \/ lldp_seen o) /\ (forall o, o ∈ snd s -> o ∈ snd s') /\
  forall parent mac child ambiguity, nodes !! ll_DeviceID link = Some parent ->
    canonicalMAC (ll_RemoteMAC link) = Ok mac ->
    sourceFreshlyObserved (in_Sources input) (ll_DeviceID link) SourceLLDP (in_At input) = true ->
    resolve r mac = (child, ambiguity) -> MkObservedLLDP link parent child mac ambiguity ∈ snd s'.
Proof.
  intros Hl H. unfold observe_lldp in H. destruct (nodes !! ll_DeviceID link) as [parent|] eqn:Ep; [|done].
  destruct (negb (validInterfaceName _)); [done|]. destruct (canonicalMAC _) as [mac|] eqn:Em; [|done].
  destruct (negb (sourceFreshlyObserved _ _ _ _)) eqn:Ef.
  { injection H as <-. bool_prop. split_and!; [auto|auto|]. intros. congruence. }
  bool_prop. destruct (resolve r mac) as [peer amb] eqn:Er.
  set (o1 := MkObservedLLDP link parent peer mac amb) in H.
  assert (Hs : snd s' = (snd s ++ [o1])%list) by (destruct (_ || _ || _); by injection H as <-).
  assert (Ho1 : lldp_seen o1) by (by split_and!). rewrite Hs. split_and!.
  - intros o Ho. apply elem_of_app in Ho as [Ho|Ho%list_elem_of_singleton]; [by left|right; by subst o].
  - intros o Ho. apply elem_of_app. by left.
  - intros p2 m2 c2 a2 [= <-] [= <-] _ E. rewrite Er in E. injection E as <- <-. apply elem_of_app. right. left.
Qed.

Lemma lldp_pass_spec peers fresh : try_fold (observe_lldp input r nodes) (in_LLDP input) (∅, []) = Ok (peers, fresh) ->
  (forall o, o ∈ fresh -> lldp_seen o) /\
  forall link parent mac child ambiguity, link ∈ in_LLDP input -> nodes !! ll_DeviceID link = Some parent ->
    canonicalMAC (ll_RemoteMAC link) = Ok mac ->
    sourceFreshlyObserved (in_Sources input) (ll_DeviceID link) SourceLLDP (in_At input) = true ->
    resolve r mac = (child, ambiguity) -> MkObservedLLDP link parent child mac ambiguity ∈ fresh.
Proof.
  intros H. split.
  - change (forall o, o ∈ snd (peers, fresh) -> lldp_seen o).
    eapply (try_fold_inv _ (fun s => forall o, o ∈ snd s -> lldp_seen o)); [| |exact H].
    + intros s a s' Ha Hs H1 o Ho. destruct (observe_lldp_spec s a s' Ha H1) as (H2 & _). destruct (H2 o Ho); auto.
    + intros o Ho. by apply elem_of_nil in Ho.
  - intros link parent mac child amb Hl Hp Hm Hf Hr.
    change (MkObservedLLDP link parent child mac amb ∈ snd (peers, fresh)).
    eapply (try_fold_has _ (fun _ => True) (fun s => MkObservedLLDP link parent child mac amb ∈ snd s) _ link);
      [done| | |done|exact Hl|exact H].
    + intros s b s' Hb Hin H1. destruct (observe_lldp_spec s b s' Hb H1) as (_ & H2 & _). auto.
    + intros s s' _ H1. destruct (observe_lldp_spec s link s' Hl H1) as (_ & _ & H2). by apply H2.
Qed.

Lemma place_lldp_sound s o : lldp_seen o -> sound_step s (place_lldp input s o).
Proof.
  intros (Hl & Hp & Hm & Hf & Hr). unfold place_lldp. destruct (String.eqb _ _) eqn:E; [apply sound_refl|]. bool_prop.
  apply sound_add, measured_contribution; [by eapply resolved_unmarked| |done..]. by eapply rep_lldp.
Qed.

Lemma place_lldp_has o l s : o ∈ l -> (forall x, x ∈ l -> lldp_seen x) -> ol_child o <> ol_parent o ->
  has (MkEdgeKey (ol_child o) (ol_parent o) (ll_Port (ol_link o)) "wired") "lldp_neighbor" (ll_DeviceID (ol_link o))
    (fold_left (place_lldp input) l s).
Proof.
  revert s. induction l as [|x l IH]; intros s Ho Hl Hne; [by apply elem_of_nil in Ho|]. cbn [fold_left].
  apply elem_of_cons in Ho as [<-|Ho]; [|apply IH; [done| |done]; intros y Hy; apply Hl; by right].
  assert (Hkeep : sound_step (place_lldp input s o) (fold_left (place_lldp input) l (place_lldp input s o))).
  { apply sound_fold_left. intros s2 y Hy. apply place_lldp_sound, Hl. by right. }
  apply Hkeep. unfold place_lldp. rewrite (proj2 (String.eqb_neq _ _)) by done.
  apply (add_new (placed _ _ (ol_parent o) _ (ll_Port (ol_link o)) "wired" _ _) (MkEvidence _ _ _ _)).
Qed.

(** ** Everything that is read *)

Lemma has_after s s' k kind d : sound_step s s' -> has k kind d s -> has k kind d s'.
Proof. intros (_ & H & _). apply H. Qed.

Lemma gather_spec gaps s : gather input r nodes gaps = Ok s ->
  state_ok s /\ (forall k kind d, reports k kind d -> has k kind d s) /\
  (incomplete s <-> incomplete (MkInference ∅ gaps) \/ unclear).
Proof.
  unfold gather. rewrite Hnbrs. intros H.
  destruct (try_fold (observe_lldp input r nodes) _ _) as [[peers fresh]|] eqn:El; [|done].
  destruct (lldp_pass_spec peers fresh El) as [Hseen Hfresh].
  destruct (try_fold (observe_bridge _ _ _ _ _) _ _) as [s1|] eqn:E1; [|done].
  destruct (try_fold (observe_association _ _ _) _ _) as [s2|] eqn:E2; [|done].
  set (s3 := fold_left _ _ _) in H.
  assert (S1 : sound_step (MkInference ∅ gaps) s1).
  { eapply sound_try_fold; [|exact E1]. intros x o y. apply observe_bridge_sound. }
  assert (S2 : sound_step s1 s2).
  { eapply sound_try_fold; [|exact E2]. intros x a y Ha Hx. by apply (observe_association_spec x a y). }
  assert (S3 : sound_step s2 s3).
  { apply sound_fold_left. intros x o Ho. by apply place_lldp_sound, Hseen. }
  assert (S4 : sound_step s3 s).
  { eapply sound_try_fold; [|exact H]. intros x u y Hu Hx. by apply (observe_uplink_spec x u y). }
  assert (sound_step (MkInference ∅ gaps) s) as (Hok & _ & Hmore & Hgaps) by (do 3 (eapply sound_trans; [eassumption|]); done).
  split.
  { apply Hok. intros k c Hk. cbn [if_candidates] in Hk. by rewrite lookup_empty in Hk. }
  assert (Hrest : sound_step s1 s) by (do 2 (eapply sound_trans; [eassumption|]); done).
  split.
  2: { split; [exact Hgaps|]. intros [Hi|(k & d & Hrep & Hbad)]; [by apply Hmore|]. apply Hrest.
    inversion Hrep as [o e parent mac child amb names states Ho He Hl Hp Hb Hm Hr Hne| | | |]; subst. cbn [ek_port ek_medium] in Hbad.
    eapply (try_fold_has _ (fun _ => True) incomplete _ o); [done| | |done|exact Ho|exact E1].
    - intros x b y Hbin Hh Hx. by eapply observe_bridge_sound in Hx as (_ & _ & Hx & _); [apply Hx|].
    - intros x y _ Hx. eapply observe_bridge_has in Hx as (_ & Hx & _); [|done..]. auto. }
  assert (Hlater : forall k kind d, has k kind d s1 -> has k kind d s) by (intros k kind d; by apply has_after).
  intros k kind d Hrep. destruct Hrep as [o e parent mac child amb names states Ho He Hl Hp Hb Hm Hr Hne
    |o e parent mac child amb names states rows n Ho He Hl Hp Hb Hm Hr Hne Hrows Hn Hnm Hnc
    |a parent mac child amb Ha Hp Hm Hr Hne|link parent mac child amb Hli Hp Hm Hf Hr Hne|u child Hu Hp Hact].
  - apply Hlater. eapply (try_fold_has _ (fun _ => True) (has _ _ _) _ o); [done| | |done|exact Ho|exact E1].
    + intros x b y Hbin Hh Hx. eapply has_after; [by eapply observe_bridge_sound|done].
    + intros x y _ Hx. by eapply observe_bridge_has.
  - apply Hlater. eapply (try_fold_has _ (fun _ => True) (has _ _ _) _ o); [done| | |done|exact Ho|exact E1].
    + intros x b y Hbin Hh Hx. eapply has_after; [by eapply observe_bridge_sound|done].
    + intros x y _ Hx. eapply observe_bridge_has in Hx as (_ & _ & Hx); [|done..]. apply (Hx n), bridge_rows. eauto 6.
  - apply (has_after _ _ _ _ _ S4), (has_after _ _ _ _ _ S3).
    eapply (try_fold_has _ (fun _ => True) (has _ _ _) _ a); [done| | |done|exact Ha|exact E2].
    + intros x b y Hbin Hh Hx. eapply has_after; [by eapply observe_association_spec|done].
    + intros x y _ Hx. by eapply observe_association_spec.
  - apply (has_after _ _ _ _ _ S4).
    apply (place_lldp_has (MkObservedLLDP link parent child mac amb)); [by apply Hfresh|exact Hseen|done].
  - eapply (try_fold_has _ (fun _ => True) (has _ _ _) _ u); [done| | |done|exact Hu|exact H].
    + intros x b y Hbin Hh Hx. eapply has_after; [by eapply observe_uplink_spec|done].
    + intros x y _ Hx. by eapply observe_uplink_spec.
Qed.
End Reports.

(** * Where the rows of a reconciliation come from

    Every row a reconciliation writes is an observed edge or an active row, with
    another interval, another competition mark, or the meaning of the active row
    at its key. So what holds of the observation and of the store, whatever the
    interval, holds of the changes. Opened rows begin at the time of the
    reconciliation, and a reconciliation of well-formed arguments succeeds. *)

From Stdlib Require Import ZArith Lia Ascii String.
From stdpp Require Import base gmap list strings sorting.
From S2P Require Import Prelude GoStr GoFmt Topology TopologyIntervals TopologyRoots TopologyIntervalsSpec TopologyStore.

Local Open Scope string_scope.
Local Open Scope Z_scope.

(** ** The draft *)

(** The rows of a draft: an observed edge at the interval of its key, or a
    closed active row. *)
Lemma draft_rows active observed at_ sources c : changes_by_source active observed at_ sources = Ok c ->
  exists states, try_fold (index_source at_) sources ∅ = Ok states /\
  (forall u, u ∈ ic_Upsert c -> exists o, o ∈ observed /\
     u = fst (reconcile_edge at_ (by_key active ∅) (retain_semantics (by_key active ∅) states o))) /\
  (forall e, e ∈ ic_Close c -> exists a, e = closed_at at_ a /\ a ∈ active).
Proof.
  unfold changes_by_source. intros H. destruct (try_fold (index_source at_) sources ∅) as [states|] eqn:Es; [|done].
  set (obs := map (retain_semantics (by_key active ∅) states) observed) in *.
  destruct (ReconcileIntervals active obs at_ false) as [r|] eqn:Er; [|done].
  injection H as <-. exists states. split; [done|].
  pose proof (ReconcileIntervals_ok _ _ _ _ Er) as (_ & _ & Hk & _ & Hu & Hc). split.
  - intros u Hin. cbn [ic_Upsert] in Hin. rewrite Hu in Hin. apply list_elem_of_fmap in Hin as (o & -> & Ho).
    apply list_elem_of_fmap in Ho as (o' & -> & Ho'). eauto.
  - intros e Hin. cbn [ic_Close] in Hin. rewrite elem_of_sort_edges, elem_of_app, Hc in Hin. destruct Hin as [Hin|Hin].
    + apply list_elem_of_In, in_concat in Hin as (l & Hl & He). apply in_map_iff in Hl as (o & <- & _).
      unfold reconcile_edge in He. destruct (by_key active ∅ !! _) as [a|] eqn:Ea; [|done].
      destruct (sameTopologySemantics a o); [done|]. destruct He as [<-|[]]. exists a. split; [done|].
      apply by_key_lookup in Ea as [[? _]|[_ Ea]]; [done| |done]. by rewrite lookup_empty in Ea.
    + apply list_elem_of_fmap in Hin as (a & -> & Ha). apply elem_of_list_filter in Ha as [_ Ha]. eauto.
Qed.

Section Origins.
Context (P : TopologyEdge -> Prop).
Context (P_interval : forall e id from to seen, P e -> P (with_interval e id from to seen)).
Context (P_recompete : forall G e, P e -> P (recompete G e)).
Context (P_retain : forall e prior, P e -> P prior -> edgeSortKey prior = edgeSortKey e -> P (withTopologySemantics e prior)).

Lemma draft_origin active observed at_ sources c : changes_by_source active observed at_ sources = Ok c ->
  NoDup (map edgeSortKey active) -> (forall a, a ∈ active -> P a) -> (forall o, o ∈ observed -> P o) ->
  (forall u, u ∈ ic_Upsert c -> P u) /\ (forall e, e ∈ ic_Close c -> P e).
Proof.
  intros H Hk Ha Ho. destruct (draft_rows _ _ _ _ _ H) as (states & _ & Hu & Hc). split.
  - intros u Hin. destruct (Hu u Hin) as (o & Hin' & ->). unfold reconcile_edge.
    set (e := retain_semantics _ _ o). assert (He : P e).
    { unfold e, retain_semantics. destruct (by_key active ∅ !! edgeSortKey o) as [prior|] eqn:Ep; [|by apply Ho].
      destruct (edgeSemanticSourcesAnswered _ _); [by apply Ho|].
      apply by_key_lookup in Ep as [[Hp Ek]|[_ Ep]]; [| |done].
      - apply P_retain; [by apply Ho|by apply Ha|done].
      - by rewrite lookup_empty in Ep. }
    destruct (by_key active ∅ !! edgeSortKey e); [destruct (sameTopologySemantics _ _)|]; by apply P_interval.
  - intros e Hin. destruct (Hc e Hin) as (a & -> & Hin'). apply P_interval. by apply Ha.
Qed.

Lemma changes_origin active observed at_ sources changes :
  ReconcileIntervalsBySource active observed at_ sources = Ok changes ->
  (forall o, o ∈ observed -> observation at_ o) -> NoDup (map te_ID active) -> (forall e, e ∈ active -> 0 < te_ID e) ->
  (forall a, a ∈ active -> P a) -> (forall o, o ∈ observed -> P o) ->
  (forall u, u ∈ ic_Upsert changes -> P u) /\ (forall e, e ∈ ic_Close changes -> P e).
Proof.
  intros H Hobs Hids Hpos Ha Ho.
  destruct (reconcile_parts _ _ _ _ _ Hobs Hids Hpos H) as (states & c & _ & Hc & -> & Hd & Hl & Hk & _).
  destruct (draft_origin _ _ _ _ _ Hc Hk Ha Ho) as [Hu Hcl].
  assert (Hfut : forall k e, fleet_future active c !! k = Some e -> P e).
  { intros k e He. apply (future_spec at_ active c Hk Hids Hd) in He as [_ [He|(_ & He & _)]]; auto. }
  assert (Hgr : forall k f, fleet_graph active c !! k = Some f -> P f).
  { intros k f (e & [He _]%kept_spec & ->)%graph_spec. eapply P_recompete, Hfut, He. }
  assert (Hrow : forall k f, P f -> (forall u, u ∈ fst (fleet_row at_ active c (k, f)) -> P u) /\
            forall u, u ∈ snd (fleet_row at_ active c (k, f)) -> P u).
  { intros k f Hf. unfold fleet_row, settle_edge. destruct (fleet_prior active !! k) as [old|] eqn:Eo.
    - apply prior_spec in Eo as [Hold _]; [|done]. destruct (_ && _).
      + split; intros u ->%list_elem_of_singleton; apply P_interval; auto.
      + split; intros u Hin; [|by apply elem_of_nil in Hin]. destruct (bool_decide _);
          [by apply list_elem_of_singleton in Hin as ->|by apply elem_of_nil in Hin].
    - split; intros u Hin; [by apply list_elem_of_singleton in Hin as ->|by apply elem_of_nil in Hin]. }
  split.
  - intros u (k & f & Hkf & Hin)%fleet_upsert_spec. destruct (Hrow k f (Hgr _ _ Hkf)) as [H1 _]. by apply H1.
  - intros e [He|[(k & a & Hka & _ & _ & _ & ->)%closes_spec|(k & f & Hkf & Hin)]]%fleet_close_spec.
    + by apply Hcl.
    + apply P_interval. by eapply Hfut.
    + destruct (Hrow k f (Hgr _ _ Hkf)) as [_ H2]. by apply H2.
Qed.
End Origins.

(** ** Beginnings *)

(** Rows are opened at the time of the reconciliation. *)
Lemma opened_begin active observed at_ sources changes :
  ReconcileIntervalsBySource active observed at_ sources = Ok changes ->
  (forall o, o ∈ observed -> te_ID o = 0 /\ te_ValidFrom o = at_) -> NoDup (map te_ID active) ->
  (forall e, e ∈ active -> 0 < te_ID e) -> forall u, u ∈ opened changes -> te_ValidFrom u = at_.
Proof.
  intros H Ho Hids Hpos.
  assert (Hobs : 0 < at_ -> forall o, o ∈ observed -> observation at_ o).
  { intros Hat o Hin. destruct (Ho o Hin). unfold observation. lia. }
  assert (Hat : 0 < at_).
  { unfold ReconcileIntervalsBySource, changes_by_source in H. destruct (try_fold _ sources ∅); [|done].
    destruct (ReconcileIntervals _ _ _ _) as [r|] eqn:Er; [|done]. by apply ReconcileIntervals_ok in Er as (? & _). }
  destruct (reconcile_parts _ _ _ _ _ (Hobs Hat) Hids Hpos H) as (states & c & _ & Hc & -> & Hd & Hl & Hk & _).
  destruct (draft_rows _ _ _ _ _ Hc) as (states' & _ & Hu & _).
  assert (Hnew : forall u, u ∈ ic_Upsert c -> te_ID u = 0 -> te_ValidFrom u = at_).
  { intros u Hin E. destruct (Hu u Hin) as (o & Hin' & ->). revert E. unfold reconcile_edge.
    assert (Ef : te_ValidFrom (retain_semantics (by_key active ∅) states' o) = at_).
    { unfold retain_semantics. destruct (by_key active ∅ !! _); [destruct (edgeSemanticSourcesAnswered _ _)|]; exact (proj2 (Ho o Hin')). }
    destruct (by_key active ∅ !! _) as [a|] eqn:Ea.
    - apply by_key_lookup in Ea as [[Ha _]|[_ Ea]]; [| |done]; [|by rewrite lookup_empty in Ea].
      destruct (sameTopologySemantics _ _); cbn [fst with_interval te_ID te_ValidFrom].
      + specialize (Hpos a Ha). lia.
      + by rewrite (proj2 (Z.eqb_neq _ _)) by lia.
    - cbn [fst with_interval te_ID te_ValidFrom]. intros _. rewrite Ef. by rewrite (proj2 (Z.eqb_neq _ _)) by lia. }
  intros u [E Hin]%elem_of_list_filter. bool_prop. apply fleet_upsert_spec in Hin as (k & f & Hkf & Hin).
  apply graph_spec in Hkf as (e & [He _]%kept_spec & ->).
  destruct (recompete_same (fleet_kept active c) e) as (Hid & _ & _ & _ & _ & Hfrom & _).
  assert (Hf : te_ID e = 0 -> te_ValidFrom (recompete (fleet_kept active c) e) = at_).
  { intros E0. apply (future_spec at_ active c Hk Hids Hd) in He as [_ [He|(_ & He & _)]].
    - rewrite Hfrom. by apply Hnew.
    - specialize (Hpos e He). lia. }
  unfold fleet_row, settle_edge in Hin. destruct (fleet_prior active !! k) as [old|]; [destruct (_ && _)|].
  - by apply list_elem_of_singleton in Hin as ->.
  - destruct (bool_decide _); [|by apply elem_of_nil in Hin]. apply list_elem_of_singleton in Hin as ->. apply Hf. congruence.
  - apply list_elem_of_singleton in Hin as ->. apply Hf. congruence.
Qed.

(** ** Success *)

Lemma index_active_accepts at_ l : forall m, (forall e, e ∈ l -> live at_ e) -> NoDup (map edgeSortKey l) ->
  (forall e, e ∈ l -> m !! edgeSortKey e = None) -> exists m', try_fold (index_active at_) l m = Ok m'.
Proof.
  induction l as [|e l IH]; intros m Hl Hn Hm; [by eexists|]. cbn [map] in Hn. apply NoDup_cons in Hn as [Hx Hn].
  cbn [try_fold]. unfold index_active at 1. destruct (Hl e) as (Hv & Hf & Hs); [left|]. rewrite Hv.
  assert (E : (te_ValidFrom e <=? 0) || (te_LastSeen e <? te_ValidFrom e) || (at_ <? te_LastSeen e) = false) by (bool_goal; lia).
  rewrite E, (Hm e) by left. apply IH; [intros x Hx'; apply Hl; by right|done|].
  intros x Hx'. rewrite lookup_insert_ne; [apply Hm; by right|]. intros Eq. apply Hx. rewrite Eq. by apply list_elem_of_fmap_2.
Qed.

Lemma add_observed_accepts at_ byKey l : forall s, NoDup (map edgeSortKey l) -> (forall o, o ∈ l -> edgeSortKey o ∉ fst s) ->
  exists s', try_fold (add_observed at_ byKey) l s = Ok s'.
Proof.
  induction l as [|o l IH]; intros s Hn Hs; [by eexists|]. cbn [map] in Hn. apply NoDup_cons in Hn as [Hx Hn].
  cbn [try_fold]. unfold add_observed at 1. rewrite bool_decide_eq_false_2 by (apply Hs; left).
  destruct (reconcile_edge at_ byKey o). apply IH; [done|]. cbn [fst]. intros x Hx'.
  rewrite not_elem_of_union, not_elem_of_singleton. split; [|apply Hs; by right]. intros Eq. apply Hx. rewrite <- Eq.
  by apply list_elem_of_fmap_2.
Qed.
