(* ===== verification/TopologyInfer.v ===== *)
(** * Topology inference: the theorems

    What [Infer] answers, from the candidates of [TopologyInferSpec]: the edges
    are exactly what is reported, their confidence and
    marks are what their evidence and ambiguities justify, both ways, and a result
    is complete exactly when every source answered and every bridge address is at a
    named port of a known medium. *)

From Stdlib Require Import ZArith Lia Ascii String.
From stdpp Require Import base gmap list strings sorting.
From S2P Require Import Prelude GoStr GoFmt NetIP F64 Topology TopologyIntervals TopologyIntervalsSpec TopologyGraph.
From S2P Require Import TopologyInferSpec.

Local Open Scope string_scope.
Local Open Scope Z_scope.

(** ** Identities *)

(** Inventory ids are positive. *)
Lemma nodes_positive devices clients r nodes d node : newIdentityResolver devices clients = Ok (r, nodes) ->
  nodes !! d = Some node -> 0 < d.
Proof.
  unfold newIdentityResolver. intros H. destruct (try_fold add_device devices _) as [[[m nds] owners]|] eqn:E; [|done].
  destruct (try_fold add_client _ _); [|done]. simplify_eq. revert d node.
  change (forall d node, (m, nodes, owners).1.2 !! d = Some node -> 0 < d).
  eapply (try_fold_inv _ (fun s => forall d node, s.1.2 !! d = Some node -> 0 < d)); [| |exact E].
  - intros [[m1 n1] o1] dev s' _ Hs H1. cbn [fst snd] in Hs. unfold add_device in H1.
    destruct ((iv_ID dev <=? 0) || _) eqn:Ei; [done|]. destruct (canonicalMAC _); [|done].
    case_hyp H1; [done|]. case_hyp H1; [|done]. simplify_eq. cbn [fst snd].
    intros d node Hd. bool_prop. destruct (decide (d = iv_ID dev)) as [->|Hne]; [done|].
    rewrite lookup_insert_ne in Hd by done. by apply (Hs d node).
  - intros d node Hd. cbn [fst snd] in Hd. by rewrite lookup_empty in Hd.
Qed.

Lemma reports_device input r nodes k kind d : reports input r nodes k kind d -> exists node, nodes !! d = Some node.
Proof. intros []; eauto. Qed.

(** ** The finishing phase *)

Definition key_text (k : edgeKey) : string :=
  ek_child k ++ nul ++ ek_parent k ++ nul ++ ek_port k ++ nul ++ ek_medium k.

Lemma edgeSortKey_text e : edgeSortKey e = key_text (key_of e).
Proof. done. Qed.

(** The merged candidates as edges with their evidence. *)
Definition merged_edges (s : inference) : list TopologyEdge := candidate_edges (attach_evidence <$> if_candidates s).

Lemma attach_fields c : let a := attach_evidence c in
  key_of (ca_edge a) = key_of (ca_edge c) /\ te_Confidence (ca_edge a) = te_Confidence (ca_edge c) /\
  te_ID (ca_edge a) = te_ID (ca_edge c) /\ te_ValidFrom (ca_edge a) = te_ValidFrom (ca_edge c) /\
  te_ValidTo (ca_edge a) = te_ValidTo (ca_edge c) /\ te_LastSeen (ca_edge a) = te_LastSeen (ca_edge c) /\
  te_Evidence (ca_edge a) = (te_Evidence (ca_edge c) ++ map durable_evidence (sortEvidence (ca_evidence c)))%list /\
  ca_ambiguities a = ca_ambiguities c.
Proof. done. Qed.

Section Finish.
Context (cs : candidates_t).

Notation attached := (attach_evidence <$> cs).
Notation pruned := (pruneContradictedAggregateCandidates attached).

(** The candidate is contradicted: some aggregate of its sort key is. *)
Definition contradicted (k : edgeKey) : Prop :=
  exists m, m ∈ candidate_edges attached /\ contradicted_aggregate (candidate_edges attached) m = true /\
    edgeSortKey m = key_text k.

Lemma pruned_spec k a : (forall k c, cs !! k = Some c -> key_of (ca_edge c) = k) ->
  pruned !! k = Some a <-> exists c, cs !! k = Some c /\ a = attach_evidence c /\ ~ contradicted k.
Proof.
  intros Hkey. unfold pruneContradictedAggregateCandidates. rewrite map_lookup_filter_Some, lookup_fmap_Some. cbn [snd].
  assert (Hc : forall c, cs !! k = Some c ->
    edgeSortKey (ca_edge (attach_evidence c)) ∈ contradictedAggregateEdgeKeys (candidate_edges attached) <-> contradicted k).
  { intros c Hc. unfold contradictedAggregateEdgeKeys, contradicted. rewrite elem_of_list_to_set, list_elem_of_fmap.
    setoid_rewrite elem_of_list_filter. rewrite edgeSortKey_text. change (key_of (ca_edge (attach_evidence c))) with (key_of (ca_edge c)).
    rewrite (Hkey k c Hc). split; intros (m & H); exists m; intuition done. }
  split.
  - intros [(c & <- & Hk) Hn]. exists c. rewrite (Hc c Hk) in Hn. done.
  - intros (c & Hk & -> & Hn). rewrite (Hc c Hk). eauto.
Qed.

Lemma finish_spec e : e ∈ finish_edges cs <-> exists k a, pruned !! k = Some a /\ e = final_edge (mark_competing pruned k a).
Proof.
  unfold finish_edges. rewrite elem_of_sort_edges, list_elem_of_fmap. unfold markCompetingParents. split.
  - intros ([k a] & -> & Hin). apply elem_of_map_to_list in Hin. rewrite map_lookup_imap in Hin.
    destruct (pruned !! k) as [a0|] eqn:E; [|done]. simpl in Hin. simplify_eq. cbn [snd]. eauto.
  - intros (k & a & Hk & ->). exists (k, mark_competing pruned k a). split; [done|]. apply elem_of_map_to_list.
    rewrite map_lookup_imap, Hk. done.
Qed.

Lemma final_fields p k a : let e := final_edge (mark_competing p k a) in
  key_of e = key_of (ca_edge a) /\ te_Evidence e = te_Evidence (ca_edge a) /\ te_ID e = te_ID (ca_edge a) /\
  te_ValidFrom e = te_ValidFrom (ca_edge a) /\ te_ValidTo e = te_ValidTo (ca_edge a) /\
  te_LastSeen e = te_LastSeen (ca_edge a).
Proof.
  unfold final_edge, mark_competing. destruct (bool_decide _); cbv zeta; destruct (Nat.eqb _ _); done.
Qed.

Lemma sortedSet_spec X (a : string) : a ∈ sortedSet X <-> a ∈ X.
Proof. unfold sortedSet. by rewrite elem_of_sort_strings, elem_of_elements. Qed.

Lemma final_ambiguities p k a x : x ∈ te_Ambiguities (final_edge (mark_competing p k a)) <->
  x ∈ ca_ambiguities a \/ (x = competingParentsAmbiguity /\ (1 < size (candidate_parents p (ek_child k)))%nat).
Proof.
  assert (E : te_Ambiguities (final_edge (mark_competing p k a)) = sortedSet (ca_ambiguities (mark_competing p k a))).
  { unfold final_edge. cbv zeta. destruct (Nat.eqb _ _); done. }
  rewrite E, sortedSet_spec. unfold mark_competing.
  destruct (decide (1 < size (candidate_parents p (ek_child k)))%nat) as [Hs|Hs].
  - rewrite bool_decide_eq_true_2 by done. cbn [ca_ambiguities]. set_solver.
  - rewrite bool_decide_eq_false_2 by done. tauto.
Qed.

Lemma final_confidence p k a : let e := final_edge (mark_competing p k a) in
  (te_Ambiguities e = [] /\ te_Confidence e = te_Confidence (ca_edge a)) \/
  (te_Ambiguities e <> [] /\ te_Confidence e = "ambiguous").
Proof.
  unfold final_edge. cbv zeta.
  destruct (Nat.eqb (length (sortedSet (ca_ambiguities (mark_competing p k a)))) 0) eqn:E.
  - left. apply Nat.eqb_eq, length_zero_iff_nil in E. cbn [with_Ambiguities with_semantics te_Ambiguities te_Confidence].
    split; [done|]. unfold mark_competing in *. destruct (bool_decide _) eqn:Eb; [|done]. exfalso.
    assert (Hin : competingParentsAmbiguity ∈ sortedSet ({[competingParentsAmbiguity]} ∪ ca_ambiguities a))
      by (apply sortedSet_spec; set_solver).
    cbn [ca_ambiguities] in E. rewrite E in Hin. by apply elem_of_nil in Hin.
  - right. apply Nat.eqb_neq in E. split; [|done].
    cbn [with_Ambiguities with_Confidence with_semantics te_Ambiguities]. intros H. by rewrite H in E.
Qed.

(** Competition among the candidates is competition among the edges. *)
Lemma competing_candidates child : (forall k c, cs !! k = Some c -> key_of (ca_edge c) = k) ->
  (1 < size (candidate_parents pruned child))%nat <-> competing (finish_edges cs) child.
Proof.
  intros Hkey. rewrite size_two. unfold competing.
  assert (Hp : forall p, p ∈ candidate_parents pruned child <->
    exists e, e ∈ finish_edges cs /\ te_ChildNode e = child /\ no_internet e /\ p = place e).
  { intros p. unfold candidate_parents. rewrite elem_of_list_to_set, list_elem_of_fmap.
    setoid_rewrite elem_of_list_filter. split.
    - intros ([k a] & -> & Hf & Hin). cbn [fst snd] in *. bool_prop. apply elem_of_map_to_list in Hin.
      pose proof Hin as Hin'. apply pruned_spec in Hin' as (c & Hc & -> & _); [|done].
      exists (final_edge (mark_competing pruned k (attach_evidence c))).
      destruct (final_fields pruned k (attach_evidence c)) as (Ek & _).
      change (key_of (ca_edge (attach_evidence c))) with (key_of (ca_edge c)) in Ek. rewrite (Hkey k c Hc) in Ek.
      split; [apply finish_spec; eauto|]. destruct k. unfold no_internet, place. injection Ek as -> -> -> _. done.
    - intros (e & He & Hch & Hi & ->). apply finish_spec in He as (k & a & Hk & ->).
      pose proof Hk as Hk'. apply pruned_spec in Hk' as (c & Hc & -> & _); [|done].
      destruct (final_fields pruned k (attach_evidence c)) as (Ek & _).
      change (key_of (ca_edge (attach_evidence c))) with (key_of (ca_edge c)) in Ek. rewrite (Hkey k c Hc) in Ek.
      exists (k, attach_evidence c). set (e := final_edge _) in *. clearbody e. unfold no_internet, place in *.
      destruct k as [kc kp kq km]. injection Ek as E1 E2 E3 _. cbn [fst ek_parent ek_port ek_child].
      rewrite <- E2, <- E3. split; [done|]. split; [bool_goal; [by apply String.eqb_neq|congruence]|].
      rewrite E2, E3. by apply elem_of_map_to_list. }
  setoid_rewrite Hp. split.
  - intros (p & p' & (e & He & Hc & Hi & ->) & (e' & He' & Hc' & Hi' & ->) & Hne). exists e, e'. by split_and!.
  - intros (e & e' & He & He' & Hc & Hc' & Hi & Hi' & Hne). exists (place e), (place e'). split_and!; eauto 6.
Qed.
End Finish.

(** ** Observed inputs *)

(** The gaps before anything is read. *)
Definition source_gaps (input : InferenceInput) : list string :=
  let sources := normalizedSourceStates (in_Sources input) in
  (sourceGaps sources ++ (if Nat.eqb (length sources) 0 then ["topology sources have not been observed"] else []))%list.

Lemma observe_spec input r nodes sources s : observe input = Ok (r, nodes, sources, s) ->
  0 < in_At input /\ newIdentityResolver (in_Devices input) (in_Clients input) = Ok (r, nodes) /\
  sources = normalizedSourceStates (in_Sources input) /\ state_ok input r nodes s /\
  (forall k kind d, reports input r nodes k kind d -> has k kind d s) /\
  (incomplete s <-> incomplete (MkInference ∅ (source_gaps input)) \/ unclear input r nodes).
Proof.
  unfold observe. intros H. destruct (_ <=? 0) eqn:E0; [done|].
  destruct (newIdentityResolver _ _) as [[r' nodes']|] eqn:Er; [|done].
  destruct (validateSourceStates _ _); [|done].
  destruct (gather _ _ _ _) as [s'|] eqn:Eg; [|done]. simplify_eq. bool_prop.
  assert (Hn : exists nbrs, neighbor_index nodes (in_Neighbors input) = Ok nbrs).
  { unfold gather in Eg. destruct (neighbor_index nodes (in_Neighbors input)) as [t|] eqn:E; [by exists t|done]. }
  destruct Hn as [nbrs Hn]. destruct (gather_spec input r nodes nbrs Hn _ _ Eg) as (Hok & Hhas & Hgaps). done.
Qed.

Lemma elem_of_sorted_evidence l v : v ∈ map durable_evidence (sortEvidence l) <-> exists ev, ev ∈ l /\ v = durable_evidence ev.
Proof.
  rewrite list_elem_of_fmap. unfold sortEvidence. setoid_rewrite (merge_sort_Permutation evidence_le l).
  split; intros (ev & ? & ?); eauto.
Qed.

Section Result.
Context (input : InferenceInput) (r : identityResolver) (nodes : gmap Z string).
Context (sources : list TopologySourceObservation) (s : inference).
Context (Hobs : observe input = Ok (r, nodes, sources, s)).

Notation cs := (if_candidates s).
Notation edges := (finish_edges cs).

Lemma cs_key k c : cs !! k = Some c -> key_of (ca_edge c) = k.
Proof. destruct (observe_spec _ _ _ _ _ Hobs) as (_ & _ & _ & Hok & _). intros H. by destruct (Hok k c H). Qed.

Lemma result_edge e : e ∈ edges -> exists k c, cs !! k = Some c /\ candidate_ok input r nodes k c /\
  e = final_edge (mark_competing (pruneContradictedAggregateCandidates (attach_evidence <$> cs)) k (attach_evidence c)) /\
  key_of e = k /\ te_Evidence e = map durable_evidence (sortEvidence (ca_evidence c)).
Proof.
  destruct (observe_spec _ _ _ _ _ Hobs) as (_ & _ & _ & Hok & _).
  intros (k & a & Hk & ->)%finish_spec. apply pruned_spec in Hk as (c & Hc & -> & _); [|exact cs_key].
  exists k, c. pose proof (Hok k c Hc) as Hco. split_and!; [done..| |].
  - destruct (final_fields (pruneContradictedAggregateCandidates (attach_evidence <$> cs)) k (attach_evidence c)) as (Ek & _).
    rewrite Ek. apply (cs_key k c Hc).
  - destruct (final_fields (pruneContradictedAggregateCandidates (attach_evidence <$> cs)) k (attach_evidence c)) as (_ & Ee & _).
    rewrite Ee. destruct Hco as [_ (_ & _ & _ & _ & E) _ _ _]. cbn [attach_evidence ca_edge with_Evidence with_semantics te_Evidence].
    by rewrite E.
Qed.

Lemma edge_of k c : cs !! k = Some c -> ~ contradicted cs k -> exists e, e ∈ edges /\ key_of e = k /\
  te_Evidence e = map durable_evidence (sortEvidence (ca_evidence c)).
Proof.
  intros Hc Hn. set (p := pruneContradictedAggregateCandidates (attach_evidence <$> cs)).
  assert (He : final_edge (mark_competing p k (attach_evidence c)) ∈ edges).
  { apply finish_spec. exists k, (attach_evidence c). split; [|reflexivity]. apply pruned_spec; [exact cs_key|]. by exists c. }
  eexists. split; [exact He|]. destruct (result_edge _ He) as (k' & c' & Hc' & _ & _ & Hk & Hev).
  assert (k' = k) as ->; [|assert (c' = c) as -> by congruence; done]. rewrite <- Hk.
  destruct (final_fields p k (attach_evidence c)) as (Ek & _). rewrite Ek. apply (cs_key k c Hc).
Qed.

Lemma edges_keys : NoDup (map key_of edges).
Proof.
  unfold finish_edges. rewrite sort_edges_perm, map_map. unfold markCompetingParents.
  set (p := pruneContradictedAggregateCandidates _). set (m := map_imap _ _).
  assert (Hm : forall kv, kv ∈ map_to_list m -> key_of (final_edge (snd kv)) = fst kv).
  { intros [k a] Hin. apply elem_of_map_to_list in Hin. unfold m in Hin. rewrite map_lookup_imap in Hin.
    destruct (p !! k) as [a0|] eqn:E; [|done]. simpl in Hin. simplify_eq. cbn [fst snd].
    destruct (final_fields p k a0) as (Ek & _). rewrite Ek.
    apply pruned_spec in E as (c & Hc & -> & _); [|exact cs_key]. apply (cs_key k c Hc). }
  assert (E : map (fun kv => key_of (final_edge (snd kv))) (map_to_list m) = map fst (map_to_list m)).
  { apply map_ext_in. intros kv Hkv. apply Hm. by apply list_elem_of_In. }
  rewrite E. apply NoDup_fst_map_to_list.
Qed.

Lemma reported_positive k kind d : reports input r nodes k kind d -> 0 < d.
Proof.
  intros (node & Hn)%reports_device. destruct (observe_spec _ _ _ _ _ Hobs) as (_ & Hr & _).
  by eapply nodes_positive.
Qed.
End Result.

(** ** Gaps *)

#[local] Transparent msg.
Lemma nonblank_gap d source reason :
  nonblank (msg "device:%d/%s: %s" [VD d; VS source; VS reason]) = true.
Proof. reflexivity. Qed.
#[local] Opaque msg.

Lemma uniqueSorted_nil l : length (uniqueSorted l) = 0%nat <-> ~ exists g, g ∈ l /\ nonblank g = true.
Proof.
  assert (Hin : forall g, g ∈ uniqueSorted l <-> g ∈ l /\ nonblank g = true).
  { intros g. unfold uniqueSorted. rewrite sortedSet_spec, elem_of_list_to_set, elem_of_list_filter. tauto. }
  rewrite length_zero_iff_nil. split.
  - intros E (g & Hg). apply Hin in Hg. rewrite E in Hg. by apply elem_of_nil in Hg.
  - intros Hn. destruct (uniqueSorted l) as [|g l'] eqn:E; [done|]. destruct Hn. exists g. apply Hin. left.
Qed.

(** Nothing is known to be missing before the reading exactly when there are
    sources and each has answered. *)
Lemma sources_heard input : ~ incomplete (MkInference ∅ (source_gaps input)) <->
  in_Sources input <> [] /\ forall so, so ∈ in_Sources input -> answered_state (so_State so) = true.
Proof.
  set (norm so := MkSource (so_DeviceID so) (so_Source so) (so_State so) (safeReason (so_Reason so)) (so_ObservedAt so)).
  assert (Hnorm : forall x, x ∈ normalizedSourceStates (in_Sources input) <-> exists so, so ∈ in_Sources input /\ x = norm so).
  { intros x. unfold normalizedSourceStates. rewrite merge_sort_Permutation, list_elem_of_fmap. split; intros (so & ? & ?); eauto. }
  unfold incomplete, source_gaps. cbn [if_gaps]. split.
  - intros Hn. split.
    + intros E. apply Hn. exists "topology sources have not been observed". split; [|done]. rewrite E. apply elem_of_app. right. left.
    + intros so Hso. destruct (answered_state (so_State so)) eqn:Ea; [done|]. destruct Hn. eexists. split; [|apply nonblank_gap].
      apply elem_of_app. left. apply elem_of_flat_map. exists (norm so). split; [apply Hnorm; eauto|].
      cbn [norm so_State]. rewrite Ea. left.
  - intros [Hne Hall] (g & [Hg|Hg]%elem_of_app & _).
    + apply elem_of_flat_map in Hg as (x & (so & Hso & ->)%Hnorm & Hg). cbn [norm so_State] in Hg.
      rewrite (Hall so Hso) in Hg. by apply elem_of_nil in Hg.
    + destruct (in_Sources input) as [|so l] eqn:E; [done|].
      assert (Hso : norm so ∈ normalizedSourceStates (so :: l)) by (apply Hnorm; exists so; split; [left|done]).
      destruct (normalizedSourceStates (so :: l)); [by apply elem_of_nil in Hso|]. by apply elem_of_nil in Hg.
Qed.

Lemma unanswered_complete input result : Infer input = Ok result -> exists r nodes sources s,
  observe input = Ok (r, nodes, sources, s) /\ ir_Edges result = finish_edges (if_candidates s) /\
  newIdentityResolver (in_Devices input) (in_Clients input) = Ok (r, nodes) /\
  (ir_Complete result = true <->
     (in_Sources input <> [] /\ forall so, so ∈ in_Sources input -> answered_state (so_State so) = true) /\
     ~ unclear input r nodes).
Proof.
  unfold Infer. intros H. destruct (observe input) as [[[[r nodes] sources] s]|] eqn:Hobs; [|done].
  injection H as <-. exists r, nodes, sources, s. destruct (observe_spec _ _ _ _ _ Hobs) as (_ & Hr & _ & _ & _ & Hgaps).
  split_and!; [done..|]. cbn [ir_Complete]. rewrite Nat.eqb_eq, uniqueSorted_nil, <- sources_heard.
  change (exists g, g ∈ if_gaps s /\ nonblank g = true) with (incomplete s). rewrite Hgaps. tauto.
Qed.

(** ** The theorems *)

(** C30 (functional): the inferred edges are exactly what was reported. There is one
    edge per child, parent, port and medium; every edge has evidence, and every
    evidence is a report of the device it names on that very placement; and
    every report is an evidence of an edge, unless its placement is an aggregate
    (a legacy switch's CPU port) that the other edges contradict. Nothing is
    invented and nothing is lost. *)
Theorem Infer_exact (input : InferenceInput) (result : InferenceResult) (Hrun : Infer input = Ok result) :
  exists r nodes sources s, observe input = Ok (r, nodes, sources, s) /\
    NoDup (map key_of (ir_Edges result)) /\
    (forall e, e ∈ ir_Edges result -> te_Evidence e <> [] /\
       forall v, v ∈ te_Evidence e -> exists d, ev_DeviceID v = Some d /\ reports input r nodes (key_of e) (ev_Kind v) d) /\
    (forall k kind d, reports input r nodes k kind d ->
       (exists e v, e ∈ ir_Edges result /\ key_of e = k /\ v ∈ te_Evidence e /\ ev_Kind v = kind /\ ev_DeviceID v = Some d) \/
       (exists m, m ∈ merged_edges s /\ contradicted_aggregate (merged_edges s) m = true /\ edgeSortKey m = key_text k)).
Proof.
  unfold Infer in Hrun. destruct (observe input) as [[[[r nodes] sources] s]|] eqn:Hobs; [|done].
  injection Hrun as <-. cbn [ir_Edges]. exists r, nodes, sources, s. split_and!; [done|by eapply edges_keys| |].
  - intros e He. destruct (result_edge _ _ _ _ _ Hobs e He) as (k & c & Hc & Hco & _ & Hk & Hev). rewrite Hev, Hk.
    destruct Hco as [_ _ Hne Hrep _]. split.
    + destruct (ca_evidence c) as [|ev l] eqn:El; [done|]. intros E.
      assert (Hin : durable_evidence ev ∈ map durable_evidence (sortEvidence (ev :: l)))
        by (apply elem_of_sorted_evidence; exists ev; split; [left|done]).
      rewrite E in Hin. by apply elem_of_nil in Hin.
    + intros v (ev & Hin & ->)%elem_of_sorted_evidence. exists (ee_DeviceID ev).
      pose proof (Hrep ev Hin) as Hr. split; [|done]. unfold durable_evidence. cbn [ev_DeviceID].
      by rewrite (proj2 (Z.ltb_lt 0 _)) by (by eapply reported_positive).
  - intros k kind d Hr. destruct (observe_spec _ _ _ _ _ Hobs) as (_ & _ & _ & _ & Hhas & _).
    pose proof (reported_positive _ _ _ _ _ Hobs k kind d Hr) as Hpos.
    destruct (Hhas k kind d Hr) as (c & ev & Hc & Hin & Hkind & Hdev).
    destruct (decide (edgeSortKey (ca_edge (attach_evidence c)) ∈ contradictedAggregateEdgeKeys (merged_edges s))) as [Hcon|Hcon].
    + right. unfold contradictedAggregateEdgeKeys in Hcon. apply elem_of_list_to_set, list_elem_of_fmap in Hcon as (m & Em & Hm).
      apply elem_of_list_filter in Hm as [Hcm Hm]. exists m. split_and!; [done..|]. rewrite <- Em, edgeSortKey_text.
      by rewrite (cs_key _ _ _ _ _ Hobs k c Hc : key_of (ca_edge (attach_evidence c)) = k).
    + left. destruct (edge_of _ _ _ _ _ Hobs k c Hc) as (e & He & Hk & Hev).
      { intros (m & Hm & Hcm & Em). apply Hcon. unfold contradictedAggregateEdgeKeys.
        assert (E : edgeSortKey (ca_edge (attach_evidence c)) = edgeSortKey m).
        { rewrite Em, edgeSortKey_text.
          by rewrite (cs_key _ _ _ _ _ Hobs k c Hc : key_of (ca_edge (attach_evidence c)) = k). }
        rewrite E. apply elem_of_list_to_set, list_elem_of_fmap_2, elem_of_list_filter. done. }
      exists e, (durable_evidence ev). split_and!; [done..| |done|].
      * rewrite Hev. apply elem_of_sorted_evidence. eauto.
      * unfold durable_evidence. cbn [ev_DeviceID]. rewrite Hdev. by rewrite (proj2 (Z.ltb_lt 0 _)).
Qed.

(** What the confidence of an edge says of its evidence. *)
Definition confidence_justified (e : TopologyEdge) : Prop :=
  let measured := exists v, v ∈ te_Evidence e /\ measured_kind (ev_Kind v) = true in
  (te_Confidence e = "ambiguous" <-> te_Ambiguities e <> []) /\
  (te_Confidence e = "measured" <-> te_Ambiguities e = [] /\ measured) /\
  (te_Confidence e = "inferred" <-> te_Ambiguities e = [] /\ ~ measured).

Lemma edge_confidence input r nodes p k c e : candidate_ok input r nodes k c ->
  e = final_edge (mark_competing p k (attach_evidence c)) -> te_Evidence e = map durable_evidence (sortEvidence (ca_evidence c)) ->
  confidence_justified e.
Proof.
  intros [_ _ _ _ Hconf Hmeas _] Ee Hev. unfold confidence_justified. cbv zeta.
  assert (Hm : (exists v, v ∈ te_Evidence e /\ measured_kind (ev_Kind v) = true) <->
    exists ev, ev ∈ ca_evidence c /\ measured_kind (ee_Kind ev) = true).
  { rewrite Hev. setoid_rewrite elem_of_sorted_evidence. split; [intros (v & (ev & ? & ->) & ?); eauto|].
    intros (ev & ? & ?). exists (durable_evidence ev). eauto. }
  assert (Hnone : te_Ambiguities e = [] -> ca_ambiguities c = ∅).
  { intros E. apply set_eq. intros x. split; [|by intros ?%elem_of_empty]. intros Hx.
    assert (Hin : x ∈ te_Ambiguities e) by (rewrite Ee; apply final_ambiguities; by left). rewrite E in Hin. by apply elem_of_nil in Hin. }
  rewrite Hm. pose proof (final_confidence p k (attach_evidence c)) as Hfin. cbv zeta in Hfin. rewrite <- Ee in Hfin.
  change (te_Confidence (ca_edge (attach_evidence c))) with (te_Confidence (ca_edge c)) in Hfin.
  destruct Hfin as [[Ha Hx]|[Ha Hx]]; rewrite Hx; [|split_and!; split; (done || tauto)].
  specialize (Hnone Ha). destruct Hconf as [[Ec Hev']|[Ec|[_ Hne]]]; [| |done]; rewrite Ec.
  - split_and!; split; (done || tauto).
  - assert (Hno : ~ exists ev, ev ∈ ca_evidence c /\ measured_kind (ee_Kind ev) = true).
    { intros He. destruct (Hmeas He) as [E|E]; congruence. }
    split_and!; split; (done || tauto).
Qed.

(** C34 (safety): the inference never picks a winner and never overstates, nor
    understates. An edge is a fresh observation of this moment. It is ambiguous
    exactly when it carries an ambiguity; measured exactly when it carries none
    and an association, an LLDP neighbour or a default route says so; inferred
    exactly when it carries none and nothing of the kind does. It carries the
    mark of competing placements exactly when two inferred edges place its child
    differently. A result is complete exactly when there are sources, every one
    of them has answered, and every address a bridge reports is at a port it
    names, of a known medium. *)
Theorem Infer_honest (input : InferenceInput) (result : InferenceResult) (Hrun : Infer input = Ok result) :
  exists r nodes, newIdentityResolver (in_Devices input) (in_Clients input) = Ok (r, nodes) /\
  (ir_Complete result = true <->
     (in_Sources input <> [] /\ forall so, so ∈ in_Sources input -> answered_state (so_State so) = true) /\
     forall k d, reports input r nodes k "bridge_fdb" d -> ek_port k <> "" /\ ek_medium k <> "unknown") /\
  forall e, e ∈ ir_Edges result ->
    te_ID e = 0 /\ te_ValidFrom e = in_At input /\ te_LastSeen e = in_At input /\ te_ValidTo e = None /\
    confidence_justified e /\
    (competingParentsAmbiguity ∈ te_Ambiguities e <-> competing (ir_Edges result) (te_ChildNode e)).
Proof.
  destruct (unanswered_complete input result Hrun) as (r & nodes & sources & s & Hobs & Hedges & Hr & Hcomplete).
  exists r, nodes. split; [done|]. rewrite Hedges. split.
  { rewrite Hcomplete. apply and_iff_compat_l. unfold unclear. split.
    - intros Hn k d Hk. split; intros E; apply Hn; exists k, d; auto.
    - intros Hall (k & d & Hk & [E|E]); destruct (Hall k d Hk); done. }
  intros e He. destruct (result_edge _ _ _ _ _ Hobs e He) as (k & c & Hc & Hco & Ee & Hk & Hev).
  set (p := pruneContradictedAggregateCandidates _) in Ee.
  destruct (final_fields p k (attach_evidence c)) as (_ & _ & F1 & F2 & F3 & F4).
  destruct (attach_fields c) as (_ & _ & A2 & A3 & A4 & A5 & _ & A6).
  pose proof (edge_confidence _ _ _ p k c e Hco Ee Hev) as Hconf.
  rewrite <- Ee in *. destruct Hco as [_ (C1 & C2 & C3 & C4 & _) _ _ _ _ Hmark].
  split_and!; [congruence..|exact Hconf|]. rewrite Ee at 1. rewrite final_ambiguities, A6.
  rewrite <- (competing_candidates (if_candidates s)) by (by eapply cs_key). fold p.
  assert (Hch : ek_child k = te_ChildNode e) by by rewrite <- Hk. rewrite Hch. tauto.
Qed.
