(* ===== verification/TopologyViewSpec.v ===== *)
(** * What is shown of the topology

    The loop of [CurrentPresentationEdges] computes a least fixed point: the
    spots resolved from direct observations through fresh transit edges. It
    ends, it hides exactly the transit edges whose peer is resolved, and no
    child loses its last edge. *)

From Stdlib Require Import ZArith Lia Ascii String.
From stdpp Require Import base gmap list strings sorting.
From S2P Require Import Prelude GoStr GoFmt Topology TopologyIntervals TopologyIntervalsSpec TopologyGraph TopologyView.

Local Open Scope string_scope.
Local Open Scope Z_scope.

Section Resolve.
Context (direct : gset spot) (ts : list transit).

Definition upstream (t : transit) : spot := (fst (tr_peer t), tr_parent t).

(** The spots that direct observations resolve. *)
Inductive resolved : spot -> Prop :=
| resolved_direct p : p ∈ direct -> resolved p
| resolved_transit t : t ∈ ts -> tr_fresh t = true -> resolved (tr_peer t) -> resolved (upstream t).

Record resolving (s : resolution) : Prop := MkResolving {
  rg_sound : forall p, p ∈ rv_resolved s -> resolved p;
  rg_direct : direct ⊆ rv_resolved s;
  rg_queued : forall p, p ∈ rv_queue s -> p ∈ rv_resolved s;
  rg_done : forall t, t ∈ ts -> tr_peer t ∈ rv_resolved s -> tr_peer t ∉ rv_queue s ->
    tr_index t ∈ rv_hidden s /\ (tr_fresh t = true -> upstream t ∈ rv_resolved s);
  rg_hidden : forall i, i ∈ rv_hidden s -> exists t, t ∈ ts /\ tr_index t = i /\ tr_peer t ∈ rv_resolved s
}.

(** ** One spot *)

Lemma resolve_transit_grows ch s t :
  rv_resolved s ⊆ rv_resolved (resolve_transit ch s t) /\ rv_hidden s ⊆ rv_hidden (resolve_transit ch s t) /\
  (forall p, p ∈ rv_queue s -> p ∈ rv_queue (resolve_transit ch s t)).
Proof.
  unfold resolve_transit. destruct (_ || _); cbn [rv_resolved rv_hidden rv_queue].
  - split_and!; [done|set_solver|done].
  - split_and!; [set_solver|set_solver|intros p Hp; apply elem_of_app; by left].
Qed.

(** The spots still to be queued, and those that are. *)
Definition pending (s : resolution) : nat :=
  length (List.filter (fun t => negb (bool_decide (upstream t ∈ rv_resolved s))) ts).

Lemma filter_length_le {A} (f g : A -> bool) l : (forall x, x ∈ l -> g x = true -> f x = true) ->
  (length (List.filter g l) <= length (List.filter f l))%nat.
Proof.
  induction l as [|x l IH]; intros H; [done|]. cbn [List.filter].
  assert (Hl : (length (List.filter g l) <= length (List.filter f l))%nat) by (apply IH; intros y Hy; apply H; by right).
  pose proof (H x ltac:(left)) as Hx. destruct (g x), (f x); simpl; lia.
Qed.

Lemma filter_length_lt {A} (f g : A -> bool) l a : (forall x, x ∈ l -> g x = true -> f x = true) ->
  a ∈ l -> f a = true -> g a = false -> (length (List.filter g l) < length (List.filter f l))%nat.
Proof.
  induction l as [|x l IH]; intros H Ha Hf Hg; [by apply elem_of_nil in Ha|]. cbn [List.filter].
  assert (Hl : forall y, y ∈ l -> g y = true -> f y = true) by (intros y Hy; apply H; by right).
  apply elem_of_cons in Ha as [<-|Ha].
  - rewrite Hf, Hg. cbn [length]. pose proof (filter_length_le f g l Hl). lia.
  - specialize (IH Hl Ha Hf Hg). pose proof (H x ltac:(left)) as Hx.
    destruct (g x), (f x); simpl; lia.
Qed.

(** One candidate whose peer is the spot [q]. *)
Lemma resolve_one q s t : t ∈ ts -> tr_peer t = q -> resolved q ->
  let s1 := resolve_transit (fst q) s t in
  (forall p, p ∈ rv_resolved s1 -> p ∈ rv_resolved s \/ (resolved p /\ p ∈ rv_queue s1)) /\
  (forall p, p ∈ rv_queue s1 -> p ∈ rv_queue s \/ p ∈ rv_resolved s1) /\
  (tr_index t ∈ rv_hidden s1 /\ (tr_fresh t = true -> upstream t ∈ rv_resolved s1)) /\
  (forall i, i ∈ rv_hidden s1 -> i ∈ rv_hidden s \/ tr_index t = i) /\
  (length (rv_queue s1) + pending s1 <= length (rv_queue s) + pending s)%nat.
Proof.
  intros Ht Hpeer Hq. assert (Hup : (fst q, tr_parent t) = upstream t) by (unfold upstream; by rewrite Hpeer).
  assert (Hh : forall i, i ∈ {[tr_index t]} ∪ rv_hidden s -> i ∈ rv_hidden s \/ tr_index t = i).
  { intros i [->%elem_of_singleton|Hi]%elem_of_union; [by right|by left]. }
  assert (Ht' : tr_index t ∈ {[tr_index t]} ∪ rv_hidden s) by (apply elem_of_union_l, elem_of_singleton; done).
  cbv zeta. unfold resolve_transit. rewrite Hup. destruct (tr_fresh t) eqn:Ef; cbn [negb orb].
  2: { cbn [rv_resolved rv_hidden rv_queue]. split_and!; [auto|auto|exact Ht'|discriminate|exact Hh|unfold pending; simpl; lia]. }
  destruct (decide (upstream t ∈ rv_resolved s)) as [Eb|Eb].
  { rewrite !(bool_decide_eq_true_2 _ Eb). cbn [rv_resolved rv_hidden rv_queue].
    split_and!; [auto|auto|exact Ht'|auto|exact Hh|unfold pending; simpl; lia]. }
  rewrite !(bool_decide_eq_false_2 _ Eb). cbn [rv_resolved rv_hidden rv_queue].
  split_and!; [| |exact Ht'| |exact Hh|].
  - intros p [->%elem_of_singleton|Hp]%elem_of_union; [right|by left]. split; [|apply elem_of_app; right; left].
    apply resolved_transit; [done..|by rewrite Hpeer].
  - intros p [Hp|Hp%list_elem_of_singleton]%elem_of_app; [by left|right]. subst p. by apply elem_of_union_l, elem_of_singleton.
  - intros _. by apply elem_of_union_l, elem_of_singleton.
  - rewrite length_app. cbn [length]. unfold pending. cbn [rv_resolved].
    match goal with |- (_ + 1 + ?a <= _ + ?b)%nat => assert (a < b)%nat; [|lia] end.
    apply (filter_length_lt _ _ _ t); [|done| |].
    + intros x _ H. bool_prop. bool_goal. apply bool_decide_eq_false. intros Hx. destruct H. by apply elem_of_union_r.
    + bool_goal. by apply bool_decide_eq_false.
    + apply negb_false_iff, bool_decide_eq_true. by apply elem_of_union_l, elem_of_singleton.
Qed.

(** The loop over the candidates [l] that need the spot [q]. *)
Lemma resolve_fold q l s : (forall t, t ∈ l -> t ∈ ts /\ tr_peer t = q) -> resolved q -> q ∈ rv_resolved s ->
  let s' := fold_left (resolve_transit (fst q)) l s in
  rv_resolved s ⊆ rv_resolved s' /\ rv_hidden s ⊆ rv_hidden s' /\
  (forall p, p ∈ rv_queue s -> p ∈ rv_queue s') /\
  (forall p, p ∈ rv_resolved s' -> p ∈ rv_resolved s \/ (resolved p /\ p ∈ rv_queue s')) /\
  (forall p, p ∈ rv_queue s' -> p ∈ rv_queue s \/ p ∈ rv_resolved s') /\
  (forall t, t ∈ l -> tr_index t ∈ rv_hidden s' /\ (tr_fresh t = true -> upstream t ∈ rv_resolved s')) /\
  (forall i, i ∈ rv_hidden s' -> i ∈ rv_hidden s \/ exists t, t ∈ l /\ tr_index t = i) /\
  (length (rv_queue s') + pending s' <= length (rv_queue s) + pending s)%nat.
Proof.
  revert s. induction l as [|t l IH]; intros s Hl Hq Hqs s'.
  { subst s'. cbn [fold_left]. split_and!; try done; try (intros; by left). intros t Ht. by apply elem_of_nil in Ht. }
  destruct (Hl t ltac:(left)) as [Ht Hpeer].
  set (s1 := resolve_transit (fst q) s t).
  destruct (resolve_transit_grows (fst q) s t) as (Hg1 & Hg2 & Hg3). fold s1 in Hg1, Hg2, Hg3.
  pose proof (resolve_one q s t Ht Hpeer Hq) as Hs1. cbv zeta in Hs1. fold s1 in Hs1.
  destruct Hs1 as (A1 & A2 & (A3 & A4) & A5 & A6).
  destruct (IH s1) as (B1 & B2 & B3 & B4 & B5 & B6 & B7 & B8); [intros x Hx; apply Hl; by right|done|by apply Hg1|].
  change (fold_left (resolve_transit (fst q)) l s1) with s' in *. split_and!.
  - by etransitivity.
  - by etransitivity.
  - auto.
  - intros p Hp. destruct (B4 p Hp) as [Hp1|]; [|by right]. destruct (A1 p Hp1) as [|[? ?]]; [by left|right; auto].
  - intros p Hp. destruct (B5 p Hp) as [Hp1|]; [|by right]. destruct (A2 p Hp1) as [|?]; [by left|right; auto].
  - intros x Hx. apply elem_of_cons in Hx as [->|Hx]; [split; auto|by apply B6].
  - intros i Hi. destruct (B7 i Hi) as [Hi1|(x & Hx & E)]; [|right; exists x; split; [by right|done]].
    destruct (A5 i Hi1) as [|E]; [by left|right]. exists t. split; [left|done].
  - lia.
Qed.

(** ** The loop *)

Lemma resolve_step s q queue : resolving s -> rv_queue s = q :: queue ->
  let s' := fold_left (resolve_transit (fst q)) (List.filter (fun t => bool_decide (tr_peer t = q)) ts)
              (MkResolution (rv_resolved s) queue (rv_hidden s)) in
  resolving s' /\ (length (rv_queue s') + pending s' < length (rv_queue s) + pending s)%nat.
Proof.
  intros [H1 H2 H3 H4 H5] Eq s'. set (l := List.filter _ ts) in s'. set (s0 := MkResolution (rv_resolved s) queue (rv_hidden s)) in s'.
  assert (Hq : q ∈ rv_resolved s) by (apply H3; rewrite Eq; left).
  assert (Hl : forall t, t ∈ l <-> t ∈ ts /\ tr_peer t = q).
  { intros t. unfold l. rewrite elem_of_list_filter, bool_decide_eq_true. tauto. }
  destruct (resolve_fold q l s0) as (B1 & B2 & B3 & B4 & B5 & B6 & B7 & B8); [intros t; by rewrite Hl|auto|done|].
  fold s' in B1, B2, B3, B4, B5, B6, B7, B8. split.
  - constructor.
    + intros p Hp. destruct (B4 p Hp) as [Hp1|[? _]]; [by apply H1|done].
    + by etransitivity.
    + intros p Hp. destruct (B5 p Hp) as [Hp1|]; [|done]. apply B1, H3. rewrite Eq. by right.
    + intros t Ht Hres Hnq. destruct (decide (tr_peer t = q)) as [E|E]; [apply B6, Hl; done|].
      destruct (B4 _ Hres) as [Hp1|[_ ?]]; [|done].
      destruct (H4 t Ht Hp1) as [Hh Hf].
      { rewrite Eq. intros [?|Hin]%elem_of_cons; [done|]. by apply Hnq, B3. }
      split; [by apply B2|]. intros Hfr. by apply B1, Hf.
    + intros i Hi. destruct (B7 i Hi) as [Hi1|(t & Ht & E)].
      * destruct (H5 i Hi1) as (t & Ht & E & Hp). exists t. split_and!; [done..|by apply B1].
      * apply Hl in Ht as [Ht Ep]. exists t. split_and!; [done..|]. rewrite Ep. by apply B1.
  - rewrite Eq. cbn [length]. change (rv_queue s0) with queue in B8. change (pending s0) with (pending s) in B8. lia.
Qed.

Lemma resolve_spots_ends fuel s : resolving s -> (length (rv_queue s) + pending s <= fuel)%nat ->
  exists s', resolve_spots fuel ts s = Some s' /\ resolving s' /\ rv_queue s' = [].
Proof.
  revert s. induction fuel as [|f IH]; intros s Hs Hf.
  - assert (rv_queue s = []) by (apply length_zero_iff_nil; lia). exists s. cbn [resolve_spots].
    destruct (rv_queue s); done.
  - cbn [resolve_spots]. destruct (rv_queue s) as [|q queue] eqn:Eq; [by exists s|].
    destruct (resolve_step s q queue Hs Eq) as [Hs' Hlt]. apply IH; [done|].
    rewrite Eq in Hlt. simpl in *. lia.
Qed.

Lemma resolve_exact s : resolving s -> rv_queue s = [] ->
  (forall p, p ∈ rv_resolved s <-> resolved p) /\
  (forall i, i ∈ rv_hidden s <-> exists t, t ∈ ts /\ tr_index t = i /\ resolved (tr_peer t)).
Proof.
  intros [H1 H2 H3 H4 H5] Hq.
  assert (Hr : forall p, p ∈ rv_resolved s <-> resolved p).
  { intros p. split; [apply H1|]. induction 1 as [p Hp|t Ht Hf Hp IH]; [by apply H2|].
    apply (H4 t Ht IH); [|done]. rewrite Hq. apply not_elem_of_nil. }
  split; [done|]. intros i. split.
  - intros Hi. destruct (H5 i Hi) as (t & Ht & E & Hp). exists t. by rewrite <- Hr.
  - intros (t & Ht & <- & Hp). apply (H4 t Ht); [by apply Hr|]. rewrite Hq. apply not_elem_of_nil.
Qed.

Lemma resolve_all : exists s', resolve_spots (size direct + length ts) ts (MkResolution direct (elements direct) ∅) = Some s' /\
  (forall i, i ∈ rv_hidden s' <-> exists t, t ∈ ts /\ tr_index t = i /\ resolved (tr_peer t)).
Proof.
  destruct (resolve_spots_ends (size direct + length ts) (MkResolution direct (elements direct) ∅)) as (s' & H & Hs & Hq).
  - constructor; cbn [rv_resolved rv_queue rv_hidden]; [by constructor|done|set_solver| |set_solver].
    intros t _ Hp Hn. destruct Hn. by apply elem_of_elements.
  - assert (pending (MkResolution direct (elements direct) ∅) <= length ts)%nat
      by (unfold pending; apply List.filter_length_le).
    change (size direct) with (length (elements direct)). cbn [rv_queue]. lia.
  - exists s'. split; [done|]. by apply resolve_exact.
Qed.
End Resolve.

(** ** Hidden edges *)

(** The evidence kinds come from their sources, as [Infer] writes them. *)
Definition well_sourced (e : TopologyEdge) : Prop := forall v, v ∈ te_Evidence e ->
  (ev_Kind v = "association" -> ev_Source v = SourceAssociations) /\
  (ev_Kind v = "lldp_neighbor" -> ev_Source v = SourceLLDP).

Section View.
Context (states : source_table) (at_ age : Z) (edges : list TopologyEdge).

Notation direct := (direct_spots states at_ age edges).
Notation ts := (transits states at_ age edges).

Lemma transits_spec t : t ∈ ts <-> exists i e peer, edges !! i = Some e /\ managedLinkTransitPeer e = Some peer /\
  t = MkTransit i (te_ChildNode e, peer) (te_ParentNode e) (managedLinkTransitRecentlyObserved e states at_ age).
Proof.
  unfold transits. rewrite elem_of_flat_map. split.
  - intros ([i e] & Hin & Ht). apply elem_of_lookup_imap in Hin as (j & e' & E & Hj). simplify_eq.
    destruct (managedLinkTransitPeer e') as [peer|] eqn:Ep; [|by apply elem_of_nil in Ht].
    apply list_elem_of_singleton in Ht as ->. eauto 8.
  - intros (i & e & peer & Hi & Hp & ->). exists (i, e). split; [apply elem_of_lookup_imap; eauto|].
    rewrite Hp. left.
Qed.

Lemma direct_spec p : p ∈ direct <-> exists e, e ∈ edges /\ edgeHasFreshDirectEvidence e states at_ age = true /\
  p = (te_ChildNode e, te_ParentNode e).
Proof.
  unfold direct_spots. rewrite elem_of_list_to_set, list_elem_of_fmap. setoid_rewrite elem_of_list_filter.
  split; intros (e & ? & ?); exists e; tauto.
Qed.

(** Resolved spots of a child go back to a direct observation of that child. *)
Lemma resolved_origin p : resolved direct ts p ->
  exists e, e ∈ edges /\ te_ChildNode e = fst p /\ edgeHasFreshDirectEvidence e states at_ age = true.
Proof.
  induction 1 as [p (e & He & Hf & ->)%direct_spec|t Ht Hf Hp IH]; [by exists e|]. exact IH.
Qed.

(** A direct observation is never taken for transit. *)
Lemma direct_not_transit e : well_sourced e -> edgeHasFreshDirectEvidence e states at_ age = true ->
  managedLinkTransitPeer e = None.
Proof.
  intros Hw H. unfold edgeHasFreshDirectEvidence in H. apply andb_true_iff in H as [_ H].
  apply existsb_true_iff in H as (v & Hv & Hd). unfold direct_evidence in Hd.
  destruct (ev_DeviceID v) as [d|] eqn:Edev; [|done]. unfold managedLinkTransitPeer.
  destruct (Hw v Hv) as [Ha Hl]. destruct (String.eqb (ev_Kind v) "association") eqn:E1.
  { assert (edgeHasAssociation e = true) as ->; [|done]. apply existsb_true_iff. exists v. split; [done|].
    rewrite E1. bool_prop. rewrite (Ha E1). apply String.eqb_refl. }
  destruct (String.eqb (ev_Kind v) "lldp_neighbor") eqn:E2.
  { assert (edgeHasLLDP e = true) as ->; [|by rewrite orb_true_r]. apply existsb_true_iff. exists v. split; [done|].
    rewrite E2. bool_prop. rewrite (Hl E2). apply String.eqb_refl. }
  cbn [orb] in Hd. bool_prop. destruct (edgeHasAssociation e || edgeHasLLDP e); [done|].
  assert (Hn : forall l peer, v ∈ l -> transit_peer peer l = None).
  { induction l as [|x l IH]; intros peer Hin; [by apply elem_of_nil in Hin|]. cbn [transit_peer].
    apply elem_of_cons in Hin as [<-|Hin].
    - match goal with H : is_fdb v = true |- _ => rewrite H end.
      match goal with H : transit_flag v = false |- _ => rewrite H end. cbn [negb]. by rewrite orb_true_r.
    - destruct (negb (is_fdb x)); [by apply IH|]. destruct (_ || _); [done|by apply IH]. }
  by rewrite Hn.
Qed.

(** The edge at position [i] is hidden: it may be transit, and the peer it may
    pass through is resolved. *)
Definition hidden_at (i : nat) : Prop := exists e peer, edges !! i = Some e /\
  managedLinkTransitPeer e = Some peer /\ resolved direct ts (te_ChildNode e, peer).

Lemma hidden_exact : exists h, hidden_edges states at_ age edges = Some h /\ forall i, i ∈ h <-> hidden_at i.
Proof.
  destruct (resolve_all direct ts) as (s & Hs & Hh). exists (rv_hidden s). split.
  - unfold hidden_edges. by rewrite Hs.
  - intros i. rewrite Hh. split.
    + intros (t & (j & e & peer & Hj & Hp & ->)%transits_spec & <- & Hr). exists e, peer. by split_and!.
    + intros (e & peer & Hi & Hp & Hr). eexists. split; [apply transits_spec; eauto 8|]. by split.
Qed.
End View.

(** ** What is shown *)

(** The same edge: its place, evidence, id and interval. *)
Definition same_edge (e e' : TopologyEdge) : Prop :=
  key_of e' = key_of e /\ te_Evidence e' = te_Evidence e /\ te_ID e' = te_ID e /\ te_ValidFrom e' = te_ValidFrom e /\
  te_LastSeen e' = te_LastSeen e /\ te_ChildMAC e' = te_ChildMAC e.

Lemma present_same l e : same_edge e (present l e).
Proof. unfold present. by destruct (bool_decide _). Qed.

Lemma same_edge_place e e' : same_edge e e' -> te_ChildNode e' = te_ChildNode e /\ te_ParentNode e' = te_ParentNode e /\
  te_ParentPort e' = te_ParentPort e.
Proof. intros ([= -> -> -> _] & _). done. Qed.

Lemma visible_spec hidden edges e : e ∈ visible_edges hidden edges <-> exists i, edges !! i = Some e /\ i ∉ hidden.
Proof.
  unfold visible_edges. rewrite list_elem_of_fmap. setoid_rewrite elem_of_list_filter. split.
  - intros ([i e'] & -> & Hf & Hin). apply elem_of_lookup_imap in Hin as (j & e & E & Hj). simplify_eq. cbn [fst snd] in *.
    bool_prop. eauto.
  - intros (i & Hi & Hn). exists (i, e). split; [done|]. split; [|apply elem_of_lookup_imap; eauto].
    cbn [fst]. by rewrite bool_decide_eq_false_2.
Qed.

Lemma visible_parents_spec l child p : p ∈ visible_parents l child <->
  exists e, e ∈ l /\ no_internet e /\ te_ChildNode e = child /\ p = place e.
Proof.
  unfold visible_parents, no_internet. rewrite elem_of_list_to_set, list_elem_of_fmap.
  setoid_rewrite elem_of_list_filter. setoid_rewrite andb_true_iff. setoid_rewrite negb_true_iff.
  setoid_rewrite String.eqb_neq. setoid_rewrite String.eqb_eq.
  split; intros (e & ?); exists e; tauto.
Qed.

Lemma competing_visible l child : competing l child <-> (1 < size (visible_parents l child))%nat.
Proof.
  rewrite size_two. setoid_rewrite visible_parents_spec. unfold competing. split.
  - intros (e & e' & He & He' & Hc & Hc' & Hi & Hi' & Hne). exists (place e), (place e'). split_and!; eauto 6.
  - intros (p & p' & (e & He & Hi & Hc & ->) & (e' & He' & Hi' & Hc' & ->) & Hne). exists e, e'. by split_and!.
Qed.

(** Presenting the edges does not change who competes. *)
Lemma competing_present l child : competing (map (present l) l) child <-> competing l child.
Proof.
  unfold competing. split.
  - intros (x & x' & (e & -> & He)%list_elem_of_fmap & (e' & -> & He')%list_elem_of_fmap & Hc & Hc' & Hi & Hi' & Hne).
    exists e, e'. destruct (same_edge_place _ _ (present_same l e)) as (E1 & E2 & E3).
    destruct (same_edge_place _ _ (present_same l e')) as (F1 & F2 & F3).
    unfold no_internet, place in *. rewrite E2, E3, F2, F3 in Hne. split_and!; congruence.
  - intros (e & e' & He & He' & Hc & Hc' & Hi & Hi' & Hne). exists (present l e), (present l e').
    destruct (same_edge_place _ _ (present_same l e)) as (E1 & E2 & E3).
    destruct (same_edge_place _ _ (present_same l e')) as (F1 & F2 & F3).
    unfold no_internet, place in *. rewrite E2, E3, F2, F3.
    split_and!; [by apply list_elem_of_fmap_2|by apply list_elem_of_fmap_2|congruence..].
Qed.

Lemma present_marks l e : let p := present l e in
  (competingParentsAmbiguity ∈ te_Ambiguities p <-> competing l (te_ChildNode e)) /\
  (competing l (te_ChildNode e) -> te_Confidence p = "ambiguous").
Proof.
  cbv zeta. rewrite competing_visible. unfold present. cbn [with_Ambiguities with_semantics te_ChildNode].
  destruct (decide (1 < size (visible_parents l (te_ChildNode e)))%nat) as [Hs|Hs].
  - rewrite bool_decide_eq_true_2 by done. cbn [with_Ambiguities with_Confidence with_semantics te_Ambiguities te_Confidence].
    rewrite elem_of_sort_strings, elem_of_app. split; [|done]. split; [done|]. intros _. right. left.
  - rewrite bool_decide_eq_false_2 by done. cbn [with_Ambiguities with_Confidence with_semantics te_Ambiguities te_Confidence].
    rewrite elem_of_sort_strings, not_competing_spec. tauto.
Qed.

(** C39 (safety): the presentation hides only what may be transit and is accounted
    for. Over any edges whose evidence kinds come from their sources: an edge is
    left out exactly when it may be transit through a managed link whose peer is
    resolved, through fresh evidence, to a direct observation of the same child;
    every other edge is shown with its place, evidence, id and interval; no child
    disappears; and the shown edges are marked as competing exactly when they
    compete. The loop over the queue always ends. *)
Theorem presentation_hides_only_transit (edges : list TopologyEdge) (sources : list TopologySourceObservation)
    (at_ age : Z) (Hsourced : forall e, e ∈ edges -> well_sourced e) :
  let states := latest_states sources in
  let shown := CurrentPresentationEdges edges sources at_ age in
  (exists h, hidden_edges states at_ age edges = Some h) /\
  (forall i e, edges !! i = Some e -> hidden_at states at_ age edges i \/ exists e', e' ∈ shown /\ same_edge e e') /\
  (forall e', e' ∈ shown -> exists i e, edges !! i = Some e /\ ~ hidden_at states at_ age edges i /\ same_edge e e') /\
  (forall e, e ∈ edges -> exists e', e' ∈ shown /\ te_ChildNode e' = te_ChildNode e) /\
  (forall e', e' ∈ shown -> competingParentsAmbiguity ∈ te_Ambiguities e' <-> competing shown (te_ChildNode e')).
Proof.
  intros states shown. destruct (hidden_exact states at_ age edges) as (h & Hh & Hex).
  assert (Es : shown = map (present (visible_edges h edges)) (visible_edges h edges)).
  { unfold shown, CurrentPresentationEdges. fold states. by rewrite Hh. }
  assert (Hshow : forall i e, edges !! i = Some e -> ~ hidden_at states at_ age edges i ->
            exists e', e' ∈ shown /\ same_edge e e').
  { intros i e Hi Hn. exists (present (visible_edges h edges) e). split; [|apply present_same]. rewrite Es.
    apply list_elem_of_fmap_2, visible_spec. exists i. by rewrite Hex. }
  split_and!.
  - by exists h.
  - intros i e Hi. destruct (decide (i ∈ h)) as [Hin|Hin]; [left; by apply Hex|right].
    apply (Hshow i e Hi). by rewrite <- Hex.
  - intros e' He'. rewrite Es in He'. apply list_elem_of_fmap in He' as (e & -> & (i & Hi & Hn)%visible_spec).
    exists i, e. rewrite <- Hex. split_and!; [done..|apply present_same].
  - intros e He. apply list_elem_of_lookup in He as [i Hi]. destruct (decide (i ∈ h)) as [Hin|Hin].
    + apply Hex in Hin as (e0 & peer & Hi0 & Hp & Hr). simplify_eq.
      destruct (resolved_origin _ _ _ _ _ Hr) as (d & Hd & Hc & Hf). apply list_elem_of_lookup in Hd as [j Hj].
      destruct (Hshow j d Hj) as (d' & Hd' & Hsame).
      * intros (d0 & peer' & Hj0 & Hp' & _). simplify_eq.
        rewrite (direct_not_transit states at_ age d) in Hp'; [done| |done].
        apply Hsourced. by eapply list_elem_of_lookup_2.
      * exists d'. split; [done|]. apply same_edge_place in Hsame as (-> & _). exact Hc.
    + destruct (Hshow i e Hi) as (e' & He' & Hsame); [by rewrite <- Hex|]. exists e'. split; [done|].
      by apply same_edge_place in Hsame as (-> & _).
  - intros e' He'. rewrite Es in *. apply list_elem_of_fmap in He' as (e & -> & He).
    rewrite competing_present. destruct (same_edge_place _ _ (present_same (visible_edges h edges) e)) as (-> & _).
    apply present_marks.
Qed.
