(* ===== verification/TopologyParse.v ===== *)
(** * What devices print

    internal/topology/parse.go, the text parsers: the BusyBox tables of
    neighbours, bridge addresses, spanning tree ports and IPv4 routes, as stock
    OpenWrt prints them, and the numbers they contain. A parser answers with the
    whole table or with an error; [scanLines] is a fold that stops at the first
    error of the line function. *)

From Stdlib Require Import ZArith Lia Ascii String SpecFloat.
From stdpp Require Import base gmap list strings sorting.
From S2P Require Import Prelude GoStr GoFmt NetIP F64 Topology.

Local Open Scope string_scope.
Local Open Scope Z_scope.

(** ** Numbers *)

(** [strconv.ParseUint(s, 10, bits)]. *)
Definition ParseUint (s : string) (bits : Z) : option Z :=
  match chars s with
  | [] => None
  | l => match digits_value l 0 with
         | Some z => if z <? 2 ^ bits then Some z else None
         | None => None
         end
  end.

(** The value [m * 10 ^ e], rounded to the nearest [float64]. A quotient is taken
    with at least 66 significant bits, its last bit telling whether it is exact. *)
Definition f_decimal (neg : bool) (m e : Z) : f64 :=
  if 0 <=? e then binary_normalize 53 1024 (if neg then - (m * 10 ^ e) else m * 10 ^ e) 0 neg
  else
    let d := 10 ^ (- e) in
    let k := Z.max 0 (66 + Z.log2 d - Z.log2 m) in
    let q := Z.div (m * 2 ^ k) d in
    let sticky := if Z.eqb (m * 2 ^ k) (q * d) then 0 else 1 in
    let v := 2 * q + sticky in
    binary_normalize 53 1024 (if neg then - v else v) (- k - 1) neg.

Definition is_hex (c : ascii) : bool := is_digit c || in_range 97 102 (lower_byte c).
Definition hex_digit (c : ascii) : Z := if is_digit c then byte_of c - 48 else byte_of (lower_byte c) - 87.

(** [underscoreOK] after the optional base prefix: [saw] is the class of the
    last character, 0 for none, 1 for a digit, 2 for an underscore, 3 for
    another. *)
Fixpoint underscores_ok (hex : bool) (saw : Z) (l : list ascii) : bool :=
  match l with
  | [] => negb (saw =? 2)
  | c :: l' =>
      if is_digit c || (hex && is_hex c) then underscores_ok hex 1 l'
      else if Ascii.eqb c "_" then (saw =? 1) && underscores_ok hex 2 l'
      else negb (saw =? 2) && underscores_ok hex 3 l'
  end.

(** The digits of a mantissa: the value, the digits seen and those after the
    point, whether a point or an underscore was seen, and the rest. *)
Fixpoint mantissa (base : Z) (l : list ascii) (m : Z) (seen after : Z) (point under : bool)
    : option (Z * Z * Z * bool * list ascii) :=
  match l with
  | [] => Some (m, seen, after, under, [])
  | c :: l' =>
      if Ascii.eqb c "_" then mantissa base l' m seen after point true
      else if Ascii.eqb c "." then
        if point then Some (m, seen, after, under, l) else mantissa base l' m seen after true under
      else if is_digit c || ((base =? 16) && is_hex c) then
        mantissa base l' (m * base + hex_digit c) (seen + 1) (after + if point then 1 else 0) point under
      else Some (m, seen, after, under, l)
  end.

(** The digits of an exponent; the value stops growing at ten thousand. *)
Fixpoint exponent_digits (l : list ascii) (e : Z) (under : bool) : Z * bool * list ascii :=
  match l with
  | [] => (e, under, [])
  | c :: l' =>
      if Ascii.eqb c "_" then exponent_digits l' e true
      else if is_digit c then exponent_digits l' (if e <? 10000 then e * 10 + (byte_of c - 48) else e) under
      else (e, under, l)
  end.

Definition sign_of (l : list ascii) : bool * list ascii :=
  match l with
  | c :: l' => if Ascii.eqb c "-" then (true, l') else if Ascii.eqb c "+" then (false, l') else (false, l)
  | [] => (false, [])
  end.

(** An exponent, when the letter of the base starts one. *)
Definition exponent (base : Z) (l : list ascii) : option (option Z * bool * list ascii) :=
  match l with
  | c :: l' =>
      if Ascii.eqb (lower_byte c) (if base =? 16 then "p"%char else "e"%char) then
        let '(neg, digits) := sign_of l' in
        match digits with
        | d :: _ =>
            if is_digit d then
              let '(e, under, rest) := exponent_digits digits 0 false in
              Some (Some (if neg then - e else e), under, rest)
            else None
        | [] => None
        end
      else Some (None, false, l)
  | [] => Some (None, false, [])
  end.

(** The infinities and the value that is not a number, in any case. *)
Definition special (s : string) : option f64 :=
  let '(neg, l) := sign_of (chars s) in
  let word := ToLower (of_chars l) in
  if String.eqb word "inf" || String.eqb word "infinity" then Some (S754_infinity neg)
  else if String.eqb (ToLower s) "nan" then Some S754_nan
  else None.

(** [strconv.ParseFloat(s, 64)]: syntax errors and values out of range are
    errors. *)
Definition ParseFloat (s : string) : option f64 :=
  match special s with
  | Some f => Some f
  | None =>
      let '(neg, l) := sign_of (chars s) in
      let '(base, body) := match l with
                           | z :: x :: (_ :: _) as l' =>
                               if Ascii.eqb z "0" && Ascii.eqb (lower_byte x) "x" then (16, drop 2 l) else (10, l)
                           | _ => (10, l)
                           end in
      match mantissa base body 0 0 0 false false with
      | None => None
      | Some (m, seen, after, under, rest) =>
          if seen =? 0 then None
          else match exponent base rest with
               | None => None
               | Some (e, under', rest) =>
                   let exp := default 0 e in
                   let f := if base =? 16
                            then binary_normalize 53 1024 (if neg then - m else m) (exp - 4 * after) neg
                            else f_decimal neg m (exp - after) in
                   if negb (Nat.eqb (length rest) 0) || ((base =? 16) && negb (bool_decide (is_Some e))) ||
                      ((under || under') && negb (underscores_ok (base =? 16) (if base =? 16 then 1 else 0) body)) ||
                      is_inf f
                   then None else Some f
               end
      end
  end.

Example ParseFloat_age : ParseFloat "  1.5" = None /\ ParseFloat "12.25" = Some (f_dec 1225 2) /\
  ParseFloat "1_0.5e1" = Some (f_of_Z 105) /\ ParseFloat "0x1p-1" = Some (f_dec 5 1) /\ ParseFloat "1e400" = None.
Proof. vm_compute. repeat split; reflexivity. Qed.
Example ParseFloat_nearest : ParseFloat "0.1" = Some (f_dec 1 1) /\ ParseFloat "9007199254740993" = Some (f_of_Z 9007199254740992).
Proof. vm_compute. split; reflexivity. Qed.

(** ** Lines *)

Definition newline : ascii := chr 10.

(** [bufio.ScanLines] over the whole output: nothing after a final newline is a
    line, and one carriage return at the end of a line is dropped. *)
Definition drop_cr (l : list ascii) : list ascii :=
  match rev l with
  | c :: r => if byte_of c =? 13 then rev r else l
  | [] => l
  end.
Definition raw_lines (out : string) : list (list ascii) :=
  let l := split_chars newline (chars out) in
  match rev l with [] :: r => rev r | _ => l end.

(** The scanner's buffer holds 65536 bytes; a longer line stops it. *)
Definition maxScanToken : nat := 65536.
Definition scan_line {S} (fn : S -> nat -> string -> res error S) (s : S) (nl : nat * list ascii) : res error S :=
  let '(i, l) := nl in
  if Nat.leb maxScanToken (length l) then Err "topology: read output: bufio.Scanner: token too long"
  else fn s (i + 1)%nat (of_chars (drop_cr l)).
Definition scanLines {S} (out : string) (fn : S -> nat -> string -> res error S) (s : S) : res error S :=
  try_fold (scan_line fn) (imap pair (raw_lines out)) s.

Definition VN (n : nat) : arg := VD (Z.of_nat n).

(** ** Neighbours *)

(** [strings.ToUpper] as far as a comparison with ASCII text can see it: the two
    non-ASCII runes whose upper case is ASCII, U+0131 and U+017F, become [I] and
    [S]. *)
Fixpoint upper_runes (l : list ascii) : list ascii :=
  match l with
  | [] => []
  | c :: l' =>
      match l' with
      | d :: l'' =>
          if (byte_of c =? 196) && (byte_of d =? 177) then chr 73 :: upper_runes l''
          else if (byte_of c =? 197) && (byte_of d =? 191) then chr 83 :: upper_runes l''
          else upper_byte c :: upper_runes l'
      | [] => [upper_byte c]
      end
  end.
Definition ToUpperRunes (s : string) : string := of_chars (upper_runes (chars s)).

Definition neighborStates : list string :=
  ["NONE"; "INCOMPLETE"; "REACHABLE"; "STALE"; "DELAY"; "PROBE"; "FAILED"; "NOARP"; "PERMANENT"].
Definition neighborFlags : list string :=
  ["router"; "proxy"; "extern_learn"; "extern_valid"; "offload"; "managed"; "use"].
Definition one_of (l : list string) (s : string) : bool := existsb (String.eqb s) l.

(** A row while its tokens are read, and which counters it has. *)
Record neighbor_row := MkNeighborRow {
  nr_row : Neighbor;
  nr_ref : bool;
  nr_probes : bool;
  nr_used : bool
}.

Definition set_nb (n : Neighbor) (iface mac state : string) (flags : list string) : Neighbor :=
  MkNeighbor (nb_Family n) (nb_Address n) iface mac state flags (nb_UsedSeconds n) (nb_ConfirmedSeconds n)
    (nb_UpdatedSeconds n).

Definition age_of (s : string) : option Z :=
  match Atoi s with Some z => if z <? 0 then None else Some z | None => None end.
Definition ages_of (s : string) : option (Z * Z * Z) :=
  match map age_of (Split s "/"%char) with
  | [Some used; Some confirmed; Some updated] => Some (used, confirmed, updated)
  | _ => None
  end.

(** One keyword and its value, if it takes one; [rest] are the tokens after the
    keyword. *)
Definition neighbor_token (lineNo : nat) (w : neighbor_row) (token : string) (rest : list string)
    : res error (neighbor_row * list string) :=
  let row := nr_row w in
  let with_row r := MkNeighborRow r (nr_ref w) (nr_probes w) (nr_used w) in
  let invalid name := Err (errf "line %d: invalid %s field" [VN lineNo; VS name]) in
  if String.eqb token "dev" then
    match rest with
    | value :: rest =>
        if negb (String.eqb (nb_Interface row) "") then invalid "dev"
        else if validInterfaceName value then
          Ok (with_row (set_nb row value (nb_MAC row) (nb_State row) (nb_Flags row)), rest)
        else Err (errf "line %d: invalid interface %q" [VN lineNo; VS value])
    | [] => invalid "dev"
    end
  else if String.eqb token "lladdr" then
    match rest with
    | value :: rest =>
        if negb (String.eqb (nb_MAC row) "") then invalid "lladdr"
        else match canonicalMAC value with
             | Ok mac => Ok (with_row (set_nb row (nb_Interface row) mac (nb_State row) (nb_Flags row)), rest)
             | Err e => Err (errf "line %d: %w" [VN lineNo; VS e])
             end
    | [] => invalid "lladdr"
    end
  else if one_of neighborStates (ToUpperRunes token) then
    if negb (String.eqb (nb_State row) "") then Err (errf "line %d: multiple neighbor states" [VN lineNo])
    else Ok (with_row (set_nb row (nb_Interface row) (nb_MAC row) (ToLower token) (nb_Flags row)), rest)
  else if String.eqb token "ref" || String.eqb token "probes" then
    let is_ref := String.eqb token "ref" in
    match rest with
    | value :: rest =>
        if (is_ref && nr_ref w) || (negb is_ref && nr_probes w) then invalid token
        else match ParseUint value 32 with
             | Some _ => Ok (MkNeighborRow row (nr_ref w || is_ref) (nr_probes w || negb is_ref) (nr_used w), rest)
             | None => invalid token
             end
    | [] => invalid token
    end
  else if String.eqb token "used" then
    match rest with
    | value :: rest =>
        if nr_used w then invalid "used"
        else match ages_of value with
             | Some (used, confirmed, updated) =>
                 Ok (MkNeighborRow (MkNeighbor (nb_Family row) (nb_Address row) (nb_Interface row) (nb_MAC row)
                       (nb_State row) (nb_Flags row) (Some used) (Some confirmed) (Some updated))
                       (nr_ref w) (nr_probes w) true, rest)
             | None => invalid "used"
             end
    | [] => invalid "used"
    end
  else if one_of neighborFlags token then
    Ok (with_row (set_nb row (nb_Interface row) (nb_MAC row) (nb_State row) (nb_Flags row ++ [token])%list), rest)
  else Err (errf "line %d: unsupported neighbor token %q" [VN lineNo; VS token]).

(** The tokens after the address; every turn takes at least one, so as many
    turns as there are tokens are enough. *)
Fixpoint neighbor_tokens (fuel : nat) (lineNo : nat) (w : neighbor_row) (tokens : list string) : res error neighbor_row :=
  match fuel, tokens with
  | O, _ | _, [] => Ok w
  | S fuel', token :: rest =>
      let? (w, rest) := neighbor_token lineNo w token rest in
      neighbor_tokens fuel' lineNo w rest
  end.

Definition no_zone (a : Addr) : bool := match a with A4 _ => true | A6 _ zone => String.eqb zone "" end.

Definition parse_neighbor (family : Z) (rows : list Neighbor) (lineNo : nat) (line : string) : res error (list Neighbor) :=
  match Fields line with
  | [] => Ok rows
  | address :: tokens =>
      let bad := Err (errf "line %d: invalid IPv%d address %q" [VN lineNo; VD family; VS address]) in
      match ParseAddr address with
      | None => bad
      | Some a =>
          if negb (no_zone a) || negb (Bool.eqb (family =? 4) (Is4 a)) then bad
          else
            let start := MkNeighborRow (MkNeighbor family (addr_String a) "" "" "" [] None None None) false false false in
            let? w := neighbor_tokens (length tokens) lineNo start tokens in
            let row := nr_row w in
            if String.eqb (nb_Interface row) "" || String.eqb (nb_State row) "" then
              Err (errf "line %d: neighbor requires dev and state" [VN lineNo])
            else Ok (rows ++ [set_nb row (nb_Interface row) (nb_MAC row) (nb_State row) (sort_strings (nb_Flags row))])%list
      end
  end.

Definition ParseNeighbors (family : Z) (out : string) : res error (list Neighbor) :=
  if negb (family =? 4) && negb (family =? 6) then Err "topology: neighbor family must be 4 or 6"
  else scanLines out (parse_neighbor family) [].

(** ** The forwarding table of a bridge *)

(** The state: whether the header was read, and the rows. *)
Definition parse_mac_row (s : bool * list FDBEntry) (lineNo : nat) (line : string) : res error (bool * list FDBEntry) :=
  let '(header, rows) := s in
  let trimmed := TrimSpace line in
  if String.eqb trimmed "" then Ok s
  else if negb header then
    if String.eqb (Join (Fields (ToLowerRunes trimmed)) " ") "port no mac addr is local? ageing timer" then Ok (true, rows)
    else Err (errf "line %d: unexpected showmacs header" [VN lineNo])
  else
    match Fields trimmed with
    | [f0; f1; f2; f3] =>
        match Atoi f0 with
        | None => Err (errf "line %d: invalid bridge port %q" [VN lineNo; VS f0])
        | Some port =>
            if port <? 0 then Err (errf "line %d: invalid bridge port %q" [VN lineNo; VS f0])
            else match canonicalMAC f1 with
                 | Err e => Err (errf "line %d: %w" [VN lineNo; VS e])
                 | Ok mac =>
                     if negb (String.eqb f2 "yes") && negb (String.eqb f2 "no") then
                       Err (errf "line %d: invalid local flag %q" [VN lineNo; VS f2])
                     else match ParseFloat f3 with
                          | None => Err (errf "line %d: invalid ageing timer %q" [VN lineNo; VS f3])
                          | Some age =>
                              if f_ltb age f_zero then Err (errf "line %d: invalid ageing timer %q" [VN lineNo; VS f3])
                              else Ok (header, (rows ++ [MkFDBEntry port mac (String.eqb f2 "yes") age])%list)
                          end
                 end
        end
    | fields => Err (errf "line %d: showmacs row has %d fields" [VN lineNo; VN (length fields)])
    end.

Definition ParseShowMACs (out : string) : res error (list FDBEntry) :=
  let? (header, rows) := scanLines out parse_mac_row (false, []) in
  if header then Ok rows else Err "topology: showmacs header missing".

(** ** Spanning tree ports *)

Definition stpStates : list string := ["disabled"; "listening"; "learning"; "forwarding"; "blocking"].

(** White space of a regular expression. *)
Definition re_space (c : ascii) : bool :=
  (byte_of c =? 9) || (byte_of c =? 10) || (byte_of c =? 12) || (byte_of c =? 13) || (byte_of c =? 32).
Fixpoint take_while {A} (p : A -> bool) (l : list A) : list A * list A :=
  match l with
  | x :: l' => if p x then let '(a, b) := take_while p l' in (x :: a, b) else ([], l)
  | [] => ([], [])
  end.

(** [stpPortHeader]: something, white space, and digits in parentheses up to the
    end. Only the last parentheses can match, and the first group is the shortest
    text, so it ends before all the white space. Read from the end. *)
Definition stp_header (line : string) : option (string * string) :=
  match rev (chars line) with
  | close :: l =>
      if Ascii.eqb close ")" then
        match take_while is_digit l with
        | ((_ :: _) as digits, open :: l) =>
            if Ascii.eqb open "(" then
              match take_while re_space l with
              | (_ :: _, (_ :: _) as name) => Some (of_chars (rev name), of_chars (rev digits))
              | _ => None
              end
            else None
        | _ => None
        end
      else None
  | [] => None
  end.

(** [strconv.Atoi] of digits, its error ignored: a value that is too large is
    the largest one. *)
Definition Atoi_digits (s : string) : Z := match Atoi s with Some z => z | None => maxInt64 end.

Record stp_scan := MkStpScan {
  sc_Bridge : string;
  sc_Ports : list STPPort;
  sc_current : option STPPort;
  sc_lastLine : nat
}.

Definition flush_port (s : stp_scan) (lineNo : nat) : res error stp_scan :=
  match sc_current s with
  | None => Ok s
  | Some p =>
      if String.eqb (sp_State p) "" then Err (errf "line %d: STP port %q has no state" [VN lineNo; VS (sp_Name p)])
      else Ok (MkStpScan (sc_Bridge s) (sc_Ports s ++ [p])%list None (sc_lastLine s))
  end.

(** The state of the first field [state] of a line: [None] when the line has no
    such field. *)
Fixpoint state_field (fields : list string) : option (option string) :=
  match fields with
  | [] => None
  | f :: fields' => if String.eqb f "state" then Some (head fields') else state_field fields'
  end.

Definition parse_stp_line (s : stp_scan) (lineNo : nat) (line : string) : res error stp_scan :=
  let s := MkStpScan (sc_Bridge s) (sc_Ports s) (sc_current s) lineNo in
  let trimmed := TrimSpace line in
  if String.eqb trimmed "" then Ok s
  else if String.eqb (sc_Bridge s) "" then
    if validInterfaceName trimmed then Ok (MkStpScan trimmed (sc_Ports s) (sc_current s) lineNo)
    else Err (errf "line %d: invalid bridge name %q" [VN lineNo; VS trimmed])
  else
    match stp_header trimmed with
    | Some (raw, digits) =>
        let? s := flush_port s lineNo in
        let name := TrimSpace raw in
        let port := Atoi_digits digits in
        if negb (validInterfaceName name) || (port <? 0) then Err (errf "line %d: invalid STP port header" [VN lineNo])
        else Ok (MkStpScan (sc_Bridge s) (sc_Ports s) (Some (MkSTPPort name port "")) lineNo)
    | None =>
        match sc_current s with
        | None => Ok s
        | Some p =>
            match state_field (Fields trimmed) with
            | None => Ok s
            | Some found =>
                match found with
                | Some st =>
                    if negb (one_of stpStates st) || negb (String.eqb (sp_State p) "") then
                      Err (errf "line %d: invalid STP state" [VN lineNo])
                    else Ok (MkStpScan (sc_Bridge s) (sc_Ports s) (Some (MkSTPPort (sp_Name p) (sp_Port p) st)) lineNo)
                | None => Err (errf "line %d: invalid STP state" [VN lineNo])
                end
            end
        end
    end.

Definition port_le (a b : STPPort) : Prop :=
  if sp_Port a =? sp_Port b then str_le (sp_Name a) (sp_Name b) else sp_Port a < sp_Port b.
#[export] Instance port_le_dec a b : Decision (port_le a b).
Proof. unfold port_le. destruct (_ =? _); apply _. Defined.

Definition ParseShowSTP (out : string) : res error STPState :=
  let? s := scanLines out parse_stp_line (MkStpScan "" [] None 1) in
  if String.eqb (sc_Bridge s) "" then Err "topology: showstp bridge missing"
  else
    let? s := flush_port s (sc_lastLine s + 1)%nat in
    Ok (MkSTPState (sc_Bridge s) (merge_sort port_le (sc_Ports s))).

(** ** The default route *)

Definition routeType (raw : string) : bool :=
  one_of ["unicast"; "local"; "broadcast"; "multicast"; "throw"; "unreachable"; "prohibit"; "blackhole"; "nat"; "anycast"]
    (ToLowerRunes raw).

(** [net.ParseIP(s).To4() != nil]: an IPv4 address, or one mapped into IPv6. *)
Definition is_v4 (a : Addr) : bool :=
  match a with A4 _ => true | A6 v zone => String.eqb zone "" && (Z.shiftr v 32 =? 65535) end.
Definition ip_v4 (s : string) : bool := match ParseAddr s with Some a => is_v4 a | None => false end.

(** [net.ParseCIDR] with an IPv4 network. The mask of a mapped address keeps the
    mapping when it covers it. *)
Definition cidr_v4 (s : string) : bool :=
  match cut_chars "/" (chars s) with
  | None => false
  | Some (addr, mask) =>
      match ParseAddr (of_chars addr), mask, digits_value mask 0 with
      | Some a, _ :: _, Some n =>
          no_zone a && (n <=? BitLen a) && is_v4 a && match a with A4 _ => true | A6 _ _ => 96 <=? n end
      | _, _, _ => false
      end
  end.

Record route_scan := MkRoute {
  rt_device : string;
  rt_metric : Z;
  rt_eligible : bool;
  rt_seen : list string
}.

Definition value_keywords : list string :=
  ["proto"; "scope"; "src"; "pref"; "expires"; "mtu"; "advmss"; "hoplimit"; "realm"; "rtt"; "rttvar"; "rto_min";
   "ssthresh"; "cwnd"; "initcwnd"; "initrwnd"; "features"; "quickack"; "congctl"; "fastopen_no_cookie"; "uid"; "nhid"].
Definition plain_keywords : list string := ["onlink"; "pervasive"; "offload"; "trap"; "notify"; "cache"].

Definition take_value (keyword : string) (rest : list string) : res error (string * list string) :=
  match rest with
  | v :: rest => Ok (v, rest)
  | [] => Err (errf "%s has no value" [VS keyword])
  end.

(** One attribute of a default route. *)
Definition route_attribute (r : route_scan) (keyword : string) (rest : list string)
    : res error (route_scan * list string) :=
  let seen k := one_of (rt_seen r) k in
  let mark k r := MkRoute (rt_device r) (rt_metric r) (rt_eligible r) (k :: rt_seen r) in
  let eligible b r := MkRoute (rt_device r) (rt_metric r) (rt_eligible r && b) (rt_seen r) in
  if String.eqb keyword "via" then
    if seen "via" then Err "route has multiple gateways"
    else
      let? (gateway, rest) := take_value keyword rest in
      let? (gateway, rest) := if String.eqb gateway "inet" then take_value keyword rest else Ok (gateway, rest) in
      if ip_v4 gateway then Ok (mark "via" r, rest) else Err (errf "invalid IPv4 gateway %q" [VS gateway])
  else if String.eqb keyword "dev" then
    if negb (String.eqb (rt_device r) "") then Err "route has multiple interfaces"
    else
      let? (device, rest) := take_value keyword rest in
      if validInterfaceName device then Ok (MkRoute device (rt_metric r) (rt_eligible r) (rt_seen r), rest)
      else Err (errf "invalid interface %q" [VS device])
  else if String.eqb keyword "metric" then
    if seen "metric" then Err "route has multiple metrics"
    else
      let? (raw, rest) := take_value keyword rest in
      match Atoi raw with
      | None => Err (errf "invalid metric %q" [VS raw])
      | Some metric =>
          if metric <? 0 then Err (errf "invalid metric %q" [VS raw])
          else Ok (mark "metric" (MkRoute (rt_device r) metric (rt_eligible r) (rt_seen r)), rest)
      end
  else if String.eqb keyword "table" then
    if seen "table" then Err "route has multiple tables"
    else
      let? (table, rest) := take_value keyword rest in
      Ok (mark "table" (eligible (String.eqb table "main" || String.eqb table "254") r), rest)
  else if String.eqb keyword "from" then
    if seen "from" then Err "route has multiple sources"
    else
      let? (source, rest) := take_value keyword rest in
      let unconstrained := String.eqb source "all" || String.eqb source "0.0.0.0/0" in
      if negb unconstrained && negb (ip_v4 source) && negb (cidr_v4 source) then Err "invalid IPv4 source"
      else Ok (mark "from" (eligible unconstrained r), rest)
  else if one_of value_keywords keyword then
    let? (_, rest) := take_value keyword rest in Ok (r, rest)
  else if String.eqb keyword "linkdown" || String.eqb keyword "dead" then Ok (eligible false r, rest)
  else if one_of plain_keywords keyword then Ok (r, rest)
  else if String.eqb keyword "nexthop" then Err "multipath default route is not supported"
  else Err (errf "unsupported default-route attribute %q" [VS keyword]).

Fixpoint route_attributes (fuel : nat) (r : route_scan) (l : list string) : res error route_scan :=
  match fuel, l with
  | O, _ | _, [] => Ok r
  | S fuel', keyword :: rest =>
      let? (r, rest) := route_attribute r keyword rest in
      route_attributes fuel' r rest
  end.

(** [None] for a line that is no eligible default route; the device and the
    metric otherwise. *)
Definition parseIPv4DefaultRouteLine (fields : list string) : res error (option (string * Z)) :=
  match fields with
  | [] => Ok None
  | f :: rest =>
      let '(eligible, l) := if routeType f then (EqualFold f "unicast", rest) else (true, fields) in
      match l with
      | d :: attributes =>
          if String.eqb d "default" then
            let? r := route_attributes (length attributes) (MkRoute "" 0 eligible []) attributes in
            if negb (rt_eligible r) then Ok None
            else if String.eqb (rt_device r) "" then Err "default route has no interface"
            else Ok (Some (rt_device r, rt_metric r))
          else Ok None
      | [] => Ok None
      end
  end.

(** The best route so far. *)
Definition better_route (best : option (string * Z)) (il : nat * string) : res error (option (string * Z)) :=
  match Fields (snd il) with
  | [] => Ok best
  | fields =>
      match parseIPv4DefaultRouteLine fields with
      | Err e => Err (errf "line %d: %w" [VN (fst il + 1); VS e])
      | Ok None => Ok best
      | Ok (Some (device, metric)) =>
          match best with
          | None => Ok (Some (device, metric))
          | Some (bestDevice, bestMetric) =>
              if metric <? bestMetric then Ok (Some (device, metric))
              else if (metric =? bestMetric) && negb (String.eqb device bestDevice) then
                Err (errf "ambiguous equal-metric default routes on %q and %q" [VS bestDevice; VS device])
              else Ok best
          end
      end
  end.

Definition best_route (raw : string) : res error (option (string * Z)) :=
  try_fold better_route (imap pair (Split raw newline)) None.
Definition ParseIPv4MainDefaultRoute (raw : string) : res error (option string) :=
  let? best := best_route raw in Ok (option_map fst best).
