(* ===== verification/TopologyDecode.v ===== *)
(** * What devices answer

    internal/topology/parse.go, the decoders of JSON answers ([file.exec],
    [getNetworkDevices], [getWirelessDevices]), and internal/topology/lldp.go. A
    raw message is modelled with the document it spells: the decoders of lldp.go
    read tokens of one object or array at a time, which accepts the same texts.
    [json_error] is the message of encoding/json for
    a destination and a text it refuses. A Go map
    is walked in an order that is not specified; where the first error decides,
    the order is that of the model's map. *)

From Stdlib Require Import ZArith Lia Ascii String.
From stdpp Require Import base gmap list strings sorting.
From S2P Require Import Prelude GoStr GoFmt NetIP F64 Ubus GoJson Topology TopologyParse.

Local Open Scope string_scope.
Local Open Scope Z_scope.

(** ** Fields of pointer and custom types *)

(** A field of type [*T]. *)
Definition ptr_field {A} (dec : json -> option A) (k : string) (l : list (string * json)) : option (option A) :=
  fold_left (fun acc kv =>
    match acc with
    | None => None
    | Some a => if EqualFold k (fst kv) then
                  match snd kv with JNull => Some None | v => option_map Some (dec v) end
                else Some a
    end) l (Some None).

Definition dec_bool (j : json) : option bool := match j with JBool b => Some b | _ => None end.

(** A field of type [json.RawMessage]; nil when the key is absent. *)
Definition raw_field (k : string) (l : list (string * json)) : option json :=
  fold_left (fun acc kv => if EqualFold k (fst kv) then Some (snd kv) else acc) l None.

(** [stringList.UnmarshalJSON]: one string or several; an empty string leaves the
    list as it is. *)
Definition stringList_field (k : string) (l : list (string * json)) : option (list string) :=
  fold_left (fun acc kv =>
    match acc with
    | None => None
    | Some a => if EqualFold k (fst kv) then
                  match snd kv with
                  | JNull => Some a
                  | JStr s => Some (if String.eqb s "" then a else [s])
                  | JArr v => all_some (map dec_str v)
                  | _ => None
                  end
                else Some a
    end) l (Some []).

Section Decode.
Context (json_error : string -> string -> error).

(** [decodeJSONObject], up to the decoding into the destination. *)
Definition decodeJSONObject (raw : string) : res error (list (string * json)) :=
  let trimmed := TrimSpace raw in
  if negb (HasPrefix trimmed "{") then Err "expected JSON object"
  else match ParseJSON trimmed with
       | Some (JObj l) => Ok l
       | _ => Err (json_error "object" trimmed)
       end.

(** ** file.exec *)

Definition maxExecOutput : Z := 1048576.

Record ExecOutput := MkExecOutput { ex_Code : Z; ex_Stdout : string; ex_Stderr : string }.

Definition DecodeExecOutput (raw : string) : res error ExecOutput :=
  let failed e := Err (errf "topology: file.exec: %w" [VS e]) in
  match decodeJSONObject raw with
  | Err e => failed e
  | Ok l =>
      match ptr_field (fun j => dec_int (Some j)) "code" l, str_field "stdout" l, str_field "stderr" l with
      | Some code, Some out, Some err =>
          match code with
          | None => Err "topology: file.exec response has no exit code"
          | Some code =>
              if (maxExecOutput <? len out) || (maxExecOutput <? len err) ||
                 negb (ValidString out) || negb (ValidString err) then
                Err (errf "topology: file.exec output is invalid or exceeds %d bytes" [VD maxExecOutput])
              else if negb (code =? 0) then
                let reason := safeReason err in
                Err (errf "topology: command exited %d: %s" [VD code; VS (if String.eqb reason "" then "no diagnostic" else reason)])
              else Ok (MkExecOutput code out err)
          end
      | _, _, _ => failed (json_error "file.exec" raw)
      end
  end.

(** ** luci-rpc.getNetworkDevices *)

Record NetworkDevice := MkNetworkDevice {
  nd_Name : string;
  nd_DevType : string;
  nd_Wireless : bool;
  nd_Parent : string;
  nd_MAC : string;
  nd_Up : option bool;
  nd_BridgeOf : list string
}.

(** The struct a device is decoded into, before validation; the address is the
    first of two fields that is not empty. *)
Definition dec_network_device (j : json) : option NetworkDevice :=
  match struct_fields j with
  | None => None
  | Some l =>
      match str_field "devtype" l, bool_field "wireless" l, str_field "parent" l, str_field "macaddr" l,
            str_field "mac" l, ptr_field dec_bool "up" l, list_field dec_str "ports" l with
      | Some devtype, Some wireless, Some parent, Some macaddr, Some mac, Some up, Some ports =>
          Some (MkNetworkDevice "" devtype wireless parent (if String.eqb macaddr "" then mac else macaddr) up ports)
      | _, _, _, _, _, _, _ => None
      end
  end.

Definition optional_mac (raw : string) : res error string := if String.eqb raw "" then Ok "" else canonicalMAC raw.

Definition network_row (rows : list NetworkDevice) (kv : string * NetworkDevice) : res error (list NetworkDevice) :=
  let '(name, v) := kv in
  if negb (validInterfaceName name) then
    Err (errf "topology: getNetworkDevices: invalid device name %q" [VS name])
  else if negb (String.eqb (nd_Parent v) "") && negb (validInterfaceName (nd_Parent v)) then
    Err (errf "topology: getNetworkDevices: invalid parent %q" [VS (nd_Parent v)])
  else
    match optional_mac (nd_MAC v) with
    | Err e => Err (errf "topology: getNetworkDevices %q: %w" [VS name; VS e])
    | Ok mac =>
        match List.find (fun port => negb (validInterfaceName port)) (nd_BridgeOf v) with
        | Some port => Err (errf "topology: getNetworkDevices %q: invalid bridge port %q" [VS name; VS port])
        | None => Ok (rows ++ [MkNetworkDevice name (nd_DevType v) (nd_Wireless v) (nd_Parent v) mac (nd_Up v)
                                 (sort_strings (nd_BridgeOf v))])%list
        end
    end.

Definition network_le (a b : NetworkDevice) : Prop := str_le (nd_Name a) (nd_Name b).
#[export] Instance network_le_dec a b : Decision (network_le a b).
Proof. unfold network_le. apply _. Defined.

Definition DecodeNetworkDevices (raw : string) : res error (list NetworkDevice) :=
  match decodeJSONObject raw with
  | Err e => Err (errf "topology: getNetworkDevices: %w" [VS e])
  | Ok l =>
      match dec_map dec_network_device (JObj l) with
      | None => Err (errf "topology: getNetworkDevices: %w" [VS (json_error "getNetworkDevices" raw)])
      | Some payload =>
          let? rows := try_fold network_row (map_to_list payload) [] in
          Ok (merge_sort network_le rows)
      end
  end.

(** ** luci-rpc.getWirelessDevices *)

Record WirelessInterface := MkWirelessInterface {
  wi_IfName : string;
  wi_Section : string;
  wi_Mode : string;
  wi_BSSID : string;
  wi_Networks : list string
}.
Record WirelessRadio := MkWirelessRadio {
  wr_Key : string;
  wr_Up : option bool;
  wr_Band : string;
  wr_Channel : string;
  wr_Interfaces : list WirelessInterface
}.

(** [decodeChannel]; the argument is nil when there is no such member. *)
Definition decodeChannel (raw : option json) : res error string :=
  match raw with
  | None | Some JNull => Ok ""
  | Some (JStr text) => Ok text
  | Some (JInt n) =>
      if (0 <=? n) && (n <? 2 ^ 31) then Ok (Itoa n) else Err "channel must be a string or integer"
  | Some _ => Err "channel must be a string or integer"
  end.

Definition dec_wireless_interface (j : json) : option WirelessInterface :=
  match struct_fields j with
  | None => None
  | Some l =>
      let bssid j := match struct_fields j with Some l => str_field "bssid" l | None => None end in
      let config j := match struct_fields j with
                      | Some l => match str_field "mode" l, stringList_field "network" l with
                                  | Some mode, Some nets => Some (mode, nets)
                                  | _, _ => None
                                  end
                      | None => None
                      end in
      match str_field "ifname" l, str_field "section" l, struct_field bssid "" "iwinfo" l,
            struct_field config ("", []) "config" l with
      | Some ifname, Some section, Some bssid, Some (mode, nets) => Some (MkWirelessInterface ifname section mode bssid nets)
      | _, _, _, _ => None
      end
  end.

(** A radio with the raw channel. *)
Definition dec_radio (j : json) : option (WirelessRadio * option json) :=
  match struct_fields j with
  | None => None
  | Some l =>
      let config j := match struct_fields j with
                      | Some l => match str_field "band" l with Some band => Some (band, raw_field "channel" l) | None => None end
                      | None => None
                      end in
      match ptr_field dec_bool "up" l, struct_field config ("", None) "config" l,
            list_field dec_wireless_interface "interfaces" l with
      | Some up, Some (band, channel), Some ifaces => Some (MkWirelessRadio "" up band "" ifaces, channel)
      | _, _, _ => None
      end
  end.

Definition wireless_row (key : string) (rows : list WirelessInterface) (i : WirelessInterface)
    : res error (list WirelessInterface) :=
  if negb (String.eqb (wi_IfName i) "") && negb (validInterfaceName (wi_IfName i)) then
    Err (errf "topology: getWirelessDevices %q: invalid interface %q" [VS key; VS (wi_IfName i)])
  else
    match optional_mac (wi_BSSID i) with
    | Err e => Err (errf "topology: getWirelessDevices %q: %w" [VS key; VS e])
    | Ok bssid => Ok (rows ++ [MkWirelessInterface (wi_IfName i) (wi_Section i) (wi_Mode i) bssid
                                 (sort_strings (wi_Networks i))])%list
    end.

Definition iface_le (a b : WirelessInterface) : Prop :=
  if String.eqb (wi_IfName a) (wi_IfName b) then str_le (wi_Section a) (wi_Section b)
  else str_le (wi_IfName a) (wi_IfName b).
#[export] Instance iface_le_dec a b : Decision (iface_le a b).
Proof. unfold iface_le. destruct (String.eqb _ _); apply _. Defined.

Definition radio_row (rows : list WirelessRadio) (kv : string * (WirelessRadio * option json))
    : res error (list WirelessRadio) :=
  let '(key, (v, raw)) := kv in
  if negb (validIdentifier key) then
    Err (errf "topology: getWirelessDevices: invalid radio key %q" [VS key])
  else
    match decodeChannel raw with
    | Err e => Err (errf "topology: getWirelessDevices %q: %w" [VS key; VS e])
    | Ok channel =>
        let? ifaces := try_fold (wireless_row key) (wr_Interfaces v) [] in
        Ok (rows ++ [MkWirelessRadio key (wr_Up v) (wr_Band v) channel (merge_sort iface_le ifaces)])%list
    end.

Definition radio_le (a b : WirelessRadio) : Prop := str_le (wr_Key a) (wr_Key b).
#[export] Instance radio_le_dec a b : Decision (radio_le a b).
Proof. unfold radio_le. apply _. Defined.

Definition DecodeWirelessDevices (raw : string) : res error (list WirelessRadio) :=
  match decodeJSONObject raw with
  | Err e => Err (errf "topology: getWirelessDevices: %w" [VS e])
  | Ok l =>
      match dec_map dec_radio (JObj l) with
      | None => Err (errf "topology: getWirelessDevices: %w" [VS (json_error "getWirelessDevices" raw)])
      | Some payload =>
          let? rows := try_fold radio_row (map_to_list payload) [] in
          Ok (merge_sort radio_le rows)
      end
  end.

(** ** LLDP *)

Definition maxLLDPLinks : nat := 4096.

(** [decodeLLDPObject]: an object that repeats no key. *)
Definition unique_member (label : string) (m : gmap string json) (kv : string * json) : res error (gmap string json) :=
  match m !! fst kv with
  | Some _ => Err (errf "topology: LLDP %s repeats a key" [VS label])
  | None => Ok (<[fst kv := snd kv]> m)
  end.
Definition decodeLLDPObject (j : json) (label : string) : res error (gmap string json) :=
  match j with
  | JObj l =>
      let? m := try_fold (unique_member label) l ∅ in
      if Nat.ltb maxLLDPLinks (size m) then
        Err (errf "topology: LLDP %s exceeds %d entries" [VS label; VN maxLLDPLinks])
      else Ok m
  | _ => Err (errf "topology: LLDP %s must be an object" [VS label])
  end.

Definition decodeLLDPArray (j : json) (label : string) : res error (list json) :=
  match j with
  | JArr l => if Nat.ltb maxLLDPLinks (length l) then
                Err (errf "topology: LLDP %s exceeds %d entries" [VS label; VN maxLLDPLinks])
              else Ok l
  | _ => Err (errf "topology: LLDP %s must be an array" [VS label])
  end.

(** [null] leaves the string empty. *)
Definition decodeLLDPString (j : json) (label : string) : res error string :=
  match j with
  | JStr s => if String.eqb (TrimSpace s) s && negb (String.eqb s "") then Ok s
              else Err (errf "topology: LLDP %s must be a non-empty string" [VS label])
  | _ => Err (errf "topology: LLDP %s must be a non-empty string" [VS label])
  end.

Definition lldp_member (m : gmap string json) (key : string) (e : error) : res error json :=
  match m !! key with Some v => Ok v | None => Err e end.

(** The members of an object in the order of their keys. *)
Definition kv_le {A} (a b : string * A) : Prop := str_le (fst a) (fst b).
#[local] Instance kv_le_dec {A} (a b : string * A) : Decision (kv_le a b).
Proof. unfold kv_le. apply _. Defined.
Definition named_values (m : gmap string json) : list (string * json) := merge_sort kv_le (map_to_list m).

Definition flex_entry (label : string) (done : list (string * json)) (ie : nat * json)
    : res error (list (string * json)) :=
  let '(i, element) := ie in
  let? object := decodeLLDPObject element (msg "%s entry %d" [VS label; VN (i + 1)]) in
  match map_to_list object with
  | [entry] => Ok (done ++ [entry])%list
  | _ => Err (errf "topology: LLDP %s array entry %d must contain one named object" [VS label; VN (i + 1)])
  end.

(** [decodeLLDPFlex]: an object for one, an array for many. *)
Definition decodeLLDPFlex (j : json) (label : string) : res error (list (string * json)) :=
  match j with
  | JObj _ => let? object := decodeLLDPObject j label in Ok (named_values object)
  | JArr _ =>
      let? elements := decodeLLDPArray j label in
      try_fold (flex_entry label) (imap pair elements) []
  | _ => Err (errf "topology: LLDP %s must be an object or array" [VS label])
  end.

Record lldpInterfaceValue := MkLldpInterface { lv_port : string; lv_raw : json; lv_regular : bool }.

Definition regular_interface (done : list lldpInterfaceValue) (ie : nat * json) : res error (list lldpInterfaceValue) :=
  let '(i, element) := ie in
  let? iface := decodeLLDPObject element (msg "interface entry %d" [VN (i + 1)]) in
  let? nameRaw := lldp_member iface "name" (errf "topology: LLDP interface entry %d has no name" [VN (i + 1)]) in
  let? name := decodeLLDPString nameRaw "interface name" in
  Ok (done ++ [MkLldpInterface name element true])%list.

Definition decodeLLDPInterfaces (j : json) : res error (list lldpInterfaceValue) :=
  match j with
  | JObj _ =>
      let? lldp := decodeLLDPObject j "lldp" in
      match lldp !! "interface" with
      | None => Ok []
      | Some raw =>
          let? entries := decodeLLDPFlex raw "interface" in
          Ok (map (fun kv => MkLldpInterface (fst kv) (snd kv) false) entries)
      end
  | JArr _ =>
      let? containers := decodeLLDPArray j "lldp" in
      match containers with
      | [container] =>
          let? lldp := decodeLLDPObject container "lldp container" in
          match lldp !! "interface" with
          | None => Ok []
          | Some raw =>
              let? elements := decodeLLDPArray raw "interface" in
              try_fold regular_interface (imap pair elements) []
          end
      | _ => Err "topology: LLDP regular format requires one lldp container"
      end
  | _ => Err "topology: LLDP lldp value must be an object or array"
  end.

Definition regular_id (done : list json) (ie : nat * json) : res error (list json) :=
  let '(i, element) := ie in
  let? member := decodeLLDPObject element (msg "chassis entry %d" [VN (i + 1)]) in
  let? idRaw := lldp_member member "id" (errf "topology: LLDP chassis entry %d has no id" [VN (i + 1)]) in
  let? values := decodeLLDPArray idRaw "chassis id" in
  match values with
  | [v] => Ok (done ++ [v])%list
  | _ => Err (errf "topology: LLDP chassis entry %d requires one id" [VN (i + 1)])
  end.

Definition named_id (done : list json) (remote : string * json) : res error (list json) :=
  let? member := decodeLLDPObject (snd remote) "chassis" in
  let? id := lldp_member member "id" "topology: LLDP chassis has no id" in
  Ok (done ++ [id])%list.

Definition decodeLLDPChassisIDs (j : json) (regular : bool) : res error (list json) :=
  if regular then
    let? chassis := decodeLLDPArray j "chassis" in
    try_fold regular_id (imap pair chassis) []
  else
    let? direct := match j with
                   | JObj _ => let? object := decodeLLDPObject j "chassis" in Ok (object !! "id")
                   | _ => Ok None
                   end in
    match direct with
    | Some id => Ok [id]
    | None =>
        let? chassis := decodeLLDPFlex j "chassis" in
        try_fold named_id chassis []
    end.

(** A station address that is not all zeros. *)
Definition validRemoteChassisMAC (raw : string) : bool :=
  match ParseMAC6 raw with
  | Some (first :: rest) => Z.even first && existsb (fun octet => negb (octet =? 0)) (first :: rest)
  | _ => false
  end.

Record lldp_scan := MkLldpScan { ls_seen : gset (string * string); ls_observations : nat; ls_links : list LLDPLink }.

(** One chassis id of an interface. *)
Definition lldp_chassis (deviceID : Z) (port : string) (s : lldp_scan) (idRaw : json) : res error lldp_scan :=
  let observations := S (ls_observations s) in
  if Nat.ltb maxLLDPLinks observations then Err (errf "topology: LLDP JSON exceeds %d links" [VN maxLLDPLinks])
  else
    let? id := decodeLLDPObject idRaw "chassis id" in
    match id !! "type", id !! "value" with
    | Some typeRaw, Some valueRaw =>
        let? idType := decodeLLDPString typeRaw "chassis id type" in
        if negb (String.eqb idType "mac") then
          Err (errf "topology: LLDP interface %q chassis id is not a MAC" [VS port])
        else
          let? value := decodeLLDPString valueRaw "chassis id value" in
          match canonicalMAC value with
          | Ok mac =>
              if negb (validRemoteChassisMAC mac) then
                Err (errf "topology: LLDP interface %q has invalid chassis MAC" [VS port])
              else if bool_decide ((port, mac) ∈ ls_seen s) then Ok (MkLldpScan (ls_seen s) observations (ls_links s))
              else Ok (MkLldpScan ({[(port, mac)]} ∪ ls_seen s) observations
                                  (ls_links s ++ [MkLLDPLink deviceID port mac])%list)
          | Err _ => Err (errf "topology: LLDP interface %q has invalid chassis MAC" [VS port])
          end
    | _, _ => Err (errf "topology: LLDP interface %q chassis id requires type and value" [VS port])
    end.

Definition lldp_interface (deviceID : Z) (s : lldp_scan) (iface : lldpInterfaceValue) : res error lldp_scan :=
  let port := lv_port iface in
  if negb (validInterfaceName port) then Err "topology: LLDP has an invalid local interface"
  else
    let? neighbor := decodeLLDPObject (lv_raw iface) ("interface " ++ port) in
    let? viaRaw := lldp_member neighbor "via" (errf "topology: LLDP interface %q has no protocol" [VS port]) in
    let? via := decodeLLDPString viaRaw ("interface " ++ port ++ " protocol") in
    if negb (String.eqb via "LLDP") then
      Err (errf "topology: interface %q was observed via an unsupported protocol" [VS port])
    else
      let? chassisRaw := lldp_member neighbor "chassis" (errf "topology: LLDP interface %q has no chassis" [VS port]) in
      let? chassis := decodeLLDPChassisIDs chassisRaw (lv_regular iface) in
      if Nat.eqb (length chassis) 0 then Err (errf "topology: LLDP interface %q has an empty chassis" [VS port])
      else try_fold (lldp_chassis deviceID port) chassis s.

Definition link_le (a b : LLDPLink) : Prop :=
  if String.eqb (ll_Port a) (ll_Port b) then str_le (ll_RemoteMAC a) (ll_RemoteMAC b) else str_le (ll_Port a) (ll_Port b).
#[export] Instance link_le_dec a b : Decision (link_le a b).
Proof. unfold link_le. destruct (String.eqb _ _); apply _. Defined.

Definition DecodeLLDPJSON (deviceID : Z) (raw : string) : res error (list LLDPLink) :=
  if deviceID <=? 0 then Err "topology: LLDP device id must be positive"
  else if (len raw =? 0) || (maxExecOutput <? len raw) || negb (ValidString raw) then
    Err (errf "topology: LLDP JSON is empty, invalid, or exceeds %d bytes" [VD maxExecOutput])
  else
    match ParseJSON raw with
    | None => Err (json_error "LLDP" raw)
    | Some doc =>
        let? root := decodeLLDPObject doc "root" in
        let? lldpRaw := lldp_member root "lldp" "topology: LLDP JSON has no lldp object" in
        let? interfaces := decodeLLDPInterfaces lldpRaw in
        let? s := try_fold (lldp_interface deviceID) interfaces (MkLldpScan ∅ 0 []) in
        Ok (merge_sort link_le (ls_links s))
    end.
End Decode.
