(* ===== verification/TopologyCollect.v ===== *)
(** * One poll's topology

    internal/collector/topology_collect.go and what internal/collector/poll.go
    does with the calls that carry a topology source: counting the answers per
    source, decoding them into the snapshot, the main route against netifd's
    interfaces, the media of ports, and the state every source ends in. A batch
    is the list of its topology calls, each with its answer, in the order of the
    batch. *)

From Stdlib Require Import ZArith Lia Ascii String.
From stdpp Require Import base gmap list strings sorting.
From S2P Require Import Prelude GoStr GoFmt NetIP F64 Ubus GoJson Topology TopologyParse TopologyDecode.

Local Open Scope string_scope.
Local Open Scope Z_scope.

Definition TopologySourceNetworkDevices : string := "luci-rpc.getNetworkDevices".
Definition TopologySourceWirelessDevices : string := "luci-rpc.getWirelessDevices".
Definition TopologySourceBridgeSTP : string := "brctl.showstp".

(** ** The snapshot *)

Record AP := MkAP { ap_Iface : string; ap_Stations : option (gmap string string) }.

Record counts := MkCounts {
  ct_expected : gmap string Z;
  ct_answered : gmap string Z;
  ct_evidence : gmap string Z;
  ct_failures : gmap string Z;
  ct_causes : gmap string (gset string)
}.

Record TopologySnapshot := MkTopologySnapshot {
  tp_Cycle : bool;
  tp_NetworkDevices : list NetworkDevice;
  tp_Wireless : list WirelessRadio;
  tp_Neighbors : gmap Z (list Neighbor);
  tp_Bridges : list BridgeObservation;
  tp_LLDP : list LLDPLink;
  tp_Uplinks : list Uplink;
  tp_Sources : list TopologySourceObservation
}.

Record networkCandidate := MkNetworkCandidate {
  nc_name : string;
  nc_device : string;
  nc_l3Device : string;
  nc_up : bool;
  nc_defaultIPv4 : bool;
  nc_addresses : list (string * Z)
}.
Record Network := MkNetwork { nw_Name : string; nw_CIDR : string; nw_Upstream : bool }.

(** [main_route] is nil until the route was read; then the device, which is
    empty when there is no default route. [candidates] is nil until the dump was
    read. *)
Record Snapshot := MkSnapshot {
  sn_DeviceID : Z;
  sn_At : Z;
  sn_IfacesFresh : bool;
  sn_Ifaces : list string;
  sn_APsFresh : bool;
  sn_APs : list AP;
  sn_Topology : TopologySnapshot;
  sn_counts : counts;
  sn_candidates : option (list networkCandidate);
  sn_main_route : option string;
  sn_Networks : list Network
}.

Definition with_topology (s : Snapshot) (t : TopologySnapshot) : Snapshot :=
  MkSnapshot (sn_DeviceID s) (sn_At s) (sn_IfacesFresh s) (sn_Ifaces s) (sn_APsFresh s) (sn_APs s) t (sn_counts s)
    (sn_candidates s) (sn_main_route s) (sn_Networks s).
Definition with_counts (s : Snapshot) (c : counts) : Snapshot :=
  MkSnapshot (sn_DeviceID s) (sn_At s) (sn_IfacesFresh s) (sn_Ifaces s) (sn_APsFresh s) (sn_APs s) (sn_Topology s) c
    (sn_candidates s) (sn_main_route s) (sn_Networks s).
Definition with_networks (s : Snapshot) (c : option (list networkCandidate)) (r : option string) (n : list Network) : Snapshot :=
  MkSnapshot (sn_DeviceID s) (sn_At s) (sn_IfacesFresh s) (sn_Ifaces s) (sn_APsFresh s) (sn_APs s) (sn_Topology s)
    (sn_counts s) c r n.

Definition with_devices (t : TopologySnapshot) (l : list NetworkDevice) : TopologySnapshot :=
  MkTopologySnapshot (tp_Cycle t) l (tp_Wireless t) (tp_Neighbors t) (tp_Bridges t) (tp_LLDP t) (tp_Uplinks t) (tp_Sources t).
Definition with_wireless (t : TopologySnapshot) (l : list WirelessRadio) : TopologySnapshot :=
  MkTopologySnapshot (tp_Cycle t) (tp_NetworkDevices t) l (tp_Neighbors t) (tp_Bridges t) (tp_LLDP t) (tp_Uplinks t) (tp_Sources t).
Definition with_neighbors (t : TopologySnapshot) (m : gmap Z (list Neighbor)) : TopologySnapshot :=
  MkTopologySnapshot (tp_Cycle t) (tp_NetworkDevices t) (tp_Wireless t) m (tp_Bridges t) (tp_LLDP t) (tp_Uplinks t) (tp_Sources t).
Definition with_bridges (t : TopologySnapshot) (l : list BridgeObservation) : TopologySnapshot :=
  MkTopologySnapshot (tp_Cycle t) (tp_NetworkDevices t) (tp_Wireless t) (tp_Neighbors t) l (tp_LLDP t) (tp_Uplinks t) (tp_Sources t).
Definition with_lldp (t : TopologySnapshot) (l : list LLDPLink) : TopologySnapshot :=
  MkTopologySnapshot (tp_Cycle t) (tp_NetworkDevices t) (tp_Wireless t) (tp_Neighbors t) (tp_Bridges t) l (tp_Uplinks t) (tp_Sources t).
Definition with_uplinks (t : TopologySnapshot) (l : list Uplink) : TopologySnapshot :=
  MkTopologySnapshot (tp_Cycle t) (tp_NetworkDevices t) (tp_Wireless t) (tp_Neighbors t) (tp_Bridges t) (tp_LLDP t) l (tp_Sources t).
Definition with_sources (t : TopologySnapshot) (l : list TopologySourceObservation) : TopologySnapshot :=
  MkTopologySnapshot (tp_Cycle t) (tp_NetworkDevices t) (tp_Wireless t) (tp_Neighbors t) (tp_Bridges t) (tp_LLDP t) (tp_Uplinks t) l.

(** ** Counting *)

Definition count (m : gmap string Z) (source : string) : Z := default 0 (m !! source).
Definition bump (source : string) (n : Z) (m : gmap string Z) : gmap string Z := <[source := count m source + n]> m.

(** [prepareTopology]: one expected answer per call that names a source; the
    first such call makes the poll a cycle. *)
Definition expect_source (s : Snapshot) (source : string) : Snapshot :=
  if String.eqb source "" then s
  else
    let c := sn_counts s in
    let t := sn_Topology s in
    with_topology
      (with_counts s (MkCounts (bump source 1 (ct_expected c)) (ct_answered c) (ct_evidence c) (ct_failures c) (ct_causes c)))
      (MkTopologySnapshot true (tp_NetworkDevices t) (tp_Wireless t) (tp_Neighbors t) (tp_Bridges t) (tp_LLDP t)
        (tp_Uplinks t) (tp_Sources t)).
Definition prepareTopology (s : Snapshot) (sources : list string) : Snapshot := fold_left expect_source sources s.

Definition topologyAnswered (source : string) (s : Snapshot) : Snapshot :=
  if String.eqb source "" then s
  else let c := sn_counts s in
       with_counts s (MkCounts (ct_expected c) (bump source 1 (ct_answered c)) (ct_evidence c) (ct_failures c) (ct_causes c)).

Definition topologyFailed (source cause : string) (s : Snapshot) : Snapshot :=
  if String.eqb source "" then s
  else let c := sn_counts s in
       with_counts s (MkCounts (ct_expected c) (ct_answered c) (ct_evidence c) (bump source 1 (ct_failures c))
                        (<[source := {[cause]} ∪ default ∅ (ct_causes c !! source)]> (ct_causes c))).

Definition topologyEvidence (source : string) (n : Z) (s : Snapshot) : Snapshot :=
  let c := sn_counts s in
  if negb (String.eqb source "") && (0 <? n) && (0 <? count (ct_expected c) source) then
    with_counts s (MkCounts (ct_expected c) (ct_answered c) (bump source n (ct_evidence c)) (ct_failures c) (ct_causes c))
  else s.

Definition topologyBridgeNames (devices : list NetworkDevice) : list string :=
  sort_strings (map nd_Name (List.filter (fun d => negb (Nat.eqb (length (nd_BridgeOf d)) 0)) devices)).

Definition topologySourceSuccessful (sources : list TopologySourceObservation) (source : string) : bool :=
  match List.find (fun o => String.eqb (so_Source o) source) sources with
  | Some o => answered_state (so_State o)
  | None => false
  end.

(** ** The calls *)

Inductive topology_call :=
| CallWireless
| CallNetworkDevices
| CallNeighbors (family : Z)
| CallLLDP
| CallShowMACs (bridge : string)
| CallShowSTP (bridge : string)
| CallRoute
| CallDump.

Definition call_source (c : topology_call) : string :=
  match c with
  | CallWireless => TopologySourceWirelessDevices
  | CallNetworkDevices => TopologySourceNetworkDevices
  | CallNeighbors family => SourceNeighbors family
  | CallLLDP => SourceLLDP
  | CallShowMACs _ => SourceBridgeFDB
  | CallShowSTP _ => TopologySourceBridgeSTP
  | CallRoute | CallDump => SourceDefaultRoute
  end.

Section Collect.
Context (json_error : string -> string -> error).

(** The observation of a bridge, appended when it is the first of its name. *)
Definition new_bridge (s : Snapshot) (name : string) : BridgeObservation :=
  MkBridge (sn_DeviceID s) name [] None ∅ ∅.
Fixpoint update_bridge (name : string) (f : BridgeObservation -> BridgeObservation) (fresh : BridgeObservation)
    (l : list BridgeObservation) : list BridgeObservation :=
  match l with
  | [] => [f fresh]
  | b :: l' => if String.eqb (br_Bridge b) name then f b :: l' else b :: update_bridge name f fresh l'
  end.
Definition topologyBridge (name : string) (f : BridgeObservation -> BridgeObservation) (s : Snapshot) : Snapshot :=
  with_topology s (with_bridges (sn_Topology s) (update_bridge name f (new_bridge s name) (tp_Bridges (sn_Topology s)))).

Definition decodeTopologyNetworkDevices (raw : string) (s : Snapshot) : res error Snapshot :=
  let? rows := DecodeNetworkDevices json_error raw in
  Ok (topologyEvidence TopologySourceNetworkDevices (Z.of_nat (length rows))
        (with_topology s (with_devices (sn_Topology s) rows))).

Definition decodeTopologyNeighbors (family : Z) (raw : string) (s : Snapshot) : res error Snapshot :=
  let? exec := DecodeExecOutput json_error raw in
  let? rows := ParseNeighbors family (ex_Stdout exec) in
  Ok (topologyEvidence (SourceNeighbors family) (Z.of_nat (length rows))
        (with_topology s (with_neighbors (sn_Topology s) (<[family := rows]> (tp_Neighbors (sn_Topology s)))))).

Definition decodeTopologyFDB (bridge raw : string) (s : Snapshot) : res error Snapshot :=
  let? exec := DecodeExecOutput json_error raw in
  let? rows := ParseShowMACs (ex_Stdout exec) in
  Ok (topologyEvidence SourceBridgeFDB (Z.of_nat (length rows))
        (topologyBridge bridge (fun b => MkBridge (br_DeviceID b) (br_Bridge b) rows (br_STP b) (br_PortMedia b)
                                           (br_PortAttachment b)) s)).

Definition decodeTopologySTP (bridge raw : string) (s : Snapshot) : res error Snapshot :=
  let? exec := DecodeExecOutput json_error raw in
  let? state := ParseShowSTP (ex_Stdout exec) in
  if negb (String.eqb (st_Bridge state) bridge) then
    Err ("topology: showstp bridge mismatch: wanted " ++ bridge ++ ", got " ++ st_Bridge state)
  else
    Ok (topologyEvidence TopologySourceBridgeSTP (Z.of_nat (length (st_Ports state)))
          (topologyBridge bridge (fun b => MkBridge (br_DeviceID b) (br_Bridge b) (br_Entries b) (Some state)
                                             (br_PortMedia b) (br_PortAttachment b)) s)).

Definition decodeTopologyLLDP (raw : string) (s : Snapshot) : res error Snapshot :=
  let? exec := DecodeExecOutput json_error raw in
  let? links := DecodeLLDPJSON json_error (sn_DeviceID s) (ex_Stdout exec) in
  Ok (topologyEvidence SourceLLDP (Z.of_nat (length links)) (with_topology s (with_lldp (sn_Topology s) links))).

(** The topology half of [decodeIfaceModes]. *)
Definition decodeTopologyWireless (raw : string) (s : Snapshot) : res error Snapshot :=
  if 0 <? count (ct_expected (sn_counts s)) TopologySourceWirelessDevices then
    let? wireless := DecodeWirelessDevices json_error raw in
    Ok (topologyEvidence TopologySourceWirelessDevices (Z.of_nat (length wireless))
          (with_topology s (with_wireless (sn_Topology s) wireless)))
  else Ok s.

Definition decodeMainIPv4Route (raw : string) (s : Snapshot) : res error Snapshot :=
  let? exec := DecodeExecOutput json_error raw in
  let? device := ParseIPv4MainDefaultRoute (ex_Stdout exec) in
  Ok (with_networks s (sn_candidates s) (Some (default "" device)) (sn_Networks s)).

(** An address of netifd's dump that is kept: not loopback, with a mask of an
    IPv4 address. *)
Definition loopback (a : Addr) : bool :=
  match a with
  | A4 v => Z.shiftr v 24 =? 127
  | A6 v _ => (v =? 1) || (is_v4 a && (Z.land (Z.shiftr v 24) 255 =? 127))
  end.
Definition kept_address (am : string * Z) : bool :=
  match ParseAddr (fst am) with
  | Some a => no_zone a && negb (loopback a) && (0 <=? snd am) && (snd am <=? 32)
  | None => false
  end.

Definition dec_pair (k1 k2 : string) (j : json) : option (string * Z) :=
  match struct_fields j with
  | Some l => match str_field k1 l, int_field k2 l with Some a, Some b => Some (a, b) | _, _ => None end
  | None => None
  end.

Definition dec_candidate (j : json) : option networkCandidate :=
  match struct_fields j with
  | None => None
  | Some l =>
      match str_field "interface" l, bool_field "up" l, str_field "device" l, str_field "l3_device" l,
            list_field (dec_pair "address" "mask") "ipv4-address" l, list_field (dec_pair "target" "mask") "route" l with
      | Some name, Some up, Some device, Some l3, Some addresses, Some routes =>
          Some (MkNetworkCandidate name device l3 up
                  (existsb (fun r => String.eqb (fst r) "0.0.0.0" && (snd r =? 0)) routes)
                  (List.filter kept_address addresses))
      | _, _, _, _, _, _ => None
      end
  end.

Definition decodeNetworks (raw : string) (s : Snapshot) : res error Snapshot :=
  match option_map (fun j => (struct_fields j, j)) (ParseJSON raw) with
  | Some (Some l, _) =>
      match list_field dec_candidate "interface" l with
      | Some candidates => Ok (with_networks s (Some candidates) (sn_main_route s) (sn_Networks s))
      | None => Err (json_error "network.interface" raw)
      end
  | _ => Err (json_error "network.interface" raw)
  end.

Definition decode_call (c : topology_call) : string -> Snapshot -> res error Snapshot :=
  match c with
  | CallWireless => decodeTopologyWireless
  | CallNetworkDevices => decodeTopologyNetworkDevices
  | CallNeighbors family => decodeTopologyNeighbors family
  | CallLLDP => decodeTopologyLLDP
  | CallShowMACs bridge => decodeTopologyFDB bridge
  | CallShowSTP bridge => decodeTopologySTP bridge
  | CallRoute => decodeMainIPv4Route
  | CallDump => decodeNetworks
  end.

(** What a call came back with: an error of a cause, a reply that the rest of
    its decoder refuses (for [CallWireless], the radio half of
    [decodeIfaceModes]), or a reply. *)
Inductive answer :=
| Failed (cause : string)
| Refused
| Replied (raw : string).

Definition CauseDecode : string := "decode".

(** One turn of the loop over the results. Outside a cycle, the calls for routes
    and radios name no source. *)
Definition handle_answer (s : Snapshot) (ca : topology_call * answer) : Snapshot :=
  let '(c, a) := ca in
  let source := if tp_Cycle (sn_Topology s) then call_source c else "" in
  match a with
  | Failed cause => topologyFailed source cause s
  | Refused => topologyFailed source CauseDecode s
  | Replied raw =>
      match decode_call c raw s with
      | Err _ => topologyFailed source CauseDecode s
      | Ok s' => topologyAnswered source s'
      end
  end.

(** ** The default route's interface *)

Definition route_matches (device : string) : list (networkCandidate -> bool) :=
  [fun c => String.eqb (nc_l3Device c) device;
   fun c => String.eqb (nc_l3Device c) "" && String.eqb (nc_device c) device;
   fun c => String.eqb (nc_l3Device c) "" && String.eqb (nc_device c) "" && String.eqb (nc_name c) device].

(** The first rule with a match; several matches are an error. *)
Fixpoint logical_interface (device : string) (candidates : list networkCandidate)
    (rules : list (networkCandidate -> bool)) : res error string :=
  match rules with
  | [] => Ok ""
  | rule :: rules =>
      match map nc_name (List.filter (fun c => nc_up c && nc_defaultIPv4 c && rule c) candidates) with
      | [] => logical_interface device candidates rules
      | [name] => Ok name
      | names => Err (errf "kernel route device %q maps to several logical interfaces: %s" [VS device; VS (Join names ", ")])
      end
  end.

Definition finalizeNetworks (s : Snapshot) : res error Snapshot :=
  match sn_candidates s, sn_main_route s with
  | Some candidates, Some device =>
      let? logical :=
        if String.eqb device "" then Ok ""
        else
          let? logical := logical_interface device candidates (route_matches device) in
          if String.eqb logical "" then Err (errf "kernel route device %q has no active logical interface" [VS device])
          else Ok logical in
      let networks := flat_map (fun c => map (fun a =>
        MkNetwork (nc_name c) (fst a ++ "/" ++ Itoa (snd a))
          (String.eqb (nc_name c) logical && negb (String.eqb logical ""))) (nc_addresses c)) candidates in
      let uplinks := if String.eqb device "" then [] else [MkUplink (sn_DeviceID s) device logical true] in
      Ok (topologyEvidence SourceDefaultRoute (Z.of_nat (length uplinks))
            (with_topology (with_networks s (sn_candidates s) (sn_main_route s) networks)
                           (with_uplinks (sn_Topology s) uplinks)))
  | _, _ => Ok s
  end.

(** ** Stations *)

(** [LiveStations]: nil when a station list is not known; the interfaces a
    station was seen on, in order, by its address in lower case. *)
Definition add_station (iface_of : string * string) (m : gmap string (list string)) : gmap string (list string) :=
  let mac := ToLower (fst iface_of) in <[mac := (default [] (m !! mac) ++ [snd iface_of])%list]> m.
Fixpoint live_stations (aps : list AP) (m : gmap string (list string)) : option (gmap string (list string)) :=
  match aps with
  | [] => Some m
  | ap :: aps =>
      match ap_Stations ap with
      | None => None
      | Some stations => live_stations aps (fold_left (fun m x => add_station x m) (map_to_list stations) m)
      end
  end.
Definition LiveStations (s : Snapshot) : option (gmap string (list string)) :=
  if sn_APsFresh s then option_map (fmap sort_strings) (live_stations (sn_APs s) ∅) else None.

Definition topologyAssociationSource (s : Snapshot) : TopologySourceObservation :=
  let state st reason := MkSource (sn_DeviceID s) SourceAssociations st reason (sn_At s) in
  match LiveStations s with
  | None => state TopologySourceUnknown "association coverage is unavailable"
  | Some m => if Nat.eqb (size m) 0 then state TopologySourceEmpty "" else state TopologySourceObserved ""
  end.

(** ** The media of ports *)

Definition classify_iface (s : gmap string string * gmap string string) (i : WirelessInterface)
    : gmap string string * gmap string string :=
  let '(media, attachment) := s in
  if String.eqb (wi_IfName i) "" then s
  else if String.eqb (wi_Mode i) "mesh" then
    (<[wi_IfName i := "mesh"]> media, <[wi_IfName i := PortAttachmentPhysical]> attachment)
  else if String.eqb (wi_Mode i) "ap" || String.eqb (wi_Mode i) "sta" then
    (<[wi_IfName i := "wireless"]> media, <[wi_IfName i := PortAttachmentPhysical]> attachment)
  else s.

Definition by_name (networks : list NetworkDevice) : gmap string NetworkDevice :=
  fold_left (fun m d => <[nd_Name d := d]> m) networks ∅.

(** [wired]: whether a port is an Ethernet port or stands on one. A name is
    visited once, so there are at most as many turns as names. *)
Fixpoint wired (fuel : nat) (byName : gmap string NetworkDevice) (name : string) (seen : gset string) : string :=
  match fuel with
  | O => ""
  | S fuel =>
      if bool_decide (name ∈ seen) then ""
      else match byName !! name with
           | None => ""
           | Some d =>
               let kind := ToLowerRunes (nd_DevType d) in
               if Contains kind "ethernet" || String.eqb kind "dsa" then PortAttachmentPhysical
               else if negb (String.eqb (nd_Parent d) "") &&
                       negb (String.eqb (wired fuel byName (nd_Parent d) ({[name]} ∪ seen)) "") then PortAttachmentAggregate
               else ""
           end
  end.
Definition wired_fuel (byName : gmap string NetworkDevice) : nat := S (size byName).

Definition topologyPortClassification (networks : list NetworkDevice) (radios : list WirelessRadio)
    : gmap string string * gmap string string :=
  let start := fold_left (fun s r => fold_left classify_iface (wr_Interfaces r) s) radios (∅, ∅) in
  let byName := by_name networks in
  map_fold (fun name _ s =>
    let '(media, attachment) := s in
    if bool_decide (is_Some (media !! name)) then s
    else
      let scope := wired (wired_fuel byName) byName name ∅ in
      if String.eqb scope "" then s else (<[name := "wired"]> media, <[name := scope]> attachment)) start byName.

(** ** The end of the poll *)

Definition port_labels (labels : gmap string string) (ports : list STPPort) : gmap Z string :=
  fold_left (fun m p => match labels !! sp_Name p with
                        | Some l => <[sp_Port p := l]> m
                        | None => m
                        end) ports ∅.
Definition label_ports (media attachment : gmap string string) (b : BridgeObservation) : BridgeObservation :=
  match br_STP b with
  | None => b
  | Some stp => MkBridge (br_DeviceID b) (br_Bridge b) (br_Entries b) (br_STP b)
                  (port_labels media (st_Ports stp)) (port_labels attachment (st_Ports stp))
  end.

Definition cause_labels : list (string * string) :=
  [("permission", "access/permission denied"); ("unsupported", "unsupported operation"); ("transport", "transport error");
   ("protocol", "protocol error"); ("decode", "decode/invalid data"); ("device", "device-reported error");
   ("unknown", "unclassified error")].
Definition topologyFailureReason (causes : gset string) : string :=
  let labels := map snd (List.filter (fun cl => bool_decide (fst cl ∈ causes)) cause_labels) in
  "source call failure: " ++ Join (match labels with [] => ["unclassified error"] | _ => labels end) ", ".

(** The state of a source after the poll. *)
Definition source_outcome (s : Snapshot) (source : string) (expected : Z) : TopologySourceObservation :=
  let c := sn_counts s in
  if (0 <? count (ct_failures c) source) || negb (count (ct_answered c) source =? expected) then
    MkSource (sn_DeviceID s) source TopologySourceError (topologyFailureReason (default ∅ (ct_causes c !! source))) (sn_At s)
  else if 0 <? count (ct_evidence c) source then MkSource (sn_DeviceID s) source TopologySourceObserved "" (sn_At s)
  else MkSource (sn_DeviceID s) source TopologySourceEmpty "" (sn_At s).

Fixpoint replace_first (match_ : TopologySourceObservation -> bool) (fresh : TopologySourceObservation)
    (l : list TopologySourceObservation) : list TopologySourceObservation :=
  match l with
  | [] => [fresh]
  | o :: l' => if match_ o then fresh :: l' else o :: replace_first match_ fresh l'
  end.
Definition of_source (deviceID : Z) (name : string) (o : TopologySourceObservation) : bool :=
  (so_DeviceID o =? deviceID) && String.eqb (so_Source o) name.
Definition setTopologySourceEmpty (sources : list TopologySourceObservation) (deviceID : Z) (name : string) (at_ : Z)
    : list TopologySourceObservation :=
  replace_first (of_source deviceID name) (MkSource deviceID name TopologySourceEmpty "" at_) sources.

Definition source_name_le (a b : TopologySourceObservation) : Prop := str_le (so_Source a) (so_Source b).
#[export] Instance source_name_le_dec a b : Decision (source_name_le a b).
Proof. unfold source_name_le. apply _. Defined.

(** The sources are appended in the order of a map; they are sorted at the end. *)
Definition finalizeTopology (s : Snapshot) : Snapshot :=
  let t := sn_Topology s in
  if negb (tp_Cycle t) then s
  else
    let '(media, attachment) := topologyPortClassification (tp_NetworkDevices t) (tp_Wireless t) in
    let bridges := map (label_ports media attachment) (tp_Bridges t) in
    let sources := (tp_Sources t ++ map (fun kv => source_outcome s (fst kv) (snd kv)) (map_to_list (ct_expected (sn_counts s))))%list in
    let '(bridges, sources) :=
      if topologySourceSuccessful sources TopologySourceNetworkDevices &&
         Nat.eqb (length (topologyBridgeNames (tp_NetworkDevices t))) 0
      then ([], fold_left (fun l name => setTopologySourceEmpty l (sn_DeviceID s) name (sn_At s))
                  [SourceBridgeFDB; TopologySourceBridgeSTP] sources)
      else (bridges, sources) in
    with_topology s (with_sources (with_bridges t bridges) (merge_sort source_name_le sources)).

(** The topology of a poll. [s] is the snapshot with the stations and interfaces
    that the other calls of the batch set. *)
Definition finish_poll (s : Snapshot) : Snapshot :=
  let s := match finalizeNetworks s with
           | Ok s' => s'
           | Err _ => if tp_Cycle (sn_Topology s) then topologyFailed SourceDefaultRoute CauseDecode s else s
           end in
  finalizeTopology (with_topology s (with_sources (sn_Topology s) (tp_Sources (sn_Topology s) ++ [topologyAssociationSource s])%list)).

Definition collect_topology (s : Snapshot) (cycle : bool) (calls : list (topology_call * answer)) : Snapshot :=
  let s := if cycle then prepareTopology s (map (fun ca => call_source (fst ca)) calls) else s in
  finish_poll (fold_left handle_answer calls s).
End Collect.
