(* ===== verification/TopologyDb.v ===== *)
(** * The topology tables

    internal/store/observability.go: the rows of [topology_edges] and
    [topology_source_states], what is validated before they are written, the
    transaction of one observation and the queries. A table is a map from its
    primary key. The columns [evidence_json] and [ambiguity_json] hold values
    that [json.Marshal] writes and [json.Unmarshal] reads; a row is modelled with
    the values themselves. The engine gives a row inserted without an id the
    successor of the largest id. A call may fail in the engine: [fault] is the
    error of the statement or commit that fails, and then nothing is written. *)

From Stdlib Require Import ZArith Lia Ascii String.
From stdpp Require Import base gmap list strings sorting.
From S2P Require Import Prelude GoStr GoFmt NetIP Topology.

Local Open Scope string_scope.
Local Open Scope Z_scope.

(** ** The tables *)

(** The columns of a device that topology reads. *)
Record Device := MkDevice {
  dv_ID : Z;
  dv_MAC : string;
  dv_Name : string;
  dv_Role : string;
  dv_Functions : option (list string);
  dv_AdoptedAt : option Z
}.
Definition Adopted (d : Device) : bool := match dv_AdoptedAt d with Some _ => true | None => false end.

Notation edge_table := (gmap Z TopologyEdge) (only parsing).
Notation state_table := (gmap (Z * string) TopologySourceObservation) (only parsing).

Record DB := MkDB {
  db_devices : gmap Z Device;
  db_clients : list InventoryClient;
  db_edges : gmap Z TopologyEdge;
  db_states : gmap (Z * string) TopologySourceObservation
}.

Record TopologyChanges := MkTopologyChanges {
  tc_Open : list TopologyEdge;
  tc_Update : list TopologyEdge;
  tc_Close : list TopologyEdge;
  tc_ReplaceSourcesFor : list Z
}.

Definition ErrNotFound : error := "store: not found".

(** ** Validation *)

(** [canonicalMAC] of the package store. *)
Definition store_canonicalMAC (raw : string) : res error string :=
  match ParseMAC6 raw with
  | Some bs => Ok (ToLower (mac_String bs))
  | None => Err "invalid 48-bit MAC address"
  end.

Definition blank (s : string) : bool := String.eqb (TrimSpace s) "".

Definition canonical_mac (value : string) : bool :=
  match store_canonicalMAC value with Ok mac => String.eqb value mac | Err _ => false end.

(** [strings.Cut] at a byte. *)
Fixpoint Cut (s : string) (sep : ascii) : option (string * string) :=
  match s with
  | EmptyString => None
  | String c s' =>
      if Ascii.eqb c sep then Some ("", s')
      else match Cut s' sep with Some (before, after) => Some (String c before, after) | None => None end
  end.

Definition validTopologyNode (ref : string) : bool :=
  if String.eqb ref "synthetic:internet" then true
  else
    match Cut ref ":"%char with
    | None => false
    | Some (kind, value) =>
        negb (String.eqb value "") &&
        (String.eqb kind "device" || String.eqb kind "client" || String.eqb kind "mac") && canonical_mac value
    end.

(** The end of an interval, when it has one. *)
Definition bad_end (e : TopologyEdge) : bool :=
  match te_ValidTo e with
  | Some to => (to <? te_ValidFrom e) || (to <? te_LastSeen e)
  | None => false
  end.

Definition evidence_error (iv : nat * TopologyEvidence) : option error :=
  let '(i, v) := iv in
  if blank (ev_Kind v) || blank (ev_Source v) then
    Some (errf "store: topology evidence %d requires kind and source" [VD (Z.of_nat i)])
  else match ev_DeviceID v with
       | Some d => if d <=? 0 then Some (errf "store: topology evidence %d has invalid device id" [VD (Z.of_nat i)]) else None
       | None => None
       end.

Definition ambiguity_error (ia : nat * string) : option error :=
  if blank (snd ia) then Some (errf "store: topology ambiguity %d is blank" [VD (Z.of_nat (fst ia))]) else None.

(** The first error of a list, in order. *)
Definition first_error {A} (f : nat * A -> option error) (l : list A) : option error :=
  head (omap f (imap pair l)).

Definition normalizeTopologyEdge (e : TopologyEdge) : res error TopologyEdge :=
  if negb (validTopologyNode (te_ChildNode e)) || negb (validTopologyNode (te_ParentNode e)) then
    Err "store: topology node refs must be device:<inventory-mac>, client:<mac>, mac:<mac>, or synthetic:internet"
  else
    let? mac := if String.eqb (te_ChildMAC e) "" then Ok ""
                else match store_canonicalMAC (te_ChildMAC e) with
                     | Ok mac => Ok mac
                     | Err err => Err (errf "store: topology child MAC: %w" [VS err])
                     end in
    if match te_ParentDeviceID e with Some d => d <=? 0 | None => false end then
      Err "store: topology parent device id must be positive"
    else if blank (te_Medium e) || blank (te_Confidence e) then
      Err "store: topology medium and confidence are required"
    else if (te_ValidFrom e <=? 0) || (te_LastSeen e <? te_ValidFrom e) || bad_end e then
      Err "store: invalid topology interval"
    else
      match first_error evidence_error (te_Evidence e), first_error ambiguity_error (te_Ambiguities e) with
      | Some err, _ | None, Some err => Err err
      | None, None => Ok (with_ChildMAC e mac)
      end.

Definition validateTopologyParent (devices : gmap Z Device) (deviceID : option Z) (parentNode : string)
    : res error unit :=
  match deviceID with
  | None => Ok tt
  | Some id =>
      match devices !! id with
      | None => Err ErrNotFound
      | Some d =>
          match store_canonicalMAC (dv_MAC d) with
          | Err err => Err (errf "store: malformed inventory MAC for topology parent: %w" [VS err])
          | Ok mac =>
              if String.eqb parentNode ("device:" ++ mac) then Ok tt
              else Err "store: topology parent_device_id does not match the inventory MAC node"
          end
      end
  end.

Definition normalizeTopologySourceState (now : Z) (s : TopologySourceObservation)
    : res error TopologySourceObservation :=
  if (so_DeviceID s <=? 0) || String.eqb (so_Source s) "" || negb (String.eqb (TrimSpace (so_Source s)) (so_Source s)) then
    Err "store: topology source device and source are required"
  else if negb (known_state (so_State s)) then
    Err (errf "store: invalid topology source state %q" [VS (so_State s)])
  else
    let at_ := if so_ObservedAt s =? 0 then now else so_ObservedAt s in
    if at_ <? 0 then Err "store: topology source observation time cannot be negative"
    else Ok (MkSource (so_DeviceID s) (so_Source s) (so_State s) (so_Reason s) at_).

(** ** One observation, in a transaction *)

(** What [prepare] requires of an edge of a kind. *)
Definition kind_error (kind : string) (i : nat) (e : TopologyEdge) : option error :=
  let bad := fun (b : bool) f => if b then Some (errf f [VD (Z.of_nat i)]) else None in
  let open_ended := match te_ValidTo e with None => true | Some _ => false end in
  if String.eqb kind "open" then
    bad (negb (te_ID e =? 0) || negb open_ended) "store: topology open %d must be a new active interval"
  else if String.eqb kind "update" then
    bad ((te_ID e <=? 0) || negb open_ended) "store: topology update %d must identify an active interval"
  else if String.eqb kind "close" then
    bad ((te_ID e <=? 0) || open_ended) "store: topology close %d must identify a closed interval"
  else None.

Definition see_id (kind : string) (seen : gmap Z string) (e : TopologyEdge) : res error (gmap Z string) :=
  if 0 <? te_ID e then
    match seen !! te_ID e with
    | Some prior => Err (errf "store: topology edge %d appears in both %s and %s" [VD (te_ID e); VS prior; VS kind])
    | None => Ok (<[te_ID e := kind]> seen)
    end
  else Ok seen.

Definition in_kind {A} (kind : string) (i : nat) (r : res error A) : res error A :=
  match r with Ok a => Ok a | Err e => Err (errf "store: topology %s %d: %w" [VS kind; VD (Z.of_nat i); VS e]) end.

(** One turn of the loop of [prepare]: the ids seen and the edges prepared. *)
Definition prepare_edge (devices : gmap Z Device) (kind : string) (s : gmap Z string * list TopologyEdge)
    (ie : nat * TopologyEdge) : res error (gmap Z string * list TopologyEdge) :=
  let '(seen, done) := s in
  let '(i, e) := ie in
  match kind_error kind i e with
  | Some err => Err err
  | None =>
      let? seen := see_id kind seen e in
      let? e' := in_kind kind i (normalizeTopologyEdge e) in
      let? _ := in_kind kind i (validateTopologyParent devices (te_ParentDeviceID e') (te_ParentNode e')) in
      Ok (seen, (done ++ [e'])%list)
  end.
Definition prepare (devices : gmap Z Device) (kind : string) (edges : list TopologyEdge) (seen : gmap Z string)
    : res error (gmap Z string * list TopologyEdge) :=
  try_fold (prepare_edge devices kind) (imap pair edges) (seen, []).

Definition normalize_source (now : Z) (s : gset (Z * string) * list TopologySourceObservation)
    (io : nat * TopologySourceObservation) : res error (gset (Z * string) * list TopologySourceObservation) :=
  let '(seen, done) := s in
  match normalizeTopologySourceState now (snd io) with
  | Err e => Err (errf "store: topology source %d: %w" [VD (Z.of_nat (fst io)); VS e])
  | Ok o =>
      let key := (so_DeviceID o, so_Source o) in
      if bool_decide (key ∈ seen) then
        Err (errf "store: duplicate topology source %d/%s" [VD (so_DeviceID o); VS (so_Source o)])
      else Ok ({[key]} ∪ seen, (done ++ [o])%list)
  end.

Definition replace_device (seen : gset Z) (id : Z) : res error (gset Z) :=
  if (id <=? 0) || bool_decide (id ∈ seen) then
    Err "store: topology source replacement needs unique positive device ids"
  else Ok ({[id]} ∪ seen).

(** [UPDATE ... WHERE id=? AND valid_to IS NULL], which must affect one row. *)
Definition updateActiveTopologyEdge (t : gmap Z TopologyEdge) (e : TopologyEdge) : res error (gmap Z TopologyEdge) :=
  match t !! te_ID e with
  | Some row =>
      match te_ValidTo row with
      | None => Ok (<[te_ID e := e]> t)
      | Some _ => Err (errf "store: active topology edge %d: %w" [VD (te_ID e); VS ErrNotFound])
      end
  | None => Err (errf "store: active topology edge %d: %w" [VD (te_ID e); VS ErrNotFound])
  end.

(** The id the engine gives to the next row. *)
Definition next_id (t : gmap Z TopologyEdge) : Z := 1 + map_fold (fun id _ m => Z.max id m) 0 t.

Definition insert_edge (t : gmap Z TopologyEdge) (e : TopologyEdge) : gmap Z TopologyEdge :=
  <[next_id t := with_interval e (next_id t) (te_ValidFrom e) (te_ValidTo e) (te_LastSeen e)]> t.

(** [DELETE ... WHERE device_id=? AND source NOT IN (...)]. *)
Definition replace_states (sources : list TopologySourceObservation) (t : gmap (Z * string) TopologySourceObservation)
    (id : Z) : res error (gmap (Z * string) TopologySourceObservation) :=
  match List.filter (fun s => so_DeviceID s =? id) sources with
  | [] => Err (errf "store: topology source replacement for device %d has no observations" [VD id])
  | kept => Ok (filter (fun kv => fst (fst kv) <> id \/ snd (fst kv) ∈ map so_Source kept) t)
  end.

(** The upsert; the device must exist. *)
Definition upsert_state (devices : gmap Z Device) (t : gmap (Z * string) TopologySourceObservation)
    (s : TopologySourceObservation) : res error (gmap (Z * string) TopologySourceObservation) :=
  match devices !! so_DeviceID s with
  | Some _ => Ok (<[(so_DeviceID s, so_Source s) := s]> t)
  | None => Err "store: save topology source state: FOREIGN KEY constraint failed"
  end.

(** What an observation writes, once prepared. *)
Definition write_observation (db : DB) (opens updates closes : list TopologyEdge) (replace : list Z)
    (sources : list TopologySourceObservation) : res error DB :=
  let? t := try_fold updateActiveTopologyEdge closes (db_edges db) in
  let? t := try_fold updateActiveTopologyEdge updates t in
  let t := fold_left insert_edge opens t in
  let? s := try_fold (replace_states sources) replace (db_states db) in
  let? s := try_fold (upsert_state (db_devices db)) sources s in
  Ok (MkDB (db_devices db) (db_clients db) t s).

(** The error, if any, and the database afterwards. *)
Definition ApplyTopologyObservation (fault : option error) (now : Z) (changes : TopologyChanges)
    (sources : list TopologySourceObservation) (db : DB) : option error * DB :=
  let run :=
    let? (seen, opens) := prepare (db_devices db) "open" (tc_Open changes) ∅ in
    let? (seen, updates) := prepare (db_devices db) "update" (tc_Update changes) seen in
    let? (_, closes) := prepare (db_devices db) "close" (tc_Close changes) seen in
    let? (_, sources) := try_fold (normalize_source now) (imap pair sources) (∅, []) in
    let? _ := try_fold replace_device (tc_ReplaceSourcesFor changes) ∅ in
    let? db' := write_observation db opens updates closes (tc_ReplaceSourcesFor changes) sources in
    match fault with Some e => Err e | None => Ok db' end in
  match run with Ok db' => (None, db') | Err e => (Some e, db) end.

(** ** Single writes *)

(** [SaveTopologyEdge]: the error, the edge as the caller then has it, and the
    database. *)
Definition SaveTopologyEdge (fault : option error) (edge : option TopologyEdge) (db : DB)
    : res error TopologyEdge * DB :=
  let run :=
    match edge with
    | None => Err "store: topology edge is required"
    | Some e =>
        let? e := normalizeTopologyEdge e in
        let? _ := validateTopologyParent (db_devices db) (te_ParentDeviceID e) (te_ParentNode e) in
        match fault with
        | Some err => Err err
        | None =>
            if te_ID e =? 0 then
              let id := next_id (db_edges db) in
              Ok (with_interval e id (te_ValidFrom e) (te_ValidTo e) (te_LastSeen e), insert_edge (db_edges db) e)
            else match db_edges db !! te_ID e with
                 | Some _ => Ok (e, <[te_ID e := e]> (db_edges db))
                 | None => Err ErrNotFound
                 end
        end
    end in
  match run with
  | Ok (e, t) => (Ok e, MkDB (db_devices db) (db_clients db) t (db_states db))
  | Err err => (Err err, db)
  end.

Definition SaveTopologySourceState (fault : option error) (now : Z) (state : TopologySourceObservation) (db : DB)
    : option error * DB :=
  let run :=
    let? s := normalizeTopologySourceState now state in
    let? t := upsert_state (db_devices db) (db_states db) s in
    match fault with Some e => Err e | None => Ok t end in
  match run with
  | Ok t => (None, MkDB (db_devices db) (db_clients db) (db_edges db) t)
  | Err e => (Some e, db)
  end.

(** ** Queries *)

(** [scanTopologyEdges]: every row read is validated again. *)
Definition scan_edge (done : list TopologyEdge) (row : TopologyEdge) : res error (list TopologyEdge) :=
  match normalizeTopologyEdge row with
  | Ok e => Ok (done ++ [e])%list
  | Err err => Err (errf "store: malformed topology edge %d: %w" [VD (te_ID row); VS err])
  end.
Definition scanTopologyEdges (rows : list TopologyEdge) : res error (list TopologyEdge) := try_fold scan_edge rows [].

Definition rows_of (t : gmap Z TopologyEdge) : list TopologyEdge := map snd (map_to_list t).

(** [ORDER BY child_node, id]. *)
Definition child_le (a b : TopologyEdge) : Prop :=
  if String.eqb (te_ChildNode a) (te_ChildNode b) then te_ID a <= te_ID b else str_le (te_ChildNode a) (te_ChildNode b).
#[export] Instance child_le_dec a b : Decision (child_le a b).
Proof. unfold child_le. destruct (String.eqb _ _); apply _. Defined.

(** [ORDER BY valid_from DESC, id DESC]. *)
Definition newest_le (a b : TopologyEdge) : Prop :=
  if te_ValidFrom a =? te_ValidFrom b then te_ID b <= te_ID a else te_ValidFrom b <= te_ValidFrom a.
#[export] Instance newest_le_dec a b : Decision (newest_le a b).
Proof. unfold newest_le. destruct (_ =? _); apply _. Defined.

(** [valid_to IS NULL OR valid_to > at]. *)
Definition ends_after (at_ : Z) (e : TopologyEdge) : bool :=
  match te_ValidTo e with None => true | Some to => at_ <? to end.
Definition is_active (e : TopologyEdge) : bool := match te_ValidTo e with None => true | Some _ => false end.

(** The half-open interval of an edge contains [at_]. *)
Definition holds_at (at_ : Z) (e : TopologyEdge) : bool := (te_ValidFrom e <=? at_) && ends_after at_ e.

Definition topologyEdgesAt (at_ : Z) (t : gmap Z TopologyEdge) : res error (list TopologyEdge) :=
  if at_ <? 0 then Err "store: topology timestamp cannot be negative"
  else scanTopologyEdges
    (merge_sort child_le (List.filter (if 0 <? at_ then holds_at at_ else is_active) (rows_of t))).

Definition query {A} (fault : option error) (r : res error A) : res error A :=
  match fault with Some e => Err e | None => r end.

Definition TopologyEdgesAt (fault : option error) (at_ : Z) (db : DB) : res error (list TopologyEdge) :=
  query fault (topologyEdgesAt at_ (db_edges db)).

Definition TopologyEdgesBetween (fault : option error) (from to limit : Z) (db : DB)
    : res error (list TopologyEdge * bool) :=
  if (from <=? 0) || (to <=? from) then Err "store: topology history requires 0 < from < to"
  else if (limit <=? 0) || (100000 <? limit) then Err "store: topology history limit must be within 1..100000"
  else
    let rows := List.filter (fun e => (te_ValidFrom e <? to) && ends_after from e) (rows_of (db_edges db)) in
    let? edges := query fault (scanTopologyEdges (take (Z.to_nat (limit + 1)) (merge_sort newest_le rows))) in
    let truncated := limit <? Z.of_nat (length edges) in
    let edges := if truncated then take (Z.to_nat limit) edges else edges in
    Ok (rev edges, truncated).

(** The rank of a closed row among those of its child: the latest end first,
    then the largest id. *)
Definition later_row (a b : TopologyEdge) : bool :=
  let ta := default 0 (te_ValidTo a) in let tb := default 0 (te_ValidTo b) in
  (tb <? ta) || ((ta =? tb) && (te_ID b <? te_ID a)).
Definition LatestClosedTopologyEdgesSince (fault : option error) (since : Z) (db : DB)
    : res error (list TopologyEdge) :=
  if since <=? 0 then Err "store: latest closed topology cutoff must be positive"
  else
    let closed := List.filter (fun e => match te_ValidTo e with Some to => since <=? to | None => false end)
                              (rows_of (db_edges db)) in
    let latest := List.filter (fun e =>
      forallb (fun o => negb (String.eqb (te_ChildNode o) (te_ChildNode e) && later_row o e)) closed) closed in
    query fault (scanTopologyEdges (merge_sort child_le latest)).

Definition topologySourceStates (t : gmap (Z * string) TopologySourceObservation) : list TopologySourceObservation :=
  merge_sort source_le (map snd (map_to_list t)).
Definition TopologySourceStates (fault : option error) (db : DB) : res error (list TopologySourceObservation) :=
  query fault (Ok (topologySourceStates (db_states db))).

Definition CurrentTopologySnapshot (fault : option error) (db : DB)
    : res error (list TopologyEdge * list TopologySourceObservation) :=
  let? edges := query fault (topologyEdgesAt 0 (db_edges db)) in
  Ok (edges, topologySourceStates (db_states db)).
