(* ===== verification/TopologyDbSpec.v ===== *)
(** * The topology tables: what a transaction does

    An observation whose rows are well formed and whose ids match the active
    rows is accepted, and the tables afterwards are what its changes say: closed
    and updated rows in place, new rows under fresh ids, everything else as it
    was. *)

From Stdlib Require Import ZArith Lia Ascii String.
From stdpp Require Import base gmap list strings sorting.
From S2P Require Import Prelude GoStr GoFmt NetIP Topology TopologyIntervals TopologyRoots TopologyIntervalsSpec.
From S2P Require Import TopologyDb.

Local Open Scope string_scope.
Local Open Scope Z_scope.

(** ** Rows *)

(** What a row says, apart from its id and interval. *)
Record content_ok (e : TopologyEdge) : Prop := MkContentOk {
  co_child : validTopologyNode (te_ChildNode e) = true;
  co_parent : validTopologyNode (te_ParentNode e) = true;
  co_mac : te_ChildMAC e = "" \/ store_canonicalMAC (te_ChildMAC e) = Ok (te_ChildMAC e);
  co_device : forall d, te_ParentDeviceID e = Some d -> 0 < d;
  co_medium : blank (te_Medium e) = false;
  co_confidence : blank (te_Confidence e) = false;
  co_evidence : forall v, v ∈ te_Evidence e -> blank (ev_Kind v) = false /\ blank (ev_Source v) = false /\
    forall d, ev_DeviceID v = Some d -> 0 < d;
  co_ambiguities : forall a, a ∈ te_Ambiguities e -> blank a = false
}.

Definition interval_ok (e : TopologyEdge) : Prop :=
  0 < te_ValidFrom e <= te_LastSeen e /\ forall to, te_ValidTo e = Some to -> te_LastSeen e <= to.

Lemma first_error_none {A} (f : nat * A -> option error) (l : list A) :
  first_error f l = None <-> forall i a, l !! i = Some a -> f (i, a) = None.
Proof.
  unfold first_error. rewrite head_None. split.
  - intros H i a Ha. destruct (f (i, a)) as [e|] eqn:E; [|done]. exfalso.
    assert (He : e ∈ omap f (imap pair l)).
    { apply list_elem_of_omap. exists (i, a). split; [|done]. apply elem_of_lookup_imap. eauto. }
    rewrite H in He. by apply elem_of_nil in He.
  - intros H. apply elem_of_nil_inv. intros e He. apply list_elem_of_omap in He as ([i a] & Hin & E).
    apply elem_of_lookup_imap in Hin as (j & b & [= -> ->] & Hb). by rewrite (H _ _ Hb) in E.
Qed.

Lemma with_own_mac e : with_ChildMAC e (te_ChildMAC e) = e.
Proof. by destruct e. Qed.

(** Rows that the store writes and reads as they are. *)
Lemma normalize_same e : normalizeTopologyEdge e = Ok e <-> content_ok e /\ interval_ok e.
Proof.
  unfold normalizeTopologyEdge. split.
  - destruct (negb _ || negb _) eqn:En; [done|]. bool_prop.
    set (m := if String.eqb (te_ChildMAC e) "" then _ else _). destruct m as [mac|] eqn:Em; [|done].
    destruct (match te_ParentDeviceID e with Some d => d <=? 0 | None => false end) eqn:Ed; [done|].
    destruct (blank (te_Medium e) || blank (te_Confidence e)) eqn:Eb; [done|].
    destruct (_ || _ || bad_end e) eqn:Ei; [done|].
    destruct (first_error evidence_error _) eqn:Ee; [done|]. destruct (first_error ambiguity_error _) eqn:Ea; [done|].
    rewrite first_error_none in Ee. rewrite first_error_none in Ea. intros Hok. bool_prop.
    assert (Hmac : mac = te_ChildMAC e)
      by (exact (f_equal (fun r => match r with Ok x => te_ChildMAC x | Err _ => "" end) Hok)).
    split; [constructor; try done|].
    + subst m. destruct (String.eqb (te_ChildMAC e) "") eqn:E0; bool_prop; [by left|right].
      destruct (store_canonicalMAC _); [|done]. congruence.
    + intros d Hd. rewrite Hd in Ed. bool_prop. lia.
    + intros v [i Hv]%list_elem_of_lookup. specialize (Ee _ _ Hv). unfold evidence_error in Ee.
      destruct (blank (ev_Kind v) || blank (ev_Source v)) eqn:Ek; [done|]. bool_prop. split_and!; [done..|].
      intros d Hd. rewrite Hd in Ee. destruct (d <=? 0) eqn:E0; [done|]. bool_prop. lia.
    + intros a [i Ha]%list_elem_of_lookup. specialize (Ea _ _ Ha). unfold ambiguity_error in Ea. cbn [snd] in Ea.
      by destruct (blank a).
    + unfold interval_ok, bad_end in *. split; [lia|]. intros to Hto. rewrite Hto in *. bool_prop. lia.
  - intros [[H1 H2 H3 H4 H5 H6 H7 H8] [H9 H10]]. rewrite H1, H2, H5, H6. cbn [negb orb].
    assert (Hm : (if String.eqb (te_ChildMAC e) "" then Ok "" else
                    match store_canonicalMAC (te_ChildMAC e) with
                    | Ok mac => Ok mac
                    | Err err => Err (errf "store: topology child MAC: %w" [VS err])
                    end) = Ok (te_ChildMAC e)).
    { destruct (String.eqb_spec (te_ChildMAC e) "") as [->|Hne]; [done|]. destruct H3 as [?|H3]; [done|]. by rewrite H3. }
    rewrite Hm.
    assert (Hd : match te_ParentDeviceID e with Some d => d <=? 0 | None => false end = false).
    { destruct (te_ParentDeviceID e) as [d|]; [|done]. apply Z.leb_gt. by apply H4. }
    rewrite Hd.
    assert (Hi : (te_ValidFrom e <=? 0) || (te_LastSeen e <? te_ValidFrom e) || bad_end e = false).
    { unfold bad_end. destruct (te_ValidTo e) as [to|]; [specialize (H10 to eq_refl)|]; bool_goal; lia. }
    rewrite Hi.
    assert (He : first_error evidence_error (te_Evidence e) = None).
    { apply first_error_none. intros i v Hv. apply list_elem_of_lookup_2, H7 in Hv as (K1 & K2 & K3).
      unfold evidence_error. rewrite K1, K2. cbn [orb]. destruct (ev_DeviceID v) as [d|]; [|done].
      by rewrite (proj2 (Z.leb_gt _ _)) by (by apply K3). }
    assert (Ha : first_error ambiguity_error (te_Ambiguities e) = None).
    { apply first_error_none. intros i a Ha. apply list_elem_of_lookup_2, H8 in Ha. unfold ambiguity_error. cbn [snd].
      by rewrite Ha. }
    rewrite He, Ha. by rewrite with_own_mac.
Qed.

Lemma content_interval e id from to seen : content_ok e -> content_ok (with_interval e id from to seen).
Proof. by intros []. Qed.

(** ** Preparing the rows *)

Lemma snd_imap_pair {A} (l : list A) : map snd (imap pair l) = l.
Proof.
  assert (H : forall g : nat -> nat, map snd (imap (fun i (x : A) => (g i, x)) l) = l).
  { induction l as [|x l IH]; intros g; [done|]. cbn [imap map snd]. f_equal. apply (IH (fun i => g (S i))). }
  apply (H (fun i => i)).
Qed.

Section Prepare.
Context (devices : gmap Z Device) (kind : string).

(** Rows that normalize to themselves are prepared as they are. *)
Lemma prepared_same ies : forall s s', try_fold (prepare_edge devices kind) ies s = Ok s' ->
  (forall ie, ie ∈ ies -> normalizeTopologyEdge (snd ie) = Ok (snd ie)) -> snd s' = (snd s ++ map snd ies)%list.
Proof.
  induction ies as [|[i e] ies IH]; intros [seen d] s' H Hn.
  - injection H as <-. by rewrite app_nil_r.
  - cbn [try_fold] in H. destruct (prepare_edge _ _ _ _) as [[seen' d']|] eqn:E; [|done].
    rewrite (IH _ _ H) by (intros ie Hie; apply Hn; by right). cbn [snd].
    unfold prepare_edge in E. destruct (kind_error _ _ _); [done|]. destruct (see_id _ _ _); [|done].
    specialize (Hn (i, e) ltac:(left)). cbn [snd] in Hn. rewrite Hn in E. cbn [in_kind] in E.
    destruct (in_kind _ _ _); [|done]. injection E as <- <-. by rewrite <- app_assoc.
Qed.

Definition fits (e : TopologyEdge) : Prop :=
  normalizeTopologyEdge e = Ok e /\ validateTopologyParent devices (te_ParentDeviceID e) (te_ParentNode e) = Ok tt /\
  forall i, kind_error kind i e = None.

Lemma prepare_accepts ies : forall seen d, (forall ie, ie ∈ ies -> fits (snd ie)) ->
  (forall ie, ie ∈ ies -> 0 < te_ID (snd ie) -> seen !! te_ID (snd ie) = None) ->
  NoDup (List.filter (fun i => 0 <? i) (map te_ID (map snd ies))) ->
  exists seen', try_fold (prepare_edge devices kind) ies (seen, d) = Ok (seen', (d ++ map snd ies)%list) /\
    forall i, seen !! i = None -> ~ (0 < i /\ i ∈ map te_ID (map snd ies)) -> seen' !! i = None.
Proof.
  induction ies as [|[i e] ies IH]; intros seen d Hf Hseen Hnd.
  - exists seen. rewrite app_nil_r. split; [done|]. tauto.
  - destruct (Hf (i, e)) as (Hn & Hp & Hk); [left|]. cbn [snd] in Hn, Hp, Hk.
    cbn [map snd List.filter] in Hnd.
    assert (Hs : exists seen1, see_id kind seen e = Ok seen1 /\ (0 < te_ID e -> seen1 = <[te_ID e := kind]> seen) /\
                   (te_ID e <= 0 -> seen1 = seen)).
    { unfold see_id. destruct (Z.ltb_spec 0 (te_ID e)) as [Hpos|Hpos].
      - pose proof (Hseen (i, e) ltac:(left) Hpos) as E0. cbn [snd] in E0. rewrite E0. eexists. split_and!; [done|done|lia].
      - exists seen. split_and!; [done|lia|done]. }
    destruct Hs as (seen1 & Hs & Hs1 & Hs2).
    destruct (IH seen1 (d ++ [e])%list) as (seen' & Hrun & Hout).
    + intros ie Hie. apply Hf. by right.
    + intros ie Hie Hpos. destruct (Z.lt_ge_cases 0 (te_ID e)) as [He|He].
      * rewrite (Hs1 He). rewrite (proj2 (Z.ltb_lt _ _) He) in Hnd. apply NoDup_cons in Hnd as [Hnin _].
        rewrite lookup_insert_ne; [apply Hseen; [by right|done]|]. intros E. apply Hnin. rewrite E.
        apply elem_of_list_filter. split; [by apply Z.ltb_lt|]. rewrite map_map. by apply (list_elem_of_fmap_2 (fun x => te_ID (snd x))).
      * rewrite (Hs2 He). apply Hseen; [by right|done].
    + destruct (0 <? te_ID e); [by apply NoDup_cons in Hnd as [_ ?]|done].
    + exists seen'. split.
      * cbn [try_fold]. unfold prepare_edge at 1. rewrite Hk, Hs, Hn. cbn [in_kind]. rewrite Hp. cbn [in_kind].
        rewrite Hrun. by rewrite <- app_assoc.
      * intros j Hj Hno. apply Hout.
        -- destruct (Z.lt_ge_cases 0 (te_ID e)) as [He|He]; [|by rewrite (Hs2 He)]. rewrite (Hs1 He).
           rewrite lookup_insert_ne; [done|]. intros E. apply Hno. rewrite <- E. split; [done|left].
        -- intros [? Hin]. apply Hno. split; [done|by right].
Qed.
End Prepare.

(** ** Writing the rows *)

Definition max_id {A} (t : gmap Z A) : Z := map_fold (fun id _ m => Z.max id m) 0 t.

Lemma max_id_insert {A} (t : gmap Z A) i e : t !! i = None -> max_id (<[i := e]> t) = Z.max i (max_id t).
Proof.
  intros Hi. unfold max_id. rewrite map_fold_insert_L; [done| |done]. intros. lia.
Qed.

Lemma max_id_bound {A} (t : gmap Z A) i e : t !! i = Some e -> i <= max_id t.
Proof.
  intros H. rewrite <- (insert_delete_id _ _ _ H), max_id_insert by apply lookup_delete_eq. lia.
Qed.
Lemma max_id_nonneg {A} (t : gmap Z A) : 0 <= max_id t.
Proof.
  induction t as [|i e t Hi IH] using map_ind; [done|]. rewrite max_id_insert by done. lia.
Qed.
Lemma max_id_dom {A} (t : gmap Z A) : max_id t <> 0 -> is_Some (t !! max_id t).
Proof.
  induction t as [|i e m Hi IH] using map_ind; [done|]. rewrite max_id_insert by done. intros H.
  destruct (Z.max_spec i (max_id m)) as [[? E]|[? E]]; rewrite E in H |- *; [|rewrite lookup_insert_eq; eauto].
  rewrite lookup_insert_ne by lia. by apply IH.
Qed.
Lemma max_id_le {A} (t t' : gmap Z A) : (forall i, is_Some (t !! i) -> is_Some (t' !! i)) -> max_id t <= max_id t'.
Proof.
  intros H. destruct (decide (max_id t = 0)) as [E|E]; [pose proof (max_id_nonneg t'); lia|].
  destruct (H _ (max_id_dom t E)) as [e He]. by apply max_id_bound in He.
Qed.
Lemma next_id_eq t : next_id t = 1 + max_id t.
Proof. reflexivity. Qed.

Lemma next_id_fresh t i : next_id t <= i -> t !! i = None.
Proof.
  rewrite next_id_eq. intros H. destruct (t !! i) as [e|] eqn:E; [|done]. pose proof (max_id_bound _ _ _ E). lia.
Qed.
Lemma insert_edge_next t e : next_id (insert_edge t e) = next_id t + 1.
Proof.
  unfold insert_edge. rewrite !next_id_eq. rewrite max_id_insert by (apply next_id_fresh; rewrite next_id_eq; lia).
  pose proof (max_id_nonneg t). lia.
Qed.

(** Inserted rows get consecutive ids; the other rows stay. *)
Lemma inserts_spec l : forall t, let t' := fold_left insert_edge l t in
  (forall i, i < next_id t -> t' !! i = t !! i) /\
  (forall j e, l !! j = Some e -> t' !! (next_id t + Z.of_nat j) = Some (numbered (next_id t) j e)) /\
  (forall i e, t' !! i = Some e -> t !! i = Some e \/ exists j u, l !! j = Some u /\ i = next_id t + Z.of_nat j /\ e = numbered (next_id t) j u).
Proof.
  induction l as [|x l IH]; intros t; cbn [fold_left].
  - split_and!; [done|done|]. by left.
  - destruct (IH (insert_edge t x)) as (H1 & H2 & H3). rewrite insert_edge_next in H1, H2, H3. split_and!.
    + intros i Hi. rewrite H1 by lia. unfold insert_edge. apply lookup_insert_ne. lia.
    + intros [|j] e He; cbn in He.
      * simplify_eq. rewrite H1 by lia. replace (next_id t + Z.of_nat 0) with (next_id t) by lia.
        unfold insert_edge. rewrite lookup_insert_eq. unfold numbered. do 2 f_equal. lia.
      * replace (next_id t + Z.of_nat (S j)) with (next_id t + 1 + Z.of_nat j) by lia.
        rewrite (H2 j e He). unfold numbered. do 2 f_equal. lia.
    + intros i e He. destruct (H3 i e He) as [H|(j & u & Hu & -> & ->)].
      * unfold insert_edge in H. apply lookup_insert_Some in H as [[<- <-]|[_ H]]; [right|by left].
        exists 0%nat, x. split_and!; [done|lia|]. unfold numbered. f_equal. lia.
      * right. exists (S j), u. split_and!; [done|lia|]. unfold numbered. f_equal. lia.
Qed.

Lemma updates_spec l : forall t t', try_fold updateActiveTopologyEdge l t = Ok t' -> NoDup (map te_ID l) ->
  (forall e, e ∈ l -> (exists row, t !! te_ID e = Some row /\ te_ValidTo row = None) /\ t' !! te_ID e = Some e) /\
  (forall i, i ∉ map te_ID l -> t' !! i = t !! i).
Proof.
  induction l as [|x l IH]; intros t t' H Hn; cbn [try_fold] in H.
  - injection H as <-. split; [|done]. intros e He. by apply elem_of_nil in He.
  - destruct (updateActiveTopologyEdge t x) as [t1|] eqn:E; [|done]. cbn [map] in Hn. apply NoDup_cons in Hn as [Hx Hn].
    assert (E1 : t1 = <[te_ID x := x]> t /\ exists row, t !! te_ID x = Some row /\ te_ValidTo row = None).
    { unfold updateActiveTopologyEdge in E. destruct (t !! te_ID x) as [row|] eqn:Er; [|done].
      destruct (te_ValidTo row) eqn:Ev; [done|]. injection E as <-. eauto. }
    destruct E1 as [-> Hrow]. destruct (IH _ _ H Hn) as [H1 H2]. split.
    + intros e He. apply elem_of_cons in He as [->|He].
      * split; [exact Hrow|]. rewrite (H2 _ Hx). apply lookup_insert_eq.
      * destruct (H1 e He) as [(row & Hr & Hv) He']. split; [|exact He']. exists row. split; [|exact Hv].
        rewrite lookup_insert_ne in Hr; [exact Hr|]. intros Eq. apply Hx. rewrite Eq. by apply list_elem_of_fmap_2.
    + intros i Hi. cbn [map] in Hi. apply not_elem_of_cons in Hi as [Hi1 Hi2]. rewrite (H2 i Hi2).
      by apply lookup_insert_ne.
Qed.

Lemma updates_accepted l : forall t, NoDup (map te_ID l) ->
  (forall e, e ∈ l -> exists row, t !! te_ID e = Some row /\ te_ValidTo row = None) ->
  exists t', try_fold updateActiveTopologyEdge l t = Ok t'.
Proof.
  induction l as [|x l IH]; intros t Hn Hl; [by eexists|]. cbn [map] in Hn. apply NoDup_cons in Hn as [Hx Hn].
  cbn [try_fold]. destruct (Hl x) as (row & Hr & Hv); [left|]. unfold updateActiveTopologyEdge at 1. rewrite Hr, Hv.
  apply IH; [exact Hn|]. intros e He. destruct (Hl e) as (row' & ? & ?); [by right|]. exists row'. split; [|done].
  rewrite lookup_insert_ne; [done|]. intros Eq. apply Hx. rewrite Eq. by apply list_elem_of_fmap_2.
Qed.

(** ** The table of the edges after an observation *)

Definition keyed (t : gmap Z TopologyEdge) : Prop := forall i e, t !! i = Some e -> te_ID e = i /\ 0 < i.

(** The open rows, in the order of the queries. *)
Definition active_rows (t : gmap Z TopologyEdge) : list TopologyEdge := merge_sort child_le (List.filter is_active (rows_of t)).

Lemma elem_of_rows t e : e ∈ rows_of t <-> exists i, t !! i = Some e.
Proof.
  unfold rows_of. rewrite list_elem_of_fmap. split.
  - intros ([i x] & -> & H). exists i. by apply elem_of_map_to_list.
  - intros [i H]. exists (i, e). split; [done|]. by apply elem_of_map_to_list.
Qed.
Lemma elem_of_active t e : e ∈ active_rows t <-> te_ValidTo e = None /\ exists i, t !! i = Some e.
Proof.
  unfold active_rows. rewrite merge_sort_Permutation, elem_of_list_filter, elem_of_rows.
  assert (E : is_active e = true <-> te_ValidTo e = None) by (unfold is_active; by destruct (te_ValidTo e)).
  by rewrite E.
Qed.

Lemma rows_ids t : keyed t -> NoDup (map te_ID (rows_of t)).
Proof.
  intros Hk. unfold rows_of. rewrite map_map. rewrite (map_ext_in _ fst); [apply NoDup_fst_map_to_list|].
  intros [i e] H. apply list_elem_of_In, elem_of_map_to_list in H. by destruct (Hk _ _ H).
Qed.
Lemma active_ids t : keyed t -> NoDup (map te_ID (active_rows t)).
Proof.
  intros Hk. unfold active_rows. rewrite merge_sort_Permutation.
  apply (NoDup_map_sub _ _ (rows_of t)); [by apply rows_ids|apply NoDup_filter_list; eapply NoDup_fmap_1, rows_ids, Hk|].
  intros x Hx. by apply elem_of_list_filter in Hx as [_ ?].
Qed.
Lemma active_lookup t e : keyed t -> e ∈ active_rows t <-> te_ValidTo e = None /\ t !! te_ID e = Some e.
Proof.
  intros Hk. rewrite elem_of_active. split; [|intros [? ?]; eauto]. intros [Hv [i Hi]]. split; [done|].
  by destruct (Hk _ _ Hi) as [-> _].
Qed.

Section Written.
Context (t t1 t2 : gmap Z TopologyEdge) (changes : IntervalChanges).
Let opens := List.filter (fun e => te_ID e =? 0) (ic_Upsert changes).
Let updates := List.filter (fun e => negb (te_ID e =? 0)) (ic_Upsert changes).
Let t' := fold_left insert_edge opens t2.
Context (Hk : keyed t) (Hcl : try_fold updateActiveTopologyEdge (ic_Close changes) t = Ok t1).
Context (Hup : try_fold updateActiveTopologyEdge updates t1 = Ok t2).
Context (Hci : NoDup (map te_ID (ic_Close changes))) (Hui : NoDup (map te_ID updates)).
Context (Hce : forall e, e ∈ ic_Close changes -> te_ValidTo e <> None).
Context (Hue : forall e, e ∈ ic_Upsert changes -> te_ValidTo e = None).

Lemma elem_of_updates u : u ∈ updates <-> u ∈ ic_Upsert changes /\ te_ID u <> 0.
Proof. unfold updates. rewrite elem_of_list_filter, negb_true_iff, Z.eqb_neq. tauto. Qed.

Lemma closed_apart u : u ∈ updates -> te_ID u ∉ map te_ID (ic_Close changes) /\
  exists a, a ∈ active_rows t /\ te_ID a = te_ID u.
Proof.
  intros Hu. destruct (updates_spec _ _ _ Hup Hui) as [H _]. destruct (H u Hu) as [(row & Hr & Hv) _].
  destruct (updates_spec _ _ _ Hcl Hci) as [H1 H2].
  assert (Hn : te_ID u ∉ map te_ID (ic_Close changes)).
  { intros (c & E & Hc)%list_elem_of_fmap. destruct (H1 c Hc) as [_ E']. rewrite <- E, Hr in E'. simplify_eq.
    by destruct (Hce c Hc). }
  split; [exact Hn|]. rewrite (H2 _ Hn) in Hr. exists row. destruct (Hk _ _ Hr) as [E _].
  split; [|done]. apply elem_of_active. eauto.
Qed.

(** The rows in place: closed, updated or untouched. *)
Lemma in_place i r : t2 !! i = Some r <->
  (r ∈ ic_Close changes /\ te_ID r = i) \/ (r ∈ updates /\ te_ID r = i) \/
  (t !! i = Some r /\ i ∉ map te_ID (ic_Close changes) /\ i ∉ map te_ID updates).
Proof.
  destruct (updates_spec _ _ _ Hup Hui) as [H1 H2]. destruct (updates_spec _ _ _ Hcl Hci) as [H3 H4].
  destruct (decide (i ∈ map te_ID updates)) as [Hi|Hi].
  - apply list_elem_of_fmap in Hi as (u & -> & Hu). destruct (H1 u Hu) as [_ E]. destruct (closed_apart u Hu) as [Hn _].
    rewrite E. split.
    + intros [= <-]. right. left. done.
    + intros [[Hr E']|[[Hr E']|(_ & _ & Hn')]].
      * destruct Hn. rewrite <- E'. by apply list_elem_of_fmap_2.
      * f_equal. symmetry. by apply (NoDup_map_inj te_ID updates).
      * destruct Hn'. by apply list_elem_of_fmap_2.
  - rewrite (H2 _ Hi). destruct (decide (i ∈ map te_ID (ic_Close changes))) as [Hc|Hc].
    + apply list_elem_of_fmap in Hc as (c & -> & Hc). destruct (H3 c Hc) as [_ E]. rewrite E. split.
      * intros [= <-]. left. done.
      * intros [[Hr E']|[[Hr E']|(_ & Hn' & _)]].
        -- f_equal. symmetry. by apply (NoDup_map_inj te_ID (ic_Close changes)).
        -- destruct Hi. rewrite <- E'. by apply list_elem_of_fmap_2.
        -- destruct Hn'. by apply list_elem_of_fmap_2.
    + rewrite (H4 _ Hc). split; [intros Hr; right; right; done|].
      intros [[Hr E']|[[Hr E']|(? & _)]]; [|  |done].
      * destruct Hc. rewrite <- E'. by apply list_elem_of_fmap_2.
      * destruct Hi. rewrite <- E'. by apply list_elem_of_fmap_2.
Qed.

Lemma dom_kept i : is_Some (t2 !! i) <-> is_Some (t !! i).
Proof.
  destruct (updates_spec _ _ _ Hup Hui) as [H1 H2]. destruct (updates_spec _ _ _ Hcl Hci) as [H3 H4].
  split.
  - intros [r [[Hr <-]|[[Hr <-]|(Hr & _)]]%in_place]; [| |by exists r].
    + destruct (H3 r Hr) as [(row & ? & _) _]. by exists row.
    + destruct (closed_apart r Hr) as (_ & a & (_ & i & Ha)%elem_of_active & E). destruct (Hk _ _ Ha) as [E' _].
      exists a. by rewrite <- E, E'.
  - intros [r Hr]. destruct (decide (i ∈ map te_ID updates)) as [Hi|Hi].
    + apply list_elem_of_fmap in Hi as (u & -> & Hu). exists u. apply in_place. right. left. done.
    + destruct (decide (i ∈ map te_ID (ic_Close changes))) as [Hc|Hc].
      * apply list_elem_of_fmap in Hc as (c & -> & Hc). exists c. apply in_place. by left.
      * exists r. apply in_place. right. right. done.
Qed.

Lemma next_kept : next_id t2 = next_id t.
Proof.
  rewrite !next_id_eq. f_equal. apply Z.le_antisymm; apply max_id_le; intros i Hi; by apply dom_kept.
Qed.

Lemma written_row_lookup i r : t' !! i = Some r <->
  t2 !! i = Some r \/ exists j u, opens !! j = Some u /\ i = next_id t + Z.of_nat j /\ r = numbered (next_id t) j u.
Proof.
  destruct (inserts_spec opens t2) as (H1 & H2 & H3). rewrite next_kept in H1, H2, H3. split.
  - apply H3.
  - intros [H|(j & u & Hu & -> & ->)]; [|by apply H2]. unfold t'. rewrite H1; [done|].
    destruct (Z.lt_ge_cases i (next_id t)) as [?|Hge]; [done|].
    rewrite <- next_kept in Hge. by rewrite (next_id_fresh _ _ Hge) in H.
Qed.

Lemma written_keyed : keyed t'.
Proof.
  intros i r [[[Hr <-]|[[Hr <-]|(Hr & _)]]%in_place|(j & u & _ & -> & ->)]%written_row_lookup.
  - destruct (updates_spec _ _ _ Hcl Hci) as [H3 _]. destruct (H3 r Hr) as [(row & Hrow & _) _]. by destruct (Hk _ _ Hrow).
  - destruct (closed_apart r Hr) as (_ & a & (_ & i & Ha)%elem_of_active & E). destruct (Hk _ _ Ha). split; [done|lia].
  - by apply Hk.
  - unfold numbered. cbn [with_interval te_ID]. split; [done|]. rewrite next_id_eq. pose proof (max_id_nonneg t). lia.
Qed.

Lemma stays_spec e : stays changes e = true <-> te_ID e ∉ map te_ID (ic_Close changes).
Proof.
  unfold stays. rewrite negb_true_iff, bool_decide_eq_false, elem_of_ids, list_elem_of_fmap.
  split; intros H (x & ? & ?); apply H; eauto.
Qed.

Lemma updated_by u : u ∈ updates -> forall a, te_ID a = te_ID u -> updated changes a = u.
Proof.
  intros Hu a E. unfold updated. destruct (List.find _ _) as [v|] eqn:Ef; cbn [default].
  - apply List.find_some in Ef as [Hv Ev]. apply list_elem_of_In in Hv. bool_prop.
    change (v = u). apply (NoDup_map_inj te_ID updates); [done| |done|lia]. apply elem_of_updates. apply elem_of_updates in Hu as [_ ?].
    split; [done|lia].
  - apply elem_of_updates in Hu as [Hu _]. pose proof (List.find_none _ _ Ef u) as H. rewrite <- list_elem_of_In in H.
    specialize (H Hu). cbn beta in H. bool_prop. lia.
Qed.
Lemma updated_none a : te_ID a <> 0 -> te_ID a ∉ map te_ID updates -> updated changes a = a.
Proof.
  intros H0 Hn. unfold updated. destruct (List.find _ _) as [v|] eqn:Ef; [|done]. exfalso.
  apply List.find_some in Ef as [Hv Ev]. apply list_elem_of_In in Hv. bool_prop. apply Hn. rewrite <- Ev.
  apply list_elem_of_fmap_2, elem_of_updates. split; [done|lia].
Qed.

(** The open rows afterwards are those of [store_apply]. *)
Lemma written_active r : r ∈ active_rows t' <-> r ∈ store_apply (next_id t) (active_rows t) changes.
Proof.
  unfold store_apply. rewrite (elem_of_active t'), elem_of_app, list_elem_of_fmap, elem_of_lookup_imap.
  setoid_rewrite elem_of_list_filter. setoid_rewrite stays_spec. split.
  - intros [Hv [i [[[Hr <-]|[[Hr <-]|(Hr & Hc & Hu)]]%in_place|(j & u & Hu & -> & ->)]%written_row_lookup]].
    + by destruct (Hce r Hr).
    + left. destruct (closed_apart r Hr) as (Hn & a & Ha & E). exists a. split; [by rewrite (updated_by r Hr a E)|].
      split; [by rewrite E|done].
    + left. destruct (Hk _ _ Hr) as [E Hpos]. exists r. rewrite <- E in Hc, Hu.
      split; [symmetry; apply updated_none; [lia|done]|]. split; [done|]. apply elem_of_active. eauto.
    + right. eauto.
  - intros [(a & -> & Hst & Ha)|(j & u & -> & Hu)].
    + apply (active_lookup t) in Ha as [Hv Hl]; [|done]. destruct (Hk _ _ Hl) as [_ Hpos].
      destruct (decide (te_ID a ∈ map te_ID updates)) as [Hin|Hin].
      * apply list_elem_of_fmap in Hin as (u & E & Hu). rewrite (updated_by u Hu a E). split.
        -- apply Hue. by apply elem_of_updates in Hu as [? _].
        -- exists (te_ID u). apply written_row_lookup. left. apply in_place. right. left. done.
      * rewrite updated_none by (done || lia). split; [done|]. exists (te_ID a). apply written_row_lookup. left.
        apply in_place. right. right. done.
    + split; [|exists (next_id t + Z.of_nat j); apply written_row_lookup; right; eauto].
      apply list_elem_of_lookup_2, elem_of_list_filter in Hu as [_ Hu]. exact (Hue u Hu).
Qed.
End Written.

(** ** One transaction *)

Lemma apply_fails fault now tc sources db e db' :
  ApplyTopologyObservation fault now tc sources db = (Some e, db') -> db' = db.
Proof. unfold ApplyTopologyObservation. destruct (match prepare _ _ _ _ with Ok _ => _ | Err _ => _ end); congruence. Qed.

Definition all_edges (tc : TopologyChanges) : list TopologyEdge := (tc_Open tc ++ tc_Update tc ++ tc_Close tc)%list.

Lemma apply_writes fault now tc sources db db' :
  ApplyTopologyObservation fault now tc sources db = (None, db') ->
  (forall e, e ∈ all_edges tc -> normalizeTopologyEdge e = Ok e) ->
  exists t1 t2, try_fold updateActiveTopologyEdge (tc_Close tc) (db_edges db) = Ok t1 /\
    try_fold updateActiveTopologyEdge (tc_Update tc) t1 = Ok t2 /\
    db_edges db' = fold_left insert_edge (tc_Open tc) t2 /\
    db_devices db' = db_devices db /\ db_clients db' = db_clients db.
Proof.
  unfold ApplyTopologyObservation, prepare. intros H Hn.
  assert (Hsame : forall kind l seen s, try_fold (prepare_edge (db_devices db) kind) (imap pair l) (seen, []) = Ok s ->
            (forall e, e ∈ l -> e ∈ all_edges tc) -> snd s = l).
  { intros kind l seen s Hs Hl. rewrite (prepared_same _ _ _ _ _ Hs); [by rewrite snd_imap_pair|].
    intros ie Hie. apply Hn, Hl. rewrite <- (snd_imap_pair l). by apply (list_elem_of_fmap_2 snd). }
  destruct (try_fold (prepare_edge _ "open") _ _) as [[s1 l1]|] eqn:E1; [|done].
  apply Hsame in E1; [|intros e; unfold all_edges; rewrite !elem_of_app; tauto]. cbn [snd] in E1. subst l1.
  destruct (try_fold (prepare_edge _ "update") _ _) as [[s2 l2]|] eqn:E2; [|done].
  apply Hsame in E2; [|intros e; unfold all_edges; rewrite !elem_of_app; tauto]. cbn [snd] in E2. subst l2.
  destruct (try_fold (prepare_edge _ "close") _ _) as [[s3 l3]|] eqn:E3; [|done].
  apply Hsame in E3; [|intros e; unfold all_edges; rewrite !elem_of_app; tauto]. cbn [snd] in E3. subst l3.
  destruct (try_fold (normalize_source now) _ _) as [[s4 l4]|]; [|done].
  destruct (try_fold replace_device _ _); [|done]. unfold write_observation in H.
  destruct (try_fold updateActiveTopologyEdge (tc_Close tc) _) as [t1|] eqn:Ec; [|done].
  destruct (try_fold updateActiveTopologyEdge (tc_Update tc) _) as [t2|] eqn:Eu; [|done]. cbv zeta in H.
  destruct (try_fold (replace_states _) _ _); [|done]. destruct (try_fold (upsert_state _) _ _); [|done].
  destruct fault; [done|]. injection H as <-. exists t1, t2. split_and!; [done|exact Eu|done..].
Qed.

(** ** Source states *)

Definition source_ok (devices : gmap Z Device) (s : TopologySourceObservation) : Prop :=
  0 < so_DeviceID s /\ is_Some (devices !! so_DeviceID s) /\ so_Source s <> "" /\ TrimSpace (so_Source s) = so_Source s /\
  known_state (so_State s) = true /\ 0 < so_ObservedAt s.
Definition source_id (s : TopologySourceObservation) : Z * string := (so_DeviceID s, so_Source s).

Lemma normalize_source_same devices now s : source_ok devices s -> normalizeTopologySourceState now s = Ok s.
Proof.
  intros (H1 & _ & H2 & H3 & H4 & H5). unfold normalizeTopologySourceState.
  rewrite (proj2 (Z.leb_gt _ _)) by lia. rewrite (proj2 (String.eqb_neq _ _)) by done. rewrite H3, String.eqb_refl, H4.
  cbn [negb orb]. rewrite (proj2 (Z.eqb_neq _ _)) by lia. rewrite (proj2 (Z.ltb_ge _ _)) by lia. by destruct s.
Qed.

Lemma sources_accepted devices now ios : forall seen d, (forall io, io ∈ ios -> source_ok devices (snd io)) ->
  NoDup (map source_id (map snd ios)) -> (forall io, io ∈ ios -> source_id (snd io) ∉ seen) ->
  exists seen', try_fold (normalize_source now) ios (seen, d) = Ok (seen', (d ++ map snd ios)%list).
Proof.
  induction ios as [|[i s] ios IH]; intros seen d Hs Hn Hd.
  - exists seen. by rewrite app_nil_r.
  - cbn [map snd] in Hn. apply NoDup_cons in Hn as [Hx Hn]. cbn [try_fold]. unfold normalize_source at 1. cbn [snd].
    rewrite (normalize_source_same devices) by (apply (Hs (i, s)); left).
    rewrite bool_decide_eq_false_2 by (apply (Hd (i, s)); left).
    destruct (IH ({[(so_DeviceID s, so_Source s)]} ∪ seen) (d ++ [s])%list) as [seen' E].
    + intros io Hio. apply Hs. by right.
    + exact Hn.
    + intros io Hio. rewrite not_elem_of_union, not_elem_of_singleton. split; [|apply Hd; by right].
      intros E. apply Hx. change (so_DeviceID s, so_Source s) with (source_id s) in E. rewrite <- E, map_map.
      by apply (list_elem_of_fmap_2 (fun x => source_id (snd x))).
    + exists seen'. rewrite E. by rewrite <- app_assoc.
Qed.

Lemma upserts_accepted devices l : forall t, (forall s, s ∈ l -> is_Some (devices !! so_DeviceID s)) ->
  exists t', try_fold (upsert_state devices) l t = Ok t'.
Proof.
  induction l as [|s l IH]; intros t Hl; [by eexists|]. cbn [try_fold]. unfold upsert_state at 1.
  destruct (Hl s) as [d ->]; [left|]. apply IH. intros x Hx. apply Hl. by right.
Qed.

Lemma replaced_once l : forall g : gset Z, (forall id, id ∈ l -> 0 < id /\ id ∉ g) -> NoDup l ->
  exists g', try_fold replace_device l g = Ok g'.
Proof.
  induction l as [|id l IH]; intros g Hg Hn; [by eexists|]. apply NoDup_cons in Hn as [Hx Hn]. cbn [try_fold].
  unfold replace_device at 1. destruct (Hg id) as [Hpos Hni]; [left|]. rewrite (proj2 (Z.leb_gt _ _)) by lia.
  rewrite bool_decide_eq_false_2 by done. cbn [orb]. apply IH; [|done]. intros j Hj. split; [apply Hg; by right|].
  rewrite not_elem_of_union, not_elem_of_singleton. split; [congruence|]. apply Hg. by right.
Qed.

Lemma states_replaced sources l : forall t, (forall id, id ∈ l -> exists s, s ∈ sources /\ so_DeviceID s = id) ->
  exists t', try_fold (replace_states sources) l t = Ok t'.
Proof.
  induction l as [|id l IH]; intros t Ht; [by eexists|]. cbn [try_fold]. unfold replace_states at 1.
  destruct (Ht id) as (s & Hs & E); [left|].
  destruct (List.filter _ sources) as [|x k] eqn:Ef; [|apply IH; intros j Hj; apply Ht; by right].
  assert (Hin : s ∈ List.filter (fun s => so_DeviceID s =? id) sources)
    by (apply elem_of_list_filter; split; [by apply Z.eqb_eq|done]).
  rewrite Ef in Hin. by apply elem_of_nil in Hin.
Qed.

(** The rows of one kind are as [ApplyTopologyObservation] requires. *)
Definition rows_fit (devices : gmap Z Device) (kind : string) (l : list TopologyEdge) : Prop :=
  forall e, e ∈ l -> fits devices kind e.

Lemma apply_accepts now tc sources db :
  rows_fit (db_devices db) "open" (tc_Open tc) -> rows_fit (db_devices db) "update" (tc_Update tc) ->
  rows_fit (db_devices db) "close" (tc_Close tc) ->
  (forall e, e ∈ tc_Open tc -> te_ID e = 0) ->
  NoDup (map te_ID (tc_Update tc ++ tc_Close tc)) ->
  (forall e, e ∈ (tc_Update tc ++ tc_Close tc)%list -> exists row, db_edges db !! te_ID e = Some row /\ te_ValidTo row = None) ->
  (forall s, s ∈ sources -> source_ok (db_devices db) s) -> NoDup (map source_id sources) ->
  (forall id, id ∈ tc_ReplaceSourcesFor tc -> 0 < id /\ exists s, s ∈ sources /\ so_DeviceID s = id) ->
  NoDup (tc_ReplaceSourcesFor tc) ->
  fst (ApplyTopologyObservation None now tc sources db) = None.
Proof.
  intros Ho Hu Hc Hid Hnd Hact Hs Hsn Hr Hrn. unfold ApplyTopologyObservation, prepare.
  rewrite map_app in Hnd. apply NoDup_app in Hnd as (Hnu & Hdisj & Hnc).
  assert (Hin : forall kind l, rows_fit (db_devices db) kind l -> forall ie, ie ∈ imap pair l -> fits (db_devices db) kind (snd ie)).
  { intros kind l Hl ie Hie. apply Hl. rewrite <- (snd_imap_pair l). by apply (list_elem_of_fmap_2 snd). }
  assert (Hsub : forall l, NoDup (map te_ID l) -> NoDup (List.filter (fun i => 0 <? i) (map te_ID (map snd (imap pair l))))).
  { intros l Hl. rewrite snd_imap_pair. by apply NoDup_filter_list. }
  destruct (prepare_accepts (db_devices db) "open" (imap pair (tc_Open tc)) ∅ []) as (s1 & E1 & Hs1); [by apply Hin|done| |].
  { rewrite snd_imap_pair. assert (E : List.filter (fun i => 0 <? i) (map te_ID (tc_Open tc)) = []); [|rewrite E; constructor].
    apply elem_of_nil_inv. intros i [Hi (e & -> & He)%list_elem_of_fmap]%elem_of_list_filter. rewrite (Hid e He) in Hi. done. }
  rewrite snd_imap_pair in E1, Hs1. rewrite E1.
  assert (H1 : forall i, s1 !! i = None).
  { intros i. apply Hs1; [apply lookup_empty|]. intros [Hpos (e & -> & He)%list_elem_of_fmap]. rewrite (Hid e He) in Hpos. lia. }
  destruct (prepare_accepts (db_devices db) "update" (imap pair (tc_Update tc)) s1 []) as (s2 & E2 & Hs2);
    [by apply Hin|intros; apply H1|by apply Hsub|]. rewrite snd_imap_pair in E2, Hs2. rewrite E2.
  destruct (prepare_accepts (db_devices db) "close" (imap pair (tc_Close tc)) s2 []) as (s3 & E3 & _); [by apply Hin| |by apply Hsub|].
  { intros ie Hie _. apply Hs2; [apply H1|]. intros [_ Hi]. apply (Hdisj _ Hi).
    rewrite <- (snd_imap_pair (tc_Close tc)), map_map. by apply (list_elem_of_fmap_2 (fun x => te_ID (snd x))). }
  rewrite snd_imap_pair in E3. rewrite E3. cbn [app].
  destruct (sources_accepted (db_devices db) now (imap pair sources) ∅ []) as [s4 E4].
  { intros io Hio. apply Hs. rewrite <- (snd_imap_pair sources). by apply (list_elem_of_fmap_2 snd). }
  { by rewrite snd_imap_pair. }
  { intros io _. apply not_elem_of_empty. }
  rewrite snd_imap_pair in E4. rewrite E4. cbn [app].
  destruct (replaced_once (tc_ReplaceSourcesFor tc) ∅) as [s5 E5]; [|done|].
  { intros id H. split; [by apply Hr|apply not_elem_of_empty]. }
  rewrite E5. unfold write_observation.
  destruct (updates_accepted (tc_Close tc) (db_edges db) Hnc) as [t1 E6].
  { intros e He. apply Hact, elem_of_app. by right. }
  rewrite E6. destruct (updates_accepted (tc_Update tc) t1 Hnu) as [t2 E7].
  { intros e He. destruct (updates_spec _ _ _ E6 Hnc) as [_ Hsame]. rewrite Hsame.
    - apply Hact, elem_of_app. by left.
    - apply Hdisj. by apply list_elem_of_fmap_2. }
  rewrite E7. cbv zeta.
  destruct (states_replaced sources (tc_ReplaceSourcesFor tc) (db_states db)) as [s8 E8]; [intros id H; by apply Hr|].
  rewrite E8. destruct (upserts_accepted (db_devices db) sources s8) as [s9 E9].
  { intros s H. by destruct (Hs s H) as (_ & ? & _). }
  by rewrite E9.
Qed.
