(* ===== verification/TopologyContent.v ===== *)
(** * What inferred edges say

    Every edge [Infer] answers with is one the store accepts: nodes that name
    canonical addresses, a parent device that is the node of its inventory
    address, and a medium, a confidence, evidence and ambiguities that are not
    blank. *)

From Stdlib Require Import ZArith Lia Ascii String.
From stdpp Require Import base gmap list strings sorting.
From S2P Require Import Prelude GoStr GoFmt NetIP F64 Topology TopologyIntervals TopologyIntervalsSpec TopologyGraph.
From S2P Require Import TopologyInferSpec TopologyInfer TopologyDb TopologyDbSpec.

Local Open Scope string_scope.
Local Open Scope Z_scope.

(** ** Canonical addresses *)

Definition is_byte (b : Z) : bool := (0 <=? b) && (b <? 256).

Definition hex2_ok (b : Z) : bool :=
  match hex_digits 2 b with
  | [x; y] => bool_decide (byte2 x y = Some b) && bool_decide (lower_byte x = x) && bool_decide (lower_byte y = y) &&
              negb (Ascii.eqb x (chr 0)) && negb (Ascii.eqb y (chr 0))
  | _ => false
  end.

Lemma hex2 b : is_byte b = true ->
  exists x y, hex_digits 2 b = [x; y] /\ (byte2 x y = Some b /\ x <> chr 0 /\ y <> chr 0) /\ lower_byte x = x /\ lower_byte y = y.
Proof.
  intros Hb. assert (Hall : forallb hex2_ok (seqZ 0 256) = true) by (vm_compute; reflexivity).
  rewrite forallb_forall in Hall. assert (H : hex2_ok b = true).
  { apply Hall, list_elem_of_In, elem_of_seqZ. unfold is_byte in Hb. bool_prop. lia. }
  unfold hex2_ok in H. destruct (hex_digits 2 b) as [|x [|y [|]]]; [done..| |done]. exists x, y.
  rewrite !andb_true_iff, !bool_decide_eq_true, !negb_true_iff, !Ascii.eqb_neq in H. tauto.
Qed.

Lemma hex_value_range c x : NetIP.hex_value c = Some x -> 0 <= x < 16.
Proof.
  unfold NetIP.hex_value, is_digit, in_range. intros Hx.
  destruct ((48 <=? _) && _) eqn:E1; [injection Hx as <-; apply andb_true_iff in E1 as [?%Z.leb_le ?%Z.leb_le]; lia|].
  destruct ((97 <=? _) && _) eqn:E2; [injection Hx as <-; apply andb_true_iff in E2 as [?%Z.leb_le ?%Z.leb_le]; lia|].
  destruct ((65 <=? _) && _) eqn:E3; [injection Hx as <-; apply andb_true_iff in E3 as [?%Z.leb_le ?%Z.leb_le]; lia|done].
Qed.
Lemma byte2_range a b x : byte2 a b = Some x -> is_byte x = true.
Proof.
  unfold byte2. destruct (NetIP.hex_value a) eqn:Ea; [|done]. destruct (NetIP.hex_value b) eqn:Eb; [|done].
  intros [= <-]. apply hex_value_range in Ea, Eb. unfold is_byte. bool_goal; lia.
Qed.

Lemma mac_bytes_spec sep xs : forall l, mac_bytes sep l = Some xs ->
  Forall (fun b => is_byte b = true) xs /\ S (length l) = (3 * length xs)%nat.
Proof.
  induction xs as [|x xs IH]; intros l H.
  - destruct l as [|a [|b [|s l]]]; cbn [mac_bytes] in H; [done..| |].
    + by destruct (byte2 a b).
    + destruct (Ascii.eqb s sep); [|done]. destruct (byte2 a b); [|done]. by destruct (mac_bytes sep l).
  - destruct l as [|a [|b [|s l]]]; cbn [mac_bytes] in H; [done..| |].
    + destruct (byte2 a b) eqn:E; [|done]. simpl in H. simplify_eq. split; [|done].
      constructor; [by eapply byte2_range|constructor].
    + destruct (Ascii.eqb s sep); [|done]. destruct (byte2 a b) eqn:E; [|done].
      destruct (mac_bytes sep l) eqn:El; [|done]. simplify_eq. destruct (IH _ El) as [H1 H2]. split.
      * constructor; [by eapply byte2_range|done].
      * cbn [length]. lia.
Qed.

Lemma mac_words_spec n : forall xs l, (length l <= n)%nat -> mac_words l = Some xs ->
  Forall (fun b => is_byte b = true) xs /\ (2 * S (length l) = 5 * length xs)%nat.
Proof.
  induction n as [|n IH]; intros xs l Hn H; [destruct l; [done|cbn in Hn; lia]|].
  destruct l as [|a [|b [|c [|d [|s l]]]]]; cbn [mac_words] in H; [done..| |].
  - destruct (byte2 a b) eqn:E1; [|done]. destruct (byte2 c d) eqn:E2; [|done]. injection H as <-. split; [|reflexivity].
    constructor; [by apply (byte2_range a b)|constructor; [by apply (byte2_range c d)|constructor]].
  - destruct (Ascii.eqb s "."); [|done]. destruct (byte2 a b) eqn:E1; [|done]. destruct (byte2 c d) eqn:E2; [|done].
    destruct (mac_words l) as [ys|] eqn:E3; [|done]. injection H as <-. destruct (IH ys l) as [H1 H2]; [cbn in Hn; lia|done|].
    split; [|cbn [length]; lia].
    constructor; [by apply (byte2_range a b)|constructor; [by apply (byte2_range c d)|exact H1]].
Qed.

Lemma ParseMAC6_bytes s bs : ParseMAC6 s = Some bs -> Forall (fun b => is_byte b = true) bs /\ length bs = 6%nat.
Proof.
  unfold ParseMAC6. destruct (nth_error _ 2) as [c|]; [|done].
  destruct (Ascii.eqb c ":" || Ascii.eqb c "-").
  - destruct (length (chars s) =? 17)%nat eqn:El; [|done]. apply Nat.eqb_eq in El. intros [H1 H2]%mac_bytes_spec.
    split; [done|lia].
  - destruct (bool_decide _); [|done]. cbn [andb]. destruct (length (chars s) =? 14)%nat eqn:El; [|done].
    apply Nat.eqb_eq in El. intros H. apply (mac_words_spec 14) in H as [H1 H2]; [|lia]. split; [done|lia].
Qed.

(** The printed form is lower case, parses to the same address and holds no
    zero byte. *)
Lemma mac_printed bs : Forall (fun b => is_byte b = true) bs -> length bs = 6%nat ->
  ToLower (mac_String bs) = mac_String bs /\ ParseMAC6 (mac_String bs) = Some bs /\ chr 0 ∉ chars (mac_String bs).
Proof.
  intros Hb Hl. destruct bs as [|a [|b [|c [|d [|e [|f [|]]]]]]]; try done.
  repeat match goal with H : Forall _ (_ :: _) |- _ => apply Forall_cons in H as [? H] end.
  destruct (hex2 a) as (a1 & a2 & Ea & (Pa & ?) & La1 & La2); [done|]. destruct (hex2 b) as (b1 & b2 & Eb & (Pb & ?) & Lb1 & Lb2); [done|].
  destruct (hex2 c) as (c1 & c2 & Ec & (Pc & ?) & Lc1 & Lc2); [done|]. destruct (hex2 d) as (d1 & d2 & Ed & (Pd & ?) & Ld1 & Ld2); [done|].
  destruct (hex2 e) as (e1 & e2 & Ee & (Pe & ?) & Le1 & Le2); [done|]. destruct (hex2 f) as (f1 & f2 & Ef & (Pf & ?) & Lf1 & Lf2); [done|].
  unfold mac_String. cbn [map]. rewrite Ea, Eb, Ec, Ed, Ee, Ef. split_and!.
  - cbv [ToLower str_map of_chars string_of_list_ascii Join String.append]. rewrite La1, La2, Lb1, Lb2, Lc1, Lc2, Ld1, Ld2, Le1, Le2, Lf1, Lf2. reflexivity.
  - cbv [ParseMAC6 of_chars string_of_list_ascii Join String.append chars list_ascii_of_string nth_error length Ascii.eqb
         Bool.eqb orb Nat.eqb mac_bytes]. by rewrite Pa, Pb, Pc, Pd, Pe, Pf.
  - cbv [of_chars string_of_list_ascii Join String.append chars list_ascii_of_string].
    assert (chr 0 <> ":"%char) by done. pose proof (not_elem_of_nil (chr 0)). rewrite !not_elem_of_cons.
    intuition congruence.
Qed.

Lemma canonical_same raw mac : canonicalMAC raw = Ok mac -> store_canonicalMAC mac = Ok mac.
Proof.
  unfold canonicalMAC, store_canonicalMAC. destruct (ParseMAC6 raw) as [bs|] eqn:E; [|done]. intros [= <-].
  apply ParseMAC6_bytes in E as [Hb Hl]. destruct (mac_printed bs Hb Hl) as (-> & E & _). rewrite E.
  by destruct (mac_printed bs Hb Hl) as [-> _].
Qed.
Lemma canonical_store raw mac : canonicalMAC raw = Ok mac -> store_canonicalMAC raw = Ok mac.
Proof. unfold canonicalMAC, store_canonicalMAC. by destruct (ParseMAC6 raw). Qed.
Lemma canonical_nonempty raw mac : canonicalMAC raw = Ok mac -> mac <> "".
Proof. intros H%canonical_same ->. done. Qed.

(** ** Text that is not blank *)

Lemma strip_prefix_keeps p : forall l r c, strip_prefix p l = Some r -> c ∉ p -> c ∈ l -> c ∈ r.
Proof.
  induction p as [|a p IH]; intros l r c H Hp Hl; cbn [strip_prefix] in H; [by simplify_eq|].
  destruct l as [|b l]; [done|]. destruct (Ascii.eqb_spec a b) as [<-|]; [|done].
  apply not_elem_of_cons in Hp as [Hne Hp]. apply elem_of_cons in Hl as [?|Hl]; [done|]. by apply (IH l).
Qed.
Lemma strip_any_keeps encs l r c : strip_any encs l = Some r -> (forall e, e ∈ encs -> c ∉ e) -> c ∈ l -> c ∈ r.
Proof.
  induction encs as [|e encs IH]; intros H He Hl; cbn [strip_any] in H; [done|].
  destruct (strip_prefix e l) as [r'|] eqn:E.
  - simplify_eq. eapply strip_prefix_keeps; [done| |done]. apply He. left.
  - apply IH; [done| |done]. intros x Hx. apply He. by right.
Qed.
Lemma trim_left_keeps encs n : forall l c, (forall e, e ∈ encs -> c ∉ e) -> c ∈ l -> c ∈ trim_left_fuel encs n l.
Proof.
  induction n as [|n IH]; intros l c He Hl; [done|]. cbn [trim_left_fuel].
  destruct (strip_any encs l) as [r|] eqn:E; [|done]. apply IH; [done|]. by eapply strip_any_keeps.
Qed.

Lemma clean_no_space c : clean_char c = true -> (forall e, e ∈ space_encodings -> c ∉ e) /\
  forall e, e ∈ map (@rev ascii) space_encodings -> c ∉ e.
Proof.
  intros Hc. assert (Hall : forallb (fun e => forallb (fun d => negb (clean_char d)) e) space_encodings = true)
    by (vm_compute; reflexivity).
  rewrite forallb_forall in Hall.
  assert (H : forall e, e ∈ space_encodings -> c ∉ e).
  { intros e He Hin. apply list_elem_of_In, Hall in He. rewrite forallb_forall in He.
    apply list_elem_of_In, He in Hin. by rewrite Hc in Hin. }
  split; [done|]. intros e He Hin. apply list_elem_of_fmap in He. destruct He as (x & -> & Hx). apply (H x Hx).
  rewrite list_elem_of_In, <- in_rev, <- list_elem_of_In in Hin. done.
Qed.

(** A printable byte survives trimming. *)
Lemma not_blank s c : clean_char c = true -> c ∈ chars s -> blank s = false.
Proof.
  intros Hc Hin. destruct (clean_no_space c Hc) as [H1 H2]. unfold blank, TrimSpace. apply String.eqb_neq. intros E.
  assert (Ht : c ∈ trim_chars (chars s)).
  { unfold trim_chars, trim_left. cbv zeta. rewrite list_elem_of_In, <- in_rev, <- list_elem_of_In.
    apply trim_left_keeps; [done|]. rewrite list_elem_of_In, <- in_rev, <- list_elem_of_In. by apply trim_left_keeps. }
  destruct (trim_chars (chars s)); [by apply elem_of_nil in Ht|done].
Qed.

Lemma not_blank_head c s : clean_char c = true -> blank (String c s) = false.
Proof. intros Hc. apply (not_blank _ c Hc). left. Qed.

(** ** Nodes *)

Lemma valid_node kind raw mac : canonicalMAC raw = Ok mac -> kind = "device" \/ kind = "client" \/ kind = "mac" ->
  validTopologyNode (kind ++ ":" ++ mac) = true.
Proof.
  intros Hm Hk. unfold validTopologyNode. rewrite (proj2 (String.eqb_neq _ _)) by (destruct Hk as [-> | [-> | ->]]; done).
  assert (Ec : Cut (kind ++ ":" ++ mac) ":"%char = Some (kind, mac)) by (destruct Hk as [-> | [-> | ->]]; reflexivity).
  rewrite Ec, (proj2 (String.eqb_neq mac "")) by (by eapply canonical_nonempty). cbn [negb andb].
  unfold canonical_mac. rewrite (canonical_same _ _ Hm), String.eqb_refl.
  by destruct Hk as [-> | [-> | ->]].
Qed.

(** The node of a device is that of its inventory address. *)
Definition device_node (devices : list InventoryDevice) (d : Z) (node : string) : Prop :=
  0 < d /\ exists v mac, v ∈ devices /\ iv_ID v = d /\ canonicalMAC (iv_PrimaryMAC v) = Ok mac /\ node = deviceNode mac.

(** Every alias leads to the nodes of devices. *)
Definition aliases_ok (devices : list InventoryDevice) (m : gmap string (gset string)) : Prop :=
  forall mac X node, m !! mac = Some X -> node ∈ X -> exists d, device_node devices d node.

Lemma aliases_added devices d node m raws m' : device_node devices d node -> aliases_ok devices m ->
  try_fold (add_alias node) raws m = Ok m' -> aliases_ok devices m'.
Proof.
  intros Hd. revert m. induction raws as [|raw raws IH]; intros m Hm H; cbn [try_fold] in H; [by simplify_eq|].
  destruct (add_alias node m raw) as [m1|] eqn:E; [|done]. apply (IH m1); [|done]. unfold add_alias in E.
  destruct (String.eqb raw ""); [by simplify_eq|]. destruct (canonicalMAC raw) as [mac|]; [|done]. injection E as <-.
  intros mac' X n Hl Hin. apply lookup_insert_Some in Hl as [[<- <-]|[_ Hl]]; [|by eapply Hm].
  apply elem_of_union in Hin as [Hin|Hin]; [apply elem_of_singleton in Hin as ->; by exists d|].
  destruct (m !! mac) as [Y|] eqn:Ey; [by eapply Hm|]. by apply not_elem_of_empty in Hin.
Qed.

Lemma resolver_nodes devices clients r nodes : newIdentityResolver devices clients = Ok (r, nodes) ->
  (forall d node, nodes !! d = Some node -> device_node devices d node) /\ aliases_ok devices (rs_devices r).
Proof.
  unfold newIdentityResolver. intros H. destruct (try_fold add_device devices _) as [[[m nds] owners]|] eqn:E; [|done].
  destruct (try_fold add_client _ _); [|done]. injection H as <- <-. cbn [rs_devices].
  change ((fun s : gmap string (gset string) * gmap Z string * gmap string Z =>
    (forall d node, s.1.2 !! d = Some node -> device_node devices d node) /\ aliases_ok devices s.1.1) (m, nds, owners)).
  eapply (try_fold_inv _ (fun s => (forall d node, s.1.2 !! d = Some node -> device_node devices d node) /\ aliases_ok devices s.1.1));
    [| |exact E].
  - intros [[m1 n1] o1] dev s' Hin [Hn Ha] H1. cbn [fst snd] in Hn, Ha. unfold add_device in H1.
    destruct ((iv_ID dev <=? 0) || _) eqn:Ei; [done|]. destruct (canonicalMAC (iv_PrimaryMAC dev)) as [mac|] eqn:Em; [|done].
    case_hyp H1; [done|]. destruct (try_fold (add_alias _) _ _) as [m2|] eqn:Ea; [|done]. injection H1 as <-. cbn [fst snd].
    bool_prop. assert (Hd : device_node devices (iv_ID dev) (deviceNode mac)) by (split; [done|]; by exists dev, mac).
    split; [|by eapply aliases_added]. intros d node Hl. apply lookup_insert_Some in Hl as [[<- <-]|[_ Hl]]; [done|by apply Hn].
  - cbn [fst snd]. split; [intros d node Hl; by rewrite lookup_empty in Hl|intros mac X node Hl; by rewrite lookup_empty in Hl].
Qed.

Lemma device_node_valid devices d node : device_node devices d node -> validTopologyNode node = true.
Proof. intros (_ & v & mac & _ & _ & Hm & ->). apply (valid_node "device" _ mac Hm). by left. Qed.

Lemma resolved_valid devices clients r nodes raw mac child ambiguity : newIdentityResolver devices clients = Ok (r, nodes) ->
  canonicalMAC raw = Ok mac -> resolve r mac = (child, ambiguity) ->
  validTopologyNode child = true /\ (ambiguity = "" \/ blank ambiguity = false).
Proof.
  intros Hr Hm H. destruct (resolver_nodes _ _ _ _ Hr) as [_ Ha]. unfold resolve in H.
  destruct (elements (default ∅ (rs_devices r !! mac))) as [|x [|y l]] eqn:Ee.
  - destruct (bool_decide _); injection H as <- <-; (split; [|by left]).
    + apply (valid_node "client" _ mac Hm). by right; left.
    + apply (valid_node "mac" _ mac Hm). by right; right.
  - injection H as <- <-. split; [|by left]. assert (Hx : x ∈ default ∅ (rs_devices r !! mac)).
    { apply elem_of_elements. rewrite Ee. left. }
    destruct (rs_devices r !! mac) as [X|] eqn:El; [|by apply not_elem_of_empty in Hx].
    destruct (Ha mac X x El Hx) as [d Hd]. by eapply device_node_valid.
  - injection H as <- <-. split; [apply (valid_node "mac" _ mac Hm); by right; right|right]. by apply not_blank_head.
Qed.

(** ** Candidates *)

Section Content.
Context (input : InferenceInput) (r : identityResolver) (nodes : gmap Z string).
Context (Hr : newIdentityResolver (in_Devices input) (in_Clients input) = Ok (r, nodes)).

(** The parent device, where an edge names one, is the node of its parent. *)
Definition parent_ok (e : TopologyEdge) : Prop :=
  forall d, te_ParentDeviceID e = Some d -> nodes !! d = Some (te_ParentNode e).
Definition edge_good (e : TopologyEdge) : Prop := content_ok e /\ parent_ok e /\ chr 0 ∉ chars (te_Medium e).
Definition evidence_good (ev : EdgeEvidence) : Prop := blank (ee_Kind ev) = false /\ blank (ee_Source ev) = false.
Record candidate_good (c : edgeCandidate) : Prop := MkCandidateGood {
  cg_edge : edge_good (ca_edge c);
  cg_evidence : forall ev, ev ∈ ca_evidence c -> evidence_good ev;
  cg_ambiguities : forall a, a ∈ ca_ambiguities c -> blank a = false
}.
Definition good (s : inference) : Prop := forall k c, if_candidates s !! k = Some c -> candidate_good c.

(** One observation of an edge. *)
Definition brings (edge : TopologyEdge) (ev : EdgeEvidence) (ambs : list string) : Prop :=
  edge_good edge /\ evidence_good ev /\ forall a, a ∈ ambs -> a = "" \/ blank a = false.

(** The media that inference names. *)
Definition known_medium (m : string) : bool := valid_medium m || String.eqb m "uplink".
Lemma known_medium_plain m : known_medium m = true -> blank m = false /\ chr 0 ∉ chars m.
Proof.
  unfold known_medium, valid_medium. rewrite !orb_true_iff, !String.eqb_eq.
  assert (E : forallb (fun m => negb (blank m) && bool_decide (chr 0 ∉ chars m))
                ["wired"; "wireless"; "mesh"; "unknown"; "uplink"] = true) by (vm_compute; reflexivity).
  cbn [forallb] in E. rewrite !andb_true_iff, !negb_true_iff, !bool_decide_eq_true in E.
  destruct E as (E1 & E2 & E3 & E4 & E5 & _). intros [[[[Hm|Hm]|Hm]|Hm]|Hm]; by rewrite Hm.
Qed.

Lemma with_MAC_good e mac : edge_good e -> mac = "" \/ store_canonicalMAC mac = Ok mac -> edge_good (with_ChildMAC e mac).
Proof. intros [[H1 H2 H3 H4 H5 H6 H7 H8] [Hp Hz]] Hm. split_and!; [by constructor|exact Hp|exact Hz]. Qed.
Lemma with_confidence_good e c : edge_good e -> blank c = false -> edge_good (with_Confidence e c).
Proof. intros [[H1 H2 H3 H4 H5 H6 H7 H8] [Hp Hz]] Hc. split_and!; [by constructor|exact Hp|exact Hz]. Qed.

Lemma merge_good old edge ev ambs : brings edge ev ambs -> (forall c, old = Some c -> candidate_good c) ->
  candidate_good (merge_candidate old edge ev ambs).
Proof.
  intros (He & Hev & Ha) Hold. constructor.
  - assert (Hb : edge_good (match old with Some c => if nonblank (te_ChildMAC edge) &&
            (String.eqb (te_ChildMAC (ca_edge c)) "" || String.ltb (te_ChildMAC edge) (te_ChildMAC (ca_edge c)))
         then with_ChildMAC (ca_edge c) (te_ChildMAC edge) else ca_edge c | None => edge end)).
    { destruct old as [c|]; [|done]. destruct (Hold c eq_refl) as [Hc _ _]. destruct (_ && _); [|done].
      apply with_MAC_good; [done|]. apply He. }
    destruct old as [c|]; cbn [merge_candidate ca_edge]; destruct (String.eqb _ "measured"); try exact Hb;
      by apply with_confidence_good.
  - intros x Hx. rewrite merge_evidence in Hx. apply elem_of_app in Hx as [Hx|Hx].
    + destruct old as [c|]; [|by apply elem_of_nil in Hx]. by destruct (Hold c eq_refl) as [_ ? _]; auto.
    + apply list_elem_of_singleton in Hx. by subst x.
  - intros a Hin. rewrite merge_ambiguities in Hin. apply elem_of_union in Hin as [Hin|Hin].
    + apply elem_of_list_to_set, elem_of_list_filter in Hin as [Hn Hin]. destruct (Ha a Hin) as [->|]; done.
    + destruct old as [c|]; [|by apply not_elem_of_empty in Hin]. by destruct (Hold c eq_refl) as [_ _ ?]; auto.
Qed.

Lemma add_good edge ev ambs s : brings edge ev ambs -> good s -> good (add edge ev ambs s).
Proof.
  intros Hb Hs k c Hk. destruct (decide (k = key_of edge)) as [->|Hne].
  - rewrite add_same in Hk. injection Hk as <-. apply merge_good; [done|]. intros c' Hc'. by eapply Hs.
  - rewrite add_other in Hk by done. by eapply Hs.
Qed.

(** ** Placements *)

Lemma node_of d node : nodes !! d = Some node -> 0 < d /\ validTopologyNode node = true.
Proof.
  intros Hd. destruct (resolver_nodes _ _ _ _ Hr) as [Hn _]. specialize (Hn d node Hd).
  split; [by destruct Hn|by eapply device_node_valid].
Qed.

Lemma placed_good child mac parent d port medium confidence : validTopologyNode child = true ->
  store_canonicalMAC mac = Ok mac -> nodes !! d = Some parent -> known_medium medium = true -> blank confidence = false ->
  edge_good (placed child mac parent (Some d) port medium confidence (in_At input)).
Proof.
  intros Hc Hm Hd Hmed Hconf. destruct (node_of d parent Hd) as [Hpos Hv].
  destruct (known_medium_plain _ Hmed) as [Hb Hz]. split_and!; [constructor; cbn; try done| |done].
  - by right.
  - intros d' [= <-]. done.
  - intros v Hv'. by apply elem_of_nil in Hv'.
  - intros a Ha. by apply elem_of_nil in Ha.
  - intros d' [= <-]. done.
Qed.

Lemma measured_nonblank identity : blank (measured_unless identity) = false.
Proof. unfold measured_unless. destruct (nonblank identity); vm_compute; reflexivity. Qed.

(** The medium a bridge entry is placed with is one of those the code knows. *)
Lemma port_medium_known o names states port : bridge_ports o = Ok (names, states) ->
  forall m, br_PortMedia o !! port = Some m -> known_medium m = true.
Proof.
  unfold bridge_ports. destruct (first_invalid valid_medium (br_PortMedia o)) as [[]|] eqn:E; [done|]. intros _ m Hm.
  assert (Hv : valid_medium m = true).
  { unfold first_invalid in E. pose proof (find_none _ _ E (port, m)) as H. cbn [fst snd] in H.
    specialize (H (proj1 (list_elem_of_In _ _) (proj2 (elem_of_map_to_list _ _ _) Hm))). bool_prop. done. }
  unfold known_medium. by rewrite Hv.
Qed.

Lemma entry_medium_known v child e names states : bridge_ports (bv_bridge v) = Ok (names, states) ->
  known_medium (pl_medium (place_entry v child e)) = true.
Proof.
  intros Hp. unfold place_entry. cbn [pl_medium]. destruct (nonblank _ && nonblank _) eqn:E; [|vm_compute; reflexivity].
  bool_prop. destruct (br_PortMedia (bv_bridge v) !! fe_Port e) as [m|] eqn:Em; [|done].
  by eapply port_medium_known.
Qed.

Lemma elem_of_if (b : bool) (x a : string) : a ∈ (if b then [x] else []) -> a = x.
Proof. destruct b; [by intros ->%list_elem_of_singleton|by intros ?%elem_of_nil]. Qed.

Lemma entry_ambiguities_good identity p a : (identity = "" \/ blank identity = false) ->
  a ∈ entry_ambiguities identity p -> a = "" \/ blank a = false.
Proof.
  intros Hi. unfold entry_ambiguities. rewrite !elem_of_app.
  intros [Ha|[Ha|[Ha|[Ha|Ha]]]]; [apply list_elem_of_singleton in Ha as ->; done|apply elem_of_if in Ha as ->..];
    right; vm_compute; reflexivity.
Qed.

Lemma entry_confidence_nonblank identity p : blank (entry_confidence identity p) = false.
Proof. unfold entry_confidence. destruct (_ || _); vm_compute; reflexivity. Qed.

Lemma neighbor_source_nonblank family : blank (SourceNeighbors family) = false.
Proof. apply not_blank_head. reflexivity. Qed.

Lemma good_fold_left {A} (f : inference -> A -> inference) l s :
  (forall s a, a ∈ l -> good s -> good (f s a)) -> good s -> good (fold_left f l s).
Proof.
  revert s. induction l as [|a l IH]; intros s Hf Hs; [done|]. cbn [fold_left]. apply IH; [|apply Hf; [left|done]].
  intros s' b Hb. apply Hf. by right.
Qed.

Lemma bridge_entry_good v s e s' names states : nodes !! br_DeviceID (bv_bridge v) = Some (bv_parent v) ->
  bv_resolver v = r -> bv_input v = input -> bridge_ports (bv_bridge v) = Ok (names, states) ->
  bridge_entry v s e = Ok s' -> good s -> good s'.
Proof.
  intros Hd Er Ei Hp H Hs. unfold bridge_entry in H. destruct (fe_Local e); [by simplify_eq|].
  destruct (canonicalMAC (fe_MAC e)) as [mac|] eqn:Em; [|done]. rewrite Er, Ei in H.
  destruct (resolve r mac) as [child amb] eqn:Ec. destruct (String.eqb child (bv_parent v)); [by simplify_eq|].
  injection H as <-. destruct (resolved_valid _ _ _ _ _ _ _ _ Hr Em Ec) as [Hc Ha].
  assert (Hb : forall ev, evidence_good ev -> brings (placed child mac (bv_parent v) (Some (br_DeviceID (bv_bridge v)))
             (pl_port (place_entry v child e)) (pl_medium (place_entry v child e))
             (entry_confidence amb (place_entry v child e)) (in_At input)) ev (entry_ambiguities amb (place_entry v child e))).
  { intros ev Hev. split_and!; [|done|intros a; by apply entry_ambiguities_good].
    apply placed_good; [done|by apply (canonical_same (fe_MAC e))|done|by eapply entry_medium_known|apply entry_confidence_nonblank]. }
  apply good_fold_left.
  - intros s1 n _ H1. apply add_good; [|done]. apply Hb. split; [vm_compute; reflexivity|apply neighbor_source_nonblank].
  - apply add_good; [apply Hb; split; vm_compute; reflexivity|done].
Qed.

Lemma association_good s a s' : observe_association input r nodes s a = Ok s' -> good s -> good s'.
Proof.
  unfold observe_association. intros H Hs. destruct (nodes !! as_DeviceID a) as [parent|] eqn:Ed; [|done].
  destruct (negb _); [done|]. destruct (canonicalMAC (as_MAC a)) as [mac|] eqn:Em; [|done].
  destruct (resolve r mac) as [child amb] eqn:Ec. destruct (String.eqb child parent); [by simplify_eq|]. injection H as <-.
  destruct (resolved_valid _ _ _ _ _ _ _ _ Hr Em Ec) as [Hc Ha]. apply add_good; [|done]. split_and!.
  - apply placed_good; [done|by apply (canonical_same (as_MAC a))|done|vm_compute; reflexivity|apply measured_nonblank].
  - split; vm_compute; reflexivity.
  - intros x Hx. apply list_elem_of_singleton in Hx as ->. done.
Qed.

Lemma uplink_good s u s' : observe_uplink input nodes s u = Ok s' -> good s -> good s'.
Proof.
  unfold observe_uplink. intros H Hs. destruct (nodes !! up_DeviceID u) as [child|] eqn:Ed; [|done].
  destruct (negb (up_Active u)); [by simplify_eq|]. destruct (negb _); [done|]. injection H as <-.
  destruct (node_of _ _ Ed) as [_ Hv]. apply add_good; [|done]. split_and!.
  - split_and!; [constructor; cbn; try done|done|by apply known_medium_plain].
    + by left.
    + intros v Hv'. by apply elem_of_nil in Hv'.
    + intros a Ha. by apply elem_of_nil in Ha.
  - split; vm_compute; reflexivity.
  - intros a Ha. by apply elem_of_nil in Ha.
Qed.

(** What a neighbour's announcement was read as. *)
Definition lldp_good (o : observedLLDP) : Prop := nodes !! ll_DeviceID (ol_link o) = Some (ol_parent o) /\
  validTopologyNode (ol_child o) = true /\ store_canonicalMAC (ol_mac o) = Ok (ol_mac o) /\
  (ol_identityAmbiguity o = "" \/ blank (ol_identityAmbiguity o) = false).

Lemma observe_lldp_good s link s' : observe_lldp input r nodes s link = Ok s' ->
  (forall o, o ∈ snd s -> lldp_good o) -> forall o, o ∈ snd s' -> lldp_good o.
Proof.
  unfold observe_lldp. intros H Hs. destruct (nodes !! ll_DeviceID link) as [parent|] eqn:Ed; [|done].
  destruct (negb _); [done|]. destruct (canonicalMAC (ll_RemoteMAC link)) as [mac|] eqn:Em; [|done].
  destruct (negb _); [by simplify_eq|]. destruct (resolve r mac) as [child amb] eqn:Ec.
  assert (Hnew : forall o, o ∈ (snd s ++ [MkObservedLLDP link parent child mac amb])%list -> lldp_good o).
  { intros o [Ho|Ho]%elem_of_app; [by apply Hs|]. apply list_elem_of_singleton in Ho as ->.
    destruct (resolved_valid _ _ _ _ _ _ _ _ Hr Em Ec) as [Hc Ha]. split_and!; try done. by apply (canonical_same (ll_RemoteMAC link)). }
  destruct (_ || _); injection H as <-; exact Hnew.
Qed.

Lemma place_lldp_good s o : lldp_good o -> good s -> good (place_lldp input s o).
Proof.
  intros (Hd & Hc & Hm & Ha) Hs. unfold place_lldp. destruct (String.eqb _ _); [done|]. apply add_good; [|done]. split_and!.
  - apply placed_good; [done..|vm_compute; reflexivity|apply measured_nonblank].
  - split; vm_compute; reflexivity.
  - intros x Hx. apply list_elem_of_singleton in Hx as ->. done.
Qed.

Lemma gather_good gaps s : gather input r nodes gaps = Ok s -> good s.
Proof.
  unfold gather. destruct (neighbor_index nodes _) as [nbrs|]; [|done].
  destruct (try_fold (observe_lldp input r nodes) _ _) as [[peers fresh]|] eqn:El; [|done].
  destruct (try_fold (observe_bridge _ _ _ _ _) _ _) as [s1|] eqn:Eb; [|done].
  destruct (try_fold (observe_association _ _ _) _ _) as [s2|] eqn:Ea; [|done]. intros Eu.
  assert (H1 : good s1).
  { eapply (try_fold_inv _ good); [| |exact Eb]; [|intros k c Hk; cbn [if_candidates] in Hk; by rewrite lookup_empty in Hk].
    intros s' o s'' _ Hs' Ho. unfold observe_bridge in Ho. destruct (nodes !! br_DeviceID o) as [parent|] eqn:Ed; [|done].
    destruct (negb _); [done|]. destruct (bridge_ports o) as [[names states]|] eqn:Ep; [|done].
    eapply (try_fold_inv _ good); [|exact Hs'|exact Ho]. intros x e y _ Hx Hy.
    eapply bridge_entry_good; [..|exact Hy|exact Hx]; done. }
  assert (H2 : good s2) by (eapply (try_fold_inv _ good); [|exact H1|exact Ea]; intros ? ? ? _ ? Hy; by eapply association_good).
  eapply (try_fold_inv _ good); [| |exact Eu]; [intros ? ? ? _ ? Hy; by eapply uplink_good|].
  apply good_fold_left; [|done]. intros s' o Ho. apply place_lldp_good. revert o Ho.
  change (forall o, o ∈ snd (peers, fresh) -> lldp_good o).
  eapply (try_fold_inv _ (fun x => forall o, o ∈ snd x -> lldp_good o)); [| |exact El].
  - intros x link y _ Hx Hy. by eapply observe_lldp_good.
  - intros o Ho. by apply elem_of_nil in Ho.
Qed.
End Content.

Lemma cut_chars sep s : forall a b, Cut s sep = Some (a, b) -> chars s = (chars a ++ sep :: chars b)%list.
Proof.
  induction s as [|c s IH]; intros a b H; cbn [Cut] in H; [done|]. destruct (Ascii.eqb_spec c sep) as [->|].
  - injection H as <- <-. reflexivity.
  - destruct (Cut s sep) as [[x y]|]; [|done]. injection H as <- <-.
    change (chars (String c s)) with (c :: chars s). by rewrite (IH x y eq_refl).
Qed.

(** ** Keys *)

Lemma node_no_nul node : validTopologyNode node = true -> chr 0 ∉ chars node.
Proof.
  unfold validTopologyNode. intros H. destruct (String.eqb_spec node "synthetic:internet") as [En|_].
  - rewrite En. assert (E : bool_decide (chr 0 ∈ chars "synthetic:internet") = false) by (vm_compute; reflexivity). by apply bool_decide_eq_false in E.
  - destruct (Cut node ":") as [[kind value]|] eqn:Ec; [|done].
    rewrite !andb_true_iff, !orb_true_iff, !String.eqb_eq in H. destruct H as [[_ Hk] Hv].
    rewrite (cut_chars _ _ _ _ Ec), elem_of_app, elem_of_cons. intros [Hin|[Hin|Hin]]; [|done|].
    + assert (E : forallb (fun k => bool_decide (chr 0 ∉ chars k)) ["device"; "client"; "mac"] = true) by (vm_compute; reflexivity).
      cbn [forallb] in E. rewrite !andb_true_iff, !bool_decide_eq_true in E. destruct E as (E1 & E2 & E3 & _).
      by destruct Hk as [[->| ->]| ->].
    + unfold canonical_mac, store_canonicalMAC in Hv. destruct (ParseMAC6 value) as [bs|] eqn:Ep; [|done].
      apply String.eqb_eq in Hv. apply ParseMAC6_bytes in Ep as [Hb Hl].
      destruct (mac_printed bs Hb Hl) as (E1 & _ & E2). rewrite E1 in Hv. by rewrite Hv in Hin.
Qed.

(** Equal keys name equal nodes. *)
Lemma key_nodes e e' : edgeSortKey e = edgeSortKey e' -> content_ok e -> content_ok e' ->
  te_ChildNode e = te_ChildNode e' /\ te_ParentNode e = te_ParentNode e'.
Proof.
  intros H [Hc Hp _ _ _ _ _ _] [Hc' Hp' _ _ _ _ _ _]. apply (f_equal chars) in H. unfold edgeSortKey in H.
  rewrite !chars_app in H. change (chars nul) with [chr 0] in H. cbn [app] in H.
  apply cut_inj in H as [E1 H]; [|by apply node_no_nul..]. apply cut_inj in H as [E2 _]; [|by apply node_no_nul..].
  apply (f_equal of_chars) in E1, E2. by rewrite !of_chars_chars in E1, E2.
Qed.

(** ** What is kept through a reconciliation *)

(** The parent device of an edge, where there is one, has the address its
    parent node names. *)
Definition parent_valid (devices : gmap Z Device) (e : TopologyEdge) : Prop :=
  validateTopologyParent devices (te_ParentDeviceID e) (te_ParentNode e) = Ok tt.
Definition row_good (devices : gmap Z Device) (e : TopologyEdge) : Prop := content_ok e /\ parent_valid devices e.

Lemma row_interval devices e id from to seen : row_good devices e -> row_good devices (with_interval e id from to seen).
Proof. intros [H1 H2]. split; [by apply content_interval|exact H2]. Qed.

Lemma evidence_confidence e : content_ok e -> blank (edgeEvidenceConfidence e) = false.
Proof.
  intros H. unfold edgeEvidenceConfidence. destruct (te_Ambiguities e); [|vm_compute; reflexivity].
  destruct (existsb _ _); [vm_compute; reflexivity|]. destruct (existsb _ _); [vm_compute; reflexivity|].
  destruct (_ || _); [apply H|vm_compute; reflexivity].
Qed.

Lemma not_competing_good e a : content_ok e -> a ∈ not_competing (te_Ambiguities e) -> blank a = false.
Proof. intros H [Ha _]%not_competing_spec. by apply H. Qed.

Lemma row_recompete devices G e : row_good devices e -> row_good devices (recompete G e).
Proof.
  intros [H Hp]. split; [|unfold recompete; by destruct (bool_decide _); [|destruct (existsb _ _)]]. pose proof H as [H1 H2 H3 H4 H5 H6 H7 H8].
  assert (Hn : content_ok (with_Ambiguities e (not_competing (te_Ambiguities e)))).
  { constructor; try done. intros a Ha. by apply (not_competing_good e). }
  assert (Hs : forall a l, a ∈ sort_strings l -> a ∈ l) by (intros a l; by rewrite elem_of_sort_strings).
  unfold recompete. destruct (bool_decide _); [|destruct (existsb _ _)]; constructor; try done.
  - intros a Ha. apply Hs, elem_of_app in Ha as [Ha|Ha]; [by apply (not_competing_good e)|].
    apply list_elem_of_singleton in Ha as ->. vm_compute. reflexivity.
  - by apply evidence_confidence.
  - intros a Ha. apply Hs in Ha. by apply (not_competing_good e).
  - intros a Ha. apply Hs in Ha. by apply (not_competing_good e).
Qed.

Lemma row_retain devices e prior : row_good devices e -> row_good devices prior -> edgeSortKey prior = edgeSortKey e ->
  row_good devices (withTopologySemantics e prior).
Proof.
  intros [H Hp] [H' Hp'] Hk. destruct (key_nodes _ _ Hk H' H) as [_ En]. split.
  - destruct H as [H1 H2 H3 H4 H5 H6 H7 H8], H' as [G1 G2 G3 G4 G5 G6 G7 G8]. by constructor.
  - unfold parent_valid in *. by rewrite En in Hp'.
Qed.

(** ** The edges of an inference *)

Lemma elem_of_durable l v : v ∈ map durable_evidence (sortEvidence l) -> (forall ev, ev ∈ l -> evidence_good ev) ->
  blank (ev_Kind v) = false /\ blank (ev_Source v) = false /\ forall d, ev_DeviceID v = Some d -> 0 < d.
Proof.
  intros (ev & Hin & ->)%elem_of_sorted_evidence Hl. destruct (Hl ev Hin) as [H1 H2]. split_and!; [done..|].
  intros d. unfold durable_evidence. cbn [ev_DeviceID]. destruct (Z.ltb_spec 0 (ee_DeviceID ev)); [|done]. by intros [= <-].
Qed.

Lemma final_content nodes p k c : candidate_good nodes c -> te_Evidence (ca_edge c) = [] ->
  edge_good nodes (final_edge (mark_competing p k (attach_evidence c))).
Proof.
  intros [(H & Hp & Hz) Hev Ha] He. set (e := final_edge _).
  destruct (final_fields p k (attach_evidence c)) as (Ek & Ee & _).
  assert (Es : te_ChildMAC e = te_ChildMAC (ca_edge c) /\ te_ParentDeviceID e = te_ParentDeviceID (ca_edge c)).
  { subst e. unfold final_edge, mark_competing. destruct (bool_decide _); cbv zeta; by destruct (Nat.eqb _ _). }
  destruct Es as [Em Ed]. change (key_of e = key_of (ca_edge c)) in Ek. injection Ek as E1 E2 E3 E4.
  destruct H as [H1 H2 H3 H4 H5 H6 H7 H8]. split_and!; [|unfold parent_ok; by rewrite Ed, E2|by rewrite E4].
  constructor; rewrite ?E1, ?E2, ?E4, ?Em, ?Ed; try done.
  - destruct (final_confidence p k (attach_evidence c)) as [[_ E]|[_ E]]; fold e in E; rewrite E; [done|vm_compute; reflexivity].
  - intros v Hv. change (te_Evidence e = te_Evidence (ca_edge (attach_evidence c))) in Ee. rewrite Ee in Hv.
    cbn [attach_evidence ca_edge with_Evidence with_semantics te_Evidence] in Hv. rewrite He in Hv.
    by apply (elem_of_durable (ca_evidence c)).
  - intros a Hin. apply final_ambiguities in Hin as [Hin|[-> _]]; [by apply Ha|vm_compute; reflexivity].
Qed.

Lemma chars_inj a b : chars a = chars b -> a = b.
Proof. intros E. rewrite <- (of_chars_chars a), <- (of_chars_chars b). by rewrite E. Qed.

(** The text of a key determines it, when its nodes and its medium hold no zero
    byte: whatever the port is. *)
Lemma key_text_inj k k' : key_text k = key_text k' ->
  chr 0 ∉ chars (ek_child k) -> chr 0 ∉ chars (ek_child k') -> chr 0 ∉ chars (ek_parent k) -> chr 0 ∉ chars (ek_parent k') ->
  chr 0 ∉ chars (ek_medium k) -> chr 0 ∉ chars (ek_medium k') -> k = k'.
Proof.
  intros H Hc Hc' Hp Hp' Hm Hm'. apply (f_equal chars) in H. unfold key_text in H. rewrite !chars_app in H.
  change (chars nul) with [chr 0] in H. cbn [app] in H.
  apply cut_inj in H as [E1 H]; [|done..]. apply cut_inj in H as [E2 H]; [|done..].
  apply (f_equal (@rev ascii)) in H. rewrite !rev_app_distr in H. cbn [rev] in H. rewrite <- !app_assoc in H. cbn [app] in H.
  assert (Hr : forall l, chr 0 ∉ l -> chr 0 ∉ rev l) by (intros l; by rewrite !list_elem_of_In, <- in_rev).
  apply cut_inj in H as [E4 E3]; [|by apply Hr..]. apply (f_equal (@rev ascii)) in E3, E4. rewrite !rev_involutive in E3, E4.
  destruct k, k'. f_equal; by apply chars_inj.
Qed.

Lemma NoDup_map_key {A B D} (f : A -> B) (g : A -> D) l : NoDup (map f l) ->
  (forall x y, x ∈ l -> y ∈ l -> g x = g y -> f x = f y) -> NoDup (map g l).
Proof.
  intros Hf Hg. apply (NoDup_map_sub g l l); [|by eapply NoDup_fmap_1|done]. induction l as [|x l IH]; [constructor|].
  cbn [map] in *. apply NoDup_cons in Hf as [Hx Hf]. apply NoDup_cons. split.
  - intros (y & E & Hy)%list_elem_of_fmap. apply Hx. rewrite (Hg x y); [by apply list_elem_of_fmap_2|left|by right|done].
  - apply IH; [done|]. intros a b Ha Hb. apply Hg; by right.
Qed.

Lemma inferred_edges input result : Infer input = Ok result -> exists r nodes seen,
  newIdentityResolver (in_Devices input) (in_Clients input) = Ok (r, nodes) /\
  validateSourceStates (in_Sources input) nodes = Ok seen /\ ir_Sources result = normalizedSourceStates (in_Sources input) /\
  NoDup (map edgeSortKey (ir_Edges result)) /\ 0 < in_At input /\
  forall e, e ∈ ir_Edges result -> edge_good nodes e /\
    te_ID e = 0 /\ te_ValidFrom e = in_At input /\ te_LastSeen e = in_At input /\ te_ValidTo e = None.
Proof.
  unfold Infer. intros H. destruct (observe input) as [[[[r nodes] sources] s]|] eqn:Eo; [|done]. injection H as <-.
  destruct (observe_spec _ _ _ _ _ Eo) as (Hat & Hr & Es & _). pose proof Eo as Eo'. unfold observe in Eo'.
  destruct (in_At input <=? 0); [done|]. rewrite Hr in Eo'.
  destruct (validateSourceStates _ _) as [seen|] eqn:Ev; [|done]. destruct (gather _ _ _ _) as [s'|] eqn:Eg; [|done].
  injection Eo' as _ <-. exists r, nodes, seen. cbn [ir_Edges ir_Sources].
  pose proof (gather_good input r nodes Hr _ _ Eg) as Hgood.
  assert (Hall : forall e, e ∈ finish_edges (if_candidates s') -> edge_good nodes e /\
    te_ID e = 0 /\ te_ValidFrom e = in_At input /\ te_LastSeen e = in_At input /\ te_ValidTo e = None).
  { intros e He. destruct (result_edge _ _ _ _ _ Eo e He) as (k & c & Hc & [_ (I1 & I2 & I3 & I4 & I5) _ _ _] & -> & _).
    destruct (final_fields (pruneContradictedAggregateCandidates (attach_evidence <$> if_candidates s')) k (attach_evidence c))
      as (_ & _ & F1 & F2 & F3 & F4). split; [apply final_content; [by eapply Hgood|done]|].
    exact (conj (eq_trans F1 I1) (conj (eq_trans F2 I2) (conj (eq_trans F4 I3) (eq_trans F3 I4)))). }
  split_and!; [done..| |done|exact Hall].
  pose proof (edges_keys _ _ _ _ _ Eo) as Hk. apply (NoDup_map_key key_of); [done|]. intros e e' He He' E.
  destruct (Hall e He) as [([C1 C2 _ _ _ _ _ _] & _ & C3) _], (Hall e' He') as [([D1 D2 _ _ _ _ _ _] & _ & D3) _].
  apply key_text_inj; [exact E|by apply node_no_nul..|exact C3|exact D3].
Qed.
