(* ===== verification/TopologyIngest.v ===== *)
(** * From polls to the stored topology

    internal/daemon/topology_ingest.go: every poll is turned into one inference
    over the inventory and reconciled with the active intervals of the store.
    The ingestor remembers the address aliases of every device, so that one
    device's bridge table is read with the addresses of all of them, and the time
    of the last reconciliation, which never goes back. *)

From Stdlib Require Import ZArith Lia Ascii String.
From stdpp Require Import base gmap list strings sorting.
From S2P Require Import Prelude GoStr GoFmt NetIP Topology TopologyIntervals TopologyParse TopologyDecode TopologyCollect TopologyDb.
From S2P Require SiteModel.

Local Open Scope string_scope.
Local Open Scope Z_scope.

(** ** State *)

Record topologyAliasCache := MkAliasCache {
  ac_network : list string;
  ac_wireless : list string;
  ac_networkKnown : bool;
  ac_wirelessKnown : bool;
  ac_networkState : string;
  ac_wirelessState : string;
  ac_networkReason : string;
  ac_wirelessReason : string
}.
Definition no_aliases : topologyAliasCache := MkAliasCache [] [] false false "" "" "" "".

Record topologyIngestor := MkIngestor {
  ti_aliases : gmap Z topologyAliasCache;
  ti_lastReconcileAt : Z
}.
Definition newTopologyIngestor : topologyIngestor := MkIngestor ∅ 0.

Definition alias_cache (t : topologyIngestor) (id : Z) : topologyAliasCache := default no_aliases (ti_aliases t !! id).

Definition forgetDevice (id : Z) (t : topologyIngestor) : topologyIngestor :=
  MkIngestor (delete id (ti_aliases t)) (ti_lastReconcileAt t).

(** ** Sources *)

Definition topologySource (sources : list TopologySourceObservation) (name : string) : option TopologySourceObservation :=
  List.find (fun o => String.eqb (so_Source o) name) sources.
Definition topologySourceAnswered (sources : list TopologySourceObservation) (name : string) : bool :=
  match topologySource sources name with Some o => answered_state (so_State o) | None => false end.

Definition replaceTopologySource (sources : list TopologySourceObservation) (deviceID : Z) (name state reason : string)
    (at_ : Z) : list TopologySourceObservation :=
  replace_first (of_source deviceID name) (MkSource deviceID name state reason at_) sources.

Definition source_gap (sources : list TopologySourceObservation) (name : string) : list string :=
  match topologySource sources name with
  | None => [name ++ " (not observed)"]
  | Some o =>
      if answered_state (so_State o) then []
      else let reason := TrimSpace (so_Reason o) in
           [msg "%s (%s)" [VS name; VS (if String.eqb reason "" then so_State o else reason)]]
  end.
Definition unansweredTopologySources (sources : list TopologySourceObservation) (names : list string) : list string :=
  flat_map (source_gap sources) names.

(** ** Aliases *)

Definition uniqueStrings (values : list string) : list string :=
  sort_strings (first_seen (List.filter nonblank values)).

Definition Functions_of (d : Device) : list string := SiteModel.DeviceFunctionsOf (dv_Functions d) (dv_Role d).

Definition radio_bssids (radios : list WirelessRadio) : list string :=
  List.filter nonblank (flat_map (fun r => map wi_BSSID (wr_Interfaces r)) radios).

Definition update_network (snap : Snapshot) (sources : list TopologySourceObservation) (c : topologyAliasCache)
    : topologyAliasCache :=
  match topologySource sources TopologySourceNetworkDevices with
  | None => c
  | Some o =>
      let answered := answered_state (so_State o) in
      MkAliasCache (if answered then List.filter nonblank (map nd_MAC (tp_NetworkDevices (sn_Topology snap))) else ac_network c)
        (ac_wireless c) (ac_networkKnown c || answered) (ac_wirelessKnown c) (so_State o) (ac_wirelessState c)
        (so_Reason o) (ac_wirelessReason c)
  end.
Definition update_wireless (snap : Snapshot) (sources : list TopologySourceObservation) (proven_empty : bool)
    (c : topologyAliasCache) : topologyAliasCache :=
  match topologySource sources TopologySourceWirelessDevices with
  | None => c
  | Some o =>
      let answered := answered_state (so_State o) in
      MkAliasCache (ac_network c)
        (if answered then if proven_empty then [] else radio_bssids (tp_Wireless (sn_Topology snap)) else ac_wireless c)
        (ac_networkKnown c) (ac_wirelessKnown c || answered) (ac_networkState c) (so_State o)
        (ac_networkReason c) (so_Reason o)
  end.

Definition updateAliases (snap : Snapshot) (sources : list TopologySourceObservation) (proven_empty : bool)
    (aliases : gmap Z topologyAliasCache) : gmap Z topologyAliasCache :=
  let c := update_wireless snap sources proven_empty
             (update_network snap sources (default no_aliases (aliases !! sn_DeviceID snap))) in
  <[sn_DeviceID snap := MkAliasCache (uniqueStrings (ac_network c)) (uniqueStrings (ac_wireless c)) (ac_networkKnown c)
      (ac_wirelessKnown c) (ac_networkState c) (ac_wirelessState c) (ac_networkReason c) (ac_wirelessReason c)]> aliases.

Definition aliasSourceGap (id : Z) (source state reason : string) : string :=
  let detail := TrimSpace reason in
  let detail := if String.eqb detail "" then state else detail in
  msg "device:%d/%s (%s)" [VD id; VS source; VS (if String.eqb detail "" then "not observed" else detail)].

Definition unknown_aliases (aliases : gmap Z topologyAliasCache) (d : Device) : list string :=
  let c := default no_aliases (aliases !! dv_ID d) in
  ((if ac_networkKnown c then [] else
      [aliasSourceGap (dv_ID d) TopologySourceNetworkDevices (ac_networkState c) (ac_networkReason c)]) ++
   (if ac_wirelessKnown c then [] else
      [aliasSourceGap (dv_ID d) TopologySourceWirelessDevices (ac_wirelessState c) (ac_wirelessReason c)]))%list.
Definition unknownAliasSources (aliases : gmap Z topologyAliasCache) (devices : list Device) : list string :=
  flat_map (unknown_aliases aliases) devices.

(** The reason why a device has no wireless aliases, when that is proven. *)
Definition wirelessAliasesProvenEmpty (device : Device) (snap : Snapshot) (sources : list TopologySourceObservation)
    : option string :=
  let t := sn_Topology snap in
  if SiteModel.Wireless (Functions_of device) then None
  else if sn_APsFresh snap && negb (Nat.eqb (length (sn_APs snap)) 0) then None
  else if existsb (fun r => existsb (fun i => nonblank (wi_IfName i) || nonblank (wi_BSSID i)) (wr_Interfaces r)) (tp_Wireless t)
  then None
  else if existsb nd_Wireless (tp_NetworkDevices t) then None
  else if sn_IfacesFresh snap && Nat.eqb (length (sn_Ifaces snap)) 0 then
    Some "fresh iwinfo.devices inventory contains no active wireless interfaces"
  else match topologySource sources TopologySourceNetworkDevices with
       | Some o =>
           if String.eqb (so_State o) TopologySourceObserved && negb (Nat.eqb (length (tp_NetworkDevices t)) 0) then
             Some "fresh luci-rpc.getNetworkDevices inventory contains no active wireless interfaces"
           else None
       | None => None
       end.

(** ** The devices of the store *)

(** [ORDER BY name, mac]. *)
Definition device_le (a b : Device) : Prop :=
  if String.eqb (dv_Name a) (dv_Name b) then str_le (dv_MAC a) (dv_MAC b) else str_le (dv_Name a) (dv_Name b).
#[export] Instance device_le_dec a b : Decision (device_le a b).
Proof. unfold device_le. destruct (String.eqb _ _); apply _. Defined.

Definition Devices (fault : option error) (db : DB) : res error (list Device) :=
  query fault (Ok (merge_sort device_le (map snd (map_to_list (db_devices db))))).

(** [Clients(ctx, 0, 10_000)]; the table is kept in the order of the query. *)
Definition Clients (fault : option error) (db : DB) : res error (list InventoryClient) :=
  query fault (Ok (take 10000 (db_clients db))).

(** ** record *)

(** The errors of an ingestion name what it was doing. *)
Definition ingest_error {A} (doing : string) (r : res error A) : res error A :=
  match r with Ok a => Ok a | Err e => Err (errf ("topology ingest: " ++ doing ++ ": %w") [VS e]) end.

(** The engine's errors during one ingestion, and the clock of the store. *)
Record faults := MkFaults {
  ft_devices : option error;
  ft_clients : option error;
  ft_edges : option error;
  ft_states : option error;
  ft_apply : option error;
  ft_now : Z
}.

Definition current_device (snap : Snapshot) (adopted : list Device) : option Device :=
  List.find (fun d => dv_ID d =? sn_DeviceID snap) adopted.

(** Aliases of devices that are no longer adopted are dropped. *)
Definition keep_aliases (adopted : list Device) (aliases : gmap Z topologyAliasCache) : gmap Z topologyAliasCache :=
  filter (fun kv => fst kv ∈ map dv_ID adopted) aliases.

Definition with_empty_wireless (snap : Snapshot) (reason : string) (sources : list TopologySourceObservation)
    : list TopologySourceObservation :=
  fold_left (fun l name => replaceTopologySource l (sn_DeviceID snap) name TopologySourceEmpty reason (sn_At snap))
    [SourceAssociations; TopologySourceWirelessDevices] sources.

Definition unknown_bridges (snap : Snapshot) (reason : string) (sources : list TopologySourceObservation)
    : list TopologySourceObservation :=
  replaceTopologySource sources (sn_DeviceID snap) SourceBridgeFDB TopologySourceUnknown reason (sn_At snap).

(** The bridge evidence, withheld while what is needed to read it is missing,
    and the sources that say so. *)
Definition gate_bridges (aliases : gmap Z topologyAliasCache) (adopted : list Device) (snap : Snapshot)
    (sources : list TopologySourceObservation) : list BridgeObservation * list TopologySourceObservation :=
  let bridges := tp_Bridges (sn_Topology snap) in
  let some (l : list BridgeObservation) := negb (Nat.eqb (length l) 0) in
  let gaps := unansweredTopologySources sources
                [TopologySourceNetworkDevices; TopologySourceWirelessDevices; TopologySourceBridgeSTP] in
  let '(bridges, sources) :=
    if some bridges && topologySourceAnswered sources SourceBridgeFDB && negb (Nat.eqb (length gaps) 0)
    then ([], unknown_bridges snap ("bridge evidence prerequisites unavailable: " ++ Join gaps "; ") sources)
    else (bridges, sources) in
  let gaps := unknownAliasSources aliases adopted in
  if some bridges && negb (Nat.eqb (length gaps) 0)
  then ([], unknown_bridges snap ("managed-device alias inventory is incomplete: " ++ Join gaps "; ") sources)
  else (bridges, sources).

Definition inventory_device (aliases : gmap Z topologyAliasCache) (d : Device) : InventoryDevice :=
  let c := default no_aliases (aliases !! dv_ID d) in
  MkInventoryDevice (dv_ID d) (dv_Name d) (dv_MAC d) (ac_network c ++ ac_wireless c)%list.

Definition station_associations (snap : Snapshot) : list Association :=
  match LiveStations snap with
  | None => []
  | Some stations =>
      flat_map (fun mac => map (fun iface => MkAssociation (sn_DeviceID snap) iface mac) (default [] (stations !! mac)))
        (sort_strings (elements (dom stations)))
  end.

Definition ingest_neighbors (snap : Snapshot) : gmap Z (list Neighbor) :=
  let tables := tp_Neighbors (sn_Topology snap) in
  if Nat.eqb (size tables) 0 then ∅ else {[sn_DeviceID snap := concat (map snd (map_to_list tables))]}.

Definition inference_input (aliases : gmap Z topologyAliasCache) (adopted : list Device) (clients : list InventoryClient)
    (current : Device) (snap : Snapshot) (proven_empty : bool) (bridges : list BridgeObservation)
    (sources : list TopologySourceObservation) : InferenceInput :=
  MkInput (sn_At snap) (map (inventory_device aliases) adopted) clients bridges (ingest_neighbors snap)
    (if proven_empty then [] else station_associations snap) (tp_LLDP (sn_Topology snap))
    (if SiteModel.Routes (Functions_of current) then tp_Uplinks (sn_Topology snap) else []) sources.

(** The edges of an observation that is reconciled at a later time. *)
Definition observed_at (at_ : Z) (e : TopologyEdge) : TopologyEdge := with_interval e (te_ID e) at_ (te_ValidTo e) at_.

(** The time of the reconciliation and the edges with it. *)
Definition reconcile_time (last at_ : Z) : Z := Z.max last at_.
Definition retimed (last at_ : Z) (edges : list TopologyEdge) : list TopologyEdge :=
  if at_ <? last then map (observed_at last) edges else edges.

Definition durable_changes (snap : Snapshot) (changes : IntervalChanges) : TopologyChanges :=
  MkTopologyChanges (List.filter (fun e => te_ID e =? 0) (ic_Upsert changes))
    (List.filter (fun e => negb (te_ID e =? 0)) (ic_Upsert changes)) (ic_Close changes)
    (if tp_Cycle (sn_Topology snap) then [sn_DeviceID snap] else []).

(** From the clients on: the error, and the database and the time of the last
    reconciliation afterwards. *)
Definition ingest_edges (io : faults) (last : Z) (snap : Snapshot) (build : list InventoryClient -> InferenceInput) (db : DB)
    : option error * DB * Z :=
  let run :=
    let? clients := ingest_error "clients" (Clients (ft_clients io) db) in
    let? result := ingest_error "infer" (Infer (build clients)) in
    let? active := ingest_error "active edges" (TopologyEdgesAt (ft_edges io) 0 db) in
    let at_ := reconcile_time last (sn_At snap) in
    let? changes := ingest_error "reconcile"
      (ReconcileIntervalsBySource active (retimed last (sn_At snap) (ir_Edges result)) at_ (ir_Sources result)) in
    match ApplyTopologyObservation (ft_apply io) (ft_now io) (durable_changes snap changes) (ir_Sources result) db with
    | (None, db') => Ok (db', at_)
    | (Some e, _) => ingest_error "persist observation" (Err e)
    end in
  match run with Ok (db', at_) => (None, db', at_) | Err e => (Some e, db, last) end.

Definition record (io : faults) (snap : Snapshot) (t : topologyIngestor) (db : DB)
    : option error * topologyIngestor * DB :=
  match ingest_error "devices" (Devices (ft_devices io) db) with
  | Err e => (Some e, t, db)
  | Ok devices =>
      let adopted := List.filter Adopted devices in
      match current_device snap adopted with
      | None => (None, t, db)
      | Some current =>
          let sources := tp_Sources (sn_Topology snap) in
          let proven := wirelessAliasesProvenEmpty current snap sources in
          let sources := match proven with Some reason => with_empty_wireless snap reason sources | None => sources end in
          let proven_empty := bool_decide (is_Some proven) in
          let aliases := updateAliases snap sources proven_empty (keep_aliases adopted (ti_aliases t)) in
          let '(bridges, sources) := gate_bridges aliases adopted snap sources in
          if Nat.eqb (length sources) 0 then (None, MkIngestor aliases (ti_lastReconcileAt t), db)
          else
            let build clients := inference_input aliases adopted clients current snap proven_empty bridges sources in
            let '(err, db', last) := ingest_edges io (ti_lastReconcileAt t) snap build db in
            (err, MkIngestor aliases last, db')
      end
  end.

(** ** unavailable *)

Definition poll_failed (at_ : Z) (o : TopologySourceObservation) : TopologySourceObservation :=
  MkSource (so_DeviceID o) (so_Source o) TopologySourceError "device poll failed" at_.

Definition failed_source (snap : Snapshot) (name : string) : TopologySourceObservation :=
  MkSource (sn_DeviceID snap) name TopologySourceError "device poll failed" (sn_At snap).

Definition failed_sources (snap : Snapshot) (states : list TopologySourceObservation) : list TopologySourceObservation :=
  let failed := map (poll_failed (sn_At snap)) (List.filter (fun o => so_DeviceID o =? sn_DeviceID snap) states) in
  let failed := match failed with [] => [failed_source snap SourceDefaultRoute] | _ => failed end in
  fold_left (fun l name => match topologySource l name with
                           | Some _ => l
                           | None => (l ++ [failed_source snap name])%list
                           end) [TopologySourceNetworkDevices; TopologySourceWirelessDevices] failed.

Definition unavailable (io : faults) (snap : Snapshot) (t : topologyIngestor) (db : DB)
    : option error * topologyIngestor * DB :=
  match ingest_error "source states" (TopologySourceStates (ft_states io) db) with
  | Err e => (Some e, t, db)
  | Ok states =>
      let failed := failed_sources snap states in
      match ApplyTopologyObservation (ft_apply io) (ft_now io) (MkTopologyChanges [] [] [] []) failed db with
      | (Some e, _) => (Some (errf "topology ingest: persist device failure: %w" [VS e]), t, db)
      | (None, db') => (None, MkIngestor (updateAliases snap failed false (ti_aliases t)) (ti_lastReconcileAt t), db')
      end
  end.
