(* ===== verification/TopologyEvents.v ===== *)
(** * The life of the topology tables

    What happens to the tables between the start of a controller and any later
    moment: polls recorded or failed, a device saved or deleted with its
    intervals closed, history pruned, clients seen, a device forgotten, the
    process restarted. The daemon holds the ingestor's mutex across a poll, and
    SQLite runs each transaction alone, so a history is a sequence of these
    steps.

    - internal/store/store.go: UpsertDevice, the columns of it that topology
      reads;
    - internal/daemon/adopt.go: deleteDevice, its effect on the topology tables
      (the foreign keys of the schema set parent_device_id to NULL and remove the
      device's source states);
    - internal/store/rollup.go: Prune, its statement on topology_edges. *)

From Stdlib Require Import ZArith Lia Ascii String.
From stdpp Require Import base gmap list strings sorting.
From S2P Require Import Prelude GoStr GoFmt NetIP Topology TopologyIntervals TopologyCollect TopologyDb TopologyIngest.

Local Open Scope string_scope.
Local Open Scope Z_scope.

(** [net.ParseMAC]: addresses of six, eight or twenty bytes. *)
Definition ParseMAC (s : string) : option (list Z) :=
  let l := chars s in
  match nth_error l 2 with
  | Some c =>
      if Ascii.eqb c ":" || Ascii.eqb c "-" then
        if bool_decide (length l ∈ [17; 23; 59]%nat) then mac_bytes c l else None
      else if bool_decide (nth_error l 4 = Some "."%char) && bool_decide (length l ∈ [14; 19; 49]%nat) then mac_words l
      else None
  | None => None
  end.

(** ** Devices *)

(** The id of the row that has a MAC, if one does. *)
Definition device_by_mac (mac : string) (devices : gmap Z Device) : option Z :=
  option_map fst (List.find (fun kv => String.eqb (dv_MAC (snd kv)) mac) (map_to_list devices)).
Definition next_device (devices : gmap Z Device) : Z := 1 + map_fold (fun id _ m => Z.max id m) 0 devices.

(** The upsert of a device whose role and functions parse: the row of its MAC,
    or a new one. *)
Definition save_device (d : Device) (db : DB) : DB :=
  let id := default (next_device (db_devices db)) (device_by_mac (dv_MAC d) (db_devices db)) in
  MkDB (<[id := MkDevice id (dv_MAC d) (dv_Name d) (dv_Role d) (dv_Functions d) (dv_AdoptedAt d)]> (db_devices db))
       (db_clients db) (db_edges db) (db_states db).

(** The [UPDATE] of [deleteDevice]. *)
Definition close_edge (closedAt : Z) (node : string) (id : Z) (e : TopologyEdge) : TopologyEdge :=
  if is_active e &&
     (String.eqb (te_ChildNode e) node || String.eqb (te_ParentNode e) node || bool_decide (te_ParentDeviceID e = Some id))
  then with_interval e (te_ID e) (te_ValidFrom e) (Some (if closedAt <? te_LastSeen e then te_LastSeen e else closedAt))
         (te_LastSeen e)
  else e.

(** [ON DELETE SET NULL]. *)
Definition detach_edge (id : Z) (e : TopologyEdge) : TopologyEdge :=
  if bool_decide (te_ParentDeviceID e = Some id)
  then with_semantics e (te_ChildMAC e) None (te_Confidence e) (te_Evidence e) (te_Ambiguities e)
  else e.

Definition delete_row (closedAt : Z) (node : string) (id : Z) (e : TopologyEdge) : TopologyEdge :=
  detach_edge id (close_edge closedAt node id e).

Definition deleteDevice (closedAt id : Z) (db : DB) : res error DB :=
  match db_devices db !! id with
  | None => Err (errf "daemon: load device %d identity for deletion: %w" [VD id; VS "sql: no rows in result set"])
  | Some d =>
      match ParseMAC (dv_MAC d) with
      | None => Err (errf "daemon: parse device %d identity for deletion: %w" [VD id; VS "invalid MAC address"])
      | Some bs =>
          Ok (MkDB (delete id (db_devices db)) (db_clients db)
                (delete_row closedAt ("device:" ++ mac_String bs) id <$> db_edges db)
                (filter (fun kv => fst (fst kv) <> id) (db_states db)))
      end
  end.

(** ** Retention *)

Definition prune_topology (cutoff : Z) (db : DB) : DB :=
  MkDB (db_devices db) (db_clients db)
       (filter (fun kv => ends_after cutoff (snd kv) = true) (db_edges db))
       (db_states db).

(** ** Histories *)

Inductive event :=
| Polled (io : faults) (snap : Snapshot)
| PollFailed (io : faults) (snap : Snapshot)
| Forgotten (id : Z)
| Restarted
| DeviceSaved (d : Device)
| DeviceDeleted (closedAt id : Z)
| ClientsSeen (clients : list InventoryClient)
| Pruned (cutoff : Z).

(** The ingestor, which a restart empties, and the database. *)
Definition state : Type := topologyIngestor * DB.

Definition step (s : state) (ev : event) : state :=
  let '(t, db) := s in
  match ev with
  | Polled io snap => let '(_, t', db') := record io snap t db in (t', db')
  | PollFailed io snap => let '(_, t', db') := unavailable io snap t db in (t', db')
  | Forgotten id => (forgetDevice id t, db)
  | Restarted => (newTopologyIngestor, db)
  | DeviceSaved d => (t, save_device d db)
  | DeviceDeleted closedAt id => (t, match deleteDevice closedAt id db with Ok db' => db' | Err _ => db end)
  | ClientsSeen clients => (t, MkDB (db_devices db) clients (db_edges db) (db_states db))
  | Pruned cutoff => (t, prune_topology cutoff db)
  end.

Definition history (events : list event) (s : state) : state := fold_left step events s.
