(* ===== verification/TopologyIngestSpec.v ===== *)
(** * The topology tables are never corrupted

    [sane] is what every reader of the topology tables relies on; every step of
    a history keeps it, whatever the devices report and whichever statement
    fails. And the store accepts what inference produces: a recorded poll that
    infers a graph is written, unless the engine fails or an interval of the
    store lies in the future of the poll. *)

From Stdlib Require Import ZArith Lia Ascii String.
From stdpp Require Import base gmap list strings sorting.
From S2P Require Import Prelude GoStr GoFmt NetIP Topology TopologyIntervals TopologyIntervalsSpec TopologyStore.
From S2P Require Import TopologyGraph TopologyInferSpec TopologyCollect TopologyDb TopologyDbSpec.
From S2P Require Import TopologyContent TopologyIngest TopologyEvents.

Local Open Scope string_scope.
Local Open Scope Z_scope.

(** ** Sound tables *)

Record sane (db : DB) : Prop := MkSane {
  sd_devices : forall i d, db_devices db !! i = Some d -> dv_ID d = i /\ 0 < i;
  sd_keyed : keyed (db_edges db);
  sd_rows : forall i e, db_edges db !! i = Some e -> content_ok e /\ interval_ok e;
  sd_parents : forall e, e ∈ active_rows (db_edges db) -> parent_valid (db_devices db) e;
  sd_keys : NoDup (map edgeSortKey (active_rows (db_edges db)));
  sd_one_way : one_way (active_rows (db_edges db));
  sd_states : forall d s o, db_states db !! (d, s) = Some o ->
    so_DeviceID o = d /\ so_Source o = s /\ known_state (so_State o) = true /\ is_Some (db_devices db !! d)
}.

(** A reader gets the rows that are open, or that hold at a time. *)
Lemma scan_same l : forall done, (forall e, e ∈ l -> content_ok e /\ interval_ok e) ->
  try_fold scan_edge l done = Ok (done ++ l)%list.
Proof.
  induction l as [|e l IH]; intros done Hl; [by rewrite app_nil_r|]. cbn [try_fold]. unfold scan_edge at 1.
  rewrite (proj2 (normalize_same e)) by (apply Hl; left). rewrite IH by (intros x Hx; apply Hl; by right).
  by rewrite <- app_assoc.
Qed.

Lemma read_edges db at_ : sane db -> 0 <= at_ -> topologyEdgesAt at_ (db_edges db) =
  Ok (merge_sort child_le (List.filter (if 0 <? at_ then holds_at at_ else is_active) (rows_of (db_edges db)))).
Proof.
  intros Hs Hat. unfold topologyEdgesAt. rewrite (proj2 (Z.ltb_ge _ _)) by done. unfold scanTopologyEdges.
  rewrite scan_same; [done|]. intros e He. rewrite merge_sort_Permutation in He.
  apply elem_of_list_filter in He as [_ [i Hi]%elem_of_rows]. by apply (sd_rows db Hs i).
Qed.
Lemma read_active db : sane db -> topologyEdgesAt 0 (db_edges db) = Ok (active_rows (db_edges db)).
Proof. intros Hs. by rewrite read_edges. Qed.

Lemma active_numbered db : sane db -> forall e, e ∈ active_rows (db_edges db) -> 0 < te_ID e < next_id (db_edges db).
Proof.
  intros Hs e [_ He]%active_lookup; [|apply Hs]. destruct (sd_keyed db Hs _ _ He) as [_ Hpos]. split; [done|].
  rewrite next_id_eq. apply max_id_bound in He. lia.
Qed.

(** Tables whose open rows are among those of a sane database, and whose devices
    the open rows still name. *)
Lemma sane_fewer db db' : sane db ->
  (forall i d, db_devices db' !! i = Some d -> dv_ID d = i /\ 0 < i) -> keyed (db_edges db') ->
  (forall i e, db_edges db' !! i = Some e -> content_ok e /\ interval_ok e) ->
  (forall e, e ∈ active_rows (db_edges db') -> e ∈ active_rows (db_edges db) /\ parent_valid (db_devices db') e) ->
  (forall d s o, db_states db' !! (d, s) = Some o -> db_states db !! (d, s) = Some o /\ is_Some (db_devices db' !! d)) ->
  sane db'.
Proof.
  intros [H1 H2 H3 H4 H5 H6 H7] K1 K2 K3 K4 K5. constructor; [done..| | | |].
  - intros e He. by apply K4.
  - apply (NoDup_map_sub edgeSortKey _ (active_rows (db_edges db))); [done|by eapply NoDup_fmap_1, active_ids|].
    intros e He. by apply K4.
  - intros r r' Hr Hr'. apply H6; by apply K4.
  - intros d s o Ho. destruct (K5 d s o Ho) as [Ho' Hd]. by destruct (H7 d s o Ho') as (? & ? & ? & _).
Qed.

(** ** Devices and retention *)

Lemma parent_valid_kept devices devices' e : parent_valid devices e ->
  (forall d v, te_ParentDeviceID e = Some d -> devices !! d = Some v ->
     exists v', devices' !! d = Some v' /\ dv_MAC v' = dv_MAC v) -> parent_valid devices' e.
Proof.
  unfold parent_valid, validateTopologyParent. destruct (te_ParentDeviceID e) as [d|]; [|done]. intros H Hd.
  destruct (devices !! d) as [v|] eqn:E; [|done]. destruct (Hd d v eq_refl E) as (v' & -> & ->). done.
Qed.

Lemma device_by_mac_spec mac devices id : device_by_mac mac devices = Some id ->
  exists d, devices !! id = Some d /\ dv_MAC d = mac.
Proof.
  unfold device_by_mac. destruct (List.find _ _) as [[i d]|] eqn:E; [|done]. intros [= ->].
  apply List.find_some in E as [Hin Hm]. apply list_elem_of_In, elem_of_map_to_list in Hin. bool_prop. eauto.
Qed.

Lemma save_device_sane d db : sane db -> sane (save_device d db).
Proof.
  intros Hs. pose proof Hs as [H1 H2 H3 H4 H5 H6 H7]. unfold save_device.
  set (id := default _ _). assert (Hid : 0 < id /\ forall v, db_devices db !! id = Some v -> dv_MAC v = dv_MAC d).
  { unfold id. destruct (device_by_mac _ _) as [j|] eqn:E; cbn [default from_option Datatypes.id].
    - apply device_by_mac_spec in E as (v & Hv & Hm). split; [by apply (H1 j v)|]. intros v' Hv'.
      assert (v' = v) by (apply (inj Some); by rewrite <- Hv, <- Hv'). congruence.
    - change (next_device (db_devices db)) with (1 + max_id (db_devices db)).
      pose proof (max_id_nonneg (db_devices db)). split; [lia|]. intros v Hv. apply max_id_bound in Hv. lia. }
  destruct Hid as [Hpos Hmac]. apply (sane_fewer db); cbn [db_devices db_edges db_states]; [done| |done..| |].
  - intros i v Hv. apply lookup_insert_Some in Hv as [[<- <-]|[_ Hv]]; [done|by apply H1].
  - intros e He. split; [done|]. apply (parent_valid_kept (db_devices db)); [by apply H4|]. intros j v _ Hv.
    destruct (decide (j = id)) as [->|Hne]; [|exists v; by rewrite lookup_insert_ne].
    rewrite lookup_insert_eq. eexists. split; [done|]. symmetry. by apply Hmac.
  - intros j s o Ho. split; [done|]. destruct (H7 j s o Ho) as (_ & _ & _ & Hj).
    destruct (decide (j = id)) as [->|Hne]; [rewrite lookup_insert_eq; eauto|by rewrite lookup_insert_ne].
Qed.

Lemma delete_row_fields closedAt node id e : let e' := delete_row closedAt node id e in
  te_ID e' = te_ID e /\ (content_ok e -> content_ok e') /\ (interval_ok e -> interval_ok e') /\
  (te_ValidTo e' = None -> te_ValidTo e = None /\ e' = e /\ te_ParentDeviceID e <> Some id).
Proof.
  assert (Hc : let e1 := close_edge closedAt node id e in te_ID e1 = te_ID e /\ (content_ok e -> content_ok e1) /\
    (interval_ok e -> interval_ok e1) /\ (te_ValidTo e1 = None -> e1 = e /\ te_ParentDeviceID e <> Some id)).
  { unfold close_edge. destruct (is_active e) eqn:Ea; cbn [andb].
    - destruct (_ || _ || _) eqn:Ei.
      + cbn [with_interval te_ID te_ValidTo]. split_and!; [done|apply content_interval| |done].
        intros [? _]. split; [done|]. intros to [= <-]. cbn [with_interval te_LastSeen].
        destruct (Z.ltb_spec closedAt (te_LastSeen e)); lia.
      + bool_prop. done.
    - split_and!; [done..|]. intros E. unfold is_active in Ea. by rewrite E in Ea. }
  destruct Hc as (C1 & C2 & C3 & C4). unfold delete_row, detach_edge. destruct (decide (te_ParentDeviceID (close_edge closedAt node id e) = Some id)) as [E|E].
  - rewrite bool_decide_eq_true_2 by done. cbn [with_semantics te_ID te_ValidTo]. split_and!; [done| | |].
    + intros H. destruct (C2 H) as [? ? ? ? ? ? ? ?]. by constructor.
    + intros H. exact (C3 H).
    + intros Hv. destruct (C4 Hv) as [E1 Hn]. by rewrite E1 in E.
  - rewrite bool_decide_eq_false_2 by done. split_and!; [done..|]. intros Hv. destruct (C4 Hv) as [E1 Hn]. by rewrite E1 in *.
Qed.

Lemma deleteDevice_sane closedAt id db db' : sane db -> deleteDevice closedAt id db = Ok db' -> sane db'.
Proof.
  intros Hs H. pose proof Hs as [H1 H2 H3 H4 H5 H6 H7]. unfold deleteDevice in H.
  destruct (db_devices db !! id) as [d|]; [|done]. destruct (ParseMAC (dv_MAC d)) as [bs|]; [|done]. injection H as <-.
  set (node := "device:" ++ mac_String bs). apply (sane_fewer db); cbn [db_devices db_edges db_states]; [done|..].
  - intros i v Hv. apply lookup_delete_Some in Hv as [_ Hv]. by apply H1.
  - intros i e' (e & <- & He)%lookup_fmap_Some. destruct (delete_row_fields closedAt node id e) as (E & _). rewrite E. by apply H2.
  - intros i e' (e & <- & He)%lookup_fmap_Some. destruct (delete_row_fields closedAt node id e) as (_ & E1 & E2 & _).
    destruct (H3 i e He). split; [by apply E1|by apply E2].
  - intros e' [Hv [i (e & <- & He)%lookup_fmap_Some]]%elem_of_active.
    destruct (delete_row_fields closedAt node id e) as (_ & _ & _ & E). destruct (E Hv) as (Hv' & -> & Hn).
    assert (Ha : e ∈ active_rows (db_edges db)) by (apply elem_of_active; eauto). split; [done|].
    apply (parent_valid_kept (db_devices db)); [by apply H4|]. intros j v Hj Hv''. exists v. split; [|done].
    rewrite lookup_delete_ne; [done|congruence].
  - intros j s o [Ho Hne]%map_lookup_filter_Some. split; [done|]. destruct (H7 j s o Ho) as (_ & _ & _ & Hj).
    cbn [fst] in Hne. by rewrite lookup_delete_ne.
Qed.

Lemma prune_sane cutoff db : sane db -> sane (prune_topology cutoff db).
Proof.
  intros Hs. pose proof Hs as [H1 H2 H3 H4 H5 H6 H7]. apply (sane_fewer db); cbn [prune_topology db_devices db_edges db_states]; [done..| | | |].
  - intros i e [He _]%map_lookup_filter_Some. by apply H2.
  - intros i e [He _]%map_lookup_filter_Some. by apply (H3 i).
  - intros e [Hv [i [He _]%map_lookup_filter_Some]]%elem_of_active.
    assert (Ha : e ∈ active_rows (db_edges db)) by (apply elem_of_active; eauto). split; [done|by apply H4].
  - intros d s o Ho. split; [done|]. by destruct (H7 d s o Ho) as (_ & _ & _ & ?).
Qed.

(** ** Writes *)

(** A stored state is one that was there, or is known and of a device that
    exists. *)
Definition state_good (db : DB) (t : gmap (Z * string) TopologySourceObservation) : Prop := forall d s o, t !! (d, s) = Some o ->
  db_states db !! (d, s) = Some o \/
  (so_DeviceID o = d /\ so_Source o = s /\ known_state (so_State o) = true /\ is_Some (db_devices db !! d)).

Lemma normalized_known now s s' : normalizeTopologySourceState now s = Ok s' -> known_state (so_State s') = true.
Proof.
  unfold normalizeTopologySourceState. destruct (_ || _ || _); [done|]. destruct (known_state (so_State s)) eqn:E; cbn [negb]; [|done].
  cbv zeta. destruct (_ <? 0); [done|]. intros [= <-]. exact E.
Qed.

Lemma normalized_all now l : forall s s', (forall o, o ∈ snd s -> known_state (so_State o) = true) ->
  try_fold (normalize_source now) l s = Ok s' -> forall o, o ∈ snd s' -> known_state (so_State o) = true.
Proof.
  intros s s' Hs H. eapply (try_fold_inv _ (fun s => forall o, o ∈ snd s -> known_state (so_State o) = true)); [|exact Hs|exact H].
  intros [seen d] [i o] s1 _ H1 E. unfold normalize_source in E. cbn [fst snd] in E.
  destruct (normalizeTopologySourceState now o) as [o'|] eqn:En; [|done]. destruct (bool_decide _); [done|]. injection E as <-.
  intros x [Hx|Hx]%elem_of_app; [by apply H1|]. apply list_elem_of_singleton in Hx as ->. by eapply normalized_known.
Qed.

Lemma apply_states fault now tc sources db db' : ApplyTopologyObservation fault now tc sources db = (None, db') ->
  state_good db (db_states db').
Proof.
  unfold ApplyTopologyObservation. intros H.
  destruct (prepare _ "open" _ _) as [[s1 l1]|]; [|done]. destruct (prepare _ "update" _ _) as [[s2 l2]|]; [|done].
  destruct (prepare _ "close" _ _) as [[s3 l3]|]; [|done].
  destruct (try_fold (normalize_source now) _ _) as [[s4 l4]|] eqn:E4; [|done].
  destruct (try_fold replace_device _ _); [|done]. unfold write_observation in H.
  destruct (try_fold updateActiveTopologyEdge _ (db_edges db)) as [t1|]; [|done].
  destruct (try_fold updateActiveTopologyEdge _ t1) as [t2|]; [|done]. cbv zeta in H.
  destruct (try_fold (replace_states l4) _ _) as [u1|] eqn:E5; [|done].
  destruct (try_fold (upsert_state _) l4 u1) as [u2|] eqn:E6; [|done]. destruct fault; [done|]. injection H as <-. cbn [db_states].
  assert (Hk : forall o, o ∈ l4 -> known_state (so_State o) = true).
  { apply (normalized_all now (imap pair sources) (∅, []) (s4, l4)); [|exact E4]. intros o Ho. by apply elem_of_nil in Ho. }
  assert (H1 : state_good db u1).
  { eapply (try_fold_inv _ (state_good db)); [| |exact E5]; [|by left]. intros t id t' _ Ht E. unfold replace_states in E.
    destruct (List.filter _ l4); [done|]. injection E as <-. intros d s o [Ho _]%map_lookup_filter_Some. by apply Ht. }
  eapply (try_fold_inv _ (state_good db)); [|exact H1|exact E6]. intros t x t' Hx Ht E. unfold upsert_state in E.
  destruct (db_devices db !! so_DeviceID x) eqn:Ed; [|done]. injection E as <-. intros j n o Ho.
  apply lookup_insert_Some in Ho as [[E ->]|[_ Ho]]; [|by apply Ht]. injection E as <- <-. right. split_and!; eauto.
Qed.

Lemma sane_states db db' : sane db -> db_devices db' = db_devices db -> state_good db (db_states db') ->
  forall d s o, db_states db' !! (d, s) = Some o ->
    so_DeviceID o = d /\ so_Source o = s /\ known_state (so_State o) = true /\ is_Some (db_devices db' !! d).
Proof. intros Hs -> Hg d s o Ho. destruct (Hg d s o Ho) as [H|H]; [by apply Hs|done]. Qed.

(** A write without edges. *)
Lemma apply_states_sane fault now replace sources db db' : sane db ->
  ApplyTopologyObservation fault now (MkTopologyChanges [] [] [] replace) sources db = (None, db') ->
  sane db' /\ db_edges db' = db_edges db.
Proof.
  intros Hs H. pose proof (apply_states _ _ _ _ _ _ H) as Hst.
  destruct (apply_writes _ _ _ _ _ _ H) as (t1 & t2 & E1 & E2 & E3 & E4 & E5); [intros e He; by apply elem_of_nil in He|].
  cbn [tc_Close tc_Update tc_Open try_fold fold_left] in E1, E2, E3. injection E1 as <-. injection E2 as <-.
  split; [|exact E3]. pose proof (sane_states _ _ Hs E4 Hst) as K. destruct Hs. constructor; rewrite ?E3, ?E4; try done.
  rewrite <- E4. exact K.
Qed.

(** ** One reconciled observation *)

Section Observation.
Context (db : DB) (Hs : sane db).
Notation table := (db_edges db).
Notation active := (active_rows (db_edges db)).
Context (at_ : Z) (observed : list TopologyEdge) (sources : list TopologySourceObservation) (changes : IntervalChanges).
Context (Hobs : forall o, o ∈ observed -> row_good (db_devices db) o /\ te_ID o = 0 /\ te_ValidFrom o = at_).
Context (Hat : 0 < at_).
Context (Hrun : ReconcileIntervalsBySource active observed at_ sources = Ok changes).

Lemma active_good a : a ∈ active -> row_good (db_devices db) a.
Proof.
  intros Ha. split; [|by apply Hs]. pose proof Ha as [_ [i Hi]]%elem_of_active. by apply (sd_rows db Hs i).
Qed.

Lemma observations o : o ∈ observed -> observation at_ o.
Proof. intros Ho. destruct (Hobs o Ho) as (_ & E1 & E2). unfold observation. lia. Qed.

Lemma draft_of_run : exists c, changes_by_source active observed at_ sources = Ok c /\ changes = fleet_changes at_ active c /\
  draft at_ active c /\ (forall e, e ∈ active -> live at_ e) /\ NoDup (map edgeSortKey active) /\
  NoDup (map te_ID active) /\ (forall e, e ∈ active -> 0 < te_ID e < next_id table).
Proof.
  destruct (reconcile_parts active observed at_ sources changes) as (states & c & _ & Hc & -> & Hd & Hl & Hk & _);
    [exact observations|apply active_ids, Hs|intros e He; by apply (active_numbered db Hs)|exact Hrun|].
  exists c. split_and!; try done; [apply active_ids, Hs|by apply active_numbered].
Qed.

Lemma written_good : (forall u, u ∈ ic_Upsert changes -> row_good (db_devices db) u /\ live at_ u) /\
  (forall e, e ∈ ic_Close changes -> row_good (db_devices db) e /\ exists b, live at_ b /\ e = closed_at at_ b).
Proof.
  destruct draft_of_run as (c & _ & Ec & Hd & Hl & Hk & Hi & Hn).
  assert (Hpos : forall e, e ∈ active -> 0 < te_ID e) by (intros e He; by apply Hn).
  destruct (changes_origin (row_good (db_devices db)) (row_interval _) (row_recompete _) (row_retain _)
              active observed at_ sources changes Hrun observations Hi Hpos active_good) as [Hu Hcl].
  { intros o Ho. by apply Hobs. }
  split; intros e He; (split; [auto|]).
  - rewrite Ec in He. by eapply upsert_live.
  - rewrite Ec in He. by eapply close_live.
Qed.

Lemma closed_interval b : live at_ b -> interval_ok (closed_at at_ b).
Proof.
  intros (_ & H1 & H2). split; [exact H1|]. intros to [= <-]. exact H2.
Qed.
Lemma live_interval u : live at_ u -> interval_ok u.
Proof. intros (E & H & _). split; [exact H|]. intros to Hto. congruence. Qed.

Lemma written_normal snap e : e ∈ all_edges (durable_changes snap changes) -> normalizeTopologyEdge e = Ok e.
Proof.
  destruct written_good as [Hu Hc]. unfold all_edges, durable_changes. cbn [tc_Open tc_Update tc_Close].
  rewrite !elem_of_app, !elem_of_list_filter. intros H. apply normalize_same.
  assert (Hor : e ∈ ic_Upsert changes \/ e ∈ ic_Close changes) by tauto. destruct Hor as [He|He].
  - destruct (Hu e He) as [[? _] ?]. split; [done|by apply live_interval].
  - destruct (Hc e He) as [[? _] (b & ? & E)]. split; [done|]. rewrite E. by apply closed_interval.
Qed.

(** A written row with an id continues an open row that is not closed. *)
Lemma update_origin u : u ∈ ic_Upsert changes -> te_ID u <> 0 ->
  exists a, a ∈ active /\ continues a u /\ te_ID u ∉ map te_ID (ic_Close changes).
Proof.
  destruct draft_of_run as (c & _ & Ec & Hd & Hl & Hk & Hi & Hn). intros Hin H0. rewrite Ec in Hin.
  eapply upsert_fate in Hin; [|done..|intros a Ha; by apply Hn|done].
  destruct Hin as (f & _ & [(E0 & _)|[(a & _ & _ & E0 & _)|(a & Ha & _ & Hc & _ & Hnc)]]); [done|done|]. exists a. split_and!; [done..|].
  destruct Hc as (Ei & _). rewrite Ei, Ec. intros (e & E & He)%list_elem_of_fmap. apply Hnc, elem_of_ids. eauto.
Qed.
Lemma close_origin e : e ∈ ic_Close changes -> exists a, a ∈ active /\ ends at_ a e.
Proof.
  destruct draft_of_run as (c & _ & Ec & Hd & Hl & Hk & Hi & Hn). intros He. rewrite Ec in He.
  eapply changes_close_origin; [..|exact He]; try done. intros a Ha. by apply Hn.
Qed.

Lemma close_ids_apart : NoDup (map te_ID (ic_Close changes)).
Proof. destruct draft_of_run as (c & _ & -> & Hd & Hl & Hk & Hi & Hn). by eapply close_ids. Qed.
Lemma update_ids_apart : NoDup (map te_ID (List.filter (fun e => negb (te_ID e =? 0)) (ic_Upsert changes))).
Proof.
  destruct draft_of_run as (c & _ & Ec & Hd & Hl & Hk & Hi & Hn).
  assert (Hup : NoDup (map edgeSortKey (ic_Upsert changes))) by (rewrite Ec; by eapply upsert_keys).
  apply (NoDup_map_key edgeSortKey).
  - apply (NoDup_map_sub _ _ (ic_Upsert changes)); [done|apply NoDup_filter_list; by eapply NoDup_fmap_1|].
    intros x Hx. by apply elem_of_list_filter in Hx as [_ ?].
  - intros x y [Hx0 Hx]%elem_of_list_filter [Hy0 Hy]%elem_of_list_filter E. bool_prop.
    destruct (update_origin x Hx Hx0) as (a & Ha & (Ea & Ka & _) & _), (update_origin y Hy Hy0) as (b & Hb & (Eb & Kb & _) & _).
    assert (a = b) as -> by (apply (NoDup_map_inj te_ID active); [done..|congruence]). congruence.
Qed.


Context (snap : Snapshot) (fault : option error) (now : Z) (states : list TopologySourceObservation) (db' : DB).
Context (Happly : ApplyTopologyObservation fault now (durable_changes snap changes) states db = (None, db')).

Lemma write_parts : exists c t1 t2, changes = fleet_changes at_ active c /\ draft at_ active c /\
  try_fold updateActiveTopologyEdge (ic_Close changes) table = Ok t1 /\
  try_fold updateActiveTopologyEdge (List.filter (fun e => negb (te_ID e =? 0)) (ic_Upsert changes)) t1 = Ok t2 /\
  db_edges db' = fold_left insert_edge (List.filter (fun e => te_ID e =? 0) (ic_Upsert changes)) t2 /\
  db_devices db' = db_devices db /\
  NoDup (map te_ID (ic_Close changes)) /\ NoDup (map te_ID (List.filter (fun e => negb (te_ID e =? 0)) (ic_Upsert changes))) /\
  (forall e, e ∈ ic_Close changes -> te_ValidTo e <> None) /\ (forall e, e ∈ ic_Upsert changes -> te_ValidTo e = None).
Proof.
  destruct draft_of_run as (c & _ & Ec & Hd & Hl & Hk & Hi & Hn). destruct written_good as [Hu Hc].
  destruct (apply_writes _ _ _ _ _ _ Happly (written_normal snap)) as (t1 & t2 & E1 & E2 & E3 & E4 & _).
  exists c, t1, t2. split_and!; try done.
  - apply close_ids_apart.
  - apply update_ids_apart.
  - intros e He. destruct (Hc e He) as (_ & b & _ & ->). done.
  - intros e He. by destruct (Hu e He) as [_ [? _]].
Qed.

(** Every row afterwards: closed now, continued, untouched or opened. *)
Lemma written_rows i r : db_edges db' !! i = Some r ->
  (r ∈ ic_Close changes /\ te_ID r = i) \/ (r ∈ ic_Upsert changes /\ te_ID r = i /\ te_ID r <> 0) \/
  (table !! i = Some r /\ i ∉ map te_ID (ic_Close changes)) \/
  (exists j u, u ∈ ic_Upsert changes /\ te_ID u = 0 /\ i = next_id table + Z.of_nat j /\ r = numbered (next_id table) j u).
Proof.
  destruct write_parts as (c & t1 & t2 & Ec & Hd & E1 & E2 & E3 & E4 & Hci & Hui & Hce & Hue). rewrite E3.
  intros Hr. eapply written_row_lookup in Hr; [|by apply Hs|done..]. destruct Hr as [Hr|(j & u & Hu & -> & ->)].
  - eapply in_place in Hr; [|by apply Hs|done..]. destruct Hr as [?|[[Hr <-]|(? & ? & _)]]; [tauto| |tauto].
    apply elem_of_list_filter in Hr as [H0 Hr]. bool_prop. tauto.
  - apply list_elem_of_lookup_2, elem_of_list_filter in Hu as [H0 Hu]. bool_prop. right. right. right. exists j, u. by split_and!.
Qed.

Lemma written_sane : sane db'.
Proof.
  destruct write_parts as (c & t1 & t2 & Ec & Hd & E1 & E2 & E3 & E4 & Hci & Hui & Hce & Hue).
  destruct draft_of_run as (_ & _ & _ & _ & Hl & Hk & Hi & Hn). destruct written_good as [Hu Hc].
  pose proof (sane_states _ _ Hs E4 (apply_states _ _ _ _ _ _ Happly)) as Hst.
  pose proof Hs as [S1 S2 S3 S4 S5 S6 S7].
  assert (Hact : forall r, r ∈ active_rows (db_edges db') <-> r ∈ store_apply (next_id table) active (fleet_changes at_ active c)).
  { intros r. rewrite <- Ec, E3. by apply (written_active table t1 t2 changes). }
  assert (Hkd : keyed (db_edges db')) by (rewrite E3; by apply (written_keyed table t1 t2 changes)).
  assert (Hnext : 0 < next_id table) by (rewrite next_id_eq; pose proof (max_id_nonneg table); lia).
  constructor; [by rewrite E4|exact Hkd| | | | |exact Hst].
  - intros i r Hr. apply written_rows in Hr as [[Hr _]|[(Hr & _)|[[Hr _]|(j & u & Hr & _ & _ & ->)]]].
    + destruct (Hc r Hr) as [[? _] (b & ? & ->)]. split; [done|by apply closed_interval].
    + destruct (Hu r Hr) as [[? _] ?]. split; [done|by apply live_interval].
    + by apply (S3 i).
    + destruct (Hu u Hr) as [[? _] Hlv]. split; [by apply content_interval|]. by apply live_interval in Hlv.
  - rewrite E4. intros r Hr. pose proof Hr as [Hv [i Hri]]%elem_of_active.
    apply written_rows in Hri as [[Hri _]|[(Hri & _)|[[Hri _]|(j & u & Hri & _ & _ & ->)]]].
    + by destruct (Hce r Hri).
    + by destruct (Hu r Hri) as [[_ ?] _].
    + apply S4, elem_of_active. eauto.
    + by destruct (Hu u Hri) as [[_ ?] _].
  - apply (NoDup_map_sub _ _ (store_apply (next_id table) active (fleet_changes at_ active c))).
    + by apply store_keys.
    + by eapply NoDup_fmap_1, active_ids.
    + intros r Hr. by apply Hact.
  - intros r r' Hr%Hact Hr'%Hact. by apply (rows_one_way at_ (next_id table) active c).
Qed.

End Observation.






(** ** Recording a poll *)

(** The inventory of an input is that of the database. *)
Definition inventory_of (db : DB) (input : InferenceInput) : Prop := forall v, v ∈ in_Devices input ->
  exists d, db_devices db !! iv_ID v = Some d /\ dv_MAC d = iv_PrimaryMAC v.

Lemma inventory_parent db input r nodes e : inventory_of db input ->
  newIdentityResolver (in_Devices input) (in_Clients input) = Ok (r, nodes) -> parent_ok nodes e ->
  parent_valid (db_devices db) e.
Proof.
  intros Hinv Hr Hp. unfold parent_valid, validateTopologyParent. destruct (te_ParentDeviceID e) as [d|] eqn:Ed; [|done].
  specialize (Hp d Ed). destruct (resolver_nodes _ _ _ _ Hr) as [Hn _].
  destruct (Hn d _ Hp) as (_ & v & mac & Hv & <- & Hmac & E). destruct (Hinv v Hv) as (dev & -> & ->).
  rewrite (canonical_store _ _ Hmac), E. unfold deviceNode. by rewrite String.eqb_refl.
Qed.

Lemma observed_rows db input result last : inventory_of db input -> Infer input = Ok result ->
  (forall o, o ∈ retimed last (in_At input) (ir_Edges result) ->
     row_good (db_devices db) o /\ te_ID o = 0 /\ te_ValidFrom o = reconcile_time last (in_At input)) /\
  0 < reconcile_time last (in_At input) /\ NoDup (map edgeSortKey (retimed last (in_At input) (ir_Edges result))).
Proof.
  intros Hinv Hinf. destruct (inferred_edges _ _ Hinf) as (r & nodes & seen & Hr & _ & _ & Hn & Hat & He).
  unfold retimed, reconcile_time. split_and!; [|lia|].
  - assert (Hg : forall e, e ∈ ir_Edges result -> row_good (db_devices db) e /\ te_ID e = 0 /\ te_ValidFrom e = in_At input).
    { intros e Hin. destruct (He e Hin) as ((Hc & Hp & _) & H0 & Hf & _). split_and!; [|done..]. split; [done|].
      by eapply inventory_parent. }
    destruct (Z.ltb_spec (in_At input) last) as [Hlt|Hge].
    + intros o Ho. apply list_elem_of_fmap in Ho as (e & -> & Hin). destruct (Hg e Hin) as (G1 & G2 & _).
      unfold observed_at. split_and!; [by apply row_interval|done|cbn; lia].
    + intros o Ho. destruct (Hg o Ho) as (G1 & G2 & G3). split_and!; [done..|lia].
  - destruct (in_At input <? last); [|done]. by rewrite map_map.
Qed.

Lemma ingest_sane io last snap build db err db' last' : sane db -> (forall clients, inventory_of db (build clients)) ->
  (forall clients, in_At (build clients) = sn_At snap) ->
  ingest_edges io last snap build db = (err, db', last') -> sane db'.
Proof.
  intros Hs Hinv Hat H. unfold ingest_edges, ingest_error in H. destruct (Clients _ _) as [clients|]; [|by simplify_eq].
  destruct (Infer (build clients)) as [result|] eqn:Einf; [|by simplify_eq].
  destruct (TopologyEdgesAt _ 0 db) as [l|] eqn:Ea; [|by simplify_eq].
  assert (El : l = active_rows (db_edges db)).
  { unfold TopologyEdgesAt, query in Ea. destruct (ft_edges io); [done|]. rewrite read_active in Ea by done. congruence. }
  subst l. destruct (observed_rows db (build clients) result last (Hinv clients) Einf) as (Hobs & Hpos & _).
  rewrite Hat in Hobs, Hpos. destruct (ReconcileIntervalsBySource _ _ _ _) as [changes|] eqn:Er; [|by simplify_eq].
  destruct (ApplyTopologyObservation _ _ _ _ _) as [[e|] db1] eqn:Ew; [by simplify_eq|]. simplify_eq.
  by eapply (written_sane db Hs (reconcile_time last (sn_At snap))).
Qed.

Lemma adopted_inventory aliases db io devices clients current snap proven bridges sources : sane db ->
  Devices io db = Ok devices ->
  inventory_of db (inference_input aliases (List.filter Adopted devices) clients current snap proven bridges sources).
Proof.
  intros Hs Hd v Hv. unfold Devices, query in Hd. destruct io; [done|]. injection Hd as <-.
  apply list_elem_of_fmap in Hv as (d & -> & [_ Hin]%elem_of_list_filter). rewrite merge_sort_Permutation in Hin.
  apply list_elem_of_fmap in Hin as ([i d'] & -> & Hin%elem_of_map_to_list). cbn [snd inventory_device iv_ID iv_PrimaryMAC].
  exists d'. destruct (sd_devices db Hs i d' Hin) as [-> _]. done.
Qed.

Lemma record_sane io snap t db err t' db' : sane db -> record io snap t db = (err, t', db') -> sane db'.
Proof.
  intros Hs H. unfold record, ingest_error in H. destruct (Devices (ft_devices io) db) as [devices|] eqn:Ed; [|by simplify_eq].
  destruct (current_device _ _) as [current|]; [|by simplify_eq]. cbv zeta in H.
  destruct (gate_bridges _ _ _ _) as [bridges sources]. destruct (Nat.eqb _ _); [by simplify_eq|].
  destruct (ingest_edges _ _ _ _ _) as [[e db1] last] eqn:Ei. simplify_eq.
  eapply ingest_sane; [done| | |exact Ei]; [|done]. intros clients. by eapply adopted_inventory.
Qed.

Lemma unavailable_sane io snap t db err t' db' : sane db -> unavailable io snap t db = (err, t', db') -> sane db'.
Proof.
  intros Hs H. unfold unavailable, ingest_error in H. destruct (TopologySourceStates _ _) as [states|]; [|by simplify_eq].
  destruct (ApplyTopologyObservation _ _ _ _ _) as [[e|] db1] eqn:Ew; simplify_eq; [done|].
  by destruct (apply_states_sane _ _ _ _ _ _ Hs Ew).
Qed.

Lemma step_sane s ev : sane (snd s) -> sane (snd (step s ev)).
Proof.
  destruct s as [t db]. cbn [snd]. intros Hs. destruct ev; cbn [step].
  - destruct (record io snap t db) as [[e t'] db'] eqn:E. by eapply record_sane.
  - destruct (unavailable io snap t db) as [[e t'] db'] eqn:E. by eapply unavailable_sane.
  - done.
  - done.
  - by apply save_device_sane.
  - destruct (deleteDevice closedAt id db) as [db'|] eqn:E; [by eapply deleteDevice_sane|done].
  - destruct Hs. by constructor.
  - by apply prune_sane.
Qed.

Lemma history_sane events : forall s, sane (snd s) -> sane (snd (history events s)).
Proof.
  induction events as [|ev events IH]; intros s Hs; [done|]. cbn [history fold_left]. apply IH. by apply step_sane.
Qed.

(** ** What is accepted *)





(** ** Accepted polls *)












(** ** History *)

(** The row of an id that holds at a time. *)
Definition holding (t_ : Z) (table : gmap Z TopologyEdge) (i : Z) : option TopologyEdge :=
  match table !! i with Some e => if holds_at t_ e then Some e else None | None => None end.

(** Both tables say the same of a time: the same rows, of the same edges, since
    the same moment and with the same meaning. *)
Definition same_past (t_ : Z) (before after : gmap Z TopologyEdge) : Prop := forall i,
  match holding t_ before i, holding t_ after i with
  | Some e, Some e' => continues e e'
  | None, None => True
  | _, _ => False
  end.

Lemma same_past_refl t_ table : same_past t_ table table.
Proof. intros i. destruct (holding t_ table i); [apply continues_refl|done]. Qed.

Lemma holds_open t_ e : te_ValidTo e = None -> holds_at t_ e = (te_ValidFrom e <=? t_).
Proof. intros E. unfold holds_at, ends_after. rewrite E. apply andb_true_r. Qed.

Section Past.
Context (db : DB) (Hs : sane db).
Context (at_ : Z) (observed : list TopologyEdge) (sources : list TopologySourceObservation) (changes : IntervalChanges).
Context (Hobs : forall o, o ∈ observed -> row_good (db_devices db) o /\ te_ID o = 0 /\ te_ValidFrom o = at_).
Context (Hat : 0 < at_).
Context (Hrun : ReconcileIntervalsBySource (active_rows (db_edges db)) observed at_ sources = Ok changes).
Context (snap : Snapshot) (fault : option error) (now : Z) (states : list TopologySourceObservation) (db' : DB).
Context (Happly : ApplyTopologyObservation fault now (durable_changes snap changes) states db = (None, db')).

Lemma written_past t_ : t_ < at_ -> same_past t_ (db_edges db) (db_edges db').
Proof.
  intros Ht i.
  destruct (write_parts db Hs at_ observed sources changes Hobs Hat Hrun snap fault now states db' Happly)
    as (c & t1 & t2 & Ec & Hd & E1 & E2 & E3 & E4 & Hci & Hui & Hce & Hue).
  assert (Hopen : forall a, a ∈ active_rows (db_edges db) -> db_edges db !! te_ID a = Some a /\ te_ValidTo a = None).
  { intros a [? ?]%active_lookup; [done|apply Hs]. }
  assert (Hpair : forall a r, a ∈ active_rows (db_edges db) -> continues a r -> (te_ValidTo r = None \/ te_ValidTo r = Some at_) ->
            db_edges db' !! te_ID a = Some r -> match holding t_ (db_edges db) (te_ID a), holding t_ (db_edges db') (te_ID a) with
            | Some e, Some e' => continues e e' | None, None => True | _, _ => False end).
  { intros a r Ha Hc Hto Hr. destruct (Hopen a Ha) as [Hl Hv]. unfold holding. rewrite Hl, Hr, (holds_open _ _ Hv).
    assert (E : holds_at t_ r = (te_ValidFrom a <=? t_)).
    { destruct Hc as (_ & _ & <- & _). unfold holds_at, ends_after. destruct Hto as [-> | ->]; [apply andb_true_r|].
      rewrite (proj2 (Z.ltb_lt _ _) Ht). apply andb_true_r. }
    rewrite E. by destruct (te_ValidFrom a <=? t_). }
  destruct (db_edges db' !! i) as [r|] eqn:Er.
  - pose proof Er as Hr.
    eapply written_rows in Hr; [|done|exact Hobs|exact Hat|exact Hrun|exact Happly].
    destruct Hr as [[Hr Hi]|[(Hr & Hi & H0)|[[Hr Hn]|(j & u & Hu & H0 & Hi & E)]]].
    + destruct (close_origin db Hs at_ observed sources changes Hobs Hat Hrun r Hr) as (a & Ha & Hc & Hto).
      pose proof Hc as (Ei & _). rewrite <- Hi, Ei. rewrite <- Hi, Ei in Er. apply (Hpair a r); [done..|by right|done].
    + destruct (update_origin db Hs at_ observed sources changes Hobs Hat Hrun r Hr H0) as (a & Ha & Hc & _).
      pose proof Hc as (Ei & _). rewrite <- Hi, Ei. rewrite <- Hi, Ei in Er. apply (Hpair a r); [done..|left; by apply Hue|done].
    + unfold holding. rewrite Er, Hr. destruct (holds_at t_ r); [apply continues_refl|done].
    + unfold holding. rewrite Er. rewrite next_id_fresh by lia.
      assert (Hf : te_ValidFrom r = at_).
      { rewrite E. cbn [numbered with_interval te_ValidFrom]. eapply opened_begin; [exact Hrun| |apply active_ids, Hs| |].
        - intros o Ho. by destruct (Hobs o Ho) as [_ ?].
        - intros e He. by apply (active_numbered db Hs).
        - apply elem_of_list_filter. split; [by apply Z.eqb_eq|done]. }
      unfold holds_at. by rewrite Hf, (proj2 (Z.leb_gt _ _)) by lia.
  - unfold holding. rewrite Er. destruct (db_edges db !! i) as [e|] eqn:Ee; [|done]. exfalso.
    assert (Hk : is_Some (t2 !! i)) by (eapply (dom_kept (db_edges db) t1 t2 changes); eauto; apply Hs).
    destruct Hk as [r Hr]. assert (db_edges db' !! i = Some r); [|congruence]. rewrite E3.
    apply (written_row_lookup (db_edges db) t1 t2 changes); [apply Hs|done..|by left].
Qed.
End Past.

Lemma ingest_past io last snap build db err db' last' t_ : sane db -> (forall clients, inventory_of db (build clients)) ->
  (forall clients, in_At (build clients) = sn_At snap) -> t_ < reconcile_time last (sn_At snap) ->
  ingest_edges io last snap build db = (err, db', last') -> same_past t_ (db_edges db) (db_edges db').
Proof.
  intros Hs Hinv Hat Ht H. unfold ingest_edges, ingest_error in H.
  destruct (Clients _ _) as [clients|]; [|simplify_eq; apply same_past_refl].
  destruct (Infer (build clients)) as [result|] eqn:Einf; [|simplify_eq; apply same_past_refl].
  destruct (TopologyEdgesAt _ 0 db) as [l|] eqn:Ea; [|simplify_eq; apply same_past_refl].
  assert (El : l = active_rows (db_edges db)).
  { unfold TopologyEdgesAt, query in Ea. destruct (ft_edges io); [done|]. rewrite read_active in Ea by done. congruence. }
  subst l. destruct (observed_rows db (build clients) result last (Hinv clients) Einf) as (Hobs & Hpos & _).
  rewrite Hat in Hobs, Hpos. destruct (ReconcileIntervalsBySource _ _ _ _) as [changes|] eqn:Er; [|simplify_eq; apply same_past_refl].
  destruct (ApplyTopologyObservation _ _ _ _ _) as [[e|] db1] eqn:Ew; simplify_eq; [apply same_past_refl|].
  by eapply (written_past db Hs (reconcile_time last (sn_At snap))).
Qed.


(** ** The theorems *)

(** A controller that has never run. *)
Definition first_start : state := (newTopologyIngestor, MkDB ∅ [] ∅ ∅).

Lemma no_active_rows e : e ∉ active_rows (∅ : gmap Z TopologyEdge).
Proof. intros [_ [i H]]%elem_of_active. by rewrite lookup_empty in H. Qed.

Lemma first_start_sane : sane (snd first_start).
Proof.
  constructor; cbn [first_start snd db_devices db_edges db_states].
  - intros i d H. by rewrite lookup_empty in H.
  - intros i e H. by rewrite lookup_empty in H.
  - intros i e H. by rewrite lookup_empty in H.
  - intros e He. by apply no_active_rows in He.
  - vm_compute. constructor.
  - intros r r' Hr. by apply no_active_rows in Hr.
  - intros d s o H. by rewrite lookup_empty in H.
Qed.

(** C4 (invariant): the topology tables are never corrupted. Whatever the devices
    report, whichever statements fail, and however polls, failures, restarts,
    deletions of devices, pruning and inventory changes are interleaved: every
    read of the graph, now or at any time, succeeds and gives exactly the rows
    that hold then; the current graph has one open interval per edge, no two
    managed devices each below the other by links with LLDP evidence, and
    parents that are the nodes of the devices they name; and every row ever kept
    is well formed. *)
Theorem tables_stay_sound (events : list event) : let db := snd (history events first_start) in
  (exists edges, CurrentTopologySnapshot None db = Ok (edges, topologySourceStates (db_states db)) /\
     (forall e, e ∈ edges <-> te_ValidTo e = None /\ exists i, db_edges db !! i = Some e) /\
     NoDup (map edgeSortKey edges) /\ one_way edges /\ forall e, e ∈ edges -> parent_valid (db_devices db) e) /\
  (forall at_, 0 < at_ -> exists edges, TopologyEdgesAt None at_ db = Ok edges /\
     forall e, e ∈ edges <-> (exists i, db_edges db !! i = Some e) /\ holds_at at_ e = true) /\
  (forall i e, db_edges db !! i = Some e -> te_ID e = i /\ content_ok e /\ interval_ok e).
Proof.
  intros db. assert (Hs : sane db) by apply history_sane, first_start_sane. split_and!.
  - exists (active_rows (db_edges db)). unfold CurrentTopologySnapshot, query. rewrite read_active by done.
    destruct Hs as [_ _ _ S4 S5 S6 _]. split_and!; try done. intros e. apply elem_of_active.
  - intros at_ Hat. eexists. unfold TopologyEdgesAt, query. rewrite read_edges by (done || lia).
    split; [reflexivity|]. intros e. rewrite (proj2 (Z.ltb_lt _ _) Hat), merge_sort_Permutation, elem_of_list_filter, elem_of_rows.
    tauto.
  - intros i e He. destruct (sd_keyed db Hs i e He) as [? _]. destruct (sd_rows db Hs i e He). by split_and!.
Qed.




(** C15 (safety): the past does not change. Recording a poll leaves every moment
    before the time of its reconciliation as it was: the same rows hold then, of
    the same edges, with the same beginning and the same meaning. A poll that
    ended late cannot rewrite what an earlier one established, and a failed one
    writes nothing. *)
Theorem polls_keep_the_past (io : faults) (snap : Snapshot) (t t' : topologyIngestor) (db db' : DB) (err : option error)
    (t_ : Z) (Hsane : sane db) (Hrun : record io snap t db = (err, t', db'))
    (Hpast : t_ < reconcile_time (ti_lastReconcileAt t) (sn_At snap)) :
  same_past t_ (db_edges db) (db_edges db') /\ (err <> None -> db' = db).
Proof.
  split.
  - unfold record, ingest_error in Hrun. destruct (Devices (ft_devices io) db) as [devices|] eqn:Ed; [|simplify_eq; apply same_past_refl].
    destruct (current_device _ _) as [current|]; [|simplify_eq; apply same_past_refl]. cbv zeta in Hrun.
    destruct (gate_bridges _ _ _ _) as [bridges sources]. destruct (Nat.eqb _ _); [simplify_eq; apply same_past_refl|].
    destruct (ingest_edges _ _ _ _ _) as [[e db1] last] eqn:Ei. simplify_eq.
    refine (ingest_past _ _ _ _ _ _ _ _ _ Hsane _ _ Hpast Ei); [|done]. intros clients. by eapply adopted_inventory.
  - intros Herr. unfold record, ingest_edges in Hrun. destruct (ingest_error _ (Devices _ _)); [|congruence].
    destruct (current_device _ _); [|congruence]. cbv zeta in Hrun. destruct (gate_bridges _ _ _ _).
    destruct (Nat.eqb _ _); [congruence|].
    destruct (match ingest_error "clients" _ with Ok _ => _ | Err _ => _ end) as [[db1 at_]|e]; congruence.
Qed.
