(* ===== verification/TopologyRuns.v ===== *)
(** * Topology: a concrete run

    A gateway and an access point on one bridge, polled five milliseconds apart.
    The gateway reports the access point by LLDP and, on its bridge, a client;
    the access point reports the gateway by LLDP and the client as associated.
    The run evaluates both inferences, both reconciliations and what is shown,
    and applies the theorems to them. *)

From Stdlib Require Import ZArith Ascii String.
From stdpp Require Import base gmap list strings.
From S2P Require Import Prelude GoStr GoFmt F64 Topology TopologyParse TopologyIntervals TopologyView TopologyRoots.
From S2P Require Import TopologyIntervalsSpec TopologyStore TopologyGraph TopologyInferSpec TopologyInfer TopologyViewSpec.

Local Open Scope string_scope.
Local Open Scope Z_scope.

Module TopologyRuns.

Definition gw := MkInventoryDevice 1 "gw" "AA:00:00:00:00:01" [].
Definition ap := MkInventoryDevice 2 "ap" "aa:00:00:00:00:02" [].
Definition phone := MkInventoryClient "cc:00:00:00:00:09" "phone".

Definition sources_of (device at_ : Z) : list TopologySourceObservation :=
  map (fun s => MkSource device s TopologySourceObserved "" at_)
    [SourceBridgeFDB; SourceBridgeSTP; SourceLLDP; SourceAssociations; SourceDefaultRoute].

Definition gw_poll : InferenceInput := MkInput 1000 [gw; ap] [phone]
  [MkBridge 1 "br-lan" [MkFDBEntry 1 "aa:00:00:00:00:02" false f_zero; MkFDBEntry 1 "cc:00:00:00:00:09" false f_zero]
     (Some (MkSTPState "br-lan" [MkSTPPort "lan1" 1 "forwarding"])) {[1 := "wired"]} {[1 := "physical"]}]
  ∅ [] [MkLLDPLink 1 "lan1" "aa:00:00:00:00:02"] [MkUplink 1 "wan" "wan" true] (sources_of 1 1000).
Definition ap_poll : InferenceInput := MkInput 1005 [gw; ap] [phone]
  [] ∅ [MkAssociation 2 "wlan0" "cc:00:00:00:00:09"] [MkLLDPLink 2 "lan0" "aa:00:00:00:00:01"] [] (sources_of 2 1005).

Definition unplaced : InferenceResult := MkInferenceResult [] [] false [].
Definition result_of (input : InferenceInput) : InferenceResult :=
  match Infer input with Ok r => r | Err _ => unplaced end.
Definition changes_of (active : list TopologyEdge) (input : InferenceInput) : IntervalChanges :=
  match ReconcileIntervalsBySource active (ir_Edges (result_of input)) (in_At input) (in_Sources input) with
  | Ok c => c
  | Err _ => MkChanges [] []
  end.
Definition rows_after (next : Z) (active : list TopologyEdge) (input : InferenceInput) : list TopologyEdge :=
  store_apply next active (changes_of active input).

Definition gw_rows : list TopologyEdge := rows_after 1 [] gw_poll.
Definition gw_next : Z := 1 + Z.of_nat (length (opened (changes_of [] gw_poll))).
Definition ap_rows : list TopologyEdge := rows_after gw_next gw_rows ap_poll.

(** What the rows say. *)
Definition placements (l : list TopologyEdge) : list (string * string * string * string) :=
  map (fun e => (te_ChildNode e, te_ParentNode e, te_ParentPort e, te_Confidence e)) l.

(** A bridge that learned the client behind the link to the access point, and
    the access point that serves it: both placements stand, as ambiguous; the
    access point's claim that the gateway is below it is dropped. *)
Example stored_placements : placements ap_rows =
  [("device:aa:00:00:00:00:01", InternetNode, "wan", "measured");
   ("device:aa:00:00:00:00:02", "device:aa:00:00:00:00:01", "lan1", "measured");
   ("client:cc:00:00:00:00:09", "device:aa:00:00:00:00:01", "lan1", "ambiguous");
   ("client:cc:00:00:00:00:09", "device:aa:00:00:00:00:02", "wlan0", "ambiguous")].
Proof. vm_compute. reflexivity. Qed.

Definition all_sources : list TopologySourceObservation := (sources_of 1 1000 ++ sources_of 2 1005)%list.
Definition shown : list TopologyEdge := CurrentPresentationEdges ap_rows all_sources 1006 100.

(** What is shown leaves the transit out: the client is at the access point. *)
Example shown_placements : placements shown =
  [("device:aa:00:00:00:00:01", InternetNode, "wan", "measured");
   ("device:aa:00:00:00:00:02", "device:aa:00:00:00:00:01", "lan1", "measured");
   ("client:cc:00:00:00:00:09", "device:aa:00:00:00:00:02", "wlan0", "measured")].
Proof. vm_compute. reflexivity. Qed.

(** ** The hypotheses, decided *)

Definition live_b (at_ : Z) (e : TopologyEdge) : bool :=
  match te_ValidTo e with None => true | Some _ => false end && (0 <? te_ValidFrom e) &&
  (te_ValidFrom e <=? te_LastSeen e) && (te_LastSeen e <=? at_).
Definition durable_b (before next : Z) (l : list TopologyEdge) : bool :=
  forallb (fun e => live_b before e && (0 <? te_ID e) && (te_ID e <? next)) l &&
  bool_decide (NoDup (map edgeSortKey l)) && bool_decide (NoDup (map te_ID l)) && (0 <? next).

Lemma forallb_in {A} (f : A -> bool) l : forallb f l = true -> forall x, x ∈ l -> f x = true.
Proof. rewrite forallb_forall. intros H x Hx. by apply H, list_elem_of_In. Qed.

Lemma durable_decides before next l : durable_b before next l = true -> durable before next l.
Proof.
  unfold durable_b. rewrite !andb_true_iff, !bool_decide_eq_true. intros [[[H Hk] Hi] Hn].
  pose proof (forallb_in _ _ H) as Hall. constructor; [|by apply Z.ltb_lt].
  constructor; [|done|done|]; intros e He; specialize (Hall e He); unfold live_b in Hall; unfold live;
    destruct (te_ValidTo e); rewrite ?andb_true_iff in Hall; lia || (split; [done|lia]).
Qed.

Definition observation_b (at_ : Z) (o : TopologyEdge) : bool :=
  (te_ID o =? 0) && (0 <=? te_ValidFrom o) && (te_ValidFrom o <=? at_).
Lemma observations_decide at_ l : forallb (observation_b at_) l = true -> forall o, o ∈ l -> observation at_ o.
Proof.
  intros H o Ho. pose proof (forallb_in _ _ H o Ho) as E. unfold observation_b in E.
  rewrite !andb_true_iff in E. unfold observation. lia.
Qed.

Definition sourced_b (v : TopologyEvidence) : bool :=
  (negb (String.eqb (ev_Kind v) "association") || String.eqb (ev_Source v) SourceAssociations) &&
  (negb (String.eqb (ev_Kind v) "lldp_neighbor") || String.eqb (ev_Source v) SourceLLDP).
Lemma sourced_decides l : forallb (fun e => forallb sourced_b (te_Evidence e)) l = true ->
  forall e, e ∈ l -> well_sourced e.
Proof.
  intros H e He v Hv. pose proof (forallb_in _ _ (forallb_in _ _ H e He) v Hv) as E. unfold sourced_b in E.
  rewrite andb_true_iff, !orb_true_iff, !negb_true_iff, !String.eqb_eq, !String.eqb_neq in E. tauto.
Qed.

Lemma gw_durable : durable 1000 gw_next gw_rows.
Proof. apply durable_decides. vm_compute. reflexivity. Qed.
Lemma ap_observed : forall o, o ∈ ir_Edges (result_of ap_poll) -> observation 1005 o.
Proof. apply observations_decide. vm_compute. reflexivity. Qed.

Lemma ap_inferred : Infer ap_poll = Ok (result_of ap_poll).
Proof.
  assert (H : is_ok (Infer ap_poll) = true) by (vm_compute; reflexivity).
  unfold result_of. destruct (Infer ap_poll); [reflexivity|discriminate H].
Qed.
Lemma ap_reconciled :
  ReconcileIntervalsBySource gw_rows (ir_Edges (result_of ap_poll)) 1005 (sources_of 2 1005) = Ok (changes_of gw_rows ap_poll).
Proof.
  assert (H : is_ok (ReconcileIntervalsBySource gw_rows (ir_Edges (result_of ap_poll)) 1005 (sources_of 2 1005)) = true)
    by (vm_compute; reflexivity).
  unfold changes_of. change (in_At ap_poll) with 1005. change (in_Sources ap_poll) with (sources_of 2 1005).
  destruct (ReconcileIntervalsBySource _ _ _ _); [reflexivity|discriminate H].
Qed.
Lemma ap_rows_sourced : forall e, e ∈ ap_rows -> well_sourced e.
Proof. apply sourced_decides. vm_compute. reflexivity. Qed.

(** The run has rows that are closed, opened and kept. *)
Lemma ap_changes_are : map te_ID (ic_Close (changes_of gw_rows ap_poll)) = [1] /\ length (opened (changes_of gw_rows ap_poll)) = 2%nat.
Proof. vm_compute. split; reflexivity. Qed.

(** The strict parsers accept two values that are none: an ageing timer that is
    not a number, and a port number that does not fit, which becomes the largest
    integer. *)
Definition newline : string := String (ascii_of_nat 10) "".
Example odd_numbers_accepted :
  is_ok (ParseShowMACs ("port no mac addr is local? ageing timer" ++ newline ++ "1 aa:00:00:00:00:02 no NaN")) = true /\
  match ParseShowSTP ("br-lan" ++ newline ++ "lan1 (99999999999999999999)" ++ newline ++ "state forwarding") with
  | Ok s => map sp_Port (st_Ports s) = [9223372036854775807]
  | Err _ => False
  end.
Proof. vm_compute. split; reflexivity. Qed.

(** ** The theorems at work *)

Lemma history_is_kept_witness :
  map te_ID (ic_Close (changes_of gw_rows ap_poll)) = [1] /\ NoDup (map te_ID (ic_Close (changes_of gw_rows ap_poll))).
Proof.
  split; [exact (proj1 ap_changes_are)|].
  exact (proj1 (history_is_kept 1000 1005 gw_next gw_rows _ _ _ gw_durable ap_observed ap_reconciled)).
Defined.

Lemma competing_placements_are_marked_witness : length ap_rows = 4%nat /\ forall r, r ∈ ap_rows ->
  (competingParentsAmbiguity ∈ te_Ambiguities r <-> competing ap_rows (te_ChildNode r)) /\
  (competing ap_rows (te_ChildNode r) -> te_Confidence r = "ambiguous").
Proof.
  split; [vm_compute; reflexivity|]. exact (competing_placements_are_marked 1000 1005 gw_next gw_rows _ _ _ gw_durable ap_observed ap_reconciled).
Defined.

Lemma managed_links_have_one_direction_witness : length ap_rows = 4%nat /\ forall r r', r ∈ ap_rows -> r' ∈ ap_rows ->
  managed_link r = true -> edgeHasLLDP r = true -> managed_link r' = true -> edgeHasLLDP r' = true ->
  te_ChildNode r = te_ParentNode r' -> te_ParentNode r = te_ChildNode r' -> False.
Proof.
  split; [vm_compute; reflexivity|]. exact (proj1 (managed_links_have_one_direction 1000 1005 gw_next gw_rows _ _ _ gw_durable ap_observed ap_reconciled)).
Defined.

Lemma Infer_exact_witness : NoDup (map key_of (ir_Edges (result_of ap_poll))).
Proof. destruct (Infer_exact ap_poll (result_of ap_poll) ap_inferred) as (r & nodes & sources & s & _ & H & _). exact H. Defined.

Lemma Infer_honest_witness : length (in_Sources ap_poll) = 5%nat /\ forall so, so ∈ in_Sources ap_poll -> answered_state (so_State so) = true.
Proof.
  assert (Hc : ir_Complete (result_of ap_poll) = true) by (vm_compute; reflexivity). split; [reflexivity|].
  destruct (Infer_honest ap_poll (result_of ap_poll) ap_inferred) as (r & nodes & _ & [Hcomplete _] & _).
  exact (proj2 (proj1 (Hcomplete Hc))).
Defined.

Lemma presentation_hides_only_transit_witness : length shown = 3%nat /\ forall e, e ∈ ap_rows ->
  exists e', e' ∈ shown /\ te_ChildNode e' = te_ChildNode e.
Proof.
  split; [vm_compute; reflexivity|]. destruct (presentation_hides_only_transit ap_rows all_sources 1006 100 ap_rows_sourced) as (_ & _ & _ & H & _). exact H.
Defined.
End TopologyRuns.

(** * The topology tables: a concrete history

    A controller adopts a gateway and an access point, records two polls of
    them, one that failed, and the deletion of the access point. The history
    evaluates the whole path from a snapshot to the rows that readers get, and
    gives the databases the theorems on recorded polls are applied to. *)

From Stdlib Require Import ZArith Ascii String.
From stdpp Require Import base gmap list strings.
From S2P Require Import Prelude GoStr GoFmt F64 Topology TopologyIntervals TopologyView TopologyStore TopologyGraph.
From S2P Require Import TopologyDecode TopologyCollect TopologyDb TopologyDbSpec TopologyIngest TopologyEvents TopologyIngestSpec.

Local Open Scope string_scope.
Local Open Scope Z_scope.

Module IngestRuns.

Definition engine_works (now : Z) : faults := MkFaults None None None None None now.

Definition gw : Device := MkDevice 0 "aa:00:00:00:00:01" "gw" "gateway" None (Some 10).
Definition ap : Device := MkDevice 0 "aa:00:00:00:00:02" "ap" "ap" None (Some 11).
Definition phone : InventoryClient := MkInventoryClient "cc:00:00:00:00:09" "phone".

Definition sources_of (device at_ : Z) : list TopologySourceObservation :=
  map (fun s => MkSource device s TopologySourceObserved "" at_)
    [TopologySourceNetworkDevices; TopologySourceWirelessDevices; SourceBridgeFDB; SourceBridgeSTP; SourceLLDP;
     SourceAssociations].
Definition no_counts : counts := MkCounts ∅ ∅ ∅ ∅ ∅.

Definition gw_snapshot (at_ : Z) : Snapshot := MkSnapshot 1 at_ true [] false []
  (MkTopologySnapshot true [] [] ∅ [] [MkLLDPLink 1 "lan1" "aa:00:00:00:00:02"] [MkUplink 1 "wan" "wan" true] (sources_of 1 at_))
  no_counts None None [].
Definition ap_snapshot (at_ : Z) : Snapshot := MkSnapshot 2 at_ true ["wlan0"] true
  [MkAP "wlan0" (Some {["cc:00:00:00:00:09" := "wlan0"]})]
  (MkTopologySnapshot true [] [] ∅ [] [] [] (sources_of 2 at_))
  no_counts None None [].

Definition adopted_both : list event := [DeviceSaved gw; DeviceSaved ap; ClientsSeen [phone]].
Definition first_poll : list event := (adopted_both ++ [Polled (engine_works 1001) (gw_snapshot 1000)])%list.
Definition both_polls : list event := (first_poll ++ [Polled (engine_works 1006) (ap_snapshot 1005)])%list.
Definition removed : list event := (both_polls ++ [PollFailed (engine_works 1011) (ap_snapshot 1010); DeviceDeleted 1020 2])%list.

(** What a reader gets: the edges that hold at a time, or now. *)
Definition read_at (at_ : Z) (events : list event) : list (string * string * string) :=
  match TopologyEdgesAt None at_ (snd (history events first_start)) with
  | Ok l => map (fun e => (te_ChildNode e, te_ParentNode e, te_ParentPort e)) l
  | Err _ => []
  end.

Example after_one_poll : read_at 0 first_poll =
  [("device:aa:00:00:00:00:01", InternetNode, "wan"); ("device:aa:00:00:00:00:02", "device:aa:00:00:00:00:01", "lan1")].
Proof. vm_compute. reflexivity. Qed.
Example after_both_polls : length (read_at 0 both_polls) = 3%nat /\
  read_at 1004 both_polls = read_at 0 first_poll.
Proof. vm_compute. split; reflexivity. Qed.
(** A deleted device is gone from the present and kept in the past. *)
Example after_removal : read_at 0 removed = [("device:aa:00:00:00:00:01", InternetNode, "wan")] /\
  read_at 1015 removed = read_at 0 both_polls.
Proof. vm_compute. split; reflexivity. Qed.

(** ** The theorems at work *)

Definition db_before : DB := snd (history first_poll first_start).
Definition ingestor_before : topologyIngestor := fst (history first_poll first_start).
Definition poll : option error * topologyIngestor * DB := record (engine_works 1006) (ap_snapshot 1005) ingestor_before db_before.
Definition rows_written : nat := length (active_rows (db_edges (snd poll))).

Lemma db_before_sane : sane db_before.
Proof. exact (history_sane first_poll first_start first_start_sane). Qed.
Lemma poll_is : record (engine_works 1006) (ap_snapshot 1005) ingestor_before db_before = (fst (fst poll), snd (fst poll), snd poll).
Proof. change (poll = (fst (fst poll), snd (fst poll), snd poll)). by destruct poll as [[??]?]. Qed.
Lemma poll_is_written : fst (fst poll) = None /\ rows_written = 3%nat.
Proof. vm_compute. split; reflexivity. Qed.



Lemma at_earlier : 1004 < reconcile_time (ti_lastReconcileAt ingestor_before) (sn_At (ap_snapshot 1005)).
Proof. vm_compute. reflexivity. Qed.

Lemma polls_keep_the_past_witness : rows_written = 3%nat /\
  same_past 1004 (db_edges db_before) (db_edges (snd poll)).
Proof.
  split; [exact (proj2 poll_is_written)|].
  exact (proj1 (polls_keep_the_past (engine_works 1006) (ap_snapshot 1005) ingestor_before _ db_before _ _ 1004
           db_before_sane poll_is at_earlier)).
Defined.
End IngestRuns.
