(* ===== verification/RestoreMarker.v ===== *)
(** * Restore swap: the durable marker

    internal/restoreswap/marker.go, with the text checks of restoreswap.go and
    files.go it uses and the records of receipt.go and suppression.go: the
    values the coordinator keeps on disk, when they are accepted, and the text
    that binds the sealed passphrase to them. A value stands for the JSON text it
    is written as; [m_Sealed] holds the bytes of its base64 text, and a time is
    its RFC 3339 text. *)

From Stdlib Require Import ZArith Lia Ascii String.
From stdpp Require Import base list strings.
From S2P Require Import Prelude GoStr GoFmt Sha256.

Local Open Scope string_scope.
Local Open Scope Z_scope.

(** ** Constants *)

Definition databaseName : string := "oonfeewrt.db".
Definition keyringName : string := "keyring.json".
Definition recoveryDirName : string := ".oonfeewrt-recovery".
Definition markerFormat : string := "oonfeewrt-restore-swap".
Definition markerVersion : Z := 1.
Definition keyringMaxBytes : Z := 4096.
Definition passphraseMaxBytes : Z := 4096.
Definition instanceMaxBytes : Z := 128.
Definition controllerMaxBytes : Z := 128.

(** internal/portablebackup/format.go and internal/store/store.go. *)
Definition MaxDatabaseBytes : Z := Z.shiftl 8 30.
Definition safetyMaxBytes : Z := MaxDatabaseBytes + Z.shiftl 16 20.
Definition storeCurrentSchema : Z := 25.

Definition stateIntent : string := "intent".
Definition stateReady : string := "ready".
Definition stateSafety : string := "safety".
Definition stateOldDBParked : string := "old_db_parked".
Definition stateOldPairParked : string := "old_pair_parked".
Definition stateNewDBPublished : string := "new_db_published".
Definition stateNewPairPublished : string := "new_pair_published".
Definition stateValidated : string := "validated".
Definition stateSuppressed : string := "suppressed".
Definition stateCleanup : string := "cleanup".

Definition orderedStates : list string :=
  [stateIntent; stateReady; stateSafety; stateOldDBParked; stateOldPairParked; stateNewDBPublished;
   stateNewPairPublished; stateValidated; stateSuppressed; stateCleanup].

Definition validState (state : string) : bool := existsb (String.eqb state) orderedStates.

(** The last index of a state in the order, and -1. *)
Fixpoint state_index (state : string) (i : Z) (l : list string) (found : Z) : Z :=
  match l with
  | [] => found
  | c :: l' => state_index state (i + 1) l' (if String.eqb state c then i else found)
  end.
Definition stateAtLeast (state threshold : string) : bool :=
  let left := state_index state 0 orderedStates (-1) in
  let right := state_index threshold 0 orderedStates (-1) in
  (right <=? left) && (0 <=? right).

(** ** Records *)

Record fileRecord := MkFile { fr_Size : Z; fr_SHA256 : string }.
Definition no_file : fileRecord := MkFile 0 "".
#[export] Instance fileRecord_eq_dec : EqDecision fileRecord.
Proof. solve_decision. Defined.

Record recoveryDTO := MkRecovery {
  rc_Schema : Z;
  rc_Devices : Z;
  rc_Credentials : Z;
  rc_OwnedSections : Z;
  rc_WLANs : Z;
  rc_Meshes : Z
}.
Definition no_recovery : recoveryDTO := MkRecovery 0 0 0 0 0 0.
#[export] Instance recoveryDTO_eq_dec : EqDecision recoveryDTO.
Proof. solve_decision. Defined.

Record marker := MkMarker {
  m_Format : string;
  m_Version : Z;
  m_ID : string;
  m_State : string;
  m_OwnerInstanceID : string;
  m_CreatedAt : string;
  m_PreparedDir : string;
  m_PreparedDatabase : string;
  m_PreparedKeyring : string;
  m_PreparedDatabaseFile : fileRecord;
  m_PreparedKeyringFile : fileRecord;
  m_AuthorizingAdminID : Z;
  m_AuthorizingUsername : string;
  m_PreviewID : string;
  m_PlanID : string;
  m_Sealed : string;
  m_OldDatabase : fileRecord;
  m_OldKeyring : fileRecord;
  m_SafetyBackupFile : fileRecord;
  m_SafetyBackupCreatedAt : string;
  m_ValidatedCounts : recoveryDTO
}.
#[export] Instance marker_eq_dec : EqDecision marker.
Proof. solve_decision. Defined.

Record suppressionMarker := MkSuppressionMarker {
  sm_Format : string;
  sm_Version : Z;
  sm_RestoreID : string;
  sm_CreatedAt : string;
  sm_Reason : string
}.

Record appliedReceipt := MkReceipt {
  ar_Format : string;
  ar_Version : Z;
  ar_RestoreID : string;
  ar_CreatedAt : string;
  ar_SafetyBackup : string;
  ar_SafetyBackupSHA256 : string;
  ar_PreparedDatabaseSHA256 : string;
  ar_PreparedKeyringSHA256 : string;
  ar_AuthorizingAdminID : Z;
  ar_AuthorizingUsername : string;
  ar_PreviewID : string;
  ar_PlanID : string;
  ar_Counts : recoveryDTO
}.
#[export] Instance appliedReceipt_eq_dec : EqDecision appliedReceipt.
Proof. solve_decision. Defined.

(** Assignments to the fields that change. *)
Definition with_progress (m : marker) (state : string) (safety : fileRecord) (at_ : string) (counts : recoveryDTO) : marker :=
  MkMarker (m_Format m) (m_Version m) (m_ID m) state (m_OwnerInstanceID m) (m_CreatedAt m) (m_PreparedDir m)
    (m_PreparedDatabase m) (m_PreparedKeyring m) (m_PreparedDatabaseFile m) (m_PreparedKeyringFile m)
    (m_AuthorizingAdminID m) (m_AuthorizingUsername m) (m_PreviewID m) (m_PlanID m) (m_Sealed m) (m_OldDatabase m)
    (m_OldKeyring m) safety at_ counts.
Definition with_state (m : marker) (state : string) : marker :=
  with_progress m state (m_SafetyBackupFile m) (m_SafetyBackupCreatedAt m) (m_ValidatedCounts m).
Definition with_safety (m : marker) (safety : fileRecord) (at_ : string) : marker :=
  with_progress m (m_State m) safety at_ (m_ValidatedCounts m).
Definition with_validated (m : marker) (counts : recoveryDTO) : marker :=
  with_progress m (m_State m) (m_SafetyBackupFile m) (m_SafetyBackupCreatedAt m) counts.
Definition with_sealed (m : marker) (sealed : string) : marker :=
  MkMarker (m_Format m) (m_Version m) (m_ID m) (m_State m) (m_OwnerInstanceID m) (m_CreatedAt m) (m_PreparedDir m)
    (m_PreparedDatabase m) (m_PreparedKeyring m) (m_PreparedDatabaseFile m) (m_PreparedKeyringFile m)
    (m_AuthorizingAdminID m) (m_AuthorizingUsername m) (m_PreviewID m) (m_PlanID m) sealed (m_OldDatabase m)
    (m_OldKeyring m) (m_SafetyBackupFile m) (m_SafetyBackupCreatedAt m) (m_ValidatedCounts m).
Definition with_old (m : marker) (database keyring : fileRecord) : marker :=
  MkMarker (m_Format m) (m_Version m) (m_ID m) (m_State m) (m_OwnerInstanceID m) (m_CreatedAt m) (m_PreparedDir m)
    (m_PreparedDatabase m) (m_PreparedKeyring m) (m_PreparedDatabaseFile m) (m_PreparedKeyringFile m)
    (m_AuthorizingAdminID m) (m_AuthorizingUsername m) (m_PreviewID m) (m_PlanID m) (m_Sealed m) database
    keyring (m_SafetyBackupFile m) (m_SafetyBackupCreatedAt m) (m_ValidatedCounts m).

Definition safety_name (id : string) : string := "safety-" ++ id ++ ".oowrtbak".
Definition safetyName (m : marker) : string := safety_name (m_ID m).
Definition rollbackName (m : marker) : string := "rollback-" ++ m_ID m.

(** ** Times *)

Definition digit_value (c : ascii) : Z := byte_of c - 48.
Fixpoint fixed_digits (n : nat) (acc : Z) (l : list ascii) : option (Z * list ascii) :=
  match n, l with
  | O, _ => Some (acc, l)
  | S n', c :: l' => if is_digit c then fixed_digits n' (10 * acc + digit_value c) l' else None
  | S _, [] => None
  end.
(** [getnum] of the hour: one digit or two. *)
Definition hour_digits (l : list ascii) : option (Z * list ascii) :=
  match fixed_digits 2 0 l with Some r => Some r | None => fixed_digits 1 0 l end.
Definition expect (c : ascii) (l : list ascii) : option (list ascii) :=
  match l with d :: l' => if Ascii.eqb c d then Some l' else None | [] => None end.
Fixpoint skip_digits (l : list ascii) : list ascii :=
  match l with c :: l' => if is_digit c then skip_digits l' else l | [] => [] end.
Definition skip_fraction (l : list ascii) : list ascii :=
  match l with
  | p :: d :: l' => if (Ascii.eqb p "." || Ascii.eqb p ",") && is_digit d then skip_digits l' else l
  | _ => l
  end.

Definition leap (y : Z) : bool := (y mod 4 =? 0) && (negb (y mod 100 =? 0) || (y mod 400 =? 0)).
Definition days_in (m y : Z) : Z :=
  if m =? 2 then if leap y then 29 else 28
  else if (m =? 4) || (m =? 6) || (m =? 9) || (m =? 11) then 30 else 31.

(** [time.Parse(time.RFC3339Nano, s)] with a result in [time.UTC]: the year. A
    numeric zone never is [time.UTC]. *)
Definition utc_year (s : string) : option Z :=
  match fixed_digits 4 0 (chars s) with None => None | Some (y, l) =>
  match expect "-" l with None => None | Some l =>
  match fixed_digits 2 0 l with None => None | Some (mo, l) =>
  match expect "-" l with None => None | Some l =>
  match fixed_digits 2 0 l with None => None | Some (d, l) =>
  match expect "T" l with None => None | Some l =>
  match hour_digits l with None => None | Some (h, l) =>
  match expect ":" l with None => None | Some l =>
  match fixed_digits 2 0 l with None => None | Some (mi, l) =>
  match expect ":" l with None => None | Some l =>
  match fixed_digits 2 0 l with None => None | Some (sec, l) =>
  match skip_fraction l with
  | [z] =>
      if Ascii.eqb z "Z" && (1 <=? mo) && (mo <=? 12) && (1 <=? d) && (d <=? days_in mo y) &&
         (h <? 24) && (mi <? 60) && (sec <? 60)
      then Some y else None
  | _ => None
  end end end end end end end end end end end end.

Example utc_years : utc_year "2024-02-29T23:59:59.123456789Z" = Some 2024 /\ utc_year "2023-02-29T00:00:00Z" = None /\
  utc_year "2024-02-29T23:59:59+00:00" = None /\ utc_year "0000-01-01T0:00:00,5Z" = Some 0.
Proof. vm_compute. split_and!; reflexivity. Qed.

Definition is_utc (s : string) : bool := bool_decide (is_Some (utc_year s)).
Definition dated (s : string) : bool := match utc_year s with Some y => (1 <=? y) && (y <=? 9999) | None => false end.

(** ** What is accepted *)

Definition validBoundedText (value : string) (minimum maximum : Z) : bool :=
  (minimum <=? len value) && (len value <=? maximum) && ValidString value &&
  negb (String.eqb (TrimSpace value) "") && negb (has_control (chars value)).

Definition safeBaseName (name : string) : bool :=
  negb (String.eqb name "") && negb (String.eqb name ".") && negb (String.eqb name "..") && (len name <=? 255) &&
  ValidString name && negb (ContainsAny name ["/"%char; "\"%char]) && negb (has_control (chars name)).

Definition lower_hex (c : ascii) : bool := is_digit c || ((97 <=? byte_of c) && (byte_of c <=? 102)).

Definition validFileRecord (r : fileRecord) (minimum maximum : Z) : bool :=
  (minimum <=? fr_Size r) && (fr_Size r <=? maximum) && (len (fr_SHA256 r) =? 64) &&
  forallb lower_hex (chars (fr_SHA256 r)).

Definition validCounts (c : recoveryDTO) : bool :=
  (0 <? rc_Schema c) && (0 <=? rc_Devices c) && (0 <=? rc_Credentials c) && (0 <=? rc_OwnedSections c) &&
  (0 <=? rc_WLANs c) && (0 <=? rc_Meshes c).

Definition validRestoreID (value : string) : bool :=
  (len value =? 32) && forallb lower_hex (chars value) && existsb (fun c => negb (Ascii.eqb c "0")) (chars value).

Definition validateInstanceID (value : string) : option error :=
  if validBoundedText value 1 instanceMaxBytes then None else Some "restore swap: controller instance ID is invalid".
Definition validateControllerVersion (value : string) : option error :=
  if validBoundedText value 1 controllerMaxBytes then None else Some "restore swap: controller version is invalid".

Definition prepared_paths_ok (m : marker) : bool :=
  safeBaseName (m_PreparedDir m) && safeBaseName (m_PreparedDatabase m) && safeBaseName (m_PreparedKeyring m) &&
  negb (String.eqb (m_PreparedDatabase m) (m_PreparedKeyring m)) && negb (String.eqb (m_PreparedDir m) recoveryDirName).
Definition prepared_files_ok (m : marker) : bool :=
  validFileRecord (m_PreparedDatabaseFile m) 1 MaxDatabaseBytes &&
  validFileRecord (m_PreparedKeyringFile m) 1 keyringMaxBytes.
Definition sealed_ok (m : marker) : bool :=
  (1 + 24 + 16 <=? len (m_Sealed m)) && (len (m_Sealed m) <=? passphraseMaxBytes + 1 + 24 + 16).
Definition old_files_ok (m : marker) : bool :=
  validFileRecord (m_OldDatabase m) 1 MaxDatabaseBytes && validFileRecord (m_OldKeyring m) 1 keyringMaxBytes.
Definition no_old_files (m : marker) : bool :=
  bool_decide (m_OldDatabase m = no_file) && bool_decide (m_OldKeyring m = no_file).
Definition no_safety (m : marker) : bool :=
  bool_decide (m_SafetyBackupFile m = no_file) && String.eqb (m_SafetyBackupCreatedAt m) "".

(** The checks in order; the first that fails is reported. *)
Fixpoint first_error (l : list (bool * error)) : option error :=
  match l with
  | [] => None
  | (ok, e) :: l' => if ok then first_error l' else Some e
  end.

Definition marker_checks (m : marker) : list (bool * error) :=
  let at_least := stateAtLeast (m_State m) in
  let is_intent := String.eqb (m_State m) stateIntent in
  [(String.eqb (m_Format m) markerFormat && (m_Version m =? markerVersion), "restore swap: pending marker format is unsupported");
   (validRestoreID (m_ID m), "restore swap: pending marker restore ID is invalid");
   (bool_decide (validateInstanceID (m_OwnerInstanceID m) = None), "restore swap: pending marker instance ID is invalid");
   (dated (m_CreatedAt m), "restore swap: pending marker creation time is invalid");
   (prepared_paths_ok m, "restore swap: pending marker prepared paths are invalid");
   (prepared_files_ok m, "restore swap: pending marker prepared hashes are invalid");
   ((0 <? m_AuthorizingAdminID m) && validBoundedText (m_AuthorizingUsername m) 1 128,
    "restore swap: pending marker audit actor is invalid");
   (validBoundedText (m_PreviewID m) 1 128 && validBoundedText (m_PlanID m) 1 128,
    "restore swap: pending marker restore binding is invalid");
   (sealed_ok m, "restore swap: pending marker sealed passphrase is invalid");
   (validState (m_State m), "restore swap: pending marker state is invalid");
   (is_intent || old_files_ok m, "restore swap: pending marker old-pair hashes are invalid");
   (negb is_intent || no_old_files m, "restore swap: pending marker contains premature old-pair state");
   (negb (at_least stateSafety) || validFileRecord (m_SafetyBackupFile m) 1 safetyMaxBytes,
    "restore swap: pending marker safety artifact is invalid");
   (negb (at_least stateSafety) || is_utc (m_SafetyBackupCreatedAt m), "restore swap: pending marker safety time is invalid");
   (at_least stateSafety || no_safety m, "restore swap: pending marker contains premature safety state");
   (negb (at_least stateValidated) ||
      ((rc_Schema (m_ValidatedCounts m) =? storeCurrentSchema) && validCounts (m_ValidatedCounts m)),
    "restore swap: pending marker validation counts are invalid");
   (at_least stateValidated || bool_decide (m_ValidatedCounts m = no_recovery),
    "restore swap: pending marker contains premature validation state")].

Definition validateMarker (m : marker) : option error := first_error (marker_checks m).

(** ** The purpose of the sealed passphrase *)

Definition intent_values (m : marker) : list string :=
  [markerFormat; Itoa markerVersion; m_ID m; m_OwnerInstanceID m; m_PreparedDir m; m_PreparedDatabase m;
   m_PreparedKeyring m; Itoa (fr_Size (m_PreparedDatabaseFile m)); fr_SHA256 (m_PreparedDatabaseFile m);
   Itoa (fr_Size (m_PreparedKeyringFile m)); fr_SHA256 (m_PreparedKeyringFile m); Itoa (m_AuthorizingAdminID m);
   m_AuthorizingUsername m; m_PreviewID m; m_PlanID m].
Definition frame (value : string) : list ascii :=
  (chr 0 :: chars (Itoa (len value)) ++ ":"%char :: chars value)%list.
Definition intentAAD (m : marker) : string :=
  of_chars (chars "oonfeewrt/restore-swap/intent/v1" ++ flat_map frame (intent_values m)).

(** Every value is framed by its length: equal purposes bind equal values. *)
Lemma frame_inj v v' x y : (frame v ++ x)%list = (frame v' ++ y)%list -> v = v' /\ x = y.
Proof.
  unfold frame. cbn [app]. intros [= E]. rewrite <- !app_assoc in E. cbn [app] in E.
  assert (Hn : forall n, ":"%char ∉ chars (Itoa n)) by (intros n; by apply not_in_Itoa).
  apply cut_inj in E as [E1 E2]; [|done|done]. assert (El : len v = len v').
  { apply Itoa_inj. rewrite <- (of_chars_chars (Itoa (len v))), <- (of_chars_chars (Itoa (len v'))). by f_equal. }
  apply app_inj_1 in E2 as [E2 E3].
  - split; [|done]. rewrite <- (of_chars_chars v), <- (of_chars_chars v'). by f_equal.
  - unfold len in El. rewrite !length_chars. lia.
Qed.
Lemma frames_inj l : forall l', length l = length l' -> flat_map frame l = flat_map frame l' -> l = l'.
Proof.
  induction l as [|v l IH]; intros [|v' l'] Hl H; try done. cbn [flat_map] in H. apply frame_inj in H as [-> H].
  f_equal. apply IH; [by injection Hl|done].
Qed.

(** ** The other documents *)

Definition appliedReceiptFormat : string := "oonfeewrt-restore-applied".
Definition appliedReceiptVersion : Z := 1.

Definition receiptFor (m : marker) : appliedReceipt :=
  MkReceipt appliedReceiptFormat appliedReceiptVersion (m_ID m) (m_SafetyBackupCreatedAt m) (safetyName m)
    (fr_SHA256 (m_SafetyBackupFile m)) (fr_SHA256 (m_PreparedDatabaseFile m)) (fr_SHA256 (m_PreparedKeyringFile m))
    (m_AuthorizingAdminID m) (m_AuthorizingUsername m) (m_PreviewID m) (m_PlanID m) (m_ValidatedCounts m).

Definition digest_ok (sha : string) : bool := validFileRecord (MkFile 1 sha) 1 1.
Definition validateAppliedReceipt (v : appliedReceipt) : option error :=
  if String.eqb (ar_Format v) appliedReceiptFormat && (ar_Version v =? appliedReceiptVersion) &&
     validRestoreID (ar_RestoreID v) && is_utc (ar_CreatedAt v) &&
     String.eqb (ar_SafetyBackup v) (safety_name (ar_RestoreID v)) && digest_ok (ar_SafetyBackupSHA256 v) &&
     digest_ok (ar_PreparedDatabaseSHA256 v) && digest_ok (ar_PreparedKeyringSHA256 v) &&
     (0 <? ar_AuthorizingAdminID v) && validBoundedText (ar_AuthorizingUsername v) 1 128 &&
     validBoundedText (ar_PreviewID v) 1 128 && validBoundedText (ar_PlanID v) 1 128 &&
     (rc_Schema (ar_Counts v) =? storeCurrentSchema) && validCounts (ar_Counts v)
  then None else Some "restore swap: applied audit receipt is invalid".

Definition suppressionFormat : string := "oonfeewrt-router-write-suppression".
Definition suppressionReason : string := "restored controller state requires owner review before router writes".

Definition validate_suppression (v : suppressionMarker) : option error :=
  if String.eqb (sm_Format v) suppressionFormat && (sm_Version v =? 1) && validRestoreID (sm_RestoreID v) &&
     is_utc (sm_CreatedAt v) && String.eqb (sm_Reason v) suppressionReason
  then None else Some "restore swap: router-write suppression is invalid".

(** ** What the seal of the passphrase binds *)

(** The purpose the export passphrase is sealed for determines every field it is
    made of: what was sealed for one prepared pair does not open for another. *)
Theorem intentAAD_binds m m' : intentAAD m = intentAAD m' ->
  m_ID m = m_ID m' /\ m_OwnerInstanceID m = m_OwnerInstanceID m' /\ m_PreparedDir m = m_PreparedDir m' /\
  m_PreparedDatabase m = m_PreparedDatabase m' /\ m_PreparedKeyring m = m_PreparedKeyring m' /\
  m_PreparedDatabaseFile m = m_PreparedDatabaseFile m' /\ m_PreparedKeyringFile m = m_PreparedKeyringFile m' /\
  m_AuthorizingAdminID m = m_AuthorizingAdminID m' /\ m_AuthorizingUsername m = m_AuthorizingUsername m' /\
  m_PreviewID m = m_PreviewID m' /\ m_PlanID m = m_PlanID m'.
Proof.
  intros H. assert (E : intent_values m = intent_values m').
  { apply frames_inj; [done|]. apply (f_equal chars) in H. unfold intentAAD in H. rewrite !chars_of_chars in H. by apply app_inv_head in H. }
  unfold intent_values in E. injection E as -> -> -> -> -> E1 E2 E3 E4 E5 -> -> ->.
  apply Itoa_inj in E1, E3, E5. destruct (m_PreparedDatabaseFile m), (m_PreparedDatabaseFile m'), (m_PreparedKeyringFile m), (m_PreparedKeyringFile m').
  cbn in *. split_and!; congruence.
Qed.
