(* ===== verification/RestoreDisk.v ===== *)
(** * Restore swap: the disk and what may happen to a call

    The data directory of a controller as internal/restoreswap sees it: files
    and directories by path, and the three JSON documents it keeps there. A
    program is a sequence of calls; each call works, fails with an I/O error, or
    is where the process dies. A call that fails or dies has no effect, and what
    earlier calls did stays: the file system orders its metadata operations.
    Files are written by nobody else while the coordinator runs.

    - internal/restoreswap/files.go, reconcile.go: the calls on files and
      directories, hashing and the comparison of a path with a record.
    - internal/restoreswap/marker.go, suppression.go, receipt.go: reading and
      publishing the documents. A temporary file of [writeJSONAtomic] is read by
      nobody and is left out. *)

From Stdlib Require Import ZArith Lia Ascii String.
From stdpp Require Import base gmap list strings sorting.
From S2P Require Import Prelude GoStr GoFmt Sha256 RestoreMarker.

Local Open Scope string_scope.
Local Open Scope Z_scope.

(** ** Errors *)

(** The errors callers tell apart ([errors.Is]); the others are their text. *)
Inductive fault :=
| NotExist
| NoPendingIntent
| UncleanIntent
| NoAppliedReceipt
| Text (s : error)
| Joined (a b : fault).

Definition io_error : fault := Text "input/output error".

Fixpoint Is (target e : fault) : bool :=
  match e, target with
  | Joined a b, _ => Is target a || Is target b
  | NotExist, NotExist | NoPendingIntent, NoPendingIntent | UncleanIntent, UncleanIntent
  | NoAppliedReceipt, NoAppliedReceipt => true
  | _, _ => false
  end.

(** ** The disk *)

Notation path := (list string) (only parsing).

(** Permissions are the nine bits; [Other] is a link, a device or a socket. *)
Inductive node :=
| Dir (perm : Z)
| File (perm : Z) (data : string)
| Other.

#[export] Instance node_eq_dec : EqDecision node.
Proof. solve_decision. Defined.

Definition private_dir : Z := 448.
Definition private_file : Z := 384.

(** A document: absent, not a private regular file of an acceptable size, not
    the JSON of a value, or a value. *)
Inductive slot (A : Type) :=
| Absent
| Unsafe
| Malformed
| Holds (a : A).
Arguments Absent {A}.
Arguments Unsafe {A}.
Arguments Malformed {A}.
Arguments Holds {A} a.

Record disk := MkDisk {
  d_nodes : gmap path node;
  d_marker : slot marker;
  d_receipt : slot appliedReceipt;
  d_suppression : slot suppressionMarker
}.
Definition with_nodes (d : disk) (n : gmap path node) : disk := MkDisk n (d_marker d) (d_receipt d) (d_suppression d).
Definition with_marker (d : disk) (m : slot marker) : disk := MkDisk (d_nodes d) m (d_receipt d) (d_suppression d).
Definition with_receipt (d : disk) (r : slot appliedReceipt) : disk := MkDisk (d_nodes d) (d_marker d) r (d_suppression d).
Definition with_suppression (d : disk) (s : slot suppressionMarker) : disk :=
  MkDisk (d_nodes d) (d_marker d) (d_receipt d) s.

(** ** Programs *)

Inductive fate := Works | Fails | Crashes.

(** The disk, what will happen to the next calls (they work when the list has
    ended), the clock and the source of restore ids. *)
Record world := MkWorld { w_disk : disk; w_fates : list fate; w_now : string; w_id : string }.
Definition set_disk (w : world) (d : disk) : world := MkWorld d (w_fates w) (w_now w) (w_id w).
Definition set_fates (w : world) (l : list fate) : world := MkWorld (w_disk w) l (w_now w) (w_id w).

Inductive outcome (A : Type) :=
| Done (a : A)
| Failed (e : fault)
| Crashed.
Arguments Done {A} a.
Arguments Failed {A} e.
Arguments Crashed {A}.

Definition IO (A : Type) : Type := world -> outcome A * world.

Definition pure {A} (a : A) : IO A := fun w => (Done a, w).
Definition throw {A} (e : fault) : IO A := fun w => (Failed e, w).
Definition seq_io {A B} (m : IO A) (k : A -> IO B) : IO B := fun w =>
  match m w with
  | (Done a, w') => k a w'
  | (Failed e, w') => (Failed e, w')
  | (Crashed, w') => (Crashed, w')
  end.
(** [if err := m; err != nil { ... }]; nothing handles a crash. *)
Definition catch {A} (m : IO A) (h : fault -> IO A) : IO A := fun w =>
  match m w with
  | (Failed e, w') => h e w'
  | r => r
  end.
Definition now : IO string := fun w => (Done (w_now w), w).

Declare Scope io_scope.
Delimit Scope io_scope with io.
Notation "x <- m ; k" := (seq_io m (fun x => k)) (at level 10, m at level 200, k at level 200) : io_scope.
Notation "m ;; k" := (seq_io m (fun _ => k)) (at level 100, k at level 200, right associativity) : io_scope.
#[global] Open Scope io_scope.

(** One call: what it computes from the disk, and the disk it leaves. *)
Definition call {A} (f : disk -> res fault A * disk) : IO A := fun w =>
  match w_fates w with
  | Crashes :: l => (Crashed, set_fates w l)
  | Fails :: l => (Failed io_error, set_fates w l)
  | l =>
      let w := set_fates w (tail l) in
      match f (w_disk w) with
      | (Ok a, d) => (Done a, set_disk w d)
      | (Err e, d) => (Failed e, set_disk w d)
      end
  end.

(** A call that only reads. *)
Definition look {A} (f : disk -> res fault A) : IO A := call (fun d => (f d, d)).
(** A call that can fail and that changes nothing this model keeps: an open, a
    sync, a check of the context or of the identity of the data directory. *)
Definition touch : IO unit := look (fun _ => Ok tt).
Definition require (ok : bool) (e : error) : IO unit := if ok then pure tt else throw (Text e).
Definition wrap {A} (prefix : error) (m : IO A) : IO A :=
  catch m (fun e => throw (match e with Text s => Text (prefix ++ ": " ++ s) | e => e end)).
(** [if err != nil { return errors.New(s) }]. *)
Definition replace_error {A} (s : error) (m : IO A) : IO A := catch m (fun _ => throw (Text s)).
Definition lift {A} (r : res fault A) : IO A := match r with Ok a => pure a | Err e => throw e end.
Definition check_io (e : option error) : IO unit := match e with None => pure tt | Some s => throw (Text s) end.

Definition checkNamedDataRoot : IO unit := touch.
Definition ctx_Err : IO unit := touch.
Definition syncDirectory : IO unit := touch.
Definition ensureSameFilesystem : IO unit := touch.

(** ** Files *)

Definition record_of (data : string) : fileRecord := MkFile (len data) (hex_sha256 data).

Definition hash_at (d : disk) (p : path) (minimum maximum : Z) : res fault fileRecord :=
  match d_nodes d !! p with
  | None => Err NotExist
  | Some (File perm data) =>
      if (perm =? private_file) && (minimum <=? len data) && (len data <=? maximum) then Ok (record_of data)
      else Err (Text "file must be a bounded regular 0600 file")
  | Some _ => Err (Text "file must be a bounded regular 0600 file")
  end.
Definition hashRootFile (p : path) (minimum maximum : Z) : IO fileRecord :=
  ctx_Err ;; look (fun d => hash_at d p minimum maximum).

Inductive pathMatch := matchMissing | matchExpected | matchOther.
#[export] Instance pathMatch_eq_dec : EqDecision pathMatch.
Proof. solve_decision. Defined.

(** What is at a path, before it is hashed. *)
Definition inspect_member (maximum : Z) (d : disk) (p : path) : res fault (option pathMatch) :=
  match d_nodes d !! p with
  | None => Ok (Some matchMissing)
  | Some (File perm data) =>
      if negb (perm =? private_file) then Err (Text "restore swap: member path is unsafe")
      else if maximum <? len data then Ok (Some matchOther)
      else Ok None
  | Some _ => Err (Text "restore swap: member path is unsafe")
  end.
Definition pathRecord (p : path) (expected : fileRecord) (maximum : Z) : IO pathMatch :=
  known <- look (fun d => inspect_member maximum d p);
  match known with
  | Some m => pure m
  | None =>
      record <- hashRootFile p 1 maximum;
      pure (if bool_decide (record = expected) then matchExpected else matchOther)
  end.

Definition requireHash (p : path) (expected : fileRecord) (maximum : Z) : IO unit :=
  found <- pathRecord p expected maximum;
  require (bool_decide (found = matchExpected)) "restore swap: file is missing or does not match its recorded digest".

Definition locateExpected (expected : fileRecord) (primary fallback : path) (maximum : Z) : IO path :=
  found <- pathRecord primary expected maximum;
  if bool_decide (found = matchExpected) then pure primary
  else
    found <- pathRecord fallback expected maximum;
    if bool_decide (found = matchExpected) then pure fallback
    else throw (Text "restore swap: recorded old controller member is unavailable").

Definition is_dir (n : option node) : bool := match n with Some (Dir _) => true | _ => false end.
Definition is_private_dir (n : option node) : bool := match n with Some (Dir p) => p =? private_dir | _ => false end.
Definition parent (p : path) : path := removelast p.
Definition has_parent (d : disk) (p : path) : bool :=
  match parent p with [] => true | q => is_dir (d_nodes d !! q) end.

Definition rename_at (source destination : path) (d : disk) : res fault unit * disk :=
  match d_nodes d !! destination, d_nodes d !! source with
  | Some _, _ => (Err (Text "restore swap: rename destination already exists"), d)
  | None, None => (Err (Text "restore swap: rename"), d)
  | None, Some n =>
      if has_parent d destination
      then (Ok tt, with_nodes d (<[destination := n]> (delete source (d_nodes d))))
      else (Err (Text "restore swap: rename"), d)
  end.
Definition renameNoClobber (source destination : path) : IO unit := touch ;; call (rename_at source destination).
Definition syncRenameParents : IO unit := syncDirectory ;; syncDirectory.

Definition member_name (dir p : path) : option string :=
  match p with
  | [] => None
  | _ => if bool_decide (parent p = dir) then List.last (map Some p) None else None
  end.
Definition members (d : disk) (dir : path) : list string :=
  omap (fun kv => member_name dir (fst kv)) (map_to_list (d_nodes d)).

(** Removing a file, or a directory that is empty. *)
Definition remove_at (p : path) (d : disk) : res fault unit * disk :=
  match d_nodes d !! p with
  | None => (Err NotExist, d)
  | Some (Dir _) =>
      if bool_decide (members d p = []) then (Ok tt, with_nodes d (delete p (d_nodes d)))
      else (Err (Text "directory not empty"), d)
  | Some _ => (Ok tt, with_nodes d (delete p (d_nodes d)))
  end.
Definition Remove (p : path) : IO unit := call (remove_at p).

Definition mkdir_at (p : path) (d : disk) : res fault unit * disk :=
  match d_nodes d !! p with
  | Some _ => (Err (Text "file exists"), d)
  | None =>
      if has_parent d p then (Ok tt, with_nodes d (<[p := Dir private_dir]> (d_nodes d)))
      else (Err NotExist, d)
  end.
Definition Mkdir (p : path) : IO unit := call (mkdir_at p).

Definition requireExactDirectory (dir : path) (names : list string) : IO unit :=
  ok <- look (fun d => Ok (is_private_dir (d_nodes d !! dir)));
  require ok "restore swap: prepared directory must be a private real directory" ;;
  found <- look (fun d => Ok (members d dir));
  require (bool_decide (sort_strings found = sort_strings names))
    "restore swap: prepared directory contains unexpected entries".

Definition requireDirectorySubset (dir : path) (allowed : list string) : IO unit :=
  ok <- look (fun d => Ok (is_private_dir (d_nodes d !! dir)));
  require ok "restore swap: owned directory is unsafe" ;;
  found <- look (fun d => Ok (members d dir));
  require (forallb (fun n => existsb (String.eqb n) allowed) found)
    "restore swap: owned directory contains an unexpected entry".

(** ** Documents *)

Definition recovery_dir : path := [recoveryDirName].
Definition validateRecoveryDir : IO unit :=
  ok <- look (fun d => Ok (is_private_dir (d_nodes d !! recovery_dir)));
  require ok "restore swap: recovery directory must be a private real directory" ;;
  ensureSameFilesystem.
Definition ensureRecoveryDir : IO unit :=
  missing <- look (fun d => Ok (bool_decide (d_nodes d !! recovery_dir = None)));
  (if (missing : bool) then wrap "restore swap: create recovery directory" (Mkdir recovery_dir) ;; syncDirectory else pure tt) ;;
  validateRecoveryDir.

(** [writeJSONAtomic]: the temporary, the link or the rename, and the syncs. *)
Definition write_new {A} (get : disk -> slot A) (put : disk -> slot A -> disk) (v : A) : IO unit :=
  touch ;;
  call (fun d => match get d with
                 | Absent => (Ok tt, put d (Holds v))
                 | _ => (Err (Text "restore swap: durable marker already exists"), d)
                 end) ;;
  syncDirectory ;; touch ;; syncDirectory.
Definition write_over {A} (put : disk -> slot A -> disk) (v : A) : IO unit :=
  touch ;; call (fun d => (Ok tt, put d (Holds v))) ;; syncDirectory.

Definition writeMarkerNew (m : marker) : IO unit := check_io (validateMarker m) ;; write_new d_marker with_marker m.
Definition replaceMarker (m : marker) : IO unit := check_io (validateMarker m) ;; write_over with_marker m.

Definition marker_at (d : disk) : res fault marker :=
  match d_marker d with
  | Absent => Err NoPendingIntent
  | Unsafe => Err (Text "restore swap: read pending marker: unsafe or oversized regular file")
  | Malformed => Err (Text "restore swap: pending marker is malformed")
  | Holds m => match validateMarker m with None => Ok m | Some e => Err (Text e) end
  end.
Definition readMarker : IO marker :=
  missing <- look (fun d => Ok (bool_decide (d_nodes d !! recovery_dir = None)));
  if (missing : bool) then throw NoPendingIntent else validateRecoveryDir ;; look marker_at.

Definition remove_marker_at (d : disk) : res fault bool * disk :=
  match d_marker d with
  | Absent => (Ok false, d)
  | Unsafe => (Err (Text "restore swap: pending marker is unsafe to remove"), d)
  | _ => (Ok true, with_marker d Absent)
  end.
Definition removeMarker : IO unit :=
  removed <- call remove_marker_at;
  if (removed : bool) then syncDirectory else pure tt.

Definition suppression_at (d : disk) : res fault suppressionMarker :=
  match d_suppression d with
  | Absent => Err NotExist
  | Unsafe => Err (Text "unsafe or oversized regular file")
  | Malformed => Err (Text "restore swap: router-write suppression is malformed")
  | Holds v => match validate_suppression v with None => Ok v | Some e => Err (Text e) end
  end.
Definition readSuppression : IO suppressionMarker := look suppression_at.

Definition receipt_at (d : disk) : res fault appliedReceipt :=
  match d_receipt d with
  | Absent => Err NoAppliedReceipt
  | Unsafe => Err (Text "unsafe or oversized regular file")
  | Malformed => Err (Text "restore swap: applied audit receipt is malformed")
  | Holds v => match validateAppliedReceipt v with None => Ok v | Some e => Err (Text e) end
  end.
Definition readAppliedReceipt : IO appliedReceipt := look receipt_at.

(** ** A program logic for the calls of the coordinator

    [wp d m Q J C]: run from the disk [d], the program [m] ends with [Q], or fails
    or dies with the disk in [J]; and if [G] holds, it fails only after an I/O
    error, and without one it dies only in [C]. Programs that only read are
    functions of the disk ([det]). *)

(** Without I/O errors; and without crashes either. *)
Definition clean (w : world) : Prop := Fails ∉ w_fates w.
Definition calm (w : world) : Prop := w_fates w = [].

Definition goes_on (w w' : world) : Prop :=
  w_now w' = w_now w /\ (clean w -> clean w') /\ (calm w -> calm w').

Lemma goes_on_refl w : goes_on w w.
Proof. by repeat split. Qed.
Lemma goes_on_trans w1 w2 w3 : goes_on w1 w2 -> goes_on w2 w3 -> goes_on w1 w3.
Proof. intros (A1 & A2 & A3) (B1 & B2 & B3). split_and!; [congruence|auto|auto]. Qed.
Lemma calm_clean w : calm w -> clean w.
Proof. unfold calm, clean. intros ->. apply not_elem_of_nil. Qed.

Definition is_text (e : fault) : Prop := forall target, Is target e = false.
Lemma text_is_text s : is_text (Text s).
Proof. by intros []. Qed.

(** ** Readers *)

Definition det {A} (d : disk) (m : IO A) (r : res fault A) : Prop := forall w, w_disk w = d ->
  match m w with
  | (Done a, w') => r = Ok a /\ w_disk w' = d /\ goes_on w w'
  | (Failed e, w') => (r = Err e \/ (~ clean w /\ is_text e)) /\ w_disk w' = d /\ goes_on w w'
  | (Crashed, w') => ~ calm w /\ w_disk w' = d
  end.

Lemma call_cases {A} (f : disk -> res fault A * disk) w :
  (call f w = (Crashed, set_fates w (tail (w_fates w))) /\ head (w_fates w) = Some Crashes) \/
  (call f w = (Failed io_error, set_fates w (tail (w_fates w))) /\ head (w_fates w) = Some Fails) \/
  exists w', goes_on w w' /\ w_disk w' = snd (f (w_disk w)) /\
    call f w = (match fst (f (w_disk w)) with Ok a => Done a | Err e => Failed e end, w').
Proof.
  unfold call. destruct (w_fates w) as [|[] l] eqn:E; [| |by right; left|by left].
  all: right; right; destruct (f (w_disk w)) as [r d'] eqn:Ef; cbn [set_fates w_disk]; rewrite Ef;
    exists (set_disk (set_fates w (tail (w_fates w))) d').
  all: split_and!; [|done|by rewrite E; destruct r].
  all: unfold goes_on, clean, calm; cbn [set_disk set_fates w_now w_fates]; rewrite E; split_and!; try done.
  intros H1 H2. apply H1. by right.
Qed.

Lemma fates_tail w f l : w_fates w = f :: l -> goes_on w (set_fates w l).
Proof.
  intros E. unfold goes_on, clean, calm. cbn [set_fates w_now w_fates]. rewrite E. split_and!; [done| |done].
  intros H1 H2. apply H1. by right.
Qed.
Lemma head_fates w f : head (w_fates w) = Some f -> exists l, w_fates w = f :: l.
Proof. destruct (w_fates w) as [|x l]; [done|]. cbn. intros [= ->]. eauto. Qed.

Lemma det_look {A} d (f : disk -> res fault A) : det d (look f) (f d).
Proof.
  intros w Hw. unfold look. destruct (call_cases (fun d => (f d, d)) w) as [[-> H]|[[-> H]|(w' & Hg & Hd & ->)]].
  - apply head_fates in H as [l H]. split; [|done]. unfold calm. by rewrite H.
  - apply head_fates in H as [l H]. split_and!; [right|done|rewrite H; by eapply fates_tail].
    split; [|apply text_is_text]. unfold clean. rewrite H. intros Hc. apply Hc. left.
  - cbn [fst snd] in *. rewrite Hw in *. destruct (f d); split_and!; auto.
Qed.
Lemma det_touch d : det d touch (Ok tt).
Proof. apply (det_look d (fun _ => Ok tt)). Qed.
Lemma det_pure {A} d (a : A) : det d (pure a) (Ok a).
Proof. intros w Hw. split_and!; [done|done|apply goes_on_refl]. Qed.
Lemma det_throw {A} d e : det d (@throw A e) (Err e).
Proof. intros w Hw. split_and!; [by left|done|apply goes_on_refl]. Qed.

Lemma det_bind {A B} d (m : IO A) (k : A -> IO B) r r' : det d m r ->
  (forall a, r = Ok a -> det d (k a) (r' a)) -> det d (seq_io m k) (let? a := r in r' a).
Proof.
  intros Hm Hk w Hw. unfold seq_io. specialize (Hm w Hw). destruct (m w) as [[a|e|] w1].
  - destruct Hm as (-> & Hd & Hg). specialize (Hk a eq_refl w1 Hd). destruct (k a w1) as [[b|e|] w2].
    + destruct Hk as (? & ? & ?). split_and!; [done|done|by eapply goes_on_trans].
    + destruct Hk as (Hk & ? & ?). split_and!; [|done|by eapply goes_on_trans].
      destruct Hk as [?|[Hc ?]]; [by left|right]. split; [|done]. intros Hc'. apply Hc. by apply Hg.
    + destruct Hk as (Hc & ?). split; [|done]. intros Hc'. apply Hc. by apply Hg.
  - destruct Hm as (Hr & Hd & Hg). split_and!; [|done|done]. destruct Hr as [->|?]; [by left|by right].
  - done.
Qed.
(** A result that is passed on. *)
Lemma det_eq {A} d (m : IO A) r r' : det d m r -> r = r' -> det d m r'.
Proof. by intros ? <-. Qed.

Lemma det_require d ok s : det d (require ok s) (if ok then Ok tt else Err (Text s)).
Proof. destruct ok; [apply det_pure|apply det_throw]. Qed.
Lemma det_lift {A} d (r : res fault A) : det d (lift r) r.
Proof. destruct r; [apply det_pure|apply det_throw]. Qed.
Lemma det_check d e : det d (check_io e) (match e with None => Ok tt | Some s => Err (Text s) end).
Proof. destruct e; [apply det_throw|apply det_pure]. Qed.
Lemma det_if {A} d (b : bool) (m1 m2 : IO A) r1 r2 : det d m1 r1 -> det d m2 r2 -> det d (if b then m1 else m2) (if b then r1 else r2).
Proof. by destruct b. Qed.

Lemma det_catch {A} d (m : IO A) h r r' : det d m r -> (forall a, r = Ok a -> r' = Ok a) ->
  (forall e, r = Err e -> det d (h e) r') ->
  (forall e, is_text e -> forall w, w_disk w = d -> match h e w with
     | (Done a, w') => False
     | (Failed e', w') => is_text e' /\ w_disk w' = d /\ goes_on w w'
     | (Crashed, w') => ~ calm w /\ w_disk w' = d end) ->
  det d (catch m h) r'.
Proof.
  intros Hm Ha He Ht w Hw. unfold catch. specialize (Hm w Hw). destruct (m w) as [[a|e|] w1].
  - destruct Hm as (-> & ? & ?). split_and!; [by apply Ha|done|done].
  - destruct Hm as ([->|[Hc Htx]] & Hd & Hg).
    + specialize (He e eq_refl w1 Hd). destruct (h e w1) as [[b|e'|] w2].
      * destruct He as (? & ? & ?). split_and!; [done|done|by eapply goes_on_trans].
      * destruct He as (He & ? & ?). split_and!; [|done|by eapply goes_on_trans].
        destruct He as [?|[Hc ?]]; [by left|right]. split; [|done]. intros Hc'. apply Hc. by apply Hg.
      * destruct He as (Hc & ?). split; [|done]. intros Hc'. apply Hc. by apply Hg.
    + specialize (Ht e Htx w1 Hd). destruct (h e w1) as [[b|e'|] w2]; [done| |].
      * destruct Ht as (? & ? & ?). split_and!; [by right|done|by eapply goes_on_trans].
      * destruct Ht as (Hc' & ?). split; [|done]. intros Hx. apply Hc'. by apply Hg.
  - done.
Qed.

Lemma thrown {A} e w : @throw A e w = (Failed e, w).
Proof. done. Qed.

Definition wrapped (s : error) (e : fault) : fault := match e with Text t => Text (s ++ ": " ++ t) | e => e end.
Lemma det_wrap {A} d s (m : IO A) r : det d m r ->
  det d (wrap s m) (match r with Ok a => Ok a | Err e => Err (wrapped s e) end).
Proof.
  intros Hm. eapply det_catch; [exact Hm| | |].
  - by intros a ->.
  - intros e ->. apply det_throw.
  - intros e Ht w Hw. rewrite thrown. split_and!; [|done|apply goes_on_refl].
    destruct e; try apply text_is_text; exact Ht.
Qed.
Lemma det_replace {A} d s (m : IO A) r : det d m r ->
  det d (replace_error s m) (match r with Ok a => Ok a | Err _ => Err (Text s) end).
Proof.
  intros Hm. eapply det_catch; [exact Hm| | |].
  - by intros a ->.
  - intros e ->. apply det_throw.
  - intros e Ht w Hw. rewrite thrown. split_and!; [apply text_is_text|done|apply goes_on_refl].
Qed.

(** A reader some error of which is an answer. *)
Lemma det_maybe {A} d (m : IO A) target r : det d m r ->
  det d (catch (a <- m; pure (Some a)) (fun e => if Is target e then pure None else throw e))
    (match r with Ok a => Ok (Some a) | Err e => if Is target e then Ok None else Err e end).
Proof.
  intros Hm. eapply det_catch; [eapply det_bind; [exact Hm|intros a _; apply det_pure]| | |].
  - intros a. destruct r as [x|e]; cbn; [by intros [= <-]|done].
  - intros e. destruct r as [x|e']; cbn; [done|]. intros [= ->]. destruct (Is target e); [apply det_pure|apply det_throw].
  - intros e Ht w Hw. rewrite Ht, thrown. split_and!; [done|done|apply goes_on_refl].
Qed.

(** ** Programs *)

Section Programs.
Context (t : string) (G : Prop).

Definition wp {A} (d : disk) (m : IO A) (Q : A -> disk -> Prop) (J C : disk -> Prop) : Prop :=
  forall w, w_disk w = d -> w_now w = t ->
  match m w with
  | (Done a, w') => Q a (w_disk w') /\ goes_on w w'
  | (Failed e, w') => J (w_disk w') /\ (G -> ~ clean w) /\ goes_on w w'
  | (Crashed, w') => J (w_disk w') /\ (G -> clean w -> C (w_disk w')) /\ ~ calm w
  end.

Lemma wp_det {A} d (m : IO A) r Q (J C : disk -> Prop) : det d m r -> J d -> C d ->
  (G -> exists a, r = Ok a) -> (forall a, r = Ok a -> Q a d) -> wp d m Q J C.
Proof.
  intros Hm HJ HC HG HQ w Hw Ht. specialize (Hm w Hw). destruct (m w) as [[a|e|] w1].
  - destruct Hm as (-> & -> & ?). auto.
  - destruct Hm as (Hr & -> & ?). split_and!; [done| |done]. intros Hg Hc. destruct (HG Hg) as [a Ha].
    destruct Hr as [Hr|[Hr _]]; [congruence|done].
  - destruct Hm as (? & ->). auto.
Qed.

Lemma wp_bind {A B} d (m : IO A) (k : A -> IO B) Q Q' (J C : disk -> Prop) :
  wp d m Q' J C -> (forall a d1, Q' a d1 -> wp d1 (k a) Q J C) -> wp d (seq_io m k) Q J C.
Proof.
  intros Hm Hk w Hw Ht. specialize (Hm w Hw Ht). unfold seq_io. destruct (m w) as [[a|e|] w1]; [|done..].
  destruct Hm as [HQ Hg]. assert (Ht1 : w_now w1 = t) by (destruct Hg; congruence).
  specialize (Hk a _ HQ w1 eq_refl Ht1). destruct (k a w1) as [[b|e|] w2].
  - destruct Hk. split; [done|by eapply goes_on_trans].
  - destruct Hk as (? & Hc & ?). split_and!; [done| |by eapply goes_on_trans]. intros HG Hc'. apply Hc; [done|]. by apply Hg.
  - destruct Hk as (? & Hc & Hn). split_and!; [done| |intros Hc'; apply Hn; by apply Hg]. intros HG Hc'. apply Hc; [done|]. by apply Hg.
Qed.

(** A reader, and then the rest. *)
Lemma wp_read {A B} d (m : IO A) r (k : A -> IO B) Q (J C : disk -> Prop) : det d m r -> J d -> C d ->
  (G -> exists a, r = Ok a) -> (forall a, r = Ok a -> wp d (k a) Q J C) -> wp d (seq_io m k) Q J C.
Proof.
  intros Hm HJ HC HG Hk. eapply (wp_bind _ _ _ _ (fun a d1 => d1 = d /\ r = Ok a)).
  - by eapply wp_det; [exact Hm|..].
  - intros a d1 [-> Ha]. by apply Hk.
Qed.
Lemma wp_touch {B} d (k : unit -> IO B) Q (J C : disk -> Prop) : J d -> C d -> wp d (k tt) Q J C -> wp d (seq_io touch k) Q J C.
Proof. intros. eapply wp_read; [apply det_touch|done|done|by eexists|by intros [] _]. Qed.

Lemma wp_pure {A} d (a : A) (Q : A -> disk -> Prop) (J C : disk -> Prop) : Q a d -> wp d (pure a) Q J C.
Proof. intros HQ w <- _. split; [done|apply goes_on_refl]. Qed.

Lemma wp_now {A} d (k : string -> IO A) Q (J C : disk -> Prop) : wp d (k t) Q J C -> wp d (seq_io now k) Q J C.
Proof.
  intros Hk w Hw Ht. unfold seq_io, now. specialize (Hk w Hw Ht). by rewrite Ht.
Qed.

Lemma wp_call {A} d (f : disk -> res fault A * disk) (Q : A -> disk -> Prop) (J C : disk -> Prop) : J d -> C d ->
  (forall a d1, f d = (Ok a, d1) -> Q a d1) ->
  (forall e d1, f d = (Err e, d1) -> J d1 /\ ~ G) -> wp d (call f) Q J C.
Proof.
  intros HJ HC HQ HE w Hw Ht. destruct (call_cases f w) as [[-> H]|[[-> H]|(w' & Hg & Hd & ->)]].
  - apply head_fates in H as [l H]. cbn [set_fates w_disk]. rewrite Hw. split_and!; [done|auto|]. unfold calm. by rewrite H.
  - apply head_fates in H as [l H]. cbn [set_fates w_disk]. rewrite Hw. split_and!; [done| |rewrite H; by eapply fates_tail].
    intros _ Hc. apply Hc. rewrite H. left.
  - rewrite Hw in *. rewrite Hd. destruct (f d) as [[a|e] d1] eqn:Ef; cbn [fst snd].
    + auto.
    + destruct (HE e d1 eq_refl). split_and!; [done|done|done].
Qed.

Lemma wp_mono {A} d (m : IO A) (Q Q' : A -> disk -> Prop) (J J' C C' : disk -> Prop) : wp d m Q J C ->
  (forall a d1, Q a d1 -> Q' a d1) -> (forall d1, J d1 -> J' d1) -> (forall d1, C d1 -> C' d1) -> wp d m Q' J' C'.
Proof.
  intros Hm HQ HJ HC w Hw Ht. specialize (Hm w Hw Ht). destruct (m w) as [[a|e|] w1].
  - destruct Hm. auto.
  - destruct Hm as (? & ? & ?). auto.
  - destruct Hm as (? & ? & ?). split_and!; auto.
Qed.

(** An error handler that always fails in the end. It runs after an I/O error, or
    when [G] does not hold. *)
Lemma wp_catch {A} d (m : IO A) h Q (J J' C : disk -> Prop) : wp d m Q J C -> (forall d1, J d1 -> J' d1) ->
  (forall e d1, J d1 -> forall w, w_disk w = d1 -> w_now w = t -> match h e w with
     | (Done a, w') => False
     | (Failed e', w') => J' (w_disk w') /\ goes_on w w'
     | (Crashed, w') => J' (w_disk w') /\ ~ calm w end) ->
  wp d (catch m h) Q J' C.
Proof.
  intros Hm HJ Hh w Hw Ht. unfold catch. specialize (Hm w Hw Ht). destruct (m w) as [[a|e|] w1]; [done| |].
  - destruct Hm as (HJ1 & Hc & Hg). assert (Ht1 : w_now w1 = t) by (destruct Hg; congruence).
    specialize (Hh e _ HJ1 w1 eq_refl Ht1). destruct (h e w1) as [[b|e'|] w2]; [done| |].
    + destruct Hh. split_and!; [done|done|by eapply goes_on_trans].
    + destruct Hh as [? Hn]. split_and!; [done| |intros Hx; apply Hn; by apply Hg]. intros HG Hx. by destruct (Hc HG).
  - destruct Hm as (? & ? & ?). split_and!; auto.
Qed.
Lemma wp_wrap {A} d s (m : IO A) Q (J C : disk -> Prop) : wp d m Q J C -> wp d (wrap s m) Q J C.
Proof.
  intros Hm. eapply wp_catch; [exact Hm|done|]. intros e d1 HJ w <- _. rewrite thrown. split; [done|apply goes_on_refl].
Qed.
Lemma wp_replace {A} d s (m : IO A) Q (J C : disk -> Prop) : wp d m Q J C -> wp d (replace_error s m) Q J C.
Proof.
  intros Hm. eapply wp_catch; [exact Hm|done|]. intros e d1 HJ w <- _. rewrite thrown. split; [done|apply goes_on_refl].
Qed.
Lemma wp_throw {A} d e (Q : A -> disk -> Prop) (J C : disk -> Prop) : J d -> (G -> False) -> wp d (throw e) Q J C.
Proof. intros HJ HG w <- _. rewrite thrown. split_and!; [done|by intros ?%HG|apply goes_on_refl]. Qed.
End Programs.

(** A handler that is itself such a program, and always fails in the end. *)
Lemma wp_catch_with t G {A} d (m : IO A) h (Q : A -> disk -> Prop) (J J' C : disk -> Prop) : wp t G d m Q J C ->
  (forall d1, J d1 -> J' d1) ->
  (forall e d1, J d1 -> wp t False d1 (h e) (fun _ _ => False) J' (fun _ => True)) -> wp t G d (catch m h) Q J' C.
Proof.
  intros Hm HJ Hh. eapply wp_catch; [exact Hm|done|]. intros e d1 HJ1 w Hw Ht. specialize (Hh e d1 HJ1 w Hw Ht).
  destruct (h e w) as [[a|e'|] w2]; [by destruct Hh|by destruct Hh as (? & _ & ?)|by destruct Hh as (? & _ & ?)].
Qed.

(** The engine of a proof about a program: readers are evaluated. *)
#[export] Hint Resolve det_look det_touch det_pure det_throw det_require det_lift det_check det_wrap det_replace det_maybe : det.
Ltac det_step :=
  match goal with
  | |- det _ (seq_io _ _) _ => eapply det_bind; [det_step|let H := fresh "Hr" in intros ? H; det_step]
  | |- det _ (wrap _ _) _ => eapply det_wrap; det_step
  | |- det _ (replace_error _ _) _ => eapply det_replace; det_step
  | |- det _ (if _ then _ else _) _ => eapply det_if; det_step
  | |- _ => solve [eauto with det]
  end.
