(* ===== verification/RestoreSwap.v ===== *)
(** * Restore swap: the coordinator

    internal/restoreswap: a restore replaces the pair of the controller's
    database and keyring by a prepared pair while nothing has them open. An
    intent names the pair and seals the export passphrase; a clean shutdown
    promotes it; the next start applies it, step by step, each step recorded in
    the durable marker before the next, and whatever happened before is found
    again from the files. The fence against router writes and the receipt for
    the audit are published before the marker is removed.

    - restoreswap.go: createIntent, markCleanShutdown, AbortUnclean,
      applyPending, HasPending, OwnsUncleanIntent;
    - apply.go, reconcile.go: applyReady and its steps, restoreOld;
    - receipt.go, suppression.go: what outlives the restore, and how it ends.

    The hooks of the package's tests (operations.boundary and the like) are nil
    outside them and left out; crashes are the disk's. *)

From Stdlib Require Import ZArith Lia Ascii String.
From stdpp Require Import base gmap list strings sorting.
From S2P Require Import Prelude GoStr GoFmt Sha256 RestoreMarker RestoreDisk.

Local Open Scope string_scope.
Local Open Scope Z_scope.

(** What the coordinator asks of keyrings (internal/secrets), backups
    (internal/portablebackup) and closed databases (internal/store,
    internal/recovery): functions of the bytes of the files. A keyring opens
    with at most one keeper, and a backup that was created opens, with its
    passphrase, to the digest of its database, and has an acceptable size. *)
Class Vault := {
  keeper : Type;
  Open : string -> string -> res fault keeper;
  Seal : keeper -> string -> string -> res fault string;
  Unseal : keeper -> string -> string -> res fault string;
  Create : keeper -> string -> string -> string -> Z -> string -> res fault string;
  Extract : string -> string -> res fault fileRecord;
  Validate : string -> keeper -> res fault recoveryDTO;
  Open_unique keyring p1 p2 k1 k2 : Open keyring p1 = Ok k1 -> Open keyring p2 = Ok k2 -> k1 = k2;
  Create_Extract k db pass version schema at_ artifact :
    Create k db pass version schema at_ = Ok artifact ->
    Extract artifact pass = Ok (record_of db) /\ 1 <= len artifact <= safetyMaxBytes
}.

(** ** Paths *)

Definition db_path : path := [databaseName].
Definition kr_path : path := [keyringName].
Definition prepared_db (m : marker) : path := [m_PreparedDir m; m_PreparedDatabase m].
Definition prepared_kr (m : marker) : path := [m_PreparedDir m; m_PreparedKeyring m].
Definition rollback_dir (m : marker) : path := [recoveryDirName; rollbackName m].
Definition rollback_db (m : marker) : path := [recoveryDirName; rollbackName m; databaseName].
Definition rollback_kr (m : marker) : path := [recoveryDirName; rollbackName m; keyringName].
Definition safety_path (m : marker) : path := [recoveryDirName; safetyName m].

Definition maxFor (canonical : path) : Z :=
  if bool_decide (canonical = kr_path) then keyringMaxBytes else MaxDatabaseBytes.

Definition data_at (d : disk) (p : path) : res fault string :=
  match d_nodes d !! p with Some (File _ data) => Ok data | Some _ => Err io_error | None => Err NotExist end.
Definition read (p : path) : IO string := look (fun d => data_at d p).

Definition ownPassphrase (passphrase : string) : IO string :=
  require (negb (len passphrase =? 0)) "restore swap: passphrase is empty" ;;
  require (len passphrase <=? passphraseMaxBytes) "restore swap: passphrase exceeds its ceiling" ;;
  pure passphrase.

Definition openDataRoot : IO unit := touch.

Section Coordinator.
Context `{V : Vault}.

Definition open_keyring (p : path) (passphrase : string) : IO keeper :=
  data <- read p; lift (Open data passphrase).

(** ** Pairs *)

Definition validatePair (database keyring : path) (runtime : string) (wantDatabase wantKeyring : fileRecord)
    : IO recoveryDTO :=
  requireHash database wantDatabase MaxDatabaseBytes ;;
  requireHash keyring wantKeyring keyringMaxBytes ;;
  checkNamedDataRoot ;;
  k <- open_keyring keyring runtime;
  checkNamedDataRoot ;;
  replace_error "restore swap: keyring changed while opening" (requireHash keyring wantKeyring keyringMaxBytes) ;;
  data <- read database;
  checkNamedDataRoot ;;
  replace_error "restore swap: database changed while opening" (requireHash database wantDatabase MaxDatabaseBytes) ;;
  counts <- lift (Validate data k);
  checkNamedDataRoot ;;
  replace_error "restore swap: database changed while validating" (requireHash database wantDatabase MaxDatabaseBytes) ;;
  replace_error "restore swap: keyring changed while validating" (requireHash keyring wantKeyring keyringMaxBytes) ;;
  pure counts.

Definition verifyPrepared (m : marker) : IO unit :=
  let member p want maximum :=
    replace_error "restore swap: prepared pair changed after intent creation"
      (got <- hashRootFile p 1 maximum; require (bool_decide (got = want)) "") in
  requireExactDirectory [m_PreparedDir m] [m_PreparedDatabase m; m_PreparedKeyring m] ;;
  member (prepared_db m) (m_PreparedDatabaseFile m) MaxDatabaseBytes ;;
  member (prepared_kr m) (m_PreparedKeyringFile m) keyringMaxBytes.

(** The node of a directory this restore owns. *)
Definition look_dir (p : path) : IO (option node) := look (fun d => Ok (d_nodes d !! p)).

Definition removePreparedOwned (m : marker) (allowPartial : bool) : IO unit :=
  let dir := [m_PreparedDir m] in
  let member p want maximum :=
    found <- catch (got <- hashRootFile p 1 maximum; pure (Some got))
                   (fun e => if Is NotExist e && allowPartial then pure None
                             else throw (Text "restore swap: prepared member is unsafe to remove"));
    match found with
    | None => pure tt
    | Some got =>
        require (bool_decide (got = want)) "restore swap: prepared member is unsafe to remove" ;;
        wrap "restore swap: remove prepared member" (Remove p)
    end in
  found <- look_dir dir;
  if bool_decide (found = None) && allowPartial then pure tt
  else
    require (is_private_dir found) "restore swap: prepared directory is unsafe to remove" ;;
    requireDirectorySubset dir [m_PreparedDatabase m; m_PreparedKeyring m] ;;
    member (prepared_db m) (m_PreparedDatabaseFile m) MaxDatabaseBytes ;;
    member (prepared_kr m) (m_PreparedKeyringFile m) keyringMaxBytes ;;
    requireExactDirectory dir [] ;;
    wrap "restore swap: remove prepared directory" (Remove dir) ;;
    syncDirectory.

Definition removeRollbackOwned (m : marker) : IO unit :=
  let dir := rollback_dir m in
  let member p want maximum :=
    found <- pathRecord p want maximum;
    match found with
    | matchMissing => pure tt
    | matchOther => throw (Text "restore swap: rollback member is unsafe to remove")
    | matchExpected => wrap "restore swap: remove rollback member" (Remove p)
    end in
  found <- look_dir dir;
  if bool_decide (found = None) then pure tt
  else
    require (is_private_dir found) "restore swap: rollback directory is unsafe to remove" ;;
    requireDirectorySubset dir [databaseName; keyringName] ;;
    member (rollback_db m) (m_OldDatabase m) MaxDatabaseBytes ;;
    member (rollback_kr m) (m_OldKeyring m) keyringMaxBytes ;;
    requireExactDirectory dir [] ;;
    wrap "restore swap: remove rollback directory" (Remove dir) ;;
    syncDirectory.

Definition ensureRollbackDirectory (m : marker) : IO unit :=
  found <- look_dir (rollback_dir m);
  match found with
  | None => wrap "restore swap: create rollback directory" (Mkdir (rollback_dir m)) ;; syncDirectory
  | Some _ => require (is_private_dir found) "restore swap: rollback directory is unsafe"
  end.

(** ** The safety artifact *)

(** An artifact that was hashed opens, unchanged, to the digest of the old
    database. [Extract] writes to a stage of its own, which is removed again. *)
Definition check_artifact (what : error) (m : marker) (record : fileRecord) (exportPassphrase : string) : IO unit :=
  checkNamedDataRoot ;;
  data <- read (safety_path m);
  manifest <- wrap what (lift (Extract data exportPassphrase));
  checkNamedDataRoot ;;
  replace_error "restore swap: safety artifact changed while authenticating"
    (after <- hashRootFile (safety_path m) 1 safetyMaxBytes; require (bool_decide (after = record)) "") ;;
  require (bool_decide (manifest = m_OldDatabase m)) "restore swap: safety artifact does not contain the old controller database" ;;
  touch.

Definition authenticateUnrecordedSafety (m : marker) (exportPassphrase : string) : IO fileRecord :=
  record <- hashRootFile (safety_path m) 1 safetyMaxBytes;
  check_artifact "restore swap: authenticate recovered safety artifact" m record exportPassphrase ;;
  pure record.

Definition verifySafety (m : marker) (exportPassphrase : string) : IO unit :=
  record <- replace_error "restore swap: pre-restore safety artifact changed"
              (record <- hashRootFile (safety_path m) 1 safetyMaxBytes;
               require (bool_decide (record = m_SafetyBackupFile m)) "" ;; pure record);
  check_artifact "restore swap: authenticate pre-restore safety artifact" m record exportPassphrase.

(** [portablebackup.Create]: the artifact is published whole, and withdrawn when
    what follows its publication fails. *)
Definition create_backup (m : marker) (k : keeper) (exportPassphrase controllerVersion : string) (schema : Z) (created : string)
    : IO fileRecord :=
  touch ;;
  data <- read db_path;
  artifact <- lift (Create k data exportPassphrase controllerVersion schema created);
  call (fun d => match d_nodes d !! safety_path m with
                 | None => (Ok tt, with_nodes d (<[safety_path m := File private_file artifact]> (d_nodes d)))
                 | Some _ => (Err (Text "portable backup: output already exists"), d)
                 end) ;;
  catch (syncDirectory ;; touch ;; syncDirectory)
    (fun e => catch (Remove (safety_path m)) (fun e' => throw (Joined e e')) ;; syncDirectory ;; throw e) ;;
  pure (record_of artifact).

Definition ensureSafety (m : marker) (k : keeper) (exportPassphrase controllerVersion : string) (schema : Z) : IO marker :=
  ctx_Err ;;
  created <- now;
  require (dated created) "restore swap: current time is invalid" ;;
  found <- look_dir (safety_path m);
  record <-
    match found with
    | None =>
        checkNamedDataRoot ;;
        record <- wrap "restore swap: create pre-restore safety artifact"
                    (create_backup m k exportPassphrase controllerVersion schema created);
        checkNamedDataRoot ;;
        replace_error "restore swap: old database changed while creating safety artifact"
          (requireHash db_path (m_OldDatabase m) MaxDatabaseBytes) ;;
        pure record
    | Some _ => authenticateUnrecordedSafety m exportPassphrase
    end;
  let m := with_safety m record created in
  verifySafety m exportPassphrase ;;
  let m := with_state m stateSafety in
  replaceMarker m ;;
  pure m.

(** ** The swap *)

Definition parkOld (canonical rollback : path) (newRecord oldRecord : fileRecord) : IO unit :=
  if bool_decide (newRecord = oldRecord) then requireHash canonical oldRecord (maxFor canonical)
  else
    rollbackState <- pathRecord rollback oldRecord (maxFor canonical);
    canonicalState <- pathRecord canonical oldRecord (maxFor canonical);
    if bool_decide (rollbackState = matchExpected) then
      if bool_decide (canonicalState = matchMissing) then pure tt
      else replace_error "restore swap: canonical member conflicts with parked rollback"
             (candidate <- hashRootFile canonical 1 (maxFor canonical);
              require (bool_decide (candidate = newRecord)) "")
    else
      require (bool_decide (rollbackState = matchMissing) && bool_decide (canonicalState = matchExpected))
        "restore swap: old controller member is missing or changed" ;;
      ctx_Err ;;
      renameNoClobber canonical rollback ;;
      syncRenameParents.

Definition publishNew (canonical prepared : path) (newRecord oldRecord : fileRecord) : IO unit :=
  if bool_decide (newRecord = oldRecord) then requireHash canonical newRecord (maxFor canonical)
  else
    canonicalState <- pathRecord canonical newRecord (maxFor canonical);
    if bool_decide (canonicalState = matchExpected) then pure tt
    else
      require (bool_decide (canonicalState = matchMissing)) "restore swap: canonical destination is not empty before publication" ;;
      replace_error "restore swap: prepared member is missing or changed" (requireHash prepared newRecord (maxFor canonical)) ;;
      ctx_Err ;;
      renameNoClobber prepared canonical ;;
      syncRenameParents.

Definition advance (m : marker) (state : string) : IO marker :=
  if stateAtLeast (m_State m) state then pure m
  else let m := with_state m state in replaceMarker m ;; pure m.

Definition ensureSuppression (m : marker) (created : string) : IO unit :=
  existing <- catch (s <- readSuppression; pure (Some s))
                    (fun e => if Is NotExist e then pure None else throw e);
  match existing with
  | Some s =>
      require (String.eqb (sm_RestoreID s) (m_ID m)) "restore swap: an earlier router-write suppression is still active"
  | None =>
      require (dated created) "restore swap: suppression creation time is invalid" ;;
      write_new d_suppression with_suppression (MkSuppressionMarker suppressionFormat 1 (m_ID m) created suppressionReason)
  end.

Definition restore_member (canonical prepared rollback : path) (old new : fileRecord) (maximum : Z) : IO unit :=
  if bool_decide (old = new) then
    wrap "restore swap: unchanged old member failed recovery" (requireHash canonical old maximum)
  else
    canonicalMatch <- pathRecord canonical old maximum;
    if bool_decide (canonicalMatch = matchExpected) then pure tt
    else
      newMatch <- pathRecord canonical new maximum;
      match newMatch with
      | matchExpected =>
          preparedMatch <- pathRecord prepared new maximum;
          match preparedMatch with
          | matchMissing => renameNoClobber canonical prepared ;; syncRenameParents
          | matchExpected =>
              wrap "restore swap: remove duplicate prepared member during rollback" (Remove canonical) ;; syncDirectory
          | matchOther => throw (Text "restore swap: prepared member conflicts during rollback")
          end
      | matchOther => throw (Text "restore swap: canonical member is tampered; refusing destructive rollback")
      | matchMissing => pure tt
      end ;;
      replace_error "restore swap: raw rollback member is unavailable"
        (found <- pathRecord rollback old maximum; require (bool_decide (found = matchExpected)) "") ;;
      renameNoClobber rollback canonical ;;
      syncRenameParents.

Definition restoreOld (m : marker) (runtime : string) : IO unit :=
  wrap "restore swap: recover rollback directory" (ensureRollbackDirectory m) ;;
  restore_member db_path (prepared_db m) (rollback_db m) (m_OldDatabase m) (m_PreparedDatabaseFile m) MaxDatabaseBytes ;;
  restore_member kr_path (prepared_kr m) (rollback_kr m) (m_OldKeyring m) (m_PreparedKeyringFile m) keyringMaxBytes ;;
  _ <- wrap "restore swap: recovered old pair failed validation"
         (validatePair db_path kr_path runtime (m_OldDatabase m) (m_OldKeyring m));
  replaceMarker (with_validated (with_state m stateSafety) no_recovery) ;;
  removeRollbackOwned m.

(** The steps from the safety artifact to the final state of the marker. *)
Definition swap_steps (m : marker) (runtime : string) : IO marker :=
  ensureRollbackDirectory m ;;
  parkOld db_path (rollback_db m) (m_PreparedDatabaseFile m) (m_OldDatabase m) ;;
  m <- advance m stateOldDBParked;
  parkOld kr_path (rollback_kr m) (m_PreparedKeyringFile m) (m_OldKeyring m) ;;
  m <- advance m stateOldPairParked;
  publishNew db_path (prepared_db m) (m_PreparedDatabaseFile m) (m_OldDatabase m) ;;
  m <- advance m stateNewDBPublished;
  publishNew kr_path (prepared_kr m) (m_PreparedKeyringFile m) (m_OldKeyring m) ;;
  m <- advance m stateNewPairPublished;
  counts <- wrap "restore swap: prepared controller pair failed validation"
              (validatePair db_path kr_path runtime (m_PreparedDatabaseFile m) (m_PreparedKeyringFile m));
  let m := with_validated m counts in
  m <- advance m stateValidated;
  created <- now;
  ensureSuppression m created ;;
  m <- advance m stateSuppressed;
  advance m stateCleanup.

(** ** The end of a restore *)

Record Result := MkResult {
  rs_Applied : bool;
  rs_RestoreID : string;
  rs_SafetyBackup : string;
  rs_SafetyBackupSHA256 : string;
  rs_PreparedDatabaseSHA256 : string;
  rs_PreparedKeyringSHA256 : string;
  rs_AuthorizingAdminID : Z;
  rs_AuthorizingUsername : string;
  rs_PreviewID : string;
  rs_PlanID : string;
  rs_Counts : recoveryDTO
}.

Definition ensureAppliedReceipt (m : marker) : IO unit :=
  let want := receiptFor m in
  existing <- catch (r <- readAppliedReceipt; pure (Some r))
                    (fun e => if Is NoAppliedReceipt e then pure None else throw e);
  match existing with
  | Some got => require (bool_decide (got = want)) "restore swap: an earlier applied audit receipt is still pending"
  | None => write_new d_receipt with_receipt want
  end.

Definition finishCleanup (m : marker) (runtime : string) : IO Result :=
  checkNamedDataRoot ;;
  replace_error "restore swap: retained safety artifact is missing or changed"
    (requireHash (safety_path m) (m_SafetyBackupFile m) safetyMaxBytes) ;;
  counts <- wrap "restore swap: final controller pair failed validation"
              (validatePair db_path kr_path runtime (m_PreparedDatabaseFile m) (m_PreparedKeyringFile m));
  require (bool_decide (counts = m_ValidatedCounts m)) "restore swap: final validation inventory changed" ;;
  suppression <- readSuppression;
  require (String.eqb (sm_RestoreID suppression) (m_ID m)) "restore swap: router-write suppression belongs to another restore" ;;
  ensureAppliedReceipt m ;;
  removeRollbackOwned m ;;
  removePreparedOwned m true ;;
  removeMarker ;;
  checkNamedDataRoot ;;
  pure (MkResult true (m_ID m) (safetyName m) (fr_SHA256 (m_SafetyBackupFile m)) (fr_SHA256 (m_PreparedDatabaseFile m))
          (fr_SHA256 (m_PreparedKeyringFile m)) (m_AuthorizingAdminID m) (m_AuthorizingUsername m) (m_PreviewID m)
          (m_PlanID m) counts).

(** ** Applying *)

(** Everything before the swap: what it can be undone with, and the marker. *)
Definition prepare_swap (m : marker) (runtime controllerVersion : string) : IO marker :=
  oldDatabasePath <- locateExpected (m_OldDatabase m) db_path (rollback_db m) MaxDatabaseBytes;
  oldKeyringPath <- locateExpected (m_OldKeyring m) kr_path (rollback_kr m) keyringMaxBytes;
  let untouched := bool_decide (oldDatabasePath = db_path) && bool_decide (oldKeyringPath = kr_path) in
  (if untouched then verifyPrepared m else pure tt) ;;
  checkNamedDataRoot ;;
  k <- wrap "restore swap: open old controller keyring" (open_keyring oldKeyringPath runtime);
  checkNamedDataRoot ;;
  replace_error "restore swap: old keyring changed while opening" (requireHash oldKeyringPath (m_OldKeyring m) keyringMaxBytes) ;;
  exportPassphrase <- replace_error "restore swap: sealed export passphrase authentication failed"
                        (lift (Unseal k (m_Sealed m) (intentAAD m)));
  require (negb (len exportPassphrase =? 0) && (len exportPassphrase <=? passphraseMaxBytes))
    "restore swap: sealed export passphrase authentication failed" ;;
  oldCounts <- wrap "restore swap: old controller pair failed validation"
                 (validatePair oldDatabasePath oldKeyringPath runtime (m_OldDatabase m) (m_OldKeyring m));
  m <-
    (if stateAtLeast (m_State m) stateSafety then verifySafety m exportPassphrase ;; pure m
     else
       require untouched "restore swap: swap started before a safety artifact was recorded" ;;
       ensureSafety m k exportPassphrase controllerVersion (rc_Schema oldCounts));
  ctx_Err ;;
  pure m.

(** A step that fails is undone. The undoing looks only at what the marker says
    of files, which the steps do not change. *)
Definition applyReady (m : marker) (runtime controllerVersion : string) : IO Result :=
  m <- prepare_swap m runtime controllerVersion;
  m <- catch (swap_steps m runtime)
             (fun cause => catch (restoreOld m runtime) (fun e => throw (Joined cause e)) ;; throw cause);
  finishCleanup m runtime.

Definition ApplyPending (runtimePassphrase controllerVersion : string) : IO Result :=
  ctx_Err ;;
  check_io (validateControllerVersion controllerVersion) ;;
  runtime <- ownPassphrase runtimePassphrase;
  openDataRoot ;;
  checkNamedDataRoot ;;
  m <- readMarker;
  if String.eqb (m_State m) stateIntent then throw UncleanIntent
  else if String.eqb (m_State m) stateCleanup then finishCleanup m runtime
  else applyReady m runtime controllerVersion.
End Coordinator.

(** ** Restore swap: intents, and what outlives a restore

    - internal/restoreswap/restoreswap.go: HasPending, OwnsUncleanIntent,
      createIntent, markCleanShutdown, AbortUnclean;
    - internal/restoreswap/receipt.go and suppression.go: the receipt of an
      applied restore until its audit event is durable, the pruning of safety
      artifacts, and the fence against router writes;
    - internal/daemon/restore_lifecycle.go: what a starting controller does with
      all of it. *)

(** The paths of a prepared pair are given by their components relative to the
    data directory, cleaned ([filepath.Rel], [filepath.Clean]). *)
Record PreparedPair := MkPrepared {
  pp_Database : list string;
  pp_Keyring : list string;
  pp_AuthorizingAdminID : Z;
  pp_AuthorizingUsername : string;
  pp_PreviewID : string;
  pp_PlanID : string
}.

Record preparedPaths := MkPaths {
  pa_dir : string;
  pa_database : string;
  pa_keyring : string;
  pa_databaseFile : fileRecord;
  pa_keyringFile : fileRecord
}.

Record IntentResult := MkIntent {
  it_ID : string;
  it_PreparedDatabaseSHA256 : string;
  it_PreparedKeyringSHA256 : string
}.
Definition intentResult (m : marker) : IntentResult :=
  MkIntent (m_ID m) (fr_SHA256 (m_PreparedDatabaseFile m)) (fr_SHA256 (m_PreparedKeyringFile m)).

(** [IntentRetainedError]: the marker owns the prepared pair. *)
Inductive creation :=
| Created (r : IntentResult)
| Refused (e : fault)
| Retained (r : IntentResult) (cause : fault).

Definition HasPending : IO bool :=
  openDataRoot ;;
  catch (readMarker ;; pure true) (fun e => if Is NoPendingIntent e then pure false else throw e).

Definition OwnsUncleanIntent (ownerInstanceID : string) : IO bool :=
  check_io (validateInstanceID ownerInstanceID) ;;
  openDataRoot ;;
  found <- catch (m <- readMarker; pure (Some m)) (fun e => if Is NoPendingIntent e then pure None else throw e);
  match found with
  | None => pure false
  | Some m =>
      checkNamedDataRoot ;;
      pure (String.eqb (m_State m) stateIntent && String.eqb (m_OwnerInstanceID m) ownerInstanceID)
  end.

Definition directChildMember (parts : list string) : IO (string * string) :=
  match parts with
  | [dir; name] =>
      require (safeBaseName dir && safeBaseName name) "path must name a file in one immediate-child directory" ;; pure (dir, name)
  | _ => throw (Text "path must name a file in one immediate-child directory")
  end.

Definition inspectPrepared (prepared : PreparedPair) : IO preparedPaths :=
  db <- wrap "restore swap: prepared database path" (directChildMember (pp_Database prepared));
  kr <- wrap "restore swap: prepared keyring path" (directChildMember (pp_Keyring prepared));
  let '(dir, database) := db in
  let '(keyDir, keyring) := kr in
  require (String.eqb dir keyDir && negb (String.eqb database keyring) && negb (String.eqb dir recoveryDirName))
    "restore swap: prepared pair must be two files in one dedicated directory" ;;
  requireExactDirectory [dir] [database; keyring] ;;
  databaseFile <- wrap "restore swap: hash prepared database" (hashRootFile [dir; database] 1 MaxDatabaseBytes);
  keyringFile <- wrap "restore swap: hash prepared keyring" (hashRootFile [dir; keyring] 1 keyringMaxBytes);
  syncDirectory ;;
  ensureSameFilesystem ;;
  ensureSameFilesystem ;;
  ensureSameFilesystem ;;
  pure (MkPaths dir database keyring databaseFile keyringFile).

Definition random_id : IO string := fun w => (Done (w_id w), w).

Definition rollbackPublishedIntent (m : marker) (cause : fault) : IO creation :=
  current <- catch (c <- readMarker; pure (Some c)) (fun _ => pure None);
  if bool_decide (current = Some m)
  then catch (removeMarker ;; pure (Refused cause)) (fun _ => pure (Retained (intentResult m) cause))
  else pure (Retained (intentResult m) cause).

(** What is at the marker's path. *)
Definition marker_present (d : disk) : res fault (option bool) :=
  match d_marker d with Absent => Ok None | Unsafe => Ok (Some false) | _ => Ok (Some true) end.

Definition reconcileIntentPublicationFailure (m : marker) (cause : fault) : IO creation :=
  found <- catch (look marker_present) (fun _ => pure (Some false));
  match found with
  | None => pure (Refused cause)
  | Some true => rollbackPublishedIntent m cause
  | Some false => pure (Retained (intentResult m) cause)
  end.

Section Intents.
Context `{V : Vault}.

(** Up to the publication: the marker to publish. *)
Definition intent_marker (prepared : PreparedPair) (old : option keeper) (exportPassphrase ownerInstanceID : string) : IO marker :=
  ctx_Err ;;
  match old with
  | None => throw (Text "restore swap: live secrets keeper is unavailable")
  | Some k =>
      check_io (validateInstanceID ownerInstanceID) ;;
      passphrase <- ownPassphrase exportPassphrase;
      openDataRoot ;;
      ensureRecoveryDir ;;
      present <- look marker_present;
      require (bool_decide (present = None)) "restore swap: pending marker already exists" ;;
      paths <- inspectPrepared prepared;
      id <- random_id;
      created <- now;
      require (dated created) "restore swap: current time is invalid" ;;
      let m := MkMarker markerFormat markerVersion id stateIntent ownerInstanceID created (pa_dir paths) (pa_database paths)
                 (pa_keyring paths) (pa_databaseFile paths) (pa_keyringFile paths) (pp_AuthorizingAdminID prepared)
                 (pp_AuthorizingUsername prepared) (pp_PreviewID prepared) (pp_PlanID prepared) "" no_file no_file no_file ""
                 no_recovery in
      sealed <- wrap "restore swap: seal export passphrase" (lift (Seal k passphrase (intentAAD m)));
      checkNamedDataRoot ;;
      pure (with_sealed m sealed)
  end.

Definition CreateIntent (prepared : PreparedPair) (old : option keeper) (exportPassphrase ownerInstanceID : string) : IO creation :=
  marker <- catch (m <- intent_marker prepared old exportPassphrase ownerInstanceID; pure (inl m)) (fun e => pure (inr e));
  match marker with
  | inr e => pure (Refused e)
  | inl m =>
      published <- catch (writeMarkerNew m ;; pure None) (fun e => pure (Some e));
      match published with
      | Some cause => reconcileIntentPublicationFailure m cause
      | None =>
          identity <- catch (checkNamedDataRoot ;; pure None) (fun e => pure (Some e));
          match identity with
          | Some cause => rollbackPublishedIntent m cause
          | None => pure (Created (intentResult m))
          end
      end
  end.
End Intents.

(** ** The clean shutdown *)

Definition sidecars : list string := [databaseName ++ "-wal"; databaseName ++ "-shm"; databaseName ++ "-journal"].
Definition remove_sidecar (name : string) : IO unit :=
  found <- look (fun d => Ok (d_nodes d !! [name]));
  match found with
  | None => pure tt
  | Some n =>
      require (bool_decide (n = File private_file "")) "restore swap: SQLite sidecar is nonempty or unsafe" ;;
      wrap "restore swap: remove empty SQLite sidecar" (Remove [name])
  end.
Definition removeSafeSQLiteSidecars : IO unit :=
  fold_right (fun name rest => remove_sidecar name ;; rest) (pure tt) sidecars ;; syncDirectory.

Definition MarkCleanShutdown (ownerInstanceID : string) : IO IntentResult :=
  ctx_Err ;;
  check_io (validateInstanceID ownerInstanceID) ;;
  openDataRoot ;;
  m <- readMarker;
  require (String.eqb (m_State m) stateIntent) "restore swap: pending marker is not an unpromoted intent" ;;
  (if String.eqb (m_OwnerInstanceID m) ownerInstanceID then pure tt else throw UncleanIntent) ;;
  verifyPrepared m ;;
  removeSafeSQLiteSidecars ;;
  database <- wrap "restore swap: inspect closed controller database" (hashRootFile db_path 1 MaxDatabaseBytes);
  keyring <- wrap "restore swap: inspect closed controller keyring" (hashRootFile kr_path 1 keyringMaxBytes);
  ensureSameFilesystem ;;
  ensureSameFilesystem ;;
  syncDirectory ;;
  let m := with_state (with_old m database keyring) stateReady in
  checkNamedDataRoot ;;
  replaceMarker m ;;
  checkNamedDataRoot ;;
  pure (intentResult m).

Definition AbortUnclean : IO unit :=
  ctx_Err ;;
  openDataRoot ;;
  m <- readMarker;
  require (String.eqb (m_State m) stateIntent) "restore swap: only an unclean intent can be aborted" ;;
  removePreparedOwned m true ;;
  removeMarker.

(** ** The receipt *)

Definition receipt_result (v : appliedReceipt) : Result :=
  MkResult true (ar_RestoreID v) (ar_SafetyBackup v) (ar_SafetyBackupSHA256 v) (ar_PreparedDatabaseSHA256 v)
    (ar_PreparedKeyringSHA256 v) (ar_AuthorizingAdminID v) (ar_AuthorizingUsername v) (ar_PreviewID v) (ar_PlanID v)
    (ar_Counts v).

Definition PendingAppliedReceipt : IO Result :=
  openDataRoot ;;
  v <- readAppliedReceipt;
  checkNamedDataRoot ;;
  pure (receipt_result v).

Definition safetyRetentionCount : nat := 3.

Record candidate := MkArtifact { cd_name : string; cd_id : string; cd_when : Z }.

Definition artifact_id (name : string) : option string :=
  if HasPrefix name "safety-" && HasSuffix name ".oowrtbak" then
    let l := drop 7 (chars name) in
    let id := of_chars (take (length l - 9) l) in
    if validRestoreID id then Some id else None
  else None.

Section Pruning.
(** The modification times of the artifacts. *)
Context (modified : string -> Z).

Definition as_candidate (d : disk) (name : string) : option candidate :=
  match artifact_id name, d_nodes d !! [recoveryDirName; name] with
  | Some id, Some (File perm data) =>
      if (perm =? private_file) && (0 <? len data) && (len data <=? safetyMaxBytes)
      then Some (MkArtifact name id (modified name)) else None
  | _, _ => None
  end.

(** Newest first, and by name from the end. *)
Definition newer (a b : candidate) : Prop :=
  if cd_when a =? cd_when b then str_le (cd_name b) (cd_name a) else cd_when b <= cd_when a.
#[export] Instance newer_dec a b : Decision (newer a b).
Proof. unfold newer. destruct (_ =? _); apply _. Defined.

Definition candidates (d : disk) : list candidate :=
  merge_sort newer (omap (as_candidate d) (members d recovery_dir)).

(** Every preserved artifact, then the newest while there is room. *)
Fixpoint fill (keep : list string) (l : list candidate) : list string :=
  match l with
  | [] => keep
  | c :: l' =>
      if Nat.leb safetyRetentionCount (length keep) then keep
      else fill (if bool_decide (cd_name c ∈ keep) then keep else (keep ++ [cd_name c])%list) l'
  end.
Definition kept (preserve : list string) (l : list candidate) : list string :=
  fill (map cd_name (List.filter (fun c => existsb (String.eqb (cd_id c)) preserve) l)) l.

(** The id of a document, unless there is none. *)
Definition preserved_id (absent : fault) (m : IO string) : IO (list string) :=
  catch (id <- m; pure [id]) (fun e => if Is absent e then pure [] else throw e).

Definition pruneSafetyArtifacts (currentRestoreID : string) : IO unit :=
  pending <- preserved_id NoPendingIntent (m <- readMarker; pure (m_ID m));
  receipt <- preserved_id NoAppliedReceipt (r <- readAppliedReceipt; pure (ar_RestoreID r));
  suppressed <- preserved_id NotExist (s <- readSuppression; pure (sm_RestoreID s));
  found <- look (fun d => Ok (candidates d));
  let keep := kept (currentRestoreID :: pending ++ receipt ++ suppressed)%list found in
  let excess := List.filter (fun c => bool_decide (cd_name c ∉ keep)) found in
  fold_right (fun c rest => Remove [recoveryDirName; cd_name c] ;; rest) (pure tt) excess ;;
  (if Nat.eqb (length excess) 0 then pure tt else syncDirectory).

Definition remove_receipt_at (d : disk) : res fault unit * disk :=
  match d_receipt d with Absent => (Err NotExist, d) | _ => (Ok tt, with_receipt d Absent) end.

Definition fileSizeFromReceipt (d : disk) (safety : string) : Z :=
  match d_nodes d !! [recoveryDirName; safety] with Some (File _ data) => len data | _ => 0 end.

Definition ClearAppliedReceipt (restoreID : string) : IO unit :=
  ctx_Err ;;
  require (validRestoreID restoreID) "restore swap: restore ID is invalid" ;;
  openDataRoot ;;
  v <- readAppliedReceipt;
  require (String.eqb (ar_RestoreID v) restoreID) "restore swap: applied audit receipt belongs to another restore" ;;
  size <- catch (look (fun d => Ok (fileSizeFromReceipt d (ar_SafetyBackup v)))) (fun _ => pure 0);
  replace_error "restore swap: applied audit receipt safety artifact is missing or changed"
    (requireHash [recoveryDirName; ar_SafetyBackup v] (MkFile size (ar_SafetyBackupSHA256 v)) safetyMaxBytes) ;;
  pruneSafetyArtifacts (ar_RestoreID v) ;;
  call remove_receipt_at ;;
  syncDirectory ;;
  checkNamedDataRoot.
End Pruning.

(** ** The fence *)

Record Suppression := MkSuppression { sp_Active : bool; sp_RestoreID : string; sp_CreatedAt : string; sp_Reason : string }.
Definition unsuppressed : Suppression := MkSuppression false "" "" "".

Definition SuppressionStatus : IO Suppression :=
  openDataRoot ;;
  found <- catch (v <- readSuppression; pure (Some v)) (fun e => if Is NotExist e then pure None else throw e);
  checkNamedDataRoot ;;
  pure (match found with
        | None => unsuppressed
        | Some v => MkSuppression true (sm_RestoreID v) (sm_CreatedAt v) (sm_Reason v)
        end).

Definition remove_suppression_at (d : disk) : res fault unit * disk :=
  match d_suppression d with Absent => (Err NotExist, d) | _ => (Ok tt, with_suppression d Absent) end.

Definition ClearSuppression (restoreID : string) : IO unit :=
  ctx_Err ;;
  require (validRestoreID restoreID) "restore swap: restore ID is invalid" ;;
  openDataRoot ;;
  checkNamedDataRoot ;;
  v <- readSuppression;
  require (String.eqb (sm_RestoreID v) restoreID) "restore swap: router-write suppression belongs to another restore" ;;
  ctx_Err ;;
  wrap "restore swap: clear router-write suppression" (call remove_suppression_at) ;;
  syncDirectory ;;
  checkNamedDataRoot.

(** ** The daemon *)

Section Lifecycle.
Context `{V : Vault}.
(** [controllerrestore.CleanupOrphanPrepared]. *)
Context (CleanupOrphanPrepared : IO unit).

(** The applied result, if there is one, and the fence of the running daemon. *)
Definition reconcileRestoreStartup (passphrase version : string) : IO (option Result * Suppression) :=
  applied <-
    catch (r <- ApplyPending passphrase version; pure (Some r))
      (fun e => if Is NoPendingIntent e then pure None
                else if Is UncleanIntent e then
                  catch AbortUnclean (fun e' => throw (Joined (Text "daemon: abort unclean restore intent") e')) ;; pure None
                else wrap "daemon: reconcile pending controller restore" (throw e));
  wrap "daemon: clean orphaned restore preparation" CleanupOrphanPrepared ;;
  suppression <- wrap "daemon: read router-write suppression" SuppressionStatus;
  pure (applied, suppression).

(** The durable fence goes first; the fence in memory follows. *)
Definition ResumeRouterWrites (restoreID : string) (suppression : Suppression) : IO Suppression :=
  ClearSuppression restoreID ;; pure unsuppressed.
End Lifecycle.
