(* ===== verification/RestoreReads.v ===== *)
(** * What the readers of the coordinator find

    Hashing, comparing a path with a record, finding a member, validating a
    pair and authenticating the safety artifact only read: each is a function of
    the disk, and succeeds exactly on the files it asks for. *)

From Stdlib Require Import ZArith Lia Ascii String.
From stdpp Require Import base gmap list strings sorting.
From S2P Require Import Prelude GoStr GoFmt Sha256 RestoreMarker RestoreDisk RestoreSwap.

Local Open Scope string_scope.
Local Open Scope Z_scope.

(** A private file with these bytes; and nothing at all. *)
Definition at_ (d : disk) (p : path) (data : string) : Prop := d_nodes d !! p = Some (File private_file data).
Definition none (d : disk) (p : path) : Prop := d_nodes d !! p = None.
Definition sized (data : string) (maximum : Z) : Prop := 1 <= len data <= maximum.

(** ** Digests *)

Lemma round_length s kw : length s = 8%nat -> length (round s kw) = 8%nat.
Proof. do 9 (destruct s as [|? s]; try done). Qed.
Lemma compress_length s block : length s = 8%nat -> length (compress s block) = 8%nat.
Proof.
  intros Hs. unfold compress. rewrite length_map, length_combine, Hs.
  assert (H : forall l s', length s' = 8%nat -> length (fold_left round l s') = 8%nat).
  { induction l as [|kw l IH]; intros s' Hs'; [done|]. cbn [fold_left]. by apply IH, round_length. }
  by rewrite (H _ _ Hs).
Qed.
Lemma blocks_length fuel : forall w s, length s = 8%nat -> length (blocks fuel w s) = 8%nat.
Proof.
  induction fuel as [|fuel IH]; intros w s Hs; [by destruct w|]. destruct w as [|z w]; [done|]. cbn [blocks].
  by apply IH, compress_length.
Qed.
Lemma be_bytes_spec n : forall z, length (be_bytes n z) = n /\ Forall (fun b => 0 <= b < 256) (be_bytes n z).
Proof.
  induction n as [|n IH]; intros z; cbn [be_bytes]; [by split; [|constructor]|].
  destruct (IH (z / 256)) as [H1 H2]. rewrite length_app, H1. cbn [length]. split; [lia|].
  apply Forall_app. split; [done|]. constructor; [apply Z.mod_pos_bound; lia|constructor].
Qed.
Lemma words_bytes l : length (flat_map (be_bytes 4) l) = (4 * length l)%nat /\ Forall (fun b => 0 <= b < 256) (flat_map (be_bytes 4) l).
Proof.
  induction l as [|z l [IH1 IH2]]; cbn [flat_map]; [by split|]. destruct (be_bytes_spec 4 z) as [H1 H2].
  rewrite length_app, IH1, H1. cbn [length]. split; [lia|]. by apply Forall_app.
Qed.

Lemma hex_digit_lower z : 0 <= z < 16 -> lower_hex (hex_digit z) = true.
Proof.
  intros Hz. assert (E : z = Z.of_nat (Z.to_nat z)) by lia. rewrite E. assert (Hn : (Z.to_nat z < 16)%nat) by lia.
  generalize dependent (Z.to_nat z). intros n _ Hn. do 16 (destruct n as [|n]; [by vm_compute|]). lia.
Qed.
Lemma hex_text b : Forall (fun b => 0 <= b < 256) b ->
  length (chars (EncodeToString b)) = (2 * length b)%nat /\ forallb lower_hex (chars (EncodeToString b)) = true.
Proof.
  unfold EncodeToString. rewrite chars_of_chars. induction 1 as [|z b Hz Hb [IH1 IH2]]; [done|].
  cbn [flat_map app length forallb]. rewrite IH1, IH2. split; [lia|].
  rewrite !hex_digit_lower; [done|apply Z.mod_pos_bound; lia|]. split; [apply Z.div_pos; lia|apply Z.div_lt_upper_bound; lia].
Qed.

(** The record of a file of an acceptable size is an acceptable record. *)
Lemma record_valid data mn mx : mn <= len data <= mx -> validFileRecord (record_of data) mn mx = true.
Proof.
  intros [H1 H2]. unfold validFileRecord, record_of. cbn [fr_Size fr_SHA256]. unfold hex_sha256.
  destruct (words_bytes (blocks (length (words (pad (map byte_of (chars data))))) (words (pad (map byte_of (chars data)))) initial_hash)) as [L B].
  rewrite blocks_length in L by done. destruct (hex_text _ B) as [T1 T2]. rewrite L in T1.
  assert (El : len (EncodeToString (Sum256 (chars data))) =? 64 = true).
  { apply Z.eqb_eq. unfold len. rewrite <- length_chars. unfold Sum256. rewrite T1. done. }
  rewrite El. unfold Sum256. rewrite T2. by rewrite (proj2 (Z.leb_le _ _) H1), (proj2 (Z.leb_le _ _) H2).
Qed.

(** ** One path *)

Lemma det_hash d p mn mx : det d (hashRootFile p mn mx) (hash_at d p mn mx).
Proof. exact (det_bind _ _ _ _ _ (det_touch d) (fun _ _ => det_look d _)). Qed.

Lemma hash_at_file d p x mn mx : at_ d p x -> mn <= len x <= mx -> hash_at d p mn mx = Ok (record_of x).
Proof.
  intros E [H1 H2]. unfold hash_at. rewrite E. change (private_file =? private_file) with true.
  by rewrite (proj2 (Z.leb_le _ _) H1), (proj2 (Z.leb_le _ _) H2).
Qed.
Lemma hash_at_ok d p mn mx r : hash_at d p mn mx = Ok r -> exists x, at_ d p x /\ r = record_of x /\ mn <= len x <= mx.
Proof.
  unfold hash_at, at_. destruct (d_nodes d !! p) as [[|perm x|]|]; try done.
  destruct (_ && _ && _) eqn:E; [|done]. bool_prop. intros [= <-]. exists x. by subst perm.
Qed.
Lemma hash_at_absent d p mn mx e : hash_at d p mn mx = Err e -> Is NotExist e = true -> none d p.
Proof.
  unfold hash_at, none. destruct (d_nodes d !! p) as [[|perm x|]|]; try done; [intros [= <-]; done| |intros [= <-]; done].
  destruct (_ && _ && _); [done|]. by intros [= <-].
Qed.

Definition match_of (d : disk) (p : path) (expected : fileRecord) (mx : Z) : res fault pathMatch :=
  let? known := inspect_member mx d p in
  match known with
  | Some m => Ok m
  | None => let? record := hash_at d p 1 mx in Ok (if bool_decide (record = expected) then matchExpected else matchOther)
  end.
Lemma det_match d p e mx : det d (pathRecord p e mx) (match_of d p e mx).
Proof.
  unfold pathRecord, match_of. eapply det_bind; [exact (det_look d (fun d => inspect_member mx d p))|]. intros [m|] _; [apply det_pure|].
  eapply det_bind; [apply det_hash|]. intros r _. apply det_pure.
Qed.

Lemma match_file d p x e mx : at_ d p x -> sized x mx ->
  match_of d p e mx = Ok (if bool_decide (record_of x = e) then matchExpected else matchOther).
Proof.
  intros E [H1 H2]. unfold match_of, inspect_member. rewrite E. change (negb (private_file =? private_file)) with false.
  rewrite (proj2 (Z.ltb_ge _ _)) by lia. by rewrite (hash_at_file d p x 1 mx E).
Qed.
Lemma match_same d p x mx : at_ d p x -> sized x mx -> match_of d p (record_of x) mx = Ok matchExpected.
Proof. intros E Hs. rewrite (match_file d p x _ mx E Hs). by rewrite bool_decide_eq_true_2. Qed.
Lemma match_none d p e mx : none d p -> match_of d p e mx = Ok matchMissing.
Proof. unfold none, match_of, inspect_member. by intros ->. Qed.
Lemma match_inv d p e mx m : match_of d p e mx = Ok m ->
  match m with
  | matchMissing => none d p
  | matchExpected => exists x, at_ d p x /\ record_of x = e /\ sized x mx
  | matchOther => ~ none d p
  end.
Proof.
  unfold match_of, inspect_member, none. destruct (d_nodes d !! p) as [[|perm x|]|] eqn:E; try done.
  - destruct (negb _) eqn:Ep; [done|]. destruct (mx <? len x); [by intros [= <-]|].
    destruct (hash_at d p 1 mx) as [r|] eqn:Er; [|done]. apply hash_at_ok in Er as (y & Hy & -> & Hs).
    intros [= <-]. destruct (bool_decide _) eqn:Eb; [|done]. bool_prop. eauto.
  - by intros [= <-].
Qed.

Definition require_of (d : disk) (p : path) (expected : fileRecord) (mx : Z) : res fault unit :=
  let? found := match_of d p expected mx in
  if bool_decide (found = matchExpected) then Ok tt
  else Err (Text "restore swap: file is missing or does not match its recorded digest").
Lemma det_requireHash d p e mx : det d (requireHash p e mx) (require_of d p e mx).
Proof. eapply det_bind; [apply det_match|]. intros m _. apply det_require. Qed.
Lemma require_of_ok d p e mx u : require_of d p e mx = Ok u -> exists x, at_ d p x /\ record_of x = e /\ sized x mx.
Proof.
  unfold require_of. destruct (match_of d p e mx) as [m|] eqn:E; [|done]. destruct (bool_decide _) eqn:Eb; [|done].
  bool_prop. subst m. by apply match_inv in E.
Qed.
Lemma require_of_file d p x e mx : at_ d p x -> record_of x = e -> sized x mx -> require_of d p e mx = Ok tt.
Proof. intros E <- Hs. unfold require_of. by rewrite (match_same d p x mx E Hs). Qed.

Definition locate_of (d : disk) (e : fileRecord) (primary fallback : path) (mx : Z) : res fault path :=
  let? found := match_of d primary e mx in
  if bool_decide (found = matchExpected) then Ok primary
  else
    let? found := match_of d fallback e mx in
    if bool_decide (found = matchExpected) then Ok fallback
    else Err (Text "restore swap: recorded old controller member is unavailable").
Lemma det_locate d e p q mx : det d (locateExpected e p q mx) (locate_of d e p q mx).
Proof.
  eapply det_bind; [apply det_match|]. intros m _. destruct (bool_decide _); [apply det_pure|].
  eapply det_bind; [apply det_match|]. intros m' _. destruct (bool_decide _); [apply det_pure|apply det_throw].
Qed.
Lemma locate_of_ok d e p q mx r : locate_of d e p q mx = Ok r ->
  (r = p \/ r = q /\ match_of d p e mx <> Ok matchExpected) /\ exists x, at_ d r x /\ record_of x = e /\ sized x mx.
Proof.
  unfold locate_of. destruct (match_of d p e mx) as [m|] eqn:E; [|done]. destruct (bool_decide (m = _)) eqn:Eb; bool_prop.
  - intros [= <-]. subst m. apply match_inv in E. eauto.
  - destruct (match_of d q e mx) as [m'|] eqn:E'; [|done]. destruct (bool_decide (m' = _)) eqn:Eb'; [|done]. bool_prop.
    intros [= <-]. subst m'. apply match_inv in E'. split; [|done]. right. split; [done|congruence].
Qed.
Lemma locate_of_primary d e p q x mx : at_ d p x -> record_of x = e -> sized x mx -> locate_of d e p q mx = Ok p.
Proof. intros E <- Hs. unfold locate_of. by rewrite (match_same d p x mx E Hs). Qed.
Lemma locate_of_fallback d e p q x mx m : match_of d p e mx = Ok m -> m <> matchExpected ->
  at_ d q x -> record_of x = e -> sized x mx -> locate_of d e p q mx = Ok q.
Proof.
  intros E Hm Eq <- Hs. unfold locate_of. rewrite E, (bool_decide_eq_false_2 _ Hm). by rewrite (match_same d q x mx Eq Hs).
Qed.

Lemma det_read d p : det d (read p) (data_at d p).
Proof. exact (det_look d (fun d => data_at d p)). Qed.
Lemma data_at_file d p x : at_ d p x -> data_at d p = Ok x.
Proof. unfold at_, data_at. by intros ->. Qed.

(** ** Directories *)

Lemma member_name_spec dir p n : member_name dir p = Some n <-> p = (dir ++ [n])%list.
Proof.
  unfold member_name. split.
  - destruct p as [|a p]; [done|]. destruct (bool_decide _) eqn:E; [|done]. bool_prop. unfold parent in E.
    destruct (exists_last (l := a :: p)) as (q & x & Eq); [done|]. rewrite Eq in *. rewrite removelast_last in E. subst q.
    rewrite map_app. cbn [map]. rewrite List.last_last. by intros [= <-].
  - intros ->. destruct (dir ++ [n])%list as [|a p] eqn:E; [by destruct dir|]. rewrite <- E. unfold parent.
    rewrite removelast_last, bool_decide_eq_true_2 by done. rewrite map_app. cbn [map]. by rewrite List.last_last.
Qed.

Lemma elem_of_members d dir n : n ∈ members d dir <-> is_Some (d_nodes d !! (dir ++ [n])%list).
Proof.
  unfold members. rewrite list_elem_of_omap. split.
  - intros ([p nd] & Hin & Hm). apply elem_of_map_to_list in Hin. apply member_name_spec in Hm. cbn [fst] in Hm. subst p. by eexists.
  - intros [nd Hn]. exists ((dir ++ [n])%list, nd). rewrite elem_of_map_to_list. split; [done|]. by apply member_name_spec.
Qed.

Lemma NoDup_omap_inj {A B} (f : A -> option B) l : NoDup l ->
  (forall x y b, x ∈ l -> y ∈ l -> f x = Some b -> f y = Some b -> x = y) -> NoDup (omap f l).
Proof.
  induction 1 as [|x l Hx Hl IH]; intros Hi; [constructor|]. cbn [omap list_omap].
  assert (IH' : NoDup (omap f l)) by (apply IH; intros a b n Ha Hb; apply Hi; by right).
  destruct (f x) as [n|] eqn:E; [|exact IH']. constructor; [|exact IH']. rewrite list_elem_of_omap.
  intros (y & Hy & Ey). apply Hx. rewrite (Hi x y n); [done|left|by right|done|done].
Qed.

Lemma NoDup_members d dir : NoDup (members d dir).
Proof.
  apply NoDup_omap_inj; [apply NoDup_map_to_list|].
  intros [p a] [q b] n Hp Hq H1 H2. apply elem_of_map_to_list in Hp, Hq. apply member_name_spec in H1, H2.
  cbn [fst] in *. subst. congruence.
Qed.

Lemma sort_strings_perm l l' : Permutation l l' -> sort_strings l = sort_strings l'.
Proof.
  intros H. unfold sort_strings. apply (StronglySorted_unique_strong str_le).
  - intros x1 x2 _ _ H1 H2. by apply str_le_antisym.
  - apply StronglySorted_merge_sort; apply _.
  - apply StronglySorted_merge_sort; apply _.
  - by rewrite !merge_sort_Permutation.
Qed.

Lemma is_private_dir_spec n : is_private_dir n = true <-> n = Some (Dir private_dir).
Proof.
  split; [|by intros ->]. destruct n as [[perm| |]|]; cbn [is_private_dir]; [|done..]. intros H. bool_prop. by subst perm.
Qed.

Lemma det_exact d dir names : det d (requireExactDirectory dir names)
  (if is_private_dir (d_nodes d !! dir) then
     if bool_decide (sort_strings (members d dir) = sort_strings names) then Ok tt
     else Err (Text "restore swap: prepared directory contains unexpected entries")
   else Err (Text "restore swap: prepared directory must be a private real directory")).
Proof.
  eapply det_eq; [eapply det_bind; [apply det_look|intros ok _; eapply det_bind; [apply det_require|intros ? _; eapply det_bind; [apply det_look|intros f _; apply det_require]]]|].
  cbn. by destruct (is_private_dir _).
Qed.
Lemma exact_empty d dir : d_nodes d !! dir = Some (Dir private_dir) -> (forall n, none d (dir ++ [n])%list) ->
  members d dir = [].
Proof.
  intros _ Hn. destruct (members d dir) as [|n l] eqn:E; [done|]. assert (H : n ∈ members d dir) by (rewrite E; left).
  apply elem_of_members in H as [x Hx]. by rewrite (Hn n) in Hx.
Qed.

Lemma det_subset d dir allowed : det d (requireDirectorySubset dir allowed)
  (if is_private_dir (d_nodes d !! dir) then
     if forallb (fun n => existsb (String.eqb n) allowed) (members d dir) then Ok tt
     else Err (Text "restore swap: owned directory contains an unexpected entry")
   else Err (Text "restore swap: owned directory is unsafe")).
Proof.
  eapply det_eq; [eapply det_bind; [apply det_look|intros ok _; eapply det_bind; [apply det_require|intros ? _; eapply det_bind; [apply det_look|intros f _; apply det_require]]]|].
  cbn. by destruct (is_private_dir _).
Qed.

(** ** Pairs *)

Section Pairs.
Context `{V : Vault}.

(** A valid pair, and what it holds. *)
Definition valid_pair (d : disk) (db kr : path) (runtime : string) (wdb wkr : fileRecord) (counts : recoveryDTO) : Prop :=
  exists x y k, at_ d db x /\ record_of x = wdb /\ sized x MaxDatabaseBytes /\ at_ d kr y /\ record_of y = wkr /\
    sized y keyringMaxBytes /\ Open y runtime = Ok k /\ Validate x k = Ok counts.

Lemma det_open d p runtime : det d (open_keyring p runtime) (let? data := data_at d p in Open data runtime).
Proof. eapply det_bind; [apply det_read|]. intros data _. apply det_lift. Qed.

Lemma det_pair d db kr runtime wdb wkr : exists r, det d (validatePair db kr runtime wdb wkr) r /\
  forall c, r = Ok c <-> valid_pair d db kr runtime wdb wkr c.
Proof.
  eexists. split.
  - unfold validatePair. eapply det_bind; [apply det_requireHash|]. intros ? _.
    eapply det_bind; [apply det_requireHash|]. intros ? _. eapply det_bind; [apply det_touch|]. intros ? _.
    eapply det_bind; [apply det_open|]. intros k _. eapply det_bind; [apply det_touch|]. intros ? _.
    eapply det_bind; [apply det_replace, det_requireHash|]. intros ? _. eapply det_bind; [apply det_read|]. intros data _.
    eapply det_bind; [apply det_touch|]. intros ? _. eapply det_bind; [apply det_replace, det_requireHash|]. intros ? _.
    eapply det_bind; [apply det_lift|]. intros counts _. eapply det_bind; [apply det_touch|]. intros ? _.
    eapply det_bind; [apply det_replace, det_requireHash|]. intros ? _.
    eapply det_bind; [apply det_replace, det_requireHash|]. intros ? _. apply det_pure.
  - cbv beta. intros c. split.
    + destruct (require_of d db wdb _) as [[]|] eqn:E1; [|done]. destruct (require_of d kr wkr _) as [[]|] eqn:E2; [|done].
      apply require_of_ok in E1 as (x & Hx & Ex & Sx), E2 as (y & Hy & Ey & Sy).
      rewrite (data_at_file d kr y Hy), (data_at_file d db x Hx). destruct (Open y runtime) as [k|] eqn:Ek; [|done].
      destruct (Validate x k) as [c'|] eqn:Ec; [|done]. intros [= <-]. by exists x, y, k.
    + intros (x & y & k & Hx & Ex & Sx & Hy & Ey & Sy & Ek & Ec).
      rewrite (require_of_file d db x wdb _ Hx Ex Sx), (require_of_file d kr y wkr _ Hy Ey Sy), (data_at_file d kr y Hy).
      by rewrite (data_at_file d db x Hx), Ek, Ec.
Qed.

(** ** The prepared pair *)

Definition prepared_whole (d : disk) (m : marker) : Prop :=
  d_nodes d !! [m_PreparedDir m] = Some (Dir private_dir) /\
  (forall n, is_Some (d_nodes d !! [m_PreparedDir m; n]) -> n = m_PreparedDatabase m \/ n = m_PreparedKeyring m) /\
  (exists x, at_ d (prepared_db m) x /\ record_of x = m_PreparedDatabaseFile m /\ sized x MaxDatabaseBytes) /\
  (exists y, at_ d (prepared_kr m) y /\ record_of y = m_PreparedKeyringFile m /\ sized y keyringMaxBytes).

Lemma det_member_hash d p want mx s : det d
  (replace_error s (got <- hashRootFile p 1 mx; require (bool_decide (got = want)) ""))
  (match hash_at d p 1 mx with Ok got => if bool_decide (got = want) then Ok tt else Err (Text s) | Err _ => Err (Text s) end).
Proof.
  eapply det_eq; [eapply det_replace, det_bind; [apply det_hash|intros a _; apply det_require]|].
  cbn. destruct (hash_at d p 1 mx) as [got|]; [|done]. by destruct (bool_decide _).
Qed.

Lemma member_hash_ok d p want mx s u : (match hash_at d p 1 mx with
    | Ok got => if bool_decide (got = want) then Ok tt else Err (Text s) | Err _ => Err (Text s) end) = Ok u <->
  exists x, at_ d p x /\ record_of x = want /\ sized x mx.
Proof.
  split.
  - destruct (hash_at d p 1 mx) as [got|] eqn:E; [|done]. apply hash_at_ok in E as (x & Hx & -> & Hs).
    destruct (bool_decide _) eqn:Eb; [|done]. bool_prop. intros _. by exists x.
  - intros (x & Hx & <- & Hs). rewrite (hash_at_file d p x 1 mx Hx Hs), bool_decide_eq_true_2 by done. by destruct u.
Qed.

Lemma det_verifyPrepared d m : m_PreparedDatabase m <> m_PreparedKeyring m ->
  exists r, det d (verifyPrepared m) r /\ forall u, r = Ok u <-> prepared_whole d m.
Proof.
  intros Hne. eexists. split.
  - unfold verifyPrepared. eapply det_bind; [apply det_exact|]. intros ? _.
    eapply det_bind; [apply det_member_hash|]. intros ? _. apply det_member_hash.
  - cbv beta. intros u. unfold prepared_whole. split.
    + destruct (is_private_dir _) eqn:Ed; [|done]. destruct (bool_decide (sort_strings _ = _)) eqn:Es; [|done].
      destruct (match hash_at d (prepared_db m) _ _ with Ok _ => _ | Err _ => _ end) as [u1|] eqn:E1; [|done]. intros E2.
      apply member_hash_ok in E1, E2. split_and!; [|intros n Hn|done|done].
      * by apply is_private_dir_spec.
      * apply (elem_of_members d [m_PreparedDir m]) in Hn. bool_prop.
        assert (H : n ∈ sort_strings (members d [m_PreparedDir m])) by by apply elem_of_sort_strings.
        rewrite Es in H. rewrite elem_of_sort_strings in H. apply elem_of_cons in H as [?|H]; [by left|].
        apply list_elem_of_singleton in H. by right.
    + intros (Hd & Hn & H1 & H2). apply is_private_dir_spec in Hd. rewrite Hd.
      apply (member_hash_ok d _ _ _ "restore swap: prepared pair changed after intent creation" tt) in H1.
      apply (member_hash_ok d _ _ _ "restore swap: prepared pair changed after intent creation" u) in H2 as H2'.
      rewrite bool_decide_eq_true_2.
      * cbn beta iota. rewrite H1. cbn beta iota. by rewrite H2'.
      * apply sort_strings_perm, NoDup_Permutation; [apply NoDup_members| |].
        { apply NoDup_cons. split; [|apply NoDup_singleton]. by rewrite list_elem_of_singleton. }
        intros n. rewrite (elem_of_members d [m_PreparedDir m]), elem_of_cons, list_elem_of_singleton. split; [by apply Hn|].
        apply member_hash_ok in H1 as (x & Hx & _). destruct H2 as (y & Hy & _). intros [-> | ->]; by eexists.
Qed.

(** ** The safety artifact *)

(** The artifact authenticates with this passphrase to the old database. *)
Definition authentic (d : disk) (m : marker) (pass : string) (record : fileRecord) : Prop :=
  exists a, at_ d (safety_path m) a /\ record_of a = record /\ sized a safetyMaxBytes /\ Extract a pass = Ok (m_OldDatabase m).

Lemma det_check_artifact what d m record pass : exists r, det d (check_artifact what m record pass) r /\
  forall u, r = Ok u <-> authentic d m pass record.
Proof.
  eexists. split.
  - unfold check_artifact. eapply det_bind; [apply det_touch|]. intros ? _. eapply det_bind; [apply det_read|]. intros data _.
    eapply det_bind; [apply det_wrap, det_lift|]. intros manifest _. eapply det_bind; [apply det_touch|]. intros ? _.
    eapply det_bind; [apply det_member_hash|]. intros ? _. eapply det_bind; [apply det_require|]. intros ? _. apply det_touch.
  - cbv beta. intros u. unfold authentic. split.
    + destruct (data_at d (safety_path m)) as [data|] eqn:Ed; [|done].
      destruct (Extract data pass) as [manifest|] eqn:Ex; [|done].
      destruct (match hash_at d (safety_path m) _ _ with Ok _ => _ | Err _ => _ end) as [u1|] eqn:E1; [|done].
      apply member_hash_ok in E1 as (x & Hx & Er & Hs). rewrite (data_at_file _ _ _ Hx) in Ed. injection Ed as ->.
      destruct (bool_decide _) eqn:Eb; [|done]. bool_prop. subst manifest. intros _. by exists data.
    + intros (a & Ha & Er & Hs & Ex). rewrite (data_at_file _ _ _ Ha). cbn beta iota. rewrite Ex. cbn beta iota.
      assert (E1 : exists x, at_ d (safety_path m) x /\ record_of x = record /\ sized x safetyMaxBytes) by eauto.
      apply (member_hash_ok d _ _ _ "restore swap: safety artifact changed while authenticating" tt) in E1. rewrite E1.
      rewrite bool_decide_eq_true_2 by done. by destruct u.
Qed.

Lemma det_unrecorded d m pass : exists r, det d (authenticateUnrecordedSafety m pass) r /\
  forall record, r = Ok record <-> authentic d m pass record.
Proof.
  destruct (det_check_artifact "restore swap: authenticate recovered safety artifact" d m
    (match hash_at d (safety_path m) 1 safetyMaxBytes with Ok r => r | Err _ => no_file end) pass) as (r & Hr & Hok).
  exists (let? record := hash_at d (safety_path m) 1 safetyMaxBytes in let? _ := r in Ok record). split.
  - eapply det_bind; [apply det_hash|]. intros record E. rewrite E in Hr.
    eapply det_bind; [exact Hr|]. intros ? _. apply det_pure.
  - intros record. split.
    + destruct (hash_at d (safety_path m) 1 safetyMaxBytes) as [x|] eqn:E; [|done]. destruct r as [u|]; [|done].
      intros [= <-]. by apply (Hok u).
    + intros Ha. pose proof Ha as (a & Hat & Er & Hs & _). rewrite (hash_at_file _ _ _ _ _ Hat Hs) in *.
      rewrite Er in *. by rewrite (proj2 (Hok tt) Ha).
Qed.

Lemma det_verifySafety d m pass : exists r, det d (verifySafety m pass) r /\
  forall u, r = Ok u <-> authentic d m pass (m_SafetyBackupFile m).
Proof.
  destruct (det_check_artifact "restore swap: authenticate pre-restore safety artifact" d m (m_SafetyBackupFile m) pass) as (r & Hr & Hok).
  exists (match hash_at d (safety_path m) 1 safetyMaxBytes with
     | Ok got => if bool_decide (got = m_SafetyBackupFile m) then r else Err (Text "restore swap: pre-restore safety artifact changed")
     | Err _ => Err (Text "restore swap: pre-restore safety artifact changed") end). split.
  - eapply det_eq.
    + eapply det_bind; [eapply det_replace, det_bind; [apply det_hash|intros got _; eapply det_bind; [apply det_require|intros ? _; apply det_pure]]|].
      intros record E. instantiate (1 := fun _ => r).
      destruct (hash_at d (safety_path m) 1 safetyMaxBytes) as [got|]; [|done].
      destruct (bool_decide _) eqn:Eb; [|done]. cbn in E. injection E as <-. bool_prop. by subst got.
    + cbn beta iota. destruct (hash_at d (safety_path m) 1 safetyMaxBytes) as [got|]; [|done]. by destruct (bool_decide _).
  - intros u. split.
    + destruct (hash_at d (safety_path m) 1 safetyMaxBytes) as [x|] eqn:E; [|done]. destruct (bool_decide _); [|done].
      intros Hu. by apply (Hok u).
    + intros Ha. pose proof Ha as (a & Hat & Er & Hs & _). rewrite (hash_at_file _ _ _ _ _ Hat Hs), Er, bool_decide_eq_true_2 by done.
      by apply Hok.
Qed.
End Pairs.
