(* ===== verification/RestoreInv.v ===== *)
(** * The states a restore can be found in

    One restore: the marker it was promoted with, and the bytes of the old and
    of the prepared pair. A member of the pair is at the start, parked or
    swapped; [pre] are the disks of a restore that can still be undone, whatever
    step it was interrupted in, [committed] those where the new pair is in place
    and the old one may go, [finished] those it leaves. *)

From Stdlib Require Import ZArith Lia Ascii String.
From stdpp Require Import base gmap list strings sorting.
From S2P Require Import Prelude GoStr GoFmt Sha256 RestoreMarker RestoreDisk RestoreSwap RestoreReads.

Local Open Scope string_scope.
Local Open Scope Z_scope.

(** ** Valid markers *)

Lemma checks_pass l : first_error l = None <-> forallb fst l = true.
Proof. induction l as [|[[] e] l IH]; cbn; [done|exact IH|done]. Qed.

Lemma state_cases st : validState st = true -> st ∈ orderedStates.
Proof.
  unfold validState. intros H. apply existsb_exists in H as (x & Hx & E). bool_prop. subst x. by apply list_elem_of_In.
Qed.

Ltac each_state H :=
  unfold orderedStates in H;
  repeat (apply elem_of_cons in H as [H | H]); [subst..|by apply not_elem_of_nil in H].

Lemma safety_before_validated st : validState st = true -> stateAtLeast st stateValidated = true -> stateAtLeast st stateSafety = true.
Proof. intros H%state_cases. each_state H; vm_compute; done. Qed.
Lemma validated_before_suppressed st : validState st = true -> stateAtLeast st stateSuppressed = true -> stateAtLeast st stateValidated = true.
Proof. intros H%state_cases. each_state H; vm_compute; done. Qed.
Lemma early_states st : validState st = true -> st <> stateIntent -> stateAtLeast st stateSafety = false -> st = stateReady.
Proof. intros H%state_cases. each_state H; vm_compute; done. Qed.
Lemma cleanup_states st : validState st = true -> stateAtLeast st stateCleanup = true -> st = stateCleanup.
Proof. intros H%state_cases. each_state H; vm_compute; done. Qed.

(** How far a restore is, as its marker says. *)
Record progress := Pg { pg_state : string; pg_safety : fileRecord; pg_at : string; pg_counts : recoveryDTO }.

Section Restore.
Context `{V : Vault} (m0 : marker) (old_db old_kr new_db new_kr : string).

Definition mk (g : progress) : marker := with_progress m0 (pg_state g) (pg_safety g) (pg_at g) (pg_counts g).

(** The marker a clean shutdown leaves, for these bytes. *)
Record promoted : Prop := MkPromoted {
  pm_valid : validateMarker m0 = None;
  pm_state : m_State m0 = stateReady;
  pm_old_db : m_OldDatabase m0 = record_of old_db;
  pm_old_kr : m_OldKeyring m0 = record_of old_kr;
  pm_new_db : m_PreparedDatabaseFile m0 = record_of new_db;
  pm_new_kr : m_PreparedKeyringFile m0 = record_of new_kr;
  pm_dir_db : m_PreparedDir m0 <> databaseName;
  pm_dir_kr : m_PreparedDir m0 <> keyringName
}.

Record good_progress (g : progress) : Prop := MkGood {
  gp_state : validState (pg_state g) = true;
  gp_promoted : pg_state g <> stateIntent;
  gp_safe : stateAtLeast (pg_state g) stateSafety = true ->
    validFileRecord (pg_safety g) 1 safetyMaxBytes = true /\ is_utc (pg_at g) = true;
  gp_unsafe : stateAtLeast (pg_state g) stateSafety = false -> pg_safety g = no_file /\ pg_at g = "";
  gp_counted : stateAtLeast (pg_state g) stateValidated = true ->
    rc_Schema (pg_counts g) = storeCurrentSchema /\ validCounts (pg_counts g) = true;
  gp_uncounted : stateAtLeast (pg_state g) stateValidated = false -> pg_counts g = no_recovery
}.

Lemma valid_mk g : promoted -> validateMarker (mk g) = None <-> good_progress g.
Proof.
  intros Hp. pose proof (pm_valid Hp) as Hv. pose proof (pm_state Hp) as Hs. unfold validateMarker in *.
  rewrite checks_pass in *. unfold marker_checks in *. cbn [forallb fst] in *.
  rewrite !andb_true_iff in *. unfold mk, with_progress. cbn [m_State m_SafetyBackupFile m_SafetyBackupCreatedAt m_ValidatedCounts
    m_Format m_Version m_ID m_OwnerInstanceID m_CreatedAt m_AuthorizingAdminID m_AuthorizingUsername m_PreviewID m_PlanID].
  destruct Hv as ((? & ?) & ? & ? & ? & ? & ? & ? & ? & ? & _ & Ho & _ & _). rewrite Hs in Ho.
  change (String.eqb stateReady stateIntent) with false in Ho. cbn [orb] in Ho.
  destruct g as [st sf ta c]. cbn [pg_state pg_safety pg_at pg_counts].
  split.
  - intros (_ & _ & _ & _ & _ & _ & _ & _ & _ & K1 & _ & K2 & K3 & K4 & K5 & K6 & K7 & _). constructor; cbn [pg_state pg_safety pg_at pg_counts].
    + done.
    + intros ->. change (String.eqb stateIntent stateIntent) with true in K2. cbn [negb orb] in K2.
      unfold no_old_files in K2. cbn [m_OldDatabase m_OldKeyring] in K2. bool_prop. unfold old_files_ok in Ho. bool_prop.
      match goal with H : m_OldDatabase m0 = no_file, H' : validFileRecord (m_OldDatabase m0) _ _ = true |- _ => rewrite H in H'; vm_compute in H'; done end.
    + intros E. rewrite E in *. done.
    + intros E. rewrite E in K5. cbn [orb] in K5. unfold no_safety in K5. bool_prop. done.
    + intros E. rewrite E in K6. cbn [negb orb] in K6. bool_prop. done.
    + intros E. rewrite E in K7. cbn [orb] in K7. bool_prop. done.
  - intros [G1 G2 G3 G4 G5 G6]. cbn [pg_state pg_safety pg_at pg_counts] in *.
    assert (Ei : String.eqb st stateIntent = false) by by apply String.eqb_neq.
    rewrite Ei. cbn [orb negb]. split_and!; try done; try tauto.
    + destruct (stateAtLeast st stateSafety) eqn:E; [|done]. destruct (G3 eq_refl) as [K _]. by rewrite K.
    + destruct (stateAtLeast st stateSafety) eqn:E; [|done]. destruct (G3 eq_refl) as [_ K]. by rewrite K.
    + destruct (stateAtLeast st stateSafety) eqn:E; [done|]. destruct (G4 eq_refl) as [-> ->]. cbn [orb]. unfold no_safety.
      cbn [m_SafetyBackupFile m_SafetyBackupCreatedAt]. by rewrite bool_decide_eq_true_2.
    + destruct (stateAtLeast st stateValidated) eqn:E; [|done]. destruct (G5 eq_refl) as [K7 K8]. cbn [negb orb].
      by rewrite K7, K8.
    + destruct (stateAtLeast st stateValidated) eqn:E; [done|]. rewrite (G6 eq_refl). cbn [orb]. by apply bool_decide_eq_true.
Qed.

(** ** Members *)

Record member := MkMember { mb_c : path; mb_p : path; mb_r : path; mb_old : string; mb_new : string; mb_max : Z }.
Definition db_m : member := MkMember db_path (prepared_db m0) (rollback_db m0) old_db new_db MaxDatabaseBytes.
Definition kr_m : member := MkMember kr_path (prepared_kr m0) (rollback_kr m0) old_kr new_kr keyringMaxBytes.

Definition same_record (b : member) : Prop := record_of (mb_old b) = record_of (mb_new b).
Definition start (d : disk) (b : member) : Prop := at_ d (mb_c b) (mb_old b) /\ at_ d (mb_p b) (mb_new b) /\ none d (mb_r b).
Definition parked (d : disk) (b : member) : Prop :=
  ~ same_record b /\ none d (mb_c b) /\ at_ d (mb_p b) (mb_new b) /\ at_ d (mb_r b) (mb_old b).
Definition swapped (d : disk) (b : member) : Prop :=
  ~ same_record b /\ at_ d (mb_c b) (mb_new b) /\ none d (mb_p b) /\ at_ d (mb_r b) (mb_old b).
Definition placed (d : disk) (b : member) : Prop := start d b \/ parked d b \/ swapped d b.
(** Out of the way of the new one; and the new one in place. *)
Definition cleared (d : disk) (b : member) : Prop := same_record b /\ start d b \/ parked d b \/ swapped d b.
Definition live (d : disk) (b : member) : Prop := same_record b /\ start d b \/ swapped d b.

(** What the canonical file holds when the new member is in place: a member that
    does not change stays. *)
Definition live_data (b : member) : string := if decide (record_of (mb_old b) = record_of (mb_new b)) then mb_old b else mb_new b.

(** ** Directories *)

Definition owned (d : disk) (dir : path) (allowed : list string) : Prop :=
  d_nodes d !! dir = Some (Dir private_dir) /\ forall n, is_Some (d_nodes d !! (dir ++ [n])%list) -> n ∈ allowed.
Definition gone (d : disk) (dir : path) : Prop := none d dir /\ forall n, none d (dir ++ [n])%list.
Definition has_recovery (d : disk) : Prop := d_nodes d !! recovery_dir = Some (Dir private_dir).
Definition owned_prep (d : disk) : Prop := owned d [m_PreparedDir m0] [m_PreparedDatabase m0; m_PreparedKeyring m0].
Definition owned_roll (d : disk) : Prop := owned d (rollback_dir m0) [databaseName; keyringName].

(** ** The evidence *)

(** An artifact of the old database, under the passphrase the marker seals. *)
Definition artifact (a : string) : Prop := exists runtime k pass, Open old_kr runtime = Ok k /\
  Unseal k (m_Sealed m0) (intentAAD m0) = Ok pass /\ Extract a pass = Ok (record_of old_db) /\ sized a safetyMaxBytes.
Definition saved (d : disk) (sf : fileRecord) : Prop := exists a, at_ d (safety_path m0) a /\ record_of a = sf /\ artifact a.
Definition unrecorded (d : disk) : Prop := none d (safety_path m0) \/ exists a, at_ d (safety_path m0) a /\ artifact a.

(** What the pair in place was validated as. *)
Definition counted (c : recoveryDTO) : Prop :=
  exists runtime k, Open (live_data kr_m) runtime = Ok k /\ Validate (live_data db_m) k = Ok c.
Definition fence (d : disk) : Prop :=
  exists s, d_suppression d = Holds s /\ validate_suppression s = None /\ sm_RestoreID s = m_ID m0.

(** ** The states *)

Record pre (d : disk) (g : progress) : Prop := MkPre {
  pr_marker : d_marker d = Holds (mk g);
  pr_good : good_progress g;
  pr_recovery : has_recovery d;
  pr_prep : owned_prep d;
  pr_roll : owned_roll d \/ gone d (rollback_dir m0);
  pr_db : placed d db_m;
  pr_kr : placed d kr_m;
  pr_early : stateAtLeast (pg_state g) stateSafety = false -> start d db_m /\ start d kr_m /\ unrecorded d;
  pr_saved : stateAtLeast (pg_state g) stateSafety = true -> saved d (pg_safety g);
  pr_counts : stateAtLeast (pg_state g) stateValidated = true -> counted (pg_counts g);
  pr_fence : fence d \/ d_suppression d = Absent /\ stateAtLeast (pg_state g) stateSuppressed = false;
  pr_receipt : d_receipt d = Absent
}.

(** A member that may be dropped: gone, or what it was. *)
Definition dropped (d : disk) (p : path) (data : string) : Prop := none d p \/ at_ d p data.

Record committed (d : disk) (g : progress) : Prop := MkCommitted {
  cm_marker : d_marker d = Holds (mk g);
  cm_good : good_progress g;
  cm_state : pg_state g = stateCleanup;
  cm_recovery : has_recovery d;
  cm_db : at_ d db_path (live_data db_m);
  cm_kr : at_ d kr_path (live_data kr_m);
  cm_roll : owned_roll d \/ gone d (rollback_dir m0);
  cm_roll_db : dropped d (rollback_db m0) old_db;
  cm_roll_kr : dropped d (rollback_kr m0) old_kr;
  cm_prep : owned_prep d \/ gone d [m_PreparedDir m0];
  cm_prep_db : dropped d (prepared_db m0) new_db;
  cm_prep_kr : dropped d (prepared_kr m0) new_kr;
  cm_saved : saved d (pg_safety g);
  cm_counts : counted (pg_counts g);
  cm_fence : fence d;
  cm_receipt : d_receipt d = Absent \/ d_receipt d = Holds (receiptFor (mk g))
}.

Record finished (d : disk) (g : progress) : Prop := MkFinished {
  fn_marker : d_marker d = Absent;
  fn_good : good_progress g;
  fn_state : pg_state g = stateCleanup;
  fn_recovery : has_recovery d;
  fn_db : at_ d db_path (live_data db_m);
  fn_kr : at_ d kr_path (live_data kr_m);
  fn_saved : saved d (pg_safety g);
  fn_counts : counted (pg_counts g);
  fn_fence : fence d;
  fn_receipt : d_receipt d = Holds (receiptFor (mk g));
  fn_gone : gone d (rollback_dir m0) /\ gone d [m_PreparedDir m0]
}.

(** Where a restore can be; and where it is while nothing but crashes happens. *)
Definition recoverable (d : disk) : Prop := (exists g, pre d g) \/ (exists g, committed d g) \/ exists g, finished d g.
Definition on_course (d : disk) : Prop :=
  (exists g, pre d g /\ (pg_state g = stateCleanup -> live d db_m /\ live d kr_m)) \/
  (exists g, committed d g) \/ exists g, finished d g.

Lemma course_recoverable d : on_course d -> recoverable d.
Proof. intros [(g & ? & _)|[?|?]]; [left; eauto|right; by left|right; by right]. Qed.

(** ** Sizes and names *)

Section Facts.
Context (Hp : promoted).

Lemma record_sized data mn mx : validFileRecord (record_of data) mn mx = true -> mn <= len data <= mx.
Proof. unfold validFileRecord, record_of. cbn [fr_Size]. intros H. bool_prop. done. Qed.

Lemma promoted_checks : prepared_paths_ok m0 = true /\ prepared_files_ok m0 = true /\ old_files_ok m0 = true.
Proof.
  pose proof (pm_valid Hp) as Hv. unfold validateMarker in Hv. rewrite checks_pass in Hv. unfold marker_checks in Hv.
  cbn [forallb fst] in Hv. rewrite !andb_true_iff in Hv. rewrite (pm_state Hp) in Hv.
  destruct Hv as ((? & ?) & ? & ? & ? & ? & ? & ? & ? & ? & _ & Ho & _ & _). done.
Qed.

Lemma sizes : sized old_db MaxDatabaseBytes /\ sized old_kr keyringMaxBytes /\ sized new_db MaxDatabaseBytes /\ sized new_kr keyringMaxBytes.
Proof.
  destruct promoted_checks as (_ & H2 & H3). unfold prepared_files_ok in H2. unfold old_files_ok in H3.
  rewrite (pm_new_db Hp), (pm_new_kr Hp) in H2. rewrite (pm_old_db Hp), (pm_old_kr Hp) in H3. bool_prop.
  split_and!; by apply record_sized.
Qed.
Lemma names : m_PreparedDatabase m0 <> m_PreparedKeyring m0 /\ m_PreparedDir m0 <> recoveryDirName.
Proof. destruct promoted_checks as (H & _). unfold prepared_paths_ok in H. bool_prop. done. Qed.

Definition sized_member (b : member) : Prop := sized (mb_old b) (mb_max b) /\ sized (mb_new b) (mb_max b).
Lemma sized_db : sized_member db_m.
Proof. destruct sizes as (? & ? & ? & ?). by split. Qed.
Lemma sized_kr : sized_member kr_m.
Proof. destruct sizes as (? & ? & ? & ?). by split. Qed.

Lemma live_record b : record_of (live_data b) = record_of (mb_new b).
Proof. unfold live_data. by destruct (decide _). Qed.
Lemma live_sized b : sized_member b -> sized (live_data b) (mb_max b).
Proof. intros [? ?]. unfold live_data. by destruct (decide _). Qed.
Lemma live_at d b : live d b -> at_ d (mb_c b) (live_data b).
Proof.
  unfold live_data. intros [[Hs [? _]]|[Hs [? _]]]; [by rewrite decide_True|by rewrite decide_False].
Qed.

(** The paths of a restore differ. *)
Lemma paths_differ : NoDup [db_path; kr_path; prepared_db m0; prepared_kr m0; rollback_db m0; rollback_kr m0; safety_path m0;
  rollback_dir m0; [m_PreparedDir m0]; recovery_dir].
Proof.
  destruct names as [Hn Hd]. pose proof (pm_dir_db Hp) as H1. pose proof (pm_dir_kr Hp) as H2.
  assert (Hs : safetyName m0 <> rollbackName m0) by (unfold safetyName, safety_name, rollbackName; cbn; by intros [=]).
  unfold db_path, kr_path, prepared_db, prepared_kr, rollback_db, rollback_kr, safety_path, rollback_dir, recovery_dir.
  repeat (apply NoDup_cons; split; [|]); [..|constructor].
  all: rewrite ?not_elem_of_cons; repeat split; try apply not_elem_of_nil; try (intros [=]; congruence).
Qed.
End Facts.
End Restore.

(** ** What the steps of a restore do to a member

    Parking, publishing and restoring one member of the pair, from whatever
    state an interruption left it in. *)

(** ** Frames *)

(** Only these paths changed, and no document. *)
Definition frame (d d' : disk) (S : list path) : Prop :=
  (forall q, q ∉ S -> d_nodes d' !! q = d_nodes d !! q) /\
  d_marker d' = d_marker d /\ d_receipt d' = d_receipt d /\ d_suppression d' = d_suppression d.

Lemma frame_at d d' S q x : frame d d' S -> q ∉ S -> at_ d q x -> at_ d' q x.
Proof. intros (H & _) Hq. unfold at_. by rewrite H. Qed.
Lemma frame_none d d' S q : frame d d' S -> q ∉ S -> none d q -> none d' q.
Proof. intros (H & _) Hq. unfold none. by rewrite H. Qed.
Lemma frame_owned d d' S dir allowed : frame d d' S -> dir ∉ S -> (forall n, (dir ++ [n])%list ∈ S -> n ∈ allowed) ->
  owned d dir allowed -> owned d' dir allowed.
Proof.
  intros (H & _) Hd Hn [H1 H2]. split; [by rewrite H|]. intros n Hs.
  destruct (decide ((dir ++ [n])%list ∈ S)) as [?|Hq]; [by apply Hn|]. apply H2. by rewrite <- H.
Qed.
Lemma frame_gone d d' S dir : frame d d' S -> dir ∉ S -> (forall n, (dir ++ [n])%list ∉ S) -> gone d dir -> gone d' dir.
Proof. intros Hf Hd Hn [H1 H2]. split; [by eapply frame_none|]. intros n. eapply frame_none; eauto. Qed.
Lemma frame_nodes d p n : frame d (with_nodes d (<[p := n]> (d_nodes d))) [p].
Proof. split_and!; [|done..]. intros q Hq. cbn. rewrite lookup_insert_ne; [done|]. intros ->. apply Hq. left. Qed.
Lemma frame_deleted d p : frame d (with_nodes d (delete p (d_nodes d))) [p].
Proof. split_and!; [|done..]. intros q Hq. cbn. rewrite lookup_delete_ne; [done|]. intros ->. apply Hq. left. Qed.

(** ** Renaming *)

Lemma rename_frame src dst d n : src <> dst ->
  frame d (with_nodes d (<[dst := n]> (delete src (d_nodes d)))) [src; dst].
Proof.
  intros Hne. split_and!; [|done..]. intros q Hq. cbn. rewrite lookup_insert_ne, lookup_delete_ne; [done|..].
  - intros ->. apply Hq. left.
  - intros ->. apply Hq. right. left.
Qed.

Section Steps.
Context (t : string) (G : Prop).

Lemma wp_rename d src dst x (Q : unit -> disk -> Prop) (J C : disk -> Prop) : src <> dst -> at_ d src x -> none d dst ->
  has_parent d dst = true -> J d -> C d ->
  (forall d', frame d d' [src; dst] -> at_ d' dst x -> none d' src -> J d' /\ C d' /\ Q tt d') ->
  wp t G d (renameNoClobber src dst ;; syncRenameParents) Q J C.
Proof.
  intros Hne Hs Hd Hp HJ HC HQ. unfold renameNoClobber.
  set (d' := with_nodes d (<[dst := File private_file x]> (delete src (d_nodes d)))).
  assert (H : J d' /\ C d' /\ Q tt d').
  { apply HQ; [by apply rename_frame| |].
    - unfold at_. cbn. by rewrite lookup_insert_eq.
    - unfold none. cbn. rewrite lookup_insert_ne by done. by rewrite lookup_delete_eq. }
  destruct H as (HJ' & HC' & HQ').
  assert (E : rename_at src dst d = (Ok tt, d')).
  { unfold rename_at. unfold none, at_ in *. by rewrite Hd, Hs, Hp. }
  apply (wp_bind t G _ _ _ _ (fun _ d1 => d1 = d')).
  - apply wp_touch; [done|done|]. apply wp_call; [done|done| |].
    + intros [] d1. rewrite E. by intros [= <-].
    + intros e d1. by rewrite E.
  - intros [] d1 ->. unfold syncRenameParents, syncDirectory. apply wp_touch; [done|done|].
    eapply wp_det; [apply det_touch|done|done|by eexists|by intros [] _].
Qed.

(** A step that is one reader. *)
Lemma wp_reads {A} d (m : IO A) r (Q : A -> disk -> Prop) (J C : disk -> Prop) a : det d m r -> r = Ok a -> J d -> C d -> Q a d ->
  wp t G d m Q J C.
Proof. intros Hm -> HJ HC HQ. eapply wp_det; [exact Hm|done|done|by eexists|]. by intros ? [= <-]. Qed.
Lemma wp_reads_bind {A B} d (m : IO A) r (k : A -> IO B) Q (J C : disk -> Prop) a : det d m r -> r = Ok a -> J d -> C d ->
  wp t G d (k a) Q J C -> wp t G d (seq_io m k) Q J C.
Proof. intros Hm -> HJ HC HQ. eapply wp_read; [exact Hm|done|done|by eexists|]. by intros ? [= <-]. Qed.

Lemma wp_requireHash d p x mx (Q : unit -> disk -> Prop) (J C : disk -> Prop) : at_ d p x -> sized x mx -> J d -> C d -> Q tt d ->
  wp t G d (requireHash p (record_of x) mx) Q J C.
Proof. intros. eapply wp_reads; [apply det_requireHash|by eapply require_of_file|done..]. Qed.

(** ** A member *)

Section Member.
Context (b : member) (Hb : sized_member b) (Hmax : maxFor (mb_c b) = mb_max b).
Context (Hcp : mb_c b <> mb_p b) (Hcr : mb_c b <> mb_r b) (Hpr : mb_p b <> mb_r b).

Lemma old_match d p : at_ d p (mb_old b) -> match_of d p (record_of (mb_old b)) (mb_max b) = Ok matchExpected.
Proof. intros H. by apply match_same; [|apply Hb]. Qed.
Lemma new_match d p : at_ d p (mb_new b) -> match_of d p (record_of (mb_new b)) (mb_max b) = Ok matchExpected.
Proof. intros H. by apply match_same; [|apply Hb]. Qed.
Lemma new_not_old d p : ~ same_record b -> at_ d p (mb_new b) -> match_of d p (record_of (mb_old b)) (mb_max b) = Ok matchOther.
Proof.
  intros Hn H. rewrite (match_file d p (mb_new b) _ _ H) by apply Hb. rewrite bool_decide_eq_false_2; [done|].
  intros E. apply Hn. unfold same_record. congruence.
Qed.
Lemma old_not_new d p : ~ same_record b -> at_ d p (mb_old b) -> match_of d p (record_of (mb_new b)) (mb_max b) = Ok matchOther.
Proof. intros Hn H. rewrite (match_file d p (mb_old b) _ _ H) by apply Hb. by rewrite bool_decide_eq_false_2. Qed.

(** A member that does not change stays where it is. *)
Lemma same_start d : same_record b -> placed d b -> start d b.
Proof. intros Hs [?|[[? _]|[? _]]]; [done|by exfalso..]. Qed.

Lemma wp_park d (Q : unit -> disk -> Prop) (J C : disk -> Prop) : placed d b -> has_parent d (mb_r b) = true -> J d -> C d ->
  (cleared d b -> Q tt d) ->
  (forall d', frame d d' [mb_c b; mb_r b] -> start d b -> parked d' b -> J d' /\ C d' /\ Q tt d') ->
  wp t G d (parkOld (mb_c b) (mb_r b) (record_of (mb_new b)) (record_of (mb_old b))) Q J C.
Proof.
  intros Hpl Hpar HJ HC Hstay Hmove. unfold parkOld. rewrite Hmax.
  destruct (decide (same_record b)) as [Hs|Hs].
  - rewrite bool_decide_eq_true_2 by done. pose proof (same_start d Hs Hpl) as Hst. pose proof Hst as [Hc _].
    apply wp_requireHash; [done|apply Hb|done|done|]. apply Hstay. by left.
  - rewrite bool_decide_eq_false_2 by (intros E; by apply Hs). destruct Hpl as [Hst|[Hpk|Hsw]].
    + pose proof Hst as (Hc & Hpp & Hr). eapply wp_reads_bind; [apply det_match|by apply match_none|done|done|].
      eapply wp_reads_bind; [apply det_match|by apply old_match|done|done|]. cbn.
      eapply wp_reads_bind; [apply det_require|done|done|done|]. eapply wp_touch; [done|done|].
      eapply wp_rename; [done|exact Hc|done|done|done|done|]. intros d' Hf Hr' Hc'. apply (Hmove d' Hf Hst).
      split_and!; [done|done| |done]. eapply frame_at; [exact Hf| |done]. rewrite !not_elem_of_cons. split_and!; [done|done|apply not_elem_of_nil].
    + pose proof Hpk as (_ & Hc & Hpp & Hr). eapply wp_reads_bind; [apply det_match|by apply old_match|done|done|].
      eapply wp_reads_bind; [apply det_match|by apply match_none|done|done|]. cbn. apply wp_pure. apply Hstay. right. by left.
    + pose proof Hsw as (_ & Hc & Hpp & Hr). eapply wp_reads_bind; [apply det_match|by apply old_match|done|done|].
      eapply wp_reads_bind; [apply det_match|by apply new_not_old|done|done|]. cbn.
      eapply wp_reads; [apply det_member_hash| |done|done|apply Hstay; right; by right].
      rewrite (hash_at_file d (mb_c b) (mb_new b) 1 _ Hc) by apply Hb. by rewrite bool_decide_eq_true_2.
Qed.

Lemma wp_publish d (Q : unit -> disk -> Prop) (J C : disk -> Prop) : cleared d b -> has_parent d (mb_c b) = true -> J d -> C d ->
  (live d b -> Q tt d) ->
  (forall d', frame d d' [mb_p b; mb_c b] -> parked d b -> swapped d' b -> J d' /\ C d' /\ Q tt d') ->
  wp t G d (publishNew (mb_c b) (mb_p b) (record_of (mb_new b)) (record_of (mb_old b))) Q J C.
Proof.
  intros Hcl Hpar HJ HC Hstay Hmove. unfold publishNew. rewrite Hmax. destruct Hcl as [[Hs Hst]|[Hpk|Hsw]].
  - rewrite bool_decide_eq_true_2 by done. rewrite <- Hs. pose proof Hst as [Hc _].
    apply wp_requireHash; [done|apply Hb|done|done|]. apply Hstay. by left.
  - pose proof Hpk as (Hn & Hc & Hpp & Hr). rewrite bool_decide_eq_false_2 by (intros E; by apply Hn).
    eapply wp_reads_bind; [apply det_match|by apply match_none|done|done|]. cbn.
    eapply wp_reads_bind; [apply det_require|done|done|done|].
    eapply wp_reads_bind; [apply det_replace, det_requireHash| |done|done|].
    { rewrite (require_of_file d (mb_p b) (mb_new b) _ _ Hpp eq_refl); [done|apply Hb]. }
    eapply wp_touch; [done|done|]. eapply wp_rename; [done|exact Hpp|done|done|done|done|]. intros d' Hf Hc' Hp'.
    apply (Hmove d' Hf Hpk). split_and!; [done|done|done|]. eapply frame_at; [exact Hf| |done].
    rewrite !not_elem_of_cons. split_and!; [done|done|apply not_elem_of_nil].
  - pose proof Hsw as (Hn & Hc & Hpp & Hr). rewrite bool_decide_eq_false_2 by (intros E; by apply Hn).
    eapply wp_reads_bind; [apply det_match|by apply new_match|done|done|]. cbn. apply wp_pure. apply Hstay. by right.
Qed.

Lemma wp_restore d (Q : unit -> disk -> Prop) (J C : disk -> Prop) : placed d b ->
  (forall d1, frame d d1 [mb_c b; mb_p b] -> has_parent d1 (mb_c b) = true) -> has_parent d (mb_p b) = true -> J d -> C d ->
  (start d b -> Q tt d) ->
  (forall d1 d', frame d d1 [mb_c b; mb_p b] -> frame d1 d' [mb_r b; mb_c b] -> parked d1 b -> start d' b ->
     (J d1 /\ C d1) /\ J d' /\ C d' /\ Q tt d') ->
  wp t G d (restore_member (mb_c b) (mb_p b) (mb_r b) (record_of (mb_old b)) (record_of (mb_new b)) (mb_max b)) Q J C.
Proof.
  intros Hpl Hpc Hpp HJ HC Hstay Hmove. unfold restore_member. destruct (decide (same_record b)) as [Hs|Hs].
  { rewrite bool_decide_eq_true_2 by done. pose proof (same_start d Hs Hpl) as Hst. pose proof Hst as [Hc _].
    apply wp_wrap, wp_requireHash; [done|apply Hb|done|done|]. by apply Hstay. }
  rewrite bool_decide_eq_false_2 by (intros E; by apply Hs).
  (* From a parked member on. *)
  assert (Hback : forall d1, frame d d1 [mb_c b; mb_p b] -> parked d1 b -> J d1 -> C d1 ->
    wp t G d1 (replace_error "restore swap: raw rollback member is unavailable"
        (found <- pathRecord (mb_r b) (record_of (mb_old b)) (mb_max b); require (bool_decide (found = matchExpected)) "") ;;
      renameNoClobber (mb_r b) (mb_c b) ;; syncRenameParents) Q J C).
  { intros d1 Hf Hpk HJ1 HC1. pose proof Hpk as (_ & Hc & Hp' & Hr).
    eapply wp_reads_bind; [apply det_replace; eapply det_bind; [apply det_match|intros ? _; apply det_require]| |done|done|].
    { rewrite (old_match d1 _ Hr). cbn. done. }
    eapply wp_rename; [by apply not_eq_sym|exact Hr|done|by apply Hpc|done|done|]. intros d' Hf' Hc' Hr'.
    apply (Hmove d1 d' Hf Hf' Hpk). split_and!; [done| |done]. eapply frame_at; [exact Hf'| |done].
    rewrite !not_elem_of_cons. split_and!; [done|by apply not_eq_sym|apply not_elem_of_nil]. }
  assert (Hrefl : frame d d [mb_c b; mb_p b]) by by repeat split.
  destruct Hpl as [Hst|[Hpk|Hsw]].
  - pose proof Hst as (Hc & _). eapply wp_reads_bind; [apply det_match|by apply old_match|done|done|]. cbn. apply wp_pure. by apply Hstay.
  - pose proof Hpk as (_ & Hc & _). eapply wp_reads_bind; [apply det_match|by apply match_none|done|done|]. cbn.
    eapply wp_reads_bind; [apply det_match|by apply match_none|done|done|]. cbn.
    eapply wp_bind; [apply (wp_pure _ _ _ _ (fun _ d1 => d1 = d)); done|]. intros [] d1 ->. by apply Hback.
  - pose proof Hsw as (_ & Hc & Hp' & Hr). eapply wp_reads_bind; [apply det_match|by apply new_not_old|done|done|]. cbn.
    eapply wp_reads_bind; [apply det_match|by apply new_match|done|done|]. cbn.
    eapply (wp_bind _ _ _ _ _ _ (fun _ d1 => frame d d1 [mb_c b; mb_p b] /\ parked d1 b /\ J d1 /\ C d1)).
    + eapply wp_reads_bind; [apply det_match|by apply match_none|done|done|]. cbn.
      eapply wp_rename; [done|exact Hc|done|done|done|done|]. intros d1 Hf Hp1 Hc1.
      assert (Hpk : parked d1 b).
      { split_and!; [done|done|done|]. eapply frame_at; [exact Hf| |done].
        rewrite !not_elem_of_cons. split_and!; [by apply not_eq_sym|by apply not_eq_sym|apply not_elem_of_nil]. }
      set (d' := with_nodes d1 (<[mb_c b := File private_file (mb_old b)]> (delete (mb_r b) (d_nodes d1)))).
      assert (Hf' : frame d1 d' [mb_r b; mb_c b]) by (apply rename_frame; by apply not_eq_sym).
      destruct (Hmove d1 d' Hf Hf' Hpk) as ((? & ?) & _); [|done].
      split_and!; [by unfold at_, d'; cbn; rewrite lookup_insert_eq| |].
      * eapply frame_at; [exact Hf'| |done]. rewrite !not_elem_of_cons. split_and!; [done|by apply not_eq_sym|apply not_elem_of_nil].
      * unfold none, d'. cbn. rewrite lookup_insert_ne by done. by rewrite lookup_delete_eq.
    + intros [] d1 (Hf & Hpk & HJ1 & HC1). by apply Hback.
Qed.
End Member.

(** Frames keep a member none of whose paths they touch. *)
Lemma frame_member d d' S b : frame d d' S -> mb_c b ∉ S -> mb_p b ∉ S -> mb_r b ∉ S ->
  (start d b -> start d' b) /\ (parked d b -> parked d' b) /\ (swapped d b -> swapped d' b).
Proof.
  intros Hf Hc Hp Hr. unfold start, parked, swapped. split_and!.
  - intros (? & ? & ?). split_and!; [by eapply frame_at|by eapply frame_at|by eapply frame_none].
  - intros (? & ? & ? & ?). split_and!; [done|by eapply frame_none|by eapply frame_at..].
  - intros (? & ? & ? & ?). split_and!; [done|by eapply frame_at|by eapply frame_none|by eapply frame_at].
Qed.
Lemma frame_placed d d' S b : frame d d' S -> mb_c b ∉ S -> mb_p b ∉ S -> mb_r b ∉ S ->
  (placed d b -> placed d' b) /\ (cleared d b -> cleared d' b) /\ (live d b -> live d' b).
Proof.
  intros Hf Hc Hp Hr. destruct (frame_member d d' S b Hf Hc Hp Hr) as (? & ? & ?). unfold placed, cleared, live. tauto.
Qed.

(** ** Emptying a directory that is owned *)

Section Tidy.
Context (dir : path) (n1 n2 x1 x2 : string) (Hn : n1 <> n2).
Notation p1 := (dir ++ [n1])%list.
Notation p2 := (dir ++ [n2])%list.

(** Some of its members were removed; and perhaps it was, too. *)
Definition emptied (d d' : disk) : Prop :=
  frame d d' [p1; p2; dir] /\ owned d' dir [n1; n2] /\ dropped d' p1 x1 /\ dropped d' p2 x2 /\
  forall q, none d q -> none d' q.
Definition tidying (d d' : disk) : Prop :=
  frame d d' [p1; p2; dir] /\ (owned d' dir [n1; n2] \/ gone d' dir) /\ dropped d' p1 x1 /\ dropped d' p2 x2 /\
  forall q, none d q -> none d' q.

Lemma emptied_tidying d d' : emptied d d' -> tidying d d'.
Proof. intros (? & ? & ? & ? & ?). split_and!; auto. Qed.
Lemma emptied_refl d : owned d dir [n1; n2] -> dropped d p1 x1 -> dropped d p2 x2 -> emptied d d.
Proof. intros Ho ? ?. exact (conj (conj (fun _ _ => eq_refl) (conj eq_refl (conj eq_refl eq_refl))) (conj Ho (conj H (conj H0 (fun _ Hq => Hq))))). Qed.

Lemma not_child (n : string) : dir <> (dir ++ [n])%list.
Proof. intros E. apply (f_equal length) in E. rewrite length_app in E. cbn in E. lia. Qed.

Lemma frame_trans d d1 d2 S S' : frame d d1 S -> frame d1 d2 S' -> (forall q, q ∈ S' -> q ∈ S) -> frame d d2 S.
Proof.
  intros (F1 & ? & ? & ?) (F2 & ? & ? & ?) HS. split_and!; [|congruence..]. intros q Hq. rewrite F2, F1; [done|done|auto].
Qed.

(** After a member was removed. *)
Definition removed (d d' : disk) (p : path) (d2 : disk) : Prop := emptied d d2 /\ none d2 p /\ forall q, none d' q -> none d2 q.

Lemma removed_file d d' p : emptied d d' -> p = p1 \/ p = p2 -> removed d d' p (with_nodes d' (delete p (d_nodes d'))).
Proof.
  intros (Hf & [Ho1 Ho2] & D1 & D2 & Hkeep) Hp. pose proof (frame_deleted d' p) as Hf2. set (d2 := with_nodes d' (delete p (d_nodes d'))) in *.
  assert (Hnone : forall q, none d' q -> none d2 q).
  { intros q Hq. unfold none, d2. cbn [with_nodes d_nodes]. by apply lookup_delete_None; right. }
  assert (Hdir : p <> dir) by (destruct Hp as [-> | ->]; apply not_eq_sym, not_child).
  assert (Hdrop : forall q x, dropped d' q x -> dropped d2 q x).
  { intros q x [?|?]; [left; auto|]. destruct (decide (q = p)) as [->|Hq].
    - left. unfold none, d2. cbn [with_nodes d_nodes]. by apply lookup_delete_None; left.
    - right. eapply frame_at; [exact Hf2|by rewrite list_elem_of_singleton|done]. }
  split_and!.
  - split_and!; [| |auto|auto|auto].
    + eapply frame_trans; [exact Hf|exact Hf2|]. intros q. rewrite list_elem_of_singleton, !elem_of_cons. intros ->. tauto.
    + split.
      * destruct Hf2 as (Hf2 & _). rewrite Hf2; [done|]. rewrite list_elem_of_singleton. by apply not_eq_sym.
      * intros n [nd Hnd]. apply Ho2. unfold d2 in Hnd. cbn [with_nodes d_nodes] in Hnd. apply lookup_delete_Some in Hnd as [_ Hnd]. by eexists.
  - unfold none, d2. cbn [with_nodes d_nodes]. by apply lookup_delete_None; left.
  - exact Hnone.
Qed.

Lemma wp_remove_file d d' p x (J C : disk -> Prop) s : emptied d d' -> p = p1 \/ p = p2 -> at_ d' p x ->
  (forall d2, emptied d d2 -> J d2 /\ C d2) ->
  wp t G d' (wrap s (Remove p)) (fun _ d2 => removed d d' p d2) J C.
Proof.
  intros He Hp Hx HJ. destruct (HJ _ He). apply wp_wrap, wp_call; [done|done| |].
  - intros [] d2. unfold remove_at. unfold at_ in Hx. rewrite Hx. intros [= <-]. by apply removed_file.
  - intros e d2. unfold remove_at. unfold at_ in Hx. by rewrite Hx.
Qed.

(** A member compared with its record, and one hashed. *)
Lemma wp_drop_recorded d d' p x mx (J C : disk -> Prop) s s' : emptied d d' -> p = p1 \/ p = p2 -> dropped d' p x -> sized x mx ->
  (forall d2, emptied d d2 -> J d2 /\ C d2) ->
  wp t G d' (found <- pathRecord p (record_of x) mx;
    match found with
    | matchMissing => pure tt
    | matchOther => throw (Text s)
    | matchExpected => wrap s' (Remove p)
    end) (fun _ d2 => removed d d' p d2) J C.
Proof.
  intros He Hp Hd Hs HJ. destruct (HJ _ He). destruct Hd as [Hx|Hx].
  - eapply wp_reads_bind; [apply det_match|by apply match_none|done|done|]. apply wp_pure. exact (conj He (conj Hx (fun q H => H))).
  - eapply wp_reads_bind; [apply det_match|by apply match_same|done|done|]. by eapply wp_remove_file.
Qed.

Lemma wp_drop_hashed d d' p x mx (J C : disk -> Prop) s s' : emptied d d' -> p = p1 \/ p = p2 -> dropped d' p x -> sized x mx ->
  (forall d2, emptied d d2 -> J d2 /\ C d2) ->
  wp t G d' (found <- catch (got <- hashRootFile p 1 mx; pure (Some got))
                        (fun e => if Is NotExist e && true then pure None else throw (Text s));
    match found with
    | None => pure tt
    | Some got => require (bool_decide (got = record_of x)) s ;; wrap s' (Remove p)
    end) (fun _ d2 => removed d d' p d2) J C.
Proof.
  intros He Hp Hd Hs HJ. destruct (HJ _ He).
  set (r := match hash_at d' p 1 mx with Ok a => Ok (Some a) | Err e => if Is NotExist e then Ok None else Err (Text s) end).
  assert (Hr : det d' (catch (got <- hashRootFile p 1 mx; pure (Some got))
                        (fun e => if Is NotExist e && true then pure None else throw (Text s))) r).
  { eapply det_catch; [eapply det_bind; [apply det_hash|intros a _; apply det_pure]| | |]; unfold r.
    - intros a. destruct (hash_at d' p 1 mx); cbn; [by intros [= <-]|done].
    - intros e. destruct (hash_at d' p 1 mx); cbn; [done|]. intros [= ->]. destruct (Is NotExist e); [apply det_pure|apply det_throw].
    - intros e Ht w Hw. rewrite Ht. cbn [andb]. rewrite thrown. split_and!; [apply text_is_text|done|apply goes_on_refl]. }
  destruct Hd as [Hx|Hx].
  - eapply wp_reads_bind; [exact Hr| |done|done|].
    + unfold r, hash_at. unfold none in Hx. by rewrite Hx.
    + apply wp_pure. exact (conj He (conj Hx (fun q H => H))).
  - eapply wp_reads_bind; [exact Hr| |done|done|].
    + unfold r. by rewrite (hash_at_file d' p x 1 mx Hx Hs).
    + eapply wp_reads_bind; [apply det_require|by rewrite bool_decide_eq_true_2|done|done|]. by eapply wp_remove_file.
Qed.

Lemma wp_tidy d (rm1 rm2 : IO unit) (Q : unit -> disk -> Prop) (J C : disk -> Prop) s s' : owned d dir [n1; n2] ->
  dropped d p1 x1 -> dropped d p2 x2 -> (forall d', tidying d d' -> J d' /\ C d') ->
  (forall d', emptied d d' -> wp t G d' rm1 (fun _ d2 => removed d d' p1 d2) J C) ->
  (forall d', emptied d d' -> wp t G d' rm2 (fun _ d2 => removed d d' p2 d2) J C) ->
  (forall d', tidying d d' -> gone d' dir -> Q tt d') ->
  wp t G d (require (is_private_dir (d_nodes d !! dir)) s ;; requireDirectorySubset dir [n1; n2] ;; rm1 ;; rm2 ;;
            requireExactDirectory dir [] ;; wrap s' (Remove dir) ;; syncDirectory) Q J C.
Proof.
  intros Ho D1 D2 HJ H1 H2 HQ. pose proof Ho as [Hdir Hmem]. pose proof (emptied_refl d Ho D1 D2) as He.
  assert (HJe : forall d', emptied d d' -> J d' /\ C d') by (intros d' ?; by apply HJ, emptied_tidying).
  destruct (HJe d He) as [HJd HCd].
  assert (Hpd : is_private_dir (d_nodes d !! dir) = true) by by apply is_private_dir_spec.
  eapply wp_reads_bind; [apply det_require|by rewrite Hpd|done|done|].
  eapply wp_reads_bind; [apply det_subset| |done|done|].
  { rewrite Hpd, (proj2 (forallb_forall _ _)); [done|]. intros n Hin. apply list_elem_of_In, elem_of_members in Hin.
    apply Hmem in Hin. rewrite !elem_of_cons in Hin. apply existsb_exists. exists n. rewrite String.eqb_refl. split; [|done].
    destruct Hin as [->|[->|Hin]]; [by left|by right; left|by apply not_elem_of_nil in Hin]. }
  eapply wp_bind; [by apply H1|]. intros [] d1 (He1 & N1 & _). eapply wp_bind; [by apply H2|]. intros [] d2 (He2 & N2 & Hkeep).
  destruct (HJe d2 He2) as [HJ2 HC2]. pose proof He2 as (Hf2 & [Hdir2 Hmem2] & _ & _ & Hk2).
  assert (Hno : forall n, none d2 (dir ++ [n])%list).
  { intros n. destruct (d_nodes d2 !! (dir ++ [n])%list) as [x|] eqn:E; [|done].
    assert (Hin : n ∈ [n1; n2]) by (apply Hmem2; by eexists). rewrite !elem_of_cons in Hin.
    destruct Hin as [->|[->|Hin]]; [|by unfold none in N2; rewrite N2 in E|by apply not_elem_of_nil in Hin].
    apply Hkeep in N1. by unfold none in N1; rewrite N1 in E. }
  assert (Hempty : members d2 dir = []) by by apply exact_empty.
  assert (Hpd2 : is_private_dir (d_nodes d2 !! dir) = true) by by apply is_private_dir_spec.
  eapply wp_reads_bind; [apply det_exact|by rewrite Hpd2, Hempty|done|done|].
  set (d3 := with_nodes d2 (delete dir (d_nodes d2))).
  assert (Hg : gone d3 dir).
  { split; [by unfold none, d3; cbn [with_nodes d_nodes]; apply lookup_delete_None; left|].
    intros n. unfold none, d3. cbn [with_nodes d_nodes]. apply lookup_delete_None. right. apply Hno. }
  assert (Ht3 : tidying d d3).
  { split_and!; [|by right|left; apply Hg|left; apply Hg|].
    2: { intros q Hq. unfold none, d3. cbn [with_nodes d_nodes]. apply lookup_delete_None. right. by apply Hk2. }
    eapply frame_trans; [exact Hf2|apply frame_deleted|].
    intros q. rewrite list_elem_of_singleton, !elem_of_cons. intros ->. tauto. }
  destruct (HJ d3 Ht3). eapply (wp_bind _ _ _ _ _ _ (fun _ d4 => d4 = d3)).
  - apply wp_wrap, wp_call; [done|done| |]; unfold remove_at; rewrite Hdir2, bool_decide_eq_true_2 by done; [|done].
    by intros [] d4 [= <-].
  - intros [] d4 ->. eapply wp_reads; [apply det_touch|done|done|done|]. by apply HQ.
Qed.
End Tidy.
End Steps.
