(* ===== verification/RestoreSwapSpec.v ===== *)
(** * The swap, from any interruption

    The steps of a restore keep its disk recoverable, whatever fails and wherever
    the process dies; from any state they were interrupted in they reach the end
    when nothing fails; and undoing them brings the old pair back. *)

From Stdlib Require Import ZArith Lia Ascii String.
From stdpp Require Import base gmap list strings sorting.
From S2P Require Import Prelude GoStr GoFmt Sha256 RestoreMarker RestoreDisk RestoreSwap RestoreReads RestoreInv.
From S2P Require Import RestoreInv.

Local Open Scope string_scope.
Local Open Scope Z_scope.

(** ** The order of the states *)

Lemma at_least_trans a b c : stateAtLeast a b = true -> stateAtLeast b c = true -> stateAtLeast a c = true.
Proof. unfold stateAtLeast. rewrite !andb_true_iff, !Z.leb_le. lia. Qed.
Lemma at_least_refl a : validState a = true -> stateAtLeast a a = true.
Proof. intros H%state_cases. each_state H; vm_compute; done. Qed.
Lemma at_least_below a b c : stateAtLeast a b = false -> stateAtLeast c b = true -> stateAtLeast a c = false.
Proof. intros H1 H2. destruct (stateAtLeast a c) eqn:E; [|done]. by rewrite (at_least_trans a c b E H2) in H1. Qed.

Section Swap.
Context `{V : Vault} (m0 : marker) (old_db old_kr new_db new_kr : string).
Context (Hp : promoted m0 old_db old_kr new_db new_kr).

Notation dbm := (db_m m0 old_db new_db).
Notation krm := (kr_m m0 old_kr new_kr).
Notation mk := (mk m0).
Notation pre := (pre m0 old_db old_kr new_db new_kr).
Notation committed := (committed m0 old_db old_kr new_db new_kr).
Notation finished := (finished m0 old_db old_kr new_db new_kr).
Notation on_course := (on_course m0 old_db old_kr new_db new_kr).
Notation recoverable := (recoverable m0 old_db old_kr new_db new_kr).
Notation saved := (saved m0 old_db old_kr).
Notation counted := (counted m0 old_db old_kr new_db new_kr).

Definition swap_paths : list path :=
  [db_path; kr_path; prepared_db m0; prepared_kr m0; rollback_db m0; rollback_kr m0].

Lemma apart_facts : m_PreparedDatabase m0 <> m_PreparedKeyring m0 /\ m_PreparedDir m0 <> recoveryDirName /\
  m_PreparedDir m0 <> databaseName /\ m_PreparedDir m0 <> keyringName /\ safetyName m0 <> rollbackName m0.
Proof.
  destruct (names m0 old_db old_kr new_db new_kr Hp) as [? ?].
  split_and!; [done|done|apply (pm_dir_db _ _ _ _ _ Hp)|apply (pm_dir_kr _ _ _ _ _ Hp)|].
  unfold safetyName, safety_name, rollbackName. cbn. by intros [=].
Qed.

(** Paths of the restore differ: by their components. *)
Ltac apart :=
  destruct apart_facts as (?Ha & ?Ha & ?Ha & ?Ha & ?Ha);
  unfold swap_paths, db_m, kr_m, db_path, kr_path, prepared_db, prepared_kr, rollback_db, rollback_kr, safety_path, rollback_dir,
    recovery_dir in *;
  cbn [mb_c mb_p mb_r app] in *; rewrite ?not_elem_of_cons; repeat split; try apply not_elem_of_nil; intros [=]; congruence.

Lemma swap_children (S : list path) n : (forall q, q ∈ S -> q ∈ swap_paths) ->
  (([m_PreparedDir m0] ++ [n])%list ∈ S -> n ∈ [m_PreparedDatabase m0; m_PreparedKeyring m0]) /\
  ((rollback_dir m0 ++ [n])%list ∈ S -> n ∈ [databaseName; keyringName]).
Proof.
  destruct apart_facts as (? & ? & ? & ? & ?). intros HS. rewrite !elem_of_cons.
  split; intros Hin%HS; unfold swap_paths, rollback_dir in Hin; cbn [app] in Hin;
    repeat (apply elem_of_cons in Hin as [Hin|Hin]).
  all: try (by apply not_elem_of_nil in Hin).
  all: unfold db_path, kr_path, prepared_db, prepared_kr, rollback_db, rollback_kr in Hin; injection Hin; intros; subst.
  all: try congruence; auto.
Qed.

Lemma not_swap q : q ∈ [safety_path m0; rollback_dir m0; [m_PreparedDir m0]; recovery_dir] -> q ∉ swap_paths.
Proof.
  intros H. repeat (apply elem_of_cons in H as [-> | H]); [apart..|by apply not_elem_of_nil in H].
Qed.

Lemma frame_dirs d d' S : frame d d' S -> (forall q, q ∈ S -> q ∈ swap_paths) ->
  (has_recovery d -> has_recovery d') /\ (owned_prep m0 d -> owned_prep m0 d') /\ (owned_roll m0 d -> owned_roll m0 d') /\
  (forall sf, saved d sf -> saved d' sf).
Proof.
  intros Hf HS. assert (Hn : forall q, q ∈ [safety_path m0; rollback_dir m0; [m_PreparedDir m0]; recovery_dir] -> q ∉ S)
    by (intros q Hq Hin; by apply (not_swap q Hq), HS). split_and!.
  - unfold has_recovery. destruct Hf as (Hf & _). rewrite Hf; [done|]. apply Hn. right; right; right; left.
  - apply (frame_owned d d' S _ _ Hf); [apply Hn; right; right; left|]. intros n. by apply swap_children.
  - apply (frame_owned d d' S _ _ Hf); [apply Hn; right; left|]. intros n. by apply swap_children.
  - intros sf (a & Ha & Hr). exists a. split; [|done]. eapply frame_at; [exact Hf| |done]. apply Hn. left.
Qed.

Lemma frame_fence d d' : d_suppression d' = d_suppression d -> fence m0 d -> fence m0 d'.
Proof. intros E (s & Hs & H). exists s. by rewrite E. Qed.

(** A move of members, after the safety artifact. *)
Lemma pre_moved d d' g S : pre d g -> frame d d' S -> (forall q, q ∈ S -> q ∈ swap_paths) -> owned_roll m0 d ->
  stateAtLeast (pg_state g) stateSafety = true -> placed d' dbm -> placed d' krm -> pre d' g.
Proof.
  intros [P1 P2 P3 P4 P5 P6 P7 P8 P9 P10 P11 P12] Hf HS Hr Hs Hdb Hkr.
  destruct (frame_dirs d d' S Hf HS) as (F1 & F2 & F3 & F4). destruct Hf as (_ & E1 & E2 & E3).
  constructor; [congruence|done|auto|auto|auto|done|done| |auto|done| |congruence].
  - intros E. congruence.
  - destruct P11 as [?|[? ?]]; [left; by eapply frame_fence|right; split; [congruence|done]].
Qed.

(** Between the safety artifact and the end of the swap. *)
Record mid (d : disk) (g : progress) : Prop := MkMid {
  md_pre : pre d g;
  md_roll : owned_roll m0 d;
  md_safe : stateAtLeast (pg_state g) stateSafety = true;
  md_last : pg_state g = stateCleanup -> live d dbm /\ live d krm
}.

(** Where a swap can be interrupted: its safety artifact is the marker's. *)
Definition swapping (sf : fileRecord) (ta : string) (d : disk) : Prop :=
  exists g, pre d g /\ pg_safety g = sf /\ pg_at g = ta /\ stateAtLeast (pg_state g) stateSafety = true /\
    (pg_state g = stateCleanup -> live d dbm /\ live d krm).

Lemma mid_swapping d g : mid d g -> swapping (pg_safety g) (pg_at g) d.
Proof. intros [? ? ? ?]. by exists g. Qed.
Lemma swapping_course sf ta d : swapping sf ta d -> on_course d.
Proof. intros (g & ? & _ & _ & _ & ?). left. by exists g. Qed.

Definition set_state (g : progress) (st : string) : progress := Pg st (pg_safety g) (pg_at g) (pg_counts g).

Lemma good_set g st : good_progress g -> stateAtLeast (pg_state g) stateSafety = true -> validState st = true -> st <> stateIntent ->
  stateAtLeast st stateSafety = true ->
  (stateAtLeast st stateValidated = true -> stateAtLeast (pg_state g) stateValidated = true) ->
  stateAtLeast (pg_state g) st = false -> good_progress (set_state g st).
Proof.
  intros [G1 G2 G3 G4 G5 G6] Hs Hv Hi Hst Hval Hlt. constructor; cbn [set_state pg_state pg_safety pg_at pg_counts]; try done.
  - intros _. by apply G3.
  - intros E. congruence.
  - intros E. apply G5. by apply Hval.
  - intros E. apply G6. destruct (stateAtLeast (pg_state g) stateValidated) eqn:E'; [|done]. exfalso.
    assert (H : stateAtLeast stateValidated st = true).
    { clear -E Hv. apply state_cases in Hv. each_state Hv; revert E; vm_compute; done. }
    by rewrite (at_least_trans _ _ _ E' H) in Hlt.
Qed.

Section Calls.
Context (t : string) (G : Prop).

Lemma wp_replaceMarker d g (Q : unit -> disk -> Prop) (J C : disk -> Prop) : J d -> C d -> (G -> good_progress g) ->
  (good_progress g -> let d' := with_marker d (Holds (mk g)) in J d' /\ C d' /\ Q tt d') ->
  wp t G d (replaceMarker (mk g)) Q J C.
Proof.
  intros HJ HC HG HQ. unfold replaceMarker.
  eapply wp_read; [apply det_check|done|done| |].
  - intros Hg. apply HG in Hg. apply (valid_mk m0 old_db old_kr new_db new_kr g Hp) in Hg.
    fold (RestoreInv.mk m0 g). rewrite Hg. by eexists.
  - intros [] E. destruct (validateMarker (mk g)) eqn:Ev; [done|].
    apply (valid_mk m0 old_db old_kr new_db new_kr g Hp) in Ev. destruct (HQ Ev) as (HJ' & HC' & HQ').
    unfold write_over. apply wp_touch; [done|done|].
    apply (wp_bind t G _ _ _ _ (fun _ d1 => d1 = with_marker d (Holds (mk g)))).
    + apply wp_call; [done|done| |done]. intros [] d1. by intros [= <-].
    + intros [] d1 ->. eapply wp_det; [apply det_touch|done|done|by eexists|by intros [] _].
Qed.

(** A new state of the marker, over the same files. *)
Lemma pre_state d g g' : pre d g -> good_progress g' -> stateAtLeast (pg_state g') stateSafety = true -> pg_safety g' = pg_safety g ->
  stateAtLeast (pg_state g) stateSafety = true ->
  (stateAtLeast (pg_state g') stateValidated = true -> counted (pg_counts g')) ->
  (stateAtLeast (pg_state g') stateSuppressed = true -> fence m0 d) ->
  pre (with_marker d (Holds (mk g'))) g'.
Proof.
  intros [P1 P2 P3 P4 P5 P6 P7 P8 P9 P10 P11 P12] Hg Hs Esf Hs0 Hc Hf.
  constructor; try done.
  - intros E. congruence.
  - intros _. rewrite Esf. by apply P9.
  - destruct P11 as [?|[? ?]]; [by left|]. destruct (stateAtLeast (pg_state g') stateSuppressed) eqn:E; [left; by apply Hf|].
    right. by split.
Qed.

Lemma wp_advance d g st (J C : disk -> Prop) (Q : marker -> disk -> Prop) : mid d g -> J d -> C d -> validState st = true ->
  st <> stateIntent -> stateAtLeast st stateSafety = true ->
  (stateAtLeast st stateValidated = true -> stateAtLeast (pg_state g) stateValidated = true) ->
  (stateAtLeast st stateSuppressed = true -> fence m0 d) ->
  (st = stateCleanup -> live d dbm /\ live d krm) ->
  (stateAtLeast (pg_state g) st = true -> Q (mk g) d) ->
  (let d' := with_marker d (Holds (mk (set_state g st))) in stateAtLeast (pg_state g) st = false -> mid d' (set_state g st) ->
     J d' /\ C d' /\ Q (mk (set_state g st)) d') ->
  wp t G d (advance (mk g) st) Q J C.
Proof.
  intros [Hpre Hr Hs Hl] HJ HC Hv Hi Hst Hval Hfen Hlast Hstay Hgo. unfold advance.
  change (m_State (mk g)) with (pg_state g). destruct (stateAtLeast (pg_state g) st) eqn:E; [by apply wp_pure, Hstay|].
  change (with_state (mk g) st) with (mk (set_state g st)).
  assert (Hg : good_progress (set_state g st)) by (apply good_set; try done; apply Hpre).
  assert (Hmid : mid (with_marker d (Holds (mk (set_state g st)))) (set_state g st)).
  { constructor; [|done|done|done]. apply (pre_state d g); try done. intros Hx. apply (pr_counts _ _ _ _ _ _ _ Hpre). by apply Hval. }
  destruct (Hgo eq_refl Hmid) as (HJ' & HC' & HQ').
  eapply wp_bind; [apply (wp_replaceMarker d _ (fun _ d1 => d1 = with_marker d (Holds (mk (set_state g st))))); [done|done|done|]|].
  - intros _. by split_and!.
  - intros [] d1 ->. by apply wp_pure.
Qed.

(** ** The steps *)

Record busy (d : disk) (g : progress) : Prop := MkBusy { bs_mid : mid d g; bs_more : pg_state g <> stateCleanup }.

Definition settled (g g' : progress) : Prop := pg_safety g' = pg_safety g /\ pg_at g' = pg_at g.

Lemma busy_swapping d g : busy d g -> swapping (pg_safety g) (pg_at g) d.
Proof. intros [? _]. by apply mid_swapping. Qed.

Lemma busy_moved d d' g S : busy d g -> frame d d' S -> (forall q, q ∈ S -> q ∈ swap_paths) -> placed d' dbm -> placed d' krm ->
  busy d' g.
Proof.
  intros [[H1 H2 H3 H4] Hne] Hf HS Hdb Hkr. destruct (frame_dirs d d' S Hf HS) as (_ & _ & F & _).
  constructor; [|done]. constructor; [by eapply pre_moved|auto|done|done].
Qed.

Lemma db_apart : mb_c dbm <> mb_p dbm /\ mb_c dbm <> mb_r dbm /\ mb_p dbm <> mb_r dbm.
Proof. split_and!; apart. Qed.
Lemma kr_apart : mb_c krm <> mb_p krm /\ mb_c krm <> mb_r krm /\ mb_p krm <> mb_r krm.
Proof. split_and!; apart. Qed.

Lemma in_two {A} (x a b : A) (P : A -> Prop) : P a -> P b -> x ∈ [a; b] -> P x.
Proof. intros Ha Hb Hx. apply elem_of_cons in Hx as [->|Hx]; [done|]. by apply list_elem_of_singleton in Hx as ->. Qed.

(** Frames of one member do not touch the other. *)
Lemma db_avoids (S : list path) : (forall q, q ∈ S -> q ∈ [mb_c dbm; mb_p dbm; mb_r dbm]) ->
  mb_c krm ∉ S /\ mb_p krm ∉ S /\ mb_r krm ∉ S.
Proof.
  intros HS. split_and!; intros Hin%HS.
  all: match type of Hin with ?p ∈ ?l => assert (Hno : p ∉ l) by apart; exact (Hno Hin) end.
Qed.
Lemma db_frame d d' S : frame d d' S -> (forall q, q ∈ S -> q ∈ [mb_c dbm; mb_p dbm; mb_r dbm]) ->
  (forall q, q ∈ S -> q ∈ swap_paths) /\ (placed d krm -> placed d' krm) /\ (cleared d krm -> cleared d' krm) /\ (live d krm -> live d' krm).
Proof.
  intros Hf HS. destruct (db_avoids S HS) as (? & ? & ?).
  split.
  - intros q Hq%HS. unfold swap_paths, db_m in *. cbn [mb_c mb_p mb_r] in Hq.
    repeat (apply elem_of_cons in Hq as [-> | Hq]); [..|by apply not_elem_of_nil in Hq]; rewrite !elem_of_cons; tauto.
  - by apply (frame_placed d d' S krm Hf).
Qed.
Lemma kr_avoids (S : list path) : (forall q, q ∈ S -> q ∈ [mb_c krm; mb_p krm; mb_r krm]) ->
  mb_c dbm ∉ S /\ mb_p dbm ∉ S /\ mb_r dbm ∉ S.
Proof.
  intros HS. split_and!; intros Hin%HS.
  all: match type of Hin with ?p ∈ ?l => assert (Hno : p ∉ l) by apart; exact (Hno Hin) end.
Qed.
Lemma kr_frame d d' S : frame d d' S -> (forall q, q ∈ S -> q ∈ [mb_c krm; mb_p krm; mb_r krm]) ->
  (forall q, q ∈ S -> q ∈ swap_paths) /\ (placed d dbm -> placed d' dbm) /\ (cleared d dbm -> cleared d' dbm) /\ (live d dbm -> live d' dbm).
Proof.
  intros Hf HS. destruct (kr_avoids S HS) as (? & ? & ?).
  split.
  - intros q Hq%HS. unfold swap_paths, kr_m in *. cbn [mb_c mb_p mb_r] in Hq.
    repeat (apply elem_of_cons in Hq as [-> | Hq]); [..|by apply not_elem_of_nil in Hq]; rewrite !elem_of_cons; tauto.
  - by apply (frame_placed d d' S dbm Hf).
Qed.

Lemma roll_parent d : owned_roll m0 d -> has_parent d (rollback_db m0) = true /\ has_parent d (rollback_kr m0) = true.
Proof. intros [H _]. unfold has_parent, rollback_db, rollback_kr. cbn. unfold rollback_dir in H. by rewrite H. Qed.
Lemma prep_parent d : owned_prep m0 d -> has_parent d (prepared_db m0) = true /\ has_parent d (prepared_kr m0) = true.
Proof. intros [H _]. unfold has_parent, prepared_db, prepared_kr. cbn. by rewrite H. Qed.

Lemma wp_park_db d g : busy d g ->
  wp t G d (parkOld db_path (rollback_db (mk g)) (m_PreparedDatabaseFile (mk g)) (m_OldDatabase (mk g)))
    (fun _ d' => busy d' g /\ cleared d' dbm) (swapping (pg_safety g) (pg_at g)) (swapping (pg_safety g) (pg_at g)).
Proof.
  intros Hb. pose proof Hb as [[Hpre Hr Hs Hl] Hne]. pose proof (busy_swapping d g Hb) as HJ.
  change (m_PreparedDatabaseFile (mk g)) with (m_PreparedDatabaseFile m0). change (m_OldDatabase (mk g)) with (m_OldDatabase m0).
  rewrite (pm_new_db _ _ _ _ _ Hp), (pm_old_db _ _ _ _ _ Hp). destruct db_apart as (? & ? & ?).
  apply (wp_park t G dbm); [by eapply sized_db|done|done|done|done|by destruct Hpre|by apply roll_parent|done|done|done|].
  intros d' Hf _ Hpk. destruct (db_frame d d' _ Hf) as (HS & Hk & _).
  { intros q. apply (in_two q _ _ (fun q => q ∈ [mb_c dbm; mb_p dbm; mb_r dbm])); [left|right; right; left]. }
  assert (Hb' : busy d' g) by (eapply busy_moved; [done|done|done|right; by left|apply Hk; by destruct Hpre]).
  split_and!; [by apply busy_swapping|by apply busy_swapping|done|right; by left].
Qed.

Lemma wp_park_kr d g : busy d g -> cleared d dbm ->
  wp t G d (parkOld kr_path (rollback_kr (mk g)) (m_PreparedKeyringFile (mk g)) (m_OldKeyring (mk g)))
    (fun _ d' => busy d' g /\ cleared d' dbm /\ cleared d' krm) (swapping (pg_safety g) (pg_at g)) (swapping (pg_safety g) (pg_at g)).
Proof.
  intros Hb Hc. pose proof Hb as [[Hpre Hr Hs Hl] Hne]. pose proof (busy_swapping d g Hb) as HJ.
  change (m_PreparedKeyringFile (mk g)) with (m_PreparedKeyringFile m0). change (m_OldKeyring (mk g)) with (m_OldKeyring m0).
  rewrite (pm_new_kr _ _ _ _ _ Hp), (pm_old_kr _ _ _ _ _ Hp). destruct kr_apart as (? & ? & ?).
  apply (wp_park t G krm); [by eapply sized_kr|done|done|done|done|by destruct Hpre|by apply roll_parent|done|done|done|].
  intros d' Hf _ Hpk. destruct (kr_frame d d' _ Hf) as (HS & Hk & Hk' & _).
  { intros q. apply (in_two q _ _ (fun q => q ∈ [mb_c krm; mb_p krm; mb_r krm])); [left|right; right; left]. }
  assert (Hb' : busy d' g) by (eapply busy_moved; [done|done|done|apply Hk; by destruct Hpre|right; by left]).
  split_and!; [by apply busy_swapping|by apply busy_swapping|done|auto|right; by left].
Qed.

Lemma live_placed d b : live d b -> placed d b.
Proof. intros [[_ ?]|?]; [by left|right; by right]. Qed.

Lemma wp_publish_db d g : busy d g -> cleared d dbm -> cleared d krm ->
  wp t G d (publishNew db_path (prepared_db (mk g)) (m_PreparedDatabaseFile (mk g)) (m_OldDatabase (mk g)))
    (fun _ d' => busy d' g /\ live d' dbm /\ cleared d' krm) (swapping (pg_safety g) (pg_at g)) (swapping (pg_safety g) (pg_at g)).
Proof.
  intros Hb Hc Hck. pose proof Hb as [[Hpre Hr Hs Hl] Hne]. pose proof (busy_swapping d g Hb) as HJ.
  change (m_PreparedDatabaseFile (mk g)) with (m_PreparedDatabaseFile m0). change (m_OldDatabase (mk g)) with (m_OldDatabase m0).
  rewrite (pm_new_db _ _ _ _ _ Hp), (pm_old_db _ _ _ _ _ Hp). destruct db_apart as (? & ? & ?).
  apply (wp_publish t G dbm); [by eapply sized_db|done|done|done|done|done|done|done|done|done|].
  intros d' Hf _ Hsw. destruct (db_frame d d' _ Hf) as (HS & Hk & Hk' & _).
  { intros q. apply (in_two q _ _ (fun q => q ∈ [mb_c dbm; mb_p dbm; mb_r dbm])); [right; left|left]. }
  assert (Hb' : busy d' g) by (eapply busy_moved; [done|done|done|right; by right|apply Hk; by destruct Hpre]).
  split_and!; [by apply busy_swapping|by apply busy_swapping|done|by right|auto].
Qed.

Lemma wp_publish_kr d g : busy d g -> live d dbm -> cleared d krm ->
  wp t G d (publishNew kr_path (prepared_kr (mk g)) (m_PreparedKeyringFile (mk g)) (m_OldKeyring (mk g)))
    (fun _ d' => busy d' g /\ live d' dbm /\ live d' krm) (swapping (pg_safety g) (pg_at g)) (swapping (pg_safety g) (pg_at g)).
Proof.
  intros Hb Hc Hck. pose proof Hb as [[Hpre Hr Hs Hl] Hne]. pose proof (busy_swapping d g Hb) as HJ.
  change (m_PreparedKeyringFile (mk g)) with (m_PreparedKeyringFile m0). change (m_OldKeyring (mk g)) with (m_OldKeyring m0).
  rewrite (pm_new_kr _ _ _ _ _ Hp), (pm_old_kr _ _ _ _ _ Hp). destruct kr_apart as (? & ? & ?).
  apply (wp_publish t G krm); [by eapply sized_kr|done|done|done|done|done|done|done|done|done|].
  intros d' Hf _ Hsw. destruct (kr_frame d d' _ Hf) as (HS & Hk & _ & Hk').
  { intros q. apply (in_two q _ _ (fun q => q ∈ [mb_c krm; mb_p krm; mb_r krm])); [right; left|left]. }
  assert (Hb' : busy d' g) by (eapply busy_moved; [done|done|done|apply Hk; by destruct Hpre|right; by right]).
  split_and!; [by apply busy_swapping|by apply busy_swapping|done|auto|by right].
Qed.

(** ** The rollback directory *)

Lemma pre_rolled d g : pre d g -> gone d (rollback_dir m0) ->
  let d' := with_nodes d (<[rollback_dir m0 := Dir private_dir]> (d_nodes d)) in pre d' g /\ owned_roll m0 d'.
Proof.
  intros [P1 P2 P3 P4 P5 P6 P7 P8 P9 P10 P11 P12] [Hg1 Hg2] d'. pose proof (frame_nodes d (rollback_dir m0) (Dir private_dir)) as Hf.
  fold d' in Hf. assert (Hr : owned_roll m0 d').
  { split; [unfold d'; cbn [with_nodes d_nodes]; by rewrite lookup_insert_eq|]. intros n [x Hx]. exfalso.
    assert (Hn : none d' (rollback_dir m0 ++ [n])%list).
    { eapply frame_none; [exact Hf| |apply Hg2]. rewrite list_elem_of_singleton. unfold rollback_dir. by intros [=]. }
    unfold none in Hn. by rewrite Hn in Hx. }
  assert (Hn : forall q, q ∈ (swap_paths ++ [safety_path m0; [m_PreparedDir m0]; recovery_dir])%list -> q ∉ [rollback_dir m0]).
  { intros q Hq. rewrite list_elem_of_singleton. intros ->.
    match type of Hq with ?p ∈ ?l => assert (Hno : p ∉ l) by apart; exact (Hno Hq) end. }
  assert (Hm : forall b, b = dbm \/ b = krm -> mb_c b ∉ [rollback_dir m0] /\ mb_p b ∉ [rollback_dir m0] /\ mb_r b ∉ [rollback_dir m0]).
  { intros b [-> | ->]; split_and!; apply Hn; unfold swap_paths, db_m, kr_m; cbn [mb_c mb_p mb_r app]; rewrite !elem_of_cons; tauto. }
  destruct (Hm dbm) as (D1 & D2 & D3); [by left|]. destruct (Hm krm) as (K1 & K2 & K3); [by right|].
  assert (Hat : forall a, at_ d (safety_path m0) a -> at_ d' (safety_path m0) a).
  { intros a. eapply frame_at; [exact Hf|]. apply Hn. rewrite elem_of_app, !elem_of_cons. tauto. }
  split; [|done]. constructor; try done.
  - unfold has_recovery. destruct Hf as (Hf & _). rewrite Hf; [done|]. apply Hn. rewrite elem_of_app, !elem_of_cons. tauto.
  - eapply frame_owned; [exact Hf| | |exact P4].
    + apply Hn. rewrite elem_of_app, !elem_of_cons. tauto.
    + intros n. rewrite list_elem_of_singleton. cbn [app]. unfold rollback_dir. intros [=]. by destruct apart_facts as (_ & ? & _).
  - by left.
  - by apply (frame_placed d d' _ dbm Hf).
  - by apply (frame_placed d d' _ krm Hf).
  - intros E. destruct (P8 E) as (S1 & S2 & S3). split_and!.
    + by apply (frame_member d d' _ dbm Hf).
    + by apply (frame_member d d' _ krm Hf).
    + destruct S3 as [S3|(a & Ha & Hart)]; [left|right; eauto]. eapply frame_none; [exact Hf| |done].
      apply Hn. rewrite elem_of_app, !elem_of_cons. tauto.
  - intros E. destruct (P9 E) as (a & Ha & Hr'). exists a. auto.
Qed.

Lemma wp_ensureRollback d g (J C : disk -> Prop) : pre d g -> (forall d', pre d' g -> d_nodes d' !! rollback_dir m0 <> None -> J d' /\ C d') ->
  J d -> C d ->
  wp t G d (ensureRollbackDirectory (mk g))
    (fun _ d' => pre d' g /\ owned_roll m0 d' /\ (live d dbm -> live d krm -> live d' dbm /\ live d' krm)) J C.
Proof.
  intros Hpre HJC HJ HC. unfold ensureRollbackDirectory. change (rollback_dir (mk g)) with (rollback_dir m0).
  eapply wp_read; [apply det_look|done|done|by eexists|]. intros found [= <-].
  destruct (pr_roll _ _ _ _ _ _ _ Hpre) as [Hr|Hg].
  - pose proof Hr as [Hd _]. rewrite Hd.
    eapply wp_reads; [apply det_require|by rewrite (proj2 (is_private_dir_spec _))|done|done|]. done.
  - pose proof Hg as [Hn _]. unfold none in Hn. rewrite Hn. destruct (pre_rolled d g Hpre Hg) as [Hpre' Hr'].
    set (d' := with_nodes d (<[rollback_dir m0 := Dir private_dir]> (d_nodes d))) in *.
    assert (HJ' : J d' /\ C d'). { apply HJC; [done|]. destruct Hr' as [-> _]. done. }
    eapply (wp_bind _ _ _ _ _ _ (fun _ d1 => d1 = d')).
    + apply wp_wrap, wp_call; [done|done| |].
      * intros [] d1. unfold mkdir_at. rewrite Hn. unfold has_parent, rollback_dir. cbn.
        pose proof (pr_recovery _ _ _ _ _ _ _ Hpre) as Hrec. unfold has_recovery, recovery_dir in Hrec. rewrite Hrec. cbn. by intros [= <-].
      * intros e d1. unfold mkdir_at. rewrite Hn. unfold has_parent, rollback_dir. cbn.
        pose proof (pr_recovery _ _ _ _ _ _ _ Hpre) as Hrec. unfold has_recovery, recovery_dir in Hrec. by rewrite Hrec.
    + intros [] d1 ->. eapply wp_reads; [apply det_touch|done|by apply HJ'|by apply HJ'|]. split_and!; [done|done|].
      pose proof (frame_nodes d (rollback_dir m0) (Dir private_dir)) as Hf. fold d' in Hf.
      assert (Hm : forall b, b = dbm \/ b = krm -> live d b -> live d' b).
      { intros b Hb. apply (frame_placed d d' _ b Hf); rewrite list_elem_of_singleton; destruct Hb as [-> | ->]; apart. }
      intros. split; apply Hm; auto.
Qed.

(** ** From step to step *)

(** The documents changed, the files did not. *)
Definition same_files (d d' : disk) : Prop := d_nodes d' = d_nodes d.
Lemma same_files_live d d' b : same_files d d' -> (cleared d b -> cleared d' b) /\ (live d b -> live d' b).
Proof. intros E. unfold cleared, live, parked, swapped, start, at_, none. by rewrite E. Qed.

(** What the next step starts from. *)
Definition arrived (d : disk) (g : progress) (st : string) (m : marker) (d' : disk) : Prop :=
  exists g', m = mk g' /\ settled g g' /\ busy d' g' /\ same_files d d' /\ d_suppression d' = d_suppression d /\
    stateAtLeast (pg_state g') st = true.

Lemma wp_step d g st : busy d g -> validState st = true -> st <> stateIntent -> st <> stateCleanup ->
  stateAtLeast st stateSafety = true ->
  (stateAtLeast st stateValidated = true -> stateAtLeast (pg_state g) stateValidated = true) ->
  (stateAtLeast st stateSuppressed = true -> fence m0 d) ->
  wp t G d (advance (mk g) st) (arrived d g st) (swapping (pg_safety g) (pg_at g)) (swapping (pg_safety g) (pg_at g)).
Proof.
  intros Hb Hv Hi Hc Hs Hval Hfen. pose proof (busy_swapping d g Hb) as HJ.
  apply (wp_advance d g st); try done; [apply Hb| |].
  - intros Hst. by exists g.
  - intros d' Hst Hmid. assert (Hb' : busy d' (set_state g st)) by by constructor.
    split_and!; [by apply (busy_swapping d' (set_state g st))..|]. exists (set_state g st).
    split_and!; try done. by apply at_least_refl.
Qed.

Lemma counted_unique c c' : counted c -> counted c' -> c = c'.
Proof.
  intros (r1 & k1 & O1 & V1) (r2 & k2 & O2 & V2). pose proof (Open_unique _ _ _ _ _ O1 O2) as <-. congruence.
Qed.

(** What the replaced pair is to be for a restore to end. *)
Definition new_pair_ok (runtime : string) : Prop := exists k c, Open (live_data krm) runtime = Ok k /\
  Validate (live_data dbm) k = Ok c /\ rc_Schema c = storeCurrentSchema /\ validCounts c = true.

Lemma canonical_pair d runtime c : at_ d db_path (live_data dbm) -> at_ d kr_path (live_data krm) ->
  valid_pair d db_path kr_path runtime (m_PreparedDatabaseFile m0) (m_PreparedKeyringFile m0) c <->
  exists k, Open (live_data krm) runtime = Ok k /\ Validate (live_data dbm) k = Ok c.
Proof.
  intros Hd Hk. rewrite (pm_new_db _ _ _ _ _ Hp), (pm_new_kr _ _ _ _ _ Hp). split.
  - intros (x & y & k & Hx & _ & _ & Hy & _ & _ & Ho & Hv). unfold at_ in *.
    rewrite Hd in Hx. rewrite Hk in Hy. injection Hx as <-. injection Hy as <-. eauto.
  - intros (k & Ho & Hv). exists (live_data dbm), (live_data krm), k.
    split_and!; [done|apply (live_record dbm)|apply live_sized, (sized_db m0 old_db old_kr new_db new_kr Hp)|done|
      apply (live_record krm)|apply live_sized, (sized_kr m0 old_db old_kr new_db new_kr Hp)|done|done].
Qed.

Lemma wp_validated d g c : busy d g -> counted c -> (G -> rc_Schema c = storeCurrentSchema /\ validCounts c = true) ->
  wp t G d (advance (mk (Pg (pg_state g) (pg_safety g) (pg_at g) c)) stateValidated) (arrived d g stateValidated)
    (swapping (pg_safety g) (pg_at g)) (swapping (pg_safety g) (pg_at g)).
Proof.
  intros Hb Hc HG. pose proof (busy_swapping d g Hb) as HJ. pose proof Hb as [[Hpre Hr Hs Hl] Hne].
  unfold advance. change (m_State (mk (Pg (pg_state g) (pg_safety g) (pg_at g) c))) with (pg_state g).
  destruct (stateAtLeast (pg_state g) stateValidated) eqn:E.
  - rewrite (counted_unique c (pg_counts g) Hc) by by apply (pr_counts _ _ _ _ _ _ _ Hpre). destruct g as [st sf ta cs]. cbn [pg_state pg_safety pg_at pg_counts] in *.
    apply wp_pure. exists (Pg st sf ta cs). by split_and!.
  - set (g' := Pg stateValidated (pg_safety g) (pg_at g) c).
    change (with_state (mk (Pg (pg_state g) (pg_safety g) (pg_at g) c)) stateValidated) with (mk g').
    assert (Hgo : good_progress g' -> busy (with_marker d (Holds (mk g'))) g').
    { intros Hg. constructor; [|done]. constructor; [|done|done|done]. by apply (pre_state d g g'). }
    eapply (wp_bind _ _ _ _ _ _ (fun _ d1 => d1 = with_marker d (Holds (mk g')) /\ busy d1 g')).
    + apply wp_replaceMarker; [done|done| |].
      * intros Hg. pose proof (pr_good _ _ _ _ _ _ _ Hpre) as [G1 G2 G3 G4 G5 G6]. constructor; try done; cbn [g' pg_state pg_safety pg_at pg_counts].
        { intros _. by apply G3. }
        { intros _. by apply HG. }
      * intros Hg d'. specialize (Hgo Hg). split_and!; [by apply (busy_swapping d' g')..|done|done].
    + intros [] d1 [-> Hb']. apply wp_pure. exists g'. by split_and!.
Qed.

Lemma promoted_id : validRestoreID (m_ID m0) = true.
Proof.
  pose proof (pm_valid _ _ _ _ _ Hp) as Hv. unfold validateMarker in Hv. rewrite checks_pass in Hv. unfold marker_checks in Hv.
  cbn [forallb fst] in Hv. rewrite !andb_true_iff in Hv. tauto.
Qed.

Lemma suppression_of_fence d : fence m0 d -> exists s, suppression_at d = Ok s /\ sm_RestoreID s = m_ID m0.
Proof. intros (s & Hs & Hv & Hid). exists s. unfold suppression_at. by rewrite Hs, Hv. Qed.

Lemma wp_ensureSuppression d g : busy d g -> (G -> dated t = true) ->
  wp t G d (ensureSuppression (mk g) t) (fun _ d' => busy d' g /\ same_files d d' /\ fence m0 d')
    (swapping (pg_safety g) (pg_at g)) (swapping (pg_safety g) (pg_at g)).
Proof.
  intros Hb HG. pose proof (busy_swapping d g Hb) as HJ. pose proof Hb as [[Hpre Hr Hs Hl] Hne].
  unfold ensureSuppression. change (m_ID (mk g)) with (m_ID m0). destruct (pr_fence _ _ _ _ _ _ _ Hpre) as [Hf|[Hn Hst]].
  - destruct (suppression_of_fence d Hf) as (s & Hs1 & Hid).
    eapply wp_reads_bind; [apply (det_maybe d readSuppression NotExist), det_look|by rewrite Hs1|done|done|].
    cbn beta iota. rewrite Hid. eapply wp_reads; [apply det_require|by rewrite String.eqb_refl|done|done|done].
  - eapply wp_reads_bind; [apply (det_maybe d readSuppression NotExist), det_look| |done|done|].
    { unfold suppression_at. rewrite Hn. done. }
    cbn beta iota. eapply wp_read; [apply det_require|done|done| |].
    { intros Hg. rewrite (HG Hg). by eexists. }
    intros [] Hd. destruct (dated t) eqn:Ed; [|done].
    set (v := MkSuppressionMarker suppressionFormat 1 (m_ID m0) t suppressionReason).
    set (d' := with_suppression d (Holds v)).
    assert (Hfen : fence m0 d').
    { exists v. split_and!; [done| |done]. unfold validate_suppression, v. cbn [sm_Format sm_Version sm_RestoreID sm_CreatedAt sm_Reason].
      rewrite promoted_id, !String.eqb_refl. assert (Hu : is_utc t = true).
      { unfold is_utc, dated in *. destruct (utc_year t); [|done]. by apply bool_decide_eq_true. }
      by rewrite Hu. }
    assert (Hb' : busy d' g).
    { constructor; [|done]. constructor; [|done..]. destruct Hpre. constructor; try done. by left. }
    unfold write_new. apply wp_touch; [done|done|].
    eapply (wp_bind _ _ _ _ _ _ (fun _ d1 => d1 = d')).
    + apply wp_call; [done|done| |]; rewrite Hn; [by intros [] d1 [= <-]|done].
    + intros [] d1 ->. pose proof (busy_swapping d' g Hb') as HJ'.
      apply wp_touch; [done|done|]. apply wp_touch; [done|done|].
      eapply wp_reads; [apply det_touch|done|done|done|done].
Qed.

(** ** The swap *)

(** What the canonical pair was found to be. *)
Definition new_pair_valid (runtime : string) : Prop :=
  exists k c, Open (live_data krm) runtime = Ok k /\ Validate (live_data dbm) k = Ok c.

Lemma settled_swapping g g' d : settled g g' -> swapping (pg_safety g') (pg_at g') d -> swapping (pg_safety g) (pg_at g) d.
Proof. by intros [-> ->]. Qed.

(** One step after another, in the same restore. *)
Lemma wp_then {A B} d g (m : IO A) (k : A -> IO B) (P : A -> disk -> progress -> Prop) Q :
  wp t G d m (fun a d1 => exists g1, settled g g1 /\ P a d1 g1) (swapping (pg_safety g) (pg_at g)) (swapping (pg_safety g) (pg_at g)) ->
  (forall a d1 g1, P a d1 g1 -> wp t G d1 (k a) (fun b d2 => exists g2, settled g1 g2 /\ Q b d2 g2)
     (swapping (pg_safety g1) (pg_at g1)) (swapping (pg_safety g1) (pg_at g1))) ->
  wp t G d (seq_io m k) (fun b d2 => exists g2, settled g g2 /\ Q b d2 g2) (swapping (pg_safety g) (pg_at g)) (swapping (pg_safety g) (pg_at g)).
Proof.
  intros Hm Hk. eapply wp_bind; [exact Hm|]. intros a d1 (g1 & [E1 E2] & HP).
  eapply wp_mono; [by apply Hk| | |]; try (by rewrite E1, E2).
  intros b d2 (g2 & [E3 E4] & HQ). exists g2. split; [split; congruence|done].
Qed.

(** A step that leaves the marker as it was. *)
Lemma wp_stay {A} d g (m : IO A) (P : A -> disk -> Prop) :
  wp t G d m P (swapping (pg_safety g) (pg_at g)) (swapping (pg_safety g) (pg_at g)) ->
  wp t G d m (fun a d1 => exists g1, settled g g1 /\ g1 = g /\ P a d1) (swapping (pg_safety g) (pg_at g)) (swapping (pg_safety g) (pg_at g)).
Proof. intros Hm. eapply wp_mono; [exact Hm| |done|done]. intros a d1 HP. exists g. by split_and!. Qed.

(** A recorded step, over files that stay as [P] describes them. *)
Lemma wp_record d g st (P : disk -> Prop) : busy d g -> P d -> (forall d', same_files d d' -> P d') ->
  validState st = true -> st <> stateIntent -> st <> stateCleanup -> stateAtLeast st stateSafety = true ->
  stateAtLeast st stateValidated = false ->
  wp t G d (advance (mk g) st) (fun m d1 => exists g1, settled g g1 /\ m = mk g1 /\ busy d1 g1 /\ P d1)
    (swapping (pg_safety g) (pg_at g)) (swapping (pg_safety g) (pg_at g)).
Proof.
  intros Hb HP Hsame Hv Hi Hc Hs Hval.
  assert (Hsup : stateAtLeast st stateSuppressed = false).
  { clear -Hval Hv. apply state_cases in Hv. each_state Hv; revert Hval; vm_compute; done. }
  eapply wp_mono; [eapply wp_step| |done|done]; try done; try (intros E; congruence).
  intros m d1 (g1 & -> & Hset & Hb1 & Hf & _). exists g1. split_and!; [apply Hset..|done|done|auto].
Qed.

(** Both members are in place. *)
Definition both_live (d : disk) : Prop := live d dbm /\ live d krm.
Lemma both_same d d' : both_live d -> same_files d d' -> both_live d'.
Proof. intros [? ?] Hf. split; by apply (same_files_live _ _ _ Hf). Qed.

Lemma wp_count d g c : busy d g -> both_live d -> counted c ->
  (G -> rc_Schema c = storeCurrentSchema /\ validCounts c = true) ->
  wp t G d (advance (with_validated (mk g) c) stateValidated)
    (fun m d1 => exists g1, settled g g1 /\ m = mk g1 /\ busy d1 g1 /\ both_live d1 /\ stateAtLeast (pg_state g1) stateValidated = true)
    (swapping (pg_safety g) (pg_at g)) (swapping (pg_safety g) (pg_at g)).
Proof.
  intros Hb Hl Hc HG. eapply wp_mono; [by apply (wp_validated d g c Hb)| |done|done].
  intros m d1 (g1 & -> & Hset & Hb1 & Hf & _ & Hst). exists g1. pose proof (both_same _ _ Hl Hf) as [? ?].
  split_and!; try done; apply Hset.
Qed.

Lemma wp_fenced d g : busy d g -> both_live d -> fence m0 d -> stateAtLeast (pg_state g) stateValidated = true ->
  wp t G d (advance (mk g) stateSuppressed)
    (fun m d1 => exists g1, settled g g1 /\ m = mk g1 /\ busy d1 g1 /\ both_live d1 /\ fence m0 d1 /\
       stateAtLeast (pg_state g1) stateSuppressed = true)
    (swapping (pg_safety g) (pg_at g)) (swapping (pg_safety g) (pg_at g)).
Proof.
  intros Hb Hl Hfen Hval. eapply wp_mono; [by apply (wp_step d g stateSuppressed Hb)| |done|done].
  intros m d1 (g1 & -> & Hset & Hb1 & Hf & Hsup & Hst). exists g1. pose proof (both_same _ _ Hl Hf) as [? ?].
  split_and!; try done; try apply Hset. by eapply frame_fence.
Qed.

(** From the new pair in place to the end. *)
Lemma wp_swap_end d g runtime : busy d g -> both_live d -> (G -> dated t = true /\ new_pair_ok runtime) ->
  wp t G d
    (counts <- wrap "restore swap: prepared controller pair failed validation"
                (validatePair db_path kr_path runtime (m_PreparedDatabaseFile (mk g)) (m_PreparedKeyringFile (mk g)));
     m <- advance (with_validated (mk g) counts) stateValidated;
     created <- now;
     ensureSuppression m created ;;
     m <- advance m stateSuppressed;
     advance m stateCleanup)
    (fun m d' => exists g', settled g g' /\ m = mk g' /\ mid d' g' /\ pg_state g' = stateCleanup /\ new_pair_valid runtime)
    (swapping (pg_safety g) (pg_at g)) (swapping (pg_safety g) (pg_at g)).
Proof.
  intros Hb [Hl Hk] HG. pose proof (busy_swapping d g Hb) as HJ.
  change (m_PreparedDatabaseFile (mk g)) with (m_PreparedDatabaseFile m0).
  change (m_PreparedKeyringFile (mk g)) with (m_PreparedKeyringFile m0).
  destruct (det_pair d db_path kr_path runtime (m_PreparedDatabaseFile m0) (m_PreparedKeyringFile m0)) as (r & Hr & Hok).
  assert (Hcan : forall c, r = Ok c <-> exists k, Open (live_data krm) runtime = Ok k /\ Validate (live_data dbm) k = Ok c).
  { intros c. rewrite Hok. apply canonical_pair; [by apply (live_at _ dbm)|by apply (live_at _ krm)]. }
  eapply wp_read; [apply det_wrap, Hr|done|done| |].
  { intros Hg. destruct (HG Hg) as (_ & k & c & Ho & Hv & _). rewrite (proj2 (Hcan c)); [by eexists|eauto]. }
  intros c Ec. destruct r as [c'|]; [|done]. injection Ec as ->. destruct (proj1 (Hcan c) eq_refl) as (k & Ho & Hv).
  assert (Hc : counted c) by by exists runtime, k. eapply wp_then.
  { apply wp_count; [done|done|done|]. intros Hg. destruct (HG Hg) as (_ & k' & c' & Ho' & Hv' & Hc').
    assert (k' = k) as -> by congruence. by assert (c' = c) as -> by congruence. }
  intros m d1 g1 (-> & Hb1 & Hl1 & Hst1). apply wp_now. eapply wp_then.
  { apply wp_stay, wp_ensureSuppression; [done|]. intros Hg. by apply HG. }
  intros [] d2 ? (-> & Hb2 & Hf2 & Hfen). eapply wp_then; [apply wp_fenced; [done|by eapply both_same|done|done]|].
  intros m d3 g3 (-> & [Hm3 Hne3] & Hl3 & Hfen3 & Hst3). pose proof (mid_swapping _ _ Hm3) as HJ3.
  apply (wp_advance d3 g3 stateCleanup); try done.
  - intros _. apply validated_before_suppressed; [|done]. apply Hm3.
  - intros E. apply cleanup_states in E; [done|apply Hm3].
  - intros d' Hst Hmid. split_and!; [by apply (mid_swapping d' (set_state g3 stateCleanup))..|].
    exists (set_state g3 stateCleanup). split_and!; [done..|]. by exists k, c.
Qed.

Lemma wp_swap d g runtime : pre d g -> stateAtLeast (pg_state g) stateSafety = true -> pg_state g <> stateCleanup ->
  (G -> dated t = true /\ new_pair_ok runtime) ->
  wp t G d (swap_steps (mk g) runtime)
    (fun m d' => exists g', settled g g' /\ m = mk g' /\ mid d' g' /\ pg_state g' = stateCleanup /\ new_pair_valid runtime)
    (swapping (pg_safety g) (pg_at g)) (swapping (pg_safety g) (pg_at g)).
Proof.
  intros Hpre Hs Hne HG. unfold swap_steps.
  assert (Hsw : forall d', pre d' g -> swapping (pg_safety g) (pg_at g) d') by (intros d' ?; by exists g).
  eapply wp_then.
  { apply (wp_stay _ _ _ (fun _ d1 => busy d1 g)). eapply wp_mono; [apply (wp_ensureRollback d g _ _ Hpre)| |done|done]; [auto..|].
    intros [] d1 (Hp1 & Hr & _). by constructor. }
  intros [] d1 ? [-> Hb1]. eapply wp_then; [by apply wp_stay, wp_park_db|].
  intros [] d2 ? (-> & Hb2 & Hc2). eapply wp_then.
  { apply (wp_record _ _ _ (fun d => cleared d dbm)); try done. intros d' Hf. by apply (same_files_live _ _ dbm Hf). }
  intros m d3 g3 (-> & Hb3 & Hc3). eapply wp_then; [by apply wp_stay, wp_park_kr|].
  intros [] d4 ? (-> & Hb4 & Hc4 & Hk4). eapply wp_then.
  { apply (wp_record _ _ _ (fun d => cleared d dbm /\ cleared d krm)); try done.
    intros d' Hf. split; by apply (same_files_live _ _ _ Hf). }
  intros m d5 g5 (-> & Hb5 & Hc5 & Hk5). eapply wp_then; [by apply wp_stay, wp_publish_db|].
  intros [] d6 ? (-> & Hb6 & Hl6 & Hk6). eapply wp_then.
  { apply (wp_record _ _ _ (fun d => live d dbm /\ cleared d krm)); try done.
    intros d' Hf. split; by apply (same_files_live _ _ _ Hf). }
  intros m d7 g7 (-> & Hb7 & Hl7 & Hk7). eapply wp_then; [by apply wp_stay, wp_publish_kr|].
  intros [] d8 ? (-> & Hb8 & Hl8 & Hk8). eapply wp_then.
  { apply (wp_record _ _ _ (fun d => live d dbm /\ live d krm)); try done.
    intros d' Hf. split; by apply (same_files_live _ _ _ Hf). }
  intros m d9 g9 (-> & Hb9 & Hl9 & Hk9). by apply wp_swap_end.
Qed.

(** ** Undoing *)

Definition undone (sf : fileRecord) (ta : string) (d : disk) : Prop :=
  exists g, pre d g /\ pg_safety g = sf /\ pg_at g = ta /\ stateAtLeast (pg_state g) stateSafety = true.

Lemma swapping_undone sf ta d : swapping sf ta d -> undone sf ta d.
Proof. intros (g & ? & ? & ? & ? & _). by exists g. Qed.

Record undo (d : disk) (g : progress) : Prop := MkUndo {
  ud_pre : pre d g;
  ud_roll : owned_roll m0 d;
  ud_safe : stateAtLeast (pg_state g) stateSafety = true
}.
Lemma undo_undone d g : undo d g -> undone (pg_safety g) (pg_at g) d.
Proof. intros [? ? ?]. by exists g. Qed.
Lemma undo_moved d d' g S : undo d g -> frame d d' S -> (forall q, q ∈ S -> q ∈ swap_paths) -> placed d' dbm -> placed d' krm -> undo d' g.
Proof.
  intros [H1 H2 H3] Hf HS Hdb Hkr. destruct (frame_dirs d d' S Hf HS) as (_ & _ & F & _). constructor; [by eapply pre_moved|auto|done].
Qed.

Lemma wp_restore_db d g : undo d g ->
  wp t G d (restore_member db_path (prepared_db m0) (rollback_db m0) (m_OldDatabase m0) (m_PreparedDatabaseFile m0) MaxDatabaseBytes)
    (fun _ d' => undo d' g /\ start d' dbm) (undone (pg_safety g) (pg_at g)) (undone (pg_safety g) (pg_at g)).
Proof.
  intros Hu. pose proof Hu as [Hpre Hr Hs]. pose proof (undo_undone d g Hu) as HJ. pose proof (pr_prep _ _ _ _ _ _ _ Hpre) as Hprep.
  rewrite (pm_new_db _ _ _ _ _ Hp), (pm_old_db _ _ _ _ _ Hp). destruct db_apart as (? & ? & ?).
  apply (wp_restore t G dbm); [by eapply sized_db|done..|by destruct Hpre|done|by apply prep_parent|done|done|done|].
  intros d1 d' Hf Hf' Hpk Hst.
  assert (HS1 : forall q, q ∈ [mb_c dbm; mb_p dbm] -> q ∈ [mb_c dbm; mb_p dbm; mb_r dbm]) by (intros q; rewrite !elem_of_cons; tauto).
  assert (HS2 : forall q, q ∈ [mb_r dbm; mb_c dbm] -> q ∈ [mb_c dbm; mb_p dbm; mb_r dbm]) by (intros q; rewrite !elem_of_cons; tauto).
  destruct (db_frame d d1 _ Hf HS1) as (HS & Hk & _). destruct (db_frame d1 d' _ Hf' HS2) as (HS' & Hk' & _).
  assert (Hu1 : undo d1 g) by (eapply undo_moved; [done|done|done|right; by left|apply Hk; by destruct Hpre]).
  assert (Hu' : undo d' g) by (eapply undo_moved; [done|done|done|by left|apply Hk', Hk; by destruct Hpre]).
  split_and!; try done; by apply undo_undone.
Qed.

Lemma wp_restore_kr d g : undo d g -> start d dbm ->
  wp t G d (restore_member kr_path (prepared_kr m0) (rollback_kr m0) (m_OldKeyring m0) (m_PreparedKeyringFile m0) keyringMaxBytes)
    (fun _ d' => undo d' g /\ start d' dbm /\ start d' krm) (undone (pg_safety g) (pg_at g)) (undone (pg_safety g) (pg_at g)).
Proof.
  intros Hu Hdb. pose proof Hu as [Hpre Hr Hs]. pose proof (undo_undone d g Hu) as HJ. pose proof (pr_prep _ _ _ _ _ _ _ Hpre) as Hprep.
  rewrite (pm_new_kr _ _ _ _ _ Hp), (pm_old_kr _ _ _ _ _ Hp). destruct kr_apart as (? & ? & ?).
  apply (wp_restore t G krm); [by eapply sized_kr|done..|by destruct Hpre|done|by apply prep_parent|done|done|done|].
  intros d1 d' Hf Hf' Hpk Hst.
  assert (HS1 : forall q, q ∈ [mb_c krm; mb_p krm] -> q ∈ [mb_c krm; mb_p krm; mb_r krm]) by (intros q; rewrite !elem_of_cons; tauto).
  assert (HS2 : forall q, q ∈ [mb_r krm; mb_c krm] -> q ∈ [mb_c krm; mb_p krm; mb_r krm]) by (intros q; rewrite !elem_of_cons; tauto).
  destruct (kr_frame d d1 _ Hf HS1) as (HS & _). destruct (kr_frame d1 d' _ Hf' HS2) as (HS' & _).
  destruct (kr_avoids _ HS1) as (? & ? & ?). destruct (kr_avoids _ HS2) as (? & ? & ?).
  assert (Hd1 : start d1 dbm) by by apply (frame_member d d1 _ dbm Hf).
  assert (Hd' : start d' dbm) by by apply (frame_member d1 d' _ dbm Hf').
  assert (Hu1 : undo d1 g) by (eapply undo_moved; [done|done|done|by left|right; by left]).
  assert (Hu' : undo d' g) by (eapply undo_moved; [done|done|done|by left|by left]).
  split_and!; try done; by apply undo_undone.
Qed.

(** ** The directories this restore owns *)

Notation tidy_roll := (tidying (rollback_dir m0) databaseName keyringName old_db old_kr).
Notation tidy_prep := (tidying [m_PreparedDir m0] (m_PreparedDatabase m0) (m_PreparedKeyring m0) new_db new_kr).

Lemma tidying_refl dir n1 n2 x1 x2 d : owned d dir [n1; n2] \/ gone d dir -> dropped d (dir ++ [n1])%list x1 ->
  dropped d (dir ++ [n2])%list x2 -> tidying dir n1 n2 x1 x2 d d.
Proof. intros Ho D1 D2. exact (conj (conj (fun _ _ => eq_refl) (conj eq_refl (conj eq_refl eq_refl))) (conj Ho (conj D1 (conj D2 (fun _ Hq => Hq))))). Qed.

Lemma wp_removeRollback d g (Q : unit -> disk -> Prop) (J C : disk -> Prop) : owned_roll m0 d \/ gone d (rollback_dir m0) ->
  dropped d (rollback_db m0) old_db -> dropped d (rollback_kr m0) old_kr ->
  (forall d', tidy_roll d d' -> J d' /\ C d') -> (forall d', tidy_roll d d' -> gone d' (rollback_dir m0) -> Q tt d') ->
  wp t G d (removeRollbackOwned (mk g)) Q J C.
Proof.
  intros Ho D1 D2 HJ HQ. destruct (HJ d (tidying_refl _ _ _ _ _ d Ho D1 D2)) as [HJd HCd].
  destruct (sizes m0 old_db old_kr new_db new_kr Hp) as (Sod & Sok & _).
  unfold removeRollbackOwned. change (rollback_dir (mk g)) with (rollback_dir m0).
  eapply wp_read; [apply det_look|done|done|by eexists|]. intros found [= <-].
  destruct Ho as [Ho|Hg].
  - rewrite bool_decide_eq_false_2 by (destruct Ho as [-> _]; done).
    change (m_OldDatabase (mk g)) with (m_OldDatabase m0). change (m_OldKeyring (mk g)) with (m_OldKeyring m0).
    rewrite (pm_old_db _ _ _ _ _ Hp), (pm_old_kr _ _ _ _ _ Hp).
    eapply (wp_tidy t G (rollback_dir m0) databaseName keyringName old_db old_kr); try done.
    + intros d' He. eapply wp_drop_recorded; [exact He|by left|by apply He|done|].
      intros d2 ?. by apply HJ, emptied_tidying.
    + intros d' He. eapply wp_drop_recorded; [exact He|by right|by apply He|done|].
      intros d2 ?. by apply HJ, emptied_tidying.
  - rewrite bool_decide_eq_true_2 by apply Hg. apply wp_pure. apply HQ; [|done]. apply tidying_refl; [by right|done|done].
Qed.

Lemma wp_removePrepared d g (Q : unit -> disk -> Prop) (J C : disk -> Prop) : owned_prep m0 d \/ gone d [m_PreparedDir m0] ->
  dropped d (prepared_db m0) new_db -> dropped d (prepared_kr m0) new_kr ->
  (forall d', tidy_prep d d' -> J d' /\ C d') -> (forall d', tidy_prep d d' -> gone d' [m_PreparedDir m0] -> Q tt d') ->
  wp t G d (removePreparedOwned (mk g) true) Q J C.
Proof.
  intros Ho D1 D2 HJ HQ. destruct (HJ d (tidying_refl _ _ _ _ _ d Ho D1 D2)) as [HJd HCd].
  destruct (sizes m0 old_db old_kr new_db new_kr Hp) as (_ & _ & Snd & Snk).
  unfold removePreparedOwned. change (m_PreparedDir (mk g)) with (m_PreparedDir m0).
  eapply wp_read; [apply det_look|done|done|by eexists|]. intros found [= <-]. rewrite andb_true_r.
  destruct Ho as [Ho|Hg].
  - rewrite bool_decide_eq_false_2 by (destruct Ho as [-> _]; done).
    change (m_PreparedDatabaseFile (mk g)) with (m_PreparedDatabaseFile m0).
    change (m_PreparedKeyringFile (mk g)) with (m_PreparedKeyringFile m0).
    rewrite (pm_new_db _ _ _ _ _ Hp), (pm_new_kr _ _ _ _ _ Hp).
    eapply (wp_tidy t G [m_PreparedDir m0] (m_PreparedDatabase m0) (m_PreparedKeyring m0) new_db new_kr); try done.
    + intros d' He. eapply wp_drop_hashed; [exact He|by left|by apply He|done|].
      intros d2 ?. by apply HJ, emptied_tidying.
    + intros d' He. eapply wp_drop_hashed; [exact He|by right|by apply He|done|].
      intros d2 ?. by apply HJ, emptied_tidying.
  - rewrite bool_decide_eq_true_2 by apply Hg. apply wp_pure. apply HQ; [|done]. apply tidying_refl; [by right|done|done].
Qed.

Lemma roll_frame d d' : tidy_roll d d' -> (has_recovery d -> has_recovery d') /\
  (forall p x, p ∈ [db_path; kr_path; prepared_db m0; prepared_kr m0; safety_path m0] -> at_ d p x -> at_ d' p x) /\
  (owned_prep m0 d -> owned_prep m0 d') /\ (gone d [m_PreparedDir m0] -> gone d' [m_PreparedDir m0]).
Proof.
  intros (Hf & _ & _ & _ & Hkeep).
  assert (Hn : forall q, q ∈ [db_path; kr_path; prepared_db m0; prepared_kr m0; safety_path m0; [m_PreparedDir m0]; recovery_dir] ->
    q ∉ [(rollback_dir m0 ++ [databaseName])%list; (rollback_dir m0 ++ [keyringName])%list; rollback_dir m0]).
  { intros q Hq. repeat (apply elem_of_cons in Hq as [-> | Hq]); [apart..|by apply not_elem_of_nil in Hq]. }
  assert (Hc : forall n, ([m_PreparedDir m0] ++ [n])%list ∉
    [(rollback_dir m0 ++ [databaseName])%list; (rollback_dir m0 ++ [keyringName])%list; rollback_dir m0]).
  { intros n. cbn [app]. apart. }
  split_and!.
  - unfold has_recovery. destruct Hf as (Hf & _). rewrite Hf; [done|]. apply Hn. rewrite !elem_of_cons. tauto.
  - intros p x Hin. eapply frame_at; [exact Hf|]. apply Hn. revert Hin. rewrite !elem_of_cons. tauto.
  - intros Ho. eapply frame_owned; [exact Hf| | |exact Ho]; [apply Hn; rewrite !elem_of_cons; tauto|].
    intros n Hin. by destruct (Hc n).
  - intros Hg. eapply frame_gone; [exact Hf|apply Hn; rewrite !elem_of_cons; tauto|done|done].
Qed.

Lemma pre_tidied d d' g : pre d g -> start d dbm -> start d krm -> tidy_roll d d' -> pre d' g /\ start d' dbm /\ start d' krm.
Proof.
  intros [P1 P2 P3 P4 P5 P6 P7 P8 P9 P10 P11 P12] (D1 & D2 & D3) (K1 & K2 & K3) Ht.
  destruct (roll_frame d d' Ht) as (F1 & F2 & F3 & _). pose proof Ht as ((_ & E1 & E2 & E3) & Ho & _ & _ & Hkeep).
  assert (Hd : start d' dbm) by (split_and!; [apply F2; [rewrite !elem_of_cons; tauto|done]..|auto]).
  assert (Hk : start d' krm) by (split_and!; [apply F2; [rewrite !elem_of_cons; tauto|done]..|auto]).
  assert (Hs : forall a, at_ d (safety_path m0) a -> at_ d' (safety_path m0) a) by (intros a; apply F2; rewrite !elem_of_cons; tauto).
  split_and!; try done. constructor; try done; [congruence|auto|auto|by left|by left| | | |congruence].
  - intros E. destruct (P8 E) as (_ & _ & [Hu|(a & Ha & ?)]); split_and!; try done; [left; auto|right; eauto].
  - intros E. destruct (P9 E) as (a & Ha & ?). exists a. auto.
  - destruct P11 as [?|[? ?]]; [left; by eapply frame_fence|right; split; [congruence|done]].
Qed.

(** What the old pair is to be for the undoing to end. *)
Definition old_pair_ok (runtime : string) : Prop := exists k c, Open old_kr runtime = Ok k /\ Validate old_db k = Ok c.

Lemma valid_old d db kr runtime c : at_ d db old_db -> at_ d kr old_kr ->
  valid_pair d db kr runtime (m_OldDatabase m0) (m_OldKeyring m0) c <-> exists k, Open old_kr runtime = Ok k /\ Validate old_db k = Ok c.
Proof.
  intros Hd Hk. rewrite (pm_old_db _ _ _ _ _ Hp), (pm_old_kr _ _ _ _ _ Hp). destruct (sizes m0 old_db old_kr new_db new_kr Hp) as (? & ? & _). split.
  - intros (x & y & k & Hx & _ & _ & Hy & _ & _ & Ho & Hv). unfold at_ in *.
    rewrite Hd in Hx. rewrite Hk in Hy. injection Hx as <-. injection Hy as <-. eauto.
  - intros (k & Ho & Hv). by exists old_db, old_kr, k.
Qed.

(** The old pair back in place, ready for another attempt. *)
Definition restored (sf : fileRecord) (ta : string) (d : disk) : Prop :=
  pre d (Pg stateSafety sf ta no_recovery) /\ start d dbm /\ start d krm /\ gone d (rollback_dir m0).

Lemma wp_restoreOld d sf ta g1 runtime : undone sf ta d -> pg_safety g1 = sf -> pg_at g1 = ta -> (G -> old_pair_ok runtime) ->
  wp t G d (restoreOld (mk g1) runtime) (fun _ d' => restored sf ta d') (undone sf ta) (undone sf ta).
Proof.
  intros Hund E1 E2 HG. pose proof Hund as (g & Hpre & <- & <- & Hs). unfold restoreOld.
  change (prepared_db (mk g1)) with (prepared_db m0). change (rollback_db (mk g1)) with (rollback_db m0).
  change (prepared_kr (mk g1)) with (prepared_kr m0). change (rollback_kr (mk g1)) with (rollback_kr m0).
  change (m_OldDatabase (mk g1)) with (m_OldDatabase m0). change (m_OldKeyring (mk g1)) with (m_OldKeyring m0).
  change (m_PreparedDatabaseFile (mk g1)) with (m_PreparedDatabaseFile m0).
  change (m_PreparedKeyringFile (mk g1)) with (m_PreparedKeyringFile m0).
  eapply wp_bind.
  { apply wp_wrap. change (ensureRollbackDirectory (mk g1)) with (ensureRollbackDirectory (mk g)).
    apply (wp_ensureRollback d g _ _ Hpre); [|done|done]. intros d' ? _. by split; exists g. }
  intros [] d1 (Hpre1 & Hr1 & _). assert (Hu1 : undo d1 g) by by constructor.
  eapply wp_bind; [by apply wp_restore_db|]. intros [] d2 [Hu2 Hd2].
  eapply wp_bind; [by apply wp_restore_kr|]. intros [] d3 (Hu3 & Hd3 & Hk3). pose proof (undo_undone d3 g Hu3) as HJ3.
  destruct (det_pair d3 db_path kr_path runtime (m_OldDatabase m0) (m_OldKeyring m0)) as (r & Hr & Hok).
  eapply wp_read; [apply det_wrap, Hr|done|done| |].
  { intros Hg. destruct (HG Hg) as (k & c & Ho & Hv). assert (r = Ok c) as ->; [|by eexists].
    apply Hok, (valid_old d3); [apply Hd3|apply Hk3|eauto]. }
  intros c _. clear Hr Hok r. pose proof Hu3 as [Hpre3 Hr3 _].
  set (g' := Pg stateSafety (pg_safety g) (pg_at g) no_recovery).
  assert (Hm : with_validated (with_state (mk g1) stateSafety) no_recovery = mk g').
  { unfold g'. by rewrite <- E1, <- E2. }
  rewrite Hm. assert (Hgood : good_progress g').
  { pose proof (pr_good _ _ _ _ _ _ _ Hpre3) as [G1 G2 G3 G4 G5 G6]. constructor; try done. intros _. by apply G3. }
  set (d4 := with_marker d3 (Holds (mk g'))).
  assert (Hpre4 : pre d4 g') by by apply (pre_state d3 g g').
  assert (HJ4 : undone (pg_safety g) (pg_at g) d4) by by exists g'.
  eapply wp_bind.
  { apply (wp_replaceMarker d3 g' (fun _ d => d = d4)); [done|done|done|]. intros _. by split_and!. }
  intros [] d5 ->. assert (Hd4 : start d4 dbm) by done. assert (Hk4 : start d4 krm) by done.
  apply (wp_removeRollback d4 g' (fun _ d' => restored (pg_safety g) (pg_at g) d')).
  - by left.
  - left. apply Hd4.
  - left. apply Hk4.
  - intros d' Ht. destruct (pre_tidied d4 d' g' Hpre4 Hd4 Hk4 Ht) as (? & _). by split; exists g'.
  - intros d' Ht Hg. destruct (pre_tidied d4 d' g' Hpre4 Hd4 Hk4 Ht) as (? & ? & ?). by split_and!.
Qed.

Lemma prep_frame d d' : tidy_prep d d' -> (has_recovery d -> has_recovery d') /\
  (forall p x, p ∈ [db_path; kr_path; safety_path m0] -> at_ d p x -> at_ d' p x) /\
  (gone d (rollback_dir m0) -> gone d' (rollback_dir m0)).
Proof.
  intros (Hf & _ & _ & _ & Hkeep).
  assert (Hn : forall q, q ∈ [db_path; kr_path; safety_path m0; recovery_dir] ->
    q ∉ [([m_PreparedDir m0] ++ [m_PreparedDatabase m0])%list; ([m_PreparedDir m0] ++ [m_PreparedKeyring m0])%list; [m_PreparedDir m0]]).
  { intros q Hq. repeat (apply elem_of_cons in Hq as [-> | Hq]); [apart..|by apply not_elem_of_nil in Hq]. }
  split_and!.
  - unfold has_recovery. destruct Hf as (Hf & _). rewrite Hf; [done|]. apply Hn. rewrite !elem_of_cons. tauto.
  - intros p x Hin. eapply frame_at; [exact Hf|]. apply Hn. revert Hin. rewrite !elem_of_cons. tauto.
  - intros [Hg1 Hg2]. split; auto.
Qed.
End Calls.
End Swap.
