(* ===== verification/RestoreApplySpec.v ===== *)
(** * Applying a restore

    An attempt from any disk a restore can be found in: it keeps the restore
    recoverable whatever fails and wherever it dies, and ends it when nothing
    does. *)

From Stdlib Require Import ZArith Lia Ascii String.
From stdpp Require Import base gmap list strings sorting.
From S2P Require Import Prelude GoStr GoFmt Sha256 RestoreMarker RestoreDisk RestoreSwap RestoreReads RestoreInv.
From S2P Require Import RestoreInv RestoreSwapSpec.

Local Open Scope string_scope.
Local Open Scope Z_scope.

Section Apply.
Context `{V : Vault} (m0 : marker) (old_db old_kr new_db new_kr : string).
Context (Hp : promoted m0 old_db old_kr new_db new_kr).

Notation dbm := (db_m m0 old_db new_db).
Notation krm := (kr_m m0 old_kr new_kr).
Notation mk := (mk m0).
Notation pre := (pre m0 old_db old_kr new_db new_kr).
Notation committed := (committed m0 old_db old_kr new_db new_kr).
Notation finished := (finished m0 old_db old_kr new_db new_kr).
Notation on_course := (on_course m0 old_db old_kr new_db new_kr).
Notation recoverable := (recoverable m0 old_db old_kr new_db new_kr).
Notation saved := (saved m0 old_db old_kr).
Notation artifact := (artifact m0 old_db old_kr).
Notation counted := (counted m0 old_db old_kr new_db new_kr).
Notation tidy_roll := (tidying (rollback_dir m0) databaseName keyringName old_db old_kr).
Notation tidy_prep := (tidying [m_PreparedDir m0] (m_PreparedDatabase m0) (m_PreparedKeyring m0) new_db new_kr).

(** ** The end of a restore *)

Lemma live_dropped d b : live d b -> dropped d (mb_r b) (mb_old b) /\ dropped d (mb_p b) (mb_new b).
Proof. intros [[_ (? & ? & ?)]|(_ & ? & ? & ?)]; unfold dropped; auto. Qed.

Lemma pre_committed d g : pre d g -> pg_state g = stateCleanup -> live d dbm -> live d krm -> committed d g.
Proof.
  intros [P1 P2 P3 P4 P5 P6 P7 P8 P9 P10 P11 P12] Hst Hd Hk. destruct (live_dropped d dbm Hd), (live_dropped d krm Hk).
  constructor; try done; try (by left).
  - by apply (live_at _ dbm).
  - by apply (live_at _ krm).
  - apply P9. by rewrite Hst.
  - apply P10. by rewrite Hst.
  - destruct P11 as [?|[_ E]]; [done|]. by rewrite Hst in E.
Qed.

Lemma committed_roll d d' g : committed d g -> tidy_roll d d' -> committed d' g.
Proof.
  intros [] Ht. destruct (roll_frame m0 old_db old_kr new_db new_kr Hp d d' Ht) as (F1 & F2 & F3 & F4).
  pose proof Ht as ((_ & E1 & E2 & E3) & Ho & D1 & D2 & Hkeep).
  assert (Hdrop : forall p x, p ∈ [prepared_db m0; prepared_kr m0] -> dropped d p x -> dropped d' p x).
  { intros p x Hin [?|?]; [left; auto|right; apply F2; [|done]]. revert Hin. rewrite !elem_of_cons. tauto. }
  constructor; try done; [congruence|auto| | | | | | | |].
  - apply F2; [rewrite !elem_of_cons; tauto|done].
  - apply F2; [rewrite !elem_of_cons; tauto|done].
  - destruct cm_prep as [?|?]; [left; auto|right; auto].
  - apply Hdrop; [rewrite !elem_of_cons; tauto|done].
  - apply Hdrop; [rewrite !elem_of_cons; tauto|done].
  - destruct cm_saved as (a & Ha & ?). exists a. split; [|done]. apply F2; [rewrite !elem_of_cons; tauto|done].
  - by eapply frame_fence.
  - by rewrite E2.
Qed.

Lemma committed_prep d d' g : committed d g -> gone d (rollback_dir m0) -> tidy_prep d d' -> committed d' g /\ gone d' (rollback_dir m0).
Proof.
  intros [] Hg Ht. destruct (prep_frame m0 old_db old_kr new_db new_kr Hp d d' Ht) as (F1 & F2 & F3).
  pose proof Ht as ((_ & E1 & E2 & E3) & Ho & D1 & D2 & Hkeep). specialize (F3 Hg). split; [|done].
  constructor; try done; [congruence|auto| | | | | | | |].
  - apply F2; [rewrite !elem_of_cons; tauto|done].
  - apply F2; [rewrite !elem_of_cons; tauto|done].
  - by right.
  - left. apply F3.
  - left. apply F3.
  - destruct cm_saved as (a & Ha & ?). exists a. split; [|done]. apply F2; [rewrite !elem_of_cons; tauto|done].
  - by eapply frame_fence.
  - by rewrite E2.
Qed.

Lemma committed_finished d g : committed d g -> gone d (rollback_dir m0) -> gone d [m_PreparedDir m0] ->
  d_receipt d = Holds (receiptFor (mk g)) -> finished (with_marker d Absent) g.
Proof. intros [] Hg1 Hg2 Hr. by constructor. Qed.

Definition result_of (m : marker) (counts : recoveryDTO) : Result :=
  MkResult true (m_ID m) (safetyName m) (fr_SHA256 (m_SafetyBackupFile m)) (fr_SHA256 (m_PreparedDatabaseFile m))
    (fr_SHA256 (m_PreparedKeyringFile m)) (m_AuthorizingAdminID m) (m_AuthorizingUsername m) (m_PreviewID m) (m_PlanID m) counts.

(** The receipt a marker promises is one that is accepted. *)
Lemma receipt_valid g : good_progress g -> pg_state g = stateCleanup -> validateAppliedReceipt (receiptFor (mk g)) = None.
Proof.
  intros [G1 G2 G3 G4 G5 G6] Hst. destruct (G3 ltac:(by rewrite Hst)) as [Hf Hu]. destruct (G5 ltac:(by rewrite Hst)) as [Hsc Hc].
  pose proof (pm_valid _ _ _ _ _ Hp) as Hv. unfold validateMarker in Hv. rewrite checks_pass in Hv. unfold marker_checks in Hv.
  cbn [forallb fst] in Hv. rewrite !andb_true_iff in Hv. destruct Hv as (_ & Hid & _ & _ & _ & Hfiles & [Ha Hn] & [Hpv Hpl] & _).
  unfold prepared_files_ok in Hfiles. rewrite andb_true_iff in Hfiles. destruct Hfiles as [F1 F2].
  assert (Hdig : forall r mn mx, validFileRecord r mn mx = true -> digest_ok (fr_SHA256 r) = true).
  { intros r mn mx. unfold digest_ok, validFileRecord. cbn [fr_Size fr_SHA256]. rewrite !andb_true_iff. intros [[_ ?] ?]. by split_and!. }
  apply Hdig in F1, F2, Hf. unfold validateAppliedReceipt, receiptFor.
  cbn [ar_Format ar_Version ar_RestoreID ar_CreatedAt ar_SafetyBackup ar_SafetyBackupSHA256 ar_PreparedDatabaseSHA256
    ar_PreparedKeyringSHA256 ar_AuthorizingAdminID ar_AuthorizingUsername ar_PreviewID ar_PlanID ar_Counts].
  unfold RestoreInv.mk, with_progress, safetyName. cbn [m_ID m_SafetyBackupCreatedAt m_SafetyBackupFile m_PreparedDatabaseFile
    m_PreparedKeyringFile m_AuthorizingAdminID m_AuthorizingUsername m_PreviewID m_PlanID m_ValidatedCounts].
  by rewrite !String.eqb_refl, Hid, Hu, Hf, F1, F2, Ha, Hn, Hpv, Hpl, Hsc, Hc.
Qed.

Section Calls.
Context (t : string) (G : Prop).

Lemma wp_receipt d g (J C : disk -> Prop) : committed d g -> (forall d', committed d' g -> J d' /\ C d') ->
  wp t G d (ensureAppliedReceipt (mk g)) (fun _ d' => committed d' g /\ d_receipt d' = Holds (receiptFor (mk g))) J C.
Proof.
  intros Hc HJ. destruct (HJ d Hc). unfold ensureAppliedReceipt.
  pose proof (receipt_valid g (cm_good _ _ _ _ _ _ _ Hc) (cm_state _ _ _ _ _ _ _ Hc)) as Hv.
  destruct (cm_receipt _ _ _ _ _ _ _ Hc) as [Hr|Hr].
  - eapply wp_reads_bind; [apply (det_maybe d readAppliedReceipt NoAppliedReceipt), det_look|by unfold receipt_at; rewrite Hr|done|done|].
    cbn beta iota. set (d' := with_receipt d (Holds (receiptFor (mk g)))).
    assert (Hc' : committed d' g) by (destruct Hc; constructor; try done; by right). destruct (HJ d' Hc').
    unfold write_new. apply wp_touch; [done|done|]. eapply (wp_bind _ _ _ _ _ _ (fun _ d1 => d1 = d')).
    + apply wp_call; [done|done| |]; rewrite Hr; [by intros [] d1 [= <-]|done].
    + intros [] d1 ->. apply wp_touch; [done|done|]. apply wp_touch; [done|done|].
      eapply wp_reads; [apply det_touch|done|done|done|done].
  - eapply wp_reads_bind; [apply (det_maybe d readAppliedReceipt NoAppliedReceipt), det_look|by unfold receipt_at; rewrite Hr, Hv|done|done|].
    cbn beta iota. eapply wp_reads; [apply det_require|by rewrite bool_decide_eq_true_2|done|done|done].
Qed.

Lemma wp_finishCleanup d g runtime (J C : disk -> Prop) : committed d g -> (forall d', committed d' g \/ finished d' g -> J d' /\ C d') ->
  (G -> new_pair_ok m0 old_db old_kr new_db new_kr runtime) ->
  wp t G d (finishCleanup (mk g) runtime) (fun r d' => r = result_of (mk g) (pg_counts g) /\ finished d' g) J C.
Proof.
  intros Hc HJ HG. assert (HJc : forall d', committed d' g -> J d' /\ C d') by auto.
  assert (Hmk : forall d', committed d' g -> d_marker d' = Holds (mk g)) by (by intros d' []).
  destruct (HJc d Hc). pose proof Hc as [].
  unfold finishCleanup. apply wp_touch; [done|done|].
  destruct cm_saved as (a & Ha & Er & Hart). pose proof Hart as (_ & _ & _ & _ & _ & _ & Hsz).
  eapply wp_reads_bind; [apply det_replace, det_requireHash|by erewrite require_of_file|done|done|].
  change (m_PreparedDatabaseFile (mk g)) with (m_PreparedDatabaseFile m0).
  change (m_PreparedKeyringFile (mk g)) with (m_PreparedKeyringFile m0).
  destruct (det_pair d db_path kr_path runtime (m_PreparedDatabaseFile m0) (m_PreparedKeyringFile m0)) as (r & Hr & Hok).
  assert (Hcan : forall c, r = Ok c <-> exists k, Open (live_data krm) runtime = Ok k /\ Validate (live_data dbm) k = Ok c).
  { intros c. rewrite Hok. by apply (canonical_pair _ _ _ _ _ Hp). }
  eapply wp_read; [apply det_wrap, Hr|done|done| |].
  { intros Hg. destruct (HG Hg) as (k & c & Ho & Hv & _). rewrite (proj2 (Hcan c)); [by eexists|eauto]. }
  intros c Ec. destruct r as [c'|]; [|done]. injection Ec as ->. destruct (proj1 (Hcan c) eq_refl) as (k & Ho & Hv).
  assert (c = pg_counts g) as -> by (apply (counted_unique m0 old_db old_kr new_db new_kr); [by exists runtime, k|done]).
  eapply wp_reads_bind; [apply det_require|by rewrite bool_decide_eq_true_2|done|done|].
  destruct (suppression_of_fence m0 d cm_fence) as (s & Hs & Hid).
  eapply wp_reads_bind; [apply det_look|exact Hs|done|done|]. change (m_ID (mk g)) with (m_ID m0).
  eapply wp_reads_bind; [apply det_require|by rewrite Hid, String.eqb_refl|done|done|].
  eapply wp_bind; [by apply wp_receipt|]. intros [] d1 [Hc1 Hr1]. pose proof Hc1 as [].
  eapply wp_bind.
  { apply (wp_removeRollback m0 old_db old_kr new_db new_kr Hp t G d1 g (fun _ d' => committed d' g /\ gone d' (rollback_dir m0) /\
      d_receipt d' = Holds (receiptFor (mk g)))); [done|done|done| |].
    - intros d' Ht. by apply HJc, (committed_roll d1).
    - intros d' Ht Hg. split_and!; [by apply (committed_roll d1)|apply Hg..|]. pose proof Ht as ((_ & _ & -> & _) & _). done. }
  intros [] d2 (Hc2 & Hg2 & Hr2). pose proof Hc2 as [].
  eapply wp_bind.
  { apply (wp_removePrepared m0 old_db old_kr new_db new_kr Hp t G d2 g (fun _ d' => committed d' g /\ gone d' (rollback_dir m0) /\
      gone d' [m_PreparedDir m0] /\ d_receipt d' = Holds (receiptFor (mk g)))); [done|done|done| |].
    - intros d' Ht. by apply HJc, (committed_prep d2).
    - intros d' Ht Hg. destruct (committed_prep d2 d' g Hc2 Hg2 Ht) as [Hc' Hg'].
      pose proof Ht as ((_ & _ & E & _) & _). exact (conj Hc' (conj Hg' (conj Hg (eq_trans E Hr2)))). }
  intros [] d3 (Hc3 & Hg3 & Hg3' & Hr3). destruct (HJc d3 Hc3). pose proof Hc3 as [].
  set (d4 := with_marker d3 Absent). assert (Hfin : finished d4 g) by by apply committed_finished.
  destruct (HJ d4 (or_intror Hfin)).
  eapply (wp_bind _ _ _ _ _ _ (fun _ d5 => d5 = d4)).
  { unfold removeMarker. eapply (wp_bind _ _ _ _ _ _ (fun b d5 => b = true /\ d5 = d4)).
    - apply wp_call; [done|done| |]; unfold remove_marker_at; rewrite (Hmk d3 Hc3); [by intros b d5 [= <- <-]|done].
    - intros b d5 [-> ->]. eapply wp_reads; [apply det_touch|done|done|done|done]. }
  intros [] d5 ->. apply wp_touch; [done|done|]. by apply wp_pure.
Qed.

(** A marker at its last state over a pair that is not in place: only after an
    I/O error in the undoing. Nothing is done then. *)
Lemma canonical_live d b x : placed d b -> at_ d (mb_c b) x -> record_of x = record_of (mb_new b) -> live d b.
Proof.
  intros [Hst|[Hpk|?]] Hx E; [|by destruct Hpk as (_ & Hn & _); unfold none, at_ in *; rewrite Hn in Hx|by right].
  left. split; [|done]. destruct Hst as [Hc _]. unfold at_ in *. rewrite Hc in Hx. injection Hx as <-. done.
Qed.

Lemma wp_not_live d g runtime (Q : Result -> disk -> Prop) (J C : disk -> Prop) : pre d g -> pg_state g = stateCleanup ->
  ~ (live d dbm /\ live d krm) -> J d -> C d -> (G -> False) -> wp t G d (finishCleanup (mk g) runtime) Q J C.
Proof.
  intros Hpre Hst Hn HJ HC HG. unfold finishCleanup. apply wp_touch; [done|done|].
  eapply wp_read; [apply det_replace, det_requireHash|done|done|done|]. intros [] _.
  change (m_PreparedDatabaseFile (mk g)) with (m_PreparedDatabaseFile m0).
  change (m_PreparedKeyringFile (mk g)) with (m_PreparedKeyringFile m0).
  destruct (det_pair d db_path kr_path runtime (m_PreparedDatabaseFile m0) (m_PreparedKeyringFile m0)) as (r & Hr & Hok).
  eapply wp_read; [apply det_wrap, Hr|done|done|done|]. intros c Ec. destruct r as [c'|]; [|done]. injection Ec as ->.
  exfalso. apply Hn. destruct (proj1 (Hok c) eq_refl) as (x & y & k & Hx & Ex & _ & Hy & Ey & _).
  rewrite (pm_new_db _ _ _ _ _ Hp) in Ex. rewrite (pm_new_kr _ _ _ _ _ Hp) in Ey. destruct Hpre. split.
  - by apply (canonical_live d dbm x).
  - by apply (canonical_live d krm y).
Qed.

(** ** Before the swap *)

(** What an attempt needs to go through: a clock, the runtime passphrase of the old
    keyring, a sealed export passphrase, and an artifact that can be made. *)
Definition old_side_ok (runtime version : string) : Prop := exists k c pass, Open old_kr runtime = Ok k /\
  Validate old_db k = Ok c /\ Unseal k (m_Sealed m0) (intentAAD m0) = Ok pass /\
  (len pass =? 0) = false /\ (len pass <=? passphraseMaxBytes) = true /\
  exists a, Create k old_db pass version (rc_Schema c) t = Ok a.

(** Nothing has moved, and the artifact is not recorded. *)
Record early (d : disk) (g : progress) : Prop := MkEarly {
  er_pre : pre d g;
  er_state : stateAtLeast (pg_state g) stateSafety = false;
  er_db : start d dbm;
  er_kr : start d krm
}.

Lemma early_of d g : pre d g -> stateAtLeast (pg_state g) stateSafety = false -> early d g.
Proof. intros Hpre Hst. destruct (pr_early _ _ _ _ _ _ _ Hpre Hst) as (? & ? & _). by constructor. Qed.

Lemma early_framed d d' g : early d g -> frame d d' [safety_path m0] -> unrecorded m0 old_db old_kr d' -> early d' g.
Proof.
  intros [[P1 P2 P3 P4 P5 P6 P7 P8 P9 P10 P11 P12] Hst Hd Hk] Hf Hu.
  assert (Hs : forall q, q ∈ (swap_paths m0 ++ [rollback_dir m0; [m_PreparedDir m0]; recovery_dir])%list -> q ∉ [safety_path m0]).
  { intros q Hq. rewrite list_elem_of_singleton. intros ->. apply elem_of_app in Hq as [Hq|Hq].
    - revert Hq. apply (not_swap _ _ _ _ _ Hp). left.
    - pose proof (paths_differ m0 old_db old_kr new_db new_kr Hp) as Hnd. revert Hq. rewrite !elem_of_cons.
      do 6 (apply NoDup_cons in Hnd as [_ Hnd]). apply NoDup_cons in Hnd as [Hnd _]. revert Hnd. rewrite !elem_of_cons. tauto. }
  assert (Hm : forall q, q ∈ swap_paths m0 -> q ∉ [safety_path m0]) by (intros q Hq; apply Hs, elem_of_app; by left).
  assert (Hd' : start d' dbm).
  { apply (frame_member d d' _ dbm Hf); try done; apply Hm; unfold swap_paths, db_m; cbn [mb_c mb_p mb_r]; rewrite !elem_of_cons; tauto. }
  assert (Hk' : start d' krm).
  { apply (frame_member d d' _ krm Hf); try done; apply Hm; unfold swap_paths, kr_m; cbn [mb_c mb_p mb_r]; rewrite !elem_of_cons; tauto. }
  assert (Hc : forall n, (rollback_dir m0 ++ [n])%list ∉ [safety_path m0] /\ ([m_PreparedDir m0] ++ [n])%list ∉ [safety_path m0]).
  { intros n. destruct (names m0 old_db old_kr new_db new_kr Hp) as [_ Hne].
    rewrite !list_elem_of_singleton. split; [by intros [=]|]. cbn [app]. unfold safety_path. intros [=]. congruence. }
  assert (Hn : rollback_dir m0 ∉ [safety_path m0] /\ [m_PreparedDir m0] ∉ [safety_path m0] /\ recovery_dir ∉ [safety_path m0]).
  { split_and!; apply Hs, elem_of_app; right; rewrite !elem_of_cons; tauto. }
  destruct Hn as (N1 & N2 & N3). pose proof Hf as (F & E1 & E2 & E3). constructor; try done.
  constructor; try done; [congruence| | | |by left|by left| | |congruence].
  - unfold has_recovery. by rewrite F.
  - eapply frame_owned; [exact Hf|done| |exact P4]. intros n Hin. by destruct (Hc n) as [_ Hx].
  - destruct P5 as [Ho|Hg]; [left|right].
    + eapply frame_owned; [exact Hf|done| |exact Ho]. intros n Hin. by destruct (Hc n) as [Hx _].
    + eapply frame_gone; [exact Hf|done| |exact Hg]. intros n. by destruct (Hc n) as [Hx _].
  - intros E. by rewrite Hst in E.
  - destruct P11 as [?|[? ?]]; [left; by eapply frame_fence|right; split; [congruence|done]].
Qed.

Section Safety.
Context (J C : disk -> Prop) (HJ : forall d g, early d g -> J d /\ C d).

Lemma early_unrecorded d g : early d g -> unrecorded m0 old_db old_kr d.
Proof. intros []. by apply (pr_early _ _ _ _ _ _ _ er_pre0). Qed.

Lemma remove_safety d g u d1 : early d g -> remove_at (safety_path m0) d = (u, d1) -> early d1 g.
Proof.
  intros He. pose proof (early_unrecorded d g He) as Hu. unfold remove_at. destruct Hu as [Hn|(a & Ha & _)].
  - unfold none in Hn. rewrite Hn. by intros [= _ <-].
  - unfold at_ in Ha. rewrite Ha. intros [= _ <-]. eapply early_framed; [done|apply frame_deleted|].
    left. unfold none. cbn [with_nodes d_nodes]. apply lookup_delete_None. by left.
Qed.

(** A made artifact: of the old database, under the sealed passphrase. *)
Definition made (k : keeper) (pass : string) (record : fileRecord) (d : disk) (g : progress) : Prop := early d g /\
  exists a, at_ d (safety_path m0) a /\ record_of a = record /\ sized a safetyMaxBytes /\ Extract a pass = Ok (record_of old_db).

Lemma wp_create_backup d g k runtime pass version schema : early d g -> none d (safety_path m0) -> Open old_kr runtime = Ok k ->
  Unseal k (m_Sealed m0) (intentAAD m0) = Ok pass -> (G -> exists a, Create k old_db pass version schema t = Ok a) ->
  wp t G d (create_backup (mk g) k pass version schema t) (fun record d' => made k pass record d' g) J C.
Proof.
  intros He Hn Ho Hu HG. destruct (HJ d g He). unfold create_backup. change (safety_path (mk g)) with (safety_path m0).
  apply wp_touch; [done|done|]. pose proof He as [_ _ [Hc _] _].
  eapply wp_reads_bind; [apply det_read|by apply (data_at_file d db_path old_db)|done|done|].
  eapply wp_read; [apply det_lift|done|done|done|]. intros a Ha. destruct (Create_Extract _ _ _ _ _ _ _ Ha) as [Hx Hsz].
  set (d1 := with_nodes d (<[safety_path m0 := File private_file a]> (d_nodes d))).
  assert (Hat : at_ d1 (safety_path m0) a) by (unfold at_, d1; cbn [with_nodes d_nodes]; by rewrite lookup_insert_eq).
  assert (He1 : early d1 g).
  { eapply early_framed; [done|apply frame_nodes|]. right. exists a. split; [done|]. by exists runtime, k, pass. }
  destruct (HJ d1 g He1).
  eapply (wp_bind _ _ _ _ _ _ (fun _ d2 => d2 = d1)).
  { apply wp_call; [done|done| |]; unfold none in Hn; rewrite Hn; [by intros [] d2 [= <-]|done]. }
  intros [] d2 ->. eapply (wp_bind _ _ _ _ _ _ (fun _ d3 => d3 = d1)).
  - apply (wp_catch_with t G d1 _ _ _ (fun d => early d g) J C); [|intros; by eapply HJ|].
    + apply wp_touch; [done|done|]. apply wp_touch; [done|done|]. eapply wp_reads; [apply det_touch|done|done|done|done].
    + intros e d3 He3. assert (HJ3 : forall d, early d g -> J d) by (intros; by eapply HJ).
      eapply (wp_bind _ _ _ _ _ _ (fun _ d4 => early d4 g)).
      * apply (wp_catch_with t False d3 _ _ _ (fun d => early d g) J); [|done|].
        { apply wp_call; [done|done| |].
          - intros [] d4 Hrm. by eapply remove_safety.
          - intros e' d4 Hrm. split; [by eapply remove_safety|by intros []]. }
        { intros e' d4 He4. apply wp_throw; [auto|done]. }
      * intros [] d4 He4. apply wp_touch; [auto|done|]. apply wp_throw; [auto|done].
  - intros [] d3 ->. apply wp_pure. split; [done|]. by exists a.
Qed.
End Safety.

Lemma dated_utc s : dated s = true -> is_utc s = true.
Proof. unfold is_utc, dated. destruct (utc_year s); [|done]. intros _. by apply bool_decide_eq_true. Qed.

Lemma made_authentic d g k pass record ta : made k pass record d g -> authentic d (with_safety (mk g) record ta) pass record.
Proof.
  intros (_ & a & Ha & Er & Hs & Hx). exists a. split_and!; try done; try apply Hs.
  rewrite Hx. symmetry. exact (f_equal Ok (pm_old_db _ _ _ _ _ Hp)).
Qed.

Lemma made_recorded d g k runtime pass record : made k pass record d g -> Open old_kr runtime = Ok k ->
  Unseal k (m_Sealed m0) (intentAAD m0) = Ok pass -> is_utc t = true ->
  let g' := Pg stateSafety record t (pg_counts g) in
  good_progress g' /\ pre (with_marker d (Holds (mk g'))) g'.
Proof.
  intros ([[P1 P2 P3 P4 P5 P6 P7 P8 P9 P10 P11 P12] Hst Hd Hk] & a & Ha & Er & Hs & Hx) Ho Hu Ht g'.
  assert (Hval : stateAtLeast (pg_state g) stateValidated = false).
  { destruct (stateAtLeast (pg_state g) stateValidated) eqn:E; [|done]. apply safety_before_validated in E; [congruence|apply P2]. }
  assert (Hgood : good_progress g').
  { constructor; try done.
    - intros _. split; [|done]. cbn [g' pg_safety]. rewrite <- Er. by apply record_valid.
    - intros _. by apply P2. }
  split; [done|]. constructor; try done.
  - intros _. exists a. split_and!; [done|done|]. by exists runtime, k, pass.
  - destruct P11 as [?|[? _]]; [by left|by right].
Qed.

Section Attempt.
Context (J C : disk -> Prop) (HJ : forall d g, pre d g -> pg_state g <> stateCleanup -> J d /\ C d).

Lemma early_more g : stateAtLeast (pg_state g) stateSafety = false -> pg_state g <> stateCleanup.
Proof. intros H E. by rewrite E in H. Qed.
Lemma early_held d g : early d g -> J d /\ C d.
Proof. intros []. eapply HJ; [done|]. by apply early_more. Qed.

Lemma wp_ensureSafety d g k runtime pass version schema : early d g -> Open old_kr runtime = Ok k ->
  Unseal k (m_Sealed m0) (intentAAD m0) = Ok pass ->
  (G -> dated t = true /\ exists a, Create k old_db pass version schema t = Ok a) ->
  wp t G d (ensureSafety (mk g) k pass version schema)
    (fun m' d' => exists g', m' = mk g' /\ pre d' g' /\ pg_state g' = stateSafety) J C.
Proof.
  intros He Ho Hu HG. destruct (early_held d g He). unfold ensureSafety. change (safety_path (mk g)) with (safety_path m0).
  apply wp_touch; [done|done|]. apply wp_now.
  eapply wp_read; [apply det_require|done|done|intros Hg; destruct (HG Hg) as [-> _]; by eexists|]. intros [] Ht.
  destruct (dated t) eqn:Edt; [clear Ht|done]. eapply wp_read; [apply det_look|done|done|by eexists|]. intros found [= <-].
  eapply (wp_bind _ _ _ _ _ _ (fun record d' => made k pass record d' g)).
  { destruct (early_unrecorded d g He) as [Hn|(a & Ha & Hart)].
    - unfold none in Hn. rewrite Hn. apply wp_touch; [done|done|]. eapply wp_bind.
      { apply wp_wrap, (wp_create_backup J C early_held d g k runtime); try done. intros Hg. by apply HG. }
      intros record d1 Hm. pose proof Hm as [He1 _]. destruct (early_held d1 g He1). apply wp_touch; [done|done|].
      pose proof He1 as [_ _ [Hc _] _]. destruct (sizes m0 old_db old_kr new_db new_kr Hp) as (? & _).
      eapply wp_reads_bind; [apply det_replace, det_requireHash| |done|done|by apply wp_pure].
      erewrite require_of_file; [done|exact Hc|exact (eq_sym (pm_old_db _ _ _ _ _ Hp))|done].
    - unfold at_ in Ha. rewrite Ha. destruct (det_unrecorded d (mk g) pass) as (r & Hr & Hok).
      destruct Hart as (r' & k' & pass' & Ho' & Hu' & Hx & Hs). pose proof (Open_unique _ _ _ _ _ Ho Ho') as <-.
      assert (pass' = pass) as -> by congruence.
      assert (Hau : authentic d (mk g) pass (record_of a)).
      { exists a. split_and!; [done|done|apply Hs..|]. rewrite Hx. symmetry. exact (f_equal Ok (pm_old_db _ _ _ _ _ Hp)). }
      eapply wp_reads; [exact Hr|by apply Hok|done|done|]. split; [done|]. exists a. by split_and!. }
  intros record d1 Hm. pose proof Hm as [He1 _]. destruct (early_held d1 g He1).
  destruct (det_verifySafety d1 (with_safety (mk g) record t) pass) as (r & Hr & Hok).
  eapply wp_reads_bind; [exact Hr|apply (Hok tt); by eapply made_authentic|done|done|].
  set (g' := Pg stateSafety record t (pg_counts g)).
  change (with_state (with_safety (mk g) record t) stateSafety) with (mk g').
  destruct (made_recorded d1 g k runtime pass record Hm Ho Hu (dated_utc t Edt)) as [Hgood Hpre]. fold g' in Hgood, Hpre.
  destruct (HJ _ _ Hpre) as [HJ' HC']; [done|].
  eapply (wp_bind _ _ _ _ _ _ (fun _ d2 => d2 = with_marker d1 (Holds (mk g')))).
  - apply (wp_replaceMarker m0 old_db old_kr new_db new_kr Hp); [done|done|done|]. intros _. by split_and!.
  - intros [] d2 ->. apply wp_pure. by exists g'.
Qed.

(** Where an old member is found. *)
Lemma located b d : placed d b -> sized_member b -> mb_c b <> mb_r b ->
  exists p, locate_of d (record_of (mb_old b)) (mb_c b) (mb_r b) (mb_max b) = Ok p /\ at_ d p (mb_old b) /\ (p = mb_c b <-> start d b).
Proof.
  intros Hpl Hs Hne. assert (Hs1 : sized (mb_old b) (mb_max b)) by apply Hs. destruct Hpl as [Hst|[Hpk|Hsw]].
  - exists (mb_c b). split; [eapply locate_of_primary; [apply Hst|done|done]|split; [apply Hst|done]].
  - pose proof Hpk as (_ & Hc & _ & Hr). exists (mb_r b). split; [|split; [done|]].
    + eapply locate_of_fallback; [by apply match_none|done|done|done|done].
    + split; [intros E; congruence|]. intros (Hx & _). unfold none, at_ in *. by rewrite Hc in Hx.
  - pose proof Hsw as (Hn & Hc & _ & Hr). exists (mb_r b). split; [|split; [done|]].
    + eapply locate_of_fallback; [by apply new_not_old|done|done|done|done].
    + split; [intros E; congruence|]. intros (_ & _ & Hx). unfold none, at_ in *. by rewrite Hr in Hx.
Qed.

Lemma both_start_prepared d g : pre d g -> start d dbm -> start d krm -> prepared_whole d (mk g).
Proof.
  intros Hpre (_ & Hd & _) (_ & Hk & _). destruct (pr_prep _ _ _ _ _ _ _ Hpre) as [Ho Hn].
  destruct (sizes m0 old_db old_kr new_db new_kr Hp) as (_ & _ & ? & ?). split_and!.
  - exact Ho.
  - intros n Hs. apply Hn in Hs. rewrite !elem_of_cons in Hs. destruct Hs as [?|[?|Hs]]; [by left|by right|by apply not_elem_of_nil in Hs].
  - exists new_db. split_and!; [done|exact (eq_sym (pm_new_db _ _ _ _ _ Hp))|done..].
  - exists new_kr. split_and!; [done|exact (eq_sym (pm_new_kr _ _ _ _ _ Hp))|done..].
Qed.

Lemma saved_authentic d g k runtime pass : saved d (pg_safety g) -> Open old_kr runtime = Ok k ->
  Unseal k (m_Sealed m0) (intentAAD m0) = Ok pass -> authentic d (mk g) pass (pg_safety g).
Proof.
  intros (a & Ha & Er & r' & k' & pass' & Ho' & Hu' & Hx & Hs) Ho Hu. pose proof (Open_unique _ _ _ _ _ Ho Ho') as <-.
  assert (pass' = pass) as -> by congruence. exists a. split_and!; [done|done|apply Hs..|]. rewrite Hx. symmetry.
  exact (f_equal Ok (pm_old_db _ _ _ _ _ Hp)).
Qed.

(** What an attempt finds before it moves anything: the safety artifact is
    recorded, and nothing has moved since. *)
Definition prepared (m : marker) (d : disk) : Prop := exists g, m = mk g /\ pre d g /\
  stateAtLeast (pg_state g) stateSafety = true /\ pg_state g <> stateCleanup.

Lemma wp_prepare_end d g k runtime pass version schema (untouched : bool) : pre d g -> pg_state g <> stateCleanup ->
  (start d dbm -> start d krm -> untouched = true) ->
  Open old_kr runtime = Ok k -> Unseal k (m_Sealed m0) (intentAAD m0) = Ok pass ->
  (G -> dated t = true /\ exists a, Create k old_db pass version schema t = Ok a) ->
  wp t G d
    (m <- (if stateAtLeast (m_State (mk g)) stateSafety then verifySafety (mk g) pass ;; pure (mk g)
           else require untouched "restore swap: swap started before a safety artifact was recorded" ;;
                ensureSafety (mk g) k pass version schema);
     ctx_Err ;; pure m) prepared J C.
Proof.
  intros Hpre Hne Hun Ho Hu HG. destruct (HJ d g Hpre Hne) as [HJd HCd]. change (m_State (mk g)) with (pg_state g).
  apply (wp_bind t G d _ _ _ (fun m d' => prepared m d')).
  - destruct (stateAtLeast (pg_state g) stateSafety) eqn:E.
    + destruct (det_verifySafety d (mk g) pass) as (r & Hr & Hok).
      eapply wp_reads_bind; [exact Hr|apply (Hok tt)|done|done|].
      * eapply saved_authentic; [|done|done]. by apply (pr_saved _ _ _ _ _ _ _ Hpre).
      * apply wp_pure. by exists g.
    + pose proof (early_of d g Hpre E) as He. rewrite (Hun (er_db _ _ He) (er_kr _ _ He)).
      eapply wp_reads_bind; [apply det_require|done|done|done|].
      eapply wp_mono; [eapply (wp_ensureSafety d g k runtime); done| |done|done].
      intros m d' (g' & -> & Hpre' & Hst). exists g'. by rewrite Hst.
  - intros m d' Hprep. pose proof Hprep as (g' & _ & Hpre' & _ & Hne'). destruct (HJ d' g' Hpre' Hne').
    apply wp_touch; [done|done|]. by apply wp_pure.
Qed.

Lemma wp_prepare d g runtime version : pre d g -> pg_state g <> stateCleanup ->
  (G -> dated t = true /\ old_side_ok runtime version) ->
  wp t G d (prepare_swap (mk g) runtime version) (fun m d' => prepared m d' /\ old_pair_ok old_db old_kr runtime) J C.
Proof.
  intros Hpre Hne HG. destruct (HJ d g Hpre Hne) as [HJd HCd]. unfold prepare_swap.
  change (m_OldDatabase (mk g)) with (m_OldDatabase m0). change (m_OldKeyring (mk g)) with (m_OldKeyring m0).
  change (rollback_db (mk g)) with (rollback_db m0). change (rollback_kr (mk g)) with (rollback_kr m0).
  change (m_Sealed (mk g)) with (m_Sealed m0). change (intentAAD (mk g)) with (intentAAD m0).
  destruct (located dbm d) as (pd & Ld & Ad & Sd); [by destruct Hpre|by eapply sized_db|by intros [=]|].
  destruct (located krm d) as (pk & Lk & Ak & Sk); [by destruct Hpre|by eapply sized_kr|by intros [=]|].
  cbn [db_m kr_m mb_c mb_r mb_old mb_max] in Ld, Lk, Ad, Ak, Sd, Sk. rewrite <- (pm_old_db _ _ _ _ _ Hp) in Ld. rewrite <- (pm_old_kr _ _ _ _ _ Hp) in Lk.
  eapply wp_reads_bind; [apply det_locate|exact Ld|done|done|]. eapply wp_reads_bind; [apply det_locate|exact Lk|done|done|].
  set (untouched := bool_decide (pd = db_path) && bool_decide (pk = kr_path)).
  eapply (wp_bind _ _ _ _ _ _ (fun _ d' => d' = d)).
  { destruct untouched eqn:Eu; [|by apply wp_pure]. unfold untouched in Eu. apply andb_true_iff in Eu as [Eu1 Eu2].
    apply bool_decide_eq_true in Eu1, Eu2. destruct (names m0 old_db old_kr new_db new_kr Hp) as [Hnn _].
    destruct (det_verifyPrepared d (mk g) Hnn) as (r & Hr & Hok).
    eapply wp_reads; [exact Hr| |done|done|done]. apply (Hok tt). apply both_start_prepared; [done|by apply Sd|by apply Sk]. }
  intros [] d' ->. apply wp_touch; [done|done|].
  eapply wp_read; [apply det_wrap, det_open|done|done| |].
  { intros Hg. destruct (HG Hg) as (_ & k & c & pass & Ho & _). rewrite (data_at_file d pk old_kr Ak), Ho. by eexists. }
  intros k Ek. rewrite (data_at_file d pk old_kr Ak) in Ek. destruct (Open old_kr runtime) as [k'|] eqn:Ho; [|done]. injection Ek as ->.
  apply wp_touch; [done|done|]. destruct (sizes m0 old_db old_kr new_db new_kr Hp) as (_ & Hsk & _).
  eapply wp_reads_bind; [apply det_replace, det_requireHash| |done|done|].
  { rewrite (require_of_file d pk old_kr); [done|done|exact (eq_sym (pm_old_kr _ _ _ _ _ Hp))|done]. }
  eapply wp_read; [apply det_replace, det_lift|done|done| |].
  { intros Hg. destruct (HG Hg) as (_ & k' & c & pass & Ho' & _ & Hu & _). assert (k' = k) as -> by congruence. rewrite Hu. by eexists. }
  intros pass Ep. destruct (Unseal k (m_Sealed m0) (intentAAD m0)) as [pass'|] eqn:Hu; [|done]. injection Ep as ->.
  eapply wp_read; [apply det_require|done|done| |].
  { intros Hg. destruct (HG Hg) as (_ & k' & c & pass' & Ho' & _ & Hu' & L1 & L2 & _). assert (k' = k) as -> by congruence.
    assert (pass' = pass) as -> by congruence. rewrite L1, L2. by eexists. }
  intros [] _. destruct (det_pair d pd pk runtime (m_OldDatabase m0) (m_OldKeyring m0)) as (r & Hr & Hok).
  assert (Hval : forall c, r = Ok c <-> Validate old_db k = Ok c).
  { intros c. rewrite Hok, (valid_old _ _ _ _ _ Hp d pd pk runtime c Ad Ak). split; [intros (k' & Ho' & ?)|eauto]. congruence. }
  eapply wp_read; [apply det_wrap, Hr|done|done| |].
  { intros Hg. destruct (HG Hg) as (_ & k' & c & pass' & Ho' & Hv & _). assert (k' = k) as -> by congruence.
    rewrite (proj2 (Hval c) Hv). by eexists. }
  intros c Ec. destruct r as [c'|]; [|done]. injection Ec as ->. pose proof (proj1 (Hval c) eq_refl) as Hv.
  eapply wp_mono; [eapply (wp_prepare_end d g k runtime); try done| |done|done].
  - intros S1 S2. unfold untouched. apply Sd in S1. apply Sk in S2. rewrite S1, S2. by rewrite !bool_decide_eq_true_2.
  - intros Hg. destruct (HG Hg) as (Hd & k' & c' & pass' & Ho' & Hv' & Hu' & _ & _ & a & Ha). split; [done|].
    assert (k' = k) as -> by congruence. assert (pass' = pass) as -> by congruence. assert (c' = c) as -> by congruence. by exists a.
  - intros m d' Hprep. split; [done|]. by exists k, c.
Qed.
End Attempt.

(** ** An attempt *)

(** What an attempt needs to go through, apart from luck. *)
Definition attempt_ok (runtime version : string) : Prop :=
  validateControllerVersion version = None /\ (len runtime =? 0) = false /\ (len runtime <=? passphraseMaxBytes) = true /\
  dated t = true /\ old_side_ok runtime version /\ new_pair_ok m0 old_db old_kr new_db new_kr runtime.

Lemma pre_course d g : pre d g -> pg_state g <> stateCleanup -> recoverable d /\ (G -> on_course d).
Proof. intros Hpre Hne. split; [left; by exists g|]. intros _. left. exists g. split; [done|]. intros E. by destruct (Hne E). Qed.
Lemma ended_course d g : committed d g \/ finished d g -> recoverable d /\ (G -> on_course d).
Proof. intros [?|?]; (split; [right|intros _; right]); [left|left|right|right]; by exists g. Qed.

Lemma wp_handler d sf ta g1 runtime cause : undone m0 old_db old_kr new_db new_kr sf ta d -> pg_safety g1 = sf -> pg_at g1 = ta ->
  wp t False d (catch (restoreOld (mk g1) runtime) (fun e => throw (Joined cause e)) ;; throw cause)
    (fun (_ : marker) _ => False) recoverable (fun _ => True).
Proof.
  intros Hu E1 E2. assert (Hrec : forall d1, undone m0 old_db old_kr new_db new_kr sf ta d1 -> recoverable d1).
  { intros d1 (g & ? & _). left. by exists g. }
  eapply (wp_bind _ _ _ _ _ _ (fun _ d1 => recoverable d1)).
  - eapply (wp_catch_with t False d _ _ _ (undone m0 old_db old_kr new_db new_kr sf ta)); [|exact Hrec|].
    + eapply wp_mono; [apply (wp_restoreOld m0 old_db old_kr new_db new_kr Hp t False d sf ta g1 runtime Hu E1 E2); done| |done|done].
      intros _ d1 (Hpre & _). left. by eexists.
    + intros e d1 Hu1. apply wp_throw; [auto|done].
  - intros [] d1 Hr. by apply wp_throw.
Qed.

Lemma wp_applyReady d g runtime version : pre d g -> pg_state g <> stateCleanup -> (G -> attempt_ok runtime version) ->
  wp t G d (applyReady (mk g) runtime version) (fun r d' => exists g', r = result_of (mk g') (pg_counts g') /\ finished d' g')
    recoverable (fun d => G -> on_course d).
Proof.
  intros Hpre Hne HG. unfold applyReady. eapply wp_bind.
  { apply (wp_prepare recoverable (fun d => G -> on_course d) pre_course d g runtime version Hpre Hne).
    intros Hg. destruct (HG Hg) as (_ & _ & _ & ? & ? & _). done. }
  intros m d1 ((g1 & -> & Hpre1 & Hs1 & Hne1) & _). eapply wp_bind.
  { apply (wp_catch_with t G d1 _ _ _ (swapping m0 old_db old_kr new_db new_kr (pg_safety g1) (pg_at g1))).
    - eapply wp_mono; [apply (wp_swap m0 old_db old_kr new_db new_kr Hp t G d1 g1 runtime Hpre1 Hs1 Hne1)| |done|].
      + intros Hg. destruct (HG Hg) as (_ & _ & _ & ? & _ & ?). done.
      + intros m d2 HQ. exact HQ.
      + intros d2 Hsw _. by eapply swapping_course.
    - intros d2 (g2 & ? & _). left. by exists g2.
    - intros e d2 Hsw. eapply wp_handler; [by apply swapping_undone|done|done]. }
  intros m d2 (g2 & _ & -> & [Hpre2 _ _ Hl2] & Hst2 & _). destruct (Hl2 Hst2) as [Hd2 Hk2].
  eapply wp_mono; [apply (wp_finishCleanup d2 g2 runtime recoverable (fun d => G -> on_course d))| |done|done].
  - by apply pre_committed.
  - intros d' Hd'. by apply (ended_course d' g2).
  - intros Hg. destruct (HG Hg) as (_ & _ & _ & _ & _ & ?). done.
  - intros r d' [-> Hf]. by exists g2.
Qed.

Lemma det_readMarker d : has_recovery d -> det d readMarker (marker_at d).
Proof.
  intros Hr. unfold readMarker, validateRecoveryDir. eapply det_eq.
  - eapply det_bind; [apply det_look|]. intros missing E. apply det_if; [apply det_throw|].
    eapply det_bind; [eapply det_bind; [apply det_look|intros ok _; eapply det_bind; [apply det_require|intros ? _; apply det_touch]]|].
    intros ? _. exact (det_look d marker_at).
  - unfold has_recovery in Hr. rewrite Hr. cbn. done.
Qed.
Lemma marker_read d g : d_marker d = Holds (mk g) -> good_progress g -> marker_at d = Ok (mk g).
Proof. intros E Hg. unfold marker_at. rewrite E. by rewrite (proj2 (valid_mk m0 old_db old_kr new_db new_kr g Hp)). Qed.

(** What an attempt does with the marker it finds. *)
Definition dispatch (m : marker) (runtime version : string) : IO Result :=
  if String.eqb (m_State m) stateIntent then throw UncleanIntent
  else if String.eqb (m_State m) stateCleanup then finishCleanup m runtime
  else applyReady m runtime version.

(** What an attempt finds. *)
Definition found (d : disk) (g : progress) : Prop :=
  pre d g /\ (G -> pg_state g = stateCleanup -> live d dbm /\ live d krm) \/ committed d g.

Lemma live_dec d b : placed d b -> live d b \/ ~ live d b.
Proof.
  intros Hpl. destruct (d_nodes d !! mb_c b) as [[|perm x|]|] eqn:Ex.
  2: { destruct (decide (perm = private_file /\ record_of x = record_of (mb_new b))) as [[-> Er]|Hn].
       - left. by eapply canonical_live.
       - right. intros Hl. pose proof (live_at _ _ Hl) as Ha. unfold at_ in Ha. rewrite Ex in Ha. injection Ha as -> ->.
         apply Hn. split; [done|apply live_record]. }
  all: right; intros Hl; pose proof (live_at _ _ Hl) as Ha; unfold at_ in Ha; by rewrite Ex in Ha.
Qed.

Definition applied (r : Result) (d' : disk) : Prop := exists g', r = result_of (mk g') (pg_counts g') /\ finished d' g'.

Lemma wp_dispatch d g runtime version : found d g -> (G -> attempt_ok runtime version) ->
  wp t G d (dispatch (mk g) runtime version) applied recoverable (fun d => G -> on_course d).
Proof.
  intros Hd HG. unfold dispatch. change (m_State (mk g)) with (pg_state g).
  assert (Hgood : good_progress g) by (destruct Hd as [[[] _]|[]]; done). destruct Hgood as [_ Hni _ _ _ _].
  rewrite (proj2 (String.eqb_neq _ _) Hni).
  assert (Hend : committed d g -> wp t G d (finishCleanup (mk g) runtime) applied recoverable (fun d => G -> on_course d)).
  { intros Hc. eapply wp_mono; [apply (wp_finishCleanup d g runtime recoverable (fun d => G -> on_course d) Hc)| |done|done].
    - intros d' Hd'. by apply (ended_course d' g).
    - intros Hg. destruct (HG Hg) as (_ & _ & _ & _ & _ & ?). done.
    - intros r d' [-> Hf]. by exists g. }
  destruct (String.eqb (pg_state g) stateCleanup) eqn:E.
  - apply String.eqb_eq in E. destruct Hd as [[Hpre Hl]|Hc]; [|by apply Hend].
    assert (Hdec : live d dbm /\ live d krm \/ ~ (live d dbm /\ live d krm)).
    { destruct Hpre. destruct (live_dec d dbm); [done| |right; tauto]. destruct (live_dec d krm); [done|left; tauto|right; tauto]. }
    destruct Hdec as [[Hld Hlk]|Hn]; [by apply Hend, pre_committed|].
    assert (HnG : G -> False) by (intros Hg; by apply Hn, Hl).
    apply (wp_not_live d g); [done|done|done|left; by exists g|by intros ?%HnG|done].
  - apply String.eqb_neq in E. destruct Hd as [[Hpre _]|Hc]; [|by destruct (cm_state _ _ _ _ _ _ _ Hc)].
    by apply wp_applyReady.
Qed.

Lemma wp_ApplyPending d g runtime version : found d g -> (G -> attempt_ok runtime version) ->
  wp t G d (ApplyPending runtime version) applied recoverable (fun d => G -> on_course d).
Proof.
  intros Hd HG. assert (HJ : recoverable d) by (destruct Hd as [[? _]|?]; [left; by exists g|right; left; by exists g]).
  assert (HC : G -> on_course d) by (intros Hg; destruct Hd as [[? Hl]|?]; [left; exists g; auto|right; left; by exists g]).
  unfold ApplyPending. apply wp_touch; [done|done|].
  eapply wp_read; [apply det_check|done|done| |].
  { intros Hg. destruct (HG Hg) as (-> & _). by eexists. }
  intros [] _. unfold ownPassphrase. eapply (wp_bind _ _ _ _ _ _ (fun r d' => r = runtime /\ d' = d)).
  { eapply wp_read; [apply det_require|done|done| |].
    { intros Hg. destruct (HG Hg) as (_ & -> & _). by eexists. }
    intros [] _. eapply wp_read; [apply det_require|done|done| |].
    { intros Hg. destruct (HG Hg) as (_ & _ & -> & _). by eexists. }
    intros [] _. by apply wp_pure. }
  intros r d' [-> ->]. apply wp_touch; [done|done|]. apply wp_touch; [done|done|].
  eapply wp_reads_bind; [apply det_readMarker| |done|done|by apply wp_dispatch].
  - by destruct Hd as [[[] _]|[]].
  - by destruct Hd as [[[] _]|[]]; apply marker_read.
Qed.
End Calls.
End Apply.
