(* ===== verification/RestoreHistory.v ===== *)
(** * Any history of a restore

    From a clean shutdown through any sequence of starts, each with its own I/O
    errors and its own end: the controller never loses what it holds, and a
    restore that only crashes interrupt is finished by the next start that they
    do not. *)

From Stdlib Require Import ZArith Lia Ascii String.
From stdpp Require Import base gmap list strings sorting.
From S2P Require Import Prelude GoStr GoFmt Sha256 RestoreMarker RestoreDisk RestoreSwap RestoreReads RestoreInv.
From S2P Require Import RestoreSwapSpec RestoreApplySpec.

Local Open Scope string_scope.
Local Open Scope Z_scope.

(** ** The clean shutdown *)

(** An intent nothing has been done for. *)
Record fresh (d : disk) (m : marker) : Prop := MkFresh {
  fs_marker : d_marker d = Holds m;
  fs_receipt : d_receipt d = Absent;
  fs_suppression : d_suppression d = Absent;
  fs_roll : gone d (rollback_dir m);
  fs_safety : none d (safety_path m)
}.

(** Only empty private files are gone. *)
Definition swept (d d' : disk) : Prop :=
  (forall q, d_nodes d' !! q = d_nodes d !! q \/ d_nodes d !! q = Some (File private_file "") /\ d_nodes d' !! q = None) /\
  d_marker d' = d_marker d /\ d_receipt d' = d_receipt d /\ d_suppression d' = d_suppression d.

Lemma swept_refl d : swept d d.
Proof. split_and!; auto. Qed.
Lemma swept_trans d1 d2 d3 : swept d1 d2 -> swept d2 d3 -> swept d1 d3.
Proof.
  intros (Ha & ? & ? & ?) (Hb & ? & ? & ?). split_and!; [|congruence..]. intros q.
  destruct (Ha q) as [E1|[E1 E1']], (Hb q) as [E2|[E2 E2']]; [left|right|right|right]; try split; congruence.
Qed.
Lemma swept_none d d' q : swept d d' -> none d q -> none d' q.
Proof. intros (H & _) Hq. unfold none in *. destruct (H q) as [E|[E _]]; congruence. Qed.
Lemma swept_some d d' q : swept d d' -> is_Some (d_nodes d' !! q) -> d_nodes d' !! q = d_nodes d !! q.
Proof. intros (H & _) [x Hx]. destruct (H q) as [E|[_ E]]; congruence. Qed.
Lemma swept_dir d d' q p : swept d d' -> d_nodes d !! q = Some (Dir p) -> d_nodes d' !! q = Some (Dir p).
Proof. intros (H & _) Hq. destruct (H q) as [E|[E _]]; congruence. Qed.
Lemma swept_at d d' q x mx : swept d d' -> at_ d q x -> sized x mx -> at_ d' q x.
Proof.
  intros (H & _) Hq [Hs _]. unfold at_ in *. destruct (H q) as [E|[E _]]; [congruence|].
  rewrite Hq in E. injection E as ->. by vm_compute in Hs.
Qed.

Section Shutdown.
Context (t : string).

Lemma wp_sweep d name : wp t False d (remove_sidecar name) (fun _ d' => swept d d') (fun _ => True) (fun _ => True).
Proof.
  unfold remove_sidecar. eapply wp_read; [apply det_look|done|done|done|]. intros found [= <-].
  destruct (d_nodes d !! [name]) as [n|] eqn:En; [|by apply wp_pure, swept_refl].
  eapply wp_read; [apply det_require|done|done|done|]. intros [] Hr. destruct (bool_decide _) eqn:Eb; [|done].
  apply bool_decide_eq_true in Eb. subst n. apply wp_wrap, wp_call; [done|done| |intros ? ? _; split; [done|by intros []]].
  intros [] d1. unfold remove_at. rewrite En. intros [= <-]. split_and!; [|done..]. intros q. cbn [with_nodes d_nodes].
  destruct (decide (q = [name])) as [->|Hq]; [right; by rewrite lookup_delete_eq|left; by rewrite lookup_delete_ne].
Qed.
Lemma wp_sweep_all d names : wp t False d (fold_right (fun name rest => remove_sidecar name ;; rest) (pure tt) names)
  (fun _ d' => swept d d') (fun _ => True) (fun _ => True).
Proof.
  revert d. induction names as [|name names IH]; intros d; cbn [fold_right]; [by apply wp_pure, swept_refl|].
  eapply wp_bind; [apply wp_sweep|]. intros [] d1 H1. eapply wp_mono; [apply IH| |done|done].
  intros [] d2 H2. by eapply swept_trans.
Qed.

Definition marker_found (d : disk) : res fault marker :=
  if bool_decide (d_nodes d !! recovery_dir = None) then Err NoPendingIntent
  else if is_private_dir (d_nodes d !! recovery_dir) then marker_at d
  else Err (Text "restore swap: recovery directory must be a private real directory").
Lemma det_marker_found d : det d readMarker (marker_found d).
Proof.
  unfold readMarker, validateRecoveryDir. eapply det_eq.
  - eapply det_bind; [apply det_look|]. intros missing E. apply det_if; [apply det_throw|].
    eapply det_bind; [eapply det_bind; [apply det_look|intros ok _; eapply det_bind; [apply det_require|intros ? _; apply det_touch]]|].
    intros ? _. exact (det_look d marker_at).
  - unfold marker_found. cbn. destruct (bool_decide _); [done|]. by destruct (is_private_dir _).
Qed.
Lemma marker_found_ok d m : marker_found d = Ok m -> has_recovery d /\ d_marker d = Holds m /\ validateMarker m = None.
Proof.
  unfold marker_found. destruct (bool_decide _); [done|]. destruct (is_private_dir _) eqn:E; [|done].
  apply is_private_dir_spec in E. unfold marker_at. destruct (d_marker d) as [| | |m']; try done.
  destruct (validateMarker m') eqn:Ev; [done|]. intros [= <-]. done.
Qed.

(** What a clean shutdown leaves: nothing moved, and the digests of what is there. *)
Definition ready (m0 : marker) (old_db old_kr new_db new_kr : string) (d : disk) : Prop :=
  promoted m0 old_db old_kr new_db new_kr /\ at_ d db_path old_db /\ at_ d kr_path old_kr /\
  d_nodes d !! recovery_dir = Some (Dir private_dir) /\ d_marker d = Holds m0 /\ d_receipt d = Absent /\ d_suppression d = Absent /\
  prepared_whole d m0 /\ at_ d (prepared_db m0) new_db /\ at_ d (prepared_kr m0) new_kr /\
  gone d (rollback_dir m0) /\ none d (safety_path m0).

Context (m : marker) (d : disk) (Hf : fresh d m) (owner : string).

Lemma wp_MarkCleanShutdown :
  wp t False d (MarkCleanShutdown owner)
    (fun _ d' => exists old_db old_kr new_db new_kr, at_ d db_path old_db /\ at_ d kr_path old_kr /\
       at_ d (prepared_db m) new_db /\ at_ d (prepared_kr m) new_kr /\
       ready (with_state (with_old m (record_of old_db) (record_of old_kr)) stateReady) old_db old_kr new_db new_kr d')
    (fun _ => True) (fun _ => True).
Proof.
  unfold MarkCleanShutdown. apply wp_touch; [done|done|]. eapply wp_read; [apply det_check|done|done|done|]. intros [] _.
  apply wp_touch; [done|done|]. eapply wp_read; [apply det_marker_found|done|done|done|]. intros m' Em.
  apply marker_found_ok in Em as (Hrec & Hm & Hv). rewrite (fs_marker _ _ Hf) in Hm. injection Hm as <-.
  eapply wp_read; [apply det_require|done|done|done|]. intros [] _.
  eapply wp_read; [apply det_if; [apply det_pure|apply det_throw]|done|done|done|]. intros [] _.
  assert (Hnames : m_PreparedDatabase m <> m_PreparedKeyring m).
  { unfold validateMarker in Hv. rewrite checks_pass in Hv. unfold marker_checks in Hv. cbn [forallb fst] in Hv.
    rewrite !andb_true_iff in Hv. destruct Hv as (_ & _ & _ & _ & Hv & _). unfold prepared_paths_ok in Hv. bool_prop. done. }
  destruct (det_verifyPrepared d m Hnames) as (r & Hr & Hok).
  eapply wp_read; [exact Hr|done|done|done|]. intros u Eu. destruct (proj1 (Hok u) Eu) as (Hd & Hmem & (x & Hx & Ex & Sx) & (y & Hy & Ey & Sy)).
  eapply (wp_bind _ _ _ _ _ _ (fun _ d1 => swept d d1)).
  { unfold removeSafeSQLiteSidecars. eapply wp_bind; [apply wp_sweep_all|]. intros [] d1 Hs. eapply wp_det; [apply det_touch|done|done|done|].
    intros [] _. exact Hs. }
  intros [] d1 Hs. eapply wp_read; [apply det_wrap, det_hash|done|done|done|]. intros rd Ed.
  destruct (hash_at d1 db_path 1 MaxDatabaseBytes) as [rd'|] eqn:Ehd; [|done]. injection Ed as ->. apply hash_at_ok in Ehd as (a & Ha & -> & Sa).
  eapply wp_read; [apply det_wrap, det_hash|done|done|done|]. intros rk Ek.
  destruct (hash_at d1 kr_path 1 keyringMaxBytes) as [rk'|] eqn:Ehk; [|done]. injection Ek as ->. apply hash_at_ok in Ehk as (b & Hb & -> & Sb).
  apply wp_touch; [done|done|]. apply wp_touch; [done|done|]. apply wp_touch; [done|done|]. apply wp_touch; [done|done|].
  set (m0 := with_state (with_old m (record_of a) (record_of b)) stateReady).
  unfold replaceMarker, write_over. eapply (wp_bind _ _ _ _ _ _ (fun _ d2 => d2 = with_marker d1 (Holds m0) /\ validateMarker m0 = None)).
  { eapply wp_read; [apply det_check|done|done|done|]. intros [] Ev. destruct (validateMarker m0) eqn:Evm; [done|].
    apply wp_touch; [done|done|]. eapply (wp_bind _ _ _ _ _ _ (fun _ d2 => d2 = with_marker d1 (Holds m0))).
    - apply wp_call; [done|done| |done]. by intros [] d2 [= <-].
    - intros [] d2 ->. eapply wp_det; [apply det_touch|done|done|done|done]. }
  intros [] d2 [-> Hvm]. apply wp_touch; [done|done|]. apply wp_pure. pose proof Hs as (_ & _ & Hsr & Hss).
  exists a, b, x, y.
  assert (Hat : forall q z, at_ d1 q z -> at_ d q z).
  { intros q z Hz. unfold at_ in *. rewrite <- Hz. symmetry. apply (swept_some d d1); [done|]. by eexists. }
  assert (Hdir : m_PreparedDir m <> databaseName /\ m_PreparedDir m <> keyringName).
  { apply Hat in Ha, Hb. split; intros E; rewrite E in Hd; [unfold at_, db_path in Ha|unfold at_, kr_path in Hb]; congruence. }
  assert (Hx1 : at_ d1 (prepared_db m) x) by by eapply swept_at.
  assert (Hy1 : at_ d1 (prepared_kr m) y) by by eapply swept_at.
  split; [by apply Hat|]. split; [by apply Hat|]. split; [done|]. split; [done|]. destruct Hf as [_ F2 F3 F4 F5]. unfold ready.
  split; [constructor; [exact Hvm|done|done|done|exact (eq_sym Ex)|exact (eq_sym Ey)|apply Hdir|apply Hdir]|].
  split; [done|]. split; [done|]. split; [by apply (swept_dir d d1)|]. split; [done|].
  split; [exact (eq_trans Hsr F2)|]. split; [exact (eq_trans Hss F3)|]. split.
  { split_and!; [by apply (swept_dir d d1)| |exists x|exists y]; [|done..]. intros n Hn. apply Hmem.
    assert (Hn' : is_Some (d_nodes d1 !! [m_PreparedDir m; n])) by exact Hn. by rewrite (swept_some d d1 _ Hs Hn') in Hn'. }
  split; [done|]. split; [done|]. split; [|by apply (swept_none d d1)].
  destruct F4 as [F4 F4']. split; [by apply (swept_none d d1)|]. intros n. by apply (swept_none d d1).
Qed.
End Shutdown.

(** ** Attempts *)

(** A start of the controller: what happens to its calls, its clock, the runtime
    passphrase and its version. *)
Record attempt := Attempt { at_fates : list fate; at_now : string; at_id : string; at_runtime : string; at_version : string }.

Section History.
Context `{V : Vault}.

Definition run_attempt (d : disk) (a : attempt) : outcome Result * world :=
  ApplyPending (at_runtime a) (at_version a) (MkWorld d (at_fates a) (at_now a) (at_id a)).
Definition next (d : disk) (a : attempt) : disk := w_disk (snd (run_attempt d a)).
Definition history (d : disk) (l : list attempt) : disk := fold_left next l d.

Section Restore.
Context (m0 : marker) (old_db old_kr new_db new_kr : string).

Notation dbm := (db_m m0 old_db new_db).
Notation krm := (kr_m m0 old_kr new_kr).
Notation mk := (mk m0).
Notation pre := (pre m0 old_db old_kr new_db new_kr).
Notation finished := (finished m0 old_db old_kr new_db new_kr).
Notation on_course := (on_course m0 old_db old_kr new_db new_kr).
Notation recoverable := (recoverable m0 old_db old_kr new_db new_kr).
Notation ready := (ready m0 old_db old_kr new_db new_kr).
Notation found := (found m0 old_db old_kr new_db new_kr).
Notation applied := (applied m0 old_db old_kr new_db new_kr).

Definition untouched : progress := Pg stateReady no_file "" no_recovery.

Lemma ready_marker : promoted m0 old_db old_kr new_db new_kr -> mk untouched = m0.
Proof.
  intros Hp. pose proof (pm_valid _ _ _ _ _ Hp) as Hv. pose proof (pm_state _ _ _ _ _ Hp) as Hs.
  unfold validateMarker in Hv. rewrite checks_pass in Hv. unfold marker_checks in Hv. cbn [forallb fst] in Hv.
  rewrite !andb_true_iff in Hv. destruct Hv as (_ & _ & _ & _ & _ & _ & _ & _ & _ & _ & _ & _ & _ & _ & H1 & _ & H2 & _).
  rewrite Hs in H1, H2. cbn in H1, H2. unfold no_safety in H1. apply andb_true_iff in H1 as [H1 H1'].
  apply bool_decide_eq_true in H1, H2. apply String.eqb_eq in H1'. unfold RestoreInv.mk, untouched, with_progress.
  cbn [pg_state pg_safety pg_at pg_counts]. destruct m0. cbn in *. congruence.
Qed.

Lemma ready_pre d : ready d -> pre d untouched.
Proof.
  intros (Hp & Ha & Hb & Hrec & Hm & Hr & Hs & Hw & Hx & Hy & Hg & Hsafe). pose proof (ready_marker Hp) as Em.
  assert (Hd : start d dbm) by (split_and!; [done|done|apply Hg]). assert (Hk : start d krm) by (split_and!; [done|done|apply Hg]).
  destruct Hw as (Hdir & Hmem & _). constructor; try done.
  - by rewrite Em.
  - split; [done|]. intros n Hn. rewrite !elem_of_cons. destruct (Hmem n Hn); tauto.
  - by right.
  - by left.
  - by left.
  - intros _. split_and!; try done. by left.
  - by right.
Qed.

Context (Hp : promoted m0 old_db old_kr new_db new_kr).

(** A restore that has ended is left alone. *)
Lemma finished_next d g a : finished d g -> next d a = d.
Proof.
  intros Hf. assert (Hw : wp (at_now a) False d (ApplyPending (at_runtime a) (at_version a)) (fun _ _ => False) (fun d' => d' = d) (fun d' => d' = d)).
  { unfold ApplyPending. apply wp_touch; [done|done|]. eapply wp_read; [apply det_check|done|done|done|]. intros [] _.
    eapply (wp_bind _ _ _ _ _ _ (fun _ d' => d' = d)).
    { unfold ownPassphrase. eapply wp_read; [apply det_require|done|done|done|]. intros [] _.
      eapply wp_read; [apply det_require|done|done|done|]. intros [] _. by apply wp_pure. }
    intros r d' ->. apply wp_touch; [done|done|]. apply wp_touch; [done|done|].
    eapply wp_read; [apply det_readMarker|done|done|done|]; [apply Hf|]. intros m. unfold marker_at. by rewrite (fn_marker _ _ _ _ _ _ _ Hf). }
  unfold next, run_attempt. specialize (Hw (MkWorld d (at_fates a) (at_now a) (at_id a)) eq_refl eq_refl).
  destruct (ApplyPending _ _ _) as [[r|e|] w']; cbn [snd]; by destruct Hw as (? & _).
Qed.

Lemma next_recoverable d a : recoverable d -> recoverable (next d a).
Proof.
  assert (Hstep : forall g, found False d g -> recoverable (next d a)).
  { intros g Hf. pose proof (wp_ApplyPending m0 old_db old_kr new_db new_kr Hp (at_now a) False d g (at_runtime a) (at_version a) Hf ltac:(done)
      (MkWorld d (at_fates a) (at_now a) (at_id a)) eq_refl eq_refl) as Hw. unfold next, run_attempt.
    destruct (ApplyPending _ _ _) as [[r|e|] w']; cbn [snd]; [|by destruct Hw|by destruct Hw].
    destruct Hw as [(g' & _ & Hfin) _]. right. right. by exists g'. }
  intros [(g & Hpre)|[(g & Hc)|(g & Hfin)]].
  - apply (Hstep g). by left.
  - apply (Hstep g). by right.
  - rewrite (finished_next d g a Hfin). right. right. by exists g.
Qed.
Lemma history_recoverable l : forall d, recoverable d -> recoverable (history d l).
Proof. induction l as [|a l IH]; intros d Hd; [done|]. cbn. by apply IH, next_recoverable. Qed.

(** A start on which nothing but a crash can happen. *)
Definition goes_through (a : attempt) : Prop :=
  attempt_ok m0 old_db old_kr new_db new_kr (at_now a) (at_runtime a) (at_version a).
Definition only_crashes (a : attempt) : Prop := Fails ∉ at_fates a /\ goes_through a.

Lemma course_found d : on_course d -> (exists g, found True d g) \/ exists g, finished d g.
Proof. intros [(g & ? & Hl)|[(g & ?)|?]]; [left; exists g; left; auto|left; exists g; by right|by right]. Qed.

Lemma next_course d a : on_course d -> only_crashes a -> on_course (next d a).
Proof.
  intros Hd [Hc Ha]. destruct (course_found d Hd) as [(g & Hf)|(g & Hfin)]; [|by rewrite (finished_next d g a Hfin)].
  pose proof (wp_ApplyPending m0 old_db old_kr new_db new_kr Hp (at_now a) True d g (at_runtime a) (at_version a) Hf ltac:(done)
      (MkWorld d (at_fates a) (at_now a) (at_id a)) eq_refl eq_refl) as Hw. unfold next, run_attempt.
  destruct (ApplyPending _ _ _) as [[r|e|] w']; cbn [snd].
  - destruct Hw as [(g' & _ & Hfin) _]. right. right. by exists g'.
  - by destruct Hw as (_ & Hn & _); destruct (Hn I).
  - destruct Hw as (_ & Hcr & _). by apply Hcr.
Qed.
Lemma history_course l : forall d, on_course d -> Forall only_crashes l -> on_course (history d l).
Proof. induction l as [|a l IH]; intros d Hd Hl; [done|]. apply Forall_cons in Hl as [Ha Hl]. cbn. by apply IH; [apply next_course|]. Qed.

Lemma last_attempt d a : on_course d -> at_fates a = [] -> goes_through a ->
  (exists g, finished d g) \/ exists r w', run_attempt d a = (Done r, w') /\ applied r (w_disk w').
Proof.
  intros Hd Hcalm Ha. destruct (course_found d Hd) as [(g & Hf)|?]; [right|by left].
  pose proof (wp_ApplyPending m0 old_db old_kr new_db new_kr Hp (at_now a) True d g (at_runtime a) (at_version a) Hf ltac:(done)
      (MkWorld d (at_fates a) (at_now a) (at_id a)) eq_refl eq_refl) as Hw. unfold run_attempt.
  destruct (ApplyPending _ _ _) as [[r|e|] w'].
  - destruct Hw as [Happ _]. eauto.
  - destruct Hw as (_ & Hn & _). destruct (Hn I). unfold clean. cbn [w_fates]. rewrite Hcalm. apply not_elem_of_nil.
  - destruct Hw as (_ & _ & Hn). by destruct Hn.
Qed.

(** What is never lost: the old pair; or the new one, with the artifact the old one
    can be had from again, and the fence. *)
Definition old_kept (d : disk) : Prop :=
  (at_ d db_path old_db \/ at_ d (rollback_db m0) old_db) /\ (at_ d kr_path old_kr \/ at_ d (rollback_kr m0) old_kr).
Definition in_place (d : disk) : Prop :=
  at_ d db_path (live_data dbm) /\ at_ d kr_path (live_data krm) /\
  (exists c, counted m0 old_db old_kr new_db new_kr c) /\
  (exists a, at_ d (safety_path m0) a /\ artifact m0 old_db old_kr a) /\ fence m0 d.

Lemma recoverable_kept d : recoverable d -> (old_kept d \/ in_place d) /\
  (d_marker d = Absent -> in_place d /\ exists g, d_receipt d = Holds (receiptFor (mk g)) /\ saved m0 old_db old_kr d (pg_safety g)).
Proof.
  assert (Hkept : forall b, placed d b -> at_ d (mb_c b) (mb_old b) \/ at_ d (mb_r b) (mb_old b)).
  { intros b [(? & _)|[(_ & _ & _ & ?)|(_ & _ & _ & ?)]]; auto. }
  intros [(g & [])|[(g & [])|(g & [])]].
  - split; [left; split; [by apply (Hkept dbm)|by apply (Hkept krm)]|]. intros E. congruence.
  - destruct cm_saved as (a & ? & _ & ?). split; [right; by split_and!; [| |eexists|exists a|]|]. intros E. congruence.
  - pose proof fn_saved as (a & ? & _ & ?). assert (Hin : in_place d) by by split_and!; [| |eexists|exists a|].
    split; [by right|]. intros _. split; [done|]. by exists g.
Qed.

(** ** A pair that does not validate *)

(** Without faults, a program that cannot fail ends, and one that cannot end fails. *)
Lemma calm_done {A} t d (m : IO A) Q J C w : wp t True d m Q J C -> w_disk w = d -> w_now w = t -> calm w ->
  exists a w', m w = (Done a, w') /\ Q a (w_disk w') /\ calm w' /\ w_now w' = t.
Proof.
  intros Hm Hd Ht Hc. specialize (Hm w Hd Ht). destruct (m w) as [[a|e|] w'].
  - destruct Hm as [HQ (E & _ & Hg)]. exists a, w'. split_and!; [done|done|auto|congruence].
  - destruct Hm as (_ & Hn & _). destruct (Hn I (calm_clean w Hc)).
  - destruct Hm as (_ & _ & Hn). by destruct Hn.
Qed.
Lemma calm_failed {A} t d (m : IO A) J C w : wp t False d m (fun _ _ => False) J C -> w_disk w = d -> w_now w = t -> calm w ->
  exists e w', m w = (Failed e, w') /\ J (w_disk w') /\ calm w' /\ w_now w' = t.
Proof.
  intros Hm Hd Ht Hc. specialize (Hm w Hd Ht). destruct (m w) as [[a|e|] w'].
  - by destruct Hm.
  - destruct Hm as (HJ & _ & (E & _ & Hg)). exists e, w'. split_and!; [done|done|auto|congruence].
  - destruct Hm as (_ & _ & Hn). by destruct Hn.
Qed.
Lemma calm_read {A B} d (m : IO A) r a (k : A -> IO B) w : det d m r -> r = Ok a -> w_disk w = d -> calm w ->
  exists w', seq_io m k w = k a w' /\ w_disk w' = d /\ calm w' /\ w_now w' = w_now w.
Proof.
  intros Hm -> Hd Hc. destruct (calm_done (w_now w) d m (fun a' d' => d' = d /\ a' = a) (fun _ => True) (fun _ => True) w) as (a' & w' & E & [H1 H2] & H3 & H4); try done.
  - eapply wp_det; [exact Hm|done|done|intros _; by eexists|]. by intros a' [= ->].
  - exists w'. unfold seq_io. by rewrite E, H2.
Qed.

Definition never_valid : Prop := forall runtime, ~ new_pair_valid m0 old_db old_kr new_db new_kr runtime.

Lemma unfinished d : never_valid -> recoverable d -> exists g, pre d g /\ pg_state g <> stateCleanup.
Proof.
  intros Hn Hd. assert (Hc : forall c, counted m0 old_db old_kr new_db new_kr c -> False).
  { intros c (rt & k & Ho & Hv). apply (Hn rt). by exists k, c. }
  destruct Hd as [(g & Hpre)|[(g & [])|(g & [])]]; [|exfalso; by eapply Hc..].
  exists g. split; [done|]. intros E. eapply Hc, (pr_counts _ _ _ _ _ _ _ Hpre). by rewrite E.
Qed.

(** What an attempt needs, the prepared pair aside. *)
Definition starts_well (a : attempt) : Prop :=
  at_fates a = [] /\ validateControllerVersion (at_version a) = None /\ (len (at_runtime a) =? 0) = false /\
  (len (at_runtime a) <=? passphraseMaxBytes) = true /\ dated (at_now a) = true /\
  old_side_ok m0 old_db old_kr (at_now a) (at_runtime a) (at_version a).

Lemma applyReady_undoes d g a w : never_valid -> starts_well a -> pre d g -> pg_state g <> stateCleanup ->
  w_disk w = d -> w_now w = at_now a -> calm w ->
  exists e w' sf ta, applyReady (mk g) (at_runtime a) (at_version a) w = (Failed e, w') /\
    restored m0 old_db old_kr new_db new_kr sf ta (w_disk w').
Proof.
  intros Hn (_ & _ & _ & _ & Hdt & Hold) Hpre Hne Hd Ht Hc. unfold applyReady.
  destruct (calm_done (at_now a) d _ _ (fun _ => True) (fun _ => True) w
    (wp_prepare m0 old_db old_kr new_db new_kr Hp (at_now a) True (fun _ => True) (fun _ => True) (fun _ _ _ _ => conj I I) d g (at_runtime a) (at_version a)
       Hpre Hne (fun _ => conj Hdt Hold)) Hd Ht Hc) as (m1 & w1 & E1 & [(g1 & -> & Hpre1 & Hs1 & Hne1) Hok] & Hc1 & Ht1).
  unfold seq_io at 1. rewrite E1.
  assert (Hsw : wp (at_now a) False (w_disk w1) (swap_steps (mk g1) (at_runtime a)) (fun _ _ => False)
    (swapping m0 old_db old_kr new_db new_kr (pg_safety g1) (pg_at g1)) (fun _ => True)).
  { eapply wp_mono; [by apply (wp_swap m0 old_db old_kr new_db new_kr Hp (at_now a) False (w_disk w1) g1 (at_runtime a) Hpre1 Hs1 Hne1)| |done|done].
    intros m2 d2 (g2 & _ & _ & _ & _ & Hv). by apply (Hn (at_runtime a)). }
  destruct (calm_failed _ _ _ _ _ w1 Hsw eq_refl Ht1 Hc1) as (e & w2 & E2 & Hsw2 & Hc2 & Ht2).
  destruct (calm_done (at_now a) (w_disk w2) _ _ _ _ w2
    (wp_restoreOld m0 old_db old_kr new_db new_kr Hp (at_now a) True (w_disk w2) (pg_safety g1) (pg_at g1) g1 (at_runtime a)
       (swapping_undone _ _ _ _ _ _ _ _ Hsw2) eq_refl eq_refl (fun _ => Hok)) eq_refl Ht2 Hc2) as ([] & w3 & E3 & Hr & _).
  exists e, w3, (pg_safety g1), (pg_at g1). split; [|done].
  unfold seq_io, catch. rewrite E2. fold (swap_steps (mk g1) (at_runtime a)). by rewrite E3.
Qed.

Lemma det_ownPassphrase d p : (len p =? 0) = false -> (len p <=? passphraseMaxBytes) = true -> det d (ownPassphrase p) (Ok p).
Proof.
  intros L1 L2. unfold ownPassphrase. eapply det_eq.
  - eapply det_bind; [apply det_require|intros ? _; eapply det_bind; [apply det_require|intros ? _; apply det_pure]].
  - by rewrite L1, L2.
Qed.

Lemma calm_dispatch d g a : pre d g -> starts_well a -> exists w', run_attempt d a = dispatch (mk g) (at_runtime a) (at_version a) w' /\
  w_disk w' = d /\ calm w' /\ w_now w' = at_now a.
Proof.
  intros Hpre (Hf & Hv & L1 & L2 & _). unfold run_attempt, ApplyPending.
  set (w := MkWorld d (at_fates a) (at_now a) (at_id a)). assert (Hw : w_disk w = d /\ calm w /\ w_now w = at_now a) by done.
  clearbody w. destruct Hw as (D & C & T).
  assert (Hck : det d (check_io (validateControllerVersion (at_version a))) (Ok tt)) by (eapply det_eq; [apply det_check|by rewrite Hv]).
  assert (Hmk : marker_at d = Ok (mk g)) by (apply (marker_read _ old_db old_kr new_db new_kr); by destruct Hpre).
  assert (Hrm : det d readMarker (Ok (mk g))) by (rewrite <- Hmk; apply det_readMarker; by destruct Hpre).
  match goal with |- context [seq_io ctx_Err ?k w] => destruct (calm_read d touch _ tt k w (det_touch d) eq_refl D C) as (w1 & E1 & D1 & C1 & T1) end.
  unfold ctx_Err. rewrite E1. clear E1.
  match goal with |- context [seq_io (check_io _) ?k w1] => destruct (calm_read d _ _ tt k w1 Hck eq_refl D1 C1) as (w2 & E2 & D2 & C2 & T2) end.
  rewrite E2. clear E2.
  match goal with |- context [seq_io (ownPassphrase _) ?k w2] => destruct (calm_read d _ _ _ k w2 (det_ownPassphrase d _ L1 L2) eq_refl D2 C2) as (w3 & E3 & D3 & C3 & T3) end.
  rewrite E3. clear E3.
  match goal with |- context [seq_io openDataRoot ?k w3] => destruct (calm_read d touch _ tt k w3 (det_touch d) eq_refl D3 C3) as (w4 & E4 & D4 & C4 & T4) end.
  unfold openDataRoot. rewrite E4. clear E4.
  match goal with |- context [seq_io checkNamedDataRoot ?k w4] => destruct (calm_read d touch _ tt k w4 (det_touch d) eq_refl D4 C4) as (w5 & E5 & D5 & C5 & T5) end.
  unfold checkNamedDataRoot. rewrite E5. clear E5.
  match goal with |- context [seq_io readMarker ?k w5] => destruct (calm_read d _ _ (mk g) k w5 Hrm eq_refl D5 C5) as (w6 & E6 & D6 & C6 & T6) end.
  rewrite E6. exists w6. split_and!; [done|done|done|congruence].
Qed.

Lemma attempt_undoes d a : never_valid -> recoverable d -> starts_well a ->
  exists e w' sf ta, run_attempt d a = (Failed e, w') /\ restored m0 old_db old_kr new_db new_kr sf ta (w_disk w').
Proof.
  intros Hn Hrec Ha. destruct (unfinished d Hn Hrec) as (g & Hpre & Hne).
  destruct (calm_dispatch d g a Hpre Ha) as (w & -> & D & C & T). unfold dispatch. change (m_State (mk g)) with (pg_state g).
  pose proof (gp_promoted _ (pr_good _ _ _ _ _ _ _ Hpre)) as Hni.
  rewrite (proj2 (String.eqb_neq _ _) Hni), (proj2 (String.eqb_neq _ _) Hne). by eapply applyReady_undoes.
Qed.
(** ** A marker that is ahead of its files *)

(** Only an I/O error in the undoing of the last step leaves such a disk. Every
    later start refuses it, and changes nothing. *)
Lemma stuck_next d g a : pre d g -> pg_state g = stateCleanup -> ~ at_ d db_path (live_data dbm) -> next d a = d.
Proof.
  intros Hpre Hst Hn.
  assert (Hw : wp (at_now a) False d (ApplyPending (at_runtime a) (at_version a)) (fun _ d' => d' = d) (fun d' => d' = d) (fun _ => True)).
  { unfold ApplyPending. apply wp_touch; [done|done|]. eapply wp_read; [apply det_check|done|done|done|]. intros [] _.
    eapply (wp_bind _ _ _ _ _ _ (fun _ d' => d' = d)).
    { unfold ownPassphrase. eapply wp_read; [apply det_require|done|done|done|]. intros [] _.
      eapply wp_read; [apply det_require|done|done|done|]. intros [] _. by apply wp_pure. }
    intros r d' ->. apply wp_touch; [done|done|]. apply wp_touch; [done|done|].
    assert (Hmk : marker_at d = Ok (mk g)) by (apply (marker_read _ old_db old_kr new_db new_kr); by destruct Hpre).
    eapply wp_reads_bind; [apply det_readMarker; by destruct Hpre|exact Hmk|done|done|].
    change (m_State (mk g)) with (pg_state g). rewrite Hst. cbn [String.eqb].
    apply (wp_not_live m0 old_db old_kr new_db new_kr Hp (at_now a) False d g r); try done.
    intros [Hl _]. apply Hn. by apply (live_at _ dbm). }
  unfold next, run_attempt. specialize (Hw (MkWorld d (at_fates a) (at_now a) (at_id a)) eq_refl eq_refl).
  destruct (ApplyPending _ _ _) as [[r|e|] w']; cbn [snd]; by destruct Hw as (? & _).
Qed.
End Restore.

(** ** What holds of any restore *)

(** C9 (restore swap): a restore never loses the controller. Take any intent
    that a clean shutdown promoted, over any bytes of the database and keyring it
    found, and then any history of starts, each with I/O errors and crashes at
    any of its calls, any passphrase, clock and version. The old pair is still
    there, in place or set aside; or the new pair is in place, with the safety
    artifact that authenticates to the old database under the sealed passphrase,
    and the router-write fence up. The new pair is the one the intent prepared:
    the bytes that were in its prepared files when the controller shut down, with
    the digests the intent recorded (a member whose digest does not change stays
    as it was), and the two validate together. Once the marker is gone the new
    pair is in place, and the receipt for the audit is on the disk. *)
Theorem restore_keeps_the_controller d m owner w r w' l : w_disk w = d -> fresh d m -> MarkCleanShutdown owner w = (Done r, w') ->
  exists old_db old_kr new_db new_kr, at_ d db_path old_db /\ at_ d kr_path old_kr /\
    at_ d (prepared_db m) new_db /\ record_of new_db = m_PreparedDatabaseFile m /\
    at_ d (prepared_kr m) new_kr /\ record_of new_kr = m_PreparedKeyringFile m /\
    let m0 := with_state (with_old m (record_of old_db) (record_of old_kr)) stateReady in
    let d' := history (w_disk w') l in
    (old_kept m0 old_db old_kr d' \/ in_place m0 old_db old_kr new_db new_kr d') /\
    (d_marker d' = Absent -> in_place m0 old_db old_kr new_db new_kr d' /\
       exists g, d_receipt d' = Holds (receiptFor (mk m0 g)) /\ saved m0 old_db old_kr d' (pg_safety g)).
Proof.
  intros Hd Hf Hrun. pose proof (wp_MarkCleanShutdown (w_now w) m d Hf owner w Hd eq_refl) as Hw. rewrite Hrun in Hw.
  destruct Hw as [(a & b & x & y & Ha & Hb & Hx & Hy & Hready) _]. exists a, b, x, y. pose proof Hready as (Hp & _).
  split_and!; [done|done|done|symmetry; apply (pm_new_db _ _ _ _ _ Hp)|done|symmetry; apply (pm_new_kr _ _ _ _ _ Hp)|..];
  apply recoverable_kept, history_recoverable; [apply Hready|]. left. exists untouched. by apply ready_pre.
Qed.

(** C28 (restore swap): crashes only delay a restore. After any history of
    starts that crashes, wherever they fall, interrupted, a start that nothing
    happens to applies the restore, with the result the marker promised, unless
    an earlier one had already finished it: there is no place at which a crash
    leaves a restore that cannot go on. *)
Theorem crashes_only_delay m0 old_db old_kr new_db new_kr d l a : ready m0 old_db old_kr new_db new_kr d ->
  Forall (only_crashes m0 old_db old_kr new_db new_kr) l -> at_fates a = [] -> goes_through m0 old_db old_kr new_db new_kr a ->
  let d' := history d l in
  (exists g, finished m0 old_db old_kr new_db new_kr d' g) \/
  exists r w', run_attempt d' a = (Done r, w') /\ applied m0 old_db old_kr new_db new_kr r (w_disk w').
Proof.
  intros Hready Hl Hcalm Ha d'. pose proof Hready as (Hp & _). apply (last_attempt _ _ _ _ _ Hp); [|done|done].
  apply (history_course _ _ _ _ _ Hp); [|done]. left. exists untouched. split; [by apply ready_pre|done].
Qed.

(** C38 (restore swap): a prepared pair that does not validate is given up.
    After any history of starts, with any I/O errors and crashes, a start that
    nothing happens to fails, and leaves the old pair in place, the prepared pair
    back where it was, whole, and nothing in the rollback directory. *)
Theorem refused_pair_is_undone m0 old_db old_kr new_db new_kr d l a : ready m0 old_db old_kr new_db new_kr d ->
  never_valid m0 old_db old_kr new_db new_kr -> starts_well m0 old_db old_kr a ->
  let d' := history d l in
  exists e w', run_attempt d' a = (Failed e, w') /\ at_ (w_disk w') db_path old_db /\ at_ (w_disk w') kr_path old_kr /\
    prepared_whole (w_disk w') m0 /\ gone (w_disk w') (rollback_dir m0).
Proof.
  intros Hready Hn Ha d'. pose proof Hready as (Hp & _).
  assert (Hrec : recoverable m0 old_db old_kr new_db new_kr d').
  { apply (history_recoverable _ _ _ _ _ Hp). left. exists untouched. by apply ready_pre. }
  destruct (attempt_undoes m0 old_db old_kr new_db new_kr Hp d' a Hn Hrec Ha) as (e & w' & sf & ta & Hrun & Hpre & Hd & Hk & Hg).
  exists e, w'. split; [done|]. split; [apply Hd|]. split; [apply Hk|]. split; [|done].
  exact (both_start_prepared m0 old_db old_kr new_db new_kr Hp _ _ Hpre Hd Hk).
Qed.

(** What is not recovered from: a marker at its last state over files that were
    put back. Every later start, whatever it is given, refuses and changes
    nothing. *)
Theorem stuck_at_cleanup m0 old_db old_kr new_db new_kr d l m : promoted m0 old_db old_kr new_db new_kr ->
  recoverable m0 old_db old_kr new_db new_kr d -> d_marker d = Holds m -> m_State m = stateCleanup ->
  ~ at_ d db_path (live_data (db_m m0 old_db new_db)) -> history d l = d.
Proof.
  intros Hp Hrec Hm Hst Hn. assert (Hpre : exists g, pre m0 old_db old_kr new_db new_kr d g /\ pg_state g = stateCleanup).
  { destruct Hrec as [(g & Hpre)|[(g & Hc)|(g & Hf)]].
    - exists g. split; [done|]. rewrite (pr_marker _ _ _ _ _ _ _ Hpre) in Hm. injection Hm as <-. exact Hst.
    - by destruct (Hn (cm_db _ _ _ _ _ _ _ Hc)).
    - by destruct (Hn (fn_db _ _ _ _ _ _ _ Hf)). }
  destruct Hpre as (g & Hpre & Hg). induction l as [|a l IH]; [done|]. cbn [history fold_left].
  rewrite (stuck_next m0 old_db old_kr new_db new_kr Hp d g a Hpre Hg Hn). exact IH.
Qed.
End History.

(** ** The retention of safety artifacts *)

Lemma fill_keeps keep l n : n ∈ keep -> n ∈ fill keep l.
Proof.
  revert keep. induction l as [|c l IH]; intros keep Hn; [done|]. cbn [fill]. destruct (Nat.leb _ _); [done|].
  apply IH. destruct (bool_decide _); [done|]. apply elem_of_app. by left.
Qed.
Lemma fill_spec l : forall keep, NoDup keep -> NoDup (fill keep l) /\
  (forall n, n ∈ fill keep l -> n ∈ keep \/ n ∈ map cd_name l) /\
  (forall c, c ∈ l -> cd_name c ∉ fill keep l -> (safetyRetentionCount <= length (fill keep l))%nat).
Proof.
  induction l as [|c l IH]; intros keep Hnd; cbn [fill].
  - split_and!; [done|by left|]. by intros c Hc%not_elem_of_nil.
  - destruct (Nat.leb safetyRetentionCount (length keep)) eqn:E.
    + apply Nat.leb_le in E. split_and!; [done|by left|done].
    + set (keep' := if bool_decide (cd_name c ∈ keep) then keep else (keep ++ [cd_name c])%list).
      assert (Hnd' : NoDup keep' /\ cd_name c ∈ keep' /\ forall n, n ∈ keep' -> n ∈ keep \/ n = cd_name c).
      { unfold keep'. destruct (bool_decide _) eqn:Eb; bool_prop; [split_and!; [done|done|by left]|].
        split_and!; [|apply elem_of_app; right; left|].
        - apply NoDup_app. split_and!; [done| |apply NoDup_singleton]. intros x Hx. rewrite list_elem_of_singleton. by intros ->.
        - intros n. rewrite elem_of_app, list_elem_of_singleton. done. }
      destruct Hnd' as (Hnd' & Hin & Hsub). destruct (IH keep' Hnd') as (I1 & I2 & I3). split_and!; [done| |].
      * intros n Hn. cbn [map]. rewrite elem_of_cons. destruct (I2 n Hn) as [H|H]; [|tauto]. destruct (Hsub n H); tauto.
      * intros c' Hc' Hn. apply elem_of_cons in Hc' as [->|Hc']; [by destruct Hn; apply fill_keeps|by apply (I3 c')].
Qed.

Section Retention.
Context (modified : string -> Z).

Lemma as_candidate_name d n c : as_candidate modified d n = Some c -> cd_name c = n /\ artifact_id n = Some (cd_id c).
Proof.
  unfold as_candidate. destruct (artifact_id n); [|done]. destruct (d_nodes d !! _) as [[|perm data|]|]; try done.
  destruct (_ && _ && _); [|done]. by intros [= <-].
Qed.
Lemma NoDup_candidates d : NoDup (map cd_name (candidates modified d)).
Proof.
  unfold candidates. rewrite (merge_sort_Permutation newer). assert (Hnd := NoDup_members d recovery_dir).
  induction Hnd as [|n l Hn Hl IH]; [constructor|]. cbn [omap list_omap]. destruct (as_candidate modified d n) as [c|] eqn:E; [|exact IH].
  cbn [map]. constructor; [|exact IH]. apply as_candidate_name in E as [-> _]. intros Hin. apply list_elem_of_fmap in Hin as (c' & Hc' & Hin).
  apply list_elem_of_omap in Hin as (n' & Hn' & E'). apply as_candidate_name in E' as [E' _]. congruence.
Qed.

Lemma retained_spec preserve d : let l := candidates modified d in
  NoDup (kept preserve l) /\ (forall c, c ∈ l -> cd_id c ∈ preserve -> cd_name c ∈ kept preserve l) /\
  (forall n, n ∈ kept preserve l -> n ∈ map cd_name l) /\
  (forall c, c ∈ l -> cd_name c ∉ kept preserve l -> (safetyRetentionCount <= length (kept preserve l))%nat).
Proof.
  intros l. unfold kept. set (first := map cd_name (List.filter _ l)).
  assert (Hsub : forall c, c ∈ List.filter (fun c => existsb (String.eqb (cd_id c)) preserve) l <-> c ∈ l /\ cd_id c ∈ preserve).
  { intros c. rewrite !list_elem_of_In, filter_In, <- !list_elem_of_In, existsb_exists. split.
    - intros [? (x & Hx & E)]. apply String.eqb_eq in E. split; [done|]. rewrite E. by apply list_elem_of_In.
    - intros [? Hx]. split; [done|]. exists (cd_id c). rewrite String.eqb_refl. split; [by apply list_elem_of_In|done]. }
  assert (Hnd : NoDup first).
  { apply NoDup_map_filter, NoDup_candidates. }
  destruct (fill_spec l first Hnd) as (F1 & F2 & F3). split_and!; [done| | |done].
  - intros c Hc Hp. apply fill_keeps, list_elem_of_fmap. exists c. split; [done|]. by apply Hsub.
  - intros n Hn. destruct (F2 n Hn) as [H|H]; [|done]. apply list_elem_of_fmap in H as (c & -> & H). apply Hsub in H as [H _].
    apply list_elem_of_fmap. by exists c.
Qed.

(** Only artifacts of this list are gone. *)
Definition pruned (names : list string) (d d' : disk) : Prop :=
  (forall q, d_nodes d' !! q = d_nodes d !! q \/ exists n, n ∈ names /\ q = [recoveryDirName; n]) /\
  d_marker d' = d_marker d /\ d_receipt d' = d_receipt d /\ d_suppression d' = d_suppression d.

Lemma wp_remove_all t d0 names : forall l d, pruned names d0 d -> (forall c, c ∈ l -> cd_name c ∈ names) ->
  wp t False d (fold_right (fun c rest => Remove [recoveryDirName; cd_name c] ;; rest) (pure tt) l)
    (fun _ d' => pruned names d0 d') (pruned names d0) (fun _ => True).
Proof.
  induction l as [|c l IH]; intros d Hd Hl; cbn [fold_right]; [by apply wp_pure|].
  assert (Hrm : forall u d1, remove_at [recoveryDirName; cd_name c] d = (u, d1) -> pruned names d0 d1).
  { intros u d1. unfold remove_at. assert (Hdel : pruned names d0 (with_nodes d (delete [recoveryDirName; cd_name c] (d_nodes d)))).
    { destruct Hd as (Hd & ? & ? & ?). split_and!; [|done..]. intros q. cbn [with_nodes d_nodes].
      destruct (decide (q = [recoveryDirName; cd_name c])) as [->|Hq]; [right; exists (cd_name c); split; [apply Hl; left|done]|].
      by rewrite lookup_delete_ne. }
    destruct (d_nodes d !! _) as [[| |]|]; try (by intros [= _ <-]). destruct (bool_decide _); by intros [= _ <-]. }
  eapply (wp_bind _ _ _ _ _ _ (fun _ d1 => pruned names d0 d1)).
  - apply wp_call; [done|done| |]; [intros [] d1 H|intros e d1 H; split; [|by intros []]]; by eapply Hrm.
  - intros [] d1 Hd1. apply IH; [done|]. intros c' Hc'. apply Hl. by right.
Qed.

Lemma det_preserved {A} d absent (m : IO A) (f : A -> string) r : det d m r ->
  det d (preserved_id absent (a <- m; pure (f a)))
    (match r with Ok a => Ok [f a] | Err e => if Is absent e then Ok [] else Err e end).
Proof.
  intros Hm. eapply det_catch; [eapply det_bind; [eapply det_bind; [exact Hm|intros a _; apply det_pure]|intros b _; apply det_pure]| | |].
  - intros l. destruct r; cbn; [by intros [= <-]|done].
  - intros e. destruct r as [|e']; cbn; [done|]. intros [= ->]. destruct (Is absent e); [apply det_pure|apply det_throw].
  - intros e Ht w Hw. rewrite Ht, thrown. split_and!; [done|done|apply goes_on_refl].
Qed.

(** An artifact that is removed is of no restore that is still of interest, and
    three others stay. *)
Definition expendable (d : disk) (current : string) (c : candidate) : Prop :=
  cd_id c <> current /\ (forall m, marker_found d = Ok m -> cd_id c <> m_ID m) /\
  (forall r, receipt_at d = Ok r -> cd_id c <> ar_RestoreID r) /\
  (forall s, suppression_at d = Ok s -> cd_id c <> sm_RestoreID s).

Definition excess (preserve : list string) (d : disk) : list string :=
  map cd_name (List.filter (fun c => bool_decide (cd_name c ∉ kept preserve (candidates modified d))) (candidates modified d)).
Definition spares (d : disk) (current : string) (preserve : list string) : Prop :=
  current ∈ preserve /\ (forall m, marker_found d = Ok m -> m_ID m ∈ preserve) /\
  (forall r, receipt_at d = Ok r -> ar_RestoreID r ∈ preserve) /\ (forall s, suppression_at d = Ok s -> sm_RestoreID s ∈ preserve).

Lemma wp_prune t d current : let J := fun d1 => d1 = d \/ exists preserve, spares d current preserve /\ pruned (excess preserve d) d d1 in
  wp t False d (pruneSafetyArtifacts modified current) (fun _ d1 => J d1) J (fun _ => True).
Proof.
  intros J. assert (HJ : J d) by by left. unfold pruneSafetyArtifacts.
  eapply wp_read; [apply (det_preserved d NoPendingIntent readMarker m_ID), det_marker_found|done|done|done|]. intros l1 E1.
  eapply wp_read; [apply (det_preserved d NoAppliedReceipt readAppliedReceipt ar_RestoreID), det_look|done|done|done|]. intros l2 E2.
  eapply wp_read; [apply (det_preserved d NotExist readSuppression sm_RestoreID), det_look|done|done|done|]. intros l3 E3.
  eapply wp_read; [apply det_look|done|done|done|]. intros l [= <-].
  set (preserve := (current :: l1 ++ l2 ++ l3)%list).
  assert (Hs : spares d current preserve).
  { split_and!; [left|intros m Em|intros r Er|intros s Es]; unfold preserve; rewrite ?elem_of_cons, ?elem_of_app; right.
    - left. rewrite Em in E1. injection E1 as <-. left.
    - right. left. rewrite Er in E2. injection E2 as <-. left.
    - right. right. rewrite Es in E3. injection E3 as <-. left. }
  set (gone_ := List.filter _ _).
  assert (Hle : forall d1, pruned (excess preserve d) d d1 -> J d1) by (intros d1 ?; right; by exists preserve).
  eapply (wp_bind _ _ _ _ _ _ (fun _ d1 => J d1)).
  - eapply wp_mono; [apply (wp_remove_all t d (excess preserve d))|intros [] d1; apply Hle|exact Hle|done].
    + split_and!; auto.
    + intros c Hc. unfold excess. apply list_elem_of_fmap. by exists c.
  - intros [] d1 Hd1. destruct (Nat.eqb _ 0); [by apply wp_pure|]. eapply wp_det; [apply det_touch|done|done|done|by intros [] _].
Qed.

(** C13 (restore swap): retention. However the pruning of safety artifacts ends,
    by an I/O error or a crash too, the only paths it changes are artifacts; none
    of those is of the current restore, of a pending one, of one whose receipt is
    not yet durable elsewhere or of one whose fence is still up; and each leaves
    at least three others where they were. *)
Theorem pruning_spares current w :
  let d := w_disk w in
  let d' := w_disk (snd (pruneSafetyArtifacts modified current w)) in
  d_marker d' = d_marker d /\ d_receipt d' = d_receipt d /\ d_suppression d' = d_suppression d /\
  forall q, d_nodes d' !! q <> d_nodes d !! q ->
    exists c, c ∈ candidates modified d /\ q = [recoveryDirName; cd_name c] /\ expendable d current c /\
      exists others, NoDup others /\ (3 <= length others)%nat /\ forall n, n ∈ others ->
        n ∈ map cd_name (candidates modified d) /\ d_nodes d' !! [recoveryDirName; n] = d_nodes d !! [recoveryDirName; n].
Proof.
  intros d d'. set (J := fun d1 => d1 = d \/ exists preserve, spares d current preserve /\ pruned (excess preserve d) d d1).
  assert (Hw : wp (w_now w) False d (pruneSafetyArtifacts modified current) (fun _ d1 => J d1) J (fun _ => True)) by apply wp_prune.
  assert (HJ : J d').
  { specialize (Hw w eq_refl eq_refl). unfold d'. destruct (pruneSafetyArtifacts modified current w) as [[u|e|] w']; cbn [snd]; by destruct Hw. }
  destruct HJ as [->|(preserve & (S1 & S2 & S3 & S4) & Hq & Hm & Hr & Hs)].
  { split_and!; try done. }
  split_and!; [done..|]. intros q Hne. destruct (Hq q) as [?|(n & Hn & ->)]; [done|]. unfold excess in Hn.
  apply list_elem_of_fmap in Hn as (c & -> & Hc). apply list_elem_of_In, filter_In in Hc as [Hc Hex]. apply list_elem_of_In in Hc.
  apply bool_decide_eq_true in Hex. destruct (retained_spec preserve d) as (K1 & K2 & K3 & K4).
  assert (Hnp : cd_id c ∉ preserve) by (intros Hin; by apply Hex, K2). exists c. split_and!; [done|done|split_and!|].
  - by intros E; rewrite E in Hnp.
  - intros m Em E. apply Hnp. rewrite E. by apply S2.
  - intros r Er E. apply Hnp. rewrite E. by apply S3.
  - intros s Es E. apply Hnp. rewrite E. by apply S4.
  - exists (kept preserve (candidates modified d)). split_and!; [done|by apply (K4 c)|]. intros n Hn. split; [by apply K3|].
    destruct (Hq [recoveryDirName; n]) as [?|(n' & Hn' & E)]; [done|]. injection E as <-. exfalso. unfold excess in Hn'.
    apply list_elem_of_fmap in Hn' as (c' & -> & Hc'). apply list_elem_of_In, filter_In in Hc' as [_ Hc']. by apply bool_decide_eq_true in Hc'.
Qed.
End Retention.

(** ** Who owns the prepared pair *)

(** A handler that may end well. *)
Lemma wp_try t {A} d (m : IO A) h (Q : A -> disk -> Prop) (J J' : disk -> Prop) : wp t False d m Q J (fun _ => True) ->
  (forall d1, J d1 -> J' d1) -> (forall e d1, J d1 -> wp t False d1 (h e) Q J' (fun _ => True)) ->
  wp t False d (catch m h) Q J' (fun _ => True).
Proof.
  intros Hm HJ Hh w Hw Ht. specialize (Hm w Hw Ht). unfold catch. destruct (m w) as [[a|e|] w1]; [done| |].
  - destruct Hm as (H1 & _ & Hg). assert (Ht1 : w_now w1 = t) by (destruct Hg; congruence).
    specialize (Hh e _ H1 w1 eq_refl Ht1). destruct (h e w1) as [[b|e'|] w2].
    + destruct Hh. split; [done|by eapply goes_on_trans].
    + destruct Hh as (? & _ & ?). split_and!; [done|done|by eapply goes_on_trans].
    + destruct Hh as (? & _ & Hn). split_and!; [done|done|]. intros Hc. apply Hn. by apply Hg.
  - destruct Hm as (? & _ & ?). by split_and!; [apply HJ| |].
Qed.

Section Ownership.
Context `{V : Vault} (t : string) (prepared : PreparedPair) (old : option keeper) (passphrase owner : string) (d : disk).

(** Nothing but the recovery directory was made. *)
Definition unpublished (d1 : disk) : Prop := d_marker d1 = d_marker d /\ forall q, q <> recovery_dir -> d_nodes d1 !! q = d_nodes d !! q.
Definition published (m : marker) (d1 : disk) : Prop :=
  d_marker d1 = Holds m /\ forall q, q <> recovery_dir -> d_nodes d1 !! q = d_nodes d !! q.

Lemma unpublished_refl : unpublished d.
Proof. by split. Qed.

Lemma wp_random d1 {A} (k : string -> IO A) Q J C : (forall id, wp t False d1 (k id) Q J C) -> wp t False d1 (id <- random_id; k id) Q J C.
Proof. intros Hk w Hw Ht. unfold seq_io, random_id. by apply Hk. Qed.

Lemma wp_ensureRecovery : wp t False d ensureRecoveryDir (fun _ d1 => unpublished d1) unpublished (fun _ => True).
Proof.
  pose proof unpublished_refl. unfold ensureRecoveryDir. eapply wp_read; [apply det_look|done|done|done|]. intros missing _.
  eapply (wp_bind _ _ _ _ _ _ (fun _ d1 => unpublished d1)).
  - destruct missing; [|by apply wp_pure]. eapply (wp_bind _ _ _ _ _ _ (fun _ d1 => unpublished d1)).
    + assert (Hmk : forall u d1, mkdir_at recovery_dir d = (u, d1) -> unpublished d1).
      { intros u d1. unfold mkdir_at. destruct (d_nodes d !! _); [by intros [= _ <-]|]. destruct (has_parent _ _); intros [= _ <-]; [|done].
        split; [done|]. intros q Hq. cbn [with_nodes d_nodes]. by rewrite lookup_insert_ne. }
      apply wp_wrap, wp_call; [done|done| |]; [intros [] d1 E|intros e d1 E; split; [|by intros []]]; by eapply Hmk.
    + intros [] d1 H1. eapply wp_det; [apply det_touch|done|done|done|done].
  - intros [] d1 H1. eapply wp_det; [|done|done|done|done]. unfold validateRecoveryDir.
    eapply det_bind; [apply det_look|intros ok _; eapply det_bind; [apply det_require|intros ? _; apply det_touch]].
Qed.

Lemma det_child d1 parts : exists r, det d1 (directChildMember parts) r.
Proof.
  unfold directChildMember. destruct parts as [|a [|b [|c l]]]; try (eexists; apply det_throw).
  eexists. eapply det_bind; [apply det_require|intros ? _; apply det_pure].
Qed.
Lemma det_some_bind {A B} d1 (m : IO A) (k : A -> IO B) : (exists r, det d1 m r) -> (forall a, exists r, det d1 (k a) r) ->
  exists r, det d1 (seq_io m k) r.
Proof.
  intros [r Hr] Hk. destruct r as [a|e].
  - destruct (Hk a) as [r' Hr']. exists r'. apply (det_bind d1 m k (Ok a) (fun _ => r') Hr). by intros ? [= <-].
  - exists (Err e). apply (det_bind d1 m k (Err e) (fun _ => Err e) Hr). done.
Qed.
Lemma det_inspect d1 : exists r, det d1 (inspectPrepared prepared) r.
Proof.
  unfold inspectPrepared. apply det_some_bind; [destruct (det_child d1 (pp_Database prepared)); eexists; by apply det_wrap|]. intros [dir database].
  apply det_some_bind; [destruct (det_child d1 (pp_Keyring prepared)); eexists; by apply det_wrap|]. intros [keyDir keyring].
  apply det_some_bind; [eexists; apply det_require|]. intros _. apply det_some_bind; [eexists; apply det_exact|]. intros _.
  apply det_some_bind; [eexists; apply det_wrap, det_hash|]. intros ?. apply det_some_bind; [eexists; apply det_wrap, det_hash|]. intros ?.
  do 4 (apply det_some_bind; [eexists; apply det_touch|]; intros _). eexists. apply det_pure.
Qed.

Lemma wp_intent_marker : wp t False d (intent_marker prepared old passphrase owner)
  (fun m d1 => unpublished d1 /\ d_marker d1 = Absent /\ m_State m = stateIntent) unpublished (fun _ => True).
Proof.
  pose proof unpublished_refl. unfold intent_marker. apply wp_touch; [done|done|]. destruct old as [k|]; [|by apply wp_throw].
  eapply wp_read; [apply det_check|done|done|done|]. intros [] _.
  eapply (wp_bind _ _ _ _ _ _ (fun _ d1 => d1 = d)).
  { unfold ownPassphrase. eapply wp_read; [apply det_require|done|done|done|]. intros [] _.
    eapply wp_read; [apply det_require|done|done|done|]. intros [] _. by apply wp_pure. }
  intros pass d0 ->. apply wp_touch; [done|done|]. eapply wp_bind; [apply wp_ensureRecovery|]. intros [] d1 H1.
  eapply wp_read; [apply det_look|done|done|done|]. intros present Ep.
  eapply wp_read; [apply det_require|done|done|done|]. intros [] Er. destruct (bool_decide (present = None)) eqn:Eb; [|done].
  apply bool_decide_eq_true in Eb. subst present.
  assert (Habs : d_marker d1 = Absent) by (unfold marker_present in Ep; by destruct (d_marker d1)).
  destruct (det_inspect d1) as [r Hr]. eapply wp_read; [exact Hr|done|done|done|]. intros paths _.
  apply wp_random. intros id. apply wp_now. eapply wp_read; [apply det_require|done|done|done|]. intros [] _.
  eapply wp_read; [apply det_wrap, det_lift|done|done|done|]. intros sealed _. apply wp_touch; [done|done|]. by apply wp_pure.
Qed.

Lemma published_of m d1 : unpublished d1 -> published m (with_marker d1 (Holds m)).
Proof. intros [_ H]. by split. Qed.

Lemma wp_writeMarkerNew m d1 : unpublished d1 -> d_marker d1 = Absent ->
  wp t False d1 (writeMarkerNew m) (fun _ d2 => published m d2 /\ validateMarker m = None)
    (fun d2 => unpublished d2 \/ published m d2) (fun _ => True).
Proof.
  intros H1 Habs. assert (HJ : unpublished d1 \/ published m d1) by by left. unfold writeMarkerNew.
  eapply wp_read; [apply det_check|done|done|done|]. intros [] Ev. destruct (validateMarker m) eqn:Em; [done|].
  pose proof (published_of m d1 H1) as H2. unfold write_new. apply wp_touch; [done|done|].
  eapply (wp_bind _ _ _ _ _ _ (fun _ d2 => d2 = with_marker d1 (Holds m))).
  - apply wp_call; [done|done| |]; rewrite Habs; [by intros [] d2 [= <-]|done].
  - intros [] d2 ->. apply wp_touch; [by right|done|]. apply wp_touch; [by right|done|]. eapply wp_det; [apply det_touch|by right|done|done|done].
Qed.

(** What the caller is told, and what is on the disk. *)
Definition told (c : creation) (d2 : disk) : Prop :=
  (forall q, q <> recovery_dir -> d_nodes d2 !! q = d_nodes d !! q) /\
  match c with
  | Created r => d_marker d = Absent /\ exists m, d_marker d2 = Holds m /\ validateMarker m = None /\ m_State m = stateIntent /\ r = intentResult m
  | Refused _ => d_marker d2 = d_marker d
  | Retained _ _ => True
  end.

Lemma wp_rollback m d1 cause : d_marker d = Absent -> published m d1 ->
  wp t False d1 (rollbackPublishedIntent m cause) told (fun _ => True) (fun _ => True).
Proof.
  intros Habs [Hm Hn]. unfold rollbackPublishedIntent.
  eapply (wp_bind _ _ _ _ _ _ (fun _ d2 => d2 = d1)).
  { eapply (wp_try _ _ _ _ _ (fun d2 => d2 = d1)); [|done|].
    - eapply wp_read; [apply det_marker_found|done|done|done|]. intros c _. by apply wp_pure.
    - intros e d2 ->. by apply wp_pure. }
  intros current d2 ->. destruct (bool_decide _); [|by apply wp_pure].
  eapply (wp_try _ _ _ _ _ (fun d2 => forall q, q <> recovery_dir -> d_nodes d2 !! q = d_nodes d !! q)); [|done|].
  - unfold removeMarker. eapply (wp_bind _ _ _ _ _ _ (fun _ d2 => d2 = with_marker d1 Absent)).
    + eapply (wp_bind _ _ _ _ _ _ (fun (_ : bool) d2 => d2 = with_marker d1 Absent)).
      * apply wp_call; [done|done| |]; unfold remove_marker_at; rewrite Hm; [by intros b d2 [= _ <-]|done].
      * intros b d2 ->. destruct b; [eapply wp_det; [apply det_touch|done|done|done|done]|by apply wp_pure].
    + intros [] d2 ->. apply wp_pure. split; [exact Hn|]. by rewrite Habs.
  - intros e d2 H2. by apply wp_pure.
Qed.

Lemma wp_reconcile m d1 cause : d_marker d = Absent -> unpublished d1 \/ published m d1 ->
  wp t False d1 (reconcileIntentPublicationFailure m cause) told (fun _ => True) (fun _ => True).
Proof.
  intros Habs Hd. assert (Hn : forall q, q <> recovery_dir -> d_nodes d1 !! q = d_nodes d !! q) by (destruct Hd as [[_ ?]|[_ ?]]; done).
  unfold reconcileIntentPublicationFailure.
  eapply (wp_bind _ _ _ _ _ _ (fun found d2 => d2 = d1 /\ match found with Some true => d_marker d1 <> Absent | None => d_marker d1 = Absent | _ => True end)).
  { eapply (wp_try _ _ _ _ _ (fun d2 => d2 = d1)); [|done|].
    - eapply wp_det; [apply det_look|done|done|done|]. unfold marker_present. intros found. destruct (d_marker d1); by intros [= <-].
    - intros e d2 ->. by apply wp_pure. }
  intros found d2 [-> Hf]. destruct found as [[]|].
  - apply wp_rollback; [done|]. destruct Hd as [[E _]|?]; [by rewrite E in Hf|done].
  - by apply wp_pure.
  - apply wp_pure. split; [done|]. by rewrite Habs.
Qed.

Lemma wp_CreateIntent : wp t False d (CreateIntent prepared old passphrase owner) told (fun _ => True) (fun _ => True).
Proof.
  unfold CreateIntent. eapply (wp_bind _ _ _ _ _ _ (fun r d1 => match r with
    | inl m => unpublished d1 /\ d_marker d1 = Absent /\ m_State m = stateIntent | inr _ => unpublished d1 end)).
  { eapply (wp_try _ _ _ _ _ unpublished); [|done|].
    - eapply wp_bind; [apply wp_intent_marker|]. intros m d1 H1. by apply wp_pure.
    - intros e d1 H1. by apply wp_pure. }
  intros [m|e] d1; [|intros [H1 H2]; by apply wp_pure]. intros (H1 & Habs1 & Hst).
  assert (Habs : d_marker d = Absent) by (destruct H1 as [E _]; congruence).
  eapply (wp_bind _ _ _ _ _ _ (fun r d2 => match r with None => published m d2 /\ validateMarker m = None | Some _ => unpublished d2 \/ published m d2 end)).
  { eapply (wp_try _ _ _ _ _ (fun d2 => unpublished d2 \/ published m d2)); [|done|].
    - eapply wp_bind; [by apply wp_writeMarkerNew|]. intros [] d2 H2. by apply wp_pure.
    - intros e d2 H2. by apply wp_pure. }
  intros [cause|] d2 H2; [by apply wp_reconcile|]. destruct H2 as [H2 Hv].
  eapply (wp_bind _ _ _ _ _ _ (fun _ d3 => published m d3)).
  { eapply (wp_try _ _ _ _ _ (published m)); [|done|].
    - apply wp_touch; [done|done|]. by apply wp_pure.
    - intros e d3 H3. by apply wp_pure. }
  intros [cause|] d3 H3; [by apply wp_rollback|]. apply wp_pure. destruct H3 as [Hm Hn]. split; [done|]. split; [done|]. by exists m.
Qed.
End Ownership.

(** Who owns the prepared pair: a refused intent leaves the marker as it was, a
    created one is the valid marker on a disk that had none, and no answer
    touches anything else but the recovery directory. *)
Theorem intent_ownership `{V : Vault} prepared old passphrase owner w c w' :
  CreateIntent prepared old passphrase owner w = (Done c, w') ->
  (forall q, q <> recovery_dir -> d_nodes (w_disk w') !! q = d_nodes (w_disk w) !! q) /\
  match c with
  | Created r => d_marker (w_disk w) = Absent /\ exists m, d_marker (w_disk w') = Holds m /\ validateMarker m = None /\
                   m_State m = stateIntent /\ r = intentResult m
  | Refused _ => d_marker (w_disk w') = d_marker (w_disk w)
  | Retained _ _ => True
  end.
Proof.
  intros Hrun. pose proof (wp_CreateIntent (w_now w) prepared old passphrase owner (w_disk w) w eq_refl eq_refl) as Hw.
  rewrite Hrun in Hw. apply Hw.
Qed.

(** ** Restore swap: concrete restores

    A controller with an old and a prepared pair, from the intent to the end of
    the restore, over backups and keyrings that are as simple as their laws
    allow. *)

Module RestoreRuns.

(** What follows a prefix. *)
Fixpoint after (p a : string) : option string :=
  match p, a with
  | "", _ => Some a
  | String c p', String c' a' => if Ascii.eqb c c' then after p' a' else None
  | _, _ => None
  end.
Lemma after_app p x : after p (p ++ x) = Some x.
Proof. induction p as [|c p IH]; [done|]. change (String c p ++ x) with (String c (p ++ x)). cbn [after]. by rewrite Ascii.eqb_refl. Qed.

Definition open_ring (keyring passphrase : string) : res fault string :=
  if String.eqb passphrase "secret" && HasPrefix keyring "K" then Ok keyring else Err (Text "wrong passphrase").
Definition seal_with (k passphrase aad : string) : res fault string := Ok ("sealed:" ++ hex_sha256 (k ++ aad) ++ ":" ++ passphrase).
Definition unseal_with (k sealed aad : string) : res fault string :=
  match after ("sealed:" ++ hex_sha256 (k ++ aad) ++ ":") sealed with Some p => Ok p | None => Err (Text "authentication failed") end.
Definition backup (k db passphrase version : string) (schema : Z) (created : string) : res fault string :=
  let artifact := "backup:" ++ passphrase ++ ":" ++ db in
  if len artifact <=? safetyMaxBytes then Ok artifact else Err (Text "too large").
Definition extract (artifact passphrase : string) : res fault fileRecord :=
  match after ("backup:" ++ passphrase ++ ":") artifact with Some db => Ok (record_of db) | None => Err (Text "authentication failed") end.
Definition counts_of (db : string) : Z := len db.
Definition validate (db k : string) : res fault recoveryDTO :=
  if bool_decide (db ∈ ["OLD"; "NEW"]) then Ok (MkRecovery 25 (counts_of db) 0 0 0 0) else Err (Text "schema").

Lemma app_assoc_s (a b c : string) : (a ++ b) ++ c = a ++ b ++ c.
Proof.
  induction a as [|x a IH]; [done|]. change (String x ((a ++ b) ++ c) = String x (a ++ b ++ c)). by rewrite IH.
Qed.

#[local] Program Instance simple_vault : Vault := {|
  keeper := string; Open := open_ring; Seal := seal_with; Unseal := unseal_with; Create := backup; Extract := extract;
  Validate := validate
|}.
Next Obligation.
  intros keyring p1 p2 k1 k2. unfold open_ring. destruct (_ && _); [|done]. destruct (_ && _); [|done]. congruence.
Qed.
Next Obligation.
  intros k db pass version schema t artifact. unfold backup, extract. destruct (_ <=? _) eqn:E; [|done]. intros [= <-].
  assert (Ea : "backup:" ++ pass ++ ":" ++ db = ("backup:" ++ pass ++ ":") ++ db) by by rewrite !app_assoc_s.
  split; [by rewrite Ea, after_app|]. apply Z.leb_le in E. split; [|exact E]. unfold len.
  change (String.length ("backup:" ++ pass ++ ":" ++ db)) with (7 + String.length (pass ++ ":" ++ db))%nat. lia.
Qed.

(** ** A controller before its restore *)

Definition the_id : string := "0123456789abcdef0123456789abcdef".
Definition prepared_files (new_db : string) : gmap path node :=
  {[ [recoveryDirName] := Dir private_dir; db_path := File private_file "OLD"; kr_path := File private_file "K1";
     ["oonfeewrt.db-wal"] := File private_file "";
     ["prep"] := Dir private_dir; ["prep"; "db"] := File private_file new_db; ["prep"; "kr"] := File private_file "K2" ]}.
Definition the_pair : PreparedPair := MkPrepared ["prep"; "db"] ["prep"; "kr"] 1 "admin" "preview" "plan".
Definition world_of (d : disk) (fates : list fate) : world := MkWorld d fates "2024-05-06T07:08:09Z" the_id.
Definition start_disk (new_db : string) : disk := MkDisk (prepared_files new_db) Absent Absent Absent.

Definition the_creation (new_db : string) : outcome creation * world :=
  CreateIntent the_pair (Some "K1") "export" "instance" (world_of (start_disk new_db) []).
Definition after_intent (new_db : string) : creation * disk :=
  match the_creation new_db with
  | (Done c, w) => (c, w_disk w)
  | (_, w) => (Refused io_error, w_disk w)
  end.
Definition intended (new_db : string) : disk := snd (after_intent new_db).
Definition after_shutdown (new_db : string) : outcome IntentResult * world :=
  MarkCleanShutdown "instance" (world_of (intended new_db) []).
Definition promoted_disk (new_db : string) : disk := w_disk (snd (after_shutdown new_db)).
Definition now_at (fates : list fate) : attempt := Attempt fates "2024-05-06T08:00:00Z" the_id "secret" "v1".

Definition marker_state (d : disk) : string := match d_marker d with Holds m => m_State m | _ => "" end.
Definition is_done {A} (r : outcome A * world) : bool := match fst r with Done _ => true | _ => false end.
Definition data_of (d : disk) (p : path) : string := match data_at d p with Ok x => x | Err _ => "" end.

Example the_intent_is_created : (match fst (after_intent "NEW") with Created _ => true | _ => false end) = true /\
  marker_state (intended "NEW") = stateIntent.
Proof. vm_compute. split; reflexivity. Qed.
Example the_shutdown_promotes : is_done (after_shutdown "NEW") = true /\ marker_state (promoted_disk "NEW") = stateReady.
Proof. vm_compute. split; reflexivity. Qed.
Example the_restore_is_applied : let r := run_attempt (promoted_disk "NEW") (now_at []) in
  is_done r = true /\ data_of (w_disk (snd r)) db_path = "NEW" /\ data_of (w_disk (snd r)) kr_path = "K2" /\
  d_marker (w_disk (snd r)) = Absent.
Proof. vm_compute. split_and!; reflexivity. Qed.

(** ** The hypotheses hold *)

Definition default_marker : marker := MkMarker "" 0 "" "" "" "" "" "" "" no_file no_file 0 "" "" "" "" no_file no_file no_file "" no_recovery.
Definition marker_of (d : disk) : marker := match d_marker d with Holds m => m | _ => default_marker end.

Lemma no_members d dir : d_nodes d !! dir = None -> members d dir = [] -> gone d dir.
Proof.
  intros H1 H2. split; [done|]. intros n. unfold none. destruct (d_nodes d !! (dir ++ [n])%list) as [x|] eqn:E; [|done].
  assert (Hin : n ∈ members d dir) by (apply elem_of_members; by eexists). rewrite H2 in Hin. by apply not_elem_of_nil in Hin.
Qed.

Lemma the_intent_is_fresh new_db : new_db = "NEW" \/ new_db = "BAD" -> fresh (intended new_db) (marker_of (intended new_db)).
Proof.
  intros [-> | ->].
  all: constructor; [vm_compute; reflexivity..|apply no_members; vm_compute; reflexivity|vm_compute; reflexivity].
Qed.

Definition the_marker (new_db : string) : marker := marker_of (promoted_disk new_db).

Lemma at_unique d p x y : at_ d p x -> at_ d p y -> x = y.
Proof. unfold at_. intros -> H. by injection H. Qed.

Lemma the_disk_is_ready new_db : new_db = "NEW" \/ new_db = "BAD" -> ready (the_marker new_db) "OLD" "K1" new_db "K2" (promoted_disk new_db).
Proof.
  intros H. pose proof (the_intent_is_fresh new_db H) as Hf.
  assert (Hw : w_disk (world_of (intended new_db) []) = intended new_db) by done.
  pose proof (wp_MarkCleanShutdown _ _ _ Hf "instance" (world_of (intended new_db) []) Hw eq_refl) as Hrun.
  assert (Hout : fst (after_shutdown new_db) = Done (intentResult (marker_of (intended new_db)))).
  { clear -H. destruct H as [-> | ->]; vm_compute; reflexivity. }
  fold (after_shutdown new_db) in Hrun. destruct (after_shutdown new_db) as [o w'] eqn:Eo. cbn [fst] in Hout. subst o.
  destruct Hrun as [(a & b & x & y & Ha & Hb & _ & _ & Hr) _].
  assert (Ew : w_disk w' = promoted_disk new_db) by (unfold promoted_disk; by rewrite Eo). rewrite Ew in Hr.
  assert (Em : with_state (with_old (marker_of (intended new_db)) (record_of a) (record_of b)) stateReady = the_marker new_db).
  { destruct Hr as (_ & _ & _ & _ & Hm & _). unfold the_marker, marker_of at 2. by rewrite Hm. }
  rewrite Em in Hr. pose proof Hr as (_ & Hdb & Hkr & _ & _ & _ & _ & _ & Hx & Hy & _).
  assert (Hall : at_ (promoted_disk new_db) db_path "OLD" /\ at_ (promoted_disk new_db) kr_path "K1" /\
    at_ (promoted_disk new_db) (prepared_db (the_marker new_db)) new_db /\ at_ (promoted_disk new_db) (prepared_kr (the_marker new_db)) "K2").
  { clear -H. destruct H as [-> | ->]; vm_compute; split_and!; reflexivity. }
  destruct Hall as (A1 & A2 & A3 & A4). rewrite (at_unique _ _ _ _ Hdb A1), (at_unique _ _ _ _ Hkr A2), (at_unique _ _ _ _ Hx A3), (at_unique _ _ _ _ Hy A4) in Hr.
  exact Hr.
Qed.

Lemma the_attempt_goes_through fates : goes_through (the_marker "NEW") "OLD" "K1" "NEW" "K2" (now_at fates).
Proof.
  unfold goes_through, attempt_ok. split_and!; [vm_compute; reflexivity..| |].
  - exists "K1", (MkRecovery 25 3 0 0 0 0), "export". split_and!; [vm_compute; reflexivity..|]. eexists. vm_compute. reflexivity.
  - exists "K2", (MkRecovery 25 3 0 0 0 0). split_and!; vm_compute; reflexivity.
Qed.
Lemma the_bad_pair_never_validates : never_valid (the_marker "BAD") "OLD" "K1" "BAD" "K2".
Proof.
  intros runtime (k & c & _ & Hv). revert Hv. assert (E : live_data (db_m (the_marker "BAD") "OLD" "BAD") = "BAD") by (vm_compute; reflexivity).
  rewrite E. intros Hv. vm_compute in Hv. discriminate.
Qed.
Lemma the_attempt_starts_well : starts_well (the_marker "BAD") "OLD" "K1" (now_at []).
Proof.
  unfold starts_well. split_and!; [vm_compute; reflexivity..|].
  exists "K1", (MkRecovery 25 3 0 0 0 0), "export". split_and!; [vm_compute; reflexivity..|]. eexists. vm_compute. reflexivity.
Qed.

(** Starts that crash at several places, one after another. *)
Definition crash_after (n : nat) : attempt := now_at (repeat Works n ++ [Crashes])%list.
Definition many_crashes : list attempt := map crash_after [75%nat; 90%nat; 100%nat; 105%nat; 60%nat; 110%nat].

Lemma many_crashes_only : Forall (only_crashes (the_marker "NEW") "OLD" "K1" "NEW" "K2") many_crashes.
Proof.
  apply Forall_map, Forall_forall. intros n _. split; [|apply the_attempt_goes_through]. cbn [crash_after now_at at_fates].
  rewrite elem_of_app, list_elem_of_singleton. intros [H|H]; [|done]. apply list_elem_of_In, repeat_spec in H. done.
Qed.

(** A restore with one of everything. *)
Definition troubled : list attempt :=
  [now_at (repeat Works 80 ++ [Fails] ++ repeat Works 30 ++ [Crashes])%list; crash_after 95; now_at [Works; Works; Fails]; now_at []].

Lemma restore_keeps_the_controller_witness : fresh (intended "NEW") (marker_of (intended "NEW")) /\
  exists old_db old_kr new_db new_kr, at_ (intended "NEW") db_path old_db /\ at_ (intended "NEW") kr_path old_kr /\
    at_ (intended "NEW") (prepared_db (marker_of (intended "NEW"))) new_db /\
    record_of new_db = m_PreparedDatabaseFile (marker_of (intended "NEW")) /\
    at_ (intended "NEW") (prepared_kr (marker_of (intended "NEW"))) new_kr /\
    record_of new_kr = m_PreparedKeyringFile (marker_of (intended "NEW")) /\
    let m0 := with_state (with_old (marker_of (intended "NEW")) (record_of old_db) (record_of old_kr)) stateReady in
    let d' := history (w_disk (snd (after_shutdown "NEW"))) troubled in
    (old_kept m0 old_db old_kr d' \/ in_place m0 old_db old_kr new_db new_kr d') /\
    (d_marker d' = Absent -> in_place m0 old_db old_kr new_db new_kr d' /\
       exists g, d_receipt d' = Holds (receiptFor (mk m0 g)) /\ saved m0 old_db old_kr d' (pg_safety g)).
Proof.
  assert (Hf : fresh (intended "NEW") (marker_of (intended "NEW"))) by (apply the_intent_is_fresh; by left).
  split; [exact Hf|].
  apply (restore_keeps_the_controller (intended "NEW") (marker_of (intended "NEW")) "instance" (world_of (intended "NEW") [])
    (intentResult (marker_of (intended "NEW"))) (snd (after_shutdown "NEW")) troubled eq_refl Hf).
  vm_compute. reflexivity.
Defined.

Lemma crashes_only_delay_witness : ready (the_marker "NEW") "OLD" "K1" "NEW" "K2" (promoted_disk "NEW") /\
  let d' := history (promoted_disk "NEW") many_crashes in
  (exists g, finished (the_marker "NEW") "OLD" "K1" "NEW" "K2" d' g) \/
  exists r w', run_attempt d' (now_at []) = (Done r, w') /\ applied (the_marker "NEW") "OLD" "K1" "NEW" "K2" r (w_disk w').
Proof.
  assert (Hr : ready (the_marker "NEW") "OLD" "K1" "NEW" "K2" (promoted_disk "NEW")) by (apply the_disk_is_ready; by left).
  split; [exact Hr|].
  exact (crashes_only_delay _ _ _ _ _ _ many_crashes (now_at []) Hr many_crashes_only eq_refl (the_attempt_goes_through [])).
Defined.

Lemma refused_pair_is_undone_witness : ready (the_marker "BAD") "OLD" "K1" "BAD" "K2" (promoted_disk "BAD") /\
  let d' := history (promoted_disk "BAD") troubled in
  exists e w', run_attempt d' (now_at []) = (Failed e, w') /\ at_ (w_disk w') db_path "OLD" /\ at_ (w_disk w') kr_path "K1" /\
    prepared_whole (w_disk w') (the_marker "BAD") /\ gone (w_disk w') (rollback_dir (the_marker "BAD")).
Proof.
  assert (Hr : ready (the_marker "BAD") "OLD" "K1" "BAD" "K2" (promoted_disk "BAD")) by (apply the_disk_is_ready; by right).
  split; [exact Hr|].
  exact (refused_pair_is_undone _ _ _ _ _ _ troubled (now_at []) Hr the_bad_pair_never_validates the_attempt_starts_well).
Defined.

Example many_crashes_then_applied : let d := history (promoted_disk "NEW") many_crashes in
  marker_state d <> stateReady /\ is_done (run_attempt d (now_at [])) = true /\
  data_of (next d (now_at [])) db_path = "NEW" /\ data_of (next d (now_at [])) kr_path = "K2".
Proof. vm_compute. split_and!; [discriminate|reflexivity..]. Qed.

Example a_refused_pair : let r := run_attempt (promoted_disk "BAD") (now_at []) in
  is_done r = false /\ data_of (w_disk (snd r)) db_path = "OLD" /\ data_of (w_disk (snd r)) kr_path = "K1" /\
  data_of (w_disk (snd r)) ["prep"; "db"] = "BAD" /\ marker_state (w_disk (snd r)) = stateSafety.
Proof. vm_compute. split_and!; reflexivity. Qed.

Lemma intent_run : exists w', the_creation "NEW" = (Done (Created (intentResult (marker_of (intended "NEW")))), w') /\
  w_disk w' = intended "NEW".
Proof.
  assert (E : fst (the_creation "NEW") = Done (Created (intentResult (marker_of (intended "NEW"))))) by (vm_compute; reflexivity).
  unfold intended at 2. unfold after_intent. destruct (the_creation "NEW") as [o w']. cbn [fst] in E. subst o. by exists w'.
Qed.

Lemma intent_ownership_witness : exists w', w_disk w' = intended "NEW" /\
  (forall q, q <> recovery_dir -> d_nodes (w_disk w') !! q = d_nodes (start_disk "NEW") !! q) /\
  d_marker (start_disk "NEW") = Absent /\ exists m, d_marker (w_disk w') = Holds m /\ validateMarker m = None /\
    m_State m = stateIntent /\ intentResult (marker_of (intended "NEW")) = intentResult m.
Proof.
  destruct intent_run as (w' & Hrun & Hd). exists w'. split; [exact Hd|].
  exact (intent_ownership the_pair (Some "K1") "export" "instance" (world_of (start_disk "NEW") []) _ w' Hrun).
Defined.

Lemma intentAAD_binds_witness : let m := marker_of (intended "NEW") in
  intentAAD m = intentAAD (the_marker "NEW") /\ m_ID m = m_ID (the_marker "NEW") /\ m_PreparedDatabaseFile m = m_PreparedDatabaseFile (the_marker "NEW").
Proof.
  intros m. assert (E : intentAAD m = intentAAD (the_marker "NEW")) by (vm_compute; reflexivity). split; [exact E|].
  destruct (intentAAD_binds m (the_marker "NEW") E) as (H1 & _ & _ & _ & _ & H2 & _). split; [exact H1|exact H2].
Defined.

(** ** The last step, its sync failed, its undoing interrupted *)

Definition stuck_disk : disk :=
  next (promoted_disk "NEW") (now_at (repeat Works 163 ++ [Fails] ++ repeat Works 24 ++ [Crashes])%list).

Lemma stuck_disk_files : data_of stuck_disk db_path = "OLD" /\ data_of stuck_disk kr_path = "K2" /\ marker_state stuck_disk = stateCleanup.
Proof. vm_compute. split_and!; reflexivity. Qed.
Lemma new_data_live : live_data (db_m (the_marker "NEW") "OLD" "NEW") = "NEW".
Proof. vm_compute. reflexivity. Qed.

Lemma stuck_disk_recoverable : recoverable (the_marker "NEW") "OLD" "K1" "NEW" "K2" stuck_disk.
Proof.
  pose proof (the_disk_is_ready "NEW" (or_introl eq_refl)) as Hr. apply (next_recoverable _ _ _ _ _ (proj1 Hr)).
  left. exists untouched. by apply ready_pre.
Qed.
Opaque stuck_disk.

Lemma holds_state d : marker_state d = stateCleanup -> exists m, d_marker d = Holds m /\ m_State m = stateCleanup.
Proof. unfold marker_state. destruct (d_marker d) as [| | |m]; try done. intros H. by exists m. Qed.
Lemma other_data d p x y : data_of d p = x -> x <> y -> ~ at_ d p y.
Proof. unfold data_of. intros <- Hn Hat. apply Hn. by rewrite (data_at_file _ _ _ Hat). Qed.
Lemma not_live : ~ at_ stuck_disk db_path (live_data (db_m (the_marker "NEW") "OLD" "NEW")).
Proof. rewrite new_data_live. apply (other_data _ _ "OLD"); [apply stuck_disk_files|discriminate]. Qed.

(** One I/O error and one crash: every later start refuses the restore, whatever
    it is given, and the old database beside the new keyring is what is there. *)
Lemma stuck_at_cleanup_witness : (data_of stuck_disk db_path = "OLD" /\ data_of stuck_disk kr_path = "K2") /\
  forall l, history stuck_disk l = stuck_disk.
Proof.
  destruct stuck_disk_files as (H1 & H2 & H3). split; [split; [exact H1|exact H2]|]. intros l.
  destruct (holds_state stuck_disk H3) as (m & Hm & Hst).
  exact (stuck_at_cleanup (the_marker "NEW") "OLD" "K1" "NEW" "K2" stuck_disk l m
    (proj1 (the_disk_is_ready "NEW" (or_introl eq_refl))) stuck_disk_recoverable Hm Hst not_live).
Defined.
End RestoreRuns.
